(* ===== verification/_CoqProject ===== *)
-Q . S2P
Prelude.v
BpfInstr.v
BpfVM.v
Bits.v
HpackHuffman.v
HpackTable.v
Hpack.v
HpackSync.v
HpackDecode.v
Flow.v
DataBuffer.v
Pipe.v
Frame.v
FrameWrite.v
FrameRead.v
HttpGuts.v
FrameMeta.v
WriteFrames.v
HeaderWrite.v
HeaderExchange.v
WriteSched.v
PriorityTree.v
PriorityWalk.v
PrioritySched.v
PriorityKept.v
PriorityMove.v
PriorityContract.v
PriorityOpen.v
PrioritySpec.v
ServerRequest.v
ServerConn.v
ServerFrames.v
Bufio.v
ServerResponse.v
ServerWriter.v
ServerSched.v
ServerPriority.v
ServerInv.v
ServerStep.v
ServerKeep.v
ServerFrameKeep.v
ServerRun.v
ServerCrash.v
ServerSafe.v
ServerReply.v
DnsMsg.v
DnsBody.v
DnsParser.v
DnsName.v
DnsSafe.v
DnsTrip.v
DnsMessage.v
WebdavPath.v
WebdavLock.v
WebdavHeap.v
WebdavTable.v
WebdavLockOk.v
WebdavLockOps.v
WebdavLockSpec.v
WebdavLockRun.v
WebdavIf.v
WebdavHandler.v
Websocket.v
WebsocketFrame.v
WebsocketConn.v
WebsocketSpec.v
WebdavFile.v
WebdavTree.v
WebdavFlat.v
WebdavFileSpec.v
WebdavFileOps.v
WebdavFileRun.v
WebdavFiles.v
WebdavCopy.v
Utf8.v
Punycode.v
PunycodeTrip.v
HtmlEntity.v
HtmlEscape.v
HtmlTrip.v
