(* ===== verification/Prelude.v ===== *)
(** * Verification of the Go networking library (golang.org/x/net)

    This library models, in Rocq, the parts of the repository that carry protocol
    logic, and proves what makes them correct.  Nothing is assumed: every theorem
    is closed under the global context.

    ** The program and its parts

    The repository is a collection of packages.  The ones modelled here are

    - [src/bpf]: an assembler, a disassembler and a virtual machine for the classic
      Berkeley packet filter.  [Assemble]/[Disassemble] (asm.go) map the
      instruction types of instructions.go to raw opcodes and back; [NewVM] (vm.go)
      validates a program and [Run] interprets it on a packet.
    - [src/http2/hpack]: header compression.  An [Encoder] (encode.go) and a
      [Decoder] (hpack.go) keep dynamic tables (tables.go) in step by exchanging
      header blocks whose strings may be Huffman coded (huffman.go).
    - [src/http2]: the [Framer] (frame.go) reads and writes frames; with
      [ReadMetaHeaders] set it feeds HEADERS and CONTINUATION frames to an HPACK
      decoder and merges them ([readMetaFrame]), checking fields with http2.go and
      [src/http/httpguts].  Received DATA goes through a [pipe] (pipe.go) over a
      chunked [dataBuffer] (databuffer.go); windows are kept by [flow] (flow.go).
      Frames to send wait in a [WriteScheduler] (writesched.go), which consumes the
      windows: at random (writesched_random.go) or by the dependency tree of the
      streams (writesched_priority.go).  The server's frame writers (write.go) and the
      client's [writeHeaders] (transport.go) encode header lists, with names lowered by
      headermap.go, and cut the block into frames.  The server (server.go) has one
      goroutine, [serve], that owns the connection: it takes frames from the reader,
      frames to write from handlers and messages from timers, opens and closes streams,
      starts handlers, and writes one frame at a time through the scheduler.
    - [src/dns/dnsmessage]: DNS messages (message.go).  [Message.Pack] and the
      incremental [Builder] write names through a compression map of the suffixes
      already written; [Message.Unpack] and the incremental [Parser] read them,
      following pointers.
    - [src/webdav]: the locks of a WebDAV server.  [memLS] (lock.go) keeps locks by name
      and by token and lets them expire through a heap; [confirmLocks] (webdav.go) takes
      or confirms locks for a request, as its If header (if.go) says.  [memFS] (file.go)
      is a tree of files in memory; [moveFiles] and [copyFiles] work on any [FileSystem].
    - [src/websocket]: frames (hybi.go) and the connections over them (websocket.go), which
      a program reads and writes as a stream ([Conn]) or by messages ([Codec]).
    - [src/idna]: [encode] and [decode] (punycode.go) of the labels of domain names.
    - [src/html]: [escape] and [unescape] (escape.go) with the named character references
      (entity.go).

    ** Files

    - Prelude (this file): outcomes of a Go call, machine integers, checked
      indexing and slicing, big-endian words, byte strings, shared lemmas and
      automation (hint database [gonet], tactics).
    - BpfInstr: bpf/constants.go, instructions.go, asm.go.  One definition per
      [Assemble] method, [raw_Disassemble], [jumpToRaw], [jumpOpToTest].
    - BpfVM: bpf/vm.go and vm_instructions.go, with the width [W] of the platform's
      [int] as a parameter, since the checks convert operands to [int].
    - Bits: bit strings of bytes and words, used by the Huffman proofs.
    - HpackHuffman: hpack/huffman.go and the two code tables of tables.go; the
      decoding tree is built by the program's own [buildRootHuffmanNode].
    - HpackTable: [headerFieldTable] (entries, [evictCount], the maps [byName] and
      [byNameValue]) and [dynamicTable], from tables.go and hpack.go.
    - Hpack: the rest of encode.go and hpack.go: variable-length integers, strings,
      [WriteField], [Write], [Close], [DecodeFull] and the representation parsers.
      The emit callback and the [io.Writer] are parameters of the definitions.
    - HpackSync: encoder and decoder together.
    - HpackDecode: the decoder alone on arbitrary input.
    - Flow, DataBuffer, Pipe: flow.go, databuffer.go, pipe.go.  Windows live in a
      store, so that a stream and its connection share a window as the pointers do;
      [sync.Pool] is the class [ChunkPool] with laws that allow stale bytes; the
      pipe is proved against the class [PipeBuffer], which [dataBuffer] implements.
    - Frame: frame.go, errors.go and the settings of http2.go: headers, parsers,
      order check, [readFrame] ([ReadFrame] up to header merging).
    - FrameWrite: the write methods of frame.go.
    - FrameRead: theorems on [readFrame].
    - HttpGuts: httpguts/httplex.go, http2/ascii.go, the name check of http2.go.
    - FrameMeta: [readMetaFrame] with its emit callback, [MetaHeadersFrame].
    - HeaderWrite: write.go, headermap.go and [ClientConn.writeHeaders]: every
      [writeFramer], [staysWithinBuffer], [encodeHeaders], [splitHeaderBlock].
    - HeaderExchange: header lists end to end, from those writers through the encoder
      and the wire to [readMetaFrame].
    - WriteFrames: the [writeFramer] types, apart from what writing them does.
    - WriteSched: writesched.go ([FrameWriteRequest], [Consume], [writeQueue], its
      pool), the class [WriteScheduler] with the laws [SchedulerLaws] that the
      interface's documentation promises, and writesched_random.go, an instance.
    - PriorityTree, PrioritySched: writesched_priority.go.  [PriorityTree] has the
      nodes, which live in a store so that parent, kid and sibling pointers alias as
      in the code, [setParent], [addBytes], [walkReadyInOrder], and the theory of the
      linked forest; [PrioritySched] has the operations of the scheduler.
    - PriorityWalk (paths, the walk, sorting of kids), PriorityMove (what the loops of
      [removeNode] and [AdjustStream] do to the tree), PriorityKept (what relinking keeps),
      PriorityContract (the invariant [pws_ok] and that each operation keeps it),
      PriorityOpen (the calls that the documentation of the interface allows, the streams
      that the caller opened and closed, and which of the calls panic), PrioritySpec
      (theorems on [Pop] and [AdjustStream], and defects).
    - ServerRequest: how server.go makes an [http.Request] from a merged HEADERS frame,
      and httpguts/guts.go.  ServerConn: [serverConn] and [stream] of server.go and every
      operation that writes frames, opens or closes streams; [scheduleFrameWrite] and its
      callees call each other, so they are defined over a [schedule].  ServerFrames:
      [processFrame] and its callees, handlers' and timers' messages as events, the rounds
      of [serve] and whole runs.  ServerWriter: [bufferedWriter] over [bufio.Writer].
    - ServerSched: the class [ServerScheduler], what the connection needs of a scheduler
      also when it is not used as documented, with the random scheduler as an instance;
      ServerPriority: the priority scheduler as an instance.
    - ServerInv (the invariant [Inv] of a connection and the measure of its write loop),
      ServerStep (the invariant under single updates), ServerKeep (every operation of
      ServerConn keeps it, and the write loop ends), ServerFrameKeep (every frame keeps
      it), ServerRun (rounds and runs), ServerSafe (the theorems about runs).
    - Bufio: [bufio.Writer] over any writer.  ServerResponse: [responseWriter] and
      [runHandler]; ServerReply: the frames and the body of a response.
    - ServerCrash: concrete runs that end in a panic of the serve goroutine.
    - DnsMsg (integers, texts, [Name], headers), DnsBody ([Question], the resource
      bodies, [Resource]), DnsParser ([Parser], [Message], [Builder]): message.go.  The
      compression map, which the code mutates, is returned also next to an error.
    - DnsName: names as lists of labels, [reads] (what a message says at an offset, over
      how many pointers) and the invariant [comp_ok] of the compression map.
    - DnsSafe: arbitrary bytes.  DnsTrip: each part packed and read back.  DnsMessage:
      whole messages, the [Builder], and where writing and reading part ways.
    - WebdavPath ([slashClean], [walkToRoot], names as lists of elements), WebdavLock
      (lock.go: nodes in a store, so that the maps, the heap and the release functions
      share them, and the operations with container/heap), WebdavHeap (the heap keeps
      indices and order), WebdavTable (the abstract table of locks), WebdavLockOk and
      WebdavLockOps (invariant [ls_ok], abstraction [table_of], inner operations),
      WebdavLockSpec (each method against the table), WebdavLockRun (runs of calls).
    - WebdavIf: if.go and [parseTimeout].  WebdavHandler: the class [LockSystem] with
      the laws [LockSystemLaws], its instance [memLS], and [confirmLocks].
    - WebdavFile: file.go.  Nodes live in a store, so that directories and open files share
      them; [moveFiles] and [copyFiles] are defined over the class [FileSystem].
      WebdavTree: the invariant [fs_ok] of the tree and what names stand for ([resolve]).
      WebdavFlat: the abstract file system [flat], a finite map of names, an instance of
      the class too.  WebdavFileSpec (the abstraction [refines]), WebdavFileOps (each
      method), WebdavFileRun (runs, and the simulation of any program over the class),
      WebdavFiles (the theorems on runs, bytes and MOVE), WebdavCopy (COPY).
    - Websocket: hybi.go and websocket.go, over any way in which the bytes of the
      connection arrive.  WebsocketFrame: the header of a frame written and read back;
      WebsocketConn: streams of frames; WebsocketSpec: messages, streams and bounds.
    - Utf8: code points and strings.  Punycode: punycode.go, with int32 sums that detect
      overflow as [madd] does; PunycodeTrip: [decode] follows [encode].
    - HtmlEntity: the tables of entity.go.  HtmlEscape: escape.go, with the cursors into the
      one buffer that [unescape] reads and writes; HtmlTrip: that it may, and escaping and back.

    ** How Go is modelled

    Unsigned w-bit integers are [Z] with the wrap-around written out ([u8] ... [u64]),
    [int] is [Z] with [swrap] where the code converts to it.  Byte slices and strings
    are lists of [Z]; where a theorem needs them to be bytes it says [bytes_ok].
    Indexing and slicing return [option], [None] being the run-time panic.  A call
    that may return an error has type [outcome] (value, error or panic), a sum, or a
    tuple with the state when the code changes state before failing.

    Loops that are not structural take fuel: [vm_loop] (theorem [Run_safe]: the
    length of the program plus one is enough), the Huffman loops (each iteration
    consumes at least one bit, so nine are enough for the tail; [huffmanDecode_total]),
    [writeLoop] (every representation has at least one byte; [Write_robust]),
    [readLoop] and [writeChunks] of the buffer ([dataBuffer_refines_queue] shows that
    they return), [metaLoop] ([ReadFrame_total]), the loops over the priority tree
    (the number of nodes in the store; [priority_scheduler_safe] shows that it is
    enough in every reachable state), the DNS loops ([parser_safe]: a name follows ten
    pointers and between two of them moves forward, [unpackFuel]; a section has at most
    65535 entries, [allFuel]), [walkLoop] (the name gets shorter), the heap's [up] and
    [downLoop], [collectLoop] (every round empties the heap by one), the If header's loops
    (every token has a byte; [parseIfHeader_grammar]), the write loop of the server
    ([scheduleLoop]: a round for every frame that waits, byte of data and stream that can
    be closed, [measure]; [serve_terminates]), [updateLoop] (an int32 takes one round) and
    [bufio_loop] (two rounds, [bufio_Write_total]; three below a response,
    [late_Write_total]), [walkDir] (every round drops a byte of the name), [io_Copy] (every
    round reads a byte; [flat_io_Copy]), [copyFiles] (the 1000 levels after which the code
    gives up), and the websocket loops (every round takes bytes of what is left to read;
    [receive_bounded], [stream_received]), [decodeLoop] and [unescapeLoop] (a byte each
    round; [decode_total], [unescape_in_place]), [encodeLoop] (a code point each round) and
    [encodeInt] (a tenth of the number remains; [punycode_roundtrip]), [escape] (a byte
    each round; [escape_roundtrip]).  Theorems never say only "if it returns".

    Go's order of iteration over a map is a function from the map to a list of its
    keys, and [sort.Sort] any function that returns a permutation; theorems quantify
    over both.  Floating point numbers are those of [SpecFloat] (IEEE 754 binary64).

    ** What the theorems show

    - bpf: assembling and disassembling are inverse exactly on the canonical
      programs, and disassembly is stable on every program; accepted programs are
      memory safe and terminate where [int] has 64 bits; the disassembled program
      runs alike; the documented ARP filter selects ARP.  Where [int] has 32 bits
      safety fails, which is proved too.
    - hpack: Huffman coding and integers round-trip; the hash-indexed table refines
      a list; blocks arrive as sent over whole connections, with table size changes;
      the decoder is insensitive to fragmentation and survives arbitrary bytes.  A
      second size update in one block is rejected when the table is not empty.
    - http2: every frame written reads back; reading is safe on arbitrary bytes;
      header blocks are contiguous; merged header lists are valid and bounded, and
      merging terminates; the data buffer refines a byte queue, the pipe is FIFO and
      reports the right error, the windows are a ledger without overflow.
    - schedulers: the random scheduler delivers the bytes of each stream in order,
      pays for them from the windows, and sends whenever something can be sent.  The
      priority scheduler never loops, and of the calls that its documentation allows only
      those panic that close, or push DATA to, an open stream whose node it has evicted,
      which happens to streams that were idle nodes when they were opened; [Pop] serves
      a stream only if none it depends on could send; [AdjustStream] builds the tree
      that RFC 7540 describes.  Removing a node with several kids strands all but one
      of them, and the weight 256 is computed as 0: proved too.
    - headers end to end: what the server's writers and the client's [writeHeaders]
      send arrives as the same header lists, in order, on a connection of any length;
      [staysWithinBuffer] bounds what a frame writer writes.
    - server: for any client, any handlers that write to their own streams, and either
      scheduler, in every run nothing but RST_STREAM follows an RST_STREAM, no message
      goes on after END_STREAM (random scheduler), streams and handlers stay within the
      limits, a body holds what was counted and at most what was declared, it ends only when
      it is complete, and the loops end.  These are
      statements about runs in which the serve goroutine does not panic; ServerCrash
      shows that some do panic, one of them at the will of the client, and that the
      receive window can be credited twice.
    - responses: what a handler calls becomes frames that follow RFC 7540 8.1 and carry the
      bytes that its writes reported, with the right length, and these frames are those
      that the theorems on [serve] assume of handlers.
    - dnsmessage: messages round-trip through compression, the [Builder] writes what
      [Pack] writes, the [Parser] is safe on arbitrary bytes and returns well-typed
      values, skipping agrees with parsing.  [Pack] can write names that [Unpack] rejects
      (eleven labels) and a record that the [Builder] refuses can corrupt the next one:
      both are proved.
    - webdav: any run of calls on a [memLS] refines a table of locks that never lets two
      locks cover one name; nothing leaks when locks end; the If header parser decides its
      own dialect of the grammar, which has the headers of RFC 4918 with their meaning but
      for the case of [Not] and brackets in entity tags; [confirmLocks] succeeds only with locks that cover what it confirms, and
      gives up what it took.  A header with resource tags replaces the resource of the
      request, so that other clients' locks on it do not count: proved.  Any program over
      the file system in memory sees a finite map from names to files; written bytes are
      those that are read; MOVE and COPY leave exactly the names, bytes and properties
      that they should.  MOVE onto a directory above the source deletes both: proved.
    - websocket: what one end sends the other receives, as messages or as a stream, for any
      masking keys, buffer sizes and cuts of the byte stream, pings are answered, and no
      message is longer than the limit.  A message that the connection cuts short is
      received as if it were whole: proved ([truncated_message]).
    - idna: every string of up to 1024 code points survives Punycode, and no int32 overflows
      on the way; [decode] returns on every text.
    - html: unescaping in place gives what a fresh copy would give, since no reference is
      shorter than its characters; escaping and back is the identity, as the comment says.
      Numbers without digits, or beyond 32 bits, are read otherwise than the standard that
      the code cites says: proved.
    - httpguts: the token list and header name predicates decide their grammars.

    ** What is not modelled

    Network connections and net/http glue: of http2 server.go the configuration, the
    preface, TLS checks, timers (they are events), [upgradeRequest], [Push] and
    [CloseNotify] of a handler and the copying of trailers to its request;
    transport.go and client_conn_pool.go.  Of the goroutines of a server's connection
    only what they send to [serve] and what handlers do to a body is modelled, as events
    in any order.  Also not: debug logging, frame invalidation and buffer reuse, the
    [String] methods of bpf instructions, the printing of DNS messages, generated Unicode and suffix tables, and
    the packages over system calls (ipv4, ipv6, icmp, route, internal/socket, lif).
    Of webdav not [Dir], which calls the operating system, [walkFS], the handlers beyond
    locks, properties (prop.go) and XML (xml.go); of websocket not the handshake over
    net/http, the JSON codec and deadlines.  The mutexes of [memFS] and its nodes make each
    method one step.  Of idna not the mapping of labels, of html not the tokenizer and the
    parser.  In webdav, copies of a directory with its children are modelled and agree with
    the abstract file system ([copyFiles_sim]), but only COPY of a file has a specification.
    A [Read] that waits on the pipe's condition variable is the outcome [Wait];
    each method of the pipe is one critical section of its mutex, and theorems
    quantify over all their interleavings.

    ** Plan

    Next: COPY of directories, the HTML tokenizer, the client's transport. *)

From Stdlib Require Export ZArith Lia Bool.
From stdpp Require Export base numbers list gmap strings.

#[global] Open Scope Z_scope.

(** ** Outcomes of a Go call

    A Go call returns normally, returns a non-nil error, or panics.  Calls that
    return a value together with an error keep the pair explicit. *)
Inductive outcome (E A : Type) : Type :=
| Ret (a : A)
| Fail (e : E)
| Panic.
Arguments Ret {E A} a.
Arguments Fail {E A} e.
Arguments Panic {E A}.

Definition obind {E A B} (m : outcome E A) (k : A -> outcome E B) : outcome E B :=
  match m with
  | Ret a => k a
  | Fail e => Fail e
  | Panic => Panic
  end.

Declare Scope go_scope.
Delimit Scope go_scope with go.
Notation "'let!' x ':=' m 'in' k" := (obind m (fun x => k))
  (at level 10, x binder, m at level 200, k at level 200) : go_scope.
#[global] Open Scope go_scope.

(** ** Machine integers

    An unsigned w-bit integer is a [Z] in [[0, 2^w)]; conversions and wrapping
    arithmetic are written with the functions below.  A signed w-bit integer is
    a [Z] in [[-2^(w-1), 2^(w-1))]. *)
Definition u8 (x : Z) : Z := x mod 2 ^ 8.
Definition u16 (x : Z) : Z := x mod 2 ^ 16.
Definition u32 (x : Z) : Z := x mod 2 ^ 32.
Definition u64 (x : Z) : Z := x mod 2 ^ 64.

Definition swrap (w x : Z) : Z := (x + 2 ^ (w - 1)) mod 2 ^ w - 2 ^ (w - 1).

Definition is_u8 (x : Z) : Prop := 0 <= x < 2 ^ 8.
Definition is_u16 (x : Z) : Prop := 0 <= x < 2 ^ 16.
Definition is_u32 (x : Z) : Prop := 0 <= x < 2 ^ 32.
Definition is_u64 (x : Z) : Prop := 0 <= x < 2 ^ 64.

(** Byte strings: a Go [[]byte] or [string]. *)
Abbreviation bytes := (list Z).
Definition bytes_ok (l : bytes) : Prop := Forall is_u8 l.

Definition zlen {A} (l : list A) : Z := Z.of_nat (length l).

(** Indexing and slicing with Go's run-time checks: [None] is the panic. *)
Definition zget {A} (l : list A) (i : Z) : option A :=
  if 0 <=? i then l !! Z.to_nat i else None.

Definition zset {A} (l : list A) (i : Z) (x : A) : option (list A) :=
  if (0 <=? i) && (i <? zlen l) then Some (<[Z.to_nat i := x]> l) else None.

Definition zslice {A} (l : list A) (lo hi : Z) : option (list A) :=
  if (0 <=? lo) && (lo <=? hi) && (hi <=? zlen l)
  then Some (take (Z.to_nat (hi - lo)) (drop (Z.to_nat lo) l)) else None.

(** Big-endian integers ([encoding/binary]). *)
Definition be16 (a b : Z) : Z := Z.lor (Z.shiftl a 8) b.
Definition be32 (a b c d : Z) : Z :=
  Z.lor (Z.lor (Z.lor (Z.shiftl a 24) (Z.shiftl b 16)) (Z.shiftl c 8)) d.

(** ** Automation *)
Create HintDb gonet.

(** Case analysis on every [match] or [if] scrutinee of the goal. *)
Ltac split_match :=
  match goal with
  | |- context [match ?x with _ => _ end] =>
      lazymatch x with
      | context [match _ with _ => _ end] => fail
      | _ => destruct x eqn:?
      end
  end.

Ltac split_match_in H :=
  match type of H with
  | context [match ?x with _ => _ end] =>
      lazymatch x with
      | context [match _ with _ => _ end] => fail
      | _ => destruct x eqn:?
      end
  end.

(** Boolean comparisons of the code into propositions. *)
Ltac breflect :=
  repeat match goal with
  | H : (_ && _) = true |- _ => apply andb_true_iff in H as [? ?]
  | H : (_ || _) = false |- _ => apply orb_false_iff in H as [? ?]
  | H : negb _ = true |- _ => apply negb_true_iff in H
  | H : negb _ = false |- _ => apply negb_false_iff in H
  | H : (_ =? _) = true |- _ => apply Z.eqb_eq in H
  | H : (_ =? _) = false |- _ => apply Z.eqb_neq in H
  | H : (_ <? _) = true |- _ => apply Z.ltb_lt in H
  | H : (_ <? _) = false |- _ => apply Z.ltb_ge in H
  | H : (_ <=? _) = true |- _ => apply Z.leb_le in H
  | H : (_ <=? _) = false |- _ => apply Z.leb_gt in H
  | H : (_ >? _) = true |- _ => rewrite Z.gtb_ltb in H
  | H : (_ >? _) = false |- _ => rewrite Z.gtb_ltb in H
  | H : (_ >=? _) = true |- _ => rewrite Z.geb_leb in H
  | H : (_ >=? _) = false |- _ => rewrite Z.geb_leb in H
  end.

(** ** Shared lemmas *)
Lemma obind_Ret {E A B} (m : outcome E A) (k : A -> outcome E B) b :
  obind m k = Ret b -> exists a, m = Ret a /\ k a = Ret b.
Proof. destruct m; simpl; intros; try discriminate; eauto. Qed.

Lemma u8_id x : is_u8 x -> u8 x = x.
Proof. apply Z.mod_small. Qed.
Lemma u16_id x : is_u16 x -> u16 x = x.
Proof. apply Z.mod_small. Qed.
Lemma u32_id x : is_u32 x -> u32 x = x.
Proof. apply Z.mod_small. Qed.
Lemma u64_id x : is_u64 x -> u64 x = x.
Proof. apply Z.mod_small. Qed.

Lemma u8_range x : is_u8 (u8 x).
Proof. apply Z.mod_pos_bound. lia. Qed.
Lemma u16_range x : is_u16 (u16 x).
Proof. apply Z.mod_pos_bound. lia. Qed.
Lemma u32_range x : is_u32 (u32 x).
Proof. apply Z.mod_pos_bound. lia. Qed.
Lemma u64_range x : is_u64 (u64 x).
Proof. apply Z.mod_pos_bound. lia. Qed.

#[export] Hint Resolve u8_range u16_range u32_range u64_range : gonet.

Lemma swrap_id w x : 0 < w -> - 2 ^ (w - 1) <= x < 2 ^ (w - 1) -> swrap w x = x.
Proof.
  intros Hw Hx. unfold swrap.
  assert (2 ^ w = 2 * 2 ^ (w - 1)) as E.
  { rewrite <- Z.pow_succ_r by lia. f_equal. lia. }
  rewrite Z.mod_small; lia.
Qed.

Lemma zlen_nonneg {A} (l : list A) : 0 <= zlen l.
Proof. unfold zlen. lia. Qed.

Lemma zlen_cons {A} (x : A) l : zlen (x :: l) = zlen l + 1.
Proof. unfold zlen. simpl. lia. Qed.

Lemma zlen_app {A} (l k : list A) : zlen (l ++ k) = zlen l + zlen k.
Proof. unfold zlen. rewrite length_app. lia. Qed.

Lemma zget_in {A} (l : list A) i : 0 <= i < zlen l -> exists x, zget l i = Some x.
Proof.
  intros [Hl Hu]. unfold zget, zlen in *.
  destruct (Z.leb_spec 0 i); [|lia].
  apply lookup_lt_is_Some_2. lia.
Qed.

Lemma zget_lookup {A} (l : list A) i x : zget l i = Some x -> l !! Z.to_nat i = Some x.
Proof. unfold zget. destruct (0 <=? i); done. Qed.

Lemma zget_Some {A} (l : list A) i x : zget l i = Some x -> 0 <= i < zlen l.
Proof.
  unfold zget, zlen. destruct (Z.leb_spec 0 i); [|discriminate].
  intros Hx%lookup_lt_Some. lia.
Qed.

Lemma zget_u8 (l : bytes) i x : bytes_ok l -> zget l i = Some x -> is_u8 x.
Proof.
  unfold zget. intros Hl. destruct (0 <=? i); [|discriminate].
  intros Hx. eapply Forall_lookup_1 in Hl; eauto.
Qed.

(** [Z.land] with a non-negative mask stays between 0 and the mask. *)
Lemma land_bound x m : 0 <= m -> 0 <= Z.land x m <= m.
Proof.
  intros Hm. split; [apply Z.land_nonneg; auto|].
  destruct (Z.eq_dec m 0) as [->|]; [rewrite Z.land_0_r; lia|].
  assert (Z.ldiff m (Z.land x m) = m - Z.land x m) as E.
  { symmetry. apply Z.sub_nocarry_ldiff. apply Z.bits_inj'. intros k Hk.
    rewrite Z.ldiff_spec, Z.land_spec, Z.bits_0.
    destruct (Z.testbit x k), (Z.testbit m k); reflexivity. }
  assert (0 <= Z.ldiff m (Z.land x m)) by (apply Z.ldiff_nonneg; lia).
  lia.
Qed.

Lemma lor_bound w x y : 0 <= w -> 0 <= x < 2 ^ w -> 0 <= y < 2 ^ w -> 0 <= Z.lor x y < 2 ^ w.
Proof.
  intros Hw Hx Hy. split; [apply Z.lor_nonneg; lia|].
  destruct (Z.eq_dec (Z.lor x y) 0) as [->|]; [lia|].
  assert (0 <= Z.lor x y) by (apply Z.lor_nonneg; lia).
  apply Z.log2_lt_pow2; [lia|].
  rewrite Z.log2_lor by lia.
  assert (forall z, 0 <= z < 2 ^ w -> z <> 0 -> Z.log2 z < w) as L.
  { intros z Hz Hz0. apply Z.log2_lt_pow2; lia. }
  destruct (Z.eq_dec x 0) as [->|], (Z.eq_dec y 0) as [->|];
    rewrite ?Z.lor_0_l, ?Z.lor_0_r in *; try lia.
  - pose proof (L y Hy ltac:(lia)). change (Z.log2 0) with 0.
    pose proof (Z.log2_nonneg y). lia.
  - pose proof (L x Hx ltac:(lia)). change (Z.log2 0) with 0.
    pose proof (Z.log2_nonneg x). lia.
  - pose proof (L y Hy ltac:(lia)). pose proof (L x Hx ltac:(lia)). lia.
Qed.

(** Disjoint bit fields add up. *)
Lemma lor_shiftl_add a b n : 0 <= n -> 0 <= b < 2 ^ n -> Z.lor (Z.shiftl a n) b = a * 2 ^ n + b.
Proof.
  intros Hn Hb. rewrite <- Z.shiftl_mul_pow2 by lia. symmetry. apply Z.add_nocarry_lor.
  apply Z.bits_inj'. intros k Hk. rewrite Z.land_spec, Z.bits_0.
  destruct (Z.lt_ge_cases k n).
  - rewrite Z.shiftl_spec_low by lia. done.
  - replace (Z.testbit b k) with false; [apply andb_false_r|].
    symmetry. destruct (Z.eq_dec b 0) as [->|]; [apply Z.bits_0|].
    apply Z.bits_above_log2; [lia|].
    apply Z.lt_le_trans with n; [|lia]. apply Z.log2_lt_pow2; lia.
Qed.

Lemma be16_val a b : is_u8 b -> be16 a b = a * 2 ^ 8 + b.
Proof. intros. apply lor_shiftl_add; [lia|done]. Qed.

Lemma be32_val a b c d :
  is_u8 b -> is_u8 c -> is_u8 d ->
  be32 a b c d = a * 2 ^ 24 + b * 2 ^ 16 + c * 2 ^ 8 + d.
Proof.
  unfold is_u8, be32. intros.
  rewrite !Z.shiftl_mul_pow2 by lia.
  assert (forall x y n, 0 <= n -> 0 <= y < 2 ^ n -> Z.lor (x * 2 ^ n) y = x * 2 ^ n + y) as E.
  { intros x y n Hn Hy. rewrite <- lor_shiftl_add, Z.shiftl_mul_pow2 by lia. done. }
  rewrite (E a) by lia.
  replace (a * 2 ^ 24 + b * 2 ^ 16) with ((a * 2 ^ 8 + b) * 2 ^ 16) by lia.
  rewrite E by lia.
  replace ((a * 2 ^ 8 + b) * 2 ^ 16 + c * 2 ^ 8) with ((a * 2 ^ 16 + b * 2 ^ 8 + c) * 2 ^ 8) by lia.
  rewrite E by lia. lia.
Qed.

Lemma be16_range a b : is_u8 a -> is_u8 b -> is_u16 (be16 a b).
Proof. unfold is_u16. intros Ha Hb. rewrite be16_val by done. unfold is_u8 in *. lia. Qed.

Lemma be32_range a b c d : is_u8 a -> is_u8 b -> is_u8 c -> is_u8 d -> is_u32 (be32 a b c d).
Proof. unfold is_u32. intros. rewrite be32_val by done. unfold is_u8 in *. lia. Qed.

#[export] Hint Resolve be16_range be32_range : gonet.

(** Value of a big-endian byte string. *)
Definition be_value (l : bytes) : Z := fold_left (fun acc b => acc * 2 ^ 8 + b) l 0.

Definition zsub (l : bytes) (off n : Z) : bytes := take (Z.to_nat n) (drop (Z.to_nat off) l).

Lemma bytes_ok_sub l off n : bytes_ok l -> bytes_ok (zsub l off n).
Proof. intros. apply Forall_take, Forall_drop. done. Qed.

Lemma zlen_zsub l off n :
  0 <= off -> 0 <= n -> off + n <= zlen l -> length (zsub l off n) = Z.to_nat n.
Proof. unfold zlen, zsub. intros. rewrite length_take, length_drop. lia. Qed.

Lemma zget_zsub l off : 0 <= off < zlen l -> exists x, zget l off = Some x /\ zsub l off 1 = [x].
Proof.
  intros H. destruct (zget_in l off H) as [x Hx]. exists x. split; [done|].
  unfold zget, zsub in *. destruct (0 <=? off); [|done].
  apply drop_S in Hx. rewrite Hx. done.
Qed.

Lemma zslice_zsub l off n :
  0 <= off -> 0 <= n -> off + n <= zlen l -> zslice l off (off + n) = Some (zsub l off n).
Proof.
  intros. unfold zslice. destruct (Z.leb_spec 0 off), (Z.leb_spec off (off + n)),
    (Z.leb_spec (off + n) (zlen l)); try lia.
  simpl. unfold zsub. do 3 f_equal. lia.
Qed.

(** ** Go string constants *)
Definition str (s : String.string) : bytes :=
  map (fun a => Z.of_N (Ascii.N_of_ascii a)) (String.list_ascii_of_string s).
Arguments str s%_string.

Lemma str_ok s : bytes_ok (str s).
Proof.
  unfold str, bytes_ok. apply Forall_forall. intros x Hx. apply list_elem_of_In in Hx.
  apply in_map_iff in Hx as (a & <- & _). unfold is_u8.
  pose proof (Ascii.N_ascii_bounded a). lia.
Qed.

(** *** Package strconv *)
Fixpoint digits (fuel : nat) (n : Z) : bytes :=
  match fuel with
  | O => []
  | S fuel => (if n <? 10 then [] else digits fuel (n / 10)) ++ [48 + n mod 10]
  end.

Definition Itoa (n : Z) : bytes := if n <? 0 then 45 :: digits 20 (- n) else digits 20 n.

(** [FormatUint] in base 10. *)
Definition FormatUint (n : Z) : bytes := digits 20 n.

Definition digits_value (s : bytes) : Z := fold_left (fun v d => v * 10 + (d - 48)) s 0.

Lemma digits_value_digits fuel n : 0 <= n < 10 ^ Z.of_nat fuel -> digits_value (digits fuel n) = n.
Proof.
  revert n. induction fuel as [|fuel IH]; intros n Hn; [cbn in Hn; unfold digits_value; cbn; lia|].
  rewrite Nat2Z.inj_succ, Z.pow_succ_r in Hn by lia. cbn [digits]. unfold digits_value in *. rewrite fold_left_app.
  pose proof (Z.div_mod n 10 ltac:(lia)). pose proof (Z.mod_pos_bound n 10 ltac:(lia)).
  destruct (Z.ltb_spec n 10); [cbn [fold_left]; rewrite Z.mod_small by lia; lia|]. rewrite IH by lia. cbn [fold_left]. lia.
Qed.

Lemma FormatUint_inj a b : is_u64 a -> is_u64 b -> FormatUint a = FormatUint b -> a = b.
Proof.
  unfold is_u64, FormatUint. intros Ha Hb E. rewrite <- (digits_value_digits 20 a), E by lia. apply digits_value_digits. lia.
Qed.

Lemma FormatUint_nonempty n : FormatUint n <> [].
Proof. unfold FormatUint. cbn [digits]. intros E. by apply app_eq_nil in E as [_ ?]. Qed.

(** The value of the digits in [s], after those read so far; [None] if another byte is there. *)
Fixpoint decimal (acc : Z) (s : bytes) : option Z :=
  match s with
  | [] => Some acc
  | b :: s => if (48 <=? b) && (b <=? 57) then decimal (10 * acc + (b - 48)) s else None
  end.

Lemma decimal_nonneg s : forall acc n, 0 <= acc -> decimal acc s = Some n -> 0 <= n.
Proof.
  induction s as [|b s IH]; intros acc n Ha; cbn; [by intros [= <-]|]. destruct (Z.leb_spec 48 b); [|done].
  destruct (b <=? 57); [|done]. intros E. eapply IH; [|exact E]. lia.
Qed.

(** *** Package strings *)
Fixpoint HasPrefix (s prefix : bytes) : bool :=
  match prefix, s with
  | [], _ => true
  | p :: prefix, b :: s => (b =? p) && HasPrefix s prefix
  | _ :: _, [] => false
  end.

Lemma HasPrefix_app s t : HasPrefix (t ++ s) t = true.
Proof. induction t as [|b t IH]; [by destruct s|]. cbn. by rewrite Z.eqb_refl. Qed.

Lemma HasPrefix_spec s t : HasPrefix s t = true <-> exists r, s = t ++ r.
Proof.
  split; [|intros [r ->]; apply HasPrefix_app]. revert s. induction t as [|b t IH]; intros s H; [by exists s|].
  destruct s as [|c s]; [done|]. cbn in H. apply andb_true_iff in H as [->%Z.eqb_eq H]. destruct (IH s H) as [r ->]. by exists r.
Qed.

(** Exhaustive checks on a small range of integers. *)
Lemma forallb_range (P : Z -> bool) n :
  forallb P (seqZ 0 n) = true -> forall x, 0 <= x < n -> P x = true.
Proof.
  intros H x Hx. rewrite forallb_forall in H. apply H.
  rewrite <- list_elem_of_In, elem_of_seqZ. lia.
Qed.

Lemma rev_lookup {A} (l : list A) i x :
  rev l !! i = Some x -> l !! (length l - S i)%nat = Some x /\ (i < length l)%nat.
Proof. rewrite rev_alt. apply reverse_lookup_Some. Qed.
