(* ===== verification/BpfInstr.v ===== *)
(** * Package bpf: instructions, assembler and disassembler

    Models src/bpf/constants.go, src/bpf/instructions.go (everything but the
    [String] methods) and src/bpf/asm.go.  Named integer types ([Register],
    [ALUOp], [JumpTest], [Extension]) stay integers, as in Go, so values outside
    the declared constants exist and take the code's default branches. *)

From S2P Require Import Prelude.

(** ** Constants (constants.go) *)
Definition RegA : Z := 0.
Definition RegX : Z := 1.

Definition ALUOpAdd : Z := 0x00.
Definition ALUOpSub : Z := 0x10.
Definition ALUOpMul : Z := 0x20.
Definition ALUOpDiv : Z := 0x30.
Definition ALUOpOr : Z := 0x40.
Definition ALUOpAnd : Z := 0x50.
Definition ALUOpShiftLeft : Z := 0x60.
Definition ALUOpShiftRight : Z := 0x70.
Definition aluOpNeg : Z := 0x80.
Definition ALUOpMod : Z := 0x90.
Definition ALUOpXor : Z := 0xa0.

Definition JumpEqual : Z := 0.
Definition JumpNotEqual : Z := 1.
Definition JumpGreaterThan : Z := 2.
Definition JumpLessThan : Z := 3.
Definition JumpGreaterOrEqual : Z := 4.
Definition JumpLessOrEqual : Z := 5.
Definition JumpBitsSet : Z := 6.
Definition JumpBitsNotSet : Z := 7.

Definition extOffset : Z := -0x1000.
Definition ExtLen : Z := 1.
Definition ExtProto : Z := 0.
Definition ExtType : Z := 4.
Definition ExtPayloadOffset : Z := 52.
Definition ExtInterfaceIndex : Z := 8.
Definition ExtNetlinkAttr : Z := 12.
Definition ExtNetlinkAttrNested : Z := 16.
Definition ExtMark : Z := 20.
Definition ExtQueue : Z := 24.
Definition ExtLinkLayerType : Z := 28.
Definition ExtRXHash : Z := 32.
Definition ExtCPUID : Z := 36.
Definition ExtVLANTag : Z := 44.
Definition ExtVLANTagPresent : Z := 48.
Definition ExtVLANProto : Z := 60.
Definition ExtRand : Z := 56.

Definition opMaskCls : Z := 0x7.
Definition opMaskLoadDest : Z := 0x01.
Definition opMaskLoadWidth : Z := 0x18.
Definition opMaskLoadMode : Z := 0xe0.
Definition opMaskOperand : Z := 0x08.
Definition opMaskOperator : Z := 0xf0.

Definition opClsLoadA : Z := 0.
Definition opClsLoadX : Z := 1.
Definition opClsStoreA : Z := 2.
Definition opClsStoreX : Z := 3.
Definition opClsALU : Z := 4.
Definition opClsJump : Z := 5.
Definition opClsReturn : Z := 6.
Definition opClsMisc : Z := 7.

Definition opAddrModeImmediate : Z := 0x00.
Definition opAddrModeAbsolute : Z := 0x20.
Definition opAddrModeIndirect : Z := 0x40.
Definition opAddrModeScratch : Z := 0x60.
Definition opAddrModePacketLen : Z := 0x80.
Definition opAddrModeMemShift : Z := 0xa0.

Definition opLoadWidth4 : Z := 0x00.
Definition opLoadWidth2 : Z := 0x08.
Definition opLoadWidth1 : Z := 0x10.

Definition opOperandConstant : Z := 0x00.
Definition opOperandX : Z := 0x08.

Definition opJumpAlways : Z := 0x00.
Definition opJumpEqual : Z := 0x10.
Definition opJumpGT : Z := 0x20.
Definition opJumpGE : Z := 0x30.
Definition opJumpSet : Z := 0x40.

Definition opRetSrcConstant : Z := 0x00.
Definition opRetSrcA : Z := 0x10.

Definition opMiscTAX : Z := 0x00.
Definition opMiscTXA : Z := 0x80.

(** ** Instructions (instructions.go) *)
Record RawInstruction := mkRaw {
  ri_Op : Z;   (* uint16 *)
  ri_Jt : Z;   (* uint8 *)
  ri_Jf : Z;   (* uint8 *)
  ri_K : Z     (* uint32 *)
}.

(** The implementations of the [Instruction] interface in the package. *)
Inductive Instruction :=
| Raw (ri : RawInstruction)
| LoadConstant (Dst Val : Z)
| LoadScratch (Dst N : Z)
| LoadAbsolute (Off Size : Z)
| LoadIndirect (Off Size : Z)
| LoadMemShift (Off : Z)
| LoadExtension (Num : Z)
| StoreScratch (Src N : Z)
| ALUOpConstant (Op Val : Z)
| ALUOpX (Op : Z)
| NegateA
| Jump (Skip : Z)
| JumpIf (Cond Val SkipTrue SkipFalse : Z)
| JumpIfX (Cond SkipTrue SkipFalse : Z)
| RetA
| RetConstant (Val : Z)
| TXA
| TAX.

#[export] Instance RawInstruction_eq_dec : EqDecision RawInstruction.
Proof. solve_decision. Defined.
#[export] Instance Instruction_eq_dec : EqDecision Instruction.
Proof. solve_decision. Defined.

(** Errors carry the values the code formats into its messages. *)
Inductive bpf_error :=
| ErrTargetRegister (dst : Z)
| ErrLoadByteLength (sz : Z)
| ErrScratchSlot (n : Z)
| ErrSourceRegister (src : Z)
| ErrJumpTest (test : Z)
| ErrAssembling (i : Z) (e : bpf_error).

Abbreviation go := (outcome bpf_error).

(** The message of the load-length error formats [sz], which is still zero when
    the error is built, and not the rejected [loadSize]. *)
Definition assembleLoad (dst loadSize mode k : Z) : go RawInstruction :=
  let! cls := (if dst =? RegA then Ret opClsLoadA
               else if dst =? RegX then Ret opClsLoadX
               else Fail (ErrTargetRegister dst)) in
  let! sz := (if loadSize =? 1 then Ret opLoadWidth1
              else if loadSize =? 2 then Ret opLoadWidth2
              else if loadSize =? 4 then Ret opLoadWidth4
              else Fail (ErrLoadByteLength 0)) in
  Ret (mkRaw (Z.lor (Z.lor cls sz) mode) 0 0 k).

Definition jumpToRaw (test operand k skipTrue skipFalse : Z) : go RawInstruction :=
  let! cf := (if test =? JumpEqual then Ret (opJumpEqual, false)
              else if test =? JumpNotEqual then Ret (opJumpEqual, true)
              else if test =? JumpGreaterThan then Ret (opJumpGT, false)
              else if test =? JumpLessThan then Ret (opJumpGE, true)
              else if test =? JumpGreaterOrEqual then Ret (opJumpGE, false)
              else if test =? JumpLessOrEqual then Ret (opJumpGT, true)
              else if test =? JumpBitsSet then Ret (opJumpSet, false)
              else if test =? JumpBitsNotSet then Ret (opJumpSet, true)
              else Fail (ErrJumpTest test)) in
  let '(cond, flip) := cf in
  let '(jt, jf) := if (flip : bool) then (skipFalse, skipTrue) else (skipTrue, skipFalse) in
  Ret (mkRaw (Z.lor (Z.lor opClsJump cond) operand) jt jf k).

(** The [Assemble] method of each instruction. *)
Definition RawInstruction_Assemble (ri : RawInstruction) : go RawInstruction := Ret ri.

Definition LoadConstant_Assemble (Dst Val : Z) : go RawInstruction :=
  assembleLoad Dst 4 opAddrModeImmediate Val.

Definition LoadScratch_Assemble (Dst N : Z) : go RawInstruction :=
  if (N <? 0) || (N >? 15) then Fail (ErrScratchSlot N)
  else assembleLoad Dst 4 opAddrModeScratch (u32 N).

Definition LoadAbsolute_Assemble (Off Size : Z) : go RawInstruction :=
  assembleLoad RegA Size opAddrModeAbsolute Off.

Definition LoadIndirect_Assemble (Off Size : Z) : go RawInstruction :=
  assembleLoad RegA Size opAddrModeIndirect Off.

Definition LoadMemShift_Assemble (Off : Z) : go RawInstruction :=
  assembleLoad RegX 1 opAddrModeMemShift Off.

Definition LoadExtension_Assemble (Num : Z) : go RawInstruction :=
  if Num =? ExtLen then assembleLoad RegA 4 opAddrModePacketLen 0
  else assembleLoad RegA 4 opAddrModeAbsolute (u32 (extOffset + Num)).

Definition StoreScratch_Assemble (Src N : Z) : go RawInstruction :=
  if (N <? 0) || (N >? 15) then Fail (ErrScratchSlot N)
  else let! op := (if Src =? RegA then Ret opClsStoreA
                   else if Src =? RegX then Ret opClsStoreX
                   else Fail (ErrSourceRegister Src)) in
       Ret (mkRaw op 0 0 (u32 N)).

Definition ALUOpConstant_Assemble (Op Val : Z) : go RawInstruction :=
  Ret (mkRaw (Z.lor (Z.lor opClsALU opOperandConstant) Op) 0 0 Val).

Definition ALUOpX_Assemble (Op : Z) : go RawInstruction :=
  Ret (mkRaw (Z.lor (Z.lor opClsALU opOperandX) Op) 0 0 0).

Definition NegateA_Assemble : go RawInstruction := Ret (mkRaw (Z.lor opClsALU aluOpNeg) 0 0 0).

Definition Jump_Assemble (Skip : Z) : go RawInstruction :=
  Ret (mkRaw (Z.lor opClsJump opJumpAlways) 0 0 Skip).

Definition JumpIf_Assemble (Cond Val SkipTrue SkipFalse : Z) : go RawInstruction :=
  jumpToRaw Cond opOperandConstant Val SkipTrue SkipFalse.

Definition JumpIfX_Assemble (Cond SkipTrue SkipFalse : Z) : go RawInstruction :=
  jumpToRaw Cond opOperandX 0 SkipTrue SkipFalse.

Definition RetA_Assemble : go RawInstruction := Ret (mkRaw (Z.lor opClsReturn opRetSrcA) 0 0 0).

Definition RetConstant_Assemble (Val : Z) : go RawInstruction :=
  Ret (mkRaw (Z.lor opClsReturn opRetSrcConstant) 0 0 Val).

Definition TXA_Assemble : go RawInstruction := Ret (mkRaw (Z.lor opClsMisc opMiscTXA) 0 0 0).

Definition TAX_Assemble : go RawInstruction := Ret (mkRaw (Z.lor opClsMisc opMiscTAX) 0 0 0).

#[global] Arguments RawInstruction_Assemble /.
#[global] Arguments LoadConstant_Assemble /.
#[global] Arguments LoadScratch_Assemble /.
#[global] Arguments LoadAbsolute_Assemble /.
#[global] Arguments LoadIndirect_Assemble /.
#[global] Arguments LoadMemShift_Assemble /.
#[global] Arguments LoadExtension_Assemble /.
#[global] Arguments StoreScratch_Assemble /.
#[global] Arguments ALUOpConstant_Assemble /.
#[global] Arguments ALUOpX_Assemble /.
#[global] Arguments NegateA_Assemble /.
#[global] Arguments Jump_Assemble /.
#[global] Arguments JumpIf_Assemble /.
#[global] Arguments JumpIfX_Assemble /.
#[global] Arguments RetA_Assemble /.
#[global] Arguments RetConstant_Assemble /.
#[global] Arguments TXA_Assemble /.
#[global] Arguments TAX_Assemble /.

(** A call through the [Instruction] interface. *)
Definition inst_Assemble (ins : Instruction) : go RawInstruction :=
  match ins with
  | Raw ri => RawInstruction_Assemble ri
  | LoadConstant Dst Val => LoadConstant_Assemble Dst Val
  | LoadScratch Dst N => LoadScratch_Assemble Dst N
  | LoadAbsolute Off Size => LoadAbsolute_Assemble Off Size
  | LoadIndirect Off Size => LoadIndirect_Assemble Off Size
  | LoadMemShift Off => LoadMemShift_Assemble Off
  | LoadExtension Num => LoadExtension_Assemble Num
  | StoreScratch Src N => StoreScratch_Assemble Src N
  | ALUOpConstant Op Val => ALUOpConstant_Assemble Op Val
  | ALUOpX Op => ALUOpX_Assemble Op
  | NegateA => NegateA_Assemble
  | Jump Skip => Jump_Assemble Skip
  | JumpIf Cond Val SkipTrue SkipFalse => JumpIf_Assemble Cond Val SkipTrue SkipFalse
  | JumpIfX Cond SkipTrue SkipFalse => JumpIfX_Assemble Cond SkipTrue SkipFalse
  | RetA => RetA_Assemble
  | RetConstant Val => RetConstant_Assemble Val
  | TXA => TXA_Assemble
  | TAX => TAX_Assemble
  end.

Definition jumpOpToTest (op skipTrue skipFalse : Z) : Z * Z * Z :=
  if skipTrue =? 0 then
    let test := if op =? opJumpEqual then JumpNotEqual
                else if op =? opJumpGT then JumpLessOrEqual
                else if op =? opJumpGE then JumpLessThan
                else if op =? opJumpSet then JumpBitsNotSet
                else 0 in
    (test, skipFalse, 0)
  else
    let test := if op =? opJumpEqual then JumpEqual
                else if op =? opJumpGT then JumpGreaterThan
                else if op =? opJumpGE then JumpGreaterOrEqual
                else if op =? opJumpSet then JumpBitsSet
                else 0 in
    (test, skipTrue, skipFalse).

(** The operators the ALU case of [Disassemble] lists. *)
Definition isALUOp (op : Z) : bool :=
  (op =? ALUOpAdd) || (op =? ALUOpSub) || (op =? ALUOpMul) || (op =? ALUOpDiv)
  || (op =? ALUOpOr) || (op =? ALUOpAnd) || (op =? ALUOpShiftLeft)
  || (op =? ALUOpShiftRight) || (op =? ALUOpMod) || (op =? ALUOpXor).

Definition disassembleLoad (ri : RawInstruction) : Instruction :=
  let op := ri_Op ri in
  let K := ri_K ri in
  let reg := Z.land op opMaskLoadDest in
  let width := Z.land op opMaskLoadWidth in
  let mode := Z.land op opMaskLoadMode in
  let decode (sz : Z) :=
    if mode =? opAddrModeImmediate then
      if negb (sz =? 4) then Raw ri else LoadConstant reg K
    else if mode =? opAddrModeScratch then
      if negb (sz =? 4) || (K >? 15) then Raw ri else LoadScratch reg K
    else if mode =? opAddrModeAbsolute then
      if K >? extOffset + 0xffffffff then LoadExtension (u32 (- extOffset + K))
      else LoadAbsolute K sz
    else if mode =? opAddrModeIndirect then LoadIndirect K sz
    else if mode =? opAddrModePacketLen then
      if negb (sz =? 4) then Raw ri else LoadExtension ExtLen
    else if mode =? opAddrModeMemShift then LoadMemShift K
    else Raw ri in
  if width =? opLoadWidth4 then decode 4
  else if width =? opLoadWidth2 then decode 2
  else if width =? opLoadWidth1 then decode 1
  else Raw ri.

(** The [Disassemble] method of [RawInstruction]. *)
Definition raw_Disassemble (ri : RawInstruction) : go Instruction :=
  let op := ri_Op ri in
  let K := ri_K ri in
  let cls := Z.land op opMaskCls in
  let operator := Z.land op opMaskOperator in
  let operand := Z.land op opMaskOperand in
  if (cls =? opClsLoadA) || (cls =? opClsLoadX) then Ret (disassembleLoad ri)
  else if cls =? opClsStoreA then
    if negb (op =? opClsStoreA) || (K >? 15) then Ret (Raw ri)
    else Ret (StoreScratch RegA K)
  else if cls =? opClsStoreX then
    if negb (op =? opClsStoreX) || (K >? 15) then Ret (Raw ri)
    else Ret (StoreScratch RegX K)
  else if cls =? opClsALU then
    if isALUOp operator then
      if operand =? opOperandX then Ret (ALUOpX operator)
      else if operand =? opOperandConstant then Ret (ALUOpConstant operator K)
      else Ret (Raw ri)
    else if operator =? aluOpNeg then Ret NegateA
    else Ret (Raw ri)
  else if cls =? opClsJump then
    if operator =? opJumpAlways then Ret (Jump K)
    else if (operator =? opJumpEqual) || (operator =? opJumpGT)
         || (operator =? opJumpGE) || (operator =? opJumpSet) then
      let '(cond, skipTrue, skipFalse) := jumpOpToTest operator (ri_Jt ri) (ri_Jf ri) in
      if operand =? opOperandX then Ret (JumpIfX cond skipTrue skipFalse)
      else if operand =? opOperandConstant then Ret (JumpIf cond K skipTrue skipFalse)
      else Ret (Raw ri)
    else Ret (Raw ri)
  else if cls =? opClsReturn then
    if op =? Z.lor opClsReturn opRetSrcA then Ret RetA
    else if op =? Z.lor opClsReturn opRetSrcConstant then Ret (RetConstant K)
    else Ret (Raw ri)
  else if cls =? opClsMisc then
    if op =? Z.lor opClsMisc opMiscTAX then Ret TAX
    else if op =? Z.lor opClsMisc opMiscTXA then Ret TXA
    else Ret (Raw ri)
  else Panic.

(** ** Programs (asm.go) *)
Fixpoint Assemble_from (i : Z) (insts : list Instruction) : go (list RawInstruction) :=
  match insts with
  | [] => Ret []
  | inst :: rest =>
      match inst_Assemble inst with
      | Ret r => let! rs := Assemble_from (i + 1) rest in Ret (r :: rs)
      | Fail e => Fail (ErrAssembling (i + 1) e)
      | Panic => Panic
      end
  end.

Definition Assemble (insts : list Instruction) : go (list RawInstruction) :=
  Assemble_from 0 insts.

Fixpoint Disassemble (raw : list RawInstruction) : go (list Instruction * bool) :=
  match raw with
  | [] => Ret ([], true)
  | r :: rest =>
      let! inst := raw_Disassemble r in
      let! ra := Disassemble rest in
      let '(insts, allDecoded) := ra in
      Ret (inst :: insts, match inst with Raw _ => false | _ => allDecoded end)
  end.

(** Field widths of the Go types. *)
Definition raw_ok (ri : RawInstruction) : Prop :=
  is_u16 (ri_Op ri) /\ is_u8 (ri_Jt ri) /\ is_u8 (ri_Jf ri) /\ is_u32 (ri_K ri).

Definition inst_ok (ins : Instruction) : Prop :=
  match ins with
  | Raw ri => raw_ok ri
  | LoadConstant Dst Val => is_u16 Dst /\ is_u32 Val
  | LoadScratch Dst _ => is_u16 Dst
  | LoadAbsolute Off _ | LoadIndirect Off _ => is_u32 Off
  | LoadMemShift Off => is_u32 Off
  | LoadExtension _ => True
  | StoreScratch Src _ => is_u16 Src
  | ALUOpConstant Op Val => is_u16 Op /\ is_u32 Val
  | ALUOpX Op => is_u16 Op
  | Jump Skip => is_u32 Skip
  | JumpIf Cond Val SkipTrue SkipFalse =>
      is_u16 Cond /\ is_u32 Val /\ is_u8 SkipTrue /\ is_u8 SkipFalse
  | JumpIfX Cond SkipTrue SkipFalse => is_u16 Cond /\ is_u8 SkipTrue /\ is_u8 SkipFalse
  | RetConstant Val => is_u32 Val
  | NegateA | RetA | TXA | TAX => True
  end.

(** ** Theory *)
#[global] Arguments Z.gtb : simpl never.
#[global] Arguments u32 : simpl never.

(** Instructions that the assembler maps to a code the disassembler reads back
    as the same instruction. *)
Definition canonical (ins : Instruction) : bool :=
  match ins with
  | Raw _ => false
  | LoadAbsolute Off _ => Off <=? 0xffffffff + extOffset
  | LoadExtension Num => (0 <=? Num) && (Num <? - extOffset)
  | ALUOpConstant Op _ | ALUOpX Op => isALUOp Op
  | JumpIf Cond _ SkipTrue SkipFalse | JumpIfX Cond SkipTrue SkipFalse =>
      if Z.even Cond then negb (SkipTrue =? 0) else SkipFalse =? 0
  | _ => true
  end.

Lemma isALUOp_cases op :
  isALUOp op = true <->
  In op [ALUOpAdd; ALUOpSub; ALUOpMul; ALUOpDiv; ALUOpOr; ALUOpAnd;
         ALUOpShiftLeft; ALUOpShiftRight; ALUOpMod; ALUOpXor].
Proof.
  unfold isALUOp. rewrite !orb_true_iff, !Z.eqb_eq. simpl.
  intuition congruence.
Qed.

Lemma assembleLoad_inv dst size mode k r :
  assembleLoad dst size mode k = Ret r ->
  (dst = 0 \/ dst = 1) /\ (size = 1 \/ size = 2 \/ size = 4).
Proof.
  unfold assembleLoad, RegA, RegX.
  destruct (Z.eqb_spec dst 0), (Z.eqb_spec dst 1); simpl; try discriminate;
  destruct (Z.eqb_spec size 1), (Z.eqb_spec size 2), (Z.eqb_spec size 4);
    simpl; intros; try discriminate; auto.
Qed.

Lemma jumpToRaw_inv test operand k st sf r :
  jumpToRaw test operand k st sf = Ret r -> In test [0; 1; 2; 3; 4; 5; 6; 7].
Proof.
  unfold jumpToRaw, JumpEqual, JumpNotEqual, JumpGreaterThan, JumpLessThan,
    JumpGreaterOrEqual, JumpLessOrEqual, JumpBitsSet, JumpBitsNotSet.
  repeat match goal with
  | |- context [test =? ?c] => destruct (Z.eqb_spec test c) as [->|]; [simpl; tauto|]
  end.
  discriminate.
Qed.

Lemma raw_Disassemble_total ri : exists ins, raw_Disassemble ri = Ret ins.
Proof.
  unfold raw_Disassemble.
  pose proof (land_bound (ri_Op ri) opMaskCls ltac:(discriminate)) as Hb.
  set (cls := Z.land (ri_Op ri) opMaskCls) in *. clearbody cls.
  unfold opMaskCls, opClsLoadA, opClsLoadX, opClsStoreA, opClsStoreX, opClsALU,
    opClsJump, opClsReturn, opClsMisc in *.
  destruct (jumpOpToTest _ _ _) as [[? ?] ?].
  repeat (split_match; eauto). breflect. lia.
Qed.

(** Recognises the concrete opcodes of [H : In x [c1; ...; cn]]. *)
Ltac in_cases H :=
  simpl in H; repeat (destruct H as [<-|H]); [..|destruct H].

Lemma u32_ext Num :
  u32 (- extOffset + u32 (extOffset + Num)) = u32 Num.
Proof.
  unfold u32, extOffset. rewrite Zplus_mod_idemp_r. f_equal. lia.
Qed.

Lemma ext_window Num :
  (u32 (extOffset + Num) >? extOffset + 0xffffffff) = (u32 Num <? 0x1000).
Proof.
  rewrite Z.gtb_ltb. unfold u32, extOffset.
  apply eq_true_iff_eq. rewrite !Z.ltb_lt.
  Z.div_mod_to_equations. lia.
Qed.

Definition is_raw (ins : Instruction) : bool :=
  match ins with Raw _ => true | _ => false end.

Lemma disassemble_ALUOpConstant ri op v :
  raw_Disassemble ri = Ret (ALUOpConstant op v) -> isALUOp op = true.
Proof.
  unfold raw_Disassemble, disassembleLoad.
  destruct (jumpOpToTest _ _ _) as [[? ?] ?].
  intros H. repeat split_match_in H; congruence.
Qed.

Lemma disassemble_ALUOpX ri op :
  raw_Disassemble ri = Ret (ALUOpX op) -> isALUOp op = true.
Proof.
  unfold raw_Disassemble, disassembleLoad.
  destruct (jumpOpToTest _ _ _) as [[? ?] ?].
  intros H. repeat split_match_in H; congruence.
Qed.

(** Assembled loads, by register, width and mode. *)
Lemma assemble_load_cases dst size mode k r :
  assembleLoad dst size mode k = Ret r ->
  In dst [0; 1] /\ exists sz, In (size, sz) [(1, 0x10); (2, 0x08); (4, 0x00)]
    /\ r = mkRaw (Z.lor (Z.lor dst sz) mode) 0 0 k.
Proof.
  intros H. destruct (assembleLoad_inv _ _ _ _ _ H) as [[-> | ->] [-> | [-> | ->]]];
  injection H as <-; (split; [simpl; auto|eexists; split; [|reflexivity]; simpl; auto]).
Qed.

(** Reads an assembled load back: [H : assembleLoad ... = Ret r]. *)
Ltac load_cases H :=
  apply assemble_load_cases in H as (?Hd & ?sz & ?Hs & ->);
  simpl in Hd, Hs; destruct_or?; simplify_eq.

(** The test whose machine code is the same with the two skips exchanged. *)
Definition negate_test (cond : Z) : Z :=
  if cond =? JumpEqual then JumpNotEqual
  else if cond =? JumpNotEqual then JumpEqual
  else if cond =? JumpGreaterThan then JumpLessOrEqual
  else if cond =? JumpLessOrEqual then JumpGreaterThan
  else if cond =? JumpGreaterOrEqual then JumpLessThan
  else if cond =? JumpLessThan then JumpGreaterOrEqual
  else if cond =? JumpBitsSet then JumpBitsNotSet
  else JumpBitsSet.

Definition jump_inst (operand cond k st sf : Z) : Instruction :=
  if operand =? opOperandX then JumpIfX cond st sf else JumpIf cond k st sf.

Lemma roundtrip_jump cond operand k st sf r :
  In operand [opOperandConstant; opOperandX] ->
  jumpToRaw cond operand k st sf = Ret r ->
  raw_Disassemble r =
    Ret (if Z.even cond
         then (if st =? 0 then jump_inst operand (negate_test cond) k sf 0
               else jump_inst operand cond k st sf)
         else (if sf =? 0 then jump_inst operand cond k st 0
               else jump_inst operand (negate_test cond) k sf st)).
Proof.
  intros Ho H. pose proof (jumpToRaw_inv _ _ _ _ _ _ H) as Hc.
  in_cases Ho; in_cases Hc; injection H as <-; cbn [Z.even];
    match goal with
    | |- context [if (?x =? 0) then _ else _] => destruct (Z.eqb_spec x 0) as [->|Hne]
    end; try reflexivity;
    apply Z.eqb_neq in Hne;
    match goal with
    | |- raw_Disassemble (mkRaw ?op ?jt ?jf ?k) = _ =>
        transitivity
          (let '(c, t, f) := jumpOpToTest (Z.land op opMaskOperator) jt jf in
           Ret (E := bpf_error) (jump_inst (Z.land op opMaskOperand) c k t f));
        [reflexivity|unfold jumpOpToTest; rewrite Hne; reflexivity]
    end.
Qed.

Lemma roundtrip_LoadExtension Num r :
  inst_Assemble (LoadExtension Num) = Ret r ->
  raw_Disassemble r = Ret (LoadExtension Num) <-> canonical (LoadExtension Num) = true.
Proof.
  simpl. unfold ExtLen. destruct (Z.eqb_spec Num 1) as [->|Hn].
  - intros [= <-]. vm_compute. tauto.
  - intros H. load_cases H.
    match goal with |- raw_Disassemble (mkRaw _ _ _ ?k) = _ <-> _ =>
      change (raw_Disassemble _) with
        (Ret (E := bpf_error) (if k >? extOffset + 0xffffffff
              then LoadExtension (u32 (- extOffset + k)) else LoadAbsolute k 4)) end.
    rewrite ext_window, u32_ext. change (- extOffset) with 0x1000.
    pose proof (u32_range Num) as Hr. unfold is_u32 in Hr.
    destruct (Z.ltb_spec (u32 Num) 0x1000) as [Hw|Hw]; split; intros He; try congruence.
    + injection He as E. apply andb_true_iff; split; [apply Z.leb_le|apply Z.ltb_lt]; lia.
    + breflect. rewrite u32_id; [done|unfold is_u32; lia].
    + breflect. rewrite u32_id in Hw; unfold is_u32; lia.
Qed.

Lemma roundtrip_LoadAbsolute Off Size r :
  inst_Assemble (LoadAbsolute Off Size) = Ret r ->
  raw_Disassemble r = Ret (LoadAbsolute Off Size) <-> canonical (LoadAbsolute Off Size) = true.
Proof.
  simpl. intros H. change (0xffffffff + extOffset) with 0xffffefff.
  assert (raw_Disassemble r = Ret (if Off >? 0xffffefff
            then LoadExtension (u32 (- extOffset + Off)) else LoadAbsolute Off Size)) as ->.
  { load_cases H; reflexivity. }
  rewrite Z.gtb_ltb. destruct (Z.ltb_spec 0xffffefff Off), (Z.leb_spec Off 0xffffefff);
    split; intros; (congruence || lia || done).
Qed.

Lemma roundtrip_scratch N :
  (N <? 0) || (N >? 15) = false -> u32 N = N /\ (N >? 15) = false.
Proof.
  rewrite orb_false_iff. intros [H1 H2]. split; [|done]. breflect.
  apply u32_id. unfold is_u32. lia.
Qed.

Lemma roundtrip_LoadScratch Dst N r :
  inst_Assemble (LoadScratch Dst N) = Ret r -> raw_Disassemble r = Ret (LoadScratch Dst N).
Proof.
  simpl. destruct (_ || _) eqn:HN; [discriminate|]. apply roundtrip_scratch in HN as [-> HN].
  intros H. transitivity (Ret (E := bpf_error) (if N >? 15 then Raw r else LoadScratch Dst N));
    [|rewrite HN; reflexivity].
  load_cases H; reflexivity.
Qed.

Lemma roundtrip_StoreScratch Src N r :
  inst_Assemble (StoreScratch Src N) = Ret r -> raw_Disassemble r = Ret (StoreScratch Src N).
Proof.
  simpl. destruct (_ || _) eqn:HN; [discriminate|]. apply roundtrip_scratch in HN as [-> HN].
  intros H. transitivity (if N >? 15 then Ret (E := bpf_error) (Raw r) else Ret (StoreScratch Src N));
    [|rewrite HN; reflexivity].
  unfold RegA, RegX in H.
  destruct (Z.eqb_spec Src 0) as [->|]; [|destruct (Z.eqb_spec Src 1) as [->|]; [|discriminate]];
    injection H as <-; reflexivity.
Qed.

Lemma roundtrip_cond cond operand k st sf r :
  In operand [opOperandConstant; opOperandX] ->
  jumpToRaw cond operand k st sf = Ret r ->
  raw_Disassemble r = Ret (jump_inst operand cond k st sf) <->
  (if Z.even cond then negb (st =? 0) else sf =? 0) = true.
Proof.
  intros Ho H. pose proof (jumpToRaw_inv _ _ _ _ _ _ H) as Hc.
  rewrite (roundtrip_jump _ _ _ _ _ _ Ho H).
  in_cases Ho; in_cases Hc; cbn [Z.even];
  match goal with
  | |- context [if (?x =? 0) then _ else _] => destruct (Z.eqb_spec x 0) as [->|Hne]
  end; cbn; split; intros; simplify_eq; done.
Qed.

(** The exact fixpoints of assembling and then disassembling. *)
Lemma assemble_disassemble_iff ins r :
  is_raw ins = false -> inst_Assemble ins = Ret r ->
  raw_Disassemble r = Ret ins <-> canonical ins = true.
Proof.
  intros Hraw H. destruct ins; try discriminate Hraw;
    try (injection H as <-; cbn; tauto).
  - simpl in H; load_cases H; cbn; tauto.
  - rewrite (roundtrip_LoadScratch _ _ _ H). cbn; tauto.
  - apply roundtrip_LoadAbsolute; done.
  - simpl in H; load_cases H; cbn; tauto.
  - apply roundtrip_LoadExtension; done.
  - rewrite (roundtrip_StoreScratch _ _ _ H). cbn; tauto.
  - injection H as <-. split; [apply disassemble_ALUOpConstant|].
    intros Hop. apply isALUOp_cases in Hop. in_cases Hop; reflexivity.
  - injection H as <-. split; [apply disassemble_ALUOpX|].
    intros Hop. apply isALUOp_cases in Hop. in_cases Hop; reflexivity.
  - apply (roundtrip_cond _ opOperandConstant); [simpl; auto|done].
  - apply (roundtrip_cond _ opOperandX Z0); [simpl; auto|done].
Qed.

Lemma assembleLoad_ok dst size mode k :
  In dst [0; 1] -> In size [1; 2; 4] -> exists r, assembleLoad dst size mode k = Ret r.
Proof. intros Hd Hs. in_cases Hd; in_cases Hs; eexists; reflexivity. Qed.

(** An instruction that assembles to a code the disassembler reads back. *)
Definition reads_back (ins : Instruction) : Prop :=
  canonical ins = true /\ exists r, inst_Assemble ins = Ret r.

Lemma LoadConstant_reads_back reg K : In reg [0; 1] -> reads_back (LoadConstant reg K).
Proof. intros. split; [done|]. apply assembleLoad_ok; simpl; auto. Qed.

Lemma scratch_slot K : 0 <= K <= 15 -> (K <? 0) || (K >? 15) = false.
Proof.
  intros. apply orb_false_iff. rewrite Z.gtb_ltb, !Z.ltb_ge. lia.
Qed.

Lemma LoadScratch_reads_back reg K :
  In reg [0; 1] -> 0 <= K <= 15 -> reads_back (LoadScratch reg K).
Proof.
  intros. split; [done|]. simpl. rewrite scratch_slot by done.
  apply assembleLoad_ok; simpl; auto.
Qed.

Lemma StoreScratch_reads_back reg K :
  In reg [0; 1] -> 0 <= K <= 15 -> reads_back (StoreScratch reg K).
Proof.
  intros Hr HK. split; [done|]. simpl. rewrite scratch_slot by done.
  in_cases Hr; eexists; reflexivity.
Qed.

Lemma LoadExtension_reads_back Num : 0 <= Num < 0x1000 -> reads_back (LoadExtension Num).
Proof.
  intros HN. split.
  - apply andb_true_iff. rewrite Z.leb_le, Z.ltb_lt. unfold extOffset. lia.
  - simpl. split_match; apply assembleLoad_ok; simpl; auto.
Qed.

Lemma LoadAbsolute_reads_back K size :
  K <= 0xffffefff -> In size [1; 2; 4] -> reads_back (LoadAbsolute K size).
Proof.
  intros HK Hs. split; [apply Z.leb_le; exact HK|]. apply assembleLoad_ok; simpl; auto.
Qed.

Lemma LoadIndirect_reads_back K size : In size [1; 2; 4] -> reads_back (LoadIndirect K size).
Proof. intros. split; [done|]. apply assembleLoad_ok; simpl; auto. Qed.

Lemma LoadMemShift_reads_back K : reads_back (LoadMemShift K).
Proof. split; [done|]. apply assembleLoad_ok; simpl; auto. Qed.

#[export] Hint Resolve LoadConstant_reads_back LoadScratch_reads_back
  LoadExtension_reads_back LoadAbsolute_reads_back LoadIndirect_reads_back
  LoadMemShift_reads_back StoreScratch_reads_back : gonet.

Lemma u32_ext_window K : is_u32 K -> 0xffffefff < K -> 0 <= u32 (- extOffset + K) < 0x1000.
Proof.
  unfold is_u32, u32, extOffset. intros. Z.div_mod_to_equations. lia.
Qed.
#[export] Hint Resolve u32_ext_window : gonet.

Lemma disassembleLoad_reads_back ri :
  raw_ok ri -> disassembleLoad ri = Raw ri \/ reads_back (disassembleLoad ri).
Proof.
  intros (_ & _ & _ & HK). unfold disassembleLoad.
  pose proof (land_bound (ri_Op ri) opMaskLoadDest ltac:(discriminate)) as Hb.
  set (reg := Z.land (ri_Op ri) opMaskLoadDest) in *. clearbody reg.
  unfold opMaskLoadDest in Hb.
  assert (In reg [0; 1]) as Hreg by (simpl; lia). clear Hb.
  set (K := ri_K ri) in *. clearbody K.
  change (extOffset + 0xffffffff) with 0xffffefff.
  repeat (split_match; try (left; reflexivity)); right;
    try (apply orb_false_iff in Heqb2 as [_ ?]); breflect;
    try (discriminate || lia); eauto with gonet;
    [apply LoadScratch_reads_back; unfold is_u32 in HK; auto; lia|..];
    first [ apply LoadAbsolute_reads_back; simpl; auto
          | apply LoadIndirect_reads_back; simpl; auto
          | apply LoadExtension_reads_back; unfold ExtLen; lia ].
Qed.

Lemma jumpOpToTest_reads_back op jt jf k :
  In op [opJumpEqual; opJumpGT; opJumpGE; opJumpSet] ->
  let '(c, t, f) := jumpOpToTest op jt jf in
  reads_back (JumpIf c k t f) /\ reads_back (JumpIfX c t f).
Proof.
  intros Hop. unfold jumpOpToTest. destruct (jt =? 0) eqn:Hjt;
  in_cases Hop; repeat split; simpl; rewrite ?Hjt; eauto.
Qed.

Lemma raw_Disassemble_reads_back ri ins :
  raw_ok ri -> raw_Disassemble ri = Ret ins -> ins = Raw ri \/ reads_back ins.
Proof.
  intros Hok. pose proof Hok as (_ & _ & _ & HK). unfold is_u32 in HK.
  unfold raw_Disassemble.
  pose proof (jumpOpToTest_reads_back (Z.land (ri_Op ri) opMaskOperator) (ri_Jt ri) (ri_Jf ri)
    (ri_K ri)) as Hj.
  destruct (jumpOpToTest _ _ _) as [[c t] f].
  intros H. repeat split_match_in H; simplify_eq; auto;
    try (right; split; [done|eexists; reflexivity]).
  - apply disassembleLoad_reads_back; done.
  - right. apply orb_false_iff in Heqb1 as [_ ?]; breflect.
    apply StoreScratch_reads_back; simpl; auto; lia.
  - right. apply orb_false_iff in Heqb2 as [_ ?]; breflect.
    apply StoreScratch_reads_back; simpl; auto; lia.
  - right. apply Hj. rewrite !orb_true_iff, !Z.eqb_eq in Heqb5. simpl. intuition congruence.
  - right. apply Hj. rewrite !orb_true_iff, !Z.eqb_eq in Heqb5. simpl. intuition congruence.
Qed.

Lemma disassemble_fixpoint ri ins :
  raw_ok ri -> raw_Disassemble ri = Ret ins ->
  exists r, inst_Assemble ins = Ret r /\ raw_Disassemble r = Ret ins.
Proof.
  intros Hok H. destruct (raw_Disassemble_reads_back _ _ Hok H) as [->|[Hc [r Hr]]].
  - exists ri. auto.
  - exists r. split; [done|]. apply assemble_disassemble_iff; auto.
    destruct ins; done.
Qed.

(** ** Programs *)
Lemma Assemble_from_cons i ins insts raws :
  Assemble_from i (ins :: insts) = Ret raws ->
  exists r rs, raws = r :: rs /\ inst_Assemble ins = Ret r /\ Assemble_from (i + 1) insts = Ret rs.
Proof.
  simpl. destruct (inst_Assemble ins) as [r| |]; try discriminate.
  intros (rs & Hrs & [= <-])%obind_Ret. eauto.
Qed.

Lemma Assemble_from_Ret i insts :
  Forall (fun ins => exists r, inst_Assemble ins = Ret r) insts ->
  exists raws, Assemble_from i insts = Ret raws.
Proof.
  intros H. revert i. induction H as [|ins insts [r Hr] _ IH]; intros i; simpl; [eauto|].
  rewrite Hr. destruct (IH (i + 1)) as [rs Hrs]. rewrite Hrs. simpl. eauto.
Qed.

Lemma Assemble_from_each i insts raws :
  Assemble_from i insts = Ret raws ->
  Forall2 (fun ins r => inst_Assemble ins = Ret r) insts raws.
Proof.
  revert i raws. induction insts as [|ins insts IH]; intros i raws.
  - intros [= <-]. constructor.
  - intros (r & rs & -> & Hr & Hrs)%Assemble_from_cons. constructor; eauto.
Qed.

Lemma Assemble_each_from i insts raws :
  Forall2 (fun ins r => inst_Assemble ins = Ret r) insts raws ->
  Assemble_from i insts = Ret raws.
Proof.
  intros H. revert i. induction H as [|ins r insts raws Hr _ IH]; intros i; simpl; [done|].
  rewrite Hr, IH. done.
Qed.

Lemma Disassemble_each raws :
  exists insts, Forall2 (fun r ins => raw_Disassemble r = Ret ins) raws insts /\
    Disassemble raws = Ret (insts, forallb (fun i => negb (is_raw i)) insts).
Proof.
  induction raws as [|r raws (insts & Hall & IH)]; [exists []; auto|].
  destruct (raw_Disassemble_total r) as [ins Hins].
  exists (ins :: insts). split; [auto|]. simpl. rewrite Hins. simpl. rewrite IH. simpl.
  destruct ins; done.
Qed.

Lemma inst_Assemble_no_panic ins : inst_Assemble ins <> Panic.
Proof.
  destruct ins; simpl; unfold assembleLoad, jumpToRaw; repeat split_match; simpl; discriminate.
Qed.

Lemma Assemble_no_panic insts : Assemble insts <> Panic.
Proof.
  unfold Assemble. generalize 0. induction insts as [|ins insts IH]; intros i; simpl; [done|].
  pose proof (inst_Assemble_no_panic ins). destruct (inst_Assemble ins); try done.
  specialize (IH (i + 1)). destruct (Assemble_from (i + 1) insts); done.
Qed.

(** C34: a program of (non-raw) instructions that assembles is recreated by
    disassembling the result exactly when each instruction is canonical: absolute
    loads below the extension window, extension numbers inside it, known ALU
    operators, and conditional jumps whose skips the "fake" conditions of
    [jumpOpToTest] read back. *)
Theorem assemble_disassemble_program insts raws :
  Forall (fun ins => is_raw ins = false) insts -> Assemble insts = Ret raws ->
  Disassemble raws = Ret (insts, true) <-> forallb canonical insts = true.
Proof.
  intros Hraw Has%Assemble_from_each.
  destruct (Disassemble_each raws) as (insts' & Hdis & ->).
  assert (insts' = insts <-> forallb canonical insts = true) as E.
  { revert insts' Hdis. induction Has as [|ins r insts raws Hr Has IH]; intros insts' Hdis.
    - inversion Hdis. simpl. tauto.
    - inversion Hdis as [|? ins' ? rest Hins Hrest]; subst. inversion Hraw; subst. simpl.
      rewrite andb_true_iff, <- (IH ltac:(done) _ Hrest), <- (assemble_disassemble_iff ins r) by done.
      split; [intros [= -> ->]; done|intros [H ->]; congruence]. }
  rewrite <- E. split; [congruence|]. intros ->. do 2 f_equal.
  apply forallb_forall. intros x Hx%list_elem_of_In.
  rewrite Forall_forall in Hraw. rewrite Hraw by done. done.
Qed.

(** Disassembling is total and stable: whatever raw program is given, the
    instructions it yields assemble again, and disassembling that code gives the
    same instructions back. *)
Theorem disassemble_program_stable raws :
  Forall raw_ok raws ->
  exists insts allDecoded raws',
    Disassemble raws = Ret (insts, allDecoded) /\
    Assemble insts = Ret raws' /\
    Disassemble raws' = Ret (insts, allDecoded).
Proof.
  intros Hok. destruct (Disassemble_each raws) as (insts & Hdis & ->).
  assert (exists raws', Forall2 (fun ins r => inst_Assemble ins = Ret r) insts raws' /\
            Forall2 (fun r ins => raw_Disassemble r = Ret ins) raws' insts) as (raws' & Has & Hdis').
  { induction Hdis as [|r ins raws insts Hr _ IH]; [exists []; auto|].
    inversion Hok; subst. destruct IH as (raws' & ? & ?); [done|].
    destruct (disassemble_fixpoint r ins) as (r' & ? & ?); [done..|].
    exists (r' :: raws'). auto. }
  exists insts, (forallb (fun i => negb (is_raw i)) insts), raws'.
  split; [done|]. split; [by apply Assemble_each_from|].
  destruct (Disassemble_each raws') as (insts' & Hd & ->).
  assert (insts' = insts) as ->; [|done].
  clear -Hd Hdis'. revert insts' Hd. induction Hdis'; intros insts' Hd; inversion Hd; subst; [done|].
  f_equal; [congruence|auto].
Qed.

Definition sample_program : list Instruction :=
  [LoadAbsolute 12 2; JumpIf JumpNotEqual 0x0806 1 0; RetConstant 4096; RetConstant 0].

Lemma assemble_disassemble_program_witness :
  exists raws, Assemble sample_program = Ret raws /\ Disassemble raws = Ret (sample_program, true).
Proof.
  eexists. split; [vm_compute; reflexivity|].
  apply (assemble_disassemble_program sample_program);
    [repeat constructor|reflexivity|reflexivity].
Defined.

Lemma disassemble_program_stable_witness :
  exists insts allDecoded raws',
    Disassemble [mkRaw 0x15 0 3 0x0806; mkRaw 0xa9 0 0 14; mkRaw 0xffff 0 0 1] = Ret (insts, allDecoded) /\
    Assemble insts = Ret raws' /\ Disassemble raws' = Ret (insts, allDecoded).
Proof.
  apply disassemble_program_stable.
  repeat constructor; vm_compute; intros; discriminate.
Defined.
