(* ===== verification/BpfVM.v ===== *)
(** * Package bpf: the virtual machine

    Models src/bpf/vm.go and src/bpf/vm_instructions.go.  Go's [int] is 32 or 64
    bits wide depending on the platform, and the code converts [uint32] operands
    to [int]; every definition that does so takes the width [W]. *)

From S2P Require Import Prelude BpfInstr.

(** ** Instructions (vm_instructions.go) *)

(** [None] is Go's division-by-zero panic; a shift by 32 or more gives 0. *)
Definition aluOpCommon (op regA value : Z) : option Z :=
  if op =? ALUOpAdd then Some (u32 (regA + value))
  else if op =? ALUOpSub then Some (u32 (regA - value))
  else if op =? ALUOpMul then Some (u32 (regA * value))
  else if op =? ALUOpDiv then if value =? 0 then None else Some (regA / value)
  else if op =? ALUOpOr then Some (Z.lor regA value)
  else if op =? ALUOpAnd then Some (Z.land regA value)
  else if op =? ALUOpShiftLeft then
    Some (if value <? 32 then u32 (Z.shiftl regA value) else 0)
  else if op =? ALUOpShiftRight then
    Some (if value <? 32 then Z.shiftr regA value else 0)
  else if op =? ALUOpMod then if value =? 0 then None else Some (regA mod value)
  else if op =? ALUOpXor then Some (Z.lxor regA value)
  else Some regA.

Definition aluOpConstant (Op Val regA : Z) : option Z := aluOpCommon Op regA Val.

Definition aluOpX (Op regA regX : Z) : option (Z * bool) :=
  if (regX =? 0) && ((Op =? ALUOpDiv) || (Op =? ALUOpMod)) then Some (0, false)
  else a ← aluOpCommon Op regA regX; Some (a, true).

Definition jumpIfCommon (cond skipTrue skipFalse regA value : Z) : Z :=
  let ok :=
    if cond =? JumpEqual then regA =? value
    else if cond =? JumpNotEqual then negb (regA =? value)
    else if cond =? JumpGreaterThan then regA >? value
    else if cond =? JumpLessThan then regA <? value
    else if cond =? JumpGreaterOrEqual then regA >=? value
    else if cond =? JumpLessOrEqual then regA <=? value
    else if cond =? JumpBitsSet then negb (Z.land regA value =? 0)
    else if cond =? JumpBitsNotSet then Z.land regA value =? 0
    else false in
  if ok then skipTrue else skipFalse.

Definition jumpIf (Cond Val SkipTrue SkipFalse regA : Z) : Z :=
  jumpIfCommon Cond SkipTrue SkipFalse regA Val.

Definition jumpIfX (Cond SkipTrue SkipFalse regA regX : Z) : Z :=
  jumpIfCommon Cond SkipTrue SkipFalse regA regX.

Section width.
Context (W : Z).

Definition inBounds (inLen offset size : Z) : bool := swrap W (offset + size) <=? inLen.

Definition loadCommon (pkt : bytes) (offset size : Z) : option (Z * bool) :=
  if negb (inBounds (zlen pkt) offset size) then Some (0, false)
  else if size =? 1 then b ← zget pkt offset; Some (b, true)
  else if size =? 2 then
    match zslice pkt offset (swrap W (offset + size)) with
    | Some [a; b] => Some (be16 a b, true)
    | _ => None
    end
  else if size =? 4 then
    match zslice pkt offset (swrap W (offset + size)) with
    | Some [a; b; c; d] => Some (be32 a b c d, true)
    | _ => None
    end
  else None.

Definition loadAbsolute (Off Size : Z) (pkt : bytes) : option (Z * bool) :=
  loadCommon pkt (swrap W Off) Size.

Definition loadConstant (Dst Val regA regX : Z) : Z * Z :=
  if Dst =? RegA then (Val, regX) else if Dst =? RegX then (regA, Val) else (regA, regX).

Definition loadExtension (Num : Z) (pkt : bytes) : option Z :=
  if Num =? ExtLen then Some (u32 (zlen pkt)) else None.

Definition loadIndirect (Off Size : Z) (pkt : bytes) (regX : Z) : option (Z * bool) :=
  loadCommon pkt (swrap W (swrap W Off + swrap W regX)) Size.

Definition loadMemShift (Off : Z) (pkt : bytes) : option (Z * bool) :=
  let offset := swrap W Off in
  if negb (inBounds (zlen pkt) offset 1) then Some (0, false)
  else b ← zget pkt offset; Some (u32 (Z.land b 0x0f * 4), true).

Definition loadScratch (Dst N : Z) (regScratch : list Z) (regA regX : Z) : option (Z * Z) :=
  if Dst =? RegA then v ← zget regScratch N; Some (v, regX)
  else if Dst =? RegX then v ← zget regScratch N; Some (regA, v)
  else Some (regA, regX).

Definition storeScratch (Src N : Z) (regScratch : list Z) (regA regX : Z) : option (list Z) :=
  if Src =? RegA then zset regScratch N regA
  else if Src =? RegX then zset regScratch N regX
  else Some regScratch.

(** ** The machine (vm.go) *)
Record VM := mkVM { vm_filter : list Instruction }.

Inductive vm_error :=
| ErrNoInstructions
| ErrJumpPast (skip : Z)
| ErrJumpPastTrue (skip : Z)
| ErrJumpPastFalse (skip : Z)
| ErrDivideByZero
| ErrExtensionNotImplemented (num : Z)
| ErrMustEndWithRet
| ErrAssemble (e : bpf_error)
| ErrUnknownInstruction (index : Z) (ins : Instruction).

(** One round of the validation loop of [NewVM]. *)
Definition checkInstruction (check : Z) (ins : Instruction) : option vm_error :=
  match ins with
  | Jump Skip => if check <=? swrap W Skip then Some (ErrJumpPast Skip) else None
  | JumpIf _ _ SkipTrue SkipFalse | JumpIfX _ SkipTrue SkipFalse =>
      if check <=? SkipTrue then Some (ErrJumpPastTrue SkipTrue)
      else if check <=? SkipFalse then Some (ErrJumpPastFalse SkipFalse)
      else None
  | ALUOpConstant Op Val =>
      if negb (Val =? 0) then None
      else if (Op =? ALUOpDiv) || (Op =? ALUOpMod) then Some ErrDivideByZero else None
  | LoadExtension Num => if Num =? ExtLen then None else Some (ErrExtensionNotImplemented Num)
  | _ => None
  end.

Fixpoint checkFilter (n i : Z) (filter : list Instruction) : option vm_error :=
  match filter with
  | [] => None
  | ins :: rest =>
      match checkInstruction (n - (i + 1)) ins with
      | Some e => Some e
      | None => checkFilter n (i + 1) rest
      end
  end.

(** [NewVM] returns a VM and an error; the two come together when only the final
    [Assemble] fails. *)
Definition NewVM (filter : list Instruction) : option VM * option vm_error :=
  match filter with
  | [] => (None, Some ErrNoInstructions)
  | _ =>
      match checkFilter (zlen filter) 0 filter with
      | Some e => (None, Some e)
      | None =>
          match last filter with
          | Some RetA | Some (RetConstant _) =>
              (Some (mkVM filter),
               match Assemble filter with Fail e => Some (ErrAssemble e) | _ => None end)
          | _ => (None, Some ErrMustEndWithRet)
          end
      end
  end.

Record vm_state := mkState {
  st_i : Z;
  st_regA : Z;
  st_regX : Z;
  st_scratch : list Z;
  st_ok : bool
}.

Definition vm_init : vm_state := mkState 0 0 0 (replicate 16 0) true.

(** What the body of the loop of [Run] does: go on, or leave the function. *)
Inductive vm_next :=
| Continue (s : vm_state)
| Return (r : outcome vm_error Z).

Definition from_opt {A} (m : option A) (k : A -> vm_next) : vm_next :=
  match m with Some a => k a | None => Return Panic end.

Definition vm_body (pkt : bytes) (ins : Instruction) (s : vm_state) : vm_next :=
  let '(mkState i regA regX scr ok) := s in
  match ins with
  | ALUOpConstant Op Val =>
      from_opt (aluOpConstant Op Val regA) (fun a => Continue (mkState i a regX scr ok))
  | ALUOpX Op =>
      from_opt (aluOpX Op regA regX) (fun '(a, ok') => Continue (mkState i a regX scr ok'))
  | Jump Skip => Continue (mkState (swrap W (i + swrap W Skip)) regA regX scr ok)
  | JumpIf Cond Val st sf =>
      Continue (mkState (swrap W (i + jumpIf Cond Val st sf regA)) regA regX scr ok)
  | JumpIfX Cond st sf =>
      Continue (mkState (swrap W (i + jumpIfX Cond st sf regA regX)) regA regX scr ok)
  | LoadAbsolute Off Size =>
      from_opt (loadAbsolute Off Size pkt) (fun '(a, ok') => Continue (mkState i a regX scr ok'))
  | LoadConstant Dst Val =>
      let '(a, x) := loadConstant Dst Val regA regX in Continue (mkState i a x scr ok)
  | LoadExtension Num =>
      from_opt (loadExtension Num pkt) (fun a => Continue (mkState i a regX scr ok))
  | LoadIndirect Off Size =>
      from_opt (loadIndirect Off Size pkt regX)
        (fun '(a, ok') => Continue (mkState i a regX scr ok'))
  | LoadMemShift Off =>
      from_opt (loadMemShift Off pkt) (fun '(x, ok') => Continue (mkState i regA x scr ok'))
  | LoadScratch Dst N =>
      from_opt (loadScratch Dst N scr regA regX) (fun '(a, x) => Continue (mkState i a x scr ok))
  | RetA => Return (Ret (swrap W regA))
  | RetConstant Val => Return (Ret (swrap W Val))
  | StoreScratch Src N =>
      from_opt (storeScratch Src N scr regA regX)
        (fun scr' => Continue (mkState i regA regX scr' ok))
  | TAX => Continue (mkState i regA regA scr ok)
  | TXA => Continue (mkState i regX regX scr ok)
  | Raw _ | NegateA => Return (Fail (ErrUnknownInstruction i ins))
  end.

Definition vm_incr (s : vm_state) : vm_state :=
  mkState (swrap W (st_i s + 1)) (st_regA s) (st_regX s) (st_scratch s) (st_ok s).

(** The loop of [Run]; [None] when [fuel] iterations were not enough. *)
Fixpoint vm_loop (fuel : nat) (filter : list Instruction) (pkt : bytes) (s : vm_state)
  : option (outcome vm_error Z) :=
  match fuel with
  | O => None
  | S fuel' =>
      if (st_i s <? zlen filter) && st_ok s then
        match zget filter (st_i s) with
        | None => Some Panic
        | Some ins =>
            match vm_body pkt ins s with
            | Continue s' => vm_loop fuel' filter pkt (vm_incr s')
            | Return r => Some r
            end
        end
      else Some (Ret 0)
  end.

Definition Run (fuel : nat) (v : VM) (pkt : bytes) : option (outcome vm_error Z) :=
  vm_loop fuel (vm_filter v) pkt vm_init.

End width.

(** ** Theory: the 64-bit machine *)
Definition scratch_ok (scr : list Z) : Prop := length scr = 16%nat /\ Forall is_u32 scr.

Definition state_ok (s : vm_state) : Prop :=
  is_u32 (st_regA s) /\ is_u32 (st_regX s) /\ scratch_ok (st_scratch s).

Lemma swrap64_u32 x : is_u32 x -> swrap 64 x = x.
Proof. unfold is_u32. intros. apply swrap_id; lia. Qed.

Lemma lxor_u32 a v : is_u32 a -> is_u32 v -> is_u32 (Z.lxor a v).
Proof.
  unfold is_u32. intros Ha Hv.
  assert (0 <= Z.lxor a v) by (apply Z.lxor_nonneg; lia).
  split; [done|]. destruct (Z.eq_dec (Z.lxor a v) 0) as [->|]; [lia|].
  apply Z.log2_lt_pow2; [lia|].
  eapply Z.le_lt_trans; [apply Z.log2_lxor; lia|].
  apply Z.max_lub_lt; [destruct (Z.eq_dec a 0) as [->|]|destruct (Z.eq_dec v 0) as [->|]];
    try (simpl; lia); apply Z.log2_lt_pow2; lia.
Qed.

Lemma land_u32 a v : is_u32 v -> is_u32 (Z.land a v).
Proof. unfold is_u32. intros Hv. pose proof (land_bound a v ltac:(lia)). lia. Qed.

Lemma div_u32 a v : is_u32 a -> 0 < v -> is_u32 (a / v).
Proof.
  unfold is_u32. intros Ha Hv. split; [apply Z.div_pos; lia|].
  apply Z.div_lt_upper_bound; nia.
Qed.

Lemma mod_u32 a v : is_u32 v -> v <> 0 -> is_u32 (a mod v).
Proof. unfold is_u32. intros Ha Hv. pose proof (Z.mod_pos_bound a v ltac:(lia)). lia. Qed.

Lemma shiftr_u32 a v : is_u32 a -> 0 <= v -> is_u32 (Z.shiftr a v).
Proof.
  intros Ha Hv. rewrite Z.shiftr_div_pow2 by done. apply div_u32; [done|].
  apply Z.pow_pos_nonneg; lia.
Qed.

Lemma lor_u32 a v : is_u32 a -> is_u32 v -> is_u32 (Z.lor a v).
Proof. apply lor_bound. lia. Qed.

Lemma u32_zero : is_u32 0.
Proof. unfold is_u32. lia. Qed.

#[export] Hint Resolve lxor_u32 land_u32 div_u32 mod_u32 shiftr_u32 lor_u32 u32_zero : gonet.

Lemma aluOpCommon_safe op a v :
  is_u32 a -> is_u32 v -> (v = 0 -> op <> ALUOpDiv /\ op <> ALUOpMod) ->
  exists r, aluOpCommon op a v = Some r /\ is_u32 r.
Proof.
  unfold aluOpCommon. intros Ha Hv Hz.
  assert (0 <= v) by (unfold is_u32 in Hv; lia).
  assert (forall r, is_u32 r -> exists r', Some r = Some r' /\ is_u32 r') as E by eauto.
  repeat match goal with
  | |- context [op =? ?c] => destruct (Z.eqb_spec op c)
  end; auto with gonet;
  repeat match goal with
  | |- context [v =? 0] => destruct (Z.eqb_spec v 0); [destruct (Hz ltac:(done)); done|]
  | |- context [v <? 32] => destruct (v <? 32)
  end; apply E; auto with gonet.
  apply div_u32; [done|lia].
Qed.

(** A load reads the big-endian value of [size] bytes at [offset], or stops the
    program when they are not all in the packet. *)
Lemma loadCommon_spec pkt offset size :
  bytes_ok pkt -> 0 <= offset < 2 ^ 62 -> In size [1; 2; 4] ->
  loadCommon 64 pkt offset size =
    Some (if offset + size <=? zlen pkt then (be_value (zsub pkt offset size), true) else (0, false)).
Proof.
  intros Hp Ho Hs. unfold loadCommon, inBounds.
  assert (0 < size <= 4) by (in_cases Hs; lia).
  rewrite swrap_id by lia.
  destruct (Z.leb_spec (offset + size) (zlen pkt)); simpl; [|done].
  rewrite zslice_zsub by lia.
  pose proof (bytes_ok_sub pkt offset size Hp) as Hsub.
  pose proof (zlen_zsub pkt offset size ltac:(lia) ltac:(lia) ltac:(lia)) as Hlen.
  in_cases Hs; simpl.
  - destruct (zget_zsub pkt offset) as (x & -> & ->); [lia|done].
  - destruct (zsub pkt offset 2) as [|a [|b [|]]]; try discriminate Hlen.
    inversion_clear Hsub as [|??? Hb]. inversion_clear Hb.
    rewrite be16_val by done. done.
  - destruct (zsub pkt offset 4) as [|a [|b [|c [|d [|]]]]]; try discriminate Hlen.
    unfold bytes_ok in Hsub. rewrite !Forall_cons in Hsub. destruct_and! Hsub.
    rewrite be32_val by done. cbn [fold_left be_value]. do 2 f_equal. lia.
Qed.

Lemma be_value_bound l : bytes_ok l -> 0 <= be_value l < 2 ^ (8 * zlen l).
Proof.
  unfold be_value. intros Hl.
  assert (forall acc, 0 <= acc -> 0 <= fold_left (fun acc b => acc * 2 ^ 8 + b) l acc
            < (acc + 1) * 2 ^ (8 * zlen l)) as E; [|specialize (E 0); lia].
  induction Hl as [|b l Hb _ IH]; intros acc Hacc; simpl; [rewrite Z.mul_1_r; lia|].
  unfold is_u8 in Hb. specialize (IH (acc * 2 ^ 8 + b) ltac:(lia)).
  rewrite zlen_cons. replace (8 * (zlen l + 1)) with (8 + 8 * zlen l) by lia.
  pose proof (zlen_nonneg l). rewrite Z.pow_add_r by lia.
  assert (0 < 2 ^ (8 * zlen l)) by (apply Z.pow_pos_nonneg; lia).
  split; [lia|]. change (2 ^ 8) with 256 in *. nia.
Qed.

Lemma loadCommon_safe pkt offset size :
  bytes_ok pkt -> 0 <= offset < 2 ^ 62 -> In size [1; 2; 4] ->
  exists v ok, loadCommon 64 pkt offset size = Some (v, ok) /\ is_u32 v.
Proof.
  intros Hp Ho Hs. rewrite loadCommon_spec by done.
  destruct (Z.leb_spec (offset + size) (zlen pkt)); [|eauto with gonet].
  do 2 eexists. split; [done|].
  pose proof (be_value_bound _ (bytes_ok_sub pkt offset size Hp)) as Hb.
  assert (zlen (zsub pkt offset size) <= 4) as Hl.
  { unfold zlen at 1. rewrite zlen_zsub by (in_cases Hs; lia). in_cases Hs; lia. }
  assert (2 ^ (8 * zlen (zsub pkt offset size)) <= 2 ^ 32) by (apply Z.pow_le_mono_r; lia).
  unfold is_u32. lia.
Qed.

(** Validity of an instruction at index [i] of a program of [n]. *)
Definition inst_valid (n i : Z) (ins : Instruction) : Prop :=
  inst_ok ins /\ checkInstruction 64 (n - (i + 1)) ins = None /\ exists r, inst_Assemble ins = Ret r.

(** What one iteration of [Run] may do at index [i] of a program of [n]. *)
Definition next_ok (n i : Z) (ins : Instruction) (nx : vm_next) : Prop :=
  match nx with
  | Continue s' => i <= st_i s' < n /\ state_ok s'
  | Return (Ret v) => is_u32 v
  | Return (Fail e) => e = ErrUnknownInstruction i ins /\ (is_raw ins = true \/ ins = NegateA)
  | Return Panic => False
  end.

Lemma scratch_get scr N : scratch_ok scr -> 0 <= N <= 15 ->
  exists v, zget scr N = Some v /\ is_u32 v.
Proof.
  intros [Hl Hs] HN. destruct (zget_in scr N) as [v Hv]; [unfold zlen; lia|].
  exists v. split; [done|]. unfold zget in Hv. destruct (0 <=? N); [|done].
  eapply Forall_lookup_1 in Hs; eauto.
Qed.

Lemma scratch_set scr N v : scratch_ok scr -> is_u32 v -> 0 <= N <= 15 ->
  exists scr', zset scr N v = Some scr' /\ scratch_ok scr'.
Proof.
  intros [Hl Hs] Hv HN. unfold zset, zlen.
  destruct (Z.leb_spec 0 N), (Z.ltb_spec N (Z.of_nat (length scr))); try lia. simpl.
  eexists. split; [done|]. split; [by rewrite length_insert|]. by apply Forall_insert.
Qed.

Lemma assembleLoad_size dst size mode k r : assembleLoad dst size mode k = Ret r -> In size [1; 2; 4].
Proof. intros [_ H]%assembleLoad_inv. destruct H as [-> |[-> | ->]]; simpl; auto. Qed.

Lemma slot_range N : (N <? 0) || (N >? 15) = false -> 0 <= N <= 15.
Proof. rewrite orb_false_iff. intros []. breflect. lia. Qed.

Lemma jumpIfCommon_range cond st sf a v : In (jumpIfCommon cond st sf a v) [st; sf].
Proof.
  unfold jumpIfCommon. cbv zeta.
  match goal with |- In (if ?b then _ else _) _ => destruct b end; simpl; auto.
Qed.

Lemma aluOpX_safe op a x :
  is_u32 a -> is_u32 x -> exists r ok, aluOpX op a x = Some (r, ok) /\ is_u32 r.
Proof.
  intros Ha Hx. unfold aluOpX.
  destruct ((x =? 0) && _) eqn:E; [eauto with gonet|].
  destruct (aluOpCommon_safe op a x Ha Hx) as (r & -> & Hr); [|simpl; eauto].
  intros ->. simpl in E. apply orb_false_iff in E as [??]. breflect. done.
Qed.

Lemma loadMemShift_safe pkt Off :
  bytes_ok pkt -> is_u32 Off -> exists r ok, loadMemShift 64 Off pkt = Some (r, ok) /\ is_u32 r.
Proof.
  intros Hp HO. unfold loadMemShift, inBounds. rewrite (swrap64_u32 Off) by done.
  unfold is_u32 in HO. rewrite swrap_id by lia.
  destruct (Z.leb_spec (Off + 1) (zlen pkt)); simpl; [|eauto with gonet].
  destruct (zget_in pkt Off) as [b ->]; [lia|]. simpl. eauto with gonet.
Qed.

Lemma next_continue n i i' a x scr ok :
  i <= i' < n -> is_u32 a -> is_u32 x -> scratch_ok scr ->
  i <= i' < n /\ state_ok (mkState i' a x scr ok).
Proof. intros. split; [done|]. split; [|split]; done. Qed.

(** A conditional jump accepted by [NewVM] lands inside the program. *)
Lemma jump_target n i st sf j :
  0 <= i < n -> n < 2 ^ 62 -> is_u8 st -> is_u8 sf ->
  st < n - (i + 1) -> sf < n - (i + 1) -> In j [st; sf] -> i <= swrap 64 (i + j) < n.
Proof.
  unfold is_u8. intros ?????? [<-|[<-|[]]]; rewrite swrap_id by lia; lia.
Qed.

(** Every iteration on a valid instruction moves forward inside the program or
    leaves it with a 32-bit verdict; it never panics. *)
Lemma vm_body_safe n pkt ins s :
  n < 2 ^ 62 -> bytes_ok pkt -> state_ok s -> 0 <= st_i s < n -> inst_valid n (st_i s) ins ->
  next_ok n (st_i s) ins (vm_body 64 pkt ins s).
Proof.
  intros Hn Hp Hs Hi (Hok & Hc & r & Hr). destruct s as [i a x scr ok].
  pose proof Hs as (Ha & Hx & Hscr). simpl in Ha, Hx, Hscr, Hi.
  destruct ins; simpl in Hok, Hc, Hr |- *; repeat split_match_in Hc; try discriminate Hc; breflect;
    try (apply next_continue; by auto with lia).
  - auto.
  - unfold loadConstant. repeat split_match; apply next_continue; auto; tauto || lia.
  - destruct (_ || _) eqn:HN in Hr; [discriminate|]. apply slot_range in HN.
    destruct (scratch_get scr N Hscr HN) as (v & Hv & ?). unfold loadScratch. rewrite Hv.
    destruct (Dst =? RegA), (Dst =? RegX); apply next_continue; auto; lia.
  - destruct (loadCommon_safe pkt Off Size) as (v & b & E & ?); [done| |by eapply assembleLoad_size|].
    { unfold is_u32 in Hok. lia. }
    unfold loadAbsolute. rewrite swrap64_u32, E by done. apply next_continue; auto; lia.
  - destruct (loadCommon_safe pkt (Off + x) Size) as (v & b & E & ?); [done| |by eapply assembleLoad_size|].
    { unfold is_u32 in *. lia. }
    unfold loadIndirect. rewrite (swrap64_u32 Off), (swrap64_u32 x) by done. unfold is_u32 in Hok, Hx.
    rewrite swrap_id, E by lia. apply next_continue; auto; lia.
  - destruct (loadMemShift_safe pkt Off) as (v & b & E & ?); [done..|].
    rewrite E. apply next_continue; auto; lia.
  - unfold loadExtension. rewrite Heqb. apply next_continue; auto with gonet; lia.
  - destruct (_ || _) eqn:HN in Hr; [discriminate|]. apply slot_range in HN. unfold storeScratch.
    destruct (scratch_set scr N a Hscr Ha HN) as (scr1 & E1 & ?).
    destruct (scratch_set scr N x Hscr Hx HN) as (scr2 & E2 & ?).
    rewrite E1, E2. destruct (Src =? RegA), (Src =? RegX); apply next_continue; auto; lia.
  - destruct (aluOpCommon_safe Op a Val) as (v & E & ?); [tauto..|done|].
    unfold aluOpConstant. rewrite E. apply next_continue; auto; lia.
  - destruct (aluOpCommon_safe Op a Val) as (v & E & ?); [tauto..|done|].
    unfold aluOpConstant. rewrite E. apply next_continue; auto; lia.
  - destruct (aluOpX_safe Op a x) as (v & b & E & ?); [done..|].
    rewrite E. apply next_continue; auto; lia.
  - auto.
  - rewrite swrap64_u32 in Heqb by done. rewrite (swrap64_u32 Skip) by done.
    unfold is_u32 in Hok. apply next_continue; [rewrite swrap_id; lia|done..].
  - destruct Hok as (_ & _ & Hst & Hsf). apply next_continue; [|done..].
    apply jump_target with SkipTrue SkipFalse; try done; apply jumpIfCommon_range.
  - destruct Hok as (_ & Hst & Hsf). apply next_continue; [|done..].
    apply jump_target with SkipTrue SkipFalse; try done; apply jumpIfCommon_range.
  - by rewrite swrap64_u32.
  - by rewrite swrap64_u32.
Qed.

(** Loop: with a program of valid instructions, [n - i + 1] iterations are enough. *)
Lemma vm_loop_safe filter pkt :
  zlen filter < 2 ^ 62 -> bytes_ok pkt ->
  (forall i ins, zget filter i = Some ins -> inst_valid (zlen filter) i ins) ->
  forall fuel s, state_ok s -> 0 <= st_i s <= zlen filter ->
  zlen filter - st_i s < Z.of_nat fuel ->
  exists r, vm_loop 64 fuel filter pkt s = Some r /\
    match r with
    | Ret v => is_u32 v
    | Fail e => exists i ins, zget filter i = Some ins /\ e = ErrUnknownInstruction i ins /\
                  (is_raw ins = true \/ ins = NegateA)
    | Panic => False
    end.
Proof.
  intros Hn Hp Hv fuel. induction fuel as [|fuel IH]; intros s Hs Hi Hf; [lia|]. simpl.
  destruct (Z.ltb_spec (st_i s) (zlen filter)) as [Hlt|Hge]; simpl;
    [|exists (Ret 0); auto with gonet].
  destruct (st_ok s); [|exists (Ret 0); auto with gonet].
  destruct (zget_in filter (st_i s)) as [ins Hins]; [lia|]. rewrite Hins.
  pose proof (vm_body_safe (zlen filter) pkt ins s Hn Hp Hs ltac:(lia) (Hv _ _ Hins)) as Hb.
  destruct (vm_body 64 pkt ins s) as [s'|r]; simpl in Hb.
  - destruct Hb as [Hi' Hs']. apply IH; simpl; rewrite ?swrap_id by lia; try lia. done.
  - exists r. split; [done|]. destruct r; auto. destruct Hb; eauto.
Qed.

Lemma checkFilter_each W n i filter :
  checkFilter W n i filter = None ->
  forall j ins, filter !! j = Some ins ->
  checkInstruction W (n - (i + Z.of_nat j + 1)) ins = None.
Proof.
  revert i. induction filter as [|x filter IH]; intros i; [done|]. simpl.
  destruct (checkInstruction _ _ x) eqn:E; [done|]. intros H [|j] ins; simpl.
  - intros [= ->]. rewrite Z.add_0_r. done.
  - intros Hj. replace (i + Z.of_nat (S j) + 1) with (i + 1 + Z.of_nat j + 1) by lia. eauto.
Qed.

Lemma NewVM_accepted W filter v :
  NewVM W filter = (Some v, None) ->
  v = mkVM filter /\ checkFilter W (zlen filter) 0 filter = None /\
  exists raws, Assemble filter = Ret raws.
Proof.
  unfold NewVM. destruct filter as [|x filter]; [done|].
  destruct (checkFilter _ _ _ _) eqn:E; [done|].
  pose proof (Assemble_no_panic (x :: filter)).
  destruct (Assemble _) eqn:EA; repeat split_match; intros; simplify_eq; eauto.
Qed.

(** An accepted program consists of valid instructions. *)
Lemma NewVM_valid filter v :
  NewVM 64 filter = (Some v, None) -> Forall inst_ok filter ->
  forall i ins, zget filter i = Some ins -> inst_valid (zlen filter) i ins.
Proof.
  intros (-> & Hc & raws & Has)%NewVM_accepted Hok i ins Hi.
  pose proof (zget_Some _ _ _ Hi) as [Hi0 _].
  unfold zget in Hi. destruct (0 <=? i); [|done].
  split; [by eapply Forall_lookup_1|]. split.
  - eapply checkFilter_each in Hc; [|exact Hi].
    rewrite Z2Nat.id, Z.add_0_l in Hc by done. done.
  - apply Assemble_from_each in Has. eapply Forall2_lookup_l in Has as (r & _ & ?); eauto.
Qed.

(** C22: on a 64-bit platform, a program accepted by [NewVM] is safe on every
    packet: [Run] always finishes within as many iterations as the program has
    instructions (plus the final test), returns a 32-bit verdict, never panics,
    and reports an error only when it reaches an instruction it does not
    implement ([NegateA] or a raw instruction). *)
Theorem Run_safe filter v pkt :
  NewVM 64 filter = (Some v, None) -> Forall inst_ok filter -> zlen filter < 2 ^ 62 ->
  bytes_ok pkt ->
  exists r, Run 64 (S (length filter)) v pkt = Some r /\
    match r with
    | Ret n => is_u32 n
    | Fail e => exists i ins, zget filter i = Some ins /\ e = ErrUnknownInstruction i ins /\
                  (is_raw ins = true \/ ins = NegateA)
    | Panic => False
    end.
Proof.
  intros Hnew Hok Hlen Hp. pose proof (NewVM_valid _ _ Hnew Hok) as Hv.
  apply NewVM_accepted in Hnew as (-> & _). unfold Run. simpl vm_filter.
  apply vm_loop_safe; auto; simpl; unfold zlen; try lia.
  split; [|split]; auto with gonet. split; [done|]. repeat constructor; apply u32_zero.
Qed.

Lemma Run_safe_witness :
  NewVM 64 sample_program = (Some (mkVM sample_program), None) /\
  exists r, Run 64 5 (mkVM sample_program) [1; 2; 3] = Some r /\
    match r with Ret n => is_u32 n | Fail _ => True | Panic => False end.
Proof.
  split; [vm_compute; reflexivity|].
  destruct (Run_safe sample_program (mkVM sample_program) [1; 2; 3]) as (r & Hr & H).
  - vm_compute; reflexivity.
  - repeat constructor; vm_compute; intros; discriminate.
  - vm_compute; reflexivity.
  - repeat constructor; vm_compute; intros; discriminate.
  - exists r. split; [exact Hr|]. destruct r; [exact H|exact I|exact H].
Defined.

(** ** Running disassembled programs *)

(** Instructions whose assembled code means the same to the disassembler; every
    conditional jump qualifies. *)
Definition decodable (ins : Instruction) : bool :=
  match ins with
  | JumpIf _ _ _ _ | JumpIfX _ _ _ => true
  | _ => canonical ins
  end.

Lemma jumpIfCommon_negate c st sf a v :
  In c [0; 1; 2; 3; 4; 5; 6; 7] ->
  jumpIfCommon (negate_test c) sf st a v = jumpIfCommon c st sf a v.
Proof.
  intros Hc. in_cases Hc; unfold jumpIfCommon; cbn;
    rewrite ?Z.gtb_ltb, ?Z.geb_leb, ?Z.leb_antisym;
    match goal with |- context [if negb ?b then _ else _] => destruct b end; reflexivity.
Qed.

Lemma vm_body_jump W pkt operand c k t f i a x scr ok :
  vm_body W pkt (jump_inst operand c k t f) (mkState i a x scr ok) =
  Continue (mkState (swrap W (i + jumpIfCommon c t f a (if operand =? opOperandX then x else k)))
              a x scr ok).
Proof. unfold jump_inst. destruct (operand =? opOperandX); reflexivity. Qed.

Lemma jump_read_back W pkt operand c k t f r ins' s :
  In operand [opOperandConstant; opOperandX] -> jumpToRaw c operand k t f = Ret r ->
  raw_Disassemble r = Ret ins' ->
  vm_body W pkt ins' s = vm_body W pkt (jump_inst operand c k t f) s.
Proof.
  intros Ho Has Hdis. pose proof (jumpToRaw_inv _ _ _ _ _ _ Has) as Hc.
  rewrite (roundtrip_jump _ _ _ _ _ _ Ho Has) in Hdis. injection Hdis as <-.
  destruct s as [i a x scr ok]. rewrite vm_body_jump.
  destruct (Z.even c); [destruct (Z.eqb_spec t 0) as [->|]|destruct (Z.eqb_spec f 0) as [->|]];
    rewrite vm_body_jump, ?jumpIfCommon_negate by done; reflexivity.
Qed.

(** The instruction read back behaves as the one assembled. *)
Lemma vm_body_read_back W pkt ins r ins' s :
  decodable ins = true -> inst_Assemble ins = Ret r -> raw_Disassemble r = Ret ins' ->
  vm_body W pkt ins' s = vm_body W pkt ins s.
Proof.
  intros Hd Has Hdis.
  assert (is_raw ins = false) as Hraw by (destruct ins; done).
  assert (canonical ins = true -> ins' = ins) as Hcan.
  { intros Hc. apply (assemble_disassemble_iff ins r Hraw Has) in Hc. congruence. }
  destruct ins; try (rewrite Hcan by exact Hd; reflexivity).
  - apply (jump_read_back W pkt opOperandConstant _ _ _ _ r); simpl; auto.
  - apply (jump_read_back W pkt opOperandX _ 0 _ _ r); simpl; auto.
Qed.

Lemma vm_loop_ext W pkt filter filter' :
  Forall2 (fun ins ins' => forall s, vm_body W pkt ins' s = vm_body W pkt ins s) filter filter' ->
  forall fuel s, vm_loop W fuel filter' pkt s = vm_loop W fuel filter pkt s.
Proof.
  intros Hf. assert (zlen filter' = zlen filter) as Hlen.
  { unfold zlen. by rewrite (Forall2_length _ _ _ Hf). }
  induction fuel as [|fuel IH]; intros s; [done|]. simpl. rewrite Hlen.
  destruct (_ && _); [|done].
  destruct (zget filter (st_i s)) as [ins|] eqn:E.
  - unfold zget in *. destruct (0 <=? st_i s); [|done].
    destruct (Forall2_lookup_l _ _ _ _ _ Hf E) as (ins' & -> & Hb).
    rewrite Hb. destruct (vm_body _ _ _ _); auto.
  - assert (zget filter' (st_i s) = None) as ->; [|done].
    unfold zget in *. destruct (0 <=? st_i s); [|done].
    apply lookup_ge_None. apply lookup_ge_None in E. unfold zlen in Hlen. lia.
Qed.

(** Assembling an accepted program and disassembling the code gives a
    program with the same runs, on every packet, for every number of iterations
    and on every platform, even where the disassembler rewrites a conditional
    jump into its negation. *)
Theorem Run_disassembled W filter v raws filter' allDecoded :
  NewVM W filter = (Some v, None) -> forallb decodable filter = true ->
  Assemble filter = Ret raws -> Disassemble raws = Ret (filter', allDecoded) ->
  forall fuel pkt, Run W fuel (mkVM filter') pkt = Run W fuel v pkt.
Proof.
  intros (-> & _)%NewVM_accepted Hd Has%Assemble_from_each Hdis fuel pkt.
  destruct (Disassemble_each raws) as (insts & Hall & E). rewrite E in Hdis.
  injection Hdis as -> _. clear E. unfold Run. simpl. apply vm_loop_ext.
  revert filter' Hall. induction Has as [|ins r filter raws Hr _ IH]; intros filter' Hall.
  - inversion Hall. constructor.
  - inversion Hall; subst. simpl in Hd. apply andb_true_iff in Hd as [??].
    constructor; [|by apply IH]. intros s. by eapply vm_body_read_back.
Qed.

Definition jump_program : list Instruction :=
  [LoadConstant RegA 7; JumpIf JumpEqual 7 0 1; RetConstant 1; RetA].

Lemma Run_disassembled_witness :
  exists raws filter' b, Assemble jump_program = Ret raws /\ Disassemble raws = Ret (filter', b) /\
    filter' <> jump_program /\
    Run 64 5 (mkVM filter') [] = Run 64 5 (mkVM jump_program) [].
Proof.
  do 3 eexists. split; [vm_compute; reflexivity|]. split; [vm_compute; reflexivity|].
  split; [discriminate|].
  apply (Run_disassembled 64 jump_program (mkVM jump_program)
           [mkRaw 0 0 0 7; mkRaw 21 0 1 7; mkRaw 6 0 0 1; mkRaw 22 0 0 0] _ true);
    vm_compute; reflexivity.
Defined.

Lemma vm_loop_S W fuel filter pkt s ins :
  (st_i s <? zlen filter) && st_ok s = true -> zget filter (st_i s) = Some ins ->
  vm_loop W (S fuel) filter pkt s =
  match vm_body W pkt ins s with
  | Continue s' => vm_loop W fuel filter pkt (vm_incr W s')
  | Return r => Some r
  end.
Proof. intros H1 H2. simpl. rewrite H1, H2. done. Qed.

(** The packet filter of the package documentation selects exactly the ARP
    packets: those whose bytes 12 and 13 are present and hold 0x0806. *)
Theorem arp_filter_correct pkt :
  bytes_ok pkt ->
  Run 64 5 (mkVM sample_program) pkt =
    Some (Ret (if (14 <=? zlen pkt) && (be_value (zsub pkt 12 2) =? 0x0806) then 4096 else 0)).
Proof.
  intros Hp. unfold Run. simpl vm_filter.
  pose proof (loadCommon_spec pkt 12 2 Hp ltac:(lia) ltac:(simpl; auto)) as E.
  change (12 + 2) with 14 in E.
  rewrite (vm_loop_S _ _ _ _ _ (LoadAbsolute 12 2)) by reflexivity.
  cbn [vm_body vm_init]. unfold loadAbsolute. change (swrap 64 12) with 12. rewrite E.
  destruct (14 <=? zlen pkt); [|reflexivity]. cbn [from_opt andb].
  generalize (be_value (zsub pkt 12 2)). intros a.
  rewrite (vm_loop_S _ _ _ _ _ (JumpIf JumpNotEqual 0x0806 1 0)) by reflexivity.
  cbn [vm_body vm_incr st_i st_regA st_regX st_scratch st_ok]. unfold jumpIf, jumpIfCommon.
  change (JumpNotEqual =? JumpEqual) with false. change (JumpNotEqual =? JumpNotEqual) with true.
  cbv iota. destruct (a =? 2054); reflexivity.
Qed.

Lemma arp_filter_correct_witness :
  Run 64 5 (mkVM sample_program) [0;0;0;0;0;0;0;0;0;0;0;0;8;6;1] = Some (Ret 4096).
Proof.
  rewrite arp_filter_correct; [reflexivity|].
  repeat constructor; vm_compute; intros; discriminate.
Defined.

(** Where [int] is 32 bits wide the checks of [NewVM] and [inBounds] compare
    the operand after conversion to a negative [int]: there are accepted programs
    that never finish, whatever the packet, and accepted programs that panic. *)
Theorem NewVM_32bit_unsafe :
  (exists filter v, NewVM 32 filter = (Some v, None) /\ Forall inst_ok filter /\
     forall fuel pkt, Run 32 fuel v pkt = None) /\
  (exists filter v, NewVM 32 filter = (Some v, None) /\ Forall inst_ok filter /\
     forall fuel pkt, bytes_ok pkt -> Run 32 (S (S fuel)) v pkt = Some Panic).
Proof.
  split.
  - exists [Jump 0xffffffff; RetConstant 0]. eexists. split; [vm_compute; reflexivity|].
    split; [repeat constructor; vm_compute; intros; discriminate|].
    intros fuel pkt. unfold Run. induction fuel as [|fuel IH]; [done|]. exact IH.
  - exists [LoadAbsolute 0xffffffff 1; RetConstant 0]. eexists. split; [vm_compute; reflexivity|].
    split; [repeat constructor; vm_compute; intros; discriminate|].
    intros fuel pkt Hp. unfold Run. simpl vm_filter.
    rewrite (vm_loop_S _ _ _ _ _ (LoadAbsolute 0xffffffff 1)) by reflexivity.
    cbn [vm_body vm_init]. unfold loadAbsolute, loadCommon, inBounds. cbv iota.
    change (swrap 32 0xffffffff) with (-1). change (swrap 32 (-1 + 1)) with 0.
    pose proof (zlen_nonneg pkt). destruct (Z.leb_spec 0 (zlen pkt)); [|lia]. reflexivity.
Qed.
