(* ===== verification/Bits.v ===== *)
(** * Bit strings

    The Huffman coder of package hpack packs codes of varying length into bytes,
    most significant bit first.  Its theory is stated on lists of booleans; this
    file relates them to the integers and shifts the code computes with. *)

From S2P Require Import Prelude.

(** The low [n] bits of [x], most significant first. *)
Fixpoint lowbits (x : Z) (n : nat) : list bool :=
  match n with
  | O => []
  | S n' => Z.testbit x (Z.of_nat n') :: lowbits x n'
  end.

Definition bits_of_bytes (l : bytes) : list bool := flat_map (fun b => lowbits b 8) l.

Lemma length_lowbits x n : length (lowbits x n) = n.
Proof. induction n; simpl; auto. Qed.

Lemma lowbits_ext x y n :
  (forall i, 0 <= i < Z.of_nat n -> Z.testbit x i = Z.testbit y i) -> lowbits x n = lowbits y n.
Proof.
  induction n as [|n IH]; intros H; simpl; [done|]. f_equal; [apply H; lia|].
  apply IH. intros. apply H. lia.
Qed.

Lemma lowbits_inj x y n : lowbits x n = lowbits y n ->
  forall i, 0 <= i < Z.of_nat n -> Z.testbit x i = Z.testbit y i.
Proof.
  induction n as [|n IH]; intros H i Hi; [lia|]. simpl in H. injection H as H1 H2.
  destruct (Z.eq_dec i (Z.of_nat n)) as [->|]; [done|]. apply IH; [done|lia].
Qed.

Lemma lowbits_app x m n : lowbits x (m + n) = lowbits (Z.shiftr x (Z.of_nat n)) m ++ lowbits x n.
Proof.
  induction m as [|m IH]; simpl; [done|]. f_equal; [|done].
  rewrite Z.shiftr_spec by lia. f_equal. lia.
Qed.

Lemma testbit_small x n i : 0 <= n <= i -> 0 <= x < 2 ^ n -> Z.testbit x i = false.
Proof.
  intros Hi Hx. destruct (Z.eq_dec x 0) as [->|]; [apply Z.bits_0|].
  apply Z.bits_above_log2; [lia|]. apply Z.lt_le_trans with n; [|lia].
  apply Z.log2_lt_pow2; lia.
Qed.

Lemma lowbits_mod x m n : Z.of_nat n <= m -> lowbits (x mod 2 ^ m) n = lowbits x n.
Proof. intros. apply lowbits_ext. intros. apply Z.mod_pow2_bits_low. lia. Qed.

(** Shifting a new field in at the bottom. *)
Lemma lowbits_push x c m n :
  0 <= c < 2 ^ Z.of_nat n ->
  lowbits (Z.lor (Z.shiftl x (Z.of_nat n)) c) (m + n) = lowbits x m ++ lowbits c n.
Proof.
  intros Hc. rewrite lowbits_app. f_equal; apply lowbits_ext; intros i Hi.
  - rewrite Z.shiftr_spec, Z.lor_spec, Z.shiftl_spec by lia.
    rewrite (testbit_small c (Z.of_nat n)), orb_false_r by lia. f_equal. lia.
  - rewrite Z.lor_spec, Z.shiftl_spec_low by lia. done.
Qed.

Lemma bits_of_bytes_app l k : bits_of_bytes (l ++ k) = bits_of_bytes l ++ bits_of_bytes k.
Proof. apply flat_map_app. Qed.

Lemma length_bits_of_bytes l : length (bits_of_bytes l) = (8 * length l)%nat.
Proof. induction l; simpl; [done|]. rewrite IHl. lia. Qed.

Lemma lowbits_u8 x : lowbits (u8 x) 8 = lowbits x 8.
Proof. apply lowbits_mod. lia. Qed.

(** Two integers below [2^n] with the same low bits are equal. *)
Lemma lowbits_eq x y n :
  0 <= x < 2 ^ Z.of_nat n -> 0 <= y < 2 ^ Z.of_nat n -> lowbits x n = lowbits y n -> x = y.
Proof.
  intros Hx Hy H. apply Z.bits_inj'. intros i Hi.
  destruct (Z.lt_ge_cases i (Z.of_nat n)).
  - eapply lowbits_inj; eauto.
  - rewrite !(testbit_small _ (Z.of_nat n)) by lia. done.
Qed.

Lemma lowbits_ones n : lowbits (Z.ones (Z.of_nat n)) n = replicate n true.
Proof.
  assert (forall m, (n <= m)%nat -> lowbits (Z.ones (Z.of_nat m)) n = replicate n true) as E.
  { induction n as [|n IH]; intros m Hm; simpl; [done|].
    rewrite Z.ones_spec_low by lia. f_equal. apply IH. lia. }
  apply E. lia.
Qed.

Lemma drop_lowbits x n k : drop k (lowbits x n) = lowbits x (n - k).
Proof.
  revert k. induction n as [|n IH]; intros [|k]; simpl; auto.
Qed.

(** The byte at the top of a buffer of [n >= 8] bits. *)
Lemma lowbits_top x n :
  (8 <= n)%nat -> lowbits (u8 (Z.shiftr x (Z.of_nat n - 8))) 8 = take 8 (lowbits x n).
Proof.
  intros Hn. rewrite lowbits_u8. replace n with (8 + (n - 8))%nat at 2 by lia.
  rewrite lowbits_app, take_app_le by (rewrite length_lowbits; lia).
  rewrite take_ge by (rewrite length_lowbits; lia). do 2 f_equal; lia.
Qed.

(** A buffer of [n < 8] bits moved to the top of a byte. *)
Lemma lowbits_lift x n :
  (n <= 8)%nat ->
  lowbits (u8 (Z.shiftl x (8 - Z.of_nat n))) 8 = lowbits x n ++ replicate (8 - n) false.
Proof.
  intros Hn. rewrite lowbits_u8. replace 8%nat with (n + (8 - n))%nat at 1 by lia.
  rewrite lowbits_app. f_equal.
  - apply lowbits_ext. intros i Hi. rewrite Z.shiftr_spec, Z.shiftl_spec by lia. f_equal. lia.
  - assert (forall m, (m <= 8 - n)%nat -> lowbits (Z.shiftl x (8 - Z.of_nat n)) m = replicate m false)
      as E; [|by apply E].
    induction m as [|m IH]; intros Hm; simpl; [done|].
    rewrite Z.shiftl_spec_low by lia. f_equal. apply IH. lia.
Qed.

(** The bytes of a 16, 24 or 32 bit big-endian write. *)
Lemma bits_of_bytes_u32 x :
  bits_of_bytes [u8 (Z.shiftr x 24); u8 (Z.shiftr x 16); u8 (Z.shiftr x 8); u8 x] = lowbits x 32.
Proof.
  unfold bits_of_bytes. cbn [flat_map]. rewrite !lowbits_u8, app_nil_r.
  rewrite (lowbits_app x 8 24 : lowbits x 32 = _), (lowbits_app x 8 16 : lowbits x 24 = _),
    (lowbits_app x 8 8 : lowbits x 16 = _). done.
Qed.

Lemma bits_of_bytes_u24 x :
  bits_of_bytes [u8 (Z.shiftr x 16); u8 (Z.shiftr x 8); u8 x] = lowbits x 24.
Proof.
  unfold bits_of_bytes. cbn [flat_map]. rewrite !lowbits_u8, app_nil_r.
  rewrite (lowbits_app x 8 16 : lowbits x 24 = _), (lowbits_app x 8 8 : lowbits x 16 = _). done.
Qed.

Lemma bits_of_bytes_u16 x : bits_of_bytes [u8 (Z.shiftr x 8); u8 x] = lowbits x 16.
Proof.
  unfold bits_of_bytes. cbn [flat_map]. rewrite !lowbits_u8, app_nil_r.
  rewrite (lowbits_app x 8 8 : lowbits x 16 = _). done.
Qed.
