(* ===== verification/HpackHuffman.v ===== *)
(** * Package hpack: Huffman coding

    Models src/http2/hpack/huffman.go and the two Huffman tables of
    src/http2/hpack/tables.go.  The decoding tree is built by the same loop as in
    [buildRootHuffmanNode]; a [*node] with children is the array of its 256
    children, a leaf carries its code length in the last byte and its symbol. *)

From S2P Require Import Prelude Bits.
Set Warnings "-register-all".

(** ** Tables (tables.go) *)
Definition huffmanCodes : list Z :=
  [0x1ff8; 0x7fffd8; 0xfffffe2; 0xfffffe3; 0xfffffe4; 0xfffffe5; 0xfffffe6; 0xfffffe7;
   0xfffffe8; 0xffffea; 0x3ffffffc; 0xfffffe9; 0xfffffea; 0x3ffffffd; 0xfffffeb; 0xfffffec;
   0xfffffed; 0xfffffee; 0xfffffef; 0xffffff0; 0xffffff1; 0xffffff2; 0x3ffffffe; 0xffffff3;
   0xffffff4; 0xffffff5; 0xffffff6; 0xffffff7; 0xffffff8; 0xffffff9; 0xffffffa; 0xffffffb;
   0x14; 0x3f8; 0x3f9; 0xffa; 0x1ff9; 0x15; 0xf8; 0x7fa;
   0x3fa; 0x3fb; 0xf9; 0x7fb; 0xfa; 0x16; 0x17; 0x18;
   0x0; 0x1; 0x2; 0x19; 0x1a; 0x1b; 0x1c; 0x1d;
   0x1e; 0x1f; 0x5c; 0xfb; 0x7ffc; 0x20; 0xffb; 0x3fc;
   0x1ffa; 0x21; 0x5d; 0x5e; 0x5f; 0x60; 0x61; 0x62;
   0x63; 0x64; 0x65; 0x66; 0x67; 0x68; 0x69; 0x6a;
   0x6b; 0x6c; 0x6d; 0x6e; 0x6f; 0x70; 0x71; 0x72;
   0xfc; 0x73; 0xfd; 0x1ffb; 0x7fff0; 0x1ffc; 0x3ffc; 0x22;
   0x7ffd; 0x3; 0x23; 0x4; 0x24; 0x5; 0x25; 0x26;
   0x27; 0x6; 0x74; 0x75; 0x28; 0x29; 0x2a; 0x7;
   0x2b; 0x76; 0x2c; 0x8; 0x9; 0x2d; 0x77; 0x78;
   0x79; 0x7a; 0x7b; 0x7ffe; 0x7fc; 0x3ffd; 0x1ffd; 0xffffffc;
   0xfffe6; 0x3fffd2; 0xfffe7; 0xfffe8; 0x3fffd3; 0x3fffd4; 0x3fffd5; 0x7fffd9;
   0x3fffd6; 0x7fffda; 0x7fffdb; 0x7fffdc; 0x7fffdd; 0x7fffde; 0xffffeb; 0x7fffdf;
   0xffffec; 0xffffed; 0x3fffd7; 0x7fffe0; 0xffffee; 0x7fffe1; 0x7fffe2; 0x7fffe3;
   0x7fffe4; 0x1fffdc; 0x3fffd8; 0x7fffe5; 0x3fffd9; 0x7fffe6; 0x7fffe7; 0xffffef;
   0x3fffda; 0x1fffdd; 0xfffe9; 0x3fffdb; 0x3fffdc; 0x7fffe8; 0x7fffe9; 0x1fffde;
   0x7fffea; 0x3fffdd; 0x3fffde; 0xfffff0; 0x1fffdf; 0x3fffdf; 0x7fffeb; 0x7fffec;
   0x1fffe0; 0x1fffe1; 0x3fffe0; 0x1fffe2; 0x7fffed; 0x3fffe1; 0x7fffee; 0x7fffef;
   0xfffea; 0x3fffe2; 0x3fffe3; 0x3fffe4; 0x7ffff0; 0x3fffe5; 0x3fffe6; 0x7ffff1;
   0x3ffffe0; 0x3ffffe1; 0xfffeb; 0x7fff1; 0x3fffe7; 0x7ffff2; 0x3fffe8; 0x1ffffec;
   0x3ffffe2; 0x3ffffe3; 0x3ffffe4; 0x7ffffde; 0x7ffffdf; 0x3ffffe5; 0xfffff1; 0x1ffffed;
   0x7fff2; 0x1fffe3; 0x3ffffe6; 0x7ffffe0; 0x7ffffe1; 0x3ffffe7; 0x7ffffe2; 0xfffff2;
   0x1fffe4; 0x1fffe5; 0x3ffffe8; 0x3ffffe9; 0xffffffd; 0x7ffffe3; 0x7ffffe4; 0x7ffffe5;
   0xfffec; 0xfffff3; 0xfffed; 0x1fffe6; 0x3fffe9; 0x1fffe7; 0x1fffe8; 0x7ffff3;
   0x3fffea; 0x3fffeb; 0x1ffffee; 0x1ffffef; 0xfffff4; 0xfffff5; 0x3ffffea; 0x7ffff4;
   0x3ffffeb; 0x7ffffe6; 0x3ffffec; 0x3ffffed; 0x7ffffe7; 0x7ffffe8; 0x7ffffe9; 0x7ffffea;
   0x7ffffeb; 0xffffffe; 0x7ffffec; 0x7ffffed; 0x7ffffee; 0x7ffffef; 0x7fffff0; 0x3ffffee].

Definition huffmanCodeLen : list Z :=
  [13; 23; 28; 28; 28; 28; 28; 28; 28; 24; 30; 28; 28; 30; 28; 28;
   28; 28; 28; 28; 28; 28; 30; 28; 28; 28; 28; 28; 28; 28; 28; 28;
   6; 10; 10; 12; 13; 6; 8; 11; 10; 10; 8; 11; 8; 6; 6; 6;
   5; 5; 5; 6; 6; 6; 6; 6; 6; 6; 7; 8; 15; 6; 12; 10;
   13; 6; 7; 7; 7; 7; 7; 7; 7; 7; 7; 7; 7; 7; 7; 7;
   7; 7; 7; 7; 7; 7; 7; 7; 8; 7; 8; 13; 19; 13; 14; 6;
   15; 5; 6; 5; 6; 5; 6; 6; 6; 5; 7; 7; 6; 6; 6; 5;
   6; 7; 6; 5; 5; 6; 7; 7; 7; 7; 7; 15; 11; 14; 13; 28;
   20; 22; 20; 20; 22; 22; 22; 23; 22; 23; 23; 23; 23; 23; 24; 23;
   24; 24; 22; 23; 24; 23; 23; 23; 23; 21; 22; 23; 22; 23; 23; 24;
   22; 21; 20; 22; 22; 23; 23; 21; 23; 22; 22; 24; 21; 22; 23; 23;
   21; 21; 22; 21; 23; 22; 23; 23; 20; 22; 22; 22; 23; 22; 22; 23;
   26; 26; 20; 19; 22; 23; 22; 25; 26; 26; 26; 27; 27; 26; 24; 25;
   19; 21; 26; 27; 27; 26; 27; 24; 21; 21; 26; 26; 28; 27; 27; 27;
   20; 24; 20; 21; 22; 21; 21; 23; 22; 22; 25; 25; 24; 24; 26; 23;
   26; 27; 26; 26; 27; 27; 27; 27; 27; 28; 27; 27; 27; 27; 27; 26].

Definition codeOf (c : Z) : Z := nth (Z.to_nat c) huffmanCodes 0.
Definition lenOf (c : Z) : Z := nth (Z.to_nat c) huffmanCodeLen 0.

(** ** The decoding tree *)
Inductive node :=
| leaf (codeLen sym : Z)
| inner (children : list (option node)).

Definition newInternalNode : list (option node) := replicate 256 None.

(** Sets [children[i]] for [start <= i < start + n] to the same leaf. *)
Fixpoint fill (children : list (option node)) (start : Z) (n : nat) (l : node)
  : list (option node) :=
  match n with
  | O => children
  | S n' => fill (<[Z.to_nat start := Some l]> children) (start + 1) n' l
  end.

(** The body of the loop over the symbols: follow (and create) the internal nodes
    for the leading bytes of the code, then fill the range of the last one.
    [fuel] bounds the number of leading bytes; codes are at most 30 bits long. *)
Fixpoint insertCode (fuel : nat) (cur : list (option node)) (code codeLen sym : Z)
  : list (option node) :=
  match fuel with
  | O => cur
  | S fuel' =>
      if codeLen >? 8 then
        let codeLen := codeLen - 8 in
        let i := u8 (Z.shiftr code codeLen) in
        let child := match nth (Z.to_nat i) cur None with
                     | Some (inner ch) => ch
                     | _ => newInternalNode
                     end in
        <[Z.to_nat i := Some (inner (insertCode fuel' child code codeLen sym))]> cur
      else
        let shift := 8 - codeLen in
        let start := u8 (Z.shiftl code shift) in
        fill cur start (Z.to_nat (Z.shiftl 1 shift)) (leaf codeLen sym)
  end.

Fixpoint insertCodes (sym : Z) (codes lens : list Z) (root : list (option node))
  : list (option node) :=
  match codes, lens with
  | code :: codes', codeLen :: lens' =>
      insertCodes (sym + 1) codes' lens' (insertCode 4 root code codeLen sym)
  | _, _ => root
  end.

Definition buildRootHuffmanNode : list (option node) :=
  insertCodes 0 huffmanCodes huffmanCodeLen newInternalNode.

Definition getRootHuffmanNode : list (option node) :=
  Eval vm_compute in buildRootHuffmanNode.

(** ** Decoding *)
Inductive huff_error := ErrInvalidHuffman | ErrStringLength.

Record hstate := mkH {
  h_buf : bytes;                      (* buf: decoded bytes *)
  h_n : list (option node);           (* n.children *)
  h_cur : Z;                          (* uint *)
  h_cbits : Z;                        (* uint8 *)
  h_sbits : Z                         (* uint8 *)
}.

(** [for cbits >= 8 { ... }]; [None] when the fuel is spent. *)
Fixpoint decodeInner (fuel : nat) (maxLen : Z) (h : hstate) : option (hstate + huff_error) :=
  match fuel with
  | O => None
  | S fuel' =>
      let '(mkH buf n cur cbits sbits) := h in
      if cbits >=? 8 then
        let idx := u8 (Z.shiftr cur (cbits - 8)) in
        match nth (Z.to_nat idx) n None with
        | None => Some (inr ErrInvalidHuffman)
        | Some (leaf codeLen sym) =>
            if negb (maxLen =? 0) && (zlen buf =? maxLen) then Some (inr ErrStringLength)
            else let cbits := u8 (cbits - codeLen) in
                 decodeInner fuel' maxLen (mkH (buf ++ [sym]) getRootHuffmanNode cur cbits cbits)
        | Some (inner ch) => decodeInner fuel' maxLen (mkH buf ch cur (u8 (cbits - 8)) sbits)
        end
      else Some (inl h)
  end.

(** [for _, b := range v { ... }] *)
Fixpoint decodeBytes (maxLen : Z) (h : hstate) (v : bytes) : option (hstate + huff_error) :=
  match v with
  | [] => Some (inl h)
  | b :: v' =>
      let '(mkH buf n cur cbits sbits) := h in
      match decodeInner 16 maxLen
              (mkH buf n (Z.lor (u64 (Z.shiftl cur 8)) b) (u8 (cbits + 8)) (u8 (sbits + 8))) with
      | Some (inl h') => decodeBytes maxLen h' v'
      | r => r
      end
  end.

(** [for cbits > 0 { ... }] *)
Fixpoint decodeTail (fuel : nat) (maxLen : Z) (h : hstate) : option (hstate + huff_error) :=
  match fuel with
  | O => None
  | S fuel' =>
      let '(mkH buf n cur cbits sbits) := h in
      if cbits >? 0 then
        match nth (Z.to_nat (u8 (Z.shiftl cur (8 - cbits)))) n None with
        | None => Some (inr ErrInvalidHuffman)
        | Some (inner ch) => Some (inl (mkH buf ch cur cbits sbits))
        | Some (leaf codeLen sym) =>
            if codeLen >? cbits then Some (inl h)
            else if negb (maxLen =? 0) && (zlen buf =? maxLen) then Some (inr ErrStringLength)
            else let cbits := u8 (cbits - codeLen) in
                 decodeTail fuel' maxLen (mkH (buf ++ [sym]) getRootHuffmanNode cur cbits cbits)
        end
      else Some (inl h)
  end.

(** [huffmanDecode] on an empty buffer: the decoded bytes, or the error. *)
Definition huffmanDecode (maxLen : Z) (v : bytes) : option (bytes + huff_error) :=
  match decodeBytes maxLen (mkH [] getRootHuffmanNode 0 0 0) v with
  | None => None
  | Some (inr e) => Some (inr e)
  | Some (inl h) =>
      match decodeTail 9 maxLen h with
      | None => None
      | Some (inr e) => Some (inr e)
      | Some (inl (mkH buf _ cur cbits sbits)) =>
          if sbits >? 7 then Some (inr ErrInvalidHuffman)
          else let mask := Z.shiftl 1 cbits - 1 in
               if negb (Z.land cur mask =? mask) then Some (inr ErrInvalidHuffman)
               else Some (inl buf)
      end
  end.

Definition HuffmanDecodeToString (v : bytes) : option (bytes + huff_error) := huffmanDecode 0 v.

(** ** Encoding *)
Definition HuffmanEncodeLength (s : bytes) : Z :=
  (fold_left (fun n c => u64 (n + lenOf c)) s 0 + 7) / 8.

(** The loop of [AppendHuffmanString]: buffer [x] (uint64) with [n] valid bits. *)
Fixpoint appendCodes (dst : bytes) (x n : Z) (s : bytes) : bytes * Z * Z :=
  match s with
  | [] => (dst, x, n)
  | c :: s' =>
      let n := n + lenOf c in
      let x := u64 (Z.shiftl x (lenOf c mod 64)) in
      let x := Z.lor x (codeOf c) in
      if n >=? 32 then
        let n := n mod 32 in
        let y := u32 (Z.shiftr x n) in
        appendCodes (dst ++ [u8 (Z.shiftr y 24); u8 (Z.shiftr y 16); u8 (Z.shiftr y 8); u8 y]) x n s'
      else appendCodes dst x n s'
  end.

Definition eosCode : Z := 0x3fffffff.
Definition eosNBits : Z := 30.
Definition eosPadByte : Z := Z.shiftr eosCode (eosNBits - 8).

(** The last bytes: [n] bits, a multiple of eight up to 32. *)
Definition appendRest (dst : bytes) (x n : Z) : bytes :=
  if n / 8 =? 0 then dst
  else if n / 8 =? 1 then dst ++ [u8 x]
  else if n / 8 =? 2 then let y := u16 x in dst ++ [u8 (Z.shiftr y 8); u8 y]
  else if n / 8 =? 3 then let y := u16 (Z.shiftr x 8) in dst ++ [u8 (Z.shiftr y 8); u8 y; u8 x]
  else let y := u32 x in
       dst ++ [u8 (Z.shiftr y 24); u8 (Z.shiftr y 16); u8 (Z.shiftr y 8); u8 y].

Definition AppendHuffmanString (dst : bytes) (s : bytes) : bytes :=
  let '(dst, x, n) := appendCodes dst 0 0 s in
  let over := n mod 8 in
  let '(x, n) := if over >? 0
                 then (Z.lor (u64 (Z.shiftl x (8 - over))) (Z.shiftr eosPadByte over), n + (8 - over))
                 else (x, n) in
  appendRest dst x n.

(** ** Theory *)
Definition root : list (option node) := getRootHuffmanNode.

Lemma root_built : root = buildRootHuffmanNode.
Proof. vm_compute. reflexivity. Qed.

Definition code_bits (c : Z) : list bool := lowbits (codeOf c) (Z.to_nat (lenOf c)).

(** The bit string of a symbol sequence. *)
Definition codes (s : bytes) : list bool := flat_map code_bits s.

Lemma codes_wf c :
  is_u8 c -> 5 <= lenOf c <= 30 /\ 0 <= codeOf c < 2 ^ lenOf c.
Proof.
  intros Hc.
  pose proof (forallb_range (fun c => (5 <=? lenOf c) && (lenOf c <=? 30) && (0 <=? codeOf c)
    && (codeOf c <? 2 ^ lenOf c)) 256 ltac:(vm_compute; reflexivity) c Hc) as E.
  simpl in E. breflect. lia.
Qed.

(** From an internal node, the bit string [bs] leads to the leaf of [sym]. *)
Inductive reaches : list (option node) -> list bool -> Z -> Prop :=
| reaches_leaf n bs sym :
    (1 <= length bs <= 8)%nat ->
    (forall idx, is_u8 idx -> take (length bs) (lowbits idx 8) = bs ->
       nth (Z.to_nat idx) n None = Some (leaf (Z.of_nat (length bs)) sym)) ->
    reaches n bs sym
| reaches_inner n bs sym ch :
    (8 < length bs)%nat ->
    (forall idx, is_u8 idx -> lowbits idx 8 = take 8 bs ->
       nth (Z.to_nat idx) n None = Some (inner ch)) ->
    reaches ch (drop 8 bs) sym ->
    reaches n bs sym.

Definition node_is_leaf (o : option node) (l s : Z) : bool :=
  match o with Some (leaf l' s') => (l' =? l) && (s' =? s) | _ => false end.

(** Decides [reaches] along a code. *)
Fixpoint check_reaches (fuel : nat) (n : list (option node)) (bs : list bool) (sym : Z) : bool :=
  match fuel with
  | O => false
  | S fuel' =>
      if (length bs <=? 8)%nat then
        (1 <=? length bs)%nat &&
        forallb (fun idx => negb (bool_decide (take (length bs) (lowbits idx 8) = bs))
                            || node_is_leaf (nth (Z.to_nat idx) n None) (Z.of_nat (length bs)) sym)
          (seqZ 0 256)
      else
        match list_find (fun idx => lowbits idx 8 = take 8 bs) (seqZ 0 256) with
        | Some (_, idx) =>
            match nth (Z.to_nat idx) n None with
            | Some (inner ch) => check_reaches fuel' ch (drop 8 bs) sym
            | _ => false
            end
        | None => false
        end
  end.

Lemma check_reaches_sound fuel n bs sym : check_reaches fuel n bs sym = true -> reaches n bs sym.
Proof.
  revert n bs. induction fuel as [|fuel IH]; intros n bs; [done|]. cbn [check_reaches].
  destruct (Nat.leb_spec (length bs) 8) as [Hl|Hl].
  - intros [H1 H2]%andb_true_iff. apply Nat.leb_le in H1. apply reaches_leaf; [lia|].
    intros idx Hidx Htake. rewrite forallb_forall in H2. specialize (H2 idx).
    rewrite <- list_elem_of_In, elem_of_seqZ in H2. specialize (H2 Hidx).
    rewrite bool_decide_eq_true_2 in H2 by done. simpl in H2.
    unfold node_is_leaf in H2. destruct (nth _ _ _) as [[l s|]|]; try done.
    breflect. by subst.
  - destruct (list_find _ _) as [[i idx]|] eqn:Hf; [|done].
    apply list_find_Some in Hf as (Hi & Hbits & _).
    apply list_elem_of_lookup_2, elem_of_seqZ in Hi.
    destruct (nth (Z.to_nat idx) n None) as [[|ch]|] eqn:Hn; try done.
    intros Hch. apply reaches_inner with ch; [lia| |by apply IH].
    intros idx' Hidx' Hb'. assert (idx' = idx) as ->; [|done].
    apply (lowbits_eq _ _ 8); [exact Hidx'|exact Hi|congruence].
Qed.

(** Every code of the table leads to its symbol in the tree the code builds. *)
Lemma root_reaches c : is_u8 c -> reaches root (code_bits c) c.
Proof.
  intros Hc. apply (check_reaches_sound 4).
  exact (forallb_range (fun c => check_reaches 4 root (code_bits c) c) 256
    ltac:(vm_compute; reflexivity) c Hc).
Qed.

(** A padding of up to seven ones is not a complete code. *)
Lemma root_padding p : (1 <= p <= 7)%nat ->
  exists nd, nth (Z.to_nat (u8 (Z.shiftl (Z.ones (Z.of_nat p)) (8 - Z.of_nat p)))) root None = Some nd
    /\ match nd with leaf codeLen _ => Z.of_nat p < codeLen | inner _ => True end.
Proof.
  intros Hp. do 8 (destruct p as [|p]; [try lia; (eexists; split; [vm_compute; reflexivity|done])|]).
  lia.
Qed.

(** ** Decoding what was encoded

    [pending]: the bits in front of the decoder are the rest of the code of the
    current symbol, the codes of the symbols still to come and the padding. *)
Definition pending (n : list (option node)) (cbits sbits : Z) (s : bytes) (p : nat)
    (stream : list bool) : Prop :=
  Forall is_u8 s /\ (p < 8)%nat /\
  match s with
  | [] => n = root /\ sbits = cbits /\ stream = replicate p true
  | c :: s' => exists bs, reaches n bs c /\ stream = bs ++ codes s' ++ replicate p true
  end.

(** Starting the next symbol at the root. *)
Lemma pending_root cbits s p stream :
  Forall is_u8 s -> (p < 8)%nat -> stream = codes s ++ replicate p true ->
  pending root cbits cbits s p stream.
Proof.
  intros Hs Hp ->. split; [done|]. split; [done|]. destruct s as [|c s]; [done|].
  inversion Hs; subst. exists (code_bits c). split; [by apply root_reaches|].
  unfold codes. simpl. by rewrite app_assoc.
Qed.

Lemma take_app_prefix {A} (l k m r : list A) n :
  l ++ k = m ++ r -> (n <= length l)%nat -> (n <= length m)%nat -> take n l = take n m.
Proof.
  intros H Hl Hm. rewrite <- (take_app_le l k n), <- (take_app_le m r n) by lia. by rewrite H.
Qed.

Lemma drop_app_prefix {A} (l k m r : list A) n :
  l ++ k = m ++ r -> (n <= length l)%nat -> (n <= length m)%nat -> drop n l ++ k = drop n m ++ r.
Proof.
  intros H Hl Hm. rewrite <- (drop_app_le l k n), <- (drop_app_le m r n) by lia. by rewrite H.
Qed.

Definition len_allowed (maxLen : Z) (total : bytes) : Prop := maxLen = 0 \/ zlen total <= maxLen.

Lemma len_allowed_check maxLen buf c s :
  len_allowed maxLen (buf ++ c :: s) -> negb (maxLen =? 0) && (zlen buf =? maxLen) = false.
Proof.
  intros [->|H]; [done|]. rewrite zlen_app, zlen_cons in H. pose proof (zlen_nonneg s).
  destruct (Z.eqb_spec (zlen buf) maxLen); [lia|]. apply andb_false_r.
Qed.

Lemma decodeInner_correct maxLen total rest p fuel :
  len_allowed maxLen total ->
  forall buf n cur cbits sbits s,
  0 <= cbits < Z.of_nat fuel -> cbits < 16 -> buf ++ s = total ->
  pending n cbits sbits s p (lowbits cur (Z.to_nat cbits) ++ rest) ->
  exists buf' n' cbits' sbits' s',
    decodeInner fuel maxLen (mkH buf n cur cbits sbits) = Some (inl (mkH buf' n' cur cbits' sbits'))
    /\ 0 <= cbits' < 8 /\ buf' ++ s' = total
    /\ pending n' cbits' sbits' s' p (lowbits cur (Z.to_nat cbits') ++ rest).
Proof.
  intros Hmax. induction fuel as [|fuel IH]; intros buf n cur cbits sbits s Hc H16 Htot Hp; [lia|].
  cbn [decodeInner]. rewrite Z.geb_leb. destruct (Z.leb_spec 8 cbits) as [H8|H8].
  2: { exists buf, n, cbits, sbits, s. auto with lia. }
  pose proof (lowbits_top cur (Z.to_nat cbits) ltac:(lia)) as Hidx.
  rewrite Z2Nat.id in Hidx by lia.
  set (idx := u8 (Z.shiftr cur (cbits - 8))) in *.
  assert (is_u8 idx) as Hu8 by apply u8_range.
  pose proof (length_lowbits cur (Z.to_nat cbits)) as Hlen.
  destruct s as [|c s]; destruct Hp as (Hs & Hp & Hst).
  { exfalso. destruct Hst as (_ & _ & E). apply (f_equal length) in E.
    rewrite length_app, length_replicate in E. lia. }
  destruct Hst as (bs & Hr & E). inversion_clear Hr as [? ? ? Hl Hleaf|? ? ? ch Hl Hin Hch].
  - rewrite (Hleaf idx Hu8).
    2: { rewrite Hidx, take_take, Nat.min_l by lia.
         rewrite (take_app_prefix _ _ _ _ _ E) by lia. apply take_ge. lia. }
    rewrite (len_allowed_check maxLen buf c s) by (by rewrite Htot).
    rewrite u8_id by (unfold is_u8; lia).
    apply IH with s; try lia.
    { by rewrite <- app_assoc. }
    inversion_clear Hs. apply pending_root; [done..|].
    apply (drop_app_prefix _ _ _ _ (length bs)) in E; [|lia..].
    rewrite drop_lowbits, (drop_ge bs) in E by lia. simpl in E. rewrite <- E. do 2 f_equal. lia.
  - assert (lowbits idx 8 = take 8 bs) as Hb.
    { rewrite Hidx. apply (take_app_prefix _ _ _ _ _ E); lia. }
    rewrite (Hin idx Hu8 Hb). rewrite u8_id by (unfold is_u8; lia).
    apply IH with (c :: s); try lia; [done|].
    split; [done|]. split; [done|]. exists (drop 8 bs). split; [done|].
    apply (drop_app_prefix _ _ _ _ 8) in E; [|lia..].
    rewrite drop_lowbits in E. rewrite <- E. do 2 f_equal. lia.
Qed.

Lemma decodeBytes_correct maxLen total p v :
  len_allowed maxLen total -> bytes_ok v ->
  forall buf n cur cbits sbits s,
  0 <= cbits < 8 -> buf ++ s = total ->
  pending n cbits sbits s p (lowbits cur (Z.to_nat cbits) ++ bits_of_bytes v) ->
  exists buf' n' cur' cbits' sbits' s',
    decodeBytes maxLen (mkH buf n cur cbits sbits) v = Some (inl (mkH buf' n' cur' cbits' sbits'))
    /\ 0 <= cbits' < 8 /\ buf' ++ s' = total
    /\ pending n' cbits' sbits' s' p (lowbits cur' (Z.to_nat cbits')).
Proof.
  intros Hmax Hv. induction Hv as [|b v Hb Hv IH]; intros buf n cur cbits sbits s Hc Htot Hp.
  { rewrite app_nil_r in Hp. simpl. eauto 12. }
  cbn [decodeBytes].
  set (cur' := Z.lor (u64 (Z.shiftl cur 8)) b).
  assert (lowbits cur' (Z.to_nat (cbits + 8)) = lowbits cur (Z.to_nat cbits) ++ lowbits b 8) as Ecur.
  { rewrite <- (lowbits_push cur b (Z.to_nat cbits) 8) by exact Hb.
    replace (Z.to_nat (cbits + 8)) with (Z.to_nat cbits + 8)%nat by lia.
    apply lowbits_ext. intros i Hi. unfold cur'. rewrite !Z.lor_spec. f_equal.
    unfold u64. rewrite Z.mod_pow2_bits_low by lia. done. }
  destruct (decodeInner_correct maxLen total (bits_of_bytes v) p 16 Hmax
              buf n cur' (u8 (cbits + 8)) (u8 (sbits + 8)) s)
    as (buf1 & n1 & cbits1 & sbits1 & s1 & E1 & Hc1 & Htot1 & Hp1).
  - rewrite u8_id by (unfold is_u8; lia). lia.
  - rewrite u8_id by (unfold is_u8; lia). lia.
  - done.
  - rewrite (u8_id (cbits + 8)) by (unfold is_u8; lia). rewrite Ecur, <- app_assoc.
    destruct Hp as (Hs & Hp8 & Hst). split; [done|]. split; [done|]. destruct s; [|done].
    destruct Hst as (-> & -> & E). rewrite u8_id by (unfold is_u8; lia). done.
  - rewrite E1. by apply IH with s1.
Qed.

Lemma decodeTail_correct maxLen total p fuel :
  len_allowed maxLen total ->
  forall buf n cur cbits sbits s,
  0 <= cbits < 8 -> cbits < Z.of_nat fuel -> buf ++ s = total ->
  pending n cbits sbits s p (lowbits cur (Z.to_nat cbits)) ->
  exists n' sbits', decodeTail fuel maxLen (mkH buf n cur cbits sbits) =
      Some (inl (mkH total n' cur sbits' sbits'))
    /\ 0 <= sbits' < 8 /\ lowbits cur (Z.to_nat sbits') = replicate (Z.to_nat sbits') true.
Proof.
  intros Hmax. induction fuel as [|fuel IH]; intros buf n cur cbits sbits s Hc Hf Htot Hp; [lia|].
  cbn [decodeTail]. rewrite Z.gtb_ltb.
  pose proof (length_lowbits cur (Z.to_nat cbits)) as Hlen.
  pose proof (lowbits_lift cur (Z.to_nat cbits) ltac:(lia)) as Hidx.
  rewrite Z2Nat.id in Hidx by lia.
  set (idx := u8 (Z.shiftl cur (8 - cbits))) in *.
  assert (is_u8 idx) as Hu8 by apply u8_range.
  destruct s as [|c s]; destruct Hp as (Hs & Hp & Hst).
  - destruct Hst as (-> & -> & E). rewrite app_nil_r in Htot. subst buf.
    assert (p = Z.to_nat cbits) as -> by (rewrite <- Hlen, E, length_replicate; done).
    destruct (Z.ltb_spec 0 cbits).
    + destruct (root_padding (Z.to_nat cbits)) as (nd & Hnd & Hleaf); [lia|].
      rewrite Z2Nat.id in * by lia.
      assert (idx = u8 (Z.shiftl (Z.ones cbits) (8 - cbits))) as Ei.
      { apply (lowbits_eq _ _ 8); [exact Hu8|apply u8_range|].
        rewrite Hidx, E. pose proof (lowbits_lift (Z.ones cbits) (Z.to_nat cbits) ltac:(lia)) as L.
        rewrite Z2Nat.id in L by lia. rewrite L. f_equal.
        rewrite <- (lowbits_ones (Z.to_nat cbits)), Z2Nat.id by lia. done. }
      rewrite Ei. fold root in Hnd. rewrite Hnd. destruct nd as [l sym|ch]; [|eauto].
      rewrite Z.gtb_ltb. destruct (Z.ltb_spec cbits l); [eauto|lia].
    + eauto.
  - destruct Hst as (bs & Hr & E). pose proof (f_equal length E) as EL.
    rewrite !length_app, length_replicate, Hlen in EL.
    inversion_clear Hr as [? ? ? Hl Hleaf|? ? ? ch Hl Hin Hch]; [|lia].
    destruct (Z.ltb_spec 0 cbits); [|lia]. rewrite (Hleaf idx Hu8).
    2: { rewrite Hidx, take_app_le by lia. rewrite <- (app_nil_r (lowbits _ _)) in E.
         rewrite (take_app_prefix _ _ _ _ _ E) by lia. apply take_ge. lia. }
    rewrite Z.gtb_ltb. destruct (Z.ltb_spec cbits (Z.of_nat (length bs))); [lia|].
    rewrite (len_allowed_check maxLen buf c s) by (by rewrite Htot).
    rewrite u8_id by (unfold is_u8; lia).
    apply IH with s; try lia.
    { by rewrite <- app_assoc. }
    inversion_clear Hs. apply pending_root; [done..|].
    rewrite <- (app_nil_r (lowbits _ _)) in E. apply (drop_app_prefix _ _ _ _ (length bs)) in E; [|lia..].
    rewrite drop_lowbits, (drop_ge bs), app_nil_r in E by lia. simpl in E. rewrite <- E. f_equal. lia.
Qed.

Lemma land_low_ones cur n :
  lowbits cur n = replicate n true ->
  Z.land cur (Z.shiftl 1 (Z.of_nat n) - 1) = Z.shiftl 1 (Z.of_nat n) - 1.
Proof.
  intros H. replace (Z.shiftl 1 (Z.of_nat n) - 1) with (Z.ones (Z.of_nat n))
    by (rewrite Z.ones_equiv, Z.shiftl_mul_pow2; lia).
  rewrite <- (lowbits_ones n) in H. pose proof (lowbits_inj _ _ _ H) as Hb.
  apply Z.bits_inj'. intros i Hi. rewrite Z.land_spec.
  destruct (Z.lt_ge_cases i (Z.of_nat n)).
  - rewrite Hb by lia. apply andb_diag.
  - rewrite Z.ones_spec_high by lia. apply andb_false_r.
Qed.

(** Any byte string whose bits are the codes of [s] and a padding of less than
    eight ones decodes to [s]. *)
Lemma huffmanDecode_codes maxLen s p v :
  bytes_ok s -> bytes_ok v -> (p < 8)%nat -> len_allowed maxLen s ->
  bits_of_bytes v = codes s ++ replicate p true ->
  huffmanDecode maxLen v = Some (inl s).
Proof.
  intros Hs Hv Hp Hmax E. unfold huffmanDecode. fold root.
  destruct (decodeBytes_correct maxLen s p v Hmax Hv [] root 0 0 0 s)
    as (buf & n & cur & cbits & sbits & s1 & -> & Hc & Htot & Hpend); [lia|done| |].
  { apply pending_root; done. }
  destruct (decodeTail_correct maxLen s p 9 Hmax buf n cur cbits sbits s1)
    as (n' & sb & -> & Hsb & Hones); [lia..|done|done|].
  rewrite Z.gtb_ltb. destruct (Z.ltb_spec 7 sb); [lia|].
  apply land_low_ones in Hones. rewrite Z2Nat.id in Hones by lia. rewrite Hones, Z.eqb_refl. done.
Qed.

(** ** The encoder writes the codes *)
Lemma bytes_ok_4 y : bytes_ok [u8 (Z.shiftr y 24); u8 (Z.shiftr y 16); u8 (Z.shiftr y 8); u8 y].
Proof. repeat constructor; apply u8_range. Qed.

Lemma appendCodes_correct s :
  bytes_ok s -> forall dst x n, 0 <= n < 32 -> bytes_ok dst ->
  exists dst' x' n', appendCodes dst x n s = (dst', x', n') /\ 0 <= n' < 32 /\ bytes_ok dst' /\
    bits_of_bytes dst' ++ lowbits x' (Z.to_nat n') =
    bits_of_bytes dst ++ lowbits x (Z.to_nat n) ++ codes s.
Proof.
  intros Hs. induction Hs as [|c s Hc Hs IH]; intros dst x n Hn Hdst.
  { exists dst, x, n. simpl. rewrite app_nil_r. auto. }
  cbn [appendCodes]. destruct (codes_wf c Hc) as [Hlen Hcode].
  rewrite (Z.mod_small (lenOf c) 64) by lia.
  set (x' := Z.lor (u64 (Z.shiftl x (lenOf c))) (codeOf c)).
  assert (lowbits x' (Z.to_nat (n + lenOf c)) = lowbits x (Z.to_nat n) ++ code_bits c) as Ex.
  { unfold code_bits. rewrite <- lowbits_push by (rewrite Z2Nat.id; lia).
    rewrite Z2Nat.id by lia.
    replace (Z.to_nat (n + lenOf c)) with (Z.to_nat n + Z.to_nat (lenOf c))%nat by lia.
    apply lowbits_ext. intros i Hi. unfold x'. rewrite !Z.lor_spec. f_equal.
    unfold u64. rewrite Z.mod_pow2_bits_low by lia. done. }
  rewrite Z.geb_leb. destruct (Z.leb_spec 32 (n + lenOf c)) as [H32|H32].
  - assert ((n + lenOf c) mod 32 = n + lenOf c - 32) as -> by (Z.div_mod_to_equations; lia).
    set (n' := n + lenOf c - 32) in *. set (y := u32 (Z.shiftr x' n')).
    destruct (IH (dst ++ [u8 (Z.shiftr y 24); u8 (Z.shiftr y 16); u8 (Z.shiftr y 8); u8 y]) x' n')
      as (d1 & x1 & n1 & E & Hn1 & Hd1 & Eb); [lia|apply Forall_app; split; [done|apply bytes_ok_4]|].
    exists d1, x1, n1. split; [done|]. split; [done|]. split; [done|]. rewrite Eb.
    rewrite bits_of_bytes_app, bits_of_bytes_u32. cbn [codes flat_map]. rewrite <- !app_assoc.
    f_equal. fold (codes s). rewrite !app_assoc. f_equal. rewrite <- Ex.
    replace (Z.to_nat (n + lenOf c)) with (32 + Z.to_nat n')%nat by lia.
    rewrite lowbits_app. f_equal. unfold y, u32. rewrite lowbits_mod by lia.
    rewrite Z2Nat.id by lia. done.
  - destruct (IH dst x' (n + lenOf c)) as (d1 & x1 & n1 & E & Hn1 & Hd1 & Eb); [lia|done|].
    exists d1, x1, n1. split; [done|]. split; [done|]. split; [done|]. rewrite Eb, Ex.
    cbn [codes flat_map]. by rewrite <- !app_assoc.
Qed.

Lemma u8_of_mod x w : 8 <= w -> u8 (x mod 2 ^ w) = u8 x.
Proof.
  intros. unfold u8. apply Z.bits_inj'. intros i Hi.
  destruct (Z.lt_ge_cases i 8).
  - rewrite !Z.mod_pow2_bits_low by lia. done.
  - rewrite !Z.mod_pow2_bits_high by lia. done.
Qed.

Lemma u8_shiftr_mod x w k : 0 <= k -> k + 8 <= w -> u8 (Z.shiftr (x mod 2 ^ w) k) = u8 (Z.shiftr x k).
Proof.
  intros. unfold u8. apply Z.bits_inj'. intros i Hi.
  destruct (Z.lt_ge_cases i 8).
  - rewrite !(Z.mod_pow2_bits_low _ 8) by lia. rewrite !Z.shiftr_spec by lia.
    rewrite Z.mod_pow2_bits_low by lia. done.
  - rewrite !Z.mod_pow2_bits_high by lia. done.
Qed.

Lemma appendRest_correct dst x n :
  0 <= n <= 32 -> n mod 8 = 0 -> bytes_ok dst ->
  bytes_ok (appendRest dst x n) /\
  bits_of_bytes (appendRest dst x n) = bits_of_bytes dst ++ lowbits x (Z.to_nat n).
Proof.
  intros Hn Hm Hd. assert (In n [0; 8; 16; 24; 32]) as Hin.
  { simpl. Z.div_mod_to_equations. lia. }
  simpl in Hin. destruct_or? Hin; subst n.
  - change (appendRest dst x 0) with dst. by rewrite app_nil_r.
  - change (appendRest dst x 8) with (dst ++ [u8 x]). rewrite bits_of_bytes_app.
    split; [apply Forall_app; repeat constructor; try done; apply u8_range|].
    unfold bits_of_bytes at 2. cbn [flat_map]. by rewrite lowbits_u8, app_nil_r.
  - change (appendRest dst x 16) with (dst ++ [u8 (Z.shiftr (u16 x) 8); u8 (u16 x)]).
    unfold u16. rewrite u8_shiftr_mod, u8_of_mod, bits_of_bytes_app, bits_of_bytes_u16 by lia.
    split; [apply Forall_app; repeat constructor; try done; apply u8_range|done].
  - change (appendRest dst x 24) with
      (dst ++ [u8 (Z.shiftr (u16 (Z.shiftr x 8)) 8); u8 (u16 (Z.shiftr x 8)); u8 x]).
    unfold u16. rewrite u8_shiftr_mod, u8_of_mod, Z.shiftr_shiftr by lia.
    change (8 + 8) with 16. rewrite bits_of_bytes_app, bits_of_bytes_u24.
    split; [apply Forall_app; repeat constructor; try done; apply u8_range|done].
  - change (appendRest dst x 32) with (dst ++ [u8 (Z.shiftr (u32 x) 24); u8 (Z.shiftr (u32 x) 16);
      u8 (Z.shiftr (u32 x) 8); u8 (u32 x)]).
    unfold u32. rewrite !u8_shiftr_mod, u8_of_mod, bits_of_bytes_app, bits_of_bytes_u32 by lia.
    split; [apply Forall_app; repeat constructor; try done; apply u8_range|done].
Qed.

Lemma appendCodes_app dst d x n s :
  appendCodes (dst ++ d) x n s =
  let '(d', x', n') := appendCodes d x n s in (dst ++ d', x', n').
Proof.
  revert d x n. induction s as [|c s IH]; intros d x n; cbn [appendCodes]; [done|].
  destruct (_ >=? 32); rewrite <- ?app_assoc; apply IH.
Qed.

Lemma appendRest_app dst d x n : appendRest (dst ++ d) x n = dst ++ appendRest d x n.
Proof. unfold appendRest. repeat split_match; by rewrite <- ?app_assoc. Qed.

Lemma AppendHuffmanString_app dst s :
  AppendHuffmanString dst s = dst ++ AppendHuffmanString [] s.
Proof.
  unfold AppendHuffmanString. rewrite <- (app_nil_r dst) at 1. rewrite appendCodes_app.
  destruct (appendCodes [] 0 0 s) as [[d x] n]. destruct (n mod 8 >? 0); apply appendRest_app.
Qed.

Lemma eos_padding over : 0 < over < 8 -> Z.shiftr eosPadByte over = Z.ones (8 - over).
Proof.
  intros. assert (In over [1; 2; 3; 4; 5; 6; 7]) as Hin by (simpl; lia).
  simpl in Hin. destruct_or? Hin; subst over; reflexivity.
Qed.

Lemma AppendHuffmanString_bits s :
  bytes_ok s ->
  bytes_ok (AppendHuffmanString [] s) /\
  exists p, (p < 8)%nat /\ bits_of_bytes (AppendHuffmanString [] s) = codes s ++ replicate p true.
Proof.
  intros Hs. unfold AppendHuffmanString.
  destruct (appendCodes_correct s Hs [] 0 0) as (d & x & n & -> & Hn & Hd & E); [lia|constructor|].
  simpl in E. pose proof (Z.mod_pos_bound n 8 ltac:(lia)) as Hm.
  rewrite Z.gtb_ltb. destruct (Z.ltb_spec 0 (n mod 8)) as [Hov|Hov].
  - set (over := n mod 8) in *.
    set (x' := Z.lor (u64 (Z.shiftl x (8 - over))) (Z.shiftr eosPadByte over)).
    destruct (appendRest_correct d x' (n + (8 - over))) as [Hok Hb]; [|..|done|].
    { subst over. Z.div_mod_to_equations. lia. }
    { subst over. Z.div_mod_to_equations. lia. }
    split; [exact Hok|]. exists (Z.to_nat (8 - over)). split; [lia|].
    rewrite Hb, <- E, <- app_assoc. f_equal.
    unfold x'. rewrite eos_padding by lia.
    rewrite <- (lowbits_ones (Z.to_nat (8 - over))), <- lowbits_push
      by (rewrite Z.ones_equiv; lia).
    rewrite Z2Nat.id by lia.
    replace (Z.to_nat (n + (8 - over))) with (Z.to_nat n + Z.to_nat (8 - over))%nat by lia.
    apply lowbits_ext. intros i Hi. rewrite !Z.lor_spec. f_equal.
    unfold u64. rewrite Z.mod_pow2_bits_low by lia. done.
  - destruct (appendRest_correct d x n) as [Hok Hb]; [lia..|done|].
    split; [exact Hok|]. exists 0%nat. split; [lia|].
    rewrite Hb, E. simpl. by rewrite app_nil_r.
Qed.

(** ** Length of the encoding *)
Lemma length_codes s :
  bytes_ok s -> Z.of_nat (length (codes s)) = fold_right (fun c n => lenOf c + n) 0 s.
Proof.
  intros Hs. induction Hs as [|c s Hc Hs IH]; simpl; [done|].
  unfold codes in *. simpl. rewrite length_app. unfold code_bits at 1. rewrite length_lowbits.
  pose proof (codes_wf c Hc). lia.
Qed.

Lemma HuffmanEncodeLength_codes s :
  bytes_ok s -> 30 * zlen s < 2 ^ 64 ->
  HuffmanEncodeLength s = (Z.of_nat (length (codes s)) + 7) / 8.
Proof.
  intros Hs Hlen. unfold HuffmanEncodeLength. do 2 f_equal. rewrite length_codes by done.
  assert (forall n, 0 <= n -> n + 30 * zlen s < 2 ^ 64 ->
    fold_left (fun n c => u64 (n + lenOf c)) s n = n + fold_right (fun c n => lenOf c + n) 0 s) as E.
  2: { apply E; lia. }
  clear Hlen. induction Hs as [|c s Hc Hs IH]; intros n Hn Hb; simpl; [lia|].
  rewrite zlen_cons in Hb. pose proof (codes_wf c Hc). pose proof (zlen_nonneg s).
  rewrite u64_id by (unfold is_u64; lia). rewrite IH by lia. lia.
Qed.

Lemma AppendHuffmanString_length s :
  bytes_ok s -> 30 * zlen s < 2 ^ 64 ->
  zlen (AppendHuffmanString [] s) = HuffmanEncodeLength s.
Proof.
  intros Hs Hlen. rewrite HuffmanEncodeLength_codes by done.
  destruct (AppendHuffmanString_bits s Hs) as (_ & p & Hp & E).
  apply (f_equal length) in E.
  rewrite length_bits_of_bytes, length_app, length_replicate in E.
  unfold zlen. Z.div_mod_to_equations. lia.
Qed.

Lemma huffman_roundtrip maxLen s :
  bytes_ok s -> len_allowed maxLen s -> huffmanDecode maxLen (AppendHuffmanString [] s) = Some (inl s).
Proof.
  intros Hs Hmax. destruct (AppendHuffmanString_bits s Hs) as (Hok & p & Hp & E).
  by eapply huffmanDecode_codes.
Qed.

(** Huffman coding is lossless: decoding the bytes that [AppendHuffmanString]
    appends gives the string back, whatever the symbols; the decoding succeeds
    also under a length limit the string respects; and the number of bytes
    appended is what [HuffmanEncodeLength] announces. *)
Theorem huffman_encode_decode dst s :
  bytes_ok s -> 30 * zlen s < 2 ^ 64 ->
  exists v, AppendHuffmanString dst s = dst ++ v /\ zlen v = HuffmanEncodeLength s /\
    HuffmanDecodeToString v = Some (inl s) /\ huffmanDecode (zlen s) v = Some (inl s).
Proof.
  intros Hs Hlen. exists (AppendHuffmanString [] s).
  split; [apply AppendHuffmanString_app|]. split; [by apply AppendHuffmanString_length|].
  split; apply huffman_roundtrip; auto; [by left|right; lia].
Qed.

Lemma huffman_encode_decode_witness :
  exists v, AppendHuffmanString [7] [119; 119; 119; 0; 255] = [7] ++ v /\
    HuffmanDecodeToString v = Some (inl [119; 119; 119; 0; 255]).
Proof.
  destruct (huffman_encode_decode [7] [119; 119; 119; 0; 255]) as (v & H1 & _ & H2 & _).
  - repeat constructor; vm_compute; intros; discriminate.
  - vm_compute. reflexivity.
  - exists v. split; [exact H1|exact H2].
Defined.

(** ** Decoding arbitrary input *)

(** Every leaf reachable within [k] levels consumes between one and eight bits. *)
Fixpoint leaves_ok (k : nat) (n : list (option node)) : bool :=
  match k with
  | O => false
  | S k' => forallb (fun o => match o with
                              | None => true
                              | Some (leaf l _) => (1 <=? l) && (l <=? 8)
                              | Some (inner ch) => leaves_ok k' ch
                              end) n
  end.

Lemma root_leaves_ok : leaves_ok 4 root = true.
Proof. vm_compute. reflexivity. Qed.

Lemma leaves_ok_nth k n i nd :
  leaves_ok k n = true -> nth i n None = Some nd ->
  match nd with
  | leaf l _ => 1 <= l <= 8
  | inner ch => exists k', leaves_ok k' ch = true
  end.
Proof.
  destruct k as [|k]; [done|]. cbn [leaves_ok]. intros H Hn. rewrite forallb_forall in H.
  assert (In (Some nd) n) as Hin.
  { rewrite <- Hn. apply nth_In. destruct (Nat.lt_ge_cases i (length n)); [done|].
    rewrite nth_overflow in Hn by done. done. }
  specialize (H _ Hin). destruct nd; [breflect; lia|eauto].
Qed.

(** Result of a decoding loop started with [cbits] bits and a short enough buffer. *)
Definition decoded_ok (maxLen bound : Z) (r : hstate + huff_error) : Prop :=
  match r with
  | inl h => (exists k, leaves_ok k (h_n h) = true) /\ 0 <= h_cbits h <= bound /\
             (maxLen = 0 \/ zlen (h_buf h) <= maxLen)
  | inr _ => True
  end.

Lemma buf_limit maxLen (buf : bytes) sym :
  maxLen = 0 \/ zlen buf <= maxLen -> negb (maxLen =? 0) && (zlen buf =? maxLen) = false ->
  maxLen = 0 \/ zlen (buf ++ [sym]) <= maxLen.
Proof.
  intros [->|H] E; [by left|]. rewrite zlen_app. change (zlen [sym]) with 1.
  apply andb_false_iff in E as [E|E]; breflect; [by left|]. right. lia.
Qed.

Lemma decodeInner_total maxLen fuel :
  forall buf n cur cbits sbits k, 0 <= cbits < Z.of_nat fuel -> cbits < 2 ^ 8 ->
  leaves_ok k n = true -> maxLen = 0 \/ zlen buf <= maxLen ->
  exists r, decodeInner fuel maxLen (mkH buf n cur cbits sbits) = Some r /\ decoded_ok maxLen 7 r.
Proof.
  induction fuel as [|fuel IH]; intros buf n cur cbits sbits k Hc H8 Hk Hb; [lia|].
  cbn [decodeInner]. rewrite Z.geb_leb. destruct (Z.leb_spec 8 cbits) as [Hge|Hlt].
  2: { eexists. split; [done|]. simpl. eauto with lia. }
  destruct (nth _ n None) as [[l sym|ch]|] eqn:Hn; [|..|eexists; split; done].
  - pose proof (leaves_ok_nth _ _ _ _ Hk Hn) as Hl. simpl in Hl.
    destruct (negb _ && _) eqn:E; [eexists; split; done|].
    rewrite u8_id by (unfold is_u8; lia).
    eapply IH; [lia..|apply root_leaves_ok|by apply buf_limit].
  - destruct (leaves_ok_nth _ _ _ _ Hk Hn) as [k' Hk'].
    rewrite u8_id by (unfold is_u8; lia). eapply IH; eauto; lia.
Qed.

Lemma decodeBytes_total maxLen v :
  forall h, decoded_ok maxLen 7 (inl h) ->
  exists r, decodeBytes maxLen h v = Some r /\ decoded_ok maxLen 7 r.
Proof.
  induction v as [|b v IH]; intros [buf n cur cbits sbits] Hh; cbn [decodeBytes]; [eauto|].
  destruct Hh as ([k Hk] & Hc & Hb). simpl in Hk, Hc, Hb.
  rewrite (u8_id (cbits + 8)) by (unfold is_u8; lia).
  destruct (decodeInner_total maxLen 16 buf n (Z.lor (u64 (Z.shiftl cur 8)) b) (cbits + 8)
              (u8 (sbits + 8)) k) as (r & -> & Hr); [lia..|done|done|].
  destruct r as [h'|e]; [by apply IH|eauto].
Qed.

Lemma decodeTail_total maxLen fuel :
  forall h, decoded_ok maxLen 7 (inl h) -> h_cbits h < Z.of_nat fuel ->
  exists r, decodeTail fuel maxLen h = Some r /\ decoded_ok maxLen 7 r.
Proof.
  induction fuel as [|fuel IH]; intros [buf n cur cbits sbits] Hh Hf;
    pose proof Hh as ([k Hk] & Hc & Hb); simpl in Hk, Hc, Hb, Hf; [lia|].
  cbn [decodeTail]. rewrite Z.gtb_ltb. destruct (Z.ltb_spec 0 cbits); [|eauto].
  destruct (nth _ n None) as [[l sym|ch]|] eqn:Hn; [|..|eexists; split; done].
  - pose proof (leaves_ok_nth _ _ _ _ Hk Hn) as Hl. simpl in Hl.
    rewrite Z.gtb_ltb. destruct (Z.ltb_spec cbits l); [eauto|].
    destruct (negb _ && _) eqn:E; [eexists; split; done|].
    rewrite u8_id by (unfold is_u8; lia).
    apply IH; [|simpl; lia]. split; [|split]; simpl; [exists 4%nat; apply root_leaves_ok|lia|].
    by apply buf_limit.
  - eexists. split; [done|]. destruct (leaves_ok_nth _ _ _ _ Hk Hn) as [k' Hk'].
    split; [|split]; simpl; eauto.
Qed.

Lemma huffmanDecode_returns maxLen v :
  0 <= maxLen -> exists r, huffmanDecode maxLen v = Some r /\
    match r with inl out => maxLen = 0 \/ zlen out <= maxLen | inr _ => True end.
Proof.
  intros Hm. unfold huffmanDecode.
  destruct (decodeBytes_total maxLen v (mkH [] getRootHuffmanNode 0 0 0)) as (r & -> & Hr).
  { split; [exists 4%nat; apply root_leaves_ok|]. split; simpl; [lia|by right]. }
  destruct r as [h|e]; [|eexists; split; [reflexivity|done]].
  destruct (decodeTail_total maxLen 9 h Hr) as (r & -> & Hr'); [destruct Hr as (_ & ? & _); lia|].
  destruct r as [[buf n cur cbits sbits]|e]; [|eexists; split; [reflexivity|done]].
  destruct Hr' as (_ & _ & Hb). repeat split_match; (eexists; split; [reflexivity|done]).
Qed.

(** Huffman decoding returns on every input, valid or not (the bit buffer is
    always consumed), and under a limit [maxLen] it never produces more than
    [maxLen] bytes. *)
Theorem huffmanDecode_total maxLen v :
  0 <= maxLen ->
  exists r, huffmanDecode maxLen v = Some r /\
    match r with
    | inl out => maxLen = 0 \/ zlen out <= maxLen
    | inr _ => True
    end.
Proof. apply huffmanDecode_returns. Qed.

Lemma huffmanDecode_total_witness :
  exists r, huffmanDecode 2 [255; 255; 255; 254; 1] = Some r.
Proof.
  destruct (huffmanDecode_total 2 [255; 255; 255; 254; 1]) as (r & Hr & _).
  - lia.
  - exists r. exact Hr.
Defined.
