(* ===== verification/HpackTable.v ===== *)
(** * Package hpack: header tables

    Models src/http2/hpack/tables.go (the static and dynamic header tables with
    their two search indexes) and the [HeaderField] and [dynamicTable] types of
    src/http2/hpack/hpack.go.  [None] is a panic. *)

From S2P Require Import Prelude.

(** ** Header fields (hpack.go) *)
Record HeaderField := mkHF {
  hf_Name : bytes;
  hf_Value : bytes;
  hf_Sensitive : bool
}.

#[export] Instance HeaderField_eq_dec : EqDecision HeaderField.
Proof. solve_decision. Defined.

Definition hf_Size (hf : HeaderField) : Z := u32 (zlen (hf_Name hf) + zlen (hf_Value hf) + 32).

Definition IsPseudo (hf : HeaderField) : bool :=
  match hf_Name hf with b :: _ => b =? 58 | [] => false end.

(** ** Tables (tables.go) *)
Record headerFieldTable := mkTable {
  t_ents : list HeaderField;
  t_evictCount : Z;                                  (* uint64 *)
  t_byName : gmap bytes Z;
  t_byNameValue : gmap (bytes * bytes) Z
}.

Definition table_init : headerFieldTable := mkTable [] 0 ∅ ∅.

Definition table_len (t : headerFieldTable) : Z := zlen (t_ents t).

Definition addEntry (t : headerFieldTable) (f : HeaderField) : headerFieldTable :=
  let id := u64 (table_len t + t_evictCount t + 1) in
  mkTable (t_ents t ++ [f]) (t_evictCount t)
    (<[hf_Name f := id]> (t_byName t))
    (<[(hf_Name f, hf_Value f) := id]> (t_byNameValue t)).

(** Reading a missing key of a Go map gives the zero value. *)
Definition mapGet {K} `{Countable K} (m : gmap K Z) (k : K) : Z := default 0 (m !! k).

(** The loop of [evictOldest] over the entries [t_ents[k]], [k < n]. *)
Fixpoint evictMaps (n : nat) (evictCount k : Z) (es : list HeaderField)
    (m1 : gmap bytes Z) (m2 : gmap (bytes * bytes) Z)
  : gmap bytes Z * gmap (bytes * bytes) Z :=
  match n, es with
  | S n', f :: rest =>
      let id := u64 (evictCount + k + 1) in
      let m1 := if mapGet m1 (hf_Name f) =? id then delete (hf_Name f) m1 else m1 in
      let p := (hf_Name f, hf_Value f) in
      let m2 := if mapGet m2 p =? id then delete p m2 else m2 in
      evictMaps n' evictCount (k + 1) rest m1 m2
  | _, _ => (m1, m2)
  end.

Definition evictOldest (t : headerFieldTable) (n : nat) : option headerFieldTable :=
  if Z.of_nat n >? table_len t then None
  else
    let '(m1, m2) := evictMaps n (t_evictCount t) 0 (t_ents t) (t_byName t) (t_byNameValue t) in
    let ec := u64 (t_evictCount t + Z.of_nat n) in
    if ec <? t_evictCount t then None
    else Some (mkTable (drop n (t_ents t)) ec m1 m2).

(** [idToIndex] tells the static table apart by its address. *)
Definition idToIndex (static : bool) (t : headerFieldTable) (id : Z) : option Z :=
  if id <=? t_evictCount t then None
  else
    let k := u64 (id - t_evictCount t - 1) in
    if negb static then Some (u64 (table_len t - k)) else Some (u64 (k + 1)).

Definition search (static : bool) (t : headerFieldTable) (f : HeaderField) : option (Z * bool) :=
  let id := mapGet (t_byNameValue t) (hf_Name f, hf_Value f) in
  if negb (hf_Sensitive f) && negb (id =? 0) then
    i ← idToIndex static t id; Some (i, true)
  else
    let id := mapGet (t_byName t) (hf_Name f) in
    if negb (id =? 0) then i ← idToIndex static t id; Some (i, false)
    else Some (0, false).

Definition entry (name value : String.string) : HeaderField := mkHF (str name) (str value) false.
Definition entry0 (name : String.string) : HeaderField := mkHF (str name) [] false.
Arguments entry (name value)%_string.
Arguments entry0 name%_string.

Definition staticTableEntries : list HeaderField :=
  [entry0 ":authority";
   entry ":method" "GET";
   entry ":method" "POST";
   entry ":path" "/";
   entry ":path" "/index.html";
   entry ":scheme" "http";
   entry ":scheme" "https";
   entry ":status" "200";
   entry ":status" "204";
   entry ":status" "206";
   entry ":status" "304";
   entry ":status" "400";
   entry ":status" "404";
   entry ":status" "500";
   entry0 "accept-charset";
   entry "accept-encoding" "gzip, deflate";
   entry0 "accept-language";
   entry0 "accept-ranges";
   entry0 "accept";
   entry0 "access-control-allow-origin";
   entry0 "age";
   entry0 "allow";
   entry0 "authorization";
   entry0 "cache-control";
   entry0 "content-disposition";
   entry0 "content-encoding";
   entry0 "content-language";
   entry0 "content-length";
   entry0 "content-location";
   entry0 "content-range";
   entry0 "content-type";
   entry0 "cookie";
   entry0 "date";
   entry0 "etag";
   entry0 "expect";
   entry0 "expires";
   entry0 "from";
   entry0 "host";
   entry0 "if-match";
   entry0 "if-modified-since";
   entry0 "if-none-match";
   entry0 "if-range";
   entry0 "if-unmodified-since";
   entry0 "last-modified";
   entry0 "link";
   entry0 "location";
   entry0 "max-forwards";
   entry0 "proxy-authenticate";
   entry0 "proxy-authorization";
   entry0 "range";
   entry0 "referer";
   entry0 "refresh";
   entry0 "retry-after";
   entry0 "server";
   entry0 "set-cookie";
   entry0 "strict-transport-security";
   entry0 "transfer-encoding";
   entry0 "user-agent";
   entry0 "vary";
   entry0 "via";
   entry0 "www-authenticate"].

Definition newStaticTable : headerFieldTable := fold_left addEntry staticTableEntries table_init.

Definition staticTable : headerFieldTable := newStaticTable.

(** ** Dynamic table (hpack.go) *)
Record dynamicTable := mkDyn {
  dt_table : headerFieldTable;
  dt_size : Z;                  (* uint32 *)
  dt_maxSize : Z;               (* uint32 *)
  dt_allowedMaxSize : Z         (* uint32 *)
}.

(** The loop of [dt_evict]: how many entries go, and the dt_size left. *)
Fixpoint evictLoop (sz mx : Z) (es : list HeaderField) : nat * Z :=
  match es with
  | f :: rest =>
      if sz >? mx then let '(n, sz') := evictLoop (u32 (sz - hf_Size f)) mx rest in (S n, sz')
      else (O, sz)
  | [] => (O, sz)
  end.

Definition dt_evict (dt : dynamicTable) : option dynamicTable :=
  let '(n, sz) := evictLoop (dt_size dt) (dt_maxSize dt) (t_ents (dt_table dt)) in
  t ← evictOldest (dt_table dt) n; Some (mkDyn t sz (dt_maxSize dt) (dt_allowedMaxSize dt)).

Definition dt_setMaxSize (dt : dynamicTable) (v : Z) : option dynamicTable :=
  dt_evict (mkDyn (dt_table dt) (dt_size dt) v (dt_allowedMaxSize dt)).

Definition dt_add (dt : dynamicTable) (f : HeaderField) : option dynamicTable :=
  dt_evict (mkDyn (addEntry (dt_table dt) f) (u32 (dt_size dt + hf_Size f)) (dt_maxSize dt) (dt_allowedMaxSize dt)).

(** ** Theory: the search indexes

    [newest key k es id] is the id of the last entry of [es] whose key is [k],
    when the first entry has id [id]. *)
Section index.
Context {K : Type} `{Countable K} (key : HeaderField -> K).

Fixpoint newest (k : K) (es : list HeaderField) (id : Z) : option Z :=
  match es with
  | [] => None
  | f :: rest =>
      match newest k rest (id + 1) with
      | Some i => Some i
      | None => if decide (key f = k) then Some id else None
      end
  end.

Definition index_ok (m : gmap K Z) (es : list HeaderField) (id : Z) : Prop :=
  forall k, m !! k = newest k es id.

Lemma newest_range k es id i : newest k es id = Some i -> id <= i < id + zlen es.
Proof.
  revert id. induction es as [|f es IH]; intros id; simpl; [done|]. rewrite zlen_cons.
  pose proof (zlen_nonneg es).
  destruct (newest k es (id + 1)) eqn:E; [intros [= <-]; apply IH in E; lia|].
  case_decide; intros; simplify_eq. lia.
Qed.

Lemma newest_spec k es id i :
  newest k es id = Some i -> exists f, es !! Z.to_nat (i - id) = Some f /\ key f = k.
Proof.
  revert id. induction es as [|f es IH]; intros id; simpl; [done|].
  destruct (newest k es (id + 1)) as [j|] eqn:E.
  - intros [= <-]. pose proof (newest_range _ _ _ _ E). destruct (IH _ E) as (g & Hg & Hk).
    exists g. split; [|done]. replace (Z.to_nat (j - id)) with (S (Z.to_nat (j - (id + 1)))) by lia.
    done.
  - case_decide; intros; simplify_eq. rewrite Z.sub_diag. simpl. eauto.
Qed.

Lemma newest_None k es id f : newest k es id = None -> In f es -> key f <> k.
Proof.
  revert id. induction es as [|g es IH]; intros id; simpl; [done|].
  destruct (newest k es (id + 1)) eqn:E; [done|].
  case_decide; [done|]. intros _ [<-|Hf]; [done|]. eauto.
Qed.

Lemma newest_snoc k es f id :
  newest k (es ++ [f]) id = if decide (key f = k) then Some (id + zlen es) else newest k es id.
Proof.
  revert id. induction es as [|g es IH]; intros id; simpl.
  - rewrite Z.add_0_r. done.
  - rewrite IH, zlen_cons. case_decide; [f_equal; lia|done].
Qed.

Lemma index_ok_add m es f id :
  index_ok m es id -> index_ok (<[key f := id + zlen es]> m) (es ++ [f]) id.
Proof.
  intros Hm k. rewrite newest_snoc, lookup_insert. by case_decide; [|apply Hm].
Qed.

Lemma index_ok_evict m f es id :
  1 <= id -> index_ok m (f :: es) id ->
  index_ok (if mapGet m (key f) =? id then delete (key f) m else m) es (id + 1).
Proof.
  intros Hid Hm k. pose proof (Hm k) as Hk. pose proof (Hm (key f)) as Hf.
  simpl in Hk, Hf. rewrite decide_True in Hf by done.
  unfold mapGet. destruct (newest (key f) es (id + 1)) as [j|] eqn:E.
  - rewrite Hf. simpl. apply newest_range in E. destruct (Z.eqb_spec j id); [lia|].
    rewrite Hk. destruct (newest k es (id + 1)) eqn:E'; [done|].
    case_decide; [|done]. subst k. congruence.
  - rewrite Hf. simpl. rewrite Z.eqb_refl, lookup_delete. case_decide as Hd.
    + subst k. congruence.
    + rewrite Hk. destruct (newest k es (id + 1)); repeat case_decide; done.
Qed.
End index.

Definition pair_of (f : HeaderField) : bytes * bytes := (hf_Name f, hf_Value f).

(** Well-formed tables: both indexes give the id of the newest entry with the
    name (and value), and ids did not wrap around. *)
Definition table_ok (t : headerFieldTable) : Prop :=
  index_ok hf_Name (t_byName t) (t_ents t) (t_evictCount t + 1) /\
  index_ok pair_of (t_byNameValue t) (t_ents t) (t_evictCount t + 1) /\
  0 <= t_evictCount t /\ t_evictCount t + zlen (t_ents t) < 2 ^ 64.

Lemma table_init_ok : table_ok table_init.
Proof. split; [|split]; [intros k; done..|]. vm_compute. split; [discriminate|reflexivity]. Qed.

Lemma addEntry_ok t f :
  table_ok t -> t_evictCount t + zlen (t_ents t) + 1 < 2 ^ 64 -> table_ok (addEntry t f).
Proof.
  intros (H1 & H2 & Hc & Hb) Hlt. pose proof (zlen_nonneg (t_ents t)).
  unfold addEntry, table_len. rewrite u64_id by (unfold is_u64; lia).
  replace (zlen (t_ents t) + t_evictCount t + 1) with (t_evictCount t + 1 + zlen (t_ents t)) by lia.
  split; [|split]; simpl.
  - by apply (index_ok_add hf_Name).
  - by apply (index_ok_add pair_of).
  - rewrite zlen_app. change (zlen [f]) with 1. lia.
Qed.

Lemma evictMaps_ok n : forall ec k es m1 m2,
  0 <= ec -> 0 <= k -> (n <= length es)%nat -> ec + k + zlen es < 2 ^ 64 ->
  index_ok hf_Name m1 es (ec + k + 1) -> index_ok pair_of m2 es (ec + k + 1) ->
  let '(m1', m2') := evictMaps n ec k es m1 m2 in
  index_ok hf_Name m1' (drop n es) (ec + k + Z.of_nat n + 1) /\
  index_ok pair_of m2' (drop n es) (ec + k + Z.of_nat n + 1).
Proof.
  induction n as [|n IH]; intros ec k es m1 m2 Hec Hk Hn Hb H1 H2; simpl.
  - rewrite Z.add_0_r. auto.
  - destruct es as [|f es]; simpl in Hn; [lia|]. rewrite zlen_cons in Hb.
    pose proof (zlen_nonneg es). rewrite u64_id by (unfold is_u64; lia).
    apply (index_ok_evict hf_Name) in H1; [|lia]. apply (index_ok_evict pair_of) in H2; [|lia].
    replace (ec + k + 1 + 1) with (ec + (k + 1) + 1) in H1, H2 by lia.
    specialize (IH ec (k + 1) es _ _ Hec ltac:(lia) ltac:(lia) ltac:(lia) H1 H2).
    replace (ec + k + Z.of_nat (S n) + 1) with (ec + (k + 1) + Z.of_nat n + 1) by lia.
    exact IH.
Qed.

Lemma evictOldest_ok t n :
  table_ok t -> (n <= length (t_ents t))%nat ->
  exists t', evictOldest t n = Some t' /\ table_ok t' /\ t_ents t' = drop n (t_ents t) /\
    t_evictCount t' = t_evictCount t + Z.of_nat n.
Proof.
  intros (H1 & H2 & Hc & Hb) Hn. unfold evictOldest, table_len. rewrite Z.gtb_ltb.
  pose proof Hb as Hb'. unfold zlen in Hb'.
  destruct (Z.ltb_spec (zlen (t_ents t)) (Z.of_nat n)) as [Hlt|_]; [unfold zlen in Hlt; lia|].
  pose proof (evictMaps_ok n (t_evictCount t) 0 (t_ents t) (t_byName t) (t_byNameValue t)) as He.
  destruct (evictMaps _ _ _ _ _ _) as [m1 m2]. rewrite !Z.add_0_r in He.
  destruct He as [He1 He2]; [done|lia|done|done|done|done|].
  rewrite u64_id by (unfold is_u64; lia). destruct (Z.ltb_spec (t_evictCount t + Z.of_nat n) (t_evictCount t)); [lia|].
  eexists. split; [done|]. split; [|done]. split; [|split]; simpl.
  - exact He1.
  - exact He2.
  - unfold zlen. rewrite length_drop. lia.
Qed.

(** ** Theory: searching

    The reference search walks the table from the newest entry. *)
Section first_match.
Context {K : Type} `{Countable K} (key : HeaderField -> K).

Fixpoint first_match (k : K) (l : list HeaderField) (i : Z) : option Z :=
  match l with
  | [] => None
  | f :: rest => if decide (key f = k) then Some i else first_match k rest (i + 1)
  end.

Lemma first_match_shift k l i d :
  first_match k l (i + d) = (fun j => j + d) <$> first_match k l i.
Proof.
  revert i. induction l as [|f l IH]; intros i; simpl; [done|].
  case_decide; simpl; [done|]. rewrite <- IH. f_equal. lia.
Qed.

Lemma first_match_range k l i j : first_match k l i = Some j -> i <= j < i + zlen l.
Proof.
  revert i. induction l as [|f l IH]; intros i; simpl; [done|]. rewrite zlen_cons.
  pose proof (zlen_nonneg l). case_decide; intros; simplify_eq; [lia|].
  specialize (IH (i + 1) ltac:(done)). lia.
Qed.

Lemma first_match_spec k l i j :
  first_match k l i = Some j -> exists f, l !! Z.to_nat (j - i) = Some f /\ key f = k.
Proof.
  revert i. induction l as [|f l IH]; intros i; simpl; [done|]. case_decide.
  - intros [= ->]. rewrite Z.sub_diag. eauto.
  - intros Hj. pose proof (first_match_range _ _ _ _ Hj). destruct (IH _ Hj) as (g & Hg & ?).
    exists g. split; [|done].
    replace (Z.to_nat (j - i)) with (S (Z.to_nat (j - (i + 1)))) by lia. done.
Qed.

(** Ids count from the oldest entry, HPACK indexes from the newest. *)
Lemma newest_first_match k es id :
  newest key k es id = (fun j => id + zlen es - j) <$> first_match k (rev es) 1.
Proof.
  induction es as [|f es IH] using rev_ind; [done|].
  rewrite newest_snoc, rev_app_distr, zlen_app. change (zlen [f]) with 1. simpl.
  case_decide; simpl; [f_equal; lia|]. rewrite IH, (first_match_shift k (rev es) 1 1).
  destruct (first_match k (rev es) 1); simpl; [f_equal; lia|done].
Qed.
End first_match.

(** The index [search] returns on a dynamic table. *)
Definition search_spec (es : list HeaderField) (f : HeaderField) : Z * bool :=
  match (if hf_Sensitive f then None else first_match pair_of (pair_of f) (rev es) 1) with
  | Some i => (i, true)
  | None => match first_match hf_Name (hf_Name f) (rev es) 1 with
            | Some i => (i, false)
            | None => (0, false)
            end
  end.

Lemma idToIndex_newest t i :
  table_ok t -> 1 <= i <= zlen (t_ents t) ->
  idToIndex false t (t_evictCount t + 1 + zlen (t_ents t) - i) = Some i.
Proof.
  intros (_ & _ & Hc & Hb) Hi. unfold idToIndex, table_len.
  destruct (Z.leb_spec (t_evictCount t + 1 + zlen (t_ents t) - i) (t_evictCount t)); [lia|].
  rewrite !u64_id by (unfold is_u64; try rewrite u64_id by (unfold is_u64; lia); lia).
  simpl. f_equal. lia.
Qed.

Lemma index_get {K} `{Countable K} (key : HeaderField -> K) (m : gmap K Z) t k :
  table_ok t -> index_ok key m (t_ents t) (t_evictCount t + 1) ->
  match first_match key k (rev (t_ents t)) 1 with
  | Some i => (mapGet m k =? 0) = false /\ idToIndex false t (mapGet m k) = Some i
  | None => (mapGet m k =? 0) = true
  end.
Proof.
  intros Ht Hm. unfold mapGet. rewrite (Hm k), newest_first_match.
  destruct (first_match key k (rev (t_ents t)) 1) as [i|] eqn:E; [|done]. simpl.
  apply first_match_range in E. unfold zlen in E. rewrite length_rev in E.
  change (Z.of_nat (length (t_ents t))) with (zlen (t_ents t)) in E.
  split; [apply Z.eqb_neq; destruct Ht as (_ & _ & Hc & _); lia|]. apply idToIndex_newest; [done|lia].
Qed.

Lemma search_correct t f : table_ok t -> search false t f = Some (search_spec (t_ents t) f).
Proof.
  intros Ht. pose proof Ht as (H1 & H2 & _). unfold search, search_spec.
  pose proof (index_get pair_of _ t (pair_of f) Ht H2) as Hp.
  pose proof (index_get hf_Name _ t (hf_Name f) Ht H1) as Hn.
  change (hf_Name f, hf_Value f) with (pair_of f).
  assert (forall o : option (Z * bool),
            o = Some (match first_match hf_Name (hf_Name f) (rev (t_ents t)) 1 with
                      | Some i => (i, false) | None => (0, false) end) ->
            (if negb (mapGet (t_byName t) (hf_Name f) =? 0)
             then i ← idToIndex false t (mapGet (t_byName t) (hf_Name f)); Some (i, false)
             else Some (0, false)) = o) as Hname.
  { intros o ->. destruct (first_match hf_Name _ _ _); [destruct Hn as [-> ->]|rewrite Hn]; done. }
  destruct (hf_Sensitive f); simpl; [by apply Hname|].
  destruct (first_match pair_of _ _ _); [destruct Hp as [-> ->]; done|].
  rewrite Hp. simpl. by apply Hname.
Qed.

(** ** Theory: eviction *)
Definition rawSize (f : HeaderField) : Z := zlen (hf_Name f) + zlen (hf_Value f) + 32.

Definition total (es : list HeaderField) : Z := fold_right (fun f n => rawSize f + n) 0 es.

(** Dropping the oldest entries until the rest fits. *)
Fixpoint trim (mx : Z) (es : list HeaderField) : list HeaderField :=
  match es with
  | [] => []
  | f :: rest => if total es <=? mx then es else trim mx rest
  end.

Lemma rawSize_pos f : 32 <= rawSize f.
Proof. unfold rawSize. pose proof (zlen_nonneg (hf_Name f)). pose proof (zlen_nonneg (hf_Value f)). lia. Qed.

Lemma total_nonneg es : 0 <= total es.
Proof. induction es as [|f es IH]; simpl; [lia|]. pose proof (rawSize_pos f). lia. Qed.

Lemma total_app es es' : total (es ++ es') = total es + total es'.
Proof. induction es; simpl; lia. Qed.

Lemma hf_Size_raw f : rawSize f < 2 ^ 32 -> hf_Size f = rawSize f.
Proof. intros. apply u32_id. pose proof (rawSize_pos f). unfold is_u32. lia. Qed.

Lemma trim_total mx es : 0 <= mx -> total (trim mx es) <= mx.
Proof.
  intros Hm. induction es as [|f es IH]; simpl; [lia|].
  destruct (Z.leb_spec (rawSize f + total es) mx); [done|apply IH].
Qed.

Lemma trim_id mx es : total es <= mx -> trim mx es = es.
Proof. destruct es as [|f es]; simpl; [done|]. intros. destruct (Z.leb_spec (rawSize f + total es) mx); [done|lia]. Qed.

Lemma trim_suffix mx es : exists n, (n <= length es)%nat /\ trim mx es = drop n es.
Proof.
  induction es as [|f es (n & Hn & IH)]; simpl; [exists 0%nat; auto|].
  destruct (_ <=? mx); [exists 0%nat; split; [lia|done]|exists (S n); split; [simpl; lia|done]].
Qed.

Lemma evictLoop_spec mx es :
  total es < 2 ^ 32 ->
  exists n, evictLoop (total es) mx es = (n, total (trim mx es)) /\
    (n <= length es)%nat /\ trim mx es = drop n es.
Proof.
  induction es as [|f es IH]; cbn [evictLoop trim]; intros Ht; [exists 0%nat; auto|].
  rewrite Z.gtb_ltb. destruct (Z.ltb_spec mx (total (f :: es))), (Z.leb_spec (total (f :: es)) mx);
    try lia; [|exists 0%nat; auto with lia].
  simpl total in *. pose proof (rawSize_pos f). pose proof (total_nonneg es).
  rewrite hf_Size_raw by lia. replace (rawSize f + total es - rawSize f) with (total es) by lia.
  rewrite u32_id by (unfold is_u32; lia).
  destruct IH as (n & -> & Hn & ->); [lia|]. exists (S n). simpl. auto with lia.
Qed.

(** Well-formed dynamic tables: the indexes are right, the recorded size is the
    sum of the entry sizes and it is at most the maximum. *)
Definition dt_ok (dt : dynamicTable) : Prop :=
  table_ok (dt_table dt) /\ dt_size dt = total (t_ents (dt_table dt)) /\
  dt_size dt <= dt_maxSize dt /\ is_u32 (dt_maxSize dt).

Definition dt_ents (dt : dynamicTable) : list HeaderField := t_ents (dt_table dt).

(** Number of entries ever added. *)
Definition dt_added (dt : dynamicTable) : Z := t_evictCount (dt_table dt) + zlen (dt_ents dt).

Lemma dt_evict_ok dt :
  table_ok (dt_table dt) -> dt_size dt = total (dt_ents dt) -> dt_size dt < 2 ^ 32 ->
  is_u32 (dt_maxSize dt) ->
  exists dt', dt_evict dt = Some dt' /\ dt_ok dt' /\ dt_ents dt' = trim (dt_maxSize dt) (dt_ents dt) /\
    dt_maxSize dt' = dt_maxSize dt /\ dt_allowedMaxSize dt' = dt_allowedMaxSize dt /\
    dt_added dt' = dt_added dt.
Proof.
  intros Ht Hs Hlt Hm. unfold dt_evict, dt_ents in *.
  destruct (evictLoop_spec (dt_maxSize dt) (t_ents (dt_table dt))) as (n & E & Hn & Htr); [lia|].
  rewrite Hs, E. destruct (evictOldest_ok (dt_table dt) n Ht Hn) as (t' & -> & Ht' & He & Hc).
  simpl. eexists. split; [done|]. unfold dt_ok, dt_added, dt_ents. simpl.
  rewrite He, Hc, Htr. split_and!; try done.
  - rewrite <- Htr. apply trim_total. unfold is_u32 in Hm. lia.
  - unfold zlen. rewrite length_drop. lia.
Qed.

Lemma dt_setMaxSize_ok dt v :
  dt_ok dt -> is_u32 v ->
  exists dt', dt_setMaxSize dt v = Some dt' /\ dt_ok dt' /\ dt_ents dt' = trim v (dt_ents dt) /\
    dt_maxSize dt' = v /\ dt_allowedMaxSize dt' = dt_allowedMaxSize dt /\ dt_added dt' = dt_added dt.
Proof.
  intros (Ht & Hs & Hle & Hm) Hv. unfold is_u32 in Hm.
  apply (dt_evict_ok (mkDyn (dt_table dt) (dt_size dt) v (dt_allowedMaxSize dt))); simpl; auto. lia.
Qed.

Lemma dt_add_ok dt f :
  dt_ok dt -> dt_size dt + rawSize f < 2 ^ 32 -> dt_added dt + 1 < 2 ^ 64 ->
  exists dt', dt_add dt f = Some dt' /\ dt_ok dt' /\
    dt_ents dt' = trim (dt_maxSize dt) (dt_ents dt ++ [f]) /\
    dt_maxSize dt' = dt_maxSize dt /\ dt_allowedMaxSize dt' = dt_allowedMaxSize dt /\
    dt_added dt' = dt_added dt + 1.
Proof.
  intros (Ht & Hs & Hle & Hm) Hsz Hadd. unfold dt_add.
  pose proof (total_nonneg (t_ents (dt_table dt))). pose proof (rawSize_pos f).
  rewrite hf_Size_raw, u32_id by (unfold is_u32; lia).
  destruct (dt_evict_ok (mkDyn (addEntry (dt_table dt) f) (dt_size dt + rawSize f)
              (dt_maxSize dt) (dt_allowedMaxSize dt))) as (dt' & E & H1 & H2 & H3 & H4 & H5).
  - by apply addEntry_ok.
  - unfold dt_ents. simpl. rewrite total_app. simpl. lia.
  - simpl. lia.
  - done.
  - exists dt'. split_and!; try done. rewrite H5. unfold dt_added, dt_ents. simpl.
    rewrite zlen_app. change (zlen [f]) with 1. lia.
Qed.

(** ** The dynamic table as an abstract state

    The abstract table is the list of entries, oldest first, and the maximum. *)
Inductive dt_op := OpAdd (f : HeaderField) | OpSetMaxSize (v : Z).

Definition dt_step (dt : dynamicTable) (op : dt_op) : option dynamicTable :=
  match op with
  | OpAdd f => dt_add dt f
  | OpSetMaxSize v => dt_setMaxSize dt v
  end.

Fixpoint dt_run (dt : dynamicTable) (ops : list dt_op) : option dynamicTable :=
  match ops with
  | [] => Some dt
  | op :: ops' => dt' ← dt_step dt op; dt_run dt' ops'
  end.

Definition abs_step (a : list HeaderField * Z) (op : dt_op) : list HeaderField * Z :=
  let '(es, mx) := a in
  match op with
  | OpAdd f => (trim mx (es ++ [f]), mx)
  | OpSetMaxSize v => (trim v es, v)
  end.

Definition dt_op_ok (op : dt_op) : Prop :=
  match op with
  | OpAdd f => rawSize f <= 2 ^ 31
  | OpSetMaxSize v => 0 <= v < 2 ^ 31
  end.

Definition dt_init (v : Z) : dynamicTable := mkDyn table_init 0 v 0.

Lemma dt_run_refines ops : Forall dt_op_ok ops ->
  forall dt, dt_ok dt -> dt_maxSize dt < 2 ^ 31 -> dt_added dt + zlen ops < 2 ^ 64 ->
  exists dt', dt_run dt ops = Some dt' /\ dt_ok dt' /\
    (dt_ents dt', dt_maxSize dt') = fold_left abs_step ops (dt_ents dt, dt_maxSize dt).
Proof.
  intros Hops. induction Hops as [|op ops Hop _ IH]; intros dt Hok Hmx Hadd; simpl; [eauto|].
  rewrite zlen_cons in Hadd. pose proof (zlen_nonneg ops).
  destruct op as [f|v]; simpl in Hop |- *.
  - destruct (dt_add_ok dt f Hok) as (dt1 & -> & Hok1 & He & Hm & _ & Ha);
      [destruct Hok as (_ & _ & ? & _); lia|lia|].
    destruct (IH dt1 Hok1) as (dt' & Hr & Hok' & Habs); [lia..|].
    exists dt'. rewrite He, Hm in Habs. auto.
  - destruct (dt_setMaxSize_ok dt v Hok) as (dt1 & -> & Hok1 & He & Hm & _ & Ha);
      [unfold is_u32; lia|].
    destruct (IH dt1 Hok1) as (dt' & Hr & Hok' & Habs); [lia..|].
    exists dt'. rewrite He, Hm in Habs. auto.
Qed.

Lemma dt_init_ok v : is_u32 v -> dt_ok (dt_init v).
Proof.
  intros Hv. split; [apply table_init_ok|]. split; [done|]. unfold is_u32 in Hv. split; [simpl; lia|done].
Qed.

(** After any sequence of additions and size changes the dynamic table holds
    exactly the entries of the abstract table (the newest ones that fit the
    maximum), its size field is their total size and within the maximum, no
    operation panics, and [search] on its two hash indexes returns what a walk
    from the newest entry returns. *)
Theorem dynamicTable_refines v ops :
  0 <= v < 2 ^ 31 -> Forall dt_op_ok ops -> zlen ops < 2 ^ 63 ->
  exists dt, dt_run (dt_init v) ops = Some dt /\
    (dt_ents dt, dt_maxSize dt) = fold_left abs_step ops ([], v) /\
    dt_size dt = total (dt_ents dt) /\ dt_size dt <= dt_maxSize dt /\
    forall f, search false (dt_table dt) f = Some (search_spec (dt_ents dt) f).
Proof.
  intros Hv Hops Hlen.
  destruct (dt_run_refines ops Hops (dt_init v)) as (dt & Hrun & Hok & Habs).
  - apply dt_init_ok. unfold is_u32. lia.
  - simpl. lia.
  - unfold dt_added, dt_ents, zlen in *. simpl. lia.
  - exists dt. destruct Hok as (Ht & Hs & Hle & _). split_and!; try done.
    intros f. by apply search_correct.
Qed.

Lemma dynamicTable_refines_witness :
  exists dt, dt_run (dt_init 100) [OpAdd (entry "a" "1"); OpAdd (entry "b" "2");
                                   OpAdd (entry "a" "3"); OpSetMaxSize 50] = Some dt /\
    dt_ents dt = [entry "a" "3"] /\ dt_size dt = 34.
Proof.
  destruct (dynamicTable_refines 100 [OpAdd (entry "a" "1"); OpAdd (entry "b" "2");
    OpAdd (entry "a" "3"); OpSetMaxSize 50]) as (dt & Hrun & Habs & Hs & _).
  - lia.
  - repeat constructor; vm_compute; intros; discriminate.
  - vm_compute. reflexivity.
  - exists dt. injection Habs as He _. rewrite Hs, He. split; [exact Hrun|]. split; reflexivity.
Defined.

(** ** The static table *)
Lemma fold_addEntry_ok es t :
  table_ok t -> t_evictCount t + zlen (t_ents t) + zlen es < 2 ^ 64 ->
  table_ok (fold_left addEntry es t) /\
  t_ents (fold_left addEntry es t) = t_ents t ++ es /\
  t_evictCount (fold_left addEntry es t) = t_evictCount t.
Proof.
  revert t. induction es as [|f es IH]; intros t Ht Hb; simpl; [by rewrite app_nil_r|].
  rewrite zlen_cons in Hb. pose proof (zlen_nonneg es).
  destruct (IH (addEntry t f)) as (H1 & H2 & H3).
  - apply addEntry_ok; [done|lia].
  - simpl. rewrite zlen_app. change (zlen [f]) with 1. lia.
  - split; [done|]. rewrite H2, H3. simpl. by rewrite <- app_assoc.
Qed.

Lemma staticTable_ok :
  table_ok staticTable /\ t_ents staticTable = staticTableEntries /\ t_evictCount staticTable = 0.
Proof. apply (fold_addEntry_ok staticTableEntries table_init); [apply table_init_ok|vm_compute; done]. Qed.

(** What [search] promises about the static table: the index of an entry with the
    name, and with the value when the match is full. *)
Lemma search_static f :
  exists i b, search true staticTable f = Some (i, b) /\
    (i = 0 /\ b = false \/
     1 <= i <= 61 /\ exists g, staticTableEntries !! Z.to_nat (i - 1) = Some g /\
       hf_Name g = hf_Name f /\ (b = true -> hf_Value g = hf_Value f /\ hf_Sensitive f = false)).
Proof.
  destruct staticTable_ok as ((H1 & H2 & _) & He & Hc).
  unfold search, mapGet. rewrite (H1 (hf_Name f)), (H2 (hf_Name f, hf_Value f)), He, Hc.
  change (0 + 1) with 1.
  assert (forall i, 1 <= i < 1 + zlen staticTableEntries -> idToIndex true staticTable i = Some i) as Hid.
  { intros i Hi. change (zlen staticTableEntries) with 61 in Hi. unfold idToIndex. rewrite Hc.
    destruct (Z.leb_spec i 0); [lia|]. simpl. rewrite !u64_id by (unfold is_u64; try rewrite u64_id by (unfold is_u64; lia); lia).
    f_equal. lia. }
  assert (exists i b, (if negb (default 0 (newest hf_Name (hf_Name f) staticTableEntries 1) =? 0)
            then i ← idToIndex true staticTable (default 0 (newest hf_Name (hf_Name f) staticTableEntries 1));
                 Some (i, false)
            else Some (0, false)) = Some (i, b) /\ b = false /\ (i = 0 \/ 1 <= i <= 61 /\
              exists g, staticTableEntries !! Z.to_nat (i - 1) = Some g /\ hf_Name g = hf_Name f)) as Hname.
  { destruct (newest hf_Name _ _ _) as [i|] eqn:E; simpl; [|eauto 6].
    pose proof (newest_range _ _ _ _ _ E) as Hr. destruct (newest_spec _ _ _ _ _ E) as (g & Hg & Hk).
    rewrite Hid by done. change (zlen staticTableEntries) with 61 in Hr.
    destruct (Z.eqb_spec i 0); [lia|]. simpl. exists i, false. eauto 8 with lia. }
  destruct Hname as (i & b & Hn & -> & Hi). rewrite Hn.
  destruct (newest pair_of _ _ _) as [j|] eqn:E; simpl.
  2: { rewrite andb_false_r. exists i, false. split; [done|]. destruct Hi as [->|(? & g & ? & ?)]; [by left|].
       right. split; [done|]. exists g. done. }
  pose proof (newest_range _ _ _ _ _ E) as Hr. destruct (newest_spec _ _ _ _ _ E) as (g & Hg & Hk).
  change (zlen staticTableEntries) with 61 in Hr. rewrite Hid by (change (zlen staticTableEntries) with 61; lia).
  destruct (Z.eqb_spec j 0); [lia|]. destruct (hf_Sensitive f); simpl.
  - exists i, false. split; [done|]. destruct Hi as [->|(? & g' & ? & ?)]; [by left|].
    right. split; [done|]. exists g'. done.
  - exists j, true. split; [done|]. right. split; [lia|]. exists g. split; [done|].
    unfold pair_of in Hk. simplify_eq. auto.
Qed.
