(* ===== verification/Hpack.v ===== *)
(** * Package hpack: encoder and decoder

    Models src/http2/hpack/encode.go and the decoder of src/http2/hpack/hpack.go.
    The encoder's writer and the decoder's emit callback are parameters; the
    callback receives the decoder's [emitEnabled] flag and may change it, as
    package http2 does.  An outer [None] is a panic (or spent fuel). *)

From S2P Require Import Prelude Bits HpackHuffman HpackTable.

(** ** Errors (hpack.go) *)
Inductive hpack_error :=
| errNeedMore
| errStringLength
| errInvalidHuffman
| errVarintOverflow
| InvalidIndexError (i : Z)
| errTruncatedHeaders
| errInvalidEncoding
| errSizeUpdateNotFirst
| errSizeUpdateTooLarge.

(** ** Integers *)
Fixpoint appendVarIntLoop (fuel : nat) (dst : bytes) (i : Z) : bytes :=
  match fuel with
  | O => dst
  | S fuel' =>
      if i >=? 128 then appendVarIntLoop fuel' (dst ++ [u8 (Z.lor 0x80 (Z.land i 0x7f))]) (Z.shiftr i 7)
      else dst ++ [u8 i]
  end.

(** Ten rounds are enough: seven bits of a [uint64] go in each. *)
Definition appendVarInt (dst : bytes) (n i : Z) : bytes :=
  let k := Z.shiftl 1 n - 1 in
  if i <? k then dst ++ [u8 i]
  else appendVarIntLoop 10 (dst ++ [u8 k]) (i - k).

Fixpoint readVarIntLoop (i m : Z) (p : bytes) : Z * bytes + hpack_error :=
  match p with
  | [] => inr errNeedMore
  | b :: p' =>
      let i := u64 (i + u64 (Z.shiftl (Z.land b 127) m)) in
      if Z.land b 128 =? 0 then inl (i, p')
      else let m := m + 7 in
           if m >=? 63 then inr errVarintOverflow else readVarIntLoop i m p'
  end.

(** The outer [None] is the panic on a bad [n]. *)
Definition readVarInt (n : Z) (p : bytes) : option (Z * bytes + hpack_error) :=
  if (n <? 1) || (n >? 8) then None
  else match p with
       | [] => Some (inr errNeedMore)
       | b :: p' =>
           let i := if n <? 8 then Z.land b (Z.shiftl 1 n - 1) else b in
           if i <? Z.shiftl 1 n - 1 then Some (inl (i, p'))
           else Some (readVarIntLoop i 0 p')
       end.

(** ** Encoding (encode.go) *)
Definition uint32Max : Z := 0xffffffff.
Definition initialHeaderTableSize : Z := 4096.

Record Encoder := mkEnc {
  e_dynTab : dynamicTable;
  e_minSize : Z;                 (* uint32 *)
  e_maxSizeLimit : Z;            (* uint32 *)
  e_tableSizeUpdate : bool
}.

Definition NewEncoder : option Encoder :=
  dt ← dt_setMaxSize (mkDyn table_init 0 0 0) initialHeaderTableSize;
  Some (mkEnc dt uint32Max initialHeaderTableSize false).

(** [dst[first] |= b] *)
Definition orAt (dst : bytes) (first : nat) (b : Z) : bytes :=
  alter (fun x => Z.lor x b) first dst.

Definition appendIndexed (dst : bytes) (i : Z) : bytes :=
  orAt (appendVarInt dst 7 i) (length dst) 0x80.

Definition encodeTypeByte (indexing sensitive : bool) : Z :=
  if sensitive then 0x10 else if indexing then 0x40 else 0.

Definition appendHpackString (dst : bytes) (s : bytes) : bytes :=
  let huffmanLength := HuffmanEncodeLength s in
  if huffmanLength <? zlen s then
    orAt (AppendHuffmanString (appendVarInt dst 7 huffmanLength) s) (length dst) 0x80
  else appendVarInt dst 7 (zlen s) ++ s.

Definition appendNewName (dst : bytes) (f : HeaderField) (indexing : bool) : bytes :=
  let dst := dst ++ [encodeTypeByte indexing (hf_Sensitive f)] in
  let dst := appendHpackString dst (hf_Name f) in
  appendHpackString dst (hf_Value f).

Definition appendIndexedName (dst : bytes) (f : HeaderField) (i : Z) (indexing : bool) : bytes :=
  let n := if indexing then 6 else 4 in
  let dst' := orAt (appendVarInt dst n i) (length dst) (encodeTypeByte indexing (hf_Sensitive f)) in
  appendHpackString dst' (hf_Value f).

Definition appendTableSize (dst : bytes) (v : Z) : bytes :=
  orAt (appendVarInt dst 5 v) (length dst) 0x20.

Definition searchTable (e : Encoder) (f : HeaderField) : option (Z * bool) :=
  sr ← search true staticTable f;
  let '(i, nameValueMatch) := (sr : Z * bool) in
  if nameValueMatch then Some (i, true)
  else
    dr ← search false (dt_table (e_dynTab e)) f;
    let '(j, nameValueMatch) := (dr : Z * bool) in
    if nameValueMatch || ((i =? 0) && negb (j =? 0))
    then Some (u64 (j + table_len staticTable), nameValueMatch)
    else Some (i, false).

Definition shouldIndex (e : Encoder) (f : HeaderField) : bool :=
  negb (hf_Sensitive f) && (hf_Size f <=? dt_maxSize (e_dynTab e)).

(** The size updates at the start of [WriteField]. *)
Definition writeSizeUpdates (e : Encoder) : Encoder * bytes :=
  if e_tableSizeUpdate e then
    let buf := if e_minSize e <? dt_maxSize (e_dynTab e) then appendTableSize [] (e_minSize e) else [] in
    (mkEnc (e_dynTab e) uint32Max (e_maxSizeLimit e) false,
     appendTableSize buf (dt_maxSize (e_dynTab e)))
  else (e, []).

(** [WriteField] up to its single [Write] call: the encoder afterwards and the
    bytes handed to the writer. *)
Definition encodeField (e : Encoder) (f : HeaderField) : option (Encoder * bytes) :=
  let '(e, buf) := writeSizeUpdates e in
  sr ← searchTable e f;
  let '(idx, nameValueMatch) := (sr : Z * bool) in
  if nameValueMatch then Some (e, appendIndexed buf idx)
  else
    let indexing := shouldIndex e f in
    dt ← (if indexing then dt_add (e_dynTab e) f else Some (e_dynTab e));
    let e := mkEnc dt (e_minSize e) (e_maxSizeLimit e) (e_tableSizeUpdate e) in
    Some (e, if idx =? 0 then appendNewName buf f indexing
             else appendIndexedName buf f idx indexing).

Section Writer.
Context {Wr Err : Type} (write : Wr -> bytes -> Wr * (Z * option Err)) (ErrShortWrite : Err).

Definition WriteField (e : Encoder) (w : Wr) (f : HeaderField) : option (Encoder * Wr * option Err) :=
  r ← encodeField e f;
  let '(e, buf) := (r : Encoder * bytes) in
  let '(w, (n, err)) := write w buf in
  Some (e, w, match err with
              | None => if negb (n =? zlen buf) then Some ErrShortWrite else None
              | Some _ => err
              end).
End Writer.

Definition SetMaxDynamicTableSize (e : Encoder) (v : Z) : option Encoder :=
  let v := if v >? e_maxSizeLimit e then e_maxSizeLimit e else v in
  let minSize := if v <? e_minSize e then v else e_minSize e in
  dt ← dt_setMaxSize (e_dynTab e) v;
  Some (mkEnc dt minSize (e_maxSizeLimit e) true).

Definition SetMaxDynamicTableSizeLimit (e : Encoder) (v : Z) : option Encoder :=
  if dt_maxSize (e_dynTab e) >? v then
    dt ← dt_setMaxSize (e_dynTab e) v;
    Some (mkEnc dt (e_minSize e) v true)
  else Some (mkEnc (e_dynTab e) (e_minSize e) v (e_tableSizeUpdate e)).

(** ** Decoding (hpack.go) *)
Inductive indexType := indexedTrue | indexedFalse | indexedNever.

Definition indexed (v : indexType) : bool := match v with indexedTrue => true | _ => false end.
Definition sensitive (v : indexType) : bool := match v with indexedNever => true | _ => false end.

Record Decoder := mkDec {
  d_dynTab : dynamicTable;
  d_emitEnabled : bool;
  d_maxStrLen : Z;               (* int; 0 means unlimited *)
  d_saveBuf : bytes;
  d_firstField : bool
}.

Definition NewDecoder (maxDynamicTableSize : Z) : option Decoder :=
  dt ← dt_setMaxSize (mkDyn table_init 0 0 maxDynamicTableSize) maxDynamicTableSize;
  Some (mkDec dt true 0 [] true).

Definition SetMaxStringLength (d : Decoder) (n : Z) : Decoder :=
  mkDec (d_dynTab d) (d_emitEnabled d) n (d_saveBuf d) (d_firstField d).

Definition SetEmitEnabled (d : Decoder) (v : bool) : Decoder :=
  mkDec (d_dynTab d) v (d_maxStrLen d) (d_saveBuf d) (d_firstField d).

Definition d_setDynTab (d : Decoder) (dt : dynamicTable) : Decoder :=
  mkDec dt (d_emitEnabled d) (d_maxStrLen d) (d_saveBuf d) (d_firstField d).

Definition d_setSaveBuf (d : Decoder) (b : bytes) : Decoder :=
  mkDec (d_dynTab d) (d_emitEnabled d) (d_maxStrLen d) b (d_firstField d).

Definition d_setFirstField (d : Decoder) (b : bool) : Decoder :=
  mkDec (d_dynTab d) (d_emitEnabled d) (d_maxStrLen d) (d_saveBuf d) b.

Definition d_SetMaxDynamicTableSize (d : Decoder) (v : Z) : option Decoder :=
  dt ← dt_setMaxSize (d_dynTab d) v; Some (d_setDynTab d dt).

Definition SetAllowedMaxDynamicTableSize (d : Decoder) (v : Z) : Decoder :=
  let dt := d_dynTab d in
  d_setDynTab d (mkDyn (dt_table dt) (dt_size dt) (dt_maxSize dt) v).

Definition maxTableIndex (d : Decoder) : Z := table_len (dt_table (d_dynTab d)) + table_len staticTable.

(** [at]: [Fail tt] is [ok == false]. *)
Definition at_ (d : Decoder) (i : Z) : outcome unit HeaderField :=
  if i =? 0 then Fail tt
  else if i <=? table_len staticTable then
    match zget (t_ents staticTable) (i - 1) with Some hf => Ret hf | None => Panic end
  else if i >? maxTableIndex d then Fail tt
  else
    let dt := dt_table (d_dynTab d) in
    match zget (t_ents dt) (table_len dt - (i - table_len staticTable)) with
    | Some hf => Ret hf
    | None => Panic
    end.

(** [readString]: the string (empty when not wanted), the rest, or the error. *)
Definition readString (d : Decoder) (p : bytes) (wantStr : bool)
  : option (bytes * bytes + hpack_error) :=
  match p with
  | [] => Some (inr errNeedMore)
  | b :: _ =>
      let isHuff := negb (Z.land b 128 =? 0) in
      r ← readVarInt 7 p;
      match (r : Z * bytes + hpack_error) with
      | inr e => Some (inr e)
      | inl (strLen, p) =>
          if negb (d_maxStrLen d =? 0) && (strLen >? u64 (d_maxStrLen d)) then Some (inr errStringLength)
          else if zlen p <? strLen then Some (inr errNeedMore)
          else
            let n := Z.to_nat strLen in
            if negb isHuff then Some (inl (if wantStr then take n p else [], drop n p))
            else if wantStr then
              r ← huffmanDecode (d_maxStrLen d) (take n p);
              match (r : bytes + huff_error) with
              | inr ErrInvalidHuffman => Some (inr errInvalidHuffman)
              | inr ErrStringLength => Some (inr errStringLength)
              | inl s => Some (inl (s, drop n p))
              end
            else Some (inl ([], drop n p))
      end
  end.

Section Emit.
Context {St : Type} (emit : HeaderField -> bool -> St -> St * bool).

(** State of a decoding call: decoder, callback state, the unparsed [d.buf]. *)
Abbreviation dresult := (Decoder * St * bytes * option hpack_error)%type.

Definition callEmit (d : Decoder) (s : St) (hf : HeaderField) : Decoder * St * option hpack_error :=
  if negb (d_maxStrLen d =? 0) &&
     ((zlen (hf_Name hf) >? d_maxStrLen d) || (zlen (hf_Value hf) >? d_maxStrLen d))
  then (d, s, Some errStringLength)
  else if d_emitEnabled d then
    let '(s', en) := emit hf (d_emitEnabled d) s in (SetEmitEnabled d en, s', None)
  else (d, s, None).

Definition parseFieldIndexed (d : Decoder) (s : St) (buf0 : bytes) : option dresult :=
  r ← readVarInt 7 buf0;
  match (r : Z * bytes + hpack_error) with
  | inr e => Some (d, s, buf0, Some e)
  | inl (idx, buf) =>
      match at_ d idx with
      | Fail _ => Some (d, s, buf0, Some (InvalidIndexError (swrap 64 idx)))
      | Panic => None
      | Ret hf =>
          let '(d, s, err) := callEmit d s (mkHF (hf_Name hf) (hf_Value hf) false) in
          Some (d, s, buf, err)
      end
  end.

(** The name of a literal: from the tables, or a string. *)
Definition literalName (d : Decoder) (nameIdx : Z) (buf : bytes) (wantStr : bool)
  : option (bytes * bytes + hpack_error) :=
  if nameIdx >? 0 then
    match at_ d nameIdx with
    | Fail _ => Some (inr (InvalidIndexError (swrap 64 nameIdx)))
    | Panic => None
    | Ret ihf => Some (inl (hf_Name ihf, buf))
    end
  else readString d buf wantStr.

Definition parseFieldLiteral (n : Z) (it : indexType) (d : Decoder) (s : St) (buf0 : bytes)
  : option dresult :=
  r ← readVarInt n buf0;
  match (r : Z * bytes + hpack_error) with
  | inr e => Some (d, s, buf0, Some e)
  | inl (nameIdx, buf) =>
      let wantStr := d_emitEnabled d || indexed it in
      r ← literalName d nameIdx buf wantStr;
      match (r : bytes * bytes + hpack_error) with
      | inr e => Some (d, s, buf0, Some e)
      | inl (name, buf) =>
          r ← readString d buf wantStr;
          match (r : bytes * bytes + hpack_error) with
          | inr e => Some (d, s, buf0, Some e)
          | inl (value, buf) =>
              dt ← (if indexed it then dt_add (d_dynTab d) (mkHF name value false)
                    else Some (d_dynTab d));
              let '(d, s, err) := callEmit (d_setDynTab d dt) s (mkHF name value (sensitive it)) in
              Some (d, s, buf, err)
          end
      end
  end.

Definition parseDynamicTableSizeUpdate (d : Decoder) (s : St) (buf0 : bytes) : option dresult :=
  if negb (d_firstField d) && (dt_size (d_dynTab d) >? 0) then
    Some (d, s, buf0, Some errSizeUpdateNotFirst)
  else
    r ← readVarInt 5 buf0;
    match (r : Z * bytes + hpack_error) with
    | inr e => Some (d, s, buf0, Some e)
    | inl (size, buf) =>
        if size >? dt_allowedMaxSize (d_dynTab d) then Some (d, s, buf0, Some errSizeUpdateTooLarge)
        else dt ← dt_setMaxSize (d_dynTab d) (u32 size); Some (d_setDynTab d dt, s, buf, None)
    end.

(** The outer [None] on an empty buffer is the index panic of [d.buf[0]]. *)
Definition parseHeaderFieldRepr (d : Decoder) (s : St) (buf : bytes) : option dresult :=
  match buf with
  | [] => None
  | b :: _ =>
      if negb (Z.land b 128 =? 0) then parseFieldIndexed d s buf
      else if Z.land b 192 =? 64 then parseFieldLiteral 6 indexedTrue d s buf
      else if Z.land b 240 =? 0 then parseFieldLiteral 4 indexedFalse d s buf
      else if Z.land b 240 =? 16 then parseFieldLiteral 4 indexedNever d s buf
      else if Z.land b 224 =? 32 then parseDynamicTableSizeUpdate d s buf
      else Some (d, s, buf, Some errInvalidEncoding)
  end.

(** The loop of [Write] on [d.buf]; [plen] is [len(p)].  Every round that does not
    end the loop consumes input, so [length buf] rounds are enough. *)
Fixpoint writeLoop (fuel : nat) (plen : Z) (d : Decoder) (s : St) (buf : bytes)
  : option (Decoder * St * Z * option hpack_error) :=
  match buf with
  | [] => Some (d, s, plen, None)
  | _ =>
      match fuel with
      | O => None
      | S fuel' =>
          r ← parseHeaderFieldRepr d s buf;
          match (r : dresult) with
          | (d, s, buf, Some errNeedMore) =>
              if negb (d_maxStrLen d =? 0) && (zlen buf >? 2 * (d_maxStrLen d + 8))
              then Some (d, s, 0, Some errStringLength)
              else Some (d_setSaveBuf d (d_saveBuf d ++ buf), s, plen, None)
          | (d, s, buf, Some e) => Some (d_setFirstField d false, s, plen, Some e)
          | (d, s, buf, None) => writeLoop fuel' plen (d_setFirstField d false) s buf
          end
      end
  end.

Definition Write (d : Decoder) (s : St) (p : bytes) : option (Decoder * St * Z * option hpack_error) :=
  match p with
  | [] => Some (d, s, 0, None)
  | _ =>
      let '(d, buf) := match d_saveBuf d with
                       | [] => (d, p)
                       | _ => (d_setSaveBuf d [], d_saveBuf d ++ p)
                       end in
      writeLoop (length buf) (zlen p) d s buf
  end.
End Emit.

Definition Close (d : Decoder) : Decoder * option hpack_error :=
  match d_saveBuf d with
  | _ :: _ => (d_setSaveBuf d [], Some errTruncatedHeaders)
  | [] => (d_setFirstField d true, None)
  end.

(** The callback [DecodeFull] installs. *)
Definition collect (f : HeaderField) (en : bool) (hf : list HeaderField) : list HeaderField * bool :=
  (hf ++ [f], en).

Definition DecodeFull (d : Decoder) (p : bytes)
  : option (Decoder * (list HeaderField + hpack_error)) :=
  r ← Write collect d [] p;
  match (r : Decoder * list HeaderField * Z * option hpack_error) with
  | (d, _, _, Some e) => Some (d, inr e)
  | (d, hf, _, None) =>
      match Close d with
      | (d, Some e) => Some (d, inr e)
      | (d, None) => Some (d, inl hf)
      end
  end.

(** ** Theory: integers *)
Lemma appendVarIntLoop_app fuel dst i :
  appendVarIntLoop fuel dst i = dst ++ appendVarIntLoop fuel [] i.
Proof.
  revert dst i. induction fuel as [|fuel IH]; intros dst i; simpl; [by rewrite app_nil_r|].
  destruct (i >=? 128); [|done]. rewrite IH, (IH [_]), app_assoc. done.
Qed.

Lemma appendVarInt_app dst n i : appendVarInt dst n i = dst ++ appendVarInt [] n i.
Proof.
  unfold appendVarInt. destruct (i <? _); [done|].
  rewrite appendVarIntLoop_app, (appendVarIntLoop_app _ ([] ++ _)), app_assoc. done.
Qed.

Lemma land_127 x : Z.land x 127 = x mod 2 ^ 7.
Proof. apply (Z.land_ones x 7). lia. Qed.

(** The continuation bit of a byte. *)
Lemma continuation_byte x :
  0 <= x < 128 -> Z.land (Z.lor 128 x) 127 = x /\ Z.land (Z.lor 128 x) 128 = 128 /\ u8 (Z.lor 128 x) = Z.lor 128 x.
Proof.
  intros Hx.
  pose proof (forallb_range (fun x => (Z.land (Z.lor 128 x) 127 =? x) && (Z.land (Z.lor 128 x) 128 =? 128)
    && (u8 (Z.lor 128 x) =? Z.lor 128 x)) 128 ltac:(vm_compute; reflexivity) x Hx) as H.
  simpl in H. breflect. auto.
Qed.

Lemma final_byte x : 0 <= x < 128 -> Z.land x 127 = x /\ Z.land x 128 = 0 /\ u8 x = x.
Proof.
  intros Hx.
  pose proof (forallb_range (fun x => (Z.land x 127 =? x) && (Z.land x 128 =? 0) && (u8 x =? x)) 128
    ltac:(vm_compute; reflexivity) x Hx) as H.
  simpl in H. breflect. auto.
Qed.

Lemma readVarIntLoop_append fuel : forall i acc m rest,
  (0 < fuel)%nat -> 0 <= i < 2 ^ (7 * Z.of_nat fuel) -> 0 <= m -> 0 <= acc ->
  i * 2 ^ m < 2 ^ 63 -> acc + i * 2 ^ m < 2 ^ 64 ->
  readVarIntLoop acc m (appendVarIntLoop fuel [] i ++ rest) = inl (acc + i * 2 ^ m, rest).
Proof.
  induction fuel as [|fuel IH]; intros i acc m rest Hf Hi Hm Hacc H63 H64; [lia|].
  assert (0 < 2 ^ m) by (apply Z.pow_pos_nonneg; lia).
  cbn [appendVarIntLoop]. rewrite Z.geb_leb. destruct (Z.leb_spec 128 i) as [Hge|Hlt].
  - rewrite appendVarIntLoop_app. cbn [app readVarIntLoop]. rewrite (land_127 i).
    pose proof (Z.mod_pos_bound i (2 ^ 7) ltac:(lia)) as Hr.
    destruct (continuation_byte (i mod 2 ^ 7)) as (E1 & E2 & E3); [lia|].
    rewrite E3, E1, E2. simpl (128 =? 0).
    rewrite Z.shiftl_mul_pow2 by lia.
    pose proof (Z.div_mod i (2 ^ 7) ltac:(lia)) as Hdm.
    assert (0 <= i / 2 ^ 7) as Hq by (apply Z.div_pos; lia).
    assert (i / 2 ^ 7 * 2 ^ (m + 7) = 128 * (i / 2 ^ 7 * 2 ^ m)) as Ed.
    { rewrite Z.pow_add_r by lia. change (2 ^ 7) with 128. lia. }
    assert (i * 2 ^ m = 128 * (i / 2 ^ 7 * 2 ^ m) + i mod 2 ^ 7 * 2 ^ m) as Ei.
    { rewrite Hdm at 1. change (2 ^ 7) with 128. lia. }
    assert (0 <= i / 2 ^ 7 * 2 ^ m) by (apply Z.mul_nonneg_nonneg; lia).
    assert (0 <= i mod 2 ^ 7 * 2 ^ m) by (apply Z.mul_nonneg_nonneg; lia).
    rewrite !u64_id by (unfold is_u64; try rewrite u64_id by (unfold is_u64; lia); lia).
    assert (m + 7 < 63) as Hm63.
    { apply (Z.pow_lt_mono_r_iff 2); [lia..|]. rewrite Z.pow_add_r by lia. change (2 ^ 7) with 128.
      assert (128 * 2 ^ m <= i * 2 ^ m) by (apply Z.mul_le_mono_nonneg_r; lia). lia. }
    rewrite Z.geb_leb. destruct (Z.leb_spec 63 (m + 7)); [lia|].
    rewrite Z.shiftr_div_pow2 by lia.
    rewrite IH; rewrite ?Ed; try lia.
    + do 2 f_equal. lia.
    + destruct fuel; [|lia]. change (2 ^ (7 * Z.of_nat 1)) with 128 in Hi. lia.
    + split; [apply Z.div_pos; lia|]. apply Z.div_lt_upper_bound; [lia|].
      replace (7 * Z.of_nat (S fuel)) with (7 + 7 * Z.of_nat fuel) in Hi by lia.
      rewrite Z.pow_add_r in Hi by lia. lia.
  - destruct (final_byte i) as (E1 & E2 & E3); [lia|].
    cbn [app readVarIntLoop]. rewrite E3, E1, E2. simpl (0 =? 0).
    rewrite Z.shiftl_mul_pow2 by lia.
    assert (0 <= i * 2 ^ m) by (apply Z.mul_nonneg_nonneg; lia).
    rewrite !u64_id by (unfold is_u64; try rewrite u64_id by (unfold is_u64; lia); lia). done.
Qed.

(** The encoding of [i] with an [n]-bit prefix, under any type bits [t] above the
    prefix, reads back as [i]. *)
Lemma readVarInt_append n i t :
  1 <= n <= 7 -> 0 <= i < 2 ^ 63 -> Z.land t (2 ^ n - 1) = 0 ->
  exists b tl, appendVarInt [] n i = b :: tl /\ 0 <= b < 2 ^ n /\
    forall rest, readVarInt n (Z.lor b t :: tl ++ rest) = Some (inl (i, rest)).
Proof.
  intros Hn Hi Ht. unfold appendVarInt, readVarInt.
  assert (0 < 2 ^ n) by (apply Z.pow_pos_nonneg; lia).
  assert (2 ^ n <= 2 ^ 7) by (apply Z.pow_le_mono_r; lia).
  replace (Z.shiftl 1 n) with (2 ^ n) by (rewrite Z.shiftl_mul_pow2; lia).
  destruct (Z.ltb_spec n 1), (Z.gtb_spec n 8); try lia. simpl orb. cbv iota.
  destruct (Z.ltb_spec n 8); [|lia].
  assert (forall b, 0 <= b < 2 ^ n -> Z.land (Z.lor b t) (2 ^ n - 1) = b) as Hb.
  { intros b Hb. rewrite Z.land_lor_distr_l, Ht, Z.lor_0_r.
    replace (2 ^ n - 1) with (Z.ones n) by (rewrite Z.ones_equiv; lia).
    rewrite Z.land_ones by lia. apply Z.mod_small. done. }
  change (2 ^ 7) with 128 in *.
  destruct (Z.ltb_spec i (2 ^ n - 1)) as [Hlt|Hge].
  - exists (u8 i), []. rewrite u8_id by (unfold is_u8; lia). split; [done|]. split; [lia|].
    intros rest. rewrite Hb by lia. destruct (Z.ltb_spec i (2 ^ n - 1)); [done|lia].
  - exists (2 ^ n - 1), (appendVarIntLoop 10 [] (i - (2 ^ n - 1))).
    rewrite appendVarIntLoop_app, u8_id by (unfold is_u8; lia). split; [done|]. split; [lia|].
    intros rest. rewrite Hb by lia. destruct (Z.ltb_spec (2 ^ n - 1) (2 ^ n - 1)); [lia|].
    rewrite readVarIntLoop_append by lia. do 3 f_equal. lia.
Qed.

Lemma orAt_app dst b tl x : orAt (dst ++ b :: tl) (length dst) x = dst ++ Z.lor b x :: tl.
Proof. unfold orAt. induction dst; simpl; [done|]. f_equal. done. Qed.

(** An integer below 2^63 survives the variable-length encoding, for every
    prefix length the encoder uses, every type pattern or-ed into the first byte
    and whatever follows on the wire. *)
Theorem varint_roundtrip dst n i t rest :
  In n [4; 5; 6; 7] -> 0 <= i < 2 ^ 63 -> Z.land t (2 ^ n - 1) = 0 ->
  exists v, orAt (appendVarInt dst n i) (length dst) t = dst ++ v /\
    readVarInt n (v ++ rest) = Some (inl (i, rest)).
Proof.
  intros Hn Hi Ht. destruct (readVarInt_append n i t) as (b & tl & E & _ & Hr); [|done|done|].
  { simpl in Hn. lia. }
  exists (Z.lor b t :: tl). rewrite appendVarInt_app, E, orAt_app. split; [done|]. apply Hr.
Qed.

Lemma varint_roundtrip_witness :
  exists v, orAt (appendVarInt [1] 5 1337) 1 0x20 = [1] ++ v /\
    readVarInt 5 (v ++ [255]) = Some (inl (1337, [255])).
Proof. apply (varint_roundtrip [1] 5 1337 0x20 [255]); [simpl; auto|lia|reflexivity]. Defined.

(** ** Theory: strings *)
Definition str_allowed (d : Decoder) (s : bytes) : Prop :=
  bytes_ok s /\ zlen s < 2 ^ 32 /\ 0 <= d_maxStrLen d < 2 ^ 63 /\ len_allowed (d_maxStrLen d) s.

Lemma zlen_take_app (l rest : bytes) : take (Z.to_nat (zlen l)) (l ++ rest) = l.
Proof. unfold zlen. rewrite Nat2Z.id, take_app_le, take_ge by lia. done. Qed.

Lemma zlen_drop_app (l rest : bytes) : drop (Z.to_nat (zlen l)) (l ++ rest) = rest.
Proof. unfold zlen. rewrite Nat2Z.id, drop_app_length. done. Qed.

Lemma lor_128_test b : 0 <= b < 2 ^ 7 -> (Z.land (Z.lor b 128) 128 =? 0) = false.
Proof.
  intros Hb. rewrite Z.lor_comm. destruct (continuation_byte b) as (_ & -> & _); [lia|done].
Qed.

Lemma land_128_test b : 0 <= b < 2 ^ 7 -> (Z.land b 128 =? 0) = true.
Proof. intros Hb. destruct (final_byte b) as (_ & -> & _); [lia|done]. Qed.

(** A string written by the encoder reads back, Huffman-coded or not. *)
Lemma readString_append d dst s want :
  str_allowed d s ->
  exists v, appendHpackString dst s = dst ++ v /\ v <> [] /\
    forall rest, readString d (v ++ rest) want = Some (inl (if want then s else [], rest)).
Proof.
  intros (Hs & Hlen & Hmax & Hal). unfold appendHpackString.
  pose proof (zlen_nonneg s) as Hpos.
  assert (HuffmanEncodeLength s = zlen (AppendHuffmanString [] s)) as Hhl.
  { symmetry. apply AppendHuffmanString_length; [done|lia]. }
  assert (forall L, 0 <= L <= zlen s ->
            negb (d_maxStrLen d =? 0) && (L >? u64 (d_maxStrLen d)) = false) as Hlim.
  { intros L HL. rewrite u64_id by (unfold is_u64; lia). destruct Hal as [->|Hal]; [done|].
    rewrite Z.gtb_ltb. destruct (Z.ltb_spec (d_maxStrLen d) L); [lia|]. apply andb_false_r. }
  assert (forall L (l rest : bytes), zlen l = L -> (zlen (l ++ rest) <? L) = false) as Hmore.
  { intros L l rest <-. rewrite zlen_app. pose proof (zlen_nonneg rest).
    destruct (Z.ltb_spec (zlen l + zlen rest) (zlen l)); [lia|done]. }
  destruct (Z.ltb_spec (HuffmanEncodeLength s) (zlen s)) as [Hh|Hh].
  - set (L := HuffmanEncodeLength s) in *. set (h := AppendHuffmanString [] s) in *.
    pose proof (zlen_nonneg h).
    destruct (readVarInt_append 7 L 128) as (b & tl & E & Hb & Hr); [lia|lia|done|].
    exists (Z.lor b 128 :: tl ++ h).
    rewrite appendVarInt_app, E, AppendHuffmanString_app. fold h.
    rewrite <- app_assoc. simpl. rewrite orAt_app. split; [done|]. split; [done|].
    intros rest. unfold readString. simpl. rewrite <- app_assoc, Hr. simpl.
    rewrite lor_128_test by done. rewrite Hlim by lia. rewrite Hmore by done. simpl.
    rewrite Hhl, zlen_take_app, zlen_drop_app.
    destruct want; [|done]. unfold h. rewrite huffman_roundtrip by done. done.
  - destruct (readVarInt_append 7 (zlen s) 0) as (b & tl & E & Hb & Hr); [lia|lia|done|].
    exists (b :: tl ++ s). rewrite appendVarInt_app, E, <- app_assoc. split; [done|]. split; [done|].
    intros rest. unfold readString. simpl. rewrite <- app_assoc.
    specialize (Hr (s ++ rest)). rewrite Z.lor_0_r in Hr. rewrite Hr. simpl.
    rewrite land_128_test by done. rewrite Hlim by lia. rewrite Hmore by done. simpl.
    rewrite zlen_take_app, zlen_drop_app. done.
Qed.
