(* ===== verification/HpackSync.v ===== *)
(** * Package hpack: encoder and decoder in step

    The contract between [Encoder] and [Decoder]: the relation [synced] holds
    between the two ends of a connection, encoding and decoding a block of header
    fields recovers the fields and preserves it, and so do the encoder's size
    settings. *)

From S2P Require Import Prelude Bits HpackHuffman HpackTable Hpack.

(** ** Lengths

    The decoder buffers an incomplete representation only up to a limit, which no
    representation of the encoder exceeds. *)
Lemma appendVarIntLoop_length k : forall fuel dst i,
  0 <= i < 2 ^ (7 * Z.of_nat (S k)) -> zlen (appendVarIntLoop fuel dst i) <= zlen dst + Z.of_nat (S k).
Proof.
  induction k as [|k IH]; intros [|fuel] dst i Hi; cbn [appendVarIntLoop]; try (lia; fail);
    rewrite Z.geb_leb; destruct (Z.leb_spec 128 i) as [Hge|];
    try (rewrite zlen_app; change (zlen [u8 i]) with 1; lia); [change (7 * Z.of_nat 1) with 7 in Hi; lia|].
  etrans; [apply IH|rewrite zlen_app; change (zlen [_]) with 1; lia].
  rewrite Z.shiftr_div_pow2 by lia. change (2 ^ 7) with 128.
  replace (7 * Z.of_nat (S (S k))) with (7 + 7 * Z.of_nat (S k)) in Hi by lia.
  rewrite Z.pow_add_r in Hi by lia. change (2 ^ 7) with 128 in Hi.
  split; [apply Z.div_pos; lia|apply Z.div_lt_upper_bound; lia].
Qed.

Lemma appendVarInt_length k n i :
  0 <= n -> 0 <= i < 2 ^ (7 * Z.of_nat (S k)) -> zlen (appendVarInt [] n i) <= 1 + Z.of_nat (S k).
Proof.
  intros Hn Hi. unfold appendVarInt. rewrite Z.shiftl_1_l. pose proof (Z.pow_pos_nonneg 2 n ltac:(lia) Hn).
  destruct (Z.ltb_spec i (2 ^ n - 1)); [change (zlen _) with 1; lia|].
  etrans; [apply (appendVarIntLoop_length k); lia|]. rewrite zlen_app. change (zlen [_]) with 1.
  change (zlen []) with 0. lia.
Qed.

#[local] Arguments appendVarInt : simpl never.
#[local] Arguments appendVarIntLoop : simpl never.
#[local] Arguments readVarInt : simpl never.
#[local] Arguments huffmanDecode : simpl never.
#[local] Arguments AppendHuffmanString : simpl never.
#[local] Arguments staticTable : simpl never.
#[local] Arguments search : simpl never.
#[local] Arguments at_ : simpl never.
#[local] Arguments dt_add : simpl never.
#[local] Arguments dt_setMaxSize : simpl never.

(** ** Type bytes select the representation *)
Section dispatch.
Context {St : Type} (emit : HeaderField -> bool -> St -> St * bool).

Lemma parse_indexed d s b tl :
  0 <= b < 2 ^ 7 ->
  parseHeaderFieldRepr emit d s (Z.lor b 128 :: tl) = parseFieldIndexed emit d s (Z.lor b 128 :: tl).
Proof. intros Hb. unfold parseHeaderFieldRepr. rewrite lor_128_test by done. done. Qed.

Lemma parse_incremental d s b tl :
  0 <= b < 2 ^ 6 ->
  parseHeaderFieldRepr emit d s (Z.lor b 64 :: tl) =
  parseFieldLiteral emit 6 indexedTrue d s (Z.lor b 64 :: tl).
Proof.
  intros Hb. unfold parseHeaderFieldRepr.
  pose proof (forallb_range (fun b => (Z.land (Z.lor b 64) 128 =? 0) && (Z.land (Z.lor b 64) 192 =? 64))
    64 ltac:(vm_compute; reflexivity) b Hb) as H.
  apply andb_true_iff in H as [-> ->]. done.
Qed.

Lemma parse_without d s b tl :
  0 <= b < 2 ^ 4 ->
  parseHeaderFieldRepr emit d s (Z.lor b 0 :: tl) =
  parseFieldLiteral emit 4 indexedFalse d s (Z.lor b 0 :: tl).
Proof.
  intros Hb. unfold parseHeaderFieldRepr.
  pose proof (forallb_range (fun b => (Z.land (Z.lor b 0) 128 =? 0) && negb (Z.land (Z.lor b 0) 192 =? 64)
    && (Z.land (Z.lor b 0) 240 =? 0)) 16 ltac:(vm_compute; reflexivity) b Hb) as H.
  apply andb_true_iff in H as [[-> H2%negb_true_iff]%andb_true_iff ->]. rewrite H2. done.
Qed.

Lemma parse_never d s b tl :
  0 <= b < 2 ^ 4 ->
  parseHeaderFieldRepr emit d s (Z.lor b 16 :: tl) =
  parseFieldLiteral emit 4 indexedNever d s (Z.lor b 16 :: tl).
Proof.
  intros Hb. unfold parseHeaderFieldRepr.
  pose proof (forallb_range (fun b => (Z.land (Z.lor b 16) 128 =? 0) && negb (Z.land (Z.lor b 16) 192 =? 64)
    && negb (Z.land (Z.lor b 16) 240 =? 0) && (Z.land (Z.lor b 16) 240 =? 16)) 16
    ltac:(vm_compute; reflexivity) b Hb) as H.
  apply andb_true_iff in H as [[[-> H2%negb_true_iff]%andb_true_iff H3%negb_true_iff]%andb_true_iff ->].
  rewrite H2, H3. done.
Qed.

Lemma parse_size_update d s b tl :
  0 <= b < 2 ^ 5 ->
  parseHeaderFieldRepr emit d s (Z.lor b 32 :: tl) =
  parseDynamicTableSizeUpdate d s (Z.lor b 32 :: tl).
Proof.
  intros Hb. unfold parseHeaderFieldRepr.
  pose proof (forallb_range (fun b => (Z.land (Z.lor b 32) 128 =? 0) && negb (Z.land (Z.lor b 32) 192 =? 64)
    && negb (Z.land (Z.lor b 32) 240 =? 0) && negb (Z.land (Z.lor b 32) 240 =? 16)
    && (Z.land (Z.lor b 32) 224 =? 32)) 32
    ltac:(vm_compute; reflexivity) b Hb) as H.
  apply andb_true_iff in H as [[[[-> H2%negb_true_iff]%andb_true_iff H3%negb_true_iff]%andb_true_iff
    H4%negb_true_iff]%andb_true_iff ->].
  rewrite H2, H3, H4. done.
Qed.

(** The representation of a literal by indexing and sensitivity. *)
Definition literal_kind (indexing sens : bool) : Z * indexType :=
  if sens then (4, indexedNever) else if indexing then (6, indexedTrue) else (4, indexedFalse).

Lemma parse_literal (indexing sens : bool) i :
  (indexing = true -> sens = false) -> 0 <= i < 2 ^ 63 ->
  let '(n, it) := literal_kind indexing sens in
  exists b tl, appendVarInt [] (if indexing then 6 else 4) i = b :: tl /\
    forall d s rest,
    readVarInt n (Z.lor b (encodeTypeByte indexing sens) :: tl ++ rest) = Some (inl (i, rest)) /\
    parseHeaderFieldRepr emit d s (Z.lor b (encodeTypeByte indexing sens) :: tl ++ rest) =
    parseFieldLiteral emit n it d s (Z.lor b (encodeTypeByte indexing sens) :: tl ++ rest).
Proof.
  intros His Hi. unfold literal_kind, encodeTypeByte.
  destruct sens; [destruct indexing; [by specialize (His eq_refl)|]|destruct indexing].
  - destruct (readVarInt_append 4 i 16) as (b & tl & E & Hb & Hr); [lia|done|done|].
    exists b, tl. split; [done|]. intros. split; [apply Hr|by apply parse_never].
  - destruct (readVarInt_append 6 i 64) as (b & tl & E & Hb & Hr); [lia|done|done|].
    exists b, tl. split; [done|]. intros. split; [apply Hr|by apply parse_incremental].
  - destruct (readVarInt_append 4 i 0) as (b & tl & E & Hb & Hr); [lia|done|done|].
    exists b, tl. split; [done|]. intros. split; [apply Hr|by apply parse_without].
Qed.
End dispatch.

(** ** The relation between the two ends *)
Record synced (e : Encoder) (d : Decoder) : Prop := {
  syn_enc : dt_ok (e_dynTab e);
  syn_dec : dt_ok (d_dynTab d);
  (* the decoder has every entry of the encoder, at the same index from the newest *)
  syn_suffix : exists old, dt_ents (d_dynTab d) = old ++ dt_ents (e_dynTab e);
  syn_max : e_tableSizeUpdate e = false ->
            dt_maxSize (d_dynTab d) = dt_maxSize (e_dynTab e) /\ e_minSize e = uint32Max;
  syn_min : total (dt_ents (e_dynTab e)) <= e_minSize e /\ is_u32 (e_minSize e);
  syn_limit : dt_maxSize (e_dynTab e) <= e_maxSizeLimit e <= dt_allowedMaxSize (d_dynTab d);
  syn_small : dt_allowedMaxSize (d_dynTab d) < 2 ^ 31 /\ dt_maxSize (d_dynTab d) < 2 ^ 31
}.

Lemma trim_app mx old es : exists old', trim mx (old ++ es) = old' ++ trim mx es.
Proof.
  induction old as [|f old [old' IH]]; [by exists []|]. cbn [app trim].
  destruct (Z.leb_spec (total (f :: old ++ es)) mx) as [Hle|_]; [|eauto].
  exists (f :: old). rewrite (trim_id mx es); [done|].
  simpl in Hle. rewrite total_app in Hle. pose proof (rawSize_pos f). pose proof (total_nonneg old). lia.
Qed.

Lemma total_zlen es : 32 * zlen es <= total es.
Proof.
  induction es as [|f es IH]; simpl; [done|]. rewrite zlen_cons. pose proof (rawSize_pos f). lia.
Qed.

(** A dynamic index of the encoder names the same entry at the decoder. *)
Lemma at_dynamic d old es j g :
  dt_ents (d_dynTab d) = old ++ es -> 1 <= j <= zlen es -> rev es !! Z.to_nat (j - 1) = Some g ->
  at_ d (j + 61) = Ret g.
Proof.
  intros He Hj Hg. unfold at_, maxTableIndex, table_len.
  fold (dt_ents (d_dynTab d)). rewrite He. destruct staticTable_ok as (_ & -> & _).
  change (zlen staticTableEntries) with 61. pose proof (zlen_nonneg old).
  rewrite zlen_app.
  destruct (Z.eqb_spec (j + 61) 0), (Z.leb_spec (j + 61) 61); try lia.
  rewrite Z.gtb_ltb. destruct (Z.ltb_spec (zlen old + zlen es + 61) (j + 61)); [lia|].
  unfold zget. destruct (Z.leb_spec 0 (zlen old + zlen es - (j + 61 - 61))); [|lia].
  rewrite lookup_app_r by (unfold zlen in *; lia). apply rev_lookup in Hg as [Hg _].
  replace (Z.to_nat _ - length old)%nat with (length es - S (Z.to_nat (j - 1)))%nat
    by (unfold zlen in *; lia).
  rewrite Hg. done.
Qed.

Lemma at_static d i g : 1 <= i <= 61 -> staticTableEntries !! Z.to_nat (i - 1) = Some g -> at_ d i = Ret g.
Proof.
  intros Hi Hg. unfold at_, table_len. destruct staticTable_ok as (_ & -> & _).
  change (zlen staticTableEntries) with 61.
  destruct (Z.eqb_spec i 0), (Z.leb_spec i 61); try lia.
  unfold zget. destruct (Z.leb_spec 0 (i - 1)); [|lia]. rewrite Hg. done.
Qed.

(** Index [i] of the decoder holds the name of [f], and for a full match [b] also
    its value. *)
Definition found_at (d : Decoder) (f : HeaderField) (i : Z) (b : bool) : Prop :=
  (i <> 0 -> exists g, at_ d i = Ret g /\ hf_Name g = hf_Name f /\ (b = true -> hf_Value g = hf_Value f)) /\
  (b = true -> i <> 0 /\ hf_Sensitive f = false).

Lemma first_match_at {K} `{Countable K} (key : HeaderField -> K) d old es k j :
  dt_ents (d_dynTab d) = old ++ es -> first_match key k (rev es) 1 = Some j ->
  1 <= j <= zlen es /\ exists g, at_ d (j + 61) = Ret g /\ key g = k.
Proof.
  intros He Hj. pose proof (first_match_range _ _ _ _ _ Hj) as Hr.
  unfold zlen in Hr. rewrite length_rev in Hr.
  destruct (first_match_spec _ _ _ _ _ Hj) as (g & Hg & Hk).
  split; [unfold zlen; lia|]. exists g. split; [|done].
  apply (at_dynamic d old es); [done|unfold zlen; lia|done].
Qed.

Lemma found_name d f i g : at_ d i = Ret g -> hf_Name g = hf_Name f -> found_at d f i false.
Proof. intros Hg Hn. split; [|done]. intros _. exists g. done. Qed.

Lemma found_full d f i g :
  at_ d i = Ret g -> hf_Name g = hf_Name f -> hf_Value g = hf_Value f -> hf_Sensitive f = false ->
  found_at d f i true.
Proof.
  intros Hg Hn Hv Hs. assert (i <> 0) by (intros ->; done).
  split; [|done]. intros _. exists g. done.
Qed.

Lemma search_spec_at d old es f :
  dt_ents (d_dynTab d) = old ++ es ->
  let '(j, b) := search_spec es f in
  0 <= j <= zlen es /\ (b = true -> j <> 0) /\ (j <> 0 -> found_at d f (j + 61) b).
Proof.
  intros He. unfold search_spec. pose proof (zlen_nonneg es).
  assert (forall j, first_match pair_of (pair_of f) (rev es) 1 = Some j -> hf_Sensitive f = false ->
            0 <= j <= zlen es /\ (true = true -> j <> 0) /\ (j <> 0 -> found_at d f (j + 61) true)) as Hpair.
  { intros j (Hj & g & Hg & Hk)%(first_match_at pair_of d old) Hs; [|done].
    unfold pair_of in Hk. simplify_eq. split; [lia|]. split; [lia|]. intros _. by eapply found_full. }
  assert (let '(j, b) := match first_match hf_Name (hf_Name f) (rev es) 1 with
                         | Some i => (i, false) | None => (0, false) end in
          0 <= j <= zlen es /\ (b = true -> j <> 0) /\ (j <> 0 -> found_at d f (j + 61) b)) as Hname.
  { destruct (first_match hf_Name (hf_Name f) (rev es) 1) as [j|] eqn:En; [|split; [lia|]; done].
    apply (first_match_at hf_Name d old) in En as (Hj & g & Hg & Hk); [|done].
    split; [lia|]. split; [done|]. intros _. by eapply found_name. }
  destruct (hf_Sensitive f); [done|].
  destruct (first_match pair_of (pair_of f) (rev es) 1) as [j|]; [by apply Hpair|done].
Qed.

Lemma search_static_at d f :
  exists i b, search true staticTable f = Some (i, b) /\ 0 <= i <= 61 /\ found_at d f i b.
Proof.
  destruct (search_static f) as (i & b & E & Hi). exists i, b. split; [done|].
  destruct Hi as [[-> ->]|(Hr & g & Hg & Hn & Hv)].
  - split; [lia|]. split; done.
  - split; [lia|]. split; [intros _; exists g; split; [by apply at_static|]; split; [done|]; apply Hv|].
    intros Hb. split; [lia|by apply Hv].
Qed.

(** What [searchTable] finds, the decoder finds at the same index. *)
Lemma searchTable_at e d f :
  synced e d -> exists i b, searchTable e f = Some (i, b) /\ 0 <= i < 2 ^ 63 /\ found_at d f i b.
Proof.
  intros Hsyn. pose proof (syn_enc _ _ Hsyn) as (Ht & Hsz & Hle & Hm). unfold is_u32 in Hm.
  destruct (syn_suffix _ _ Hsyn) as [old He].
  pose proof (total_zlen (dt_ents (e_dynTab e))) as Hz.
  unfold dt_ents in Hz at 2. rewrite <- Hsz in Hz.
  unfold searchTable. destruct (search_static_at d f) as (i & b & -> & Hi & Hf). simpl.
  destruct b; [exists i, true; auto with lia|].
  rewrite search_correct by done. fold (dt_ents (e_dynTab e)). simpl.
  change (table_len staticTable) with 61.
  pose proof (search_spec_at d old _ f He) as Hd.
  destruct (search_spec (dt_ents (e_dynTab e)) f) as [j nv]. destruct Hd as (Hj & Hnv & Hfj).
  destruct (nv || _) eqn:E; [|exists i, false; auto with lia].
  assert (j <> 0) by (destruct nv; [by apply Hnv|]; simpl in E; breflect; done).
  rewrite u64_id by (unfold is_u64; lia). exists (j + 61), nv. auto with lia.
Qed.

(** ** One field *)
Definition field_ok (d : Decoder) (f : HeaderField) : Prop :=
  str_allowed d (hf_Name f) /\ str_allowed d (hf_Value f) /\ rawSize f <= 2 ^ 31.

Lemma appendHpackString_app dst s : appendHpackString dst s = dst ++ appendHpackString [] s.
Proof.
  unfold appendHpackString. destruct (_ <? _).
  - rewrite AppendHuffmanString_app, (AppendHuffmanString_app (appendVarInt [] _ _)), appendVarInt_app.
    destruct (appendVarInt [] 7 (HuffmanEncodeLength s)) as [|b tl] eqn:E.
    + unfold appendVarInt in E. destruct (_ <? _) in E; [done|].
      rewrite appendVarIntLoop_app in E. done.
    + rewrite <- !app_assoc. simpl. rewrite orAt_app. done.
  - rewrite appendVarInt_app, app_assoc. done.
Qed.

Lemma appendVarInt_nonempty n i : exists b tl, appendVarInt [] n i = b :: tl.
Proof.
  unfold appendVarInt. destruct (_ <? _); [eauto|]. rewrite appendVarIntLoop_app. simpl. eauto.
Qed.

Lemma orAt_varint dst n i x : orAt (appendVarInt dst n i) (length dst) x = dst ++ orAt (appendVarInt [] n i) 0 x.
Proof.
  rewrite appendVarInt_app. destruct (appendVarInt_nonempty n i) as (b & tl & ->).
  rewrite orAt_app. done.
Qed.

Lemma appendIndexed_app dst i : appendIndexed dst i = dst ++ appendIndexed [] i.
Proof. unfold appendIndexed. rewrite orAt_varint. done. Qed.

Lemma appendTableSize_app dst v : appendTableSize dst v = dst ++ appendTableSize [] v.
Proof. unfold appendTableSize. rewrite orAt_varint. done. Qed.

Lemma appendNewName_app dst f ix : appendNewName dst f ix = dst ++ appendNewName [] f ix.
Proof.
  unfold appendNewName. rewrite appendHpackString_app, (appendHpackString_app (dst ++ _)).
  rewrite (appendHpackString_app (appendHpackString _ _)), (appendHpackString_app ([] ++ _)).
  by rewrite <- !app_assoc.
Qed.

Lemma appendIndexedName_app dst f i ix : appendIndexedName dst f i ix = dst ++ appendIndexedName [] f i ix.
Proof.
  unfold appendIndexedName. rewrite appendHpackString_app, orAt_varint.
  rewrite (appendHpackString_app (orAt _ _ _)). by rewrite <- !app_assoc.
Qed.

(** The bytes of [WriteField] are the size updates followed by the field. *)
Lemma encodeField_split e f e1 buf :
  writeSizeUpdates e = (e1, buf) -> e_tableSizeUpdate e1 = false /\
  encodeField e f = (r ← encodeField e1 f; let '(e', bs) := (r : Encoder * bytes) in Some (e', buf ++ bs)).
Proof.
  intros E. assert (e_tableSizeUpdate e1 = false) as Hu.
  { unfold writeSizeUpdates in E. destruct (e_tableSizeUpdate e) eqn:?; simplify_eq; done. }
  split; [done|]. unfold encodeField at 1 2. rewrite E. unfold writeSizeUpdates. rewrite Hu.
  destruct (searchTable e1 f) as [[i b]|]; simpl; [|done].
  destruct b; simpl; [by rewrite appendIndexed_app|].
  destruct (if shouldIndex e1 f then _ else _); simpl; [|done].
  rewrite Hu. destruct (i =? 0); [by rewrite appendNewName_app|by rewrite appendIndexedName_app].
Qed.

(** ** Bounded representations *)
Lemma orAt_length (l : bytes) i x : zlen (orAt l i x) = zlen l.
Proof. unfold orAt, zlen. by rewrite length_alter. Qed.

Lemma appendHpackString_length s : bytes_ok s -> zlen s < 2 ^ 32 -> zlen (appendHpackString [] s) <= zlen s + 6.
Proof.
  intros Hs Hlen. unfold appendHpackString. pose proof (zlen_nonneg s).
  assert (HuffmanEncodeLength s = zlen (AppendHuffmanString [] s)) as Hhl.
  { symmetry. apply AppendHuffmanString_length; [done|lia]. }
  pose proof (zlen_nonneg (AppendHuffmanString [] s)).
  destruct (Z.ltb_spec (HuffmanEncodeLength s) (zlen s)).
  - rewrite orAt_length, AppendHuffmanString_app, zlen_app.
    pose proof (appendVarInt_length 4 7 (HuffmanEncodeLength s) ltac:(lia) ltac:(simpl; lia)). lia.
  - rewrite zlen_app. pose proof (appendVarInt_length 4 7 (zlen s) ltac:(lia) ltac:(simpl; lia)). lia.
Qed.

(** Within what the decoder buffers. *)
Definition fits (d : Decoder) (bs : bytes) : Prop := d_maxStrLen d = 0 \/ zlen bs <= 2 * (d_maxStrLen d + 8).

Lemma fits_varint d n i x : 0 <= d_maxStrLen d -> 0 <= n -> 0 <= i < 2 ^ 63 -> fits d (orAt (appendVarInt [] n i) 0 x).
Proof.
  intros Hd Hn Hi. right. rewrite orAt_length. pose proof (appendVarInt_length 8 n i Hn ltac:(simpl; lia)). lia.
Qed.

Section emit.
Context {St : Type} (emit : HeaderField -> bool -> St -> St * bool).

(** What decoding one complete representation does: consume it and emit [f]. *)
Definition decodes_to (d d1 : Decoder) (bs : bytes) (f : HeaderField) : Prop :=
  bs <> [] /\ fits d bs /\ forall s rest,
  parseHeaderFieldRepr emit d s (bs ++ rest) =
  let '(d', s', err) := callEmit emit d1 s f in Some (d', s', rest, err).

Lemma decode_indexed d f i :
  0 <= i < 2 ^ 63 -> found_at d f i true -> 0 <= d_maxStrLen d -> decodes_to d d (appendIndexed [] i) f.
Proof.
  intros Hi [Hf Hb] Hd. pose proof (fits_varint d 7 i 128 Hd ltac:(lia) Hi) as Hfit. destruct (Hb eq_refl) as [Hne Hs]. destruct (Hf Hne) as (g & Hg & Hn & Hv).
  unfold appendIndexed. destruct (readVarInt_append 7 i 128) as (b & tl & E & Hr & Hread); [lia|done|done|].
  rewrite E in *. simpl length. split; [done|]. split; [exact Hfit|]. intros s rest.
  change (orAt (b :: tl) 0 128) with (Z.lor b 128 :: tl). simpl app.
  rewrite parse_indexed by done. unfold parseFieldIndexed. rewrite Hread. simpl. rewrite Hg.
  rewrite Hn, Hv by done. destruct f; simpl in *. by rewrite Hs.
Qed.

Lemma literal_fits d f i (indexing : bool) :
  0 <= i < 2 ^ 63 -> str_allowed d (hf_Name f) -> str_allowed d (hf_Value f) ->
  fits d (if i =? 0 then appendNewName [] f indexing else appendIndexedName [] f i indexing).
Proof.
  intros Hi (Hnb & Hn & _ & Hna) (Hvb & Hv & [Hm _] & Hva). destruct Hna as [|Hna]; [by left|].
  destruct Hva as [|Hva]; [by left|]. right.
  pose proof (appendHpackString_length _ Hnb Hn). pose proof (appendHpackString_length _ Hvb Hv).
  destruct (Z.eqb_spec i 0).
  - unfold appendNewName. rewrite appendHpackString_app, (appendHpackString_app ([] ++ _)), !zlen_app.
    change (zlen []) with 0. change (zlen [_]) with 1. lia.
  - unfold appendIndexedName. rewrite appendHpackString_app, zlen_app, orAt_length.
    pose proof (appendVarInt_length 8 (if indexing then 6 else 4) i ltac:(destruct indexing; lia) ltac:(simpl; lia)). lia.
Qed.

Lemma decode_literal d dt f i (indexing : bool) :
  0 <= i < 2 ^ 63 -> found_at d f i false -> field_ok d f -> d_emitEnabled d = true ->
  (indexing = true -> hf_Sensitive f = false) ->
  (if indexing then dt_add (d_dynTab d) f else Some (d_dynTab d)) = Some dt ->
  decodes_to d (d_setDynTab d dt)
    (if i =? 0 then appendNewName [] f indexing else appendIndexedName [] f i indexing) f.
Proof.
  intros Hi [Hf _] (Hname & Hval & _) Hen Hix Hadd. pose proof (literal_fits d f i indexing Hi Hname Hval) as Hfit.
  pose proof (parse_literal emit indexing (hf_Sensitive f) i Hix Hi) as Hp.
  destruct (literal_kind indexing (hf_Sensitive f)) as [n it] eqn:Hk.
  destruct Hp as (b & tl & E & Hparse).
  assert (indexed it = indexing /\ sensitive it = hf_Sensitive f) as [Hit1 Hit2].
  { unfold literal_kind in Hk. destruct (hf_Sensitive f), indexing; simplify_eq; try done. by specialize (Hix eq_refl). }
  destruct (readString_append d [] (hf_Value f) true Hval) as (vv & Ev & _ & Hrv).
  assert (exists vn, (if i =? 0 then appendNewName [] f indexing else appendIndexedName [] f i indexing) =
            Z.lor b (encodeTypeByte indexing (hf_Sensitive f)) :: tl ++ vn ++ vv /\
            forall rest, literalName d i (vn ++ rest) true = Some (inl (hf_Name f, rest)))
    as (vn & Ebs & Hln).
  { unfold literalName. rewrite Z.gtb_ltb. destruct (Z.eqb_spec i 0) as [->|Hne].
    - assert (b = 0 /\ tl = []) as [-> ->] by (destruct indexing; vm_compute in E; simplify_eq; done).
      destruct (readString_append d [] (hf_Name f) true Hname) as (vn & En & _ & Hrn).
      exists vn. split; [|apply Hrn]. unfold appendNewName.
      rewrite appendHpackString_app, Ev, appendHpackString_app, En, <- app_assoc. done.
    - destruct (Hf Hne) as (g & Hg & Hn & _). exists []. split.
      + unfold appendIndexedName. rewrite appendHpackString_app, Ev, E. done.
      + intros rest. destruct (Z.ltb_spec 0 i); [|lia]. rewrite Hg, Hn. done. }
  rewrite Ebs in *. split; [done|]. split; [exact Hfit|]. intros s rest. simpl app. rewrite <- !app_assoc.
  destruct (Hparse d s (vn ++ vv ++ rest)) as [Hr ->]. unfold parseFieldLiteral. rewrite Hr. simpl.
  rewrite Hen. simpl. rewrite Hln. simpl. rewrite Hrv. simpl. rewrite Hit1, Hit2.
  replace (if indexing then _ else _) with (Some dt); [simpl; by destruct f|].
  rewrite <- Hadd. destruct indexing; [|done]. destruct f; simpl in *. by rewrite Hix.
Qed.

Lemma d_setDynTab_id d : d_setDynTab d (d_dynTab d) = d.
Proof. by destruct d. Qed.

Lemma shouldIndex_true e f :
  shouldIndex e f = true -> hf_Sensitive f = false.
Proof. unfold shouldIndex. intros [H _]%andb_true_iff. by apply negb_true_iff. Qed.

(** Both tables take the same entry: the relation is preserved. *)
Lemma synced_add e d f dte dtd :
  synced e d -> e_tableSizeUpdate e = false ->
  dt_ok dte -> dt_ents dte = trim (dt_maxSize (e_dynTab e)) (dt_ents (e_dynTab e) ++ [f]) ->
  dt_maxSize dte = dt_maxSize (e_dynTab e) ->
  dt_ok dtd -> dt_ents dtd = trim (dt_maxSize (d_dynTab d)) (dt_ents (d_dynTab d) ++ [f]) ->
  dt_maxSize dtd = dt_maxSize (d_dynTab d) -> dt_allowedMaxSize dtd = dt_allowedMaxSize (d_dynTab d) ->
  synced (mkEnc dte (e_minSize e) (e_maxSizeLimit e) (e_tableSizeUpdate e)) (d_setDynTab d dtd).
Proof.
  intros [Henc Hdec [old Hsuf] Hmax Hmin Hlim Hsmall] Hu Hoke Hee Hem Hokd Hed Hdm Hda.
  destruct (Hmax Hu) as [Hmx Hminv]. split; simpl; try done.
  - rewrite Hee, Hed, Hsuf, Hmx, <- app_assoc. apply trim_app.
  - intros _. by rewrite Hdm, Hem.
  - rewrite Hminv. destruct Hoke as (_ & Hs & Hle & Hm). unfold dt_ents. rewrite <- Hs.
    unfold is_u32, uint32Max in *. lia.
  - rewrite Hem, Hda. done.
  - rewrite Hda, Hdm. done.
Qed.

Lemma field_step e d f :
  synced e d -> e_tableSizeUpdate e = false -> d_emitEnabled d = true -> field_ok d f ->
  dt_added (e_dynTab e) + 1 < 2 ^ 64 -> dt_added (d_dynTab d) + 1 < 2 ^ 64 ->
  exists e' bs dt, encodeField e f = Some (e', bs) /\ decodes_to d (d_setDynTab d dt) bs f /\
    synced e' (d_setDynTab d dt) /\ e_tableSizeUpdate e' = false /\
    dt_added (e_dynTab e') <= dt_added (e_dynTab e) + 1 /\ dt_added dt <= dt_added (d_dynTab d) + 1 /\
    dt_allowedMaxSize dt = dt_allowedMaxSize (d_dynTab d).
Proof.
  intros Hsyn Hu Hen Hf Hae Had. unfold encodeField, writeSizeUpdates. rewrite Hu.
  destruct (searchTable_at e d f Hsyn) as (i & b & -> & Hi & Hfound). simpl.
  pose proof (syn_enc _ _ Hsyn) as Hoke. pose proof (syn_dec _ _ Hsyn) as Hokd.
  destruct b.
  { exists e, (appendIndexed [] i), (d_dynTab d). rewrite d_setDynTab_id.
    split_and!; [done|apply decode_indexed; [done|done|apply Hf]|done|done|lia|lia|done]. }
  pose proof (syn_small _ _ Hsyn) as [? ?]. pose proof (syn_limit _ _ Hsyn) as [? ?].
  pose proof Hf as (_ & _ & Hraw).
  destruct (shouldIndex e f) eqn:Hix.
  - destruct (dt_add_ok (e_dynTab e) f Hoke) as (dte & Ee & Hoke' & Hee & Hem & _ & Hea);
      [destruct Hoke as (_ & _ & ? & _); lia|done|].
    destruct (dt_add_ok (d_dynTab d) f Hokd) as (dtd & Ed & Hokd' & Hed & Hdm & Hda & Hdd);
      [destruct Hokd as (_ & _ & ? & _); lia|done|].
    rewrite Ee. simpl. eexists _, _, dtd. split; [done|]. split.
    { apply decode_literal; auto. intros _. by eapply shouldIndex_true. }
    split; [by apply (synced_add e d f)|]. simpl. rewrite Hea, Hdd. split_and!; [done|lia|lia|done].
  - simpl. eexists _, _, (d_dynTab d). split; [done|]. split.
    { apply decode_literal; auto; done. }
    rewrite d_setDynTab_id. replace (mkEnc _ _ _ _) with e by (destruct e; simpl in *; congruence).
    auto with lia.
Qed.

(** ** Size updates *)
Lemma update_step d s v rest :
  dt_ok (d_dynTab d) -> d_firstField d = true \/ dt_ents (d_dynTab d) = [] ->
  0 <= v <= dt_allowedMaxSize (d_dynTab d) -> dt_allowedMaxSize (d_dynTab d) < 2 ^ 31 ->
  exists dt, dt_setMaxSize (d_dynTab d) v = Some dt /\
    parseHeaderFieldRepr emit d s (appendTableSize [] v ++ rest) =
      Some (d_setDynTab d dt, s, rest, None).
Proof.
  intros Hok Hfirst Hv Hal.
  destruct (dt_setMaxSize_ok (d_dynTab d) v Hok) as (dt & E & _); [unfold is_u32; lia|].
  exists dt. split; [done|]. unfold appendTableSize.
  destruct (readVarInt_append 5 v 32) as (b & tl & Ev & Hb & Hr); [lia|lia|done|].
  rewrite Ev. change (orAt (b :: tl) (length []) 32) with (Z.lor b 32 :: tl). cbn [app].
  rewrite parse_size_update by done. unfold parseDynamicTableSizeUpdate.
  replace (negb (d_firstField d) && (dt_size (d_dynTab d) >? 0)) with false.
  2: { destruct Hfirst as [->|He]; [done|]. destruct Hok as (_ & -> & _). fold (dt_ents (d_dynTab d)).
       rewrite He. symmetry. apply andb_false_r. }
  rewrite Hr. simpl. rewrite Z.gtb_ltb. destruct (Z.ltb_spec (dt_allowedMaxSize (d_dynTab d)) v); [lia|].
  rewrite u32_id by (unfold is_u32; lia). rewrite E. done.
Qed.
End emit.

(** ** The decoder's loop *)
Section reprs.
Context {St : Type} (emit : HeaderField -> bool -> St -> St * bool).

(** [bs] is a sequence of complete representations that take the decoder and the
    callback's state from [(d, s)] to [(d', s')]. *)
Inductive reprs : Decoder -> St -> bytes -> Decoder -> St -> Prop :=
| reprs_nil d s : reprs d s [] d s
| reprs_cons d s b d1 s1 bs d' s' :
    b <> [] -> fits d b -> (forall rest, parseHeaderFieldRepr emit d s (b ++ rest) = Some (d1, s1, rest, None)) ->
    reprs (d_setFirstField d1 false) s1 bs d' s' -> reprs d s (b ++ bs) d' s'.

Lemma reprs_app d s b1 d1 s1 b2 d2 s2 :
  reprs d s b1 d1 s1 -> reprs d1 s1 b2 d2 s2 -> reprs d s (b1 ++ b2) d2 s2.
Proof. intros H. revert b2 d2 s2. induction H; intros b2 d2 s2 H'; [done|]. rewrite <- app_assoc. econstructor; eauto. Qed.

Lemma reprs_one d s bs d1 s1 :
  bs <> [] -> fits d bs -> (forall rest, parseHeaderFieldRepr emit d s (bs ++ rest) = Some (d1, s1, rest, None)) ->
  reprs d s bs (d_setFirstField d1 false) s1.
Proof. intros Hne Hf Hp. rewrite <- (app_nil_r bs). econstructor; [done..|]. constructor. Qed.

(** Each representation is one round of the loop. *)
Lemma writeLoop_reprs d s bs d' s' : reprs d s bs d' s' ->
  forall plen fuel rest, (length (bs ++ rest) <= fuel)%nat ->
  exists fuel', (length rest <= fuel')%nat /\
    writeLoop emit fuel plen d s (bs ++ rest) = writeLoop emit fuel' plen d' s' rest.
Proof.
  induction 1 as [d s|d s b d1 s1 bs d' s' Hne _ Hp _ IH]; intros plen fuel rest Hf; [by exists fuel|].
  destruct b as [|c b]; [done|]. destruct fuel as [|fuel]; [simpl in Hf; lia|].
  rewrite <- app_assoc in *. specialize (Hp (bs ++ rest)).
  destruct (IH plen fuel rest) as (fuel' & Hl & E); [rewrite length_app in Hf; simpl in Hf; lia|].
  exists fuel'. split; [done|]. rewrite <- E. simpl in Hp |- *. rewrite Hp. done.
Qed.

(** The callback takes the fields [fs] and stays enabled. *)
Fixpoint emit_all (s : St) (fs : list HeaderField) : option St :=
  match fs with
  | [] => Some s
  | f :: fs => match emit f true s with (s1, true) => emit_all s1 fs | _ => None end
  end.

Lemma callEmit_ok d s f s1 :
  field_ok d f -> d_emitEnabled d = true -> emit f true s = (s1, true) -> callEmit emit d s f = (d, s1, None).
Proof.
  intros ((_ & _ & Hm & Hn) & (_ & _ & _ & Hv) & _) Hen E. unfold callEmit. rewrite Hen, E.
  replace (negb _ && _) with false; [simpl; by destruct d; simpl in *; subst|].
  destruct Hn as [->|Hn]; [done|]. destruct Hv as [->|Hv]; [done|].
  rewrite !Z.gtb_ltb. destruct (Z.ltb_spec (d_maxStrLen d) (zlen (hf_Name f))); [lia|].
  destruct (Z.ltb_spec (d_maxStrLen d) (zlen (hf_Value f))); [lia|]. symmetry. apply andb_false_r.
Qed.
End reprs.

Lemma emit_all_collect fs : forall hs, emit_all collect hs fs = Some (hs ++ fs).
Proof.
  induction fs as [|f fs IH]; intros hs; simpl; [by rewrite app_nil_r|]. rewrite IH, <- app_assoc. done.
Qed.

(** A decoder between two representations of the same block. *)
Definition decoding (d : Decoder) : Prop := d_emitEnabled d = true /\ d_saveBuf d = [].

Definition same_settings (d d' : Decoder) : Prop :=
  d_maxStrLen d' = d_maxStrLen d /\ d_emitEnabled d' = d_emitEnabled d /\ d_saveBuf d' = d_saveBuf d /\
  dt_allowedMaxSize (d_dynTab d') = dt_allowedMaxSize (d_dynTab d).

Lemma same_settings_trans d1 d2 d3 : same_settings d1 d2 -> same_settings d2 d3 -> same_settings d1 d3.
Proof. intros (?&?&?&?) (?&?&?&?). unfold same_settings. split_and!; congruence. Qed.

Lemma field_ok_same d d' f : same_settings d d' -> field_ok d f -> field_ok d' f.
Proof. intros (E & _). unfold field_ok, str_allowed. by rewrite E. Qed.

Lemma synced_first e d b : synced e d -> synced e (d_setFirstField d b).
Proof. by intros []; split. Qed.

(** ** A header block *)

(** A block in the bytes of a [bytes.Buffer], whose [Write] never fails. *)
Definition bufWrite (w p : bytes) : bytes * (Z * option unit) := (w ++ p, (zlen p, None)).

Fixpoint WriteFields (e : Encoder) (w : bytes) (fs : list HeaderField) : option (Encoder * bytes * option unit) :=
  match fs with
  | [] => Some (e, w, None)
  | f :: fs =>
      r ← WriteField bufWrite tt e w f;
      match (r : Encoder * bytes * option unit) with
      | (e, w, None) => WriteFields e w fs
      | _ => Some r
      end
  end.

Lemma WriteField_buf e w f :
  WriteField bufWrite tt e w f =
  r ← encodeField e f; let '(e', bs) := (r : Encoder * bytes) in Some (e', w ++ bs, None).
Proof.
  unfold WriteField. destruct (encodeField e f) as [[e' bs]|]; simpl; [|done].
  by rewrite Z.eqb_refl.
Qed.

Section block.
Context {St : Type} (emit : HeaderField -> bool -> St -> St * bool).

Lemma fields_step fs : forall e d s s' w,
  synced e d -> e_tableSizeUpdate e = false -> decoding d -> Forall (field_ok d) fs -> emit_all emit s fs = Some s' ->
  dt_added (e_dynTab e) + zlen fs < 2 ^ 64 -> dt_added (d_dynTab d) + zlen fs < 2 ^ 64 ->
  exists e' bs d', WriteFields e w fs = Some (e', w ++ bs, None) /\
    reprs emit d s bs d' s' /\ synced e' d' /\ e_tableSizeUpdate e' = false /\
    same_settings d d' /\
    dt_added (e_dynTab e') <= dt_added (e_dynTab e) + zlen fs /\
    dt_added (d_dynTab d') <= dt_added (d_dynTab d) + zlen fs.
Proof.
  induction fs as [|f fs IH]; intros e d s s' w Hsyn Hu Hdec Hfs Hem Hae Had.
  { simpl in Hem. injection Hem as <-. exists e, [], d. rewrite !app_nil_r.
    split_and!; try done; [constructor|unfold zlen; simpl; lia..]. }
  apply Forall_cons in Hfs as [Hf Hfs]. rewrite zlen_cons in *. pose proof (zlen_nonneg fs).
  simpl in Hem. destruct (emit f true s) as [s1 []] eqn:Ef; [|done].
  destruct (field_step emit e d f) as (e1 & b1 & dt & Ee & (Hne & Hfit & Hd) & Hs1 & Hu1 & Ha1 & Hb1 & Hal);
    [done|done|apply Hdec|done|lia|lia|].
  set (d1 := d_setFirstField (d_setDynTab d dt) false).
  assert (same_settings d d1) as Hsame by done.
  destruct (IH e1 d1 s1 s' (w ++ b1)) as (e' & b2 & d' & Hw & Hr & Hs' & Hu' & Hsame' & Ha & Hb);
    [by apply synced_first|done|apply Hdec| |done|lia|simpl; lia|].
  { eapply Forall_impl; [exact Hfs|]. intros g. by apply field_ok_same. }
  exists e', (b1 ++ b2), d'. rewrite app_assoc. split.
  { simpl. rewrite WriteField_buf, Ee. simpl. exact Hw. }
  split.
  { econstructor; [done|done| |exact Hr]. intros rest. rewrite Hd.
    erewrite callEmit_ok; [done|by eapply field_ok_same|apply Hdec|done]. }
  split_and!; [done|done|by eapply same_settings_trans|lia|simpl in Hb; lia].
Qed.

(** ** Pending size updates *)
Lemma appendTableSize_nonempty v : appendTableSize [] v <> [].
Proof. unfold appendTableSize. destruct (appendVarInt_nonempty 5 v) as (b & tl & ->). done. Qed.

Lemma reprs_update d s v :
  dt_ok (d_dynTab d) -> d_firstField d = true \/ dt_ents (d_dynTab d) = [] -> 0 <= d_maxStrLen d ->
  0 <= v <= dt_allowedMaxSize (d_dynTab d) -> dt_allowedMaxSize (d_dynTab d) < 2 ^ 31 ->
  exists dt, reprs emit d s (appendTableSize [] v) (d_setFirstField (d_setDynTab d dt) false) s /\
    dt_ok dt /\ dt_ents dt = trim v (dt_ents (d_dynTab d)) /\ dt_maxSize dt = v /\
    dt_allowedMaxSize dt = dt_allowedMaxSize (d_dynTab d) /\ dt_added dt = dt_added (d_dynTab d).
Proof.
  intros Hok Hfirst Hmax Hv Hal.
  destruct (dt_setMaxSize_ok (d_dynTab d) v Hok) as (dt & E & Hdt); [unfold is_u32; lia|].
  exists dt. split; [|done]. apply reprs_one; [apply appendTableSize_nonempty|apply fits_varint; lia|].
  intros rest. destruct (update_step emit d s v rest) as (dt' & E' & ->); [done..|].
  by simplify_eq.
Qed.

Lemma trim_suffix_keep v old es : total es <= v -> exists old', trim v (old ++ es) = old' ++ es.
Proof. intros H. destruct (trim_app v old es) as [o Ho]. rewrite (trim_id v es H) in Ho. eauto. Qed.

(** When two updates are pending the first one must empty the decoder's table:
    the decoder takes a second update only then. *)
Definition update_ok (e : Encoder) (d : Decoder) : Prop :=
  e_tableSizeUpdate e = true -> e_minSize e < dt_maxSize (e_dynTab e) ->
  trim (e_minSize e) (dt_ents (d_dynTab d)) = [].

Lemma updates_step e d s e1 buf :
  synced e d -> d_firstField d = true -> 0 <= d_maxStrLen d -> update_ok e d -> writeSizeUpdates e = (e1, buf) ->
  exists d1, reprs emit d s buf d1 s /\ synced e1 d1 /\ e_tableSizeUpdate e1 = false /\
    same_settings d d1 /\ dt_added (e_dynTab e1) = dt_added (e_dynTab e) /\
    dt_added (d_dynTab d1) = dt_added (d_dynTab d).
Proof.
  intros Hsyn Hff Hml Hup E. unfold writeSizeUpdates in E.
  destruct (e_tableSizeUpdate e) eqn:Hu.
  2: { simplify_eq. exists d. split_and!; try done. constructor. }
  specialize (Hup Hu). destruct Hsyn as [Henc Hdec [old Hsuf] _ [Hmin Hmu] Hlim Hsmall].
  pose proof Henc as (_ & Hsz & Hle & Hmx). unfold is_u32 in *. fold (dt_ents (e_dynTab e)) in Hsz.
  simplify_eq. set (m := dt_maxSize (e_dynTab e)) in *.
  assert (forall dt, dt_ok dt -> (exists o, dt_ents dt = o ++ dt_ents (e_dynTab e)) -> dt_maxSize dt = m ->
    dt_allowedMaxSize dt = dt_allowedMaxSize (d_dynTab d) ->
    synced (mkEnc (e_dynTab e) uint32Max (e_maxSizeLimit e) false)
      (d_setFirstField (d_setDynTab d dt) false)) as Hfin.
  { intros dt Hok Hs Hm Ha. split; simpl; try done; [unfold is_u32, uint32Max; lia|by rewrite Ha|].
    rewrite Ha, Hm. lia. }
  destruct (Z.ltb_spec (e_minSize e) m) as [Hlt|Hge].
  - rewrite appendTableSize_app.
    destruct (reprs_update d s (e_minSize e)) as (dt1 & H1 & Hok1 & He1 & _ & Ha1 & Hc1); [auto with lia..|].
    rewrite (Hup Hlt) in He1.
    destruct (reprs_update (d_setFirstField (d_setDynTab d dt1) false) s m)
      as (dt2 & H2 & Hok2 & He2 & Hm2 & Ha2 & Hc2); [simpl; auto with lia..|].
    simpl in He2, Ha2, Hc2.
    exists (d_setFirstField (d_setDynTab d dt2) false). split; [by eapply reprs_app|].
    split; [|unfold same_settings; simpl; split_and!; congruence].
    apply Hfin; [done| |done|congruence].
    exists []. rewrite He2, He1. simpl.
    destruct (trim_suffix_keep (e_minSize e) old (dt_ents (e_dynTab e)) Hmin) as [o Ho].
    rewrite Hsuf, Ho in Hup. by destruct (app_eq_nil _ _ (Hup Hlt)) as [_ ->].
  - destruct (reprs_update d s m) as (dt1 & H1 & Hok1 & He1 & Hm1 & Ha1 & Hc1); [auto with lia..|].
    exists (d_setFirstField (d_setDynTab d dt1) false). split; [done|].
    split; [|unfold same_settings; simpl; split_and!; congruence].
    apply Hfin; try done. rewrite He1, Hsuf. apply trim_suffix_keep. lia.
Qed.

End block.

(** ** Header blocks and connections *)

(** The two ends at the start of a header block. *)
Record ready (e : Encoder) (d : Decoder) : Prop := {
  rdy_synced : synced e d;
  rdy_decoding : decoding d;
  rdy_first : d_firstField d = true;
  rdy_update : update_ok e d
}.

Lemma WriteFields_cons e w f fs e1 bs :
  encodeField e f = Some (e1, bs) -> WriteFields e w (f :: fs) = WriteFields e1 (w ++ bs) fs.
Proof. intros E. simpl. rewrite WriteField_buf, E. done. Qed.

(** The size updates go out with the first field of a block. *)
Lemma WriteFields_updates e w f fs e1 buf :
  writeSizeUpdates e = (e1, buf) -> WriteFields e w (f :: fs) = WriteFields e1 (w ++ buf) (f :: fs).
Proof.
  intros [_ E]%(encodeField_split e f). simpl. rewrite !WriteField_buf, E.
  destruct (encodeField e1 f) as [[e' bs]|]; simpl; [by rewrite app_assoc|done].
Qed.

(** A block is a sequence of representations that hands its fields to the callback. *)
Lemma block_reprs {St} (emit : HeaderField -> bool -> St -> St * bool) e d s s' fs :
  ready e d -> fs <> [] -> Forall (field_ok d) fs -> emit_all emit s fs = Some s' ->
  dt_added (e_dynTab e) + zlen fs < 2 ^ 64 -> dt_added (d_dynTab d) + zlen fs < 2 ^ 64 ->
  exists e' bs d', WriteFields e [] fs = Some (e', bs, None) /\ reprs emit d s bs d' s' /\
    ready e' (d_setFirstField d' true) /\ e_tableSizeUpdate e' = false /\ same_settings d d' /\
    dt_added (e_dynTab e') <= dt_added (e_dynTab e) + zlen fs /\
    dt_added (d_dynTab d') <= dt_added (d_dynTab d) + zlen fs.
Proof.
  intros [Hsyn Hdec Hff Hup] Hne Hfs Hem Hae Had. destruct fs as [|f fs]; [done|].
  assert (0 <= d_maxStrLen d) as Hml by (apply Forall_cons in Hfs as [((_ & _ & ? & _) & _) _]; lia).
  destruct (writeSizeUpdates e) as [e1 buf] eqn:E.
  destruct (updates_step emit e d s e1 buf Hsyn Hff Hml Hup E) as (d1 & Ha1 & Hs1 & Hu1 & Hss1 & Hc1 & Hd1).
  destruct (fields_step emit (f :: fs) e1 d1 s s' buf) as (e' & bs & d' & Hw & Ha2 & Hs2 & Hu2 & Hss2 & Hc2 & Hd2);
    [done|done| | |done|lia|lia|].
  { destruct Hdec as [? ?], Hss1 as (_ & ? & ? & _). split; congruence. }
  { eapply Forall_impl; [exact Hfs|]. intros g. by apply field_ok_same. }
  pose proof (same_settings_trans _ _ _ Hss1 Hss2) as Hss.
  exists e', (buf ++ bs), d'. split; [by erewrite WriteFields_updates|]. split; [by eapply reprs_app|].
  split; [|split_and!; try done; lia].
  split; [by apply synced_first| |done|intros Hu; congruence].
  destruct Hdec as [? ?], Hss as (_ & ? & ? & _). split; simpl; congruence.
Qed.

(** Running the loop over a whole block leaves nothing buffered. *)
Lemma DecodeFull_reprs d bs d' hs' :
  decoding d -> reprs collect d [] bs d' hs' -> d_saveBuf d' = [] -> hs' <> [] ->
  DecodeFull d bs = Some (d_setFirstField d' true, inl hs').
Proof.
  intros [_ Hsave] Hr Hs' Hne. pose proof (writeLoop_reprs _ _ _ _ _ _ Hr) as Hadv.
  unfold DecodeFull, Write. destruct bs as [|b bs].
  { destruct (Hadv 0 0%nat []) as (fuel & _ & E); [done|]. simpl in E. destruct fuel; simpl in E; congruence. }
  rewrite Hsave. destruct (Hadv (zlen (b :: bs)) (length (b :: bs)) []) as (fuel & _ & E).
  { rewrite app_nil_r. lia. }
  rewrite app_nil_r in E. rewrite E. destruct fuel; simpl; unfold Close; rewrite Hs'; done.
Qed.

Lemma block_step e d fs :
  ready e d -> Forall (field_ok d) fs ->
  dt_added (e_dynTab e) + zlen fs < 2 ^ 64 -> dt_added (d_dynTab d) + zlen fs < 2 ^ 64 ->
  exists e' bs d', WriteFields e [] fs = Some (e', bs, None) /\ DecodeFull d bs = Some (d', inl fs) /\
    ready e' d' /\ (fs <> [] -> e_tableSizeUpdate e' = false) /\ same_settings d d' /\
    dt_added (e_dynTab e') <= dt_added (e_dynTab e) + zlen fs /\
    dt_added (d_dynTab d') <= dt_added (d_dynTab d) + zlen fs.
Proof.
  intros Hr Hfs Hae Had. destruct fs as [|f fs].
  { exists e, [], d. destruct Hr as [Hsyn Hdec Hff Hup]. split; [done|]. split.
    { unfold DecodeFull, Close. simpl. rewrite (proj2 Hdec). destruct d; simpl in *. by rewrite Hff. }
    split; [done|]. unfold zlen; simpl. split_and!; [done|done..|lia|lia]. }
  destruct (block_reprs collect e d [] ([] ++ f :: fs) (f :: fs)) as (e' & bs & d' & Hw & Hre & Hr' & Hu & Hss & Ha & Hb);
    [done|done|done|apply emit_all_collect|done|done|].
  exists e', bs, (d_setFirstField d' true). split; [done|]. split; [|by split_and!].
  destruct Hr as [_ Hdec _ _]. apply DecodeFull_reprs; [done|done| |done]. destruct Hdec as [_ H0], Hss as (_ & _ & -> & _). done.
Qed.

(** The encoder's size settings, as the peer's SETTINGS make a program call them. *)
Inductive setting := SetSize (v : Z) | SetLimit (v : Z).

Definition apply_setting (e : Encoder) (st : setting) : option Encoder :=
  match st with
  | SetSize v => SetMaxDynamicTableSize e v
  | SetLimit v => SetMaxDynamicTableSizeLimit e v
  end.

(** A limit the peer announced is one its decoder allows. *)
Definition setting_ok (allowed : Z) (st : setting) : Prop :=
  match st with SetSize v => is_u32 v | SetLimit v => 0 <= v <= allowed end.

Lemma trim_drop v es : exists old, es = old ++ trim v es.
Proof. destruct (trim_suffix v es) as (n & _ & ->). exists (take n es). by rewrite take_drop. Qed.

(** Shrinking the encoder's table keeps its entries a suffix of the decoder's. *)
Lemma synced_resize e d dt minSize limit :
  synced e d -> dt_ok dt -> (exists v, dt_ents dt = trim v (dt_ents (e_dynTab e))) ->
  total (dt_ents dt) <= minSize -> is_u32 minSize ->
  dt_maxSize dt <= limit <= dt_allowedMaxSize (d_dynTab d) ->
  synced (mkEnc dt minSize limit true) d.
Proof.
  intros [Henc Hdec [old Hsuf] _ _ _ Hsmall] Hok [v Hv] Hmin Hu Hlim. split; simpl; try done.
  destruct (trim_drop v (dt_ents (e_dynTab e))) as [o Ho]. exists (old ++ o).
  rewrite Hsuf, Hv, <- app_assoc. by rewrite <- Ho.
Qed.

Lemma total_trim_le v es : total (trim v es) <= total es.
Proof. destruct (trim_drop v es) as [o Ho]. rewrite Ho at 2. rewrite total_app. pose proof (total_nonneg o). lia. Qed.

(** The settings preserve the relation; a single change between two blocks also
    leaves an update the decoder accepts. *)
Lemma setting_step e d st :
  synced e d -> setting_ok (dt_allowedMaxSize (d_dynTab d)) st ->
  exists e', apply_setting e st = Some e' /\ synced e' d /\
    dt_added (e_dynTab e') = dt_added (e_dynTab e) /\
    (e_tableSizeUpdate e = false -> update_ok e' d).
Proof.
  intros Hsyn Hst. pose proof Hsyn as [Henc Hdec _ Hmax [Hmin Hmu] Hlim Hsmall].
  pose proof Henc as (_ & _ & _ & Hmx). unfold is_u32 in *.
  destruct st as [v|v]; simpl in Hst |- *.
  - unfold SetMaxDynamicTableSize, is_u32 in *.
    set (v' := if v >? e_maxSizeLimit e then e_maxSizeLimit e else v).
    assert (0 <= v' <= e_maxSizeLimit e) as Hv' by (unfold v'; rewrite Z.gtb_ltb; destruct (Z.ltb_spec (e_maxSizeLimit e) v); lia).
    destruct (dt_setMaxSize_ok (e_dynTab e) v' Henc) as (dt & -> & Hok & He & Hm & Ha & Hc); [unfold is_u32; lia|].
    simpl. eexists. split; [done|]. split; [|split; [done|]].
    + apply (synced_resize e); [done|done|by exists v'|..]; [|unfold is_u32; destruct (Z.ltb_spec v' (e_minSize e)); lia|lia].
      pose proof (trim_total v' (dt_ents (e_dynTab e)) ltac:(lia)).
      pose proof (total_trim_le v' (dt_ents (e_dynTab e))). rewrite He.
      destruct (Z.ltb_spec v' (e_minSize e)); lia.
    + intros Hf _. simpl. destruct (Hmax Hf) as [_ ->]. unfold uint32Max.
      destruct (Z.ltb_spec v' 0xffffffff); lia.
  - unfold SetMaxDynamicTableSizeLimit. rewrite Z.gtb_ltb.
    destruct (Z.ltb_spec v (dt_maxSize (e_dynTab e))) as [Hlt|Hge].
    + destruct (dt_setMaxSize_ok (e_dynTab e) v Henc) as (dt & -> & Hok & He & Hm & Ha & Hc); [unfold is_u32; lia|].
      simpl. eexists. split; [done|]. split; [|split; [done|]].
      * apply (synced_resize e); [done|done|by exists v| |done|lia].
        rewrite He. pose proof (total_trim_le v (dt_ents (e_dynTab e))). lia.
      * intros Hf _. simpl. destruct (Hmax Hf) as [_ ->]. unfold uint32Max. lia.
    + eexists. split; [done|]. split; [|split; [done|]].
      * destruct Hsyn as [? ? ? ? ? ? ?]. split; simpl; try done. lia.
      * intros Hf Hu. simpl in Hu. congruence.
Qed.

(** One connection: before each block at most one change of size. *)
Fixpoint exchange (e : Encoder) (d : Decoder) (rounds : list (option setting * list HeaderField))
  : option (list (list HeaderField + hpack_error)) :=
  match rounds with
  | [] => Some []
  | (st, fs) :: rounds =>
      e ← match st with Some st => apply_setting e st | None => Some e end;
      r ← WriteFields e [] fs;
      let '(e, bs, _) := (r : Encoder * bytes * option unit) in
      r ← DecodeFull d bs;
      let '(d, res) := (r : Decoder * (list HeaderField + hpack_error)) in
      rest ← exchange e d rounds;
      Some (res :: rest)
  end.

Definition round_ok (d : Decoder) (r : option setting * list HeaderField) : Prop :=
  (forall st, r.1 = Some st -> setting_ok (dt_allowedMaxSize (d_dynTab d)) st) /\
  r.2 <> [] /\ Forall (field_ok d) r.2.

Definition fields_total (rounds : list (option setting * list HeaderField)) : Z :=
  foldr (fun r n => zlen r.2 + n) 0 rounds.

Lemma fields_total_nonneg rounds : 0 <= fields_total rounds.
Proof. induction rounds as [|r rounds IH]; simpl; [done|]. pose proof (zlen_nonneg r.2). lia. Qed.

Lemma exchange_ok rounds : forall e d,
  ready e d -> e_tableSizeUpdate e = false -> Forall (round_ok d) rounds ->
  dt_added (e_dynTab e) + fields_total rounds < 2 ^ 64 ->
  dt_added (d_dynTab d) + fields_total rounds < 2 ^ 64 ->
  exchange e d rounds = Some (map (fun r => inl r.2) rounds).
Proof.
  induction rounds as [|[st fs] rounds IH]; intros e d Hr Hu Hrs Hae Had; simpl; [done|].
  apply Forall_cons in Hrs as [(Hst & Hne & Hfs) Hrs]. simpl in *.
  pose proof (fields_total_nonneg rounds).
  assert (exists e1, match st with Some st => apply_setting e st | None => Some e end = Some e1 /\
    ready e1 d /\ dt_added (e_dynTab e1) = dt_added (e_dynTab e)) as (e1 & -> & Hr1 & Hc1).
  { destruct st as [st|]; [|by eauto]. destruct Hr as [Hsyn Hdec Hff _].
    destruct (setting_step e d st Hsyn (Hst st eq_refl)) as (e1 & E & Hs1 & Hc & Hok).
    exists e1. split; [done|]. split; [|done]. split; auto. }
  simpl. destruct (block_step e1 d fs Hr1 Hfs) as (e2 & bs & d2 & -> & Hd & Hr2 & Hu2 & Hss & Ha2 & Hb2); [lia..|].
  simpl. rewrite Hd. simpl. rewrite (IH e2 d2); [done|done|by apply Hu2| |lia|lia].
  eapply Forall_impl; [exact Hrs|]. intros [st' fs'] (H1 & H2 & H3). unfold round_ok.
  destruct Hss as (Em & Een & Esb & Eal). simpl in *. rewrite Eal. split; [done|]. split; [done|].
  eapply Forall_impl; [exact H3|]. intros g. by apply field_ok_same.
Qed.

(** The decoder of a fresh connection: the allowed size and the string limit it
    was configured with. *)
Definition configured (d : Decoder) (allowed maxStr : Z) : Decoder :=
  SetMaxStringLength (SetAllowedMaxDynamicTableSize d allowed) maxStr.

Lemma new_ready allowed maxStr :
  4096 <= allowed < 2 ^ 31 ->
  exists e d, NewEncoder = Some e /\ NewDecoder 4096 = Some d /\ ready e (configured d allowed maxStr) /\
    e_tableSizeUpdate e = false /\ dt_added (e_dynTab e) = 0 /\ dt_added (d_dynTab d) = 0.
Proof.
  intros Ha. eexists _, _. split; [vm_compute; reflexivity|]. split; [vm_compute; reflexivity|].
  pose proof (dt_init_ok 4096 ltac:(unfold is_u32; lia)) as Hok.
  split; [|done]. split; [|done..].
  split; simpl; try done; [by exists []|unfold is_u32; lia|lia..].
Qed.

(** C1: on a fresh connection every header block arrives as it was written: for
    any sequence of non-empty blocks, each preceded by at most one change of the
    encoder's table size or of its limit, the decoder returns exactly the fields
    of each block, without error. *)
Theorem connection_roundtrip allowed maxStr e d rounds :
  4096 <= allowed < 2 ^ 31 -> NewEncoder = Some e -> NewDecoder 4096 = Some d ->
  Forall (round_ok (configured d allowed maxStr)) rounds -> fields_total rounds < 2 ^ 64 ->
  exchange e (configured d allowed maxStr) rounds = Some (map (fun r => inl r.2) rounds).
Proof.
  intros Ha He Hd Hrs Hn. destruct (new_ready allowed maxStr Ha) as (e' & d' & He' & Hd' & Hr & Hu & Hc & Hc').
  simplify_eq. apply exchange_ok; try done; [lia|]. unfold dt_added, dt_ents in *. simpl in *. lia.
Qed.

Definition sample_rounds : list (option setting * list HeaderField) :=
  [ (None, [entry ":method" "GET"; entry "foo" "bar"; mkHF (str "cookie") (str "secret") true]);
    (Some (SetSize 50), [entry "foo" "bar"; entry "baz" "qux"]);
    (Some (SetLimit 40), [entry "baz" "qux"]) ].

Lemma connection_roundtrip_witness :
  exists e d, NewEncoder = Some e /\ NewDecoder 4096 = Some d /\
    exchange e (configured d 8192 100) sample_rounds = Some (map (fun r => inl r.2) sample_rounds).
Proof.
  eexists _, _. split; [vm_compute; reflexivity|]. split; [vm_compute; reflexivity|].
  apply connection_roundtrip; [lia|vm_compute; reflexivity|vm_compute; reflexivity| |vm_compute; reflexivity].
  repeat (apply Forall_cons; split); try apply Forall_nil; try done.
  all: split; [intros st [= <-]; simpl; unfold is_u32; lia|split; [done|]].
  all: cbn [snd]; repeat (apply Forall_cons; split); try apply Forall_nil; try done.
  all: unfold field_ok, str_allowed, len_allowed; split_and!; simpl; try apply str_ok; try (vm_compute; intuition congruence).
Defined.

(** The first block [[foo: bar]], then two changes of size, then the same block. *)
Definition resize_twice (lo hi : Z) : option (list (list HeaderField + hpack_error)) :=
  e ← NewEncoder;
  d ← NewDecoder 4096;
  '(e, b1, _) ← WriteFields e [] [entry "foo" "bar"];
  '(d, r1) ← DecodeFull d b1;
  e ← SetMaxDynamicTableSize e lo;
  e ← SetMaxDynamicTableSize e hi;
  '(e, b2, _) ← WriteFields e [] [entry "foo" "bar"];
  '(d, r2) ← DecodeFull d b2;
  Some [r1; r2].

(** The decoder rejects what the encoder sends after its table size is lowered
    and raised again between two blocks.  The encoder announces both sizes, as the
    protocol demands, and the decoder accepts a second size update in a block only
    when its table is empty. *)
Theorem second_size_update_rejected :
  resize_twice 100 4096 = Some [inl [entry "foo" "bar"]; inr errSizeUpdateNotFirst] /\
  resize_twice 30 4096 = Some [inl [entry "foo" "bar"]; inl [entry "foo" "bar"]].
Proof. split; vm_compute; reflexivity. Qed.
