(* ===== verification/HpackDecode.v ===== *)
(** * Package hpack: the decoder on arbitrary input

    [Decoder.Write] on bytes no encoder has to have produced: it always returns,
    keeps the decoder's invariant, buffers a bounded amount, and gives the same
    result however the input is cut into fragments. *)

From S2P Require Import Prelude Bits HpackHuffman HpackTable Hpack.

#[local] Arguments readVarInt : simpl never.
#[local] Arguments huffmanDecode : simpl never.
#[local] Arguments staticTable : simpl never.
#[local] Arguments at_ : simpl never.
#[local] Arguments dt_add : simpl never.
#[local] Arguments dt_setMaxSize : simpl never.

(** ** Readers of a stream

    A reader consumes a non-empty prefix and does not look beyond it; it may ask
    for more, and any other error is final, as is a panic. *)
Definition consumes (p rest : bytes) : Prop := exists used, used <> [] /\ p = used ++ rest.

Definition stream_reader {A} (F : bytes -> option (A * bytes + hpack_error)) : Prop :=
  forall p,
  match F p with
  | None => forall q, F (p ++ q) = None
  | Some (inr errNeedMore) => True
  | Some (inr e) => forall q, F (p ++ q) = Some (inr e)
  | Some (inl (x, rest)) => consumes p rest /\ forall q, F (p ++ q) = Some (inl (x, rest ++ q))
  end.

Lemma consumes_cons b p : consumes (b :: p) p.
Proof. by exists [b]. Qed.

Lemma consumes_trans p q r : consumes p q -> consumes q r -> consumes p r.
Proof. intros (u & Hu & ->) (v & Hv & ->). exists (u ++ v). rewrite app_assoc. destruct u; done. Qed.

Lemma consumes_length p q : consumes p q -> (length q < length p)%nat.
Proof. intros (u & Hu & ->). rewrite length_app. destruct u; [done|]. simpl. lia. Qed.

Lemma consumes_drop p q n : consumes p q -> consumes p (drop n q).
Proof.
  intros (u & Hu & ->). exists (u ++ take n q). rewrite <- app_assoc, take_drop. destruct u; done.
Qed.

Lemma readVarIntLoop_stream i m : stream_reader (fun p => Some (readVarIntLoop i m p)).
Proof.
  intros p. revert i m. induction p as [|b p IH]; intros i m; simpl; [done|].
  destruct (_ =? 0); [split; [apply consumes_cons|done]|].
  destruct (_ >=? 63); [done|].
  specialize (IH (u64 (i + u64 (Z.shiftl (Z.land b 127) m))) (m + 7)).
  simpl in IH. destruct (readVarIntLoop _ _ p) as [[x rest]|e]; [|done].
  destruct IH as [Hc Hq]. split; [|done]. eapply consumes_trans; [apply consumes_cons|done].
Qed.

Lemma readVarInt_stream n : stream_reader (readVarInt n).
Proof.
  intros p. unfold readVarInt. destruct (_ || _) eqn:En; [done|]. destruct p as [|b p]; [done|]. simpl.
  destruct (_ <? Z.shiftl 1 n - 1); [split; [apply consumes_cons|done]|].
  pose proof (readVarIntLoop_stream (if n <? 8 then Z.land b (Z.shiftl 1 n - 1) else b) 0 p) as H.
  simpl in H. destruct (readVarIntLoop _ 0 p) as [[x rest]|e]; [|done].
  destruct H as [Hc Hq]. split; [|done]. eapply consumes_trans; [apply consumes_cons|done].
Qed.

Lemma readString_stream d want : stream_reader (fun p => readString d p want).
Proof.
  intros p. unfold readString. destruct p as [|b p]; [done|]. simpl app.
  pose proof (readVarInt_stream 7 (b :: p)) as H.
  destruct (readVarInt 7 (b :: p)) as [[[len rest]|e]|] eqn:E; simpl; [|destruct e; try done; intros q; simpl in H; by rewrite H|intros q; simpl in H; by rewrite H].
  destruct H as [Hc Hq]. simpl in Hq.
  destruct (negb (d_maxStrLen d =? 0) && _) eqn:Hmax; [intros q; rewrite Hq; simpl; by rewrite Hmax|].
  destruct (Z.ltb_spec (zlen rest) len) as [|Hlen]; [done|].
  assert (forall q, (zlen (rest ++ q) <? len) = false) as Hlen'.
  { intros q. rewrite zlen_app. pose proof (zlen_nonneg q). destruct (Z.ltb_spec (zlen rest + zlen q) len); [lia|done]. }
  assert (forall q, take (Z.to_nat len) (rest ++ q) = take (Z.to_nat len) rest) as Ht.
  { intros q. apply take_app_le. unfold zlen in Hlen. lia. }
  assert (forall q, drop (Z.to_nat len) (rest ++ q) = drop (Z.to_nat len) rest ++ q) as Hd.
  { intros q. apply drop_app_le. unfold zlen in Hlen. lia. }
  assert (consumes (b :: p) (drop (Z.to_nat len) rest)) by (by apply consumes_drop).
  destruct (Z.land b 128 =? 0) eqn:Hb; simpl.
  { split; [done|]. intros q. rewrite Hq. simpl. by rewrite Hmax, Hlen', Ht, Hd. }
  destruct want; [|split; [done|]; intros q; rewrite Hq; simpl; by rewrite Hmax, Hlen', Hd].
  destruct (huffmanDecode _ _) as [[s|[]]|] eqn:Eh; simpl.
  all: try done; try split; try done; intros q; rewrite Hq; simpl; rewrite Hmax, Hlen'; simpl; rewrite Ht, Eh; try done.
  simpl. by rewrite Hd.
Qed.

(** Reading a literal's name, which may take nothing from the buffer. *)
Lemma literalName_stream d i want p :
  match literalName d i p want with
  | None => forall q, literalName d i (p ++ q) want = None
  | Some (inr errNeedMore) => True
  | Some (inr e) => forall q, literalName d i (p ++ q) want = Some (inr e)
  | Some (inl (x, rest)) => (rest = p \/ consumes p rest) /\
      forall q, literalName d i (p ++ q) want = Some (inl (x, rest ++ q))
  end.
Proof.
  unfold literalName. destruct (i >? 0).
  - destruct (at_ d i); [split; [by left|done]|done|done].
  - pose proof (readString_stream d want p) as H.
    destruct (readString d p want) as [[[x rest]|e]|]; [|done..]. destruct H as [Hc Hq]. auto.
Qed.

Section emit.
Context {St : Type} (emit : HeaderField -> bool -> St -> St * bool).
Implicit Types (d : Decoder) (s : St) (p q : bytes).

(** A representation parser: the same at the level of the decoder's state.  Asking
    for more leaves the decoder, the callback's state and the buffer unchanged. *)
Definition stream_parser (F : bytes -> option (Decoder * St * bytes * option hpack_error)) d s : Prop :=
  forall p,
  match F p with
  | None => p <> [] -> forall q, F (p ++ q) = None
  | Some (d', s', rest, None) => consumes p rest /\ forall q, F (p ++ q) = Some (d', s', rest ++ q, None)
  | Some (d', s', rest, Some errNeedMore) => d' = d /\ s' = s /\ rest = p
  | Some (d', s', rest, Some e) => forall q, exists rest', F (p ++ q) = Some (d', s', rest', Some e)
  end.

Lemma callEmit_final d s f : (callEmit emit d s f).2 <> Some errNeedMore.
Proof. unfold callEmit. repeat split_match; done. Qed.

(** The end of every field parser: hand the field to the callback. *)
Ltac finish_emit :=
  match goal with
  | |- context [callEmit emit ?d ?s ?f] =>
      pose proof (callEmit_final d s f); destruct (callEmit emit d s f) as [[? ?] [[]|]] eqn:Ec; simpl in *
  end.

Lemma parseFieldIndexed_stream d s : stream_parser (parseFieldIndexed emit d s) d s.
Proof.
  intros p. unfold parseFieldIndexed. pose proof (readVarInt_stream 7 p) as H.
  destruct (readVarInt 7 p) as [[[i rest]|e]|]; simpl; [|destruct e; auto; intros q; rewrite H; simpl; eauto|intros _ q; by rewrite H].
  destruct H as [Hc Hq]. destruct (at_ d i) as [hf|e|] eqn:Ea; simpl;
    [|intros q; rewrite Hq; simpl; rewrite Ea; eauto|intros _ q; rewrite Hq; simpl; by rewrite Ea].
  finish_emit; try done; try split; try done; intros q; rewrite Hq; simpl; rewrite Ea, Ec; eauto.
Qed.

Lemma parseFieldLiteral_stream n it d s : stream_parser (parseFieldLiteral emit n it d s) d s.
Proof.
  intros p. unfold parseFieldLiteral. pose proof (readVarInt_stream n p) as H.
  destruct (readVarInt n p) as [[[i r1]|e]|]; simpl; [|destruct e; auto; intros q; rewrite H; simpl; eauto|intros _ q; by rewrite H].
  destruct H as [Hc Hq]. set (want := d_emitEnabled d || indexed it).
  pose proof (literalName_stream d i want r1) as Hn.
  destruct (literalName d i r1 want) as [[[name r2]|e]|]; simpl;
    [|destruct e; auto; intros q; rewrite Hq; simpl; rewrite Hn; simpl; eauto|intros _ q; rewrite Hq; simpl; by rewrite Hn].
  destruct Hn as [Hc2 Hn]. pose proof (readString_stream d want r2) as Hv.
  destruct (readString d r2 want) as [[[value r3]|e]|]; simpl;
    [|destruct e; auto; intros q; rewrite Hq; simpl; rewrite Hn; simpl; rewrite Hv; simpl; eauto|intros _ q; rewrite Hq; simpl; rewrite Hn; simpl; by rewrite Hv].
  destruct Hv as [Hc3 Hv].
  assert (consumes p r3).
  { eapply consumes_trans; [done|]. destruct Hc2 as [->|Hc2]; [done|]. by eapply consumes_trans. }
  destruct (if indexed it then _ else _) as [dt|] eqn:Ed; simpl; [|intros _ q; rewrite Hq; simpl; rewrite Hn; simpl; rewrite Hv; simpl; by rewrite Ed].
  finish_emit; try done; try split; try done; intros q; rewrite Hq; simpl; rewrite Hn; simpl; rewrite Hv; simpl;
    rewrite Ed; simpl; rewrite Ec; eauto.
Qed.

Lemma parseDynamicTableSizeUpdate_stream d s : stream_parser (parseDynamicTableSizeUpdate d s) d s.
Proof.
  intros p. unfold parseDynamicTableSizeUpdate. destruct (_ && _); [intros q; eauto|].
  pose proof (readVarInt_stream 5 p) as H.
  destruct (readVarInt 5 p) as [[[i r1]|e]|]; simpl; [|destruct e; auto; intros q; rewrite H; simpl; eauto|intros _ q; by rewrite H].
  destruct H as [Hc Hq]. destruct (i >? _) eqn:Ei; [intros q; rewrite Hq; simpl; rewrite Ei; eauto|].
  destruct (dt_setMaxSize _ _) as [dt|] eqn:Ed; simpl; [|intros _ q; rewrite Hq; simpl; by rewrite Ei, Ed].
  split; [done|]. intros q. rewrite Hq. simpl. by rewrite Ei, Ed.
Qed.

Lemma stream_parser_ext F G d s b p :
  (forall q, F (b :: q) = G (b :: q)) -> stream_parser G d s ->
  match F (b :: p) with
  | None => (b :: p : bytes) <> [] -> forall q, F (b :: p ++ q) = None
  | Some (d', s', rest, None) => consumes (b :: p) rest /\ forall q, F (b :: p ++ q) = Some (d', s', rest ++ q, None)
  | Some (d', s', rest, Some errNeedMore) => d' = d /\ s' = s /\ rest = b :: p
  | Some (d', s', rest, Some e) => forall q, exists rest', F (b :: p ++ q) = Some (d', s', rest', Some e)
  end.
Proof.
  intros E H. specialize (H (b :: p)). simpl in H. rewrite E.
  destruct (G (b :: p)) as [[[[d' s'] rest] [[]|]]|]; try done.
  all: try (intros q; rewrite E; apply H).
  - destruct H as [Hc Hq]. split; [done|]. intros q. by rewrite E.
  - intros _ q. rewrite E. by apply H.
Qed.

Lemma parseHeaderFieldRepr_stream d s : stream_parser (parseHeaderFieldRepr emit d s) d s.
Proof.
  intros [|b p]; [by intros []|]. cbn [app].
  destruct (Z.land b 128 =? 0) eqn:E1; [|eapply stream_parser_ext;
    [intros q; unfold parseHeaderFieldRepr; by rewrite E1|apply parseFieldIndexed_stream]].
  destruct (Z.land b 192 =? 64) eqn:E2; [eapply stream_parser_ext;
    [intros q; unfold parseHeaderFieldRepr; by rewrite E1, E2|apply parseFieldLiteral_stream]|].
  destruct (Z.land b 240 =? 0) eqn:E3; [eapply stream_parser_ext;
    [intros q; unfold parseHeaderFieldRepr; by rewrite E1, E2, E3|apply parseFieldLiteral_stream]|].
  destruct (Z.land b 240 =? 16) eqn:E4; [eapply stream_parser_ext;
    [intros q; unfold parseHeaderFieldRepr; by rewrite E1, E2, E3, E4|apply parseFieldLiteral_stream]|].
  destruct (Z.land b 224 =? 32) eqn:E5; [eapply stream_parser_ext;
    [intros q; unfold parseHeaderFieldRepr; by rewrite E1, E2, E3, E4, E5|apply parseDynamicTableSizeUpdate_stream]|].
  unfold parseHeaderFieldRepr. rewrite E1, E2, E3, E4, E5. simpl. intros q. eauto.
Qed.

(** ** The loop *)
Lemma d_setSaveBuf_nil d : d_saveBuf d = [] -> d_setSaveBuf d [] = d.
Proof. destruct d. simpl. by intros ->. Qed.

(** More fuel than bytes is never spent. *)
Lemma writeLoop_fuel f1 : forall f2 plen d s buf,
  (length buf <= f1)%nat -> (length buf <= f2)%nat ->
  writeLoop emit f1 plen d s buf = writeLoop emit f2 plen d s buf.
Proof.
  induction f1 as [|f1 IH]; intros f2 plen d s buf H1 H2.
  { destruct buf; [|simpl in H1; lia]. by destruct f2. }
  destruct buf as [|b buf]; [by destruct f2|]. destruct f2 as [|f2]; [simpl in H2; lia|].
  cbn [writeLoop]. pose proof (parseHeaderFieldRepr_stream d s (b :: buf)) as Hp.
  destruct (parseHeaderFieldRepr emit d s (b :: buf)) as [[[[d' s'] rest] [e|]]|]; cbn [mbind option_bind]; [done| |done].
  destruct Hp as [Hc%consumes_length _]. simpl in *. apply IH; lia.
Qed.

(** Parsing leaves the saved input and the configuration alone. *)
Definition frame d d' : Prop := d_saveBuf d' = d_saveBuf d /\ d_maxStrLen d' = d_maxStrLen d.

Lemma callEmit_frame d s f d' s' err :
  callEmit emit d s f = (d', s', err) -> frame d d' /\ d_dynTab d' = d_dynTab d.
Proof. unfold callEmit. intros E. repeat case_match; simplify_eq; done. Qed.

Lemma parseHeaderFieldRepr_frame d s p d' s' rest err :
  parseHeaderFieldRepr emit d s p = Some (d', s', rest, err) -> frame d d'.
Proof.
  unfold parseHeaderFieldRepr, parseFieldIndexed, parseFieldLiteral, parseDynamicTableSizeUpdate. intros E.
  repeat (case_match; simplify_option_eq; try done).
  all: match goal with H : callEmit _ _ _ _ = _ |- _ => by apply callEmit_frame in H as [[? ?] _] end.
Qed.

(** A loop that ends without error and without a remainder goes on with what is
    appended; one that saves a remainder is resumed by prepending it. *)
Lemma writeLoop_app fuel : forall plen plen2 d s buf q d1 s1 n1,
  d_saveBuf d = [] -> (length buf <= fuel)%nat ->
  writeLoop emit fuel plen d s buf = Some (d1, s1, n1, None) ->
  forall f2, (length (buf ++ q) <= f2)%nat ->
  writeLoop emit f2 plen2 d s (buf ++ q) =
  writeLoop emit (length (d_saveBuf d1 ++ q)) plen2 (d_setSaveBuf d1 []) s1 (d_saveBuf d1 ++ q).
Proof.
  induction fuel as [|fuel IH]; intros plen plen2 d s buf q d1 s1 n1 Hsave Hf E f2 Hf2.
  { destruct buf; [|simpl in Hf; lia]. simpl in *. simplify_eq. rewrite Hsave, d_setSaveBuf_nil by done. apply writeLoop_fuel; simpl in *; lia. }
  destruct buf as [|b buf].
  { simpl in *. simplify_eq. rewrite Hsave, d_setSaveBuf_nil by done. apply writeLoop_fuel; simpl in *; lia. }
  destruct f2 as [|f2]; [simpl in Hf2; lia|].
  cbn [writeLoop] in E. pose proof (parseHeaderFieldRepr_stream d s (b :: buf)) as Hp.
  destruct (parseHeaderFieldRepr emit d s (b :: buf)) as [[[[d' s'] rest] [e|]]|] eqn:Ep; cbn [mbind option_bind] in E; [| |done].
  - destruct e; try (simplify_eq; fail). destruct Hp as (-> & -> & ->).
    destruct (_ && _) in E; [done|]. simplify_eq. rewrite Hsave. simpl d_saveBuf. rewrite app_nil_l.
    change (d_setSaveBuf (d_setSaveBuf d (b :: buf)) []) with (d_setSaveBuf d []).
    rewrite d_setSaveBuf_nil by done.
    apply writeLoop_fuel; lia.
  - destruct Hp as [Hc Hq]. pose proof (consumes_length _ _ Hc) as Hl.
    cbn [app writeLoop]. change (b :: buf ++ q) with ((b :: buf) ++ q). rewrite Hq. cbn [mbind option_bind].
    eapply IH; [| |exact E|].
    + simpl. destruct (parseHeaderFieldRepr_frame _ _ _ _ _ _ _ Ep) as [-> _]. done.
    + simpl in *; lia.
    + rewrite length_app in *. simpl in *. lia.
Qed.

(** [Write] without the number of bytes it reports. *)
Definition write_result (r : option (Decoder * St * Z * option hpack_error)) :=
  '(d, s, _, err) ← r; Some (d, s, err).

Lemma writeLoop_plen fuel plen plen' d s buf :
  write_result (writeLoop emit fuel plen d s buf) = write_result (writeLoop emit fuel plen' d s buf).
Proof.
  revert d s buf. induction fuel as [|fuel IH]; intros d s [|b buf]; try done.
  cbn [writeLoop]. destruct (parseHeaderFieldRepr emit d s (b :: buf)) as [[[[d' s'] rest] [e|]]|]; cbn [mbind option_bind]; [|done..].
  destruct e; try done. by destruct (_ && _).
Qed.

(** Feeding the decoder a header block in two fragments is feeding it at once.
    Whenever the first [Write] succeeds, the second one ends in the decoder, the
    callback state and the error that a single [Write] of both produces, whatever
    the bytes, the string limit and the callback. *)
Theorem Write_fragments d s p q d1 s1 n1 :
  Write emit d s p = Some (d1, s1, n1, None) -> p <> [] -> q <> [] ->
  write_result (Write emit d s (p ++ q)) = write_result (Write emit d1 s1 q).
Proof.
  intros E Hp Hq. destruct p as [|b p]; [done|]. destruct q as [|c q]; [done|].
  set (d0 := d_setSaveBuf d []). set (buf := d_saveBuf d ++ b :: p).
  assert (forall r, Write emit d s ((b :: p) ++ r) =
    writeLoop emit (length (buf ++ r)) (zlen ((b :: p) ++ r)) d0 s (buf ++ r)) as HW.
  { intros r. unfold Write, buf, d0. rewrite <- app_assoc.
    destruct (d_saveBuf d) eqn:Hs; [|done]. simpl. rewrite d_setSaveBuf_nil by done. done. }
  pose proof (HW []) as HW0. rewrite !app_nil_r in HW0. rewrite HW0 in E.
  rewrite HW. erewrite writeLoop_app; [|done| |exact E|]; [|lia|lia].
  unfold Write. rewrite (writeLoop_plen _ _ (zlen (c :: q))).
  destruct (d_saveBuf d1) eqn:Hs1; [|done]. rewrite d_setSaveBuf_nil by done. done.
Qed.
End emit.

Definition split_field : bytes := [0x40; 3; 102; 111; 111; 3; 98; 97; 114].

Lemma Write_fragments_witness :
  exists d d1 s1 n1, NewDecoder 4096 = Some d /\
    Write collect d [] (take 3 split_field) = Some (d1, s1, n1, None) /\
    write_result (Write collect d [] split_field) = write_result (Write collect d1 s1 (drop 3 split_field)).
Proof.
  eexists _, _, _, _. split; [vm_compute; reflexivity|]. split; [vm_compute; reflexivity|].
  rewrite <- (take_drop 3 split_field) at 1.
  apply (Write_fragments collect) with (n1 := 3); [vm_compute; reflexivity|done|done].
Defined.

(** ** The decoder always returns *)

(** Each round of the Huffman loops yields at most one byte. *)
Lemma decodeInner_length fuel : forall maxLen h h',
  decodeInner fuel maxLen h = Some (inl h') -> zlen (h_buf h') <= zlen (h_buf h) + Z.of_nat fuel.
Proof.
  induction fuel as [|fuel IH]; intros maxLen [buf n cur cb sb] h' E; [done|]. simpl in E.
  repeat case_match; simplify_eq; simpl; try lia.
  all: apply IH in E; simpl in E; rewrite ?zlen_app in E; change (zlen [_]) with 1 in E; lia.
Qed.

Lemma decodeBytes_length v : forall maxLen h h',
  decodeBytes maxLen h v = Some (inl h') -> zlen (h_buf h') <= zlen (h_buf h) + 16 * zlen v.
Proof.
  induction v as [|b v IH]; intros maxLen [buf n cur cb sb] h' E; cbn [decodeBytes] in E.
  { simplify_eq. unfold zlen at 3. simpl. lia. }
  destruct (decodeInner _ _ _) as [[h1|]|] eqn:E1; [|done..].
  apply decodeInner_length in E1. apply IH in E. simpl in E1. rewrite zlen_cons. simpl. lia.
Qed.

Lemma decodeTail_length fuel : forall maxLen h h',
  decodeTail fuel maxLen h = Some (inl h') -> zlen (h_buf h') <= zlen (h_buf h) + Z.of_nat fuel.
Proof.
  induction fuel as [|fuel IH]; intros maxLen [buf n cur cb sb] h' E; [done|]. simpl in E.
  repeat case_match; simplify_eq; simpl; try lia.
  apply IH in E; simpl in E; rewrite ?zlen_app in E; change (zlen [_]) with 1 in E; lia.
Qed.

Lemma huffmanDecode_length maxLen v out :
  huffmanDecode maxLen v = Some (inl out) -> zlen out <= 16 * zlen v + 9.
Proof.
  unfold huffmanDecode. intros E.
  destruct (decodeBytes maxLen _ v) as [[h1|]|] eqn:E1; [|done..]. apply decodeBytes_length in E1.
  destruct (decodeTail 9 maxLen h1) as [[h2|]|] eqn:E2; [|done..]. apply decodeTail_length in E2.
  destruct h2 as [buf n cur cb sb]. repeat case_match; simplify_eq. simpl in *. change (zlen []) with 0 in E1. lia.
Qed.

Lemma readVarInt_total n p : 1 <= n <= 8 -> is_Some (readVarInt n p).
Proof.
  intros Hn. unfold readVarInt. destruct (Z.ltb_spec n 1), (Z.gtb_spec n 8); try lia. simpl.
  destruct p; [eauto|]. destruct (_ <? _); eauto.
Qed.

Lemma readString_total d p want :
  0 <= d_maxStrLen d -> exists r, readString d p want = Some r /\
  match r with inl (s, _) => zlen s <= 16 * zlen p + 9 | inr _ => True end.
Proof.
  intros Hm. unfold readString. destruct p as [|b p]; [by eexists|].
  pose proof (readVarInt_stream 7 (b :: p)) as Hst.
  destruct (readVarInt_total 7 (b :: p)) as [r E]; [lia|]. rewrite E in *. cbn [mbind option_bind].
  destruct r as [[len rest]|e]; [|by eexists]. destruct Hst as [Hc%consumes_length _].
  assert (forall k, zlen (take k rest) <= zlen (b :: p)) as Htk.
  { intros k. unfold zlen. rewrite length_take. lia. }
  pose proof (zlen_nonneg (b :: p)).
  destruct (_ && _); [by eexists|]. destruct (_ <? _); [by eexists|].
  destruct (negb (negb _)).
  { eexists. split; [done|]. destruct want; [specialize (Htk (Z.to_nat len)); lia|]. change (zlen []) with 0; lia. }
  destruct want; [|eexists; split; [done|]; cbv iota; change (zlen []) with 0; lia].
  destruct (huffmanDecode_returns (d_maxStrLen d) (take (Z.to_nat len) rest) Hm) as (r & Er & _). rewrite Er. cbn [mbind option_bind].
  destruct r as [out|[]]; eexists; split; try done.
  apply huffmanDecode_length in Er. specialize (Htk (Z.to_nat len)). cbv iota. lia.
Qed.

Definition decoder_ok (d : Decoder) : Prop :=
  dt_ok (d_dynTab d) /\ dt_maxSize (d_dynTab d) < 2 ^ 30 /\
  0 <= dt_allowedMaxSize (d_dynTab d) < 2 ^ 30 /\ 0 <= d_maxStrLen d.

Lemma rawSize_total es k g : es !! k = Some g -> rawSize g <= total es.
Proof.
  revert k. induction es as [|f es IH]; intros [|k] E; simplify_eq/=.
  - pose proof (total_nonneg es). lia.
  - pose proof (IH k E). pose proof (rawSize_pos f). lia.
Qed.

Lemma static_name_small k g : staticTableEntries !! k = Some g -> zlen (hf_Name g) <= 2 ^ 30.
Proof.
  assert (Forall (fun g => zlen (hf_Name g) <= 2 ^ 30) staticTableEntries) as H.
  { repeat (apply Forall_cons; split; [vm_compute; congruence|]). apply Forall_nil. done. }
  rewrite Forall_lookup in H. apply H.
Qed.

(** Index lookup never leaves the tables, and what it finds is small. *)
Lemma at_total d i :
  decoder_ok d -> 0 <= i ->
  match at_ d i with Ret g => zlen (hf_Name g) <= 2 ^ 30 | Fail _ => True | Panic => False end.
Proof.
  intros ((_ & Hs & Hle & _) & Hmx & _) Hi. unfold at_, maxTableIndex.
  destruct (Z.eqb_spec i 0); [done|]. destruct (Z.leb_spec i (table_len staticTable)) as [Hst|Hst].
  - unfold table_len in Hst. destruct (zget_in (t_ents staticTable) (i - 1)) as [g E]; [lia|]. rewrite E.
    apply zget_lookup in E. destruct staticTable_ok as (_ & He & _). rewrite He in E.
    by apply static_name_small in E.
  - rewrite Z.gtb_ltb. destruct (Z.ltb_spec (table_len (dt_table (d_dynTab d)) + table_len staticTable) i); [done|].
    unfold table_len in *.
    destruct (zget_in (t_ents (dt_table (d_dynTab d))) (zlen (t_ents (dt_table (d_dynTab d))) - (i - zlen (t_ents staticTable))))
      as [g E]; [lia|]. rewrite E. apply zget_lookup in E. apply rawSize_total in E.
    unfold rawSize in E. pose proof (zlen_nonneg (hf_Value g)). lia.
Qed.

Lemma readVarIntLoop_nonneg p : forall i m j rest,
  readVarIntLoop i m p = inl (j, rest) -> 0 <= j.
Proof.
  induction p as [|b p IH]; intros i m j rest E; cbn [readVarIntLoop] in E; [done|].
  destruct (_ =? 0); [simplify_eq; apply u64_range|]. destruct (_ >=? 63); [done|]. by eapply IH.
Qed.

Lemma readVarInt_nonneg n p j rest : n < 8 -> readVarInt n p = Some (inl (j, rest)) -> 0 <= j.
Proof.
  intros Hn E. unfold readVarInt in E. destruct (_ || _) eqn:H; [done|].
  apply orb_false_iff in H as [H _]. breflect. destruct p as [|b p]; [done|].
  destruct (Z.ltb_spec n 8); [|lia]. destruct (_ <? _); simplify_eq.
  - apply Z.land_nonneg. right. rewrite Z.shiftl_mul_pow2 by lia. pose proof (Z.pow_pos_nonneg 2 n). lia.
  - by eapply readVarIntLoop_nonneg.
Qed.

Section total.
Context {St : Type} (emit : HeaderField -> bool -> St -> St * bool).
Implicit Types (d : Decoder) (s : St) (p q : bytes).

(** A parser that returns, keeps the invariant and adds at most one entry. *)
Definition returns d (r : option (Decoder * St * bytes * option hpack_error)) : Prop :=
  exists d' s' rest err, r = Some (d', s', rest, err) /\ decoder_ok d' /\
    dt_added (d_dynTab d') <= dt_added (d_dynTab d) + 1.

Lemma returns_refl d s p err : decoder_ok d -> returns d (Some (d, s, p, err)).
Proof. intros H. exists d, s, p, err. split; [done|]. split; [done|lia]. Qed.

Lemma returns_emit d d1 s f rest :
  decoder_ok d1 -> dt_added (d_dynTab d1) <= dt_added (d_dynTab d) + 1 ->
  returns d (let '(d', s', err) := callEmit emit d1 s f in Some (d', s', rest, err)).
Proof.
  intros H1 H2. destruct (callEmit emit d1 s f) as [[d' s'] err] eqn:E.
  apply callEmit_frame in E as [[_ Em] Et]. exists d', s', rest, err. split; [done|].
  unfold decoder_ok. rewrite Et, Em. done.
Qed.

Lemma parseFieldIndexed_returns d s p : decoder_ok d -> returns d (parseFieldIndexed emit d s p).
Proof.
  intros Hd. unfold parseFieldIndexed. destruct (readVarInt_total 7 p) as [r E]; [lia|]. rewrite E.
  cbn [mbind option_bind]. destruct r as [[i rest]|e]; [|by apply returns_refl].
  apply readVarInt_nonneg in E; [|lia]. pose proof (at_total d i Hd E) as Ha.
  destruct (at_ d i) as [g|e|]; [|by apply returns_refl|done]. apply returns_emit; [done|lia].
Qed.

Lemma parseFieldLiteral_returns n it d s p :
  1 <= n < 8 -> decoder_ok d -> zlen p < 2 ^ 24 -> dt_added (d_dynTab d) + 1 < 2 ^ 64 ->
  returns d (parseFieldLiteral emit n it d s p).
Proof.
  intros Hn Hd Hp Hadd. pose proof Hd as (Hok & Hmx & Hal & Hms). unfold parseFieldLiteral.
  destruct (readVarInt_total n p) as [r E]; [lia|]. pose proof (readVarInt_stream n p) as Hst.
  rewrite E in Hst. rewrite E. cbn [mbind option_bind].
  destruct r as [[i r1]|e]; [|by apply returns_refl].
  apply readVarInt_nonneg in E; [|lia]. destruct Hst as [Hc1%consumes_length _].
  set (want := _ || _). pose proof (literalName_stream d i want r1) as Hst.
  assert (exists r, literalName d i r1 want = Some r /\
    match r with inl (x, _) => zlen x <= 2 ^ 30 | inr _ => True end) as (r & En & Hname).
  { unfold literalName. destruct (i >? 0).
    - pose proof (at_total d i Hd E) as Ha. destruct (at_ d i); [by eexists|by eexists|done].
    - destruct (readString_total d r1 want Hms) as (r & -> & Hr). exists r. split; [done|].
      destruct r as [[x rest]|]; [|done]. unfold zlen in *. lia. }
  rewrite En in Hst. rewrite En. cbn [mbind option_bind].
  destruct r as [[name r2]|e]; [|by apply returns_refl]. destruct Hst as [Hc2 _].
  assert (length r2 <= length r1)%nat by (destruct Hc2 as [->|Hc2%consumes_length]; lia).
  destruct (readString_total d r2 want Hms) as (r & -> & Hval). cbn [mbind option_bind].
  destruct r as [[value r3]|e]; [|by apply returns_refl].
  destruct (indexed it); cbn [mbind option_bind].
  - destruct (dt_add_ok (d_dynTab d) (mkHF name value false) Hok) as (dt & -> & Hok' & _ & Hm & Ha & Hc).
    + destruct Hok as (_ & _ & Hle & _). unfold rawSize, zlen in *. simpl in *. lia.
    + done.
    + cbn [mbind option_bind]. apply returns_emit; [|simpl; lia]. unfold decoder_ok. simpl. rewrite Hm, Ha. done.
  - apply returns_emit; [done|simpl; lia].
Qed.

Lemma parseDynamicTableSizeUpdate_returns d s p :
  decoder_ok d -> returns d (parseDynamicTableSizeUpdate d s p).
Proof.
  intros Hd. pose proof Hd as (Hok & Hmx & Hal & Hms). unfold parseDynamicTableSizeUpdate.
  destruct (_ && _); [by apply returns_refl|].
  destruct (readVarInt_total 5 p) as [r E]; [lia|]. rewrite E. cbn [mbind option_bind].
  destruct r as [[i rest]|e]; [|by apply returns_refl]. apply readVarInt_nonneg in E; [|lia].
  rewrite Z.gtb_ltb. destruct (Z.ltb_spec (dt_allowedMaxSize (d_dynTab d)) i); [by apply returns_refl|].
  rewrite u32_id by (unfold is_u32; lia).
  destruct (dt_setMaxSize_ok (d_dynTab d) i Hok) as (dt & -> & Hok' & _ & Hm & Ha & Hc); [unfold is_u32; lia|].
  cbn [mbind option_bind]. eexists _, _, _, _. split; [done|]. unfold decoder_ok. simpl.
  rewrite Hm, Ha, Hc. split_and!; try done; lia.
Qed.

Lemma parseHeaderFieldRepr_returns d s b p :
  decoder_ok d -> zlen (b :: p) < 2 ^ 24 -> dt_added (d_dynTab d) + 1 < 2 ^ 64 ->
  returns d (parseHeaderFieldRepr emit d s (b :: p)).
Proof.
  intros Hd Hp Ha. unfold parseHeaderFieldRepr.
  destruct (negb _); [by apply parseFieldIndexed_returns|].
  destruct (_ =? 64); [by apply parseFieldLiteral_returns|].
  destruct (Z.land b 240 =? 0); [by apply parseFieldLiteral_returns|].
  destruct (_ =? 16); [by apply parseFieldLiteral_returns|].
  destruct (_ =? 32); [by apply parseDynamicTableSizeUpdate_returns|by apply returns_refl].
Qed.

(** What is buffered for the next call: nothing beyond the configured limit. *)
Definition saved_ok d : Prop :=
  d_maxStrLen d <> 0 -> zlen (d_saveBuf d) <= 2 * (d_maxStrLen d + 8).

Lemma writeLoop_returns fuel : forall plen d s buf,
  decoder_ok d -> d_saveBuf d = [] -> zlen buf <= Z.of_nat fuel -> zlen buf < 2 ^ 24 ->
  dt_added (d_dynTab d) + zlen buf < 2 ^ 64 ->
  exists d' s' n err, writeLoop emit fuel plen d s buf = Some (d', s', n, err) /\ decoder_ok d' /\
    d_maxStrLen d' = d_maxStrLen d /\ saved_ok d' /\ zlen (d_saveBuf d') <= zlen buf /\
    dt_added (d_dynTab d') <= dt_added (d_dynTab d) + zlen buf.
Proof.
  induction fuel as [|fuel IH]; intros plen d s [|b buf] Hd Hs Hf Hp Ha; [|rewrite zlen_cons in Hf; pose proof (zlen_nonneg buf); lia|..].
  1,2: simpl; eexists _, _, _, _; split; [done|]; rewrite Hs; split_and!; try done; [|pose proof (zlen_nonneg (@nil Z)); lia];
    intros _; rewrite Hs; destruct Hd as (_ & _ & _ & ?); unfold zlen; simpl; lia.
  assert (1 <= zlen (b :: buf)) by (rewrite zlen_cons; pose proof (zlen_nonneg buf); lia).
  cbn [writeLoop]. pose proof (parseHeaderFieldRepr_stream emit d s (b :: buf)) as Hst.
  destruct (parseHeaderFieldRepr_returns d s b buf) as (d1 & s1 & rest & err & E & Hd1 & Ha1); [done|done|lia|].
  pose proof (parseHeaderFieldRepr_frame emit _ _ _ _ _ _ _ E) as [Hfs Hfm]. rewrite E in *. cbn [mbind option_bind].
  assert (saved_ok d1) as Hsv.
  { intros _. rewrite Hfs, Hs. destruct Hd1 as (_ & _ & _ & ?). unfold zlen. simpl. lia. }
  assert (zlen (d_saveBuf d1) = 0) as Hz by (by rewrite Hfs, Hs).
  destruct err as [e|].
  - destruct e; try (eexists _, _, _, _; split; [done|]; split_and!; try done; simpl; lia).
    destruct Hst as (-> & -> & ->). destruct (_ && _) eqn:Eb.
    + eexists _, _, _, _. split; [done|]. split_and!; try done; lia.
    + eexists _, _, _, _. split; [done|]. split_and!; try done; [|simpl; rewrite Hs; done|simpl; lia].
      intros Hne. simpl in *. rewrite Hs. cbn [app]. apply andb_false_iff in Eb as [Eb|Eb]; breflect; [done|lia].
  - destruct Hst as [Hc%consumes_length _].
    destruct (IH plen (d_setFirstField d1 false) s1 rest) as (d2 & s2 & n & e & E2 & Hd2 & Hm2 & Hs2 & Hz2 & Ha2).
    + done.
    + simpl. congruence.
    + unfold zlen in *. simpl in *. lia.
    + unfold zlen in *. simpl in *. lia.
    + simpl. unfold zlen in *. simpl in *. lia.
    + exists d2, s2, n, e. simpl in *.
      split_and!; try done; [congruence|unfold zlen in *; simpl in *; lia..].
Qed.

Lemma Write_returns d s p :
  decoder_ok d -> zlen (d_saveBuf d) + zlen p < 2 ^ 24 -> saved_ok d ->
  dt_added (d_dynTab d) + zlen (d_saveBuf d) + zlen p < 2 ^ 64 ->
  exists d' s' n err, Write emit d s p = Some (d', s', n, err) /\ decoder_ok d' /\ saved_ok d' /\
    zlen (d_saveBuf d') <= zlen (d_saveBuf d) + zlen p /\
    dt_added (d_dynTab d') <= dt_added (d_dynTab d) + zlen (d_saveBuf d) + zlen p.
Proof.
  intros Hd Hp Hsv Ha. pose proof (zlen_nonneg (d_saveBuf d)). destruct p as [|b p].
  { eexists _, _, _, _. split; [done|]. split_and!; try done; pose proof (zlen_nonneg (@nil Z)); lia. }
  destruct (writeLoop_returns (length (d_saveBuf d ++ b :: p)) (zlen (b :: p)) (d_setSaveBuf d []) s
    (d_saveBuf d ++ b :: p)) as (d' & s' & n & err & E & Hd' & Hm & Hs & Hz & Ha').
  - done.
  - done.
  - unfold zlen. lia.
  - rewrite zlen_app. lia.
  - rewrite zlen_app. simpl. lia.
  - exists d', s', n, err. rewrite zlen_app in Ha', Hz. simpl in Ha'. split_and!; try done; [|lia].
    rewrite <- E. unfold Write. destruct (d_saveBuf d) eqn:Es; [|done]. by rewrite d_setSaveBuf_nil.
Qed.

(** The decoder survives any input.  From a decoder whose tables are
    well-formed, [Write] of arbitrary bytes returns (no index is out of range, no
    loop runs on), the tables stay well-formed and within the allowed size, and
    with a string limit [m] at most [2 * (m + 8)] bytes stay buffered. *)
Theorem Write_robust d s p :
  decoder_ok d -> zlen (d_saveBuf d) + zlen p < 2 ^ 24 -> saved_ok d ->
  dt_added (d_dynTab d) + zlen (d_saveBuf d) + zlen p < 2 ^ 64 ->
  exists d' s' n err, Write emit d s p = Some (d', s', n, err) /\ decoder_ok d' /\ saved_ok d' /\
    dt_added (d_dynTab d') <= dt_added (d_dynTab d) + zlen (d_saveBuf d) + zlen p.
Proof.
  intros Hd Hp Hsv Ha. destruct (Write_returns d s p Hd Hp Hsv Ha) as (d' & s' & n & err & E & H1 & H2 & _ & H3).
  by exists d', s', n, err.
Qed.
End total.

Lemma new_decoder_ok v d : 0 <= v < 2 ^ 30 -> NewDecoder v = Some d -> decoder_ok d.
Proof.
  intros Hv E. unfold NewDecoder in E.
  destruct (dt_setMaxSize_ok (mkDyn table_init 0 0 v) v) as (dt & E' & Hok & _ & Hm & Ha & _).
  { destruct (dt_init_ok 0) as (Ht & _ & _ & _); [unfold is_u32; lia|]. split_and!; done. }
  { unfold is_u32. lia. }
  rewrite E' in E. cbn [mbind option_bind] in E. injection E as <-. unfold decoder_ok. simpl.
  rewrite Hm, Ha. simpl. split_and!; try done; lia.
Qed.

Lemma Write_robust_witness :
  exists d d' s' n err, NewDecoder 4096 = Some d /\
    Write collect (SetMaxStringLength d 16) [] [0x40; 255; 255; 7; 0x20; 0; 0x80] = Some (d', s', n, err) /\
    decoder_ok d' /\ saved_ok d'.
Proof.
  assert (exists d, NewDecoder 4096 = Some d) as [d E] by (eexists; vm_compute; reflexivity).
  pose proof (new_decoder_ok 4096 d ltac:(lia) E) as Hd.
  assert (d_saveBuf d = [] /\ dt_added (d_dynTab d) = 0) as [Hs Ha]
    by (vm_compute in E; injection E as <-; done).
  destruct (Write_robust collect (SetMaxStringLength d 16) [] [0x40; 255; 255; 7; 0x20; 0; 0x80])
    as (d' & s' & n & err & Ew & Hd' & Hs' & _).
  - destruct Hd as (? & ? & ? & _). split_and!; try done; simpl; lia.
  - simpl. rewrite Hs. done.
  - intros _. simpl. rewrite Hs. done.
  - simpl. rewrite Hs, Ha. done.
  - exists d, d', s', n, err. split; [exact E|]. split; [exact Ew|done].
Defined.
