(* ===== verification/Flow.v ===== *)
(** * Package http2: flow control windows

    Models src/http2/flow.go.  A [flow] points to the connection's flow, which all
    streams share, so flows live in a store and the operations work on addresses. *)

From S2P Require Import Prelude.

Definition i32 (x : Z) : Z := swrap 32 x.
Definition is_i32 (x : Z) : Prop := - 2 ^ 31 <= x < 2 ^ 31.

Abbreviation flow_ptr := nat.

Record flow := mkFlow {
  f_n : Z;                       (* int32 *)
  f_conn : option flow_ptr
}.

Abbreviation flows := (gmap nat flow).

#[global] Instance flow_eq_dec : EqDecision flow.
Proof. solve_decision. Defined.

Definition setConnFlow (st : flows) (f cf : flow_ptr) : option flows :=
  fl ← st !! f; Some (<[f := mkFlow (f_n fl) (Some cf)]> st).

(** [None] is a nil dereference. *)
Definition flow_available (st : flows) (f : flow_ptr) : option Z :=
  fl ← st !! f;
  match f_conn fl with
  | Some c => cf ← st !! c; Some (if f_n cf <? f_n fl then f_n cf else f_n fl)
  | None => Some (f_n fl)
  end.

Definition sub_n (st : flows) (f : flow_ptr) (n : Z) : option flows :=
  fl ← st !! f; Some (<[f := mkFlow (i32 (f_n fl - n)) (f_conn fl)]> st).

(** [None] is the panic "took too much". *)
Definition flow_take (st : flows) (f : flow_ptr) (n : Z) : option flows :=
  a ← flow_available st f;
  if n >? a then None
  else
    st ← sub_n st f n;
    fl ← st !! f;
    match f_conn fl with Some c => sub_n st c n | None => Some st end.

Definition flow_add (st : flows) (f : flow_ptr) (n : Z) : option (flows * bool) :=
  fl ← st !! f;
  let sum := i32 (f_n fl + n) in
  if Bool.eqb (sum >? n) (f_n fl >? 0)
  then Some (<[f := mkFlow sum (f_conn fl)]> st, true)
  else Some (st, false).

(** ** Windows in range

    Every counter is an [int32]; a stream's [conn] is a flow of the connection,
    which has none itself. *)
Definition flows_ok (st : flows) : Prop :=
  forall f fl, st !! f = Some fl ->
    is_i32 (f_n fl) /\
    match f_conn fl with
    | Some c => exists cf, st !! c = Some cf /\ f_conn cf = None
    | None => True
    end.

Lemma flows_ok_conn st f fl c :
  flows_ok st -> st !! f = Some fl -> f_conn fl = Some c ->
  c <> f /\ exists cf, st !! c = Some cf /\ f_conn cf = None.
Proof.
  intros Hok Hf Hc. destruct (Hok f fl Hf) as [_ H]. rewrite Hc in H. destruct H as (cf & Hcf & Hn).
  split; [|eauto]. intros ->. congruence.
Qed.

Lemma i32_id x : is_i32 x -> i32 x = x.
Proof. intros H. apply swrap_id; [lia|]. unfold is_i32 in H. lia. Qed.

(** Changing a counter keeps the store well-formed. *)
Lemma flows_ok_update st f fl n :
  flows_ok st -> st !! f = Some fl -> is_i32 n -> flows_ok (<[f := mkFlow n (f_conn fl)]> st).
Proof.
  intros Hok Hf Hn g gl Hg. apply lookup_insert_Some in Hg as [[<- <-]|[Hne Hg]]; simpl.
  - split; [done|]. destruct (Hok f fl Hf) as [_ H]. destruct (f_conn fl) as [c|] eqn:Ec; [|done].
    destruct (flows_ok_conn st f fl c Hok Hf Ec) as [Hne (cf & Hcf & Hcn)].
    exists cf. by rewrite lookup_insert_ne.
  - destruct (Hok g gl Hg) as [H1 H2]. split; [done|]. destruct (f_conn gl) as [c|]; [|done].
    destruct H2 as (cf & Hcf & Hcn). destruct (decide (c = f)) as [->|Hcf'].
    + simplify_eq. rewrite lookup_insert_eq. eauto.
    + exists cf. by rewrite lookup_insert_ne.
Qed.

(** [add] adds exactly when the sum is an [int32]: the sign trick of the code is the
    overflow test. *)
Lemma add_no_overflow a n :
  is_i32 a -> is_i32 n ->
  Bool.eqb (i32 (a + n) >? n) (a >? 0) = true <-> is_i32 (a + n).
Proof.
  unfold is_i32. intros Ha Hn. rewrite Bool.eqb_true_iff. rewrite !Z.gtb_ltb.
  unfold i32, swrap. change (2 ^ (32 - 1)) with 2147483648. change (2 ^ 32) with 4294967296.
  change (2 ^ 31) with 2147483648 in *.
  set (m := (a + n + 2147483648) mod 4294967296).
  assert (m = a + n + 2147483648 \/ m = a + n + 2147483648 - 4294967296 \/ m = a + n + 2147483648 + 4294967296) as Hm.
  { unfold m. pose proof (Z.div_mod (a + n + 2147483648) 4294967296 ltac:(lia)).
    pose proof (Z.mod_pos_bound (a + n + 2147483648) 4294967296 ltac:(lia)). lia. }
  assert (0 <= m < 4294967296) by (unfold m; apply Z.mod_pos_bound; lia).
  destruct (Z.ltb_spec n (m - 2147483648)), (Z.ltb_spec 0 a); split; intros; try done; try lia.
Qed.

Lemma flow_add_spec st f fl n :
  flows_ok st -> st !! f = Some fl -> is_i32 n ->
  (is_i32 (f_n fl + n) /\ flow_add st f n = Some (<[f := mkFlow (f_n fl + n) (f_conn fl)]> st, true)) \/
  (~ is_i32 (f_n fl + n) /\ flow_add st f n = Some (st, false)).
Proof.
  intros Hok Hf Hn. destruct (Hok f fl Hf) as [Ha _]. unfold flow_add. rewrite Hf. simpl.
  pose proof (add_no_overflow (f_n fl) n Ha Hn) as H.
  destruct (Bool.eqb _ _).
  - left. assert (is_i32 (f_n fl + n)) by (by apply H). rewrite i32_id by done. done.
  - right. split; [|done]. intros ?%H. done.
Qed.

Lemma sub_n_spec st f fl n :
  st !! f = Some fl -> is_i32 (f_n fl - n) ->
  sub_n st f n = Some (<[f := mkFlow (f_n fl - n) (f_conn fl)]> st).
Proof. intros Hf Hn. unfold sub_n. rewrite Hf. simpl. by rewrite i32_id. Qed.

(** The window of [f] and, for a stream, of its connection. *)
Definition window_of (st : flows) (f g : flow_ptr) : bool :=
  bool_decide (f = g) || bool_decide (f_conn <$> st !! f = Some (Some g)).

Lemma flow_take_spec st f n st' :
  flows_ok st -> 0 <= n -> is_Some (st !! f) -> flow_take st f n = Some st' ->
  flows_ok st' /\
  forall g gl, st !! g = Some gl ->
    (if window_of st f g then n <= f_n gl /\ st' !! g = Some (mkFlow (f_n gl - n) (f_conn gl))
     else st' !! g = Some gl).
Proof.
  intros Hok Hn [fl Hf] E. destruct (Hok f fl Hf) as [Hi Hc]. unfold is_i32 in Hi.
  unfold flow_take, flow_available in E. rewrite Hf in E. simpl in E.
  destruct (f_conn fl) as [c|] eqn:Ec; simpl in E.
  - destruct (flows_ok_conn st f fl c Hok Hf Ec) as [Hne (cf & Hcf & Hcn)].
    destruct (Hok c cf Hcf) as [Hci _]. unfold is_i32 in Hci.
    rewrite Hcf in E. simpl in E. rewrite Z.gtb_ltb in E.
    destruct (Z.ltb_spec (if f_n cf <? f_n fl then f_n cf else f_n fl) n) as [|Hle]; [done|].
    assert (n <= f_n fl /\ n <= f_n cf) as [Hlf Hlc] by (destruct (Z.ltb_spec (f_n cf) (f_n fl)); lia).
    rewrite (sub_n_spec st f fl n Hf) in E by (unfold is_i32; lia). simpl in E.
    rewrite lookup_insert_eq in E. simpl in E. rewrite Ec in E.
    rewrite (sub_n_spec _ c cf n) in E; [|by rewrite lookup_insert_ne|unfold is_i32; lia].
    injection E as <-. split.
    { apply flows_ok_update; [|by rewrite lookup_insert_ne|unfold is_i32; lia].
      rewrite <- Ec. apply flows_ok_update; [done|done|unfold is_i32; lia]. }
    intros g gl Hg. unfold window_of. rewrite Hf. simpl. rewrite Ec.
    destruct (decide (c = g)) as [<-|Hcg].
    + simplify_eq. rewrite lookup_insert_eq.
      rewrite (bool_decide_eq_true_2 (Some (Some c) = Some (Some c))) by done. by rewrite orb_true_r.
    + rewrite lookup_insert_ne by done. rewrite (bool_decide_eq_false_2 (Some (Some c) = _)) by congruence.
      rewrite orb_false_r. destruct (bool_decide_reflect (f = g)) as [<-|Hfg].
      * rewrite lookup_insert_eq. simplify_eq. split; congruence.
      * by rewrite lookup_insert_ne.
  - rewrite Z.gtb_ltb in E. destruct (Z.ltb_spec (f_n fl) n); [done|].
    rewrite (sub_n_spec st f fl n Hf) in E by (unfold is_i32; lia). simpl in E.
    rewrite lookup_insert_eq in E. simpl in E. rewrite Ec in E. injection E as <-.
    split; [rewrite <- Ec; apply flows_ok_update; [done|done|unfold is_i32; lia]|].
    intros g gl Hg. unfold window_of. rewrite Hf. simpl. rewrite Ec.
    rewrite (bool_decide_eq_false_2 (Some None = _)) by done. rewrite orb_false_r.
    destruct (bool_decide_reflect (f = g)) as [<-|Hfg].
    + rewrite lookup_insert_eq. simplify_eq. split; congruence.
    + by rewrite lookup_insert_ne.
Qed.

(** ** The ledger

    What a connection does with its windows: DATA frames take from a stream's
    window, WINDOW_UPDATE frames and changes of the initial size add to one. *)
Inductive flow_op := Take (f : flow_ptr) (n : Z) | Add (f : flow_ptr) (n : Z).

Definition flow_step (st : flows) (op : flow_op) : option (flows * bool) :=
  match op with
  | Take f n => st' ← flow_take st f n; Some (st', true)
  | Add f n => flow_add st f n
  end.

Fixpoint flow_run (st : flows) (ops : list flow_op) : option (flows * list bool) :=
  match ops with
  | [] => Some (st, [])
  | op :: ops =>
      '(st, ok) ← flow_step st op;
      '(st, oks) ← flow_run st ops;
      Some (st, ok :: oks)
  end.

Definition op_ok (st : flows) (op : flow_op) : Prop :=
  match op with
  | Take f n => is_Some (st !! f) /\ 0 <= n < 2 ^ 31
  | Add f n => is_Some (st !! f) /\ is_i32 n
  end.

(** The credit of window [g] after an operation that was accepted or not. *)
Definition credit (st : flows) (g : flow_ptr) (op : flow_op) (ok : bool) : Z :=
  match op with
  | Take f n => if window_of st f g then - n else 0
  | Add f n => if bool_decide (f = g) && ok then n else 0
  end.

Fixpoint credits (st : flows) (g : flow_ptr) (ops : list flow_op) (oks : list bool) : Z :=
  match ops, oks with
  | op :: ops, ok :: oks => credit st g op ok + credits st g ops oks
  | _, _ => 0
  end.

(** The store with every window changed by [delta]. *)
Definition moved (st st' : flows) (delta : flow_ptr -> Z) : Prop :=
  forall g, st' !! g = (fun gl => mkFlow (f_n gl + delta g) (f_conn gl)) <$> st !! g.

Lemma sub_n_dom st f n st' g : sub_n st f n = Some st' -> st !! g = None -> st' !! g = None.
Proof.
  unfold sub_n. destruct (st !! f) as [fl|] eqn:Hf; simpl; [|done]. intros [= <-] Hg.
  apply lookup_insert_None. split; [done|]. intros ->. congruence.
Qed.

Lemma flow_take_dom st f n st' g : flow_take st f n = Some st' -> st !! g = None -> st' !! g = None.
Proof.
  unfold flow_take. intros E Hg. destruct (flow_available st f) as [a|]; simpl in E; [|done].
  destruct (n >? a); [done|]. destruct (sub_n st f n) as [st1|] eqn:E1; simpl in E; [|done].
  pose proof (sub_n_dom _ _ _ _ g E1 Hg) as Hg1. destruct (st1 !! f) as [fl|]; simpl in E; [|done].
  destruct (f_conn fl); [by eapply sub_n_dom|]. by simplify_eq.
Qed.

Lemma flow_step_moved st op st' ok :
  flows_ok st -> op_ok st op -> flow_step st op = Some (st', ok) ->
  flows_ok st' /\ moved st st' (fun g => credit st g op ok) /\
  (ok = false <-> exists f n fl, op = Add f n /\ st !! f = Some fl /\ ~ is_i32 (f_n fl + n)).
Proof.
  intros Hok Hop E. destruct op as [f n|f n]; simpl in *; destruct Hop as [Hs Hn].
  - destruct (flow_take st f n) as [st1|] eqn:Et; simpl in E; [|done]. simplify_eq.
    destruct (flow_take_spec st f n st' Hok ltac:(lia) Hs Et) as [Hok' Hg].
    split; [done|]. split; [|split; [done|by intros (? & ? & ? & ? & _)]].
    intros g. destruct (st !! g) as [gl|] eqn:Eg; simpl; [|by eapply flow_take_dom].
    specialize (Hg g gl Eg). destruct (window_of st f g); [destruct Hg as [_ ->]; do 2 f_equal; lia|].
    rewrite Hg. destruct gl. simpl. do 2 f_equal. lia.
  - destruct Hs as [fl Hf]. destruct (flow_add_spec st f fl n Hok Hf Hn) as [[Hi E']|[Hi E']]; rewrite E' in E; simplify_eq.
    + split; [by apply flows_ok_update|]. split; [|split; [done|by intros (? & ? & ? & [= <- <-] & Hf' & []); rewrite Hf in Hf'; injection Hf' as <-]].
      intros g. destruct (bool_decide_reflect (f = g)) as [<-|Hne]; simpl.
      * rewrite lookup_insert_eq, Hf. done.
      * rewrite lookup_insert_ne by done. destruct (st !! g) as [[a c]|]; simpl; [|done]. do 2 f_equal. lia.
    + split; [done|]. split; [|split; [intros _; by exists f, n, fl|done]].
      intros g. rewrite andb_false_r. destruct (st' !! g) as [[a c]|]; simpl; [|done]. do 2 f_equal. lia.
Qed.

Lemma moved_window st st' delta f g : moved st st' delta -> window_of st' f g = window_of st f g.
Proof. intros H. unfold window_of. rewrite H. destruct (st !! f) as [fl|]; done. Qed.

Lemma moved_op_ok st st' delta op : moved st st' delta -> op_ok st op -> op_ok st' op.
Proof.
  intros H. destruct op; simpl; rewrite H; intros [Hs Hn]; (split; [|done]); by apply fmap_is_Some.
Qed.

Lemma moved_credits st st' delta g ops : forall oks,
  moved st st' delta -> credits st' g ops oks = credits st g ops oks.
Proof.
  induction ops as [|op ops IH]; intros [|ok oks] H; simpl; try done. rewrite IH by done. f_equal.
  destruct op as [f n|f n]; simpl; [by erewrite moved_window|done].
Qed.

(** The windows are a ledger.  Over any sequence of takes and adds that runs,
    every window, a stream's or the connection's, holds its initial credit plus
    the increments that were accepted minus all that was taken through it; an
    increment is refused exactly when it would overflow an [int32]; and every take
    was covered by both windows. *)
Theorem flow_ledger st ops st' oks :
  flows_ok st -> Forall (op_ok st) ops -> flow_run st ops = Some (st', oks) ->
  flows_ok st' /\ length oks = length ops /\ moved st st' (fun g => credits st g ops oks) /\
  (forall k f n, ops !! k = Some (Take f n) ->
     forall g gl, window_of st f g = true -> st !! g = Some gl ->
     0 <= f_n gl + credits st g (firstn (S k) ops) (firstn (S k) oks)) /\
  (forall k f n fl, ops !! k = Some (Add f n) -> st !! f = Some fl ->
     oks !! k = Some false <-> ~ is_i32 (f_n fl + credits st f (firstn k ops) (firstn k oks) + n)).
Proof.
  revert st oks. induction ops as [|op ops IH]; intros st oks Hok Hops E; simpl in E.
  { simplify_eq. split; [done|]. split; [done|]. split; [|done].
    intros g. simpl. destruct (st' !! g) as [[a c]|]; simpl; [|done]. do 2 f_equal. lia. }
  apply Forall_cons in Hops as [Hop Hops].
  destruct (flow_step st op) as [[st1 ok]|] eqn:E1; simpl in E; [|done].
  destruct (flow_run st1 ops) as [[st2 oks2]|] eqn:E2; simpl in E; [|done]. injection E as -> <-.
  destruct (flow_step_moved st op st1 ok Hok Hop E1) as (Hok1 & Hm1 & Hrej).
  destruct (IH st1 oks2 Hok1) as (Hok2 & Hlen & Hm2 & Hk & Hadd); [|done|].
  { eapply Forall_impl; [exact Hops|]. intros op'. by apply moved_op_ok with (1 := Hm1). }
  split; [done|]. split; [simpl; congruence|]. split.
  { intros g. rewrite Hm2, Hm1. simpl. rewrite (moved_credits st st1 _ g ops oks2 Hm1).
    destruct (st !! g) as [[a c]|]; simpl; [|done]. do 2 f_equal. lia. }
  split; [intros [|k] f n Hl g gl Hw Hg|intros [|k] f n fl Hl Hf]; simpl in Hl.
  - simplify_eq. simpl in E1, Hop. destruct (flow_take st f n) as [st1'|] eqn:Et; simpl in E1; [|done].
    destruct (flow_take_spec st f n st1' Hok ltac:(lia) ltac:(apply Hop) Et) as [_ Hts].
    specialize (Hts g gl Hg). rewrite Hw in Hts. simpl. rewrite Hw. destruct Hts. lia.
  - specialize (Hk k f n Hl g (mkFlow (f_n gl + credit st g op ok) (f_conn gl))).
    rewrite (moved_window st st1 _ _ _ Hm1), Hm1, Hg, (moved_credits st st1 _ _ _ _ Hm1) in Hk.
    specialize (Hk Hw eq_refl). change (firstn (S (S k)) (op :: ops)) with (op :: firstn (S k) ops).
    change (firstn (S (S k)) (ok :: oks2)) with (ok :: firstn (S k) oks2).
    cbn [credits]. cbn [f_n] in Hk. lia.
  - simplify_eq. simpl. rewrite Z.add_0_r. split.
    + intros [= ->]. destruct (proj1 Hrej eq_refl) as (f' & n' & fl' & [= <- <-] & Hf' & Hi). by simplify_eq.
    + intros Hi. f_equal. apply Hrej. by exists f, n, fl.
  - specialize (Hadd k f n (mkFlow (f_n fl + credit st f op ok) (f_conn fl)) Hl).
    rewrite Hm1, Hf, (moved_credits st st1 _ _ _ _ Hm1) in Hadd. simpl in Hadd |- *.
    rewrite (Hadd eq_refl), Z.add_assoc. done.
Qed.

(** A connection (address 0) and two streams. *)
Definition sample_flows : flows :=
  <[1%nat := mkFlow 100 (Some 0%nat)]> (<[2%nat := mkFlow 10 (Some 0%nat)]> (<[0%nat := mkFlow 65535 None]> ∅)).

Lemma flow_ledger_witness :
  exists st' oks,
    flow_run sample_flows [Take 1%nat 60; Add 0%nat 2147483647; Add 2%nat (-20); Add 1%nat 5] = Some (st', oks) /\
    oks = [true; false; true; true] /\ flows_ok st' /\ f_n <$> st' !! 0%nat = Some 65475.
Proof.
  eexists _, _. split; [vm_compute; reflexivity|]. split; [done|].
  edestruct (flow_ledger sample_flows [Take 1%nat 60; Add 0%nat 2147483647; Add 2%nat (-20); Add 1%nat 5])
    as (Hok & _ & Hm & _).
  - intros f fl Hf. unfold sample_flows in Hf.
    apply lookup_insert_Some in Hf as [[<- <-]|[_ Hf]]; [split; [unfold is_i32; simpl; lia|by eexists]|].
    apply lookup_insert_Some in Hf as [[<- <-]|[_ Hf]]; [split; [unfold is_i32; simpl; lia|by eexists]|].
    apply lookup_insert_Some in Hf as [[<- <-]|[_ Hf]]; [split; [unfold is_i32; simpl; lia|done]|done].
  - repeat (apply Forall_cons; split); try apply Forall_nil; try done;
      (split; [by eexists|unfold is_i32; lia]).
  - vm_compute; reflexivity.
  - split; [exact Hok|]. vm_compute; reflexivity.
Defined.
