(* ===== verification/DataBuffer.v ===== *)
(** * Package http2: the chunked data buffer

    Models src/http2/databuffer.go.  The buffer's state is the record [dataBuffer];
    the pools of chunks are an interface ([ChunkPool]) with what the code relies on:
    a pool returns chunks of its class, whatever their contents.  The theorems show
    that the buffer is a queue of bytes. *)

From S2P Require Import Prelude.

Definition dataChunkSizeClasses : list Z :=
  [Z.shiftl 1 10; Z.shiftl 2 10; Z.shiftl 4 10; Z.shiftl 8 10; Z.shiftl 16 10].

(** A set of pools, one for each class: [Get] and [Put] of class [i]. *)
Class ChunkPool (P : Type) := {
  pool_get : nat -> P -> bytes * P;
  pool_put : nat -> bytes -> P -> P
}.

Class ChunkPoolLaws (P : Type) `{ChunkPool P} := {
  pool_ok : P -> Prop;
  pool_get_ok : forall i n p, pool_ok p -> dataChunkSizeClasses !! i = Some n ->
    zlen (fst (pool_get i p)) = n /\ pool_ok (snd (pool_get i p));
  pool_put_ok : forall i n b p, pool_ok p -> dataChunkSizeClasses !! i = Some n -> zlen b = n ->
    pool_ok (pool_put i b p)
}.

Record dataBuffer := mkBuf {
  b_chunks : list bytes;
  b_r : Z;
  b_w : Z;
  b_size : Z;
  b_expected : Z                 (* int64 *)
}.

Definition newDataBuffer (expected : Z) : dataBuffer := mkBuf [] 0 0 0 expected.

Inductive buf_error := errReadEmpty.

Section ops.
Context {P : Type} `{ChunkPool P}.

(** The class chosen for [size]: the first one that fits, or the last. *)
Fixpoint chunkClass (i : nat) (classes : list Z) (size : Z) : nat :=
  match classes with
  | [] | [_] => i
  | n :: rest => if size <=? n then i else chunkClass (S i) rest size
  end.

Definition getDataBufferChunk (size : Z) (p : P) : bytes * P :=
  pool_get (chunkClass 0 dataChunkSizeClasses size) p.

(** [None] is the panic on a chunk of no class. *)
Fixpoint putChunk (i : nat) (classes : list Z) (b : bytes) (p : P) : option P :=
  match classes with
  | [] => None
  | n :: rest => if zlen b =? n then Some (pool_put i b p) else putChunk (S i) rest b p
  end.

Definition putDataBufferChunk (b : bytes) (p : P) : option P := putChunk 0 dataChunkSizeClasses b p.

(** [None] is an index out of range. *)
Definition bytesFromFirstChunk (b : dataBuffer) : option bytes :=
  match b_chunks b with
  | [] => None
  | [c] => zslice c (b_r b) (b_w b)
  | c :: _ => zslice c (b_r b) (zlen c)
  end.

(** The loop of [Read] filling [k] bytes: the bytes copied. *)
Fixpoint readLoop (fuel : nat) (b : dataBuffer) (p : P) (k : Z) : option (dataBuffer * P * bytes) :=
  if (k >? 0) && (b_size b >? 0) then
    match fuel with
    | O => None
    | S fuel' =>
        readFrom ← bytesFromFirstChunk b;
        let n := Z.min k (zlen readFrom) in
        let b := mkBuf (b_chunks b) (b_r b + n) (b_w b) (b_size b - n) (b_expected b) in
        match b_chunks b with
        | [] => None
        | c :: rest =>
            '(b, p) ← (if b_r b =? zlen c then
                         p ← putDataBufferChunk c p;
                         Some (mkBuf rest 0 (b_w b) (b_size b) (b_expected b), p)
                       else Some (b, p));
            '(b, p, more) ← readLoop fuel' b p (k - n);
            Some (b, p, take (Z.to_nat n) readFrom ++ more)
        end
    end
  else Some (b, p, []).

(** [Read]: the contents of the destination afterwards and the count, or the error.
    Every round but the last empties a chunk. *)
Definition buf_Read (b : dataBuffer) (p : P) (dst : bytes)
  : option (dataBuffer * P * (bytes * Z + buf_error)) :=
  if b_size b =? 0 then Some (b, p, inr errReadEmpty)
  else
    '(b, p, got) ← readLoop (S (length (b_chunks b))) b p (zlen dst);
    Some (b, p, inl (got ++ drop (length got) dst, zlen got)).

Definition buf_Len (b : dataBuffer) : Z := b_size b.

Definition lastChunkOrAlloc (b : dataBuffer) (want : Z) (p : P) : dataBuffer * P :=
  let alloc := let '(chunk, p) := getDataBufferChunk want p in
               (mkBuf (b_chunks b ++ [chunk]) (b_r b) 0 (b_size b) (b_expected b), p) in
  match last (b_chunks b) with
  | Some c => if b_w b <? zlen c then (b, p) else alloc
  | None => alloc
  end.

(** [copy(chunk[w:], src)] *)
Definition copy_at (chunk : bytes) (w : nat) (src : bytes) : bytes :=
  take w chunk ++ take (length chunk - w) src ++ drop (w + length src) chunk.

Definition copy_last (chunks : list bytes) (w : Z) (src : bytes) : list bytes :=
  match last chunks with
  | Some c => removelast chunks ++ [copy_at c (Z.to_nat w) src]
  | None => chunks
  end.

Fixpoint writeChunks (fuel : nat) (b : dataBuffer) (p : P) (src : bytes) : option (dataBuffer * P) :=
  match src with
  | [] => Some (b, p)
  | _ =>
      match fuel with
      | O => None
      | S fuel' =>
          let want := if b_expected b >? zlen src then b_expected b else zlen src in
          let '(b, p) := lastChunkOrAlloc b want p in
          c ← last (b_chunks b);
          room ← zslice c (b_w b) (zlen c);
          let n := Z.min (zlen room) (zlen src) in
          writeChunks fuel'
            (mkBuf (copy_last (b_chunks b) (b_w b) src) (b_r b) (b_w b + n) (b_size b + n)
               (swrap 64 (b_expected b - n)))
            p (drop (Z.to_nat n) src)
      end
  end.

(** Every round writes at least a byte: [length src] rounds are enough. *)
Definition buf_Write (b : dataBuffer) (p : P) (src : bytes) : option (dataBuffer * P * Z) :=
  '(b, p) ← writeChunks (length src) b p src; Some (b, p, zlen src).
End ops.

(** ** The buffer is a queue *)

(** The unread bytes: [size] bytes from the read position on. *)
Definition contents (b : dataBuffer) : bytes :=
  take (Z.to_nat (b_size b)) (drop (Z.to_nat (b_r b)) (concat (b_chunks b))).

(** Chunks have the size of a class; the read position is inside the first chunk,
    the write position inside the last, and [size] is what lies between. *)
Definition buf_ok (b : dataBuffer) : Prop :=
  Forall (fun c => zlen c ∈ dataChunkSizeClasses) (b_chunks b) /\
  0 <= b_size b /\ 0 <= b_r b /\
  match b_chunks b with [] => b_r b = 0 /\ b_size b = 0 | c :: _ => b_r b < zlen c end /\
  match last (b_chunks b) with
  | None => True
  | Some c => 0 <= b_w b <= zlen c /\
      b_r b + b_size b + (zlen c - b_w b) = zlen (concat (b_chunks b))
  end.

Lemma class_pos n : n ∈ dataChunkSizeClasses -> 1024 <= n.
Proof. unfold dataChunkSizeClasses. intros H. set_unfold in H. vm_compute (Z.shiftl _ _) in H. lia. Qed.

Lemma zlen_concat_cons (c : bytes) rest : zlen (concat (c :: rest)) = zlen c + zlen (concat rest).
Proof. simpl. apply zlen_app. Qed.

Lemma zlen_last_le (chunks : list bytes) c : last chunks = Some c -> zlen c <= zlen (concat chunks).
Proof.
  intros [l ->]%last_Some. rewrite concat_app, zlen_app. simpl. rewrite app_nil_r.
  pose proof (zlen_nonneg (concat l)). lia.
Qed.

(** The unread part of the first chunk is a non-empty prefix of the contents. *)
Lemma first_chunk b :
  buf_ok b -> 0 < b_size b ->
  exists c rest r, b_chunks b = c :: rest /\ bytesFromFirstChunk b = Some r /\
    0 < zlen r <= b_size b /\ b_r b + zlen r <= zlen c /\ r = take (Z.to_nat (zlen r)) (contents b) /\
    (rest <> [] -> b_r b + zlen r = zlen c) /\ (rest = [] -> zlen r = b_size b).
Proof.
  intros (Hcl & Hsz & Hr & Hfirst & Hlast) Hpos. unfold bytesFromFirstChunk, contents.
  destruct (b_chunks b) as [|c [|c2 rest]] eqn:Ec; [lia|..].
  - simpl in Hlast. rewrite app_nil_r in Hlast. destruct Hlast as [Hw Htot].
    assert (b_w b = b_r b + b_size b) as Ew by lia.
    exists c, [], (take (Z.to_nat (b_size b)) (drop (Z.to_nat (b_r b)) c)).
    assert (zlen (take (Z.to_nat (b_size b)) (drop (Z.to_nat (b_r b)) c)) = b_size b) as El.
    { unfold zlen in *. rewrite length_take, length_drop. lia. }
    split; [done|]. rewrite El. simpl concat. rewrite app_nil_r, take_take, Nat.min_id.
    split_and!; try done; try lia.
    unfold zslice. rewrite Ew.
    destruct (Z.leb_spec 0 (b_r b)), (Z.leb_spec (b_r b) (b_r b + b_size b)), (Z.leb_spec (b_r b + b_size b) (zlen c)); try lia.
    simpl. do 2 f_equal. lia.
  - exists c, (c2 :: rest), (drop (Z.to_nat (b_r b)) c).
    assert (zlen (drop (Z.to_nat (b_r b)) c) = zlen c - b_r b) as El.
    { unfold zlen in *. rewrite length_drop. lia. }
    change (last (c :: c2 :: rest)) with (last (c2 :: rest)) in Hlast.
    destruct (last (c2 :: rest)) as [cl|] eqn:Hl; [|by apply last_None in Hl].
    pose proof (zlen_last_le _ _ Hl) as Hll. rewrite zlen_concat_cons in Hlast.
    split; [done|]. rewrite El. split_and!; try lia.
    + unfold zslice. destruct (Z.leb_spec 0 (b_r b)), (Z.leb_spec (b_r b) (zlen c)), (Z.leb_spec (zlen c) (zlen c)); try lia.
      simpl. f_equal. apply take_ge. unfold zlen in *. rewrite length_drop. lia.
    + rewrite take_take. replace (Nat.min _ _) with (Z.to_nat (zlen c - b_r b)) by lia.
      change (concat (c :: c2 :: rest)) with (c ++ concat (c2 :: rest)).
      rewrite drop_app_le by (unfold zlen in *; lia).
      rewrite take_app_le by (rewrite length_drop; unfold zlen in *; lia).
      symmetry. apply take_ge. rewrite length_drop. unfold zlen. lia.
    + done.
Qed.

(** The buffer after [n] bytes of its first chunk have been read. *)
Definition advanced (b : dataBuffer) (c : bytes) (rest : list bytes) (n : Z) : dataBuffer :=
  if b_r b + n =? zlen c then mkBuf rest 0 (b_w b) (b_size b - n) (b_expected b)
  else mkBuf (c :: rest) (b_r b + n) (b_w b) (b_size b - n) (b_expected b).

Lemma advanced_ok b c rest n :
  buf_ok b -> b_chunks b = c :: rest -> 0 <= n <= b_size b -> b_r b + n <= zlen c ->
  buf_ok (advanced b c rest n) /\ contents (advanced b c rest n) = drop (Z.to_nat n) (contents b).
Proof.
  intros (Hcl & Hsz & Hr & Hfirst & Hlast) Ec Hn Hle. unfold advanced, contents. rewrite Ec in *.
  rewrite skipn_firstn_comm, drop_drop.
  apply Forall_cons in Hcl as [Hc Hrest].
  destruct (Z.eqb_spec (b_r b + n) (zlen c)) as [E|Hne]; simpl.
  - replace (Z.to_nat (b_r b) + Z.to_nat n)%nat with (length c) by (unfold zlen in E; lia).
    rewrite drop_app_length. split; [|f_equal; lia].
    split; [done|]. simpl. split; [lia|]. split; [lia|].
    destruct rest as [|c2 rest].
    + simpl in Hlast. rewrite app_nil_r in Hlast. split; [|done]. lia.
    + apply Forall_cons in Hrest as [Hc2 _]. split; [by apply class_pos in Hc2; lia|].
      change (last (c :: c2 :: rest)) with (last (c2 :: rest)) in Hlast.
      destruct (last (c2 :: rest)) as [cl|]; [|done]. rewrite zlen_concat_cons in Hlast. lia.
  - split; [|f_equal; [lia|f_equal; lia]].
    split; [by apply Forall_cons|]. simpl b_chunks. simpl b_size. simpl b_r. simpl b_w.
    split_and!; [lia|lia|lia|]. destruct (last (c :: rest)); [|done]. lia.
Qed.

Section theory.
Context {P : Type} `{ChunkPoolLaws P}.

Lemma putChunk_ok (b : bytes) (p : P) :
  zlen b ∈ dataChunkSizeClasses -> pool_ok p -> exists p', putDataBufferChunk b p = Some p' /\ pool_ok p'.
Proof.
  intros Hb Hp. unfold putDataBufferChunk. change 0%nat with (length (@nil Z)).
  assert (forall pre post, dataChunkSizeClasses = pre ++ post -> zlen b ∈ post ->
    exists p', putChunk (length pre) post b p = Some p' /\ pool_ok p') as Hg; [|by apply (Hg [])].
  intros pre post. revert pre. induction post as [|n post IH]; intros pre Epp Hin; [by set_unfold in Hin|].
  simpl. destruct (Z.eqb_spec (zlen b) n) as [En|Hne].
  - eexists. split; [done|]. eapply pool_put_ok; [done| |exact En].
    rewrite Epp. apply list_lookup_middle. done.
  - destruct (IH (pre ++ [n])) as (p' & E & Hp').
    + by rewrite Epp, <- app_assoc.
    + apply elem_of_cons in Hin as [?|?]; [congruence|done].
    + rewrite length_app, Nat.add_1_r in E. eauto.
Qed.

Lemma getChunk_ok size (p : P) :
  pool_ok p -> zlen (fst (getDataBufferChunk size p)) ∈ dataChunkSizeClasses /\
  pool_ok (snd (getDataBufferChunk size p)).
Proof.
  intros Hp. unfold getDataBufferChunk.
  assert (exists n, dataChunkSizeClasses !! chunkClass 0 dataChunkSizeClasses size = Some n) as [n Hn].
  { unfold dataChunkSizeClasses, chunkClass. repeat split_match; by eexists. }
  destruct (pool_get_ok _ n p Hp Hn) as [<- Hok]. split; [|done]. by eapply list_elem_of_lookup_2.
Qed.

Lemma readLoop_stop fuel b (p : P) k : k <= 0 \/ b_size b <= 0 -> readLoop fuel b p k = Some (b, p, []).
Proof.
  intros Hs. destruct fuel; simpl; rewrite !Z.gtb_ltb;
    destruct (Z.ltb_spec 0 k), (Z.ltb_spec 0 (b_size b)); simpl; try done; lia.
Qed.

Lemma contents_length b : buf_ok b -> zlen (contents b) = b_size b.
Proof.
  intros (_ & Hsz & Hr & Hfirst & Hlast). unfold contents, zlen in *. rewrite length_take, length_drop.
  destruct (b_chunks b) as [|c rest]; [simpl; lia|].
  destruct (last (c :: rest)) as [cl|] eqn:E; [lia|]. by apply last_None in E.
Qed.

Lemma contents_nil b : b_size b = 0 -> contents b = [].
Proof. intros E. unfold contents. by rewrite E. Qed.

Lemma readLoop_spec fuel : forall b (p : P) k,
  buf_ok b -> pool_ok p -> 0 <= k -> (length (b_chunks b) <= fuel)%nat ->
  exists b' p', readLoop fuel b p k = Some (b', p', take (Z.to_nat k) (contents b)) /\
    buf_ok b' /\ pool_ok p' /\ contents b' = drop (Z.to_nat k) (contents b) /\
    b_expected b' = b_expected b.
Proof.
  induction fuel as [|fuel IH]; intros b p k Hb Hp Hk Hf.
  all: pose proof (contents_length b Hb) as Hlen; pose proof Hb as (_ & Hsz & _).
  all: destruct (Z.eqb_spec k 0) as [->|Hk0];
    [exists b, p; rewrite readLoop_stop by lia; rewrite drop_0; done|].
  all: destruct (Z.eqb_spec (b_size b) 0) as [Es|Hs0];
    [exists b, p; rewrite readLoop_stop by lia; rewrite contents_nil by done;
     rewrite take_nil, drop_nil; done|].
  { destruct Hb as (_ & _ & _ & Hfirst & _). destruct (b_chunks b); simpl in Hf; lia. }
  destruct (first_chunk b Hb ltac:(lia)) as (c & rest & r & Ec & Er & Hr1 & Hr2 & Hr3 & Hr4 & Hr5).
  cbn [readLoop]. rewrite !Z.gtb_ltb. destruct (Z.ltb_spec 0 k), (Z.ltb_spec 0 (b_size b)); try lia. simpl andb.
  rewrite Er. cbn [mbind option_bind b_chunks b_r b_w b_size b_expected]. rewrite Ec.
  set (n := Z.min k (zlen r)). destruct (advanced_ok b c rest n Hb Ec) as [Hok Hcont]; [lia..|].
  assert (exists p1, (if b_r b + n =? zlen c
      then p0 ← putDataBufferChunk c p; Some (mkBuf rest 0 (b_w b) (b_size b - n) (b_expected b), p0)
      else Some (mkBuf (c :: rest) (b_r b + n) (b_w b) (b_size b - n) (b_expected b), p)) =
    Some (advanced b c rest n, p1) /\ pool_ok p1) as (p1 & -> & Hp1).
  { unfold advanced. destruct (b_r b + n =? zlen c); [|eauto].
    destruct (putChunk_ok c p) as (p1 & -> & Hp1); [|done|simpl; eauto].
    destruct Hb as (Hcl & _). rewrite Ec in Hcl. by apply Forall_cons in Hcl as [? _]. }
  cbn [mbind option_bind].
  assert (exists b' p', readLoop fuel (advanced b c rest n) p1 (k - n) =
      Some (b', p', take (Z.to_nat (k - n)) (contents (advanced b c rest n))) /\ buf_ok b' /\ pool_ok p' /\
      contents b' = drop (Z.to_nat (k - n)) (contents (advanced b c rest n)) /\
      b_expected b' = b_expected b) as (b' & p' & -> & Hok' & Hp' & Hc' & He').
  { assert (b_expected (advanced b c rest n) = b_expected b) as <- by (unfold advanced; by case_match).
    destruct (decide (rest = [] \/ k <= zlen r)) as [Hend|Hmore].
    - assert (k - n = 0 \/ b_size (advanced b c rest n) = 0) as Hz.
      { destruct Hend as [E|]; [|lia]. destruct (decide (k <= zlen r)); [lia|].
        right. unfold advanced. specialize (Hr5 E). case_match; simpl; lia. }
      exists (advanced b c rest n), p1. rewrite readLoop_stop by lia.
      destruct Hz as [->|Hz]; [rewrite drop_0; done|].
      rewrite contents_nil by done. rewrite take_nil, drop_nil. done.
    - apply IH; [done|done|lia|]. assert (rest <> []) as Hne by tauto. specialize (Hr4 Hne).
      unfold advanced. destruct (Z.eqb_spec (b_r b + n) (zlen c)); [|lia].
      rewrite Ec in Hf. simpl in *. lia. }
  exists b', p'. split; [|split_and!; try done].
  - cbn [mbind option_bind]. do 2 f_equal. rewrite Hcont.
    replace (take (Z.to_nat n) r) with (take (Z.to_nat n) (contents b)).
    2: { rewrite Hr3 at 1. rewrite take_take. f_equal. lia. }
    rewrite <- (take_drop (Z.to_nat n) (contents b)) at 3.
    rewrite take_app, take_take. replace (Nat.min _ (Z.to_nat n)) with (Z.to_nat n) by lia.
    f_equal. f_equal. rewrite length_take. unfold zlen in Hlen. lia.
  - rewrite Hc', Hcont, drop_drop. f_equal. lia.
Qed.

(** With a last chunk [c], the contents end at its write position. *)
Lemma contents_split b front c :
  buf_ok b -> b_chunks b = front ++ [c] ->
  let A := concat front ++ take (Z.to_nat (b_w b)) c in
  concat (b_chunks b) = A ++ drop (Z.to_nat (b_w b)) c /\
  zlen A = b_r b + b_size b /\ contents b = drop (Z.to_nat (b_r b)) A.
Proof.
  intros (Hcl & Hsz & Hr & Hfirst & Hlast) Ec A.
  rewrite Ec in *. rewrite last_snoc in Hlast. destruct Hlast as [Hw Htot].
  assert (concat (front ++ [c]) = A ++ drop (Z.to_nat (b_w b)) c) as E.
  { unfold A. rewrite concat_app. simpl. rewrite app_nil_r, <- app_assoc, take_drop. done. }
  assert (zlen A = b_r b + b_size b) as EA.
  { rewrite E, zlen_app in Htot.
    assert (zlen (drop (Z.to_nat (b_w b)) c) = zlen c - b_w b) by (unfold zlen in *; rewrite length_drop; lia). lia. }
  split; [done|]. split; [done|]. unfold contents. rewrite Ec, E.
  rewrite drop_app_le by (unfold zlen in EA; lia).
  rewrite take_app_le by (rewrite length_drop; unfold zlen in EA; lia).
  apply take_ge. rewrite length_drop. unfold zlen in EA. lia.
Qed.

(** After [lastChunkOrAlloc] the last chunk has room; the contents are unchanged. *)
Lemma lastChunkOrAlloc_spec b want (p : P) b' p' :
  buf_ok b -> pool_ok p -> lastChunkOrAlloc b want p = (b', p') ->
  buf_ok b' /\ pool_ok p' /\ contents b' = contents b /\ b_expected b' = b_expected b /\
  exists front c, b_chunks b' = front ++ [c] /\ b_w b' < zlen c.
Proof.
  intros Hb Hp E. unfold lastChunkOrAlloc in E.
  pose proof (getChunk_ok want p Hp) as [Hc Hp2]. destruct (getDataBufferChunk want p) as [chunk p2]. simpl in Hc, Hp2.
  pose proof (class_pos _ Hc) as Hcp.
  assert (match last (b_chunks b) with Some c => zlen c <= b_w b | None => True end ->
    let b1 := mkBuf (b_chunks b ++ [chunk]) (b_r b) 0 (b_size b) (b_expected b) in
    buf_ok b1 /\ contents b1 = contents b) as Halloc.
  { intros Hfull b1. destruct Hb as (Hcl & Hsz & Hr & Hfirst & Hlast). split.
    - split; [simpl; apply Forall_app; split; [done|]; by apply Forall_singleton|].
      unfold b1. cbn [b_size b_r b_w b_chunks]. rewrite last_snoc, concat_app, zlen_app. simpl (concat [chunk]). rewrite app_nil_r.
      split_and!; [done|done| |lia|lia|].
      + destruct (b_chunks b); simpl; lia.
      + destruct (b_chunks b) as [|c rest]; [simpl; change (zlen []) with 0; lia|].
        destruct (last (c :: rest)) eqn:El; [lia|]. by apply last_None in El.
    - unfold contents, b1. cbn [b_size b_r b_chunks]. rewrite concat_app. simpl (concat [chunk]). rewrite app_nil_r.
      destruct (b_chunks b) as [|c rest]; [destruct Hfirst as [-> ->]; done|].
      destruct (last (c :: rest)) as [cl|] eqn:El; [|by apply last_None in El].
      rewrite drop_app_le by (unfold zlen in *; lia).
      apply take_app_le. rewrite length_drop. unfold zlen in *. lia. }
  destruct (last (b_chunks b)) as [c|] eqn:El; [destruct (Z.ltb_spec (b_w b) (zlen c)) as [Hlt|Hge]|].
  - simplify_eq. split_and!; try done. apply last_Some in El as [front El]. eauto.
  - injection E as <- <-. destruct (Halloc Hge). split_and!; try done. simpl. exists (b_chunks b), chunk. split; [done|lia].
  - injection E as <- <-. destruct (Halloc I). split_and!; try done. simpl. exists (b_chunks b), chunk. split; [done|lia].
Qed.

Lemma copy_at_length c w src : (w <= length c)%nat -> length (copy_at c w src) = length c.
Proof. intros Hw. unfold copy_at. rewrite !length_app, !length_take, length_drop. lia. Qed.

(** One round of [Write]: the first [n] bytes of [src] go behind the contents. *)
Lemma copy_last_spec b front c src n e :
  buf_ok b -> b_chunks b = front ++ [c] -> n = Z.min (zlen c - b_w b) (zlen src) ->
  let b' := mkBuf (copy_last (b_chunks b) (b_w b) src) (b_r b) (b_w b + n) (b_size b + n) e in
  buf_ok b' /\ contents b' = contents b ++ take (Z.to_nat n) src.
Proof.
  intros Hb Ec En b'. destruct (contents_split b front c Hb Ec) as (Econ & EA & Econt).
  set (A := concat front ++ take (Z.to_nat (b_w b)) c) in *.
  pose proof Hb as (Hcl & Hsz & Hr & Hfirst & Hlast). rewrite Ec in Hlast. rewrite last_snoc in Hlast.
  destruct Hlast as [Hw Htot]. pose proof (zlen_nonneg src) as Hsrc.
  set (c' := copy_at c (Z.to_nat (b_w b)) src).
  assert (zlen c' = zlen c) as Elc by (unfold zlen, c'; rewrite copy_at_length by (unfold zlen in Hw; lia); done).
  assert (b_chunks b' = front ++ [c']) as Ec'.
  { unfold b'. cbn [b_chunks]. unfold copy_last. rewrite Ec, last_snoc, removelast_last. done. }
  assert (concat (front ++ [c']) = A ++ take (Z.to_nat n) src ++ drop (Z.to_nat (b_w b + n)) c) as Econ'.
  { rewrite concat_app. simpl. rewrite app_nil_r. unfold A, c', copy_at. rewrite <- app_assoc. do 2 f_equal.
    unfold zlen in *. destruct (decide (Z.of_nat (length c) - b_w b <= Z.of_nat (length src))).
    - replace n with (Z.of_nat (length c) - b_w b) by lia.
      rewrite !(drop_ge c) by lia. rewrite !app_nil_r. f_equal. lia.
    - replace n with (Z.of_nat (length src)) by lia. rewrite !(take_ge src) by lia. do 2 f_equal. lia. }
  assert (zlen (take (Z.to_nat n) src) = n) as Etk by (unfold zlen in *; rewrite length_take; lia).
  split.
  - unfold buf_ok. rewrite Ec', last_snoc. unfold b'. cbn [b_size b_r b_w]. split; [|split; [lia|split; [lia|split]]].
    + rewrite Ec in Hcl. apply Forall_app in Hcl as [Hf [Hc1 _]%Forall_cons]. apply Forall_app. split; [done|].
      apply Forall_singleton. rewrite Elc. exact Hc1.
    + rewrite Ec in Hfirst. destruct front; simpl in *; lia.
    + split; [lia|]. rewrite Elc, Econ', !zlen_app, Etk, EA.
      assert (zlen (drop (Z.to_nat (b_w b + n)) c) = zlen c - (b_w b + n)) by (unfold zlen in *; rewrite length_drop; lia).
      lia.
  - unfold contents at 1. rewrite Ec', Econ'. unfold b'. cbn [b_size b_r]. rewrite Econt.
    rewrite drop_app_le by (unfold zlen in EA; lia). rewrite app_assoc.
    apply take_app_length'. rewrite length_app, length_drop. unfold zlen in EA, Etk. lia.
Qed.

Lemma writeChunks_spec fuel : forall b (p : P) src,
  buf_ok b -> pool_ok p -> (length src <= fuel)%nat ->
  exists b' p', writeChunks fuel b p src = Some (b', p') /\ buf_ok b' /\ pool_ok p' /\
    contents b' = contents b ++ src.
Proof.
  induction fuel as [|fuel IH]; intros b p [|x src] Hb Hp Hf; simpl in Hf; try lia.
  1,2: exists b, p; rewrite app_nil_r; done.
  cbn [writeChunks]. set (want := if _ >? _ then _ else _).
  destruct (lastChunkOrAlloc b want p) as [b1 p1] eqn:E.
  destruct (lastChunkOrAlloc_spec b want p b1 p1 Hb Hp E) as (Hb1 & Hp1 & Hc1 & He1 & front & c & Ec & Hroom).
  pose proof Hb1 as (_ & _ & _ & _ & Hl). assert (last (b_chunks b1) = Some c) as El by (rewrite Ec; apply last_snoc).
  rewrite El in Hl |- *. destruct Hl as [Hw _]. cbn [mbind option_bind].
  assert (zslice c (b_w b1) (zlen c) = Some (drop (Z.to_nat (b_w b1)) c)) as ->.
  { unfold zslice. destruct (Z.leb_spec 0 (b_w b1)), (Z.leb_spec (b_w b1) (zlen c)), (Z.leb_spec (zlen c) (zlen c)); try lia.
    simpl. f_equal. apply take_ge. rewrite length_drop. unfold zlen in *. lia. }
  cbn [mbind option_bind].
  replace (zlen (drop (Z.to_nat (b_w b1)) c)) with (zlen c - b_w b1) by (unfold zlen in *; rewrite length_drop; lia).
  set (n := Z.min (zlen c - b_w b1) (zlen (x :: src))).
  assert (1 <= n) by (unfold n; rewrite zlen_cons; pose proof (zlen_nonneg src); lia).
  destruct (copy_last_spec b1 front c (x :: src) n (swrap 64 (b_expected b1 - n)) Hb1 Ec eq_refl) as [Hb2 Hc2].
  destruct (IH _ p1 (drop (Z.to_nat n) (x :: src)) Hb2 Hp1) as (b' & p' & -> & Hb' & Hp' & Hc').
  { rewrite length_drop. simpl. lia. }
  exists b', p'. split_and!; try done. rewrite Hc', Hc2, Hc1, <- app_assoc, take_drop. done.
Qed.
End theory.

(** ** Refinement: a byte queue *)
Inductive buf_op := BWrite (src : bytes) | BRead (dst : bytes).

(** What an operation returns: the count of [Write], or the outcome of [Read]. *)
Inductive buf_res := Wrote (n : Z) | Read (r : bytes * Z + buf_error).

Definition buf_step {P} `{ChunkPool P} (b : dataBuffer) (p : P) (op : buf_op) : option (dataBuffer * P * buf_res) :=
  match op with
  | BWrite src => '(b, p, n) ← buf_Write b p src; Some (b, p, Wrote n)
  | BRead dst => '(b, p, r) ← buf_Read b p dst; Some (b, p, Read r)
  end.

(** The specification: a queue of bytes. *)
Definition queue_step (q : bytes) (op : buf_op) : bytes * buf_res :=
  match op with
  | BWrite src => (q ++ src, Wrote (zlen src))
  | BRead dst =>
      match q with
      | [] => ([], Read (inr errReadEmpty))
      | _ => let got := take (length dst) q in
             (drop (length dst) q, Read (inl (got ++ drop (length got) dst, zlen got)))
      end
  end.

Fixpoint buf_run {P} `{ChunkPool P} (b : dataBuffer) (p : P) (ops : list buf_op) : option (dataBuffer * list buf_res) :=
  match ops with
  | [] => Some (b, [])
  | op :: ops => '(b, p, r) ← buf_step b p op; '(b, rs) ← buf_run b p ops; Some (b, r :: rs)
  end.

Fixpoint queue_run (q : bytes) (ops : list buf_op) : bytes * list buf_res :=
  match ops with
  | [] => (q, [])
  | op :: ops => let '(q, r) := queue_step q op in let '(q, rs) := queue_run q ops in (q, r :: rs)
  end.

Lemma buf_step_refines {P} `{ChunkPoolLaws P} b (p : P) op :
  buf_ok b -> pool_ok p ->
  exists b' p' r, buf_step b p op = Some (b', p', r) /\ buf_ok b' /\ pool_ok p' /\
    queue_step (contents b) op = (contents b', r).
Proof.
  intros Hb Hp. destruct op as [src|dst]; simpl.
  - unfold buf_Write. destruct (writeChunks_spec (length src) b p src Hb Hp) as (b' & p' & -> & Hb' & Hp' & Hc); [lia|].
    simpl. exists b', p', (Wrote (zlen src)). by rewrite Hc.
  - unfold buf_Read. pose proof (contents_length b Hb) as Hl. destruct (Z.eqb_spec (b_size b) 0) as [E|Hne].
    { simpl. exists b, p, (Read (inr errReadEmpty)). by rewrite contents_nil. }
    destruct (readLoop_spec (S (length (b_chunks b))) b p (zlen dst) Hb Hp) as (b' & p' & -> & Hb' & Hp' & Hc & _);
      [apply zlen_nonneg|lia|].
    cbn [mbind option_bind]. eexists b', p', _. split; [done|]. split; [done|]. split; [done|].
    rewrite Hc. unfold zlen. rewrite Nat2Z.id.
    destruct (contents b); [unfold zlen in Hl; simpl in Hl; lia|]. done.
Qed.

Lemma buf_run_refines {P} `{ChunkPoolLaws P} ops : forall b (p : P),
  buf_ok b -> pool_ok p ->
  exists b' rs, buf_run b p ops = Some (b', rs) /\ queue_run (contents b) ops = (contents b', rs) /\
    buf_Len b' = zlen (contents b').
Proof.
  induction ops as [|op ops IH]; intros b p Hb Hp; simpl.
  - exists b, []. split_and!; try done. symmetry. by apply contents_length.
  - destruct (buf_step_refines b p op Hb Hp) as (b1 & p1 & r & -> & Hb1 & Hp1 & ->). simpl.
    destruct (IH b1 p1 Hb1 Hp1) as (b' & rs & -> & -> & Hl). simpl. by exists b', (r :: rs).
Qed.

Lemma new_buf_ok e : buf_ok (newDataBuffer e).
Proof. split_and!; simpl; try done; try lia; by apply Forall_nil. Qed.

(** The chunked buffer is a byte queue.  With any pools that hand out chunks
    of the right class, whatever stale bytes they contain, every sequence of reads
    and writes on a new buffer returns what a plain queue returns: no byte is lost,
    duplicated or reordered, no chunk index is out of range, and [Len] is the
    length of the queue. *)
Theorem dataBuffer_refines_queue {P} `{ChunkPoolLaws P} (p : P) expected ops :
  pool_ok p ->
  exists b rs, buf_run (newDataBuffer expected) p ops = Some (b, rs) /\
    queue_run [] ops = (contents b, rs) /\ buf_Len b = zlen (contents b).
Proof.
  intros Hp. apply (buf_run_refines ops (newDataBuffer expected) p); [apply new_buf_ok|done].
Qed.

(** Free lists: a chunk that was put back is handed out again, with its old
    contents; an empty list makes a new one. *)
#[global] Instance freeLists : ChunkPool (list (list bytes)) := {|
  pool_get i p :=
    match p !! i with
    | Some (c :: cs) => (c, <[i := cs]> p)
    | _ => (replicate (Z.to_nat (default 0 (dataChunkSizeClasses !! i))) 0, p)
    end;
  pool_put i b p := alter (cons b) i p
|}.

Definition freeLists_ok (p : list (list bytes)) : Prop :=
  forall i n cs, dataChunkSizeClasses !! i = Some n -> p !! i = Some cs -> Forall (fun c => zlen c = n) cs.

#[global] Program Instance freeLists_laws : ChunkPoolLaws (list (list bytes)) := {| pool_ok := freeLists_ok |}.
Next Obligation.
  intros i n p Hp Hn. simpl. destruct (p !! i) as [[|c cs]|] eqn:E; simpl.
  2: { pose proof (Hp i n _ Hn E) as Hcs. apply Forall_cons in Hcs as [Hc Hcs]. split; [done|].
       intros j m ds Hm Hd. apply list_lookup_insert_Some in Hd as [(<- & <- & _)|[_ Hd]]; [by simplify_eq|by eapply Hp]. }
  all: split; [|done]; unfold zlen; rewrite length_replicate, Hn; simpl.
  all: assert (1024 <= n) by (apply class_pos; by eapply list_elem_of_lookup_2); lia.
Qed.
Next Obligation.
  intros i n b p Hp Hn Hb j m cs Hm Hc. simpl in Hc. destruct (decide (i = j)) as [<-|Hne].
  - rewrite list_lookup_alter_eq in Hc. destruct (p !! i) as [ds|] eqn:Hd; [|done]. simplify_eq/=.
    apply Forall_cons. split; [done|by eapply Hp].
  - rewrite list_lookup_alter_ne in Hc by done. by eapply Hp.
Qed.

Lemma dataBuffer_refines_queue_witness :
  exists b rs, buf_run (newDataBuffer 3) [[]; []; []; []; []] [BWrite [1; 2; 3]; BRead [0; 0]; BWrite [4]; BRead [0; 0; 0]; BRead [9]] = Some (b, rs) /\
    rs = [Wrote 3; Read (inl ([1; 2], 2)); Wrote 1; Read (inl ([3; 4; 0], 2)); Read (inr errReadEmpty)].
Proof.
  destruct (dataBuffer_refines_queue (P := list (list bytes)) [[]; []; []; []; []] 3
    [BWrite [1; 2; 3]; BRead [0; 0]; BWrite [4]; BRead [0; 0; 0]; BRead [9]]) as (b & rs & E & Hq & _).
  - intros i n cs Hn Hc. apply list_elem_of_lookup_2 in Hc. set_unfold in Hc.
    assert (cs = []) as -> by (repeat destruct Hc as [->|Hc]; done). by apply Forall_nil.
  - exists b, rs. split; [exact E|]. vm_compute in Hq. congruence.
Defined.
