(* ===== verification/Pipe.v ===== *)
(** * Package http2: the pipe between a stream's frames and its reader

    Models src/http2/pipe.go.  Each operation runs under the pipe's mutex, so it is
    one atomic step on the record [pipe]; a [Read] that has to wait on the condition
    variable leaves the state unchanged and is tried again.  The buffer is the
    interface [PipeBuffer]; [DataBuffer.v] provides its implementation. *)

From S2P Require Import Prelude DataBuffer.

(** ** The interface pipeBuffer *)
Class PipeBuffer (B E : Type) := {
  pb_Len : B -> Z;
  pb_Write : B -> bytes -> option (B * (Z * option E));
  pb_Read : B -> bytes -> option (B * bytes * (Z * option E))
}.

(** What the pipe relies on: a queue of bytes. *)
Class PipeBufferLaws (B E : Type) `{PipeBuffer B E} := {
  pb_ok : B -> Prop;
  pb_contents : B -> bytes;
  pb_Len_spec : forall b, pb_ok b -> pb_Len b = zlen (pb_contents b);
  pb_Write_spec : forall b d, pb_ok b ->
    exists b', pb_Write b d = Some (b', (zlen d, None)) /\ pb_ok b' /\ pb_contents b' = pb_contents b ++ d;
  pb_Read_spec : forall b d, pb_ok b -> pb_contents b <> [] ->
    exists b', let got := take (length d) (pb_contents b) in
      pb_Read b d = Some (b', got ++ drop (length got) d, (zlen got, None)) /\
      pb_ok b' /\ pb_contents b' = drop (length d) (pb_contents b)
}.

(** The data buffer, with the pools it uses, is such a buffer. *)
Definition db_Read {P E} `{ChunkPool P} (errOf : buf_error -> E) (bp : dataBuffer * P) (d : bytes)
  : option (dataBuffer * P * bytes * (Z * option E)) :=
  '(b, p, r) ← buf_Read (fst bp) (snd bp) d;
  Some (match r with
        | inl (d', n) => ((b, p), d', (n, None))
        | inr e => ((b, p), d, (0, Some (errOf e)))
        end).

Definition db_Write {P E} `{ChunkPool P} (bp : dataBuffer * P) (d : bytes)
  : option (dataBuffer * P * (Z * option E)) :=
  '(b, p, n) ← buf_Write (fst bp) (snd bp) d; Some ((b, p), (n, None)).

(** The errors of a buffer's user include the buffer's own. *)
Class BufError (E : Type) := errOf : buf_error -> E.
#[global] Instance buf_error_itself : BufError buf_error := id.

#[global] Instance dataBuffer_pipeBuffer {P E} `{ChunkPool P} `{BufError E} : PipeBuffer (dataBuffer * P) E := {|
  pb_Len bp := buf_Len (fst bp);
  pb_Write := db_Write;
  pb_Read := db_Read errOf
|}.

#[global] Program Instance dataBuffer_pipeBufferLaws {P E} `{ChunkPoolLaws P} `{BufError E} : PipeBufferLaws (dataBuffer * P) E := {|
  pb_ok bp := buf_ok (fst bp) /\ pool_ok (snd bp);
  pb_contents bp := contents (fst bp)
|}.
Next Obligation. intros P E HP HL HE [b p] [Hb Hp]. symmetry. by apply contents_length. Qed.
Next Obligation.
  intros P E HP HL HE [b p] d [Hb Hp]. destruct (buf_step_refines b p (BWrite d) Hb Hp) as (b' & p' & r & Er & Hb' & Hp' & Hq).
  simpl in Er, Hq. simpl. unfold db_Write. simpl. destruct (buf_Write b p d) as [[[b1 p1] n]|]; simpl in *; [|done].
  simplify_eq. by eexists (b', p').
Qed.
Next Obligation.
  intros P E HP HL HE [b p] d [Hb Hp] Hne. destruct (buf_step_refines b p (BRead d) Hb Hp) as (b' & p' & r & Er & Hb' & Hp' & Hq).
  simpl in Er, Hq, Hne. simpl. unfold db_Read. simpl. destruct (buf_Read b p d) as [[[b1 p1] r1]|]; simpl in *; [|done].
  destruct (contents b) as [|x q]; [done|]. simplify_eq. simpl. by exists (b', p').
Qed.

(** ** The pipe *)
Section pipe.
Context {B E F : Type} `{PipeBuffer B E} (errClosedPipeWrite : E).

Record pipe := mkPipe {
  p_b : option B;
  p_unread : Z;
  p_err : option E;
  p_breakErr : option E;
  p_donec : option bool;         (* made; closed *)
  p_readFn : option F
}.

Definition zeroPipe : pipe := mkPipe None 0 None None None None.

Definition setBuffer (p : pipe) (b : B) : pipe :=
  match p_err p, p_breakErr p with
  | None, None => mkPipe (Some b) (p_unread p) (p_err p) (p_breakErr p) (p_donec p) (p_readFn p)
  | _, _ => p
  end.

Definition pipe_Len (p : pipe) : Z :=
  match p_b p with None => p_unread p | Some b => pb_Len b end.

(** The outcome of one attempt of [Read]: wait, or return the destination, the
    count, the error and the function that was run. *)
Inductive read_outcome := Wait | Returned (dst : bytes) (n : Z) (err : option E) (ran : option F).

Definition pipe_Read (p : pipe) (d : bytes) : option (pipe * read_outcome) :=
  match p_breakErr p with
  | Some e => Some (p, Returned d 0 (Some e) None)
  | None =>
      match p_b p with
      | Some b =>
          if pb_Len b >? 0 then
            '(b, d, (n, err)) ← pb_Read b d;
            Some (mkPipe (Some b) (p_unread p) (p_err p) (p_breakErr p) (p_donec p) (p_readFn p),
                  Returned d n err None)
          else match p_err p with
               | Some e => Some (mkPipe None (p_unread p) (p_err p) (p_breakErr p) (p_donec p) None,
                                 Returned d 0 (Some e) (p_readFn p))
               | None => Some (p, Wait)
               end
      | None =>
          match p_err p with
          | Some e => Some (mkPipe None (p_unread p) (p_err p) (p_breakErr p) (p_donec p) None,
                            Returned d 0 (Some e) (p_readFn p))
          | None => Some (p, Wait)
          end
      end
  end.

(** [None] is the nil dereference of a pipe without a buffer. *)
Definition pipe_Write (p : pipe) (d : bytes) : option (pipe * (Z * option E)) :=
  match p_err p, p_breakErr p with
  | Some _, _ => Some (p, (0, Some errClosedPipeWrite))
  | None, Some _ =>
      Some (mkPipe (p_b p) (p_unread p + zlen d) (p_err p) (p_breakErr p) (p_donec p) (p_readFn p), (zlen d, None))
  | None, None =>
      b ← p_b p;
      '(b, r) ← pb_Write b d;
      Some (mkPipe (Some b) (p_unread p) (p_err p) (p_breakErr p) (p_donec p) (p_readFn p), r)
  end.

(** The channel is closed once, if it was made. *)
Definition closeDoneLocked (p : pipe) : pipe :=
  match p_donec p with
  | None => p
  | Some _ => mkPipe (p_b p) (p_unread p) (p_err p) (p_breakErr p) (Some true) (p_readFn p)
  end.

(** [closeWithError] with [dst] the field [err] or [breakErr]; [None] is the panic on
    a nil error. *)
Definition closeWithErr (p : pipe) (err : option E) (fn : option F) : option pipe :=
  e ← err;
  match p_err p with
  | Some _ => Some p
  | None => Some (closeDoneLocked (mkPipe (p_b p) (p_unread p) (Some e) (p_breakErr p) (p_donec p) fn))
  end.

Definition closeWithBreakErr (p : pipe) (err : option E) (fn : option F) : option pipe :=
  e ← err;
  match p_breakErr p with
  | Some _ => Some p
  | None =>
      let unread := match p_b p with Some b => p_unread p + pb_Len b | None => p_unread p end in
      Some (closeDoneLocked (mkPipe None unread (p_err p) (Some e) (p_donec p) fn))
  end.

Definition CloseWithError (p : pipe) (err : option E) : option pipe := closeWithErr p err None.
Definition BreakWithError (p : pipe) (err : option E) : option pipe := closeWithBreakErr p err None.
Definition closeWithErrorAndCode (p : pipe) (err : option E) (fn : F) : option pipe := closeWithErr p err (Some fn).

Definition pipe_Err (p : pipe) : option E :=
  match p_breakErr p with Some e => Some e | None => p_err p end.

(** [Done]: the state and whether the returned channel is closed. *)
Definition Done (p : pipe) : pipe * bool :=
  match p_donec p with
  | Some closed => (p, closed)
  | None =>
      let closed := match p_err p, p_breakErr p with None, None => false | _, _ => true end in
      (mkPipe (p_b p) (p_unread p) (p_err p) (p_breakErr p) (Some closed) (p_readFn p), closed)
  end.

(** ** Interleavings of the two sides *)
Inductive pipe_op :=
| PWrite (d : bytes)
| PRead (d : bytes)
| PClose (e : E) (fn : option F)
| PBreak (e : E)
| PDone.

Inductive pipe_res :=
| WriteRes (n : Z) (err : option E)
| ReadRes (r : read_outcome)
| DoneRes (closed : bool)
| NoRes.

Definition pipe_step (p : pipe) (op : pipe_op) : option (pipe * pipe_res) :=
  match op with
  | PWrite d => '(p, (n, err)) ← pipe_Write p d; Some (p, WriteRes n err)
  | PRead d => '(p, r) ← pipe_Read p d; Some (p, ReadRes r)
  | PClose e fn => p ← closeWithErr p (Some e) fn; Some (p, NoRes)
  | PBreak e => p ← closeWithBreakErr p (Some e) None; Some (p, NoRes)
  | PDone => let '(p, c) := Done p in Some (p, DoneRes c)
  end.

Fixpoint pipe_run (p : pipe) (ops : list pipe_op) : option (pipe * list pipe_res) :=
  match ops with
  | [] => Some (p, [])
  | op :: ops => '(p, r) ← pipe_step p op; '(p, rs) ← pipe_run p ops; Some (p, r :: rs)
  end.

(** The bytes of the writes that reported success, and those reads returned. *)
Definition written1 (op : pipe_op) (r : pipe_res) : bytes :=
  match op, r with PWrite d, WriteRes _ None => d | _, _ => [] end.

Definition delivered1 (r : pipe_res) : bytes :=
  match r with ReadRes (Returned d n None _) => take (Z.to_nat n) d | _ => [] end.

Fixpoint written (ops : list pipe_op) (rs : list pipe_res) : bytes :=
  match ops, rs with op :: ops, r :: rs => written1 op r ++ written ops rs | _, _ => [] end.

Definition delivered (rs : list pipe_res) : bytes := concat (map delivered1 rs).

(** The error of the first close, and of the first break. *)
Fixpoint first_close (ops : list pipe_op) : option E :=
  match ops with [] => None | PClose e _ :: _ => Some e | _ :: ops => first_close ops end.

Fixpoint first_break (ops : list pipe_op) : option E :=
  match ops with [] => None | PBreak e :: _ => Some e | _ :: ops => first_break ops end.
End pipe.

Arguments pipe B E F : clear implicits.
Arguments pipe_op E F : clear implicits.
Arguments pipe_res E F : clear implicits.
Arguments read_outcome E F : clear implicits.

(** ** The pipe is first in, first out *)
Section theory.
Context {B E F : Type} `{PipeBufferLaws B E} (errClosedPipeWrite : E).
Implicit Types (p : pipe B E F) (op : pipe_op E F) (rs : list (pipe_res E F)).

(** [w] has been written and [dl] delivered. *)
Definition pipe_inv p (w dl : bytes) : Prop :=
  match p_breakErr p with
  | None => match p_b p with
            | Some b => pb_ok b /\ w = dl ++ pb_contents b
            | None => p_err p <> None /\ w = dl
            end /\ p_unread p = 0
  | Some _ => p_b p = None /\ p_unread p = zlen w - zlen dl /\ dl `prefix_of` w
  end /\
  (forall c, p_donec p = Some c -> c = bool_decide (p_err p <> None \/ p_breakErr p <> None)).

Lemma closeDone_inv p w dl :
  (p_err p <> None \/ p_breakErr p <> None) ->
  (pipe_inv (mkPipe (p_b p) (p_unread p) (p_err p) (p_breakErr p) None (p_readFn p)) w dl) ->
  pipe_inv (closeDoneLocked p) w dl.
Proof.
  intros He [Hi _]. unfold closeDoneLocked. destruct p as [b u err brk [c|] fn]; simpl in *; (split; [done|]); simpl; [|done].
  intros ? [= <-]. symmetry. by apply bool_decide_eq_true.
Qed.

Lemma written1_nil op r : (forall d, op <> PWrite d) -> written1 op r = [].
Proof. intros Hop. destruct op; simpl; try done. by destruct (Hop d). Qed.

Lemma pipe_Read_inv p w dl d :
  pipe_inv p w dl ->
  exists p' r, pipe_Read p d = Some (p', r) /\ pipe_inv p' w (dl ++ delivered1 (ReadRes r)) /\
    p_err p' = p_err p /\ p_breakErr p' = p_breakErr p /\
    match r with
    | Returned _ _ (Some e) _ =>
        p_breakErr p = Some e \/ (p_breakErr p = None /\ p_err p = Some e /\ w = dl)
    | _ => p_breakErr p = None
    end.
Proof.
  intros Hinv. pose proof Hinv as [Hi Hd]. unfold pipe_Read. destruct (p_breakErr p) as [e|] eqn:Hb.
  { exists p, (Returned d 0 (Some e) None). simpl. rewrite app_nil_r, Hb. split_and!; auto. }
  assert (forall b e, p_b p = b -> p_err p = Some e -> w = dl ->
    pipe_inv (mkPipe None (p_unread p) (Some e) None (p_donec p) None) w dl) as Hclosed.
  { intros b e _ He Hw. rewrite He in Hd. split; simpl; [split; [done|by apply Hi]|done]. }
  destruct (p_b p) as [b|] eqn:Ep.
  - destruct Hi as [[Hok Hw] Hu]. rewrite pb_Len_spec by done. rewrite Z.gtb_ltb.
    destruct (Z.ltb_spec 0 (zlen (pb_contents b))) as [Hlt|Hge].
    + destruct (pb_Read_spec b d Hok) as (b' & Er & Hok' & Hc).
      { intros E0. rewrite E0 in Hlt. done. }
      rewrite Er. simpl. eexists _, _. split; [done|]. simpl. split; [|done].
      split; [|done]. simpl. split; [|done]. split; [done|].
      unfold zlen. rewrite Nat2Z.id, take_app_length, Hw, Hc, <- app_assoc, take_drop. done.
    + assert (pb_contents b = []) as E0.
      { destruct (pb_contents b) as [|x l]; [done|]. rewrite zlen_cons in Hge. pose proof (zlen_nonneg l). lia. }
      rewrite E0, app_nil_r in Hw.
      destruct (p_err p) as [e|] eqn:Ee; (eexists _, _; split; [done|]); simpl; rewrite app_nil_r.
      * split; [by apply (Hclosed (Some b))|naive_solver].
      * by rewrite Hb, Ee.
  - destruct Hi as [[He Hw] Hu]. destruct (p_err p) as [e|] eqn:Ee; [|done].
    eexists _, _. split; [done|]. simpl. rewrite app_nil_r. split; [by apply (Hclosed None)|naive_solver].
Qed.

Lemma pipe_step_inv p w dl op :
  pipe_inv p w dl ->
  exists p' r, pipe_step errClosedPipeWrite p op = Some (p', r) /\
    pipe_inv p' (w ++ written1 op r) (dl ++ delivered1 r) /\
    p_err p' = match p_err p with Some e => Some e | None => first_close [op] end /\
    p_breakErr p' = match p_breakErr p with Some e => Some e | None => first_break [op] end.
Proof.
  intros Hinv. pose proof Hinv as [Hi Hd]. destruct op as [d|d|e fn|e|]; simpl.
  - unfold pipe_Write. destruct (p_err p) as [e|] eqn:Ee.
    { simpl. eexists _, _. split; [done|]. simpl. rewrite !app_nil_r, ?Ee. by destruct (p_breakErr p). }
    destruct (p_breakErr p) as [e|] eqn:Eb.
    + simpl. eexists _, _. split; [done|]. simpl. rewrite app_nil_r, ?Ee, ?Eb. split; [|done]. split; [simpl|done].
      rewrite ?Eb. destruct Hi as (Hbn & Hu & Hp). split; [done|]. rewrite zlen_app. split; [lia|by apply prefix_app_r].
    + destruct (p_b p) as [b|]; [|by destruct Hi as [[? ?] ?]]. destruct Hi as [[Hok Hw] Hu].
      simpl. destruct (pb_Write_spec b d Hok) as (b' & -> & Hok' & Hc). simpl.
      eexists _, _. split; [done|]. simpl. rewrite app_nil_r, ?Ee, ?Eb. split; [|done]. split; [simpl|done].
      rewrite ?Eb. split; [|done]. split; [done|]. by rewrite Hw, Hc, app_assoc.
  - destruct (pipe_Read_inv p w dl d Hinv) as (p' & r & -> & Hi' & He & Hb & _). simpl.
    exists p', (ReadRes r). split; [done|]. rewrite app_nil_r, He, Hb. split; [done|].
    by destruct (p_err p), (p_breakErr p).
  - unfold closeWithErr. simpl. destruct (p_err p) as [e'|] eqn:Ee; simpl.
    + eexists _, _. split; [done|]. simpl. rewrite !app_nil_r, ?Ee. by destruct (p_breakErr p).
    + eexists _, _. split; [done|]. simpl. rewrite !app_nil_r. split; [|by unfold closeDoneLocked; destruct (p_donec p), (p_breakErr p)].
      apply closeDone_inv; [by left|]. split; [|done]. simpl. destruct (p_breakErr p); [done|].
      destruct (p_b p); [done|]. by destruct Hi as [[? ?] ?].
  - unfold closeWithBreakErr. simpl. destruct (p_breakErr p) as [e'|] eqn:Eb; simpl.
    + eexists _, _. split; [done|]. simpl. rewrite !app_nil_r, ?Eb. by destruct (p_err p).
    + eexists _, _. split; [done|]. simpl. rewrite !app_nil_r. split; [|by unfold closeDoneLocked; destruct (p_donec p), (p_err p)].
      apply closeDone_inv; [by right|]. split; [|done]. simpl. split; [done|].
      destruct (p_b p) as [b|].
      * destruct Hi as [[Hok ->] Hu]. rewrite pb_Len_spec, zlen_app by done. split; [lia|by exists (pb_contents b)].
      * destruct Hi as [[_ ->] Hu]. split; [lia|done].
  - unfold Done. destruct (p_donec p) as [c|] eqn:Ec; (eexists _, _; split; [done|]); simpl; rewrite !app_nil_r.
    + split; [done|]. by destruct (p_err p), (p_breakErr p).
    + split; [|by destruct (p_err p), (p_breakErr p)]. split; [done|]. simpl. intros c [= <-]. clear Hinv Hi Hd.
      destruct (p_err p), (p_breakErr p); symmetry;
        first [apply bool_decide_eq_true; first [by left|by right]|apply bool_decide_eq_false; intros [?|?]; done].
Qed.
Definition later (x y : option E) : option E := match x with Some e => Some e | None => y end.

Lemma later_assoc x y z : later (later x y) z = later x (later y z).
Proof. by destruct x. Qed.

Lemma first_close_cons op ops : first_close (op :: ops) = later (first_close [op]) (first_close ops).
Proof. by destruct op. Qed.

Lemma first_break_cons op ops : first_break (op :: ops) = later (first_break [op]) (first_break ops).
Proof. by destruct op. Qed.

Lemma pipe_run_inv ops : forall p w dl,
  pipe_inv p w dl ->
  exists p' rs, pipe_run errClosedPipeWrite p ops = Some (p', rs) /\
    pipe_inv p' (w ++ written ops rs) (dl ++ delivered rs) /\
    p_err p' = later (p_err p) (first_close ops) /\
    p_breakErr p' = later (p_breakErr p) (first_break ops).
Proof.
  induction ops as [|op ops IH]; intros p w dl Hinv; simpl.
  { exists p, []. unfold delivered. simpl. rewrite !app_nil_r. by destruct (p_err p), (p_breakErr p). }
  destruct (pipe_step_inv p w dl op Hinv) as (p1 & r & -> & Hinv1 & He1 & Hb1). simpl.
  destruct (IH p1 _ _ Hinv1) as (p' & rs & -> & Hinv' & He' & Hb'). simpl.
  exists p', (r :: rs). unfold delivered in *. simpl. rewrite !app_assoc. split; [done|]. split; [done|].
  fold (first_close (op :: ops)). fold (first_break (op :: ops)).
  rewrite He', Hb', He1, Hb1.
  change (match p_err p with Some e => Some e | None => first_close [op] end) with (later (p_err p) (first_close [op])).
  change (match p_breakErr p with Some e => Some e | None => first_break [op] end) with (later (p_breakErr p) (first_break [op])).
  rewrite !later_assoc, <- first_close_cons, <- first_break_cons. done.
Qed.

(** The result of operation [k] comes from the state after the first [k]. *)
Lemma pipe_run_at k : forall ops p p' rs op,
  pipe_run errClosedPipeWrite p ops = Some (p', rs) -> ops !! k = Some op ->
  exists pk p2 r, pipe_run errClosedPipeWrite p (take k ops) = Some (pk, take k rs) /\
    pipe_step errClosedPipeWrite pk op = Some (p2, r) /\ rs !! k = Some r.
Proof.
  induction k as [|k IH]; intros [|op0 ops] p p' rs op Erun Hk; simpl in *; try done.
  - simplify_eq. destruct (pipe_step errClosedPipeWrite p op) as [[p1 r]|] eqn:E1; simpl in Erun; [|done].
    destruct (pipe_run errClosedPipeWrite p1 ops) as [[p2 rs2]|]; simpl in Erun; [|done].
    simplify_eq. exists p, p1, r. auto.
  - destruct (pipe_step errClosedPipeWrite p op0) as [[p1 r]|] eqn:E1; simpl in Erun |- *; [|done].
    destruct (pipe_run errClosedPipeWrite p1 ops) as [[p2 rs2]|] eqn:E2; simpl in Erun; [|done].
    injection Erun as -> <-. destruct (IH ops p1 p' rs2 op E2 Hk) as (pk & p3 & r3 & Er & Es & Hr).
    exists pk, p3, r3. simpl. rewrite Er. auto.
Qed.

(** C35: the pipe is first in, first out, and loses nothing.  For every interleaving
    of writes, reads, closes and breaks on a pipe with an empty buffer: the
    operations never dereference a missing buffer; the bytes delivered are a
    prefix of the bytes written, and [Len] is the number still missing; a read
    fails only with the first break error, or, when the pipe was not broken, with
    the first close error and then only after every byte written has been
    delivered. *)
Theorem pipe_fifo (b : B) ops :
  pb_ok b -> pb_contents b = [] ->
  exists p rs, pipe_run errClosedPipeWrite (setBuffer zeroPipe b) ops = Some (p, rs) /\
    delivered rs `prefix_of` written ops rs /\
    pipe_Len p = zlen (written ops rs) - zlen (delivered rs) /\
    forall k d d' n e ran, ops !! k = Some (PRead d) -> rs !! k = Some (ReadRes (Returned d' n (Some e) ran)) ->
      first_break (take k ops) = Some e \/
      (first_break (take k ops) = None /\ first_close (take k ops) = Some e /\
       delivered (take k rs) = written (take k ops) (take k rs)).
Proof.
  intros Hok Hb. assert (pipe_inv (setBuffer zeroPipe b) [] []) as Hinv.
  { split; simpl; [|done]. by rewrite Hb. }
  destruct (pipe_run_inv ops _ _ _ Hinv) as (p & rs & Erun & [Hi _] & _). exists p, rs. split; [done|].
  simpl in Hi. split; [|split].
  - destruct (p_breakErr p); [apply Hi|]. destruct (p_b p) as [b'|]; [|by destruct Hi as [[_ ->] _]].
    destruct Hi as [[_ ->] _]. by exists (pb_contents b').
  - unfold pipe_Len. destruct (p_breakErr p); [destruct Hi as (-> & -> & _); done|].
    destruct (p_b p) as [b'|].
    + destruct Hi as [[Hok' ->] _]. rewrite pb_Len_spec, zlen_app by done. lia.
    + destruct Hi as [[_ ->] ->]. lia.
  - intros k d d' n e ran Hop Hr. destruct (pipe_run_at k ops _ _ _ _ Erun Hop) as (pk & p2 & r & Ek & Es & Hr').
    destruct (pipe_run_inv (take k ops) _ _ _ Hinv) as (pk' & rsk & Ek' & Hinvk & He & Hbk). simpl in He, Hbk.
    rewrite Ek in Ek'. injection Ek' as <- <-. simpl in Es, Hinvk.
    destruct (pipe_Read_inv pk _ _ d Hinvk) as (p3 & r3 & E3 & _ & _ & _ & Hr3).
    rewrite E3 in Es. simpl in Es. simplify_eq. rewrite <- He, <- Hbk. destruct Hr3 as [?|(? & ? & ?)]; auto.
Qed.
End theory.

Lemma pipe_fifo_witness :
  exists p rs,
    pipe_run (B := dataBuffer * list (list bytes)) (F := unit) errReadEmpty
      (setBuffer zeroPipe (newDataBuffer 0, [[]; []; []; []; []]))
      [PRead [0]; PWrite [1; 2; 3]; PClose errReadEmpty None; PRead [0; 0]; PRead [0; 0]; PRead [0]] = Some (p, rs) /\
    delivered rs = [1; 2; 3] /\ delivered rs `prefix_of` [1; 2; 3].
Proof.
  edestruct (pipe_fifo (B := dataBuffer * list (list bytes)) (F := unit) errReadEmpty
    (newDataBuffer 0, [[]; []; []; []; []])
    [PRead [0]; PWrite [1; 2; 3]; PClose errReadEmpty None; PRead [0; 0]; PRead [0; 0]; PRead [0]])
    as (p & rs & E & Hp & _).
  - split; [apply new_buf_ok|]. intros i n cs Hn Hc. apply list_elem_of_lookup_2 in Hc. set_unfold in Hc.
    assert (cs = []) as -> by (repeat destruct Hc as [->|Hc]; done). by apply Forall_nil.
  - done.
  - exists p, rs. split; [exact E|].
    vm_compute in E. injection E as <- <-. split; [reflexivity|exact Hp].
Defined.
