(* ===== verification/Frame.v ===== *)
(** * Package http2: reading frames

    Models the reading half of src/http2/frame.go (with Setting of http2.go and the
    errors of errors.go): the frame types, the payload parsers, the frame header,
    the order check of HEADERS and CONTINUATION, and [ReadFrame] without header
    merging (see FrameMeta.v).  The reader is the byte string still to come. *)

From S2P Require Import Prelude.

(** ** Frame types and flags *)
Definition FrameType_Data : Z := 0x0.
Definition FrameType_Headers : Z := 0x1.
Definition FrameType_Priority : Z := 0x2.
Definition FrameType_RSTStream : Z := 0x3.
Definition FrameType_Settings : Z := 0x4.
Definition FrameType_PushPromise : Z := 0x5.
Definition FrameType_Ping : Z := 0x6.
Definition FrameType_GoAway : Z := 0x7.
Definition FrameType_WindowUpdate : Z := 0x8.
Definition FrameType_Continuation : Z := 0x9.

Definition Flags_Has (f v : Z) : bool := Z.land f v =? v.

Definition FlagDataEndStream : Z := 0x1.
Definition FlagDataPadded : Z := 0x8.
Definition FlagHeadersEndStream : Z := 0x1.
Definition FlagHeadersEndHeaders : Z := 0x4.
Definition FlagHeadersPadded : Z := 0x8.
Definition FlagHeadersPriority : Z := 0x20.
Definition FlagSettingsAck : Z := 0x1.
Definition FlagPingAck : Z := 0x1.
Definition FlagContinuationEndHeaders : Z := 0x4.
Definition FlagPushPromiseEndHeaders : Z := 0x4.
Definition FlagPushPromisePadded : Z := 0x8.

(** ** Error codes (errors.go) *)
Definition ErrCodeNo : Z := 0x0.
Definition ErrCodeProtocol : Z := 0x1.
Definition ErrCodeInternal : Z := 0x2.
Definition ErrCodeFlowControl : Z := 0x3.
Definition ErrCodeSettingsTimeout : Z := 0x4.
Definition ErrCodeStreamClosed : Z := 0x5.
Definition ErrCodeFrameSize : Z := 0x6.
Definition ErrCodeRefusedStream : Z := 0x7.
Definition ErrCodeCancel : Z := 0x8.
Definition ErrCodeCompression : Z := 0x9.
Definition ErrCodeConnect : Z := 0xa.
Definition ErrCodeEnhanceYourCalm : Z := 0xb.
Definition ErrCodeInadequateSecurity : Z := 0xc.
Definition ErrCodeHTTP11Required : Z := 0xd.

(** Details of an error: a fixed text, or a text with the values it is formatted from. *)
Inductive reason :=
| Text (s : string)
| PriorityPayloadSize (n : Z)
| ExpectedContinuation (gotType gotStream lastType lastStream : Z)
| ContinuationForStream (got expected : Z)
| UnexpectedContinuation (stream : Z)
| pseudoHeaderError (name : bytes)
| duplicatePseudoHeaderError (name : bytes)
| headerFieldNameError (name : bytes)
| headerFieldValueError (name : bytes)
| errMixPseudoHeaderTypes
| errPseudoAfterRegular.

Inductive frame_error :=
| ConnectionError (code : Z)
| StreamError (id code : Z) (cause : option reason)
| connError (code : Z) (r : reason)
| ErrFrameTooLarge
| EOF
| ErrUnexpectedEOF
| errStreamID
| errDepStreamID
| errPadLength
| errPadBytes
| errWindowIncrement
| errIllegalMeta.

Definition streamError (id code : Z) : frame_error := StreamError id code None.

Definition terminalReadFrameError (err : option frame_error) : bool :=
  match err with Some (StreamError _ _ _) => false | Some _ => true | None => false end.

(** ** Frames *)
Record FrameHeader := mkFH {
  fh_Type : Z;                   (* uint8 *)
  fh_Flags : Z;                  (* uint8 *)
  fh_Length : Z;                 (* uint32 *)
  fh_StreamID : Z                (* uint32 *)
}.

Record PriorityParam := mkPrio {
  StreamDep : Z;                 (* uint32 *)
  Exclusive : bool;
  Weight : Z                     (* uint8 *)
}.

Definition zeroPriority : PriorityParam := mkPrio 0 false 0.

#[global] Instance PriorityParam_eq_dec : EqDecision PriorityParam.
Proof. solve_decision. Defined.

Definition Priority_IsZero (p : PriorityParam) : bool := bool_decide (p = zeroPriority).

Inductive Frame :=
| DataFrame (fh : FrameHeader) (data : bytes)
| HeadersFrame (fh : FrameHeader) (prio : PriorityParam) (headerFragBuf : bytes)
| PriorityFrame (fh : FrameHeader) (prio : PriorityParam)
| RSTStreamFrame (fh : FrameHeader) (code : Z)
| SettingsFrame (fh : FrameHeader) (p : bytes)
| PushPromiseFrame (fh : FrameHeader) (PromiseID : Z) (headerFragBuf : bytes)
| PingFrame (fh : FrameHeader) (Data : bytes)
| GoAwayFrame (fh : FrameHeader) (LastStreamID ErrCode : Z) (debugData : bytes)
| WindowUpdateFrame (fh : FrameHeader) (Increment : Z)
| ContinuationFrame (fh : FrameHeader) (headerFragBuf : bytes)
| UnknownFrame (fh : FrameHeader) (p : bytes).

Definition Header (f : Frame) : FrameHeader :=
  match f with
  | DataFrame fh _ | HeadersFrame fh _ _ | PriorityFrame fh _ | RSTStreamFrame fh _ | SettingsFrame fh _
  | PushPromiseFrame fh _ _ | PingFrame fh _ | GoAwayFrame fh _ _ _ | WindowUpdateFrame fh _
  | ContinuationFrame fh _ | UnknownFrame fh _ => fh
  end.

(** ** Payload parsers

    A parser returns the frame, or the token it counts together with its error;
    [Panic] is an index or slice out of range. *)
Abbreviation parsed := (outcome (string * frame_error) Frame).

Definition readByte (p : bytes) : option (bytes * Z) :=
  match p with [] => None | b :: p => Some (p, b) end.

(** [binary.BigEndian] on the first bytes of a slice. *)
Definition Uint32 (p : bytes) : option Z :=
  match p with a :: b :: c :: d :: _ => Some (be32 a b c d) | _ => None end.

Definition Uint16 (p : bytes) : option Z :=
  match p with a :: b :: _ => Some (be16 a b) | _ => None end.

Definition readUint32 (p : bytes) : option (bytes * Z) :=
  if zlen p <? 4 then None else v ← Uint32 p; Some (drop 4 p, v).

(** [p[:len(p)-pad]] and the frame made from it. *)
Definition unpad (p : bytes) (pad : Z) (k : bytes -> Frame) : parsed :=
  match zslice p 0 (zlen p - pad) with Some d => Ret (k d) | None => Panic end.

Definition parseDataFrame (fh : FrameHeader) (payload : bytes) : parsed :=
  if fh_StreamID fh =? 0 then
    Fail ("frame_data_stream_0"%string, connError ErrCodeProtocol (Text "DATA frame with stream ID 0"))
  else
    let padded := Flags_Has (fh_Flags fh) FlagDataPadded in
    match (if padded then readByte payload else Some (payload, 0)) with
    | None => Fail ("frame_data_pad_byte_short"%string, ErrUnexpectedEOF)
    | Some (payload, padSize) =>
        if padSize >? zlen payload then
          Fail ("frame_data_pad_too_big"%string,
                connError ErrCodeProtocol (Text "pad size larger than data payload"))
        else unpad payload padSize (DataFrame fh)
    end.

(** ** Settings *)
Record Setting := mkSetting {
  s_ID : Z;                      (* uint16 *)
  s_Val : Z                      (* uint32 *)
}.

Definition SettingHeaderTableSize : Z := 0x1.
Definition SettingEnablePush : Z := 0x2.
Definition SettingMaxConcurrentStreams : Z := 0x3.
Definition SettingInitialWindowSize : Z := 0x4.
Definition SettingMaxFrameSize : Z := 0x5.
Definition SettingMaxHeaderListSize : Z := 0x6.

Definition Setting_Valid (s : Setting) : option frame_error :=
  if s_ID s =? SettingEnablePush then
    if negb (s_Val s =? 1) && negb (s_Val s =? 0) then Some (ConnectionError ErrCodeProtocol) else None
  else if s_ID s =? SettingInitialWindowSize then
    if s_Val s >? Z.shiftl 1 31 - 1 then Some (ConnectionError ErrCodeFlowControl) else None
  else if s_ID s =? SettingMaxFrameSize then
    if (s_Val s <? 16384) || (s_Val s >? Z.shiftl 1 24 - 1) then Some (ConnectionError ErrCodeProtocol) else None
  else None.

Definition NumSettings (p : bytes) : Z := zlen p / 6.

(** [None] is a slice out of range. *)
Definition Setting_at (p : bytes) (i : Z) : option Setting :=
  b1 ← zslice p (i * 6) (i * 6 + 2);
  b2 ← zslice p (i * 6 + 2) (i * 6 + 6);
  id ← Uint16 b1; v ← Uint32 b2;
  Some (mkSetting id v).

(** The loop [for i := from; i < NumSettings; i++] of [Value] over the [n] indices left. *)
Fixpoint valueFrom (n : nat) (p : bytes) (i id : Z) : option (option Z) :=
  match n with
  | O => Some None
  | S n => s ← Setting_at p i; if s_ID s =? id then Some (Some (s_Val s)) else valueFrom n p (i + 1) id
  end.

Definition Settings_Value (p : bytes) (id : Z) : option (option Z) :=
  valueFrom (Z.to_nat (NumSettings p)) p 0 id.

Fixpoint foreachFrom {St} (n : nat) (p : bytes) (i : Z) (fn : Setting -> St -> St * option frame_error) (s : St)
  : option (St * option frame_error) :=
  match n with
  | O => Some (s, None)
  | S n => x ← Setting_at p i;
           match fn x s with
           | (s, Some e) => Some (s, Some e)
           | (s, None) => foreachFrom n p (i + 1) fn s
           end
  end.

Definition ForeachSetting {St} (p : bytes) (fn : Setting -> St -> St * option frame_error) (s : St)
  : option (St * option frame_error) := foreachFrom (Z.to_nat (NumSettings p)) p 0 fn s.

(** [HasDuplicates]: the quadratic loops ([j] from [i+1]; [i] from 0) and the map. *)
Fixpoint dupInner (n : nat) (p : bytes) (idi j : Z) : option bool :=
  match n with
  | O => Some false
  | S n => s ← Setting_at p j; if idi =? s_ID s then Some true else dupInner n p idi (j + 1)
  end.

Fixpoint dupOuter (n : nat) (p : bytes) (i : Z) : option bool :=
  match n with
  | O => Some false
  | S n => s ← Setting_at p i;
           d ← dupInner n p (s_ID s) (i + 1);
           if (d : bool) then Some true else dupOuter n p (i + 1)
  end.

Fixpoint dupSeen (n : nat) (p : bytes) (i : Z) (seen : gset Z) : option bool :=
  match n with
  | O => Some false
  | S n => s ← Setting_at p i;
           if bool_decide (s_ID s ∈ seen) then Some true else dupSeen n p (i + 1) ({[s_ID s]} ∪ seen)
  end.

Definition HasDuplicates (p : bytes) : option bool :=
  let num := NumSettings p in
  if num =? 0 then Some false
  else if num <? 10 then dupOuter (Z.to_nat num) p 0
  else dupSeen (Z.to_nat num) p 0 ∅.

Definition parseSettingsFrame (fh : FrameHeader) (p : bytes) : parsed :=
  if Flags_Has (fh_Flags fh) FlagSettingsAck && (fh_Length fh >? 0) then
    Fail ("frame_settings_ack_with_length"%string, ConnectionError ErrCodeFrameSize)
  else if negb (fh_StreamID fh =? 0) then
    Fail ("frame_settings_has_stream"%string, ConnectionError ErrCodeProtocol)
  else if negb (zlen p mod 6 =? 0) then
    Fail ("frame_settings_mod_6"%string, ConnectionError ErrCodeFrameSize)
  else
    match Settings_Value p SettingInitialWindowSize with
    | None => Panic
    | Some (Some v) =>
        if v >? Z.shiftl 1 31 - 1 then
          Fail ("frame_settings_window_size_too_big"%string, ConnectionError ErrCodeFlowControl)
        else Ret (SettingsFrame fh p)
    | Some None => Ret (SettingsFrame fh p)
    end.

(** ** The other parsers *)
Definition parsePingFrame (fh : FrameHeader) (payload : bytes) : parsed :=
  if negb (zlen payload =? 8) then Fail ("frame_ping_length"%string, ConnectionError ErrCodeFrameSize)
  else if negb (fh_StreamID fh =? 0) then Fail ("frame_ping_has_stream"%string, ConnectionError ErrCodeProtocol)
  else Ret (PingFrame fh payload).

Definition parseGoAwayFrame (fh : FrameHeader) (p : bytes) : parsed :=
  if negb (fh_StreamID fh =? 0) then Fail ("frame_goaway_has_stream"%string, ConnectionError ErrCodeProtocol)
  else if zlen p <? 8 then Fail ("frame_goaway_short"%string, ConnectionError ErrCodeFrameSize)
  else
    match zslice p 0 4, zslice p 4 8, zslice p 8 (zlen p) with
    | Some a, Some b, Some debugData =>
        match Uint32 a, Uint32 b with
        | Some lastStreamID, Some code =>
            Ret (GoAwayFrame fh (Z.land lastStreamID (Z.shiftl 1 31 - 1)) code debugData)
        | _, _ => Panic
        end
    | _, _, _ => Panic
    end.

Definition parseUnknownFrame (fh : FrameHeader) (p : bytes) : parsed := Ret (UnknownFrame fh p).

Definition parseWindowUpdateFrame (fh : FrameHeader) (p : bytes) : parsed :=
  if negb (zlen p =? 4) then Fail ("frame_windowupdate_bad_len"%string, ConnectionError ErrCodeFrameSize)
  else
    match Uint32 p with
    | None => Panic
    | Some v =>
        let inc := Z.land v 0x7fffffff in
        if inc =? 0 then
          if fh_StreamID fh =? 0 then
            Fail ("frame_windowupdate_zero_inc_conn"%string, ConnectionError ErrCodeProtocol)
          else Fail ("frame_windowupdate_zero_inc_stream"%string, streamError (fh_StreamID fh) ErrCodeProtocol)
        else Ret (WindowUpdateFrame fh inc)
    end.

(** The priority of a HEADERS payload: the rest, and the parameters. *)
Definition readPriority (p : bytes) : bytes * PriorityParam + string * frame_error :=
  match readUint32 p with
  | None => inr ("frame_headers_prio_short"%string, ErrUnexpectedEOF)
  | Some (p, v) =>
      let dep := Z.land v 0x7fffffff in
      match readByte p with
      | None => inr ("frame_headers_prio_weight_short"%string, ErrUnexpectedEOF)
      | Some (p, w) => inl (p, mkPrio dep (negb (v =? dep)) w)
      end
  end.

Definition parseHeadersFrame (fh : FrameHeader) (p : bytes) : parsed :=
  if fh_StreamID fh =? 0 then
    Fail ("frame_headers_zero_stream"%string, connError ErrCodeProtocol (Text "HEADERS frame with stream ID 0"))
  else
    match (if Flags_Has (fh_Flags fh) FlagHeadersPadded then readByte p else Some (p, 0)) with
    | None => Fail ("frame_headers_pad_short"%string, ErrUnexpectedEOF)
    | Some (p, padLength) =>
        match (if Flags_Has (fh_Flags fh) FlagHeadersPriority then readPriority p else inl (p, zeroPriority)) with
        | inr e => Fail e
        | inl (p, prio) =>
            if zlen p - padLength <? 0 then
              Fail ("frame_headers_pad_too_big"%string, streamError (fh_StreamID fh) ErrCodeProtocol)
            else unpad p padLength (HeadersFrame fh prio)
        end
    end.

Definition parsePriorityFrame (fh : FrameHeader) (payload : bytes) : parsed :=
  if fh_StreamID fh =? 0 then
    Fail ("frame_priority_zero_stream"%string, connError ErrCodeProtocol (Text "PRIORITY frame with stream ID 0"))
  else if negb (zlen payload =? 5) then
    Fail ("frame_priority_bad_length"%string, connError ErrCodeFrameSize (PriorityPayloadSize (zlen payload)))
  else
    match Uint32 payload, zget payload 4 with
    | Some v, Some w =>
        let streamID := Z.land v 0x7fffffff in
        Ret (PriorityFrame fh (mkPrio streamID (negb (streamID =? v)) w))
    | _, _ => Panic
    end.

Definition parseRSTStreamFrame (fh : FrameHeader) (p : bytes) : parsed :=
  if negb (zlen p =? 4) then Fail ("frame_rststream_bad_len"%string, ConnectionError ErrCodeFrameSize)
  else if fh_StreamID fh =? 0 then Fail ("frame_rststream_zero_stream"%string, ConnectionError ErrCodeProtocol)
  else match Uint32 p with Some code => Ret (RSTStreamFrame fh code) | None => Panic end.

Definition parseContinuationFrame (fh : FrameHeader) (p : bytes) : parsed :=
  if fh_StreamID fh =? 0 then
    Fail ("frame_continuation_zero_stream"%string,
          connError ErrCodeProtocol (Text "CONTINUATION frame with stream ID 0"))
  else Ret (ContinuationFrame fh p).

Definition parsePushPromise (fh : FrameHeader) (p : bytes) : parsed :=
  if fh_StreamID fh =? 0 then Fail ("frame_pushpromise_zero_stream"%string, ConnectionError ErrCodeProtocol)
  else
    match (if Flags_Has (fh_Flags fh) FlagPushPromisePadded then readByte p else Some (p, 0)) with
    | None => Fail ("frame_pushpromise_pad_short"%string, ErrUnexpectedEOF)
    | Some (p, padLength) =>
        match readUint32 p with
        | None => Fail ("frame_pushpromise_promiseid_short"%string, ErrUnexpectedEOF)
        | Some (p, promiseID) =>
            if padLength >? zlen p then
              Fail ("frame_pushpromise_pad_too_big"%string, ConnectionError ErrCodeProtocol)
            else unpad p padLength (PushPromiseFrame fh (Z.land promiseID (Z.shiftl 1 31 - 1)))
        end
    end.

Definition typeFrameParser (t : Z) : FrameHeader -> bytes -> parsed :=
  if t =? FrameType_Data then parseDataFrame
  else if t =? FrameType_Headers then parseHeadersFrame
  else if t =? FrameType_Priority then parsePriorityFrame
  else if t =? FrameType_RSTStream then parseRSTStreamFrame
  else if t =? FrameType_Settings then parseSettingsFrame
  else if t =? FrameType_PushPromise then parsePushPromise
  else if t =? FrameType_Ping then parsePingFrame
  else if t =? FrameType_GoAway then parseGoAwayFrame
  else if t =? FrameType_WindowUpdate then parseWindowUpdateFrame
  else if t =? FrameType_Continuation then parseContinuationFrame
  else parseUnknownFrame.

(** ** Reading a frame *)
Definition frameHeaderLen : Z := 9.
Definition maxFrameSize : Z := Z.shiftl 1 24 - 1.

(** [io.ReadFull]: [n] bytes of the input, or the error at its end. *)
Definition ReadFull (r : bytes) (n : Z) : bytes * (bytes + frame_error) :=
  if n <=? zlen r then (drop (Z.to_nat n) r, inl (take (Z.to_nat n) r))
  else ([], inr (match r with [] => EOF | _ => ErrUnexpectedEOF end)).

Definition readFrameHeader (r : bytes) : bytes * (FrameHeader + frame_error) :=
  match ReadFull r frameHeaderLen with
  | (r, inl [b0; b1; b2; t; fl; b5; b6; b7; b8]) =>
      (r, inl (mkFH t fl (Z.lor (Z.lor (Z.shiftl b0 16) (Z.shiftl b1 8)) b2)
                 (Z.land (be32 b5 b6 b7 b8) (Z.shiftl 1 31 - 1))))
  | (r, inl _) => (r, inr ErrUnexpectedEOF)
  | (r, inr e) => (r, inr e)
  end.

(** The reading state of a [Framer]. *)
Record Framer := mkFramer {
  fr_r : bytes;                        (* what the reader still returns *)
  fr_lastFrame : option FrameHeader;
  fr_errDetail : option reason;
  fr_lastHeaderStream : Z;
  fr_maxReadSize : Z;
  fr_AllowIllegalReads : bool
}.

Definition SetMaxReadFrameSize (fr : Framer) (v : Z) : Framer :=
  mkFramer (fr_r fr) (fr_lastFrame fr) (fr_errDetail fr) (fr_lastHeaderStream fr)
    (if v >? maxFrameSize then maxFrameSize else v) (fr_AllowIllegalReads fr).

Definition NewFramer (r : bytes) : Framer :=
  SetMaxReadFrameSize (mkFramer r None None 0 0 false) maxFrameSize.

Definition setReader (fr : Framer) (r : bytes) : Framer :=
  mkFramer r (fr_lastFrame fr) (fr_errDetail fr) (fr_lastHeaderStream fr) (fr_maxReadSize fr) (fr_AllowIllegalReads fr).

Definition setErrDetail (fr : Framer) (d : option reason) : Framer :=
  mkFramer (fr_r fr) (fr_lastFrame fr) d (fr_lastHeaderStream fr) (fr_maxReadSize fr) (fr_AllowIllegalReads fr).

Definition setLast (fr : Framer) (last : option FrameHeader) (stream : Z) : Framer :=
  mkFramer (fr_r fr) last (fr_errDetail fr) stream (fr_maxReadSize fr) (fr_AllowIllegalReads fr).

(** [Framer.connError] *)
Definition fr_connError (fr : Framer) (code : Z) (r : reason) : Framer * frame_error :=
  (setErrDetail fr (Some r), ConnectionError code).

Definition nextHeaderStream (fr : Framer) (fh : FrameHeader) : Z :=
  if (fh_Type fh =? FrameType_Headers) || (fh_Type fh =? FrameType_Continuation) then
    if Flags_Has (fh_Flags fh) FlagHeadersEndHeaders then 0 else fh_StreamID fh
  else fr_lastHeaderStream fr.

(** The nil dereference of [last.Header()] is [Panic]. *)
Definition checkFrameOrder (fr : Framer) (fh : FrameHeader) : outcome (Framer * frame_error) Framer :=
  let last := fr_lastFrame fr in
  let fr := setLast fr (Some fh) (fr_lastHeaderStream fr) in
  if fr_AllowIllegalReads fr then Ret fr
  else if negb (fr_lastHeaderStream fr =? 0) then
    if negb (fh_Type fh =? FrameType_Continuation) then
      match last with
      | None => Panic
      | Some l => Fail (fr_connError fr ErrCodeProtocol
                          (ExpectedContinuation (fh_Type fh) (fh_StreamID fh) (fh_Type l) (fr_lastHeaderStream fr)))
      end
    else if negb (fh_StreamID fh =? fr_lastHeaderStream fr) then
      Fail (fr_connError fr ErrCodeProtocol (ContinuationForStream (fh_StreamID fh) (fr_lastHeaderStream fr)))
    else Ret (setLast fr (Some fh) (nextHeaderStream fr fh))
  else if fh_Type fh =? FrameType_Continuation then
    Fail (fr_connError fr ErrCodeProtocol (UnexpectedContinuation (fh_StreamID fh)))
  else Ret (setLast fr (Some fh) (nextHeaderStream fr fh)).

(** [ReadFrame] up to the merging of header blocks; [Panic] is a run-time panic. *)
Definition readFrame (fr : Framer) : outcome (Framer * frame_error) (Framer * Frame) :=
  let fr := setErrDetail fr None in
  match readFrameHeader (fr_r fr) with
  | (r, inr e) => Fail (setReader fr r, e)
  | (r, inl fh) =>
      let fr := setReader fr r in
      if fh_Length fh >? fr_maxReadSize fr then Fail (fr, ErrFrameTooLarge)
      else
        match ReadFull (fr_r fr) (fh_Length fh) with
        | (r, inr e) => Fail (setReader fr r, e)
        | (r, inl payload) =>
            let fr := setReader fr r in
            match typeFrameParser (fh_Type fh) fh payload with
            | Panic => Panic
            | Fail (_, connError code rs) => Fail (fr_connError fr code rs)
            | Fail (_, e) => Fail (fr, e)
            | Ret f => let! fr := checkFrameOrder fr (Header f) in Ret (fr, f)
            end
        end
  end.
