(* ===== verification/FrameWrite.v ===== *)
(** * Package http2: writing frames

    Models the [Write] methods of [Framer] in src/http2/frame.go: each one is the
    bytes it hands to the underlying writer in its single call, or the error it
    returns before.  The theorems are the round trips through [readFrame]. *)

From S2P Require Import Prelude Frame.

(** ** The write buffer *)
Definition bytes32 (v : Z) : bytes :=
  [u8 (Z.shiftr v 24); u8 (Z.shiftr v 16); u8 (Z.shiftr v 8); u8 v].
Definition bytes16 (v : Z) : bytes := [u8 (Z.shiftr v 8); u8 v].

Definition startWrite (ftype flags streamID : Z) : bytes :=
  [0; 0; 0; u8 ftype; u8 flags] ++ bytes32 streamID.

Definition endWrite (wbuf : bytes) : bytes + frame_error :=
  let length := zlen wbuf - frameHeaderLen in
  if length >=? Z.shiftl 1 24 then inr ErrFrameTooLarge
  else inl ([u8 (Z.shiftr length 16); u8 (Z.shiftr length 8); u8 length] ++ drop 3 wbuf).

(** [endWrite] with the underlying [Write] call; the encodings below are its argument. *)
Section Writer.
Context {Wr Err : Type} (write : Wr -> bytes -> Wr * (Z * option Err)) (ErrShortWrite : Err) (ofErr : frame_error -> Err).

Definition sendFrame (w : Wr) (frame : bytes + frame_error) : Wr * option Err :=
  match frame with
  | inr e => (w, Some (ofErr e))
  | inl wbuf =>
      let '(w, (n, err)) := write w wbuf in
      (w, match err with
          | None => if negb (n =? zlen wbuf) then Some ErrShortWrite else None
          | Some _ => err
          end)
  end.
End Writer.

Definition validStreamIDOrZero (streamID : Z) : bool := Z.land streamID (Z.shiftl 1 31) =? 0.
Definition validStreamID (streamID : Z) : bool :=
  negb (streamID =? 0) && (Z.land streamID (Z.shiftl 1 31) =? 0).

Definition orFlag (b : bool) (f : Z) (flags : Z) : Z := if b then Z.lor flags f else flags.

Definition padZeros : bytes := repeat 0 255.

(** ** The Write methods; [illegal] is [AllowIllegalWrites] *)

(** A nil [pad] is [None]. *)
Definition WriteDataPadded (illegal : bool) (streamID : Z) (endStream : bool) (data : bytes) (pad : option bytes)
  : bytes + frame_error :=
  if negb (validStreamID streamID) && negb illegal then inr errStreamID
  else
    let padBytes := default [] pad in
    if (zlen padBytes >? 0) && (zlen padBytes >? 255) then inr errPadLength
    else if (zlen padBytes >? 0) && negb illegal && negb (forallb (fun b => b =? 0) padBytes) then inr errPadBytes
    else
      let flags := orFlag endStream FlagDataEndStream 0 in
      let flags := orFlag (bool_decide (pad <> None)) FlagDataPadded flags in
      let wbuf := startWrite FrameType_Data flags streamID in
      let wbuf := match pad with Some p => wbuf ++ [u8 (zlen p)] | None => wbuf end in
      endWrite (wbuf ++ data ++ padBytes).

Definition WriteData (illegal : bool) (streamID : Z) (endStream : bool) (data : bytes) : bytes + frame_error :=
  WriteDataPadded illegal streamID endStream data None.

Definition WriteSettings (settings : list Setting) : bytes + frame_error :=
  endWrite (startWrite FrameType_Settings 0 0 ++
            concat (map (fun s => bytes16 (s_ID s) ++ bytes32 (s_Val s)) settings)).

Definition WriteSettingsAck : bytes + frame_error := endWrite (startWrite FrameType_Settings FlagSettingsAck 0).

Definition WritePing (ack : bool) (data : bytes) : bytes + frame_error :=
  endWrite (startWrite FrameType_Ping (if ack then FlagPingAck else 0) 0 ++ data).

Definition WriteGoAway (maxStreamID code : Z) (debugData : bytes) : bytes + frame_error :=
  endWrite (startWrite FrameType_GoAway 0 0 ++
            bytes32 (Z.land maxStreamID (Z.shiftl 1 31 - 1)) ++ bytes32 code ++ debugData).

Definition WriteWindowUpdate (illegal : bool) (streamID incr : Z) : bytes + frame_error :=
  if ((incr <? 1) || (incr >? 2147483647)) && negb illegal then inr errWindowIncrement
  else endWrite (startWrite FrameType_WindowUpdate 0 streamID ++ bytes32 incr).

Record HeadersFrameParam := mkHeadersParam {
  hp_StreamID : Z;
  hp_BlockFragment : bytes;
  hp_EndStream : bool;
  hp_EndHeaders : bool;
  hp_PadLength : Z;              (* uint8 *)
  hp_Priority : PriorityParam
}.

(** The word with the dependency and the exclusive bit. *)
Definition depWord (p : PriorityParam) : Z :=
  if Exclusive p then Z.lor (StreamDep p) (Z.shiftl 1 31) else StreamDep p.

Definition WriteHeaders (illegal : bool) (p : HeadersFrameParam) : bytes + frame_error :=
  if negb (validStreamID (hp_StreamID p)) && negb illegal then inr errStreamID
  else
    let prio := negb (Priority_IsZero (hp_Priority p)) in
    let flags := orFlag (negb (hp_PadLength p =? 0)) FlagHeadersPadded 0 in
    let flags := orFlag (hp_EndStream p) FlagHeadersEndStream flags in
    let flags := orFlag (hp_EndHeaders p) FlagHeadersEndHeaders flags in
    let flags := orFlag prio FlagHeadersPriority flags in
    let wbuf := startWrite FrameType_Headers flags (hp_StreamID p) in
    let wbuf := if negb (hp_PadLength p =? 0) then wbuf ++ [hp_PadLength p] else wbuf in
    if prio && (negb (validStreamIDOrZero (StreamDep (hp_Priority p))) && negb illegal) then inr errDepStreamID
    else
      let wbuf := if prio then wbuf ++ bytes32 (depWord (hp_Priority p)) ++ [Weight (hp_Priority p)] else wbuf in
      endWrite (wbuf ++ hp_BlockFragment p ++ take (Z.to_nat (hp_PadLength p)) padZeros).

Definition WritePriority (illegal : bool) (streamID : Z) (p : PriorityParam) : bytes + frame_error :=
  if negb (validStreamID streamID) && negb illegal then inr errStreamID
  else if negb (validStreamIDOrZero (StreamDep p)) then inr errDepStreamID
  else endWrite (startWrite FrameType_Priority 0 streamID ++ bytes32 (depWord p) ++ [Weight p]).

Definition WriteRSTStream (illegal : bool) (streamID code : Z) : bytes + frame_error :=
  if negb (validStreamID streamID) && negb illegal then inr errStreamID
  else endWrite (startWrite FrameType_RSTStream 0 streamID ++ bytes32 code).

Definition WriteContinuation (illegal : bool) (streamID : Z) (endHeaders : bool) (headerBlockFragment : bytes)
  : bytes + frame_error :=
  if negb (validStreamID streamID) && negb illegal then inr errStreamID
  else endWrite (startWrite FrameType_Continuation (orFlag endHeaders FlagContinuationEndHeaders 0) streamID ++
                 headerBlockFragment).

Record PushPromiseParam := mkPushParam {
  pp_StreamID : Z;
  pp_PromiseID : Z;
  pp_BlockFragment : bytes;
  pp_EndHeaders : bool;
  pp_PadLength : Z               (* uint8 *)
}.

Definition WritePushPromise (illegal : bool) (p : PushPromiseParam) : bytes + frame_error :=
  if negb (validStreamID (pp_StreamID p)) && negb illegal then inr errStreamID
  else
    let flags := orFlag (negb (pp_PadLength p =? 0)) FlagPushPromisePadded 0 in
    let flags := orFlag (pp_EndHeaders p) FlagPushPromiseEndHeaders flags in
    let wbuf := startWrite FrameType_PushPromise flags (pp_StreamID p) in
    let wbuf := if negb (pp_PadLength p =? 0) then wbuf ++ [pp_PadLength p] else wbuf in
    if negb (validStreamID (pp_PromiseID p)) && negb illegal then inr errStreamID
    else
      let wbuf := wbuf ++ bytes32 (pp_PromiseID p) in
      endWrite (wbuf ++ pp_BlockFragment p ++ take (Z.to_nat (pp_PadLength p)) padZeros).

Definition WriteRawFrame (t flags streamID : Z) (payload : bytes) : bytes + frame_error :=
  endWrite (startWrite t flags streamID ++ payload).

(** ** Numbers on the wire *)
Lemma be32_bytes32 v : is_u32 v -> be32 (u8 (Z.shiftr v 24)) (u8 (Z.shiftr v 16)) (u8 (Z.shiftr v 8)) (u8 v) = v.
Proof.
  unfold is_u32. intros Hv. rewrite be32_val by apply u8_range. unfold u8.
  rewrite !Z.shiftr_div_pow2 by lia. change (2 ^ 32) with 4294967296 in Hv.
  change (2 ^ 24) with 16777216. change (2 ^ 16) with 65536. change (2 ^ 8) with 256.
  Z.div_mod_to_equations. lia.
Qed.

Lemma be16_bytes16 v : is_u16 v -> be16 (u8 (Z.shiftr v 8)) (u8 v) = v.
Proof.
  unfold is_u16. intros Hv. rewrite be16_val by apply u8_range. unfold u8.
  rewrite !Z.shiftr_div_pow2 by lia. change (2 ^ 16) with 65536 in Hv. change (2 ^ 8) with 256.
  Z.div_mod_to_equations. lia.
Qed.

Lemma be24_bytes v :
  0 <= v < 2 ^ 24 ->
  Z.lor (Z.lor (Z.shiftl (u8 (Z.shiftr v 16)) 16) (Z.shiftl (u8 (Z.shiftr v 8)) 8)) (u8 v) = v.
Proof.
  intros Hv. pose proof (be32_bytes32 v ltac:(unfold is_u32; lia)) as H. unfold be32 in H.
  replace (u8 (Z.shiftr v 24)) with 0 in H; [exact H|].
  unfold u8. rewrite Z.shiftr_div_pow2 by lia. rewrite Z.div_small by lia. done.
Qed.

Lemma land_31 v : Z.land v (Z.shiftl 1 31 - 1) = v mod 2 ^ 31.
Proof. apply (Z.land_ones v 31). lia. Qed.

Lemma land_31' v : Z.land v 0x7fffffff = v mod 2 ^ 31.
Proof. apply (Z.land_ones v 31). lia. Qed.

Lemma land_31_id v : 0 <= v < 2 ^ 31 -> Z.land v (Z.shiftl 1 31 - 1) = v.
Proof. intros. rewrite land_31. by apply Z.mod_small. Qed.

(** ** Reading back what was written *)

(** [readFrame] after the payload parser. *)
Definition finish (fr : Framer) (p : parsed) : outcome (Framer * frame_error) (Framer * Frame) :=
  match p with
  | Panic => Panic
  | Fail (_, connError code rs) => Fail (fr_connError fr code rs)
  | Fail (_, e) => Fail (fr, e)
  | Ret f => let! fr := checkFrameOrder fr (Header f) in Ret (fr, f)
  end.

Lemma endWrite_inl wbuf bs :
  endWrite wbuf = inl bs -> let n := zlen wbuf - 9 in
  n < 2 ^ 24 /\ bs = [u8 (Z.shiftr n 16); u8 (Z.shiftr n 8); u8 n] ++ drop 3 wbuf.
Proof.
  unfold endWrite. change (Z.shiftl 1 24) with (2 ^ 24). change frameHeaderLen with 9.
  rewrite Z.geb_leb. destruct (Z.leb_spec (2 ^ 24) (zlen wbuf - 9)); [done|]. intros [= <-]. split; [lia|done].
Qed.

Lemma readFrame_written fr t fl id payload bs rest :
  is_u8 t -> is_u8 fl -> 0 <= id < 2 ^ 31 -> endWrite (startWrite t fl id ++ payload) = inl bs ->
  fr_r fr = bs ++ rest -> zlen payload <= fr_maxReadSize fr ->
  readFrame fr = finish (setReader (setErrDetail fr None) rest)
                   (typeFrameParser t (mkFH t fl (zlen payload) id) payload).
Proof.
  intros Ht Hfl Hid Hend Hr Hsize. apply endWrite_inl in Hend as [Hn Hbs].
  rewrite zlen_app in Hn, Hbs. change (zlen (startWrite t fl id)) with 9 in *.
  replace (9 + zlen payload - 9) with (zlen payload) in * by lia. pose proof (zlen_nonneg payload) as Hpos.
  unfold startWrite, bytes32 in Hbs. rewrite !(u8_id t), !(u8_id fl) in Hbs by done. simpl in Hbs.
  unfold readFrame. simpl. rewrite Hr, Hbs. unfold readFrameHeader, ReadFull.
  replace (frameHeaderLen <=? _) with true.
  2: { symmetry. apply Z.leb_le. cbn [app]. rewrite !zlen_cons, zlen_app.
       pose proof (zlen_nonneg rest). unfold frameHeaderLen. lia. }
  cbn [app]. change (Z.to_nat frameHeaderLen) with 9%nat. cbn [take drop].
  rewrite be24_bytes, be32_bytes32, land_31_id by (unfold is_u32; lia).
  rewrite take_0, drop_0. cbn beta iota. cbn [fh_Length fh_Type]. cbn [fr_maxReadSize fr_r setReader setErrDetail].
  rewrite Z.gtb_ltb. destruct (Z.ltb_spec (fr_maxReadSize fr) (zlen payload)); [lia|].
  rewrite zlen_app. pose proof (zlen_nonneg rest).
  destruct (Z.leb_spec (zlen payload) (zlen payload + zlen rest)); [|lia].
  unfold zlen. rewrite Nat2Z.id, take_app_length, drop_app_length. done.
Qed.

(** The calls of the write methods. *)
Inductive request :=
| RData (streamID : Z) (endStream : bool) (data : bytes) (pad : option bytes)
| RSettings (settings : list Setting)
| RSettingsAck
| RPing (ack : bool) (data : bytes)
| RGoAway (maxStreamID code : Z) (debugData : bytes)
| RWindowUpdate (streamID incr : Z)
| RHeaders (p : HeadersFrameParam)
| RPriority (streamID : Z) (p : PriorityParam)
| RRSTStream (streamID code : Z)
| RContinuation (streamID : Z) (endHeaders : bool) (frag : bytes)
| RPushPromise (p : PushPromiseParam)
| RRawFrame (t flags streamID : Z) (payload : bytes).

Definition encode (illegal : bool) (rq : request) : bytes + frame_error :=
  match rq with
  | RData id es data pad => WriteDataPadded illegal id es data pad
  | RSettings l => WriteSettings l
  | RSettingsAck => WriteSettingsAck
  | RPing ack data => WritePing ack data
  | RGoAway id code dbg => WriteGoAway id code dbg
  | RWindowUpdate id incr => WriteWindowUpdate illegal id incr
  | RHeaders p => WriteHeaders illegal p
  | RPriority id p => WritePriority illegal id p
  | RRSTStream id code => WriteRSTStream illegal id code
  | RContinuation id eh frag => WriteContinuation illegal id eh frag
  | RPushPromise p => WritePushPromise illegal p
  | RRawFrame t fl id payload => WriteRawFrame t fl id payload
  end.

(** Arguments within the range of their Go types, and what the peer's parser asks
    of a frame beyond the checks of the write method. *)
Definition prio_ok (p : PriorityParam) : Prop := is_u32 (StreamDep p) /\ is_u8 (Weight p).

Definition setting_wf (s : Setting) : Prop :=
  is_u16 (s_ID s) /\ is_u32 (s_Val s) /\ (s_ID s = SettingInitialWindowSize -> s_Val s < 2 ^ 31).

Definition request_ok (rq : request) : Prop :=
  match rq with
  | RData id _ _ pad => is_u32 id
  | RSettings l => Forall setting_wf l
  | RSettingsAck => True
  | RPing _ data => zlen data = 8
  | RGoAway id code _ => is_u32 id /\ is_u32 code
  | RWindowUpdate id incr => 0 <= id < 2 ^ 31 /\ is_u32 incr
  | RHeaders p => is_u32 (hp_StreamID p) /\ is_u8 (hp_PadLength p) /\ prio_ok (hp_Priority p)
  | RPriority id p => is_u32 id /\ prio_ok p
  | RRSTStream id code => is_u32 id /\ is_u32 code
  | RContinuation id _ _ => is_u32 id
  | RPushPromise p => is_u32 (pp_StreamID p) /\ is_u32 (pp_PromiseID p) /\ is_u8 (pp_PadLength p)
  | RRawFrame t fl id _ => 10 <= t < 256 /\ is_u8 fl /\ 0 <= id < 2 ^ 31
  end.

Definition data_flags (endStream padded : bool) : Z :=
  orFlag padded FlagDataPadded (orFlag endStream FlagDataEndStream 0).

Definition headers_flags (padded endStream endHeaders prio : bool) : Z :=
  orFlag prio FlagHeadersPriority
    (orFlag endHeaders FlagHeadersEndHeaders (orFlag endStream FlagHeadersEndStream (orFlag padded FlagHeadersPadded 0))).

Definition push_flags (padded endHeaders : bool) : Z :=
  orFlag endHeaders FlagPushPromiseEndHeaders (orFlag padded FlagPushPromisePadded 0).

Definition settings_payload (l : list Setting) : bytes :=
  concat (map (fun s => bytes16 (s_ID s) ++ bytes32 (s_Val s)) l).

(** Type, flags, stream and payload on the wire. *)
Definition wire (rq : request) : Z * Z * Z * bytes :=
  match rq with
  | RData id es data pad =>
      (FrameType_Data, data_flags es (bool_decide (pad <> None)), id,
       match pad with Some p => [u8 (zlen p)] | None => [] end ++ data ++ default [] pad)
  | RSettings l => (FrameType_Settings, 0, 0, settings_payload l)
  | RSettingsAck => (FrameType_Settings, FlagSettingsAck, 0, [])
  | RPing ack data => (FrameType_Ping, if ack then FlagPingAck else 0, 0, data)
  | RGoAway id code dbg =>
      (FrameType_GoAway, 0, 0, bytes32 (Z.land id (Z.shiftl 1 31 - 1)) ++ bytes32 code ++ dbg)
  | RWindowUpdate id incr => (FrameType_WindowUpdate, 0, id, bytes32 incr)
  | RHeaders p =>
      let prio := negb (Priority_IsZero (hp_Priority p)) in
      let padded := negb (hp_PadLength p =? 0) in
      (FrameType_Headers, headers_flags padded (hp_EndStream p) (hp_EndHeaders p) prio, hp_StreamID p,
       (if padded then [hp_PadLength p] else []) ++
       (if prio then bytes32 (depWord (hp_Priority p)) ++ [Weight (hp_Priority p)] else []) ++
       hp_BlockFragment p ++ take (Z.to_nat (hp_PadLength p)) padZeros)
  | RPriority id p => (FrameType_Priority, 0, id, bytes32 (depWord p) ++ [Weight p])
  | RRSTStream id code => (FrameType_RSTStream, 0, id, bytes32 code)
  | RContinuation id eh frag =>
      (FrameType_Continuation, orFlag eh FlagContinuationEndHeaders 0, id, frag)
  | RPushPromise p =>
      let padded := negb (pp_PadLength p =? 0) in
      (FrameType_PushPromise, push_flags padded (pp_EndHeaders p), pp_StreamID p,
       (if padded then [pp_PadLength p] else []) ++ bytes32 (pp_PromiseID p) ++
       pp_BlockFragment p ++ take (Z.to_nat (pp_PadLength p)) padZeros)
  | RRawFrame t fl id payload => (t, fl, id, payload)
  end.

(** The frame the peer should see. *)
Definition meaning (rq : request) : Frame :=
  let '(t, fl, id, payload) := wire rq in
  let fh := mkFH t fl (zlen payload) id in
  match rq with
  | RData _ _ data _ => DataFrame fh data
  | RSettings _ | RSettingsAck => SettingsFrame fh payload
  | RPing _ data => PingFrame fh data
  | RGoAway last code dbg => GoAwayFrame fh (last mod 2 ^ 31) code dbg
  | RWindowUpdate _ incr => WindowUpdateFrame fh incr
  | RHeaders p => HeadersFrame fh (hp_Priority p) (hp_BlockFragment p)
  | RPriority _ p => PriorityFrame fh p
  | RRSTStream _ code => RSTStreamFrame fh code
  | RContinuation _ _ frag => ContinuationFrame fh frag
  | RPushPromise p => PushPromiseFrame fh (pp_PromiseID p) (pp_BlockFragment p)
  | RRawFrame _ _ _ payload => UnknownFrame fh payload
  end.

Definition wire_bytes (rq : request) : bytes + frame_error :=
  let '(t, fl, id, payload) := wire rq in endWrite (startWrite t fl id ++ payload).

(** What the checks of the write methods establish when they pass. *)
Definition checked (rq : request) : Prop :=
  match rq with
  | RData id _ _ pad => validStreamID id = true /\ zlen (default [] pad) <= 255
  | RWindowUpdate _ incr => 1 <= incr <= 2147483647
  | RHeaders p => validStreamID (hp_StreamID p) = true /\
      (Priority_IsZero (hp_Priority p) = false -> validStreamIDOrZero (StreamDep (hp_Priority p)) = true)
  | RPriority id p => validStreamID id = true /\ validStreamIDOrZero (StreamDep p) = true
  | RRSTStream id _ => validStreamID id = true
  | RContinuation id _ _ => validStreamID id = true
  | RPushPromise p => validStreamID (pp_StreamID p) = true /\ validStreamID (pp_PromiseID p) = true
  | _ => True
  end.

Lemma encode_wire rq bs : encode false rq = inl bs -> wire_bytes rq = inl bs /\ checked rq.
Proof.
  unfold wire_bytes. destruct rq; simpl; try done.
  - unfold WriteDataPadded. destruct (validStreamID streamID); simpl; [|done].
    destruct (_ && _) eqn:E1; [done|]. destruct (_ && negb _); [done|]. intros H. split.
    + rewrite <- H. f_equal. destruct pad; rewrite <- ?app_assoc; done.
    + split; [done|]. pose proof (zlen_nonneg (default [] pad)).
      apply andb_false_iff in E1 as [E1|E1]; breflect; lia.
  - unfold WriteWindowUpdate. rewrite andb_true_r. destruct (_ || _) eqn:E; [done|]. intros H.
    split; [done|]. breflect. lia.
  - unfold WriteHeaders. destruct (validStreamID _); simpl; [|done].
    destruct (Priority_IsZero (hp_Priority p)) eqn:Ez; simpl.
    + intros <-. split; [|done]. f_equal. destruct (hp_PadLength p =? 0); simpl; rewrite <- ?app_assoc; done.
    + destruct (validStreamIDOrZero _) eqn:Ev; simpl; [|done]. intros <-. split; [|done]. f_equal.
      destruct (hp_PadLength p =? 0); simpl; rewrite <- ?app_assoc; done.
  - unfold WritePriority. destruct (validStreamID _); simpl; [|done].
    destruct (validStreamIDOrZero _); simpl; done.
  - unfold WriteRSTStream. destruct (validStreamID _); simpl; done.
  - unfold WriteContinuation. destruct (validStreamID _); simpl; done.
  - unfold WritePushPromise. destruct (validStreamID (pp_StreamID p)); simpl; [|done].
    destruct (validStreamID (pp_PromiseID p)); simpl; [|done]. intros <-. split; [|done]. f_equal.
    destruct (pp_PadLength p =? 0); simpl; rewrite <- ?app_assoc; done.
Qed.

(** ** Stream identifiers *)
Lemma land_bit31 x : is_u32 x -> Z.land x (Z.shiftl 1 31) = 0 -> x < 2 ^ 31.
Proof.
  unfold is_u32. intros Hx Hl. destruct (Z.lt_ge_cases x (2 ^ 31)) as [|Hge]; [done|].
  assert (Z.testbit x 31 = true) as Hb.
  { apply Z.testbit_true; [lia|]. replace (x / 2 ^ 31) with 1; [done|].
    apply Z.div_unique with (x - 2 ^ 31); lia. }
  assert (Z.testbit (Z.land x (Z.shiftl 1 31)) 31 = true) as H by (rewrite Z.land_spec, Hb; done).
  rewrite Hl in H. done.
Qed.

Lemma validStreamID_spec id : is_u32 id -> validStreamID id = true -> 0 < id < 2 ^ 31.
Proof.
  intros Hid H. unfold validStreamID in H. breflect.
  pose proof (land_bit31 id Hid ltac:(assumption)). unfold is_u32 in Hid. lia.
Qed.

Lemma depWord_spec p :
  prio_ok p -> validStreamIDOrZero (StreamDep p) = true ->
  is_u32 (depWord p) /\ Z.land (depWord p) 0x7fffffff = StreamDep p /\
  (StreamDep p =? depWord p) = negb (Exclusive p).
Proof.
  intros [Hd _] Hv. unfold validStreamIDOrZero in Hv. breflect.
  pose proof (land_bit31 _ Hd ltac:(assumption)). unfold is_u32 in *. rewrite land_31'. unfold depWord.
  destruct (Exclusive p); simpl.
  - rewrite Z.lor_comm. change (Z.shiftl 1 31) with (Z.shiftl 1 31 : Z).
    rewrite lor_shiftl_add by lia. change (1 * 2 ^ 31) with (2 ^ 31).
    split; [lia|]. split; [|apply Z.eqb_neq; lia].
    replace (2 ^ 31 + StreamDep p) with (StreamDep p + 1 * 2 ^ 31) by lia.
    rewrite Z.mod_add by lia. apply Z.mod_small; lia.
  - split; [lia|]. split; [apply Z.mod_small; lia|]. by rewrite Z.eqb_refl.
Qed.

(** ** The settings payload *)
Lemma zslice_app {A} (pre mid post : list A) lo hi :
  lo = zlen pre -> hi = zlen pre + zlen mid -> zslice (pre ++ mid ++ post) lo hi = Some mid.
Proof.
  intros -> ->. unfold zslice. rewrite !zlen_app.
  pose proof (zlen_nonneg pre). pose proof (zlen_nonneg mid). pose proof (zlen_nonneg post).
  destruct (Z.leb_spec 0 (zlen pre)), (Z.leb_spec (zlen pre) (zlen pre + zlen mid)),
    (Z.leb_spec (zlen pre + zlen mid) (zlen pre + (zlen mid + zlen post))); try lia.
  simpl. replace (zlen pre + zlen mid - zlen pre) with (zlen mid) by lia. unfold zlen.
  rewrite !Nat2Z.id, drop_app_length, take_app_length. done.
Qed.

Lemma settings_payload_length l : zlen (settings_payload l) = 6 * zlen l.
Proof.
  induction l as [|s l IH]; [done|].
  change (settings_payload (s :: l)) with ((bytes16 (s_ID s) ++ bytes32 (s_Val s)) ++ settings_payload l).
  rewrite zlen_app, zlen_cons, IH. change (zlen (_ ++ _)) with 6. lia.
Qed.

Lemma settings_payload_app l1 l2 : settings_payload (l1 ++ l2) = settings_payload l1 ++ settings_payload l2.
Proof. unfold settings_payload. by rewrite map_app, concat_app. Qed.

Lemma NumSettings_payload l : NumSettings (settings_payload l) = zlen l.
Proof. unfold NumSettings. rewrite settings_payload_length, Z.mul_comm. by apply Z.div_mul. Qed.

Lemma Setting_at_payload l1 s l2 :
  is_u16 (s_ID s) -> is_u32 (s_Val s) ->
  Setting_at (settings_payload (l1 ++ s :: l2)) (zlen l1) = Some s.
Proof.
  intros Hid Hv. unfold Setting_at. rewrite settings_payload_app.
  change (settings_payload (s :: l2)) with ((bytes16 (s_ID s) ++ bytes32 (s_Val s)) ++ settings_payload l2).
  pose proof (settings_payload_length l1) as Hl.
  assert (zlen (bytes16 (s_ID s)) = 2) as E2 by done. assert (zlen (bytes32 (s_Val s)) = 4) as E4 by done.
  rewrite <- app_assoc. rewrite (zslice_app _ (bytes16 (s_ID s)) _ (zlen l1 * 6) (zlen l1 * 6 + 2)) by lia.
  cbn [mbind option_bind]. rewrite app_assoc.
  rewrite (zslice_app _ (bytes32 (s_Val s))) by (rewrite zlen_app; lia).
  simpl. rewrite be16_bytes16, be32_bytes32 by done. by destruct s.
Qed.

(** [Value] is the first setting of that id, from the settings list. *)
Lemma valueFrom_payload l2 : forall l1 id,
  Forall setting_wf l2 ->
  valueFrom (length l2) (settings_payload (l1 ++ l2)) (zlen l1) id =
  Some (s_Val <$> List.find (fun s => s_ID s =? id) l2).
Proof.
  induction l2 as [|s l2 IH]; intros l1 id Hl; [done|].
  apply Forall_cons in Hl as [(Hid & Hv & _) Hl]. cbn [valueFrom length].
  rewrite Setting_at_payload by done. cbn [mbind option_bind List.find].
  destruct (s_ID s =? id); [done|].
  replace (zlen l1 + 1) with (zlen (l1 ++ [s])) by (rewrite zlen_app; done).
  replace (l1 ++ s :: l2) with ((l1 ++ [s]) ++ l2) by (by rewrite <- app_assoc). by apply IH.
Qed.

Lemma Settings_Value_payload l id :
  Forall setting_wf l -> Settings_Value (settings_payload l) id = Some (s_Val <$> List.find (fun s => s_ID s =? id) l).
Proof.
  intros Hl. unfold Settings_Value. rewrite NumSettings_payload. unfold zlen. rewrite Nat2Z.id.
  apply (valueFrom_payload l [] id Hl).
Qed.

(** ** Every written payload parses *)
Lemma unpad_app p q pad k : pad = zlen q -> unpad (p ++ q) pad k = Ret (k p).
Proof.
  intros ->. unfold unpad. replace (zslice (p ++ q) 0 (zlen (p ++ q) - zlen q)) with (Some p); [done|].
  rewrite zlen_app. symmetry. apply (zslice_app [] p q); change (zlen (@nil Z)) with 0; lia.
Qed.

Lemma padZeros_length n : is_u8 n -> zlen (take (Z.to_nat n) padZeros) = n.
Proof.
  unfold is_u8, zlen. intros Hn. rewrite length_take. unfold padZeros. rewrite repeat_length. lia.
Qed.

Lemma Uint32_bytes32 v rest : is_u32 v -> Uint32 (bytes32 v ++ rest) = Some v.
Proof. intros Hv. simpl. by rewrite be32_bytes32. Qed.

Lemma readUint32_bytes32 v rest : is_u32 v -> readUint32 (bytes32 v ++ rest) = Some (rest, v).
Proof.
  intros Hv. unfold readUint32. rewrite zlen_app. change (zlen (bytes32 v)) with 4.
  pose proof (zlen_nonneg rest). destruct (Z.ltb_spec (4 + zlen rest) 4); [lia|].
  rewrite Uint32_bytes32 by done. done.
Qed.

Lemma readPriority_wire p rest :
  prio_ok p -> validStreamIDOrZero (StreamDep p) = true ->
  readPriority ((bytes32 (depWord p) ++ [Weight p]) ++ rest) = inl (rest, p).
Proof.
  intros Hp Hv. destruct (depWord_spec p Hp Hv) as (H32 & Hdep & Hex).
  unfold readPriority. rewrite <- app_assoc, readUint32_bytes32 by done. simpl.
  rewrite Hdep, Z.eqb_sym, Hex, negb_involutive. by destruct p.
Qed.

Lemma data_flags_has es pd :
  is_u8 (data_flags es pd) /\ Flags_Has (data_flags es pd) FlagDataPadded = pd.
Proof. unfold is_u8. destruct es, pd; vm_compute; intuition congruence. Qed.

Lemma headers_flags_has pd es eh pr :
  is_u8 (headers_flags pd es eh pr) /\ Flags_Has (headers_flags pd es eh pr) FlagHeadersPadded = pd /\
  Flags_Has (headers_flags pd es eh pr) FlagHeadersPriority = pr.
Proof. unfold is_u8. destruct es, pd, eh, pr; vm_compute; intuition congruence. Qed.

Lemma push_flags_has pd eh :
  is_u8 (push_flags pd eh) /\ Flags_Has (push_flags pd eh) FlagPushPromisePadded = pd.
Proof. unfold is_u8. destruct pd, eh; vm_compute; intuition congruence. Qed.

Lemma wire_ranges rq t fl id payload :
  request_ok rq -> checked rq -> wire rq = (t, fl, id, payload) -> is_u8 t /\ is_u8 fl /\ 0 <= id < 2 ^ 31.
Proof.
  intros Hok Hch Hw. destruct rq; simpl in *; simplify_eq; unfold is_u8 at 1, is_u8 at 1;
    repeat match goal with H : _ /\ _ |- _ => destruct H end;
    repeat match goal with H : validStreamID ?x = true, H' : is_u32 ?x |- _ =>
      pose proof (validStreamID_spec x H' H); clear H end.
  all: try (split; [by vm_compute|split; [by vm_compute|lia]]).
  - split; [by vm_compute|]. split; [apply data_flags_has|lia].
  - split; [by vm_compute|]. split; [destruct ack; by vm_compute|lia].
  - split; [by vm_compute|]. split; [apply headers_flags_has|lia].
  - split; [by vm_compute|]. split; [destruct endHeaders; by vm_compute|lia].
  - split; [by vm_compute|]. split; [apply push_flags_has|lia].
  - split; [lia|]. split; [done|lia].
Qed.

Lemma id_nonzero id : is_u32 id -> validStreamID id = true -> (id =? 0) = false.
Proof. intros H Hv. pose proof (validStreamID_spec id H Hv). apply Z.eqb_neq. lia. Qed.

(** The padding prefix of HEADERS and PUSH_PROMISE. *)
Lemma read_pad n (rest : bytes) :
  (if negb (n =? 0) then readByte ((if negb (n =? 0) then [n] else []) ++ rest)
   else Some ((if negb (n =? 0) then [n] else []) ++ rest, 0)) = Some (rest, n).
Proof. destruct (Z.eqb_spec n 0) as [->|]; done. Qed.

Lemma parse_settings_wire l fh :
  Forall setting_wf l -> Flags_Has (fh_Flags fh) FlagSettingsAck = false -> fh_StreamID fh = 0 ->
  parseSettingsFrame fh (settings_payload l) = Ret (SettingsFrame fh (settings_payload l)).
Proof.
  intros Hl Hf Hid. unfold parseSettingsFrame. rewrite Hf, Hid. simpl.
  rewrite settings_payload_length, Z.mul_comm, Z.mod_mul by lia. simpl.
  rewrite Settings_Value_payload by done.
  destruct (List.find _ l) as [s|] eqn:Ef; simpl; [|done].
  apply find_some in Ef as [Hin Hs]. breflect. rewrite Forall_forall in Hl.
  destruct (Hl s) as (_ & _ & Hv); [by apply list_elem_of_In|]. specialize (Hv Hs).
  rewrite Z.gtb_ltb. destruct (Z.ltb_spec (Z.shiftl 1 31 - 1) (s_Val s)) as [H|]; [|done].
  change (Z.shiftl 1 31) with (2 ^ 31) in H. lia.
Qed.

Lemma parse_headers_wire p n :
  request_ok (RHeaders p) -> checked (RHeaders p) ->
  let '(t, fl, id, payload) := wire (RHeaders p) in
  parseHeadersFrame (mkFH t fl n id) payload = Ret (HeadersFrame (mkFH t fl n id) (hp_Priority p) (hp_BlockFragment p)).
Proof.
  intros (Hid & Hpad & Hprio) [Hv Hdep]. simpl. unfold parseHeadersFrame. cbn [fh_StreamID fh_Flags].
  rewrite id_nonzero by done.
  destruct (headers_flags_has (negb (hp_PadLength p =? 0)) (hp_EndStream p) (hp_EndHeaders p)
    (negb (Priority_IsZero (hp_Priority p)))) as (_ & -> & ->).
  rewrite read_pad.
  assert (forall rest, (if negb (Priority_IsZero (hp_Priority p))
    then readPriority ((if negb (Priority_IsZero (hp_Priority p))
                        then bytes32 (depWord (hp_Priority p)) ++ [Weight (hp_Priority p)] else []) ++ rest)
    else inl ((if negb (Priority_IsZero (hp_Priority p))
                        then bytes32 (depWord (hp_Priority p)) ++ [Weight (hp_Priority p)] else []) ++ rest, zeroPriority))
    = inl (rest, hp_Priority p)) as ->.
  { intros rest. destruct (Priority_IsZero (hp_Priority p)) eqn:Ez; simpl negb; cbv iota.
    - unfold Priority_IsZero in Ez. apply bool_decide_eq_true in Ez. by rewrite Ez.
    - by apply readPriority_wire; [|apply Hdep]. }
  rewrite zlen_app, padZeros_length by done.
  destruct (Z.ltb_spec (zlen (hp_BlockFragment p) + hp_PadLength p - hp_PadLength p) 0);
    [pose proof (zlen_nonneg (hp_BlockFragment p)); lia|].
  apply unpad_app. by rewrite padZeros_length.
Qed.

Lemma parse_push_wire p n :
  request_ok (RPushPromise p) -> checked (RPushPromise p) ->
  let '(t, fl, id, payload) := wire (RPushPromise p) in
  parsePushPromise (mkFH t fl n id) payload = Ret (PushPromiseFrame (mkFH t fl n id) (pp_PromiseID p) (pp_BlockFragment p)).
Proof.
  intros (Hid & Hpid & Hpad) [Hv Hpv]. cbn [wire]. unfold parsePushPromise. cbn [fh_StreamID fh_Flags].
  rewrite id_nonzero by done.
  destruct (push_flags_has (negb (pp_PadLength p =? 0)) (pp_EndHeaders p)) as [_ ->].
  rewrite read_pad, readUint32_bytes32 by done.
  rewrite zlen_app, padZeros_length, Z.gtb_ltb by done. pose proof (zlen_nonneg (pp_BlockFragment p)).
  destruct (Z.ltb_spec (zlen (pp_BlockFragment p) + pp_PadLength p) (pp_PadLength p)); [lia|].
  rewrite land_31_id by (pose proof (validStreamID_spec _ Hpid Hpv); lia).
  apply unpad_app. by rewrite padZeros_length.
Qed.

Lemma parse_data_wire id es data pad n :
  request_ok (RData id es data pad) -> checked (RData id es data pad) ->
  let '(t, fl, id, payload) := wire (RData id es data pad) in
  parseDataFrame (mkFH t fl n id) payload = Ret (DataFrame (mkFH t fl n id) data).
Proof.
  intros Hid [Hv Hpad]. cbn [wire]. unfold parseDataFrame. cbn [fh_StreamID fh_Flags]. simpl in Hid.
  rewrite id_nonzero by done. destruct (data_flags_has es (bool_decide (pad <> None))) as [_ ->].
  destruct pad as [p|]; simpl.
  - simpl in Hpad. pose proof (zlen_nonneg p). pose proof (zlen_nonneg data).
    rewrite u8_id by (unfold is_u8; lia). rewrite zlen_app, Z.gtb_ltb.
    destruct (Z.ltb_spec (zlen data + zlen p) (zlen p)); [lia|]. by apply unpad_app.
  - pose proof (zlen_nonneg (data ++ [])). rewrite Z.gtb_ltb. destruct (Z.ltb_spec (zlen (data ++ [])) 0); [lia|].
    by apply unpad_app.
Qed.

Lemma zslice_pre {A} (pre post : list A) hi : hi = zlen pre -> zslice (pre ++ post) 0 hi = Some pre.
Proof. intros ->. by apply (zslice_app [] pre post). Qed.

Lemma zslice_post {A} (pre post : list A) lo hi :
  lo = zlen pre -> hi = zlen (pre ++ post) -> zslice (pre ++ post) lo hi = Some post.
Proof.
  intros -> ->. rewrite zlen_app. pose proof (zslice_app pre post [] (zlen pre) (zlen pre + zlen post) eq_refl eq_refl) as H.
  by rewrite app_nil_r in H.
Qed.

Lemma parse_goaway_wire fh (last code : Z) (dbg : bytes) :
  is_u32 last -> is_u32 code -> fh_StreamID fh = 0 ->
  parseGoAwayFrame fh (bytes32 (Z.land last (Z.shiftl 1 31 - 1)) ++ bytes32 code ++ dbg) =
  Ret (GoAwayFrame fh (last mod 2 ^ 31) code dbg).
Proof.
  intros Hl Hc Hid. unfold parseGoAwayFrame. rewrite Hid. simpl negb. cbv iota.
  rewrite !land_31. set (v := last mod 2 ^ 31).
  assert (is_u32 v) as Hv by (unfold is_u32, v; pose proof (Z.mod_pos_bound last (2 ^ 31)); lia).
  assert (zlen (bytes32 v) = 4) as E4 by done. assert (zlen (bytes32 code) = 4) as E4' by done.
  pose proof (zlen_nonneg dbg).
  destruct (Z.ltb_spec (zlen (bytes32 v ++ bytes32 code ++ dbg)) 8) as [Hlt|_]; [rewrite !zlen_app in Hlt; lia|].
  rewrite zslice_pre by done. rewrite (zslice_app (bytes32 v) (bytes32 code) dbg 4 8) by lia.
  rewrite (app_assoc (bytes32 v)). rewrite (zslice_post (bytes32 v ++ bytes32 code) dbg); [|rewrite zlen_app; lia|done].
  rewrite <- (app_nil_r (bytes32 v)), <- (app_nil_r (bytes32 code)), !Uint32_bytes32 by done.
  rewrite land_31. unfold v. by rewrite Z.mod_mod.
Qed.

Lemma parse_wire rq :
  request_ok rq -> checked rq ->
  let '(t, fl, id, payload) := wire rq in
  typeFrameParser t (mkFH t fl (zlen payload) id) payload = Ret (meaning rq).
Proof.
  intros Hok Hch. destruct rq.
  - apply parse_data_wire; done.
  - by apply parse_settings_wire.
  - done.
  - simpl in Hok. cbn [wire meaning]. change (typeFrameParser FrameType_Ping) with parsePingFrame.
    unfold parsePingFrame. by rewrite Hok.
  - simpl in *. destruct Hok. by apply parse_goaway_wire.
  - destruct Hok as [Hid Hi]. simpl in Hch. cbn [wire].
    change (typeFrameParser FrameType_WindowUpdate) with parseWindowUpdateFrame. unfold parseWindowUpdateFrame.
    change (zlen (bytes32 incr) =? 4) with true. simpl negb. cbv iota.
    rewrite <- (app_nil_r (bytes32 incr)), Uint32_bytes32 by done. rewrite land_31', Z.mod_small by lia.
    destruct (Z.eqb_spec incr 0); [lia|]. done.
  - by apply parse_headers_wire.
  - destruct Hok as [Hid Hp], Hch as [Hv Hd]. cbn [wire].
    destruct (depWord_spec p Hp Hd) as (H32 & Hdep & Hex).
    change (typeFrameParser FrameType_Priority) with parsePriorityFrame. unfold parsePriorityFrame. cbn [fh_StreamID]. rewrite id_nonzero by done.
    change (negb (zlen _ =? 5)) with false. cbv iota.
    rewrite Uint32_bytes32 by done. change (zget _ 4) with (Some (Weight p)). cbv iota.
    rewrite Hdep, Hex, negb_involutive. by destruct p.
  - destruct Hok as [Hid Hc]. simpl in Hch. cbn [wire].
    change (typeFrameParser FrameType_RSTStream) with parseRSTStreamFrame. unfold parseRSTStreamFrame. cbn [fh_StreamID]. rewrite id_nonzero by done.
    change (zlen (bytes32 code) =? 4) with true. simpl negb. cbv iota.
    rewrite <- (app_nil_r (bytes32 code)), Uint32_bytes32 by done. done.
  - simpl in Hok, Hch. cbn [wire meaning]. change (typeFrameParser FrameType_Continuation) with parseContinuationFrame.
    unfold parseContinuationFrame. cbn [fh_StreamID].
    rewrite id_nonzero by done. done.
  - by apply parse_push_wire.
  - simpl in *. destruct Hok as (Ht & _). unfold typeFrameParser.
    repeat match goal with |- context [t =? ?x] => destruct (Z.eqb_spec t x); [exfalso; unfold x in *; lia|] end.
    done.
Qed.

(** What [ReadFrame] does on the bytes of a call. *)
Lemma readFrame_wire rq bs fr rest :
  request_ok rq -> checked rq -> wire_bytes rq = inl bs ->
  fr_r fr = bs ++ rest -> zlen (snd (wire rq)) <= fr_maxReadSize fr ->
  readFrame fr =
    let! fr' := checkFrameOrder (setReader (setErrDetail fr None) rest) (Header (meaning rq)) in
    Ret (fr', meaning rq).
Proof.
  intros Hok Hch Hw Hr Hsize. pose proof (parse_wire rq Hok Hch) as Hparse. unfold wire_bytes in Hw.
  destruct (wire rq) as [[[t fl] id] payload] eqn:Ew.
  destruct (wire_ranges rq t fl id payload Hok Hch Ew) as (Ht & Hfl & Hid).
  rewrite (readFrame_written fr t fl id payload bs rest); try done. by rewrite Hparse.
Qed.

(** C4: a frame written by any of the methods reads back as that frame, up to the order
    check.  The arguments are integers of their Go types, a SETTINGS_INITIAL_WINDOW_SIZE is
    below 2^31 (the writer takes more, see [initial_window_not_read]), WINDOW_UPDATE and raw
    frames are for streams below 2^31, and raw frames are of no type that RFC 7540 defines.
    When the write method accepts them and the frame is within the reader's size limit,
    [ReadFrame] on the bytes it writes, with anything after them, consumes exactly them and
    has the frame with the same fields, flags, stream and length (padding removed): this
    frame is its result, or the error of the order check on its header. *)
Theorem frame_roundtrip rq bs fr rest :
  request_ok rq -> encode false rq = inl bs ->
  fr_r fr = bs ++ rest -> zlen bs <= fr_maxReadSize fr + frameHeaderLen ->
  readFrame fr =
    let! fr' := checkFrameOrder (setReader (setErrDetail fr None) rest) (Header (meaning rq)) in
    Ret (fr', meaning rq).
Proof.
  intros Hok Henc Hr Hsize. apply encode_wire in Henc as [Hw Hch]. apply (readFrame_wire rq bs); try done.
  unfold wire_bytes in Hw. destruct (wire rq) as [[[t fl] id] payload]. simpl.
  apply endWrite_inl in Hw as [_ ->]. rewrite zlen_app in Hsize.
  change (zlen (drop 3 (startWrite t fl id ++ payload))) with (zlen ([u8 t; u8 fl] ++ bytes32 id ++ payload)) in Hsize.
  rewrite !zlen_app in Hsize. change (zlen [u8 t; u8 fl]) with 2 in Hsize. change (zlen (bytes32 id)) with 4 in Hsize.
  change (zlen [_; _; _]) with 3 in Hsize. unfold frameHeaderLen in Hsize. lia.
Qed.

Definition sample_headers : request :=
  RHeaders (mkHeadersParam 5 [0x82; 0x87] true false 3 (mkPrio 3 true 15)).

Definition sample_bytes : bytes :=
  [0; 0; 11; 1; 0x29; 0; 0; 0; 5; 3; 0x80; 0; 0; 3; 15; 0x82; 0x87; 0; 0; 0].

Lemma frame_roundtrip_witness :
  exists fr, encode false sample_headers = inl sample_bytes /\
    readFrame (NewFramer (sample_bytes ++ [1; 2; 3])) = Ret (fr, meaning sample_headers) /\
    meaning sample_headers = HeadersFrame (mkFH 1 0x29 11 5) (mkPrio 3 true 15) [0x82; 0x87] /\
    fr_r fr = [1; 2; 3].
Proof.
  eexists. split; [vm_compute; reflexivity|]. split.
  - rewrite (frame_roundtrip sample_headers sample_bytes _ [1; 2; 3]).
    + cbn [obind]. vm_compute (checkFrameOrder _ _). cbn [obind]. reflexivity.
    + vm_compute. intuition congruence.
    + vm_compute. reflexivity.
    + reflexivity.
    + vm_compute. congruence.
  - split; [vm_compute; reflexivity|reflexivity].
Defined.

(** [WriteSettings] does not look at the values; the parser does. *)
Example initial_window_not_read : exists bs,
  encode false (RSettings [mkSetting SettingInitialWindowSize (2 ^ 31)]) = inl bs /\
  forall fr, readFrame (NewFramer bs) <> Ret fr.
Proof. eexists. split; [vm_compute; reflexivity|]. intros fr. by vm_compute. Qed.
