(* ===== verification/FrameRead.v ===== *)
(** * Package http2: what [ReadFrame] guarantees

    For any input: no parser reads outside its payload, frames that are returned
    satisfy the constraints of their type, header blocks are contiguous, and the
    queries on a SETTINGS payload compute what they say. *)

From S2P Require Import Prelude Frame.

(** ** Settings *)

(** The settings of a payload, in order: the reference the queries are compared to. *)
Fixpoint settings_of (p : bytes) : list Setting :=
  match p with
  | a :: b :: c :: d :: e :: f :: rest => mkSetting (be16 a b) (be32 c d e f) :: settings_of rest
  | _ => []
  end.

Lemma zslice_shift {A} (pre l : list A) lo hi :
  0 <= lo -> zslice (pre ++ l) (zlen pre + lo) (zlen pre + hi) = zslice l lo hi.
Proof.
  intros Hlo. unfold zslice. rewrite zlen_app. pose proof (zlen_nonneg pre).
  destruct (Z.leb_spec 0 (zlen pre + lo)), (Z.leb_spec 0 lo), (Z.leb_spec (zlen pre + lo) (zlen pre + hi)),
    (Z.leb_spec lo hi), (Z.leb_spec (zlen pre + hi) (zlen pre + zlen l)), (Z.leb_spec hi (zlen l)); try lia; try done.
  simpl. replace (zlen pre + hi - (zlen pre + lo)) with (hi - lo) by lia.
  replace (Z.to_nat (zlen pre + lo)) with (length pre + Z.to_nat lo)%nat by (unfold zlen; lia).
  by rewrite <- drop_drop, drop_app_length.
Qed.

Lemma six_ind (P : bytes -> Prop) :
  (forall p, (length p < 6)%nat -> P p) ->
  (forall a b c d e f p, P p -> P (a :: b :: c :: d :: e :: f :: p)) -> forall p, P p.
Proof.
  intros Hs Hc p. remember (length p) as n eqn:En. revert p En.
  induction n as [n IH] using (well_founded_induction lt_wf). intros p ->.
  destruct p as [|a [|b [|c [|d [|e [|f p]]]]]]; try (apply Hs; simpl; lia).
  apply Hc. eapply IH; [|reflexivity]. simpl. lia.
Qed.

Lemma settings_of_short p : (length p < 6)%nat -> settings_of p = [].
Proof. intros H. destruct p as [|a [|b [|c [|d [|e [|f p]]]]]]; simpl in H; try done; lia. Qed.

Lemma NumSettings_of p : NumSettings p = zlen (settings_of p).
Proof.
  induction p as [p Hp|a b c d e f p IH] using six_ind.
  - rewrite settings_of_short by done. unfold NumSettings. apply Z.div_small. unfold zlen. lia.
  - cbn [settings_of]. rewrite zlen_cons, <- IH. unfold NumSettings. rewrite !zlen_cons.
    replace (zlen p + 1 + 1 + 1 + 1 + 1 + 1) with (zlen p + 1 * 6) by lia. by rewrite Z.div_add.
Qed.

Lemma Setting_at_of p : forall i, Setting_at p (Z.of_nat i) = settings_of p !! i.
Proof.
  induction p as [p Hp|a b c d e f p IH] using six_ind; intros i.
  - rewrite settings_of_short by done. rewrite lookup_nil. unfold Setting_at.
    destruct (zslice p (Z.of_nat i * 6) (Z.of_nat i * 6 + 2)); cbn [mbind option_bind]; [|done].
    unfold zslice at 1. destruct (Z.leb_spec (Z.of_nat i * 6 + 6) (zlen p)); [unfold zlen in *; lia|].
    by rewrite andb_false_r.
  - destruct i as [|i].
    { unfold Setting_at. change (Z.of_nat 0 * 6) with 0.
      change (0 + 2) with 2. change (0 + 6) with 6.
      unfold zslice. change (a :: b :: c :: d :: e :: f :: p) with ([a; b; c; d; e; f] ++ p).
      rewrite zlen_app. change (zlen [a; b; c; d; e; f]) with 6. pose proof (zlen_nonneg p).
      destruct (Z.leb_spec 2 (6 + zlen p)), (Z.leb_spec 6 (6 + zlen p)); try lia. done. }
    transitivity (settings_of p !! i); [rewrite <- (IH i); unfold Setting_at|done].
    change (a :: b :: c :: d :: e :: f :: p) with ([a; b; c; d; e; f] ++ p).
    replace (Z.of_nat (S i) * 6) with (zlen [a; b; c; d; e; f] + Z.of_nat i * 6) by (change (zlen [a; b; c; d; e; f]) with 6; lia).
    rewrite <- !Z.add_assoc, !zslice_shift by lia. done.
Qed.

Lemma drop_lookup_cons {A} (l : list A) i x : l !! i = Some x -> drop i l = x :: drop (S i) l.
Proof. intros H. by apply drop_S. Qed.

(** The loops over the settings from index [i] on are functions of the remaining list. *)
Lemma valueFrom_of p id n : forall i,
  (i + n = length (settings_of p))%nat ->
  valueFrom n p (Z.of_nat i) id = Some (s_Val <$> List.find (fun s => s_ID s =? id) (drop i (settings_of p))).
Proof.
  induction n as [|n IH]; intros i Hi; cbn [valueFrom].
  { rewrite drop_ge by lia. done. }
  rewrite Setting_at_of. destruct (lookup_lt_is_Some_2 (settings_of p) i) as [s Hs]; [lia|].
  rewrite (drop_lookup_cons _ _ _ Hs), Hs. cbn [mbind option_bind List.find].
  destruct (s_ID s =? id); [done|]. replace (Z.of_nat i + 1) with (Z.of_nat (S i)) by lia. apply IH. lia.
Qed.

Lemma Settings_Value_of p id :
  Settings_Value p id = Some (s_Val <$> List.find (fun s => s_ID s =? id) (settings_of p)).
Proof.
  unfold Settings_Value. rewrite NumSettings_of. unfold zlen. rewrite Nat2Z.id.
  by rewrite (valueFrom_of p id _ 0).
Qed.

Lemma dupInner_of p idi n : forall j,
  (j + n = length (settings_of p))%nat ->
  dupInner n p idi (Z.of_nat j) = Some (bool_decide (idi ∈ s_ID <$> drop j (settings_of p))).
Proof.
  induction n as [|n IH]; intros j Hj; cbn [dupInner].
  { rewrite drop_ge by lia. done. }
  rewrite Setting_at_of. destruct (lookup_lt_is_Some_2 (settings_of p) j) as [s Hs]; [lia|].
  rewrite (drop_lookup_cons _ _ _ Hs), Hs. cbn [mbind option_bind fmap list_fmap].
  destruct (Z.eqb_spec idi (s_ID s)) as [->|Hne].
  - rewrite bool_decide_eq_true_2; [done|]. apply elem_of_cons. by left.
  - replace (Z.of_nat j + 1) with (Z.of_nat (S j)) by lia. rewrite IH by lia. f_equal. apply bool_decide_ext.
    rewrite elem_of_cons. split; [by right|by intros [?|?]].
Qed.

Lemma dupOuter_of p n : forall i,
  (i + n = length (settings_of p))%nat ->
  dupOuter n p (Z.of_nat i) = Some (bool_decide (~ NoDup (s_ID <$> drop i (settings_of p)))).
Proof.
  induction n as [|n IH]; intros i Hi; cbn [dupOuter].
  { rewrite drop_ge by lia. rewrite bool_decide_eq_false_2; [done|]. intros H. apply H. constructor. }
  rewrite Setting_at_of. destruct (lookup_lt_is_Some_2 (settings_of p) i) as [s Hs]; [lia|].
  rewrite (drop_lookup_cons _ _ _ Hs), Hs. cbn [mbind option_bind fmap list_fmap].
  replace (Z.of_nat i + 1) with (Z.of_nat (S i)) by lia. rewrite dupInner_of by lia. cbn [mbind option_bind].
  change ((fix go l := match l with [] => [] | x :: l => s_ID x :: go l end) (drop (S i) (settings_of p)))
    with (s_ID <$> drop (S i) (settings_of p)).
  case_bool_decide as Hin.
  - rewrite bool_decide_eq_true_2; [done|]. rewrite NoDup_cons. tauto.
  - rewrite IH by lia. f_equal. apply bool_decide_ext. rewrite NoDup_cons. tauto.
Qed.

Lemma dupSeen_of p n : forall i seen,
  (i + n = length (settings_of p))%nat -> seen = list_to_set (s_ID <$> take i (settings_of p)) ->
  NoDup (s_ID <$> take i (settings_of p)) ->
  dupSeen n p (Z.of_nat i) seen = Some (bool_decide (~ NoDup (s_ID <$> settings_of p))).
Proof.
  induction n as [|n IH]; intros i seen Hi Hseen Hnd; cbn [dupSeen].
  { rewrite take_ge in Hnd by lia. rewrite bool_decide_eq_false_2; [done|tauto]. }
  rewrite Setting_at_of. destruct (lookup_lt_is_Some_2 (settings_of p) i) as [s Hs]; [lia|]. rewrite Hs.
  cbn [mbind option_bind].
  assert (s_ID <$> take (S i) (settings_of p) = (s_ID <$> take i (settings_of p)) ++ [s_ID s]) as Et.
  { by rewrite (take_S_r _ _ _ Hs), fmap_app. }
  destruct (bool_decide_reflect (s_ID s ∈ seen)) as [Hin|Hin]; rewrite Hseen, elem_of_list_to_set in Hin.
  - rewrite bool_decide_eq_true_2; [done|]. intros Hall.
    assert (NoDup (s_ID <$> take (S i) (settings_of p))) as Hn.
    { rewrite <- (take_drop (S i) (settings_of p)), fmap_app in Hall. by apply NoDup_app in Hall as [? _]. }
    rewrite Et in Hn. apply NoDup_app in Hn as (_ & Hn & _). apply (Hn _ Hin). by apply list_elem_of_singleton.
  - replace (Z.of_nat i + 1) with (Z.of_nat (S i)) by lia. apply IH; [lia| |].
    + rewrite Hseen, Et, list_to_set_app_L. simpl. by rewrite union_empty_r_L, union_comm_L.
    + rewrite Et. apply NoDup_app. split; [done|]. split; [|apply NoDup_singleton].
      intros x Hx ->%list_elem_of_singleton. done.
Qed.

(** [HasDuplicates] is exact in both of its algorithms: it reports whether two
    settings of the payload have the same identifier, and never reads outside. *)
Theorem HasDuplicates_spec p :
  HasDuplicates p = Some (bool_decide (~ NoDup (s_ID <$> settings_of p))).
Proof.
  unfold HasDuplicates. rewrite NumSettings_of.
  destruct (Z.eqb_spec (zlen (settings_of p)) 0) as [E|Hne].
  { destruct (settings_of p) as [|s l]; [|rewrite zlen_cons in E; pose proof (zlen_nonneg l); lia].
    rewrite bool_decide_eq_false_2; [done|]. intros H. apply H. constructor. }
  unfold zlen. rewrite Nat2Z.id. destruct (_ <? 10).
  - by rewrite (dupOuter_of p _ 0).
  - rewrite (dupSeen_of p _ 0 ∅); try done. constructor.
Qed.

(** ** What a parser returns *)

(** The constraints on a frame of each type, for a payload of [fh_Length] bytes. *)
Definition frame_ok (f : Frame) : Prop :=
  let fh := Header f in
  match f with
  | DataFrame _ data => fh_StreamID fh <> 0 /\ zlen data <= fh_Length fh
  | HeadersFrame _ prio frag =>
      fh_StreamID fh <> 0 /\ zlen frag <= fh_Length fh /\ 0 <= StreamDep prio < 2 ^ 31
  | PriorityFrame _ prio => fh_StreamID fh <> 0 /\ fh_Length fh = 5 /\ 0 <= StreamDep prio < 2 ^ 31
  | RSTStreamFrame _ _ => fh_StreamID fh <> 0 /\ fh_Length fh = 4
  | SettingsFrame _ p =>
      fh_StreamID fh = 0 /\ zlen p = fh_Length fh /\ zlen p = 6 * zlen (settings_of p) /\
      (Flags_Has (fh_Flags fh) FlagSettingsAck = true -> p = []) /\
      forall s, List.find (fun s => s_ID s =? SettingInitialWindowSize) (settings_of p) = Some s -> s_Val s < 2 ^ 31
  | PushPromiseFrame _ promise frag =>
      fh_StreamID fh <> 0 /\ zlen frag <= fh_Length fh /\ 0 <= promise < 2 ^ 31
  | PingFrame _ data => fh_StreamID fh = 0 /\ zlen data = 8
  | GoAwayFrame _ lastID _ debug => fh_StreamID fh = 0 /\ 0 <= lastID < 2 ^ 31 /\ zlen debug + 8 = fh_Length fh
  | WindowUpdateFrame _ inc => 1 <= inc < 2 ^ 31 /\ fh_Length fh = 4
  | ContinuationFrame _ frag => fh_StreamID fh <> 0 /\ zlen frag = fh_Length fh
  | UnknownFrame _ p => zlen p = fh_Length fh
  end.

Definition parsed_ok (fh : FrameHeader) (r : parsed) : Prop :=
  match r with
  | Ret f => Header f = fh /\ frame_ok f
  | Fail (_, e) => terminalReadFrameError (Some e) = false -> exists c, e = StreamError (fh_StreamID fh) ErrCodeProtocol c
  | Panic => False
  end.

Lemma unpad_ok p pad k : 0 <= pad <= zlen p -> exists d, unpad p pad k = Ret (k d) /\ zlen d = zlen p - pad.
Proof.
  intros Hp. unfold unpad, zslice.
  destruct (Z.leb_spec 0 0), (Z.leb_spec 0 (zlen p - pad)), (Z.leb_spec (zlen p - pad) (zlen p)); try lia.
  eexists. split; [reflexivity|]. unfold zlen in *. rewrite length_take, length_drop. lia.
Qed.

Lemma readByte_ok p p' b : bytes_ok p -> readByte p = Some (p', b) -> bytes_ok p' /\ 0 <= b /\ zlen p' + 1 = zlen p.
Proof.
  intros Hp E. destruct p as [|x p]; [done|]. simpl in E. simplify_eq.
  apply Forall_cons in Hp as [Hb Hp]. unfold is_u8 in Hb. rewrite zlen_cons. split; [done|lia].
Qed.

(** The padding prefix, present or not. *)
Lemma pad_ok (padded : bool) p p' pad :
  bytes_ok p -> (if padded then readByte p else Some (p, 0)) = Some (p', pad) ->
  bytes_ok p' /\ 0 <= pad /\ zlen p' <= zlen p.
Proof.
  intros Hp E. destruct padded; [|simplify_eq; split; [done|lia]].
  destruct (readByte_ok _ _ _ Hp E) as (H1 & H2 & H3). split; [done|lia].
Qed.

Lemma readUint32_ok p p' v : readUint32 p = Some (p', v) -> zlen p' + 4 = zlen p /\ exists l, p = l ++ p'.
Proof.
  unfold readUint32. destruct (Z.ltb_spec (zlen p) 4); [done|].
  destruct (Uint32 p) eqn:Eu; simpl; [|done]. intros E. assert (p' = drop 4 p) as -> by congruence.
  split; [unfold zlen in *; rewrite length_drop; lia|exists (take 4 p); by rewrite take_drop].
Qed.

Lemma Uint32_total p : 4 <= zlen p -> exists v, Uint32 p = Some v.
Proof.
  intros H. destruct p as [|a [|b [|c [|d p]]]]; unfold zlen in H; simpl in H; try lia. by eexists.
Qed.

Lemma mask31 v : 0 <= Z.land v 0x7fffffff < 2 ^ 31.
Proof.
  pose proof (Z.land_ones v 31 ltac:(lia)) as E. change (Z.ones 31) with 0x7fffffff in E. rewrite E.
  apply Z.mod_pos_bound. lia.
Qed.

Lemma readPriority_ok p p' prio :
  bytes_ok p -> readPriority p = inl (p', prio) ->
  bytes_ok p' /\ zlen p' <= zlen p /\ 0 <= StreamDep prio < 2 ^ 31.
Proof.
  unfold readPriority. intros Hp E. destruct (readUint32 p) as [[p1 v]|] eqn:E1; [|done].
  apply readUint32_ok in E1 as [Hl [l ->]]. destruct (readByte p1) as [[p2 w]|] eqn:E2; [|done].
  apply Forall_app in Hp as [_ Hp]. destruct (readByte_ok _ _ _ Hp E2) as (H1 & H2 & H3).
  simplify_eq. split; [done|]. split; [lia|apply mask31].
Qed.

Lemma parseDataFrame_ok fh p : bytes_ok p -> zlen p = fh_Length fh -> parsed_ok fh (parseDataFrame fh p).
Proof.
  intros Hp Hl. unfold parseDataFrame. destruct (Z.eqb_spec (fh_StreamID fh) 0); [done|].
  destruct (if Flags_Has _ _ then _ else _) as [[p' pad]|] eqn:E; [|done].
  apply pad_ok in E as (Hp' & Hpad & Hle); [|done]. rewrite Z.gtb_ltb. destruct (Z.ltb_spec (zlen p') pad); [done|].
  destruct (unpad_ok p' pad (DataFrame fh)) as (d & -> & Hd); [lia|]. split; [done|]. split; [done|simpl; lia].
Qed.

Lemma parseHeadersFrame_ok fh p : bytes_ok p -> zlen p = fh_Length fh -> parsed_ok fh (parseHeadersFrame fh p).
Proof.
  intros Hp Hl. unfold parseHeadersFrame. destruct (Z.eqb_spec (fh_StreamID fh) 0); [done|].
  destruct (if Flags_Has _ FlagHeadersPadded then _ else _) as [[p' pad]|] eqn:E; [|done].
  apply pad_ok in E as (Hp' & Hpad & Hle); [|done].
  destruct (if Flags_Has _ FlagHeadersPriority then _ else _) as [[p2 prio]|[tok e]] eqn:E2.
  - assert (bytes_ok p2 /\ zlen p2 <= zlen p' /\ 0 <= StreamDep prio < 2 ^ 31) as (Hp2 & Hl2 & Hdep).
    { destruct (Flags_Has _ _); [by apply readPriority_ok|]. simplify_eq. split; [done|]. simpl. lia. }
    destruct (Z.ltb_spec (zlen p2 - pad) 0); [by eexists|].
    destruct (unpad_ok p2 pad (HeadersFrame fh prio)) as (d & -> & Hd); [lia|]. split; [done|].
    split; [done|]. simpl. split; [lia|done].
  - destruct (Flags_Has _ _); [|done]. unfold readPriority in E2. repeat split_match_in E2; by simplify_eq.
Qed.

Lemma parsePushPromise_ok fh p : bytes_ok p -> zlen p = fh_Length fh -> parsed_ok fh (parsePushPromise fh p).
Proof.
  intros Hp Hl. unfold parsePushPromise. destruct (Z.eqb_spec (fh_StreamID fh) 0); [done|].
  destruct (if Flags_Has _ _ then _ else _) as [[p' pad]|] eqn:E; [|done].
  apply pad_ok in E as (Hp' & Hpad & Hle); [|done].
  destruct (readUint32 p') as [[p2 v]|] eqn:E2; [|done]. apply readUint32_ok in E2 as [Hl2 _].
  rewrite Z.gtb_ltb. destruct (Z.ltb_spec (zlen p2) pad); [done|].
  destruct (unpad_ok p2 pad (PushPromiseFrame fh (Z.land v (Z.shiftl 1 31 - 1)))) as (d & -> & Hd); [lia|].
  split; [done|]. split; [done|]. cbn. split; [lia|apply mask31].
Qed.

Lemma parseSettingsFrame_ok fh p : bytes_ok p -> zlen p = fh_Length fh -> parsed_ok fh (parseSettingsFrame fh p).
Proof.
  intros Hp Hl. unfold parseSettingsFrame. destruct (_ && _) eqn:Eack; [done|].
  destruct (Z.eqb_spec (fh_StreamID fh) 0); [|done]. cbn [negb].
  destruct (Z.eqb_spec (zlen p mod 6) 0) as [Em|]; [|done]. cbn [negb].
  rewrite Settings_Value_of.
  assert (zlen p = 6 * zlen (settings_of p)) as H6.
  { rewrite <- NumSettings_of. unfold NumSettings. pose proof (Z.div_mod (zlen p) 6). lia. }
  assert (Flags_Has (fh_Flags fh) FlagSettingsAck = true -> p = []) as Hack.
  { intros Hf. rewrite Hf in Eack. simpl in Eack. breflect.
    destruct p as [|x p]; [done|]. rewrite zlen_cons in Hl. pose proof (zlen_nonneg p). lia. }
  destruct (List.find _ _) as [s|] eqn:Ef; cbn [fmap option_fmap option_map].
  - rewrite Z.gtb_ltb. destruct (Z.ltb_spec (Z.shiftl 1 31 - 1) (s_Val s)) as [|Hv]; [done|].
    split; [done|]. simpl. split_and!; try done. intros s'. rewrite Ef. intros [= <-].
    change (Z.shiftl 1 31) with (2 ^ 31) in Hv. lia.
  - split; [done|]. simpl. split_and!; try done. intros s'. by rewrite Ef.
Qed.

Lemma typeFrameParser_ok fh p t :
  bytes_ok p -> zlen p = fh_Length fh -> parsed_ok fh (typeFrameParser t fh p).
Proof.
  intros Hp Hl. unfold typeFrameParser.
  destruct (_ =? FrameType_Data); [by apply parseDataFrame_ok|].
  destruct (_ =? FrameType_Headers); [by apply parseHeadersFrame_ok|].
  destruct (_ =? FrameType_Priority).
  { unfold parsePriorityFrame. destruct (Z.eqb_spec (fh_StreamID fh) 0); [done|].
    destruct (Z.eqb_spec (zlen p) 5) as [H5|]; [|done]. cbn [negb].
    destruct (Uint32_total p) as [v ->]; [lia|]. destruct (zget_in p 4) as [w ->]; [lia|].
    split; [done|]. split; [done|]. split; [simpl; lia|apply mask31]. }
  destruct (_ =? FrameType_RSTStream).
  { unfold parseRSTStreamFrame. destruct (Z.eqb_spec (zlen p) 4) as [H4|]; [|done]. cbn [negb].
    destruct (Z.eqb_spec (fh_StreamID fh) 0); [done|]. destruct (Uint32_total p) as [v ->]; [lia|].
    split; [done|]. split; [done|simpl; lia]. }
  destruct (_ =? FrameType_Settings); [by apply parseSettingsFrame_ok|].
  destruct (_ =? FrameType_PushPromise); [by apply parsePushPromise_ok|].
  destruct (_ =? FrameType_Ping).
  { unfold parsePingFrame. destruct (Z.eqb_spec (zlen p) 8) as [H8|]; [|done]. cbn [negb].
    destruct (Z.eqb_spec (fh_StreamID fh) 0); [|done]. done. }
  destruct (_ =? FrameType_GoAway).
  { unfold parseGoAwayFrame. destruct (Z.eqb_spec (fh_StreamID fh) 0); [|done]. cbn [negb].
    destruct (Z.ltb_spec (zlen p) 8) as [|H8]; [done|].
    assert (forall lo hi, 0 <= lo <= hi -> hi <= zlen p -> exists l, zslice p lo hi = Some l /\ zlen l = hi - lo) as Hs.
    { intros lo hi Hlo Hhi. unfold zslice. destruct (Z.leb_spec 0 lo), (Z.leb_spec lo hi), (Z.leb_spec hi (zlen p)); try lia.
      eexists. split; [reflexivity|]. unfold zlen in *. rewrite length_take, length_drop. lia. }
    destruct (Hs 0 4) as (a & -> & Ha); [lia..|]. destruct (Hs 4 8) as (b & -> & Hb); [lia..|].
    destruct (Hs 8 (zlen p)) as (c & -> & Hc); [lia..|].
    destruct (Uint32_total a) as [v ->]; [lia|]. destruct (Uint32_total b) as [w ->]; [lia|].
    split; [done|]. split; [done|]. split; [apply mask31|simpl; lia]. }
  destruct (_ =? FrameType_WindowUpdate).
  { unfold parseWindowUpdateFrame. destruct (Z.eqb_spec (zlen p) 4) as [H4|]; [|done]. cbn [negb].
    destruct (Uint32_total p) as [v ->]; [lia|]. pose proof (mask31 v) as Hm.
    destruct (Z.eqb_spec (Z.land v 0x7fffffff) 0) as [|Hne]; [destruct (_ =? 0); [done|by eexists]|].
    split; [done|]. split; [lia|simpl; lia]. }
  destruct (_ =? FrameType_Continuation); [|done].
  unfold parseContinuationFrame. destruct (Z.eqb_spec (fh_StreamID fh) 0); done.
Qed.

(** ** ReadFrame *)

(** The framer's state: a header block is open only after a frame was read. *)
Definition framer_ok (fr : Framer) : Prop :=
  bytes_ok (fr_r fr) /\ (fr_lastHeaderStream fr <> 0 -> fr_lastFrame fr <> None).

Lemma ReadFull_spec r n r' res :
  0 <= n -> bytes_ok r -> ReadFull r n = (r', res) ->
  bytes_ok r' /\ match res with inl p => zlen p = n /\ bytes_ok p /\ r = p ++ r' | inr _ => r' = [] end.
Proof.
  intros Hn Hr E. unfold ReadFull in E. destruct (Z.leb_spec n (zlen r)); simplify_eq.
  - rewrite <- (take_drop (Z.to_nat n) r) in Hr. apply Forall_app in Hr as [H1 H2]. rewrite take_drop.
    split; [done|]. split; [|done]. unfold zlen in *. rewrite length_take. lia.
  - split; [apply Forall_nil; done|done].
Qed.

Lemma readFrameHeader_spec r r' res :
  bytes_ok r -> readFrameHeader r = (r', res) ->
  bytes_ok r' /\
  match res with
  | inl fh => 0 <= fh_Length fh /\ 0 <= fh_StreamID fh < 2 ^ 31 /\ exists h, zlen h = 9 /\ r = h ++ r'
  | inr _ => r' = []
  end.
Proof.
  intros Hr E. unfold readFrameHeader in E. destruct (ReadFull r frameHeaderLen) as [r1 [p|e]] eqn:E1;
    apply ReadFull_spec in E1; try done; destruct E1 as [Hr1 Hres].
  - destruct Hres as (Hl & Hp & ->). change frameHeaderLen with 9 in Hl.
    destruct p as [|b0 [|b1 [|b2 [|b3 [|b4 [|b5 [|b6 [|b7 [|b8 [|b9 p]]]]]]]]]];
      try (unfold zlen in Hl; simpl in Hl; lia).
    injection E as <- <-. split; [done|]. split; [|split; [apply mask31|by eexists]].
    simpl. repeat (apply Forall_cons in Hp as [?Hb Hp]). unfold is_u8 in *.
    rewrite !Z.lor_nonneg, !Z.shiftl_nonneg. lia.
  - simplify_eq. done.
Qed.

(** What the order check accepts, and the block it leaves open. *)
Lemma checkFrameOrder_spec fr fh :
  fr_AllowIllegalReads fr = false -> (fr_lastHeaderStream fr <> 0 -> fr_lastFrame fr <> None) ->
  match checkFrameOrder fr fh with
  | Panic => False
  | Fail (fr', e) =>
      e = ConnectionError ErrCodeProtocol /\ fr_r fr' = fr_r fr /\ fr_lastFrame fr' = Some fh /\
      fr_lastHeaderStream fr' = fr_lastHeaderStream fr /\ fr_maxReadSize fr' = fr_maxReadSize fr /\
      fr_AllowIllegalReads fr' = false
  | Ret fr' =>
      fr' = setLast fr (Some fh) (nextHeaderStream fr fh) /\
      (if fr_lastHeaderStream fr =? 0 then fh_Type fh <> FrameType_Continuation
       else fh_Type fh = FrameType_Continuation /\ fh_StreamID fh = fr_lastHeaderStream fr)
  end.
Proof.
  intros Hill Hlast. unfold checkFrameOrder. cbn [setLast fr_AllowIllegalReads fr_lastHeaderStream]. rewrite Hill.
  destruct (Z.eqb_spec (fr_lastHeaderStream fr) 0) as [E|Hne]; cbn [negb].
  - destruct (Z.eqb_spec (fh_Type fh) FrameType_Continuation); done.
  - destruct (Z.eqb_spec (fh_Type fh) FrameType_Continuation); cbn [negb].
    + destruct (Z.eqb_spec (fh_StreamID fh) (fr_lastHeaderStream fr)); done.
    + specialize (Hlast Hne). by destruct (fr_lastFrame fr).
Qed.

Lemma readFrame_spec fr :
  framer_ok fr -> fr_AllowIllegalReads fr = false ->
  match readFrame fr with
  | Panic => False
  | Fail (fr', _) =>
      framer_ok fr' /\ fr_AllowIllegalReads fr' = false /\ fr_maxReadSize fr' = fr_maxReadSize fr /\
      zlen (fr_r fr') <= zlen (fr_r fr)
  | Ret (fr', f) =>
      framer_ok fr' /\ fr_AllowIllegalReads fr' = false /\ fr_maxReadSize fr' = fr_maxReadSize fr /\
      frame_ok f /\ fh_Length (Header f) <= fr_maxReadSize fr /\ 0 <= fh_StreamID (Header f) < 2 ^ 31 /\
      (exists wire, zlen wire = 9 + fh_Length (Header f) /\ fr_r fr = wire ++ fr_r fr') /\
      fr_lastHeaderStream fr' = nextHeaderStream fr (Header f) /\
      (if fr_lastHeaderStream fr =? 0 then fh_Type (Header f) <> FrameType_Continuation
       else fh_Type (Header f) = FrameType_Continuation /\ fh_StreamID (Header f) = fr_lastHeaderStream fr)
  end.
Proof.
  intros [Hr Hlast] Hill. unfold readFrame. cbn [setErrDetail fr_r].
  destruct (readFrameHeader (fr_r fr)) as [r1 [fh|e]] eqn:E1; apply readFrameHeader_spec in E1 as [Hr1 Hfh]; try done.
  2: { subst r1. split_and!; try done. pose proof (zlen_nonneg (fr_r fr)). done. }
  destruct Hfh as (Hl & Hid & h & Hh & Hrh). rewrite Z.gtb_ltb.
  cbn [setReader setErrDetail fr_maxReadSize fr_r].
  assert (zlen r1 <= zlen (fr_r fr)) as Hle1 by (rewrite Hrh, zlen_app; lia).
  destruct (Z.ltb_spec (fr_maxReadSize fr) (fh_Length fh)) as [|Hmax]; [split_and!; done|].
  destruct (ReadFull r1 (fh_Length fh)) as [r2 [p|e]] eqn:E2; apply ReadFull_spec in E2 as [Hr2 Hp]; try done.
  2: { subst r2. split_and!; try done. pose proof (zlen_nonneg (fr_r fr)). done. }
  destruct Hp as (Hlp & Hpb & Hrp).
  assert (zlen r2 <= zlen (fr_r fr)) as Hle2 by (rewrite Hrh, Hrp, !zlen_app; pose proof (zlen_nonneg p); lia).
  pose proof (typeFrameParser_ok fh p (fh_Type fh) Hpb Hlp) as Hparse.
  destruct (typeFrameParser (fh_Type fh) fh p) as [f|[tok e]|]; [|destruct e; split_and!; done|done].
  destruct Hparse as [Hf Hfok]. rewrite Hf.
  match goal with |- context [checkFrameOrder ?x fh] =>
    pose proof (checkFrameOrder_spec x fh Hill Hlast) as Hord; destruct (checkFrameOrder x fh) as [fr'|[fr' e]|] end;
    [..|done]; cbn [obind].
  - destruct Hord as [-> Hord]. rewrite Hf. split; [split; [done|by intros _]|].
    do 4 (split; [done|]). split; [lia|]. split; [|done].
    exists (h ++ p). split; [rewrite zlen_app; lia|]. rewrite Hrh, Hrp. apply app_assoc.
  - destruct Hord as (-> & Er & El & Eh & Em & Ei). cbn in Er, El, Eh, Em.
    split_and!; [split; [by rewrite Er|by rewrite El]|done|done|by rewrite Er].
Qed.

(** C23: [ReadFrame] is safe on any input.  No parser reads outside its payload; a
    frame that is returned satisfies the constraints of its type, fits the maximum
    read size, and was consumed exactly; and the framer stays usable, whether the
    call succeeds or fails. *)
Theorem readFrame_sound fr :
  framer_ok fr -> fr_AllowIllegalReads fr = false ->
  match readFrame fr with
  | Panic => False
  | Fail (fr', _) => framer_ok fr' /\ zlen (fr_r fr') <= zlen (fr_r fr)
  | Ret (fr', f) =>
      framer_ok fr' /\ frame_ok f /\ fh_Length (Header f) <= fr_maxReadSize fr /\
      0 <= fh_StreamID (Header f) < 2 ^ 31 /\
      exists wire, zlen wire = 9 + fh_Length (Header f) /\ fr_r fr = wire ++ fr_r fr'
  end.
Proof.
  intros Hok Hill. pose proof (readFrame_spec fr Hok Hill) as H.
  destruct (readFrame fr) as [[fr' f]|[fr' e]|]; [|tauto|done].
  destruct H as (? & ? & ? & ? & ? & ? & ? & ?). auto 6.
Qed.

Lemma readFrame_sound_witness :
  match readFrame (NewFramer [0; 0; 2; 0; 8; 0; 0; 0; 1; 7; 0; 5]) with
  | Fail (fr, e) => framer_ok fr /\ e = ConnectionError ErrCodeProtocol
  | _ => False
  end.
Proof.
  assert (framer_ok (NewFramer [0; 0; 2; 0; 8; 0; 0; 0; 1; 7; 0; 5])) as Hok.
  { split; [|done]. repeat (apply Forall_cons; split; [unfold is_u8; lia|]). by apply Forall_nil. }
  pose proof (readFrame_sound _ Hok eq_refl) as H. revert H. vm_compute (readFrame _).
  intros [H _]. split; [exact H|reflexivity].
Defined.

(** ** Header blocks are contiguous *)

(** Successive calls of [ReadFrame] while they succeed. *)
Fixpoint readFrames (n : nat) (fr : Framer) : Framer * list Frame :=
  match n with
  | O => (fr, [])
  | S n => match readFrame fr with
           | Ret (fr', f) => let '(fr'', fs) := readFrames n fr' in (fr'', f :: fs)
           | _ => (fr, [])
           end
  end.

(** A HEADERS or CONTINUATION frame that does not end its block. *)
Definition opens (fh : FrameHeader) : Prop :=
  (fh_Type fh = FrameType_Headers \/ fh_Type fh = FrameType_Continuation) /\
  Flags_Has (fh_Flags fh) FlagHeadersEndHeaders = false.

Definition continues (a b : FrameHeader) : Prop :=
  fh_Type b = FrameType_Continuation /\ fh_StreamID b = fh_StreamID a.

#[global] Instance opens_dec fh : Decision (opens fh).
Proof. unfold opens. apply _. Defined.

(** The stream of the open block after a frame, as the framer keeps it. *)
Lemma nextHeaderStream_open fr fh : opens fh -> nextHeaderStream fr fh = fh_StreamID fh.
Proof. intros [Ht Hf]. unfold nextHeaderStream. rewrite Hf. destruct Ht as [-> | ->]; done. Qed.

Lemma nextHeaderStream_closed fr fh :
  ~ opens fh -> fr_lastHeaderStream fr = 0 \/ fh_Type fh = FrameType_Continuation -> nextHeaderStream fr fh = 0.
Proof.
  intros Hno Hprev. unfold nextHeaderStream.
  destruct (Flags_Has (fh_Flags fh) FlagHeadersEndHeaders) eqn:Hf; unfold opens in Hno; rewrite Hf in Hno.
  - destruct (_ || _) eqn:E; [done|]. breflect. by destruct Hprev.
  - destruct (Z.eqb_spec (fh_Type fh) FrameType_Headers); [tauto|].
    destruct (Z.eqb_spec (fh_Type fh) FrameType_Continuation); [tauto|]. simpl. by destruct Hprev.
Qed.

Lemma header_stream_nonzero fh p f :
  typeFrameParser (fh_Type fh) fh p = Ret f ->
  fh_Type fh = FrameType_Headers \/ fh_Type fh = FrameType_Continuation -> fh_StreamID fh <> 0.
Proof.
  intros E [Ht|Ht] Hid; rewrite Ht in E.
  - change (typeFrameParser FrameType_Headers) with parseHeadersFrame in E. unfold parseHeadersFrame in E.
    by rewrite Hid in E.
  - change (typeFrameParser FrameType_Continuation) with parseContinuationFrame in E.
    unfold parseContinuationFrame in E. by rewrite Hid in E.
Qed.

Lemma readFrame_header_stream fr fr' f :
  framer_ok fr -> readFrame fr = Ret (fr', f) -> opens (Header f) -> fh_StreamID (Header f) <> 0.
Proof.
  intros [Hr _] E [Ht _]. unfold readFrame in E.
  destruct (readFrameHeader _) as [r1 [fh|e]] eqn:E1; [|done].
  apply readFrameHeader_spec in E1 as [Hr1 (Hl & _)]; [|done].
  destruct (_ >? _); [done|]. destruct (ReadFull _ _) as [r2 [p|e]] eqn:E2; [|done].
  apply ReadFull_spec in E2 as [_ (Hlp & Hpb & _)]; [|done|done].
  pose proof (typeFrameParser_ok fh p (fh_Type fh) Hpb Hlp) as Hp.
  destruct (typeFrameParser (fh_Type fh) fh p) as [f'|[tok e]|] eqn:E3; [|destruct e; done|done].
  destruct Hp as [Hf _]. apply obind_Ret in E as (fr1 & _ & E). injection E as _ <-.
  rewrite Hf in Ht |- *. by eapply header_stream_nonzero.
Qed.

Lemma readFrames_contiguous n : forall fr fr' fs,
  framer_ok fr -> fr_AllowIllegalReads fr = false -> readFrames n fr = (fr', fs) ->
  (forall a, fs !! 0%nat = Some a ->
     if fr_lastHeaderStream fr =? 0 then fh_Type (Header a) <> FrameType_Continuation
     else fh_Type (Header a) = FrameType_Continuation /\ fh_StreamID (Header a) = fr_lastHeaderStream fr) /\
  (forall i a b, fs !! i = Some a -> fs !! S i = Some b ->
     (opens (Header a) -> continues (Header a) (Header b)) /\
     (~ opens (Header a) -> fh_Type (Header b) <> FrameType_Continuation)).
Proof.
  induction n as [|n IH]; intros fr fr' fs Hok Hill E; cbn [readFrames] in E; [by simplify_eq|].
  pose proof (readFrame_spec fr Hok Hill) as Hs.
  destruct (readFrame fr) as [[fr1 f]|[fr1 e]|] eqn:Ef; [|by simplify_eq|by simplify_eq].
  destruct Hs as (Hok1 & Hill1 & _ & _ & _ & _ & _ & Hlast & Hord).
  pose proof (readFrame_header_stream fr fr1 f Hok Ef) as Hid.
  destruct (readFrames n fr1) as [fr2 fs1] eqn:E1. injection E as <- <-.
  destruct (IH fr1 fr2 fs1 Hok1 Hill1 E1) as [Hfirst Hpairs]. split.
  { intros a [= <-]. exact Hord. }
  intros [|i] a b Ha Hb; [|by apply (Hpairs i)]. simpl in Ha, Hb. injection Ha as <-.
  specialize (Hfirst b Hb). rewrite Hlast in Hfirst. split; intros Hop.
  - rewrite nextHeaderStream_open in Hfirst by done. specialize (Hid Hop).
    destruct (Z.eqb_spec (fh_StreamID (Header f)) 0); [done|exact Hfirst].
  - rewrite nextHeaderStream_closed in Hfirst; [exact Hfirst|done|].
    destruct (Z.eqb_spec (fr_lastHeaderStream fr) 0); [by left|right; apply Hord].
Qed.

(** Header blocks are contiguous.  In the frames that successive calls of
    [ReadFrame] return, a HEADERS or CONTINUATION frame without END_HEADERS is
    followed by a CONTINUATION frame of the same stream and nothing else, and a
    CONTINUATION frame occurs nowhere else. *)
Theorem header_blocks_contiguous r n fr' fs :
  bytes_ok r -> readFrames n (NewFramer r) = (fr', fs) ->
  forall i b, fs !! i = Some b ->
    match i with
    | O => fh_Type (Header b) <> FrameType_Continuation
    | S j => exists a, fs !! j = Some a /\
        (opens (Header a) -> continues (Header a) (Header b)) /\
        (fh_Type (Header b) = FrameType_Continuation -> opens (Header a))
    end.
Proof.
  intros Hr E. destruct (readFrames_contiguous n (NewFramer r) fr' fs) as [Hfirst Hpairs]; [by split|done|done|].
  intros [|j] b Hb; [apply (Hfirst b Hb)|].
  destruct (lookup_lt_is_Some_2 fs j) as [a Ha]; [apply lookup_lt_Some in Hb; lia|].
  exists a. split; [done|]. destruct (Hpairs j a b Ha Hb) as [H1 H2]. split; [done|].
  intros Ht. destruct (decide (opens (Header a))) as [|Hno]; [done|]. by apply H2 in Hno.
Qed.

Definition sample_stream : bytes :=
  [0; 0; 1; 1; 0; 0; 0; 0; 3; 0x82; 0; 0; 0; 9; 4; 0; 0; 0; 3; 0; 0; 0; 4; 1; 0; 0; 0; 0].

Lemma header_blocks_contiguous_witness :
  exists fs, snd (readFrames 3 (NewFramer sample_stream)) = fs /\ length fs = 3%nat /\
    forall b, fs !! 1%nat = Some b -> exists a, fs !! 0%nat = Some a /\ (opens (Header a) -> continues (Header a) (Header b)).
Proof.
  assert (bytes_ok sample_stream) as Hok.
  { repeat (apply Forall_cons; split; [unfold is_u8; lia|]). by apply Forall_nil. }
  destruct (readFrames 3 (NewFramer sample_stream)) as [fr' fs] eqn:E.
  pose proof (header_blocks_contiguous sample_stream 3 fr' fs Hok E) as H.
  exists fs. split; [reflexivity|]. split; [vm_compute in E; by injection E as _ <-|].
  intros b Hb. destruct (H 1%nat b Hb) as (a & Ha & Hc & _). eauto.
Defined.
