(* ===== verification/HttpGuts.v ===== *)
(** * Package httpguts: HTTP syntax predicates

    Models src/http/httpguts/httplex.go and src/http2/ascii.go, with the header name
    check of src/http2/http2.go.  A string is its bytes.  A [range] loop over a
    string yields the byte itself below 0x80 and a rune of at least 0x80 for
    anything else, which is all the loops here depend on. *)

From S2P Require Import Prelude.

(** ** Tokens *)
Definition isTokenTable : list bool :=
  map (fun i => bool_decide (Z.of_nat i ∈
    str "!#$%&'*+-.0123456789ABCDEFGHIJKLMNOPQRSTUVWXYZ^_`abcdefghijklmnopqrstuvwxyz|~")) (seq 0 127).

(** For a non-negative rune. *)
Definition IsTokenRune (r : Z) : bool := (r <? 127) && default false (zget isTokenTable r).

Definition isOWS (b : Z) : bool := (b =? 32) || (b =? 9).

Fixpoint trimFront (x : bytes) : bytes :=
  match x with
  | [] => []
  | b :: x' => if isOWS b then trimFront x' else x
  end.

(** Removes the last byte while it is white space; [length x] rounds. *)
Fixpoint trimBack (fuel : nat) (x : bytes) : bytes :=
  match fuel with
  | O => x
  | S fuel => match last x with
              | Some b => if isOWS b then trimBack fuel (removelast x) else x
              | None => x
              end
  end.

Definition trimOWS (x : bytes) : bytes := let x := trimFront x in trimBack (length x) x.

Definition lowerASCII (b : Z) : Z := if (65 <=? b) && (b <=? 90) then u8 (b + (97 - 65)) else b.

(** The loop of [tokenEqual] on strings of equal length. *)
Fixpoint tokenEqualLoop (t1 t2 : bytes) : bool :=
  match t1, t2 with
  | b :: t1, c :: t2 =>
      if b >=? 0x80 then false
      else if negb (lowerASCII b =? lowerASCII c) then false else tokenEqualLoop t1 t2
  | _, _ => true
  end.

Definition tokenEqual (t1 t2 : bytes) : bool :=
  if negb (zlen t1 =? zlen t2) then false else tokenEqualLoop t1 t2.

(** [v[:comma]] and [v[comma+1:]] at the first comma. *)
Fixpoint cutComma (v : bytes) : option (bytes * bytes) :=
  match v with
  | [] => None
  | b :: v => if b =? 44 then Some ([], v)
              else '(l, r) ← cutComma v; Some (b :: l, r)
  end.

(** One round for each comma: [length v] rounds are enough. *)
Fixpoint containsTokenLoop (fuel : nat) (v token : bytes) : bool :=
  match fuel, cutComma v with
  | S fuel, Some (l, r) => if tokenEqual (trimOWS l) token then true else containsTokenLoop fuel r token
  | _, _ => tokenEqual (trimOWS v) token
  end.

Definition headerValueContainsToken (v token : bytes) : bool := containsTokenLoop (length v) v token.

Fixpoint HeaderValuesContainsToken (values : list bytes) (token : bytes) : bool :=
  match values with
  | [] => false
  | v :: values => if headerValueContainsToken v token then true else HeaderValuesContainsToken values token
  end.

(** ** Names, values and hosts *)
Definition isLWS (b : Z) : bool := (b =? 32) || (b =? 9).
Definition isCTL (b : Z) : bool := (b <? 32) || (b =? 0x7f).

Fixpoint tokenRunes (v : bytes) : bool :=
  match v with
  | [] => true
  | r :: v => if negb (IsTokenRune r) then false else tokenRunes v
  end.

Definition ValidHeaderFieldName (v : bytes) : bool :=
  match v with [] => false | _ => tokenRunes v end.

Definition validHostByte : list bool :=
  map (fun i => bool_decide (Z.of_nat i ∈
    str "0123456789abcdefghijklmnopqrstuvwxyzABCDEFGHIJKLMNOPQRSTUVWXYZ!$%&()*+,-.:;=[']_~")) (seq 0 256).

Fixpoint ValidHostHeader (h : bytes) : bool :=
  match h with
  | [] => true
  | b :: h => if negb (default false (zget validHostByte b)) then false else ValidHostHeader h
  end.

Fixpoint ValidHeaderFieldValue (v : bytes) : bool :=
  match v with
  | [] => true
  | b :: v => if isCTL b && negb (isLWS b) then false else ValidHeaderFieldValue v
  end.

Fixpoint isASCII (s : bytes) : bool :=
  match s with [] => true | b :: s => if b >=? 0x80 then false else isASCII s end.

(** ** http2: ascii.go and validWireHeaderFieldName *)
Definition lower (b : Z) : Z := if (65 <=? b) && (b <=? 90) then u8 (b + (97 - 65)) else b.

Fixpoint equalFoldLoop (s t : bytes) : bool :=
  match s, t with
  | b :: s, c :: t => if negb (lower b =? lower c) then false else equalFoldLoop s t
  | _, _ => true
  end.

Definition asciiEqualFold (s t : bytes) : bool :=
  if negb (zlen s =? zlen t) then false else equalFoldLoop s t.

Fixpoint isASCIIPrint (s : bytes) : bool :=
  match s with [] => true | b :: s => if (b <? 32) || (b >? 126) then false else isASCIIPrint s end.

(** [strings.ToLower] of a string that is ASCII maps each byte. *)
Definition asciiToLower (s : bytes) : bytes * bool :=
  if negb (isASCIIPrint s) then ([], false) else (map lower s, true).

Fixpoint wireRunes (v : bytes) : bool :=
  match v with
  | [] => true
  | r :: v => if negb (IsTokenRune r) then false else if (65 <=? r) && (r <=? 90) then false else wireRunes v
  end.

Definition validWireHeaderFieldName (v : bytes) : bool :=
  match v with [] => false | _ => wireRunes v end.

(** ** The grammar of RFC 7230 *)
Definition is_digit (b : Z) : bool := (48 <=? b) && (b <=? 57).
Definition is_upper (b : Z) : bool := (65 <=? b) && (b <=? 90).
Definition is_lower (b : Z) : bool := (97 <=? b) && (b <=? 122).

Definition tchar (b : Z) : bool :=
  is_digit b || is_upper b || is_lower b || bool_decide (b ∈ str "!#$%&'*+-.^_`|~").

Lemma IsTokenRune_tchar b : is_u8 b -> IsTokenRune b = tchar b.
Proof.
  intros Hb. pose proof (forallb_range (fun b => Bool.eqb (IsTokenRune b) (tchar b)) 256
    ltac:(vm_compute; reflexivity) b Hb) as H. by apply eqb_prop in H.
Qed.

Lemma tokenRunes_spec v : bytes_ok v -> tokenRunes v = forallb tchar v.
Proof.
  intros Hv. induction Hv as [|b v Hb _ IH]; simpl; [done|]. rewrite IsTokenRune_tchar, IH by done.
  by destruct (tchar b).
Qed.

Lemma wireRunes_spec v : bytes_ok v -> wireRunes v = forallb (fun b => tchar b && negb (is_upper b)) v.
Proof.
  intros Hv. induction Hv as [|b v Hb _ IH]; simpl; [done|]. rewrite IsTokenRune_tchar, IH by done.
  unfold is_upper. destruct (tchar b), (_ && _); done.
Qed.

(** ** Trimming *)
Definition ows (l : bytes) : Prop := Forall (fun b => isOWS b = true) l.

Lemma ows_nil : ows [].
Proof. by apply Forall_nil. Qed.
#[local] Hint Resolve ows_nil : core.

(** [t] is [x] without its leading and trailing white space. *)
Definition trimmed (x t : bytes) : Prop :=
  exists l r, x = l ++ t ++ r /\ ows l /\ ows r /\
    (forall b, head t = Some b -> isOWS b = false) /\ (forall b, last t = Some b -> isOWS b = false).

Lemma trimFront_spec x : exists l, x = l ++ trimFront x /\ ows l /\ (forall b, head (trimFront x) = Some b -> isOWS b = false).
Proof.
  induction x as [|b x (l & Hx & Hl & Hh)]; simpl; [by exists []|].
  destruct (isOWS b) eqn:E; [|exists []; split; [done|]; split; [done|]; intros c [= <-]; done].
  exists (b :: l). split; [simpl; congruence|]. split; [by apply Forall_cons|done].
Qed.

Lemma trimBack_spec fuel x :
  (length x <= fuel)%nat -> (forall b, head x = Some b -> isOWS b = false) ->
  exists r, x = trimBack fuel x ++ r /\ ows r /\ (forall b, last (trimBack fuel x) = Some b -> isOWS b = false) /\
    (forall b, head (trimBack fuel x) = Some b -> isOWS b = false).
Proof.
  revert x. induction fuel as [|fuel IH]; intros x Hf Hh.
  { destruct x; [by exists []|simpl in Hf; lia]. }
  simpl. destruct (last x) as [b|] eqn:El; [|apply last_None in El as ->; by exists []].
  destruct (isOWS b) eqn:E; [|exists []; rewrite app_nil_r; split; [done|]; split; [done|]; split; [congruence|done]].
  apply last_Some in El as [y ->]. rewrite removelast_last. rewrite length_app in Hf. simpl in Hf.
  assert (forall b, head y = Some b -> isOWS b = false) as Hy by (intros c Hc; apply Hh; destruct y; [done|exact Hc]).
  destruct (IH y) as (r & Hr & Hor & Hl & Hh'); [lia|done|].
  exists (r ++ [b]). split; [rewrite app_assoc; congruence|]. split; [|done].
  apply Forall_app. split; [done|]. apply Forall_cons. split; [done|by apply Forall_nil].
Qed.

Lemma trimOWS_spec x : trimmed x (trimOWS x).
Proof.
  destruct (trimFront_spec x) as (l & Hx & Hl & Hh). unfold trimOWS.
  destruct (trimBack_spec (length (trimFront x)) (trimFront x)) as (r & Hr & Hor & Hlast & Hhead); [lia|done|].
  exists l, r. rewrite <- Hr. split; [done|]. split; [done|]. done.
Qed.

(** ** Token lists *)

(** The elements of a comma-separated list. *)
Fixpoint elements (v : bytes) : list bytes :=
  match v with
  | [] => [[]]
  | b :: v =>
      if b =? 44 then [] :: elements v
      else match elements v with [] => [[b]] | e :: es => (b :: e) :: es end
  end.

Lemma elements_nonempty v : exists e es, elements v = e :: es.
Proof. destruct v as [|b v]; simpl; [eauto|]. destruct (b =? 44); [eauto|]. destruct (elements v); eauto. Qed.

Lemma cutComma_elements v :
  match cutComma v with
  | None => elements v = [v]
  | Some (l, r) => elements v = l :: elements r /\ (length r < length v)%nat
  end.
Proof.
  induction v as [|b v IH]; simpl; [done|]. destruct (b =? 44); [simpl; split; [done|lia]|].
  destruct (cutComma v) as [[l r]|]; simpl.
  - destruct IH as [-> Hl]. split; [done|lia].
  - by rewrite IH.
Qed.

Lemma containsTokenLoop_spec token fuel : forall v,
  (length v <= fuel)%nat ->
  containsTokenLoop fuel v token = existsb (fun e => tokenEqual (trimOWS e) token) (elements v).
Proof.
  induction fuel as [|fuel IH]; intros v Hf; simpl; pose proof (cutComma_elements v) as Hc.
  - destruct v; [|simpl in Hf; lia]. simpl. by rewrite orb_false_r.
  - destruct (cutComma v) as [[l r]|].
    + destruct Hc as [-> Hl]. simpl. rewrite IH by lia. by destruct (tokenEqual _ _).
    + rewrite Hc. simpl. by rewrite orb_false_r.
Qed.

Lemma tokenEqualLoop_spec t1 : forall t2,
  length t1 = length t2 ->
  tokenEqualLoop t1 t2 = true <-> Forall (fun b => b < 0x80) t1 /\ map lowerASCII t1 = map lowerASCII t2.
Proof.
  induction t1 as [|b t1 IH]; intros [|c t2] Hl; try done; simpl.
  rewrite Z.geb_leb. destruct (Z.leb_spec 0x80 b).
  { split; [done|]. intros [Hf _]. apply Forall_cons in Hf as [? _]. lia. }
  destruct (Z.eqb_spec (lowerASCII b) (lowerASCII c)) as [E|E]; simpl.
  - rewrite IH by (simpl in Hl; lia). rewrite Forall_cons. split.
    + intros [? ?]. split; [split; [lia|done]|congruence].
    + intros [[? ?] [= _ ?]]. done.
  - split; [done|]. intros [_ [= ?]]. done.
Qed.

Lemma tokenEqual_spec t1 t2 :
  tokenEqual t1 t2 = true <-> Forall (fun b => b < 0x80) t1 /\ map lowerASCII t1 = map lowerASCII t2.
Proof.
  unfold tokenEqual. destruct (Z.eqb_spec (zlen t1) (zlen t2)) as [E|E]; simpl.
  - apply tokenEqualLoop_spec. unfold zlen in E. lia.
  - split; [done|]. intros [_ H]. apply (f_equal length) in H. rewrite !length_map in H. unfold zlen in E. lia.
Qed.

Lemma forallb_and {A} (f g : A -> bool) l : forallb (fun x => f x && g x) l = forallb f l && forallb g l.
Proof. induction l as [|x l IH]; simpl; [done|]. rewrite IH. destruct (f x), (g x); simpl; by rewrite ?andb_false_r. Qed.

(** [HeaderValuesContainsToken] implements RFC 7230's list syntax: it holds
    exactly when some comma-separated element of some value, without the optional
    white space around it, is ASCII and equals the token ignoring case. *)
Theorem HeaderValuesContainsToken_spec values token :
  HeaderValuesContainsToken values token = true <->
  exists v e t, v ∈ values /\ e ∈ elements v /\ trimmed e t /\ t = trimOWS e /\
    Forall (fun b => b < 0x80) t /\ map lowerASCII t = map lowerASCII token.
Proof.
  assert (forall v, headerValueContainsToken v token = true <->
    exists e t, e ∈ elements v /\ trimmed e t /\ t = trimOWS e /\
      Forall (fun b => b < 0x80) t /\ map lowerASCII t = map lowerASCII token) as Hv.
  { intros v. unfold headerValueContainsToken. rewrite containsTokenLoop_spec by lia.
    rewrite existsb_exists. split.
    - intros (e & He & Ht). apply tokenEqual_spec in Ht as [H1 H2].
      exists e, (trimOWS e). rewrite list_elem_of_In. split_and!; try done. apply trimOWS_spec.
    - intros (e & t & He & _ & -> & H1 & H2). exists e. rewrite <- list_elem_of_In. split; [done|].
      by apply tokenEqual_spec. }
  induction values as [|v values IH]; simpl.
  { split; [done|]. intros (v & e & t & H & _). by apply elem_of_nil in H. }
  destruct (headerValueContainsToken v token) eqn:E.
  - split; [|done]. intros _. apply Hv in E as (e & t & H). exists v, e, t. split; [by left|done].
  - rewrite IH. split.
    + intros (w & e & t & Hw & H). exists w, e, t. split; [by right|done].
    + intros (w & e & t & [->|Hw]%elem_of_cons & H); [|by exists w, e, t].
      assert (headerValueContainsToken v token = true) by (apply Hv; by exists e, t). congruence.
Qed.

(** The header name checks decide the grammar.  On byte strings
    [ValidHeaderFieldName] accepts exactly the non-empty strings of RFC 7230 token
    characters, and the HTTP/2 check exactly those without upper-case letters. *)
Theorem header_names_spec v :
  bytes_ok v ->
  ValidHeaderFieldName v = negb (bool_decide (v = [])) && forallb tchar v /\
  validWireHeaderFieldName v = ValidHeaderFieldName v && forallb (fun b => negb (is_upper b)) v.
Proof.
  intros Hv. unfold ValidHeaderFieldName, validWireHeaderFieldName. destruct v as [|b v]; [done|].
  rewrite tokenRunes_spec, wireRunes_spec by done. split; [done|]. by rewrite forallb_and.
Qed.

Lemma header_names_spec_witness :
  ValidHeaderFieldName (str "Content-Type") = true /\ validWireHeaderFieldName (str "Content-Type") = false.
Proof.
  destruct (header_names_spec (str "Content-Type") (str_ok _)) as [-> ->].
  split; vm_compute; reflexivity.
Defined.
