(* ===== verification/FrameMeta.v ===== *)
(** * Package http2: merging header blocks

    Models readMetaFrame, checkPseudos and the accessors of MetaHeadersFrame in
    src/http2/frame.go: a HEADERS frame and its CONTINUATION frames are decoded by
    the connection's HPACK decoder through the emit callback.  [W] is the width of
    [int]. *)

From S2P Require Import Prelude Bits HpackHuffman HpackTable Hpack HpackDecode Frame FrameRead HttpGuts.

(** ** MetaHeadersFrame *)
Record MetaHeadersFrame := mkMeta {
  mh_fh : FrameHeader;
  mh_Priority : PriorityParam;
  mh_Fields : list HeaderField;
  mh_Truncated : bool
}.

(** [hf.Name[1:] == pseudo] on a pseudo field, whose name is not empty. *)
Fixpoint PseudoValueLoop (fields : list HeaderField) (pseudo : bytes) : bytes :=
  match fields with
  | [] => []
  | hf :: fields =>
      if negb (IsPseudo hf) then []
      else if bool_decide (drop 1 (hf_Name hf) = pseudo) then hf_Value hf
      else PseudoValueLoop fields pseudo
  end.

Definition PseudoValue (mh : MetaHeadersFrame) (pseudo : bytes) : bytes := PseudoValueLoop (mh_Fields mh) pseudo.

Fixpoint regularFrom (fields : list HeaderField) : list HeaderField :=
  match fields with
  | [] => []
  | hf :: rest => if negb (IsPseudo hf) then fields else regularFrom rest
  end.

Definition RegularFields (mh : MetaHeadersFrame) : list HeaderField := regularFrom (mh_Fields mh).

Fixpoint pseudoPrefix (fields : list HeaderField) : list HeaderField :=
  match fields with
  | [] => []
  | hf :: rest => if negb (IsPseudo hf) then [] else hf :: pseudoPrefix rest
  end.

Definition PseudoFields (mh : MetaHeadersFrame) : list HeaderField := pseudoPrefix (mh_Fields mh).

Definition requestPseudo : list bytes := [str ":method"; str ":path"; str ":scheme"; str ":authority"].
Definition responsePseudo : list bytes := [str ":status"].

(** The loop of [checkPseudos]: [before] is [pf[:i]]. *)
Fixpoint checkPseudosLoop (before rest : list HeaderField) (isRequest isResponse : bool) : option reason :=
  match rest with
  | [] => if isRequest && isResponse then Some errMixPseudoHeaderTypes else None
  | hf :: rest =>
      let isReq := bool_decide (hf_Name hf ∈ requestPseudo) in
      let isResp := bool_decide (hf_Name hf ∈ responsePseudo) in
      if negb isReq && negb isResp then Some (pseudoHeaderError (hf_Name hf))
      else if existsb (fun hf2 => bool_decide (hf_Name hf = hf_Name hf2)) before
      then Some (duplicatePseudoHeaderError (hf_Name hf))
      else checkPseudosLoop (before ++ [hf]) rest (isReq || isRequest) (negb isReq && isResp || isResponse)
  end.

Definition checkPseudos (mh : MetaHeadersFrame) : option reason :=
  checkPseudosLoop [] (PseudoFields mh) false false.

(** ** The emit callback *)
Record meta_state := mkMS {
  ms_Fields : list HeaderField;
  ms_Truncated : bool;
  ms_remainSize : Z;             (* uint32 *)
  ms_sawRegular : bool;
  ms_invalid : option reason
}.

Definition emitMeta (hf : HeaderField) (enabled : bool) (s : meta_state) : meta_state * bool :=
  let invalid := if negb (ValidHeaderFieldValue (hf_Value hf)) then Some (headerFieldValueError (hf_Name hf))
                 else ms_invalid s in
  let isPseudo := bool_decide (head (hf_Name hf) = Some 58) in
  let '(invalid, sawRegular) :=
    if isPseudo then (if ms_sawRegular s then Some errPseudoAfterRegular else invalid, ms_sawRegular s)
    else (if negb (validWireHeaderFieldName (hf_Name hf)) then Some (headerFieldNameError (hf_Name hf)) else invalid, true) in
  match invalid with
  | Some _ => (mkMS (ms_Fields s) (ms_Truncated s) (ms_remainSize s) sawRegular invalid, false)
  | None =>
      let size := hf_Size hf in
      if size >? ms_remainSize s then (mkMS (ms_Fields s) true (ms_remainSize s) sawRegular invalid, false)
      else (mkMS (ms_Fields s ++ [hf]) (ms_Truncated s) (u32 (ms_remainSize s - size)) sawRegular invalid, enabled)
  end.

(** ** readMetaFrame *)

(** A framer that merges header blocks. *)
Record MetaFramer := mkMF {
  mf_fr : Framer;
  mf_dec : Decoder;                    (* ReadMetaHeaders *)
  mf_MaxHeaderListSize : Z             (* uint32 *)
}.

Definition maxHeaderListSize (MaxHeaderListSize : Z) : Z :=
  if MaxHeaderListSize =? 0 then Z.shiftl 16 20 else MaxHeaderListSize.

Section width.
Context (W : Z).

Definition maxHeaderStringLen (MaxHeaderListSize : Z) : Z :=
  let v := maxHeaderListSize MaxHeaderListSize in
  let i := swrap W v in
  if u32 i =? v then i else 0.

(** The loop over the fragments; [None] when the fuel is spent.  Every round but
    the first consumes a frame of at least nine bytes. *)
Fixpoint metaLoop (fuel : nat) (fr : Framer) (d : Decoder) (s : meta_state) (frag : bytes) (ended : bool)
  : option (outcome (Framer * Decoder * frame_error) (Framer * Decoder * meta_state)) :=
  match fuel with
  | O => None
  | S fuel =>
      match Write emitMeta d s frag with
      | None => Some Panic
      | Some (d, s, _, Some _) => Some (Fail (fr, d, ConnectionError ErrCodeCompression))
      | Some (d, s, _, None) =>
          if ended then Some (Ret (fr, d, s))
          else
            match readFrame fr with
            | Panic => Some Panic
            | Fail (fr, e) => Some (Fail (fr, d, e))
            | Ret (fr, ContinuationFrame fh frag) =>
                metaLoop fuel fr d s frag (Flags_Has (fh_Flags fh) FlagContinuationEndHeaders)
            | Ret (fr, _) => Some Panic
            end
      end
  end.

Definition readMetaFrame (mf : MetaFramer) (fh : FrameHeader) (prio : PriorityParam) (frag : bytes)
  : option (outcome (MetaFramer * frame_error) (MetaFramer * MetaHeadersFrame)) :=
  let fr := mf_fr mf in
  let max := mf_MaxHeaderListSize mf in
  if fr_AllowIllegalReads fr then Some (Fail (mf, errIllegalMeta))
  else
    let d := SetMaxStringLength (SetEmitEnabled (mf_dec mf) true) (maxHeaderStringLen max) in
    let s := mkMS [] false (maxHeaderListSize max) false None in
    r ← metaLoop (S (length (fr_r fr))) fr d s frag (Flags_Has (fh_Flags fh) FlagHeadersEndHeaders);
    Some
      match r with
      | Panic => Panic
      | Fail (fr, d, e) => Fail (mkMF fr d max, e)
      | Ret (fr, d, s) =>
          match Close d with
          | (d, Some _) => Fail (mkMF fr d max, ConnectionError ErrCodeCompression)
          | (d, None) =>
              let mh := mkMeta fh prio (ms_Fields s) (ms_Truncated s) in
              match ms_invalid s with
              | Some e => Fail (mkMF (setErrDetail fr (Some e)) d max,
                                StreamError (fh_StreamID fh) ErrCodeProtocol (Some e))
              | None =>
                  match checkPseudos mh with
                  | Some e => Fail (mkMF (setErrDetail fr (Some e)) d max,
                                    StreamError (fh_StreamID fh) ErrCodeProtocol (Some e))
                  | None => Ret (mkMF fr d max, mh)
                  end
              end
          end
      end.

(** [ReadFrame] of a framer with [ReadMetaHeaders] set. *)
Definition ReadFrame (mf : MetaFramer)
  : option (outcome (MetaFramer * frame_error) (MetaFramer * (Frame + MetaHeadersFrame))) :=
  match readFrame (mf_fr mf) with
  | Panic => Some Panic
  | Fail (fr, e) => Some (Fail (mkMF fr (mf_dec mf) (mf_MaxHeaderListSize mf), e))
  | Ret (fr, HeadersFrame fh prio frag) =>
      r ← readMetaFrame (mkMF fr (mf_dec mf) (mf_MaxHeaderListSize mf)) fh prio frag;
      Some (let! p := r in let '(mf, mh) := (p : MetaFramer * MetaHeadersFrame) in Ret (mf, inr mh))
  | Ret (fr, f) => Some (Ret (mkMF fr (mf_dec mf) (mf_MaxHeaderListSize mf), inl f))
  end.
End width.

(** ** What a merged frame guarantees *)
Definition sizes (fs : list HeaderField) : Z := foldr (fun f n => hf_Size f + n) 0 fs.

Lemma sizes_app fs f : sizes (fs ++ [f]) = sizes fs + hf_Size f.
Proof. unfold sizes. induction fs as [|g fs IH]; simpl; [lia|]. rewrite IH. lia. Qed.

Lemma hf_Size_u32 f : is_u32 (hf_Size f).
Proof. apply u32_range. Qed.

(** A pseudo field may not follow a regular one. *)
Definition pseudo_first (fs : list HeaderField) : Prop :=
  forall i j f g, (i < j)%nat -> fs !! i = Some f -> fs !! j = Some g -> IsPseudo g = true -> IsPseudo f = true.

Definition field_valid (f : HeaderField) : Prop :=
  ValidHeaderFieldValue (hf_Value f) = true /\
  (IsPseudo f = false -> validWireHeaderFieldName (hf_Name f) = true).

(** The invariant of the callback's state while nothing invalid was seen. *)
Definition meta_inv (max : Z) (s : meta_state) : Prop :=
  ms_invalid s = None ->
  Forall field_valid (ms_Fields s) /\ pseudo_first (ms_Fields s) /\
  (ms_sawRegular s = false -> Forall (fun f => IsPseudo f = true) (ms_Fields s)) /\
  sizes (ms_Fields s) + ms_remainSize s = max /\ 0 <= ms_remainSize s < 2 ^ 32.

Lemma IsPseudo_head f : IsPseudo f = bool_decide (head (hf_Name f) = Some 58).
Proof.
  unfold IsPseudo. destruct (hf_Name f) as [|b n]; [by vm_compute|]. simpl.
  destruct (Z.eqb_spec b 58) as [->|Hne].
  - rewrite bool_decide_eq_true_2 by done. done.
  - rewrite bool_decide_eq_false_2 by congruence. done.
Qed.

Lemma pseudo_first_snoc fs f :
  pseudo_first fs -> (IsPseudo f = true -> Forall (fun f => IsPseudo f = true) fs) -> pseudo_first (fs ++ [f]).
Proof.
  intros Hfs Hf i j g h Hij Hg Hh Hp.
  apply lookup_app_Some in Hh as [Hh|[Hlen Hh]].
  - rewrite lookup_app_l in Hg by (apply lookup_lt_Some in Hh; lia). by eapply Hfs.
  - apply list_lookup_singleton_Some in Hh as [Hj <-].
    rewrite lookup_app_l in Hg by lia. specialize (Hf Hp). rewrite Forall_lookup in Hf. by eapply Hf.
Qed.

Lemma emitMeta_inv max f en s : meta_inv max s -> meta_inv max (emitMeta f en s).1.
Proof.
  intros Hs Hnone. unfold emitMeta in *. rewrite <- IsPseudo_head in *.
  set (inv0 := if negb (ValidHeaderFieldValue _) then _ else _) in *.
  destruct (if IsPseudo f then _ else _) as [inv saw] eqn:E.
  destruct inv as [r|]; [done|].
  assert (inv0 = None /\ (if IsPseudo f then ms_sawRegular s = false /\ saw = false
            else validWireHeaderFieldName (hf_Name f) = true /\ saw = true)) as [Hinv0 Hcase].
  { destruct (IsPseudo f).
    - destruct (ms_sawRegular s) eqn:Esaw; simplify_eq. auto.
    - destruct (validWireHeaderFieldName _); simplify_eq/=. auto. }
  assert (ms_invalid s = None /\ ValidHeaderFieldValue (hf_Value f) = true) as [Hsi Hval].
  { unfold inv0 in Hinv0. destruct (ValidHeaderFieldValue _); [auto|done]. }
  destruct (Hs Hsi) as (Hv & Hpf & Hreg & Hsum & Hrem). rewrite Z.gtb_ltb in *.
  destruct (Z.ltb_spec (ms_remainSize s) (hf_Size f)); cbn [fst ms_Fields ms_sawRegular ms_remainSize] in *.
  - split; [done|]. split; [done|]. split; [|done].
    destruct (IsPseudo f); destruct Hcase as [? ->]; [intros _; by apply Hreg|done].
  - pose proof (hf_Size_u32 f). unfold is_u32 in *. rewrite u32_id by (unfold is_u32; lia).
    rewrite sizes_app. split; [|split; [|split; [|lia]]].
    + apply Forall_app. split; [done|]. apply Forall_cons. split; [|by apply Forall_nil].
      split; [done|]. intros Hp. rewrite Hp in Hcase. apply Hcase.
    + apply pseudo_first_snoc; [done|]. intros Hp. rewrite Hp in Hcase. apply Hreg, Hcase.
    + intros ->. destruct (IsPseudo f) eqn:Hp; destruct Hcase as [? ?]; [|done].
      apply Forall_app. split; [by apply Hreg|]. apply Forall_cons. split; [done|by apply Forall_nil].
Qed.

Section preserve.
Context {St : Type} (emit : HeaderField -> bool -> St -> St * bool) (P : St -> Prop).
Hypothesis emit_P : forall f en s, P s -> P (emit f en s).1.

Lemma callEmit_P d s f : P s -> P (callEmit emit d s f).1.2.
Proof.
  intros Hs. unfold callEmit. destruct (_ && _); [done|]. destruct (d_emitEnabled d); [|done].
  pose proof (emit_P f true s Hs) as He. by destruct (emit f true s).
Qed.

Ltac by_callEmit :=
  match goal with H : callEmit emit ?d ?s ?f = _, Hs : P ?s |- _ =>
    pose proof (callEmit_P d s f Hs) as He; rewrite H in He; exact He end.

Lemma parseHeaderFieldRepr_P d s p d' s' rest err :
  P s -> parseHeaderFieldRepr emit d s p = Some (d', s', rest, err) -> P s'.
Proof.
  intros Hs. unfold parseHeaderFieldRepr, parseFieldIndexed, parseFieldLiteral, parseDynamicTableSizeUpdate. intros E.
  repeat (case_match; simplify_option_eq; try done).
  all: by_callEmit.
Qed.

Lemma writeLoop_P fuel : forall plen d s buf d' s' n err,
  P s -> writeLoop emit fuel plen d s buf = Some (d', s', n, err) -> P s'.
Proof.
  induction fuel as [|fuel IH]; intros plen d s [|b buf] d' s' n err Hs E; try (simpl in E; simplify_eq; done).
  cbn [writeLoop] in E. destruct (parseHeaderFieldRepr emit d s (b :: buf)) as [[[[d1 s1] rest] [e|]]|] eqn:Ep;
    cbn [mbind option_bind] in E; [| |done]; apply parseHeaderFieldRepr_P in Ep; try done.
  - destruct e; repeat split_match_in E; by simplify_eq.
  - by eapply IH.
Qed.

Lemma Write_P d s p d' s' n err : P s -> Write emit d s p = Some (d', s', n, err) -> P s'.
Proof.
  intros Hs E. unfold Write in E. destruct p; [by simplify_eq|].
  destruct (d_saveBuf d); by eapply writeLoop_P.
Qed.
End preserve.

Lemma metaLoop_inv max fuel : forall fr d s frag ended fr' d' s',
  meta_inv max s -> metaLoop fuel fr d s frag ended = Some (Ret (fr', d', s')) -> meta_inv max s'.
Proof.
  induction fuel as [|fuel IH]; intros fr d s frag ended fr' d' s' Hs E; [done|]. cbn [metaLoop] in E.
  destruct (Write emitMeta d s frag) as [[[[d1 s1] n] [e|]]|] eqn:Ew; [done| |done].
  assert (meta_inv max s1) as Hs1 by (eapply Write_P; [|exact Hs|exact Ew]; apply emitMeta_inv).
  destruct ended; [by simplify_eq|].
  destruct (readFrame fr) as [[fr1 f]|[fr1 e]|]; [|done|done]. destruct f; try done. by eapply IH.
Qed.

(** What [checkPseudos] accepts: known pseudo fields, each at most once, and not
    those of requests and responses together. *)
Definition pseudos_ok (pf : list HeaderField) : Prop :=
  NoDup (hf_Name <$> pf) /\
  ((Forall (fun f => hf_Name f ∈ requestPseudo) pf) \/ (Forall (fun f => hf_Name f ∈ responsePseudo) pf)).

Lemma checkPseudosLoop_spec rest : forall before isReq isResp,
  checkPseudosLoop before rest isReq isResp = None ->
  NoDup (hf_Name <$> before) ->
  Forall (fun f => hf_Name f ∈ requestPseudo \/ hf_Name f ∈ responsePseudo) before ->
  (isReq = false -> Forall (fun f => hf_Name f ∈ responsePseudo) before) ->
  (isResp = false -> Forall (fun f => hf_Name f ∈ requestPseudo) before) ->
  pseudos_ok (before ++ rest).
Proof.
  induction rest as [|f rest IH]; intros before isReq isResp E Hnd Hall Hreq Hresp; simpl in E.
  { rewrite app_nil_r. split; [done|]. destruct isReq; [|right; auto]. destruct isResp; [done|left; auto]. }
  destruct (bool_decide_reflect (hf_Name f ∈ requestPseudo)) as [Hrq|Hrq];
    destruct (bool_decide_reflect (hf_Name f ∈ responsePseudo)) as [Hrs|Hrs]; simpl in E; try done.
  all: destruct (existsb _ before) eqn:Ex; [done|].
  all: assert (~ hf_Name f ∈ hf_Name <$> before) as Hnew
    by (intros (g & Hg & Hin)%list_elem_of_fmap; apply not_true_iff_false in Ex; apply Ex, existsb_exists;
        exists g; rewrite <- list_elem_of_In; split; [done|]; by apply bool_decide_eq_true).
  all: change (f :: rest) with ([f] ++ rest); rewrite app_assoc; eapply IH; [exact E|..].
  all: try (rewrite fmap_app; apply NoDup_app; split; [done|]; split; [|apply NoDup_singleton];
            intros x Hx ->%list_elem_of_singleton; done).
  all: try (apply Forall_app; split; [done|]; apply Forall_cons; split; [auto|by apply Forall_nil]).
  all: intros Hb; try done; apply Forall_app; (split; [by auto|apply Forall_cons; split; [done|by apply Forall_nil]]).
Qed.

(** C27: a merged header list is well-formed.  When [ReadFrame] returns a
    MetaHeadersFrame, whatever bytes arrived: pseudo fields precede regular ones,
    are known, distinct and of one kind; every value is a valid field value and
    every regular name a valid lower-case name; and the sizes of the fields sum to
    at most the configured maximum. *)
Theorem meta_headers_valid W mf mf' mh :
  0 <= mf_MaxHeaderListSize mf < 2 ^ 32 -> ReadFrame W mf = Some (Ret (mf', inr mh)) ->
  Forall field_valid (mh_Fields mh) /\ pseudo_first (mh_Fields mh) /\ pseudos_ok (PseudoFields mh) /\
  sizes (mh_Fields mh) <= maxHeaderListSize (mf_MaxHeaderListSize mf).
Proof.
  intros Hmax E. unfold ReadFrame in E. destruct (readFrame (mf_fr mf)) as [[fr f]|[fr e]|]; [|done|done].
  destruct f; try done. destruct (readMetaFrame _ _ _ _ _) as [[[mf1 mh1]|e|]|] eqn:Em; simpl in E; try done.
  injection E as <- <-. unfold readMetaFrame in Em. cbn [mf_MaxHeaderListSize mf_fr mf_dec] in Em.
  destruct (fr_AllowIllegalReads fr); [done|].
  destruct (metaLoop _ _ _ _ _ _) as [[[[fr1 d1] s1]|[[fr1 d1] e]|]|] eqn:El; cbn [mbind option_bind] in Em; try done.
  set (max := maxHeaderListSize (mf_MaxHeaderListSize mf)) in *.
  assert (0 <= max < 2 ^ 32) as Hm.
  { unfold max, maxHeaderListSize. destruct (_ =? 0); [by vm_compute|done]. }
  apply (metaLoop_inv max) in El.
  2: { intros _. simpl. split; [by apply Forall_nil|]. split; [intros i j f g _ Hf; by rewrite lookup_nil in Hf|].
       split; [intros _; by apply Forall_nil|]. lia. }
  destruct (Close d1) as [d2 [e|]]; [done|]. destruct (ms_invalid s1) as [e|] eqn:Ei; [done|].
  destruct (checkPseudos _) as [e|] eqn:Ec; [done|]. injection Em as _ <-.
  destruct (El Ei) as (Hv & Hpf & _ & Hsum & Hrem). cbn [mh_Fields]. split; [done|]. split; [done|]. split; [|lia].
  apply (checkPseudosLoop_spec _ [] false false Ec); try done; intros; by apply Forall_nil || apply NoDup_nil_2.
Qed.

(** HEADERS [:method: GET, :path: /, foo: bar] in one frame. *)
Definition get_request : bytes :=
  [0; 0; 11; 1; 5; 0; 0; 0; 1; 0x82; 0x84; 0x40; 3; 102; 111; 111; 3; 98; 97; 114].

Definition fresh_decoder : Decoder :=
  mkDec (mkDyn table_init 0 4096 4096) true 0 [] true.

Definition sample_framer : MetaFramer := mkMF (NewFramer get_request) fresh_decoder 1000.

Lemma meta_headers_valid_witness :
  exists mf' mh, ReadFrame 64 sample_framer = Some (Ret (mf', inr mh)) /\
    mh_Fields mh = [entry ":method" "GET"; entry ":path" "/"; entry "foo" "bar"] /\ sizes (mh_Fields mh) <= 1000.
Proof.
  destruct (ReadFrame 64 sample_framer) as [[[mf' [f|mh]]|e|]|] eqn:E;
    try (exfalso; revert E; vm_compute; congruence).
  exists mf', mh. split; [reflexivity|]. split.
  - vm_compute in E. injection E as _ <-. reflexivity.
  - refine (proj2 (proj2 (proj2 (meta_headers_valid 64 sample_framer mf' mh _ E)))). simpl. lia.
Defined.

(** ** Merging always ends *)
Lemma readFrame_continuation fr fr' f :
  framer_ok fr -> fr_AllowIllegalReads fr = false -> fr_lastHeaderStream fr <> 0 -> readFrame fr = Ret (fr', f) ->
  exists fh frag, f = ContinuationFrame fh frag /\
    (Flags_Has (fh_Flags fh) FlagContinuationEndHeaders = false -> fr_lastHeaderStream fr' <> 0).
Proof.
  intros Hok Hill Hlast E. pose proof (readFrame_spec fr Hok Hill) as Hs.
  pose proof (readFrame_header_stream fr fr' f Hok E) as Hid. rewrite E in Hs.
  destruct Hs as (_ & _ & _ & _ & _ & _ & _ & Hnext & Hord).
  destruct (Z.eqb_spec (fr_lastHeaderStream fr) 0); [done|]. destruct Hord as [Ht _].
  assert (exists fh frag, f = ContinuationFrame fh frag) as (fh & frag & ->).
  { unfold readFrame in E. destruct (readFrameHeader _) as [r1 [fh|e]] eqn:E1; [|done].
    apply readFrameHeader_spec in E1 as [Hr1 (Hl & _)]; [|apply Hok].
    destruct (_ >? _); [done|]. destruct (ReadFull _ _) as [r2 [p|e]] eqn:E2; [|done].
    apply ReadFull_spec in E2 as [_ (Hlp & Hpb & _)]; [|done|done].
    pose proof (typeFrameParser_ok fh p (fh_Type fh) Hpb Hlp) as Hp.
    destruct (typeFrameParser (fh_Type fh) fh p) as [f'|[tok e]|] eqn:E3; [|destruct e; done|done].
    destruct Hp as [Hf _]. apply obind_Ret in E as (fr1 & _ & E). injection E as _ <-.
    rewrite Hf in Ht. rewrite Ht in E3.
    change (typeFrameParser FrameType_Continuation) with parseContinuationFrame in E3.
    unfold parseContinuationFrame in E3. destruct (_ =? 0); [done|]. injection E3 as <-. eauto. }
  exists fh, frag. split; [done|]. intros Hend. rewrite Hnext. simpl in Ht |- *.
  assert (opens fh) as Hop by (split; [by right|exact Hend]).
  rewrite nextHeaderStream_open by done. by apply Hid.
Qed.

Lemma metaLoop_total fuel : forall fr d s frag ended,
  framer_ok fr -> fr_AllowIllegalReads fr = false -> decoder_ok d -> saved_ok d ->
  (ended = false -> fr_lastHeaderStream fr <> 0) ->
  zlen (d_saveBuf d) + zlen frag + zlen (fr_r fr) < 2 ^ 24 ->
  (length (fr_r fr) < fuel)%nat ->
  dt_added (d_dynTab d) + Z.of_nat fuel * 2 ^ 24 < 2 ^ 64 ->
  exists r, metaLoop fuel fr d s frag ended = Some r /\ r <> Panic.
Proof.
  induction fuel as [|fuel IH]; intros fr d s frag ended Hfr Hill Hd Hsv Hopen Hlen Hfuel Hadd; [lia|].
  cbn [metaLoop]. pose proof (zlen_nonneg (d_saveBuf d)). pose proof (zlen_nonneg (fr_r fr)). pose proof (zlen_nonneg frag).
  destruct (Write_returns emitMeta d s frag) as (d1 & s1 & n & err & -> & Hd1 & Hsv1 & Hz1 & Ha1); [done|lia|done|lia|].
  destruct err as [e|]; [by eexists|]. destruct ended; [by eexists|]. specialize (Hopen eq_refl).
  pose proof (readFrame_spec fr Hfr Hill) as Hs.
  destruct (readFrame fr) as [[fr1 f]|[fr1 e]|] eqn:E; [|by eexists|done].
  destruct (readFrame_continuation fr fr1 f Hfr Hill Hopen E) as (fh & frag1 & -> & Hend).
  destruct Hs as (Hfr1 & Hill1 & _ & [_ Hfrag] & _ & _ & (w & Hw & Hr) & _). simpl in Hfrag, Hw.
  assert (zlen (fr_r fr) = 9 + zlen frag1 + zlen (fr_r fr1)) as Hrl by (rewrite Hr, zlen_app; lia).
  pose proof (zlen_nonneg frag1). pose proof (zlen_nonneg (fr_r fr1)).
  apply IH; try done; [lia|unfold zlen in *; lia|lia].
Qed.

Lemma maxHeaderStringLen_64 max : 0 <= max < 2 ^ 32 -> maxHeaderStringLen 64 max = maxHeaderListSize max.
Proof.
  intros Hm. unfold maxHeaderStringLen.
  assert (0 <= maxHeaderListSize max < 2 ^ 32) as H by (unfold maxHeaderListSize; destruct (_ =? 0); [by vm_compute|done]).
  rewrite swrap_id by lia. rewrite u32_id by (unfold is_u32; lia). by rewrite Z.eqb_refl.
Qed.

Lemma headers_type t fh p fh' prio frag :
  typeFrameParser t fh p = Ret (HeadersFrame fh' prio frag) -> t = FrameType_Headers.
Proof.
  unfold typeFrameParser. intros E. destruct (Z.eqb_spec t FrameType_Headers) as [|Hne]; [done|]. exfalso.
  destruct (t =? FrameType_Data); [unfold parseDataFrame, unpad in E; repeat split_match_in E; simplify_eq|].
  destruct (t =? FrameType_Priority); [unfold parsePriorityFrame in E; repeat split_match_in E; simplify_eq|].
  destruct (t =? FrameType_RSTStream); [unfold parseRSTStreamFrame in E; repeat split_match_in E; simplify_eq|].
  destruct (t =? FrameType_Settings); [unfold parseSettingsFrame in E; repeat split_match_in E; simplify_eq|].
  destruct (t =? FrameType_PushPromise); [unfold parsePushPromise, unpad in E; repeat split_match_in E; simplify_eq|].
  destruct (t =? FrameType_Ping); [unfold parsePingFrame in E; repeat split_match_in E; simplify_eq|].
  destruct (t =? FrameType_GoAway); [unfold parseGoAwayFrame in E; repeat split_match_in E; simplify_eq|].
  destruct (t =? FrameType_WindowUpdate); [unfold parseWindowUpdateFrame in E; repeat split_match_in E; simplify_eq|].
  destruct (t =? FrameType_Continuation); [unfold parseContinuationFrame in E; repeat split_match_in E; simplify_eq|].
  done.
Qed.

Lemma readFrame_headers_type fr fr' fh prio frag :
  framer_ok fr -> readFrame fr = Ret (fr', HeadersFrame fh prio frag) -> fh_Type fh = FrameType_Headers.
Proof.
  intros [Hr _] E. unfold readFrame in E.
  destruct (readFrameHeader _) as [r1 [fh1|e]] eqn:E1; [|done].
  apply readFrameHeader_spec in E1 as [Hr1 (Hl & _)]; [|done].
  destruct (_ >? _); [done|]. destruct (ReadFull _ _) as [r2 [p|e]] eqn:E2; [|done].
  apply ReadFull_spec in E2 as [_ (Hlp & Hpb & _)]; [|done|done].
  pose proof (typeFrameParser_ok fh1 p (fh_Type fh1) Hpb Hlp) as Hp.
  destruct (typeFrameParser (fh_Type fh1) fh1 p) as [f|[tok e]|] eqn:E3; [|destruct e; done|done].
  destruct Hp as [Hf _]. apply obind_Ret in E as (fr1 & _ & E). injection E as _ ->.
  simpl in Hf. subst fh1. by eapply headers_type.
Qed.

(** C26: reading never gets stuck.  With a 64-bit [int], on any input of less than
    2^24 bytes and from any decoder with well-formed tables between two blocks,
    [ReadFrame] with header merging returns a frame or an error: the loop over
    CONTINUATION frames ends, the type assertion on them never fails, and neither
    the frame parsers nor the HPACK decoder index out of range. *)
Theorem ReadFrame_total mf :
  framer_ok (mf_fr mf) -> fr_AllowIllegalReads (mf_fr mf) = false -> decoder_ok (mf_dec mf) ->
  d_saveBuf (mf_dec mf) = [] -> 0 <= mf_MaxHeaderListSize mf < 2 ^ 32 ->
  zlen (fr_r (mf_fr mf)) < 2 ^ 24 -> dt_added (d_dynTab (mf_dec mf)) < 2 ^ 62 ->
  exists r, ReadFrame 64 mf = Some r /\ r <> Panic.
Proof.
  intros Hfr Hill (Hdt & Hmx & Hal & _) Hsave Hmax Hlen Hadd. unfold ReadFrame.
  pose proof (readFrame_spec (mf_fr mf) Hfr Hill) as Hs.
  pose proof (readFrame_header_stream (mf_fr mf)) as Hid. pose proof (readFrame_headers_type (mf_fr mf)) as Htype.
  destruct (readFrame (mf_fr mf)) as [[fr f]|[fr e]|]; [|by eexists|done].
  destruct f as [|fh prio frag| | | | | | | | |]; try by eexists.
  destruct Hs as (Hfr1 & Hill1 & _ & (Hne & Hfrag & _) & _ & _ & (w & Hw & Hr) & Hnext & _).
  specialize (Hid fr _ Hfr eq_refl). simpl in Hid, Hfrag, Hw, Hnext.
  unfold readMetaFrame. cbn [mf_fr mf_dec mf_MaxHeaderListSize]. rewrite Hill1.
  set (d := SetMaxStringLength _ _). set (s := mkMS _ _ _ _ _).
  assert (zlen (fr_r (mf_fr mf)) = 9 + fh_Length fh + zlen (fr_r fr)) as Hrl by (rewrite Hr, zlen_app; lia).
  pose proof (zlen_nonneg frag). pose proof (zlen_nonneg (fr_r fr)).
  destruct (metaLoop_total (S (length (fr_r fr))) fr d s frag (Flags_Has (fh_Flags fh) FlagHeadersEndHeaders)) as (r & -> & Hr').
  - done.
  - done.
  - unfold d. split; [done|]. split; [done|]. split; [done|]. cbn [d_maxStrLen SetMaxStringLength]. rewrite maxHeaderStringLen_64 by done.
    unfold maxHeaderListSize. destruct (_ =? 0); [by vm_compute|lia].
  - intros _. unfold d. cbn [d_maxStrLen d_saveBuf SetMaxStringLength SetEmitEnabled].
    rewrite Hsave, maxHeaderStringLen_64 by done. change (zlen (@nil Z)) with 0.
    unfold maxHeaderListSize. destruct (_ =? 0); [by vm_compute|lia].
  - intros Hend. rewrite Hnext.
    assert (opens fh) as Hop by (split; [left; by eapply Htype|done]).
    rewrite nextHeaderStream_open by done. by apply Hid.
  - unfold d. simpl. rewrite Hsave. change (zlen (@nil Z)) with 0. lia.
  - lia.
  - unfold d. simpl. unfold zlen in *. lia.
  - cbn [mbind option_bind]. destruct r as [[[fr2 d2] s2]|[[fr2 d2] e]|]; [|by eexists|done].
    destruct (Close d2) as [d3 [e|]]; [by eexists|]. destruct (ms_invalid s2); [by eexists|].
    destruct (checkPseudos _); by eexists.
Qed.

Lemma ReadFrame_total_witness : exists r, ReadFrame 64 sample_framer = Some r /\ r <> Panic.
Proof.
  apply (ReadFrame_total sample_framer).
  - split; [|done]. repeat (apply Forall_cons; split; [unfold is_u8; lia|]). by apply Forall_nil.
  - reflexivity.
  - destruct (dt_init_ok 4096) as (Ht & _); [unfold is_u32; lia|].
    split; [split; [exact Ht|]; vm_compute; intuition congruence|]. vm_compute. intuition congruence.
  - reflexivity.
  - simpl. lia.
  - vm_compute. reflexivity.
  - vm_compute. reflexivity.
Defined.

(** With a 32-bit [int] the fallback of [maxHeaderStringLen] is never taken.
    The conversion back to [uint32] undoes the wrap, so for a limit of 2^31 or more
    the string limit handed to the HPACK decoder is negative instead of zero
    (unlimited), and the decoder then rejects every header field. *)
Theorem maxHeaderStringLen_32bit max d s f :
  2 ^ 31 <= max < 2 ^ 32 ->
  maxHeaderStringLen 32 max = max - 2 ^ 32 /\
  (callEmit emitMeta (SetMaxStringLength d (maxHeaderStringLen 32 max)) s f).2 = Some errStringLength.
Proof.
  intros Hm. assert (maxHeaderStringLen 32 max = max - 2 ^ 32) as E.
  { unfold maxHeaderStringLen, maxHeaderListSize. destruct (Z.eqb_spec max 0); [lia|].
    assert (swrap 32 max = max - 2 ^ 32) as ->.
    { unfold swrap. replace (max + 2 ^ (32 - 1)) with (max - 2 ^ 31 + 1 * 2 ^ 32) by lia.
      rewrite Z.mod_add, Z.mod_small by lia. lia. }
    unfold u32. replace (max - 2 ^ 32) with (max + (-1) * 2 ^ 32) by lia. rewrite Z.mod_add, Z.mod_small by lia.
    by rewrite Z.eqb_refl. }
  split; [exact E|]. unfold callEmit. cbn [d_maxStrLen SetMaxStringLength]. rewrite E.
  pose proof (zlen_nonneg (hf_Name f)). destruct (Z.eqb_spec (max - 2 ^ 32) 0); [lia|]. cbn [negb andb].
  rewrite !Z.gtb_ltb. destruct (Z.ltb_spec (max - 2 ^ 32) (zlen (hf_Name f))); [|lia]. done.
Qed.

Lemma maxHeaderStringLen_32bit_witness :
  maxHeaderStringLen 32 0xfffffff0 = -16 /\
  (callEmit emitMeta (SetMaxStringLength fresh_decoder (maxHeaderStringLen 32 0xfffffff0))
     (mkMS [] false 100 false None) (entry "a" "b")).2 = Some errStringLength.
Proof. apply (maxHeaderStringLen_32bit 0xfffffff0). lia. Defined.
