(* ===== verification/WriteFrames.v ===== *)
(** * Package http2: what a server writes

    The types behind [writeFramer] of src/http2/write.go, with [writeEndsStream] and
    [staysWithinBuffer].  The write schedulers and the server keep such values in their
    queues; HeaderWrite.v has what writing each of them does. *)

From S2P Require Import Prelude Frame.

(** The parts of a [*url.URL] that [RequestURI] looks at; [EscapedPath] is its result. *)
Record URL := mkURL {
  u_Scheme : bytes;
  u_Opaque : bytes;
  u_Host : bytes;
  u_EscapedPath : bytes;
  u_ForceQuery : bool;
  u_RawQuery : bytes
}.

Record resHeaders := mkRes {
  rh_streamID : Z;
  rh_httpResCode : Z;
  rh_h : gmap bytes (list bytes);
  rh_trailers : option (list bytes);
  rh_endStream : bool;
  rh_date : bytes;
  rh_contentType : bytes;
  rh_contentLength : bytes
}.

(** [allocatePromisedID] is called by server.go before the frame is written. *)
Record pushPromise := mkPush {
  pu_streamID : Z;
  pu_method : bytes;
  pu_url : URL;
  pu_h : gmap bytes (list bytes);
  pu_promisedID : Z
}.

(** The types that implement [writeFramer]. *)
Inductive writeFramer :=
| flushFrameWriter
| writeSettings (s : list Setting)
| writeGoAway (maxStreamID code : Z)
| writeData (streamID : Z) (p : bytes) (endStream : bool)
| handlerPanicRST (StreamID : Z)
| writeStreamError (StreamID Code : Z)
| writePingAck (Data : bytes)
| writeSettingsAck
| writeResHeaders (w : resHeaders)
| writePushPromise (w : pushPromise)
| write100ContinueHeadersFrame (streamID : Z)
| writeWindowUpdate (streamID n : Z).

#[global] Instance Setting_eq_dec : EqDecision Setting.
Proof. solve_decision. Defined.
#[global] Instance URL_eq_dec : EqDecision URL.
Proof. solve_decision. Defined.
#[global] Instance resHeaders_eq_dec : EqDecision resHeaders.
Proof. solve_decision. Defined.
#[global] Instance pushPromise_eq_dec : EqDecision pushPromise.
Proof. solve_decision. Defined.
#[global] Instance writeFramer_eq_dec : EqDecision writeFramer.
Proof. solve_decision. Defined.

(** [None] is the panic on a nil interface. *)
Definition writeEndsStream (w : option writeFramer) : option bool :=
  match w with
  | None => None
  | Some (writeData _ _ endStream) => Some endStream
  | Some (writeResHeaders w) => Some (rh_endStream w)
  | Some _ => Some false
  end.

Definition staysWithinBuffer (w : writeFramer) (max : Z) : bool :=
  match w with
  | flushFrameWriter | writeGoAway _ _ | writeResHeaders _ | writePushPromise _ => false
  | writeSettings s => frameHeaderLen + 6 * zlen s <=? max
  | writeData _ p _ => frameHeaderLen + zlen p <=? max
  | handlerPanicRST _ | writeStreamError _ _ | writeWindowUpdate _ _ => frameHeaderLen + 4 <=? max
  | writePingAck Data => frameHeaderLen + zlen Data <=? max
  | writeSettingsAck => frameHeaderLen <=? max
  | write100ContinueHeadersFrame _ => 9 + 2 * (zlen (str ":status") + zlen (str "100")) <=? max
  end.
