(* ===== verification/HeaderWrite.v ===== *)
(** * Package http2: the frame writers

    Models src/http2/write.go ([writeFrame] of every type of WriteFrames.v,
    [encodeHeaders], [splitHeaderBlock]), headermap.go and the key sorter of http2.go, and the loop
    of [ClientConn.writeHeaders] in transport.go.  The writer under the [Framer],
    its [Flush] and its errors are parameters. *)

From stdpp Require Import sorting.
From S2P Require Import Prelude HpackTable Hpack HpackSync Frame FrameWrite HttpGuts WriteFrames.

(** ** headermap.go and the sorter *)

(** [http.CanonicalHeaderKey] of a valid key: upper case at the start of a word. *)
Fixpoint canonicalLoop (up : bool) (s : bytes) : bytes :=
  match s with
  | [] => []
  | c :: s =>
      let c' := if up && is_lower c then c - 32 else if negb up && is_upper c then c + 32 else c in
      c' :: canonicalLoop (c' =? 45) s
  end.

Definition CanonicalHeaderKey (s : bytes) : bytes := if forallb tchar s then canonicalLoop true s else s.

Definition common : list bytes := [
  str "accept"; str "accept-charset"; str "accept-encoding"; str "accept-language"; str "accept-ranges"; str "age";
  str "access-control-allow-origin"; str "allow"; str "authorization"; str "cache-control"; str "content-disposition";
  str "content-encoding"; str "content-language"; str "content-length"; str "content-location"; str "content-range";
  str "content-type"; str "cookie"; str "date"; str "etag"; str "expect"; str "expires"; str "from"; str "host";
  str "if-match"; str "if-modified-since"; str "if-none-match"; str "if-unmodified-since"; str "last-modified";
  str "link"; str "location"; str "max-forwards"; str "proxy-authenticate"; str "proxy-authorization"; str "range";
  str "referer"; str "refresh"; str "retry-after"; str "server"; str "set-cookie"; str "strict-transport-security";
  str "trailer"; str "transfer-encoding"; str "user-agent"; str "vary"; str "via"; str "www-authenticate"].

Definition commonLowerHeader : gmap bytes bytes := list_to_map (map (fun v => (CanonicalHeaderKey v, v)) common).
Definition commonCanonHeader : gmap bytes bytes := list_to_map (map (fun v => (v, CanonicalHeaderKey v)) common).

Definition lowerHeader (v : bytes) : bytes * bool :=
  match commonLowerHeader !! v with
  | Some s => (s, true)
  | None => asciiToLower v
  end.

(** Go's [<=] on strings. *)
Fixpoint bytes_le (s t : bytes) : bool :=
  match s, t with
  | [], _ => true
  | _ :: _, [] => false
  | b :: s, c :: t => (b <? c) || ((b =? c) && bytes_le s t)
  end.

(** [sorter.Keys]: the keys of the map are distinct, so the sorted slice is unique. *)
Definition Keys (h : gmap bytes (list bytes)) : list bytes :=
  merge_sort (fun s t => Is_true (bytes_le s t)) (map fst (map_to_list h)).

Definition httpCodeString (code : Z) : bytes :=
  if code =? 200 then str "200" else if code =? 404 then str "404" else Itoa code.

(** ** Requests to write *)

Definition RequestURI (u : URL) : bytes :=
  let result :=
    match u_Opaque u with
    | [] => match u_EscapedPath u with [] => [47] | p => p end
    | o => if bool_decide (take 2 o = [47; 47]) then u_Scheme u ++ [58] ++ o else o
    end in
  if u_ForceQuery u || negb (bool_decide (u_RawQuery u = [])) then result ++ [63] ++ u_RawQuery u else result.

Section writers.
Context {Wr Err : Type} (write : Wr -> bytes -> Wr * (Z * option Err)) (flush : Wr -> Wr * option Err)
        (ErrShortWrite : Err) (ofErr : frame_error -> Err).

(** What a [writeContext] gives access to: the framer and its writer, the HPACK
    encoder and the buffer it writes to. *)
Record writeContext := mkCtx {
  cx_AllowIllegalWrites : bool;
  cx_w : Wr;
  cx_enc : Encoder;
  cx_buf : bytes
}.

Definition set_w (w : Wr) (ctx : writeContext) : writeContext := mkCtx (cx_AllowIllegalWrites ctx) w (cx_enc ctx) (cx_buf ctx).
Definition set_enc (e : Encoder) (buf : bytes) (ctx : writeContext) : writeContext := mkCtx (cx_AllowIllegalWrites ctx) (cx_w ctx) e buf.

(** A method of [ctx.Framer()]. *)
Definition onFramer (ctx : writeContext) (frame : bool -> bytes + frame_error) : writeContext * option Err :=
  let '(w, err) := sendFrame write ErrShortWrite ofErr (cx_w ctx) (frame (cx_AllowIllegalWrites ctx)) in
  (set_w w ctx, err).

Definition Flush (ctx : writeContext) : writeContext * option Err :=
  let '(w, err) := flush (cx_w ctx) in (set_w w ctx, err).

(** The error of [WriteField] is ignored. *)
Definition encKV (ctx : writeContext) (k v : bytes) : option writeContext :=
  '(e, buf, _) ← WriteField bufWrite tt (cx_enc ctx) (cx_buf ctx) (mkHF k v false);
  Some (set_enc e buf ctx).

Fixpoint encValues (ctx : writeContext) (k : bytes) (isTE : bool) (vv : list bytes) : option writeContext :=
  match vv with
  | [] => Some ctx
  | v :: vv =>
      if negb (ValidHeaderFieldValue v) then encValues ctx k isTE vv
      else if isTE && negb (bool_decide (v = str "trailers")) then encValues ctx k isTE vv
      else ctx ← encKV ctx k v; encValues ctx k isTE vv
  end.

Fixpoint encKeys (ctx : writeContext) (h : gmap bytes (list bytes)) (keys : list bytes) : option writeContext :=
  match keys with
  | [] => Some ctx
  | k :: keys =>
      let vv := default [] (h !! k) in
      let '(k, ascii) := lowerHeader k in
      if negb ascii then encKeys ctx h keys
      else if negb (validWireHeaderFieldName k) then encKeys ctx h keys
      else ctx ← encValues ctx k (bool_decide (k = str "transfer-encoding")) vv; encKeys ctx h keys
  end.

Definition encodeHeaders (ctx : writeContext) (h : gmap bytes (list bytes)) (keys : option (list bytes)) : option writeContext :=
  encKeys ctx h (match keys with None => Keys h | Some keys => keys end).

(** The loop of [splitHeaderBlock]; every round takes at least one byte. *)
Fixpoint splitLoop (fuel : nat) (fn : writeContext -> bytes -> bool -> bool -> writeContext * option Err)
    (ctx : writeContext) (headerBlock : bytes) (first : bool) : option (writeContext * option Err) :=
  match headerBlock with
  | [] => Some (ctx, None)
  | _ =>
      match fuel with
      | O => None
      | S fuel =>
          let frag := if zlen headerBlock >? 16384 then take (Z.to_nat 16384) headerBlock else headerBlock in
          let headerBlock := drop (length frag) headerBlock in
          match fn ctx frag first (bool_decide (headerBlock = [])) with
          | (ctx, Some err) => Some (ctx, Some err)
          | (ctx, None) => splitLoop fuel fn ctx headerBlock false
          end
      end
  end.

Definition splitHeaderBlock (ctx : writeContext) (headerBlock : bytes)
    (fn : writeContext -> bytes -> bool -> bool -> writeContext * option Err) : option (writeContext * option Err) :=
  splitLoop (length headerBlock) fn ctx headerBlock true.

Definition res_writeHeaderBlock (w : resHeaders) (ctx : writeContext) (frag : bytes) (firstFrag lastFrag : bool)
  : writeContext * option Err :=
  if firstFrag then
    onFramer ctx (fun illegal => WriteHeaders illegal
      (mkHeadersParam (rh_streamID w) frag (rh_endStream w) lastFrag 0 (mkPrio 0 false 0)))
  else onFramer ctx (fun illegal => WriteContinuation illegal (rh_streamID w) lastFrag frag).

Definition push_writeHeaderBlock (w : pushPromise) (ctx : writeContext) (frag : bytes) (firstFrag lastFrag : bool)
  : writeContext * option Err :=
  if firstFrag then
    onFramer ctx (fun illegal => WritePushPromise illegal
      (mkPushParam (pu_streamID w) (pu_promisedID w) frag lastFrag 0))
  else onFramer ctx (fun illegal => WriteContinuation illegal (pu_streamID w) lastFrag frag).

Definition encKV_if (b : bool) (ctx : writeContext) (k v : bytes) : option writeContext :=
  if b then encKV ctx k v else Some ctx.

Definition res_writeFrame (w : resHeaders) (ctx : writeContext) : option (writeContext * option Err) :=
  let ctx := set_enc (cx_enc ctx) [] ctx in
  ctx ← encKV_if (negb (rh_httpResCode w =? 0)) ctx (str ":status") (httpCodeString (rh_httpResCode w));
  ctx ← encodeHeaders ctx (rh_h w) (rh_trailers w);
  ctx ← encKV_if (negb (bool_decide (rh_contentType w = []))) ctx (str "content-type") (rh_contentType w);
  ctx ← encKV_if (negb (bool_decide (rh_contentLength w = []))) ctx (str "content-length") (rh_contentLength w);
  ctx ← encKV_if (negb (bool_decide (rh_date w = []))) ctx (str "date") (rh_date w);
  if bool_decide (cx_buf ctx = []) && bool_decide (rh_trailers w = None) then None
  else splitHeaderBlock ctx (cx_buf ctx) (res_writeHeaderBlock w).

Definition push_writeFrame (w : pushPromise) (ctx : writeContext) : option (writeContext * option Err) :=
  let ctx := set_enc (cx_enc ctx) [] ctx in
  ctx ← encKV ctx (str ":method") (pu_method w);
  ctx ← encKV ctx (str ":scheme") (u_Scheme (pu_url w));
  ctx ← encKV ctx (str ":authority") (u_Host (pu_url w));
  ctx ← encKV ctx (str ":path") (RequestURI (pu_url w));
  ctx ← encodeHeaders ctx (pu_h w) None;
  if bool_decide (cx_buf ctx = []) then None
  else splitHeaderBlock ctx (cx_buf ctx) (push_writeHeaderBlock w).

Definition continue_writeFrame (streamID : Z) (ctx : writeContext) : option (writeContext * option Err) :=
  let ctx := set_enc (cx_enc ctx) [] ctx in
  ctx ← encKV ctx (str ":status") (str "100");
  Some (onFramer ctx (fun illegal => WriteHeaders illegal
    (mkHeadersParam streamID (cx_buf ctx) false true 0 (mkPrio 0 false 0)))).

(** [writeFrame]; [None] is a panic. *)
Definition writeFrame (w : writeFramer) (ctx : writeContext) : option (writeContext * option Err) :=
  match w with
  | flushFrameWriter => Some (Flush ctx)
  | writeSettings s => Some (onFramer ctx (fun _ => WriteSettings s))
  | writeGoAway maxStreamID code =>
      let '(ctx, err) := onFramer ctx (fun _ => WriteGoAway maxStreamID code []) in
      let '(ctx, _) := Flush ctx in Some (ctx, err)
  | writeData streamID p endStream => Some (onFramer ctx (fun illegal => WriteData illegal streamID endStream p))
  | handlerPanicRST StreamID => Some (onFramer ctx (fun illegal => WriteRSTStream illegal StreamID ErrCodeInternal))
  | writeStreamError StreamID Code => Some (onFramer ctx (fun illegal => WriteRSTStream illegal StreamID Code))
  | writePingAck Data => Some (onFramer ctx (fun _ => WritePing true Data))
  | writeSettingsAck => Some (onFramer ctx (fun _ => WriteSettingsAck))
  | writeResHeaders w => res_writeFrame w ctx
  | writePushPromise w => push_writeFrame w ctx
  | write100ContinueHeadersFrame streamID => continue_writeFrame streamID ctx
  | writeWindowUpdate streamID n => Some (onFramer ctx (fun illegal => WriteWindowUpdate illegal streamID n))
  end.

(** ** ClientConn.writeHeaders

    The client ignores the errors of the framer and looks at [cc.werr], which the
    writer below the framer sets: [werr]. *)
Context (werr : Wr -> option Err).

Fixpoint writeHeadersLoop (fuel : nat) (ctx : writeContext) (streamID : Z) (endStream : bool) (maxFrameSize : Z)
    (hdrs : bytes) (first : bool) : option writeContext :=
  match hdrs, werr (cx_w ctx) with
  | _ :: _, None =>
      match fuel with
      | O => None
      | S fuel =>
          chunk ← if zlen hdrs >? maxFrameSize then zslice hdrs 0 maxFrameSize else Some hdrs;
          let hdrs := drop (length chunk) hdrs in
          let endHeaders := bool_decide (hdrs = []) in
          let '(ctx, _) :=
            if first then
              onFramer ctx (fun illegal => WriteHeaders illegal
                (mkHeadersParam streamID chunk endStream endHeaders 0 (mkPrio 0 false 0)))
            else onFramer ctx (fun illegal => WriteContinuation illegal streamID endHeaders chunk) in
          writeHeadersLoop fuel ctx streamID endStream maxFrameSize hdrs false
      end
  | _, _ => Some ctx
  end.

Definition writeHeaders (ctx : writeContext) (streamID : Z) (endStream : bool) (maxFrameSize : Z) (hdrs : bytes)
  : option (writeContext * option Err) :=
  ctx ← writeHeadersLoop (length hdrs) ctx streamID endStream maxFrameSize hdrs true;
  let '(ctx, _) := Flush ctx in
  Some (ctx, werr (cx_w ctx)).
End writers.

Arguments writeContext : clear implicits.

(** ** What is encoded *)
Definition value_sent (isTE : bool) (v : bytes) : bool :=
  ValidHeaderFieldValue v && (negb isTE || bool_decide (v = str "trailers")).

Definition key_fields (h : gmap bytes (list bytes)) (k : bytes) : list HeaderField :=
  let '(lk, ascii) := lowerHeader k in
  if ascii && validWireHeaderFieldName lk then
    map (fun v => mkHF lk v false) (List.filter (value_sent (bool_decide (lk = str "transfer-encoding"))) (default [] (h !! k)))
  else [].

Definition header_fields (h : gmap bytes (list bytes)) (keys : option (list bytes)) : list HeaderField :=
  flat_map (key_fields h) (default (Keys h) keys).

Definition opt_field (b : bool) (k v : bytes) : list HeaderField := if b then [mkHF k v false] else [].

Definition res_fields (w : resHeaders) : list HeaderField :=
  opt_field (negb (rh_httpResCode w =? 0)) (str ":status") (httpCodeString (rh_httpResCode w)) ++
  header_fields (rh_h w) (rh_trailers w) ++
  opt_field (negb (bool_decide (rh_contentType w = []))) (str "content-type") (rh_contentType w) ++
  opt_field (negb (bool_decide (rh_contentLength w = []))) (str "content-length") (rh_contentLength w) ++
  opt_field (negb (bool_decide (rh_date w = []))) (str "date") (rh_date w).

Section fields.
Context {Wr : Type}.
Implicit Types (ctx : writeContext Wr).

Definition encFields ctx (fs : list HeaderField) : option (writeContext Wr) :=
  '(e, buf, _) ← WriteFields (cx_enc ctx) (cx_buf ctx) fs;
  Some (set_enc e buf ctx).

Lemma WriteFields_app fs1 fs2 : forall e w,
  WriteFields e w (fs1 ++ fs2) = ('(e, w, _) ← WriteFields e w fs1; WriteFields e w fs2).
Proof.
  induction fs1 as [|f fs1 IH]; intros e w; [done|]. simpl. rewrite WriteField_buf.
  destruct (encodeField e f) as [[e1 b1]|]; simpl; [|done]. apply IH.
Qed.

Lemma set_enc_enc e e' b b' ctx : set_enc e b (set_enc e' b' ctx) = set_enc e b ctx.
Proof. done. Qed.

Lemma encFields_app ctx fs1 fs2 : encFields ctx (fs1 ++ fs2) = (ctx ← encFields ctx fs1; encFields ctx fs2).
Proof.
  unfold encFields. rewrite WriteFields_app. destruct (WriteFields _ _ fs1) as [[[e w] o]|]; simpl; [|done].
  by destruct (WriteFields e w fs2) as [[[e' w'] o']|].
Qed.

Lemma encFields_nil ctx : encFields ctx [] = Some ctx.
Proof. by destruct ctx. Qed.

Lemma encKV_fields ctx k v : encKV ctx k v = encFields ctx [mkHF k v false].
Proof.
  unfold encKV, encFields. simpl. rewrite WriteField_buf. by destruct (encodeField _ _) as [[e b]|].
Qed.

Lemma encKV_if_fields b ctx k v : encKV_if b ctx k v = encFields ctx (opt_field b k v).
Proof. destruct b; simpl; [apply encKV_fields|by rewrite encFields_nil]. Qed.

Lemma encValues_fields k isTE vv : forall ctx,
  encValues ctx k isTE vv = encFields ctx (map (fun v => mkHF k v false) (List.filter (value_sent isTE) vv)).
Proof.
  induction vv as [|v vv IH]; intros ctx; cbn [encValues List.filter map]; [by rewrite encFields_nil|].
  unfold value_sent at 1. destruct (ValidHeaderFieldValue v); simpl; [|apply IH].
  destruct isTE; simpl; [destruct (bool_decide _); simpl; [|apply IH]|].
  all: rewrite encKV_fields; change (?a :: map ?f ?l) with ([a] ++ map f l); rewrite encFields_app;
    destruct (encFields ctx _); simpl; [apply IH|done].
Qed.

Lemma encKeys_fields h keys : forall ctx, encKeys ctx h keys = encFields ctx (flat_map (key_fields h) keys).
Proof.
  induction keys as [|k keys IH]; intros ctx; cbn [encKeys flat_map]; [by rewrite encFields_nil|].
  unfold key_fields at 1. destruct (lowerHeader k) as [lk []]; simpl; [|apply IH].
  destruct (validWireHeaderFieldName lk); simpl; [|apply IH].
  rewrite encValues_fields, encFields_app. destruct (encFields ctx _); simpl; [apply IH|done].
Qed.

Lemma encodeHeaders_fields ctx h keys : encodeHeaders ctx h keys = encFields ctx (header_fields h keys).
Proof. unfold encodeHeaders, header_fields. rewrite encKeys_fields. by destruct keys. Qed.
End fields.

Lemma res_writeFrame_fields {Wr Err} write (short : Err) ofErr w (ctx : writeContext Wr) :
  res_writeFrame write short ofErr w ctx =
  ctx ← encFields (set_enc (cx_enc ctx) [] ctx) (res_fields w);
  if bool_decide (cx_buf ctx = []) && bool_decide (rh_trailers w = None) then None
  else splitHeaderBlock ctx (cx_buf ctx) (res_writeHeaderBlock write short ofErr w).
Proof.
  unfold res_writeFrame, res_fields. set (c0 := set_enc (cx_enc ctx) [] ctx).
  rewrite encKV_if_fields, !encFields_app. destruct (encFields c0 _) as [c1|]; simpl; [|done].
  rewrite encodeHeaders_fields, encFields_app. destruct (encFields c1 _) as [c2|]; simpl; [|done].
  rewrite encKV_if_fields, encFields_app. destruct (encFields c2 _) as [c3|]; simpl; [|done].
  rewrite encKV_if_fields, encFields_app. destruct (encFields c3 _) as [c4|]; simpl; [|done].
  rewrite encKV_if_fields. done.
Qed.

(** The table of common headers is only a cache of [asciiToLower]. *)
Lemma lowerHeader_ascii v : lowerHeader v = asciiToLower v.
Proof.
  unfold lowerHeader. destruct (commonLowerHeader !! v) as [s|] eqn:E; [|done].
  apply elem_of_list_to_map_2 in E.
  assert (forallb (fun p => bool_decide (asciiToLower p.1 = (p.2, true))) (map (fun v => (CanonicalHeaderKey v, v)) common) = true) as H
    by (vm_compute; reflexivity).
  rewrite forallb_forall in H. apply list_elem_of_In, H in E. by apply bool_decide_eq_true in E.
Qed.

(** ** The frames of a block *)

(** [split n m b]: the fragments of [b], of [m] bytes each but the last. *)
Fixpoint fragments (fuel : nat) (m : Z) (b : bytes) : list bytes :=
  match b, fuel with
  | [], _ | _, O => []
  | _, S fuel =>
      let frag := if zlen b >? m then take (Z.to_nat m) b else b in
      frag :: fragments fuel m (drop (length frag) b)
  end.

Definition no_priority : PriorityParam := mkPrio 0 false 0.

Fixpoint continuations (id : Z) (frags : list bytes) : list request :=
  match frags with
  | [] => []
  | frag :: frags => RContinuation id (bool_decide (frags = [])) frag :: continuations id frags
  end.

(** HEADERS and CONTINUATION calls for the fragments of a block. *)
Definition block_requests (id : Z) (es : bool) (frags : list bytes) : list request :=
  match frags with
  | [] => []
  | frag :: frags => RHeaders (mkHeadersParam id frag es (bool_decide (frags = [])) 0 no_priority) :: continuations id frags
  end.

Definition sent_bytes (rq : request) : bytes := match encode false rq with inl bs => bs | inr _ => [] end.

Lemma fragment_split m (b : bytes) : 0 < m -> b <> [] ->
  let frag := if zlen b >? m then take (Z.to_nat m) b else b in
  frag <> [] /\ zlen frag <= m /\ frag ++ drop (length frag) b = b /\ (length (drop (length frag) b) < length b)%nat.
Proof.
  intros Hm Hb frag. assert (0 < zlen b) by (destruct b; [done|]; rewrite zlen_cons; pose proof (zlen_nonneg b); lia).
  assert (length frag <> 0%nat /\ zlen frag <= m /\ frag ++ drop (length frag) b = b) as (H1 & H2 & H3).
  { unfold frag. rewrite Z.gtb_ltb. unfold zlen in *. destruct (Z.ltb_spec m (Z.of_nat (length b))).
    - rewrite length_take. replace (Z.to_nat m `min` length b)%nat with (Z.to_nat m) by lia. rewrite take_drop. split_and!; [lia|lia|done].
    - rewrite drop_all, app_nil_r. split_and!; [lia|lia|done]. }
  split; [by destruct frag|]. split; [done|]. split; [done|]. rewrite length_drop. unfold zlen in *. lia.
Qed.

Lemma fragments_ok m : 0 < m -> forall fuel b, (length b <= fuel)%nat ->
  concat (fragments fuel m b) = b /\ Forall (fun f => f <> [] /\ zlen f <= m) (fragments fuel m b).
Proof.
  intros Hm. induction fuel as [|fuel IH]; intros [|c b] Hf; try (simpl in Hf; lia); try done.
  cbn [fragments]. set (b0 := c :: b) in *. destruct (fragment_split m b0 Hm ltac:(done)) as (Hne & Hlen & Happ & Hl).
  cbv zeta. set (frag := if zlen b0 >? m then _ else _) in *.
  destruct (IH (drop (length frag) b0)) as [Hc Hall]; [lia|]. split; [cbn [concat]; by rewrite Hc|by constructor].
Qed.

Lemma fragments_nil m fuel b : 0 < m -> (length b <= fuel)%nat -> fragments fuel m b = [] <-> b = [].
Proof.
  intros Hm Hf. destruct (fragments_ok m Hm fuel b Hf) as [Hc _]. split; [intros E; by rewrite E in Hc|].
  intros ->. by destruct fuel.
Qed.

(** A writer that takes everything: a growing buffer. *)
Definition bufferFlush (w : bytes) : bytes * option unit := (w, None).
Definition anyError (e : frame_error) : unit := tt.

Lemma onBuffer_ok (ctx : writeContext bytes) rq frame :
  cx_AllowIllegalWrites ctx = false -> frame false = encode false rq -> (exists bs, encode false rq = inl bs) ->
  onFramer bufWrite tt anyError ctx frame = (set_w (cx_w ctx ++ sent_bytes rq) ctx, None).
Proof.
  intros Hill E [bs Ebs]. unfold onFramer, sendFrame. rewrite Hill, E. unfold sent_bytes. rewrite Ebs. simpl.
  by rewrite Z.eqb_refl.
Qed.

Lemma encode_headers_ok id frag es eh :
  validStreamID id = true -> zlen frag < 2 ^ 24 ->
  exists bs, encode false (RHeaders (mkHeadersParam id frag es eh 0 no_priority)) = inl bs.
Proof.
  intros Hid Hlen. simpl. unfold WriteHeaders. cbn [hp_StreamID hp_PadLength hp_Priority hp_EndStream hp_EndHeaders hp_BlockFragment].
  rewrite Hid. simpl. unfold endWrite. rewrite app_nil_r. rewrite Z.geb_leb.
  match goal with |- context [Z.leb ?a ?b] => destruct (Z.leb_spec a b) as [H|H]; [exfalso|eauto] end.
  change (Z.shiftl 1 24) with (2 ^ 24) in H. unfold frameHeaderLen in H.
  change (?a :: ?b :: ?c :: ?d :: ?e :: ?f :: ?g :: ?h :: ?i :: frag) with ([a; b; c; d; e; f; g; h; i] ++ frag) in H.
  rewrite zlen_app in H. change (zlen [_; _; _; _; _; _; _; _; _]) with 9 in H. lia.
Qed.

Lemma encode_continuation_ok id frag eh :
  validStreamID id = true -> zlen frag < 2 ^ 24 -> exists bs, encode false (RContinuation id eh frag) = inl bs.
Proof.
  intros Hid Hlen. simpl. unfold WriteContinuation. rewrite Hid. simpl. unfold endWrite. rewrite Z.geb_leb.
  match goal with |- context [Z.leb ?a ?b] => destruct (Z.leb_spec a b) as [H|H]; [exfalso|eauto] end.
  change (Z.shiftl 1 24) with (2 ^ 24) in H. unfold frameHeaderLen in H.
  change (?a :: ?b :: ?c :: ?d :: ?e :: ?f :: ?g :: ?h :: ?i :: frag) with ([a; b; c; d; e; f; g; h; i] ++ frag) in H.
  rewrite zlen_app in H. change (zlen [_; _; _; _; _; _; _; _; _]) with 9 in H. lia.
Qed.

Definition requests_of (first : bool) (id : Z) (es : bool) (frags : list bytes) : list request :=
  if first then block_requests id es frags else continuations id frags.

Lemma set_w_app (ctx : writeContext bytes) b1 b2 : set_w (cx_w (set_w b1 ctx) ++ b2) (set_w b1 ctx) = set_w (b1 ++ b2) ctx.
Proof. done. Qed.

Lemma set_w_id {Wr} (ctx : writeContext Wr) : set_w (cx_w ctx) ctx = ctx.
Proof. by destruct ctx. Qed.

(** One round of either loop. *)
Lemma send_fragment (ctx : writeContext bytes) id es frag (first : bool) (eh : bool) :
  cx_AllowIllegalWrites ctx = false -> validStreamID id = true -> zlen frag < 2 ^ 24 ->
  (if first then onFramer bufWrite tt anyError ctx (fun illegal => WriteHeaders illegal
                   (mkHeadersParam id frag es eh 0 (mkPrio 0 false 0)))
   else onFramer bufWrite tt anyError ctx (fun illegal => WriteContinuation illegal id eh frag)) =
  (set_w (cx_w ctx ++ sent_bytes (if first then RHeaders (mkHeadersParam id frag es eh 0 no_priority)
                                  else RContinuation id eh frag)) ctx, None).
Proof.
  intros Hill Hid Hlen. destruct first; apply onBuffer_ok; try done;
    [by apply encode_headers_ok|by apply encode_continuation_ok].
Qed.

Lemma requests_cons (first : bool) id es frag frags :
  requests_of first id es (frag :: frags) =
  (if first then RHeaders (mkHeadersParam id frag es (bool_decide (frags = [])) 0 no_priority)
   else RContinuation id (bool_decide (frags = [])) frag) :: requests_of false id es frags.
Proof. by destruct first. Qed.

Lemma splitLoop_sent w : validStreamID (rh_streamID w) = true -> forall fuel (ctx : writeContext bytes) b first,
  cx_AllowIllegalWrites ctx = false -> (length b <= fuel)%nat ->
  splitLoop fuel (res_writeHeaderBlock bufWrite tt anyError w) ctx b first =
  Some (set_w (cx_w ctx ++ flat_map sent_bytes
    (requests_of first (rh_streamID w) (rh_endStream w) (fragments fuel 16384 b))) ctx, None).
Proof.
  intros Hid. induction fuel as [|fuel IH]; intros ctx [|c b] first Hill Hf.
  1,3: cbn [splitLoop fragments]; destruct first; cbn [requests_of block_requests continuations flat_map];
    rewrite app_nil_r, set_w_id; done.
  { simpl in Hf. lia. }
  cbn [splitLoop fragments]. set (b0 := c :: b) in *.
  destruct (fragment_split 16384 b0 ltac:(lia) ltac:(done)) as (_ & Hlen & _ & Hl).
  cbv zeta in Hlen, Hl |- *. set (frag := if zlen b0 >? 16384 then _ else _) in *.
  set (b1 := drop (length frag) b0) in *.
  unfold res_writeHeaderBlock at 1. rewrite (send_fragment ctx) by (done || lia).
  rewrite IH; [|done|lia]. rewrite set_w_app, <- app_assoc, requests_cons. cbn [flat_map].
  rewrite (bool_decide_ext (fragments fuel 16384 b1 = []) (b1 = [])) by (apply fragments_nil; lia). done.
Qed.

Lemma writeHeadersLoop_sent id es m : validStreamID id = true -> 0 < m < 2 ^ 24 ->
  forall fuel (ctx : writeContext bytes) b first, cx_AllowIllegalWrites ctx = false -> (length b <= fuel)%nat ->
  writeHeadersLoop bufWrite tt anyError (fun _ => None) fuel ctx id es m b first =
  Some (set_w (cx_w ctx ++ flat_map sent_bytes (requests_of first id es (fragments fuel m b))) ctx).
Proof.
  intros Hid Hm. induction fuel as [|fuel IH]; intros ctx [|c b] first Hill Hf.
  1,3: cbn [writeHeadersLoop fragments]; destruct first; cbn [requests_of block_requests continuations flat_map];
    rewrite app_nil_r, set_w_id; done.
  { simpl in Hf. lia. }
  cbn [writeHeadersLoop fragments]. set (b0 := c :: b) in *.
  replace (if zlen b0 >? m then zslice b0 0 m else Some b0) with (Some (if zlen b0 >? m then take (Z.to_nat m) b0 else b0)).
  2: { rewrite Z.gtb_ltb. destruct (Z.ltb_spec m (zlen b0)); [|done]. unfold zslice.
       destruct (Z.leb_spec 0 m), (Z.leb_spec m (zlen b0)); try lia. simpl. by rewrite Z.sub_0_r. }
  cbn [mbind option_bind]. destruct (fragment_split m b0 ltac:(lia) ltac:(done)) as (_ & Hlen & _ & Hl).
  cbv zeta in Hlen, Hl |- *. set (frag := if zlen b0 >? m then _ else _) in *.
  set (b1 := drop (length frag) b0) in *.
  rewrite (send_fragment ctx) by (done || lia).
  rewrite IH; [|done|lia]. rewrite set_w_app, <- app_assoc, requests_cons. cbn [flat_map].
  rewrite (bool_decide_ext (fragments fuel m b1 = []) (b1 = [])) by (apply fragments_nil; lia). done.
Qed.

(** ** The promise of staysWithinBuffer *)

(** A writer that records what it is given and counts the flushes. *)
Definition sinkWrite (w : bytes * nat) (p : bytes) : (bytes * nat) * (Z * option unit) := ((w.1 ++ p, w.2), (zlen p, None)).
Definition sinkFlush (w : bytes * nat) : (bytes * nat) * option unit := ((w.1, S w.2), None).

(** At most [n] bytes were written, and nothing was flushed. *)
Definition wrote_within (n : Z) (ctx : writeContext (bytes * nat)) (r : option (writeContext (bytes * nat) * option unit)) : Prop :=
  exists ctx' err bs, r = Some (ctx', err) /\ cx_w ctx' = ((cx_w ctx).1 ++ bs, (cx_w ctx).2) /\ zlen bs <= n.

Lemma endWrite_length wbuf bs : endWrite wbuf = inl bs -> 9 <= zlen wbuf -> zlen bs = zlen wbuf.
Proof.
  intros E%endWrite_inl Hlen. cbv zeta in E. destruct E as [_ ->]. rewrite zlen_app. change (zlen [_; _; _]) with 3.
  unfold zlen in *. rewrite length_drop. lia.
Qed.

Lemma startWrite_length t fl id payload bs :
  endWrite (startWrite t fl id ++ payload) = inl bs -> zlen bs = 9 + zlen payload.
Proof.
  intros E. apply endWrite_length in E; rewrite zlen_app in *; change (zlen (startWrite t fl id)) with 9 in *; [done|].
  pose proof (zlen_nonneg payload). lia.
Qed.

Lemma within_frame n ctx frame : 0 <= n -> (forall bs, frame (cx_AllowIllegalWrites ctx) = inl bs -> zlen bs <= n) ->
  wrote_within n ctx (Some (onFramer sinkWrite tt anyError ctx frame)).
Proof.
  intros Hn H. unfold wrote_within, onFramer, sendFrame. destruct (frame _) as [bs|e].
  - eexists _, _, bs. split; [done|]. split; [done|by apply H].
  - eexists _, _, []. split; [done|]. simpl. rewrite app_nil_r. split; [by destruct (cx_w ctx)|done].
Qed.

Lemma writeSizeUpdates_length e d e1 buf :
  synced e d -> writeSizeUpdates e = (e1, buf) -> zlen buf <= 12 /\ e_dynTab e1 = e_dynTab e.
Proof.
  intros Hsyn E. pose proof (syn_enc _ _ Hsyn) as (_ & _ & _ & Hm). destruct (syn_min _ _ Hsyn) as [_ Hu].
  assert (forall v, is_u32 v -> zlen (appendTableSize [] v) <= 6) as Hts.
  { intros v Hv. unfold appendTableSize. rewrite orAt_length.
    pose proof (appendVarInt_length 4 5 v ltac:(lia)) as H. unfold is_u32 in Hv.
    change (2 ^ (7 * Z.of_nat 5)) with (2 ^ 35) in H. specialize (H ltac:(lia)). lia. }
  unfold writeSizeUpdates in E. destruct (e_tableSizeUpdate e); simplify_eq; [|by split].
  split; [|done]. rewrite appendTableSize_app, zlen_app. pose proof (Hts _ Hm). pose proof (Hts _ Hu).
  destruct (e_minSize e <? _); [lia|]. change (zlen []) with 0. lia.
Qed.

Definition status100 : HeaderField := mkHF (str ":status") (str "100") false.

Lemma search_status100 : exists i, search true staticTable status100 = Some (i, false) /\ 0 < i < 15.
Proof. eexists. split; [vm_compute; reflexivity|lia]. Qed.

(** The field [:status: 100] is an index, or a literal with an indexed name. *)
Lemma encode_status100 e d : synced e d -> dt_added (e_dynTab e) + 1 < 2 ^ 64 ->
  exists e' bs, encodeField e status100 = Some (e', bs) /\ zlen bs <= 20.
Proof.
  intros Hsyn Ha. unfold encodeField. destruct (writeSizeUpdates e) as [e1 buf] eqn:Eu.
  destruct (writeSizeUpdates_length e d e1 buf Hsyn Eu) as [Hbuf Hdt].
  pose proof (syn_enc _ _ Hsyn) as Hok. pose proof Hok as (Ht & Hsz & Hle & Hm). unfold is_u32 in Hm.
  destruct (syn_suffix _ _ Hsyn) as [old He].
  pose proof (total_zlen (dt_ents (e_dynTab e))) as Hz. unfold dt_ents in Hz at 2. rewrite <- Hsz in Hz.
  unfold searchTable. destruct search_status100 as (i & -> & Hi). rewrite Hdt. cbn [mbind option_bind].
  rewrite search_correct by done. fold (dt_ents (e_dynTab e)). cbn [mbind option_bind].
  pose proof (search_spec_at d old _ status100 He) as Hd.
  destruct (search_spec (dt_ents (e_dynTab e)) status100) as [j nv]. destruct Hd as (Hj & Hnv & _).
  destruct (Z.eqb_spec i 0); [lia|]. cbn [andb]. rewrite orb_false_r. destruct nv.
  - change (table_len staticTable) with 61. rewrite u64_id by (unfold is_u64; lia). eexists _, _. split; [done|].
    rewrite appendIndexed_app, zlen_app. unfold appendIndexed. rewrite orAt_length.
    pose proof (appendVarInt_length 4 7 (j + 61) ltac:(lia)) as H.
    change (2 ^ (7 * Z.of_nat 5)) with (2 ^ 35) in H. specialize (H ltac:(lia)). lia.
  - assert (exists dt, (if shouldIndex e1 status100 then dt_add (e_dynTab e) status100 else Some (e_dynTab e)) = Some dt) as [dt Edt].
    { destruct (shouldIndex e1 status100); [|eauto]. pose proof (syn_limit _ _ Hsyn). pose proof (syn_small _ _ Hsyn).
      destruct (dt_add_ok (e_dynTab e) status100 Hok) as (dt & -> & _); [change (rawSize status100) with 42; lia|done|eauto]. }
    rewrite Edt. cbn [mbind option_bind]. destruct (Z.eqb_spec i 0); [lia|]. eexists _, _. split; [done|].
    rewrite appendIndexedName_app, zlen_app. unfold appendIndexedName. rewrite appendHpackString_app, zlen_app, orAt_length.
    change (zlen (appendHpackString [] (hf_Value status100))) with 3.
    assert (zlen (appendVarInt [] (if shouldIndex e1 status100 then 6 else 4) i) = 1); [|lia].
    unfold appendVarInt. replace (i <? _) with true; [done|]. symmetry. apply Z.ltb_lt. destruct (shouldIndex e1 status100);
      [change (Z.shiftl 1 6 - 1) with 63|change (Z.shiftl 1 4 - 1) with 15]; lia.
Qed.

(** A frame writer that says it stays within the buffer does.  Whatever frame
    [staysWithinBuffer max] answers true for, [writeFrame] neither panics nor
    flushes and writes at most [max] bytes, or returns an error having written
    nothing; for the 100-continue headers this counts the table size updates that
    may be pending in the encoder. *)
Theorem staysWithinBuffer_sound w ctx max d :
  staysWithinBuffer w max = true -> synced (cx_enc ctx) d -> dt_added (e_dynTab (cx_enc ctx)) + 1 < 2 ^ 64 ->
  wrote_within max ctx (writeFrame sinkWrite sinkFlush tt anyError w ctx).
Proof.
  intros Hs Hsyn Ha.
  destruct w; cbn [staysWithinBuffer writeFrame] in *; try done; unfold frameHeaderLen in *; apply Z.leb_le in Hs;
    repeat match goal with H : context [zlen ?l] |- _ => lazymatch goal with _ : 0 <= zlen l |- _ => fail | _ => pose proof (zlen_nonneg l) end end.
  - apply within_frame; [lia|]. intros bs E. unfold WriteSettings in E. apply startWrite_length in E.
    fold (settings_payload s) in E. rewrite settings_payload_length in E. lia.
  - apply within_frame; [lia|]. intros bs E. unfold WriteData, WriteDataPadded in E. destruct (_ && _); [done|]. simpl in E.
    apply startWrite_length in E. rewrite app_nil_r in E. lia.
  - apply within_frame; [lia|]. intros bs E. unfold WriteRSTStream in E. destruct (_ && _); [done|].
    apply startWrite_length in E. change (zlen (bytes32 _)) with 4 in E. lia.
  - apply within_frame; [lia|]. intros bs E. unfold WriteRSTStream in E. destruct (_ && _); [done|].
    apply startWrite_length in E. change (zlen (bytes32 _)) with 4 in E. lia.
  - apply within_frame; [lia|]. intros bs E. unfold WritePing in E. apply startWrite_length in E. lia.
  - apply within_frame; [lia|]. intros bs E. unfold WriteSettingsAck in E.
    rewrite <- (app_nil_r (startWrite _ _ _)) in E. apply startWrite_length in E. change (zlen []) with 0 in E. lia.
  - unfold continue_writeFrame, encKV. cbn [cx_enc cx_buf set_enc]. fold status100. rewrite WriteField_buf.
    destruct (encode_status100 _ d Hsyn Ha) as (e' & bs100 & -> & Hlen). cbn [mbind option_bind cx_buf set_enc app].
    change (wrote_within max (set_enc e' bs100 (set_enc (cx_enc ctx) [] ctx)) (Some (onFramer sinkWrite tt anyError
      (set_enc e' bs100 (set_enc (cx_enc ctx) [] ctx)) (fun illegal => WriteHeaders illegal (mkHeadersParam streamID bs100 false true 0 (mkPrio 0 false 0)))))).
    change (zlen (str ":status")) with 7 in *. change (zlen (str "100")) with 3 in *.
    apply within_frame; [lia|]. intros bs E. unfold WriteHeaders in E. destruct (_ && _); [done|].
    cbn -[startWrite endWrite] in E. apply startWrite_length in E. rewrite ?take_0, app_nil_r in E. lia.
  - apply within_frame; [lia|]. intros bs E. unfold WriteWindowUpdate in E. destruct (_ && _); [done|].
    apply startWrite_length in E. change (zlen (bytes32 _)) with 4 in E. lia.
Qed.

Lemma staysWithinBuffer_sound_witness :
  exists e, NewEncoder = Some e /\ staysWithinBuffer (write100ContinueHeadersFrame 5) 29 = true /\
    wrote_within 29 (mkCtx false ([1], 0%nat) e []) (writeFrame sinkWrite sinkFlush tt anyError (write100ContinueHeadersFrame 5)
      (mkCtx false ([1], 0%nat) e [])).
Proof.
  destruct (new_ready 4096 0) as (e & d & He & _ & Hr & _ & Ha & _); [lia|].
  exists e. split; [exact He|]. split; [reflexivity|].
  apply (staysWithinBuffer_sound (write100ContinueHeadersFrame 5) (mkCtx false ([1], 0%nat) e []) 29 (configured d 4096 0));
    [reflexivity|apply Hr|cbn [cx_enc]; rewrite Ha; reflexivity].
Defined.
