(* ===== verification/HeaderExchange.v ===== *)
(** * Package http2: header blocks end to end

    What one side encodes (HpackSync), cuts into HEADERS and CONTINUATION frames
    (HeaderWrite) and sends, the other side reads (FrameRead), feeds to its decoder
    fragment by fragment (HpackDecode) and merges (FrameMeta). *)

From S2P Require Import Prelude Bits HpackHuffman HpackTable Hpack HpackDecode HpackSync Frame FrameWrite FrameRead HttpGuts FrameMeta WriteFrames HeaderWrite.

(** ** Representations cut anywhere *)
Section fragment.
Context {St : Type} (emit : HeaderField -> bool -> St -> St * bool).

(** A strict prefix of a complete representation asks for more. *)
Lemma strict_prefix d s b d1 s1 p q :
  (forall rest, parseHeaderFieldRepr emit d s (b ++ rest) = Some (d1, s1, rest, None)) ->
  b = p ++ q -> p <> [] -> q <> [] -> parseHeaderFieldRepr emit d s p = Some (d, s, p, Some errNeedMore).
Proof.
  intros Hb -> Hp Hq. specialize (Hb []). rewrite app_nil_r in Hb.
  pose proof (parseHeaderFieldRepr_stream emit d s p) as Hst.
  destruct (parseHeaderFieldRepr emit d s p) as [[[[d2 s2] rest] [e|]]|]; [| |by rewrite (Hst Hp q) in Hb].
  - destruct e; try (destruct (Hst q) as [rest' E]; congruence). destruct Hst as (-> & -> & ->). done.
  - destruct Hst as [_ E]. rewrite E in Hb. injection Hb as _ _ Hr. by destruct (app_eq_nil _ _ Hr) as [_ ?].
Qed.

(** What is left of a block: the decoder may have saved an incomplete representation. *)
Definition pending (d : Decoder) (s : St) (q : bytes) (d' : Decoder) (s' : St) : Prop :=
  reprs emit (d_setSaveBuf d []) s (d_saveBuf d ++ q) d' s' /\ (q = [] -> d_saveBuf d = [] /\ d = d' /\ s = s').

Lemma writeLoop_fragment d s bs d' s' :
  reprs emit d s bs d' s' -> d_saveBuf d = [] ->
  forall buf q fuel plen, bs = buf ++ q -> (length buf <= fuel)%nat ->
  exists d1 s1, writeLoop emit fuel plen d s buf = Some (d1, s1, plen, None) /\ pending d1 s1 q d' s'.
Proof.
  induction 1 as [d s|d s b d1 s1 bs d' s' Hne Hfit Hp Hr IH]; intros Hs buf q fuel plen E Hf.
  { symmetry in E. apply app_eq_nil in E as [-> ->]. exists d, s. split; [by destruct fuel|].
    unfold pending. rewrite Hs, d_setSaveBuf_nil by done. split; [constructor|done]. }
  destruct (Nat.lt_ge_cases (length buf) (length b)) as [Hlt|Hge].
  - assert (b = buf ++ drop (length buf) b /\ q = drop (length buf) b ++ bs) as [Eb Eq].
    { pose proof (f_equal (take (length buf)) E) as Et. rewrite take_app_le, take_app_length in Et by lia.
      pose proof (f_equal (drop (length buf)) E) as Ed. rewrite drop_app_le, drop_app_length in Ed by lia.
      rewrite <- Et at 1. rewrite take_drop. done. }
    assert (drop (length buf) b <> []) as Ht by (intros Hn; apply (f_equal length) in Hn; rewrite length_drop in Hn; simpl in Hn; lia).
    assert (q <> []) as Hq by (rewrite Eq; by destruct (drop (length buf) b)).
    destruct buf as [|c buf].
    { exists d, s. split; [by destruct fuel|]. unfold pending. rewrite Hs, d_setSaveBuf_nil by done. split; [|done].
      simpl in E |- *. rewrite <- E. by econstructor. }
    destruct fuel as [|fuel]; [simpl in Hf; lia|].
    exists (d_setSaveBuf d (d_saveBuf d ++ c :: buf)), s. split.
    { cbn [writeLoop]. rewrite (strict_prefix d s b d1 s1 (c :: buf) _ Hp Eb ltac:(done) Ht). cbn [mbind option_bind].
      replace (negb _ && _) with false; [done|]. symmetry. destruct Hfit as [->|Hfit]; [done|].
      rewrite Z.gtb_ltb. unfold zlen in *. destruct (Z.ltb_spec (2 * (d_maxStrLen d + 8)) (Z.of_nat (length (c :: buf)))); [lia|].
      apply andb_false_r. }
    unfold pending. split; [|done]. simpl d_saveBuf. rewrite Hs. change (d_setSaveBuf (d_setSaveBuf d _) []) with (d_setSaveBuf d []).
    rewrite d_setSaveBuf_nil by done. cbn [app] in E |- *. rewrite <- E. by econstructor.
  - assert (exists buf', buf = b ++ buf' /\ bs = buf' ++ q) as (buf' & -> & ->).
    { exists (drop (length b) buf).
      pose proof (f_equal (take (length b)) E) as Et. rewrite take_app_length, take_app_le in Et by lia.
      pose proof (f_equal (drop (length b)) E) as Ed. rewrite drop_app_length, drop_app_le in Ed by lia.
      split; [|done]. rewrite Et at 1. by rewrite take_drop. }
    destruct (parseHeaderFieldRepr_frame emit _ _ _ _ _ _ _ (Hp [])) as [Hsv _].
    destruct b as [|c b]; [done|]. destruct fuel as [|fuel]; [simpl in Hf; lia|].
    destruct (IH ltac:(simpl; congruence) buf' q fuel plen eq_refl) as (d2 & s2 & Ew & Hpend).
    { rewrite length_app in Hf. simpl in Hf. lia. }
    exists d2, s2. split; [|done]. rewrite <- Ew. specialize (Hp buf'). simpl in Hp |- *. by rewrite Hp.
Qed.

Lemma Write_fragment d s p q d' s' :
  p <> [] -> reprs emit (d_setSaveBuf d []) s (d_saveBuf d ++ p ++ q) d' s' ->
  exists d1 s1 n, Write emit d s p = Some (d1, s1, n, None) /\ pending d1 s1 q d' s'.
Proof.
  intros Hp Hr. rewrite app_assoc in Hr.
  destruct (writeLoop_fragment _ _ _ _ _ Hr eq_refl (d_saveBuf d ++ p) q (length (d_saveBuf d ++ p)) (zlen p) eq_refl ltac:(lia))
    as (d1 & s1 & E & Hpend).
  exists d1, s1, (zlen p). split; [|done]. rewrite <- E. unfold Write. destruct p; [done|].
  destruct (d_saveBuf d) eqn:Es; [|done]. by rewrite d_setSaveBuf_nil.
Qed.
End fragment.

(** ** The callback takes valid lists *)
Definition regular (f : HeaderField) : Prop := IsPseudo f = false.

Lemma pseudo_first_tail f fs : pseudo_first (f :: fs) -> pseudo_first fs /\ (regular f -> Forall regular fs).
Proof.
  intros H. split.
  - intros i j g g' Hij Hi Hj. by apply (H (S i) (S j) g g'); [lia|..].
  - intros Hf. apply Forall_lookup. intros i g Hg. unfold regular in *.
    destruct (IsPseudo g) eqn:E; [|done]. rewrite (H 0%nat (S i) f g) in Hf; [done|lia|done..].
Qed.

Lemma emit_all_meta fs : forall acc remain saw,
  Forall field_valid fs -> pseudo_first fs -> (saw = true -> Forall regular fs) ->
  sizes fs <= remain -> 0 <= remain < 2 ^ 32 ->
  exists s', emit_all emitMeta (mkMS acc false remain saw None) fs = Some s' /\
    ms_Fields s' = acc ++ fs /\ ms_Truncated s' = false /\ ms_invalid s' = None.
Proof.
  induction fs as [|f fs IH]; intros acc remain saw Hv Hpf Hsaw Hsz Hrem.
  { eexists. split; [done|]. by rewrite app_nil_r. }
  apply Forall_cons in Hv as [[Hval Hname] Hv]. apply pseudo_first_tail in Hpf as [Hpf Hreg].
  pose proof (hf_Size_u32 f) as Hu. unfold is_u32 in Hu. simpl in Hsz.
  assert (0 <= sizes fs) as Hs0 by (clear; induction fs as [|g fs IH]; simpl; [lia|]; pose proof (hf_Size_u32 g) as H; unfold is_u32 in H; lia).
  assert (emitMeta f true (mkMS acc false remain saw None) =
    (mkMS (acc ++ [f]) false (remain - hf_Size f) (saw || negb (IsPseudo f)) None, true)) as E.
  { unfold emitMeta. rewrite <- IsPseudo_head, Hval. simpl.
    destruct (IsPseudo f) eqn:Ep; simpl.
    - destruct saw; [specialize (Hsaw eq_refl); apply Forall_cons in Hsaw as [Hr _]; unfold regular in Hr; congruence|]. simpl.
      rewrite Z.gtb_ltb. destruct (Z.ltb_spec remain (hf_Size f)); [lia|]. rewrite u32_id by (unfold is_u32; lia). done.
    - rewrite (Hname eq_refl). simpl. rewrite Z.gtb_ltb. destruct (Z.ltb_spec remain (hf_Size f)); [lia|].
      rewrite u32_id by (unfold is_u32; lia). by rewrite orb_true_r. }
  simpl. rewrite E. destruct (IH (acc ++ [f]) (remain - hf_Size f) (saw || negb (IsPseudo f))) as (s' & Es & Hf & Ht & Hi);
    [done|done| |lia|lia|].
  { intros Hor. apply orb_true_iff in Hor as [Hs|Hn]; [specialize (Hsaw Hs); by apply Forall_cons in Hsaw as [_ ?]|].
    apply Hreg. by apply negb_true_iff. }
  exists s'. split; [done|]. by rewrite Hf, <- app_assoc.
Qed.

Lemma checkPseudosLoop_complete rest : forall before isReq isResp,
  pseudos_ok (before ++ rest) ->
  (isReq = true -> exists f, f ∈ before /\ hf_Name f ∈ requestPseudo) ->
  (isResp = true -> exists f, f ∈ before /\ hf_Name f ∈ responsePseudo) ->
  checkPseudosLoop before rest isReq isResp = None.
Proof.
  assert (forall n, n ∈ requestPseudo -> n ∈ responsePseudo -> False) as Hdisj.
  { assert (forallb (fun n => negb (bool_decide (n ∈ responsePseudo))) requestPseudo = true) as H by (vm_compute; reflexivity).
    rewrite forallb_forall in H. intros n H1 H2. apply list_elem_of_In, H, negb_true_iff in H1.
    by apply bool_decide_eq_false in H1. }
  induction rest as [|f rest IH]; intros before isReq isResp [Hnd Hall] Hrq Hrs; simpl.
  - rewrite app_nil_r in Hall. destruct isReq; [|done]. destruct isResp; [|done]. exfalso.
    destruct (Hrq eq_refl) as (f & Hf & Hfn), (Hrs eq_refl) as (g & Hg & Hgn).
    rewrite !Forall_forall in Hall. destruct Hall as [H|H]; [by apply (Hdisj (hf_Name g)); [apply H|]|].
    by apply (Hdisj (hf_Name f)); [|apply H].
  - assert (existsb (fun hf2 => bool_decide (hf_Name f = hf_Name hf2)) before = false) as ->.
    { apply not_true_iff_false. intros (g & Hg & E)%existsb_exists. apply bool_decide_eq_true in E.
      rewrite fmap_app, fmap_cons in Hnd. apply NoDup_app in Hnd as (_ & Hd & _).
      apply (Hd (hf_Name g)); [apply list_elem_of_fmap; exists g; split; [done|by apply list_elem_of_In]|]. rewrite <- E. by left. }
    assert (pseudos_ok ((before ++ [f]) ++ rest)) as Hok' by (rewrite <- app_assoc; by split).
    destruct Hall as [H|H]; apply Forall_app in H as [_ H]; apply Forall_cons in H as [Hf _].
    + rewrite (bool_decide_eq_true_2 _ Hf). rewrite bool_decide_eq_false_2 by (intros Hr; by apply (Hdisj (hf_Name f))).
      simpl. apply IH; [done| |].
      * intros _. exists f. split; [apply elem_of_app; right; by left|done].
      * intros Hr. destruct (Hrs Hr) as (g & Hg & Hgn). exists g. split; [apply elem_of_app; by left|done].
    + rewrite (bool_decide_eq_true_2 (hf_Name f ∈ responsePseudo) Hf).
      rewrite bool_decide_eq_false_2 by (intros Hr; by apply (Hdisj (hf_Name f))).
      simpl. apply IH; [done| |].
      * intros Hr. destruct (Hrq Hr) as (g & Hg & Hgn). exists g. split; [apply elem_of_app; by left|done].
      * intros _. exists f. split; [apply elem_of_app; right; by left|done].
Qed.

(** ** Reading the frames of a block *)

(** A framer between two header blocks, with the read limit [m]. *)
Definition idle (m : Z) (fr : Framer) : Prop :=
  fr_AllowIllegalReads fr = false /\ fr_lastHeaderStream fr = 0 /\ m <= fr_maxReadSize fr.

Lemma sent_wire rq : (exists bs, encode false rq = inl bs) -> wire_bytes rq = inl (sent_bytes rq) /\ checked rq.
Proof. intros [bs E]. unfold sent_bytes. rewrite E. by apply encode_wire. Qed.

Definition headers_header (id : Z) (es eh : bool) (frag : bytes) : FrameHeader :=
  mkFH FrameType_Headers (headers_flags false es eh false) (zlen frag) id.

Definition continuation_header (id : Z) (eh : bool) (frag : bytes) : FrameHeader :=
  mkFH FrameType_Continuation (orFlag eh FlagContinuationEndHeaders 0) (zlen frag) id.

Lemma headers_flags_end es eh :
  Flags_Has (headers_flags false es eh false) FlagHeadersEndHeaders = eh /\
  Flags_Has (headers_flags false es eh false) FlagHeadersEndStream = es.
Proof. by destruct es, eh. Qed.

Lemma continuation_flags_end eh : Flags_Has (orFlag eh FlagContinuationEndHeaders 0) FlagContinuationEndHeaders = eh.
Proof. by destruct eh. Qed.

Section read.
Context (id m : Z) (rest : bytes).
Hypotheses (Hu : is_u32 id) (Hid : validStreamID id = true) (Hm : 0 < m < 2 ^ 24).

Lemma read_headers fr es eh frag rest' :
  idle m fr -> zlen frag <= m ->
  fr_r fr = sent_bytes (RHeaders (mkHeadersParam id frag es eh 0 no_priority)) ++ rest' ->
  exists fr', readFrame fr = Ret (fr', HeadersFrame (headers_header id es eh frag) no_priority frag) /\
    fr_r fr' = rest' /\ fr_AllowIllegalReads fr' = false /\ m <= fr_maxReadSize fr' /\
    fr_lastHeaderStream fr' = if eh then 0 else id.
Proof.
  intros (Hill & Hlast & Hmax) Hlen Hr. set (p := mkHeadersParam id frag es eh 0 no_priority) in *.
  destruct (sent_wire (RHeaders p)) as [Hw Hch]; [apply encode_headers_ok; [done|lia]|].
  assert (meaning (RHeaders p) = HeadersFrame (headers_header id es eh frag) no_priority frag) as Hmean.
  { unfold meaning, wire, p, headers_header. cbn [hp_PadLength hp_Priority hp_EndStream hp_EndHeaders hp_StreamID hp_BlockFragment].
    simpl. by rewrite ?take_0, app_nil_r. }
  rewrite (readFrame_wire (RHeaders p) _ fr rest' ltac:(by split) Hch Hw Hr), Hmean.
  2: { simpl. rewrite ?take_0, app_nil_r. lia. }
  unfold checkFrameOrder. simpl. rewrite Hill, Hlast. simpl. eexists. split; [done|]. simpl.
  split; [done|]. split; [done|]. split; [done|]. unfold nextHeaderStream. simpl.
  by destruct es, eh.
Qed.

Lemma read_continuation fr eh frag rest' :
  fr_AllowIllegalReads fr = false -> fr_lastHeaderStream fr = id -> m <= fr_maxReadSize fr -> zlen frag <= m ->
  fr_r fr = sent_bytes (RContinuation id eh frag) ++ rest' ->
  exists fr', readFrame fr = Ret (fr', ContinuationFrame (continuation_header id eh frag) frag) /\
    fr_r fr' = rest' /\ fr_AllowIllegalReads fr' = false /\ m <= fr_maxReadSize fr' /\
    fr_lastHeaderStream fr' = if eh then 0 else id.
Proof.
  intros Hill Hlast Hmax Hlen Hr.
  destruct (sent_wire (RContinuation id eh frag)) as [Hw Hch]; [apply encode_continuation_ok; [done|lia]|].
  rewrite (readFrame_wire (RContinuation id eh frag) _ fr rest' Hu Hch Hw Hr) by (simpl; lia).
  unfold checkFrameOrder. simpl. rewrite Hill, Hlast. simpl. rewrite id_nonzero, Z.eqb_refl by done. simpl.
  eexists. split; [done|]. simpl. split; [done|]. split; [done|]. split; [done|].
  unfold nextHeaderStream. simpl. by destruct eh.
Qed.

Lemma metaLoop_continuations d' s' : forall frags frag fuel fr d s,
  frag <> [] -> Forall (fun f => f <> [] /\ zlen f <= m) frags ->
  reprs emitMeta (d_setSaveBuf d []) s (d_saveBuf d ++ frag ++ concat frags) d' s' ->
  fr_r fr = flat_map sent_bytes (continuations id frags) ++ rest -> (length frags < fuel)%nat ->
  fr_AllowIllegalReads fr = false -> m <= fr_maxReadSize fr ->
  fr_lastHeaderStream fr = (if bool_decide (frags = []) then 0 else id) ->
  exists fr', metaLoop fuel fr d s frag (bool_decide (frags = [])) = Some (Ret (fr', d', s')) /\
    fr_r fr' = rest /\ idle m fr' /\ d_saveBuf d' = [].
Proof.
  induction frags as [|frag2 frags IH]; intros frag [|fuel] fr d s Hne Hall Hrep Hr Hf Hill Hmax Hlast; try (simpl in Hf; lia);
    cbn [metaLoop]; destruct (Write_fragment emitMeta d s frag _ d' s' Hne Hrep) as (d1 & s1 & n & Ew & [Hrep1 Hend]);
    rewrite Ew.
  - destruct (Hend eq_refl) as (Hs & -> & ->). exists fr. split; [done|]. split; [done|]. done.
  - apply Forall_cons in Hall as [[Hne2 Hlen2] Hall]. cbn [continuations flat_map] in Hr. rewrite <- app_assoc in Hr.
    rewrite bool_decide_eq_false_2 by done.
    destruct (read_continuation fr _ frag2 _ Hill Hlast Hmax Hlen2 Hr) as (fr1 & E & Hr1 & Hill1 & Hmax1 & Hlast1).
    rewrite E. cbn [fh_Flags continuation_header]. rewrite continuation_flags_end.
    apply IH; try done. simpl in Hf. lia.
Qed.

(** A whole block arrives as one merged frame. *)
Lemma ReadFrame_block W fr d max es bs fuel d' s' fs :
  bs <> [] -> (length bs <= fuel)%nat -> idle m fr ->
  fr_r fr = flat_map sent_bytes (block_requests id es (fragments fuel m bs)) ++ rest ->
  d_saveBuf d = [] ->
  reprs emitMeta (SetMaxStringLength (SetEmitEnabled d true) (maxHeaderStringLen W max))
    (mkMS [] false (maxHeaderListSize max) false None) bs d' s' ->
  ms_Fields s' = fs -> ms_Truncated s' = false -> ms_invalid s' = None ->
  (forall fh, checkPseudos (mkMeta fh no_priority fs false) = None) ->
  exists fr' fh, ReadFrame W (mkMF fr d max) =
      Some (Ret (mkMF fr' (d_setFirstField d' true) max, inr (mkMeta fh no_priority fs false))) /\
    fh_StreamID fh = id /\ Flags_Has (fh_Flags fh) FlagHeadersEndStream = es /\ fr_r fr' = rest /\ idle m fr'.
Proof.
  intros Hne Hf Hidle Hr Hsave Hrep <- Htr Hinv Hps.
  destruct (fragments_ok m ltac:(lia) fuel bs Hf) as [Hcat Hall].
  destruct (fragments fuel m bs) as [|frag frags]; [by rewrite <- Hcat in Hne|].
  apply Forall_cons in Hall as [[Hnef Hlenf] Hall]. cbn [block_requests flat_map] in Hr. rewrite <- app_assoc in Hr.
  destruct (read_headers fr _ _ _ _ Hidle Hlenf Hr) as (fr1 & E & Hr1 & Hill1 & Hmax1 & Hlast1).
  set (d1 := SetMaxStringLength _ _) in *.
  assert (d_saveBuf d1 = []) as Hs1 by done.
  destruct (metaLoop_continuations d' s' frags frag (S (length (fr_r fr1))) fr1 d1 (mkMS [] false (maxHeaderListSize max) false None))
    as (fr2 & El & Hr2 & Hidle2 & Hs2); try done.
  { rewrite Hs1, d_setSaveBuf_nil by done. simpl. rewrite <- Hcat in Hrep. exact Hrep. }
  { rewrite Hr1, length_app. clear Hr Hr1 Hlast1 Hrep Hcat E. induction frags as [|f2 frags IH]; [simpl; lia|].
    apply Forall_cons in Hall as [[_ Hl2] Hall]. specialize (IH Hall). cbn [continuations flat_map length]. rewrite length_app.
    assert (1 <= length (sent_bytes (RContinuation id (bool_decide (frags = [])) f2)))%nat; [|lia].
    unfold sent_bytes. destruct (encode_continuation_ok id f2 (bool_decide (frags = [])) Hid ltac:(lia)) as [b Eb]. rewrite Eb.
    apply encode_wire in Eb as [Eb _]. apply endWrite_inl in Eb as [_ ->]. simpl. lia. }
  exists fr2, (headers_header id es (bool_decide (frags = [])) frag). split; [|by split_and!; [|apply headers_flags_end|..]].
  unfold ReadFrame. cbn [mf_fr mf_dec mf_MaxHeaderListSize]. rewrite E. unfold readMetaFrame. cbn [mf_fr mf_dec mf_MaxHeaderListSize].
  rewrite Hill1. fold d1. cbn [headers_header fh_Flags]. rewrite (proj1 (headers_flags_end _ _)), El. cbn [mbind option_bind].
  unfold Close. rewrite Hs2, Hinv, Htr, Hps. done.
Qed.
End read.

(** ** A block from one end to the other *)
Definition meta_decoder (W max : Z) (d : Decoder) : Decoder :=
  SetMaxStringLength (SetEmitEnabled d true) (maxHeaderStringLen W max).

(** A list of fields that HTTP/2 allows and that fits the receiver's limit. *)
Record message_ok (max : Z) (fs : list HeaderField) : Prop := {
  msg_some : fs <> [];
  msg_valid : Forall field_valid fs;
  msg_order : pseudo_first fs;
  msg_pseudos : pseudos_ok (pseudoPrefix fs);
  msg_bytes : Forall (fun f => bytes_ok (hf_Name f) /\ bytes_ok (hf_Value f)) fs;
  msg_size : total fs <= maxHeaderListSize max
}.

Lemma sizes_total fs : total fs < 2 ^ 32 -> sizes fs = total fs.
Proof.
  induction fs as [|f fs IH]; [done|]. simpl. intros H. pose proof (rawSize_pos f). pose proof (total_nonneg fs).
  rewrite IH by lia. unfold hf_Size. fold (rawSize f). rewrite u32_id by (unfold is_u32; lia). done.
Qed.

Lemma maxHeaderStringLen_small W max :
  W = 32 \/ W = 64 -> 0 <= maxHeaderListSize max < 2 ^ 31 -> maxHeaderStringLen W max = maxHeaderListSize max.
Proof.
  intros HW H. unfold maxHeaderStringLen. set (v := maxHeaderListSize max) in *.
  assert (swrap W v = v) as -> by (destruct HW as [-> | ->]; apply swrap_id; simpl; lia).
  rewrite u32_id by (unfold is_u32; lia). by rewrite Z.eqb_refl.
Qed.

Lemma message_fields_ok W max d fs :
  W = 32 \/ W = 64 -> 0 <= maxHeaderListSize max < 2 ^ 31 -> message_ok max fs ->
  Forall (field_ok (meta_decoder W max d)) fs.
Proof.
  intros HW Hmax [_ _ _ _ Hb Hsz]. apply Forall_lookup. intros i f Hf.
  rewrite Forall_lookup in Hb. destruct (Hb i f Hf) as [Hbn Hbv]. apply rawSize_total in Hf.
  unfold rawSize in *. pose proof (zlen_nonneg (hf_Name f)). pose proof (zlen_nonneg (hf_Value f)).
  unfold field_ok, str_allowed, len_allowed, meta_decoder. simpl. rewrite maxHeaderStringLen_small by done.
  unfold rawSize. split_and!; try done; try lia; right; lia.
Qed.

Lemma reprs_nil_inv {St} (emit : HeaderField -> bool -> St -> St * bool) d s d' s' : reprs emit d s [] d' s' -> d' = d /\ s' = s.
Proof. intros H. remember [] as bs eqn:E. destruct H; [done|]. by apply app_eq_nil in E as [-> _]. Qed.

Lemma block_exchange W max e d fs :
  W = 32 \/ W = 64 -> 0 <= maxHeaderListSize max < 2 ^ 31 -> message_ok max fs ->
  ready e (meta_decoder W max d) ->
  dt_added (e_dynTab e) + zlen fs < 2 ^ 64 -> dt_added (d_dynTab d) + zlen fs < 2 ^ 64 ->
  exists e' bs d', WriteFields e [] fs = Some (e', bs, None) /\ bs <> [] /\ ready e' (meta_decoder W max d') /\
    dt_added (e_dynTab e') <= dt_added (e_dynTab e) + zlen fs /\
    dt_added (d_dynTab d') <= dt_added (d_dynTab d) + zlen fs /\
    forall id m es fuel fr rest, is_u32 id -> validStreamID id = true -> 0 < m < 2 ^ 24 ->
      (length bs <= fuel)%nat -> idle m fr ->
      fr_r fr = flat_map sent_bytes (block_requests id es (fragments fuel m bs)) ++ rest ->
      exists fr' fh, ReadFrame W (mkMF fr d max) = Some (Ret (mkMF fr' d' max, inr (mkMeta fh no_priority fs false))) /\
        fh_StreamID fh = id /\ Flags_Has (fh_Flags fh) FlagHeadersEndStream = es /\ fr_r fr' = rest /\ idle m fr'.
Proof.
  intros HW Hmax Hmsg Hready Hae Had. pose proof Hmsg as [Hne Hval Hpf Hps Hb Hsz].
  pose proof (total_nonneg fs).
  destruct (emit_all_meta fs [] (maxHeaderListSize max) false) as (s' & Hem & Hfs & Htr & Hinv);
    [done|done|done|rewrite sizes_total; lia|lia|].
  destruct (block_reprs emitMeta e (meta_decoder W max d) (mkMS [] false (maxHeaderListSize max) false None) s' fs Hready Hne) as (e' & bs & d' & Hw & Hrep & Hr' & _ & Hss & Ha & Hd);
    [by apply message_fields_ok|exact Hem|exact Hae|exact Had|].
  exists e', bs, (d_setFirstField d' true). split; [done|]. split.
  { intros ->. apply reprs_nil_inv in Hrep as [_ ->]. simpl in Hfs. congruence. }
  split.
  { replace (meta_decoder W max (d_setFirstField d' true)) with (d_setFirstField d' true); [done|].
    destruct Hss as (Hm' & He' & _ & _). destruct d'. simpl in *. unfold meta_decoder, d_setFirstField, SetMaxStringLength, SetEmitEnabled.
    simpl. congruence. }
  split; [done|]. split; [done|]. intros id m es fuel fr rest Hu Hid Hm Hf Hidle Hr.
  eapply (ReadFrame_block id m rest Hu Hid Hm W fr d max es bs fuel d' s' fs); try done.
  - intros ->. apply reprs_nil_inv in Hrep as [_ ->]. simpl in Hfs. congruence.
  - by destruct Hready as [_ [_ ?] _ _].
  - intros fh. unfold checkPseudos, PseudoFields. simpl. by apply checkPseudosLoop_complete.
Qed.

(** ** What a server sends *)
Definition sendable (f : HeaderField) : Prop :=
  field_valid f /\ regular f /\ bytes_ok (hf_Name f) /\ bytes_ok (hf_Value f).

Definition values_ok (h : gmap bytes (list bytes)) : Prop := forall k vv, h !! k = Some vv -> Forall bytes_ok vv.

Lemma lower_u8 b : is_u8 b -> is_u8 (lower b).
Proof. unfold lower. destruct (_ && _); [intros _; apply u8_range|done]. Qed.

Lemma ascii_bytes k : isASCIIPrint k = true -> bytes_ok (map lower k).
Proof.
  induction k as [|b k IH]; simpl; intros H; [constructor|]. destruct (_ || _) eqn:E; [done|].
  constructor; [|by apply IH]. apply lower_u8. breflect. unfold is_u8. lia.
Qed.

Lemma wire_name_regular n v : validWireHeaderFieldName n = true -> regular (mkHF n v false).
Proof.
  destruct n as [|b n]; [done|]. unfold regular, IsPseudo. simpl. destruct (Z.eqb_spec b 58) as [->|]; [by vm_compute|done].
Qed.

Lemma header_fields_sendable h keys : values_ok h -> Forall sendable (header_fields h keys).
Proof.
  intros Hh. apply Forall_flat_map, Forall_forall. intros k _. unfold key_fields. rewrite lowerHeader_ascii. unfold asciiToLower.
  destruct (isASCIIPrint k) eqn:Ek; simpl; [|constructor].
  destruct (validWireHeaderFieldName (map lower k)) eqn:En; [|constructor].
  apply Forall_map, Forall_forall. intros v Hv%list_elem_of_In. apply filter_In in Hv as [Hv Hs].
  apply andb_true_iff in Hs as [Hs _]. split; [by split|]. split; [by apply wire_name_regular|].
  split; [by apply ascii_bytes|]. simpl. destruct (h !! k) as [vv|] eqn:E; [|done].
  specialize (Hh k vv E). rewrite Forall_forall in Hh. by apply Hh, list_elem_of_In.
Qed.

Lemma opt_field_sendable b (k : String.string) v :
  validWireHeaderFieldName (str k) = true -> bytes_ok v -> ValidHeaderFieldValue v = true ->
  Forall sendable (opt_field b (str k) v).
Proof.
  intros Hk Hb Hv. destruct b; [|constructor]. constructor; [|constructor]. split; [by split|].
  split; [by apply wire_name_regular|]. split; [apply str_ok|done].
Qed.

(** A response the server may send: a final status or none (trailers). *)
Record response_ok (max : Z) (w : resHeaders) : Prop := {
  res_id : is_u32 (rh_streamID w) /\ validStreamID (rh_streamID w) = true;
  res_code : 0 <= rh_httpResCode w < 1000;
  res_values : values_ok (rh_h w);
  res_strings : Forall (fun v => bytes_ok v /\ ValidHeaderFieldValue v = true) [rh_contentType w; rh_contentLength w; rh_date w];
  res_some : res_fields w <> [];
  res_size : total (res_fields w) <= maxHeaderListSize max
}.

Lemma httpCodeString_ok c : 0 <= c < 1000 -> bytes_ok (httpCodeString c) /\ ValidHeaderFieldValue (httpCodeString c) = true.
Proof.
  intros Hc. pose proof (forallb_range (fun c => forallb (fun b => (0 <=? b) && (b <? 256)) (httpCodeString c)
    && ValidHeaderFieldValue (httpCodeString c)) 1000 ltac:(vm_compute; reflexivity) c Hc) as H.
  apply andb_true_iff in H as [H ->]. split; [|done]. apply List.Forall_forall. intros b Hb. rewrite forallb_forall in H.
  specialize (H b Hb). breflect. unfold is_u8. lia.
Qed.

Lemma regular_pseudos fs : Forall regular fs -> pseudoPrefix fs = [] /\ pseudo_first fs.
Proof.
  intros H. split; [destruct H as [|f fs Hf _]; [done|]; simpl; unfold regular in Hf; by rewrite Hf|].
  intros i j f g _ _ Hg. rewrite Forall_lookup in H. unfold regular in H. by rewrite (H j g Hg).
Qed.

Lemma response_message max w : response_ok max w -> message_ok max (res_fields w).
Proof.
  intros [_ Hcode Hh Hs Hne Hsz].
  apply Forall_cons in Hs as [[Hb1 Hv1] Hs]. apply Forall_cons in Hs as [[Hb2 Hv2] Hs]. apply Forall_cons in Hs as [[Hb3 Hv3] _].
  destruct (httpCodeString_ok _ Hcode) as [Hbc Hvc].
  set (tl := header_fields (rh_h w) (rh_trailers w) ++
    opt_field (negb (bool_decide (rh_contentType w = []))) (str "content-type") (rh_contentType w) ++
    opt_field (negb (bool_decide (rh_contentLength w = []))) (str "content-length") (rh_contentLength w) ++
    opt_field (negb (bool_decide (rh_date w = []))) (str "date") (rh_date w)).
  assert (Forall sendable tl) as Htl by (repeat apply Forall_app_2; [by apply header_fields_sendable|by apply opt_field_sendable..]).
  assert (res_fields w = opt_field (negb (rh_httpResCode w =? 0)) (str ":status") (httpCodeString (rh_httpResCode w)) ++ tl) as E by done.
  assert (Forall regular tl) as Hreg by (eapply Forall_impl; [exact Htl|]; by intros f (_ & ? & _)).
  destruct (regular_pseudos tl Hreg) as [Hpp Hpf].
  split; [done| | | | |done]; rewrite E; destruct (negb (rh_httpResCode w =? 0)); cbn [opt_field app].
  - constructor; [by split|]. eapply Forall_impl; [exact Htl|]. by intros f (? & _).
  - eapply Forall_impl; [exact Htl|]. by intros f (? & _).
  - intros [|i] [|j] f g Hij Hf Hg Hp; try lia; simpl in Hf, Hg.
    + by injection Hf as <-.
    + apply (Hpf i j f g); [lia|done..].
  - done.
  - simpl. rewrite Hpp. split; [apply NoDup_singleton|]. right. repeat constructor.
  - rewrite Hpp. split; [apply NoDup_nil_2|]. left. constructor.
  - constructor; [split; [apply str_ok|done]|]. eapply Forall_impl; [exact Htl|]. by intros f (_ & _ & ?).
  - eapply Forall_impl; [exact Htl|]. by intros f (_ & _ & ?).
Qed.

(** ** Connections *)

(** A header block to send. *)
Record message := mkMsg { m_id : Z; m_endStream : bool; m_fields : list HeaderField }.

(** The server writes a response to its buffer; [None] is an error or a panic. *)
Definition respond (ctx : writeContext bytes) (w : resHeaders) : option (writeContext bytes) :=
  match writeFrame bufWrite bufferFlush tt anyError (writeResHeaders w) ctx with
  | Some (ctx, None) => Some ctx
  | _ => None
  end.

Definition response (w : resHeaders) : message := mkMsg (rh_streamID w) (rh_endStream w) (res_fields w).

(** The client encodes the fields of a request into an emptied buffer and calls
    [writeHeaders]. *)
Definition request_headers (maxFrameSize : Z) (ctx : writeContext bytes) (msg : message) : option (writeContext bytes) :=
  '(e, hdrs, _) ← WriteFields (cx_enc ctx) [] (m_fields msg);
  match writeHeaders bufWrite bufferFlush tt anyError (fun _ => None) (set_enc e hdrs ctx)
          (m_id msg) (m_endStream msg) maxFrameSize hdrs with
  | Some (ctx, None) => Some ctx
  | _ => None
  end.

Fixpoint send_all {A} (send1 : writeContext bytes -> A -> option (writeContext bytes)) (ctx : writeContext bytes) (l : list A)
  : option (writeContext bytes) :=
  match l with
  | [] => Some ctx
  | a :: l => ctx ← send1 ctx a; send_all send1 ctx l
  end.

(** The peer reads [n] frames, which must be merged header frames. *)
Fixpoint receive (W : Z) (n : nat) (mf : MetaFramer) : option (list MetaHeadersFrame) :=
  match n with
  | O => Some []
  | S n =>
      match ReadFrame W mf with
      | Some (Ret (mf, inr mh)) => mhs ← receive W n mf; Some (mh :: mhs)
      | _ => None
      end
  end.

(** [mh] is the message as it was sent. *)
Definition delivered (msg : message) (mh : MetaHeadersFrame) : Prop :=
  mh_Fields mh = m_fields msg /\ mh_Truncated mh = false /\ fh_StreamID (mh_fh mh) = m_id msg /\
  Flags_Has (fh_Flags (mh_fh mh)) FlagHeadersEndStream = m_endStream msg.

Definition stream_ok (id : Z) : Prop := is_u32 id /\ validStreamID id = true.

Definition sends_ok (max : Z) (msg : message) : Prop := stream_ok (m_id msg) /\ message_ok max (m_fields msg).

Definition count (ms : list message) : Z := foldr (fun msg n => zlen (m_fields msg) + n) 0 ms.

Lemma count_nonneg ms : 0 <= count ms.
Proof. induction ms as [|msg ms IH]; simpl; [done|]. pose proof (zlen_nonneg (m_fields msg)). lia. Qed.

(** Any way of sending that puts the frames of each block on the wire delivers. *)
Section conversation.
Context (W max m : Z) {A : Type} (msg_of : A -> message) (send1 : writeContext bytes -> A -> option (writeContext bytes)).
Hypotheses (HW : W = 32 \/ W = 64) (Hmax : 0 <= maxHeaderListSize max < 2 ^ 31) (Hm : 0 < m < 2 ^ 24).
Hypothesis send1_sends : forall ctx a e bs,
  cx_AllowIllegalWrites ctx = false -> validStreamID (m_id (msg_of a)) = true -> bs <> [] ->
  WriteFields (cx_enc ctx) [] (m_fields (msg_of a)) = Some (e, bs, None) ->
  exists ctx', send1 ctx a = Some ctx' /\ cx_AllowIllegalWrites ctx' = false /\ cx_enc ctx' = e /\
    cx_w ctx' = cx_w ctx ++ flat_map sent_bytes
      (block_requests (m_id (msg_of a)) (m_endStream (msg_of a)) (fragments (length bs) m bs)).

Lemma conversation_ok l : forall ctx d,
  Forall (fun a => sends_ok max (msg_of a)) l ->
  cx_AllowIllegalWrites ctx = false -> ready (cx_enc ctx) (meta_decoder W max d) ->
  dt_added (e_dynTab (cx_enc ctx)) + count (map msg_of l) < 2 ^ 64 ->
  dt_added (d_dynTab d) + count (map msg_of l) < 2 ^ 64 ->
  exists ctx' bs, send_all send1 ctx l = Some ctx' /\ cx_w ctx' = cx_w ctx ++ bs /\
    forall fr rest, idle m fr -> fr_r fr = bs ++ rest ->
    exists mhs, receive W (length l) (mkMF fr d max) = Some mhs /\ Forall2 delivered (map msg_of l) mhs.
Proof.
  induction l as [|a l IH]; intros ctx d Hok Hill Hready Hae Had.
  { exists ctx, []. rewrite app_nil_r. split; [done|]. split; [done|]. intros fr rest _ _. by exists []. }
  apply Forall_cons in Hok as [[[Hu Hv] Hmsg] Hok]. simpl in Hae, Had. pose proof (count_nonneg (map msg_of l)).
  set (msg := msg_of a) in *.
  destruct (block_exchange W max (cx_enc ctx) d (m_fields msg) HW Hmax Hmsg Hready) as (e1 & bs1 & d1 & Hw & Hne & Hr1 & Ha & Hd & Hread);
    [lia|lia|].
  destruct (send1_sends ctx a e1 bs1 Hill Hv Hne Hw) as (ctx1 & Es & Hill1 & <- & Hcw).
  destruct (IH ctx1 d1 Hok Hill1 Hr1) as (ctx' & bs2 & Es2 & Hcw2 & Hrecv); [lia|lia|].
  exists ctx', (flat_map sent_bytes (block_requests (m_id msg) (m_endStream msg) (fragments (length bs1) m bs1)) ++ bs2).
  split; [simpl; by rewrite Es|]. split; [by rewrite Hcw2, Hcw, <- app_assoc|].
  intros fr rest Hidle Hr. rewrite <- app_assoc in Hr.
  destruct (Hread _ m _ _ fr _ Hu Hv Hm (Nat.le_refl _) Hidle Hr) as (fr1 & fh & E & Hfid & Hfes & Hr' & Hidle').
  destruct (Hrecv fr1 rest Hidle' Hr') as (mhs & Erec & Hall).
  exists (mkMeta fh no_priority (m_fields msg) false :: mhs). split; [cbn [length receive]; by rewrite E, Erec|].
  constructor; [by split_and!|done].
Qed.

(** From the initial state of a connection. *)
Lemma conversation_fresh l e d :
  NewEncoder = Some e -> NewDecoder 4096 = Some d ->
  Forall (fun a => sends_ok max (msg_of a)) l -> count (map msg_of l) < 2 ^ 64 ->
  exists ctx mhs, send_all send1 (mkCtx false [] e []) l = Some ctx /\
    receive W (length l) (mkMF (NewFramer (cx_w ctx)) d max) = Some mhs /\ Forall2 delivered (map msg_of l) mhs.
Proof.
  intros He Hd Hok Hn. destruct (new_ready 4096 (maxHeaderStringLen W max)) as (e' & d' & He' & Hd' & Hr & _ & Hae & Had); [lia|].
  assert (e' = e) as -> by congruence. assert (d' = d) as -> by congruence.
  assert (configured d 4096 (maxHeaderStringLen W max) = meta_decoder W max d) as Hc.
  { vm_compute in Hd. injection Hd as <-. done. }
  rewrite Hc in Hr.
  destruct (conversation_ok l (mkCtx false [] e []) d Hok eq_refl Hr) as (ctx & bs & Es & Hcw & Hrecv); [simpl; lia|lia|].
  exists ctx. simpl in Hcw. rewrite Hcw in *. destruct (Hrecv (NewFramer bs) []) as (mhs & Erec & Hall).
  { split; [done|]. split; [done|]. change (fr_maxReadSize (NewFramer bs)) with (2 ^ 24 - 1). lia. }
  { by rewrite app_nil_r. }
  exists mhs. done.
Qed.
End conversation.

Lemma respond_sends ctx w e bs :
  cx_AllowIllegalWrites ctx = false -> validStreamID (rh_streamID w) = true -> bs <> [] ->
  WriteFields (cx_enc ctx) [] (res_fields w) = Some (e, bs, None) ->
  exists ctx', respond ctx w = Some ctx' /\ cx_AllowIllegalWrites ctx' = false /\ cx_enc ctx' = e /\
    cx_w ctx' = cx_w ctx ++ flat_map sent_bytes (block_requests (rh_streamID w) (rh_endStream w) (fragments (length bs) 16384 bs)).
Proof.
  intros Hill Hv Hne Hw. unfold respond. cbn [writeFrame]. rewrite res_writeFrame_fields. unfold encFields at 1. cbn [cx_enc cx_buf set_enc].
  rewrite Hw. cbn [mbind option_bind cx_buf set_enc]. rewrite bool_decide_eq_false_2 by done. cbn [andb]. unfold splitHeaderBlock.
  rewrite splitLoop_sent by done. eexists. split; [done|]. done.
Qed.

Lemma request_sends m ctx msg e bs :
  0 < m < 2 ^ 24 -> cx_AllowIllegalWrites ctx = false -> validStreamID (m_id msg) = true -> bs <> [] ->
  WriteFields (cx_enc ctx) [] (m_fields msg) = Some (e, bs, None) ->
  exists ctx', request_headers m ctx msg = Some ctx' /\ cx_AllowIllegalWrites ctx' = false /\ cx_enc ctx' = e /\
    cx_w ctx' = cx_w ctx ++ flat_map sent_bytes (block_requests (m_id msg) (m_endStream msg) (fragments (length bs) m bs)).
Proof.
  intros Hm Hill Hv Hne Hw. unfold request_headers. rewrite Hw. cbn [mbind option_bind]. unfold writeHeaders.
  rewrite writeHeadersLoop_sent by done. eexists. split; [done|]. done.
Qed.

(** C2: responses arrive as they were sent.  On a fresh connection the server's
    frame writer, for any sequence of response headers (final status, trailers or
    neither) with header maps of any content, does not fail or panic, and the peer's
    [ReadFrame] returns one merged frame per response, with exactly the fields that
    [encodeHeaders] selects, in order, complete, on the same stream and with the
    same END_STREAM flag; blocks larger than a frame are cut and put together. *)
Theorem responses_received W max ws e d :
  (W = 32 \/ W = 64) -> 0 <= maxHeaderListSize max < 2 ^ 31 -> NewEncoder = Some e -> NewDecoder 4096 = Some d ->
  Forall (response_ok max) ws -> count (map response ws) < 2 ^ 64 ->
  exists ctx mhs, send_all respond (mkCtx false [] e []) ws = Some ctx /\
    receive W (length ws) (mkMF (NewFramer (cx_w ctx)) d max) = Some mhs /\ Forall2 delivered (map response ws) mhs.
Proof.
  intros HW Hmax He Hd Hws Hn. apply (conversation_fresh W max 16384 response respond HW Hmax); try done.
  - intros ctx w e' bs. apply respond_sends.
  - eapply Forall_impl; [exact Hws|]. intros w Hw. split; [apply Hw|by apply response_message].
Qed.

(** C3: requests arrive as they were sent: the same for the client's [writeHeaders],
    whatever the frame size the peer allows, and lists of fields that HTTP/2 allows. *)
Theorem requests_received W max m ms e d :
  (W = 32 \/ W = 64) -> 0 <= maxHeaderListSize max < 2 ^ 31 -> 0 < m < 2 ^ 24 ->
  NewEncoder = Some e -> NewDecoder 4096 = Some d -> Forall (sends_ok max) ms -> count ms < 2 ^ 64 ->
  exists ctx mhs, send_all (request_headers m) (mkCtx false [] e []) ms = Some ctx /\
    receive W (length ms) (mkMF (NewFramer (cx_w ctx)) d max) = Some mhs /\ Forall2 delivered ms mhs.
Proof.
  intros HW Hmax Hm He Hd Hms Hn. rewrite <- (map_id ms) in Hn |- *. rewrite length_map.
  destruct (conversation_fresh W max m id (request_headers m) HW Hmax Hm) with (l := ms) (e := e) (d := d)
    as (ctx & mhs & H1 & H2 & H3); try done; [|by exists ctx, mhs; rewrite map_id in *].
  intros ctx msg e' bs. by apply request_sends.
Qed.

Definition sample_header : gmap bytes (list bytes) :=
  <[str "Set-Cookie" := [str "a=1"; str "b=2"]]> (<[str "Transfer-Encoding" := [str "chunked"]]> ∅).

(** A response with a header map, and its trailers. *)
Definition sample_responses : list resHeaders := [
  mkRes 1 200 sample_header None false (str "now") (str "text/html") [];
  mkRes 1 0 (<[str "Set-Cookie" := [str "c=3"]]> ∅) (Some [str "Set-Cookie"; str "Via"]) true [] [] []].

Lemma values_ok_insert k vv h : Forall bytes_ok vv -> values_ok h -> values_ok (<[k := vv]> h).
Proof. intros Hv Hh k' vv' [[_ <-]|[_ H]]%lookup_insert_Some; [done|by eapply Hh]. Qed.

Lemma values_ok_empty : values_ok ∅.
Proof. intros k vv H. by rewrite lookup_empty in H. Qed.

Lemma sample_responses_ok : Forall (response_ok 0) sample_responses.
Proof.
  assert (values_ok sample_header) as Hh.
  { repeat apply values_ok_insert; [..|apply values_ok_empty];
      repeat (apply List.Forall_cons; [apply str_ok|]); apply List.Forall_nil. }
  apply List.Forall_cons; [|apply List.Forall_cons; [|apply List.Forall_nil]].
  - split; [by split|simpl; lia|exact Hh| |vm_compute; congruence|vm_compute; congruence].
    repeat (apply List.Forall_cons; [split; [first [apply str_ok|by apply Forall_nil_2]|done]|]). apply List.Forall_nil.
  - split; [by split|simpl; lia| | |vm_compute; congruence|vm_compute; congruence].
    + apply values_ok_insert; [|apply values_ok_empty]. apply List.Forall_cons; [apply str_ok|apply List.Forall_nil].
    + repeat (apply List.Forall_cons; [split; [by apply Forall_nil_2|done]|]). apply List.Forall_nil.
Qed.

Lemma responses_received_witness :
  exists e d ctx mhs, NewEncoder = Some e /\ NewDecoder 4096 = Some d /\
    send_all respond (mkCtx false [] e []) sample_responses = Some ctx /\
    receive 64 2 (mkMF (NewFramer (cx_w ctx)) d 0) = Some mhs /\ Forall2 delivered (map response sample_responses) mhs /\
    map m_fields (map response sample_responses) =
      [[entry ":status" "200"; entry "set-cookie" "a=1"; entry "set-cookie" "b=2"; entry "content-type" "text/html"; entry "date" "now"];
       [entry "set-cookie" "c=3"]].
Proof.
  assert (exists e, NewEncoder = Some e) as [e He] by (eexists; vm_compute; reflexivity).
  assert (exists d, NewDecoder 4096 = Some d) as [d Hd] by (eexists; vm_compute; reflexivity).
  destruct (responses_received 64 0 sample_responses e d) as (ctx & mhs & Es & Er & Hall); [by right|vm_compute; intuition congruence|exact He|exact Hd|apply sample_responses_ok|vm_compute; reflexivity|].
  exists e, d, ctx, mhs. split; [exact He|]. split; [exact Hd|]. split; [exact Es|]. split; [exact Er|]. split; [exact Hall|].
  vm_compute. reflexivity.
Defined.

Definition sample_requests : list message := [
  mkMsg 1 true [entry ":method" "GET"; entry ":path" "/"; entry ":scheme" "https"; entry "accept" "text/html"];
  mkMsg 3 false [entry ":method" "GET"; entry ":path" "/"; entry ":scheme" "https"; mkHF (str "cookie") (str "c=3") true]].

Lemma three_pseudos fs :
  pseudoPrefix fs = take 3 fs -> take 3 fs = [entry ":method" "GET"; entry ":path" "/"; entry ":scheme" "https"] ->
  Forall regular (drop 3 fs) -> pseudo_first fs /\ pseudos_ok (pseudoPrefix fs).
Proof.
  intros Hp Ht Hd3. split.
  - intros i j f g Hij Hf Hg Hgp. destruct (decide (j < 3)%nat) as [Hj|Hj].
    + rewrite <- (lookup_take_lt fs 3 i) in Hf by lia. rewrite Ht in Hf.
      destruct i as [|[|[|i]]]; simpl in Hf; simplify_eq; done.
    + rewrite Forall_lookup in Hd3. specialize (Hd3 (j - 3)%nat g). rewrite lookup_drop in Hd3.
      replace (3 + (j - 3))%nat with j in Hd3 by lia. specialize (Hd3 Hg). unfold regular in Hd3. congruence.
  - rewrite Hp, Ht. split; [apply (bool_decide_eq_true_1 (NoDup _)); vm_compute; reflexivity|left].
    apply (bool_decide_eq_true_1 (Forall _ _)). vm_compute. reflexivity.
Qed.

Lemma sample_requests_ok : Forall (sends_ok 300) sample_requests.
Proof.
  assert (forall n v b, bytes_ok (hf_Name (mkHF (str n) (str v) b)) /\ bytes_ok (hf_Value (mkHF (str n) (str v) b))) as Hb
    by (intros n v b; split; apply str_ok).
  apply List.Forall_cons; [|apply List.Forall_cons; [|apply List.Forall_nil]]; (split; [by split|]);
    match goal with |- message_ok _ ?fs => destruct (three_pseudos fs) as [H1 H2];
      [vm_compute; reflexivity|vm_compute; reflexivity|repeat constructor|] end.
  all: split; [done| |exact H1|exact H2| |vm_compute; congruence].
  all: cbn [m_fields].
  1,3: repeat (apply List.Forall_cons; [by split|]); apply List.Forall_nil.
  all: repeat (apply List.Forall_cons; [apply Hb|]); apply List.Forall_nil.
Qed.

Lemma requests_received_witness :
  exists e d ctx mhs, NewEncoder = Some e /\ NewDecoder 4096 = Some d /\
    send_all (request_headers 5) (mkCtx false [] e []) sample_requests = Some ctx /\
    receive 32 2 (mkMF (NewFramer (cx_w ctx)) d 300) = Some mhs /\ Forall2 delivered sample_requests mhs.
Proof.
  assert (exists e, NewEncoder = Some e) as [e He] by (eexists; vm_compute; reflexivity).
  assert (exists d, NewDecoder 4096 = Some d) as [d Hd] by (eexists; vm_compute; reflexivity).
  destruct (requests_received 32 300 5 sample_requests e d) as (ctx & mhs & Es & Er & Hall);
    [by left|vm_compute; intuition congruence|lia|exact He|exact Hd|apply sample_requests_ok|vm_compute; reflexivity|].
  exists e, d, ctx, mhs. split; [exact He|]. split; [exact Hd|]. split; [exact Es|]. split; [exact Er|exact Hall].
Defined.
