(* ===== verification/WriteSched.v ===== *)
(** * Package http2: write queues and the random write scheduler

    Models src/http2/writesched.go and src/http2/writesched_random.go: the requests
    to write a frame, how a DATA request is split by the flow-control windows, the
    queues, the [WriteScheduler] interface with its documented contract as laws,
    and the scheduler that ignores priorities.  The order in which Go ranges over a
    map is a choice given to [Pop]. *)

From S2P Require Import Prelude Flow Frame WriteFrames.

(** ** Requests *)
Record stream := mkStream {
  s_id : Z;                       (* uint32 *)
  s_flow : flow_ptr               (* the address of its flow *)
}.

Record FrameWriteRequest := mkFWR {
  wr_write : option writeFramer;   (* nil in the zero value *)
  wr_stream : option stream;
  wr_done : option nat            (* the channel *)
}.

#[global] Instance stream_eq_dec : EqDecision stream.
Proof. solve_decision. Defined.
#[global] Instance FrameWriteRequest_eq_dec : EqDecision FrameWriteRequest.
Proof. solve_decision. Defined.

(** The zero value [FrameWriteRequest{}]. *)
Definition emptyRequest : FrameWriteRequest := mkFWR None None None.

Definition StreamID (wr : FrameWriteRequest) : Z :=
  match wr_stream wr with
  | None => match wr_write wr with Some (writeStreamError id _) => id | _ => 0 end
  | Some s => s_id s
  end.

Definition isControl (wr : FrameWriteRequest) : bool :=
  match wr_stream wr with None => true | Some _ => false end.

Definition DataSize (wr : FrameWriteRequest) : Z :=
  match wr_write wr with Some (writeData _ p _) => zlen p | _ => 0 end.

(** [Consume]: the windows afterwards and the three results; [None] is a nil
    dereference or the panic of [take].  [maxFrameSize] is [wr.stream.sc.maxFrameSize]. *)
Definition Consume (maxFrameSize : Z) (fl : flows) (wr : FrameWriteRequest) (n : Z)
  : option (flows * (FrameWriteRequest * FrameWriteRequest * Z)) :=
  match wr_write wr with
  | Some (writeData streamID p endStream) =>
      if zlen p =? 0 then Some (fl, (wr, emptyRequest, 1))
      else
        s ← wr_stream wr;
        allowed ← flow_available fl (s_flow s);
        let allowed := if n <? allowed then n else allowed in
        let allowed := if maxFrameSize <? allowed then maxFrameSize else allowed in
        if allowed <=? 0 then Some (fl, (emptyRequest, emptyRequest, 0))
        else if zlen p >? allowed then
          fl ← flow_take fl (s_flow s) allowed;
          let consumed := mkFWR (Some (writeData streamID (take (Z.to_nat allowed) p) false)) (Some s) None in
          let rest := mkFWR (Some (writeData streamID (drop (Z.to_nat allowed) p) endStream)) (Some s) (wr_done wr) in
          Some (fl, (consumed, rest, 2))
        else
          fl ← flow_take fl (s_flow s) (i32 (zlen p));
          Some (fl, (wr, emptyRequest, 1))
  | _ => Some (fl, (wr, emptyRequest, 1))
  end.

(** ** Queues *)
Abbreviation writeQueue := (list FrameWriteRequest).

Definition queue_empty (q : writeQueue) : bool := zlen q =? 0.
Definition queue_push (q : writeQueue) (wr : FrameWriteRequest) : writeQueue := q ++ [wr].

(** [None] is the panic "invalid use of queue". *)
Definition queue_shift (q : writeQueue) : option (writeQueue * FrameWriteRequest) :=
  match q with [] => None | wr :: q' => Some (q', wr) end.

Definition queue_consume (maxFrameSize : Z) (fl : flows) (q : writeQueue) (n : Z)
  : option (flows * writeQueue * (FrameWriteRequest * bool)) :=
  match q with
  | [] => Some (fl, q, (emptyRequest, false))
  | wr :: q' =>
      '(fl, (consumed, rest, numresult)) ← Consume maxFrameSize fl wr n;
      if numresult =? 0 then Some (fl, q, (emptyRequest, false))
      else if numresult =? 1 then
        '(q, _) ← queue_shift q;
        Some (fl, q, (consumed, true))
      else if numresult =? 2 then Some (fl, rest :: q', (consumed, true))
      else Some (fl, q, (consumed, true))
  end.

(** The pool keeps emptied queues. *)
Abbreviation writeQueuePool := (list writeQueue).

Definition pool_put (p : writeQueuePool) (q : writeQueue) : writeQueuePool :=
  p ++ [take 0 (map (fun _ => emptyRequest) q)].

Definition pool_get (p : writeQueuePool) : writeQueuePool * writeQueue :=
  match last p with
  | None => (p, [])
  | Some q => (take (length p - 1) p, q)
  end.

Definition MaxInt32 : Z := 2 ^ 31 - 1.

(** ** The interface

    [C] is what the environment may choose in a [Pop]. *)
Class WriteScheduler (S C : Type) := {
  ws_OpenStream : S -> Z -> Z -> option S;              (* streamID, options.PusherID *)
  ws_CloseStream : S -> Z -> option S;
  ws_AdjustStream : S -> Z -> PriorityParam -> option S;
  ws_Push : S -> FrameWriteRequest -> option S;
  ws_Pop : C -> Z -> flows -> S -> option (flows * S * (FrameWriteRequest * bool))
}.

(** ** The random scheduler *)
Record randomWriteScheduler := mkRandom {
  rs_zero : writeQueue;
  rs_sq : gmap Z writeQueue;
  rs_queuePool : writeQueuePool
}.

Definition NewRandomWriteScheduler : randomWriteScheduler := mkRandom [] ∅ [].

Definition random_CloseStream (ws : randomWriteScheduler) (streamID : Z) : option randomWriteScheduler :=
  match rs_sq ws !! streamID with
  | None => Some ws
  | Some q => Some (mkRandom (rs_zero ws) (delete streamID (rs_sq ws)) (pool_put (rs_queuePool ws) q))
  end.

Definition random_Push (ws : randomWriteScheduler) (wr : FrameWriteRequest) : option randomWriteScheduler :=
  if isControl wr then Some (mkRandom (queue_push (rs_zero ws) wr) (rs_sq ws) (rs_queuePool ws))
  else
    let id := StreamID wr in
    let '(pool, q) := match rs_sq ws !! id with
                      | Some q => (rs_queuePool ws, q)
                      | None => pool_get (rs_queuePool ws)
                      end in
    Some (mkRandom (rs_zero ws) (<[id := queue_push q wr]> (rs_sq ws)) pool).

(** The loop over the map, whose keys come in the order [ids]. *)
Fixpoint random_popLoop (maxFrameSize : Z) (fl : flows) (ws : randomWriteScheduler) (ids : list Z)
  : option (flows * randomWriteScheduler * (FrameWriteRequest * bool)) :=
  match ids with
  | [] => Some (fl, ws, (emptyRequest, false))
  | streamID :: ids' =>
      q ← rs_sq ws !! streamID;
      '(fl, q, (wr, ok)) ← queue_consume maxFrameSize fl q MaxInt32;
      if (ok : bool) then
        Some (fl,
              if queue_empty q
              then mkRandom (rs_zero ws) (delete streamID (rs_sq ws)) (pool_put (rs_queuePool ws) q)
              else mkRandom (rs_zero ws) (<[streamID := q]> (rs_sq ws)) (rs_queuePool ws),
              (wr, true))
      else random_popLoop maxFrameSize fl (mkRandom (rs_zero ws) (<[streamID := q]> (rs_sq ws)) (rs_queuePool ws)) ids'
  end.

Definition random_Pop (order : gmap Z writeQueue -> list Z) (maxFrameSize : Z) (fl : flows)
    (ws : randomWriteScheduler) : option (flows * randomWriteScheduler * (FrameWriteRequest * bool)) :=
  if negb (queue_empty (rs_zero ws)) then
    '(q, wr) ← queue_shift (rs_zero ws);
    Some (fl, mkRandom q (rs_sq ws) (rs_queuePool ws), (wr, true))
  else random_popLoop maxFrameSize fl ws (order (rs_sq ws)).

#[global] Instance random_scheduler : WriteScheduler randomWriteScheduler (gmap Z writeQueue -> list Z) := {
  ws_OpenStream := fun ws _ _ => Some ws;
  ws_CloseStream := random_CloseStream;
  ws_AdjustStream := fun ws _ _ => Some ws;
  ws_Push := random_Push;
  ws_Pop := random_Pop
}.

(** ** What a request carries

    The bytes of a DATA request one by one, then its end (END_STREAM and the waiting
    writer); any other frame as a whole.  A split DATA request carries the same. *)
Inductive event :=
| EByte (streamID b : Z)
| EEnd (streamID : Z) (endStream : bool) (done : option nat)
| EFrame (wr : FrameWriteRequest).

Definition carried (wr : FrameWriteRequest) : list event :=
  match wr_write wr with
  | Some (writeData id p es) =>
      map (EByte id) p ++
      (if es || bool_decide (wr_done wr <> None) || bool_decide (p = []) then [EEnd id es (wr_done wr)] else [])
  | _ => [EFrame wr]
  end.

(** The queue a request belongs to: a stream's, or the control frames'. *)
Definition key (wr : FrameWriteRequest) : option Z := s_id <$> wr_stream wr.

(** A stream's window is in the store, and DATA has a stream. *)
Definition request_ok (fl : flows) (wr : FrameWriteRequest) : Prop :=
  match wr_stream wr with
  | Some s => is_Some (fl !! s_flow s)
  | None => DataSize wr = 0
  end.

Definition same_windows (fl fl' : flows) : Prop := forall f, is_Some (fl !! f) <-> is_Some (fl' !! f).

(** The windows pay for what is sent. *)
Definition paid (maxFrameSize : Z) (fl fl' : flows) (wr : FrameWriteRequest) : Prop :=
  (DataSize wr = 0 /\ fl' = fl) \/
  (exists s, wr_stream wr = Some s /\ 0 < DataSize wr <= maxFrameSize /\
     flow_take fl (s_flow s) (DataSize wr) = Some fl').

(** A request the windows or the frame size hold back. *)
Definition blocked (maxFrameSize : Z) (fl : flows) (wr : FrameWriteRequest) : Prop :=
  0 < DataSize wr /\ exists s a, wr_stream wr = Some s /\ flow_available fl (s_flow s) = Some a /\
    Z.min a maxFrameSize <= 0.

(** ** Theory: consuming a request *)
Lemma same_windows_refl fl : same_windows fl fl.
Proof. done. Qed.

Lemma same_windows_trans fl1 fl2 fl3 : same_windows fl1 fl2 -> same_windows fl2 fl3 -> same_windows fl1 fl3.
Proof. intros H1 H2 f. by rewrite (H1 f). Qed.

Lemma request_ok_same fl fl' wr : same_windows fl fl' -> request_ok fl wr -> request_ok fl' wr.
Proof. unfold request_ok. intros H. destruct (wr_stream wr); [apply H|done]. Qed.

Lemma flow_available_total fl f :
  flows_ok fl -> is_Some (fl !! f) -> exists a, flow_available fl f = Some a /\ is_i32 a.
Proof.
  intros Hok [fl0 Hf]. destruct (Hok f fl0 Hf) as [Hi Hc]. unfold flow_available. rewrite Hf. simpl.
  destruct (f_conn fl0) as [c|]; [|eauto]. destruct Hc as (cf & Hcf & Hn). rewrite Hcf. simpl.
  destruct (Hok c cf Hcf) as [Hci _]. destruct (f_n cf <? f_n fl0); eauto.
Qed.

(** A take the windows cover succeeds. *)
Lemma flow_take_total fl f n a :
  flows_ok fl -> is_Some (fl !! f) -> flow_available fl f = Some a -> 0 <= n <= a ->
  exists fl', flow_take fl f n = Some fl' /\ flows_ok fl' /\ same_windows fl fl'.
Proof.
  intros Hok Hf Ha Hn.
  assert (exists fl', flow_take fl f n = Some fl') as [fl' E].
  { unfold flow_take. rewrite Ha. simpl. rewrite Z.gtb_ltb. destruct (Z.ltb_spec a n); [lia|].
    destruct Hf as [x Hx]. unfold sub_n. rewrite Hx. simpl. rewrite lookup_insert_eq. simpl.
    destruct (f_conn x) as [c|] eqn:Ec; [|eauto].
    destruct (flows_ok_conn fl f x c Hok Hx Ec) as [Hne (cf & Hcf & _)].
    rewrite lookup_insert_ne, Hcf by done. simpl. eauto. }
  exists fl'. destruct (flow_take_spec fl f n fl' Hok ltac:(lia) Hf E) as [Hok' Hg].
  split; [done|]. split; [done|]. intros g. split.
  - intros [gl Hgl]. specialize (Hg g gl Hgl). destruct (window_of fl f g); [destruct Hg as [_ ->]|rewrite Hg]; eauto.
  - intros Hs. destruct (fl !! g) as [gl|] eqn:Eg; [eauto|].
    rewrite (flow_take_dom _ _ _ _ _ E Eg) in Hs. by destruct Hs.
Qed.

(** What [Consume] does: nothing, because the windows are closed; the whole request;
    or a split that carries the same. *)
Inductive consumed_as (maxFrameSize n : Z) (fl : flows) (wr : FrameWriteRequest)
  : flows -> FrameWriteRequest * FrameWriteRequest * Z -> Prop :=
| consumed_none s a :
    0 < DataSize wr -> wr_stream wr = Some s -> flow_available fl (s_flow s) = Some a ->
    Z.min (Z.min a n) maxFrameSize <= 0 ->
    consumed_as maxFrameSize n fl wr fl (emptyRequest, emptyRequest, 0)
| consumed_whole fl' :
    paid maxFrameSize fl fl' wr -> DataSize wr = 0 \/ DataSize wr <= n ->
    consumed_as maxFrameSize n fl wr fl' (wr, emptyRequest, 1)
| consumed_split fl' c r :
    carried wr = carried c ++ carried r -> wr_stream c = wr_stream wr -> wr_stream r = wr_stream wr ->
    DataSize wr = DataSize c + DataSize r -> 0 < DataSize c <= n -> 0 < DataSize r ->
    wr_done c = None -> wr_done r = wr_done wr ->
    paid maxFrameSize fl fl' c ->
    consumed_as maxFrameSize n fl wr fl' (c, r, 2).

Lemma carried_split id p es s d m :
  (0 < m < length p)%nat ->
  carried (mkFWR (Some (writeData id p es)) s d) =
  carried (mkFWR (Some (writeData id (take m p) false)) s None) ++ carried (mkFWR (Some (writeData id (drop m p) es)) s d).
Proof.
  intros Hm. unfold carried. simpl.
  assert (take m p <> []) by (intros E; apply (f_equal length) in E; rewrite length_take in E; simpl in E; lia).
  assert (drop m p <> []) by (intros E; apply (f_equal length) in E; rewrite length_drop in E; simpl in E; lia).
  assert (p <> []) by (destruct p; simpl in Hm; [lia|done]).
  rewrite (bool_decide_eq_false_2 (p = [])), (bool_decide_eq_false_2 (take m p = [])),
    (bool_decide_eq_false_2 (drop m p = [])) by done.
  simpl.
  rewrite app_nil_r, app_assoc, <- map_app, take_drop. done.
Qed.

Lemma Consume_ok maxFrameSize fl wr n :
  flows_ok fl -> request_ok fl wr ->
  exists fl' r, Consume maxFrameSize fl wr n = Some (fl', r) /\ flows_ok fl' /\ same_windows fl fl' /\
    consumed_as maxFrameSize n fl wr fl' r.
Proof.
  intros Hok Hrq. unfold Consume.
  assert (DataSize wr = 0 -> exists fl' r, Some (fl, (wr, emptyRequest, 1)) = Some (fl', r) /\ flows_ok fl' /\
            same_windows fl fl' /\ consumed_as maxFrameSize n fl wr fl' r) as Hwhole.
  { intros Hz. eexists _, _. split; [done|]. split; [done|]. split; [done|].
    apply consumed_whole; [by left|by left]. }
  destruct (wr_write wr) as [[| | |id p es| | | | | | | |]|] eqn:Ew; try (apply Hwhole; unfold DataSize; by rewrite Ew).
  assert (DataSize wr = zlen p) as Hds by (unfold DataSize; by rewrite Ew).
  destruct (Z.eqb_spec (zlen p) 0) as [Hz|Hz]; [apply Hwhole; lia|].
  unfold request_ok in Hrq. destruct (wr_stream wr) as [s|] eqn:Es; [|lia]. simpl.
  destruct (flow_available_total fl (s_flow s) Hok Hrq) as (a & Ha & Hai). rewrite Ha. simpl.
  set (al := if maxFrameSize <? _ then _ else _).
  assert (al = Z.min (Z.min a n) maxFrameSize) as Hal.
  { unfold al. destruct (Z.ltb_spec n a); destruct (Z.ltb_spec maxFrameSize n), (Z.ltb_spec maxFrameSize a); lia. }
  clearbody al. pose proof (zlen_nonneg p).
  destruct (Z.leb_spec al 0) as [Hle|Hgt].
  { eexists _, _. split; [done|]. split; [done|]. split; [done|].
    apply (consumed_none _ _ _ _ s a); [lia|done|done|lia]. }
  rewrite Z.gtb_ltb. destruct (Z.ltb_spec al (zlen p)) as [Hlt|Hge].
  - destruct (flow_take_total fl (s_flow s) al a Hok Hrq Ha ltac:(lia)) as (fl' & E & Hok' & Hsame).
    rewrite E. simpl. eexists _, _. split; [done|]. split; [done|]. split; [done|].
    assert (zlen (take (Z.to_nat al) p) = al) by (unfold zlen in *; rewrite length_take; lia).
    assert (zlen (drop (Z.to_nat al) p) = zlen p - al) by (unfold zlen in *; rewrite length_drop; lia).
    destruct wr as [w st d]. simpl in *. subst w st.
    apply consumed_split; unfold DataSize; simpl; try done; try lia.
    + apply carried_split. unfold zlen in *. lia.
    + right. exists s. unfold DataSize; simpl. split; [done|]. split; [lia|].
      by replace (zlen (take (Z.to_nat al) p)) with al by lia.
  - assert (i32 (zlen p) = zlen p) as -> by (apply i32_id; unfold is_i32 in *; lia).
    destruct (flow_take_total fl (s_flow s) (zlen p) a Hok Hrq Ha ltac:(lia)) as (fl' & E & Hok' & Hsame).
    rewrite E. simpl. eexists _, _. split; [done|]. split; [done|]. split; [done|].
    apply consumed_whole; [|right; lia].
    right. exists s. rewrite Hds. split; [done|]. split; [lia|done].
Qed.

(** Requests that may wait in the queue [k]. *)
Definition queued (fl : flows) (k : option Z) (wr : FrameWriteRequest) : Prop :=
  key wr = k /\ request_ok fl wr.

Definition queue_carried (q : writeQueue) : list event := flat_map carried q.

Lemma queued_same fl fl' k q : same_windows fl fl' -> Forall (queued fl k) q -> Forall (queued fl' k) q.
Proof.
  intros H Hq. eapply Forall_impl; [exact Hq|]. intros wr [Hk Hr]. split; [done|]. by apply (request_ok_same fl).
Qed.

Lemma queue_carried_app q1 q2 : queue_carried (q1 ++ q2) = queue_carried q1 ++ queue_carried q2.
Proof. apply flat_map_app. Qed.

Lemma paid_same maxFrameSize fl fl' wr :
  flows_ok fl -> request_ok fl wr -> paid maxFrameSize fl fl' wr -> same_windows fl fl' /\ flows_ok fl'.
Proof.
  intros Hok Hr [[_ ->]|(s & Hs & _ & E)]; [done|].
  unfold request_ok in Hr. rewrite Hs in Hr.
  unfold flow_take in E. destruct (flow_available fl (s_flow s)) as [a|] eqn:Ea; [|done]. simpl in E.
  rewrite Z.gtb_ltb in E. destruct (Z.ltb_spec a (DataSize wr)); [done|].
  assert (0 <= DataSize wr) by (unfold DataSize; destruct (wr_write wr) as [[]|]; try lia; apply zlen_nonneg).
  destruct (flow_take_total fl (s_flow s) (DataSize wr) a Hok Hr Ea ltac:(lia)) as (fl2 & E2 & Hok2 & Hs2).
  unfold flow_take in E2. rewrite Ea in E2. simpl in E2. rewrite Z.gtb_ltb in E2.
  destruct (Z.ltb_spec a (DataSize wr)); [lia|]. rewrite E2 in E. by injection E as ->.
Qed.

(** A DATA request cut in two: the writer that waits is answered after the second part. *)
Definition split_of (hd c r : FrameWriteRequest) : Prop :=
  carried hd = carried c ++ carried r /\ wr_stream c = wr_stream hd /\ wr_stream r = wr_stream hd /\
  wr_done c = None /\ wr_done r = wr_done hd /\ DataSize hd = DataSize c + DataSize r /\ 0 < DataSize c /\ 0 < DataSize r.

(** [q'] is [q] after [wr] was taken from its front, whole or in part. *)
Definition sent (q : writeQueue) (wr : FrameWriteRequest) (q' : writeQueue) : Prop :=
  exists hd tl, q = hd :: tl /\ ((wr = hd /\ q' = tl) \/ exists r, q' = r :: tl /\ split_of hd wr r).

Lemma sent_key hd tl wr q' : sent (hd :: tl) wr q' -> key wr = key hd.
Proof. intros (? & ? & [= <- <-] & [[-> _]|(r & _ & _ & E & _)]); [done|]. unfold key. by rewrite E. Qed.

(** The front of [q] is held back. *)
Definition held (maxFrameSize : Z) (fl : flows) (q : writeQueue) : Prop :=
  exists hd tl, q = hd :: tl /\ blocked maxFrameSize fl hd.

(** [consume] on a queue: something leaves its front and is paid for, or the front is
    held back and nothing changes. *)
Lemma queue_consume_front maxFrameSize fl q n :
  flows_ok fl -> Forall (request_ok fl) q -> 0 < n ->
  exists fl' q' wr ok, queue_consume maxFrameSize fl q n = Some (fl', q', (wr, ok)) /\
    flows_ok fl' /\ same_windows fl fl' /\ Forall (request_ok fl') q' /\
    (if ok then sent q wr q' /\ request_ok fl wr /\ paid maxFrameSize fl fl' wr /\ (DataSize wr = 0 \/ DataSize wr <= n)
     else fl' = fl /\ q' = q /\ (q = [] \/ held maxFrameSize fl q)).
Proof.
  intros Hok Hq Hn. destruct q as [|hd tl].
  { eexists _, _, _, _. split; [done|]. split_and!; try done. by left. }
  apply Forall_cons in Hq as [Hrq Htl]. simpl.
  assert (forall fl', same_windows fl fl' -> Forall (request_ok fl') tl) as Hsame'.
  { intros fl' Hs. eapply Forall_impl; [exact Htl|]. intros. by apply (request_ok_same fl). }
  destruct (Consume_ok maxFrameSize fl hd n Hok Hrq) as (fl' & [[c r] num] & E & Hok' & Hsame & Hc).
  rewrite E. simpl. inversion Hc; subst; simpl; eexists _, _, _, _; (split; [done|]); split_and!; auto.
  - right. exists hd, tl. split; [done|]. split; [done|]. exists s, a. split_and!; try done. lia.
  - eexists _, _. split; [done|]. by left.
  - constructor; [|by apply Hsame'].
    apply (request_ok_same fl); [done|]. unfold request_ok in *. replace (wr_stream r) with (wr_stream hd).
    destruct (wr_stream hd); [done|lia].
  - exists hd, tl. split; [done|]. right. exists r. split; [done|]. unfold split_of. split_and!; (done || lia).
  - unfold request_ok in *. replace (wr_stream c) with (wr_stream hd). destruct (wr_stream hd); [done|lia].
  - right. lia.
Qed.

Lemma sent_carried q wr q' : sent q wr q' -> queue_carried q = carried wr ++ queue_carried q'.
Proof.
  intros (hd & tl & -> & [[-> ->]|(r & -> & E & _)]); [done|].
  unfold queue_carried. simpl. by rewrite E, <- app_assoc.
Qed.

(** For a queue of one stream, or of the control frames. *)
Lemma queue_consume_ok maxFrameSize fl k q n :
  flows_ok fl -> Forall (queued fl k) q -> 0 < n ->
  exists fl' q' wr ok, queue_consume maxFrameSize fl q n = Some (fl', q', (wr, ok)) /\
    flows_ok fl' /\ same_windows fl fl' /\ Forall (queued fl' k) q' /\
    (if ok then queue_carried q = carried wr ++ queue_carried q' /\ key wr = k /\ request_ok fl wr /\
                paid maxFrameSize fl fl' wr
     else fl' = fl /\ q' = q /\ (q = [] \/ held maxFrameSize fl q)).
Proof.
  intros Hok Hq Hn. assert (Forall (request_ok fl) q /\ Forall (fun wr => key wr = k) q) as [Hr Hk].
  { split; (eapply Forall_impl; [exact Hq|]); by intros wr []. }
  destruct (queue_consume_front maxFrameSize fl q n Hok Hr Hn) as (fl' & q' & wr & ok & E & Hok' & Hsame & Hr' & H).
  exists fl', q', wr, ok. split; [done|]. split; [done|]. split; [done|].
  assert (Forall (fun wr => key wr = k) q' /\ (ok = true -> key wr = k)) as [Hk' Hkw].
  { destruct ok; [|by destruct H as (-> & -> & _)].
    destruct H as [(hd & tl & -> & Hs) _]. apply Forall_cons in Hk as [Hkh Hkt]. unfold key in *.
    destruct Hs as [[-> ->]|(r & -> & _ & E1 & E2 & _)]; [done|]. rewrite E1, <- E2 in *. split; [by constructor|done]. }
  split.
  { apply Forall_forall. intros x Hx. rewrite Forall_forall in Hk', Hr'. split; auto. }
  destruct ok; [|done]. destruct H as (Hs & Hrq & Hpaid & _). split; [by apply sent_carried|]. auto.
Qed.

(** ** The contract

    The documentation of [WriteScheduler] as laws over what waits in each queue:
    [Push] appends, [Pop] takes from the front of one queue and pays for it, or
    answers that nothing can be written, and only [CloseStream] discards. *)
Class SchedulerLaws (S C : Type) `{WriteScheduler S C} := {
  ws_ok : flows -> S -> Prop;
  ws_choice : C -> Prop;
  ws_pending : S -> option Z -> list event;
  ws_ok_windows fl fl' s : same_windows fl fl' -> ws_ok fl s -> ws_ok fl' s;
  ws_push_law fl s wr : ws_ok fl s -> request_ok fl wr ->
    exists s', ws_Push s wr = Some s' /\ ws_ok fl s' /\
      forall k, ws_pending s' k = ws_pending s k ++ (if decide (key wr = k) then carried wr else []);
  ws_adjust_law fl s id prio : ws_ok fl s -> id <> 0 ->
    exists s', ws_AdjustStream s id prio = Some s' /\ ws_ok fl s' /\
      forall k, ws_pending s' k = ws_pending s k;
  ws_close_law fl s id : ws_ok fl s ->
    exists s', ws_CloseStream s id = Some s' /\ ws_ok fl s' /\
      forall k, ws_pending s' k = if decide (k = Some id) then [] else ws_pending s k;
  ws_pop_law c maxFrameSize fl s : ws_ok fl s -> flows_ok fl -> ws_choice c ->
    exists fl' s' wr ok, ws_Pop c maxFrameSize fl s = Some (fl', s', (wr, ok)) /\ ws_ok fl' s' /\
      if (ok : bool) then request_ok fl wr /\ paid maxFrameSize fl fl' wr /\
        forall k, ws_pending s k = (if decide (key wr = k) then carried wr else []) ++ ws_pending s' k
      else fl' = fl /\ forall k, ws_pending s' k = ws_pending s k
}.

(** ** Runs against the interface *)
Section Runs.
Context {S C : Type} `{SchedulerLaws S C} (maxFrameSize : Z).

Inductive ws_op :=
| OpPush (wr : FrameWriteRequest)
| OpPop (c : C)
| OpClose (id : Z)
| OpAdjust (id : Z) (prio : PriorityParam)
| OpCredit (f : flow_ptr) (n : Z).           (* WINDOW_UPDATE *)

Definition ws_step (fl : flows) (s : S) (op : ws_op) : option (flows * S * option FrameWriteRequest) :=
  match op with
  | OpPush wr => s ← ws_Push s wr; Some (fl, s, None)
  | OpPop c =>
      '(fl, s, (wr, ok)) ← ws_Pop c maxFrameSize fl s;
      Some (fl, s, if (ok : bool) then Some wr else None)
  | OpClose id => s ← ws_CloseStream s id; Some (fl, s, None)
  | OpAdjust id prio => s ← ws_AdjustStream s id prio; Some (fl, s, None)
  | OpCredit f n => '(fl, _) ← flow_add fl f n; Some (fl, s, None)
  end.

Fixpoint ws_run (fl : flows) (s : S) (ops : list ws_op) : option (flows * S * list (option FrameWriteRequest)) :=
  match ops with
  | [] => Some (fl, s, [])
  | op :: ops =>
      '(fl, s, r) ← ws_step fl s op;
      '(fl, s, rs) ← ws_run fl s ops;
      Some (fl, s, r :: rs)
  end.

Definition ws_op_ok (fl : flows) (op : ws_op) : Prop :=
  match op with
  | OpPush wr => request_ok fl wr
  | OpPop c => ws_choice c
  | OpClose _ => True
  | OpAdjust id _ => id <> 0
  | OpCredit f n => is_Some (fl !! f) /\ is_i32 n
  end.

(** What was pushed to queue [k], and what was popped from it, since it was closed. *)
Definition pushed1 (k : option Z) (acc : list event) (op : ws_op) : list event :=
  match op with
  | OpPush wr => acc ++ (if decide (key wr = k) then carried wr else [])
  | OpClose id => if decide (k = Some id) then [] else acc
  | _ => acc
  end.

Definition popped1 (k : option Z) (acc : list event) (op : ws_op) (r : option FrameWriteRequest) : list event :=
  match op, r with
  | OpPop _, Some wr => acc ++ (if decide (key wr = k) then carried wr else [])
  | OpClose id, _ => if decide (k = Some id) then [] else acc
  | _, _ => acc
  end.

Fixpoint pushed (k : option Z) (acc : list event) (ops : list ws_op) : list event :=
  match ops with [] => acc | op :: ops => pushed k (pushed1 k acc op) ops end.

Fixpoint popped (k : option Z) (acc : list event) (ops : list ws_op) (rs : list (option FrameWriteRequest)) : list event :=
  match ops, rs with
  | op :: ops, r :: rs => popped k (popped1 k acc op r) ops rs
  | _, _ => acc
  end.

(** What the run does to the windows. *)
Definition window_op (op : ws_op) (r : option FrameWriteRequest) : list flow_op :=
  match op, r with
  | OpCredit f n, _ => [Add f n]
  | OpPop _, Some wr =>
      match wr_stream wr with
      | Some s => if DataSize wr =? 0 then [] else [Take (s_flow s) (DataSize wr)]
      | None => []
      end
  | _, _ => []
  end.

Fixpoint window_ops (ops : list ws_op) (rs : list (option FrameWriteRequest)) : list flow_op :=
  match ops, rs with
  | op :: ops, r :: rs => window_op op r ++ window_ops ops rs
  | _, _ => []
  end.

Lemma ws_op_ok_same fl fl' op : same_windows fl fl' -> ws_op_ok fl op -> ws_op_ok fl' op.
Proof.
  intros Hs. destruct op; simpl; try done; [by apply request_ok_same|]. intros [Hf Hn]. split; [by apply Hs|done].
Qed.

Lemma ws_step_ok fl s op :
  flows_ok fl -> ws_ok fl s -> ws_op_ok fl op ->
  exists fl' s' r oks, ws_step fl s op = Some (fl', s', r) /\ flows_ok fl' /\ same_windows fl fl' /\ ws_ok fl' s' /\
    flow_run fl (window_op op r) = Some (fl', oks) /\
    (forall wr, r = Some wr -> DataSize wr = 0 \/ DataSize wr <= maxFrameSize) /\
    forall k acc1 acc2, acc1 ++ ws_pending s k = acc2 ->
      popped1 k acc1 op r ++ ws_pending s' k = pushed1 k acc2 op.
Proof.
  intros Hfl Hs Hop. destruct op as [wr|c|id|id prio|f n]; simpl in *.
  - destruct (ws_push_law fl s wr Hs Hop) as (s' & E & Hs' & Hp). rewrite E. simpl.
    eexists _, _, _, _. split_and!; try done. intros k acc1 acc2 <-. by rewrite Hp, app_assoc.
  - destruct (ws_pop_law c maxFrameSize fl s Hs Hfl Hop) as (fl' & s' & wr & ok & E & Hs' & Hr). rewrite E. simpl.
    destruct ok.
    + destruct Hr as (Hrq & Hpaid & Hp). destruct (paid_same _ _ _ _ Hfl Hrq Hpaid) as [Hsame Hfl'].
      assert (exists oks, flow_run fl (window_op (OpPop c) (Some wr)) = Some (fl', oks)) as [oks Hw].
      { simpl. destruct Hpaid as [[Hz ->]|(st & Hst & Hd & Et)].
        - rewrite Hz. destruct (wr_stream wr); simpl; eauto.
        - rewrite Hst. destruct (Z.eqb_spec (DataSize wr) 0); [lia|]. simpl. rewrite Et. simpl. eauto. }
      exists fl', s', (Some wr), oks. split_and!; try done.
      * intros w [= <-]. destruct Hpaid as [[? _]|(? & _ & ? & _)]; lia.
      * intros k acc1 acc2 <-. by rewrite Hp, app_assoc.
    + destruct Hr as [-> Hp]. exists fl, s', None, []. split_and!; try done.
      intros k acc1 acc2 <-. by rewrite Hp.
  - destruct (ws_close_law fl s id Hs) as (s' & E & Hs' & Hp). rewrite E. simpl.
    exists fl, s', None, []. split_and!; try done. intros k acc1 acc2 <-. rewrite Hp. by destruct (decide _).
  - destruct (ws_adjust_law fl s id prio Hs Hop) as (s' & E & Hs' & Hp). rewrite E. simpl.
    exists fl, s', None, []. split_and!; try done. intros k acc1 acc2 <-. by rewrite Hp.
  - destruct Hop as [[x Hx] Hn].
    assert (exists fl' ok, flow_add fl f n = Some (fl', ok) /\ flows_ok fl' /\ same_windows fl fl') as (fl' & ok & E & Hok' & Hsame).
    { destruct (flow_add_spec fl f x n Hfl Hx Hn) as [[Hi E]|[Hi E]]; rewrite E; eexists _, _; (split; [done|]); [|done].
      split; [by apply flows_ok_update|]. intros g. destruct (decide (g = f)) as [->|Hne].
      - rewrite lookup_insert_eq, Hx. split; eauto.
      - by rewrite lookup_insert_ne. }
    rewrite E. simpl. exists fl', s, None, [ok]. split_and!; try done. by apply (ws_ok_windows fl).
Qed.

Lemma flow_run_app fl ops1 fl1 oks1 ops2 fl2 oks2 :
  flow_run fl ops1 = Some (fl1, oks1) -> flow_run fl1 ops2 = Some (fl2, oks2) ->
  flow_run fl (ops1 ++ ops2) = Some (fl2, oks1 ++ oks2).
Proof.
  revert fl oks1. induction ops1 as [|op ops1 IH]; intros fl oks1 E1 E2; simpl in *.
  - by injection E1 as <- <-.
  - destruct (flow_step fl op) as [[fl0 ok]|]; simpl in *; [|done].
    destruct (flow_run fl0 ops1) as [[fl0' oks0]|] eqn:E0; simpl in *; [|done]. injection E1 as <- <-.
    by rewrite (IH _ _ E0 E2).
Qed.

(** Nothing is lost, duplicated or reordered, and the windows pay for every byte. *)
Lemma ws_run_ok ops : forall fl s,
  flows_ok fl -> ws_ok fl s -> Forall (ws_op_ok fl) ops ->
  exists fl' s' rs oks, ws_run fl s ops = Some (fl', s', rs) /\
    flow_run fl (window_ops ops rs) = Some (fl', oks) /\
    Forall (fun r => forall wr, r = Some wr -> DataSize wr = 0 \/ DataSize wr <= maxFrameSize) rs /\
    forall k acc1 acc2, acc1 ++ ws_pending s k = acc2 ->
      popped k acc1 ops rs ++ ws_pending s' k = pushed k acc2 ops.
Proof.
  induction ops as [|op ops IH]; intros fl s Hfl Hs Hops; simpl.
  { exists fl, s, [], []. split_and!; try done. }
  apply Forall_cons in Hops as [Hop Hops].
  destruct (ws_step_ok fl s op Hfl Hs Hop) as (fl1 & s1 & r & oks1 & E & Hfl1 & Hsame & Hs1 & Hw & Hd & Hk).
  destruct (IH fl1 s1 Hfl1 Hs1) as (fl2 & s2 & rs & oks2 & E2 & Hw2 & Hd2 & Hk2).
  { eapply Forall_impl; [exact Hops|]. intros. by apply (ws_op_ok_same fl). }
  rewrite E. simpl. rewrite E2. simpl. exists fl2, s2, (r :: rs), (oks1 ++ oks2). split_and!; try done.
  - by eapply flow_run_app.
  - by constructor.
  - intros k acc1 acc2 Ha. apply Hk2. by apply Hk.
Qed.
End Runs.
Arguments ws_op C : clear implicits.

(** ** The random scheduler keeps the contract *)
Definition random_ok (fl : flows) (ws : randomWriteScheduler) : Prop :=
  Forall (queued fl None) (rs_zero ws) /\
  (forall id q, rs_sq ws !! id = Some q -> q <> [] /\ Forall (queued fl (Some id)) q) /\
  Forall (fun q => q = []) (rs_queuePool ws).

Definition random_pending (ws : randomWriteScheduler) (k : option Z) : list event :=
  queue_carried (match k with None => rs_zero ws | Some id => default [] (rs_sq ws !! id) end).

(** The order of a [range] over the map: its keys, each once. *)
Definition map_order (order : gmap Z writeQueue -> list Z) : Prop :=
  forall m, order m ≡ₚ map fst (map_to_list m).

Lemma pool_put_ok p q : Forall (fun q => q = []) p -> Forall (fun q : writeQueue => q = []) (pool_put p q).
Proof. intros H. unfold pool_put. rewrite take_0. apply Forall_app. split; [done|]. by repeat constructor. Qed.

Lemma pool_get_ok p : Forall (fun q : writeQueue => q = []) p ->
  (pool_get p).2 = [] /\ Forall (fun q => q = []) (pool_get p).1.
Proof.
  intros Hp. unfold pool_get. destruct (last p) as [q|] eqn:E; [|done]. simpl. split; [|by apply Forall_take].
  apply last_Some in E as [l ->]. apply Forall_app in Hp as [_ Hq]. by inversion Hq.
Qed.

Lemma key_control wr : isControl wr = true <-> key wr = None.
Proof. unfold isControl, key. by destruct (wr_stream wr). Qed.

Lemma key_stream wr : isControl wr = false -> key wr = Some (StreamID wr).
Proof. unfold isControl, key, StreamID. by destruct (wr_stream wr). Qed.

Lemma random_ok_windows fl fl' ws : same_windows fl fl' -> random_ok fl ws -> random_ok fl' ws.
Proof.
  intros Hsame (Hz & Hsq & Hp). split_and!; [by apply (queued_same fl)| |done].
  intros id q Hq. destruct (Hsq id q Hq). split; [done|]. by apply (queued_same fl).
Qed.

Lemma random_push_law fl ws wr :
  random_ok fl ws -> request_ok fl wr ->
  exists ws', random_Push ws wr = Some ws' /\ random_ok fl ws' /\
    forall k, random_pending ws' k = random_pending ws k ++ (if decide (key wr = k) then carried wr else []).
Proof.
  intros (Hz & Hsq & Hp) Hrq. unfold random_Push, queue_push. destruct (isControl wr) eqn:Ec.
  - apply key_control in Ec. eexists. split; [done|]. split.
    + split_and!; simpl; [|done|done]. apply Forall_app. by repeat constructor.
    + intros [id|]; unfold random_pending; simpl; rewrite Ec; simpl; [by rewrite app_nil_r|].
      by rewrite queue_carried_app; simpl; rewrite app_nil_r.
  - apply key_stream in Ec. set (id := StreamID wr) in *.
    set (pq := match rs_sq ws !! id with Some q => _ | None => _ end).
    assert (exists q, pq.2 = q /\ q = default [] (rs_sq ws !! id) /\ Forall (queued fl (Some id)) q /\
              Forall (fun q => q = []) pq.1) as (q & Eq1 & Eq & Hq & Hp').
    { unfold pq. destruct (rs_sq ws !! id) as [q|] eqn:E.
      - exists q. split_and!; try done. by apply (Hsq id).
      - destruct (pool_get_ok _ Hp) as [E2 H2]. exists []. split_and!; try done. }
    destruct pq as [pool q']. simpl in Eq1, Hp'. subst q'. eexists. split; [done|]. split.
    + split_and!; simpl; [done| |done]. intros id' q' Hl. apply lookup_insert_Some in Hl as [[<- <-]|[Hne Hl]]; [|by apply Hsq].
      split; [by destruct q|]. apply Forall_app. split; [done|]. by repeat constructor.
    + intros [id'|]; unfold random_pending; simpl; rewrite Ec; [|by destruct (decide _); rewrite ?app_nil_r].
      destruct (decide (Some id = Some id')) as [[= <-]|Hne].
      * rewrite lookup_insert_eq. simpl. rewrite queue_carried_app, Eq. simpl. by rewrite app_nil_r.
      * rewrite lookup_insert_ne, app_nil_r by congruence. done.
Qed.

Lemma random_close_law fl ws id :
  random_ok fl ws ->
  exists ws', random_CloseStream ws id = Some ws' /\ random_ok fl ws' /\
    forall k, random_pending ws' k = if decide (k = Some id) then [] else random_pending ws k.
Proof.
  intros (Hz & Hsq & Hp). unfold random_CloseStream. destruct (rs_sq ws !! id) as [q|] eqn:E.
  - eexists. split; [done|]. split.
    + split_and!; simpl; [done| |by apply pool_put_ok]. intros id' q' Hl.
      apply lookup_delete_Some in Hl as [_ Hl]. by apply Hsq.
    + intros [id'|]; unfold random_pending; simpl; [|done].
      destruct (decide (Some id' = Some id)) as [[= ->]|Hne]; [by rewrite lookup_delete_eq|].
      rewrite lookup_delete_ne by congruence. done.
  - exists ws. split; [done|]. split; [done|]. intros k. destruct (decide (k = Some id)) as [->|]; [|done].
    unfold random_pending. by rewrite E.
Qed.

(** The loop over the streams: the first that can send does; none is passed over for
    another reason than its windows. *)
Lemma random_popLoop_ok maxFrameSize fl ids : forall ws,
  flows_ok fl -> random_ok fl ws -> rs_zero ws = [] -> Forall (fun id => is_Some (rs_sq ws !! id)) ids ->
  exists fl' ws' wr ok, random_popLoop maxFrameSize fl ws ids = Some (fl', ws', (wr, ok)) /\ random_ok fl' ws' /\
    if (ok : bool) then request_ok fl wr /\ paid maxFrameSize fl fl' wr /\
      forall k, random_pending ws k = (if decide (key wr = k) then carried wr else []) ++ random_pending ws' k
    else fl' = fl /\ ws' = ws /\
      Forall (fun id => exists hd tl, rs_sq ws !! id = Some (hd :: tl) /\ blocked maxFrameSize fl hd) ids.
Proof.
  induction ids as [|id ids IH]; intros ws Hfl Hws Hz0 Hids; simpl.
  { eexists _, _, _, _. split; [done|]. done. }
  apply Forall_cons in Hids as [[q Hq] Hids]. destruct (Hws) as (Hz & Hsq & Hp). destruct (Hsq id q Hq) as [Hne Hqd].
  rewrite Hq. simpl.
  destruct (queue_consume_ok maxFrameSize fl (Some id) q MaxInt32 Hfl Hqd ltac:(unfold MaxInt32; lia))
    as (fl' & q' & wr & ok & E & Hfl' & Hsame & Hqd' & Hr). rewrite E. simpl. destruct ok.
  - destruct Hr as (Hc & Hk & Hrq & Hpaid). eexists _, _, _, _. split; [done|]. split; [|split; [done|split; [done|]]].
    + apply (random_ok_windows _ _ _ Hsame) in Hws as (_ & Hsq' & _). unfold queue_empty.
      destruct q' as [|hd tl]; simpl; (split_and!; simpl; [by rewrite Hz0| |try done; by apply pool_put_ok]); intros i qi Hi.
      * apply lookup_delete_Some in Hi as [_ Hi]. by apply Hsq'.
      * apply lookup_insert_Some in Hi as [[<- <-]|[_ Hi]]; [done|by apply Hsq'].
    + intros [i|]; unfold random_pending; simpl; rewrite Hk; [|by destruct (queue_empty q')].
      destruct (decide (Some id = Some i)) as [[= <-]|Hne'].
      * rewrite Hq. simpl. rewrite Hc. f_equal. unfold queue_empty. destruct q'; simpl.
        -- by rewrite lookup_delete_eq.
        -- by rewrite lookup_insert_eq.
      * destruct (queue_empty q'); simpl; [rewrite lookup_delete_ne|rewrite lookup_insert_ne]; congruence.
  - destruct Hr as (-> & -> & Hb). rewrite (insert_id (rs_sq ws)) by done.
    replace (mkRandom (rs_zero ws) (rs_sq ws) (rs_queuePool ws)) with ws by (by destruct ws).
    destruct (IH ws Hfl Hws Hz0 Hids) as (fl2 & ws2 & wr2 & ok2 & E2 & Hws2 & Hr2). rewrite E2.
    eexists _, _, _, _. split; [done|]. split; [done|]. destruct ok2; [done|].
    destruct Hr2 as (-> & -> & Hall). split_and!; try done. constructor; [|done].
    destruct Hb as [->|(hd & tl & -> & Hb)]; [done|]. eauto.
Qed.

Lemma map_order_dom order (m : gmap Z writeQueue) :
  map_order order -> Forall (fun id => is_Some (m !! id)) (order m) /\
    forall id q, m !! id = Some q -> id ∈ order m.
Proof.
  intros Ho. split.
  - apply Forall_forall. intros id Hid. rewrite (Ho m), list_elem_of_fmap in Hid.
    destruct Hid as ([i q] & -> & Hi). apply elem_of_map_to_list in Hi. eauto.
  - intros id q Hq. rewrite (Ho m), list_elem_of_fmap. exists (id, q). split; [done|]. by apply elem_of_map_to_list.
Qed.

Lemma random_pop_ok order maxFrameSize fl ws :
  random_ok fl ws -> flows_ok fl -> map_order order ->
  exists fl' ws' wr ok, random_Pop order maxFrameSize fl ws = Some (fl', ws', (wr, ok)) /\ random_ok fl' ws' /\
    if (ok : bool) then request_ok fl wr /\ paid maxFrameSize fl fl' wr /\
      forall k, random_pending ws k = (if decide (key wr = k) then carried wr else []) ++ random_pending ws' k
    else fl' = fl /\ ws' = ws /\ rs_zero ws = [] /\
      forall id q, rs_sq ws !! id = Some q -> exists hd tl, q = hd :: tl /\ blocked maxFrameSize fl hd.
Proof.
  intros Hws Hfl Ho. unfold random_Pop, queue_empty. destruct (rs_zero ws) as [|wr z] eqn:Ez; simpl.
  - destruct (map_order_dom order (rs_sq ws) Ho) as [Hd Hin].
    destruct (random_popLoop_ok maxFrameSize fl _ ws Hfl Hws Ez Hd) as (fl' & ws' & wr & ok & E & Hok & Hr).
    eexists _, _, _, _. split; [exact E|]. split; [done|]. destruct ok; [done|].
    destruct Hr as (-> & -> & Hall). split_and!; try done. intros id q Hq.
    rewrite Forall_forall in Hall. destruct (Hall id (Hin id q Hq)) as (hd & tl & Hq' & Hb). simplify_eq. eauto.
  - destruct Hws as (Hz & Hsq & Hp). rewrite Ez in Hz. apply Forall_cons in Hz as [[Hk Hrq] Hz].
    eexists _, _, _, _. split; [done|]. split; [done|]. split; [done|]. split.
    { left. split; [|done]. unfold request_ok, key in *. by destruct (wr_stream wr). }
    intros [id|]; unfold random_pending; simpl; rewrite Hk; [done|]. by rewrite Ez.
Qed.

#[global] Program Instance random_laws : SchedulerLaws randomWriteScheduler (gmap Z writeQueue -> list Z) := {
  ws_ok := random_ok;
  ws_choice := map_order;
  ws_pending := random_pending
}.
Next Obligation. apply random_ok_windows. Qed.
Next Obligation. apply random_push_law. Qed.
Next Obligation. simpl. intros. eauto. Qed.
Next Obligation. apply random_close_law. Qed.
Next Obligation.
  simpl. intros c mfs fl ws Hws Hfl Ho.
  destruct (random_pop_ok c mfs fl ws Hws Hfl Ho) as (fl' & ws' & wr & ok & E & Hok & Hr).
  exists fl', ws', wr, ok. split; [done|]. split; [done|]. destruct ok; [done|]. by destruct Hr as (-> & -> & _).
Qed.

Definition sample_windows : flows := {[ 0%nat := mkFlow 100 None; 1%nat := mkFlow 5 (Some 0%nat); 3%nat := mkFlow 0 (Some 0%nat) ]}.
Definition sample_stream1 : stream := mkStream 1 1.
Definition sample_stream3 : stream := mkStream 3 3.
Definition sample_data (s : stream) (p : bytes) (es : bool) : FrameWriteRequest :=
  mkFWR (Some (writeData (s_id s) p es)) (Some s) (Some 7%nat).
Definition key_order (m : gmap Z writeQueue) : list Z := map fst (map_to_list m).

Lemma sample_windows_ok : flows_ok sample_windows.
Proof.
  intros f fl Hf. unfold sample_windows in *.
  repeat (apply lookup_insert_Some in Hf as [[<- <-]|[_ Hf]]; [unfold is_i32; simpl; eauto with lia|]).
  apply lookup_singleton_Some in Hf as [<- <-]. unfold is_i32. simpl.
  split; [lia|]. eexists. by split; [reflexivity|].
Qed.

(** C36: the random scheduler keeps the documented contract.  For every sequence of
    pushes, pops, closes, priority changes and window updates on a new scheduler,
    whatever order Go visits the map in: no operation panics; for every stream (and
    for the control frames) what was popped since the stream was last closed,
    followed by what still waits, is exactly what was pushed, in order, split DATA
    frames included; no DATA frame exceeds the maximum frame size; and the windows
    are those of taking exactly the bytes sent. *)
Theorem random_scheduler_contract maxFrameSize fl (ops : list (ws_op (gmap Z writeQueue -> list Z))) :
  flows_ok fl -> Forall (ws_op_ok fl) ops ->
  exists fl' ws rs oks, ws_run maxFrameSize fl NewRandomWriteScheduler ops = Some (fl', ws, rs) /\
    (forall k, popped k [] ops rs ++ ws_pending ws k = pushed k [] ops) /\
    Forall (fun r => forall wr, r = Some wr -> DataSize wr = 0 \/ DataSize wr <= maxFrameSize) rs /\
    flow_run fl (window_ops ops rs) = Some (fl', oks).
Proof.
  intros Hfl Hops.
  destruct (ws_run_ok maxFrameSize ops fl NewRandomWriteScheduler Hfl) as (fl' & ws & rs & oks & E & Hw & Hd & Hk); [|done|].
  { split; [constructor|]. split; [|constructor]. intros id q Hq. simpl in Hq. by rewrite lookup_empty in Hq. }
  exists fl', ws, rs, oks. split_and!; try done. intros k. apply Hk. by destruct k.
Qed.

Lemma random_scheduler_contract_witness :
  let ops := [OpPush (sample_data sample_stream1 [1; 2; 3; 4; 5; 6; 7] true); OpPush (sample_data sample_stream3 [9] false);
              OpPush (mkFWR (Some (writeStreamError 5 8)) None None);
              OpPop key_order; OpPop key_order; OpPop key_order; OpCredit 1 10; OpPop key_order] in
  exists fl' ws rs oks, ws_run 4 sample_windows NewRandomWriteScheduler ops = Some (fl', ws, rs) /\
    (forall k, popped k [] ops rs ++ ws_pending ws k = pushed k [] ops) /\
    Forall (fun r => forall wr, r = Some wr -> DataSize wr = 0 \/ DataSize wr <= 4) rs /\
    flow_run sample_windows (window_ops ops rs) = Some (fl', oks).
Proof.
  intros ops. apply (random_scheduler_contract 4 sample_windows ops sample_windows_ok).
  repeat (apply Forall_cons; split); try apply Forall_nil; try done; simpl; try (by eexists).
  all: by intros m.
Defined.

(** [Pop] gives up only when it must.  When it answers that nothing can be
    written, the scheduler and the windows are unchanged, no control frame waits,
    and the front of every stream's queue is a DATA frame held back by its windows
    (or by a maximum frame size that is not positive); and a waiting control frame
    is always popped before any stream's frame. *)
Theorem random_Pop_work_conserving order maxFrameSize fl ws :
  random_ok fl ws -> flows_ok fl -> map_order order ->
  exists fl' ws' wr ok, random_Pop order maxFrameSize fl ws = Some (fl', ws', (wr, ok)) /\
    (ok = false -> fl' = fl /\ ws' = ws /\ rs_zero ws = [] /\
       forall id q, rs_sq ws !! id = Some q -> exists hd tl, q = hd :: tl /\ blocked maxFrameSize fl hd) /\
    (forall hd tl, rs_zero ws = hd :: tl -> ok = true /\ wr = hd).
Proof.
  intros Hws Hfl Ho. destruct (random_pop_ok order maxFrameSize fl ws Hws Hfl Ho) as (fl' & ws' & wr & ok & E & _ & Hr).
  exists fl', ws', wr, ok. split; [done|]. split; [by intros ->|].
  intros hd tl Hz. unfold random_Pop in E. rewrite Hz in E. simpl in E. by simplify_eq.
Qed.

Lemma random_Pop_work_conserving_witness :
  exists ws, random_Push NewRandomWriteScheduler (sample_data sample_stream3 [9] false) = Some ws /\
  exists fl' ws' wr ok, random_Pop key_order 100 sample_windows ws = Some (fl', ws', (wr, ok)) /\
    (ok = false -> fl' = sample_windows /\ ws' = ws /\ rs_zero ws = [] /\
       forall id q, rs_sq ws !! id = Some q -> exists hd tl, q = hd :: tl /\ blocked 100 sample_windows hd) /\
    (forall hd tl, rs_zero ws = hd :: tl -> ok = true /\ wr = hd).
Proof.
  eexists. split; [reflexivity|]. apply random_Pop_work_conserving; [|apply sample_windows_ok|by intros m].
  split; [constructor|]. split; [|constructor]. intros id q Hq. simpl in Hq.
  apply lookup_insert_Some in Hq as [[<- <-]|[_ Hq]]; [|by rewrite lookup_empty in Hq].
  split; [done|]. repeat constructor. by eexists.
Defined.
