(* ===== verification/PriorityTree.v ===== *)
(** * Package http2: the priority tree

    Models the [priorityNode] of src/http2/writesched_priority.go.  Nodes point to
    each other (parent, first kid, previous and next sibling), so they live in a
    store and every field update is an update of the store.  The theory shows that
    [setParent] maintains the doubly-linked lists of kids and keeps the tree free of
    cycles. *)

From Stdlib Require Import SpecFloat.
From S2P Require Import Prelude Flow Frame WriteFrames WriteSched.

Definition priorityDefaultWeight : Z := 15.

Inductive priorityNodeState := priorityNodeOpen | priorityNodeClosed | priorityNodeIdle.

#[global] Instance priorityNodeState_eq_dec : EqDecision priorityNodeState.
Proof. solve_decision. Defined.

Abbreviation node_ptr := nat.

Record priorityNode := mkNode {
  pn_q : writeQueue;
  pn_id : Z;                       (* uint32 *)
  pn_weight : Z;                   (* uint8 *)
  pn_state : priorityNodeState;
  pn_bytes : Z;                    (* int64 *)
  pn_subtreeBytes : Z;             (* int64 *)
  pn_parent : option node_ptr;
  pn_kids : option node_ptr;
  pn_prev : option node_ptr;
  pn_next : option node_ptr
}.

Abbreviation heap := (gmap nat priorityNode).

(** Assignments to one field. *)
Definition set_q v (n : priorityNode) := mkNode v (pn_id n) (pn_weight n) (pn_state n) (pn_bytes n) (pn_subtreeBytes n) (pn_parent n) (pn_kids n) (pn_prev n) (pn_next n).
Definition set_weight v (n : priorityNode) := mkNode (pn_q n) (pn_id n) v (pn_state n) (pn_bytes n) (pn_subtreeBytes n) (pn_parent n) (pn_kids n) (pn_prev n) (pn_next n).
Definition set_state v (n : priorityNode) := mkNode (pn_q n) (pn_id n) (pn_weight n) v (pn_bytes n) (pn_subtreeBytes n) (pn_parent n) (pn_kids n) (pn_prev n) (pn_next n).
Definition set_bytes v (n : priorityNode) := mkNode (pn_q n) (pn_id n) (pn_weight n) (pn_state n) v (pn_subtreeBytes n) (pn_parent n) (pn_kids n) (pn_prev n) (pn_next n).
Definition set_subtreeBytes v (n : priorityNode) := mkNode (pn_q n) (pn_id n) (pn_weight n) (pn_state n) (pn_bytes n) v (pn_parent n) (pn_kids n) (pn_prev n) (pn_next n).
Definition set_parent v (n : priorityNode) := mkNode (pn_q n) (pn_id n) (pn_weight n) (pn_state n) (pn_bytes n) (pn_subtreeBytes n) v (pn_kids n) (pn_prev n) (pn_next n).
Definition set_kids v (n : priorityNode) := mkNode (pn_q n) (pn_id n) (pn_weight n) (pn_state n) (pn_bytes n) (pn_subtreeBytes n) (pn_parent n) v (pn_prev n) (pn_next n).
Definition set_prev v (n : priorityNode) := mkNode (pn_q n) (pn_id n) (pn_weight n) (pn_state n) (pn_bytes n) (pn_subtreeBytes n) (pn_parent n) (pn_kids n) v (pn_next n).
Definition set_next v (n : priorityNode) := mkNode (pn_q n) (pn_id n) (pn_weight n) (pn_state n) (pn_bytes n) (pn_subtreeBytes n) (pn_parent n) (pn_kids n) (pn_prev n) v.

(** An update through a pointer; [None] is a nil dereference. *)
Definition upd (h : heap) (p : node_ptr) (f : priorityNode -> priorityNode) : option heap :=
  n ← h !! p; Some (<[p := f n]> h).

(** ** Linking *)
Definition unlink (h : heap) (n : node_ptr) : option heap :=
  nd ← h !! n;
  match pn_parent nd with
  | None => Some h
  | Some parent =>
      h ← match pn_prev nd with
          | None => upd h parent (set_kids (pn_next nd))
          | Some prev => upd h prev (set_next (pn_next nd))
          end;
      nd ← h !! n;
      match pn_next nd with
      | Some next => upd h next (set_prev (pn_prev nd))
      | None => Some h
      end
  end.

Definition link (h : heap) (n : node_ptr) (parent : option node_ptr) : option heap :=
  h ← upd h n (set_parent parent);
  match parent with
  | None => h ← upd h n (set_next None); upd h n (set_prev None)
  | Some p =>
      pd ← h !! p;
      h ← upd h n (set_next (pn_kids pd));
      h ← upd h n (set_prev None);
      h ← match pn_kids pd with
          | Some next => upd h next (set_prev (Some n))
          | None => Some h
          end;
      upd h p (set_kids (Some n))
  end.

(** [None] is the panic "setParent to self" or a nil dereference. *)
Definition setParent (h : heap) (n : node_ptr) (parent : option node_ptr) : option heap :=
  if decide (parent = Some n) then None
  else
    nd ← h !! n;
    if decide (pn_parent nd = parent) then Some h
    else h ← unlink h n; link h n parent.

(** [addBytes]: [int64] sums along the path to the root; [fuel] bounds its length. *)
Definition i64 (x : Z) : Z := swrap 64 x.

Fixpoint addSubtreeBytes (fuel : nat) (h : heap) (n : option node_ptr) (b : Z) : option heap :=
  match n with
  | None => Some h
  | Some p =>
      match fuel with
      | O => None
      | S fuel =>
          nd ← h !! p;
          h ← upd h p (set_subtreeBytes (i64 (pn_subtreeBytes nd + b)));
          addSubtreeBytes fuel h (pn_parent nd) b
      end
  end.

Definition addBytes (h : heap) (n : node_ptr) (b : Z) : option heap :=
  nd ← h !! n;
  h ← upd h n (set_bytes (i64 (pn_bytes nd + b)));
  addSubtreeBytes (size h) h (Some n) b.

(** ** The order among siblings

    float64 arithmetic is that of IEEE 754 binary64. *)
Definition float64 (x : Z) : spec_float := binary_normalize 53 1024 x 0 false.
Definition fdiv (a b : spec_float) : spec_float := SFdiv 53 1024 a b.

Definition Less (ni nk : priorityNode) : bool :=
  let wi := float64 (u8 (pn_weight ni + 1)) in
  let bi := float64 (pn_subtreeBytes ni) in
  let wk := float64 (u8 (pn_weight nk + 1)) in
  let bk := float64 (pn_subtreeBytes nk) in
  if SFeqb bi (float64 0) && SFeqb bk (float64 0) then SFleb wk wi
  else if SFeqb bk (float64 0) then false
  else SFleb (fdiv bi bk) (fdiv wi wk).

(** ** The walk *)

(** [for k := ...; k != nil; k = k.next { if k.weight != w { needSort = true; break } }] *)
Fixpoint needSort (fuel : nat) (h : heap) (w : Z) (k : option node_ptr) : option bool :=
  match k with
  | None => Some false
  | Some p =>
      match fuel with
      | O => None
      | S fuel => kd ← h !! p; if negb (pn_weight kd =? w) then Some true else needSort fuel h w (pn_next kd)
      end
  end.

(** [for n.kids != nil { tmp = append(tmp, n.kids); n.kids.setParent(nil) }] *)
Fixpoint detachKids (fuel : nat) (h : heap) (n : node_ptr) (tmp : list node_ptr) : option (heap * list node_ptr) :=
  nd ← h !! n;
  match pn_kids nd with
  | None => Some (h, tmp)
  | Some k =>
      match fuel with
      | O => None
      | S fuel => h ← setParent h k None; detachKids fuel h n (tmp ++ [k])
      end
  end.

(** [for i := len(tmp) - 1; i >= 0; i-- { tmp[i].setParent(n) }], on the reversed slice. *)
Fixpoint attachAll (h : heap) (n : node_ptr) (rtmp : list node_ptr) : option heap :=
  match rtmp with
  | [] => Some h
  | k :: rtmp => h ← setParent h k (Some n); attachAll h n rtmp
  end.

Section Walk.
Context {A : Type} (sort : (node_ptr -> node_ptr -> bool) -> list node_ptr -> list node_ptr)
        (f : node_ptr -> bool -> heap -> A -> option (heap * A * bool)).

(** [sort.Sort(sortPriorityNodeSiblings(tmp))] *)
Definition sortSiblings (h : heap) (tmp : list node_ptr) : list node_ptr :=
  sort (fun i k => match h !! i, h !! k with Some ni, Some nk => Less ni nk | _, _ => false end) tmp.

(** [for k := n.kids; k != nil; k = k.next { if k.walkReadyInOrder(...) { return true } }; return false] *)
Fixpoint walkKids (fuel : nat) (walk : node_ptr -> heap -> A -> option (heap * A * bool))
    (k : option node_ptr) (h : heap) (a : A) : option (heap * A * bool) :=
  match k with
  | None => Some (h, a, false)
  | Some p =>
      match fuel with
      | O => None
      | S fuel =>
          '(h, a, halt) ← walk p h a;
          if (halt : bool) then Some (h, a, true)
          else kd ← h !! p; walkKids fuel walk (pn_next kd) h a
      end
  end.

(** The reordering of the kids in the uncommon case. *)
Definition sortKids (h : heap) (n : node_ptr) : option heap :=
  '(h, tmp) ← detachKids (size h) h n [];
  attachAll h n (rev (sortSiblings h tmp)).

(** [fuel] bounds the depth of the tree. *)
Fixpoint walkReadyInOrder (fuel : nat) (openParent : bool) (n : node_ptr) (h : heap) (a : A)
  : option (heap * A * bool) :=
  match fuel with
  | O => None
  | S fuel =>
      nd ← h !! n;
      '(h, a, halt) ← (if queue_empty (pn_q nd) then Some (h, a, false) else f n openParent h a);
      if (halt : bool) then Some (h, a, true)
      else
        nd ← h !! n;
        match pn_kids nd with
        | None => Some (h, a, false)
        | Some k =>
            let openParent := if negb (pn_id nd =? 0)
                              then openParent || bool_decide (pn_state nd = priorityNodeOpen)
                              else openParent in
            kd ← h !! k;
            needSort ← needSort (size h) h (pn_weight kd) (pn_next kd);
            h ← (if (needSort : bool) then sortKids h n else Some h);
            nd ← h !! n;
            walkKids (size h) (walkReadyInOrder fuel openParent) (pn_kids nd) h a
        end
  end.
End Walk.

(** ** Theory: the lists of kids

    [K p] is the list of kids of [p].  In a well-formed store the pointers of every
    node spell these lists; the node [x], if any, is in none of them (it is being
    moved).  [siblings h p prev l next] holds when the nodes [l] are a segment of
    the kids of [p], between [prev] and [next]. *)
Definition orelse {A} (o d : option A) : option A := match o with Some _ => o | None => d end.

Fixpoint siblings (h : heap) (p : node_ptr) (prev : option node_ptr) (l : list node_ptr) (next : option node_ptr) : Prop :=
  match l with
  | [] => True
  | k :: l' =>
      (exists kd, h !! k = Some kd /\ pn_parent kd = Some p /\ pn_prev kd = prev /\ pn_next kd = orelse (head l') next) /\
      siblings h p (Some k) l' next
  end.

Record forest (x : option node_ptr) (h : heap) (K : node_ptr -> list node_ptr) : Prop := {
  forest_kids p nd : h !! p = Some nd -> pn_kids nd = head (K p) /\ siblings h p None (K p) None;
  forest_none p : h !! p = None -> K p = [];
  forest_parent k kd : h !! k = Some kd -> x <> Some k ->
    match pn_parent kd with
    | Some p => k ∈ K p
    | None => pn_prev kd = None /\ pn_next kd = None
    end;
  forest_nodup p : NoDup (K p);
  forest_moving k p : x = Some k -> k ∉ K p
}.

(** The fields that linking does not touch. *)
Definition payload (n : priorityNode) :=
  (pn_q n, pn_id n, pn_weight n, pn_state n, pn_bytes n, pn_subtreeBytes n).

Definition links (n : priorityNode) := (pn_parent n, pn_kids n, pn_prev n, pn_next n).

Definition same_payload (h h' : heap) : Prop := forall p, payload <$> h !! p = payload <$> h' !! p.
Definition same_links (h h' : heap) : Prop := forall p, links <$> h !! p = links <$> h' !! p.

(** Parents are the same, except that of [n]. *)
Definition same_parents (n : node_ptr) (h h' : heap) : Prop :=
  forall p, p <> n -> pn_parent <$> h !! p = pn_parent <$> h' !! p.

Lemma siblings_mem h p prev l next k :
  siblings h p prev l next -> k ∈ l -> exists kd, h !! k = Some kd /\ pn_parent kd = Some p.
Proof.
  revert prev. induction l as [|a l IH]; intros prev Hs Hk; [by apply not_elem_of_nil in Hk|].
  destruct Hs as [(kd & Hkd & Hp & _) Hs]. apply elem_of_cons in Hk as [->|Hk]; eauto.
Qed.

Lemma siblings_cat h p l1 l2 next : forall prev,
  siblings h p prev (l1 ++ l2) next <->
  siblings h p prev l1 (orelse (head l2) next) /\ siblings h p (orelse (last l1) prev) l2 next.
Proof.
  induction l1 as [|k l1 IH]; intros prev; simpl; [by split; [|intros []]|].
  rewrite IH.
  assert (orelse (head (l1 ++ l2)) next = orelse (head l1) (orelse (head l2) next)) as -> by (by destruct l1).
  replace (orelse (last (k :: l1)) prev) with (orelse (last l1) (Some k)).
  - tauto.
  - destruct l1 as [|k' l1]; [done|]. rewrite last_cons_cons. destruct (last (k' :: l1)) eqn:E; [done|]. by apply last_None in E.
Qed.

(** Only the links of the listed nodes matter. *)
Lemma siblings_frame h h' p l next : forall prev,
  (forall k kd, k ∈ l -> h !! k = Some kd -> exists kd', h' !! k = Some kd' /\ pn_parent kd' = pn_parent kd /\
     pn_prev kd' = pn_prev kd /\ pn_next kd' = pn_next kd) ->
  siblings h p prev l next -> siblings h' p prev l next.
Proof.
  induction l as [|k l IH]; intros prev Hf Hs; [done|]. destruct Hs as [(kd & Hkd & H1 & H2 & H3) Hs]. split.
  - destruct (Hf k kd ltac:(by left) Hkd) as (kd' & ? & ? & ? & ?). exists kd'. split_and!; congruence.
  - apply IH; [|done]. intros k' kd' Hk'. apply Hf. by right.
Qed.

Lemma siblings_head h p prev l next k kd :
  siblings h p prev l next -> head l = Some k -> h !! k = Some kd -> pn_prev kd = prev.
Proof. destruct l as [|k' l]; [done|]. intros [(kd' & Hk' & _ & Hp & _) _] [= ->] Hk. congruence. Qed.

Lemma siblings_last h p l next k kd : forall prev,
  siblings h p prev l next -> last l = Some k -> h !! k = Some kd -> pn_next kd = next.
Proof.
  induction l as [|k' l IH]; intros prev Hs Hl Hk; [done|]. destruct Hs as [(kd' & Hk' & _ & _ & Hn) Hs].
  destruct l as [|k2 l]; [injection Hl as ->; simpl in Hn; congruence|]. rewrite last_cons_cons in Hl. eauto.
Qed.

Lemma siblings_links h h' p l next : forall prev,
  same_links h h' -> siblings h p prev l next -> siblings h' p prev l next.
Proof.
  induction l as [|k l IH]; intros prev Hf Hs; [done|]. destruct Hs as [(kd & Hkd & H1 & H2 & H3) Hs]. split; [|auto].
  specialize (Hf k). rewrite Hkd in Hf. destruct (h' !! k) as [kd'|] eqn:E; simpl in Hf; [|done].
  unfold links in Hf. exists kd'. split; [done|]. injection Hf as E1 _ E2 E3. split_and!; congruence.
Qed.

Lemma forest_mem x h K k q : forest x h K -> k ∈ K q -> exists kd, h !! k = Some kd /\ pn_parent kd = Some q.
Proof.
  intros HF Hk. destruct (h !! q) as [qd|] eqn:Eq.
  - destruct (forest_kids _ _ _ HF q qd Eq) as [_ Hs]. by eapply siblings_mem.
  - rewrite (forest_none _ _ _ HF q Eq) in Hk. by apply not_elem_of_nil in Hk.
Qed.

(** Changes of the payload keep the forest. *)
Lemma forest_links x h h' K : same_links h h' -> forest x h K -> forest x h' K.
Proof.
  intros Hl [H1 H2 H3 H4 H5].
  assert (forall k kd', h' !! k = Some kd' -> exists kd, h !! k = Some kd /\ links kd = links kd') as Hinv.
  { intros k kd' Hk. specialize (Hl k). rewrite Hk in Hl. destruct (h !! k); simpl in Hl; [|done]. injection Hl as ?.
    eexists. split; [done|]. unfold links. congruence. }
  split; try done.
  - intros p nd Hp. destruct (Hinv p nd Hp) as (nd0 & Hp0 & E). destruct (H1 p nd0 Hp0) as [Hk Hs].
    split; [|by eapply siblings_links]. unfold links in E. congruence.
  - intros p Hp. apply H2. specialize (Hl p). rewrite Hp in Hl. by destruct (h !! p).
  - intros k kd Hk Hx. destruct (Hinv k kd Hk) as (kd0 & Hk0 & E). specialize (H3 k kd0 Hk0 Hx).
    unfold links in E. injection E as E1 _ E2 E3. rewrite <- E1. destruct (pn_parent kd0); [done|]. by rewrite <- E2, <- E3.
Qed.

(** Changing what surrounds a segment changes the outer links of its ends. *)
Lemma siblings_ends h h' p l next next' : forall prev prev',
  siblings h p prev l next -> NoDup l ->
  (forall k kd, k ∈ l -> h !! k = Some kd -> exists kd', h' !! k = Some kd' /\ pn_parent kd' = pn_parent kd /\
     pn_prev kd' = (if decide (head l = Some k) then prev' else pn_prev kd) /\
     pn_next kd' = (if decide (last l = Some k) then next' else pn_next kd)) ->
  siblings h' p prev' l next'.
Proof.
  induction l as [|k l IH]; intros prev prev' Hs Hnd Hc; [done|].
  destruct Hs as [(kd & Hkd & Hp & Hprev & Hnext) Hs]. apply NoDup_cons in Hnd as [Hk Hnd]. split.
  - destruct (Hc k kd ltac:(by left) Hkd) as (kd' & Hkd' & Hp' & Hprev' & Hnext'). exists kd'.
    rewrite decide_True in Hprev' by done. split_and!; [done|congruence|done|]. rewrite Hnext', Hnext.
    destruct l as [|k2 l]; simpl; [by rewrite decide_True|]. rewrite decide_False; [done|].
    intros E. apply last_Some_elem_of in E. done.
  - apply (IH (Some k)); [done..|]. intros k2 kd2 Hk2 Hkd2.
    destruct (Hc k2 kd2 ltac:(by right) Hkd2) as (kd' & Hkd' & Hp' & Hprev' & Hnext'). exists kd'.
    assert (k <> k2) by (intros ->; done). split_and!; [done..| |].
    + rewrite Hprev'. simpl. rewrite (decide_False (P := Some k = Some k2)) by congruence.
      destruct (decide (head l = Some k2)) as [Eh|]; [|done]. destruct l as [|k3 l]; [done|]. injection Eh as ->.
      destruct Hs as [(kd3 & Hkd3 & _ & Hp3 & _) _]. congruence.
    + rewrite Hnext'. destruct l as [|k3 l]; [by apply not_elem_of_nil in Hk2|]. done.
Qed.

(** [h'] is [h] with other links: [unlinked l1 l2 p] describes those of taking out
    what is between [l1] and [l2] from the kids of [p]. *)
Definition unlinked (p : node_ptr) (l1 l2 : list node_ptr) (h h' : heap) : Prop :=
  forall q, match h !! q with
            | None => h' !! q = None
            | Some qd => exists qd', h' !! q = Some qd' /\ payload qd' = payload qd /\ pn_parent qd' = pn_parent qd /\
                pn_kids qd' = (if decide (q = p) then (if decide (l1 = []) then head l2 else pn_kids qd) else pn_kids qd) /\
                pn_prev qd' = (if decide (head l2 = Some q) then last l1 else pn_prev qd) /\
                pn_next qd' = (if decide (last l1 = Some q) then head l2 else pn_next qd)
            end.

Ltac lookup_upd :=
  repeat first [rewrite lookup_insert_eq | rewrite lookup_insert_ne by congruence].

(** Assignments through pointers that differ: every field of every node. *)
Ltac pointwise :=
  repeat match goal with |- context [decide ?P] => destruct (decide P); simplify_eq end;
  lookup_upd; simpl; eauto 10.

(** The value of a node after assignments to the nodes [a], [b], ... that differ. *)
Ltac at_node q a := destruct (decide (q = a)) as [->|]; [match goal with H : _ !! a = Some _ |- _ => rewrite H; pointwise end|].

Lemma unlink_links h n nd p l1 l2 K :
  forest None h K -> h !! n = Some nd -> pn_parent nd = Some p -> K p = l1 ++ n :: l2 -> p ∉ K p ->
  exists h', unlink h n = Some h' /\ unlinked p l1 l2 h h' /\ h' !! n = Some nd /\
    pn_prev nd = last l1 /\ pn_next nd = head l2.
Proof.
  intros HF Hn Hp HK Hpn. pose proof (forest_nodup _ _ _ HF p) as Hnd. rewrite HK in Hnd, Hpn.
  assert (exists pd, h !! p = Some pd) as [pd Hpd].
  { destruct (h !! p) eqn:E; [eauto|]. apply (forest_none _ _ _ HF) in E. rewrite HK in E. by destruct l1. }
  destruct (forest_kids _ _ _ HF p pd Hpd) as [Hkids Hs]. rewrite HK in Hkids, Hs.
  apply siblings_cat in Hs as [Hs1 Hs2]. destruct Hs2 as [(nd' & Hn' & _ & Hprev & Hnext) Hs2].
  rewrite Hn in Hn'. injection Hn' as <-.
  assert (pn_prev nd = last l1) as Hprev' by (rewrite Hprev; by destruct (last l1)).
  assert (pn_next nd = head l2) as Hnext' by (rewrite Hnext; by destruct (head l2)).
  unfold unlink. rewrite Hn. simpl. rewrite Hp, Hprev', Hnext'.
  assert (n <> p) as Hne by (intros ->; apply Hpn; set_solver).
  assert (forall k, k ∈ l1 \/ k ∈ l2 -> k <> n /\ k <> p) as Hin.
  { intros k Hk. apply NoDup_app in Hnd as (_ & Hd & [Hd2 _]%NoDup_cons). split.
    - intros ->. destruct Hk; [|done]. apply (Hd n); [done|]. by left.
    - intros ->. apply Hpn. rewrite elem_of_app, elem_of_cons. tauto. }
  assert (forall k, last l1 = Some k -> head l2 = Some k -> False) as Hdis.
  { intros k H1%last_Some_elem_of H2. destruct l2 as [|k2 l2]; [done|]. injection H2 as ->.
    apply NoDup_app in Hnd as (_ & Hd & _). apply (Hd k H1). right. by left. }
  assert (l1 = [] <-> last l1 = None) as Hl1 by (by rewrite last_None).
  assert (forall k, k ∈ l1 \/ k ∈ l2 -> exists kd, h !! k = Some kd) as Hex.
  { intros k [Hk|Hk]; [destruct (siblings_mem _ _ _ _ _ _ Hs1 Hk) as (? & ? & _)
                      |destruct (siblings_mem _ _ _ _ _ _ Hs2 Hk) as (? & ? & _)]; eauto. }
  assert (forall k, last l1 = Some k -> k ∈ l1) as Hl by (intros k ?; by apply last_Some_elem_of).
  assert (forall k, head l2 = Some k -> k ∈ l2) as Hh by (intros k Ek; destruct l2; [done|injection Ek as ->; by left]).
  unfold upd.
  destruct (last l1) as [pv|] eqn:El; destruct (head l2) as [nx|] eqn:Eh; simpl.
  - destruct (Hin pv) as [? ?]; [by auto|]. destruct (Hin nx) as [? ?]; [by auto|].
    destruct (Hex pv) as [pvd Hpv]; [by auto|]. destruct (Hex nx) as [nxd Hnx]; [by auto|].
    assert (pv <> nx) by (intros ->; eauto). rewrite Hpv. simpl. lookup_upd. rewrite Hn. simpl. rewrite Hprev', Hnext'. simpl.
    lookup_upd. rewrite Hnx. simpl. eexists. split; [done|]. split; [|lookup_upd; done].
    assert (l1 <> []) by (intros ->; done).
    intros q. at_node q p. at_node q pv. at_node q nx. destruct (h !! q) eqn:Eq; pointwise.
  - destruct (Hin pv) as [? ?]; [by auto|]. destruct (Hex pv) as [pvd Hpv]; [by auto|].
    rewrite Hpv. simpl. lookup_upd. rewrite Hn. simpl. rewrite Hnext'. eexists. split; [done|]. split; [|lookup_upd; done].
    assert (l1 <> []) by (intros ->; done).
    intros q. at_node q p. at_node q pv. destruct (h !! q) eqn:Eq; pointwise.
  - destruct (Hin nx) as [? ?]; [by auto|]. destruct (Hex nx) as [nxd Hnx]; [by auto|].
    rewrite Hpd. simpl. lookup_upd. rewrite Hn. simpl. rewrite Hprev', Hnext'. simpl. lookup_upd. rewrite Hnx. simpl.
    eexists. split; [done|]. split; [|lookup_upd; done]. assert (l1 = []) by tauto.
    intros q. at_node q p. at_node q nx. destruct (h !! q) eqn:Eq; pointwise.
  - rewrite Hpd. simpl. lookup_upd. rewrite Hn. simpl. rewrite Hnext'.
    eexists. split; [done|]. split; [|lookup_upd; done]. assert (l1 = []) by tauto.
    intros q. at_node q p. destruct (h !! q) eqn:Eq; pointwise.
Qed.

(** Taking [n] out of the kids of [p]. *)
Lemma unlink_ok h n nd p l1 l2 K :
  forest None h K -> h !! n = Some nd -> pn_parent nd = Some p -> K p = l1 ++ n :: l2 -> p ∉ K p ->
  exists h', unlink h n = Some h' /\ same_payload h h' /\ (forall q, pn_parent <$> h !! q = pn_parent <$> h' !! q) /\
    forest (Some n) h' (fun q => if decide (q = p) then l1 ++ l2 else K q).
Proof.
  intros HF Hn Hp HK Hpn. destruct (unlink_links h n nd p l1 l2 K HF Hn Hp HK Hpn) as (h' & E & Hu & Hn' & _ & _).
  pose proof (forest_nodup _ _ _ HF p) as Hnd. rewrite HK in Hnd, Hpn.
  assert (forall q, match h !! q with None => h' !! q = None | Some qd => exists qd', h' !! q = Some qd' /\
            payload qd' = payload qd /\ pn_parent qd' = pn_parent qd end) as Hbase.
  { intros q. specialize (Hu q). destruct (h !! q); [|done]. destruct Hu as (qd' & ? & ? & ? & _). eauto. }
  assert (forall k kd, h' !! k = Some kd -> exists kd0, h !! k = Some kd0) as Hback.
  { intros k kd Hk. specialize (Hbase k). destruct (h !! k); [eauto|congruence]. }
  exists h'. split; [done|]. split; [|split].
  { intros q. specialize (Hbase q). destruct (h !! q) as [qd|]; [|by rewrite Hbase].
    destruct Hbase as (qd' & -> & Hq & _). simpl. by rewrite Hq. }
  { intros q. specialize (Hbase q). destruct (h !! q) as [qd|]; [|by rewrite Hbase].
    destruct Hbase as (qd' & -> & _ & Hq). simpl. by rewrite Hq. }
  apply NoDup_app in Hnd as (Hnd1 & Hd & [Hd2 Hnd2]%NoDup_cons).
  assert (forall k, head l2 = Some k -> k ∈ l2) as Hh by (intros k Ek; destruct l2; [done|injection Ek as ->; by left]).
  assert (forall k q, k ∈ K q -> q <> p -> head l2 <> Some k /\ last l1 <> Some k) as Hout.
  { intros k q Hk Hq. destruct (forest_mem _ _ _ k q HF Hk) as (kd & Hkd & Hkp).
    assert (forall k', k' ∈ l1 ++ n :: l2 -> k' <> k) as Hne.
    { intros k' Hk' ->. rewrite <- HK in Hk'. destruct (forest_mem _ _ _ k p HF Hk') as (kd' & ? & ?). congruence. }
    split; [intros ?%Hh|intros ?%last_Some_elem_of]; apply (Hne k); rewrite ?elem_of_app, ?elem_of_cons; tauto. }
  split.
  - intros q qd' Hq'. destruct (Hback q qd' Hq') as [qd Hq]. destruct (forest_kids _ _ _ HF q qd Hq) as [Hk Hs].
    pose proof (Hu q) as Huq. rewrite Hq in Huq. destruct Huq as (qd2 & Hq2 & _ & _ & Hkids & _).
    assert (qd2 = qd') as -> by congruence. clear Hq2. destruct (decide (q = p)) as [->|Hne].
    + rewrite HK in Hk, Hs. apply siblings_cat in Hs as [Hs1 [_ Hs2]]. split.
      { rewrite Hkids. destruct (decide (l1 = [])) as [->|]; [done|]. rewrite Hk. by destruct l1. }
      apply siblings_cat. split.
      * apply (siblings_ends h h' p l1 (Some n) _ None None Hs1 Hnd1). intros k kd Hk1 Hkd.
        pose proof (Hu k) as Huk. rewrite Hkd in Huk. destruct Huk as (kd' & Hkd' & _ & Hp1 & _ & Hp2 & Hp3).
        exists kd'. rewrite Hp2, Hp3. split_and!; try done.
        -- rewrite decide_False by (intros ?%Hh; apply (Hd k Hk1); by right).
           destruct (decide (head l1 = Some k)) as [Eh|]; [by eapply (siblings_head h)|done].
        -- by destruct (head l2).
      * apply (siblings_ends h h' p l2 None _ (Some n) _ Hs2 Hnd2). intros k kd Hk2 Hkd.
        pose proof (Hu k) as Huk. rewrite Hkd in Huk. destruct Huk as (kd' & Hkd' & _ & Hp1 & _ & Hp2 & Hp3).
        exists kd'. rewrite Hp2, Hp3. split_and!; try done; [by destruct (last l1)|].
        rewrite (decide_False (P := last l1 = Some k)) by (intros Hl%last_Some_elem_of; apply (Hd k Hl); by right).
        destruct (decide (last l2 = Some k)) as [El|]; [by eapply (siblings_last h)|done].
    + split; [by rewrite Hkids|]. apply (siblings_frame h); [|done]. intros k kd Hk' Hkd.
      destruct (Hout k q Hk' Hne). pose proof (Hu k) as Huk. rewrite Hkd in Huk.
      destruct Huk as (kd' & ? & _ & ? & _ & Hp2 & Hp3). rewrite decide_False in Hp2 by done. rewrite decide_False in Hp3 by done. eauto.
  - intros q Hq. assert (h !! q = None) as Hq0.
    { specialize (Hbase q). destruct (h !! q); [|done]. destruct Hbase as (? & ? & _). congruence. }
    pose proof (forest_none _ _ _ HF q Hq0) as Hnil. destruct (decide (q = p)) as [->|]; [|done].
    rewrite HK in Hnil. by destruct l1.
  - intros k kd' Hk' Hx. destruct (Hback k kd' Hk') as [kd Hk]. assert (k <> n) as Hkn by congruence.
    pose proof (forest_parent _ _ _ HF k kd Hk ltac:(done)) as HP.
    pose proof (Hu k) as Huk. rewrite Hk in Huk. destruct Huk as (kd2 & Hk2 & _ & Hp1 & _ & Hp2 & Hp3).
    assert (kd2 = kd') as -> by congruence. rewrite Hp1. destruct (pn_parent kd) as [q|] eqn:Eq.
    + destruct (decide (q = p)) as [->|]; [|done]. rewrite HK, elem_of_app, elem_of_cons in HP. rewrite elem_of_app. destruct HP as [?|[?|?]]; [by left|done|by right].
    + rewrite Hp2, Hp3. assert (k ∉ K p) as Hnin.
      { intros Hin. destruct (forest_mem _ _ _ k p HF Hin) as (kd2 & ? & ?). congruence. }
      rewrite HK, elem_of_app, elem_of_cons in Hnin.
      rewrite !decide_False; [done| |]; [intros ?%last_Some_elem_of|intros ?%Hh]; tauto.
  - intros q. destruct (decide (q = p)); [|apply (forest_nodup _ _ _ HF)]. apply NoDup_app. split_and!; try done.
    intros k Hk1 Hk2. apply (Hd k Hk1). by right.
  - intros k q [= <-]. destruct (decide (q = p)) as [->|Hne].
    + rewrite elem_of_app. intros [Hi|Hi]; [apply (Hd n Hi); by left|done].
    + intros Hi. destruct (forest_mem _ _ _ n q HF Hi) as (nd' & ? & ?). congruence.
Qed.

(** [n] becomes the first kid of [p]. *)
Definition linked (n p : node_ptr) (first : option node_ptr) (h h' : heap) : Prop :=
  forall q, match h !! q with
            | None => h' !! q = None
            | Some qd => exists qd', h' !! q = Some qd' /\ payload qd' = payload qd /\
                pn_parent qd' = (if decide (q = n) then Some p else pn_parent qd) /\
                pn_kids qd' = (if decide (q = p) then Some n else pn_kids qd) /\
                pn_prev qd' = (if decide (q = n) then None else if decide (first = Some q) then Some n else pn_prev qd) /\
                pn_next qd' = (if decide (q = n) then first else pn_next qd)
            end.

Lemma link_links h n nd p K :
  forest (Some n) h K -> h !! n = Some nd -> is_Some (h !! p) -> p <> n -> p ∉ K p ->
  exists h', link h n (Some p) = Some h' /\ linked n p (head (K p)) h h'.
Proof.
  intros HF Hn [pd Hpd] Hne Hpp. destruct (forest_kids _ _ _ HF p pd Hpd) as [Hk Hs].
  pose proof (forest_moving _ _ _ HF n p eq_refl) as Hnp. unfold link, upd.
  rewrite Hn. simpl. lookup_upd. rewrite Hpd. simpl. rewrite Hk. destruct (head (K p)) as [nx|] eqn:Eh.
  - assert (nx ∈ K p) as Hnx by (destruct (K p); [done|injection Eh as ->; by left]).
    assert (nx <> n) by (intros ->; done). assert (nx <> p) by (intros ->; done).
    destruct (forest_mem _ _ _ nx p HF Hnx) as (nxd & Hnxd & _).
    simpl. lookup_upd. simpl. lookup_upd. rewrite Hnxd. simpl. lookup_upd. rewrite Hpd. simpl.
    eexists. split; [done|]. intros q. at_node q p. at_node q n. at_node q nx. destruct (h !! q) eqn:Eq; pointwise.
  - simpl. lookup_upd. simpl. lookup_upd. rewrite Hpd. simpl. eexists. split; [done|].
    intros q. at_node q p. at_node q n. destruct (h !! q) eqn:Eq; pointwise.
Qed.

Definition attach (n : node_ptr) (parent : option node_ptr) (K : node_ptr -> list node_ptr) (q : node_ptr) : list node_ptr :=
  if decide (parent = Some q) then n :: K q else K q.

Lemma link_none_ok h n nd K :
  forest (Some n) h K -> h !! n = Some nd ->
  exists h', link h n None = Some h' /\ same_payload h h' /\ same_parents n h h' /\
    pn_parent <$> h' !! n = Some None /\ forest None h' K.
Proof.
  intros HF Hn. unfold link, upd. rewrite Hn. simpl. lookup_upd. simpl. lookup_upd. simpl.
  set (nd' := set_prev None _). eexists. split; [done|]. rewrite !insert_insert_eq.
  assert (forall q K', q <> n -> siblings h q None K' None -> n ∉ K' -> siblings (<[n:=nd']> h) q None K' None) as Hsib.
  { intros q K' Hq Hs HK. apply (siblings_frame h); [|done]. intros k kd Hk Hkd. exists kd.
    rewrite lookup_insert_ne by (intros <-; done). done. }
  split; [|split; [|split; [by lookup_upd|]]].
  { intros q. destruct (decide (n = q)) as [<-|]; [by rewrite Hn; lookup_upd|by lookup_upd]. }
  { intros q Hq. by lookup_upd. }
  pose proof (forest_moving _ _ _ HF n) as Hout.
  split.
  - intros q qd Hq. apply lookup_insert_Some in Hq as [[<- <-]|[Hne Hq]].
    + destruct (forest_kids _ _ _ HF n nd Hn) as [Hk Hs]. split; [done|].
      apply (siblings_frame h); [|done]. intros k kd Hk' Hkd. exists kd.
      rewrite lookup_insert_ne by (intros <-; by apply (Hout n)). done.
    + destruct (forest_kids _ _ _ HF q qd Hq) as [Hk Hs]. split; [done|]. apply Hsib; auto.
  - intros q Hq. apply lookup_insert_None in Hq as [Hq _]. by apply (forest_none _ _ _ HF).
  - intros k kd Hk _. apply lookup_insert_Some in Hk as [[<- <-]|[Hne Hk]]; [done|].
    apply (forest_parent _ _ _ HF k kd Hk). congruence.
  - apply (forest_nodup _ _ _ HF).
  - done.
Qed.

Lemma link_some_ok h n nd p K :
  forest (Some n) h K -> h !! n = Some nd -> is_Some (h !! p) -> p <> n -> p ∉ K p ->
  exists h', link h n (Some p) = Some h' /\ same_payload h h' /\ same_parents n h h' /\
    pn_parent <$> h' !! n = Some (Some p) /\ forest None h' (attach n (Some p) K).
Proof.
  intros HF Hn Hp Hne Hpp. destruct (link_links h n nd p K HF Hn Hp Hne Hpp) as (h' & E & Hl).
  pose proof (forest_moving _ _ _ HF n) as Hout.
  assert (forall k kd, h' !! k = Some kd -> exists kd0, h !! k = Some kd0) as Hback.
  { intros k kd Hk. specialize (Hl k). destruct (h !! k); [eauto|congruence]. }
  assert (forall k, head (K p) = Some k -> k ∈ K p) as Hh.
  { intros k Ek. destruct (K p); [done|injection Ek as ->; by left]. }
  exists h'. split; [done|]. split; [|split; [|split]].
  { intros q. specialize (Hl q). destruct (h !! q); [|by rewrite Hl]. destruct Hl as (qd' & -> & Hq & _). simpl. by rewrite Hq. }
  { intros q Hq. specialize (Hl q). destruct (h !! q); [|by rewrite Hl]. destruct Hl as (qd' & -> & _ & Hp' & _).
    simpl. by rewrite Hp', decide_False. }
  { specialize (Hl n). rewrite Hn in Hl. destruct Hl as (qd' & -> & _ & Hp' & _). simpl. by rewrite Hp', decide_True. }
  split.
  - intros q qd' Hq'. destruct (Hback q qd' Hq') as [qd Hq]. destruct (forest_kids _ _ _ HF q qd Hq) as [Hk Hs].
    pose proof (Hl q) as Hlq. rewrite Hq in Hlq. destruct Hlq as (qd2 & Hq2 & _ & _ & Hkids & _).
    assert (qd2 = qd') as -> by congruence. clear Hq2. unfold attach. destruct (decide (Some p = Some q)) as [[= <-]|Hpq].
    + rewrite decide_True in Hkids by done. split; [done|]. split.
      { pose proof (Hl n) as Hln. rewrite Hn in Hln. destruct Hln as (nd' & Hn' & _ & H1 & _ & H2 & H3).
        rewrite decide_True in H1, H2, H3 by done. exists nd'. split_and!; try done. rewrite H3. by destruct (head (K p)). }
      apply (siblings_ends h h' p (K p) None None None (Some n) Hs (forest_nodup _ _ _ HF p)).
      intros k kd Hk1 Hkd. assert (k <> n) as Hkn by (intros ->; by apply (Hout p)).
      pose proof (Hl k) as Hlk. rewrite Hkd in Hlk. destruct Hlk as (kd' & Hkd' & _ & H1 & _ & H2 & H3).
      rewrite decide_False in H1 by done. rewrite decide_False in H2 by done. rewrite decide_False in H3 by done.
      exists kd'. rewrite H2, H3. split_and!; try done.
      destruct (decide (last (K p) = Some k)) as [El|]; [by eapply (siblings_last h)|done].
    + rewrite decide_False in Hkids by congruence. split; [congruence|].
      apply (siblings_frame h); [|done]. intros k kd Hk1 Hkd. assert (k <> n) as Hkn by (intros ->; by apply (Hout q)).
      pose proof (Hl k) as Hlk. rewrite Hkd in Hlk. destruct Hlk as (kd' & Hkd' & _ & H1 & _ & H2 & H3).
      rewrite decide_False in H1 by done. rewrite decide_False in H2 by done. rewrite decide_False in H3 by done.
      exists kd'. rewrite H2, decide_False; [done|]. intros Ek%Hh.
      destruct (forest_mem _ _ _ k p HF Ek) as (? & ? & ?). destruct (forest_mem _ _ _ k q HF Hk1) as (? & ? & ?). congruence.
  - intros q Hq. assert (h !! q = None) as Hq0.
    { specialize (Hl q). destruct (h !! q); [|done]. destruct Hl as (? & ? & _). congruence. }
    unfold attach. rewrite decide_False by (intros [= ->]; destruct Hp; congruence). by apply (forest_none _ _ _ HF).
  - intros k kd' Hk' _. destruct (Hback k kd' Hk') as [kd Hk].
    pose proof (Hl k) as Hlk. rewrite Hk in Hlk. destruct Hlk as (kd2 & Hk2 & _ & H1 & _ & H2 & H3).
    assert (kd2 = kd') as -> by congruence. rewrite H1. unfold attach. destruct (decide (k = n)) as [->|Hkn].
    { rewrite decide_True by done. by left. }
    pose proof (forest_parent _ _ _ HF k kd Hk ltac:(congruence)) as HP. destruct (pn_parent kd) as [q|] eqn:Eq.
    + destruct (decide (Some p = Some q)); [by right|done].
    + rewrite H2, H3, decide_False; [done|]. intros Ek%Hh.
      destruct (forest_mem _ _ _ k p HF Ek) as (? & ? & ?). congruence.
  - intros q. unfold attach. destruct (decide _); [|apply (forest_nodup _ _ _ HF)].
    apply NoDup_cons. split; [by apply Hout|apply (forest_nodup _ _ _ HF)].
  - done.
Qed.

(** ** Theory: no cycles *)
Definition parent_of (h : heap) (p k : node_ptr) : Prop := pn_parent <$> h !! k = Some (Some p).

(** [n] is [p] or above it. *)
Definition above (h : heap) (n p : node_ptr) : Prop := rtc (fun a b => parent_of h b a) p n.

Definition acyclic (h : heap) : Prop := forall k, Acc (parent_of h) k.

Record tree (h : heap) (K : node_ptr -> list node_ptr) : Prop := {
  tree_forest : forest None h K;
  tree_acyclic : acyclic h
}.

Lemma parent_of_Some h p k : parent_of h p k <-> exists kd, h !! k = Some kd /\ pn_parent kd = Some p.
Proof.
  unfold parent_of. destruct (h !! k) as [kd|]; simpl; split.
  - intros [= E]. eauto.
  - intros (kd' & [= <-] & ->). done.
  - done.
  - by intros (? & ? & _).
Qed.

Lemma acyclic_irrefl h p : acyclic h -> ~ parent_of h p p.
Proof. intros Ha Hp. induction (Ha p) as [q _ IH]. by apply (IH q). Qed.

Lemma kids_iff h K k p : forest None h K -> k ∈ K p <-> parent_of h p k.
Proof.
  intros HF. rewrite parent_of_Some. split; [by apply (forest_mem _ _ _ k p HF)|].
  intros (kd & Hk & Hp). pose proof (forest_parent _ _ _ HF k kd Hk ltac:(done)) as H. by rewrite Hp in H.
Qed.

Lemma parent_lookup h K p k : forest None h K -> parent_of h p k -> is_Some (h !! p).
Proof.
  intros HF Hk%(kids_iff _ _ _ _ HF). destruct (h !! p) eqn:E; [eauto|].
  rewrite (forest_none _ _ _ HF p E) in Hk. by apply not_elem_of_nil in Hk.
Qed.

Lemma same_parents_of n h h' p k : same_parents n h h' -> k <> n -> parent_of h' p k <-> parent_of h p k.
Proof. intros Hs Hk. unfold parent_of. by rewrite (Hs k Hk). Qed.

(** Moving [n] below [p] makes no cycle when [n] is not above [p]. *)
Lemma acyclic_move n parent h h' :
  acyclic h -> same_parents n h h' -> pn_parent <$> h' !! n = Some parent ->
  (forall p, parent = Some p -> ~ above h n p) -> acyclic h'.
Proof.
  intros Ha Hs Hn Hab.
  assert (forall k, ~ above h n k -> Acc (parent_of h') k) as Hout.
  { intros k. induction (Ha k) as [k _ IH]. intros Hk. constructor. intros p Hp.
    assert (k <> n) as Hne by (intros ->; apply Hk; constructor).
    apply (same_parents_of n h h' p k Hs Hne) in Hp. apply IH; [done|]. intros Hp'. apply Hk. by econstructor. }
  assert (Acc (parent_of h') n) as Hn'.
  { constructor. intros p Hp. unfold parent_of in Hp. rewrite Hn in Hp. injection Hp as ->. apply Hout. by apply Hab. }
  intros k. induction (Ha k) as [k _ IH]. destruct (decide (k = n)) as [->|Hne]; [done|]. constructor. intros p Hp.
  apply IH. by apply (same_parents_of n h h' p k Hs Hne).
Qed.

(** Taking a node out of every list. *)
Definition detach (n : node_ptr) (K : node_ptr -> list node_ptr) (q : node_ptr) : list node_ptr :=
  filter (fun k => k <> n) (K q).

Lemma filter_notin (n : node_ptr) (l : list node_ptr) : n ∉ l -> filter (fun k => k <> n) l = l.
Proof.
  induction l as [|k l IH]; intros Hn; [done|]. apply not_elem_of_cons in Hn as [Hk Hl].
  rewrite filter_cons_True by congruence. by rewrite IH.
Qed.

Lemma forest_ext x h K K' : (forall q, K q = K' q) -> forest x h K -> forest x h K'.
Proof.
  intros HK [H1 H2 H3 H4 H5]. split.
  - intros p nd Hp. rewrite <- HK. by apply H1.
  - intros p Hp. rewrite <- HK. by apply H2.
  - intros k kd Hk Hx. specialize (H3 k kd Hk Hx). destruct (pn_parent kd); [by rewrite <- HK|done].
  - intros p. by rewrite <- HK.
  - intros k p. rewrite <- HK. by apply H5.
Qed.

Lemma same_payload_trans h1 h2 h3 : same_payload h1 h2 -> same_payload h2 h3 -> same_payload h1 h3.
Proof. intros H1 H2 p. by rewrite (H1 p). Qed.

Lemma same_payload_dom h h' p : same_payload h h' -> is_Some (h !! p) <-> is_Some (h' !! p).
Proof.
  intros Hs. specialize (Hs p). destruct (h !! p), (h' !! p); simpl in Hs; try done; split; intros []; eauto; done.
Qed.

(** No node is its own kid. *)
Definition loopless (K : node_ptr -> list node_ptr) : Prop := forall p, p ∉ K p.

Definition moved_to (n : node_ptr) (nd : priorityNode) (parent : option node_ptr) (K : node_ptr -> list node_ptr) :=
  if decide (pn_parent nd = parent) then K else attach n parent (detach n K).

Lemma moved_to_loopless n nd parent K : parent <> Some n -> loopless K -> loopless (moved_to n nd parent K).
Proof.
  intros Hne HK p. unfold moved_to, attach, detach. destruct (decide _); [apply HK|].
  destruct (decide _) as [->|]; rewrite ?elem_of_cons, list_elem_of_filter; [|by intros [_ ?%HK]].
  intros [->|[_ ?%HK]]; done.
Qed.

Lemma unlink_total h K n nd :
  forest None h K -> loopless K -> h !! n = Some nd ->
  exists h1, unlink h n = Some h1 /\ same_payload h h1 /\ (forall q, pn_parent <$> h !! q = pn_parent <$> h1 !! q) /\
    forest (Some n) h1 (detach n K).
Proof.
  intros HF Hloop Hn. destruct (pn_parent nd) as [p|] eqn:Ep.
  - assert (parent_of h p n) as Hpn by (apply parent_of_Some; eauto).
    assert (n ∈ K p) as Hin by (by apply (kids_iff h)).
    apply list_elem_of_split in Hin as (l1 & l2 & HK).
    destruct (unlink_ok h n nd p l1 l2 K HF Hn Ep HK (Hloop p)) as (h1 & E1 & Hs1 & Hp1 & HF1).
    exists h1. split_and!; try done. apply (forest_ext _ _ _ _) with (2 := HF1). intros q. unfold detach.
    destruct (decide (q = p)) as [->|Hq].
    + rewrite HK, filter_app, filter_cons_False by (intros Hnn; by apply Hnn).
      pose proof (forest_nodup _ _ _ HF p) as Hnd. rewrite HK in Hnd.
      apply NoDup_app in Hnd as (_ & Hd & [Hd2 _]%NoDup_cons).
      rewrite !filter_notin; [done|done|]. intros Hi. apply (Hd n Hi). by left.
    + rewrite filter_notin; [done|]. intros Hi%(kids_iff _ _ _ _ HF). unfold parent_of in *. congruence.
  - exists h. unfold unlink. rewrite Hn. simpl. rewrite Ep. split_and!; try done.
    assert (forall q, n ∉ K q) as Hout.
    { intros q Hi%(kids_iff _ _ _ _ HF). apply parent_of_Some in Hi as (? & ? & ?). congruence. }
    apply (forest_ext _ _ K). { intros q. unfold detach. by rewrite filter_notin. }
    destruct HF as [H1 H2 H3 H4 H5]. split; try done.
    + intros k kd Hk _. by apply H3.
    + intros k q [= <-]. apply Hout.
Qed.

(** [setParent] keeps the lists, whatever the shape. *)
Lemma setParent_forest h K n nd parent :
  forest None h K -> loopless K -> h !! n = Some nd ->
  (forall p, parent = Some p -> is_Some (h !! p) /\ p <> n) ->
  exists h', setParent h n parent = Some h' /\ same_payload h h' /\ same_parents n h h' /\
    pn_parent <$> h' !! n = Some parent /\ forest None h' (moved_to n nd parent K).
Proof.
  intros HF Hloop Hn Hp. unfold setParent, moved_to.
  rewrite decide_False by (intros E; by destruct (Hp n E) as [_ []]). rewrite Hn. simpl.
  destruct (decide (pn_parent nd = parent)) as [E|Hne].
  { exists h. split_and!; try done. by rewrite Hn; simpl; rewrite E. }
  destruct (unlink_total h K n nd HF Hloop Hn) as (h1 & E1 & Hs1 & Hp1 & HF1).
  assert (is_Some (h1 !! n)) as [nd1 Hn1] by (apply (same_payload_dom h h1 n Hs1); eauto).
  assert (exists h', link h1 n parent = Some h' /\ same_payload h1 h' /\ same_parents n h1 h' /\
            pn_parent <$> h' !! n = Some parent /\ forest None h' (attach n parent (detach n K)))
    as (h' & E2 & Hs2 & Hp2 & Hn2 & HF2).
  { destruct parent as [p|].
    - destruct (Hp p eq_refl) as [Hpd Hab].
      apply (link_some_ok h1 n nd1 p (detach n K) HF1 Hn1); [by apply (same_payload_dom h h1 p Hs1)|done|].
      unfold detach. rewrite list_elem_of_filter. intros [_ Hi]. by apply (Hloop p).
    - destruct (link_none_ok h1 n nd1 (detach n K) HF1 Hn1) as (h' & ? & ? & ? & ? & ?). exists h'. split_and!; try done. }
  rewrite E1. simpl. rewrite E2. exists h'. split; [done|]. split; [by eapply same_payload_trans|].
  split; [intros q Hq; rewrite (Hp1 q); by apply Hp2|done].
Qed.

Lemma tree_loopless h K : tree h K -> loopless K.
Proof. intros [HF Ha] p Hi%(kids_iff _ _ _ _ HF). by apply (acyclic_irrefl h p). Qed.

Lemma setParent_ok h K n nd parent :
  tree h K -> h !! n = Some nd ->
  (forall p, parent = Some p -> is_Some (h !! p) /\ ~ above h n p) ->
  exists h', setParent h n parent = Some h' /\ same_payload h h' /\ same_parents n h h' /\
    pn_parent <$> h' !! n = Some parent /\ tree h' (moved_to n nd parent K).
Proof.
  intros HT Hn Hp.
  destruct (setParent_forest h K n nd parent (tree_forest _ _ HT) (tree_loopless _ _ HT) Hn) as (h' & E & Hs & Hp' & Hn' & HF).
  { intros p Ep. destruct (Hp p Ep) as [Hd Hab]. split; [done|]. intros ->. apply Hab. constructor. }
  exists h'. do 4 (split; [done|]). split; [done|]. apply (acyclic_move n parent h h' (tree_acyclic _ _ HT) Hp' Hn').
  intros p Ep. by apply Hp.
Qed.
