(* ===== verification/PriorityWalk.v ===== *)
(** * Package http2: walks over the priority tree

    Theory of the operations of PriorityTree that follow paths or visit the tree:
    the loops are bounded by the size of the store, [addBytes] counts on the path to
    the root, sorting permutes the kids of one node, and [walkReadyInOrder] visits
    every node below its start, parents first, until its callback says stop. *)

From S2P Require Import Prelude Flow Frame WriteFrames WriteSched PriorityTree.

(** ** Theory: paths are no longer than the store *)
Fixpoint chain (h : heap) (k : option node_ptr) (l : list node_ptr) : Prop :=
  match l, k with
  | [], None => True
  | p :: l, Some k => p = k /\ exists kd, h !! k = Some kd /\ chain h (pn_parent kd) l
  | _, _ => False
  end.

Lemma above_step h n p q : parent_of h p q -> above h n p -> above h n q.
Proof. intros Hp Ha. by econstructor. Qed.

Lemma above_parent h n p : above h n p -> n = p \/ exists q, parent_of h q p /\ above h n q.
Proof. intros Ha. inversion Ha; subst; [by left|right; eauto]. Qed.

(** A node is not below itself. *)
Lemma acyclic_above h p q : acyclic h -> parent_of h p q -> ~ above h q p.
Proof.
  intros Ha. revert p. induction (Ha q) as [q _ IH]. intros p Hp Hab.
  destruct (above_parent h q p Hab) as [<-|(r & Hr & Hrq)]; [by apply (acyclic_irrefl h q)|].
  apply (IH p Hp r Hr). eapply rtc_r; [exact Hrq|]. done.
Qed.

Lemma chain_above h l : forall k p, chain h (Some k) l -> p ∈ l <-> above h p k.
Proof.
  induction l as [|a l IH]; intros k p Hc; [done|]. destruct Hc as [-> (kd & Hk & Hc)]. rewrite elem_of_cons. split.
  - intros [->|Hp]; [constructor|]. destruct (pn_parent kd) as [q|] eqn:Eq; [|by destruct l; [apply not_elem_of_nil in Hp|]].
    apply (above_step h p q k); [apply parent_of_Some; eauto|]. by apply (IH q p Hc).
  - intros [->|(q & Hq & Ha)]%above_parent; [by left|right]. apply parent_of_Some in Hq as (kd' & Hk' & Eq).
    rewrite Hk in Hk'. injection Hk' as <-. rewrite Eq in Hc. by apply (IH q p Hc).
Qed.

Lemma chain_exists h K k : tree h K -> is_Some (h !! k) -> exists l, chain h (Some k) l.
Proof.
  intros [HF Ha]. induction (Ha k) as [k _ IH]. intros [kd Hk]. destruct (pn_parent kd) as [q|] eqn:Eq.
  - assert (parent_of h q k) as Hq by (apply parent_of_Some; eauto).
    destruct (IH q Hq (parent_lookup h K q k HF Hq)) as [l Hl]. exists (k :: l). split; [done|]. exists kd. by rewrite Eq.
  - exists [k]. split; [done|]. exists kd. by rewrite Eq.
Qed.

Lemma chain_dom h l : forall k p, chain h k l -> p ∈ l -> is_Some (h !! p).
Proof.
  induction l as [|a l IH]; intros k p Hc Hp; [by apply not_elem_of_nil in Hp|]. destruct k as [k|]; [|done].
  destruct Hc as [-> (kd & Hk & Hc)]. apply elem_of_cons in Hp as [->|Hp]; [eauto|]. by apply (IH (pn_parent kd)).
Qed.

Lemma chain_nodup h l : acyclic h -> forall k, chain h k l -> NoDup l.
Proof.
  intros Ha. induction l as [|a l IH]; intros k Hc; [constructor|]. destruct k as [k|]; [|done].
  destruct Hc as [-> (kd & Hk & Hc)]. constructor; [|by apply (IH (pn_parent kd))]. intros Hin.
  destruct (pn_parent kd) as [q|] eqn:Eq; [|by destruct l; [apply not_elem_of_nil in Hin|]].
  apply (chain_above h l q k Hc) in Hin. apply (acyclic_above h q k Ha); [apply parent_of_Some; eauto|done].
Qed.

(** Distinct nodes of the store are at most as many as the store has. *)
Lemma nodup_size (h : heap) l : NoDup l -> (forall p, p ∈ l -> is_Some (h !! p)) -> (length l <= size h)%nat.
Proof.
  intros Hnd Hd. rewrite <- (size_list_to_set (C := gset nat) l Hnd), <- (size_dom (D := gset nat) h).
  apply subseteq_size. intros p Hp. rewrite elem_of_list_to_set in Hp. apply elem_of_dom. by apply Hd.
Qed.

Lemma chain_size h l k : acyclic h -> chain h k l -> (length l <= size h)%nat.
Proof.
  intros Ha Hc. apply nodup_size; [by apply (chain_nodup h l Ha k)|]. intros p. by apply (chain_dom h l k).
Qed.

Lemma kids_size h K n : forest None h K -> (length (K n) <= size h)%nat.
Proof.
  intros HF. apply nodup_size; [apply (forest_nodup _ _ _ HF)|]. intros p Hp.
  destruct (forest_mem _ _ _ p n HF Hp) as (kd & ? & _). eauto.
Qed.

Lemma same_payload_size h h' : same_payload h h' -> size h = size h'.
Proof.
  intros Hs. rewrite <- !(size_dom (D := gset nat)). f_equal. apply set_eq. intros p. rewrite !elem_of_dom.
  by apply same_payload_dom.
Qed.

(** ** Theory: changes of the payload *)
Lemma same_links_refl h : same_links h h.
Proof. done. Qed.

Lemma same_links_trans h1 h2 h3 : same_links h1 h2 -> same_links h2 h3 -> same_links h1 h3.
Proof. intros H1 H2 p. by rewrite (H1 p). Qed.

Lemma same_links_parents h h' : same_links h h' -> forall q, pn_parent <$> h !! q = pn_parent <$> h' !! q.
Proof.
  intros Hs q. specialize (Hs q). destruct (h !! q), (h' !! q); simpl in *; try done.
  injection Hs as E _ _ _. by rewrite E.
Qed.

Lemma same_links_dom h h' p : same_links h h' -> is_Some (h !! p) <-> is_Some (h' !! p).
Proof.
  intros Hs. specialize (Hs p). destruct (h !! p), (h' !! p); simpl in Hs; try done; split; intros []; eauto; done.
Qed.

Lemma parents_of h h' p k : (forall q, pn_parent <$> h !! q = pn_parent <$> h' !! q) -> parent_of h p k <-> parent_of h' p k.
Proof. intros Hs. unfold parent_of. by rewrite (Hs k). Qed.

Lemma acyclic_parents h h' : (forall q, pn_parent <$> h !! q = pn_parent <$> h' !! q) -> acyclic h -> acyclic h'.
Proof.
  intros Hs Ha k. induction (Ha k) as [k _ IH]. constructor. intros p Hp. apply IH. by apply (parents_of h h').
Qed.

Lemma above_parents h h' n p : (forall q, pn_parent <$> h !! q = pn_parent <$> h' !! q) -> above h n p -> above h' n p.
Proof.
  intros Hs Ha. induction Ha as [x|x y z Hx _ IH]; [constructor|]. econstructor; [|exact IH]. by apply (parents_of h h').
Qed.

Lemma tree_links h h' K : same_links h h' -> tree h K -> tree h' K.
Proof.
  intros Hs [HF Ha]. split; [by apply (forest_links _ h)|]. apply (acyclic_parents h); [|done]. by apply same_links_parents.
Qed.

(** Assignments to other fields than links. *)
Definition keeps_links (f : priorityNode -> priorityNode) : Prop := forall n, links (f n) = links n.

Lemma upd_ok h p f : is_Some (h !! p) -> keeps_links f ->
  exists nd h', h !! p = Some nd /\ upd h p f = Some h' /\ same_links h h' /\ h' = <[p := f nd]> h.
Proof.
  intros [nd Hp] Hf. unfold upd. rewrite Hp. simpl. eexists _, _. split_and!; try done.
  intros q. destruct (decide (p = q)) as [<-|]; [|by rewrite lookup_insert_ne].
  rewrite lookup_insert_eq, Hp. simpl. by rewrite Hf.
Qed.

(** [addBytes] counts at the node and on the path to the root, and nowhere else. *)
Definition counted (b : Z) (on : node_ptr -> Prop) `{forall p, Decision (on p)} (h h' : heap) : Prop :=
  forall q, h' !! q = (fun nd => if decide (on q) then set_subtreeBytes (i64 (pn_subtreeBytes nd + b)) nd else nd) <$> h !! q.

Lemma addSubtreeBytes_ok b l : forall fuel h k,
  chain h k l -> NoDup l -> (length l <= fuel)%nat ->
  exists h', addSubtreeBytes fuel h k b = Some h' /\ same_links h h' /\ counted b (fun p => p ∈ l) h h'.
Proof.
  induction l as [|a l IH]; intros fuel h k Hc Hnd Hf.
  { destruct k; [done|]. exists h. destruct fuel; (split_and!; [done..|]); intros q; destruct (h !! q); simpl; try done;
      rewrite decide_False by apply not_elem_of_nil; done. }
  destruct k as [k|]; [|done]. destruct Hc as [-> (kd & Hk & Hc)]. simpl in Hf. destruct fuel as [|fuel]; [lia|].
  apply NoDup_cons in Hnd as [Hkl Hnd].
  destruct (upd_ok h k (set_subtreeBytes (i64 (pn_subtreeBytes kd + b)))) as (kd' & h1 & Hk' & E1 & Hs1 & Eh1); [eauto|done|].
  simpl. rewrite Hk. simpl. rewrite E1. simpl.
  assert (forall l k', chain h k' l -> chain h1 k' l) as Hch.
  { intros l0. induction l0 as [|a0 l0 IH0]; intros [k'|] H0; try done. destruct H0 as [-> (kd0 & Hk0 & H0)].
    split; [done|]. specialize (Hs1 k'). rewrite Hk0 in Hs1. destruct (h1 !! k') as [kd1|]; simpl in Hs1; [|done].
    exists kd1. split; [done|]. injection Hs1 as E _ _ _. rewrite <- E. by apply IH0. }
  destruct (IH fuel h1 (pn_parent kd) (Hch _ _ Hc) Hnd ltac:(lia)) as (h' & E & Hs & Hcnt).
  exists h'. split; [done|]. split; [by eapply same_links_trans|]. intros q. rewrite (Hcnt q). subst h1.
  rewrite Hk in Hk'. injection Hk' as <-. destruct (decide (k = q)) as [<-|Hne].
  - rewrite lookup_insert_eq, Hk. simpl. rewrite decide_False by done. rewrite decide_True by (by left). done.
  - rewrite lookup_insert_ne by done. destruct (h !! q); simpl; [|done]. f_equal.
    destruct (decide (q ∈ l)); [rewrite decide_True by (by right)|rewrite decide_False by (apply not_elem_of_cons; split; [congruence|done])]; done.
Qed.

(** Everything but the two counters. *)
Definition static (n : priorityNode) := (pn_q n, pn_id n, pn_weight n, pn_state n).
Definition same_static (h h' : heap) : Prop := forall p, static <$> h !! p = static <$> h' !! p.

Lemma addBytes_ok h K n b :
  tree h K -> is_Some (h !! n) ->
  exists h', addBytes h n b = Some h' /\ same_links h h' /\ same_static h h'.
Proof.
  intros HT Hn. pose proof Hn as [nd Hnd]. unfold addBytes. rewrite Hnd. simpl.
  destruct (upd_ok h n (set_bytes (i64 (pn_bytes nd + b)))) as (nd' & h1 & Hk' & E1 & Hs1 & Eh1); [eauto|done|].
  rewrite E1. simpl. pose proof (tree_links _ _ _ Hs1 HT) as HT1.
  destruct (chain_exists h1 K n HT1) as [l Hl]; [by apply (same_links_dom h)|].
  destruct (addSubtreeBytes_ok b l (size h1) h1 (Some n) Hl) as (h' & E & Hs & Hcnt).
  { by apply (chain_nodup h1 l (tree_acyclic _ _ HT1) (Some n)). }
  { apply (chain_size h1 l (Some n)); [apply HT1|done]. }
  exists h'. split; [done|]. split; [by eapply same_links_trans|]. intros q. rewrite (Hcnt q), Eh1.
  rewrite Hnd in Hk'. injection Hk' as <-. destruct (decide (n = q)) as [<-|Hne].
  - rewrite lookup_insert_eq, Hnd. simpl. by destruct (decide _).
  - rewrite lookup_insert_ne by done. destruct (h !! q); simpl; [|done]. by destruct (decide _).
Qed.

(** ** Theory: reordering the kids *)
Definition set_list (n : node_ptr) (l : list node_ptr) (K : node_ptr -> list node_ptr) (q : node_ptr) : list node_ptr :=
  if decide (q = n) then l else K q.

(** Parents are the same outside [l]. *)
Definition same_outside (l : list node_ptr) (h h' : heap) : Prop :=
  forall q, q ∉ l -> pn_parent <$> h !! q = pn_parent <$> h' !! q.

Lemma needSort_total h p w l : forall fuel prev,
  siblings h p prev l None -> (length l <= fuel)%nat -> exists b, needSort fuel h w (head l) = Some b.
Proof.
  induction l as [|k l IH]; intros fuel prev Hs Hf; [destruct fuel; simpl; eauto|].
  destruct Hs as [(kd & Hk & _ & _ & Hn) Hs]. simpl in Hf. destruct fuel as [|fuel]; [lia|]. simpl. rewrite Hk. simpl.
  destruct (negb _); [eauto|]. rewrite Hn. assert (orelse (head l) None = head l) as -> by (by destruct l).
  apply (IH fuel (Some k) Hs). lia.
Qed.

Lemma tree_ext h K K' : (forall q, K q = K' q) -> tree h K -> tree h K'.
Proof. intros HK [HF Ha]. split; [by apply (forest_ext _ _ K)|done]. Qed.

Lemma detachKids_ok n l : forall fuel h K tmp,
  tree h K -> is_Some (h !! n) -> K n = l -> (length l <= fuel)%nat ->
  exists h', detachKids fuel h n tmp = Some (h', tmp ++ l) /\ same_payload h h' /\ same_outside l h h' /\
    (forall k, k ∈ l -> pn_parent <$> h' !! k = Some None) /\ tree h' (set_list n [] K).
Proof.
  induction l as [|k l IH]; intros fuel h K tmp HT Hn HK Hf; pose proof Hn as [nd Hnd];
    destruct (forest_kids _ _ _ (tree_forest _ _ HT) n nd Hnd) as [Hkids _]; rewrite HK in Hkids.
  { exists h. rewrite app_nil_r. split; [destruct fuel; simpl; rewrite Hnd; simpl; by rewrite Hkids|].
    split; [done|]. split; [done|]. split; [intros k Hk; by apply not_elem_of_nil in Hk|].
    apply (tree_ext _ K); [|done]. intros q. unfold set_list. by destruct (decide (q = n)) as [->|]. }
  simpl in Hf. destruct fuel as [|fuel]; [lia|]. simpl. rewrite Hnd. simpl. rewrite Hkids. simpl.
  assert (k ∈ K n) as Hin by (rewrite HK; by left).
  destruct (forest_mem _ _ _ k n (tree_forest _ _ HT) Hin) as (kd & Hk & Hkp).
  destruct (setParent_ok h K k kd None HT Hk) as (h1 & E1 & Hp1 & Hs1 & Hk1 & HT1); [done|].
  rewrite E1. simpl. unfold moved_to in HT1. rewrite decide_False in HT1 by congruence.
  pose proof (forest_nodup _ _ _ (tree_forest _ _ HT) n) as Hnd'. rewrite HK in Hnd'. apply NoDup_cons in Hnd' as [Hkl Hndl].
  destruct (IH fuel h1 _ (tmp ++ [k]) HT1) as (h' & E' & Hp' & Hs' & Hk' & HT').
  { by apply (same_payload_dom h). }
  { unfold attach. rewrite decide_False by done. unfold detach. rewrite HK, filter_cons_False by (intros Hc; by apply Hc).
    by apply filter_notin. }
  { lia. }
  exists h'. split; [rewrite E'; by rewrite <- app_assoc|]. split; [by eapply same_payload_trans|]. split; [|split].
  - intros q Hq. apply not_elem_of_cons in Hq as [Hqk Hql]. rewrite (Hs1 q Hqk). by apply Hs'.
  - intros q [->|Hq]%elem_of_cons; [|by apply Hk']. rewrite <- (Hs' k Hkl). done.
  - apply (tree_ext _ _ _) with (2 := HT'). intros q. unfold set_list, attach, detach.
    rewrite (decide_False (P := None = Some q)) by done.
    destruct (decide (q = n)) as [->|Hqn]; [done|]. apply filter_notin. intros Hi.
    destruct (forest_mem _ _ _ k q (tree_forest _ _ HT) Hi) as (kd' & ? & ?). congruence.
Qed.

(** The way up from [n] is the same when it avoids the nodes that were moved. *)
Lemma above_outside l h h' x n :
  (forall k, k ∈ l -> ~ above h k n) -> same_outside l h h' -> above h' x n <-> above h x n.
Proof.
  intros Hl Hs. split.
  - intros Ha. induction Ha as [a|a b c Hab _ IH]; [constructor|].
    assert (a ∉ l) as Hal by (intros Hi; apply (Hl a Hi); constructor).
    assert (parent_of h b a) as Hb by (unfold parent_of; by rewrite (Hs a Hal)).
    econstructor; [exact Hb|]. apply IH. intros k Hk Hab'. apply (Hl k Hk). by apply (above_step h k b a).
  - intros Ha. induction Ha as [a|a b c Hab _ IH]; [constructor|].
    assert (a ∉ l) as Hal by (intros Hi; apply (Hl a Hi); constructor).
    assert (parent_of h' b a) as Hb by (unfold parent_of; by rewrite <- (Hs a Hal)).
    econstructor; [exact Hb|]. apply IH. intros k Hk Hab'. apply (Hl k Hk). by apply (above_step h k b a).
Qed.

Lemma attachAll_ok n l : forall h K,
  tree h K -> is_Some (h !! n) -> NoDup l ->
  (forall k, k ∈ l -> pn_parent <$> h !! k = Some None /\ ~ above h k n) ->
  exists h', attachAll h n l = Some h' /\ same_payload h h' /\ same_outside l h h' /\
    (forall k, k ∈ l -> pn_parent <$> h' !! k = Some (Some n)) /\ tree h' (set_list n (rev l ++ K n) K).
Proof.
  induction l as [|k l IH]; intros h K HT Hn Hnd Hl; simpl.
  { exists h. split; [done|]. split; [done|]. split; [done|]. split; [intros k Hk; by apply not_elem_of_nil in Hk|].
    apply (tree_ext _ K); [|done]. intros q. unfold set_list. by destruct (decide (q = n)) as [->|]. }
  apply NoDup_cons in Hnd as [Hkl Hnd]. destruct (Hl k ltac:(by left)) as [Hkp Hka].
  destruct (h !! k) as [kd|] eqn:Hk; [|done]. simpl in Hkp. injection Hkp as Hkp.
  destruct (setParent_ok h K k kd (Some n) HT Hk) as (h1 & E1 & Hp1 & Hs1 & Hk1 & HT1); [by intros p [= <-]|].
  rewrite E1. simpl. unfold moved_to in HT1. rewrite decide_False in HT1 by congruence.
  assert (forall x, above h1 x n <-> above h x n) as Hab.
  { intros x. apply (above_outside [k]); [by intros k' ->%list_elem_of_singleton|]. intros q Hq. apply Hs1.
    intros ->. apply Hq. by left. }
  destruct (IH h1 _ HT1) as (h' & E' & Hp' & Hs' & Hk' & HT').
  { by apply (same_payload_dom h). }
  { done. }
  { intros k' Hk'. assert (k' <> k) by (intros ->; done). rewrite <- (Hs1 k') by done. rewrite Hab. apply Hl. by right. }
  exists h'. split; [done|]. split; [by eapply same_payload_trans|]. split; [|split].
  - intros q Hq. apply not_elem_of_cons in Hq as [Hqk Hql]. rewrite (Hs1 q Hqk). by apply Hs'.
  - intros q [->|Hq]%elem_of_cons; [|by apply Hk']. rewrite <- (Hs' k Hkl). done.
  - assert (forall q, k ∉ K q) as Hout.
    { intros q Hi. destruct (forest_mem _ _ _ k q (tree_forest _ _ HT) Hi) as (kd' & ? & ?). congruence. }
    apply (tree_ext _ _ _) with (2 := HT'). intros q. unfold set_list, attach, detach.
    destruct (decide (q = n)) as [->|Hqn].
    + rewrite decide_True by done. rewrite filter_notin by apply Hout. by rewrite <- app_assoc.
    + rewrite decide_False by congruence. by rewrite filter_notin.
Qed.

Section SortKids.
Context (sort : (node_ptr -> node_ptr -> bool) -> list node_ptr -> list node_ptr)
        (sort_permutes : forall less l, sort less l ≡ₚ l).

(** Sorting the kids of [n] permutes its list and changes nothing else. *)
Lemma sortKids_ok h K n :
  tree h K -> is_Some (h !! n) ->
  exists h' l, sortKids sort h n = Some h' /\ same_payload h h' /\ l ≡ₚ K n /\ tree h' (set_list n l K) /\
    (forall q, pn_parent <$> h !! q = pn_parent <$> h' !! q).
Proof.
  intros HT Hn. unfold sortKids.
  pose proof (tree_forest _ _ HT) as HF. pose proof (tree_acyclic _ _ HT) as Ha.
  destruct (detachKids_ok n (K n) (size h) h K [] HT Hn eq_refl (kids_size h K n HF)) as (h1 & E1 & Hp1 & Hs1 & Hk1 & HT1).
  rewrite E1. simpl. set (l := sortSiblings sort h1 (K n)).
  assert (l ≡ₚ K n) as Hl by apply sort_permutes.
  assert (forall k, k ∈ K n -> ~ above h k n) as Hab.
  { intros k Hk. apply acyclic_above; [done|]. by apply (kids_iff h K k n HF). }
  destruct (attachAll_ok n (rev l) h1 (set_list n [] K) HT1) as (h2 & E2 & Hp2 & Hs2 & Hk2 & HT2).
  { by apply (same_payload_dom h). }
  { rewrite <- (Permutation_rev l), Hl. apply (forest_nodup _ _ _ HF). }
  { intros k Hk. rewrite <- (Permutation_rev l), Hl in Hk. split; [by apply Hk1|].
    rewrite (above_outside (K n) h h1); [by apply Hab|done|done]. }
  exists h2, l. split; [done|]. split; [by eapply same_payload_trans|]. split; [done|]. split.
  - apply (tree_ext _ _ _) with (2 := HT2). intros q. unfold set_list. destruct (decide (q = n)); [|done].
    rewrite decide_True by done. by rewrite rev_involutive, app_nil_r.
  - intros q. destruct (decide (q ∈ K n)) as [Hq|Hq].
    + rewrite Hk2 by (by rewrite <- (Permutation_rev l), Hl). by apply (kids_iff h K q n HF).
    + rewrite (Hs1 q Hq). apply Hs2. by rewrite <- (Permutation_rev l), Hl.
Qed.
End SortKids.

(** ** Theory: what a walk visits *)
Definition same_parents_all (h h' : heap) : Prop := forall q, pn_parent <$> h !! q = pn_parent <$> h' !! q.

(** The same tree: parents and payload; only the order of kids may differ. *)
Definition reordered (h h' : heap) : Prop := same_parents_all h h' /\ same_payload h h'.

Lemma reordered_refl h : reordered h h.
Proof. done. Qed.

Lemma reordered_trans h1 h2 h3 : reordered h1 h2 -> reordered h2 h3 -> reordered h1 h3.
Proof. intros [H1 H2] [H3 H4]. split; intros q; [by rewrite (H1 q)|by rewrite (H2 q)]. Qed.

Lemma reordered_sym h h' : reordered h h' -> reordered h' h.
Proof. intros [H1 H2]. split; intros q; symmetry; [apply H1|apply H2]. Qed.

Lemma reordered_above h h' n p : reordered h h' -> above h n p <-> above h' n p.
Proof.
  intros Hr. split; [apply above_parents, Hr|]. apply above_parents. apply (reordered_sym _ _ Hr).
Qed.

Lemma reordered_lookup h h' p nd : reordered h h' -> h !! p = Some nd ->
  exists nd', h' !! p = Some nd' /\ payload nd' = payload nd.
Proof.
  intros [_ Hp] Hn. specialize (Hp p). rewrite Hn in Hp. destruct (h' !! p) as [nd'|]; simpl in Hp; [|done].
  injection Hp as E. eexists. split; [done|]. unfold payload. congruence.
Qed.

Lemma above_antisym h x y : acyclic h -> above h x y -> above h y x -> x = y.
Proof.
  intros Ha Hxy Hyx. destruct (above_parent h x y Hxy) as [|(q & Hq & Hxq)]; [done|]. exfalso.
  apply (acyclic_above h q y Ha Hq). unfold above. by transitivity x.
Qed.

(** The nodes above a node are in line. *)
Lemma above_linear h x y q : above h x q -> above h y q -> above h x y \/ above h y x.
Proof.
  intros Hx. revert y. induction Hx as [a|a b c Hab Hbc IH]; intros y Hy; [by right|].
  destruct (above_parent h y a Hy) as [->|(b' & Hb' & Hyb)]; [left; by econstructor|].
  unfold parent_of in *. assert (b' = b) as -> by congruence. by apply IH.
Qed.

(** Some stream strictly above [n] is open. *)
Definition open_above (h : heap) (n : node_ptr) : Prop :=
  exists x xd, x <> n /\ above h x n /\ h !! x = Some xd /\ pn_id xd <> 0 /\ pn_state xd = priorityNodeOpen.

Lemma reordered_open h h' n : reordered h h' -> open_above h n -> open_above h' n.
Proof.
  intros Hr (x & xd & Hne & Ha & Hx & Hid & Hst). destruct (reordered_lookup h h' x xd Hr Hx) as (xd' & Hx' & Hp).
  exists x, xd'. split; [done|]. split; [by apply (reordered_above h)|]. unfold payload in Hp. split; [done|].
  injection Hp as _ E1 _ E2 _ _. by rewrite E1, E2.
Qed.

Lemma open_above_kid h n nd k : acyclic h -> h !! n = Some nd -> parent_of h n k ->
  open_above h k <-> open_above h n \/ (pn_id nd <> 0 /\ pn_state nd = priorityNodeOpen).
Proof.
  intros Ha Hn Hk. split.
  - intros (x & xd & Hne & Hx & Hxd & Hid & Hst). destruct (above_parent h x k Hx) as [|(q & Hq & Hxq)]; [done|].
    unfold parent_of in *. assert (q = n) as -> by congruence. destruct (decide (x = n)) as [->|Hxn].
    + right. by simplify_eq.
    + left. exists x, xd. done.
  - intros [(x & xd & Hne & Hx & Hxd & H)|[Hid Hst]].
    + exists x, xd. split; [|split; [by apply (above_step h x n k)|done]]. intros ->.
      by apply (acyclic_above h n k Ha Hk).
    + exists n, nd. split; [|split; [apply (above_step h n n k); [done|constructor]|done]]. intros ->.
      by apply (acyclic_irrefl h k).
Qed.

Section WalkTheory.
Context {A : Type} (sort : (node_ptr -> node_ptr -> bool) -> list node_ptr -> list node_ptr)
        (sort_permutes : forall less l, sort less l ≡ₚ l)
        (f : node_ptr -> bool -> heap -> A -> option (heap * A * bool))
        (I : A -> Prop) (skipped : writeQueue -> Prop)
        (J : heap -> Prop) (J_reordered : forall h h', reordered h h' -> J h -> J h').

(** The callback returns, leaves the links alone, and changes no node when it lets
    the walk go on. *)
Context (f_ok : forall n op h K a, tree h K -> J h -> is_Some (h !! n) -> I a ->
  exists h' a' b, f n op h a = Some (h', a', b) /\ same_links h h' /\
    (b = false -> h' = h /\ I a' /\ forall nd, h !! n = Some nd -> skipped (pn_q nd))).

(** [q] has nothing for the walk. *)
Definition passed (h : heap) (q : node_ptr) : Prop :=
  forall qd, h !! q = Some qd -> pn_q qd = [] \/ skipped (pn_q qd).

(** The walk below [n] ended in a call of [f] at [q], all between having been passed. *)
Definition halted (h : heap) (n : node_ptr) (h' : heap) (a' : A) : Prop :=
  exists q qd op h1 a1, above h n q /\ h !! q = Some qd /\ pn_q qd <> [] /\ reordered h h1 /\
    (exists K1, tree h1 K1) /\ I a1 /\
    (op = true <-> open_above h q) /\ f q op h1 a1 = Some (h', a', true) /\
    forall x, above h n x -> above h x q -> x <> q -> passed h x.

Lemma passed_reordered h h' q : reordered h h' -> passed h q -> passed h' q.
Proof.
  intros Hr Hq qd' Hqd'. destruct (reordered_lookup h' h q qd' (reordered_sym _ _ Hr) Hqd') as (qd & Hqd & E).
  specialize (Hq qd Hqd). unfold payload in E. injection E as E1 _ _ _ _ _. by rewrite <- E1.
Qed.

Lemma halted_reordered h h2 n h' a' : reordered h h2 -> halted h2 n h' a' -> halted h n h' a'.
Proof.
  intros Hr (q & qd & op & h1 & a1 & Hq & Hqd & Hne & Hr1 & HK1' & Ha1 & Hop & Hf & Hx).
  destruct (reordered_lookup h2 h q qd (reordered_sym _ _ Hr) Hqd) as (qd' & Hqd' & E).
  exists q, qd', op, h1, a1. split; [by apply (reordered_above h h2)|]. split; [done|].
  split; [unfold payload in E; by injection E as -> _ _ _ _ _|]. split; [by eapply reordered_trans|]. split; [done|].
  split; [done|]. split.
  { rewrite Hop. split; [apply reordered_open; by apply reordered_sym|by apply reordered_open]. }
  split; [done|]. intros x Hnx Hxq Hxne. apply (passed_reordered h2); [by apply reordered_sym|].
  apply Hx; [by apply (reordered_above h h2)|by apply (reordered_above h h2)|done].
Qed.

(** What a walk over the subtrees of [l] does. *)
Definition walked (l : list node_ptr) (h : heap) (K : node_ptr -> list node_ptr) (r : option (heap * A * bool)) : Prop :=
  exists h' a' b K', r = Some (h', a', b) /\ tree h' K' /\ same_parents_all h h' /\
    (forall q, (forall k, k ∈ l -> ~ above h k q) -> K' q = K q) /\
    if (b : bool) then exists k, k ∈ l /\ halted h k h' a'
    else I a' /\ same_payload h h' /\ forall k q, k ∈ l -> above h k q -> passed h q.

Lemma chain_reordered h h' l : forall k, reordered h h' -> chain h k l -> chain h' k l.
Proof.
  induction l as [|a l IH]; intros [k|] Hr Hc; try done. destruct Hc as [-> (kd & Hk & Hc)]. split; [done|].
  destruct (Hr) as [Hp _]. specialize (Hp k). rewrite Hk in Hp. destruct (h' !! k) as [kd'|]; simpl in Hp; [|done].
  exists kd'. split; [done|]. injection Hp as <-. by apply IH.
Qed.

Lemma walked_cons k l h K h1 a1 K1 r :
  tree h1 K1 -> reordered h h1 -> I a1 ->
  (forall q, ~ above h k q -> K1 q = K q) -> (forall q, above h k q -> passed h q) ->
  walked l h1 K1 r -> walked (k :: l) h K r.
Proof.
  intros HT1 Hr Ha1 HK1 Hpass (h' & a' & b & K' & -> & HT' & Hp' & HK' & Hb).
  exists h', a', b, K'. split; [done|]. split; [done|]. split; [intros q; by rewrite (proj1 Hr q)|]. split.
  { intros q Hq. rewrite HK'; [apply HK1, Hq; by left|]. intros k' Hk' Hab. apply (Hq k'); [by right|].
    by apply (reordered_above h h1). }
  destruct b.
  - destruct Hb as (k' & Hk' & Hh). exists k'. split; [by right|]. by apply (halted_reordered h h1).
  - destruct Hb as (Ha' & Hs' & Hall). split; [done|]. split; [eapply same_payload_trans; [apply Hr|done]|].
    intros k' q [->|Hk']%elem_of_cons Hab; [by apply Hpass|]. apply (passed_reordered h1); [by apply reordered_sym|].
    apply (Hall k'); [done|]. by apply (reordered_above h h1).
Qed.

Lemma walkKids_ok n hm walk :
  (forall k h K a, tree h K -> reordered hm h -> parent_of h n k -> I a -> walked [k] h K (walk k h a)) ->
  forall l m h K a d, tree h K -> reordered hm h -> is_Some (h !! n) -> K n = d ++ l -> I a -> (length l <= m)%nat ->
    walked l h K (walkKids m walk (head l) h a).
Proof.
  intros Hwalk. induction l as [|k l IH]; intros m h K a d HT Hr Hn HK Ha Hm.
  { destruct m; simpl; exists h, a, false, K; (split_and!; try done); intros k q Hk; by apply not_elem_of_nil in Hk. }
  simpl in Hm. destruct m as [|m]; [lia|]. simpl.
  assert (parent_of h n k) as Hk by (apply (kids_iff h K k n (tree_forest _ _ HT)); rewrite HK; set_solver).
  destruct (Hwalk k h K a HT Hr Hk Ha) as (h1 & a1 & b & K1 & E & HT1 & Hp1 & HK1 & Hb). rewrite E. simpl.
  assert (forall q, ~ above h k q -> K1 q = K q) as HK1'.
  { intros q Hq. apply HK1. by intros k' ->%list_elem_of_singleton. }
  destruct b.
  { exists h1, a1, true, K1. split_and!; try done.
    - intros q Hq. apply HK1', Hq. by left.
    - destruct Hb as (k' & ->%list_elem_of_singleton & Hh). exists k. split; [by left|done]. }
  destruct Hb as (Ha1 & Hs1 & Hall). assert (reordered h h1) as Hr1 by done.
  assert (K1 n = d ++ k :: l) as HKn by (rewrite HK1'; [done|by apply acyclic_above; [apply HT|]]).
  assert (is_Some (h1 !! n)) as Hn1 by (by apply (same_payload_dom h)).
  destruct Hn1 as [nd1 Hnd1]. destruct (forest_kids _ _ _ (tree_forest _ _ HT1) n nd1 Hnd1) as [_ Hs].
  rewrite HKn in Hs. apply siblings_cat in Hs as [_ [(kd & Hkd & _ & _ & Hnext) _]]. rewrite Hkd. simpl. rewrite Hnext.
  assert (orelse (head l) None = head l) as -> by (by destruct l).
  apply (walked_cons k l h K h1 a1 K1); try done.
  - intros q Hq. apply (Hall k q); [by apply list_elem_of_singleton|done].
  - apply (IH m h1 K1 a1 (d ++ [k])); try done; [by eapply reordered_trans|by rewrite HKn, <- app_assoc|lia].
Qed.

Lemma above_kid h n q : above h n q -> q = n \/ exists k, parent_of h n k /\ above h k q.
Proof.
  intros Ha. unfold above in Ha. apply rtc_inv_r in Ha as [->|(k & Hq & Hk)]; [by left|right]. exists k. done.
Qed.

(** Reordering the kids of [n] in the uncommon case. *)
Lemma resort_ok h K n b :
  tree h K -> is_Some (h !! n) ->
  exists h2 K2, (if (b : bool) then sortKids sort h n else Some h) = Some h2 /\ reordered h h2 /\ tree h2 K2 /\
    K2 n ≡ₚ K n /\ forall q, q <> n -> K2 q = K q.
Proof.
  intros HT Hn. destruct b; [|by exists h, K].
  destruct (sortKids_ok sort sort_permutes h K n HT Hn) as (h2 & l & E & Hp & Hl & HT2 & Hpar).
  exists h2, (set_list n l K). split; [done|]. split; [done|]. split; [done|]. unfold set_list. split.
  - by rewrite decide_True.
  - intros q Hq. by rewrite decide_False.
Qed.

(** From the walks over the kids to the walk from [n]. *)
Lemma walked_up n h K h2 K2 r :
  tree h K -> reordered h h2 -> K2 n ≡ₚ K n -> (forall q, q <> n -> K2 q = K q) -> passed h n ->
  walked (K2 n) h2 K2 r -> walked [n] h K r.
Proof.
  intros HT Hr HKn HKq Hpass (h' & a' & b & K' & -> & HT' & Hp' & HK' & Hb).
  assert (forall k, k ∈ K2 n <-> parent_of h n k) as Hkids.
  { intros k. rewrite HKn. apply kids_iff, HT. }
  exists h', a', b, K'. split; [done|]. split; [done|]. split; [intros q; by rewrite (proj1 Hr q)|]. split.
  { intros q Hq. assert (~ above h n q) as Hnq by (apply Hq; by left).
    assert (q <> n) by (intros ->; apply Hnq; constructor). rewrite HK', HKq; [done|done|].
    intros k Hk Hab. apply Hnq. apply (reordered_above h h2) in Hab; [|done].
    unfold above in *. eapply rtc_r; [exact Hab|]. by apply Hkids. }
  destruct b.
  - exists n. split; [by left|]. destruct Hb as (k & Hk%Hkids & Hh). apply (halted_reordered h h2) in Hh; [|done].
    destruct Hh as (q & qd & op & h1 & a1 & Hq & Hqd & Hne & Hr1 & HK1' & Ha1 & Hop & Hf & Hx).
    exists q, qd, op, h1, a1. split; [unfold above in *; by eapply rtc_r|]. do 7 (split; [done|]).
    intros x Hnx Hxq Hxne. destruct (decide (x = n)) as [->|Hxn]; [done|].
    destruct (above_linear h k x q Hq Hxq) as [Hkx|Hxk]; [by apply Hx|].
    destruct (above_parent h x k Hxk) as [->|(p & Hp & Hxp)]; [apply Hx; [constructor|done|done]|].
    unfold parent_of in *. assert (p = n) as -> by congruence. exfalso. apply Hxn. apply (above_antisym h); [apply HT|done|done].
  - destruct Hb as (Ha' & Hs' & Hall). split; [done|]. split; [eapply same_payload_trans; [apply Hr|done]|].
    intros k q ->%list_elem_of_singleton Hab. destruct (above_kid h n q Hab) as [->|(k & Hk & Hkq)]; [done|].
    apply (passed_reordered h2); [by apply reordered_sym|]. apply (Hall k); [by apply Hkids|]. by apply (reordered_above h h2).
Qed.

Lemma walk_ok fuel : forall op n h K a nd anc,
  tree h K -> J h -> h !! n = Some nd -> chain h (pn_parent nd) anc -> I a -> (size h <= length anc + fuel)%nat ->
  (op = true <-> open_above h n) ->
  walked [n] h K (walkReadyInOrder sort f fuel op n h a).
Proof.
  induction fuel as [|fuel IH]; intros op n h K a nd anc HT HJ Hn Hc Ha Hf Hop.
  { exfalso. assert (chain h (Some n) (n :: anc)) as Hc' by (split; [done|]; eauto).
    pose proof (chain_size h (n :: anc) (Some n) (tree_acyclic _ _ HT) Hc'). simpl in *. lia. }
  simpl. rewrite Hn. simpl.
  assert (exists h1 a1 b, (if queue_empty (pn_q nd) then Some (h, a, false) else f n op h a) = Some (h1, a1, b) /\
            if (b : bool) then pn_q nd <> [] /\ f n op h a = Some (h1, a1, true) /\ same_links h h1
            else h1 = h /\ I a1 /\ passed h n) as (h1 & a1 & b & E1 & Hb).
  { unfold queue_empty. destruct (Z.eqb_spec (zlen (pn_q nd)) 0) as [Hz|Hz].
    - exists h, a, false. split; [done|]. split; [done|]. split; [done|]. intros nd' Hn'. left.
      rewrite Hn in Hn'. injection Hn' as <-. by destruct (pn_q nd).
    - destruct (f_ok n op h K a HT HJ ltac:(eauto) Ha) as (h1 & a1 & b & E & Hs & Hb). exists h1, a1, b. split; [done|].
      destruct b; [split; [by intros E0; rewrite E0 in Hz|done]|]. destruct (Hb eq_refl) as (-> & ? & ?).
      split; [done|]. split; [done|]. intros nd' Hn'. right. eauto. }
  rewrite E1. simpl. destruct b.
  { destruct Hb as (Hne & Ef & Hs). exists h1, a1, true, K. split; [done|]. split; [by apply (tree_links h)|].
    split; [exact (same_links_parents _ _ Hs)|]. split; [done|]. exists n. split; [by left|].
    exists n, nd, op, h, a. split; [constructor|]. do 2 (split; [done|]). split; [done|]. split; [by exists K|]. do 3 (split; [done|]).
    intros x Hnx Hxn Hxne. by destruct (above_antisym h n x (tree_acyclic _ _ HT) Hnx Hxn). }
  destruct Hb as (-> & Ha1 & Hpass). rewrite Hn. simpl.
  pose proof (forest_kids _ _ _ (tree_forest _ _ HT) n nd Hn) as [Hkids Hsib]. rewrite Hkids.
  destruct (K n) as [|k l] eqn:HKn; simpl.
  { apply (walked_up n h K h K); try done. rewrite HKn. exists h, a1, false, K. split_and!; try done.
    intros k q Hk. by apply not_elem_of_nil in Hk. }
  destruct Hsib as [(kd & Hkd & _ & _ & Hnext) Hsib]. rewrite Hkd. simpl.
  pose proof (kids_size h K n (tree_forest _ _ HT)) as Hsize. rewrite HKn in Hsize. simpl in Hsize.
  destruct (needSort_total h n (pn_weight kd) l (size h) (Some k) Hsib ltac:(lia)) as [b Eb].
  rewrite Hnext. assert (orelse (head l) None = head l) as -> by (by destruct l). rewrite Eb. simpl.
  destruct (resort_ok h K n b HT ltac:(eauto)) as (h2 & K2 & E2 & Hr2 & HT2 & HK2 & HK2').
  rewrite E2. simpl. destruct (reordered_lookup h h2 n nd Hr2 Hn) as (nd2 & Hn2 & Hpl). rewrite Hn2. simpl.
  destruct (forest_kids _ _ _ (tree_forest _ _ HT2) n nd2 Hn2) as [-> _].
  apply (walked_up n h K h2 K2); try done.
  apply (walkKids_ok n h2) with (d := []); try done; [|by apply kids_size, HT2].
  intros k' h' K' a' HT' Hr' Hk' Ha'. pose proof (reordered_trans _ _ _ Hr2 Hr') as Hr0.
  apply parent_of_Some in Hk' as (kd' & Hkd' & Hkp').
  apply (IH _ k' h' K' a' kd' (n :: anc)); try done.
  - by apply (J_reordered h).
  - rewrite Hkp'. apply (chain_reordered h h' (n :: anc) (Some n) Hr0). split; [done|]. eauto.
  - rewrite <- (same_payload_size h h'); [simpl; lia|apply Hr0].
  - destruct (reordered_lookup h h' n nd Hr0 Hn) as (nd' & Hn' & Hpl').
    rewrite (open_above_kid h' n nd' k'); [|apply HT'|done|apply parent_of_Some; eauto].
    assert (pn_id nd' = pn_id nd /\ pn_state nd' = pn_state nd) as [-> ->].
    { unfold payload in Hpl'. by injection Hpl' as _ E3 _ E4 _ _. }
    assert (open_above h' n <-> open_above h n) as ->.
    { split; apply reordered_open; [by apply reordered_sym|done]. }
    rewrite <- Hop. destruct (Z.eqb_spec (pn_id nd) 0); simpl.
    + split; [by left|]. intros [|[? _]]; done.
    + rewrite orb_true_iff, bool_decide_eq_true. tauto.
Qed.
End WalkTheory.
