(* ===== verification/PrioritySched.v ===== *)
(** * Package http2: the priority write scheduler

    Models the [priorityWriteScheduler] of src/http2/writesched_priority.go on the
    tree of PriorityTree.  [sort.Sort] may use any algorithm: it is a choice given
    to [Pop], of which only that it permutes is used. *)

From S2P Require Import Prelude Flow Frame WriteFrames WriteSched PriorityTree.

(** The root of the tree is the node at address 0. *)
Definition root : node_ptr := 0%nat.

Record priorityWriteScheduler := mkPWS {
  pw_heap : heap;
  pw_fresh : node_ptr;                     (* the next address *)
  pw_nodes : gmap Z node_ptr;
  pw_maxID : Z;                            (* uint32 *)
  pw_closedNodes : list node_ptr;
  pw_idleNodes : list node_ptr;
  pw_maxClosedNodesInTree : Z;             (* int *)
  pw_maxIdleNodesInTree : Z;               (* int *)
  pw_writeThrottleLimit : Z;               (* int32 *)
  pw_enableWriteThrottle : bool;
  pw_queuePool : writeQueuePool
}.

Record PriorityWriteSchedulerConfig := mkConfig {
  MaxClosedNodesInTree : Z;
  MaxIdleNodesInTree : Z;
  ThrottleOutOfOrderWrites : bool
}.

Definition zeroNode : priorityNode := mkNode [] 0 0 priorityNodeOpen 0 0 None None None None.

Definition NewPriorityWriteScheduler (cfg : option PriorityWriteSchedulerConfig) : priorityWriteScheduler :=
  let cfg := match cfg with None => mkConfig 10 10 false | Some cfg => cfg end in
  mkPWS {[ root := zeroNode ]} 1%nat {[ 0 := root ]} 0 [] []
    (MaxClosedNodesInTree cfg) (MaxIdleNodesInTree cfg)
    (if ThrottleOutOfOrderWrites cfg then 1024 else MaxInt32) (ThrottleOutOfOrderWrites cfg) [].

Definition set_heap v (ws : priorityWriteScheduler) := mkPWS v (pw_fresh ws) (pw_nodes ws) (pw_maxID ws) (pw_closedNodes ws) (pw_idleNodes ws) (pw_maxClosedNodesInTree ws) (pw_maxIdleNodesInTree ws) (pw_writeThrottleLimit ws) (pw_enableWriteThrottle ws) (pw_queuePool ws).
Definition set_nodes v (ws : priorityWriteScheduler) := mkPWS (pw_heap ws) (pw_fresh ws) v (pw_maxID ws) (pw_closedNodes ws) (pw_idleNodes ws) (pw_maxClosedNodesInTree ws) (pw_maxIdleNodesInTree ws) (pw_writeThrottleLimit ws) (pw_enableWriteThrottle ws) (pw_queuePool ws).
Definition set_maxID v (ws : priorityWriteScheduler) := mkPWS (pw_heap ws) (pw_fresh ws) (pw_nodes ws) v (pw_closedNodes ws) (pw_idleNodes ws) (pw_maxClosedNodesInTree ws) (pw_maxIdleNodesInTree ws) (pw_writeThrottleLimit ws) (pw_enableWriteThrottle ws) (pw_queuePool ws).
Definition set_closedNodes v (ws : priorityWriteScheduler) := mkPWS (pw_heap ws) (pw_fresh ws) (pw_nodes ws) (pw_maxID ws) v (pw_idleNodes ws) (pw_maxClosedNodesInTree ws) (pw_maxIdleNodesInTree ws) (pw_writeThrottleLimit ws) (pw_enableWriteThrottle ws) (pw_queuePool ws).
Definition set_idleNodes v (ws : priorityWriteScheduler) := mkPWS (pw_heap ws) (pw_fresh ws) (pw_nodes ws) (pw_maxID ws) (pw_closedNodes ws) v (pw_maxClosedNodesInTree ws) (pw_maxIdleNodesInTree ws) (pw_writeThrottleLimit ws) (pw_enableWriteThrottle ws) (pw_queuePool ws).
Definition set_limit v (ws : priorityWriteScheduler) := mkPWS (pw_heap ws) (pw_fresh ws) (pw_nodes ws) (pw_maxID ws) (pw_closedNodes ws) (pw_idleNodes ws) (pw_maxClosedNodesInTree ws) (pw_maxIdleNodesInTree ws) v (pw_enableWriteThrottle ws) (pw_queuePool ws).
Definition set_pool v (ws : priorityWriteScheduler) := mkPWS (pw_heap ws) (pw_fresh ws) (pw_nodes ws) (pw_maxID ws) (pw_closedNodes ws) (pw_idleNodes ws) (pw_maxClosedNodesInTree ws) (pw_maxIdleNodesInTree ws) (pw_writeThrottleLimit ws) (pw_enableWriteThrottle ws) v.

(** [&priorityNode{q: *ws.queuePool.get(), id: streamID, weight: priorityDefaultWeight, state: state}] *)
Definition newNode (ws : priorityWriteScheduler) (streamID : Z) (state : priorityNodeState)
  : priorityWriteScheduler * node_ptr :=
  let '(pool, q) := pool_get (pw_queuePool ws) in
  let n := pw_fresh ws in
  (mkPWS (<[n := mkNode q streamID priorityDefaultWeight state 0 0 None None None None]> (pw_heap ws)) (S n)
     (pw_nodes ws) (pw_maxID ws) (pw_closedNodes ws) (pw_idleNodes ws) (pw_maxClosedNodesInTree ws)
     (pw_maxIdleNodesInTree ws) (pw_writeThrottleLimit ws) (pw_enableWriteThrottle ws) pool, n).

Definition on_heap (ws : priorityWriteScheduler) (f : heap -> option heap) : option priorityWriteScheduler :=
  h ← f (pw_heap ws); Some (set_heap h ws).

(** ** Opening *)
Definition OpenStream (ws : priorityWriteScheduler) (streamID PusherID : Z) : option priorityWriteScheduler :=
  match pw_nodes ws !! streamID with
  | Some curr =>
      nd ← pw_heap ws !! curr;
      if decide (pn_state nd <> priorityNodeIdle) then None
      else on_heap ws (fun h => upd h curr (set_state priorityNodeOpen))
  | None =>
      let parent := match pw_nodes ws !! PusherID with Some p => p | None => root end in
      let '(ws, n) := newNode ws streamID priorityNodeOpen in
      ws ← on_heap ws (fun h => setParent h n (Some parent));
      let ws := set_nodes (<[streamID := n]> (pw_nodes ws)) ws in
      Some (if streamID >? pw_maxID ws then set_maxID streamID ws else ws)
  end.

(** ** Removing *)

(** [for k := n.kids; k != nil; k = k.next { k.setParent(n.parent) }]: [k.next] is
    read after [k] was moved. *)
Fixpoint moveKids (fuel : nat) (h : heap) (n : node_ptr) (k : option node_ptr) : option heap :=
  match k with
  | None => Some h
  | Some p =>
      match fuel with
      | O => None
      | S fuel =>
          nd ← h !! n;
          h ← setParent h p (pn_parent nd);
          kd ← h !! p;
          moveKids fuel h n (pn_next kd)
      end
  end.

Definition removeNode (ws : priorityWriteScheduler) (n : node_ptr) : option priorityWriteScheduler :=
  nd ← pw_heap ws !! n;
  ws ← on_heap ws (fun h => moveKids (size h) h n (pn_kids nd));
  ws ← on_heap ws (fun h => setParent h n None);
  nd ← pw_heap ws !! n;
  Some (set_nodes (delete (pn_id nd) (pw_nodes ws)) ws).

(** [addClosedOrIdleNode] on a list given by its field. *)
Definition addClosedOrIdleNode (get : priorityWriteScheduler -> list node_ptr)
    (set : list node_ptr -> priorityWriteScheduler -> priorityWriteScheduler)
    (maxSize : Z) (ws : priorityWriteScheduler) (n : node_ptr) : option priorityWriteScheduler :=
  if maxSize =? 0 then Some ws
  else
    ws ← (if zlen (get ws) =? maxSize then
            oldest ← head (get ws);
            ws ← removeNode ws oldest;
            Some (set (tail (get ws)) ws)
          else Some ws);
    Some (set (get ws ++ [n]) ws).

(** ** Closing *)
Definition CloseStream (ws : priorityWriteScheduler) (streamID : Z) : option priorityWriteScheduler :=
  if streamID =? 0 then None
  else
    n ← pw_nodes ws !! streamID;
    nd ← pw_heap ws !! n;
    if decide (pn_state nd <> priorityNodeOpen) then None
    else
      ws ← on_heap ws (fun h => upd h n (set_state priorityNodeClosed));
      ws ← on_heap ws (fun h => addBytes h n (i64 (- pn_bytes nd)));
      let ws := set_pool (pool_put (pw_queuePool ws) (pn_q nd)) ws in
      ws ← on_heap ws (fun h => upd h n (set_q []));
      if pw_maxClosedNodesInTree ws >? 0
      then addClosedOrIdleNode pw_closedNodes set_closedNodes (pw_maxClosedNodesInTree ws) ws n
      else removeNode ws n.

(** ** Changing priorities *)

(** [for x := parent.parent; x != nil; x = x.parent { if x == n { parent.setParent(n.parent); break } }] *)
Fixpoint moveAbove (fuel : nat) (h : heap) (n parent : node_ptr) (x : option node_ptr) : option heap :=
  match x with
  | None => Some h
  | Some p =>
      match fuel with
      | O => None
      | S fuel =>
          if decide (p = n) then nd ← h !! n; setParent h parent (pn_parent nd)
          else xd ← h !! p; moveAbove fuel h n parent (pn_parent xd)
      end
  end.

(** [k := parent.kids; for k != nil { next := k.next; if k != n { k.setParent(n) }; k = next }] *)
Fixpoint adoptSiblings (fuel : nat) (h : heap) (n : node_ptr) (k : option node_ptr) : option heap :=
  match k with
  | None => Some h
  | Some p =>
      match fuel with
      | O => None
      | S fuel =>
          kd ← h !! p;
          h ← (if decide (p <> n) then setParent h p (Some n) else Some h);
          adoptSiblings fuel h n (pn_next kd)
      end
  end.

(** The part of [AdjustStream] on a node [n] and a given parent in the tree. *)
Definition reprioritize (h : heap) (n parent : node_ptr) (priority : PriorityParam) : option heap :=
  if decide (n = parent) then Some h
  else
    pd ← h !! parent;
    h ← moveAbove (size h) h n parent (pn_parent pd);
    h ← (if Exclusive priority then pd ← h !! parent; adoptSiblings (size h) h n (pn_kids pd) else Some h);
    h ← setParent h n (Some parent);
    upd h n (set_weight (Weight priority)).

Definition AdjustStream (ws : priorityWriteScheduler) (streamID : Z) (priority : PriorityParam)
  : option priorityWriteScheduler :=
  if streamID =? 0 then None
  else
    r ← match pw_nodes ws !! streamID with
        | Some n => Some (Some (ws, n))
        | None =>
            if (streamID <=? pw_maxID ws) || (pw_maxIdleNodesInTree ws =? 0) then Some None
            else
              let ws := set_maxID streamID ws in
              let '(ws, n) := newNode ws streamID priorityNodeIdle in
              ws ← on_heap ws (fun h => setParent h n (Some root));
              let ws := set_nodes (<[streamID := n]> (pw_nodes ws)) ws in
              ws ← addClosedOrIdleNode pw_idleNodes set_idleNodes (pw_maxIdleNodesInTree ws) ws n;
              Some (Some (ws, n))
        end;
    match (r : option (priorityWriteScheduler * node_ptr)) with
    | None => Some ws
    | Some (ws, n) =>
        match pw_nodes ws !! StreamDep priority with
        | None =>
            ws ← on_heap ws (fun h => setParent h n (Some root));
            on_heap ws (fun h => upd h n (set_weight priorityDefaultWeight))
        | Some parent => on_heap ws (fun h => reprioritize h n parent priority)
        end
    end.

(** ** Queueing and dequeueing *)
Definition Push (ws : priorityWriteScheduler) (wr : FrameWriteRequest) : option priorityWriteScheduler :=
  n ← (if isControl wr then Some root
       else match pw_nodes ws !! StreamID wr with
            | Some n => Some n
            | None => if DataSize wr >? 0 then None else Some root
            end);
  nd ← pw_heap ws !! n;
  on_heap ws (fun h => upd h n (set_q (queue_push (pn_q nd) wr))).

(** What the callback of [Pop] changes besides the tree. *)
Record pop_state := mkPop {
  po_fl : flows;
  po_limit : Z;                            (* ws.writeThrottleLimit *)
  po_wr : FrameWriteRequest;
  po_ok : bool
}.

Definition popCallback (maxFrameSize : Z) (enableWriteThrottle : bool) (n : node_ptr) (openParent : bool)
    (h : heap) (a : pop_state) : option (heap * pop_state * bool) :=
  let limit := if openParent then po_limit a else MaxInt32 in
  nd ← h !! n;
  '(fl, q, (wr, ok)) ← queue_consume maxFrameSize (po_fl a) (pn_q nd) limit;
  h ← upd h n (set_q q);
  if negb ok then Some (h, mkPop fl (po_limit a) wr ok, false)
  else
    h ← addBytes h n (i64 (DataSize wr));
    let limit :=
      if openParent then
        let l := i32 (po_limit a + 1024) in if l <? 0 then MaxInt32 else l
      else if enableWriteThrottle then 1024 else po_limit a in
    Some (h, mkPop fl limit wr ok, true).

Definition Pop (sort : (node_ptr -> node_ptr -> bool) -> list node_ptr -> list node_ptr) (maxFrameSize : Z)
    (fl : flows) (ws : priorityWriteScheduler)
  : option (flows * priorityWriteScheduler * (FrameWriteRequest * bool)) :=
  let h := pw_heap ws in
  '(h, a, _) ← walkReadyInOrder sort (popCallback maxFrameSize (pw_enableWriteThrottle ws))
                 (size h) false root h (mkPop fl (pw_writeThrottleLimit ws) emptyRequest false);
  Some (po_fl a, set_limit (po_limit a) (set_heap h ws), (po_wr a, po_ok a)).

#[global] Instance priority_scheduler :
  WriteScheduler priorityWriteScheduler ((node_ptr -> node_ptr -> bool) -> list node_ptr -> list node_ptr) := {
  ws_OpenStream := OpenStream;
  ws_CloseStream := CloseStream;
  ws_AdjustStream := AdjustStream;
  ws_Push := Push;
  ws_Pop := Pop
}.
