(* ===== verification/PriorityKept.v ===== *)
(** * Package http2: what relinking the priority tree keeps

    Moving, sorting and walking nodes changes links, weights and counters: the queue, the
    identifier and the state of every node stay. *)

From S2P Require Import Prelude Flow Frame WriteFrames WriteSched PriorityTree PrioritySched.

(** What linking does not touch. *)
Definition core (nd : priorityNode) : writeQueue * Z * priorityNodeState := (pn_q nd, pn_id nd, pn_state nd).

Definition kept (h h' : heap) : Prop := forall p, core <$> h !! p = core <$> h' !! p.

Lemma pkept_refl h : kept h h.
Proof. done. Qed.

Lemma pkept_trans h1 h2 h3 : kept h1 h2 -> kept h2 h3 -> kept h1 h3.
Proof. intros H1 H2 p. by rewrite (H1 p). Qed.

Lemma upd_kept h p f h' : (forall nd, core (f nd) = core nd) -> upd h p f = Some h' -> kept h h'.
Proof.
  intros Hf E. apply bind_Some in E as (nd & Hn & [= <-]). intros q. destruct (decide (q = p)) as [->|Hne].
  - rewrite lookup_insert_eq, Hn. cbn. by rewrite Hf.
  - by rewrite lookup_insert_ne.
Qed.

(** Splits the hypotheses that say that a sequence of updates returns. *)
Ltac step_in E :=
  match type of E with
  | mbind _ _ = Some _ => apply bind_Some in E as (? & ? & E)
  | (match ?x with _ => _ end) = Some _ => destruct x eqn:?
  | Some _ = Some _ => injection E as <-
  | None = Some _ => discriminate
  | upd _ _ _ = Some _ => fail 1
  end.

Ltac kept_upd :=
  repeat match goal with
  | E : upd ?h ?p ?f = Some ?h' |- kept ?h0 ?h' => apply (pkept_trans h0 h h'); [|by apply (upd_kept h p f)]; clear E
  | |- kept ?h ?h => apply pkept_refl
  end.

Lemma unlink_kept h n h' : unlink h n = Some h' -> kept h h'.
Proof.
  unfold unlink. intros E. step_in E. step_in E; [|by step_in E].
  step_in E. step_in E. assert (kept h x0) as Hk.
  { destruct (pn_prev x); kept_upd. }
  apply (pkept_trans _ _ _ Hk). destruct (pn_next x1); [kept_upd|by injection E as <-].
Qed.

Lemma link_kept h n parent h' : link h n parent = Some h' -> kept h h'.
Proof.
  unfold link. intros E. step_in E. destruct parent as [p|].
  - repeat step_in E. kept_upd. destruct (pn_kids x0); [kept_upd|]. simplify_eq. kept_upd.
  - step_in E. kept_upd.
Qed.

Lemma setParent_kept h n parent h' : setParent h n parent = Some h' -> kept h h'.
Proof.
  unfold setParent. intros E. step_in E; [done|]. step_in E. step_in E; [by step_in E|]. step_in E.
  apply (pkept_trans _ x0); [by apply unlink_kept in H0|by apply link_kept in E].
Qed.

Lemma addSubtreeBytes_kept fuel : forall h n b h', addSubtreeBytes fuel h n b = Some h' -> kept h h'.
Proof.
  induction fuel as [|fuel IH]; intros h [p|] b h' E; simpl in E; try done; try by injection E as <-.
  step_in E. step_in E. apply (pkept_trans _ x0); [kept_upd|by eapply IH].
Qed.

Lemma addBytes_kept h n b h' : addBytes h n b = Some h' -> kept h h'.
Proof.
  unfold addBytes. intros E. step_in E. step_in E. apply (pkept_trans _ x0); [kept_upd|by eapply addSubtreeBytes_kept].
Qed.

Lemma detachKids_kept fuel : forall h n tmp h' l, detachKids fuel h n tmp = Some (h', l) -> kept h h'.
Proof.
  induction fuel as [|fuel IH]; intros h n tmp h' l E; simpl in E; step_in E.
  - destruct (pn_kids x); [done|by injection E as <- <-].
  - destruct (pn_kids x); [|by injection E as <- <-]. step_in E. apply (pkept_trans _ x0); [by eapply setParent_kept|by eapply IH].
Qed.

Lemma attachAll_kept h n l : forall h', attachAll h n l = Some h' -> kept h h'.
Proof.
  revert h. induction l as [|k l IH]; intros h h' E; simpl in E; [by injection E as <-|].
  step_in E. apply (pkept_trans _ x); [by eapply setParent_kept|by apply IH].
Qed.

Lemma sortKids_kept sort h n h' : sortKids sort h n = Some h' -> kept h h'.
Proof.
  unfold sortKids. intros E. step_in E. destruct x as [h1 l]. apply (pkept_trans _ h1); [by eapply detachKids_kept|by eapply attachAll_kept].
Qed.

(** A walk whose callback keeps [I] until it halts with [Q]. *)
Section walk.
Context {A : Type} (sort : (node_ptr -> node_ptr -> bool) -> list node_ptr -> list node_ptr)
        (f : node_ptr -> bool -> heap -> A -> option (heap * A * bool)) (I Q : heap -> A -> Prop).
Context (I_kept : forall h h' a, kept h h' -> I h a -> I h' a).

Lemma walkKids_keeps walk fuel : forall k h a h' a' halt,
  (forall p h a h' a' (halt : bool), walk p h a = Some (h', a', halt) -> I h a -> if halt then Q h' a' else I h' a') ->
  walkKids fuel walk k h a = Some (h', a', halt) -> I h a -> if halt then Q h' a' else I h' a'.
Proof.
  induction fuel as [|fuel IH]; intros [p|] h a h' a' halt Hw E HI; simpl in E; try done; try by injection E as <- <- <-.
  step_in E. destruct x as [[h1 a1] halt1]. specialize (Hw _ _ _ _ _ _ H HI) as H1.
  destruct halt1; [by injection E as <- <- <-|]. step_in E. by apply (IH _ _ _ _ _ _ Hw E).
Qed.

Lemma walkReadyInOrder_keeps fuel :
  (forall n op h a h' a' (halt : bool), f n op h a = Some (h', a', halt) -> I h a -> if halt then Q h' a' else I h' a') ->
  forall op n h a h' a' halt,
  walkReadyInOrder sort f fuel op n h a = Some (h', a', halt) -> I h a -> if halt then Q h' a' else I h' a'.
Proof.
  intros Hf. induction fuel as [|fuel IH]; intros op n h a h' a' halt E HI; simpl in E; [done|].
  step_in E. step_in E. destruct x0 as [[h1 a1] halt1].
  assert (if halt1 then Q h1 a1 else I h1 a1) as H1.
  { destruct (queue_empty (pn_q x)); [by injection H0 as <- <- <-|by apply (Hf _ _ _ _ _ _ _ H0)]. }
  destruct halt1; [by injection E as <- <- <-|]. step_in E. destruct (pn_kids x0); [|by injection E as <- <- <-].
  step_in E. step_in E. step_in E. step_in E.
  assert (I x3 a1) as HI3.
  { apply (I_kept h1); [|done]. destruct x2; [by eapply sortKids_kept|by injection H5 as <-]. }
  revert E HI3. apply walkKids_keeps. intros p h2 a2 h3 a3 halt3. apply IH.
Qed.
End walk.

(** ** Moving nodes *)
Lemma moveKids_kept fuel : forall h n k h', moveKids fuel h n k = Some h' -> kept h h'.
Proof.
  induction fuel as [|fuel IH]; intros h n [p|] h' E; simpl in E; try done; try by injection E as <-.
  step_in E. step_in E. step_in E. apply (pkept_trans _ x0); [by eapply setParent_kept|by eapply IH].
Qed.

Lemma moveAbove_kept fuel : forall h n parent x h', moveAbove fuel h n parent x = Some h' -> kept h h'.
Proof.
  induction fuel as [|fuel IH]; intros h n parent [p|] h' E; simpl in E; try done; try by injection E as <-.
  step_in E; step_in E; [by eapply setParent_kept|by eapply IH].
Qed.

Lemma adoptSiblings_kept fuel : forall h n k h', adoptSiblings fuel h n k = Some h' -> kept h h'.
Proof.
  induction fuel as [|fuel IH]; intros h n [p|] h' E; simpl in E; try done; try by injection E as <-.
  step_in E. step_in E. apply (pkept_trans _ x0); [|by eapply IH].
  destruct (decide _); [by eapply setParent_kept|by injection H0 as <-].
Qed.

Lemma reprioritize_kept h n parent prio h' : reprioritize h n parent prio = Some h' -> kept h h'.
Proof.
  unfold reprioritize. intros E. step_in E; [by injection E as <-|]. do 4 step_in E.
  apply (pkept_trans _ x0); [by eapply moveAbove_kept|]. apply (pkept_trans _ x1).
  { destruct (Exclusive prio); [step_in H1; by eapply adoptSiblings_kept|by injection H1 as <-]. }
  apply (pkept_trans _ x2); [by eapply setParent_kept|kept_upd].
Qed.

Lemma kept_node h h' p nd' : kept h h' -> h' !! p = Some nd' -> exists nd, h !! p = Some nd /\ core nd = core nd'.
Proof.
  intros Hk E. specialize (Hk p). rewrite E in Hk. destruct (h !! p) as [nd|]; [|done]. exists nd. split; [done|]. cbn in Hk. congruence.
Qed.

Lemma kept_sym h h' : kept h h' -> kept h' h.
Proof. intros H p. by rewrite (H p). Qed.
