(* ===== verification/PriorityMove.v ===== *)
(** * Package http2: moving nodes of the priority tree

    Theory of the loops of PrioritySched that move nodes: what removing a node does
    to its kids, and that changing a priority gives exactly the tree of RFC 7540,
    section 5.3.3, without leaving a cycle. *)

From S2P Require Import Prelude Flow Frame WriteFrames WriteSched PriorityTree PriorityWalk PrioritySched.

(** ** Removing a node *)

(** A walk along kids that already have the right parent changes nothing. *)
Lemma moveKids_idle h K n nd p : forall l fuel d,
  tree h K -> h !! n = Some nd -> pn_parent nd = Some p -> K p = d ++ l -> (length l <= fuel)%nat ->
  moveKids fuel h n (head l) = Some h.
Proof.
  induction l as [|k l IH]; intros fuel d HT Hn Hp HK Hf; [by destruct fuel|].
  simpl in Hf. destruct fuel as [|fuel]; [lia|]. simpl. rewrite Hn. simpl.
  assert (k ∈ K p) as Hk by (rewrite HK; set_solver).
  destruct (forest_mem _ _ _ k p (tree_forest _ _ HT) Hk) as (kd & Hkd & Hkp).
  assert (Some k <> Some p) as Hne.
  { intros [= ->]. by apply (tree_loopless h K HT p). }
  unfold setParent. rewrite decide_False by (rewrite Hp; congruence). rewrite Hkd. simpl.
  rewrite decide_True by congruence. simpl. rewrite Hkd. simpl.
  assert (exists pd, h !! p = Some pd) as [pd Hpd].
  { destruct (parent_lookup h K p n (tree_forest _ _ HT)); [apply parent_of_Some; eauto|eauto]. }
  destruct (forest_kids _ _ _ (tree_forest _ _ HT) p pd Hpd) as [_ Hs]. rewrite HK in Hs.
  apply siblings_cat in Hs as [_ [(kd' & Hkd' & _ & _ & Hnext) _]]. rewrite Hkd in Hkd'. injection Hkd' as <-.
  rewrite Hnext. assert (orelse (head l) None = head l) as -> by (by destruct l).
  apply (IH fuel (d ++ [k])); [done..|by rewrite HK, <- app_assoc|lia].
Qed.

(** The loop of [removeNode] moves the first kid only: after that it runs along the
    kids of the parent. *)
Lemma moveKids_ok h K n nd :
  tree h K -> h !! n = Some nd ->
  exists h', moveKids (size h) h n (head (K n)) = Some h' /\ same_payload h h' /\
    match K n with
    | [] => h' = h
    | k :: _ => same_parents k h h' /\ pn_parent <$> h' !! k = Some (pn_parent nd)
    end /\ exists K', tree h' K'.
Proof.
  intros HT Hn. pose proof (kids_size h K n (tree_forest _ _ HT)) as Hsize.
  destruct (K n) as [|k l] eqn:HK; simpl in *.
  { exists h. split; [by destruct (size h)|]. split; [done|]. split; [done|]. by exists K. }
  assert (k ∈ K n) as Hk by (rewrite HK; by left).
  destruct (forest_mem _ _ _ k n (tree_forest _ _ HT) Hk) as (kd & Hkd & Hkp).
  assert (parent_of h n k) as Hnk by (apply parent_of_Some; eauto).
  pose proof (tree_acyclic _ _ HT) as Ha.
  destruct (setParent_ok h K k kd (pn_parent nd) HT Hkd) as (h1 & E1 & Hs1 & Hp1 & Hk1 & HT1).
  { intros p Ep. assert (parent_of h p n) as Hpn by (apply parent_of_Some; eauto). split.
    - apply (parent_lookup h K p n); [apply HT|done].
    - intros Hab. apply (acyclic_above h n k Ha Hnk). unfold above in *. eapply rtc_l; [exact Hpn|done]. }
  assert (k <> n) as Hkn by (intros ->; by apply (acyclic_irrefl h n)).
  assert (exists nd1, h1 !! n = Some nd1 /\ pn_parent nd1 = pn_parent nd) as (nd1 & Hn1 & Hnp1).
  { specialize (Hp1 n (not_eq_sym Hkn)). rewrite Hn in Hp1. destruct (h1 !! n) as [nd1|]; simpl in Hp1; [|done].
    injection Hp1 as ->. eauto. }
  pose proof (same_payload_size h h1 Hs1) as Hsz.
  destruct (size h) as [|m] eqn:Em; [lia|]. simpl. rewrite Hn. simpl. rewrite E1. simpl.
  exists h1. cut (exists kd1, h1 !! k = Some kd1 /\ moveKids m h1 n (pn_next kd1) = Some h1).
  { intros (kd1 & Hkd1 & E). split; [by rewrite Hkd1|]. split; [done|]. split; [done|]. eauto. }
  destruct (h1 !! k) as [kd1|] eqn:Hkd1; [|done]. simpl in Hk1. injection Hk1 as Hk1. exists kd1. split; [done|].
  destruct (pn_parent nd) as [p|] eqn:Ep.
  - assert (k ∈ moved_to k kd (Some p) K p) as Hin.
    { apply (kids_iff h1 _ k p (tree_forest _ _ HT1)). apply parent_of_Some. eauto. }
    assert (is_Some (h1 !! p)) as [pd1 Hpd1] by (apply (parent_lookup h1 _ p k (tree_forest _ _ HT1)), parent_of_Some; eauto).
    assert (moved_to k kd (Some p) K p = k :: filter (fun q => q <> k) (K p)) as HKp.
    { unfold moved_to, attach, detach. rewrite decide_False, decide_True; [done|done|].
      rewrite Hkp. intros [= ->]. apply (acyclic_irrefl h p Ha). apply parent_of_Some. eauto. }
    destruct (forest_kids _ _ _ (tree_forest _ _ HT1) p pd1 Hpd1) as [_ Hsib]. rewrite HKp in Hsib.
    destruct Hsib as [(kd1' & Hkd1' & _ & _ & Hnext) _]. rewrite Hkd1 in Hkd1'. injection Hkd1' as <-.
    rewrite Hnext. assert (forall o : option node_ptr, orelse o None = o) as -> by (by intros []).
    apply (moveKids_idle h1 _ n nd1 p _ m [k] HT1 Hn1 Hnp1 HKp).
    pose proof (kids_size h1 _ p (tree_forest _ _ HT1)) as Hl. rewrite HKp in Hl. simpl in Hl. lia.
  - pose proof (forest_parent _ _ _ (tree_forest _ _ HT1) k kd1 Hkd1 ltac:(done)) as HP. rewrite Hk1 in HP.
    destruct HP as [_ ->]. by destruct m.
Qed.

(** ** Changing a priority *)

(** The walk up from the parent finds [n] exactly when [n] is above it, and then the
    parent takes the place of [n]. *)
Lemma moveAbove_ok h K n nd parent : tree h K -> h !! n = Some nd -> forall l fuel x,
  chain h x l -> (length l <= fuel)%nat ->
  moveAbove fuel h n parent x = if decide (n ∈ l) then setParent h parent (pn_parent nd) else Some h.
Proof.
  intros HT Hn. induction l as [|a l IH]; intros fuel x Hc Hf.
  { destruct x; [done|]. rewrite decide_False by apply not_elem_of_nil. by destruct fuel. }
  destruct x as [x|]; [|done]. destruct Hc as [-> (kd & Hk & Hc)]. simpl in Hf. destruct fuel as [|fuel]; [lia|]. simpl.
  destruct (decide (x = n)) as [->|Hne]; [rewrite decide_True by (by left); by rewrite Hn|].
  rewrite Hk. simpl. rewrite (IH fuel (pn_parent kd) Hc) by lia.
  destruct (decide (n ∈ l)); [rewrite decide_True by (by right); done|].
  rewrite decide_False; [done|]. apply not_elem_of_cons. done.
Qed.

(** The tree after [parent] was moved above [n], when it was below. *)
Lemma raise_ok h K n nd parent pd :
  tree h K -> h !! n = Some nd -> h !! parent = Some pd -> n <> parent ->
  exists h1 K1, moveAbove (size h) h n parent (pn_parent pd) = Some h1 /\ tree h1 K1 /\ same_payload h h1 /\
    ~ above h1 n parent /\
    (above h n parent -> same_parents parent h h1 /\ pn_parent <$> h1 !! parent = Some (pn_parent nd)) /\
    (~ above h n parent -> h1 = h).
Proof.
  intros HT Hn Hp Hne. pose proof (tree_acyclic _ _ HT) as Ha.
  destruct (chain_exists h K parent HT ltac:(eauto)) as [l' Hl']. destruct l' as [|a l]; [done|].
  pose proof Hl' as [-> (pd' & Hp' & Hl)]. rewrite Hp in Hp'. injection Hp' as <-.
  pose proof (chain_size h (parent :: l) (Some parent) Ha Hl') as Hsz. simpl in Hsz.
  rewrite (moveAbove_ok h K n nd parent HT Hn l (size h) (pn_parent pd) Hl) by lia.
  assert (n ∈ l <-> above h n parent) as Hiff.
  { rewrite <- (chain_above h (parent :: l) parent n Hl'), elem_of_cons. split; [by right|by intros [|]]. }
  destruct (decide (n ∈ l)) as [Hin|Hout].
  - assert (above h n parent) as Hab by (by apply Hiff).
    assert (forall g, pn_parent nd = Some g -> parent_of h g n) as Hg.
    { intros g Eg. apply parent_of_Some. eauto. }
    assert (forall g, pn_parent nd = Some g -> ~ above h parent g) as Hpg.
    { intros g Eg Hab'. apply (acyclic_above h g n Ha (Hg g Eg)). unfold above in *. by transitivity parent. }
    destruct (setParent_ok h K parent pd (pn_parent nd) HT Hp) as (h1 & E & Hs & Hp1 & Hpar & HT1).
    { intros g Eg. split; [by apply (parent_lookup h K g n), Hg; [apply HT|]|by apply Hpg]. }
    exists h1, (moved_to parent pd (pn_parent nd) K). split; [done|]. split; [done|]. split; [done|]. split.
    + intros [|(g & Hg1 & Hng)]%above_parent; [done|]. unfold parent_of in Hg1. rewrite Hpar in Hg1. injection Hg1 as Eg.
      assert (above h n g) as Hng'.
      { apply (above_outside [parent] h h1); [by intros k ->%list_elem_of_singleton; apply Hpg| |done].
        intros q Hq. apply Hp1. intros ->. apply Hq. by left. }
      by apply (acyclic_above h g n Ha (Hg g Eg)).
    + split; [done|]. intros Hn'. by destruct Hn'.
  - exists h, K. split; [done|]. split; [done|]. split; [done|]. rewrite <- Hiff. done.
Qed.

(** The exclusive flag: every other kid of the parent becomes a kid of [n].  The
    loop may pass through a cycle, when [n] is below one of them. *)
Lemma adoptSiblings_ok n parent : n <> parent -> forall l fuel h K d,
  forest None h K -> loopless K -> is_Some (h !! n) -> is_Some (h !! parent) -> K parent = d ++ l ->
  (length l <= fuel)%nat ->
  exists h' K', adoptSiblings fuel h n (head l) = Some h' /\ forest None h' K' /\ loopless K' /\ same_payload h h' /\
    forall q, pn_parent <$> h' !! q = (if decide (q ∈ l /\ q <> n) then Some (Some n) else pn_parent <$> h !! q).
Proof.
  intros Hnp. induction l as [|k l IH]; intros fuel h K d HF Hloop Hn Hp HK Hf.
  { exists h, K. split; [by destruct fuel|]. split; [done|]. split; [done|]. split; [done|]. intros q.
    rewrite decide_False; [done|]. intros [H _]. by apply not_elem_of_nil in H. }
  simpl in Hf. destruct fuel as [|fuel]; [lia|]. simpl. destruct Hp as [pd Hp].
  destruct (forest_kids _ _ _ HF parent pd Hp) as [_ Hs]. pose proof (forest_nodup _ _ _ HF parent) as Hnd.
  rewrite HK in Hs, Hnd. apply siblings_cat in Hs as [_ [(kd & Hk & Hkpar & _ & Hnext) _]].
  apply NoDup_app in Hnd as (_ & Hd & [Hkl Hndl]%NoDup_cons).
  rewrite Hk. simpl. rewrite Hnext. assert (forall o : option node_ptr, orelse o None = o) as -> by (by intros []).
  destruct (decide (k <> n)) as [Hkn|Hkn].
  - destruct (setParent_forest h K k kd (Some n) HF Hloop Hk) as (h1 & E1 & Hs1 & Hp1 & Hk1 & HF1).
    { intros p [= <-]. done. }
    rewrite E1. simpl.
    destruct (IH fuel h1 _ d HF1) as (h' & K' & E' & HF' & Hloop' & Hs' & Hpar').
    { apply moved_to_loopless; [congruence|done]. }
    { by apply (same_payload_dom h). }
    { apply (same_payload_dom h); [done|eauto]. }
    { unfold moved_to, attach, detach. rewrite Hkpar. rewrite decide_False by congruence. rewrite decide_False by congruence.
      rewrite HK, filter_app, filter_cons_False by (intros Hc; by apply Hc). rewrite !filter_notin; [done|done|].
      intros Hi. apply (Hd k Hi). by left. }
    { lia. }
    exists h', K'. split; [done|]. split; [done|]. split; [done|]. split; [by eapply same_payload_trans|].
    intros q. rewrite Hpar'. destruct (decide (q = k)) as [->|Hqk].
    + rewrite decide_False by tauto. rewrite decide_True; [done|]. split; [by left|done].
    + rewrite <- (Hp1 q Hqk). destruct (decide (q ∈ l /\ q <> n)) as [[Hq1 Hq2]|Hq].
      * rewrite decide_True; [done|]. split; [by right|done].
      * rewrite decide_False; [done|]. rewrite elem_of_cons. tauto.
  - assert (k = n) as -> by (destruct (decide (k = n)); tauto).
    destruct (IH fuel h K (d ++ [n]) HF Hloop Hn ltac:(eauto)) as (h' & K' & E' & HF' & Hloop' & Hs' & Hpar').
    { by rewrite HK, <- app_assoc. }
    { lia. }
    exists h', K'. split; [done|]. split; [done|]. split; [done|]. split; [done|]. intros q. rewrite Hpar'.
    destruct (decide (q ∈ l /\ q <> n)) as [[Hq1 Hq2]|Hq].
    + rewrite decide_True; [done|]. split; [by right|done].
    + rewrite decide_False; [done|]. rewrite elem_of_cons. tauto.
Qed.

(** The parents that [reprioritize] gives: [n] goes below [parent]; [parent], if it
    was below [n], takes the place of [n]; and with the exclusive flag the other
    kids of [parent] go below [n]. *)
Definition raised_parent (h : heap) (n parent q : node_ptr) (is_below : bool) : option (option node_ptr) :=
  if decide (q = parent /\ is_below = true) then pn_parent <$> h !! n else pn_parent <$> h !! q.

Definition new_parent (h : heap) (n parent : node_ptr) (exclusive is_below : bool) (q : node_ptr) : option (option node_ptr) :=
  if decide (q = n) then Some (Some parent)
  else if decide (exclusive = true /\ raised_parent h n parent q is_below = Some (Some parent)) then Some (Some n)
  else raised_parent h n parent q is_below.

(** No cycle is left by moving [n] below [parent] and some kids of [parent] below [n]. *)
Lemma acyclic_adopt n parent (adopted : node_ptr -> Prop) `{forall q, Decision (adopted q)} h h' :
  acyclic h -> ~ above h n parent -> (forall q, adopted q -> parent_of h parent q) ->
  (forall q, pn_parent <$> h' !! q =
     if decide (q = n) then Some (Some parent) else if decide (adopted q) then Some (Some n) else pn_parent <$> h !! q) ->
  acyclic h'.
Proof.
  intros Ha Hab Had Hpar.
  assert (forall k, ~ above h n k -> (forall q, adopted q -> ~ above h q k) -> Acc (parent_of h') k) as Hout.
  { intros k. induction (Ha k) as [k _ IH]. intros Hk Hq. constructor. intros p Hp. unfold parent_of in Hp. rewrite Hpar in Hp.
    rewrite decide_False in Hp by (intros ->; apply Hk; constructor).
    rewrite decide_False in Hp by (intros Hk'; apply (Hq k Hk'); constructor).
    apply IH; [done|intros Hp'; apply Hk; by econstructor|intros q Hq' Hp'; apply (Hq q Hq'); by econstructor]. }
  assert (Acc (parent_of h') n) as Hn.
  { constructor. intros p Hp. unfold parent_of in Hp. rewrite Hpar, decide_True in Hp by done. injection Hp as <-.
    apply Hout; [done|]. intros q Hq. apply acyclic_above; [done|by apply Had]. }
  intros k. induction (Ha k) as [k _ IH]. constructor. intros p Hp. unfold parent_of in Hp. rewrite Hpar in Hp.
  destruct (decide (k = n)); [injection Hp as <-; apply Hout; [done|intros q Hq; apply acyclic_above; [done|by apply Had]]|].
  destruct (decide (adopted k)); [injection Hp as <-; done|]. by apply IH.
Qed.

Lemma reprioritize_ok h K n nd parent pd priority :
  tree h K -> h !! n = Some nd -> h !! parent = Some pd -> n <> parent ->
  exists h' K' is_below, reprioritize h n parent priority = Some h' /\ tree h' K' /\
    (is_below = true <-> above h n parent) /\
    (forall q, pn_parent <$> h' !! q = new_parent h n parent (Exclusive priority) is_below q) /\
    (forall q, payload <$> h' !! q = (fun qd => payload (if decide (q = n) then set_weight (Weight priority) qd else qd)) <$> h !! q).
Proof.
  intros HT Hn Hp Hne. unfold reprioritize. rewrite decide_False by done. rewrite Hp. simpl.
  destruct (raise_ok h K n nd parent pd HT Hn Hp Hne) as (h1 & K1 & E1 & HT1 & Hs1 & Hab1 & Hyes & Hno).
  rewrite E1. simpl.
  destruct (chain_exists h K parent HT ltac:(eauto)) as [lc Hlc].
  set (is_below := bool_decide (n ∈ lc)).
  assert (is_below = true <-> above h n parent) as Hbelow.
  { unfold is_below. rewrite bool_decide_eq_true. by apply chain_above. }
  assert (forall q, pn_parent <$> h1 !! q = raised_parent h n parent q is_below) as Hr1.
  { intros q. unfold raised_parent. destruct (decide (q = parent /\ is_below = true)) as [[-> Hb]|Hq].
    - destruct (Hyes (proj1 Hbelow Hb)) as [_ ->]. by rewrite Hn.
    - destruct is_below.
      + destruct (Hyes (proj1 Hbelow eq_refl)) as [Hsame _]. symmetry. apply Hsame. tauto.
      + rewrite Hno; [done|]. intros Hb%Hbelow. done. }
  assert (is_Some (h1 !! parent)) as [pd1 Hp1] by (apply (same_payload_dom h); [done|eauto]).
  assert (is_Some (h1 !! n)) as [nd1 Hn1] by (apply (same_payload_dom h); [done|eauto]).
  pose proof (tree_forest _ _ HT1) as HF1.
  assert (exists h2 K2, (if Exclusive priority then pd ← h1 !! parent; adoptSiblings (size h1) h1 n (pn_kids pd) else Some h1) = Some h2 /\
            forest None h2 K2 /\ loopless K2 /\ same_payload h1 h2 /\
            forall q, pn_parent <$> h2 !! q = if decide ((Exclusive priority = true /\ q ∈ K1 parent) /\ q <> n) then Some (Some n) else pn_parent <$> h1 !! q)
    as (h2 & K2 & E2 & HF2 & Hloop2 & Hs2 & Hr2).
  { destruct (Exclusive priority).
    - rewrite Hp1. simpl. destruct (forest_kids _ _ _ HF1 parent pd1 Hp1) as [-> _].
      destruct (adoptSiblings_ok n parent Hne (K1 parent) (size h1) h1 K1 [] HF1 (tree_loopless _ _ HT1))
        as (h2 & K2 & E & HF2 & Hl2 & Hs2 & Hr2); try done; [by apply kids_size|].
      exists h2, K2. do 4 (split; [done|]). intros q. rewrite Hr2.
      destruct (decide (q ∈ K1 parent /\ q <> n)); [rewrite decide_True by tauto|rewrite decide_False by tauto]; done.
    - exists h1, K1. split; [done|]. split; [done|]. split; [by apply (tree_loopless h1)|]. split; [done|].
      intros q. rewrite decide_False by (intros [[? _] _]; done). done. }
  rewrite E2. simpl.
  assert (is_Some (h2 !! n)) as [nd2 Hn2] by (apply (same_payload_dom h1); [done|eauto]).
  destruct (setParent_forest h2 K2 n nd2 (Some parent) HF2 Hloop2 Hn2) as (h3 & E3 & Hs3 & Hp3 & Hn3 & HF3).
  { intros p [= <-]. split; [apply (same_payload_dom h1); [done|eauto]|done]. }
  rewrite E3. simpl.
  destruct (upd_ok h3 n (set_weight (Weight priority))) as (nd3 & h4 & Hn3' & E4 & Hl4 & ->); [apply (same_payload_dom h2); [done|eauto]|done|].
  set (h4 := <[n:=_]> h3) in *.
  assert (forall q, pn_parent <$> h4 !! q = if decide (q = n) then Some (Some parent)
            else if decide (Exclusive priority = true /\ q ∈ K1 parent) then Some (Some n) else pn_parent <$> h1 !! q) as Hr4.
  { intros q. rewrite <- (same_links_parents _ _ Hl4 q). destruct (decide (q = n)) as [->|Hq]; [done|].
    rewrite <- (Hp3 q Hq), Hr2. destruct (decide (Exclusive priority = true /\ q ∈ K1 parent));
      [rewrite decide_True by done|rewrite decide_False by tauto]; done. }
  exists h4, (moved_to n nd2 (Some parent) K2), is_below. split; [done|]. split; [|split; [done|split]].
  - split; [by apply (forest_links _ h3)|].
    refine (acyclic_adopt n parent (fun q => Exclusive priority = true /\ q ∈ K1 parent) h1 h4 (tree_acyclic _ _ HT1) Hab1 _ Hr4).
    intros q [_ Hq]. by apply (kids_iff h1 K1).
  - intros q. rewrite Hr4. unfold new_parent. destruct (decide (q = n)); [done|]. rewrite <- Hr1.
    destruct (decide (Exclusive priority = true /\ q ∈ K1 parent)) as [[Hx Hq]|Hq].
    + rewrite decide_True; [done|]. split; [done|]. by apply (kids_iff h1 K1).
    + rewrite decide_False; [done|]. intros [Hx Hq']. apply Hq. split; [done|]. by apply (kids_iff h1 K1).
  - intros q. pose proof (same_payload_trans _ _ _ Hs1 (same_payload_trans _ _ _ Hs2 Hs3)) as Hs.
    unfold h4. destruct (decide (q = n)) as [->|Hq].
    + rewrite lookup_insert_eq, Hn. simpl. specialize (Hs n). rewrite Hn, Hn3' in Hs. simpl in Hs.
      injection Hs as F1 F2 F3 F4 F5 F6. unfold payload. simpl. congruence.
    + rewrite lookup_insert_ne by congruence. rewrite <- (Hs q). by destruct (h !! q).
Qed.
