(* ===== verification/PriorityContract.v ===== *)
(** * Package http2: what the priority scheduler keeps and where it fails

    The invariant of the scheduler of PrioritySched, that no operation used as the
    interface allows panics, what [Pop] and [AdjustStream] do, and the documented
    promises that the code does not keep. *)

From S2P Require Import Prelude Flow Frame WriteFrames WriteSched PriorityTree PriorityWalk PrioritySched PriorityMove.

(** ** The invariant *)
Record heap_ok (fl : flows) (h : heap) : Prop := {
  ho_tree : exists K, tree h K;
  ho_ids p nd : h !! p = Some nd -> pn_id nd = 0 <-> p = root;
  ho_root : pn_parent <$> h !! root = Some None;
  ho_queues p nd : h !! p = Some nd -> Forall (request_ok fl) (pn_q nd)
}.

Record pws_ok (fl : flows) (ws : priorityWriteScheduler) : Prop := {
  ok_heap : heap_ok fl (pw_heap ws);
  ok_fresh p : is_Some (pw_heap ws !! p) -> (p < pw_fresh ws)%nat;
  ok_nodes id p : pw_nodes ws !! id = Some p -> pn_id <$> pw_heap ws !! p = Some id;
  ok_root0 : pw_nodes ws !! 0 = Some root;
  ok_lists p : p ∈ pw_closedNodes ws \/ p ∈ pw_idleNodes ws -> is_Some (pw_heap ws !! p) /\ p <> root;
  ok_limit : 0 < pw_writeThrottleLimit ws <= MaxInt32;
  ok_pool : Forall (fun q => q = []) (pw_queuePool ws)
}.

Lemma is_Some_fmap_eq {A B} (f : A -> B) (o o' : option A) : f <$> o = f <$> o' -> is_Some o <-> is_Some o'.
Proof. destruct o, o'; simpl; try done; intros _; split; eauto. Qed.

(** A new heap with the same nodes. *)
Lemma pws_set_heap fl ws h' :
  pws_ok fl ws -> heap_ok fl h' -> (forall p, pn_id <$> pw_heap ws !! p = pn_id <$> h' !! p) ->
  pws_ok fl (set_heap h' ws).
Proof.
  intros [H1 H2 H3 H4 H5 H6 H7] Hh Hid. split; simpl; try done.
  - intros p Hp. apply H2. by apply (is_Some_fmap_eq _ _ _ (Hid p)).
  - intros id p Hp. rewrite <- Hid. by apply H3.
  - intros p Hp. destruct (H5 p Hp) as [Hs Hne]. split; [|done]. by apply (is_Some_fmap_eq _ _ _ (Hid p)).
Qed.

(** A heap with the same queues and identifiers. *)
Lemma heap_ok_same fl h h' :
  heap_ok fl h -> (exists K, tree h' K) -> pn_parent <$> h' !! root = pn_parent <$> h !! root ->
  (forall p, (fun nd => (pn_q nd, pn_id nd)) <$> h !! p = (fun nd => (pn_q nd, pn_id nd)) <$> h' !! p) ->
  heap_ok fl h'.
Proof.
  intros [H1 H2 H3 H4] HT Hroot Hp. split; [done| |by rewrite Hroot|].
  - intros p nd Hnd. specialize (Hp p). rewrite Hnd in Hp. destruct (h !! p) as [nd0|] eqn:E; simpl in Hp; [|done].
    injection Hp as _ <-. by apply H2.
  - intros p nd Hnd. specialize (Hp p). rewrite Hnd in Hp. destruct (h !! p) as [nd0|] eqn:E; simpl in Hp; [|done].
    injection Hp as <- _. by eapply H4.
Qed.

Lemma payload_ids h h' : same_payload h h' ->
  forall p, (fun nd => (pn_q nd, pn_id nd)) <$> h !! p = (fun nd => (pn_q nd, pn_id nd)) <$> h' !! p.
Proof.
  intros Hs p. specialize (Hs p). destruct (h !! p), (h' !! p); simpl in *; try done.
  unfold payload in Hs. by injection Hs as -> -> _ _ _ _.
Qed.

Lemma static_ids h h' : same_static h h' ->
  forall p, (fun nd => (pn_q nd, pn_id nd)) <$> h !! p = (fun nd => (pn_q nd, pn_id nd)) <$> h' !! p.
Proof.
  intros Hs p. specialize (Hs p). destruct (h !! p), (h' !! p); simpl in *; try done.
  unfold static in Hs. by injection Hs as -> -> _ _.
Qed.

Lemma ids_only (h h' : heap) :
  (forall p, (fun nd => (pn_q nd, pn_id nd)) <$> h !! p = (fun nd => (pn_q nd, pn_id nd)) <$> h' !! p) ->
  forall p, pn_id <$> h !! p = pn_id <$> h' !! p.
Proof. intros Hs p. specialize (Hs p). destruct (h !! p), (h' !! p); simpl in *; try done. by injection Hs as _ ->. Qed.

Lemma pws_windows fl fl' ws : same_windows fl fl' -> pws_ok fl ws -> pws_ok fl' ws.
Proof.
  intros Hs [[H1 H2 H3 H4] H5 H6 H7 H8 H9 H10]. split; try done. split; try done.
  intros p nd Hp. eapply Forall_impl; [by eapply H4|]. intros. by apply (request_ok_same fl).
Qed.

(** [setParent] on a node other than the root. *)
Lemma setParent_heap_ok fl h K n nd parent :
  heap_ok fl h -> tree h K -> h !! n = Some nd -> n <> root ->
  (forall p, parent = Some p -> is_Some (h !! p) /\ ~ above h n p) ->
  exists h', setParent h n parent = Some h' /\ heap_ok fl h' /\ same_payload h h' /\ same_parents n h h' /\
    pn_parent <$> h' !! n = Some parent /\ tree h' (moved_to n nd parent K).
Proof.
  intros Hh HT Hn Hne Hp. destruct (setParent_ok h K n nd parent HT Hn Hp) as (h' & E & Hs & Hp' & Hn' & HT').
  exists h'. split; [done|]. split; [|done]. apply (heap_ok_same fl h); [done|by eexists|symmetry; by apply Hp'|by apply payload_ids].
Qed.

Lemma root_not_below fl h p : heap_ok fl h -> ~ parent_of h p root.
Proof. intros Hh Hp. unfold parent_of in Hp. rewrite (ho_root _ _ Hh) in Hp. done. Qed.

(** Nothing is above the root but itself. *)
Lemma above_root fl h n : heap_ok fl h -> above h n root -> n = root.
Proof.
  intros Hh [|(q & Hq & _)]%above_parent; [done|]. by destruct (root_not_below fl h q Hh Hq).
Qed.

(** ** Removing *)
Lemma removeNode_ok fl ws n :
  pws_ok fl ws -> is_Some (pw_heap ws !! n) -> n <> root ->
  exists h' id, removeNode ws n = Some (set_nodes (delete id (pw_nodes ws)) (set_heap h' ws)) /\ id <> 0 /\
    pws_ok fl (set_nodes (delete id (pw_nodes ws)) (set_heap h' ws)) /\ same_payload (pw_heap ws) h'.
Proof.
  intros Hws [nd Hn] Hne. pose proof (ok_heap _ _ Hws) as Hh. destruct (ho_tree _ _ Hh) as [K HT].
  set (h := pw_heap ws) in *.
  destruct (forest_kids _ _ _ (tree_forest _ _ HT) n nd Hn) as [Hk _].
  destruct (moveKids_ok h K n nd HT Hn) as (h1 & E1 & Hs1 & Hk1 & K1 & HT1).
  assert (heap_ok fl h1) as Hh1.
  { apply (heap_ok_same fl h); [done|by eexists| |by apply payload_ids].
    destruct (K n) as [|k l] eqn:HK; [by subst|]. destruct Hk1 as [Hk1 _]. symmetry. apply Hk1. intros <-.
    apply (root_not_below fl h n Hh). apply (kids_iff h K _ _ (tree_forest _ _ HT)). rewrite HK. by left. }
  destruct (h1 !! n) as [nd1|] eqn:Hn1; [|by specialize (Hs1 n); rewrite Hn, Hn1 in Hs1].
  destruct (setParent_heap_ok fl h1 K1 n nd1 None Hh1 HT1 Hn1 Hne ltac:(done)) as (h2 & E2 & Hh2 & Hs2 & _ & _ & _).
  pose proof (same_payload_trans _ _ _ Hs1 Hs2) as Hs.
  destruct (h2 !! n) as [nd2|] eqn:Hn2; [|by specialize (Hs2 n); rewrite Hn1, Hn2 in Hs2].
  assert (pn_id nd2 <> 0) as Hid by (intros Hz; apply Hne; by apply (ho_ids _ _ Hh2 n nd2 Hn2)).
  exists h2, (pn_id nd2). unfold removeNode, on_heap. fold h. rewrite Hn. simpl. rewrite Hk. fold h. rewrite E1. simpl.
  rewrite E2. simpl. rewrite Hn2. simpl. split; [done|]. split; [done|]. split; [|done].
  assert (pws_ok fl (set_heap h2 ws)) as [G1 G2 G3 G4 G5 G6 G7].
  { apply pws_set_heap; [done|done|]. by apply ids_only, payload_ids. }
  split; simpl; try done.
  - intros id p Hp. apply lookup_delete_Some in Hp as [_ Hp]. by apply G3.
  - rewrite lookup_delete_ne by done. done.
Qed.

(** A bookkeeping list with access to its field. *)
Definition is_list (get : priorityWriteScheduler -> list node_ptr)
    (set : list node_ptr -> priorityWriteScheduler -> priorityWriteScheduler) : Prop :=
  (get = pw_closedNodes /\ set = set_closedNodes) \/ (get = pw_idleNodes /\ set = set_idleNodes).

Lemma pws_set_list fl ws get set l :
  is_list get set -> pws_ok fl ws -> (forall p, p ∈ l -> is_Some (pw_heap ws !! p) /\ p <> root) -> pws_ok fl (set l ws).
Proof.
  intros Hl [H1 H2 H3 H4 H5 H6 H7] Hp. destruct Hl as [[-> ->]|[-> ->]]; split; simpl; try done;
    intros p [Hi|Hi]; auto.
Qed.

Lemma addClosedOrIdleNode_ok fl ws get set maxSize n :
  is_list get set -> pws_ok fl ws -> is_Some (pw_heap ws !! n) -> n <> root ->
  exists ws', addClosedOrIdleNode get set maxSize ws n = Some ws' /\ pws_ok fl ws' /\ is_Some (pw_heap ws' !! n).
Proof.
  intros Hl Hws Hn Hne. unfold addClosedOrIdleNode. destruct (Z.eqb_spec maxSize 0); [eauto|].
  assert (forall ws1, pws_ok fl ws1 -> (forall p, p ∈ get ws1 -> is_Some (pw_heap ws1 !! p) /\ p <> root) ->
    is_Some (pw_heap ws1 !! n) -> pws_ok fl (set (get ws1 ++ [n]) ws1) /\ is_Some (pw_heap (set (get ws1 ++ [n]) ws1) !! n)) as Hadd.
  { intros ws1 H1 H2 H3. split; [|by destruct Hl as [[-> ->]|[-> ->]]]. apply (pws_set_list fl ws1 get set); [done..|].
    intros p [Hp| ->%list_elem_of_singleton]%elem_of_app; [by apply H2|done]. }
  assert (forall ws1, pws_ok fl ws1 -> forall p, p ∈ get ws1 -> is_Some (pw_heap ws1 !! p) /\ p <> root) as Hget.
  { intros ws1 H1 p Hp. apply (ok_lists _ _ H1). destruct Hl as [[-> _]|[-> _]]; auto. }
  destruct (Z.eqb_spec (zlen (get ws)) maxSize) as [Hlen|Hlen]; simpl.
  - destruct (get ws) as [|o l] eqn:Eg; [by unfold zlen in Hlen; simpl in Hlen; lia|]. simpl.
    destruct (Hget ws Hws o) as [Ho Hor]; [rewrite Eg; by left|].
    destruct (removeNode_ok fl ws o Hws Ho Hor) as (h' & id & E & _ & Hws' & Hs). rewrite E. simpl.
    set (ws' := set_nodes _ _) in *.
    assert (get ws' = o :: l) as Eg' by (unfold ws'; rewrite <- Eg; destruct Hl as [[-> _]|[-> _]]; done).
    rewrite Eg'. simpl.
    assert (pws_ok fl (set l ws')) as Hws2.
    { apply (pws_set_list fl ws' get set); [done..|]. intros p Hp. apply (Hget ws' Hws'). rewrite Eg'. by right. }
    assert (pw_heap (set l ws') = h' /\ get (set l ws') = l) as [Eh Eg2] by (by destruct Hl as [[-> ->]|[-> ->]]).
    eexists. split; [done|]. apply Hadd; [done| |].
    + intros p Hp. by apply (Hget (set l ws')).
    + rewrite Eh. by apply (same_payload_dom (pw_heap ws)).
  - eexists. split; [done|]. apply Hadd; [done|by apply Hget|done].
Qed.

(** ** Adding *)

(** A node without links at a new address. *)
Lemma tree_insert h K n nd :
  tree h K -> h !! n = None -> links nd = (None, None, None, None) -> tree (<[n := nd]> h) K.
Proof.
  intros [HF Ha] Hn Hl. injection Hl as E1 E2 E3 E4. pose proof (forest_none _ _ _ HF n Hn) as HKn.
  assert (forall q, n ∉ K q) as Hout.
  { intros q Hi. destruct (forest_mem _ _ _ n q HF Hi) as (? & ? & _). congruence. }
  split; [split|].
  - intros p pd Hp. apply lookup_insert_Some in Hp as [[<- <-]|[Hne Hp]]; [by rewrite HKn|].
    destruct (forest_kids _ _ _ HF p pd Hp) as [Hk Hs]. split; [done|]. apply (siblings_frame h); [|done].
    intros k kd Hk' Hkd. exists kd. rewrite lookup_insert_ne by (intros <-; by apply (Hout p)). done.
  - intros p Hp. apply lookup_insert_None in Hp as [Hp _]. by apply (forest_none _ _ _ HF).
  - intros k kd Hk Hx. apply lookup_insert_Some in Hk as [[<- <-]|[Hne Hk]]; [by rewrite E1|].
    by apply (forest_parent _ _ _ HF).
  - apply (forest_nodup _ _ _ HF).
  - done.
  - assert (forall p k, parent_of (<[n:=nd]> h) p k -> parent_of h p k) as Hpar.
    { intros p k. unfold parent_of. destruct (decide (n = k)) as [<-|]; [by rewrite lookup_insert_eq; simpl; rewrite E1|].
      by rewrite lookup_insert_ne. }
    intros k. induction (Ha k) as [k _ IH]. constructor. intros p Hp%Hpar. by apply IH.
Qed.

(** Adding a stream below a node of the tree. *)
Lemma newNode_ok fl ws id state parent :
  pws_ok fl ws -> id <> 0 -> is_Some (pw_heap ws !! parent) ->
  exists ws1 n h', newNode ws id state = (ws1, n) /\ setParent (pw_heap ws1) n (Some parent) = Some h' /\
    pw_nodes ws1 = pw_nodes ws /\ pw_maxID ws1 = pw_maxID ws /\ n = pw_fresh ws /\
    pws_ok fl (set_nodes (<[id := n]> (pw_nodes ws)) (set_heap h' ws1)) /\ is_Some (h' !! n) /\ n <> root.
Proof.
  intros Hws Hid Hp. unfold newNode. destruct (pool_get_ok _ (ok_pool _ _ Hws)) as [Hq Hpool].
  destruct (pool_get (pw_queuePool ws)) as [pool q] eqn:Epool. simpl in Hq, Hpool. subst q.
  set (n := pw_fresh ws). set (nd := mkNode _ _ _ _ _ _ _ _ _ _).
  pose proof (ok_heap _ _ Hws) as Hh. destruct (ho_tree _ _ Hh) as [K HT].
  assert (pw_heap ws !! n = None) as Hn.
  { destruct (pw_heap ws !! n) eqn:E; [|done]. assert (n < pw_fresh ws)%nat by (apply (ok_fresh _ _ Hws); eauto). unfold n in *. lia. }
  assert (pn_parent <$> pw_heap ws !! root = Some None) as Hroot by apply (ho_root _ _ Hh).
  assert (n <> root) as Hnr by (intros E; rewrite <- E, Hn in Hroot; done).
  assert (heap_ok fl (<[n:=nd]> (pw_heap ws))) as Hh1.
  { split.
    - exists K. by apply tree_insert.
    - intros p pd Hpd. apply lookup_insert_Some in Hpd as [[<- <-]|[_ Hpd]]; [by simpl|by apply (ho_ids _ _ Hh)].
    - by rewrite lookup_insert_ne.
    - intros p pd Hpd. apply lookup_insert_Some in Hpd as [[<- <-]|[_ Hpd]]; [by constructor|by eapply (ho_queues _ _ Hh)]. }
  assert (parent <> n) as Hpn by (intros ->; destruct Hp; congruence).
  destruct (setParent_heap_ok fl (<[n:=nd]> (pw_heap ws)) K n nd (Some parent) Hh1) as (h' & E & Hh' & Hs & _ & _ & _).
  { by apply tree_insert. }
  { by rewrite lookup_insert_eq. }
  { done. }
  { intros p [= <-]. split; [by rewrite lookup_insert_ne|]. intros Hab.
    assert (K n = []) as HKn by (by apply (forest_none _ _ _ (tree_forest _ _ HT))).
    destruct (above_kid (<[n:=nd]> (pw_heap ws)) n parent Hab) as [|(k & Hk & _)]; [done|].
    apply (kids_iff _ K) in Hk; [|apply (tree_insert _ _ n nd HT Hn eq_refl)]. rewrite HKn in Hk. by apply not_elem_of_nil in Hk. }
  eexists _, n, h'. split; [done|]. simpl. split; [done|]. split; [done|]. split; [done|]. split; [done|].
  assert (forall p, pn_id <$> <[n:=nd]> (pw_heap ws) !! p = pn_id <$> h' !! p) as Hids by (by apply ids_only, payload_ids).
  assert (forall p, p <> n -> pn_id <$> h' !! p = pn_id <$> pw_heap ws !! p) as Hids'.
  { intros p Hpn'. rewrite <- Hids. by rewrite lookup_insert_ne. }
  assert (pn_id <$> h' !! n = Some id) as Hidn by (rewrite <- Hids; by rewrite lookup_insert_eq).
  split; [|split; [by destruct (h' !! n)|done]]. destruct Hws as [G1 G2 G3 G4 G5 G6 G7]. split; simpl; try done.
  - intros p Hps. destruct (decide (p = n)) as [->|Hpn']; [lia|].
    assert (p < n)%nat; [|lia]. apply G2. by apply (is_Some_fmap_eq _ _ _ (Hids' p Hpn')).
  - intros id' p Hpid. apply lookup_insert_Some in Hpid as [[<- <-]|[_ Hpid]]; [done|].
    rewrite Hids'; [by apply G3|]. intros ->. specialize (G3 id' n Hpid). by rewrite Hn in G3.
  - by rewrite lookup_insert_ne.
  - intros p Hps. destruct (G5 p Hps) as [Hps' Hpr]. split; [|done].
    apply (is_Some_fmap_eq _ _ _ (Hids' p ltac:(intros ->; rewrite Hn in Hps'; by destruct Hps'))). done.
Qed.

Lemma pws_set_maxID fl ws v : pws_ok fl ws -> pws_ok fl (set_maxID v ws).
Proof. intros [H1 H2 H3 H4 H5 H6 H7]. by split. Qed.

(** What [OpenStream] requires: a stream that is unknown or idle. *)
Definition may_open (ws : priorityWriteScheduler) (id : Z) : Prop :=
  id <> 0 /\ forall n nd, pw_nodes ws !! id = Some n -> pw_heap ws !! n = Some nd -> pn_state nd = priorityNodeIdle.

Lemma node_lookup fl ws id n : pws_ok fl ws -> pw_nodes ws !! id = Some n ->
  exists nd, pw_heap ws !! n = Some nd /\ pn_id nd = id.
Proof.
  intros Hws Hn. pose proof (ok_nodes _ _ Hws id n Hn) as H. destruct (pw_heap ws !! n) as [nd|]; [|done].
  simpl in H. injection H as ?. eauto.
Qed.

(** An update of a field that the invariant does not mention. *)
Lemma pws_upd fl ws n f :
  pws_ok fl ws -> is_Some (pw_heap ws !! n) -> keeps_links f -> (forall nd, pn_id (f nd) = pn_id nd) ->
  (forall nd, pw_heap ws !! n = Some nd -> Forall (request_ok fl) (pn_q (f nd))) ->
  exists ws', on_heap ws (fun h => upd h n f) = Some ws' /\ pws_ok fl ws' /\
    exists nd, pw_heap ws !! n = Some nd /\ ws' = set_heap (<[n := f nd]> (pw_heap ws)) ws.
Proof.
  intros Hws Hn Hf Hid Hq. destruct (upd_ok (pw_heap ws) n f Hn Hf) as (nd & h' & Hnd & E & Hl & ->).
  unfold on_heap. rewrite E. simpl. eexists. split; [done|]. split; [|eauto].
  pose proof (ok_heap _ _ Hws) as Hh.
  assert (forall p, pn_id <$> pw_heap ws !! p = pn_id <$> <[n:=f nd]> (pw_heap ws) !! p) as Hids.
  { intros p. destruct (decide (n = p)) as [<-|]; [|by rewrite lookup_insert_ne].
    rewrite lookup_insert_eq, Hnd. simpl. by rewrite Hid. }
  apply pws_set_heap; [done| |done]. destruct Hh as [[K HT] H2 H3 H4]. split.
  - exists K. by apply (tree_links (pw_heap ws)).
  - intros p pd Hp. apply lookup_insert_Some in Hp as [[<- <-]|[_ Hp]]; [rewrite Hid|]; by apply H2.
  - rewrite <- (same_links_parents _ _ Hl root). done.
  - intros p pd Hp. apply lookup_insert_Some in Hp as [[<- <-]|[_ Hp]]; [by apply Hq|by eapply H4].
Qed.

Lemma OpenStream_ok fl ws id PusherID :
  pws_ok fl ws -> may_open ws id -> exists ws', OpenStream ws id PusherID = Some ws' /\ pws_ok fl ws'.
Proof.
  intros Hws [Hid Hopen]. unfold OpenStream. destruct (pw_nodes ws !! id) as [n|] eqn:En.
  - destruct (node_lookup fl ws id n Hws En) as (nd & Hn & _). rewrite Hn. simpl.
    rewrite decide_False by (intros H; apply H; by eapply Hopen).
    destruct (pws_upd fl ws n (set_state priorityNodeOpen)) as (ws' & E & H & _); try done; [|eauto].
    intros nd' Hn'. exact (ho_queues _ _ (ok_heap _ _ Hws) n nd' Hn').
  - assert (is_Some (pw_heap ws !! match pw_nodes ws !! PusherID with Some p => p | None => root end)) as Hp.
    { destruct (pw_nodes ws !! PusherID) as [p|] eqn:Ep.
      - destruct (node_lookup fl ws PusherID p Hws Ep) as (? & ? & _). eauto.
      - destruct (node_lookup fl ws 0 root Hws (ok_root0 _ _ Hws)) as (? & ? & _). eauto. }
    destruct (newNode_ok fl ws id priorityNodeOpen _ Hws Hid Hp) as (ws1 & n & h' & E1 & E2 & En1 & Em1 & _ & Hok & _).
    rewrite E1. unfold on_heap. rewrite E2. simpl. rewrite En1. eexists. split; [done|].
    destruct (_ >? _); [by apply pws_set_maxID|done].
Qed.

Lemma pws_set_pool fl ws v : pws_ok fl ws -> Forall (fun q => q = []) v -> pws_ok fl (set_pool v ws).
Proof. intros [H1 H2 H3 H4 H5 H6 H7] Hv. by split. Qed.

Definition may_close (ws : priorityWriteScheduler) (id : Z) : Prop :=
  id <> 0 /\ exists n nd, pw_nodes ws !! id = Some n /\ pw_heap ws !! n = Some nd /\ pn_state nd = priorityNodeOpen.

Lemma on_heap_Some ws f h : f (pw_heap ws) = Some h -> on_heap ws f = Some (set_heap h ws).
Proof. unfold on_heap. by intros ->. Qed.

Lemma CloseStream_ok fl ws id :
  pws_ok fl ws -> may_close ws id -> exists ws', CloseStream ws id = Some ws' /\ pws_ok fl ws'.
Proof.
  intros Hws (Hid & n & nd & En & Hn & Hst). unfold CloseStream. destruct (Z.eqb_spec id 0); [done|].
  rewrite En. simpl. rewrite Hn. simpl. rewrite decide_False by (intros H; by apply H).
  assert (n <> root) as Hnr.
  { intros ->. destruct (node_lookup fl ws id root Hws En) as (nd' & Hn' & Hid'). apply Hid. rewrite <- Hid'.
    by apply (ho_ids _ _ (ok_heap _ _ Hws) root nd' Hn'). }
  destruct (pws_upd fl ws n (set_state priorityNodeClosed)) as (ws1 & E1 & Hws1 & nd1 & Hn1 & Ew1); try done.
  { intros nd' Hn'. exact (ho_queues _ _ (ok_heap _ _ Hws) n nd' Hn'). }
  rewrite E1. simpl.
  assert (is_Some (pw_heap ws1 !! n)) as Hs1 by (rewrite Ew1; simpl; rewrite lookup_insert_eq; eauto).
  destruct (ho_tree _ _ (ok_heap _ _ Hws1)) as [K1 HT1].
  destruct (addBytes_ok (pw_heap ws1) K1 n (i64 (- pn_bytes nd)) HT1 Hs1) as (h2 & E2 & Hl2 & Hst2).
  rewrite (on_heap_Some ws1 _ h2 E2). simpl.
  assert (pws_ok fl (set_heap h2 ws1)) as Hws2.
  { apply pws_set_heap; [done| |by apply ids_only, static_ids]. apply (heap_ok_same fl (pw_heap ws1)); [apply Hws1| | |by apply static_ids].
    - exists K1. by apply (tree_links (pw_heap ws1)).
    - symmetry. by apply same_links_parents. }
  set (ws3 := set_pool _ _).
  assert (pws_ok fl ws3) as Hws3 by (apply pws_set_pool; [done|]; apply pool_put_ok; apply Hws2).
  assert (is_Some (pw_heap ws3 !! n)) as Hs3 by (by apply (same_links_dom (pw_heap ws1))).
  destruct (pws_upd fl ws3 n (set_q [])) as (ws4 & E4 & Hws4 & nd4 & Hn4 & Ew4); try done.
  rewrite E4. simpl.
  assert (is_Some (pw_heap ws4 !! n)) as Hs4 by (rewrite Ew4; simpl; rewrite lookup_insert_eq; eauto).
  destruct (pw_maxClosedNodesInTree ws4 >? 0).
  - destruct (addClosedOrIdleNode_ok fl ws4 pw_closedNodes set_closedNodes (pw_maxClosedNodesInTree ws4) n) as (ws' & E & H & _);
      [by left|done..|eauto].
  - destruct (removeNode_ok fl ws4 n Hws4 Hs4 Hnr) as (h' & i & E & _ & H & _). eauto.
Qed.

(** ** Changing priorities *)
Lemma reprioritize_heap fl h n parent priority :
  heap_ok fl h -> is_Some (h !! n) -> is_Some (h !! parent) -> n <> root ->
  exists h', reprioritize h n parent priority = Some h' /\ heap_ok fl h' /\
    forall p, pn_id <$> h !! p = pn_id <$> h' !! p.
Proof.
  intros Hh [nd Hn] [pd Hp] Hnr. destruct (decide (n = parent)) as [->|Hne].
  { exists h. unfold reprioritize. by rewrite decide_True. }
  destruct (ho_tree _ _ Hh) as [K HT].
  destruct (reprioritize_ok h K n nd parent pd priority HT Hn Hp Hne) as (h' & K' & b & E & HT' & Hb & Hpar & Hpay).
  assert (forall p, (fun nd => (pn_q nd, pn_id nd)) <$> h !! p = (fun nd => (pn_q nd, pn_id nd)) <$> h' !! p) as Hids.
  { intros p. specialize (Hpay p). destruct (h !! p) as [x|], (h' !! p) as [x'|]; simpl in *; try done.
    unfold payload in Hpay. destruct (decide (p = n)); simpl in Hpay; by injection Hpay as -> -> _ _ _ _. }
  exists h'. split; [done|]. split; [|by apply ids_only]. apply (heap_ok_same fl h); [done|by eexists| |done].
  rewrite Hpar, (ho_root _ _ Hh). unfold new_parent. rewrite decide_False by done.
  assert (raised_parent h n parent root b = Some None) as ->.
  { unfold raised_parent. rewrite decide_False; [apply (ho_root _ _ Hh)|]. intros [<- Hb'].
    apply Hnr. apply (above_root fl h n Hh). by apply Hb. }
  rewrite decide_False; [done|by intros [_ ?]].
Qed.

(** The node of [AdjustStream], which may be a new idle one. *)
Definition adjust_node (ws : priorityWriteScheduler) (streamID : Z) : option (option (priorityWriteScheduler * node_ptr)) :=
  match pw_nodes ws !! streamID with
  | Some n => Some (Some (ws, n))
  | None =>
      if (streamID <=? pw_maxID ws) || (pw_maxIdleNodesInTree ws =? 0) then Some None
      else
        let ws := set_maxID streamID ws in
        let '(ws, n) := newNode ws streamID priorityNodeIdle in
        ws ← on_heap ws (fun h => setParent h n (Some root));
        let ws := set_nodes (<[streamID := n]> (pw_nodes ws)) ws in
        ws ← addClosedOrIdleNode pw_idleNodes set_idleNodes (pw_maxIdleNodesInTree ws) ws n;
        Some (Some (ws, n))
  end.

Lemma root_exists fl ws : pws_ok fl ws -> is_Some (pw_heap ws !! root).
Proof. intros Hws. destruct (node_lookup fl ws 0 root Hws (ok_root0 _ _ Hws)) as (? & ? & _). eauto. Qed.

Lemma nodes_not_root fl ws id n : pws_ok fl ws -> pw_nodes ws !! id = Some n -> id <> 0 -> n <> root.
Proof.
  intros Hws Hn Hid ->. destruct (node_lookup fl ws id root Hws Hn) as (nd & Hnd & E). apply Hid. rewrite <- E.
  by apply (ho_ids _ _ (ok_heap _ _ Hws) root nd Hnd).
Qed.

Lemma adjust_node_ok fl ws id :
  pws_ok fl ws -> id <> 0 ->
  exists r, adjust_node ws id = Some r /\
    match r with None => True | Some (ws', n) => pws_ok fl ws' /\ is_Some (pw_heap ws' !! n) /\ n <> root end.
Proof.
  intros Hws Hid. unfold adjust_node. destruct (pw_nodes ws !! id) as [n|] eqn:En.
  - eexists. split; [done|]. destruct (node_lookup fl ws id n Hws En) as (nd & Hn & _).
    split; [done|]. split; [eauto|by eapply nodes_not_root].
  - destruct (_ || _); [by exists None|].
    destruct (newNode_ok fl (set_maxID id ws) id priorityNodeIdle root) as (ws1 & n & h' & E1 & E2 & En1 & _ & _ & Hok & Hn & Hnr).
    { by apply pws_set_maxID. } { done. } { exact (root_exists fl ws Hws). }
    cbv zeta. rewrite E1, (on_heap_Some ws1 _ h' E2). cbn [mbind option_bind]. rewrite <- En1 in Hok. change (pw_nodes ws1) with (pw_nodes (set_heap h' ws1)) in Hok.
    set (ws2 := set_nodes _ _) in *.
    destruct (addClosedOrIdleNode_ok fl ws2 pw_idleNodes set_idleNodes (pw_maxIdleNodesInTree ws2) n) as (ws3 & E3 & Hok3 & Hn3);
      [by right|done..|].
    rewrite E3. simpl. eexists. split; [done|]. split; [done|]. split; [done|done].
Qed.

Lemma AdjustStream_ok fl ws id priority :
  pws_ok fl ws -> id <> 0 -> exists ws', AdjustStream ws id priority = Some ws' /\ pws_ok fl ws'.
Proof.
  intros Hws Hid. unfold AdjustStream. destruct (Z.eqb_spec id 0) as [|_]; [done|]. fold (adjust_node ws id).
  destruct (adjust_node_ok fl ws id Hws Hid) as (r & -> & Hr). simpl. destruct r as [[ws1 n]|]; [|eauto].
  destruct Hr as (Hws1 & [nd Hn] & Hnr). pose proof (ok_heap _ _ Hws1) as Hh. destruct (ho_tree _ _ Hh) as [K HT].
  destruct (pw_nodes ws1 !! StreamDep priority) as [parent|] eqn:Ep.
  - destruct (node_lookup fl ws1 _ parent Hws1 Ep) as (pd & Hp & _).
    destruct (reprioritize_heap fl (pw_heap ws1) n parent priority Hh) as (h' & E & Hh' & Hids); [eauto..|done|].
    rewrite (on_heap_Some ws1 _ h' E). eexists. split; [done|]. by apply pws_set_heap.
  - destruct (setParent_heap_ok fl (pw_heap ws1) K n nd (Some root) Hh HT Hn Hnr) as (h' & E & Hh' & Hs & _ & _ & _).
    { intros p [= <-]. split; [by apply (root_exists fl)|]. intros Hab. apply Hnr. by apply (above_root fl (pw_heap ws1)). }
    rewrite (on_heap_Some ws1 _ h' E). simpl.
    assert (pws_ok fl (set_heap h' ws1)) as Hws2 by (apply pws_set_heap; [done|done|by apply ids_only, payload_ids]).
    destruct (pws_upd fl (set_heap h' ws1) n (set_weight priorityDefaultWeight)) as (ws3 & E3 & Hws3 & _); try done.
    + apply (same_payload_dom (pw_heap ws1)); [done|eauto].
    + intros nd' Hn'. exact (ho_queues _ _ Hh' n nd' Hn').
    + eauto.
Qed.

(** ** Queueing *)
Definition may_push (fl : flows) (ws : priorityWriteScheduler) (wr : FrameWriteRequest) : Prop :=
  request_ok fl wr /\ (key wr <> None -> pw_nodes ws !! StreamID wr = None -> DataSize wr = 0).

(** The node whose queue takes the request. *)
Definition push_node (ws : priorityWriteScheduler) (wr : FrameWriteRequest) : node_ptr :=
  if isControl wr then root else default root (pw_nodes ws !! StreamID wr).

Lemma Push_ok fl ws wr :
  pws_ok fl ws -> may_push fl ws wr ->
  exists ws' nd, Push ws wr = Some ws' /\ pws_ok fl ws' /\ pw_heap ws !! push_node ws wr = Some nd /\
    ws' = set_heap (<[push_node ws wr := set_q (pn_q nd ++ [wr]) nd]> (pw_heap ws)) ws.
Proof.
  intros Hws [Hrq Hdata]. unfold Push.
  assert ((if isControl wr then Some root
           else match pw_nodes ws !! StreamID wr with
                | Some n => Some n
                | None => if DataSize wr >? 0 then None else Some root
                end) = Some (push_node ws wr)) as ->.
  { unfold push_node. destruct (isControl wr) eqn:Ec; [done|]. destruct (pw_nodes ws !! StreamID wr) eqn:En; [done|].
    rewrite Hdata; [done| |done]. rewrite (key_stream wr Ec). done. }
  simpl.
  assert (is_Some (pw_heap ws !! push_node ws wr)) as [nd Hn].
  { unfold push_node. destruct (isControl wr); [by apply (root_exists fl)|].
    destruct (pw_nodes ws !! StreamID wr) as [n|] eqn:En; [|by apply (root_exists fl)].
    destruct (node_lookup fl ws _ n Hws En) as (? & ? & _). simpl. eauto. }
  rewrite Hn. simpl. unfold queue_push.
  destruct (pws_upd fl ws (push_node ws wr) (set_q (pn_q nd ++ [wr]))) as (ws' & E & Hok & nd' & Hn' & Ew); try done.
  { intros nd' Hn'. simpl. apply Forall_app. split; [exact (ho_queues _ _ (ok_heap _ _ Hws) _ nd Hn)|]. by repeat constructor. }
  exists ws', nd. split; [done|]. split; [done|]. split; [done|]. rewrite Hn in Hn'. injection Hn' as <-. done.
Qed.

(** ** Dequeueing *)
Definition queues_ok (fl : flows) (h : heap) : Prop := forall p nd, h !! p = Some nd -> Forall (request_ok fl) (pn_q nd).

(** The throttling limit after a frame was written. *)
Definition next_limit (enableWriteThrottle openParent : bool) (limit : Z) : Z :=
  if openParent then Z.min (limit + 1024) MaxInt32 else if enableWriteThrottle then 1024 else limit.

(** The tree after the queue of [n] became [q']: the counters aside, nothing else
    changed. *)
Definition requeued (n : node_ptr) (q' : writeQueue) (h h' : heap) : Prop :=
  forall p, static <$> h' !! p = (fun nd => static (if decide (p = n) then set_q q' nd else nd)) <$> h !! p.

Definition waiting (fl : flows) (limit : Z) (a : pop_state) : Prop :=
  po_fl a = fl /\ po_limit a = limit /\ po_ok a = false.

(** The code's saturating addition on [int32]. *)
Lemma next_limit_eq limit : 0 < limit <= MaxInt32 ->
  (if i32 (limit + 1024) <? 0 then MaxInt32 else i32 (limit + 1024)) = Z.min (limit + 1024) MaxInt32.
Proof.
  unfold MaxInt32, i32, swrap. change (2 ^ (32 - 1)) with 2147483648. change (2 ^ 32) with 4294967296.
  change (2 ^ 31 - 1) with 2147483647. intros Hl.
  destruct (Z.le_gt_cases (limit + 1024) 2147483647).
  - rewrite Z.mod_small by lia. destruct (Z.ltb_spec (limit + 1024 + 2147483648 - 2147483648) 0); lia.
  - replace (limit + 1024 + 2147483648) with (limit + 1024 - 2147483648 + 1 * 4294967296) by lia.
    rewrite Z.mod_add, Z.mod_small by lia. destruct (Z.ltb_spec (limit + 1024 - 2147483648 - 2147483648) 0); lia.
Qed.

Lemma popCallback_ok maxFrameSize throttle fl limit n op h K a nd :
  tree h K -> queues_ok fl h -> h !! n = Some nd -> flows_ok fl -> 0 < limit <= MaxInt32 -> waiting fl limit a ->
  exists h' a' b, popCallback maxFrameSize throttle n op h a = Some (h', a', b) /\ same_links h h' /\ po_ok a' = b /\
    if (b : bool) then
      exists q', sent (pn_q nd) (po_wr a') q' /\ requeued n q' h h' /\ Forall (request_ok (po_fl a')) q' /\
        request_ok fl (po_wr a') /\ paid maxFrameSize fl (po_fl a') (po_wr a') /\
        (op = true -> DataSize (po_wr a') <= limit) /\ po_limit a' = next_limit throttle op limit
    else h' = h /\ waiting fl limit a' /\ (pn_q nd = [] \/ held maxFrameSize fl (pn_q nd)).
Proof.
  intros HT Hq Hn Hfl Hlim (Hafl & Hal & Haok). unfold popCallback. rewrite Hn. simpl. rewrite Hafl, Hal.
  set (lim := if op then limit else MaxInt32).
  assert (0 < lim <= MaxInt32) as Hlim' by (unfold lim; destruct op; [done|unfold MaxInt32; lia]).
  destruct (queue_consume_front maxFrameSize fl (pn_q nd) lim Hfl (Hq n nd Hn) ltac:(lia))
    as (fl' & q' & wr & ok & E & Hfl' & Hsame & Hq' & Hr). rewrite E. simpl.
  destruct (upd_ok h n (set_q q')) as (nd0 & h1 & Hn0 & E1 & Hl1 & Eh1); [eauto|done|].
  rewrite Hn in Hn0. injection Hn0 as <-. rewrite E1. simpl. destruct ok; simpl.
  - destruct Hr as (Hs & Hrq & Hpaid & Hd).
    destruct (addBytes_ok h1 K n (i64 (DataSize wr)) (tree_links _ _ _ Hl1 HT)) as (h2 & E2 & Hl2 & Hst).
    { rewrite Eh1, lookup_insert_eq. eauto. }
    rewrite E2. simpl. eexists _, _, true. split; [done|]. split; [by eapply same_links_trans|]. split; [done|]. simpl.
    exists q'. split; [done|]. split; [|split; [done|split; [done|split; [done|split]]]].
    + intros p. rewrite <- (Hst p), Eh1. destruct (decide (p = n)) as [->|Hp].
      * rewrite lookup_insert_eq, Hn. done.
      * rewrite lookup_insert_ne by congruence. by destruct (h !! p).
    + intros ->. unfold lim in Hd. lia.
    + unfold next_limit. destruct op; [by apply next_limit_eq|done].
  - destruct Hr as (-> & -> & Hheld). exists h1, (mkPop fl limit wr false), false. split; [done|].
    assert (h1 = h) as -> by (rewrite Eh1; apply insert_id; rewrite Hn; by destruct nd).
    done.
Qed.

(** A stream with nothing to send, or that its windows hold back. *)
Definition stalled (maxFrameSize : Z) (fl : flows) (h : heap) (n : node_ptr) : Prop :=
  forall nd, h !! n = Some nd -> pn_q nd = [] \/ held maxFrameSize fl (pn_q nd).

Lemma heap_ok_reordered fl h h' : heap_ok fl h -> (exists K, tree h' K) -> reordered h h' -> heap_ok fl h'.
Proof.
  intros Hh HT [Hp Hs]. apply (heap_ok_same fl h); [done|done|by rewrite Hp|by apply payload_ids].
Qed.

Lemma Pop_ok sort maxFrameSize fl ws :
  (forall less l, sort less l ≡ₚ l) -> pws_ok fl ws -> flows_ok fl ->
  exists fl' h' limit' wr ok,
    Pop sort maxFrameSize fl ws = Some (fl', set_limit limit' (set_heap h' ws), (wr, ok)) /\
    pws_ok fl' (set_limit limit' (set_heap h' ws)) /\ same_parents_all (pw_heap ws) h' /\
    if (ok : bool) then
      exists n nd q' op, pw_heap ws !! n = Some nd /\ above (pw_heap ws) root n /\
        sent (pn_q nd) wr q' /\ requeued n q' (pw_heap ws) h' /\ paid maxFrameSize fl fl' wr /\
        (forall x, above (pw_heap ws) x n -> x <> n -> stalled maxFrameSize fl (pw_heap ws) x) /\
        (op = true <-> open_above (pw_heap ws) n) /\
        (op = true -> DataSize wr <= pw_writeThrottleLimit ws) /\
        limit' = next_limit (pw_enableWriteThrottle ws) op (pw_writeThrottleLimit ws)
    else fl' = fl /\ same_payload (pw_heap ws) h' /\ limit' = pw_writeThrottleLimit ws /\
      forall n, above (pw_heap ws) root n -> stalled maxFrameSize fl (pw_heap ws) n.
Proof.
  intros Hsort Hws Hfl. set (h := pw_heap ws). set (limit := pw_writeThrottleLimit ws).
  pose proof (ok_heap _ _ Hws) as Hh. destruct (ho_tree _ _ Hh) as [K HT]. fold h in Hh, HT.
  destruct (root_exists fl ws Hws) as [rd Hr]. fold h in Hr.
  assert (pn_parent rd = None) as Hrp by (pose proof (ho_root _ _ Hh) as H; rewrite Hr in H; by injection H).
  pose proof (ok_limit _ _ Hws) as Hlim. fold limit in Hlim.
  assert (exists r, walkReadyInOrder sort (popCallback maxFrameSize (pw_enableWriteThrottle ws)) (size h) false root h
            (mkPop fl limit emptyRequest false) = r /\
          walked (popCallback maxFrameSize (pw_enableWriteThrottle ws)) (waiting fl limit)
            (fun q => q = [] \/ held maxFrameSize fl q) [root] h K r) as (r & Er & Hw).
  { eexists. split; [reflexivity|].
    apply (walk_ok sort Hsort _ _ _ (queues_ok fl)) with (nd := rd) (anc := []); try done.
    - intros h1 h2 [_ Hp] Hq p nd Hnd. specialize (Hp p). rewrite Hnd in Hp. destruct (h1 !! p) as [nd1|] eqn:E1; [|done].
      simpl in Hp. unfold payload in Hp. injection Hp as Eq _ _ _ _ _. rewrite <- Eq. by apply (Hq p).
    - intros n op h1 K1 a HT1 HJ [nd Hn] Ha.
      destruct (popCallback_ok maxFrameSize (pw_enableWriteThrottle ws) fl limit n op h1 K1 a nd HT1 HJ Hn Hfl Hlim Ha)
        as (h' & a' & b & E & Hl & _ & Hb).
      exists h', a', b. split; [done|]. split; [done|]. intros ->. destruct Hb as (-> & Ha' & Hheld).
      split; [done|]. split; [done|]. intros nd' Hn'. rewrite Hn in Hn'. by injection Hn' as <-.
    - intros p nd Hp. by apply (ho_queues _ _ Hh p).
    - by rewrite Hrp.
    - split; [done|]. intros (x & xd & Hne & Hab & _). by apply (above_root fl h x Hh) in Hab. }
  destruct Hw as (h' & a' & b & K' & Er' & HT' & Hpar & _ & Hb). unfold Pop. fold h limit. rewrite Er, Er'. simpl.
  destruct b.
  - destruct Hb as (k & ->%list_elem_of_singleton & n & nd & op & h1 & a1 & Hab & Hn & Hne & Hro & [K1 HT1] & Ha1 & Hop & Ef & Hx).
    assert (queues_ok fl h1) as HJ1.
    { intros p pd Hp. by apply (ho_queues _ _ (heap_ok_reordered fl h h1 Hh ltac:(eauto) Hro) p). }
    destruct (reordered_lookup h h1 n nd Hro Hn) as (nd1 & Hn1 & Hpl).
    destruct (popCallback_ok maxFrameSize (pw_enableWriteThrottle ws) fl limit n op h1 K1 a1 nd1 HT1 HJ1 Hn1 Hfl Hlim Ha1)
      as (h2 & a2 & b & E & Hl & Hok & Hb). rewrite Ef in E. injection E as <- <- <-. rewrite Hok.
    destruct Hb as (q' & Hs & Hrq & Hq' & Hreq & Hpaid & Hd & Hlim').
    assert (pn_q nd1 = pn_q nd) as Hqn by (unfold payload in Hpl; by injection Hpl as -> _ _ _ _ _).
    assert (requeued n q' h h') as Hre.
    { intros p. rewrite Hrq. destruct Hro as [_ Hpay]. specialize (Hpay p).
      destruct (h !! p) as [x|], (h1 !! p) as [y|]; simpl in *; try done. unfold payload in Hpay. injection Hpay as F1 F2 F3 F4 F5 F6.
      unfold static. destruct (decide (p = n)); simpl; congruence. }
    eexists _, h', (po_limit a'), _, true. split; [done|]. split; [|split; [done|]].
    + apply (paid_same _ _ _ _ Hfl Hreq) in Hpaid as [Hsame Hfl'].
      destruct (pws_windows fl _ ws Hsame Hws) as [G1 G2 G3 G4 G5 G6 G7]. fold h in G1, G2, G3, G5.
      assert (forall p, pn_id <$> h !! p = pn_id <$> h' !! p) as Hids.
      { intros p. specialize (Hre p). destruct (h !! p), (h' !! p); simpl in *; try done. unfold static in Hre.
        destruct (decide (p = n)); simpl in Hre; by injection Hre as _ -> _ _. }
      split; simpl; try done.
      * split; [by eexists| | |].
        -- intros p pd Hp. specialize (Hids p). rewrite Hp in Hids. destruct (h !! p) as [x|] eqn:Ex; [|done].
           simpl in Hids. injection Hids as <-. by apply (ho_ids _ _ Hh).
        -- rewrite <- Hpar. apply (ho_root _ _ Hh).
        -- intros p pd Hp. specialize (Hre p). rewrite Hp in Hre. destruct (h !! p) as [x|] eqn:Ex; [|done].
           simpl in Hre. unfold static in Hre. destruct (decide (p = n)); simpl in Hre; injection Hre as -> _ _ _; [done|].
           by apply (ho_queues _ _ G1 p).
      * intros p Hp. apply G2. by apply (is_Some_fmap_eq _ _ _ (Hids p)).
      * intros id p Hp. rewrite <- Hids. by apply G3.
      * intros p Hp. destruct (G5 p Hp). split; [|done]. by apply (is_Some_fmap_eq _ _ _ (Hids p)).
      * rewrite Hlim'. unfold next_limit. destruct op; [unfold MaxInt32 in *; lia|]. destruct (pw_enableWriteThrottle ws); [unfold MaxInt32; lia|done].
    + exists n, nd, q', op. rewrite <- Hqn. split; [done|]. split; [done|]. split; [done|]. split; [done|]. split; [done|].
      split; [|done]. intros x Hxn Hxne nd' Hx'. destruct (above_linear h root x n Hab Hxn) as [Hrx|Hxr].
      * destruct (Hx x Hrx Hxn Hxne nd' Hx') as [|[|]]; auto.
      * apply (above_root fl h x Hh) in Hxr as ->. destruct (Hx root ltac:(constructor) Hab Hxne nd' Hx') as [|[|]]; auto.
  - destruct Hb as ((Hafl & Hal & Haok) & Hpay & Hall). rewrite Haok, Hafl, Hal.
    eexists _, h', limit, _, false. split; [done|]. split; [|split; [done|]].
    + assert (pws_ok fl (set_heap h' ws)) as [G1 G2 G3 G4 G5 G6 G7].
      { apply pws_set_heap; [done| |by apply ids_only, payload_ids]. apply (heap_ok_reordered fl h); [done|by eexists|done]. }
      by split.
    + split; [done|]. split; [done|]. split; [done|]. intros n Hab nd Hn.
      destruct (Hall root n ltac:(by left) Hab nd Hn) as [|[|]]; auto.
Qed.
