(* ===== verification/PriorityOpen.v ===== *)
(** * Package http2: the priority scheduler behind its interface

    The calls that the documentation of [WriteScheduler] allows, with the streams that its
    caller opened and closed: what the scheduler's nodes say of these streams, and which of
    the calls panic. *)

From S2P Require Import Prelude Flow Frame WriteFrames WriteSched PriorityTree PriorityWalk PrioritySched PriorityKept PriorityMove PriorityContract.

(** ** Calls *)

(** The streams of the caller: open, closed, and those that [OpenStream] found as an idle
    node of the tree. *)
Record streams := mkStreams { st_open : gset Z; st_closed : gset Z; st_idle : gset Z }.

Definition no_streams : streams := mkStreams ∅ ∅ ∅.

Inductive call :=
| COpen (id PusherID : Z)
| CClose (id : Z)
| CAdjust (id : Z) (priority : PriorityParam)
| CPush (wr : FrameWriteRequest)
| CPop (sort : (node_ptr -> node_ptr -> bool) -> list node_ptr -> list node_ptr)
| CCredit (f : nat) (n : Z).               (* a WINDOW_UPDATE or a new initial window *)

Definition permutes (sort : (node_ptr -> node_ptr -> bool) -> list node_ptr -> list node_ptr) : Prop :=
  forall less l, sort less l ≡ₚ l.

(** The documentation of the interface: [OpenStream] not with stream 0 or an open stream,
    [CloseStream] only with an open one, [Push] of DATA to an open one.  No stream is opened
    again after it was closed (RFC 7540, section 5.1.1), and PRIORITY is not about stream 0. *)
Definition legal (fl : flows) (g : streams) (c : call) : Prop :=
  match c with
  | COpen id _ => id <> 0 /\ id ∉ st_open g /\ id ∉ st_closed g
  | CClose id => id ∈ st_open g
  | CAdjust id _ => id <> 0
  | CPush wr => request_ok fl wr /\ (0 < DataSize wr -> StreamID wr ∈ st_open g)
  | CPop sort => permutes sort
  | CCredit f n => is_Some (fl !! f) /\ is_i32 n
  end.

Definition do_call (maxFrameSize : Z) (c : call) (fl : flows) (ws : priorityWriteScheduler)
  : option (flows * priorityWriteScheduler) :=
  match c with
  | COpen id pusher => ws ← OpenStream ws id pusher; Some (fl, ws)
  | CClose id => ws ← CloseStream ws id; Some (fl, ws)
  | CAdjust id priority => ws ← AdjustStream ws id priority; Some (fl, ws)
  | CPush wr => ws ← Push ws wr; Some (fl, ws)
  | CPop sort => '(fl, ws, _) ← Pop sort maxFrameSize fl ws; Some (fl, ws)
  | CCredit f n => '(fl, _) ← flow_add fl f n; Some (fl, ws)
  end.

Definition note (ws : priorityWriteScheduler) (c : call) (g : streams) : streams :=
  match c with
  | COpen id _ => mkStreams ({[ id ]} ∪ st_open g) (st_closed g) (match pw_nodes ws !! id with Some _ => {[ id ]} | None => ∅ end ∪ st_idle g)
  | CClose id => mkStreams (st_open g ∖ {[ id ]}) ({[ id ]} ∪ st_closed g) (st_idle g)
  | _ => g
  end.

(** What legal calls reach that return. *)
Inductive legal_run (maxFrameSize : Z) (cfg : option PriorityWriteSchedulerConfig) :
  flows -> priorityWriteScheduler -> streams -> Prop :=
| run_start fl : flows_ok fl -> legal_run maxFrameSize cfg fl (NewPriorityWriteScheduler cfg) no_streams
| run_call fl ws g c fl' ws' :
    legal_run maxFrameSize cfg fl ws g -> legal fl g c -> do_call maxFrameSize c fl ws = Some (fl', ws') ->
    legal_run maxFrameSize cfg fl' ws' (note ws c g).

(** ** What the nodes say of the streams *)

(** Identifiers and states. *)
Definition seen (nd : priorityNode) : Z * priorityNodeState := (pn_id nd, pn_state nd).

Definition same_seen (h h' : heap) : Prop := forall p, seen <$> h !! p = seen <$> h' !! p.

Lemma kept_seen h h' : kept h h' -> same_seen h h'.
Proof. intros H p. specialize (H p). destruct (h !! p), (h' !! p); cbn in *; unfold core, seen in *; congruence. Qed.

Lemma same_seen_node h h' p nd' : same_seen h h' -> h' !! p = Some nd' -> exists nd, h !! p = Some nd /\ pn_id nd = pn_id nd' /\ pn_state nd = pn_state nd'.
Proof.
  intros H E. specialize (H p). rewrite E in H. destruct (h !! p) as [nd|]; [|done]. exists nd. cbn in H. by injection H.
Qed.

Definition state_ok (g : streams) (max id : Z) (st : priorityNodeState) : Prop :=
  match st with
  | priorityNodeOpen => id ∈ st_open g
  | priorityNodeClosed => id ∈ st_closed g
  | priorityNodeIdle => id ∉ st_open g /\ id ∉ st_closed g /\ max <> 0
  end.

(** A node of [idleNodes]: its stream's node still, unless the stream was closed; and if
    the stream is open, it was idle when it was opened. *)
Definition idle_listed (g : streams) (ws : priorityWriteScheduler) (p : node_ptr) (i : Z) : Prop :=
  pn_id <$> pw_heap ws !! p = Some i /\ i <= pw_maxID ws /\ (pw_nodes ws !! i = Some p \/ i ∈ st_closed g) /\
  (i ∈ st_open g -> i ∈ st_idle g).

(** [mi] is the number of idle nodes that the configuration allows. *)
Section invariant.
Variable mi : Z.

Record streams_ok (g : streams) (ws : priorityWriteScheduler) : Prop := {
  so_apart id : id ∈ st_open g -> id ∉ st_closed g;
  so_zero : 0 ∉ st_open g;
  so_in id n nd : id <> 0 -> pw_nodes ws !! id = Some n -> pw_heap ws !! n = Some nd -> state_ok g (pw_maxIdleNodesInTree ws) id (pn_state nd);
  so_open id : id ∈ st_open g -> pw_nodes ws !! id = None -> id ∈ st_idle g;
  so_idle id : id ∈ st_idle g -> pw_maxIdleNodesInTree ws <> 0;
  so_listed p : p ∈ pw_idleNodes ws -> exists i, idle_listed g ws p i;
  so_nodup : NoDup (pw_idleNodes ws);
  so_closed p : p ∈ pw_closedNodes ws -> exists i, pn_id <$> pw_heap ws !! p = Some i /\ i ∈ st_closed g;
  so_max id : id ∈ st_open g \/ id ∈ st_closed g -> id <= pw_maxID ws;
  so_node id : is_Some (pw_nodes ws !! id) -> id <= pw_maxID ws;
  so_config : pw_maxIdleNodesInTree ws = mi
}.

Lemma same_seen_id h h' p : same_seen h h' -> pn_id <$> h' !! p = pn_id <$> h !! p.
Proof. intros H. specialize (H p). destruct (h !! p), (h' !! p); cbn in *; unfold seen in *; congruence. Qed.

(** Steps that leave the nodes and the lists alone. *)
Lemma streams_frame g ws ws' :
  streams_ok g ws -> same_seen (pw_heap ws) (pw_heap ws') -> pw_nodes ws' = pw_nodes ws -> pw_maxID ws' = pw_maxID ws ->
  pw_idleNodes ws' = pw_idleNodes ws -> pw_closedNodes ws' = pw_closedNodes ws ->
  pw_maxIdleNodesInTree ws' = pw_maxIdleNodesInTree ws -> streams_ok g ws'.
Proof.
  intros [H1 H0 H2 H3 H4 H5 H6 H7 H8 H9 H10] Hs E1 E2 E3 E4 E5. split; rewrite ?E1, ?E2, ?E3, ?E4, ?E5; try done.
  - intros id n nd Hid Hn Hnd. destruct (same_seen_node _ _ _ _ Hs Hnd) as (nd0 & Hnd0 & _ & <-). by apply (H2 id n).
  - intros p Hp. destruct (H5 p Hp) as (i & Hi & Hr). exists i. unfold idle_listed. rewrite E1, E2. split; [|done]. by rewrite (same_seen_id _ _ _ Hs).
  - intros p Hp. destruct (H7 p Hp) as (i & Hi & Hr). exists i. by rewrite (same_seen_id _ _ _ Hs).
Qed.

(** Taking a node out of the tree: its stream is not open, or was idle when it was opened. *)
Lemma streams_remove g ws i h' :
  streams_ok g ws -> same_seen (pw_heap ws) h' -> (i ∈ st_open g -> i ∈ st_idle g) ->
  (forall p, p ∈ pw_idleNodes ws -> pn_id <$> pw_heap ws !! p = Some i -> i ∈ st_closed g) ->
  streams_ok g (set_nodes (delete i (pw_nodes ws)) (set_heap h' ws)).
Proof.
  intros [H1 H0 H2 H3 H4 H5 H6 H7 H8 H9 H10] Hs Hi Hl. split; cbn; try done.
  - intros id n nd Hid Hn Hnd. apply lookup_delete_Some in Hn as [_ Hn]. destruct (same_seen_node _ _ _ _ Hs Hnd) as (nd0 & Hnd0 & _ & <-). by apply (H2 id n).
  - intros id Ho Hn. destruct (decide (id = i)) as [->|Hne]; [by apply Hi|]. rewrite lookup_delete_ne in Hn by done. by apply H3.
  - intros p Hp. destruct (H5 p Hp) as (j & Hj & Hm & Hn & Hr). exists j. unfold idle_listed. cbn. rewrite (same_seen_id _ _ _ Hs).
    split; [done|]. split; [done|]. split; [|done]. destruct Hn as [Hn|Hn]; [|by right]. destruct (decide (j = i)) as [->|Hne]; [right; by apply (Hl p)|].
    left. by rewrite lookup_delete_ne.
  - intros p Hp. destruct (H7 p Hp) as (j & Hj & Hr). exists j. by rewrite (same_seen_id _ _ _ Hs).
  - intros id [n [_ Hn]%lookup_delete_Some]. apply H9. eauto.
Qed.

Lemma same_payload_seen h h' : same_payload h h' -> same_seen h h'.
Proof. intros H p. specialize (H p). destruct (h !! p), (h' !! p); cbn in *; unfold payload, seen in *; congruence. Qed.

(** [removeNode] of a node whose identifier is known. *)
Lemma removeNode_id ws n i ws' :
  pn_id <$> pw_heap ws !! n = Some i -> removeNode ws n = Some ws' ->
  exists h', ws' = set_nodes (delete i (pw_nodes ws)) (set_heap h' ws) /\ same_seen (pw_heap ws) h'.
Proof.
  unfold removeNode. intros Hi E. apply bind_Some in E as (nd & _ & E). apply bind_Some in E as (ws1 & E1 & E). apply bind_Some in E as (ws2 & E2 & E).
  apply bind_Some in E1 as (h1 & E1 & [= <-]). apply bind_Some in E2 as (h2 & E2 & [= <-]). apply bind_Some in E as (nd2 & Hn2 & [= <-]).
  apply moveKids_kept in E1. apply setParent_kept in E2. cbn in *.
  pose proof (kept_seen _ _ (pkept_trans _ _ _ E1 E2)) as Hs. exists h2. split; [|done].
  rewrite <- (same_seen_id _ _ _ Hs), Hn2 in Hi. injection Hi as ->. done.
Qed.

(** A new bookkeeping list. *)
Lemma streams_closedNodes g ws l :
  streams_ok g ws -> (forall p, p ∈ l -> exists i, pn_id <$> pw_heap ws !! p = Some i /\ i ∈ st_closed g) -> streams_ok g (set_closedNodes l ws).
Proof. intros [H1 H0 H2 H3 H4 H5 H6 H7 H8 H9 H10] Hl. by split. Qed.

Lemma streams_idleNodes g ws l :
  streams_ok g ws -> NoDup l -> (forall p, p ∈ l -> exists i, idle_listed g ws p i) -> streams_ok g (set_idleNodes l ws).
Proof. intros [H1 H0 H2 H3 H4 H5 H6 H7 H8 H9 H10] Hd Hl. by split. Qed.

(** A node of a closed stream goes to [closedNodes]. *)
Lemma addClosed_streams g ws max n i ws' :
  streams_ok g ws -> pn_id <$> pw_heap ws !! n = Some i -> i ∈ st_closed g ->
  addClosedOrIdleNode pw_closedNodes set_closedNodes max ws n = Some ws' -> streams_ok g ws'.
Proof.
  intros Hok Hn Hi. unfold addClosedOrIdleNode. destruct (max =? 0); [by intros [= <-]|]. intros E. apply bind_Some in E as (ws1 & E1 & [= <-]).
  assert (streams_ok g ws1 /\ pn_id <$> pw_heap ws1 !! n = Some i) as [H1 Hn1].
  { destruct (zlen (pw_closedNodes ws) =? max); [|by injection E1 as <-]. apply bind_Some in E1 as (o & Ho & E1). apply bind_Some in E1 as (ws2 & E2 & [= <-]).
    destruct (pw_closedNodes ws) as [|o' l] eqn:El; [done|]. injection Ho as ->.
    destruct (so_closed _ _ Hok o) as (j & Hj & Hc); [rewrite El; by left|].
    destruct (removeNode_id _ _ _ _ Hj E2) as (h' & -> & Hs). split; [|cbn; by rewrite (same_seen_id _ _ _ Hs)].
    apply streams_closedNodes.
    - apply streams_remove; [done|done| |done]. intros Ho. by destruct (so_apart _ _ Hok j Ho).
    - cbn. rewrite El. cbn. intros p Hp. destruct (so_closed _ _ Hok p) as (k & Hk & Hkc); [rewrite El; by right|]. exists k.
      by rewrite (same_seen_id _ _ _ Hs). }
  apply streams_closedNodes; [done|]. intros p [Hp| ->%list_elem_of_singleton]%elem_of_app; [by apply (so_closed _ _ H1)|eauto].
Qed.

(** A new idle node goes to [idleNodes]. *)
Lemma addIdle_streams g ws max n i ws' :
  streams_ok g ws -> idle_listed g ws n i -> n ∉ pw_idleNodes ws -> i ∉ st_closed g ->
  addClosedOrIdleNode pw_idleNodes set_idleNodes max ws n = Some ws' -> streams_ok g ws' /\ pw_heap ws' !! n <> None.
Proof.
  intros Hok Hn Hin Hic. unfold addClosedOrIdleNode. destruct (max =? 0).
  { intros [= <-]. split; [done|]. destruct Hn as [Hn _]. by destruct (pw_heap ws !! n). }
  intros E. apply bind_Some in E as (ws1 & E1 & [= <-]).
  assert (streams_ok g ws1 /\ idle_listed g ws1 n i /\ n ∉ pw_idleNodes ws1) as (H1 & Hn1 & Hin1).
  { destruct (zlen (pw_idleNodes ws) =? max); [|by injection E1 as <-]. apply bind_Some in E1 as (o & Ho & E1). apply bind_Some in E1 as (ws2 & E2 & [= <-]).
    pose proof (so_nodup _ _ Hok) as Hd. destruct (pw_idleNodes ws) as [|o' l] eqn:El; [done|]. injection Ho as ->.
    apply NoDup_cons in Hd as [Hol Hd]. destruct (so_listed _ _ Hok o) as (j & Hj & Hjm & Hjn & Hjo); [rewrite El; by left|].
    destruct (removeNode_id _ _ _ _ Hj E2) as (h' & -> & Hs).
    assert (j <> i \/ j ∈ st_closed g) as Hji.
    { destruct Hn as (_ & _ & Hn & _). destruct Hjn as [Hjn|]; [|by right]. left. intros ->. destruct Hn as [Hn|]; [|done].
      rewrite Hjn in Hn. injection Hn as ->. apply Hin. by left. }
    assert (forall p k, p ∈ l -> idle_listed g ws p k -> k = j -> j ∈ st_closed g) as Hother.
    { intros p k Hp (_ & _ & Hk & _) ->. destruct Hk as [Hk|]; [|done]. destruct Hjn as [Hjn|]; [|done]. rewrite Hjn in Hk. by injection Hk as ->. }
    assert (forall p k, idle_listed g ws p k -> k <> j \/ j ∈ st_closed g ->
      idle_listed g (set_idleNodes l (set_nodes (delete j (pw_nodes ws)) (set_heap h' ws))) p k) as Hkeep.
    { intros p k (Hk & Hm & Hkn & Hko) Hkj. unfold idle_listed. cbn. rewrite (same_seen_id _ _ _ Hs). split; [done|]. split; [done|]. split; [|done].
      destruct (decide (k = j)) as [->|Hne]; [right; by destruct Hkj|]. by rewrite lookup_delete_ne. }
    cbn. rewrite El. cbn [tail]. split; [|split; [apply Hkeep; [done|tauto || (destruct Hji; [left; congruence|by right])]|set_solver]].
    destruct Hok as [K1 K0 K2 K3 K4 K5 K6 K7 K8 K9 K10]. split; cbn; try done.
    - intros id m nd Hid Hm Hnd. apply lookup_delete_Some in Hm as [_ Hm].
      destruct (same_seen_node _ _ _ _ Hs Hnd) as (nd0 & Hnd0 & _ & <-). by apply (K2 id m).
    - intros id Ho Hm. destruct (decide (id = j)) as [->|Hne]; [by apply Hjo|]. rewrite lookup_delete_ne in Hm by done. by apply K3.
    - intros p Hp. destruct (K5 p) as (k & Hk); [rewrite El; by right|]. exists k. apply Hkeep; [done|].
      destruct (decide (k = j)) as [->|]; [right; by eapply Hother|by left].
    - intros p Hp. destruct (K7 p Hp) as (k & Hk & Hkc). exists k. by rewrite (same_seen_id _ _ _ Hs).
    - intros id [m [_ Hm]%lookup_delete_Some]. apply K9. eauto. }
  split; [|destruct Hn1 as [Hn1 _]; cbn; by destruct (pw_heap ws1 !! n)]. apply streams_idleNodes; [done|..].
  - apply NoDup_app. split; [apply H1|]. split; [set_solver|apply NoDup_singleton].
  - intros p [Hp| ->%list_elem_of_singleton]%elem_of_app; [by apply (so_listed _ _ H1)|eauto].
Qed.

(** ** The calls keep it *)
Lemma streams_ok_new c : MaxIdleNodesInTree (default (mkConfig 10 10 false) c) = mi -> streams_ok no_streams (NewPriorityWriteScheduler c).
Proof.
  assert (forall c, MaxIdleNodesInTree c = mi -> streams_ok no_streams (NewPriorityWriteScheduler (Some c))) as H.
  { intros c' Hc. split; cbn; try set_solver; try constructor.
    - intros id n nd Hid [<- _]%lookup_singleton_Some. done.
    - intros id [n [<- _]%lookup_singleton_Some]. done. }
  destruct c; apply H.
Qed.

Lemma newNode_fields ws id st ws1 n :
  newNode ws id st = (ws1, n) ->
  n = pw_fresh ws /\ pw_nodes ws1 = pw_nodes ws /\ pw_maxID ws1 = pw_maxID ws /\ pw_idleNodes ws1 = pw_idleNodes ws /\
  pw_closedNodes ws1 = pw_closedNodes ws /\ pw_maxIdleNodesInTree ws1 = pw_maxIdleNodesInTree ws /\
  forall p, seen <$> pw_heap ws1 !! p = if decide (p = n) then Some (id, st) else seen <$> pw_heap ws !! p.
Proof.
  unfold newNode. destruct (pool_get (pw_queuePool ws)) as [pool q]. intros [= <- <-]. cbn. do 6 (split; [done|]). intros p.
  destruct (decide (p = _)) as [->|]; [by rewrite lookup_insert_eq|by rewrite lookup_insert_ne].
Qed.

(** A new node, of a stream whose identifier is above the others or that is opened. *)
Lemma add_streams fl ws id st ws1 n ws2 f :
  pws_ok fl ws -> newNode ws id st = (ws1, n) -> on_heap ws1 f = Some ws2 ->
  (forall h', f (pw_heap ws1) = Some h' -> kept (pw_heap ws1) h') ->
  pw_heap ws !! n = None /\ pw_nodes ws2 = pw_nodes ws /\ pw_maxID ws2 = pw_maxID ws /\ pw_idleNodes ws2 = pw_idleNodes ws /\
  pw_closedNodes ws2 = pw_closedNodes ws /\ pw_maxIdleNodesInTree ws2 = pw_maxIdleNodesInTree ws /\
  (exists nd, pw_heap ws2 !! n = Some nd /\ pn_id nd = id /\ pn_state nd = st) /\
  forall p, p <> n -> seen <$> pw_heap ws2 !! p = seen <$> pw_heap ws !! p.
Proof.
  intros Hws E1 E2 Hf. destruct (newNode_fields _ _ _ _ _ E1) as (-> & F1 & F2 & F3 & F4 & F5 & Fh).
  apply bind_Some in E2 as (h' & E2 & [= <-]). specialize (kept_seen _ _ (Hf h' E2)) as Hs. cbn.
  split; [|do 5 (split; [done|])].
  - destruct (pw_heap ws !! pw_fresh ws) eqn:E; [|done]. assert (pw_fresh ws < pw_fresh ws)%nat; [|lia]. by apply (ok_fresh _ _ Hws).
  - split.
    + specialize (Hs (pw_fresh ws)). rewrite Fh, decide_True in Hs by done. destruct (h' !! pw_fresh ws) as [nd|]; [|done]. cbn in Hs. injection Hs. eauto.
    + intros p Hp. rewrite <- (Hs p), Fh. by rewrite decide_False.
Qed.

Lemma seen_id (o o' : option priorityNode) : seen <$> o = seen <$> o' -> pn_id <$> o = pn_id <$> o'.
Proof. destruct o, o'; cbn; unfold seen; congruence. Qed.

Lemma seen_state (o : option priorityNode) nd' : seen <$> o = Some (seen nd') -> exists nd, o = Some nd /\ pn_state nd = pn_state nd'.
Proof. destruct o; cbn; unfold seen; [|done]. intros [= ? ?]. eauto. Qed.

Lemma OpenStream_streams fl g ws id pusher ws' :
  pws_ok fl ws -> streams_ok g ws -> id <> 0 -> id ∉ st_open g -> id ∉ st_closed g -> OpenStream ws id pusher = Some ws' ->
  streams_ok (note ws (COpen id pusher) g) ws'.
Proof.
  intros Hws Hok Hid Ho Hc E. unfold OpenStream in E. cbn [note]. destruct (pw_nodes ws !! id) as [n|] eqn:En.
  - apply bind_Some in E as (nd & Hn & E). destruct (decide _) as [|Hst]; [done|].
    assert (pn_state nd = priorityNodeIdle) as Hst' by (destruct (decide (pn_state nd = priorityNodeIdle)); tauto).
    pose proof (so_in _ _ Hok id n nd Hid En Hn) as Hs. rewrite Hst' in Hs. destruct Hs as (_ & _ & Hm).
    apply bind_Some in E as (h' & E & [= <-]). apply bind_Some in E as (nd' & Hn' & [= <-]). assert (nd' = nd) as -> by congruence.
    assert (forall p, pn_id <$> <[n:=set_state priorityNodeOpen nd]> (pw_heap ws) !! p = pn_id <$> pw_heap ws !! p) as Hids.
    { intros p. destruct (decide (p = n)) as [->|]; [by rewrite lookup_insert_eq, Hn|by rewrite lookup_insert_ne]. }
    destruct Hok as [H1 H0 H2 H3 H4 H5 H6 H7 H8 H9 H10]. split; cbn; try done.
    + set_solver.
    + set_solver.
    + intros i m md Hi Hm1 Hmd. destruct (decide (m = n)) as [->|Hne].
      * rewrite lookup_insert_eq in Hmd. injection Hmd as <-. cbn.
        destruct (node_lookup fl ws i n Hws Hm1) as (nd1 & Hnd1 & <-). destruct (node_lookup fl ws id n Hws En) as (nd2 & Hnd2 & <-).
        rewrite Hnd1 in Hnd2. injection Hnd2 as ->. set_solver.
      * rewrite lookup_insert_ne in Hmd by done. pose proof (H2 i m md Hi Hm1 Hmd) as Hs. destruct (pn_state md); cbn in *; [set_solver|done|].
        assert (i <> id) by (intros ->; congruence). set_solver.
    + intros i Hi Hn0. apply elem_of_union in Hi as [->%elem_of_singleton|Hi]; [congruence|]. apply elem_of_union_r. by apply H3.
    + intros p Hp. destruct (H5 p Hp) as (i & Hi & Hm1 & Hn1 & Ho1). exists i. unfold idle_listed. cbn. rewrite Hids.
      split; [done|]. split; [done|]. split; [done|]. set_solver.
    + intros p Hp. destruct (H7 p Hp) as (i & Hi & Hr). exists i. by rewrite Hids.
    + intros i [[->%elem_of_singleton|Hi]%elem_of_union|Hi]; [|apply H8; tauto..].
      apply H9. eauto.
  - destruct (newNode ws id priorityNodeOpen) as [ws1 n] eqn:E1. apply bind_Some in E as (ws2 & E2 & E).
    destruct (add_streams fl _ _ _ _ _ _ _ Hws E1 E2 ltac:(intros h'; apply setParent_kept)) as (Hf & F1 & F2 & F3 & F4 & F5 & (nd & Hn & Hni & Hns) & Fh).
    assert (forall p x, pn_id <$> pw_heap ws !! p = Some x -> pn_id <$> pw_heap ws2 !! p = Some x) as Hids.
    { intros p x Hp. rewrite <- Hp. apply seen_id, Fh. intros ->. by rewrite Hf in Hp. }
    assert (forall v, pw_maxID ws <= v -> id <= v -> streams_ok (mkStreams ({[id]} ∪ st_open g) (st_closed g) (∅ ∪ st_idle g))
      (set_maxID v (set_nodes (<[id:=n]> (pw_nodes ws2)) ws2))) as G.
    { intros v Hv1 Hv2. destruct Hok as [H1 H0 H2 H3 H4 H5 H6 H7 H8 H9 H10]. split; cbn; rewrite ?F1, ?F3, ?F4, ?F5; try done.
      - set_solver.
      - set_solver.
      - intros i m md Hi Hm Hmd. apply lookup_insert_Some in Hm as [[<- <-]|[Hne Hm]].
        + rewrite Hn in Hmd. injection Hmd as <-. rewrite Hns. cbn. set_solver.
        + assert (m <> n) as Hmn by (intros ->; destruct (node_lookup fl ws i n Hws Hm) as (? & ? & _); congruence).
          pose proof (Fh m Hmn) as Hs. rewrite Hmd in Hs. cbn in Hs. symmetry in Hs. apply seen_state in Hs as (md0 & Hmd0 & <-).
          pose proof (H2 i m md0 Hi Hm Hmd0) as Hs. destruct (pn_state md0); cbn in *; [set_solver|done|set_solver].
      - intros i Hi Hm. apply lookup_insert_None in Hm as [Hm Hne]. apply elem_of_union_r, H3; [set_solver|done].
      - intros i Hi. apply (H4 i). set_solver.
      - intros p Hp. destruct (H5 p Hp) as (i & Hi & Hm & Hn1 & Ho1). exists i. unfold idle_listed. cbn. rewrite ?F1.
        split; [by apply Hids|]. split; [lia|]. assert (i <> id) as Hne by (intros ->; destruct Hn1; congruence).
        split; [by rewrite lookup_insert_ne|set_solver].
      - intros p Hp. destruct (H7 p Hp) as (i & Hi & Hr). exists i. split; [by apply Hids|done].
      - intros i [[->%elem_of_singleton|Hi]%elem_of_union|Hi]; [done|..]; (etrans; [apply H8; eauto|done]).
      - intros i [m [[<- _]|[_ Hm]]%lookup_insert_Some]; [done|]. etrans; [apply H9; eauto|done]. }
    injection E as <-. cbn. rewrite F2. destruct (Z.gtb_spec id (pw_maxID ws)).
    + apply G; lia.
    + eapply streams_frame; [apply (G (pw_maxID ws)); lia|by intros p|by cbn..].
Qed.

Lemma CloseStream_streams fl g ws id ws' :
  pws_ok fl ws -> streams_ok g ws -> id ∈ st_open g -> CloseStream ws id = Some ws' ->
  streams_ok (note ws (CClose id) g) ws'.
Proof.
  intros Hws Hok Ho E. unfold CloseStream in E. destruct (id =? 0); [done|]. apply bind_Some in E as (n & En & E).
  apply bind_Some in E as (nd & Hn & E). destruct (decide _) as [|_]; [done|].
  apply bind_Some in E as (ws1 & E1 & E). apply bind_Some in E as (ws2 & E2 & E). apply bind_Some in E as (ws3 & E3 & E).
  apply bind_Some in E1 as (h1 & E1 & [= <-]). apply bind_Some in E1 as (nd' & Hn' & [= <-]). assert (nd' = nd) as -> by congruence. clear Hn'.
  apply bind_Some in E2 as (h2 & E2 & [= <-]). apply addBytes_kept, kept_seen in E2. cbn in E2.
  apply bind_Some in E3 as (h3 & E3 & [= <-]). cbn in E3. apply bind_Some in E3 as (nd2 & Hn2 & [= <-]).
  destruct (node_lookup fl ws id n Hws En) as (nd0 & Hnd0 & Hid). assert (nd0 = nd) as -> by congruence. clear Hnd0.
  set (g' := note ws (CClose id) g). set (ws4 := set_heap (<[n := set_q [] nd2]> h2) _) in E.
  assert (same_seen (<[n := set_state priorityNodeClosed nd]> (pw_heap ws)) (pw_heap ws4)) as Hs.
  { intros p. rewrite E2. cbn. destruct (decide (p = n)) as [->|]; [by rewrite lookup_insert_eq, Hn2|by rewrite lookup_insert_ne]. }
  assert (streams_ok g' (set_heap (<[n := set_state priorityNodeClosed nd]> (pw_heap ws)) ws)) as H0.
  { assert (forall p, pn_id <$> <[n:=set_state priorityNodeClosed nd]> (pw_heap ws) !! p = pn_id <$> pw_heap ws !! p) as Hids.
    { intros p. destruct (decide (p = n)) as [->|]; [by rewrite lookup_insert_eq, Hn|by rewrite lookup_insert_ne]. }
    destruct Hok as [H1 H0 H2 H3 H4 H5 H6 H7 H8 H9 H10]. split; cbn; try done.
    - set_solver.
    - set_solver.
    - intros i m md Hi Hm Hmd. destruct (decide (m = n)) as [->|Hne].
      + rewrite lookup_insert_eq in Hmd. injection Hmd as <-. cbn. destruct (node_lookup fl ws i n Hws Hm) as (nd1 & Hnd1 & <-).
        assert (nd1 = nd) as -> by congruence. set_solver.
      + rewrite lookup_insert_ne in Hmd by done. assert (i <> id) by (intros ->; congruence). pose proof (H2 i m md Hi Hm Hmd) as Hst.
        destruct (pn_state md); cbn in *; set_solver.
    - intros i [Hi _]%elem_of_difference. by apply H3.
    - intros p Hp. destruct (H5 p Hp) as (i & Hi & Hm & Hn1 & Ho1). exists i. unfold idle_listed. cbn. rewrite Hids.
      split; [done|]. split; [done|]. split; [set_solver|]. set_solver.
    - intros p Hp. destruct (H7 p Hp) as (i & Hi & Hr). exists i. rewrite Hids. set_solver.
    - intros i [Hi|Hi]; apply H8; set_solver. }
  assert (streams_ok g' ws4) as H4 by (eapply streams_frame; [exact H0|exact Hs|done..]).
  assert (pn_id <$> pw_heap ws4 !! n = Some id) as Hi4 by (rewrite (same_seen_id _ _ _ Hs), lookup_insert_eq; cbn; by rewrite Hid).
  assert (id ∈ st_closed g') as Hc by (cbn; set_solver).
  destruct (_ >? 0); [by eapply addClosed_streams|].
  destruct (removeNode_id _ _ _ _ Hi4 E) as (h' & -> & Hs'). apply streams_remove; [done|done| |done]. intros Hx. by destruct (so_apart _ _ H4 id Hx).
Qed.

Lemma AdjustStream_streams fl g ws id prio ws' :
  pws_ok fl ws -> streams_ok g ws -> AdjustStream ws id prio = Some ws' -> streams_ok g ws'.
Proof.
  intros Hws Hok E. unfold AdjustStream in E. destruct (id =? 0); [done|]. apply bind_Some in E as (r & Er & E).
  assert (match r with None => True | Some (ws1, _) => streams_ok g ws1 end) as Hr.
  { destruct (pw_nodes ws !! id) as [n|] eqn:En; [by injection Er as <-|].
    destruct (_ || _) eqn:Ec; [by injection Er as <-|]. apply orb_false_iff in Ec as [Em%Z.leb_gt Ex%Z.eqb_neq].
    destruct (newNode (set_maxID id ws) id priorityNodeIdle) as [ws1 n] eqn:E1. apply bind_Some in Er as (ws2 & E2 & Er). apply bind_Some in Er as (ws3 & E3 & [= <-]).
    assert (pws_ok fl (set_maxID id ws)) as Hws' by (by apply pws_set_maxID).
    destruct (add_streams fl _ _ _ _ _ _ _ Hws' E1 E2 ltac:(intros h'; apply setParent_kept)) as (Hf & F1 & F2 & F3 & F4 & F5 & (nd & Hn & Hni & Hns) & Fh).
    cbn in Hf, F1, F2, F3, F4, F5, Fh.
    assert (forall p x, pn_id <$> pw_heap ws !! p = Some x -> pn_id <$> pw_heap ws2 !! p = Some x) as Hids.
    { intros p x Hp. rewrite <- Hp. apply seen_id, Fh. intros ->. by rewrite Hf in Hp. }
    assert (id ∉ st_open g /\ id ∉ st_closed g) as [Hno Hnc].
    { split; intros H; pose proof (so_max _ _ Hok id ltac:(tauto)); lia. }
    eapply (addIdle_streams g _ _ n id); [..|exact E3].
    - destruct Hok as [H1 H0 H2 H3 H4 H5 H6 H7 H8 H9 H10]. split; cbn; rewrite ?F1, ?F2, ?F3, ?F4, ?F5; try done.
      + intros i m md Hi Hm Hmd. apply lookup_insert_Some in Hm as [[<- <-]|[Hne Hm]].
        * rewrite Hn in Hmd. injection Hmd as <-. rewrite Hns. done.
        * assert (m <> n) as Hmn by (intros ->; destruct (node_lookup fl ws i n Hws Hm) as (? & ? & _); congruence).
          pose proof (Fh m Hmn) as Hs. rewrite Hmd in Hs. cbn in Hs. symmetry in Hs. apply seen_state in Hs as (md0 & Hmd0 & <-). by apply (H2 i m).
      + intros i Hi [Hm _]%lookup_insert_None. by apply H3.
      + intros p Hp. destruct (H5 p Hp) as (i & Hi & Hm & Hn1 & Ho1). exists i. unfold idle_listed. cbn. rewrite ?F1, ?F2.
        split; [by apply Hids|]. split; [lia|]. split; [by rewrite lookup_insert_ne by lia|done].
      + intros p Hp. destruct (H7 p Hp) as (i & Hi & Hr). exists i. split; [by apply Hids|done].
      + intros i Hi. specialize (H8 i Hi). lia.
      + intros i [m [[<- _]|[_ Hm]]%lookup_insert_Some]; [done|]. specialize (H9 i ltac:(eauto)). lia.
    - unfold idle_listed. cbn. rewrite Hn. cbn. rewrite Hni, F2. split; [done|]. split; [done|]. split; [left; by rewrite lookup_insert_eq|done].
    - cbn. rewrite F3. intros Hx. destruct (so_listed _ _ Hok n Hx) as (i & Hi & _). by rewrite Hf in Hi.
    - done. }
  destruct r as [[ws1 n]|]; [|by injection E as <-].
  assert (exists h', ws' = set_heap h' ws1 /\ kept (pw_heap ws1) h') as (h' & -> & Hk).
  { destruct (pw_nodes ws1 !! StreamDep prio).
    - apply bind_Some in E as (h' & E & [= <-]). eexists. split; [done|]. by eapply reprioritize_kept.
    - apply bind_Some in E as (ws2 & E2 & E). apply bind_Some in E2 as (h1 & E2 & [= <-]). apply bind_Some in E as (h2 & E & [= <-]).
      exists h2. split; [done|]. apply (pkept_trans _ h1); [by eapply setParent_kept|]. by apply (upd_kept h1 n (set_weight priorityDefaultWeight)). }
  eapply streams_frame; [exact Hr|by apply kept_seen|done..].
Qed.

Lemma Push_streams g ws wr ws' : streams_ok g ws -> Push ws wr = Some ws' -> streams_ok g ws'.
Proof.
  intros Hok E. unfold Push in E. apply bind_Some in E as (n & _ & E). apply bind_Some in E as (nd & Hn & E).
  apply bind_Some in E as (h' & E & [= <-]). apply bind_Some in E as (nd' & Hn' & [= <-]). assert (nd' = nd) as -> by congruence.
  eapply streams_frame; [exact Hok| |done..]. intros p. cbn. destruct (decide (p = n)) as [->|]; [by rewrite lookup_insert_eq, Hn|by rewrite lookup_insert_ne].
Qed.

Lemma Pop_streams sort mfs fl g ws fl' ws' r :
  permutes sort -> pws_ok fl ws -> flows_ok fl -> streams_ok g ws -> Pop sort mfs fl ws = Some (fl', ws', r) -> streams_ok g ws'.
Proof.
  intros Hsort Hws Hfl Hok E. destruct (Pop_ok sort mfs fl ws Hsort Hws Hfl) as (fl2 & h' & lim & wr & ok & E2 & _ & _ & Hr).
  rewrite E2 in E. injection E as <- <- _. eapply streams_frame; [exact Hok| |done..]. cbn. destruct ok.
  - destruct Hr as (n & nd & q' & op & _ & _ & _ & Hq & _). intros p. specialize (Hq p). destruct (pw_heap ws !! p), (h' !! p); cbn in *; try done.
    unfold static, seen in *. destruct (decide (p = n)); cbn in *; congruence.
  - destruct Hr as (_ & Hp & _). by apply same_payload_seen.
Qed.

(** ** Runs *)
Lemma New_ok fl cfg : pws_ok fl (NewPriorityWriteScheduler cfg).
Proof.
  assert (forall cfg, pws_ok fl (NewPriorityWriteScheduler (Some cfg))) as H.
  { intros [a b c]. split; simpl.
    - split.
      + exists (fun _ => []). split; [split|].
        * intros p nd Hp. by apply lookup_singleton_Some in Hp as [_ <-].
        * done.
        * intros k kd Hk _. by apply lookup_singleton_Some in Hk as [_ <-].
        * intros p. constructor.
        * done.
        * intros k. constructor. intros p Hp%parent_of_Some. destruct Hp as (kd & Hk & Hp).
          by apply lookup_singleton_Some in Hk as [_ <-].
      + intros p nd Hp. by apply lookup_singleton_Some in Hp as [<- <-].
      + by rewrite lookup_singleton_eq.
      + intros p nd Hp. apply lookup_singleton_Some in Hp as [_ <-]. constructor.
    - intros p [nd Hp]. apply lookup_singleton_Some in Hp as [<- _]. unfold root. lia.
    - intros id p Hp. apply lookup_singleton_Some in Hp as [<- <-]. by rewrite lookup_singleton_eq.
    - by rewrite lookup_singleton_eq.
    - intros p [Hp|Hp]; by apply not_elem_of_nil in Hp.
    - destruct c; unfold MaxInt32; lia.
    - constructor. }
  destruct cfg; apply H.
Qed.

Lemma flow_add_ok fl f n fl' b :
  flows_ok fl -> is_Some (fl !! f) -> is_i32 n -> flow_add fl f n = Some (fl', b) -> flows_ok fl' /\ same_windows fl fl'.
Proof.
  intros Hfl [x Hx] Hn E. destruct (flow_add_spec fl f x n Hfl Hx Hn) as [[Hi E']|[Hi E']]; rewrite E' in E; injection E as <- _; [|done].
  split; [by apply flows_ok_update|]. intros g. destruct (decide (g = f)) as [->|Hne].
  - rewrite lookup_insert_eq, Hx. split; eauto.
  - by rewrite lookup_insert_ne.
Qed.

Lemma Pop_windows sort maxFrameSize fl ws fl' ws' r :
  permutes sort -> pws_ok fl ws -> flows_ok fl -> Pop sort maxFrameSize fl ws = Some (fl', ws', r) ->
  pws_ok fl' ws' /\ flows_ok fl'.
Proof.
  intros Hsort Hws Hfl E. destruct (Pop_ok sort maxFrameSize fl ws Hsort Hws Hfl) as (fl2 & h' & lim & wr & ok & E2 & Hok & _ & Hr).
  rewrite E2 in E. injection E as <- <- _. split; [done|]. destruct ok; [|by destruct Hr as (-> & _)].
  destruct Hr as (n & nd & q' & op & Hn & _ & Hs & _ & Hpaid & _).
  destruct Hpaid as [[_ ->]|(s & Hst & Hd & Ht)]; [done|].
  assert (request_ok fl wr) as Hrq.
  { unfold request_ok. rewrite Hst. unfold flow_take, flow_available in Ht. destruct (fl !! s_flow s); [eauto|done]. }
  by apply (paid_same maxFrameSize fl fl2 wr Hfl Hrq); right; exists s.
Qed.

(** The calls that panic although they are legal: [CloseStream] and [Push] of DATA for a
    stream that is not in the tree. *)
Definition blocked (ws : priorityWriteScheduler) (c : call) : Prop :=
  match c with
  | CClose id => pw_nodes ws !! id = None
  | CPush wr => 0 < DataSize wr /\ pw_nodes ws !! StreamID wr = None
  | _ => False
  end.

Lemma DataSize_nonneg wr : DataSize wr = 0 \/ 0 < DataSize wr.
Proof. unfold DataSize. destruct (wr_write wr) as [[]|]; try (by left). pose proof (zlen_nonneg p). lia. Qed.

Lemma decide_blocked ws c : blocked ws c \/ ~ blocked ws c.
Proof.
  destruct c as [| id | |wr| |]; cbn; try tauto; [destruct (pw_nodes ws !! id); [by right|by left]|].
  destruct (pw_nodes ws !! StreamID wr); [right; by intros [_ ?]|]. destruct (DataSize_nonneg wr); [right; lia|by left].
Qed.

Definition run_ok (fl : flows) (ws : priorityWriteScheduler) (g : streams) : Prop := flows_ok fl /\ pws_ok fl ws /\ streams_ok g ws.

Lemma open_may_open fl ws g id : run_ok fl ws g -> id <> 0 -> id ∉ st_open g -> id ∉ st_closed g -> may_open ws id.
Proof.
  intros (_ & _ & Hok) Hid Ho Hc. split; [done|]. intros n nd Hn Hnd. pose proof (so_in _ _ Hok id n nd Hid Hn Hnd) as H.
  by destruct (pn_state nd).
Qed.

Lemma open_may_close fl ws g id n : run_ok fl ws g -> id ∈ st_open g -> pw_nodes ws !! id = Some n -> may_close ws id.
Proof.
  intros (_ & Hws & Hok) Ho Hn. assert (id <> 0) as Hid by (intros ->; by apply (so_zero _ _ Hok)). split; [done|].
  destruct (node_lookup fl ws id n Hws Hn) as (nd & Hnd & _). exists n, nd. split; [done|]. split; [done|].
  pose proof (so_in _ _ Hok id n nd Hid Hn Hnd) as H. destruct (pn_state nd); cbn in H; [done|by destruct (so_apart _ _ Hok id Ho)|tauto].
Qed.

(** A legal call returns, and keeps the invariants, unless it is blocked. *)
Lemma call_returns maxFrameSize fl ws g c :
  run_ok fl ws g -> legal fl g c -> ~ blocked ws c ->
  exists fl' ws', do_call maxFrameSize c fl ws = Some (fl', ws') /\ run_ok fl' ws' (note ws c g).
Proof.
  intros HR Hl Hb. pose proof HR as (Hfl & Hws & Hok). destruct c as [id P|id|id prio|wr|sort|f n]; cbn [legal blocked do_call] in *.
  - destruct Hl as (Hid & Ho & Hc). destruct (OpenStream_ok fl ws id P Hws) as (ws' & E & H); [by eapply open_may_open|].
    exists fl, ws'. rewrite E. split; [done|]. split; [done|]. split; [done|]. by eapply OpenStream_streams.
  - destruct (pw_nodes ws !! id) as [n|] eqn:En; [|done]. destruct (CloseStream_ok fl ws id Hws) as (ws' & E & H); [by eapply open_may_close|].
    exists fl, ws'. rewrite E. split; [done|]. split; [done|]. split; [done|]. exact (CloseStream_streams fl g ws id ws' Hws Hok Hl E).
  - destruct (AdjustStream_ok fl ws id prio Hws Hl) as (ws' & E & H). exists fl, ws'. rewrite E. split; [done|]. split; [done|]. split; [done|].
    exact (AdjustStream_streams fl g ws id prio ws' Hws Hok E).
  - destruct Hl as [Hr Hd]. destruct (Push_ok fl ws wr Hws) as (ws' & _ & E & H & _).
    { split; [done|]. intros _ Hn. destruct (DataSize_nonneg wr) as [?|?]; [done|]. by destruct Hb. }
    exists fl, ws'. rewrite E. split; [done|]. split; [done|]. split; [done|]. exact (Push_streams g ws wr ws' Hok E).
  - destruct (Pop_ok sort maxFrameSize fl ws Hl Hws Hfl) as (fl' & h' & lim & wr & ok & E & _). rewrite E. cbn.
    eexists _, _. split; [reflexivity|]. destruct (Pop_windows _ _ _ _ _ _ _ Hl Hws Hfl E) as [H1 H2].
    split; [done|]. split; [done|]. exact (Pop_streams _ _ _ g _ _ _ _ Hl Hws Hfl Hok E).
  - destruct Hl as [Hf Hn]. destruct (flow_add fl f n) as [[fl' b]|] eqn:E.
    + destruct (flow_add_ok fl f n fl' b Hfl Hf Hn E) as [H1 H2]. exists fl', ws. split; [done|]. split; [done|]. split; [by eapply pws_windows|done].
    + destruct Hf as [x Hx]. destruct (flow_add_spec fl f x n Hfl Hx Hn) as [[_ E']|[_ E']]; congruence.
Qed.

Lemma blocked_panics maxFrameSize fl ws c : (forall wr, c = CPush wr -> request_ok fl wr) -> blocked ws c -> do_call maxFrameSize c fl ws = None.
Proof.
  destruct c as [| id | |wr| |]; cbn; try done.
  - intros _ Hn. unfold CloseStream. destruct (id =? 0); [done|]. by rewrite Hn.
  - intros Hr [Hd Hn]. specialize (Hr wr eq_refl). unfold request_ok in Hr. unfold Push, isControl. destruct (wr_stream wr); [|lia].
    rewrite Hn. destruct (Z.gtb_spec (DataSize wr) 0); [done|lia].
Qed.

Lemma legal_run_ok maxFrameSize cfg fl ws g :
  MaxIdleNodesInTree (default (mkConfig 10 10 false) cfg) = mi -> legal_run maxFrameSize cfg fl ws g -> run_ok fl ws g.
Proof.
  intros Hmi. induction 1 as [fl Hfl|fl ws g c fl' ws' _ IH Hl E]; [split; [done|split; [apply New_ok|by apply streams_ok_new]]|].
  destruct (decide_blocked ws c) as [Hb|Hb].
  - rewrite (blocked_panics maxFrameSize fl ws c) in E; [done| |done]. intros wr ->. apply Hl.
  - destruct (call_returns maxFrameSize fl ws g c IH Hl Hb) as (fl2 & ws2 & E2 & H). rewrite E in E2. by injection E2 as <- <-.
Qed.
End invariant.

(** C37: the priority scheduler behind its interface.  Whatever legal calls were made before
    (streams opened once and closed while open, DATA pushed to open streams, priorities of
    any streams, windows that change, any sorting algorithm), the siblings are well-linked
    lists and the parents have no cycle; and the next legal call returns, without a panic,
    a nil pointer or an endless loop, with one exception: closing an open stream, or pushing
    DATA to it, panics exactly if its node is gone from the tree.  That happens only to
    streams that were an idle node of the tree when they were opened, and so not at all if
    no idle nodes are kept. *)
Theorem priority_scheduler_safe maxFrameSize cfg fl ws g :
  legal_run maxFrameSize cfg fl ws g ->
  flows_ok fl /\ (exists K, forest None (pw_heap ws) K /\ acyclic (pw_heap ws)) /\
  (forall c, legal fl g c -> do_call maxFrameSize c fl ws = None <-> blocked ws c) /\
  (forall id, id ∈ st_open g -> pw_nodes ws !! id = None ->
    id ∈ st_idle g /\ MaxIdleNodesInTree (default (mkConfig 10 10 false) cfg) <> 0).
Proof.
  intros Hr. pose proof (legal_run_ok _ _ _ _ _ _ eq_refl Hr) as HR. pose proof HR as (Hfl & Hws & Hok).
  split; [done|]. split; [destruct (ho_tree _ _ (ok_heap _ _ Hws)) as [K [HF Ha]]; eauto|]. split.
  - intros c Hl. split; [|apply blocked_panics; intros wr ->; apply Hl]. intros E. destruct (decide_blocked ws c) as [|Hb]; [done|].
    destruct (call_returns _ maxFrameSize fl ws g c HR Hl Hb) as (fl' & ws' & E' & _). congruence.
  - intros id Ho Hn. pose proof (so_open _ _ _ Hok id Ho Hn) as Hi. split; [done|]. rewrite <- (so_config _ _ _ Hok). by apply (so_idle _ _ _ Hok id).
Qed.

(** A stream that was idle when it was opened, with room for one idle stream. *)
Definition evicting : list call :=
  [CAdjust 1 (mkPrio 0 false 15); COpen 1 0; CPush (sample_data sample_stream1 [1; 2] false); CAdjust 3 (mkPrio 0 false 15)].

Fixpoint do_calls (maxFrameSize : Z) (cs : list call) (fl : flows) (ws : priorityWriteScheduler) (g : streams)
  : option (flows * priorityWriteScheduler * streams) :=
  match cs with
  | [] => Some (fl, ws, g)
  | c :: cs => '(fl, ws') ← do_call maxFrameSize c fl ws; do_calls maxFrameSize cs fl ws' (note ws c g)
  end.

Lemma evicting_legal : exists ws g,
  do_calls 4 evicting sample_windows (NewPriorityWriteScheduler (Some (mkConfig 10 1 false))) no_streams = Some (sample_windows, ws, g) /\
  legal_run 4 (Some (mkConfig 10 1 false)) sample_windows ws g /\ 1 ∈ st_open g /\ pw_nodes ws !! 1 = None.
Proof.
  pose proof (run_start 4 (Some (mkConfig 10 1 false)) sample_windows sample_windows_ok) as H.
  eapply (run_call _ _ _ _ _ (CAdjust 1 (mkPrio 0 false 15))) in H; [|done|vm_compute; reflexivity].
  eapply (run_call _ _ _ _ _ (COpen 1 0)) in H; [|split; [done|split; by apply (bool_decide_unpack _)]|vm_compute; reflexivity].
  eapply (run_call _ _ _ _ _ (CPush (sample_data sample_stream1 [1; 2] false))) in H;
    [|split; [vm_compute; eauto|intros _; by apply (bool_decide_unpack _)]|vm_compute; reflexivity].
  eapply (run_call _ _ _ _ _ (CAdjust 3 (mkPrio 0 false 15))) in H; [|done|vm_compute; reflexivity].
  eexists _, _. split; [|split; [exact H|]]; [vm_compute; reflexivity|]. split; [by apply (bool_decide_unpack _)|vm_compute; reflexivity].
Qed.

Lemma priority_scheduler_safe_witness : exists ws g,
  do_calls 4 evicting sample_windows (NewPriorityWriteScheduler (Some (mkConfig 10 1 false))) no_streams = Some (sample_windows, ws, g) /\
  1 ∈ st_open g /\ do_call 4 (CClose 1) sample_windows ws = None /\ 1 ∈ st_idle g.
Proof.
  destruct evicting_legal as (ws & g & E & Hr & Ho & Hn). exists ws, g.
  destruct (priority_scheduler_safe 4 (Some (mkConfig 10 1 false)) sample_windows ws g Hr) as (_ & _ & Hc & Hi).
  split; [exact E|]. split; [exact Ho|]. split; [exact (proj2 (Hc (CClose 1) Ho) Hn)|exact (proj1 (Hi 1 Ho Hn))].
Defined.
