(* ===== verification/PrioritySpec.v ===== *)
(** * Package http2: theorems on the priority scheduler

    The scheduler as a transition system: [Pop] follows the dependencies, [AdjustStream]
    builds the tree of RFC 7540; and three defects. *)

From S2P Require Import Prelude Flow Frame WriteFrames WriteSched PriorityTree PriorityWalk PrioritySched PriorityMove PriorityContract PriorityOpen.

(** ** Runs *)
(** One operation that the checks at the start of the methods let pass; these are all the
    calls that the interface allows and that do not panic (PriorityOpen), and more. *)
Inductive pstep (maxFrameSize : Z) : flows * priorityWriteScheduler -> flows * priorityWriteScheduler -> Prop :=
| step_open fl ws ws' id PusherID :
    may_open ws id -> OpenStream ws id PusherID = Some ws' -> pstep maxFrameSize (fl, ws) (fl, ws')
| step_close fl ws ws' id :
    may_close ws id -> CloseStream ws id = Some ws' -> pstep maxFrameSize (fl, ws) (fl, ws')
| step_adjust fl ws ws' id priority :
    id <> 0 -> AdjustStream ws id priority = Some ws' -> pstep maxFrameSize (fl, ws) (fl, ws')
| step_push fl ws ws' wr :
    may_push fl ws wr -> Push ws wr = Some ws' -> pstep maxFrameSize (fl, ws) (fl, ws')
| step_pop fl ws fl' ws' sort r :
    permutes sort -> Pop sort maxFrameSize fl ws = Some (fl', ws', r) -> pstep maxFrameSize (fl, ws) (fl', ws')
| step_credit fl ws fl' f n b :
    is_Some (fl !! f) -> is_i32 n -> flow_add fl f n = Some (fl', b) -> pstep maxFrameSize (fl, ws) (fl', ws).

Lemma pstep_ok maxFrameSize s s' : pstep maxFrameSize s s' -> pws_ok s.1 s.2 -> flows_ok s.1 -> pws_ok s'.1 s'.2 /\ flows_ok s'.1.
Proof.
  intros Hs Hws Hfl. inversion Hs; subst; simpl in *.
  - destruct (OpenStream_ok fl ws id PusherID Hws H) as (? & E & ?). split; congruence || (by rewrite E in H0; injection H0 as <-).
  - destruct (CloseStream_ok fl ws id Hws H) as (? & E & ?). by rewrite E in H0; injection H0 as <-.
  - destruct (AdjustStream_ok fl ws id priority Hws H) as (? & E & ?). by rewrite E in H0; injection H0 as <-.
  - destruct (Push_ok fl ws wr Hws H) as (? & ? & E & ? & _). by rewrite E in H0; injection H0 as <-.
  - by eapply Pop_windows.
  - destruct (flow_add_ok fl f n fl' b Hfl H H0 H1). split; [by apply (pws_windows fl)|done].
Qed.

(** The states that they reach. *)
Definition reachable (maxFrameSize : Z) (fl : flows) (ws : priorityWriteScheduler) : Prop :=
  exists cfg fl0, flows_ok fl0 /\ rtc (pstep maxFrameSize) (fl0, NewPriorityWriteScheduler cfg) (fl, ws).

Lemma reachable_ok maxFrameSize fl ws : reachable maxFrameSize fl ws -> pws_ok fl ws /\ flows_ok fl.
Proof.
  intros (cfg & fl0 & Hfl0 & Hr).
  assert (forall s s', rtc (pstep maxFrameSize) s s' -> pws_ok s.1 s.2 -> flows_ok s.1 -> pws_ok s'.1 s'.2 /\ flows_ok s'.1) as H.
  { intros s s' Hs. induction Hs as [s|s1 s2 s3 H12 _ IH]; [done|]. intros H1 H2.
    destruct (pstep_ok maxFrameSize s1 s2 H12 H1 H2). by apply IH. }
  by apply (H _ _ Hr (New_ok fl0 cfg)).
Qed.

Definition sample_sort (less : node_ptr -> node_ptr -> bool) (l : list node_ptr) : list node_ptr := l.

(** Stream 3 below stream 1, both open, with one DATA frame waiting on stream 3. *)
Definition sample_priority : option priorityWriteScheduler :=
  ws ← OpenStream (NewPriorityWriteScheduler None) 1 0;
  ws ← OpenStream ws 3 0;
  ws ← AdjustStream ws 3 (mkPrio 1 false 15);
  Push ws (sample_data sample_stream3 [1; 2; 3] true).

Lemma sample_reachable : exists ws, sample_priority = Some ws /\ reachable 4 sample_windows ws.
Proof.
  eexists. split; [vm_compute; reflexivity|]. exists None, sample_windows. split; [apply sample_windows_ok|].
  eapply rtc_l; [eapply step_open with (id := 1) (PusherID := 0); [|vm_compute; reflexivity]|].
  { split; [done|]. intros n nd E. vm_compute in E. done. }
  eapply rtc_l; [eapply step_open with (id := 3) (PusherID := 0); [|vm_compute; reflexivity]|].
  { split; [done|]. intros n nd E. vm_compute in E. done. }
  eapply rtc_l; [eapply step_adjust with (id := 3) (priority := mkPrio 1 false 15); [done|vm_compute; reflexivity]|].
  eapply rtc_l; [eapply step_push with (wr := sample_data sample_stream3 [1; 2; 3] true); [|vm_compute; reflexivity]|constructor].
  split; [vm_compute; eauto|]. intros _ E. vm_compute in E. done.
Qed.

(** C38: [Pop] follows the dependencies.  It takes the front of the queue (or a part
    that the windows pay for) of one node connected to the root, and only when no
    stream it depends on could send; a stream below an open one is held to the
    throttling limit, which then grows by 1024 up to the maximum, and is reset when
    a frame goes out ahead of it.  No other queue changes.  When nothing is popped,
    every node connected to the root is empty or held back by its windows. *)
Theorem priority_Pop_spec sort maxFrameSize fl ws :
  permutes sort -> reachable maxFrameSize fl ws ->
  exists fl' ws' wr ok, Pop sort maxFrameSize fl ws = Some (fl', ws', (wr, ok)) /\
    same_parents_all (pw_heap ws) (pw_heap ws') /\
    if (ok : bool) then
      exists n nd q' op, pw_heap ws !! n = Some nd /\ above (pw_heap ws) root n /\
        sent (pn_q nd) wr q' /\ requeued n q' (pw_heap ws) (pw_heap ws') /\ paid maxFrameSize fl fl' wr /\
        (forall x, above (pw_heap ws) x n -> x <> n -> stalled maxFrameSize fl (pw_heap ws) x) /\
        (op = true <-> open_above (pw_heap ws) n) /\
        (op = true -> DataSize wr <= pw_writeThrottleLimit ws) /\
        pw_writeThrottleLimit ws' = next_limit (pw_enableWriteThrottle ws) op (pw_writeThrottleLimit ws)
    else fl' = fl /\ same_payload (pw_heap ws) (pw_heap ws') /\
      pw_writeThrottleLimit ws' = pw_writeThrottleLimit ws /\
      forall n, above (pw_heap ws) root n -> stalled maxFrameSize fl (pw_heap ws) n.
Proof.
  intros Hsort Hr. destruct (reachable_ok _ _ _ Hr) as [Hws Hfl].
  destruct (Pop_ok sort maxFrameSize fl ws Hsort Hws Hfl) as (fl' & h' & lim & wr & ok & E & _ & Hp & H).
  exists fl', (set_limit lim (set_heap h' ws)), wr, ok. done.
Qed.

Lemma priority_Pop_spec_witness :
  exists ws fl' ws' wr ok, sample_priority = Some ws /\ Pop sample_sort 4 sample_windows ws = Some (fl', ws', (wr, ok)) /\
    same_parents_all (pw_heap ws) (pw_heap ws').
Proof.
  destruct sample_reachable as (ws & E & Hr).
  destruct (priority_Pop_spec sample_sort 4 sample_windows ws ltac:(by intros less l) Hr) as (fl' & ws' & wr & ok & E' & Hp & _).
  exists ws, fl', ws', wr, ok. split; [exact E|]. split; [exact E'|exact Hp].
Defined.

(** C39: [AdjustStream] is RFC 7540, section 5.3.3.  For two streams of the tree, the
    first goes below the second with the new weight; the second, if it depended on
    the first, takes its place; with the exclusive flag the other streams below the
    second go below the first; every other dependency, weight and queue stays, and
    there is no cycle. *)
Theorem AdjustStream_spec maxFrameSize fl ws id priority n parent :
  reachable maxFrameSize fl ws -> pw_nodes ws !! id = Some n -> pw_nodes ws !! StreamDep priority = Some parent ->
  id <> 0 -> n <> parent ->
  exists ws' is_below, AdjustStream ws id priority = Some ws' /\ pw_nodes ws' = pw_nodes ws /\
    (is_below = true <-> above (pw_heap ws) n parent) /\ acyclic (pw_heap ws') /\
    (forall q, pn_parent <$> pw_heap ws' !! q = new_parent (pw_heap ws) n parent (Exclusive priority) is_below q) /\
    (forall q, payload <$> pw_heap ws' !! q =
       (fun qd => payload (if decide (q = n) then set_weight (Weight priority) qd else qd)) <$> pw_heap ws !! q).
Proof.
  intros Hr Hn Hp Hid Hne. destruct (reachable_ok _ _ _ Hr) as [Hws _].
  destruct (node_lookup fl ws id n Hws Hn) as (nd & Hnd & _).
  destruct (node_lookup fl ws _ parent Hws Hp) as (pd & Hpd & _).
  destruct (ho_tree _ _ (ok_heap _ _ Hws)) as [K HT].
  destruct (reprioritize_ok (pw_heap ws) K n nd parent pd priority HT Hnd Hpd Hne) as (h' & K' & b & E & HT' & Hb & Hpar & Hpay).
  exists (set_heap h' ws), b. unfold AdjustStream. destruct (Z.eqb_spec id 0); [done|]. rewrite Hn. simpl. rewrite Hp.
  rewrite (on_heap_Some ws _ h' E). split; [done|]. split; [done|]. split; [done|]. split; [apply HT'|]. done.
Qed.

Lemma AdjustStream_spec_witness :
  exists ws ws', sample_priority = Some ws /\ AdjustStream ws 1 (mkPrio 3 true 7) = Some ws' /\ acyclic (pw_heap ws').
Proof.
  destruct sample_reachable as (ws & E & Hr). exists ws.
  assert (pw_nodes ws !! 1 = Some 1%nat /\ pw_nodes ws !! 3 = Some 2%nat) as [H1 H3].
  { vm_compute in E. injection E as <-. done. }
  destruct (AdjustStream_spec 4 sample_windows ws 1 (mkPrio 3 true 7) 1 2 Hr H1 H3) as (ws' & b & E' & _ & _ & Ha & _); [done|done|].
  exists ws'. split; [exact E|]. split; [exact E'|exact Ha].
Defined.

(** ** Defects *)

(** Removing a node cuts streams off.  [removeNode] moves only the first kid of
    the node to its parent; every other kid stays below the removed node, out of
    reach of the root, so that [Pop] never visits it again. *)
Theorem removeNode_strands maxFrameSize fl ws n nd k1 k2 :
  reachable maxFrameSize fl ws -> pw_heap ws !! n = Some nd -> n <> root ->
  pn_kids nd = Some k1 -> parent_of (pw_heap ws) n k2 -> k2 <> k1 ->
  exists ws', removeNode ws n = Some ws' /\ pn_parent <$> pw_heap ws' !! k2 = Some (Some n) /\
    ~ above (pw_heap ws') root k2.
Proof.
  intros Hr Hn Hnr Hk1 Hk2 Hne. destruct (reachable_ok _ _ _ Hr) as [Hws _].
  destruct (ho_tree _ _ (ok_heap _ _ Hws)) as [K HT]. pose proof (ok_heap _ _ Hws) as Hh. set (h := pw_heap ws) in *.
  destruct (moveKids_ok h K n nd HT Hn) as (h1 & E1 & Hs1 & Hm & K1 & HT1).
  destruct (forest_kids _ _ _ (tree_forest _ _ HT) n nd Hn) as [Hk _].
  destruct (K n) as [|k l] eqn:HK; [by rewrite Hk1 in Hk|]. rewrite Hk in Hk1. injection Hk1 as ->. destruct Hm as [Hm _].
  assert (k1 <> n) as Hkn.
  { intros ->. apply (acyclic_irrefl h n (tree_acyclic _ _ HT)). apply (kids_iff h K n n (tree_forest _ _ HT)). rewrite HK. by left. }
  assert (k2 <> n) as Hk2n by (intros ->; by apply (acyclic_irrefl h n (tree_acyclic _ _ HT))).
  assert (k2 <> root) as Hk2r by (intros ->; by apply (root_not_below fl h n)).
  assert (is_Some (h1 !! n)) as [nd1 Hn1] by (apply (same_payload_dom h); [done|eauto]).
  destruct (setParent_ok h1 K1 n nd1 None HT1 Hn1 ltac:(done)) as (h2 & E2 & Hs2 & Hp2 & Hn2 & _).
  assert (is_Some (h2 !! n)) as [nd2 Hn2'] by (apply (same_payload_dom h1); [done|eauto]).
  assert (pn_parent <$> h2 !! k2 = Some (Some n)) as Hpar by (rewrite <- (Hp2 k2 Hk2n), <- (Hm k2 Hne); exact Hk2).
  unfold removeNode, on_heap. fold h. rewrite Hn. simpl. fold h. rewrite Hk, E1. simpl. rewrite E2. simpl. rewrite Hn2'. simpl.
  eexists. split; [done|]. simpl. split; [done|].
  intros [|(q & Hq & Hab)]%above_parent; [done|]. unfold parent_of in Hq. rewrite Hpar in Hq. injection Hq as <-.
  destruct (above_parent h2 root n Hab) as [|(q & Hq & _)]; [done|]. unfold parent_of in Hq. by rewrite Hn2 in Hq.
Qed.

(** Streams 3 and 5 below stream 1, each with a DATA frame. *)
Definition two_kids (cfg : PriorityWriteSchedulerConfig) : option priorityWriteScheduler :=
  ws ← OpenStream (NewPriorityWriteScheduler (Some cfg)) 1 0;
  ws ← OpenStream ws 3 1;
  ws ← OpenStream ws 5 1;
  ws ← Push ws (sample_data sample_stream1 [1; 2] false);
  Push ws (mkFWR (Some (writeData 3 [3; 4] false)) (Some (mkStream 3 1)) None).

Lemma two_kids_reachable cfg : exists ws, two_kids cfg = Some ws /\ reachable 4 sample_windows ws /\
  (exists nd, pw_heap ws !! 1%nat = Some nd /\ pn_kids nd = Some 3%nat) /\ parent_of (pw_heap ws) 1 2.
Proof.
  destruct cfg as [a b c]. eexists. split; [vm_compute; reflexivity|]. split; [|split; [eexists; split; vm_compute; reflexivity|vm_compute; reflexivity]].
  exists (Some (mkConfig a b c)), sample_windows. split; [apply sample_windows_ok|].
  eapply rtc_l; [eapply step_open with (id := 1) (PusherID := 0); [|vm_compute; reflexivity]|].
  { split; [done|]. intros n nd E. vm_compute in E. done. }
  eapply rtc_l; [eapply step_open with (id := 3) (PusherID := 1); [|vm_compute; reflexivity]|].
  { split; [done|]. intros n nd E. vm_compute in E. done. }
  eapply rtc_l; [eapply step_open with (id := 5) (PusherID := 1); [|vm_compute; reflexivity]|].
  { split; [done|]. intros n nd E. vm_compute in E. done. }
  eapply rtc_l; [eapply step_push with (wr := sample_data sample_stream1 [1; 2] false); [|vm_compute; reflexivity]|].
  { split; [vm_compute; eauto|]. intros _ E. vm_compute in E. done. }
  eapply rtc_l; [eapply step_push with (wr := mkFWR (Some (writeData 3 [3; 4] false)) (Some (mkStream 3 1)) None); [|vm_compute; reflexivity]|constructor].
  split; [vm_compute; eauto|]. intros _ E. vm_compute in E. done.
Qed.

Lemma removeNode_strands_witness :
  exists ws ws', two_kids (mkConfig 0 0 false) = Some ws /\ removeNode ws 1 = Some ws' /\ ~ above (pw_heap ws') root 2.
Proof.
  destruct (two_kids_reachable (mkConfig 0 0 false)) as (ws & E & Hr & (nd & Hn & Hk) & Hp).
  destruct (removeNode_strands 4 sample_windows ws 1 nd 3 2 Hr Hn ltac:(done) Hk Hp ltac:(done)) as (ws' & E' & _ & Ha).
  exists ws, ws'. split; [exact E|]. split; [exact E'|exact Ha].
Defined.

(** What is left after closing stream 1: everything [Pop] still gives. *)
Definition after_close (sort : (node_ptr -> node_ptr -> bool) -> list node_ptr -> list node_ptr) : option (bool * option (list FrameWriteRequest)) :=
  ws ← two_kids (mkConfig 0 0 false);
  ws ← CloseStream ws 1;
  '(_, ws, (_, ok)) ← Pop sort 4 sample_windows ws;
  Some (ok, pn_q <$> (n ← pw_nodes ws !! 3; pw_heap ws !! n)).

(** A stream that was idle when it was opened, with room for one idle stream. *)
Definition opened_idle (sort : (node_ptr -> node_ptr -> bool) -> list node_ptr -> list node_ptr)
  : option (bool * option node_ptr * option priorityWriteScheduler) :=
  ws ← AdjustStream (NewPriorityWriteScheduler (Some (mkConfig 10 1 false))) 1 (mkPrio 0 false 15);
  ws ← OpenStream ws 1 0;
  ws ← Push ws (sample_data sample_stream1 [1; 2] false);
  ws ← AdjustStream ws 3 (mkPrio 0 false 15);
  '(_, ws, (_, ok)) ← Pop sort 4 sample_windows ws;
  Some (ok, pw_nodes ws !! 1, CloseStream ws 1).

(** Frames are discarded without [CloseStream], against the documentation of
    [WriteScheduler].  Stream 3, below a closed stream with another kid, keeps its
    DATA frame and its open windows, and [Pop] answers that nothing can be written.
    And a stream opened while idle stays in the list of idle nodes: the next idle
    stream removes it from the tree although it is open, its frame is never
    written, and closing it then panics. *)
Theorem frames_discarded sort :
  after_close sort = Some (false, Some [mkFWR (Some (writeData 3 [3; 4] false)) (Some (mkStream 3 1)) None]) /\
  opened_idle sort = Some (false, None, None).
Proof. split; vm_compute; reflexivity. Qed.

(** A stream of the greatest weight, 256, is treated as one of weight zero.  The
    sum of the weight and one is taken in eight bits, so that among siblings that
    have sent the same number of bytes it is ordered after every other weight. *)
Theorem Less_full_weight ni nk :
  pn_weight ni = 255 -> 0 <= pn_weight nk < 255 -> pn_subtreeBytes ni = pn_subtreeBytes nk ->
  In (pn_subtreeBytes nk) [1; 100; 1024; 16384; 1000000; 2 ^ 31; 2 ^ 40] ->
  Less ni nk = false /\ Less nk ni = true.
Proof.
  intros Hi Hk Hb Hin. unfold Less. rewrite Hi, Hb. set (b := pn_subtreeBytes nk) in *. set (w := pn_weight nk) in *.
  assert (forallb (fun b => forallb (fun w =>
     let lt wi bi wk bk := if SpecFloat.SFeqb (float64 bi) (float64 0) && SpecFloat.SFeqb (float64 bk) (float64 0) then SpecFloat.SFleb (float64 (u8 (wk + 1))) (float64 (u8 (wi + 1)))
       else if SpecFloat.SFeqb (float64 bk) (float64 0) then false
       else SpecFloat.SFleb (fdiv (float64 bi) (float64 bk)) (fdiv (float64 (u8 (wi + 1))) (float64 (u8 (wk + 1)))) in
     negb (lt 255 b (Z.of_nat w) b) && lt (Z.of_nat w) b 255 b) (seq 0 255)) [1; 100; 1024; 16384; 1000000; 2 ^ 31; 2 ^ 40] = true) as H
    by (vm_compute; reflexivity).
  rewrite forallb_forall in H. specialize (H b Hin). rewrite forallb_forall in H.
  specialize (H (Z.to_nat w)). rewrite Z2Nat.id in H by lia.
  assert (In (Z.to_nat w) (seq 0 255)) as Hw by (apply in_seq; lia). specialize (H Hw).
  apply andb_true_iff in H as [H1 H2]. apply negb_true_iff in H1. done.
Qed.

Lemma Less_full_weight_witness :
  let nd w := mkNode [] 1 w priorityNodeOpen 1024 1024 None None None None in
  Less (nd 255) (nd 0) = false /\ Less (nd 0) (nd 255) = true.
Proof. apply Less_full_weight; simpl; auto; lia. Defined.
