(* ===== verification/ServerRequest.v ===== *)
(** * Package http2: the requests of a server

    Models the part of src/http2/server.go that makes an [http.Request] from a merged
    HEADERS frame: [canonicalHeader] with its cache, [newWriterAndRequest],
    [newWriterAndRequestNoBody], [checkValidHTTP2RequestHeaders]; and
    src/http/httpguts/guts.go.  The parser of net/url is a parameter. *)

From S2P Require Import Prelude HpackTable Frame HttpGuts FrameMeta WriteFrames HeaderWrite.

(** ** net/textproto and net/http *)
Definition isASCIISpace (b : Z) : bool := (b =? 32) || (b =? 9) || (b =? 10) || (b =? 13).

Fixpoint dropSpace (s : bytes) : bytes :=
  match s with
  | [] => []
  | b :: s' => if isASCIISpace b then dropSpace s' else s
  end.

Definition TrimString (s : bytes) : bytes := reverse (dropSpace (reverse (dropSpace s))).

(** [strings.Split] at commas, of what follows [cur] in the current part. *)
Fixpoint splitComma (cur s : bytes) : list bytes :=
  match s with
  | [] => [cur]
  | b :: s => if b =? 44 then cur :: splitComma [] s else splitComma (cur ++ [b]) s
  end.

(** [strings.Join]. *)
Fixpoint Join (vv : list bytes) (sep : bytes) : bytes :=
  match vv with
  | [] => []
  | [v] => v
  | v :: vv => v ++ sep ++ Join vv sep
  end.

Abbreviation header := (gmap bytes (list bytes)).

Definition Header_Add (h : header) (key value : bytes) : header :=
  let k := CanonicalHeaderKey key in <[k := default [] (h !! k) ++ [value]]> h.

Definition Header_Set (h : header) (key value : bytes) : header := <[CanonicalHeaderKey key := [value]]> h.

Definition Header_Get (h : header) (key : bytes) : bytes :=
  match h !! CanonicalHeaderKey key with Some (v :: _) => v | _ => [] end.

Definition Header_Del (h : header) (key : bytes) : header := delete (CanonicalHeaderKey key) h.

(** [strconv.ParseUint(s, 10, 63)]; [None] is an error. *)
Definition ParseUint63 (s : bytes) : option Z :=
  if bool_decide (s = []) then None else n ← decimal 0 s; if n <? 2 ^ 63 then Some n else None.

(** ** httpguts/guts.go *)
Definition badTrailer : list bytes := [
  str "Authorization"; str "Cache-Control"; str "Connection"; str "Content-Encoding"; str "Content-Length";
  str "Content-Range"; str "Content-Type"; str "Expect"; str "Host"; str "Keep-Alive"; str "Max-Forwards";
  str "Pragma"; str "Proxy-Authenticate"; str "Proxy-Authorization"; str "Proxy-Connection"; str "Range";
  str "Realm"; str "Te"; str "Trailer"; str "Transfer-Encoding"; str "Www-Authenticate"].

Definition ValidTrailerHeader (name : bytes) : bool :=
  let name := CanonicalHeaderKey name in
  negb (HasPrefix name (str "If-") || bool_decide (name ∈ badTrailer)).

(** ** Canonical names *)
Definition maxCachedCanonicalHeaders : Z := 32.

(** The cache [sc.canonHeader]; a nil map behaves as an empty one. *)
Definition canonicalHeader (canonHeader : gmap bytes bytes) (v : bytes) : gmap bytes bytes * bytes :=
  match commonCanonHeader !! v with
  | Some cv => (canonHeader, cv)
  | None =>
      match canonHeader !! v with
      | Some cv => (canonHeader, cv)
      | None =>
          let cv := CanonicalHeaderKey v in
          (if Z.of_nat (size canonHeader) <? maxCachedCanonicalHeaders then <[v := cv]> canonHeader else canonHeader, cv)
      end
  end.

(** ** Requests *)
Record requestParam := mkRP {
  rp_method : bytes;
  rp_scheme : bytes;
  rp_authority : bytes;
  rp_path : bytes;
  rp_header : header
}.

Definition meta_StreamEnded (f : MetaHeadersFrame) : bool := Flags_Has (fh_Flags (mh_fh f)) FlagHeadersEndStream.
Definition meta_HasPriority (f : MetaHeadersFrame) : bool := Flags_Has (fh_Flags (mh_fh f)) FlagHeadersPriority.

(** The loop [rp.header.Add(sc.canonicalHeader(hf.Name), hf.Value)]. *)
Fixpoint addFields (canon : gmap bytes bytes) (h : header) (fields : list HeaderField) : gmap bytes bytes * header :=
  match fields with
  | [] => (canon, h)
  | hf :: fields =>
      let '(canon, key) := canonicalHeader canon (hf_Name hf) in
      addFields canon (Header_Add h key (hf_Value hf)) fields
  end.

(** The keys announced by the Trailer header: a nil map until one is accepted. *)
Definition addTrailerKey (trailer : option header) (key : bytes) : option header :=
  let key := CanonicalHeaderKey (TrimString key) in
  if bool_decide (key ∈ [str "Transfer-Encoding"; str "Trailer"; str "Content-Length"]) then trailer
  else Some (<[key := []]> (default ∅ trailer)).

Definition announcedTrailers (values : list bytes) : option header :=
  fold_left addTrailerKey (flat_map (splitComma []) values) None.

Section url.
Context {U : Type} (ParseRequestURI : bytes -> option U) (hostURL : bytes -> U).

Record Request := mkReq {
  rq_Method : bytes;
  rq_URL : U;
  rq_Header : header;
  rq_RequestURI : bytes;
  rq_TLS : bool;                    (* the TLS state is set *)
  rq_Host : bytes;
  rq_needsContinue : bool;          (* of the requestBody *)
  rq_ContentLength : Z;
  rq_Trailer : option header
}.

Definition set_ContentLength (n : Z) (r : Request) : Request :=
  mkReq (rq_Method r) (rq_URL r) (rq_Header r) (rq_RequestURI r) (rq_TLS r) (rq_Host r) (rq_needsContinue r) n (rq_Trailer r).

Definition newWriterAndRequestNoBody (tlsState : bool) (id : Z) (rp : requestParam) : frame_error + Request :=
  let tls := bool_decide (rp_scheme rp = str "https") && tlsState in
  let h := rp_header rp in
  let needsContinue := bool_decide (Header_Get h (str "Expect") = str "100-continue") in
  let h := if needsContinue then Header_Del h (str "Expect") else h in
  let cookies := default [] (h !! str "Cookie") in
  let h := if zlen cookies >? 1 then Header_Set h (str "Cookie") (Join cookies (str "; ")) else h in
  let trailer := announcedTrailers (default [] (h !! str "Trailer")) in
  let h := delete (str "Trailer") h in
  if bool_decide (rp_method rp = str "CONNECT") then
    inr (mkReq (rp_method rp) (hostURL (rp_authority rp)) h (rp_authority rp) tls (rp_authority rp) needsContinue 0 trailer)
  else
    match ParseRequestURI (rp_path rp) with
    | None => inl (streamError id ErrCodeProtocol)
    | Some u => inr (mkReq (rp_method rp) u h (rp_path rp) tls (rp_authority rp) needsContinue 0 trailer)
    end.

(** The check of the pseudo-header fields. *)
Definition malformedPseudo (rp : requestParam) : bool :=
  if bool_decide (rp_method rp = str "CONNECT") then
    negb (bool_decide (rp_path rp = [])) || negb (bool_decide (rp_scheme rp = [])) || bool_decide (rp_authority rp = [])
  else
    bool_decide (rp_method rp = []) || bool_decide (rp_path rp = []) ||
    (negb (bool_decide (rp_scheme rp = str "https")) && negb (bool_decide (rp_scheme rp = str "http"))).

(** The request and, when a body follows, the length that its buffer expects.  The cache
    changes also when there is an error; the last [None] is an index out of range. *)
Definition newWriterAndRequest (tlsState : bool) (canon : gmap bytes bytes) (id : Z) (f : MetaHeadersFrame)
  : option (gmap bytes bytes * (frame_error + Request * option Z)) :=
  let rp := mkRP (PseudoValue f (str "method")) (PseudoValue f (str "scheme")) (PseudoValue f (str "authority"))
                 (PseudoValue f (str "path")) ∅ in
  if malformedPseudo rp then Some (canon, inl (streamError (fh_StreamID (mh_fh f)) ErrCodeProtocol))
  else
    let '(canon, h) := addFields canon ∅ (RegularFields f) in
    let authority := if bool_decide (rp_authority rp = []) then Header_Get h (str "Host") else rp_authority rp in
    let rp := mkRP (rp_method rp) (rp_scheme rp) authority (rp_path rp) h in
    match newWriterAndRequestNoBody tlsState id rp with
    | inl e => Some (canon, inl e)
    | inr req =>
        if negb (meta_StreamEnded f) then
          cl ← (match rq_Header req !! str "Content-Length" with
                | Some vv => v ← head vv; Some (default 0 (ParseUint63 v))
                | None => Some (-1)
                end);
          Some (canon, inr (set_ContentLength cl req, Some cl))
        else Some (canon, inr (req, None))
    end.

Definition connHeaders : list bytes :=
  [str "Connection"; str "Keep-Alive"; str "Proxy-Connection"; str "Transfer-Encoding"; str "Upgrade"].

(** The error is only shown to the user. *)
Definition checkValidHTTP2RequestHeaders (h : header) : bool :=
  if existsb (fun k => bool_decide (is_Some (h !! k))) connHeaders then false
  else
    match default [] (h !! str "Te") with
    | [] => true
    | te :: rest => negb ((0 <? zlen rest) || (negb (bool_decide (te = str "trailers")) && negb (bool_decide (te = []))))
    end.
End url.
Arguments Request U : clear implicits.

Example split_trailers : announcedTrailers [str " a, Trailer ,"; str "B"] =
  Some (<[str "B" := []]> (<[[] := []]> {[str "A" := []]})).
Proof. refine (bool_decide_unpack _ _). vm_compute. exact I. Qed.

(** ** Theory *)

(** The cache holds what it is asked for. *)
Definition canon_ok (canon : gmap bytes bytes) : Prop :=
  Z.of_nat (size canon) <= maxCachedCanonicalHeaders /\ forall v cv, canon !! v = Some cv -> cv = CanonicalHeaderKey v.

Lemma canon_ok_empty : canon_ok ∅.
Proof. split; [by vm_compute|]. intros v cv E. by rewrite lookup_empty in E. Qed.

Lemma commonCanonHeader_ok v cv : commonCanonHeader !! v = Some cv -> cv = CanonicalHeaderKey v.
Proof.
  unfold commonCanonHeader. intros H. apply elem_of_list_to_map_2, list_elem_of_fmap in H.
  by destruct H as (x & [= -> ->] & _).
Qed.

Lemma canonicalHeader_ok canon v : canon_ok canon ->
  exists canon', canonicalHeader canon v = (canon', CanonicalHeaderKey v) /\ canon_ok canon'.
Proof.
  intros [Hs Hc]. unfold canonicalHeader. destruct (commonCanonHeader !! v) as [cv|] eqn:E1.
  { apply commonCanonHeader_ok in E1 as ->. by eexists. }
  destruct (canon !! v) as [cv|] eqn:E2; [rewrite (Hc _ _ E2); by eexists|].
  eexists. split; [done|]. destruct (Z.ltb_spec (Z.of_nat (size canon)) maxCachedCanonicalHeaders); [|done].
  split; [rewrite map_size_insert_None by done; lia|].
  intros w cw [[<- <-]|[_ Hw]]%lookup_insert_Some; [done|by apply Hc].
Qed.
