(* ===== verification/ServerConn.v ===== *)
(** * Package http2: the connection of a server

    Models the types [serverConn] and [stream] of src/http2/server.go, the limits of
    [Server], and what the serve loop does to write frames: [writeFrame],
    [scheduleFrameWrite], [startFrameWrite], [wroteFrame], [goAway], [resetStream],
    [closeStream], [sendWindowUpdate], [newStream] and the allocation of pushed streams.

    A [*stream] is its identifier: identifiers are never used twice, and the store keeps
    the streams that handlers may still point to after they left [sc.streams].  The two
    windows of a stream are part of its struct, so their addresses are a function of the
    identifier; those of the connection have the identifier 0.  [Panic] is a panic of the
    serve goroutine; [Fail NoFuel] would be a loop that does not end. *)

From S2P Require Import Prelude HpackTable Hpack Flow DataBuffer Pipe Frame HttpGuts FrameMeta WriteFrames HeaderWrite WriteSched ServerRequest.

(** ** Errors that handlers see *)
Inductive serve_error :=
| errClientDisconnected
| errClosedBody
| errHandlerComplete
| errHandlerPanicked
| errStreamClosed
| ErrNotSupported
| ErrPushLimitReached
| errEOF
| errClosedPipeWrite
| errSentTooMuch (declBodyBytes : Z)
| errShortBody (declBodyBytes bodyBytes : Z)
| errBuffer (e : buf_error)
| errStream (e : frame_error)
| errWrite (code : nat).              (* an error of the writer *)

#[global] Instance serve_error_buffer : BufError serve_error := errBuffer.

Inductive no_fuel := NoFuel.

Abbreviation run := (outcome no_fuel).

(** A dereference, or a call of a component that may panic. *)
Definition lift {A} (o : option A) : run A := match o with Some a => Ret a | None => Panic end.

(** ** Streams *)
Inductive streamState := stateIdle | stateOpen | stateHalfClosedLocal | stateHalfClosedRemote | stateClosed.

#[global] Instance streamState_eq_dec : EqDecision streamState.
Proof. solve_decision. Defined.

Section stream.
Context {B : Type}.

Record serverStream := mkSS {
  st_id : Z;                              (* uint32 *)
  st_body : option (pipe B serve_error unit);
  st_cw : bool;                           (* closed *)
  st_cancelled : bool;                    (* cancelCtx was called *)
  st_bodyBytes : Z;                       (* int64 *)
  st_declBodyBytes : Z;                   (* int64; -1 if undeclared *)
  st_state : streamState;
  st_resetQueued : bool;
  st_gotTrailerHeader : bool;
  st_wroteHeaders : bool;
  st_trailer : option header;
  st_reqTrailer : option header
}.

Definition set_body (b : option (pipe B serve_error unit)) (st : serverStream) : serverStream :=
  mkSS (st_id st) b (st_cw st) (st_cancelled st) (st_bodyBytes st) (st_declBodyBytes st) (st_state st) (st_resetQueued st)
       (st_gotTrailerHeader st) (st_wroteHeaders st) (st_trailer st) (st_reqTrailer st).
Definition close_cw (st : serverStream) : serverStream :=
  mkSS (st_id st) (st_body st) true (st_cancelled st) (st_bodyBytes st) (st_declBodyBytes st) (st_state st) (st_resetQueued st)
       (st_gotTrailerHeader st) (st_wroteHeaders st) (st_trailer st) (st_reqTrailer st).
Definition cancelCtx (st : serverStream) : serverStream :=
  mkSS (st_id st) (st_body st) (st_cw st) true (st_bodyBytes st) (st_declBodyBytes st) (st_state st) (st_resetQueued st)
       (st_gotTrailerHeader st) (st_wroteHeaders st) (st_trailer st) (st_reqTrailer st).
Definition set_bodyBytes (n : Z) (st : serverStream) : serverStream :=
  mkSS (st_id st) (st_body st) (st_cw st) (st_cancelled st) n (st_declBodyBytes st) (st_state st) (st_resetQueued st)
       (st_gotTrailerHeader st) (st_wroteHeaders st) (st_trailer st) (st_reqTrailer st).
Definition set_state (s : streamState) (st : serverStream) : serverStream :=
  mkSS (st_id st) (st_body st) (st_cw st) (st_cancelled st) (st_bodyBytes st) (st_declBodyBytes st) s (st_resetQueued st)
       (st_gotTrailerHeader st) (st_wroteHeaders st) (st_trailer st) (st_reqTrailer st).
Definition set_resetQueued (st : serverStream) : serverStream :=
  mkSS (st_id st) (st_body st) (st_cw st) (st_cancelled st) (st_bodyBytes st) (st_declBodyBytes st) (st_state st) true
       (st_gotTrailerHeader st) (st_wroteHeaders st) (st_trailer st) (st_reqTrailer st).
Definition set_gotTrailerHeader (st : serverStream) : serverStream :=
  mkSS (st_id st) (st_body st) (st_cw st) (st_cancelled st) (st_bodyBytes st) (st_declBodyBytes st) (st_state st) (st_resetQueued st)
       true (st_wroteHeaders st) (st_trailer st) (st_reqTrailer st).
Definition set_wroteHeaders (st : serverStream) : serverStream :=
  mkSS (st_id st) (st_body st) (st_cw st) (st_cancelled st) (st_bodyBytes st) (st_declBodyBytes st) (st_state st) (st_resetQueued st)
       (st_gotTrailerHeader st) true (st_trailer st) (st_reqTrailer st).
Definition set_trailer (h : option header) (st : serverStream) : serverStream :=
  mkSS (st_id st) (st_body st) (st_cw st) (st_cancelled st) (st_bodyBytes st) (st_declBodyBytes st) (st_state st) (st_resetQueued st)
       (st_gotTrailerHeader st) (st_wroteHeaders st) h (st_reqTrailer st).

(** What [processHeaders] sets from the request. *)
Definition set_request (body : option (pipe B serve_error unit)) (declBodyBytes : Z) (reqTrailer : option header) (st : serverStream) : serverStream :=
  mkSS (st_id st) body (st_cw st) (st_cancelled st) (st_bodyBytes st) declBodyBytes (st_state st) (st_resetQueued st)
       (st_gotTrailerHeader st) (st_wroteHeaders st) (match reqTrailer with Some _ => Some ∅ | None => None end) reqTrailer.

Definition isPushed (id : Z) : bool := id mod 2 =? 0.
End stream.
Arguments serverStream B : clear implicits.

(** The addresses of the windows that a stream's struct holds; the connection's for 0. *)
Definition flow_addr (id : Z) : flow_ptr := Z.to_nat (2 * id).
Definition inflow_addr (id : Z) : flow_ptr := Z.to_nat (2 * id + 1).

(** A [*stream] as the scheduler sees it. *)
Definition stream_ptr (id : Z) : stream := mkStream id (flow_addr id).

(** ** The limits of a server *)
Record Server := mkServer {
  srv_MaxConcurrentStreams : Z;           (* uint32 *)
  srv_MaxReadFrameSize : Z;               (* uint32 *)
  srv_MaxUploadBufferPerConnection : Z;   (* int32 *)
  srv_MaxUploadBufferPerStream : Z;       (* int32 *)
  srv_MaxHeaderBytes : Z                  (* int, of the [http.Server] *)
}.

Definition initialWindowSize : Z := 65535.
Definition initialMaxFrameSize : Z := 16384.
Definition minMaxFrameSize : Z := Z.shiftl 1 14.
Definition defaultMaxReadFrameSize : Z := Z.shiftl 1 20.
Definition defaultMaxStreams : Z := 250.
Definition DefaultMaxHeaderBytes : Z := Z.shiftl 1 20.
Definition maxQueuedControlFrames : Z := 10000.

Definition initialConnRecvWindowSize (s : Server) : Z :=
  if srv_MaxUploadBufferPerConnection s >=? initialWindowSize then srv_MaxUploadBufferPerConnection s else Z.shiftl 1 20.

Definition initialStreamRecvWindowSize (s : Server) : Z :=
  if srv_MaxUploadBufferPerStream s >? 0 then srv_MaxUploadBufferPerStream s else Z.shiftl 1 20.

Definition maxReadFrameSize (s : Server) : Z :=
  let v := srv_MaxReadFrameSize s in
  if (v >=? minMaxFrameSize) && (v <=? maxFrameSize) then v else defaultMaxReadFrameSize.

Definition maxConcurrentStreams (s : Server) : Z :=
  let v := srv_MaxConcurrentStreams s in if v >? 0 then v else defaultMaxStreams.

Definition srv_maxHeaderListSize (s : Server) : Z :=
  let n := if srv_MaxHeaderBytes s <=? 0 then DefaultMaxHeaderBytes else srv_MaxHeaderBytes s in
  u32 (n + 10 * 32).

(** ** The state of a connection *)

(** What the peer set. *)
Record settings := mkSettings {
  pushEnabled : bool;
  clientMaxStreams : Z;                   (* uint32 *)
  initialStreamSendWindowSize : Z;        (* int32 *)
  sc_maxFrameSize : Z;                    (* int32 *)
  headerTableSize : Z;                    (* uint32 *)
  peerMaxHeaderListSize : Z               (* uint32 *)
}.

(** The streams: those in [sc.streams] are [live]. *)
Record stream_table B := mkST {
  store : gmap Z (serverStream B);
  live : gset Z;
  advMaxStreams : Z;                      (* uint32 *)
  curClientStreams : Z;                   (* uint32 *)
  curPushedStreams : Z;                   (* uint32 *)
  maxClientStreamID : Z;                  (* uint32 *)
  maxPushPromiseID : Z                    (* uint32 *)
}.
Arguments mkST {B}. Arguments store {B}. Arguments live {B}. Arguments advMaxStreams {B}. Arguments curClientStreams {B}.
Arguments curPushedStreams {B}. Arguments maxClientStreamID {B}. Arguments maxPushPromiseID {B}.

(** What the write loop keeps. *)
Record write_state := mkWS {
  writingFrame : bool;
  writingFrameAsync : bool;
  needsFrameFlush : bool;
  inFrameScheduleLoop : bool;
  needToSendSettingsAck : bool;
  inGoAway : bool;
  needToSendGoAway : bool;
  goAwayCode : Z;                         (* ErrCode *)
  queuedControlFrames : Z                 (* int *)
}.

Definition set_writing (b : bool) (w : write_state) : write_state :=
  mkWS b (writingFrameAsync w) (needsFrameFlush w) (inFrameScheduleLoop w) (needToSendSettingsAck w) (inGoAway w)
       (needToSendGoAway w) (goAwayCode w) (queuedControlFrames w).
Definition set_async (b : bool) (w : write_state) : write_state :=
  mkWS (writingFrame w) b (needsFrameFlush w) (inFrameScheduleLoop w) (needToSendSettingsAck w) (inGoAway w)
       (needToSendGoAway w) (goAwayCode w) (queuedControlFrames w).
Definition set_flush (b : bool) (w : write_state) : write_state :=
  mkWS (writingFrame w) (writingFrameAsync w) b (inFrameScheduleLoop w) (needToSendSettingsAck w) (inGoAway w)
       (needToSendGoAway w) (goAwayCode w) (queuedControlFrames w).
Definition set_loop (b : bool) (w : write_state) : write_state :=
  mkWS (writingFrame w) (writingFrameAsync w) (needsFrameFlush w) b (needToSendSettingsAck w) (inGoAway w)
       (needToSendGoAway w) (goAwayCode w) (queuedControlFrames w).
Definition set_ack (b : bool) (w : write_state) : write_state :=
  mkWS (writingFrame w) (writingFrameAsync w) (needsFrameFlush w) (inFrameScheduleLoop w) b (inGoAway w)
       (needToSendGoAway w) (goAwayCode w) (queuedControlFrames w).
Definition set_goAway (ing need : bool) (code : Z) (w : write_state) : write_state :=
  mkWS (writingFrame w) (writingFrameAsync w) (needsFrameFlush w) (inFrameScheduleLoop w) (needToSendSettingsAck w) ing
       need code (queuedControlFrames w).
Definition set_queued (n : Z) (w : write_state) : write_state :=
  mkWS (writingFrame w) (writingFrameAsync w) (needsFrameFlush w) (inFrameScheduleLoop w) (needToSendSettingsAck w) (inGoAway w)
       (needToSendGoAway w) (goAwayCode w) n.

(** What the frame writers use: the framer over the buffered writer of the connection,
    and the HPACK encoder. *)
Class FrameSink (W : Type) := {
  fs_writeFrame : writeFramer -> W -> option (W * option serve_error);
  fs_Available : W -> Z;
  fs_SetMaxDynamicTableSize : W -> Z -> option W
}.

(** The handler that a request is given to. *)
Inductive handler := ServeHTTP | handleHeaderListTooLong | new400Handler.

Section conn.
Context {S C W B U : Type} {WS : WriteScheduler S C} {FS : FrameSink W} {PB : PipeBuffer B serve_error}.

Record serverConn := mkConn {
  sc_set : settings;
  sc_str : stream_table B;
  sc_ws : write_state;
  sc_flows : flows;
  sc_sched : S;
  sc_cx : W;
  sc_writer : option FrameWriteRequest;        (* the goroutine of [writeFrameAsync] *)
  sc_chans : gmap nat (option serve_error);    (* the done channels that hold a result *)
  sc_canonHeader : gmap bytes bytes;
  sc_sawFirstSettings : bool;
  sc_unackedSettings : Z;                      (* int *)
  sc_shutdownTimer : bool;
  sc_connClosed : bool;                        (* [sc.conn.Close] was called *)
  sc_handlers : list (Z * Request U * handler);  (* started so far *)
  sc_started : list writeFramer;               (* frame writes started so far *)
  sc_tick : nat
}.

Definition set_set x sc := mkConn x (sc_str sc) (sc_ws sc) (sc_flows sc) (sc_sched sc) (sc_cx sc) (sc_writer sc) (sc_chans sc)
  (sc_canonHeader sc) (sc_sawFirstSettings sc) (sc_unackedSettings sc) (sc_shutdownTimer sc) (sc_connClosed sc) (sc_handlers sc) (sc_started sc) (sc_tick sc).
Definition set_str x sc := mkConn (sc_set sc) x (sc_ws sc) (sc_flows sc) (sc_sched sc) (sc_cx sc) (sc_writer sc) (sc_chans sc)
  (sc_canonHeader sc) (sc_sawFirstSettings sc) (sc_unackedSettings sc) (sc_shutdownTimer sc) (sc_connClosed sc) (sc_handlers sc) (sc_started sc) (sc_tick sc).
Definition set_ws x sc := mkConn (sc_set sc) (sc_str sc) x (sc_flows sc) (sc_sched sc) (sc_cx sc) (sc_writer sc) (sc_chans sc)
  (sc_canonHeader sc) (sc_sawFirstSettings sc) (sc_unackedSettings sc) (sc_shutdownTimer sc) (sc_connClosed sc) (sc_handlers sc) (sc_started sc) (sc_tick sc).
Definition set_flows x sc := mkConn (sc_set sc) (sc_str sc) (sc_ws sc) x (sc_sched sc) (sc_cx sc) (sc_writer sc) (sc_chans sc)
  (sc_canonHeader sc) (sc_sawFirstSettings sc) (sc_unackedSettings sc) (sc_shutdownTimer sc) (sc_connClosed sc) (sc_handlers sc) (sc_started sc) (sc_tick sc).
Definition set_sched x sc := mkConn (sc_set sc) (sc_str sc) (sc_ws sc) (sc_flows sc) x (sc_cx sc) (sc_writer sc) (sc_chans sc)
  (sc_canonHeader sc) (sc_sawFirstSettings sc) (sc_unackedSettings sc) (sc_shutdownTimer sc) (sc_connClosed sc) (sc_handlers sc) (sc_started sc) (sc_tick sc).
Definition set_cx x sc := mkConn (sc_set sc) (sc_str sc) (sc_ws sc) (sc_flows sc) (sc_sched sc) x (sc_writer sc) (sc_chans sc)
  (sc_canonHeader sc) (sc_sawFirstSettings sc) (sc_unackedSettings sc) (sc_shutdownTimer sc) (sc_connClosed sc) (sc_handlers sc) (sc_started sc) (sc_tick sc).
Definition set_writer x sc := mkConn (sc_set sc) (sc_str sc) (sc_ws sc) (sc_flows sc) (sc_sched sc) (sc_cx sc) x (sc_chans sc)
  (sc_canonHeader sc) (sc_sawFirstSettings sc) (sc_unackedSettings sc) (sc_shutdownTimer sc) (sc_connClosed sc) (sc_handlers sc) (sc_started sc) (sc_tick sc).
Definition set_chans x sc := mkConn (sc_set sc) (sc_str sc) (sc_ws sc) (sc_flows sc) (sc_sched sc) (sc_cx sc) (sc_writer sc) x
  (sc_canonHeader sc) (sc_sawFirstSettings sc) (sc_unackedSettings sc) (sc_shutdownTimer sc) (sc_connClosed sc) (sc_handlers sc) (sc_started sc) (sc_tick sc).
Definition set_canonHeader x sc := mkConn (sc_set sc) (sc_str sc) (sc_ws sc) (sc_flows sc) (sc_sched sc) (sc_cx sc) (sc_writer sc) (sc_chans sc)
  x (sc_sawFirstSettings sc) (sc_unackedSettings sc) (sc_shutdownTimer sc) (sc_connClosed sc) (sc_handlers sc) (sc_started sc) (sc_tick sc).
Definition saw_settings sc := mkConn (sc_set sc) (sc_str sc) (sc_ws sc) (sc_flows sc) (sc_sched sc) (sc_cx sc) (sc_writer sc) (sc_chans sc)
  (sc_canonHeader sc) true (sc_unackedSettings sc) (sc_shutdownTimer sc) (sc_connClosed sc) (sc_handlers sc) (sc_started sc) (sc_tick sc).
Definition set_unacked x sc := mkConn (sc_set sc) (sc_str sc) (sc_ws sc) (sc_flows sc) (sc_sched sc) (sc_cx sc) (sc_writer sc) (sc_chans sc)
  (sc_canonHeader sc) (sc_sawFirstSettings sc) x (sc_shutdownTimer sc) (sc_connClosed sc) (sc_handlers sc) (sc_started sc) (sc_tick sc).
Definition shutDownIn sc := mkConn (sc_set sc) (sc_str sc) (sc_ws sc) (sc_flows sc) (sc_sched sc) (sc_cx sc) (sc_writer sc) (sc_chans sc)
  (sc_canonHeader sc) (sc_sawFirstSettings sc) (sc_unackedSettings sc) true (sc_connClosed sc) (sc_handlers sc) (sc_started sc) (sc_tick sc).
Definition close_conn sc := mkConn (sc_set sc) (sc_str sc) (sc_ws sc) (sc_flows sc) (sc_sched sc) (sc_cx sc) (sc_writer sc) (sc_chans sc)
  (sc_canonHeader sc) (sc_sawFirstSettings sc) (sc_unackedSettings sc) (sc_shutdownTimer sc) true (sc_handlers sc) (sc_started sc) (sc_tick sc).
Definition runHandler id req h sc := mkConn (sc_set sc) (sc_str sc) (sc_ws sc) (sc_flows sc) (sc_sched sc) (sc_cx sc) (sc_writer sc) (sc_chans sc)
  (sc_canonHeader sc) (sc_sawFirstSettings sc) (sc_unackedSettings sc) (sc_shutdownTimer sc) (sc_connClosed sc) (sc_handlers sc ++ [(id, req, h)]) (sc_started sc) (sc_tick sc).
Definition log_write w sc := mkConn (sc_set sc) (sc_str sc) (sc_ws sc) (sc_flows sc) (sc_sched sc) (sc_cx sc) (sc_writer sc) (sc_chans sc)
  (sc_canonHeader sc) (sc_sawFirstSettings sc) (sc_unackedSettings sc) (sc_shutdownTimer sc) (sc_connClosed sc) (sc_handlers sc) (sc_started sc ++ [w]) (sc_tick sc).
Definition next_tick sc := mkConn (sc_set sc) (sc_str sc) (sc_ws sc) (sc_flows sc) (sc_sched sc) (sc_cx sc) (sc_writer sc) (sc_chans sc)
  (sc_canonHeader sc) (sc_sawFirstSettings sc) (sc_unackedSettings sc) (sc_shutdownTimer sc) (sc_connClosed sc) (sc_handlers sc) (sc_started sc) (Datatypes.S (sc_tick sc)).
Definition on_ws (f : write_state -> write_state) sc := set_ws (f (sc_ws sc)) sc.

Definition set_table (st : gmap Z (serverStream B)) sc :=
  let t := sc_str sc in
  set_str (mkST st (live t) (advMaxStreams t) (curClientStreams t) (curPushedStreams t) (maxClientStreamID t) (maxPushPromiseID t)) sc.

(** [*st] and an assignment to it. *)
Definition deref sc (id : Z) : run (serverStream B) := lift (store (sc_str sc) !! id).
Definition update sc (id : Z) (f : serverStream B -> serverStream B) : serverConn := set_table (alter f id (store (sc_str sc))) sc.

(** [sc.streams[id]]. *)
Definition streams sc (id : Z) : option (serverStream B) :=
  if bool_decide (id ∈ live (sc_str sc)) then store (sc_str sc) !! id else None.

Definition curOpenStreams sc : Z := u32 (curClientStreams (sc_str sc) + curPushedStreams (sc_str sc)).

Definition state sc (streamID : Z) : streamState * option (serverStream B) :=
  match streams sc streamID with
  | Some st => (st_state st, Some st)
  | None =>
      (if streamID mod 2 =? 1 then
         if streamID <=? maxClientStreamID (sc_str sc) then stateClosed else stateIdle
       else if streamID <=? maxPushPromiseID (sc_str sc) then stateClosed else stateIdle, None)
  end.

(** A result for the writer, if it waits: its channel has room for one, and the send does
    not block. *)
Definition replyToWriter (done : option nat) (err : option serve_error) sc : run serverConn :=
  match done with
  | None => Ret sc
  | Some ch => match sc_chans sc !! ch with
               | Some _ => Panic
               | None => Ret (set_chans (<[ch := err]> (sc_chans sc)) sc)
               end
  end.

(** ** Writing frames

    The operations call [scheduleFrameWrite], which calls them: they are defined over
    [schedule] first. *)
Section writing.
Context (srv : Server) (ParseRequestURI : bytes -> option U) (hostURL : bytes -> U) (tlsState : bool).

(** What the environment decides: the choices of a [Pop], the order in which Go ranges
    over [sc.streams], and when the [http.Server] has its keep-alives disabled.  The
    first and the last are given for each moment. *)
Record environment := mkEnv {
  env_pop : nat -> C;
  env_range : list Z -> list Z;
  env_keepAlivesDisabled : nat -> bool
}.
Context (env : environment).

Section with_schedule.
Context (schedule : serverConn -> run serverConn).

Definition isReset (w : option writeFramer) : bool := match w with Some (writeStreamError _ _) => true | _ => false end.

Definition writeFrame (wr : FrameWriteRequest) sc : run serverConn :=
  let ignoreWrite :=
    negb (StreamID wr =? 0) && bool_decide ((state sc (StreamID wr)).1 = stateClosed) && negb (isReset (wr_write wr)) in
  let! '(sc, ignoreWrite) :=
    match wr_write wr with
    | Some (writeResHeaders _) =>
        let! s := lift (wr_stream wr) in
        let! _ := deref sc (s_id s) in
        Ret (update sc (s_id s) set_wroteHeaders, ignoreWrite)
    | Some (write100ContinueHeadersFrame _) =>
        let! s := lift (wr_stream wr) in
        let! st := deref sc (s_id s) in
        if st_wroteHeaders st then (match wr_done wr with Some _ => Panic | None => Ret (sc, true) end)
        else Ret (sc, ignoreWrite)
    | _ => Ret (sc, ignoreWrite)
    end in
  let! sc :=
    if (ignoreWrite : bool) then Ret sc
    else
      let sc :=
        if isControl wr then
          let sc := on_ws (fun w => set_queued (swrap 64 (queuedControlFrames w + 1)) w) sc in
          if queuedControlFrames (sc_ws sc) <? 0 then close_conn sc else sc
        else sc in
      let! s := lift (ws_Push (sc_sched sc) wr) in
      Ret (set_sched s sc) in
  schedule sc.

Definition goAway (code : Z) sc : run serverConn :=
  if inGoAway (sc_ws sc) then
    Ret (if goAwayCode (sc_ws sc) =? ErrCodeNo then on_ws (set_goAway true (needToSendGoAway (sc_ws sc)) code) sc else sc)
  else schedule (on_ws (set_goAway true true code) sc).

Definition resetStream (id code : Z) sc : run serverConn :=
  let! sc := writeFrame (mkFWR (Some (writeStreamError id code)) None None) sc in
  Ret (match streams sc id with Some _ => update sc id set_resetQueued | None => sc end).

(** The stream is nil for the connection's window. *)
Definition sendWindowUpdate32 (st : option Z) (n : Z) sc : run serverConn :=
  if n =? 0 then Ret sc
  else if n <? 0 then Panic
  else
    let streamID := default 0 st in
    let! sc := writeFrame (mkFWR (Some (writeWindowUpdate streamID (u32 n))) (stream_ptr <$> st) None) sc in
    let! '(fl, ok) := lift (flow_add (sc_flows sc) (inflow_addr streamID) n) in
    if (ok : bool) then Ret (set_flows fl sc) else Panic.

Definition maxUint31 : Z := Z.shiftl 1 31 - 1.

(** [for n >= maxUint31]; [n] is an int32. *)
Fixpoint updateLoop (fuel : nat) (st : option Z) (n : Z) sc : run (Z * serverConn) :=
  if n >=? maxUint31 then
    match fuel with
    | O => Fail NoFuel
    | Datatypes.S fuel =>
        let! sc := sendWindowUpdate32 st maxUint31 sc in
        updateLoop fuel st (i32 (n - maxUint31)) sc
    end
  else Ret (n, sc).

Definition sendWindowUpdate (st : option Z) sc : run serverConn :=
  let! avail := lift (flow_available (sc_flows sc) (inflow_addr (default 0 st))) in
  let windowSize := match st with None => initialConnRecvWindowSize srv | Some _ => initialStreamRecvWindowSize srv end in
  if avail >? Z.quot windowSize 2 then Ret sc
  else
    let! '(n, sc) := updateLoop 1 st (i32 (windowSize - avail)) sc in
    sendWindowUpdate32 st n sc.

Definition startGracefulShutdownInternal sc : run serverConn := goAway ErrCodeNo sc.

(** The stream leaves [sc.streams] and the counts. *)
Definition delete_stream (id : Z) (t : stream_table B) : stream_table B :=
  mkST (store t) (live t ∖ {[id]}) (advMaxStreams t)
    (if isPushed id then curClientStreams t else u32 (curClientStreams t - 1))
    (if isPushed id then u32 (curPushedStreams t - 1) else curPushedStreams t) (maxClientStreamID t) (maxPushPromiseID t).

Definition closeStream (id : Z) (err : serve_error) sc : run serverConn :=
  let! st := deref sc id in
  if bool_decide (st_state st = stateIdle) || bool_decide (st_state st = stateClosed) then Panic
  else
    let sc := update sc id (set_state stateClosed) in
    let sc := set_str (delete_stream id (sc_str sc)) sc in
    let! sc :=
      if bool_decide (live (sc_str sc) = ∅) then
        let disabled := env_keepAlivesDisabled env (sc_tick sc) in
        let sc := next_tick sc in
        if disabled then startGracefulShutdownInternal sc else Ret sc
      else Ret sc in
    let! sc :=
      match st_body st with
      | None => Ret sc
      | Some _ =>
          let! sc := sendWindowUpdate None sc in
          let! st := deref sc id in
          let! p := lift (st_body st) in
          let! p := lift (CloseWithError p (Some err)) in
          Ret (update sc id (set_body (Some p)))
      end in
    let! st := deref sc id in
    if st_cw st then Panic
    else
      let sc := update sc id close_cw in
      let! s := lift (ws_CloseStream (sc_sched sc) id) in
      Ret (set_sched s sc).

(** [newStream] does not write frames. *)
Definition insert_stream (id : Z) (st : serverStream B) (t : stream_table B) : stream_table B :=
  mkST (<[id := st]> (store t)) ({[id]} ∪ live t) (advMaxStreams t)
    (if isPushed id then curClientStreams t else u32 (curClientStreams t + 1))
    (if isPushed id then u32 (curPushedStreams t + 1) else curPushedStreams t) (maxClientStreamID t) (maxPushPromiseID t).

(** A window for a new stream: zero, linked to the connection's, and then credited. *)
Definition new_flow (fl : flows) (addr conn : flow_ptr) (n : Z) : run flows :=
  let! fl := lift (setConnFlow (<[addr := mkFlow 0 None]> fl) addr conn) in
  let! '(fl, _) := lift (flow_add fl addr n) in
  Ret fl.

Definition newStream (id pusherID : Z) (s : streamState) sc : run serverConn :=
  if id =? 0 then Panic
  else
    let! fl := new_flow (sc_flows sc) (flow_addr id) (flow_addr 0) (initialStreamSendWindowSize (sc_set sc)) in
    let! fl := new_flow fl (inflow_addr id) (inflow_addr 0) (initialStreamRecvWindowSize srv) in
    let sc := set_flows fl sc in
    let st := mkSS id None false false 0 0 s false false false None None in
    let sc := set_str (insert_stream id st (sc_str sc)) sc in
    let! ws := lift (ws_OpenStream (sc_sched sc) id pusherID) in
    Ret (set_sched ws sc).

Definition set_maxPushPromiseID (n : Z) sc :=
  let t := sc_str sc in
  set_str (mkST (store t) (live t) (advMaxStreams t) (curClientStreams t) (curPushedStreams t) (maxClientStreamID t) n) sc.

(** The closure of [startPush]: [msg] is kept in the request to write. *)
Definition allocatePromisedID (w : pushPromise) sc : run (serverConn * (serve_error + Z)) :=
  if negb (pushEnabled (sc_set sc)) then Ret (sc, inl ErrNotSupported)
  else if u32 (curPushedStreams (sc_str sc) + 1) >? clientMaxStreams (sc_set sc) then Ret (sc, inl ErrPushLimitReached)
  else if u32 (maxPushPromiseID (sc_str sc) + 2) >=? Z.shiftl 1 31 then
    let! sc := startGracefulShutdownInternal sc in Ret (sc, inl ErrPushLimitReached)
  else
    let promisedID := u32 (maxPushPromiseID (sc_str sc) + 2) in
    let sc := set_maxPushPromiseID promisedID sc in
    let! sc := newStream promisedID (pu_streamID w) stateHalfClosedRemote sc in
    match newWriterAndRequestNoBody ParseRequestURI hostURL tlsState promisedID
            (mkRP (pu_method w) (u_Scheme (pu_url w)) (u_Host (pu_url w)) (RequestURI (pu_url w)) (pu_h w)) with
    | inl _ => Panic
    | inr req => Ret (runHandler promisedID req ServeHTTP sc, inr promisedID)
    end.

(** What [wroteFrame] does to the stream of the frame. *)
Definition closeAfterWrite (wr : FrameWriteRequest) sc : run serverConn :=
  let! ends := lift (writeEndsStream (wr_write wr)) in
  if (ends : bool) then
    let! s := lift (wr_stream wr) in
    let! st := deref sc (s_id s) in
    match st_state st with
    | stateOpen => resetStream (s_id s) ErrCodeNo (update sc (s_id s) (set_state stateHalfClosedLocal))
    | stateHalfClosedRemote => closeStream (s_id s) errHandlerComplete sc
    | _ => Ret sc
    end
  else
    match wr_write wr with
    | Some (writeStreamError id code) =>
        match streams sc id with
        | Some _ => closeStream id (errStream (streamError id code)) sc
        | None => Ret sc
        end
    | Some (handlerPanicRST _) => let! s := lift (wr_stream wr) in closeStream (s_id s) errHandlerPanicked sc
    | _ => Ret sc
    end.

Definition wroteFrame (wr : FrameWriteRequest) (err : option serve_error) sc : run serverConn :=
  if negb (writingFrame (sc_ws sc)) then Panic
  else
    let sc := on_ws (fun w => set_async false (set_writing false w)) sc in
    let! sc := closeAfterWrite wr sc in
    let! sc := replyToWriter (wr_done wr) err sc in
    schedule sc.

(** The states in which [startFrameWrite] accepts a frame for a stream. *)
Definition mayWrite (w : option writeFramer) (s : streamState) : bool :=
  match s with
  | stateHalfClosedLocal =>
      match w with Some (writeStreamError _ _ | handlerPanicRST _ | writeWindowUpdate _ _) => true | _ => false end
  | stateClosed => false
  | _ => true
  end.

Definition set_promisedID (id : Z) (w : pushPromise) : pushPromise :=
  mkPush (pu_streamID w) (pu_method w) (pu_url w) (pu_h w) id.

Definition startFrameWrite (wr : FrameWriteRequest) sc : run serverConn :=
  if writingFrame (sc_ws sc) then Panic
  else
    let! _ := match wr_stream wr with
              | None => Ret tt
              | Some s => let! st := deref sc (s_id s) in if mayWrite (wr_write wr) (st_state st) then Ret tt else Panic
              end in
    let! '(sc, w) :=
      match wr_write wr with
      | Some (writePushPromise w) =>
          let! '(sc, r) := allocatePromisedID w sc in
          Ret (sc, match r with inl e => inl e | inr id => inr (Some (writePushPromise (set_promisedID id w))) end)
      | w => Ret (sc, inr w)
      end in
    match (w : serve_error + option writeFramer) with
    | inl e => replyToWriter (wr_done wr) (Some e) (on_ws (set_async false) sc)
    | inr w =>
        let wr := mkFWR w (wr_stream wr) (wr_done wr) in
        let! w := lift w in
        let sc := log_write w (on_ws (fun w => set_flush true (set_writing true w)) sc) in
        if staysWithinBuffer w (fs_Available (sc_cx sc)) then
          let sc := on_ws (set_async false) sc in
          let! '(cx, err) := lift (fs_writeFrame w (sc_cx sc)) in
          wroteFrame wr err (set_cx cx sc)
        else Ret (set_writer (Some wr) (on_ws (set_async true) sc))
    end.

(** The loop of [scheduleFrameWrite]. *)
Fixpoint scheduleLoop (fuel : nat) sc : run serverConn :=
  if writingFrameAsync (sc_ws sc) then Ret sc
  else
    match fuel with
    | O => Fail NoFuel
    | Datatypes.S fuel =>
        let ws := sc_ws sc in
        if needToSendGoAway ws then
          let sc := on_ws (set_goAway (inGoAway ws) false (goAwayCode ws)) sc in
          let! sc := startFrameWrite
            (mkFWR (Some (writeGoAway (maxClientStreamID (sc_str sc)) (goAwayCode ws))) None None) sc in
          scheduleLoop fuel sc
        else if needToSendSettingsAck ws then
          let! sc := startFrameWrite (mkFWR (Some writeSettingsAck) None None) (on_ws (set_ack false) sc) in
          scheduleLoop fuel sc
        else
          let! '(sc, popped) :=
            if negb (inGoAway ws) || (goAwayCode ws =? ErrCodeNo) then
              let! '(fl, s, (wr, ok)) :=
                lift (ws_Pop (env_pop env (sc_tick sc)) (sc_maxFrameSize (sc_set sc)) (sc_flows sc) (sc_sched sc)) in
              Ret (next_tick (set_sched s (set_flows fl sc)), if (ok : bool) then Some wr else None)
            else Ret (sc, None) in
          match (popped : option FrameWriteRequest) with
          | Some wr =>
              let sc := if isControl wr
                        then on_ws (fun w => set_queued (swrap 64 (queuedControlFrames w - 1)) w) sc else sc in
              let! sc := startFrameWrite wr sc in
              scheduleLoop fuel sc
          | None =>
              if needsFrameFlush ws then
                let! sc := startFrameWrite (mkFWR (Some flushFrameWriter) None None) sc in
                scheduleLoop fuel (on_ws (set_flush false) sc)
              else Ret sc
          end
    end.
End with_schedule.

(** The calls that are made inside the loop return at once, as [inFrameScheduleLoop] is set. *)
Definition scheduleInside sc : run serverConn :=
  if writingFrame (sc_ws sc) || inFrameScheduleLoop (sc_ws sc) then Ret sc else Fail NoFuel.

Definition scheduleFrameWrite (fuel : nat) sc : run serverConn :=
  if writingFrame (sc_ws sc) || inFrameScheduleLoop (sc_ws sc) then Ret sc
  else
    let! sc := scheduleLoop scheduleInside fuel (on_ws (set_loop true) sc) in
    Ret (on_ws (set_loop false) sc).
End writing.
End conn.
