(* ===== verification/ServerFrames.v ===== *)
(** * Package http2: the serve loop

    Models the rest of the serve loop of src/http2/server.go: what each frame of the
    client does ([processFrame] and the functions it calls), the messages of handlers and
    timers, and one round of [serve].  Frames come from the [Framer] with merged header
    blocks (FrameMeta.v). *)

From S2P Require Import Prelude HpackTable Flow DataBuffer Pipe Frame HttpGuts FrameMeta WriteFrames HeaderWrite WriteSched ServerRequest ServerConn.

(** An error that [processFrame] returns: one of the framer's types, or [goAwayFlowError]. *)
Inductive process_error := errFrame (e : frame_error) | goAwayFlowError.

Definition connectionError (code : Z) : option process_error := Some (errFrame (ConnectionError code)).
Definition strError (id code : Z) : option process_error := Some (errFrame (streamError id code)).

(** A read from the framer. *)
Inductive read_result := Read (f : Frame + MetaHeadersFrame) | ReadError (e : frame_error).

Section frames.
Context {S C W B U : Type} {WS : WriteScheduler S C} {FS : FrameSink W} {PB : PipeBuffer B serve_error}.
Context (srv : Server) (ParseRequestURI : bytes -> option U) (hostURL : bytes -> U) (tlsState : bool) (env : environment (C := C)).
Context (newBuffer : Z -> B) (fuel : nat).
Abbreviation conn := (serverConn (S := S) (W := W) (B := B) (U := U)).
Implicit Types (sc : conn).

Let schedule : conn -> run conn := scheduleFrameWrite srv ParseRequestURI hostURL tlsState env fuel.
Let goAway := goAway (S := S) (W := W) (B := B) (U := U) schedule.
Let resetStream := resetStream (S := S) (C := C) (W := W) (B := B) (U := U) schedule.
Let writeFrame := writeFrame (S := S) (C := C) (W := W) (B := B) (U := U) schedule.
Let closeStream := closeStream (S := S) (C := C) (W := W) (B := B) (U := U) srv env schedule.
Let sendWindowUpdate := sendWindowUpdate (S := S) (C := C) (W := W) (B := B) (U := U) srv schedule.
Let sendWindowUpdate32 := sendWindowUpdate32 (S := S) (C := C) (W := W) (B := B) (U := U) schedule.
Let wroteFrame := wroteFrame (S := S) (C := C) (W := W) (B := B) (U := U) srv env schedule.

(** ** Frames *)
Definition processPing (fh : FrameHeader) (Data : bytes) sc : run (conn * option process_error) :=
  if Flags_Has (fh_Flags fh) FlagPingAck then Ret (sc, None)
  else if negb (fh_StreamID fh =? 0) then Ret (sc, connectionError ErrCodeProtocol)
  else if inGoAway (sc_ws sc) && negb (goAwayCode (sc_ws sc) =? ErrCodeNo) then Ret (sc, None)
  else
    let! sc := writeFrame (mkFWR (Some (writePingAck Data)) None None) sc in
    Ret (sc, None).

Definition processWindowUpdate (fh : FrameHeader) (Increment : Z) sc : run (conn * option process_error) :=
  let id := fh_StreamID fh in
  if negb (id =? 0) then
    let '(s, st) := state sc id in
    if bool_decide (s = stateIdle) then Ret (sc, connectionError ErrCodeProtocol)
    else
      match st with
      | None => Ret (sc, None)
      | Some _ =>
          let! '(fl, ok) := lift (flow_add (sc_flows sc) (flow_addr id) (i32 Increment)) in
          if negb ok then Ret (set_flows fl sc, strError id ErrCodeFlowControl)
          else let! sc := schedule (set_flows fl sc) in Ret (sc, None)
      end
  else
    let! '(fl, ok) := lift (flow_add (sc_flows sc) (flow_addr 0) (i32 Increment)) in
    if negb ok then Ret (set_flows fl sc, Some goAwayFlowError)
    else let! sc := schedule (set_flows fl sc) in Ret (sc, None).

Definition processResetStream (fh : FrameHeader) (code : Z) sc : run (conn * option process_error) :=
  let id := fh_StreamID fh in
  let '(s, st) := state sc id in
  if bool_decide (s = stateIdle) then Ret (sc, connectionError ErrCodeProtocol)
  else
    match st with
    | None => Ret (sc, None)
    | Some _ =>
        let! sc := closeStream id (errStream (streamError id code)) (update sc id cancelCtx) in
        Ret (sc, None)
    end.

(** [for _, st := range sc.streams], in an order that the environment chooses. *)
Fixpoint growLoop (ids : list Z) (growth : Z) sc : run (conn * option process_error) :=
  match ids with
  | [] => Ret (sc, None)
  | id :: ids =>
      let! '(fl, ok) := lift (flow_add (sc_flows sc) (flow_addr id) growth) in
      let sc := set_flows fl sc in
      if negb ok then Ret (sc, connectionError ErrCodeFlowControl) else growLoop ids growth sc
  end.

Definition processSettingInitialWindowSize (val : Z) sc : run (conn * option process_error) :=
  let s := sc_set sc in
  let old := initialStreamSendWindowSize s in
  let sc := set_set (mkSettings (pushEnabled s) (clientMaxStreams s) (i32 val) (sc_maxFrameSize s) (headerTableSize s)
                       (peerMaxHeaderListSize s)) sc in
  let growth := i32 (i32 val - old) in
  growLoop (env_range env (base.elements (live (sc_str sc)))) growth sc.

Definition processSetting (x : Setting) sc : run (conn * option process_error) :=
  match Setting_Valid x with
  | Some e => Ret (sc, Some (errFrame e))
  | None =>
      let s := sc_set sc in
      let v := s_Val x in
      if s_ID x =? SettingHeaderTableSize then
        let! cx := lift (fs_SetMaxDynamicTableSize (sc_cx sc) v) in
        Ret (set_cx cx
               (set_set (mkSettings (pushEnabled s) (clientMaxStreams s) (initialStreamSendWindowSize s) (sc_maxFrameSize s) v
                           (peerMaxHeaderListSize s)) sc), None)
      else if s_ID x =? SettingEnablePush then
        Ret (set_set (mkSettings (negb (v =? 0)) (clientMaxStreams s) (initialStreamSendWindowSize s) (sc_maxFrameSize s)
                        (headerTableSize s) (peerMaxHeaderListSize s)) sc, None)
      else if s_ID x =? SettingMaxConcurrentStreams then
        Ret (set_set (mkSettings (pushEnabled s) v (initialStreamSendWindowSize s) (sc_maxFrameSize s)
                        (headerTableSize s) (peerMaxHeaderListSize s)) sc, None)
      else if s_ID x =? SettingInitialWindowSize then processSettingInitialWindowSize v sc
      else if s_ID x =? SettingMaxFrameSize then
        Ret (set_set (mkSettings (pushEnabled s) (clientMaxStreams s) (initialStreamSendWindowSize s) (i32 v)
                        (headerTableSize s) (peerMaxHeaderListSize s)) sc, None)
      else if s_ID x =? SettingMaxHeaderListSize then
        Ret (set_set (mkSettings (pushEnabled s) (clientMaxStreams s) (initialStreamSendWindowSize s) (sc_maxFrameSize s)
                        (headerTableSize s) v) sc, None)
      else Ret (sc, None)
  end.

(** [f.ForeachSetting(sc.processSetting)]. *)
Fixpoint foreachSetting (n : nat) (p : bytes) (i : Z) sc : run (conn * option process_error) :=
  match n with
  | O => Ret (sc, None)
  | Datatypes.S n =>
      let! x := lift (Setting_at p i) in
      let! '(sc, err) := processSetting x sc in
      match (err : option process_error) with
      | Some e => Ret (sc, Some e)
      | None => foreachSetting n p (i + 1) sc
      end
  end.

Definition processSettings (fh : FrameHeader) (p : bytes) sc : run (conn * option process_error) :=
  if Flags_Has (fh_Flags fh) FlagSettingsAck then
    let sc := set_unacked (sc_unackedSettings sc - 1) sc in
    Ret (sc, if sc_unackedSettings sc <? 0 then connectionError ErrCodeProtocol else None)
  else
    let! dups := if NumSettings p >? 100 then Ret true else lift (HasDuplicates p) in
    if (dups : bool) then Ret (sc, connectionError ErrCodeProtocol)
    else
      let! '(sc, err) := foreachSetting (Z.to_nat (NumSettings p)) p 0 sc in
      match (err : option process_error) with
      | Some e => Ret (sc, Some e)
      | None =>
          let! sc := schedule (on_ws (set_ack true) sc) in
          Ret (sc, None)
      end.

(** [st.body.CloseWithError(err)] and the like. *)
Definition on_body (id : Z) (f : pipe B serve_error unit -> option (pipe B serve_error unit)) sc : run conn :=
  let! st := deref sc id in
  let! p := lift (st_body st) in
  let! p := lift (f p) in
  Ret (update sc id (set_body (Some p))).

Definition endStream (id : Z) sc : run conn :=
  let! st := deref sc id in
  let! sc :=
    if negb (st_declBodyBytes st =? -1) && negb (st_declBodyBytes st =? st_bodyBytes st) then
      on_body id (fun p => CloseWithError p (Some (errShortBody (st_declBodyBytes st) (st_bodyBytes st)))) sc
    else
      let! sc := on_body id (fun p => closeWithErrorAndCode p (Some errEOF) tt) sc in
      on_body id (fun p => CloseWithError p (Some errEOF)) sc in
  Ret (update sc id (set_state stateHalfClosedRemote)).

(** [sc.inflow.take(int32(f.Length))] and [sc.sendWindowUpdate(nil)]. *)
Definition take_and_return (length : Z) sc : run conn :=
  let! fl := lift (flow_take (sc_flows sc) (inflow_addr 0) length) in
  sendWindowUpdate None (set_flows fl sc).

(** The part of [processData] for a frame that is not empty: [inl] is the error. *)
Definition receiveData (id Length : Z) (data : bytes) sc : run (conn * option process_error) :=
  let! avail := lift (flow_available (sc_flows sc) (inflow_addr id)) in
  if avail <? i32 Length then Ret (sc, strError id ErrCodeFlowControl)
  else
    let! fl := lift (flow_take (sc_flows sc) (inflow_addr id) (i32 Length)) in
    let sc := set_flows fl sc in
    let! '(sc, err) :=
      if 0 <? zlen data then
        let! st := deref sc id in
        let! p := lift (st_body st) in
        let! '(p, (wrote, err)) := lift (pipe_Write errClosedPipeWrite p data) in
        let sc := update sc id (set_body (Some p)) in
        match (err : option serve_error) with
        | Some _ =>
            let! sc := sendWindowUpdate32 None (i32 (i32 Length - i32 wrote)) sc in
            Ret (sc, strError id ErrCodeStreamClosed)
        | None =>
            if negb (wrote =? zlen data) then Panic
            else Ret (update sc id (fun st => set_bodyBytes (st_bodyBytes st + zlen data) st), None)
        end
      else Ret (sc, None) in
    match (err : option process_error) with
    | Some e => Ret (sc, Some e)
    | None =>
        let pad := i32 (i32 Length - i32 (zlen data)) in
        if pad >? 0 then
          let! sc := sendWindowUpdate32 None pad sc in
          let! sc := sendWindowUpdate32 (Some id) pad sc in
          Ret (sc, None)
        else Ret (sc, None)
    end.

Definition processData (fh : FrameHeader) (data : bytes) sc : run (conn * option process_error) :=
  let id := fh_StreamID fh in
  let Length := fh_Length fh in
  if inGoAway (sc_ws sc) && (negb (goAwayCode (sc_ws sc) =? ErrCodeNo) || (id >? maxClientStreamID (sc_str sc))) then Ret (sc, None)
  else
    let '(s, st) := state sc id in
    if (id =? 0) || bool_decide (s = stateIdle) then Ret (sc, connectionError ErrCodeProtocol)
    else
      let discard :=
        let! avail := lift (flow_available (sc_flows sc) (inflow_addr 0)) in
        if avail <? i32 Length then Ret (sc, strError id ErrCodeFlowControl)
        else
          let! sc := take_and_return (i32 Length) sc in
          Ret (sc, if match st with
                      | None => false
                      | Some _ => match store (sc_str sc) !! id with Some st => st_resetQueued st | None => false end
                      end
                   then None else strError id ErrCodeStreamClosed) in
      match st with
      | None => discard
      | Some st =>
          if negb (bool_decide (s = stateOpen)) || st_gotTrailerHeader st || st_resetQueued st then discard
          else
            match st_body st with
            | None => Panic
            | Some _ =>
                if negb (st_declBodyBytes st =? -1) && (st_bodyBytes st + zlen data >? st_declBodyBytes st) then
                  let! avail := lift (flow_available (sc_flows sc) (inflow_addr 0)) in
                  if avail <? i32 Length then Ret (sc, strError id ErrCodeFlowControl)
                  else
                    let! sc := take_and_return (i32 Length) sc in
                    let! sc := on_body id (fun p => CloseWithError p (Some (errSentTooMuch (st_declBodyBytes st)))) sc in
                    Ret (sc, strError id ErrCodeProtocol)
                else
                  let! '(sc, err) := if Length >? 0 then receiveData id Length data sc else Ret (sc, None) in
                  match (err : option process_error) with
                  | Some e => Ret (sc, Some e)
                  | None =>
                      if Flags_Has (fh_Flags fh) FlagDataEndStream
                      then let! sc := endStream id sc in Ret (sc, None) else Ret (sc, None)
                  end
            end
      end.

(** The trailer fields, added one by one; the error leaves those before it. *)
Fixpoint addTrailers (id : Z) (fields : list HeaderField) sc : run (conn * option process_error) :=
  match fields with
  | [] => Ret (sc, None)
  | hf :: fields =>
      let '(canon, key) := canonicalHeader (sc_canonHeader sc) (hf_Name hf) in
      let sc := set_canonHeader canon sc in
      if negb (ValidTrailerHeader key) then Ret (sc, strError id ErrCodeProtocol)
      else
        let! st := deref sc id in
        let! h := lift (st_trailer st) in
        addTrailers id fields (update sc id (set_trailer (Some (<[key := default [] (h !! key) ++ [hf_Value hf]]> h))))
  end.

Definition processTrailerHeaders (id : Z) (f : MetaHeadersFrame) sc : run (conn * option process_error) :=
  let! st := deref sc id in
  if st_gotTrailerHeader st then Ret (sc, connectionError ErrCodeProtocol)
  else
    let sc := update sc id set_gotTrailerHeader in
    if negb (meta_StreamEnded f) then Ret (sc, strError id ErrCodeProtocol)
    else if 0 <? zlen (PseudoFields f) then Ret (sc, strError id ErrCodeProtocol)
    else
      let! '(sc, err) := match st_trailer st with
                         | Some _ => addTrailers id (RegularFields f) sc
                         | None => Ret (sc, None)
                         end in
      match (err : option process_error) with
      | Some e => Ret (sc, Some e)
      | None => let! sc := endStream id sc in Ret (sc, None)
      end.

Definition checkPriority (streamID : Z) (p : PriorityParam) : option process_error :=
  if streamID =? StreamDep p then strError streamID ErrCodeProtocol else None.

Definition processPriority (fh : FrameHeader) (p : PriorityParam) sc : run (conn * option process_error) :=
  if inGoAway (sc_ws sc) then Ret (sc, None)
  else
    match checkPriority (fh_StreamID fh) p with
    | Some e => Ret (sc, Some e)
    | None =>
        let! s := lift (ws_AdjustStream (sc_sched sc) (fh_StreamID fh) p) in
        Ret (set_sched s sc, None)
    end.

Definition set_maxClientStreamID (n : Z) sc : conn :=
  let t := sc_str sc in
  set_str (mkST (store t) (live t) (advMaxStreams t) (curClientStreams t) (curPushedStreams t) n (maxPushPromiseID t)) sc.

(** The part of [processHeaders] that opens a stream. *)
Definition openRequest (id : Z) (f : MetaHeadersFrame) sc : run (conn * option process_error) :=
  let! sc := newStream srv id 0 (if meta_StreamEnded f then stateHalfClosedRemote else stateOpen) sc in
  let! '(sc, err) :=
    if meta_HasPriority f then
      match checkPriority id (mh_Priority f) with
      | Some e => Ret (sc, Some e)
      | None => let! s := lift (ws_AdjustStream (sc_sched sc) id (mh_Priority f)) in Ret (set_sched s sc, None)
      end
    else Ret (sc, None) in
  match (err : option process_error) with
  | Some e => Ret (sc, Some e)
  | None =>
      let! '(canon, r) := lift (newWriterAndRequest ParseRequestURI hostURL tlsState (sc_canonHeader sc) id f) in
      let sc := set_canonHeader canon sc in
      match (r : frame_error + Request U * option Z) with
      | inl e => Ret (sc, Some (errFrame e))
      | inr (req, expected) =>
          let body := (fun n => setBuffer zeroPipe (newBuffer n)) <$> expected in
          let sc := update sc id (set_request body (rq_ContentLength req) (rq_Trailer req)) in
          let h := if mh_Truncated f then handleHeaderListTooLong
                   else if checkValidHTTP2RequestHeaders (rq_Header req) then ServeHTTP else new400Handler in
          Ret (runHandler id req h sc, None)
      end
  end.

Definition processHeaders (f : MetaHeadersFrame) sc : run (conn * option process_error) :=
  let id := fh_StreamID (mh_fh f) in
  if inGoAway (sc_ws sc) then Ret (sc, None)
  else if negb (id mod 2 =? 1) then Ret (sc, connectionError ErrCodeProtocol)
  else
    match streams sc id with
    | Some st =>
        if st_resetQueued st then Ret (sc, None)
        else if bool_decide (st_state st = stateHalfClosedRemote) then Ret (sc, strError id ErrCodeStreamClosed)
        else processTrailerHeaders id f sc
    | None =>
        if id <=? maxClientStreamID (sc_str sc) then Ret (sc, connectionError ErrCodeProtocol)
        else
          let sc := set_maxClientStreamID id sc in
          if u32 (curClientStreams (sc_str sc) + 1) >? advMaxStreams (sc_str sc) then
            Ret (sc, strError id (if sc_unackedSettings sc =? 0 then ErrCodeProtocol else ErrCodeRefusedStream))
          else openRequest id f sc
    end.

Definition set_pushEnabled (b : bool) sc : conn :=
  let s := sc_set sc in
  set_set (mkSettings b (clientMaxStreams s) (initialStreamSendWindowSize s) (sc_maxFrameSize s) (headerTableSize s)
             (peerMaxHeaderListSize s)) sc.

Definition processGoAway sc : run (conn * option process_error) :=
  let! sc := goAway ErrCodeNo sc in
  Ret (set_pushEnabled false sc, None).

Definition processFrame (f : Frame + MetaHeadersFrame) sc : run (conn * option process_error) :=
  if negb (sc_sawFirstSettings sc) && match f with inl (SettingsFrame _ _) => false | _ => true end then
    Ret (sc, connectionError ErrCodeProtocol)
  else
    let sc := if sc_sawFirstSettings sc then sc else saw_settings sc in
    match f with
    | inl (SettingsFrame fh p) => processSettings fh p sc
    | inr f => processHeaders f sc
    | inl (WindowUpdateFrame fh n) => processWindowUpdate fh n sc
    | inl (PingFrame fh data) => processPing fh data sc
    | inl (DataFrame fh data) => processData fh data sc
    | inl (RSTStreamFrame fh code) => processResetStream fh code sc
    | inl (PriorityFrame fh p) => processPriority fh p sc
    | inl (GoAwayFrame _ _ _ _) => processGoAway sc
    | inl (PushPromiseFrame _ _ _) => Ret (sc, connectionError ErrCodeProtocol)
    | inl (HeadersFrame _ _ _) | inl (ContinuationFrame _ _) | inl (UnknownFrame _ _) => Ret (sc, None)
    end.

(** What is done about an error; the flag says whether the connection is kept open. *)
Definition handleError (err : process_error) sc : run (conn * bool) :=
  match err with
  | errFrame (StreamError id code _) => let! sc := resetStream id code sc in Ret (sc, true)
  | goAwayFlowError => let! sc := goAway ErrCodeFlowControl sc in Ret (sc, true)
  | errFrame (ConnectionError code) => let! sc := goAway code sc in Ret (sc, true)
  | errFrame _ => Ret (sc, false)
  end.

Definition processFrameFromReader (res : read_result) sc : run (conn * bool) :=
  match res with
  | ReadError ErrFrameTooLarge => let! sc := goAway ErrCodeFrameSize sc in Ret (sc, true)
  | ReadError EOF | ReadError ErrUnexpectedEOF => Ret (sc, false)
  | ReadError e => handleError (errFrame e) sc
  | Read f =>
      let! '(sc, err) := processFrame f sc in
      match (err : option process_error) with
      | None => Ret (sc, true)
      | Some e => handleError e sc
      end
  end.

(** ** Handlers *)
Definition noteBodyRead (id : Z) sc : run conn :=
  let! sc := sendWindowUpdate None sc in
  let! st := deref sc id in
  if negb (bool_decide (st_state st = stateHalfClosedRemote)) && negb (bool_decide (st_state st = stateClosed))
  then sendWindowUpdate (Some id) sc else Ret sc.

Record startPushRequest := mkPushReq {
  sp_parent : Z;
  sp_method : bytes;
  sp_url : URL;
  sp_header : header;
  sp_done : nat
}.

Definition startPush (msg : startPushRequest) sc : run conn :=
  let! parent := deref sc (sp_parent msg) in
  if negb (bool_decide (st_state parent = stateOpen)) && negb (bool_decide (st_state parent = stateHalfClosedRemote)) then
    replyToWriter (Some (sp_done msg)) (Some errStreamClosed) sc
  else if negb (pushEnabled (sc_set sc)) then replyToWriter (Some (sp_done msg)) (Some ErrNotSupported) sc
  else
    writeFrame (mkFWR (Some (writePushPromise (mkPush (sp_parent msg) (sp_method msg) (sp_url msg) (sp_header msg) 0)))
                      (Some (stream_ptr (sp_parent msg))) (Some (sp_done msg))) sc.

(** ** The loop *)

(** What the serve goroutine receives in a round: from a handler, from the goroutine that
    writes a frame, from the one that reads frames (and whether the result of a write was
    there as well), from a handler that read from a body, from timers and [Push]; and
    what handlers do to the shared state meanwhile: they read or close a body, and receive
    a result. *)
Inductive event :=
| FromHandler (wr : FrameWriteRequest)
| FrameWritten
| FrameRead (res : read_result) (written : bool)
| BodyRead (id : Z)
| SettingsTimer
| IdleTimer
| ShutdownTimer
| GracefulShutdown
| StartPush (msg : startPushRequest)
| HandlerReads (id : Z) (d : bytes)
| HandlerCloses (id : Z)
| HandlerReceives (ch : nat).

(** [writeFrameAsync]: the goroutine writes the frame, and its result is received. *)
Definition receiveWritten sc : run conn :=
  let! wr := lift (sc_writer sc) in
  let! w := lift (wr_write wr) in
  let! '(cx, err) := lift (fs_writeFrame w (sc_cx sc)) in
  wroteFrame wr err (set_writer None (set_cx cx sc)).

Definition handle (ev : event) sc : run (conn * bool) :=
  match ev with
  | FromHandler wr =>
      let! sc := match wr_write wr with
                 | Some (writeStreamError id code) => resetStream id code sc
                 | _ => writeFrame wr sc
                 end in Ret (sc, true)
  | FrameWritten => let! sc := receiveWritten sc in Ret (sc, true)
  | FrameRead res written =>
      let! sc := if writingFrameAsync (sc_ws sc) && written then receiveWritten sc else Ret sc in
      processFrameFromReader res sc
  | BodyRead id => let! sc := noteBodyRead id sc in Ret (sc, true)
  | SettingsTimer | ShutdownTimer => Ret (sc, false)
  | IdleTimer => let! sc := goAway ErrCodeNo sc in Ret (sc, true)
  | GracefulShutdown => let! sc := goAway ErrCodeNo sc in Ret (sc, true)
  | StartPush msg => let! sc := startPush msg sc in Ret (sc, true)
  | HandlerReads id d =>
      let! st := deref sc id in
      match st_body st with
      | None => Ret (sc, true)
      | Some p => let! '(p, _) := lift (pipe_Read p d) in Ret (update sc id (set_body (Some p)), true)
      end
  | HandlerCloses id =>
      let! st := deref sc id in
      match st_body st with
      | None => Ret (sc, true)
      | Some _ => let! sc := on_body id (fun p => BreakWithError p (Some errClosedBody)) sc in Ret (sc, true)
      end
  | HandlerReceives ch => Ret (set_chans (delete ch (sc_chans sc)) sc, true)
  end.

(** The deferred [closeAllStreamsOnConnClose]: streams that left the map are not visited. *)
Fixpoint closeAllStreams (ids : list Z) sc : run conn :=
  match ids with
  | [] => Ret sc
  | id :: ids =>
      let! sc := match streams sc id with
                 | Some _ => closeStream id errClientDisconnected sc
                 | None => Ret sc
                 end in
      closeAllStreams ids sc
  end.

Definition exit_serve sc : run conn :=
  let! sc := closeAllStreams (env_range env (base.elements (live (sc_str sc)))) sc in
  Ret (close_conn sc).

(** One round of the loop, and whether another follows. *)
Definition serve_round (ev : event) sc : run (conn * bool) :=
  let! '(sc, continue) := handle ev sc in
  if negb continue then let! sc := exit_serve sc in Ret (sc, false)
  else if queuedControlFrames (sc_ws sc) >? maxQueuedControlFrames then let! sc := exit_serve sc in Ret (sc, false)
  else
    let w := sc_ws sc in
    let sentGoAway := inGoAway w && negb (needToSendGoAway w) && negb (writingFrame w) in
    let gracefulShutdownComplete := (goAwayCode w =? ErrCodeNo) && (curOpenStreams sc =? 0) in
    let sc := if sentGoAway && negb (sc_shutdownTimer sc) && (negb (goAwayCode w =? ErrCodeNo) || gracefulShutdownComplete)
              then shutDownIn sc else sc in
    Ret (sc, true).

(** What [serve] does before the client's preface is read. *)
Definition serve_start sc : run conn :=
  let! sc := writeFrame (mkFWR (Some (writeSettings [
    mkSetting SettingMaxFrameSize (maxReadFrameSize srv);
    mkSetting SettingMaxConcurrentStreams (advMaxStreams (sc_str sc));
    mkSetting SettingMaxHeaderListSize (srv_maxHeaderListSize srv);
    mkSetting SettingInitialWindowSize (u32 (initialStreamRecvWindowSize srv))])) None None) sc in
  sendWindowUpdate None (set_unacked (sc_unackedSettings sc + 1) sc).

(** The connection that [ServeConn] makes, with a new scheduler and a new writer. *)
Definition newServerConn (sched : S) (cx : W) : run conn :=
  let! '(fl, _) := lift (flow_add {[ flow_addr 0 := mkFlow 0 None; inflow_addr 0 := mkFlow 0 None ]} (flow_addr 0) initialWindowSize) in
  let! '(fl, _) := lift (flow_add fl (inflow_addr 0) initialWindowSize) in
  Ret (mkConn
    (mkSettings true (2 ^ 32 - 1) initialWindowSize initialMaxFrameSize Hpack.initialHeaderTableSize 0)
    (mkST ∅ ∅ (maxConcurrentStreams srv) 0 0 0 0)
    (mkWS false false false false false false false 0 0)
    fl sched cx None ∅ ∅ false 0 false false [] [] 0%nat).

(** A run: the state after each round, and whether the loop still runs. *)
Fixpoint serve_loop (evs : list event) sc : run (conn * bool) :=
  match evs with
  | [] => Ret (sc, true)
  | ev :: evs =>
      let! '(sc, continue) := serve_round ev sc in
      if (continue : bool) then serve_loop evs sc else Ret (sc, false)
  end.

(** The whole life of a connection. *)
Definition serve (sched : S) (cx : W) (evs : list event) : run (conn * bool) :=
  let! sc := newServerConn sched cx in
  let! sc := serve_start sc in
  serve_loop evs sc.
End frames.
