(* ===== verification/Bufio.v ===== *)
(** * The buffered writer of package bufio

    [bufio.Writer] of Go's standard library, as http2.go and server.go use it: over any
    [io.Writer] [connWrite] with state [K], for a buffer of [size] bytes. *)

From S2P Require Import Prelude.

Section bufio.
Context {K Err : Type} (connWrite : K -> bytes -> K * (Z * option Err)) (ErrShortWrite : Err) (size : Z).

(** A [bufio.Writer] of [size] bytes: what it holds and its sticky error. *)
Record bufioWriter := mkBufio {
  bf_buf : bytes;
  bf_err : option Err
}.

Definition bufio_Available (b : bufioWriter) : Z := size - zlen (bf_buf b).

Definition bufio_Flush (k : K) (b : bufioWriter) : K * bufioWriter * option Err :=
  match bf_err b with
  | Some e => (k, b, Some e)
  | None =>
      if zlen (bf_buf b) =? 0 then (k, b, None)
      else
        let '(k, (n, err)) := connWrite k (bf_buf b) in
        let err := match err with None => if n <? zlen (bf_buf b) then Some ErrShortWrite else None | e => e end in
        match err with
        | Some e => (k, mkBufio (drop (Z.to_nat n) (bf_buf b)) (Some e), Some e)
        | None => (k, mkBufio [] None, None)
        end
  end.

(** [for len(p) > b.Available() && b.err == nil]: a round that does not fail either
    empties the buffer or writes from [p] directly; [nn] counts. *)
Fixpoint bufio_loop (fuel : nat) (k : K) (b : bufioWriter) (p : bytes) (nn : Z) : option (K * bufioWriter * bytes * Z) :=
  if (zlen p >? bufio_Available b) && match bf_err b with None => true | Some _ => false end then
    match fuel with
    | O => None
    | Datatypes.S fuel =>
        let '(k, b, n) :=
          if zlen (bf_buf b) =? 0 then
            let '(k, (n, err)) := connWrite k p in (k, mkBufio (bf_buf b) err, n)
          else
            let n := bufio_Available b in
            let '(k, b, _) := bufio_Flush k (mkBufio (bf_buf b ++ take (Z.to_nat n) p) (bf_err b)) in (k, b, n) in
        bufio_loop fuel k b (drop (Z.to_nat n) p) (nn + n)
    end
  else Some (k, b, p, nn).

Definition bufio_Write (fuel : nat) (k : K) (b : bufioWriter) (p : bytes) : option (K * bufioWriter * (Z * option Err)) :=
  '(k, b, p, nn) ← bufio_loop fuel k b p 0;
  Some (match bf_err b with
        | Some e => (k, b, (nn, Some e))
        | None => (k, mkBufio (bf_buf b ++ p) None, (nn + zlen p, None))
        end).

(** [WriteString]: the writer below has no [WriteString], so a string always goes through
    the buffer. *)
Fixpoint bufio_string_loop (fuel : nat) (k : K) (b : bufioWriter) (s : bytes) (nn : Z) : option (K * bufioWriter * bytes * Z) :=
  if (zlen s >? bufio_Available b) && match bf_err b with None => true | Some _ => false end then
    match fuel with
    | O => None
    | Datatypes.S fuel =>
        let n := bufio_Available b in
        let '(k, b, _) := bufio_Flush k (mkBufio (bf_buf b ++ take (Z.to_nat n) s) (bf_err b)) in
        bufio_string_loop fuel k b (drop (Z.to_nat n) s) (nn + n)
    end
  else Some (k, b, s, nn).

Definition bufio_WriteString (fuel : nat) (k : K) (b : bufioWriter) (s : bytes) : option (K * bufioWriter * (Z * option Err)) :=
  '(k, b, s, nn) ← bufio_string_loop fuel k b s 0;
  Some (match bf_err b with
        | Some e => (k, b, (nn, Some e))
        | None => (k, mkBufio (bf_buf b ++ s) None, (nn + zlen s, None))
        end).

(** The contract of [io.Writer]. *)
Definition writer_law : Prop := forall k p,
  let '(_, (n, err)) := connWrite k p in 0 <= n <= zlen p /\ (n < zlen p -> err <> None).

Lemma bufio_loop_stop fuel k b p nn :
  zlen p <= bufio_Available b \/ bf_err b <> None -> bufio_loop fuel k b p nn = Some (k, b, p, nn).
Proof.
  intros H. assert (((zlen p >? bufio_Available b) && match bf_err b with None => true | Some _ => false end) = false) as E.
  { destruct H as [H|H]; [|destruct (bf_err b); [apply andb_false_r|congruence]].
    apply andb_false_intro1. lia. }
  destruct fuel; simpl; rewrite E; reflexivity.
Qed.

(** With an empty buffer one direct write is enough. *)
Lemma bufio_loop_empty fuel k b p nn :
  0 <= size -> writer_law -> bf_buf b = [] -> is_Some (bufio_loop (Datatypes.S fuel) k b p nn).
Proof.
  intros Hsz HL Hb. simpl. destruct (_ && _); [|eauto]. rewrite Hb. simpl.
  pose proof (HL k p) as Hw. destruct (connWrite k p) as [k' [n err]]. destruct Hw as [[H0 Hn] He].
  rewrite bufio_loop_stop; [eauto|]. simpl. destruct err as [e|]; [right; discriminate|left].
  assert (n = zlen p) as -> by (destruct (Z.lt_trichotomy n (zlen p)) as [?|[?|?]]; [exfalso; by apply He|done|lia]).
  unfold bufio_Available, zlen. rewrite length_drop. simpl. unfold zlen. lia.
Qed.

Lemma bufio_Write_total k b p : writer_law -> zlen (bf_buf b) <= size -> is_Some (bufio_Write 2 k b p).
Proof.
  intros HL Hb. assert (0 <= size) as Hsz by (pose proof (zlen_nonneg (bf_buf b)); lia). unfold bufio_Write.
  enough (is_Some (bufio_loop 2 k b p 0)) as [[[[k' b'] p'] nn] ->] by (simpl; eauto).
  change (bufio_loop 2 k b p 0) with
    (let fuel := 1%nat in if (zlen p >? bufio_Available b) && match bf_err b with None => true | Some _ => false end then
      let '(k, b, n) :=
          if zlen (bf_buf b) =? 0 then
            let '(k, (n, err)) := connWrite k p in (k, mkBufio (bf_buf b) err, n)
          else
            let n := bufio_Available b in
            let '(k, b, _) := bufio_Flush k (mkBufio (bf_buf b ++ take (Z.to_nat n) p) (bf_err b)) in (k, b, n) in
      bufio_loop fuel k b (drop (Z.to_nat n) p) (0 + n) else Some (k, b, p, 0)).
  cbv zeta. destruct (zlen (bf_buf b) =? 0) eqn:E0.
  { assert (bf_buf b = []) as Eb by (destruct (bf_buf b); [done|unfold zlen in E0; simpl in E0; lia]).
    pose proof (bufio_loop_empty 1 k b p 0 Hsz HL Eb) as HS. simpl bufio_loop at 1 in HS. by rewrite E0 in HS. }
  destruct (_ && _); [|eauto].
  destruct (bufio_Flush k _) as [[k' b'] err] eqn:EF. unfold bufio_Flush in EF. simpl in EF.
  destruct (bf_err b) as [e|] eqn:Ee.
  { injection EF as <- <- <-. rewrite bufio_loop_stop; [eauto|right; discriminate]. }
  destruct (zlen (bf_buf b ++ _) =? 0) eqn:E1.
  { rewrite zlen_app in E1. pose proof (zlen_nonneg (bf_buf b)).
    match type of E1 with context [zlen (take ?n p)] => pose proof (zlen_nonneg (take n p)) end. lia. }
  destruct (connWrite k _) as [k2 [n err']]. destruct err' as [e|]; [|destruct (n <? _)]; injection EF as <- <- <-.
  1,2: rewrite bufio_loop_stop; [eauto|right; discriminate].
  by apply bufio_loop_empty.
Qed.

(** A string takes a round for what fits beside the buffer's contents, and then one for
    every full buffer. *)
Lemma bufio_string_loop_total fuel : forall k b s nn,
  0 < size -> zlen s + (if zlen (bf_buf b) =? 0 then 0 else 1) <= Z.of_nat fuel -> is_Some (bufio_string_loop fuel k b s nn).
Proof.
  induction fuel as [|fuel IH]; intros k b s nn Hsz Hf; simpl; destruct (_ && _) eqn:Ec; eauto; apply andb_true_iff in Ec as [Ec He];
    unfold bufio_Available in *; pose proof (zlen_nonneg s); pose proof (zlen_nonneg (bf_buf b)).
  { destruct (Z.eqb_spec (zlen (bf_buf b)) 0); lia. }
  destruct (bf_err b) eqn:Eb; [done|]. unfold bufio_Flush. cbn [bf_err bf_buf]. set (n := size - zlen (bf_buf b)) in *.
  assert (zlen (take (Z.to_nat n) s) = Z.max 0 n /\ zlen (drop (Z.to_nat n) s) = zlen s - Z.max 0 n) as [Ht Hd]
    by (unfold zlen in *; rewrite length_take, length_drop; lia).
  destruct (Z.eqb_spec (zlen (bf_buf b ++ take (Z.to_nat n) s)) 0) as [E0|_].
  { rewrite zlen_app in E0. lia. }
  destruct (connWrite k _) as [k2 [m err]].
  destruct (match err with Some _ => err | None => _ end) as [e|].
  - destruct fuel; simpl; rewrite andb_false_r; eauto.
  - apply IH; [done|]. cbn [bf_buf]. change (zlen []) with 0. cbn [Z.eqb]. destruct (Z.eqb_spec (zlen (bf_buf b)) 0); lia.
Qed.

(** The buffer stays within its size. *)
Lemma bufio_Flush_fits k b : zlen (bf_buf (bufio_Flush k b).1.2) <= zlen (bf_buf b).
Proof.
  unfold bufio_Flush. destruct (bf_err b); [done|]. destruct (_ =? 0); [done|]. destruct (connWrite k _) as [k' [n err]].
  destruct (match err with Some _ => err | None => _ end); cbn; unfold zlen; rewrite ?length_drop; simpl; lia.
Qed.

Lemma fill_fits k b p : zlen (bf_buf b) <= size -> zlen (bf_buf (bufio_Flush k (mkBufio (bf_buf b ++ take (Z.to_nat (bufio_Available b)) p) (bf_err b))).1.2) <= size.
Proof.
  intros H. etransitivity; [apply bufio_Flush_fits|]. cbn. rewrite zlen_app. unfold bufio_Available, zlen in *. rewrite length_take. lia.
Qed.

(** What the loops leave. *)
Lemma bufio_loop_fits fuel : forall k b p nn k' b' q n, zlen (bf_buf b) <= size -> bufio_loop fuel k b p nn = Some (k', b', q, n) ->
  zlen (bf_buf b') <= size /\ (bf_err b' = None -> zlen q <= bufio_Available b').
Proof.
  induction fuel as [|fuel IH]; intros k b p nn k' b' q n Hb; simpl; destruct (_ && _) eqn:Ec; try done.
  1,3: intros [= <- <- <- <-]; split; [done|]; intros He; rewrite He, andb_true_r in Ec; lia.
  destruct (zlen (bf_buf b) =? 0).
  - destruct (connWrite k p) as [k1 [n1 err]]. by apply IH.
  - pose proof (fill_fits k b p Hb) as Hf. destruct (bufio_Flush k _) as [[k1 b1] err]. by apply IH.
Qed.

Lemma bufio_string_loop_fits fuel : forall k b p nn k' b' q n, zlen (bf_buf b) <= size -> bufio_string_loop fuel k b p nn = Some (k', b', q, n) ->
  zlen (bf_buf b') <= size /\ (bf_err b' = None -> zlen q <= bufio_Available b').
Proof.
  induction fuel as [|fuel IH]; intros k b p nn k' b' q n Hb; simpl; destruct (_ && _) eqn:Ec; try done.
  1,3: intros [= <- <- <- <-]; split; [done|]; intros He; rewrite He, andb_true_r in Ec; lia.
  pose proof (fill_fits k b p Hb) as Hf. destruct (bufio_Flush k _) as [[k1 b1] err]. by apply IH.
Qed.

Lemma bufio_Write_fits fuel k b p k' b' r : zlen (bf_buf b) <= size -> bufio_Write fuel k b p = Some (k', b', r) -> zlen (bf_buf b') <= size.
Proof.
  intros Hb. unfold bufio_Write. destruct (bufio_loop fuel k b p 0) as [[[[k1 b1] q] n]|] eqn:E; [|done].
  destruct (bufio_loop_fits _ _ _ _ _ _ _ _ _ Hb E) as [H1 H2]. simpl. destruct (bf_err b1); intros [= <- <- <-]; [done|].
  cbn. rewrite zlen_app. specialize (H2 eq_refl). unfold bufio_Available in H2. lia.
Qed.

Lemma bufio_WriteString_fits fuel k b p k' b' r : zlen (bf_buf b) <= size -> bufio_WriteString fuel k b p = Some (k', b', r) -> zlen (bf_buf b') <= size.
Proof.
  intros Hb. unfold bufio_WriteString. destruct (bufio_string_loop fuel k b p 0) as [[[[k1 b1] q] n]|] eqn:E; [|done].
  destruct (bufio_string_loop_fits _ _ _ _ _ _ _ _ _ Hb E) as [H1 H2]. simpl. destruct (bf_err b1); intros [= <- <- <-]; [done|].
  cbn. rewrite zlen_app. specialize (H2 eq_refl). unfold bufio_Available in H2. lia.
Qed.

Lemma bufio_WriteString_total k b s : 0 < size -> is_Some (bufio_WriteString (Datatypes.S (length s)) k b s).
Proof.
  intros Hsz. unfold bufio_WriteString.
  destruct (bufio_string_loop_total (Datatypes.S (length s)) k b s 0 Hsz) as [[[[k' b'] q] n] ->]; [unfold zlen at 1; destruct (_ =? _); lia|].
  simpl. destruct (bf_err b'); eauto.
Qed.

(** ** A writer below that keeps the contract from its second write on *)
Section late.
Context (J : K -> Prop) (starts : forall k p, J (connWrite k p).1).
Context (law : forall k p, J k -> let '(_, (n, err)) := connWrite k p in err = None -> n = zlen p).

Lemma late_empty fuel k b p nn : 0 <= size -> J k -> bf_buf b = [] -> is_Some (bufio_loop (Datatypes.S fuel) k b p nn).
Proof.
  intros Hsz HJ Hb. simpl. destruct (_ && _); [|eauto]. rewrite Hb. change (zlen []) with 0. cbn [Z.eqb].
  pose proof (law k p HJ) as Hw. destruct (connWrite k p) as [k' [n err]].
  rewrite bufio_loop_stop; [eauto|]. cbn [bf_err]. destruct err as [e|]; [right; discriminate|left]. rewrite (Hw eq_refl).
  unfold bufio_Available, zlen. rewrite length_drop. simpl. lia.
Qed.

(** One round to fill the buffer or to start, one to start or to write the rest. *)
Lemma late_Write_total k b p : zlen (bf_buf b) <= size -> is_Some (bufio_Write 3 k b p).
Proof.
  intros Hb. assert (0 <= size) as Hsz by (pose proof (zlen_nonneg (bf_buf b)); lia). unfold bufio_Write.
  enough (is_Some (bufio_loop 3 k b p 0)) as [[[[k' b'] p'] nn] ->] by (simpl; destruct (bf_err b'); eauto).
  change (bufio_loop 3 k b p 0) with
    (if (zlen p >? bufio_Available b) && match bf_err b with None => true | Some _ => false end then
      let '(k, b, n) :=
          if zlen (bf_buf b) =? 0 then
            let '(k, (n, err)) := connWrite k p in (k, mkBufio (bf_buf b) err, n)
          else
            let n := bufio_Available b in
            let '(k, b, _) := bufio_Flush k (mkBufio (bf_buf b ++ take (Z.to_nat n) p) (bf_err b)) in (k, b, n) in
      bufio_loop 2 k b (drop (Z.to_nat n) p) (0 + n) else Some (k, b, p, 0)).
  destruct (_ && _) eqn:Ec; [|eauto]. apply andb_true_iff in Ec as [Ec Ee]. destruct (Z.eqb_spec (zlen (bf_buf b)) 0) as [E0|E0].
  - pose proof (starts k p) as HJ. destruct (connWrite k p) as [k1 [n err]]. apply late_empty; [done|exact HJ|].
    cbn. destruct (bf_buf b); [done|]. unfold zlen in E0. simpl in E0. lia.
  - cbv zeta. unfold bufio_Flush. cbn [bf_err bf_buf]. destruct (bf_err b) as [e|]; [done|].
    destruct (zlen (bf_buf b ++ _) =? 0) eqn:E1.
    { rewrite zlen_app in E1. match type of E1 with context [zlen (take ?n p)] => pose proof (zlen_nonneg (take n p)) end.
      pose proof (zlen_nonneg (bf_buf b)). lia. }
    match goal with |- context [connWrite k ?q] => pose proof (starts k q) as HJ; destruct (connWrite k q) as [k1 [n err]] end.
    destruct (match err with Some _ => err | None => _ end) as [e|]; [|by apply late_empty].
    rewrite bufio_loop_stop; [eauto|right; discriminate].
Qed.
End late.

(** ** What the writer below keeps

    [I k e]: of the state below and the sticky error, which only a write sets. *)
Section keeps.
Context (I : K -> option Err -> Prop) (connWrite_keeps : forall k p e e', I k e -> I (connWrite k p).1 e').

Lemma bufio_Flush_keeps k b : I k (bf_err b) -> I (bufio_Flush k b).1.1 (bf_err (bufio_Flush k b).1.2).
Proof.
  intros H. unfold bufio_Flush. destruct (bf_err b) eqn:E; [cbn; by rewrite ?E|]. destruct (_ =? 0); [cbn; by rewrite ?E|].
  pose proof (fun e' => connWrite_keeps k (bf_buf b) None e' H) as H'. destruct (connWrite k _) as [k' [n err]].
  destruct (match err with Some _ => err | None => _ end); apply H'.
Qed.

Lemma bufio_Write_keeps fuel k b p k' b' r : I k (bf_err b) -> bufio_Write fuel k b p = Some (k', b', r) -> I k' (bf_err b').
Proof.
  unfold bufio_Write. generalize 0. revert k b p. induction fuel as [|fuel IH]; intros k b p nn H; simpl.
  - destruct (_ && _); [done|]. simpl. destruct (bf_err b) eqn:E; intros [= <- <- _]; by rewrite ?E.
  - destruct (_ && _); [|simpl; destruct (bf_err b) eqn:E; intros [= <- <- _]; by rewrite ?E].
    pose proof (fun e' => connWrite_keeps k p _ e' H) as H1.
    pose proof (bufio_Flush_keeps k (mkBufio (bf_buf b ++ take (Z.to_nat (bufio_Available b)) p) (bf_err b)) H) as H2.
    destruct (zlen (bf_buf b) =? 0).
    + destruct (connWrite k p) as [k1 [n err]]. apply IH, H1.
    + destruct (bufio_Flush k _) as [[k1 b1] err]. by apply IH.
Qed.

Lemma bufio_WriteString_keeps fuel k b s k' b' r : I k (bf_err b) -> bufio_WriteString fuel k b s = Some (k', b', r) -> I k' (bf_err b').
Proof.
  unfold bufio_WriteString. generalize 0. revert k b s. induction fuel as [|fuel IH]; intros k b s nn H; simpl.
  - destruct (_ && _); [done|]. simpl. destruct (bf_err b) eqn:E; intros [= <- <- _]; by rewrite ?E.
  - destruct (_ && _); [|simpl; destruct (bf_err b) eqn:E; intros [= <- <- _]; by rewrite ?E].
    pose proof (bufio_Flush_keeps k (mkBufio (bf_buf b ++ take (Z.to_nat (bufio_Available b)) s) (bf_err b)) H) as H2.
    destruct (bufio_Flush k _) as [[k1 b1] err]. by apply IH.
Qed.
End keeps.

(** ** A writer below that takes everything

    [P acc k]: the state [k] after [acc] was written.  What was written and what is
    buffered is what was given to the buffered writer. *)
Section faithful.
Context (P : bytes -> K -> Prop) (size_pos : 0 < size).
Context (connWrite_all : forall acc k p, P acc k -> exists k', connWrite k p = (k', (zlen p, None)) /\ P (acc ++ p) k').

Definition holds (all : bytes) (k : K) (b : bufioWriter) : Prop :=
  bf_err b = None /\ zlen (bf_buf b) <= size /\ exists acc, P acc k /\ acc ++ bf_buf b = all.

Lemma bufio_Flush_holds all k b : holds all k b -> exists k' b', bufio_Flush k b = (k', b', None) /\ holds all k' b' /\ bf_buf b' = [].
Proof.
  intros (He & Hs & acc & HP & <-). unfold bufio_Flush. rewrite He. destruct (Z.eqb_spec (zlen (bf_buf b)) 0) as [E0|_].
  - exists k, b. assert (bf_buf b = []) as E by (destruct (bf_buf b); [done|unfold zlen in E0; simpl in E0; lia]).
    split; [done|]. split; [|done]. split; [done|]. split; [done|]. by exists acc.
  - destruct (connWrite_all acc k (bf_buf b) HP) as (k' & -> & HP'). rewrite Z.ltb_irrefl. exists k', (mkBufio [] None).
    split; [done|]. split; [|done]. split; [done|]. split; [cbn; change (zlen []) with 0; lia|]. exists (acc ++ bf_buf b). by rewrite app_nil_r.
Qed.

(** What fits is kept. *)
Lemma holds_push all k b p : holds all k b -> zlen p <= bufio_Available b -> holds (all ++ p) k (mkBufio (bf_buf b ++ p) None).
Proof.
  intros (He & Hs & acc & HP & <-) Hp. unfold bufio_Available in Hp. split; [done|]. cbn. rewrite zlen_app. split; [lia|].
  exists acc. by rewrite app_assoc.
Qed.

(** A round that fills the buffer and empties it. *)
Lemma fill_holds all k b p : holds all k b -> zlen p > bufio_Available b ->
  exists k' b', bufio_Flush k (mkBufio (bf_buf b ++ take (Z.to_nat (bufio_Available b)) p) (bf_err b)) = (k', b', None) /\
    holds (all ++ take (Z.to_nat (bufio_Available b)) p) k' b' /\ bf_buf b' = [].
Proof.
  intros H Hp. pose proof H as (He & Hs & _). rewrite He. apply bufio_Flush_holds, holds_push; [done|].
  unfold bufio_Available in *. unfold zlen in *. rewrite length_take. lia.
Qed.

Lemma bufio_Write_holds fuel all k b p : holds all k b ->
  exists k' b', bufio_Write (S (S fuel)) k b p = Some (k', b', (zlen p, None)) /\ holds (all ++ p) k' b'.
Proof.
  intros H. unfold bufio_Write.
  enough (exists k' b' q, bufio_loop (S (S fuel)) k b p 0 = Some (k', b', q, zlen p - zlen q) /\ zlen q <= bufio_Available b' /\
      exists all', holds all' k' b' /\ all' ++ q = all ++ p) as (k' & b' & q & -> & Hq & all' & H' & E).
  { simpl. pose proof H' as (He' & _). rewrite He'. exists k', (mkBufio (bf_buf b' ++ q) None).
    split; [do 3 f_equal; lia|]. rewrite <- E. by apply holds_push. }
  destruct (zlen p >? bufio_Available b) eqn:Ep; [|].
  2: { exists k, b, p. rewrite bufio_loop_stop by (left; lia). split; [do 2 f_equal; lia|]. split; [lia|]. by exists all. }
  assert (forall n k b p nn all, holds all k b -> bf_buf b = [] -> zlen p > bufio_Available b ->
    exists k', bufio_loop (S n) k b p nn = Some (k', b, [], nn + zlen p) /\ holds (all ++ p) k' b) as Hdirect.
  { intros n k1 b1 p1 nn all1 (He1 & _ & acc & HP & <-) Hb1 Hp1. destruct (connWrite_all acc k1 p1 HP) as (k2 & Ek & HP2).
    exists k2. cbn [bufio_loop]. rewrite (proj2 (Z.gtb_lt _ _)) by lia. rewrite He1. cbn [andb]. rewrite Hb1. change (zlen []) with 0. cbn [Z.eqb].
    rewrite Ek, drop_ge by (unfold zlen; lia). assert (b1 = mkBufio [] None) as -> by (destruct b1; cbn in *; by subst).
    rewrite bufio_loop_stop by (left; unfold bufio_Available; cbn; change (zlen []) with 0; lia). split; [done|].
    split; [done|]. split; [cbn; change (zlen []) with 0; lia|]. exists (acc ++ p1). cbn. by rewrite !app_nil_r. }
  assert (zlen (@nil Z) = 0) as Hnil by done.
  destruct (bf_buf b) as [|x l] eqn:Eb.
  { destruct (Hdirect (S fuel) k b p 0 all H Eb ltac:(lia)) as (k' & -> & H'). exists k', b, []. split; [do 2 f_equal; lia|].
    unfold bufio_Available. rewrite Eb, Hnil. split; [lia|]. exists (all ++ p). by rewrite app_nil_r. }
  change (bufio_loop (S (S fuel)) k b p 0) with
    (if (zlen p >? bufio_Available b) && match bf_err b with None => true | Some _ => false end then
       let '(k, b, n) :=
         if zlen (bf_buf b) =? 0 then let '(k, (n, err)) := connWrite k p in (k, mkBufio (bf_buf b) err, n)
         else
           let n := bufio_Available b in
           let '(k, b, _) := bufio_Flush k (mkBufio (bf_buf b ++ take (Z.to_nat n) p) (bf_err b)) in (k, b, n) in
       bufio_loop (S fuel) k b (drop (Z.to_nat n) p) (0 + n)
     else Some (k, b, p, 0)).
  rewrite Ep. pose proof H as (He & _). rewrite He. cbn [andb].
  rewrite Eb. assert (zlen (x :: l) =? 0 = false) as -> by (rewrite zlen_cons; pose proof (zlen_nonneg l); lia). rewrite <- Eb.
  destruct (fill_holds all k b p H ltac:(lia)) as (k1 & b1 & Ef & H1 & Eb1). rewrite He in Ef. rewrite Ef.
  cbv beta iota zeta. set (n := bufio_Available b) in *. set (p1 := drop (Z.to_nat n) p). assert (zlen p1 = zlen p - n /\ 0 <= n) as [Hp1 Hn].
  { destruct H as (_ & Hs & _). unfold n, bufio_Available, p1, zlen in *. rewrite length_drop. lia. }
  destruct (zlen p1 >? bufio_Available b1) eqn:E1.
  - destruct (Hdirect fuel k1 b1 p1 (0 + n) _ H1 Eb1 ltac:(lia)) as (k' & -> & H'). exists k', b1, []. split; [do 2 f_equal; lia|].
    unfold bufio_Available. rewrite Eb1, Hnil. split; [lia|]. exists (all ++ p). rewrite app_nil_r. split; [|done].
    unfold p1 in H'. by rewrite <- app_assoc, take_drop in H'.
  - rewrite bufio_loop_stop by (left; lia). exists k1, b1, p1. split; [do 2 f_equal; lia|]. split; [lia|].
    exists (all ++ take (Z.to_nat n) p). split; [done|]. unfold p1. by rewrite <- app_assoc, take_drop.
Qed.

Lemma bufio_string_holds fuel : forall all k b s nn, holds all k b -> zlen s + (if zlen (bf_buf b) =? 0 then 0 else 1) <= Z.of_nat fuel ->
  exists k' b' q, bufio_string_loop fuel k b s nn = Some (k', b', q, nn + zlen s - zlen q) /\ zlen q <= bufio_Available b' /\
    exists all', holds all' k' b' /\ all' ++ q = all ++ s.
Proof.
  induction fuel as [|fuel IH]; intros all k b s nn H Hf; pose proof H as (He & Hs & _); simpl; destruct (_ && _) eqn:Ec.
  1: { apply andb_true_iff in Ec as [Ec _]. unfold bufio_Available in Ec. pose proof (zlen_nonneg s). destruct (Z.eqb_spec (zlen (bf_buf b)) 0); lia. }
  1,3: rewrite He, andb_true_r in Ec; exists k, b, s; split; [do 2 f_equal; lia|]; split; [lia|by exists all].
  rewrite He, andb_true_r in Ec. destruct (fill_holds all k b s H ltac:(lia)) as (k1 & b1 & -> & H1 & Eb1). cbv beta iota zeta.
  set (n := bufio_Available b) in *. pose proof (zlen_nonneg (bf_buf b)).
  assert (zlen (drop (Z.to_nat n) s) = zlen s - n /\ 0 <= n) as [Hd Hn].
  { unfold n, bufio_Available, zlen in *. rewrite length_drop. lia. }
  destruct (IH _ k1 b1 (drop (Z.to_nat n) s) (nn + n) H1) as (k' & b' & q & -> & Hq & all' & H' & E).
  { rewrite Eb1. change (zlen []) with 0. cbn [Z.eqb]. unfold n, bufio_Available in *. destruct (Z.eqb_spec (zlen (bf_buf b)) 0); lia. }
  exists k', b', q. split; [do 2 f_equal; lia|]. split; [done|]. exists all'. split; [done|]. by rewrite E, <- app_assoc, take_drop.
Qed.

Lemma bufio_WriteString_holds all k b s : holds all k b ->
  exists k' b', bufio_WriteString (S (length s)) k b s = Some (k', b', (zlen s, None)) /\ holds (all ++ s) k' b'.
Proof.
  intros H. unfold bufio_WriteString.
  destruct (bufio_string_holds (S (length s)) all k b s 0 H) as (k' & b' & q & -> & Hq & all' & H' & E).
  { unfold zlen at 1. destruct (_ =? _); lia. }
  simpl. pose proof H' as (He' & _). rewrite He'. exists k', (mkBufio (bf_buf b' ++ q) None).
  split; [do 3 f_equal; lia|]. rewrite <- E. by apply holds_push.
Qed.
End faithful.
End bufio.
Arguments bufioWriter Err : clear implicits.
