(* ===== verification/ServerResponse.v ===== *)
(** * Package http2: the response of a handler

    Models [responseWriter] of src/http2/server.go, with which a handler answers: the
    header that is kept until the first chunk of the body, the buffered body, declared and
    undeclared trailers, [Push], and the handler's side of the request body.  A handler is
    a list of the calls that it makes.

    Frames go to the serve loop as [FrameWriteRequest]s; whether the loop still takes them
    ([deliver]) and what it answers ([reply]) are parameters, given for each request in
    turn, and so are the reply channels, the time, [http.DetectContentType] and the order
    in which Go ranges over a map of headers. *)

From stdpp Require Import sorting.
From S2P Require Import Prelude HpackTable DataBuffer Pipe Frame HttpGuts FrameMeta WriteFrames HeaderWrite WriteSched ServerRequest ServerConn ServerFrames Bufio.

Definition handlerChunkWriteSize : Z := Z.shiftl 4 10.

Definition bodyAllowedForStatus (status : Z) : bool :=
  if (status >=? 100) && (status <=? 199) then false
  else if status =? 204 then false
  else if status =? 304 then false
  else true.

(** What [foreachHeaderElement] calls its function with. *)
Definition foreachHeaderElement (v : bytes) : list bytes :=
  let v := TrimString v in
  if bool_decide (v = []) then []
  else if negb (existsb (Z.eqb 44) v) then [v]
  else filter (fun f => f <> []) (map TrimString (splitComma [] v)).

(** [sorter.SortStrings]. *)
Definition SortStrings (l : list bytes) : list bytes := merge_sort (fun s t => Is_true (bytes_le s t)) l.

Definition TrailerPrefix : bytes := str "Trailer:".

(** ** State *)
Record responseWriterState := mkRWS {
  rws_stream : Z;                         (* the stream's id *)
  rws_method : bytes;                     (* of the request *)
  rws_handlerHeader : option header;      (* nil until called *)
  rws_snapHeader : option header;
  rws_trailers : list bytes;
  rws_status : Z;                         (* int *)
  rws_wroteHeader : bool;
  rws_sentHeader : bool;
  rws_handlerDone : bool;
  rws_dirty : bool;
  rws_sentContentLen : Z;                 (* int64 *)
  rws_wroteBytes : Z;                     (* int64 *)
  rws_shutdown : bool;                    (* [startGracefulShutdown] was called *)
  rws_sent : list FrameWriteRequest;      (* taken by the serve loop *)
  rws_calls : nat                         (* requests so far *)
}.

Definition set_handlerHeader (h : option header) (r : responseWriterState) : responseWriterState :=
  mkRWS (rws_stream r) (rws_method r) h (rws_snapHeader r) (rws_trailers r) (rws_status r) (rws_wroteHeader r) (rws_sentHeader r)
    (rws_handlerDone r) (rws_dirty r) (rws_sentContentLen r) (rws_wroteBytes r) (rws_shutdown r) (rws_sent r) (rws_calls r).
Definition set_snapHeader (h : option header) (r : responseWriterState) : responseWriterState :=
  mkRWS (rws_stream r) (rws_method r) (rws_handlerHeader r) h (rws_trailers r) (rws_status r) (rws_wroteHeader r) (rws_sentHeader r)
    (rws_handlerDone r) (rws_dirty r) (rws_sentContentLen r) (rws_wroteBytes r) (rws_shutdown r) (rws_sent r) (rws_calls r).
Definition set_trailers (l : list bytes) (r : responseWriterState) : responseWriterState :=
  mkRWS (rws_stream r) (rws_method r) (rws_handlerHeader r) (rws_snapHeader r) l (rws_status r) (rws_wroteHeader r) (rws_sentHeader r)
    (rws_handlerDone r) (rws_dirty r) (rws_sentContentLen r) (rws_wroteBytes r) (rws_shutdown r) (rws_sent r) (rws_calls r).
Definition set_status (code : Z) (r : responseWriterState) : responseWriterState :=
  mkRWS (rws_stream r) (rws_method r) (rws_handlerHeader r) (rws_snapHeader r) (rws_trailers r) code true (rws_sentHeader r)
    (rws_handlerDone r) (rws_dirty r) (rws_sentContentLen r) (rws_wroteBytes r) (rws_shutdown r) (rws_sent r) (rws_calls r).
Definition set_sentHeader (r : responseWriterState) : responseWriterState :=
  mkRWS (rws_stream r) (rws_method r) (rws_handlerHeader r) (rws_snapHeader r) (rws_trailers r) (rws_status r) (rws_wroteHeader r) true
    (rws_handlerDone r) (rws_dirty r) (rws_sentContentLen r) (rws_wroteBytes r) (rws_shutdown r) (rws_sent r) (rws_calls r).
Definition set_handlerDone (r : responseWriterState) : responseWriterState :=
  mkRWS (rws_stream r) (rws_method r) (rws_handlerHeader r) (rws_snapHeader r) (rws_trailers r) (rws_status r) (rws_wroteHeader r) (rws_sentHeader r)
    true (rws_dirty r) (rws_sentContentLen r) (rws_wroteBytes r) (rws_shutdown r) (rws_sent r) (rws_calls r).
Definition set_dirty (r : responseWriterState) : responseWriterState :=
  mkRWS (rws_stream r) (rws_method r) (rws_handlerHeader r) (rws_snapHeader r) (rws_trailers r) (rws_status r) (rws_wroteHeader r) (rws_sentHeader r)
    (rws_handlerDone r) true (rws_sentContentLen r) (rws_wroteBytes r) (rws_shutdown r) (rws_sent r) (rws_calls r).
Definition set_sentContentLen (n : Z) (r : responseWriterState) : responseWriterState :=
  mkRWS (rws_stream r) (rws_method r) (rws_handlerHeader r) (rws_snapHeader r) (rws_trailers r) (rws_status r) (rws_wroteHeader r) (rws_sentHeader r)
    (rws_handlerDone r) (rws_dirty r) n (rws_wroteBytes r) (rws_shutdown r) (rws_sent r) (rws_calls r).
Definition set_wroteBytes (n : Z) (r : responseWriterState) : responseWriterState :=
  mkRWS (rws_stream r) (rws_method r) (rws_handlerHeader r) (rws_snapHeader r) (rws_trailers r) (rws_status r) (rws_wroteHeader r) (rws_sentHeader r)
    (rws_handlerDone r) (rws_dirty r) (rws_sentContentLen r) n (rws_shutdown r) (rws_sent r) (rws_calls r).
Definition startGracefulShutdown (r : responseWriterState) : responseWriterState :=
  mkRWS (rws_stream r) (rws_method r) (rws_handlerHeader r) (rws_snapHeader r) (rws_trailers r) (rws_status r) (rws_wroteHeader r) (rws_sentHeader r)
    (rws_handlerDone r) (rws_dirty r) (rws_sentContentLen r) (rws_wroteBytes r) true (rws_sent r) (rws_calls r).
Definition requested (wr : option FrameWriteRequest) (r : responseWriterState) : responseWriterState :=
  mkRWS (rws_stream r) (rws_method r) (rws_handlerHeader r) (rws_snapHeader r) (rws_trailers r) (rws_status r) (rws_wroteHeader r) (rws_sentHeader r)
    (rws_handlerDone r) (rws_dirty r) (rws_sentContentLen r) (rws_wroteBytes r) (rws_shutdown r)
    (match wr with Some wr => rws_sent r ++ [wr] | None => rws_sent r end) (S (rws_calls r)).

(** What a handler sees of a failed write. *)
Inductive write_error := errConn (e : serve_error) | ErrBodyNotAllowed | errDeclaredLength.

Definition ErrShortWrite : serve_error := errWrite 0.

Definition isHeadResp (r : responseWriterState) : bool := bool_decide (rws_method r = str "HEAD").

Definition hasTrailers (r : responseWriterState) : bool := 0 <? zlen (rws_trailers r).

Definition hasNonemptyTrailers (r : responseWriterState) : bool :=
  existsb (fun trailer => bool_decide (is_Some (default ∅ (rws_handlerHeader r) !! trailer))) (rws_trailers r).

Definition declareTrailer (k : bytes) (r : responseWriterState) : responseWriterState :=
  let k := CanonicalHeaderKey k in
  if negb (ValidTrailerHeader k) then r
  else if bool_decide (k ∈ rws_trailers r) then r
  else set_trailers (rws_trailers r ++ [k]) r.

(** ** Requests to the serve loop *)
Section response.
Context (deliver reply : nat -> option serve_error) (chan : nat -> nat).
Context (now : bytes) (DetectContentType : bytes -> bytes) (keys : header -> list bytes).

(** [None] is the nil error. *)
Definition writeFrameFromHandler (wr : FrameWriteRequest) (r : responseWriterState) : responseWriterState * option serve_error :=
  match deliver (rws_calls r) with
  | None => (requested (Some wr) r, None)
  | Some e => (requested None r, Some e)
  end.

(** With a header map the call waits for the frame to be written. *)
Definition sc_writeHeaders (w : resHeaders) (h : option header) (r : responseWriterState) : responseWriterState * option serve_error :=
  let n := rws_calls r in
  let errc := match h with Some _ => Some (chan n) | None => None end in
  let '(r, err) := writeFrameFromHandler (mkFWR (Some (writeResHeaders w)) (Some (stream_ptr (rws_stream r))) errc) r in
  match err with
  | Some e => (r, Some e)
  | None => (r, match h with Some _ => reply n | None => None end)
  end.

Definition writeDataFromHandler (p : bytes) (endStream : bool) (r : responseWriterState) : responseWriterState * option serve_error :=
  let n := rws_calls r in
  let wr := mkFWR (Some (writeData (rws_stream r) p endStream)) (Some (stream_ptr (rws_stream r))) (Some (chan n)) in
  let '(r, err) := writeFrameFromHandler wr r in
  match err with
  | Some e => (r, Some e)
  | None => (r, reply n)
  end.

Definition write100ContinueHeaders (r : responseWriterState) : responseWriterState :=
  fst (writeFrameFromHandler (mkFWR (Some (write100ContinueHeadersFrame (rws_stream r))) (Some (stream_ptr (rws_stream r))) None) r).

(** ** The header *)

(** [None] is the panic of [checkWriteHeaderCode]. *)
Definition writeHeader (code : Z) (r : responseWriterState) : option responseWriterState :=
  if rws_wroteHeader r then Some r
  else if (code <? 100) || (code >? 999) then None
  else if (code >=? 100) && (code <=? 199) then
    let h := rws_handlerHeader r in
    let cl := bool_decide (is_Some (default ∅ h !! str "Content-Length")) in
    let te := bool_decide (is_Some (default ∅ h !! str "Transfer-Encoding")) in
    let h := if cl || te then (fun h => Header_Del (Header_Del h (str "Content-Length")) (str "Transfer-Encoding")) <$> h else h in
    let '(r, err) := sc_writeHeaders
      (mkRes (rws_stream r) code (default ∅ h) None (rws_handlerDone r && negb (hasTrailers r)) [] [] []) h r in
    Some (match err with Some _ => set_dirty r | None => r end)
  else
    let r := set_status code r in
    Some (match rws_handlerHeader r with
          | Some h => if bool_decide (h = ∅) then r else set_snapHeader (Some h) r
          | None => r
          end).

(** The loop of [promoteUndeclaredTrailers] adds keys to the map it ranges over: it may
    visit them as well. *)
Fixpoint promoteLoop (ks : list bytes) (r : responseWriterState) : responseWriterState :=
  match ks with
  | [] => r
  | k :: ks =>
      let h := default ∅ (rws_handlerHeader r) in
      promoteLoop ks
        (match h !! k with
         | None => r
         | Some vv =>
             if negb (HasPrefix k TrailerPrefix) then r
             else
               let trailerKey := drop (length TrailerPrefix) k in
               set_handlerHeader (Some (<[CanonicalHeaderKey trailerKey := vv]> h)) (declareTrailer trailerKey r)
         end)
  end.

Definition promoteUndeclaredTrailers (r : responseWriterState) : responseWriterState :=
  let r := match rws_handlerHeader r with Some h => promoteLoop (keys h) r | None => r end in
  if 1 <? zlen (rws_trailers r) then set_trailers (SortStrings (rws_trailers r)) r else r.

(** The part of [writeChunk] that sends the header: whether END_STREAM was on it, or the
    error. *)
Definition sendHeader (p : bytes) (r : responseWriterState) : responseWriterState * (serve_error + bool) :=
  let r := set_sentHeader r in
  let clen := Header_Get (default ∅ (rws_snapHeader r)) (str "Content-Length") in
  let '(r, clen) :=
    if negb (bool_decide (clen = [])) then
      let r := set_snapHeader ((fun h => Header_Del h (str "Content-Length")) <$> rws_snapHeader r) r in
      match ParseUint63 clen with
      | Some cl => (set_sentContentLen cl r, clen)
      | None => (r, [])
      end
    else (r, clen) in
  let clen :=
    if bool_decide (clen = []) && rws_handlerDone r && bodyAllowedForStatus (rws_status r) && ((0 <? zlen p) || negb (isHeadResp r))
    then FormatUint (zlen p) else clen in
  let snap := default ∅ (rws_snapHeader r) in
  let hasContentType := bool_decide (is_Some (snap !! str "Content-Type")) in
  let hasCE := 0 <? zlen (Header_Get snap (str "Content-Encoding")) in
  let ctype :=
    if negb hasCE && negb hasContentType && bodyAllowedForStatus (rws_status r) && (0 <? zlen p) then DetectContentType p else [] in
  let date := if bool_decide (is_Some (snap !! str "Date")) then [] else now in
  let r := fold_left (fun r v => fold_left (fun r k => declareTrailer k r) (foreachHeaderElement v) r) (default [] (snap !! str "Trailer")) r in
  let r :=
    if bool_decide (is_Some (snap !! str "Connection")) then
      let v := Header_Get snap (str "Connection") in
      let r := set_snapHeader (delete (str "Connection") <$> rws_snapHeader r) r in
      if bool_decide (v = str "close") then startGracefulShutdown r else r
    else r in
  let endStream := (rws_handlerDone r && negb (hasTrailers r) && (zlen p =? 0)) || isHeadResp r in
  let '(r, err) := sc_writeHeaders
    (mkRes (rws_stream r) (rws_status r) (default ∅ (rws_snapHeader r)) None endStream date ctype clen) (rws_snapHeader r) r in
  match err with
  | Some e => (set_dirty r, inl e)
  | None => (r, inr endStream)
  end.

(** ** The body *)

(** What follows the header in [writeChunk]. *)
Definition writeBody (p : bytes) (r : responseWriterState) : responseWriterState * (Z * option serve_error) :=
  if isHeadResp r then (r, (zlen p, None))
  else if (zlen p =? 0) && negb (rws_handlerDone r) then (r, (0, None))
  else
    let nonempty := hasNonemptyTrailers r in
    let endStream := rws_handlerDone r && negb nonempty in
    let '(r, err) := if (0 <? zlen p) || endStream then writeDataFromHandler p endStream r else (r, None) in
    match err with
    | Some e => (set_dirty r, (0, Some e))
    | None =>
        if rws_handlerDone r && nonempty then
          let '(r, err) := sc_writeHeaders
            (mkRes (rws_stream r) 0 (default ∅ (rws_handlerHeader r)) (Some (rws_trailers r)) true [] [] []) (rws_handlerHeader r) r in
          (match err with Some _ => set_dirty r | None => r end, (zlen p, err))
        else (r, (zlen p, None))
    end.

Definition writeChunk (r : responseWriterState) (p : bytes) : responseWriterState * (Z * option serve_error) :=
  let r := default r (writeHeader 200 r) in
  let r := if rws_handlerDone r then promoteUndeclaredTrailers r else r in
  if rws_sentHeader r then writeBody p r
  else
    match sendHeader p r with
    | (r, inl e) => (r, (0, Some e))
    | (r, inr true) => (r, (0, None))
    | (r, inr false) => writeBody p r
    end.

(** ** What a handler calls *)
Record responseWriter := mkRW {
  rw_rws : responseWriterState;
  rw_bw : bufioWriter serve_error
}.

Definition newResponseWriter (id : Z) (method : bytes) : responseWriter :=
  mkRW (mkRWS id method None None [] 0 false false false false 0 0 false [] 0%nat) (mkBufio [] None).

(** [Header] with what the handler makes of the map that it returns. *)
Definition rw_SetHeader (h : header) (w : responseWriter) : responseWriter := mkRW (set_handlerHeader (Some h) (rw_rws w)) (rw_bw w).

Definition rw_WriteHeader (code : Z) (w : responseWriter) : option responseWriter :=
  r ← writeHeader code (rw_rws w); Some (mkRW r (rw_bw w)).

(** What [write] does once a header is written.  Three rounds of [bufio.Writer.Write] are
    enough, as many as there are bytes of [WriteString] ([write_total]). *)
Definition rw_accept (isString : bool) (p : bytes) (w : responseWriter) : option (responseWriter * (Z * option write_error)) :=
  if negb (bodyAllowedForStatus (rws_status (rw_rws w))) then Some (w, (0, Some ErrBodyNotAllowed))
  else
    let n := swrap 64 (rws_wroteBytes (rw_rws w) + zlen p) in
    let r := set_wroteBytes n (rw_rws w) in
    if negb (rws_sentContentLen r =? 0) && (n >? rws_sentContentLen r) then Some (mkRW r (rw_bw w), (0, Some errDeclaredLength))
    else
      let written :=
        if isString then bufio_WriteString writeChunk ErrShortWrite handlerChunkWriteSize (S (length p)) r (rw_bw w) p
        else bufio_Write writeChunk ErrShortWrite handlerChunkWriteSize 3 r (rw_bw w) p in
      '(r, b, (n, err)) ← written;
      Some (mkRW r b, (n, match err with Some e => Some (errConn e) | None => None end)).

Definition rw_write (isString : bool) (p : bytes) (w : responseWriter) : option (responseWriter * (Z * option write_error)) :=
  let started := if negb (rws_wroteHeader (rw_rws w)) then rw_WriteHeader 200 w else Some w in
  w ← started; rw_accept isString p w.

Definition rw_Flush (w : responseWriter) : responseWriter :=
  if 0 <? zlen (bf_buf (rw_bw w)) then
    let '(r, b, _) := bufio_Flush writeChunk ErrShortWrite (rw_rws w) (rw_bw w) in mkRW r b
  else mkRW (fst (writeChunk (rw_rws w) [])) (rw_bw w).

Definition rw_handlerDone (w : responseWriter) : responseWriter := rw_Flush (mkRW (set_handlerDone (rw_rws w)) (rw_bw w)).

(** ** Handlers *)
Inductive handler_call :=
| SetHeader (h : header)
| CallWriteHeader (code : Z)
| CallWrite (p : bytes)
| CallWriteString (s : bytes)
| CallFlush
| HandlerPanics.

Inductive call_result := Called | Wrote (n : Z) (err : option write_error).

(** [None] is a panic of the handler. *)
Definition call (c : handler_call) (w : responseWriter) : option (responseWriter * call_result) :=
  match c with
  | SetHeader h => Some (rw_SetHeader h w, Called)
  | CallWriteHeader code => w ← rw_WriteHeader code w; Some (w, Called)
  | CallWrite p => '(w, (n, err)) ← rw_write false p w; Some (w, Wrote n err)
  | CallWriteString s => '(w, (n, err)) ← rw_write true s w; Some (w, Wrote n err)
  | CallFlush => Some (rw_Flush w, Called)
  | HandlerPanics => None
  end.

(** The calls of a handler until it returns or panics ([true]). *)
Fixpoint calls (cs : list handler_call) (w : responseWriter) : responseWriter * list call_result * bool :=
  match cs with
  | [] => (w, [], false)
  | c :: cs =>
      match call c w with
      | None => (w, [], true)
      | Some (w, r) => let '(w, rs, panicked) := calls cs w in (w, r :: rs, panicked)
      end
  end.

Definition runHandler (cs : list handler_call) (w : responseWriter) : responseWriter * list call_result * bool :=
  let '(w, rs, panicked) := calls cs w in
  (if (panicked : bool) then
     let id := rws_stream (rw_rws w) in
     mkRW (fst (writeFrameFromHandler (mkFWR (Some (handlerPanicRST id)) (Some (stream_ptr id)) None) (rw_rws w))) (rw_bw w)
   else rw_handlerDone w, rs, panicked).

Definition handleHeaderListTooLong : list handler_call :=
  [CallWriteHeader 431; CallWriteString (str "<h1>HTTP Error 431</h1><p>Request Header Field(s) Too Large</p>")].
End response.
