(* ===== verification/ServerWriter.v ===== *)
(** * Package http2: the buffered writer of a connection

    Models [bufferedWriter] of src/http2/http2.go over [bufio.Writer], and makes the frame
    writers of HeaderWrite.v over it the [FrameSink] of a server's connection.  The
    connection below is any writer that keeps the contract of [io.Writer]. *)

From S2P Require Import Prelude HpackTable Hpack Frame FrameWrite WriteFrames HeaderWrite WriteSched ServerRequest ServerConn Bufio.

Definition bufWriterPoolBufferSize : Z := Z.shiftl 4 10.

Section writer.
Context {K : Type} (connWrite : K -> bytes -> K * (Z * option serve_error)) (ErrShortWrite : serve_error).

Record bufferedWriter := mkBW {
  bw_w : K;
  bw_bw : option (bufioWriter serve_error)         (* non-nil when data is buffered *)
}.

Definition Available (w : bufferedWriter) : Z :=
  match bw_bw w with None => bufWriterPoolBufferSize | Some b => bufio_Available bufWriterPoolBufferSize b end.

Definition newBufferedWriter (k : K) : bufferedWriter := mkBW k None.

(** Two rounds are enough ([bufio_Write_total]): the first empties the buffer, the second
    writes directly. *)
Definition bw_Write (w : bufferedWriter) (p : bytes) : bufferedWriter * (Z * option serve_error) :=
  let b := default (mkBufio [] None) (bw_bw w) in
  match bufio_Write connWrite ErrShortWrite bufWriterPoolBufferSize 2 (bw_w w) b p with
  | Some (k, b, r) => (mkBW k (Some b), r)
  | None => (w, (0, Some ErrShortWrite))
  end.

Definition bw_Flush (w : bufferedWriter) : bufferedWriter * option serve_error :=
  match bw_bw w with
  | None => (w, None)
  | Some b => let '(k, _, err) := bufio_Flush connWrite ErrShortWrite (bw_w w) b in (mkBW k None, err)
  end.

(** ** The sink of a connection *)
Definition ofFrameError (e : frame_error) : serve_error := errStream e.

#[export] Instance bufferedSink : FrameSink (writeContext bufferedWriter) := {
  fs_writeFrame := HeaderWrite.writeFrame bw_Write bw_Flush ErrShortWrite ofFrameError;
  fs_Available := fun cx => Available (cx_w cx);
  fs_SetMaxDynamicTableSize := fun cx v => (fun e => set_enc e (cx_buf cx) cx) <$> SetMaxDynamicTableSize (cx_enc cx) v
}.
End writer.
