(* ===== verification/ServerSched.v ===== *)
(** * Package http2: what a server's connection needs of its scheduler

    The class [ServerScheduler]: the requests that wait in a [WriteScheduler], and what its
    methods do to them when they return, in whatever order they are called.  The random scheduler is an instance; for
    the priority scheduler see ServerPriority. *)

From S2P Require Import Prelude Flow Frame WriteFrames WriteSched.

(** [orig] leaves a queue: as [wr], or its first part as [wr] while [more] stays. *)
Definition taken (orig wr : FrameWriteRequest) (more : list FrameWriteRequest) : Prop :=
  (wr = orig /\ more = []) \/ exists r, more = [r] /\ split_of orig wr r.

Definition keeps_control (l l' : list FrameWriteRequest) : Prop := forall wr, isControl wr = true -> wr ∈ l -> wr ∈ l'.

Class ServerScheduler (S C : Type) `{WriteScheduler S C} := {
  sd_ok : S -> Prop;
  sd_waiting : S -> list FrameWriteRequest;
  sd_open_law s id pusher s' :
    sd_ok s -> Forall (fun wr => key wr <> Some id) (sd_waiting s) -> ws_OpenStream s id pusher = Some s' ->
    sd_ok s' /\ sd_waiting s' ⊆+ sd_waiting s;
  sd_close_law s id s' :
    sd_ok s -> ws_CloseStream s id = Some s' ->
    sd_ok s' /\ sd_waiting s' ⊆+ sd_waiting s /\ Forall (fun wr => key wr <> Some id) (sd_waiting s');
  sd_adjust_law s id prio s' :
    sd_ok s -> ws_AdjustStream s id prio = Some s' -> sd_ok s' /\ sd_waiting s' ⊆+ sd_waiting s;
  sd_push_law s wr s' :
    sd_ok s -> ws_Push s wr = Some s' -> sd_ok s' /\ sd_waiting s' ⊆+ wr :: sd_waiting s;
  sd_pop_law c mfs fl s fl' s' wr ok :
    sd_ok s -> ws_Pop c mfs fl s = Some (fl', s', (wr, ok)) ->
    sd_ok s' /\
    if (ok : bool) then exists orig more rest, sd_waiting s ≡ₚ orig :: rest /\ sd_waiting s' ⊆+ more ++ rest /\ taken orig wr more
    else sd_waiting s' ⊆+ sd_waiting s;
  (** Frames without a stream go first, and none of them is lost. *)
  sd_control_first : Prop;
  sd_control_open s id pusher s' :
    sd_control_first -> ws_OpenStream s id pusher = Some s' -> keeps_control (sd_waiting s) (sd_waiting s');
  sd_control_close s id s' :
    sd_control_first -> sd_ok s -> ws_CloseStream s id = Some s' -> keeps_control (sd_waiting s) (sd_waiting s');
  sd_control_adjust s id prio s' :
    sd_control_first -> ws_AdjustStream s id prio = Some s' -> keeps_control (sd_waiting s) (sd_waiting s');
  sd_control_push s wr s' :
    sd_control_first -> sd_ok s -> ws_Push s wr = Some s' -> keeps_control (wr :: sd_waiting s) (sd_waiting s');
  sd_control_pop c mfs fl s fl' s' wr ok :
    sd_control_first -> sd_ok s -> ws_Pop c mfs fl s = Some (fl', s', (wr, ok)) ->
    if (ok : bool) then keeps_control (sd_waiting s) (wr :: sd_waiting s') /\
      (isControl wr = false -> Forall (fun x => isControl x = false) (sd_waiting s))
    else keeps_control (sd_waiting s) (sd_waiting s')
}.

(** ** A queue *)
Lemma Consume_parts mfs fl wr n fl' c r k : Consume mfs fl wr n = Some (fl', (c, r, k)) ->
  k = 0 \/ (k = 1 /\ c = wr) \/ (k = 2 /\ split_of wr c r).
Proof.
  unfold Consume. destruct (wr_write wr) as [[| | |id p es| | | | | | | |]|] eqn:Ew; intros E; try (injection E as <- <- <- <-; auto).
  destruct (Z.eqb_spec (zlen p) 0); [injection E as <- <- <- <-; auto|].
  destruct (wr_stream wr) as [s|] eqn:Es; [|done]. simpl in E.
  destruct (flow_available fl (s_flow s)) as [a0|]; [|done]. simpl in E.
  set (a := if mfs <? _ then _ else _) in E. destruct (Z.leb_spec a 0); [injection E as <- <- <- <-; auto|].
  destruct (zlen p >? a) eqn:Ea.
  - destruct (flow_take _ _ _) as [fl1|]; [|done]. injection E as <- <- <- <-. right. right. split; [done|].
    assert (0 < zlen (take (Z.to_nat a) p) /\ 0 < zlen (drop (Z.to_nat a) p) /\
            zlen p = zlen (take (Z.to_nat a) p) + zlen (drop (Z.to_nat a) p)) as (H1 & H2 & H3).
    { unfold zlen in *. rewrite length_take, length_drop. lia. }
    assert (take (Z.to_nat a) p <> []) by (intros E0; rewrite E0 in H1; done).
    assert (drop (Z.to_nat a) p <> []) by (intros E0; rewrite E0 in H2; done).
    assert (p <> []) by (intros ->; done).
    unfold split_of, DataSize, carried. rewrite Ew. cbn [wr_write wr_stream wr_done].
    split; [|split_and!; done].
    rewrite !(bool_decide_eq_false_2 (_ = [])) by done. rewrite !orb_false_r. cbn. rewrite app_nil_r, app_assoc, <- map_app.
    by rewrite take_drop.
  - destruct (flow_take _ _ _) as [fl1|]; [|done]. injection E as <- <- <- <-. auto.
Qed.

(** What [consume] takes from the front, in whatever state the windows are. *)
Lemma queue_consume_taken mfs fl q n fl' q' wr ok :
  queue_consume mfs fl q n = Some (fl', q', (wr, ok)) -> if ok then sent q wr q' else q' = q.
Proof.
  unfold queue_consume. destruct q as [|hd tl]; [intros [= <- <- <- <-]; done|].
  destruct (Consume mfs fl hd n) as [[fl1 [[c r] k]]|] eqn:E; [|done]. simpl.
  destruct (Consume_parts _ _ _ _ _ _ _ _ E) as [->|[[-> ->]|[-> Hs]]]; simpl; intros [= <- <- <- <-]; [done|by exists hd, tl; auto|].
  exists hd, tl. split; [done|]. right. by exists r.
Qed.

Lemma sent_taken q wr q' : sent q wr q' -> exists orig more tl, q = orig :: tl /\ q' = more ++ tl /\ taken orig wr more.
Proof.
  intros (hd & tl & -> & [[-> ->]|(r & -> & Hs)]).
  - exists hd, [], tl. split; [done|]. split; [done|]. by left.
  - exists hd, [r], tl. split; [done|]. split; [done|]. right. by exists r.
Qed.

(** ** Queues by name *)
Definition queues `{Countable K} (m : gmap K writeQueue) : list FrameWriteRequest := concat (map snd (map_to_list m)).

Section queues.
Context `{Countable K}.
Implicit Types m : gmap K writeQueue.

Lemma queues_insert m i q : queues (<[i := q]> m) ≡ₚ q ++ queues (delete i m).
Proof.
  unfold queues. rewrite <- insert_delete_eq. rewrite map_to_list_insert by apply lookup_delete_eq. done.
Qed.

Lemma queues_split m i : queues m ≡ₚ default [] (m !! i) ++ queues (delete i m).
Proof. destruct (m !! i) as [q|] eqn:E; [rewrite <- (queues_insert m i q); by rewrite insert_id|]. simpl. by rewrite delete_id. Qed.

Lemma elem_of_queues m wr : wr ∈ queues m <-> exists i q, m !! i = Some q /\ wr ∈ q.
Proof.
  unfold queues. rewrite <- flat_map_concat_map, list_elem_of_In, in_flat_map. split.
  - intros ([i q] & Hi & Hw). exists i, q. rewrite <- elem_of_map_to_list. by rewrite !list_elem_of_In.
  - intros (i & q & Hi & Hw). exists (i, q). by rewrite <- !list_elem_of_In, elem_of_map_to_list.
Qed.

(** One queue loses its front. *)
Lemma queues_sent m i q wr q' : m !! i = Some q -> sent q wr q' ->
  exists orig more rest, queues m ≡ₚ orig :: rest /\ queues (<[i := q']> m) ≡ₚ more ++ rest /\ taken orig wr more.
Proof.
  intros Hq (orig & more & tl & -> & -> & Ht)%sent_taken. exists orig, more, (tl ++ queues (delete i m)).
  split; [by rewrite (queues_split m i), Hq|]. split; [by rewrite queues_insert, app_assoc|done].
Qed.

Lemma queues_cleared m i : queues (<[i := []]> m) ⊆+ queues m.
Proof. rewrite queues_insert, (queues_split m i). simpl. apply submseteq_inserts_l. done. Qed.
End queues.

(** ** The random scheduler *)
Definition random_waiting (ws : randomWriteScheduler) : list FrameWriteRequest := rs_zero ws ++ queues (rs_sq ws).

(** Queues hold their own stream's requests; those in the pool are empty. *)
Definition random_sorted (ws : randomWriteScheduler) : Prop :=
  Forall (fun wr => key wr = None) (rs_zero ws) /\
  (forall id q, rs_sq ws !! id = Some q -> Forall (fun wr => key wr = Some id) q) /\ Forall (fun q => q = []) (rs_queuePool ws).

Lemma pool_put_empty p q : Forall (fun q => q = []) p -> Forall (fun q : writeQueue => q = []) (pool_put p q).
Proof. intros Hp. apply Forall_app. split; [done|]. by repeat constructor. Qed.

Lemma pool_get_empty p : Forall (fun q => q = []) p -> Forall (fun q => q = []) (pool_get p).1 /\ (pool_get p).2 = [] :> writeQueue.
Proof.
  intros Hp. unfold pool_get. destruct (last p) as [q|] eqn:E; [|done]. split; [by apply Forall_take|].
  apply last_Some_elem_of in E. rewrite Forall_forall in Hp. by apply Hp.
Qed.

Lemma isControl_key wr : isControl wr = bool_decide (key wr = None).
Proof. unfold isControl, key. by destruct (wr_stream wr). Qed.

Lemma key_StreamID wr : isControl wr = false -> key wr = Some (StreamID wr).
Proof. unfold isControl, key, StreamID. by destruct (wr_stream wr). Qed.

Lemma taken_key orig wr more : taken orig wr more -> key wr = key orig /\ Forall (fun r => key r = key orig) more.
Proof.
  intros [[-> ->]|(r & -> & _ & Hc & Hr & _)]; [done|]. unfold key. rewrite Hc. split; [done|]. constructor; [by rewrite Hr|done].
Qed.

Lemma sent_all (P : FrameWriteRequest -> Prop) q wr q' :
  (forall x y, P x -> key y = key x -> P y) -> Forall P q -> sent q wr q' -> Forall P q'.
Proof.
  intros Hk Hq (orig & more & tl & -> & -> & Ht)%sent_taken. apply Forall_cons in Hq as [Ho Htl]. apply Forall_app. split; [|done].
  destruct (taken_key _ _ _ Ht) as [_ Hm]. eapply Forall_impl; [exact Hm|]. intros r Hr. by apply (Hk orig).
Qed.

Lemma random_close_taken ws id ws' :
  random_sorted ws -> random_CloseStream ws id = Some ws' ->
  random_sorted ws' /\ random_waiting ws' ⊆+ random_waiting ws /\ Forall (fun wr => key wr <> Some id) (random_waiting ws').
Proof.
  intros (Hz & Hs & Hp) E. unfold random_CloseStream in E.
  assert (forall ws', rs_zero ws' = rs_zero ws -> rs_sq ws' = delete id (rs_sq ws) -> Forall (fun q => q = []) (rs_queuePool ws') ->
    random_sorted ws' /\ random_waiting ws' ⊆+ random_waiting ws /\ Forall (fun wr => key wr <> Some id) (random_waiting ws')) as H.
  { intros w Ez Es Ep. unfold random_sorted, random_waiting. rewrite Ez, Es. split; [|split].
    - split; [done|]. split; [|done]. intros i q [_ Hq]%lookup_delete_Some. by apply Hs.
    - apply submseteq_app; [done|]. rewrite (queues_split (rs_sq ws) id). by apply submseteq_inserts_l.
    - apply Forall_app. split; [eapply Forall_impl; [exact Hz|]; by intros wr ->|]. apply Forall_forall.
      intros wr (i & q & [Hne Hq]%lookup_delete_Some & Hin)%elem_of_queues. specialize (Hs i q Hq). rewrite Forall_forall in Hs.
      rewrite (Hs wr Hin). congruence. }
  destruct (rs_sq ws !! id) as [q|] eqn:Eq; injection E as <-; apply H; cbn; try done; [by apply pool_put_empty|by rewrite delete_id].
Qed.

Lemma random_push_taken ws wr ws' :
  random_sorted ws -> random_Push ws wr = Some ws' -> random_sorted ws' /\ random_waiting ws' ⊆+ wr :: random_waiting ws.
Proof.
  intros (Hz & Hs & Hp) E. unfold random_Push in E. destruct (isControl wr) eqn:Ec.
  { injection E as <-. split; [split; [|done]|].
    - apply Forall_app. split; [done|]. constructor; [|done]. rewrite isControl_key in Ec. by apply bool_decide_eq_true in Ec.
    - unfold random_waiting, queue_push. cbn [rs_zero rs_sq]. rewrite <- app_assoc. cbn [app]. by rewrite <- Permutation_middle. }
  set (pq := match rs_sq ws !! StreamID wr with Some q => _ | None => _ end) in E.
  assert (pq.2 = default [] (rs_sq ws !! StreamID wr) /\ Forall (fun q => q = []) pq.1) as [Hq Hpq].
  { unfold pq. destruct (rs_sq ws !! StreamID wr); [done|]. by destruct (pool_get_empty _ Hp). }
  destruct pq as [pool q]. cbn in Hq, Hpq. injection E as <-. split.
  - split; [done|]. split; [|done]. cbn [rs_sq]. intros i q' [[<- <-]|[_ Hi]]%lookup_insert_Some; [|by apply (Hs i)].
    apply Forall_app. split; [|constructor; [by apply key_StreamID|done]].
    subst q. destruct (rs_sq ws !! StreamID wr) eqn:El; [by apply Hs|done].
  - unfold random_waiting, queue_push. cbn [rs_zero rs_sq]. rewrite queues_insert, (queues_split (rs_sq ws) (StreamID wr)), <- Hq. 
    rewrite <- app_assoc. cbn [app]. rewrite !(app_assoc (rs_zero ws)). by rewrite <- Permutation_middle.
Qed.

(** What the loop takes, and that nothing changes if it takes nothing. *)
Lemma random_popLoop_taken mfs ids : forall fl ws fl' ws' wr ok,
  random_popLoop mfs fl ws ids = Some (fl', ws', (wr, ok)) ->
  rs_zero ws' = rs_zero ws /\ (Forall (fun q => q = []) (rs_queuePool ws) -> Forall (fun q => q = []) (rs_queuePool ws')) /\
  if ok then exists id q q', rs_sq ws !! id = Some q /\ sent q wr q' /\
    (rs_sq ws' = <[id := q']> (rs_sq ws) \/ q' = [] /\ rs_sq ws' = delete id (rs_sq ws))
  else rs_sq ws' = rs_sq ws.
Proof.
  induction ids as [|id ids IH]; intros fl ws fl' ws' wr ok E; simpl in E; [by injection E as <- <- <- <-|].
  destruct (rs_sq ws !! id) as [q|] eqn:Hq; [|done]. simpl in E.
  destruct (queue_consume mfs fl q MaxInt32) as [[[fl2 q2] [w2 ok2]]|] eqn:Ec; [|done]. simpl in E.
  apply queue_consume_taken in Ec. destruct ok2.
  - injection E as <- <- <- <-. destruct (queue_empty q2) eqn:Ee; cbn [rs_zero rs_sq rs_queuePool].
    + split; [done|]. split; [apply pool_put_empty|]. exists id, q, q2. split; [done|]. split; [done|]. right. split; [|done].
      destruct q2; [done|]. unfold queue_empty in Ee. rewrite zlen_cons in Ee. pose proof (zlen_nonneg q2). lia.
    + split; [done|]. split; [done|]. exists id, q, q2. auto.
  - subst q2. specialize (IH _ _ _ _ _ _ E). cbn [rs_zero rs_sq rs_queuePool] in IH. by rewrite insert_id in IH.
Qed.

Lemma random_pop_taken order mfs fl ws fl' ws' wr ok :
  random_sorted ws -> random_Pop order mfs fl ws = Some (fl', ws', (wr, ok)) ->
  random_sorted ws' /\
  if ok then exists orig more rest, random_waiting ws ≡ₚ orig :: rest /\ random_waiting ws' ⊆+ more ++ rest /\ taken orig wr more
  else random_waiting ws' ⊆+ random_waiting ws.
Proof.
  intros (Hz & Hs & Hp) E. unfold random_Pop, queue_empty in E. destruct (rs_zero ws) as [|w z] eqn:Ez; simpl in E.
  - destruct (random_popLoop_taken _ _ _ _ _ _ _ _ E) as (Ez' & Hp' & H). unfold random_sorted, random_waiting. rewrite Ez', Ez. cbn.
    destruct ok; [|rewrite H; split; [split; [done|]; split; auto|done]].
    destruct H as (id & q & q' & Hq & Hsent & Hsq). 
    assert (Forall (fun wr => key wr = Some id) q') as Hq'.
    { apply (sent_all _ q wr); [intros x y Hx Hy; congruence|by apply Hs|done]. }
    split.
    + split; [done|]. split; [|auto]. intros i qi Hi. destruct Hsq as [Hsq|[_ Hsq]]; rewrite Hsq in Hi.
      * apply lookup_insert_Some in Hi as [[<- <-]|[_ Hi]]; [done|by apply Hs].
      * apply lookup_delete_Some in Hi as [_ Hi]. by apply Hs.
    + destruct (queues_sent _ _ _ _ _ Hq Hsent) as (orig & more & rest & H1 & H2 & Ht). exists orig, more, rest.
      split; [done|]. split; [|done]. rewrite <- H2. destruct Hsq as [->|[-> ->]]; [done|]. rewrite queues_insert. done.
  - injection E as <- <- <- <-. apply Forall_cons in Hz as [Hw Hz]. split; [by split; [|split]|].
    exists w, [], (z ++ queues (rs_sq ws)). unfold random_waiting. rewrite Ez. split; [done|]. split; [done|]. by left.
Qed.

Lemma random_streams ws : random_sorted ws -> Forall (fun x => isControl x = false) (queues (rs_sq ws)).
Proof.
  intros (_ & Hs & _). apply Forall_forall. intros wr (i & q & Hq & Hin)%elem_of_queues. specialize (Hs i q Hq).
  rewrite Forall_forall in Hs. rewrite isControl_key, (Hs wr Hin). done.
Qed.

Lemma random_zero_control ws ws' : (random_sorted ws) -> rs_zero ws' = rs_zero ws -> keeps_control (random_waiting ws) (random_waiting ws').
Proof.
  intros Hok Ez wr Hc Hin. unfold random_waiting in *. rewrite Ez. apply elem_of_app in Hin as [Hin|Hin]; [apply elem_of_app; by left|].
  pose proof (random_streams ws Hok) as Hs. rewrite Forall_forall in Hs. rewrite (Hs wr Hin) in Hc. done.
Qed.

#[global] Program Instance random_server : ServerScheduler randomWriteScheduler (gmap Z writeQueue -> list Z) := {
  sd_ok := random_sorted;
  sd_waiting := random_waiting;
  sd_control_first := True
}.
Next Obligation. simpl. intros s id pusher s' Hok _ [= ->]. done. Qed.
Next Obligation. simpl. intros s id s' Hok E. by apply random_close_taken. Qed.
Next Obligation. simpl. intros s id prio s' Hok [= ->]. done. Qed.
Next Obligation. simpl. intros s wr s' Hok E. by apply random_push_taken. Qed.
Next Obligation. simpl. intros c mfs fl s fl' s' wr ok Hok E. by apply (random_pop_taken c mfs fl s fl'). Qed.
Next Obligation. simpl. intros s id pusher s' _ [= ->]. by intros x. Qed.
Next Obligation.
  simpl. intros s id s' _ Hok E. apply random_zero_control; [done|].
  unfold random_CloseStream in E. destruct (rs_sq s !! id); by injection E as <-.
Qed.
Next Obligation. simpl. intros s id prio s' _ [= ->]. by intros x. Qed.
Next Obligation.
  simpl. intros s wr s' _ Hok E. unfold random_Push in E. destruct (isControl wr) eqn:Ec.
  - injection E as <-. intros x Hx Hin. unfold random_waiting, queue_push in *. cbn [rs_zero rs_sq]. rewrite <- app_assoc.
    set_solver.
  - intros x Hx [->|Hin]%elem_of_cons; [congruence|]. refine (random_zero_control s s' Hok _ x Hx Hin).
    destruct (match rs_sq s !! StreamID wr with Some q => _ | None => _ end) as [pool q]. by injection E as <-.
Qed.
Next Obligation.
  simpl. intros c mfs fl s fl' s' wr ok _ Hok E. pose proof (random_streams s Hok) as Hst. unfold random_Pop, queue_empty in E.
  destruct (rs_zero s) as [|w z] eqn:Ez; simpl in E.
  - destruct (random_popLoop_taken _ _ _ _ _ _ _ _ E) as (Ez' & _). destruct ok.
    + split; [|intros _; unfold random_waiting; by rewrite Ez]. intros x Hx Hin. right.
      by apply (random_zero_control s s').
    + by apply random_zero_control.
  - injection E as <- <- <- <-. destruct Hok as (Hz & _ & _). rewrite Ez in Hz. apply Forall_cons in Hz as [Hw _].
    split; [|by rewrite isControl_key, Hw]. unfold random_waiting. rewrite Ez. intros x _ Hx. exact Hx.
Qed.

Lemma random_new_sorted : sd_ok NewRandomWriteScheduler /\ sd_waiting NewRandomWriteScheduler = [].
Proof. done. Qed.
