(* ===== verification/ServerPriority.v ===== *)
(** * Package http2: the priority scheduler below a server

    The priority scheduler is an instance of [ServerScheduler]: whatever a client does to
    the tree, a method that returns keeps the requests that wait, and [CloseStream] leaves
    none of its stream. *)

From S2P Require Import Prelude Flow Frame WriteFrames WriteSched PriorityTree PrioritySched PriorityKept ServerSched.

(** ** The invariant *)
Definition priority_waiting (ws : priorityWriteScheduler) : list FrameWriteRequest := queues (pn_q <$> pw_heap ws).

(** The requests of an open node's stream wait in its queue only. *)
Definition at_home (h : heap) (nodes : gmap Z node_ptr) : Prop :=
  forall id n nd, nodes !! id = Some n -> h !! n = Some nd ->
  pn_id nd = id /\
  (pn_state nd = priorityNodeOpen -> forall b nb wr, h !! b = Some nb -> wr ∈ pn_q nb -> key wr = Some id -> b = n).

Definition priority_sorted (ws : priorityWriteScheduler) : Prop :=
  at_home (pw_heap ws) (pw_nodes ws) /\ (forall id n, pw_nodes ws !! id = Some n -> (n < pw_fresh ws)%nat) /\
  Forall (fun q => q = []) (pw_queuePool ws).

Lemma kept_queues h h' : kept h h' -> pn_q <$> h = pn_q <$> h'.
Proof.
  intros Hk. apply map_eq. intros p. rewrite !lookup_fmap. specialize (Hk p).
  destruct (h !! p) as [nd|], (h' !! p) as [nd'|]; try done. cbn in *. unfold core in Hk. congruence.
Qed.

Lemma kept_at_home h h' nodes : kept h h' -> at_home h nodes -> at_home h' nodes.
Proof.
  intros Hk Hh id n nd' Hn Hnd'. destruct (kept_node _ _ _ _ Hk Hnd') as (nd & Hnd & [= E1 E2 E3]).
  destruct (Hh id n nd Hn Hnd) as [Hid Ho]. split; [congruence|]. intros Hs b nb' wr Hb' Hin Hkey.
  destruct (kept_node _ _ _ _ Hk Hb') as (nb & Hb & [= F1 F2 F3]). apply (Ho ltac:(congruence) b nb wr Hb); [congruence|done].
Qed.

Lemma at_home_sub h nodes nodes' : nodes' ⊆ nodes -> at_home h nodes -> at_home h nodes'.
Proof. intros Hs Hh id n nd Hn. apply (Hh id n nd). by eapply lookup_weaken. Qed.

Lemma kept_sorted ws ws' :
  kept (pw_heap ws) (pw_heap ws') -> pw_nodes ws' ⊆ pw_nodes ws -> pw_queuePool ws' = pw_queuePool ws ->
  pw_fresh ws' = pw_fresh ws ->
  priority_sorted ws -> priority_sorted ws' /\ priority_waiting ws' = priority_waiting ws.
Proof.
  intros Hk Hn Hp Hf (Hh & Hl & Hq). split; [split; [|split; [|by rewrite Hp]]|].
  - apply (kept_at_home _ _ _ Hk). by eapply at_home_sub.
  - intros id n Hid. rewrite Hf. apply (Hl id). by eapply lookup_weaken.
  - unfold priority_waiting. by rewrite (kept_queues _ _ Hk).
Qed.

(** What the helper operations keep. *)
Definition same_queues (ws ws' : priorityWriteScheduler) : Prop :=
  kept (pw_heap ws) (pw_heap ws') /\ pw_nodes ws' ⊆ pw_nodes ws /\ pw_queuePool ws' = pw_queuePool ws /\
  pw_fresh ws' = pw_fresh ws.

Lemma same_queues_trans ws1 ws2 ws3 : same_queues ws1 ws2 -> same_queues ws2 ws3 -> same_queues ws1 ws3.
Proof. intros (H1 & H2 & H3 & H4) (G1 & G2 & G3 & G4). split; [by eapply pkept_trans|]. split; [by etrans|split; congruence]. Qed.

Lemma on_heap_same ws f ws' : (forall h', f (pw_heap ws) = Some h' -> kept (pw_heap ws) h') -> on_heap ws f = Some ws' -> same_queues ws ws'.
Proof. intros Hf E. apply bind_Some in E as (h' & E & [= <-]). by split; [apply Hf|]. Qed.

Lemma removeNode_same ws n ws' : removeNode ws n = Some ws' -> same_queues ws ws'.
Proof.
  unfold removeNode. intros E. step_in E. step_in E. step_in E. step_in E. step_in E.
  apply (same_queues_trans _ x0). { eapply on_heap_same, H0. intros h'. apply moveKids_kept. }
  apply (same_queues_trans _ x1). { eapply on_heap_same, H1. intros h'. apply setParent_kept. }
  split; [done|]. split; [apply delete_subseteq|done].
Qed.

Lemma addClosedOrIdleNode_same get set max ws n ws' :
  (forall l ws, same_queues ws (set l ws)) -> addClosedOrIdleNode get set max ws n = Some ws' -> same_queues ws ws'.
Proof.
  intros Hset. unfold addClosedOrIdleNode. destruct (max =? 0); [intros [= <-]; done|]. intros E. step_in E. step_in E.
  apply (same_queues_trans _ x); [|apply Hset]. destruct (zlen (get ws) =? max); [|by injection H as <-].
  step_in H. step_in H. step_in H. apply (same_queues_trans _ x1); [by eapply removeNode_same|apply Hset].
Qed.

Lemma same_queues_sorted ws ws' : same_queues ws ws' -> priority_sorted ws ->
  priority_sorted ws' /\ priority_waiting ws' = priority_waiting ws.
Proof. intros (H1 & H2 & H3 & H4). by apply kept_sorted. Qed.

(** ** The operations *)
Lemma newNode_spec ws id st ws1 n : priority_sorted ws -> newNode ws id st = (ws1, n) ->
  n = pw_fresh ws /\ pw_heap ws1 = <[n := mkNode [] id priorityDefaultWeight st 0 0 None None None None]> (pw_heap ws) /\
  pw_nodes ws1 = pw_nodes ws /\ Forall (fun q => q = []) (pw_queuePool ws1) /\ pw_fresh ws1 = S n.
Proof.
  intros (_ & _ & Hp) E. unfold newNode in E. destruct (pool_get_empty _ Hp) as [Hp1 Hq].
  destruct (pool_get (pw_queuePool ws)) as [pool q]. cbn in Hp1, Hq. subst q. injection E as <- <-. done.
Qed.

(** A node that is idle, or whose stream has no requests. *)
Lemma add_node ws id st ws1 n ws2 f :
  priority_sorted ws -> (st <> priorityNodeOpen \/ Forall (fun wr => key wr <> Some id) (priority_waiting ws)) ->
  newNode ws id st = (ws1, n) -> on_heap ws1 f = Some ws2 -> (forall h', f (pw_heap ws1) = Some h' -> kept (pw_heap ws1) h') ->
  let ws3 := set_nodes (<[id := n]> (pw_nodes ws2)) ws2 in
  priority_sorted ws3 /\ priority_waiting ws3 ⊆+ priority_waiting ws.
Proof.
  intros Hok Hid E1 E2 Hf ws3. destruct (newNode_spec _ _ _ _ _ Hok E1) as (Hn & Hh & Hns & Hp & Hfr). destruct Hok as (Hhome & Hl & _).
  apply bind_Some in E2 as (h' & E2 & [= <-]). specialize (Hf h' E2).
  assert (at_home (pw_heap ws1) (<[id := n]> (pw_nodes ws1))) as H1.
  { rewrite Hh, Hns. intros i m nd Hi Hm. apply lookup_insert_Some in Hi as [[<- <-]|[_ Hi]].
    - rewrite lookup_insert_eq in Hm. injection Hm as <-. split; [done|]. cbn. intros Hst b nb wr Hb Hin Hk.
      destruct Hid as [?|Hid]; [done|]. apply lookup_insert_Some in Hb as [[<- <-]|[_ Hb]]; [done|].
      rewrite Forall_forall in Hid. exfalso. refine (Hid wr _ Hk). apply elem_of_queues. exists b, (pn_q nb).
      split; [by rewrite lookup_fmap, Hb|done].
    - specialize (Hl i m Hi). rewrite lookup_insert_ne in Hm by lia. destruct (Hhome i m nd Hi Hm) as [Hi' Ho]. split; [done|].
      intros Hst b nb wr [[<- <-]|[_ Hb]]%lookup_insert_Some; [by intros Hin%not_elem_of_nil|]. by apply Ho. }
  split; [split; [|split]|].
  - cbn. by apply (kept_at_home (pw_heap ws1)).
  - cbn. intros i m [[<- <-]|[_ Hi]]%lookup_insert_Some; [lia|]. rewrite Hns in Hi. specialize (Hl i m Hi). lia.
  - done.
  - unfold priority_waiting. cbn. rewrite <- (kept_queues _ _ Hf), Hh, fmap_insert. apply queues_cleared.
Qed.

Lemma OpenStream_sorted ws id pusher ws' :
  priority_sorted ws -> Forall (fun wr => key wr <> Some id) (priority_waiting ws) -> OpenStream ws id pusher = Some ws' ->
  priority_sorted ws' /\ priority_waiting ws' ⊆+ priority_waiting ws.
Proof.
  intros Hok Hid E. unfold OpenStream in E. destruct (pw_nodes ws !! id) as [n|] eqn:En.
  - step_in E. step_in E; [done|]. apply bind_Some in E as (h' & E & [= <-]). apply bind_Some in E as (nd & Hnd & [= <-]).
    destruct Hok as (Hh & Hl & Hp).
    assert (pn_q <$> <[n := set_state priorityNodeOpen nd]> (pw_heap ws) = pn_q <$> pw_heap ws) as Eq.
    { rewrite fmap_insert. apply insert_id. by rewrite lookup_fmap, Hnd. }
    split; [split; [|done]|unfold priority_waiting; cbn; by rewrite Eq]. cbn.
    assert (forall b nb' wr, <[n := set_state priorityNodeOpen nd]> (pw_heap ws) !! b = Some nb' -> wr ∈ pn_q nb' ->
      exists nb, pw_heap ws !! b = Some nb /\ wr ∈ pn_q nb) as Hold.
    { intros b nb' wr [[<- <-]|[_ Hb]]%lookup_insert_Some; eauto. }
    destruct (Hh id n nd En Hnd) as [Hn _].
    intros i m nd' Hi Hm. destruct (decide (i = id)) as [->|Hne].
    + assert (m = n) as -> by congruence. rewrite lookup_insert_eq in Hm. injection Hm as <-. split; [done|].
      intros _ b nb' wr Hb Hin Hk. destruct (Hold b nb' wr Hb Hin) as (nb & Hb0 & Hin0).
      rewrite Forall_forall in Hid. exfalso. refine (Hid wr _ Hk). apply elem_of_queues. exists b, (pn_q nb).
      split; [by rewrite lookup_fmap, Hb0|done].
    + apply lookup_insert_Some in Hm as [[<- <-]|[_ Hm]].
      { destruct (Hh i n nd Hi Hnd) as [Hn' _]. congruence. }
      destruct (Hh i m nd' Hi Hm) as [Hi' Ho]. split; [done|]. intros Hst b nb' wr Hb Hin Hk.
      destruct (Hold b nb' wr Hb Hin) as (nb & Hb0 & Hin0). by apply (Ho Hst b nb wr).
  - destruct (newNode ws id priorityNodeOpen) as [ws1 n] eqn:E1. step_in E.
    destruct (add_node _ _ _ _ _ _ _ Hok (or_intror Hid) E1 H ltac:(intros h'; apply setParent_kept)) as [H1 H2].
    injection E as <-. destruct (_ >? _); done.
Qed.

(** The node whose queue is emptied or extended. *)
Lemma at_home_push h nodes n nd wr :
  at_home h nodes -> h !! n = Some nd -> (forall id, key wr = Some id -> forall m, nodes !! id = Some m -> m = n) ->
  at_home (<[n := set_q (pn_q nd ++ [wr]) nd]> h) nodes.
Proof.
  intros Hh Hn Hk id m ndm Hm Hndm.
  assert (exists nd0, h !! m = Some nd0 /\ pn_id nd0 = pn_id ndm /\ pn_state nd0 = pn_state ndm) as (nd0 & Hnd0 & Ei & Es).
  { apply lookup_insert_Some in Hndm as [[<- <-]|[_ Hndm]]; eauto. }
  destruct (Hh id m nd0 Hm Hnd0) as [Hid Ho]. split; [congruence|]. intros Hst b nb x Hb Hin Hx. rewrite <- Es in Hst.
  apply lookup_insert_Some in Hb as [[<- <-]|[_ Hb]]; [|by apply (Ho Hst b nb x)].
  cbn in Hin. apply elem_of_app in Hin as [Hin| ->%list_elem_of_singleton]; [by apply (Ho Hst n nd x)|]. symmetry. by apply (Hk id).
Qed.

Lemma at_home_less h nodes n nd q :
  at_home h nodes -> h !! n = Some nd -> (forall x, x ∈ q -> exists y, y ∈ pn_q nd /\ key y = key x) ->
  at_home (<[n := set_q q nd]> h) nodes.
Proof.
  intros Hh Hn Hq id m ndm Hm Hndm.
  assert (exists nd0, h !! m = Some nd0 /\ pn_id nd0 = pn_id ndm /\ pn_state nd0 = pn_state ndm) as (nd0 & Hnd0 & Ei & Es).
  { apply lookup_insert_Some in Hndm as [[<- <-]|[_ Hndm]]; eauto. }
  destruct (Hh id m nd0 Hm Hnd0) as [Hid Ho]. split; [congruence|]. intros Hst b nb x Hb Hin Hx. rewrite <- Es in Hst.
  apply lookup_insert_Some in Hb as [[<- <-]|[_ Hb]]; [|by apply (Ho Hst b nb x)].
  destruct (Hq x Hin) as (y & Hy & Hk). apply (Ho Hst n nd y); [done..|congruence].
Qed.

Lemma Push_sorted ws wr ws' :
  priority_sorted ws -> Push ws wr = Some ws' -> priority_sorted ws' /\ priority_waiting ws' ⊆+ wr :: priority_waiting ws.
Proof.
  intros (Hh & Hl & Hp) E. unfold Push in E. step_in E. step_in E.
  apply bind_Some in E as (h' & E & [= <-]). apply bind_Some in E as (nd & Hnd & [= <-]).
  assert (x0 = nd) as -> by congruence. unfold queue_push. split; [split; [|done]|].
  - cbn. apply at_home_push; [done|done|]. intros id Hk m Hm. rewrite isControl_key in H. rewrite Hk in H.
    rewrite (key_StreamID wr) in Hk by (rewrite isControl_key; destruct (key wr); done). injection Hk as Hk. cbn in H. rewrite Hk, Hm in H. congruence.
  - unfold priority_waiting. cbn. rewrite fmap_insert, queues_insert, (queues_split (pn_q <$> pw_heap ws) x), lookup_fmap, Hnd. cbn.
    rewrite <- app_assoc. cbn. by rewrite <- Permutation_middle.
Qed.

Lemma at_home_closed h nodes n nd :
  at_home h nodes -> h !! n = Some nd -> at_home (<[n := set_state priorityNodeClosed nd]> h) nodes.
Proof.
  intros Hh Hn id m ndm Hm Hndm.
  assert (forall b nb x, <[n := set_state priorityNodeClosed nd]> h !! b = Some nb -> x ∈ pn_q nb ->
    exists nb0, h !! b = Some nb0 /\ x ∈ pn_q nb0) as Hold.
  { intros b nb x [[<- <-]|[_ Hb]]%lookup_insert_Some; eauto. }
  apply lookup_insert_Some in Hndm as [[<- <-]|[Hne Hndm]].
  - destruct (Hh id n nd Hm Hn) as [Hid _]. by split.
  - destruct (Hh id m ndm Hm Hndm) as [Hid Ho]. split; [done|]. intros Hst b nb x Hb Hin Hx.
    destruct (Hold b nb x Hb Hin) as (nb0 & Hb0 & Hin0). by apply (Ho Hst b nb0 x).
Qed.

Lemma CloseStream_sorted ws id ws' :
  priority_sorted ws -> CloseStream ws id = Some ws' ->
  priority_sorted ws' /\ priority_waiting ws' ⊆+ priority_waiting ws /\ Forall (fun wr => key wr <> Some id) (priority_waiting ws').
Proof.
  intros (Hh & Hl & Hp) E. unfold CloseStream in E. step_in E; [done|]. step_in E. step_in E. step_in E; [done|].
  step_in E. step_in E. step_in E.
  assert (pn_state x0 = priorityNodeOpen) as Hopen by (destruct (pn_state x0); [done|exfalso; by apply n..]). clear n Heqs.
  rename x into n, x0 into nd, H into Hn, H0 into Hnd.
  apply bind_Some in H1 as (h1 & E1 & [= <-]). apply bind_Some in E1 as (nd1 & Hnd1 & [= <-]). assert (nd1 = nd) as -> by congruence.
  apply bind_Some in H2 as (h2 & E2 & [= <-]). apply addBytes_kept in E2. cbn in E2.
  apply bind_Some in H3 as (h3 & E3 & [= <-]). cbn in E3. apply bind_Some in E3 as (nd2 & Hnd2 & [= <-]).
  pose proof (kept_at_home _ _ _ E2 (at_home_closed _ _ _ _ Hh Hnd)) as Hh2.
  pose proof (at_home_less _ _ _ _ [] Hh2 Hnd2 ltac:(by intros x Hx%not_elem_of_nil)) as Hh3.
  assert (pn_q <$> <[n := set_state priorityNodeClosed nd]> (pw_heap ws) = pn_q <$> pw_heap ws) as Eq.
  { rewrite fmap_insert. apply insert_id. by rewrite lookup_fmap, Hnd. }
  assert (pn_q <$> h2 = pn_q <$> pw_heap ws) as Eq2 by (by rewrite <- (kept_queues _ _ E2)).
  set (ws3 := set_heap (<[n := set_q [] nd2]> h2) _) in E.
  assert (priority_sorted ws3) as Hok3 by (split; [done|]; split; [done|]; by apply pool_put_empty).
  assert (same_queues ws3 ws') as Hs.
  { destruct (pw_maxClosedNodesInTree ws3 >? 0); [|by eapply removeNode_same]. by apply (addClosedOrIdleNode_same pw_closedNodes set_closedNodes _ _ _ _ ltac:(done) E). }
  destruct (same_queues_sorted _ _ Hs Hok3) as [Hok' ->]. split; [done|].
  assert (priority_waiting ws3 = queues (<[n := []]> (pn_q <$> pw_heap ws))) as ->.
  { unfold priority_waiting. cbn. by rewrite fmap_insert, Eq2. }
  split; [apply queues_cleared|]. apply Forall_forall. intros wr (b & q & Hb & Hin)%elem_of_queues Hk.
  apply lookup_insert_Some in Hb as [[<- <-]|[Hne Hb]]; [by apply not_elem_of_nil in Hin|].
  apply lookup_fmap_Some in Hb as (nb & <- & Hb). destruct (Hh id n nd Hn Hnd) as [_ Ho]. by apply Hne, eq_sym, (Ho Hopen b nb wr).
Qed.

Lemma AdjustStream_sorted ws id prio ws' :
  priority_sorted ws -> AdjustStream ws id prio = Some ws' -> priority_sorted ws' /\ priority_waiting ws' ⊆+ priority_waiting ws.
Proof.
  intros Hok E. unfold AdjustStream in E. step_in E; [done|]. step_in E. rename x into r.
  assert (match r with None => True | Some (ws1, _) => priority_sorted ws1 /\ priority_waiting ws1 ⊆+ priority_waiting ws end) as Hr.
  { destruct (pw_nodes ws !! id) as [n|] eqn:En; [by injection H as <-|]. step_in H; [by injection H as <-|].
    destruct (newNode (set_maxID id ws) id priorityNodeIdle) as [ws1 n] eqn:E1. do 2 step_in H. injection H as <-.
    destruct (add_node (set_maxID id ws) id priorityNodeIdle ws1 n _ _ Hok ltac:(by left) E1 H0 ltac:(intros h'; apply setParent_kept)) as [Ha Hb].
    apply (addClosedOrIdleNode_same pw_idleNodes set_idleNodes _ _ _ _ ltac:(done)) in H1. destruct (same_queues_sorted _ _ H1 Ha) as [Hc ->]. done. }
  destruct r as [[ws1 n]|]; [|by injection E as <-]. destruct Hr as [Hok1 Hw1].
  assert (same_queues ws1 ws') as Hs.
  { destruct (pw_nodes ws1 !! StreamDep prio).
    - eapply on_heap_same, E. intros h'. apply reprioritize_kept.
    - step_in E. apply (same_queues_trans _ x).
      + eapply on_heap_same, H0. intros h'. apply setParent_kept.
      + eapply on_heap_same, E. intros h'. by apply upd_kept. }
  destruct (same_queues_sorted _ _ Hs Hok1) as [Hok' ->]. done.
Qed.

(** What [Pop] has taken when its callback halts. *)
Definition popped_from (h0 h : heap) (a : pop_state) : Prop :=
  po_ok a = true /\ exists n nd q, h0 !! n = Some nd /\ sent (pn_q nd) (po_wr a) q /\ kept (<[n := set_q q nd]> h0) h.

Lemma popCallback_keeps mfs throttle h0 n op h a h' a' (halt : bool) :
  popCallback mfs throttle n op h a = Some (h', a', halt) -> kept h0 h /\ po_ok a = false ->
  if halt then popped_from h0 h' a' else kept h0 h' /\ po_ok a' = false.
Proof.
  intros E [Hk Ha]. unfold popCallback in E. step_in E. step_in E. destruct x0 as [[fl q] [wr ok]]. step_in E.
  pose proof (queue_consume_taken _ _ _ _ _ _ _ _ H0) as Hq. apply bind_Some in H1 as (nd & Hnd & [= <-]).
  assert (x = nd) as -> by congruence. destruct (kept_node _ _ _ _ Hk Hnd) as (nd0 & Hnd0 & Ec).
  assert (pn_q nd0 = pn_q nd /\ core (set_q q nd0) = core (set_q q nd)) as [Eq0 Ec'].
  { split; [by injection Ec|]. unfold core in *. cbn. congruence. }
  assert (kept (<[n := set_q q nd0]> h0) (<[n := set_q q nd]> h)) as Hk'.
  { intros p. destruct (decide (p = n)) as [->|Hne]; [rewrite !lookup_insert_eq; cbn; by rewrite Ec'|].
    rewrite !lookup_insert_ne by done. apply Hk. }
  destruct ok; simpl in E.
  - step_in E. injection E as <- <- <-. apply addBytes_kept in H1. split; [done|]. exists n, nd0, q.
    split; [done|]. split; [by rewrite Eq0|]. by apply (pkept_trans _ _ _ Hk').
  - injection E as <- <- <-. split; [|done]. subst q. apply (pkept_trans _ _ _ Hk). intros p.
    destruct (decide (p = n)) as [->|Hne]; [by rewrite lookup_insert_eq, Hnd|by rewrite lookup_insert_ne].
Qed.

Lemma Pop_sorted sort mfs fl ws fl' ws' wr ok :
  priority_sorted ws -> Pop sort mfs fl ws = Some (fl', ws', (wr, ok)) ->
  priority_sorted ws' /\
  if ok then exists orig more rest, priority_waiting ws ≡ₚ orig :: rest /\ priority_waiting ws' ⊆+ more ++ rest /\ taken orig wr more
  else priority_waiting ws' ⊆+ priority_waiting ws.
Proof.
  intros Hok E. unfold Pop in E. step_in E. destruct x as [[h a] halt]. injection E as <- <- <- <-.
  assert (if halt then popped_from (pw_heap ws) h a else kept (pw_heap ws) h /\ po_ok a = false) as Hw.
  { eapply (walkReadyInOrder_keeps sort _ (fun h a => kept (pw_heap ws) h /\ po_ok a = false) (popped_from (pw_heap ws))); [| |exact H|done].
    - intros h1 h2 a1 Hk [Hk' Ha]. split; [by eapply pkept_trans|done].
    - intros n op h1 a1 h2 a2 b. apply popCallback_keeps. }
  destruct halt.
  - destruct Hw as (-> & n & nd & q & Hn & Hs & Hk). destruct Hok as (Hh & Hl & Hp).
    destruct (queues_sent (pn_q <$> pw_heap ws) n (pn_q nd) (po_wr a) q ltac:(by rewrite lookup_fmap, Hn) Hs) as (orig & more & rest & H1 & H2 & Ht).
    split; [split; [|done]|].
    + cbn. apply (kept_at_home _ _ _ Hk). apply (at_home_less _ _ _ _ _ Hh Hn). intros x Hx.
      destruct (sent_taken _ _ _ Hs) as (o & m & tl & Eq & -> & Ht'). rewrite Eq. destruct (taken_key _ _ _ Ht') as [_ Hm].
      apply elem_of_app in Hx as [Hx|Hx]; [exists o|exists x]; (split; [set_solver|]); [|done].
      rewrite Forall_forall in Hm. symmetry. by apply Hm.
    + exists orig, more, rest. split; [done|]. split; [|done]. unfold priority_waiting. cbn.
      rewrite <- (kept_queues _ _ Hk), fmap_insert. cbn. by rewrite H2.
  - destruct Hw as [Hk ->]. destruct (kept_sorted ws (set_limit (po_limit a) (set_heap h ws)) Hk ltac:(done) eq_refl eq_refl Hok) as [H1 H2].
    split; [done|]. by rewrite H2.
Qed.

#[global] Program Instance priority_server :
  ServerScheduler priorityWriteScheduler ((node_ptr -> node_ptr -> bool) -> list node_ptr -> list node_ptr) := {
  sd_ok := priority_sorted;
  sd_waiting := priority_waiting;
  sd_control_first := False
}.
Next Obligation. simpl. intros s id pusher s'. apply OpenStream_sorted. Qed.
Next Obligation. simpl. intros s id s'. apply CloseStream_sorted. Qed.
Next Obligation. simpl. intros s id prio s'. apply AdjustStream_sorted. Qed.
Next Obligation. simpl. intros s wr s'. apply Push_sorted. Qed.
Next Obligation. simpl. intros c mfs fl s fl' s' wr ok. apply Pop_sorted. Qed.
Solve Obligations with done.

Lemma priority_new_sorted cfg : sd_ok (NewPriorityWriteScheduler cfg) /\ sd_waiting (NewPriorityWriteScheduler cfg) = [].
Proof.
  split; [|done]. unfold NewPriorityWriteScheduler. destruct cfg; cbn; (split; [|split; [|done]]); cbn.
  1,3: intros id n nd [<- <-]%lookup_singleton_Some [_ <-]%lookup_singleton_Some; split; [done|]; intros _ b nb wr [<- <-]%lookup_singleton_Some;
    by intros ?%not_elem_of_nil.
  all: intros id n [<- <-]%lookup_singleton_Some; unfold root; lia.
Qed.
