(* ===== verification/ServerInv.v ===== *)
(** * Package http2: the invariant of a server's connection

    What holds of a [serverConn] whenever the serve loop touches it, for any client, any
    handlers and any [ServerScheduler]; the order that its frames keep on the wire; and a
    measure that the write loop decreases. *)

From stdpp Require Import sorting.
From S2P Require Import Prelude HpackTable Flow DataBuffer Pipe Frame HttpGuts FrameMeta WriteFrames HeaderWrite WriteSched.
From S2P Require Import ServerRequest ServerConn ServerSched.

(** ** Sums *)
Definition zsum {A} (f : A -> Z) (l : list A) : Z := foldr (fun x n => f x + n) 0 l.

Lemma zsum_app {A} (f : A -> Z) l k : zsum f (l ++ k) = zsum f l + zsum f k.
Proof. induction l as [|x l IH]; simpl; [done|]. rewrite IH. lia. Qed.

#[global] Instance zsum_perm {A} (f : A -> Z) : Proper ((≡ₚ) ==> (=)) (zsum f).
Proof. induction 1; simpl; lia. Qed.

Lemma zsum_ext {A} (f g : A -> Z) l : (forall x, x ∈ l -> f x = g x) -> zsum f l = zsum g l.
Proof. induction l as [|x l IH]; intros H; simpl; [done|]. rewrite (H x), IH; [done| |by left]. intros y Hy. apply H. by right. Qed.

Lemma zsum_nonneg {A} (f : A -> Z) l : (forall x, 0 <= f x) -> 0 <= zsum f l.
Proof. intros Hf. induction l as [|x l IH]; simpl; [done|]. specialize (Hf x). lia. Qed.

(** Filtering drops what is not negative. *)
Lemma zsum_filter {A} (f : A -> Z) (P : A -> Prop) `{!forall x, Decision (P x)} l :
  (forall x, 0 <= f x) -> zsum f (filter P l) <= zsum f l.
Proof.
  intros Hf. induction l as [|x l IH]; simpl; [done|]. specialize (Hf x).
  destruct (decide (P x)); [rewrite filter_cons_True by done|rewrite filter_cons_False by done]; simpl; lia.
Qed.

Lemma elements_remove (X : gset Z) x : x ∈ X -> base.elements X ≡ₚ x :: base.elements (X ∖ {[x]}).
Proof.
  intros Hx. assert (X = {[x]} ∪ X ∖ {[x]}) as E by (apply leibniz_equiv; by apply union_difference_singleton).
  rewrite E at 1. apply elements_union_singleton. apply not_elem_of_difference. right. by apply elem_of_singleton.
Qed.

(** ** What a frame does on its stream *)
Definition frame_id (w : writeFramer) : option Z :=
  match w with
  | writeData id _ _ | handlerPanicRST id | writeStreamError id _ | write100ContinueHeadersFrame id | writeWindowUpdate id _ => Some id
  | writeResHeaders w => Some (rh_streamID w)
  | writePushPromise w => Some (pu_streamID w)
  | _ => None
  end.

(** The frames that a handler has written for its stream, and those of the connection. *)
Definition stream_frame (w : writeFramer) : bool :=
  match w with
  | writeData _ _ _ | handlerPanicRST _ | write100ContinueHeadersFrame _ | writeWindowUpdate _ _ | writeResHeaders _
  | writePushPromise _ => true
  | _ => false
  end.

Definition conn_frame (w : writeFramer) : bool :=
  match w with
  | writeSettings _ | writeStreamError _ _ | writePingAck _ | writeSettingsAck | writeGoAway _ _ | flushFrameWriter => true
  | writeWindowUpdate id _ => id =? 0
  | _ => false
  end.

(** A frame that carries a message; one that ends the stream in this direction; one that
    ends it in both; any frame but RST_STREAM. *)
Definition sends (w : writeFramer) : option Z :=
  match w with
  | writeData id _ _ | write100ContinueHeadersFrame id => Some id
  | writeResHeaders w => Some (rh_streamID w)
  | writePushPromise w => Some (pu_streamID w)
  | _ => None
  end.

Definition ends (w : writeFramer) : option Z :=
  match w with
  | writeData id _ true => Some id
  | writeResHeaders w => if rh_endStream w then Some (rh_streamID w) else None
  | _ => None
  end.

Definition resets (w : writeFramer) : option Z :=
  match w with writeStreamError id _ | handlerPanicRST id => Some id | _ => None end.

Definition on_stream (w : writeFramer) : option Z :=
  match w with writeWindowUpdate id _ => if id =? 0 then None else Some id | _ => sends w end.

Definition ended (l : list writeFramer) (id : Z) : Prop := exists w, w ∈ l /\ ends w = Some id.

Definition used (l : list writeFramer) (id : Z) : Prop := exists w, w ∈ l /\ on_stream w = Some id.

(** RST_STREAM was sent for a stream that had been used. *)
Definition was_reset (l : list writeFramer) (id : Z) : Prop :=
  exists l1 w l2, l = l1 ++ w :: l2 /\ resets w = Some id /\ used l1 id.

(** No message is continued after END_STREAM, and after RST_STREAM there is nothing but
    RST_STREAM. *)
Definition wire_ended (l : list writeFramer) : Prop :=
  forall l1 w l2 id, l = l1 ++ w :: l2 -> ended l1 id -> sends w <> Some id.

Definition wire_reset (l : list writeFramer) : Prop :=
  forall l1 w l2 id, l = l1 ++ w :: l2 -> was_reset l1 id -> on_stream w <> Some id.

Lemma snoc_cases {A} (l l1 l2 : list A) x w : l ++ [x] = l1 ++ w :: l2 -> (l1 = l /\ w = x) \/ exists l3, l = l1 ++ w :: l3.
Proof.
  intros E. destruct l2 as [|y l2 _] using rev_ind.
  - apply app_inj_tail in E as [-> ->]. by left.
  - right. exists l2. rewrite app_comm_cons, app_assoc in E. by apply app_inj_tail in E as [-> _].
Qed.

Lemma ended_snoc l w id : ended (l ++ [w]) id <-> ended l id \/ ends w = Some id.
Proof.
  unfold ended. split.
  - intros (x & [Hx| ->%list_elem_of_singleton]%elem_of_app & Hf); [left; by exists x|by right].
  - intros [(x & Hx & Hf)|Hf]; [exists x|exists w]; rewrite elem_of_app, list_elem_of_singleton; auto.
Qed.

Lemma used_snoc l w id : used (l ++ [w]) id <-> used l id \/ on_stream w = Some id.
Proof.
  unfold used. split.
  - intros (x & [Hx| ->%list_elem_of_singleton]%elem_of_app & Hf); [left; by exists x|by right].
  - intros [(x & Hx & Hf)|Hf]; [exists x|exists w]; rewrite elem_of_app, list_elem_of_singleton; auto.
Qed.

Lemma was_reset_snoc l w id : was_reset (l ++ [w]) id <-> was_reset l id \/ (resets w = Some id /\ used l id).
Proof.
  split.
  - intros (l1 & w' & l2 & [[-> ->]|[l3 ->]]%snoc_cases & Hr & Hu); [by right|]. left. by exists l1, w', l3.
  - intros [(l1 & w' & l2 & -> & Hr & Hu)|[Hr Hu]].
    + exists l1, w', (l2 ++ [w]). by rewrite <- app_assoc.
    + by exists l, w, [].
Qed.

Lemma wire_ended_snoc l w : wire_ended l -> (forall id, ended l id -> sends w <> Some id) -> wire_ended (l ++ [w]).
Proof. intros Hl H1 l1 w' l2 id [[-> ->]|[l3 E]]%snoc_cases; [auto|]. by apply (Hl l1 w' l3). Qed.

Lemma wire_reset_snoc l w : wire_reset l -> (forall id, was_reset l id -> on_stream w <> Some id) -> wire_reset (l ++ [w]).
Proof. intros Hl H1 l1 w' l2 id [[-> ->]|[l3 E]]%snoc_cases; [auto|]. by apply (Hl l1 w' l3). Qed.

Lemma sends_on_stream w id : sends w = Some id -> on_stream w = Some id.
Proof. by destruct w. Qed.

(** ** Bodies

    How many bytes were put in a body's buffer: [bb_holds b n] says [n]. *)
Class BodyBuffer (B E : Type) `{PipeBuffer B E} := {
  bb_holds : B -> Z -> Prop;
  bb_Write b n d b' r err : bb_holds b n -> pb_Write b d = Some (b', (r, err)) ->
    bb_holds b' (match err with None => n + zlen d | Some _ => n end);
  bb_Read b n d b' d' r : bb_holds b n -> 0 < pb_Len b -> pb_Read b d = Some (b', d', r) -> bb_holds b' n
}.

(** For what does not count them. *)
Definition uncounted {B E} `{PipeBuffer B E} : BodyBuffer B E.
Proof. by refine {| bb_holds _ _ := True |}. Defined.

(** A body that was not broken still has its buffer, until it is read to its end. *)
Definition body_holds {B E} `{PipeBuffer B E} {BB : BodyBuffer B E} (p : pipe B E unit) (n : Z) : Prop :=
  match p_b p with Some b => p_breakErr p = None /\ bb_holds b n | None => True end.

Section bodies.
Context {B E : Type} {PB : PipeBuffer B E} {BB : BodyBuffer B E}.
Implicit Types (p : pipe B E unit).

Lemma holds_close p p' err fn n : closeWithErr p err fn = Some p' -> body_holds p n -> body_holds p' n.
Proof.
  unfold closeWithErr. destruct err as [e|]; [|done]. cbn. destruct (p_err p); intros [= <-]; [done|].
  unfold closeDoneLocked, body_holds. cbn. by destruct (p_donec p).
Qed.

Lemma holds_break p p' err n : BreakWithError p err = Some p' -> body_holds p n -> body_holds p' n.
Proof.
  unfold BreakWithError, closeWithBreakErr. destruct err as [e|]; [|done]. cbn. destruct (p_breakErr p); intros [= <-]; [done|].
  unfold closeDoneLocked, body_holds. cbn. by destruct (p_donec p).
Qed.

Lemma holds_read p p' d r n : pipe_Read p d = Some (p', r) -> body_holds p n -> body_holds p' n.
Proof.
  unfold pipe_Read, body_holds. intros Er H. destruct (p_breakErr p) eqn:Eb; [injection Er as <- _; by rewrite Eb|].
  destruct (p_b p) as [b|] eqn:Ep.
  - destruct H as [_ H]. destruct (Z.gtb_spec (pb_Len b) 0) as [Hl|].
    + destruct (pb_Read b d) as [[[b' d'] [m e]]|] eqn:Eq; [|done]. cbn in Er. injection Er as <- _. cbn. split; [done|]. by eapply bb_Read.
    + destruct (p_err p); injection Er as <- _; [done|]. rewrite Ep. done.
  - destruct (p_err p); injection Er as <- _; [done|]. by rewrite Ep.
Qed.

Lemma holds_write ec p p' d w err n : pipe_Write ec p d = Some (p', (w, err)) -> body_holds p n ->
  body_holds p' (match err with None => n + zlen d | Some _ => n end).
Proof.
  unfold pipe_Write, body_holds. intros Er H. destruct (p_err p) eqn:Ee; [by injection Er as <- <- <-|].
  destruct (p_breakErr p) eqn:Eb; [injection Er as <- <- <-; cbn; destruct (p_b p); [by destruct H|done]|].
  destruct (p_b p) as [b|]; [|done]. cbn in Er. destruct (pb_Write b d) as [[b' [m e]]|] eqn:Eq; [|done]. cbn in Er. injection Er as <- <- <-. cbn.
  split; [done|]. destruct H as [_ H]. by eapply bb_Write.
Qed.
End bodies.

(** ** The invariant *)
Section inv.
Context {S C W B U : Type} {WS : WriteScheduler S C} {SD : ServerScheduler S C} {FS : FrameSink W} {PB : PipeBuffer B serve_error} {BB : BodyBuffer B serve_error}.
Abbreviation conn := (serverConn (S := S) (W := W) (B := B) (U := U)).
Implicit Types (sc : conn).

Definition waiting sc : list FrameWriteRequest := sd_waiting (sc_sched sc).

(** A request names one stream throughout, or is for the connection. *)
Definition request_shape (wr : FrameWriteRequest) : Prop :=
  exists w, wr_write wr = Some w /\
    match wr_stream wr with
    | Some s => s = stream_ptr (s_id s) /\ stream_frame w = true /\ frame_id w = Some (s_id s)
    | None => conn_frame w = true
    end.

(** A client's stream up to the greatest so far, or a pushed one. *)
Definition opened (t : stream_table B) (id : Z) : Prop :=
  0 < id < 2 ^ 31 /\ (id mod 2 = 1 -> id <= maxClientStreamID t) /\ (id mod 2 = 0 -> id <= maxPushPromiseID t).

(** The body is closed with EOF only after as many bytes as were declared, and [bodyBytes]
    is what was put in its buffer. *)
Definition body_ok (st : serverStream B) : Prop :=
  (st_declBodyBytes st = -1 \/ st_bodyBytes st <= st_declBodyBytes st) /\
  (forall p, st_body st = Some p -> p_err p = Some errEOF ->
    st_state st <> stateOpen /\ (st_declBodyBytes st = -1 \/ st_bodyBytes st = st_declBodyBytes st)) /\
  (forall p, st_body st = Some p -> body_holds p (st_bodyBytes st)).

Definition active (s : streamState) : Prop := s <> stateIdle /\ s <> stateClosed.

(** A stream that left [sc.streams]: closed; or the end of its body was seen afterwards,
    and then no frame of it is left. *)
Definition gone (Y : gset Z) (cur : option FrameWriteRequest) (id : Z) (st : serverStream B) : Prop :=
  st_state st = stateClosed \/ (st_state st = stateHalfClosedRemote /\ (id ∉ Y) /\ (cur ≫= key) <> Some id).

Definition stream_ok (Y : gset Z) (cur : option FrameWriteRequest) (t : stream_table B) (id : Z) (st : serverStream B) : Prop :=
  opened t id /\ body_ok st /\ if bool_decide (id ∈ live t) then active (st_state st) else gone Y cur id st.

Definition odd_ids (X : gset Z) : gset Z := filter (fun id => id mod 2 = 1) X.
Definition even_ids (X : gset Z) : gset Z := filter (fun id => id mod 2 = 0) X.

Definition is_rst (id : Z) (wr : FrameWriteRequest) : Prop := isControl wr = true /\ (wr_write wr ≫= resets) = Some id.

(** RST_STREAM waits or is being written. *)
Definition rst_coming (l : list FrameWriteRequest) (cur : option FrameWriteRequest) (id : Z) : Prop :=
  (exists wr, wr ∈ l /\ is_rst id wr) \/ exists wr, cur = Some wr /\ (wr_write wr ≫= resets) = Some id.

(** After END_STREAM, where control frames go first. *)
Record end_inv (cur : option FrameWriteRequest) sc : Prop := {
  ei_hcl id : id ∈ live (sc_str sc) -> st_state <$> store (sc_str sc) !! id = Some stateHalfClosedLocal ->
    rst_coming (waiting sc) cur id;
  ei_ended id : ended (sc_started sc) id -> id ∈ live (sc_str sc) ->
    (cur ≫= wr_write) ≫= ends = Some id \/ rst_coming (waiting sc) cur id;
  ei_wire : wire_ended (sc_started sc)
}.

(** Requests reach handlers once, those of the client in the order of their streams. *)
Definition handler_ids sc : list Z := map (fun h => fst (fst h)) (sc_handlers sc).

Record table_inv (t : stream_table B) : Prop := {
  ti_maxClient : 0 <= maxClientStreamID t < 2 ^ 31;
  ti_maxPush : 0 <= maxPushPromiseID t < 2 ^ 31 /\ maxPushPromiseID t mod 2 = 0;
  ti_curClient : curClientStreams t = Z.of_nat (size (odd_ids (live t))) /\
    curClientStreams t <= advMaxStreams t /\ curClientStreams t <= maxClientStreamID t;
  ti_curPushed : curPushedStreams t = Z.of_nat (size (even_ids (live t))) /\ curPushedStreams t <= maxPushPromiseID t
}.

(** [Y]: streams that [closeStream] is at work on; [cur]: a frame that is being written. *)
Record Inv (Y : gset Z) (cur : option FrameWriteRequest) sc : Prop := {
  iv_streams id st : store (sc_str sc) !! id = Some st -> stream_ok Y cur (sc_str sc) id st;
  iv_live id : id ∈ live (sc_str sc) -> is_Some (store (sc_str sc) !! id);
  iv_Y id : id ∈ Y -> is_Some (store (sc_str sc) !! id) /\ id ∉ live (sc_str sc);
  iv_table : table_inv (sc_str sc);
  iv_sched : sd_ok (sc_sched sc);
  iv_waiting wr : wr ∈ waiting sc -> request_shape wr /\ forall id, key wr = Some id -> id ∈ live (sc_str sc) ∪ Y;
  iv_cur wr : cur = Some wr -> request_shape wr /\ forall id, key wr = Some id -> is_Some (store (sc_str sc) !! id);
  iv_used id : used (sc_started sc) id -> is_Some (store (sc_str sc) !! id);
  iv_wire : wire_reset (sc_started sc);
  iv_reset id : was_reset (sc_started sc) id -> id ∈ live (sc_str sc) -> (cur ≫= wr_write) ≫= resets = Some id;
  iv_end : sd_control_first -> end_inv cur sc;
  iv_handlers : NoDup (handler_ids sc) /\ StronglySorted Z.lt (filter (fun id => id mod 2 = 1) (handler_ids sc)) /\
    forall id, id ∈ handler_ids sc -> is_Some (store (sc_str sc) !! id)
}.

(** Between the steps of the loop: what is being written belongs to [writeFrameAsync]. *)
Definition rest (b : bool) (Y : gset Z) sc : Prop :=
  Inv Y (sc_writer sc) sc /\ (sc_writer sc = None \/ (writingFrame (sc_ws sc) = true /\ writingFrameAsync (sc_ws sc) = true)) /\ inFrameScheduleLoop (sc_ws sc) = b.

(** The stream is live, or no frame of it is being written. *)
Definition near (id : Z) sc : Prop := id ∈ live (sc_str sc) \/ (sc_writer sc ≫= key) <> Some id.

(** ** The measure

    What waits, event by event; for every stream, the frames that closing it may add; and a
    settings acknowledgement. *)
Definition weight (st : serverStream B) : Z :=
  match st_state st with
  | stateOpen => 2
  | stateHalfClosedLocal => 1
  | stateHalfClosedRemote => match st_body st with Some _ => 1 | None => 0 end
  | _ => 0
  end.

Definition weight_of (t : stream_table B) (id : Z) : Z := match store t !! id with Some st => weight st | None => 0 end.

Definition live_weight (t : stream_table B) : Z := zsum (weight_of t) (base.elements (live t)).

Definition cost (wr : FrameWriteRequest) : Z := zlen (carried wr).

Definition measure sc : Z :=
  zsum cost (waiting sc) + live_weight (sc_str sc) + (if needToSendSettingsAck (sc_ws sc) then 1 else 0).
End inv.
