(* ===== verification/ServerStep.v ===== *)
(** * Package http2: what the steps of a server's connection keep

    One lemma for each change that the serve loop makes to its streams, its scheduler and
    its log: the invariant of ServerInv afterwards, and the measure. *)

From stdpp Require Import sorting.
From S2P Require Import Prelude HpackTable Flow DataBuffer Pipe Frame HttpGuts FrameMeta WriteFrames HeaderWrite WriteSched.
From S2P Require Import ServerRequest ServerConn ServerSched ServerInv.

(** ** Counting identifiers *)
Lemma size_remove (P : Z -> Prop) `{!forall x, Decision (P x)} (X : gset Z) x :
  x ∈ X -> Z.of_nat (size (filter P (X ∖ {[x]}))) = Z.of_nat (size (filter P X)) - (if decide (P x) then 1 else 0).
Proof.
  intros Hx. assert (filter P (X ∖ {[x]}) = filter P X ∖ {[x]}) as ->.
  { apply leibniz_equiv. intros y. rewrite elem_of_difference, !elem_of_filter, elem_of_difference. tauto. }
  destruct (decide (P x)) as [Hp|Hp].
  - assert (x ∈ filter P X) as Hin by (by apply elem_of_filter).
    rewrite size_difference by (intros y ->%elem_of_singleton; done). rewrite size_singleton.
    assert (size (filter P X) <> 0%nat) by (apply size_non_empty_iff; intros E; rewrite E in Hin; by apply not_elem_of_empty in Hin). lia.
  - rewrite difference_disjoint; [lia|]. intros y [Hy _]%elem_of_filter ->%elem_of_singleton. done.
Qed.

Lemma size_add (P : Z -> Prop) `{!forall x, Decision (P x)} (X : gset Z) x :
  x ∉ X -> Z.of_nat (size (filter P ({[x]} ∪ X))) = Z.of_nat (size (filter P X)) + (if decide (P x) then 1 else 0).
Proof.
  intros Hx. assert (({[x]} ∪ X) ∖ {[x]} = X) as E.
  { apply leibniz_equiv. intros y. rewrite elem_of_difference, elem_of_union, elem_of_singleton. split; [tauto|].
    intros Hy. split; [by right|]. by intros ->. }
  pose proof (size_remove P ({[x]} ∪ X) x) as Hs. rewrite E in Hs. rewrite Hs; [lia|]. apply elem_of_union. left. by apply elem_of_singleton.
Qed.

Section step.
Context {S C W B U : Type} {WS : WriteScheduler S C} {SD : ServerScheduler S C} {FS : FrameSink W} {PB : PipeBuffer B serve_error} {BB : BodyBuffer B serve_error}.
Abbreviation conn := (serverConn (S := S) (W := W) (B := B) (U := U)).
Implicit Types (sc : conn).
Abbreviation Inv := (Inv (C := C)).

(** ** Parts that the invariant does not look at *)
Lemma Inv_ext Y cur sc sc' :
  sc_str sc' = sc_str sc -> sc_sched sc' = sc_sched sc -> sc_started sc' = sc_started sc -> sc_handlers sc' = sc_handlers sc ->
  Inv Y cur sc -> Inv Y cur sc'.
Proof.
  intros E1 E2 E3 E4 []. split; unfold waiting, handler_ids in *; rewrite ?E1, ?E2, ?E3, ?E4; try done.
  intros Hcf. destruct (iv_end Hcf). split; unfold waiting in *; rewrite ?E1, ?E2, ?E3; done.
Qed.

Lemma measure_ext sc sc' :
  sc_str sc' = sc_str sc -> sc_sched sc' = sc_sched sc ->
  needToSendSettingsAck (sc_ws sc') = needToSendSettingsAck (sc_ws sc) -> measure sc' = measure sc.
Proof. intros E1 E2 E3. unfold measure, waiting. by rewrite E1, E2, E3. Qed.

(** ** The weight of the streams *)
Lemma weight_nonneg (st : serverStream B) : 0 <= weight st.
Proof. unfold weight. destruct (st_state st); try lia. destruct (st_body st); lia. Qed.

Lemma weight_of_nonneg (t : stream_table B) id : 0 <= weight_of t id.
Proof. unfold weight_of. destruct (store t !! id); [apply weight_nonneg|lia]. Qed.

Lemma live_weight_split (t : stream_table B) id : id ∈ live t ->
  live_weight t = weight_of t id + zsum (weight_of t) (base.elements (live t ∖ {[id]})).
Proof. intros Hid. unfold live_weight. by rewrite (elements_remove (live t) id Hid). Qed.

(** A stream of another table with the same streams but [id]. *)
Lemma live_weight_others (t t' : stream_table B) id (X : gset Z) :
  (forall i, i <> id -> store t' !! i = store t !! i) ->
  zsum (weight_of t') (base.elements (X ∖ {[id]})) = zsum (weight_of t) (base.elements (X ∖ {[id]})).
Proof.
  intros Hs. apply zsum_ext. intros i Hi. apply elem_of_elements, elem_of_difference in Hi as [_ Hi].
  unfold weight_of. rewrite Hs; [done|]. intros ->. by apply Hi, elem_of_singleton.
Qed.

Lemma measure_set_str sc t : measure (set_str t sc) = measure sc - live_weight (sc_str sc) + live_weight t.
Proof. unfold measure. change (waiting (set_str t sc)) with (waiting sc). cbn. lia. Qed.

(** ** A stream's struct changes *)
Definition put (id : Z) (st : serverStream B) sc : conn := set_table (<[id := st]> (store (sc_str sc))) sc.

Lemma update_put sc id f st : store (sc_str sc) !! id = Some st -> update sc id f = put id (f st) sc.
Proof. intros E. unfold update, put. f_equal. apply map_eq. intros i. destruct (decide (i = id)) as [->|Hne].
  - by rewrite lookup_alter_eq, lookup_insert_eq, E.
  - by rewrite lookup_alter_ne, lookup_insert_ne.
Qed.

Lemma put_again sc id st st' : put id st' (put id st sc) = put id st' sc.
Proof. unfold put, set_table. cbn. by rewrite insert_insert_eq. Qed.

Lemma lookup_put sc id st i : store (sc_str (put id st sc)) !! i = if decide (i = id) then Some st else store (sc_str sc) !! i.
Proof. cbn. destruct (decide (i = id)) as [->|Hne]; [by rewrite lookup_insert_eq|by rewrite lookup_insert_ne]. Qed.

Lemma measure_put sc id st st' :
  store (sc_str sc) !! id = Some st ->
  measure (put id st' sc) = measure sc + (if bool_decide (id ∈ live (sc_str sc)) then weight st' - weight st else 0).
Proof.
  intros Hst. unfold put, set_table. rewrite measure_set_str. set (t' := mkST _ _ _ _ _ _ _).
  assert (forall i, i <> id -> store t' !! i = store (sc_str sc) !! i) as Ho by (intros; by apply lookup_insert_ne).
  case_bool_decide as Hin.
  - rewrite (live_weight_split (sc_str sc) id Hin), (live_weight_split t' id Hin). change (live t') with (live (sc_str sc)). rewrite (live_weight_others (sc_str sc) t' id _ Ho).
    assert (weight_of (sc_str sc) id = weight st) as -> by (unfold weight_of; by rewrite Hst).
    assert (weight_of t' id = weight st') as -> by (unfold weight_of, t'; cbn [store]; by rewrite lookup_insert_eq). lia.
  - unfold live_weight. change (live t') with (live (sc_str sc)). rewrite (zsum_ext (weight_of t') (weight_of (sc_str sc))); [lia|].
    intros i Hi. apply elem_of_elements in Hi. unfold weight_of. rewrite Ho; [done|]. by intros ->.
Qed.

Lemma Inv_put Y cur sc id st st' :
  store (sc_str sc) !! id = Some st -> body_ok st' ->
  (if bool_decide (id ∈ live (sc_str sc)) then active (st_state st') else gone Y cur id st') ->
  (sd_control_first -> st_state st' = stateHalfClosedLocal -> id ∈ live (sc_str sc) -> rst_coming (waiting sc) cur id) ->
  Inv Y cur sc -> Inv Y cur (put id st' sc).
Proof.
  intros Hst Hb Hs Hr [].
  assert (forall i, is_Some (store (sc_str sc) !! i) -> is_Some (store (sc_str (put id st' sc)) !! i)) as Hdom.
  { intros i Hi. rewrite lookup_put. destruct (decide (i = id)); [eauto|done]. }
  split; try done; [|by eauto|..].
  - intros i x. rewrite lookup_put. destruct (decide (i = id)) as [->|]; [|by apply iv_streams].
    intros [= <-]. destruct (iv_streams id st Hst) as (Ho & _ & _). by split; [|split].
  - intros i Hi. destruct (iv_Y i Hi). split; [by apply Hdom|done].
  - destruct iv_table. by split.
  - intros wr Hw. destruct (iv_cur wr Hw) as [H1 H2]. split; [done|]. eauto.
  - eauto.
  - intros Hcf. destruct (iv_end Hcf). split; try done. intros i Hi. rewrite lookup_put.
    destruct (decide (i = id)) as [->|]; [|by apply ei_hcl]. intros [= E]. by apply Hr.
  - destruct iv_handlers as (H1 & H2 & H3). split; [done|]. split; [done|]. intros i Hi. by apply Hdom, H3.
Qed.

(** The state stays. *)
Lemma Inv_put_same Y cur sc id st st' :
  store (sc_str sc) !! id = Some st -> body_ok st' -> st_state st' = st_state st -> Inv Y cur sc -> Inv Y cur (put id st' sc).
Proof.
  intros Hst Hb Hs HI. apply (Inv_put Y cur sc id st st' Hst Hb); [| |done].
  - destruct (iv_streams _ _ _ HI id st Hst) as (_ & _ & H). unfold gone in *. by rewrite Hs.
  - intros Hcf E Hin. apply (ei_hcl _ _ (iv_end _ _ _ HI Hcf) id Hin). rewrite Hst. cbn. by rewrite <- E, Hs.
Qed.

(** ** The scheduler *)
Lemma rst_coming_mono (l l' : list FrameWriteRequest) cur id : keeps_control l l' -> rst_coming l cur id -> rst_coming l' cur id.
Proof. intros Hk [(wr & Hin & Hc & Hr)|H]; [left; exists wr; split; [by apply Hk|done]|by right]. Qed.

(** Fewer streams are at work; requests may leave the scheduler. *)
Lemma Inv_resched Y Y' cur sc s :
  sd_ok s -> Y' ⊆ Y ->
  (forall wr, wr ∈ sd_waiting s -> request_shape wr /\ forall id, key wr = Some id -> id ∈ live (sc_str sc) ∪ Y') ->
  (sd_control_first -> keeps_control (waiting sc) (sd_waiting s)) ->
  Inv Y cur sc -> Inv Y' cur (set_sched s sc).
Proof.
  intros Hs HY Hw Hk []. split; try done.
  - intros id st Hst. destruct (iv_streams id st Hst) as (H1 & H2 & H3). split; [done|]. split; [done|].
    cbn [sc_str set_sched]. case_bool_decide; [done|]. destruct H3 as [|(? & Hn & ?)]; [by left|right]. set_solver.
  - intros id Hid. apply iv_Y. set_solver.
  - intros Hcf. destruct (iv_end Hcf). split; [| |done]; cbn [sc_str sc_started set_sched].
    + intros id Hid Hh. apply (rst_coming_mono (waiting sc)); [by apply Hk|by apply ei_hcl].
    + intros id He Hid. destruct (ei_ended id He Hid) as [|Hr]; [by left|right]. apply (rst_coming_mono (waiting sc)); [by apply Hk|done].
Qed.

(** [OpenStream] and [AdjustStream]. *)
Lemma Inv_shrink Y cur sc s :
  sd_ok s -> sd_waiting s ⊆+ waiting sc -> (sd_control_first -> keeps_control (waiting sc) (sd_waiting s)) ->
  Inv Y cur sc -> Inv Y cur (set_sched s sc).
Proof.
  intros Hs Hw Hk HI. apply (Inv_resched Y Y); [done|done| |done|done]. intros wr Hin. apply (iv_waiting _ _ _ HI).
  by eapply elem_of_submseteq.
Qed.

Lemma Inv_adjust Y cur sc s id prio :
  ws_AdjustStream (sc_sched sc) id prio = Some s -> Inv Y cur sc -> Inv Y cur (set_sched s sc) /\ sd_waiting s ⊆+ waiting sc.
Proof.
  intros E HI. destruct (sd_adjust_law _ _ _ _ (iv_sched _ _ _ HI) E) as [H1 H2]. split; [|done].
  apply Inv_shrink; [done|done| |done]. intros Hcf. by eapply sd_control_adjust.
Qed.

Lemma Inv_push Y cur sc s wr :
  request_shape wr -> (forall id, key wr = Some id -> id ∈ live (sc_str sc) ∪ Y) ->
  ws_Push (sc_sched sc) wr = Some s -> Inv Y cur sc -> Inv Y cur (set_sched s sc) /\ sd_waiting s ⊆+ wr :: waiting sc.
Proof.
  intros Hsh Hk E HI. destruct (sd_push_law _ _ _ (iv_sched _ _ _ HI) E) as [H1 H2]. split; [|done].
  apply (Inv_resched Y Y); [done|done| | |done].
  - intros x Hx. eapply elem_of_submseteq in Hx; [|exact H2]. apply elem_of_cons in Hx as [->|Hx]; [done|by apply (iv_waiting _ _ _ HI)].
  - intros Hcf x Hc Hx. apply (sd_control_push _ _ _ Hcf (iv_sched _ _ _ HI) E x Hc). by right.
Qed.

(** [closeStream] is done with [id]. *)
Lemma Inv_sched_close Y cur sc s id :
  ws_CloseStream (sc_sched sc) id = Some s -> Inv ({[id]} ∪ Y) cur sc -> Inv Y cur (set_sched s sc) /\ sd_waiting s ⊆+ waiting sc.
Proof.
  intros E HI. destruct (sd_close_law _ _ _ (iv_sched _ _ _ HI) E) as (H1 & H2 & H3). split; [|done].
  apply (Inv_resched ({[id]} ∪ Y) Y); [done|set_solver| | |done].
  - intros x Hx. rewrite Forall_forall in H3. pose proof (H3 x Hx) as Hne. eapply elem_of_submseteq in Hx; [|exact H2].
    destruct (iv_waiting _ _ _ HI x Hx) as [Hsh Hin]. split; [done|]. intros i Hi. specialize (Hin i Hi). set_solver.
  - intros Hcf. by apply (sd_control_close _ id _ Hcf (iv_sched _ _ _ HI)).
Qed.

(** ** What is being written *)

(** Nothing that [wr] may be forbids it on the wire. *)
Definition fresh_write (wr : FrameWriteRequest) sc : Prop :=
  (forall id, was_reset (sc_started sc) id -> id ∉ live (sc_str sc)) /\
  (sd_control_first -> key wr <> None -> forall id, ended (sc_started sc) id -> id ∉ live (sc_str sc)).

Lemma taken_shape orig wr more : request_shape orig -> taken orig wr more -> request_shape wr /\ Forall request_shape more.
Proof.
  intros Ho [[-> ->]|(r & -> & Hs)]; [by split|]. destruct Ho as (w & Ew & Ho). destruct Hs as (Hc & Hsc & Hsr & Hdc & Hdr & Hd & Hc0 & Hr0).
  assert (exists id p es, wr_write orig = Some (writeData id p es) /\ p <> []) as (id & p & es & Eo & Hp).
  { unfold DataSize in Hd, Hc0, Hr0 |- *. destruct (wr_write orig) as [[| | |id p es| | | | | | | |]|]; try lia.
    exists id, p, es. split; [done|]. intros ->. change (zlen []) with 0 in Hd. lia. }
  assert (exists id p es, wr_write wr = Some (writeData id p es) /\ p <> []) as (idc & pc & esc & Ec & Hpc).
  { unfold DataSize in Hc0. destruct (wr_write wr) as [[| | |i q e| | | | | | | |]|]; try lia. exists i, q, e. split; [done|]. by intros ->. }
  assert (exists id p es, wr_write r = Some (writeData id p es) /\ p <> []) as (idr & pr & esr & Er & Hpr).
  { unfold DataSize in Hr0. destruct (wr_write r) as [[| | |i q e| | | | | | | |]|]; try lia. exists i, q, e. split; [done|]. by intros ->. }
  assert (forall i b, EByte i b ∈ carried orig -> i = id) as Hall.
  { intros i b. unfold carried. rewrite Eo. rewrite elem_of_app, list_elem_of_fmap.
    intros [(x & [= -> ->] & _)|Hin]; [done|]. destruct (_ || _); [|by apply not_elem_of_nil in Hin].
    apply list_elem_of_singleton in Hin. done. }
  assert (idc = id) as ->.
  { destruct pc as [|x pc]; [done|]. apply (Hall idc x). rewrite Hc. apply elem_of_app. left. unfold carried. rewrite Ec. simpl. by left. }
  assert (idr = id) as ->.
  { destruct pr as [|x pr]; [done|]. apply (Hall idr x). rewrite Hc. apply elem_of_app. right. unfold carried. rewrite Er. simpl. by left. }
  rewrite Eo in Ew. injection Ew as <-. destruct (wr_stream orig) as [s|] eqn:Es; [|done].
  split; [|constructor; [|done]]; eexists; (split; [done|]); [by rewrite Hsc|by rewrite Hsr].
Qed.

Lemma cost_pos wr : 0 < cost wr.
Proof.
  unfold cost. pose proof (zlen_nonneg (carried wr)). assert (carried wr <> []).
  { unfold carried. destruct (wr_write wr) as [[]|]; try done. destruct p as [|x p]; [|done].
    rewrite (bool_decide_eq_true_2 ([] = [])) by done. by rewrite orb_true_r. }
  destruct (carried wr); [done|]. rewrite zlen_cons in *. pose proof (zlen_nonneg l). lia.
Qed.

Lemma taken_cost orig wr more : taken orig wr more -> cost wr + zsum cost more = cost orig.
Proof.
  intros [[-> ->]|(r & -> & Hc & _)]; unfold cost, zsum; simpl; [lia|]. rewrite Hc, zlen_app. lia.
Qed.

Lemma cost_submseteq l k : l ⊆+ k -> zsum cost l <= zsum cost k.
Proof.
  intros (k' & ->)%submseteq_Permutation. rewrite zsum_app. pose proof (zsum_nonneg cost k' (fun wr => Z.lt_le_incl _ _ (cost_pos wr))). lia.
Qed.

Lemma Inv_pop Y sc c mfs fl s wr :
  ws_Pop c mfs (sc_flows sc) (sc_sched sc) = Some (fl, s, (wr, true)) -> Inv Y None sc ->
  Inv Y (Some wr) (set_sched s sc) /\ fresh_write wr (set_sched s sc) /\
  (forall id, key wr = Some id -> id ∈ live (sc_str sc) ∪ Y) /\ zsum cost (sd_waiting s) + cost wr <= zsum cost (waiting sc).
Proof.
  intros E HI. pose proof (iv_sched _ _ _ HI) as Hok.
  destruct (sd_pop_law _ _ _ _ _ _ _ _ Hok E) as (Hs & orig & more & tl & Hw & Hw' & Ht). fold (waiting sc) in Hw.
  destruct (taken_key _ _ _ Ht) as [Hkey Hmkey]. pose proof (taken_cost _ _ _ Ht) as Hcost.
  assert (orig ∈ waiting sc) as Horig by (rewrite Hw; by left). destruct (iv_waiting _ _ _ HI orig Horig) as [Hsh Hlive].
  destruct (taken_shape _ _ _ Hsh Ht) as [Hwr Hmore]. rewrite <- Hkey in Hlive.
  assert (forall id, was_reset (sc_started sc) id -> id ∉ live (sc_str sc)) as Hnr.
  { intros id Hr Hin. by pose proof (iv_reset _ _ _ HI id Hr Hin). }
  split; [|split; [|split; [done|]]].
  - split; try apply HI; try done; cbn [sc_str set_sched sc_started].
    + intros id st Hst. destruct (iv_streams _ _ _ HI id st Hst) as (H1 & H2 & H3). split; [done|]. split; [done|].
      case_bool_decide as Hin; [done|]. destruct H3 as [|(? & HnY & _)]; [by left|right]. split; [done|]. split; [done|].
      cbn. intros Hk. specialize (Hlive id Hk). set_solver.
    + intros x Hx. eapply elem_of_submseteq in Hx; [|exact Hw']. apply elem_of_app in Hx as [Hx|Hx].
      * rewrite Forall_forall in Hmore, Hmkey. split; [by apply Hmore|]. rewrite (Hmkey x Hx), <- Hkey. done.
      * apply (iv_waiting _ _ _ HI). rewrite Hw. by right.
    + intros x [= <-]. split; [done|]. intros id Hk. destruct (proj1 (elem_of_union _ _ _) (Hlive id Hk)) as [H|H]; [by apply (iv_live _ _ _ HI)|by apply (iv_Y _ _ _ HI)].
    + intros id Hr Hin. by destruct (Hnr id Hr).
    + intros Hcf. destruct (iv_end _ _ _ HI Hcf). destruct (sd_control_pop _ _ _ _ _ _ _ _ Hcf Hok E) as [Hkeep _].
      assert (forall id, rst_coming (waiting sc) None id -> rst_coming (sd_waiting s) (Some wr) id) as Hrst.
      { intros id [(x & Hx & Hc & Hr)|(x & [=] & _)]. specialize (Hkeep x Hc Hx). apply elem_of_cons in Hkeep as [->|Hx']; [right; by exists wr|left; by exists x]. }
      split; [| |done]; cbn [sc_str set_sched sc_started].
      * intros id Hin Hh. apply Hrst. by apply ei_hcl.
      * intros id He Hin. destruct (ei_ended id He Hin) as [[=]|Hr]. right. by apply Hrst.
  - split; [done|]. intros Hcf Hk id He Hin. destruct (iv_end _ _ _ HI Hcf). destruct (sd_control_pop _ _ _ _ _ _ _ _ Hcf Hok E) as [_ Hnc].
    destruct (ei_ended id He Hin) as [[=]|[(x & Hx & Hc & _)|(x & [=] & _)]].
    rewrite isControl_key, bool_decide_eq_false_2 in Hnc by done. specialize (Hnc eq_refl). rewrite Forall_forall in Hnc. by rewrite (Hnc x Hx) in Hc.
  - rewrite Hw. cbn. apply cost_submseteq in Hw'. rewrite zsum_app in Hw'. unfold zsum in *. lia.
Qed.

(** Another request for the same stream with the same effect. *)
Lemma Inv_recur Y sc wr wr' :
  Inv Y (Some wr) sc -> request_shape wr' -> key wr' = key wr -> (wr_write wr' ≫= ends) = (wr_write wr ≫= ends) ->
  (wr_write wr' ≫= resets) = (wr_write wr ≫= resets) -> Inv Y (Some wr') sc.
Proof.
  intros [] Hsh Hk He Hr. split; try done; cbn in *.
  - intros id st Hst. destruct (iv_streams id st Hst) as (H1 & H2 & H3). split; [done|]. split; [done|]. unfold gone in *. cbn in *. by rewrite Hk.
  - intros x [= <-]. split; [done|]. rewrite Hk. by apply iv_cur.
  - by rewrite Hr.
  - intros Hcf. destruct (iv_end Hcf). assert (forall id, rst_coming (waiting sc) (Some wr) id -> rst_coming (waiting sc) (Some wr') id) as Hrst.
    { intros id [?|(x & [= <-] & Hx)]; [by left|right]. exists wr'. by rewrite Hr. }
    split; [| |done]; cbn in *; [by eauto|]. rewrite He. intros id H1 H2. destruct (ei_ended id H1 H2); eauto.
Qed.

(** The write ends, and what it meant for streams is done. *)
Lemma Inv_uncur Y sc wr :
  (sd_control_first -> forall id, (wr_write wr ≫= ends) = Some id -> id ∈ live (sc_str sc) -> rst_coming (waiting sc) None id) ->
  (forall id, (wr_write wr ≫= resets) = Some id -> id ∉ live (sc_str sc)) ->
  Inv Y (Some wr) sc -> Inv Y None sc.
Proof.
  intros He Hr []. split; try done.
  - intros id st Hst. destruct (iv_streams id st Hst) as (H1 & H2 & H3). split; [done|]. split; [done|].
    case_bool_decide; [done|]. destruct H3 as [|(? & ? & _)]; [by left|by right].
  - intros id H1 H2. exfalso. by apply (Hr id (iv_reset id H1 H2)).
  - intros Hcf. destruct (iv_end Hcf).
    assert (forall id, id ∈ live (sc_str sc) -> rst_coming (waiting sc) (Some wr) id -> rst_coming (waiting sc) None id) as Hrst.
    { intros id Hin [?|(x & [= <-] & Hx)]; [by left|]. by destruct (Hr id Hx). }
    split; [| |done]; [by eauto|]. intros id H1 H2. right. destruct (ei_ended id H1 H2); eauto.
Qed.

(** A write starts. *)
Lemma Inv_log Y sc wr w :
  Inv Y (Some wr) sc -> wr_write wr = Some w -> (forall id, key wr = Some id -> id ∈ live (sc_str sc)) -> fresh_write wr sc ->
  Inv Y (Some wr) (log_write w sc).
Proof.
  intros [] Ew Hk [Hf1 Hf2]. destruct (iv_cur wr eq_refl) as [(w' & Ew' & Hsh) Hst]. assert (w' = w) as -> by congruence.
  assert (forall id, on_stream w = Some id -> key wr = Some id) as Hon.
  { intros id Ho. unfold key. destruct (wr_stream wr) as [s|]; cbn.
    - destruct Hsh as (_ & _ & Hi). destruct w; cbn in *; try done; try congruence. destruct (streamID =? 0); congruence.
    - destruct w; cbn in *; try done. by rewrite Hsh in Ho. }
  split; try done; cbn [sc_started log_write sc_str].
  - intros id [H|H]%used_snoc; [by apply iv_used|]. by apply Hst, Hon.
  - apply wire_reset_snoc; [done|]. intros id Hr Ho. apply (Hf1 id Hr). by apply Hk, Hon.
  - intros id [H|[H _]]%was_reset_snoc Hin; [by apply iv_reset|]. cbn. by rewrite Ew.
  - intros Hcf. destruct (iv_end Hcf). split; cbn [sc_started log_write sc_str]; [done| |].
    + intros id [H|H]%ended_snoc Hin; [by apply ei_ended|]. left. cbn. by rewrite Ew.
    + apply wire_ended_snoc; [done|]. intros id He Hs%sends_on_stream. pose proof (Hon id Hs) as Hki.
      apply (Hf2 Hcf ltac:(by rewrite Hki) id He). by apply Hk.
Qed.

(** ** Streams come and go *)
Definition rst_request (id code : Z) : FrameWriteRequest := mkFWR (Some (writeStreamError id code)) None None.

Lemma rst_request_shape id code : request_shape (rst_request id code).
Proof. by exists (writeStreamError id code). Qed.

(** END_STREAM was written on an open stream: it is half closed, and RST_STREAM is pushed. *)
Lemma Inv_half_close Y sc wr id st code s :
  Inv Y (Some wr) sc -> (wr_write wr ≫= ends) = Some id -> store (sc_str sc) !! id = Some st -> st_state st = stateOpen ->
  ws_Push (sc_sched sc) (rst_request id code) = Some s ->
  Inv Y None (set_sched s (put id (set_state stateHalfClosedLocal st) sc)) /\ sd_waiting s ⊆+ rst_request id code :: waiting sc.
Proof.
  intros HI He Hst Ho E. destruct (Inv_push Y _ sc s (rst_request id code) (rst_request_shape id code) ltac:(done) E HI) as [HI1 Hw].
  split; [|done]. pose proof (iv_streams _ _ _ HI id st Hst) as (_ & Hb & Hs).
  assert (id ∈ live (sc_str sc)) as Hin.
  { apply dec_stable. intros Hn. rewrite bool_decide_eq_false_2 in Hs by done. destruct Hs as [|[? _]]; congruence. }
  assert (sd_control_first -> forall cur, rst_coming (sd_waiting s) cur id) as Hrst.
  { intros Hcf cur. left. exists (rst_request id code). split; [|done].
    apply (sd_control_push _ _ _ Hcf (iv_sched _ _ _ HI) E); [done|by left]. }
  assert (forall i, was_reset (sc_started sc) i -> i ∉ live (sc_str sc)) as Hnr.
  { intros i Hr Hi. pose proof (iv_reset _ _ _ HI i Hr Hi) as Hx. cbn in Hx. destruct (wr_write wr) as [[]|]; try done. }
  apply (Inv_uncur Y _ wr).
  - intros Hcf i Hi. rewrite He in Hi. injection Hi as <-. intros _. by apply Hrst.
  - intros i Hi. destruct (wr_write wr) as [[]|]; done.
  - change (Inv Y (Some wr) (put id (set_state stateHalfClosedLocal st) (set_sched s sc))).
    apply (Inv_put Y _ _ id st); [done| | | |done].
    + destruct Hb as (H1 & H2 & H3). split; [done|]. split; [|done]. intros p Hp Hpe. destruct (H2 p Hp Hpe). split; [done|]. done.
    + cbn [sc_str set_sched]. by rewrite bool_decide_eq_true_2.
    + intros Hcf _ _. by apply Hrst.
Qed.

(** [closeStream] takes a live stream out of the table. *)
Definition removed (id : Z) (st : serverStream B) sc : conn :=
  let sc := put id (set_state stateClosed st) sc in set_str (delete_stream id (sc_str sc)) sc.

Lemma isPushed_even id : isPushed id = bool_decide (id mod 2 = 0).
Proof. unfold isPushed. case_bool_decide; lia. Qed.

Lemma live_counted (P : Z -> Prop) `{!forall x, Decision (P x)} (X : gset Z) id :
  id ∈ X -> P id -> 0 < Z.of_nat (size (filter P X)).
Proof.
  intros Hin Hp. pose proof (size_remove P X id Hin) as E. rewrite decide_True in E by done. lia.
Qed.

Lemma delete_table t id : id ∈ live t -> table_inv t -> table_inv (delete_stream (B := B) id t).
Proof.
  intros Hin []. destruct ti_curClient as (H1 & H2 & H3), ti_curPushed as (H4 & H5).
  pose proof (size_remove (fun id => id mod 2 = 1) (live t) id Hin) as Eo. fold (odd_ids (live t)) (odd_ids (live t ∖ {[id]})) in Eo.
  pose proof (size_remove (fun id => id mod 2 = 0) (live t) id Hin) as Ee. fold (even_ids (live t)) (even_ids (live t ∖ {[id]})) in Ee.
  pose proof (Z.mod_pos_bound id 2 ltac:(lia)).
  split; cbn [maxClientStreamID maxPushPromiseID curClientStreams curPushedStreams advMaxStreams live delete_stream]; try done;
    rewrite isPushed_even; case_bool_decide as Hp.
  - rewrite decide_False in Eo by lia. lia.
  - rewrite decide_True in Eo by lia. pose proof (live_counted (fun id => id mod 2 = 1) (live t) id Hin ltac:(cbv beta; lia)) as Hc. fold (odd_ids (live t)) in Hc.
    rewrite u32_id by (unfold is_u32; lia). lia.
  - rewrite decide_True in Ee by lia. pose proof (live_counted (fun id => id mod 2 = 0) (live t) id Hin ltac:(cbv beta; lia)) as Hc. fold (even_ids (live t)) in Hc.
    rewrite u32_id by (unfold is_u32; lia). lia.
  - rewrite decide_False in Ee by lia. lia.
Qed.

Lemma Inv_remove Y cur sc id st :
  Inv Y cur sc -> id ∈ live (sc_str sc) -> store (sc_str sc) !! id = Some st -> Inv ({[id]} ∪ Y) cur (removed id st sc).
Proof.
  intros HI Hin Hst. destruct HI as []. unfold removed.
  assert (forall i, is_Some (store (sc_str sc) !! i) -> is_Some (<[id := set_state stateClosed st]> (store (sc_str sc)) !! i)) as Hdom.
  { intros i Hi. destruct (decide (i = id)) as [->|]; [rewrite lookup_insert_eq; eauto|by rewrite lookup_insert_ne]. }
  assert (id ∉ Y) as HnY by (intros H; by destruct (iv_Y id H)).
  split; try done; cbn [sc_str sc_started sc_handlers set_str put set_table store live delete_stream].
  - intros i x [[<- <-]|[Hne Hx]]%lookup_insert_Some.
    + destruct (iv_streams id st Hst) as (H1 & (H2 & H3 & H4) & _). split; [done|]. split.
      * split; [done|]. split; [|done]. intros p Hp Hpe. destruct (H3 p Hp Hpe). done.
      * rewrite bool_decide_eq_false_2 by set_solver. by left.
    + destruct (iv_streams i x Hx) as (H1 & H2 & H3). split; [done|]. split; [done|]. revert H3. case_bool_decide as Hi.
      * rewrite bool_decide_eq_true_2 by set_solver. done.
      * rewrite bool_decide_eq_false_2 by set_solver. intros [|(? & ? & ?)]; [by left|right]. split; [done|]. split; [set_solver|done].
  - intros i [Hi _]%elem_of_difference. by apply Hdom, iv_live.
  - intros i [->%elem_of_singleton|Hi]%elem_of_union; [split; [apply Hdom; eauto|set_solver]|].
    destruct (iv_Y i Hi). split; [by apply Hdom|set_solver].
  - by apply (delete_table (mkST (<[id := set_state stateClosed st]> (store (sc_str sc))) _ _ _ _ _ _) id Hin); destruct iv_table; split.
  - intros wr Hw. destruct (iv_waiting wr Hw) as [Hs Hk]. split; [done|]. intros i Hi. specialize (Hk i Hi).
    destruct (decide (i = id)) as [->|]; [set_solver|]. set_solver.
  - intros wr Hw. destruct (iv_cur wr Hw) as [Hs Hk]. split; [done|]. intros i Hi. by apply Hdom, Hk.
  - intros i Hi. by apply Hdom, iv_used.
  - intros i Hi [Hl _]%elem_of_difference. by apply iv_reset.
  - intros Hcf. destruct (iv_end Hcf). split; [| |done]; cbn [sc_str sc_started set_str put set_table store live delete_stream].
    + intros i [Hl Hne]%elem_of_difference. rewrite lookup_insert_ne by set_solver. by apply ei_hcl.
    + intros i Hi [Hl _]%elem_of_difference. by apply ei_ended.
  - destruct iv_handlers as (H1 & H2 & H3). split; [done|]. split; [done|]. intros i Hi. by apply Hdom, H3.
Qed.

Lemma measure_removed sc id st :
  id ∈ live (sc_str sc) -> store (sc_str sc) !! id = Some st -> measure (removed id st sc) = measure sc - weight st.
Proof.
  intros Hin Hst. unfold removed. set (sc1 := put _ _ _).
  assert (measure sc1 = measure sc - weight st) as Hm.
  { unfold sc1. rewrite (measure_put sc id st) by done. rewrite bool_decide_eq_true_2 by done.
    change (weight (set_state stateClosed st)) with 0. lia. }
  assert (weight_of (sc_str sc1) id = 0) as Hw by (unfold weight_of, sc1; by rewrite lookup_put, decide_True).
  assert (id ∈ live (sc_str sc1)) as Hin1 by done.
  rewrite measure_set_str, Hm, (live_weight_split (sc_str sc1) id Hin1), Hw.
  change (live_weight (delete_stream id (sc_str sc1)))
    with (zsum (weight_of (delete_stream id (sc_str sc1))) (base.elements (live (sc_str sc1) ∖ {[id]}))).
  change (weight_of (delete_stream id (sc_str sc1))) with (weight_of (sc_str sc1)). lia.
Qed.

(** ** New streams *)
Lemma Inv_table Y cur sc t :
  store t = store (sc_str sc) -> live t = live (sc_str sc) -> maxClientStreamID (sc_str sc) <= maxClientStreamID t ->
  maxPushPromiseID (sc_str sc) <= maxPushPromiseID t -> table_inv t -> Inv Y cur sc -> Inv Y cur (set_str t sc).
Proof.
  intros E1 E2 H1 H2 Ht []. split; try done; cbn [sc_str set_str sc_started]; rewrite ?E1, ?E2; try done.
  - intros id st Hst. destruct (iv_streams id st Hst) as ((Hr & Ho & He) & H). split; [|by rewrite E2].
    split; [done|]. split; intros Hm; [specialize (Ho Hm)|specialize (He Hm)]; lia.
  - intros Hcf. destruct (iv_end Hcf). split; [| |done]; cbn [sc_str set_str sc_started]; rewrite ?E1, ?E2; done.
Qed.

(** A new stream, as [insert_stream] enters it. *)
Lemma insert_table t id (st : serverStream B) :
  store t !! id = None -> id ∉ live t -> 0 < id ->
  (if isPushed id then curPushedStreams t + 1 <= maxPushPromiseID t
   else curClientStreams t + 1 <= advMaxStreams t /\ curClientStreams t + 1 <= maxClientStreamID t) ->
  table_inv t -> table_inv (insert_stream id st t).
Proof.
  intros Hn Hl Hid Hc []. destruct ti_curClient as (H1 & H2 & H3), ti_curPushed as (H4 & H5).
  pose proof (size_add (fun id => id mod 2 = 1) (live t) id Hl) as Eo. fold (odd_ids (live t)) (odd_ids ({[id]} ∪ live t)) in Eo.
  pose proof (size_add (fun id => id mod 2 = 0) (live t) id Hl) as Ee. fold (even_ids (live t)) (even_ids ({[id]} ∪ live t)) in Ee.
  pose proof (Z.mod_pos_bound id 2 ltac:(lia)). rewrite isPushed_even in Hc.
  split; cbn [maxClientStreamID maxPushPromiseID curClientStreams curPushedStreams advMaxStreams live insert_stream]; try done;
    rewrite isPushed_even; case_bool_decide as Hp.
  - rewrite decide_False in Eo by lia. lia.
  - rewrite decide_True in Eo by lia. rewrite u32_id by (unfold is_u32; lia). lia.
  - rewrite decide_True in Ee by lia. rewrite u32_id by (unfold is_u32; lia). lia.
  - rewrite decide_False in Ee by lia. lia.
Qed.

Lemma Inv_insert Y cur sc id st :
  store (sc_str sc) !! id = None -> opened (sc_str sc) id -> body_ok st -> active (st_state st) -> st_state st <> stateHalfClosedLocal ->
  (if isPushed id then curPushedStreams (sc_str sc) + 1 <= maxPushPromiseID (sc_str sc)
   else curClientStreams (sc_str sc) + 1 <= advMaxStreams (sc_str sc) /\ curClientStreams (sc_str sc) + 1 <= maxClientStreamID (sc_str sc)) ->
  Inv Y cur sc -> Inv Y cur (set_str (insert_stream id st (sc_str sc)) sc) /\ Forall (fun wr => key wr <> Some id) (waiting sc).
Proof.
  intros Hn Ho Hb Ha Hh Hc HI. pose proof (insert_table (sc_str sc) id st Hn) as Ht. destruct HI as [].
  assert (id ∉ live (sc_str sc)) as Hl by (intros H; apply iv_live in H; rewrite Hn in H; by destruct H).
  assert (id ∉ Y) as HY by (intros H; apply iv_Y in H as [H _]; rewrite Hn in H; by destruct H).
  assert (forall i, is_Some (store (sc_str sc) !! i) -> is_Some (<[id := st]> (store (sc_str sc)) !! i)) as Hdom.
  { intros i Hi. destruct (decide (i = id)) as [->|]; [rewrite lookup_insert_eq; eauto|by rewrite lookup_insert_ne]. }
  assert (forall i, is_Some (store (sc_str sc) !! i) -> i <> id) as Hold by (intros i [x Hi] ->; congruence).
  split.
  - split; try done; cbn [sc_str sc_started sc_handlers set_str store live insert_stream].
    + intros i x [[<- <-]|[Hne Hx]]%lookup_insert_Some.
      * split; [done|]. split; [done|]. by rewrite bool_decide_eq_true_2 by set_solver.
      * destruct (iv_streams i x Hx) as (H1 & H2 & H3). split; [done|]. split; [done|]. revert H3. case_bool_decide as Hi.
        -- by rewrite bool_decide_eq_true_2 by set_solver.
        -- by rewrite bool_decide_eq_false_2 by set_solver.
    + intros i [->%elem_of_singleton|Hi]%elem_of_union; [rewrite lookup_insert_eq; eauto|by apply Hdom, iv_live].
    + intros i Hi. destruct (iv_Y i Hi) as [Hs Hni]. split; [by apply Hdom|]. specialize (Hold i Hs). set_solver.
    + apply Ht; [done| |done|done]. destruct Ho as [[? ?] _]. done.
    + intros wr Hw. destruct (iv_waiting wr Hw) as [Hs Hk]. split; [done|]. intros i Hi. specialize (Hk i Hi). set_solver.
    + intros wr Hw. destruct (iv_cur wr Hw) as [Hs Hk]. split; [done|]. intros i Hi. by apply Hdom, Hk.
    + intros i Hi. by apply Hdom, iv_used.
    + intros i Hi [->%elem_of_singleton|Hl']%elem_of_union; [|by apply iv_reset].
      destruct Hi as (l1 & w & l2 & E & _ & w' & Hw' & Hon). exfalso. refine (Hold id (iv_used id _) eq_refl). exists w'.
      split; [|done]. rewrite E. apply elem_of_app. by left.
    + intros Hcf. destruct (iv_end Hcf). split; [| |done]; cbn [sc_str sc_started set_str store live insert_stream].
      * intros i [->%elem_of_singleton|Hi]%elem_of_union; [rewrite lookup_insert_eq; cbn; congruence|].
        rewrite lookup_insert_ne by (apply not_eq_sym, Hold, iv_live, Hi). by apply ei_hcl.
      * intros i Hi [->%elem_of_singleton|Hl']%elem_of_union; [|by apply ei_ended].
        destruct Hi as (w & Hw & He). exfalso. refine (Hold id (iv_used id _) eq_refl). exists w. split; [done|].
        destruct w; cbn in He |- *; try done; [by destruct endStream|by destruct (rh_endStream w)].
    + destruct iv_handlers as (H1 & H2 & H3). split; [done|]. split; [done|]. intros i Hi. by apply Hdom, H3.
  - apply Forall_forall. intros wr Hw Hk. destruct (iv_waiting wr Hw) as [_ Hin]. specialize (Hin id Hk). set_solver.
Qed.

Lemma measure_insert sc id st :
  id ∉ live (sc_str sc) -> measure (set_str (insert_stream id st (sc_str sc)) sc) = measure sc + weight st.
Proof.
  intros Hl. rewrite measure_set_str. set (t' := insert_stream id st (sc_str sc)).
  assert (id ∈ live t') as Hin by (cbn; set_solver). rewrite (live_weight_split t' id Hin).
  unfold weight_of at 1. cbn [store t' insert_stream]. rewrite lookup_insert_eq.
  rewrite (live_weight_others (sc_str sc) t' id) by (intros i Hi; cbn; by apply lookup_insert_ne).
  replace (live t' ∖ {[id]}) with (live (sc_str sc)) by (apply leibniz_equiv; cbn; set_solver). fold (live_weight (sc_str sc)). lia.
Qed.

(** A request is handed to a handler. *)
Lemma Inv_handler Y cur sc id req h :
  is_Some (store (sc_str sc) !! id) -> id ∉ handler_ids sc ->
  (id mod 2 = 1 -> forall i, i ∈ handler_ids sc -> i mod 2 = 1 -> i < id) ->
  Inv Y cur sc -> Inv Y cur (runHandler id req h sc).
Proof.
  intros Hs Hn Hlt []. destruct iv_handlers as (H1 & H2 & H3).
  assert (handler_ids (runHandler id req h sc) = handler_ids sc ++ [id]) as E by (unfold handler_ids; cbn [sc_handlers runHandler]; by rewrite map_app).
  split; try done; rewrite ?E.
  - intros Hcf. destruct (iv_end Hcf). by split.
  - split; [|split].
    + apply NoDup_app. split; [done|]. split; [|by apply NoDup_singleton]. intros i Hi ->%list_elem_of_singleton. done.
    + rewrite filter_app. destruct (decide (id mod 2 = 1)) as [Ho|Ho].
      * rewrite filter_cons_True, filter_nil by done. apply StronglySorted_app_2; [|done|by repeat constructor].
        intros x y [Hx1 Hx2]%list_elem_of_filter ->%list_elem_of_singleton. by apply Hlt.
      * rewrite filter_cons_False, filter_nil, app_nil_r by done. done.
    + intros i [Hi| ->%list_elem_of_singleton]%elem_of_app; [by apply H3|done].
Qed.
End step.
