(* ===== verification/ServerKeep.v ===== *)
(** * Package http2: the operations of a server's connection keep its invariant

    The operations that write frames and close streams, over any function that schedules
    frames and keeps the invariant; then the write loop itself, with enough fuel for what
    waits.  Results are those of operations that return: a panic of the serve goroutine
    ends the connection. *)

From S2P Require Import Prelude HpackTable Hpack Flow DataBuffer Pipe Frame HttpGuts FrameMeta WriteFrames HeaderWrite WriteSched.
From S2P Require Import ServerRequest ServerConn ServerSched ServerInv ServerStep.

(** What a computation that does not panic has established; it never lacks fuel. *)
Definition post {A} (m : run A) (Q : A -> Prop) : Prop :=
  match m with Ret a => Q a | Panic => True | Fail _ => False end.

Lemma post_bind {A A'} (m : run A) (k : A -> run A') Q : post m (fun a => post (k a) Q) -> post (obind m k) Q.
Proof. by destruct m. Qed.

Lemma post_ret {A} (a : A) (Q : A -> Prop) : Q a -> post (Ret a) Q.
Proof. done. Qed.

Lemma post_mono {A} (m : run A) (Q Q' : A -> Prop) : post m Q -> (forall a, Q a -> Q' a) -> post m Q'.
Proof. destruct m; simpl; auto. Qed.

Lemma post_lift {A} (o : option A) Q : (forall a, o = Some a -> Q a) -> post (lift o) Q.
Proof. destruct o; simpl; auto. Qed.

(** One step: what a lookup finds, or what a lemma says. *)
Ltac post_get x E := apply post_bind, post_lift; intros x E.
Ltac post_use H := apply post_bind; eapply post_mono; [apply H|].

Section keep.
Context {S C W B U : Type} {WS : WriteScheduler S C} {SD : ServerScheduler S C} {FS : FrameSink W} {PB : PipeBuffer B serve_error} {BB : BodyBuffer B serve_error}.
Context (srv : Server) (ParseRequestURI : bytes -> option U) (hostURL : bytes -> U) (tlsState : bool) (env : environment (C := C)).
Abbreviation conn := (serverConn (S := S) (W := W) (B := B) (U := U)).
Implicit Types (sc : conn).
Abbreviation Inv := (Inv (C := C)).
Abbreviation rest := (rest (C := C)).

(** No struct of a stream is lost. *)
Definition stays sc sc' : Prop :=
  forall id, (is_Some (store (sc_str sc) !! id) -> is_Some (store (sc_str sc') !! id)) /\ (near id sc -> near id sc').

Lemma stays_trans sc sc' sc'' : stays sc sc' -> stays sc' sc'' -> stays sc sc''.
Proof. intros H G id. destruct (H id), (G id). auto. Qed.

Lemma stays_same sc sc' : sc_str sc' = sc_str sc -> sc_writer sc' = sc_writer sc -> stays sc sc'.
Proof. intros E1 E2 id. unfold near. by rewrite E1, E2. Qed.

Lemma stays_put sc id st : stays sc (put id st sc).
Proof. intros i. split; [|done]. rewrite lookup_put. by case_decide. Qed.

(** What an operation keeps while it adds at most [n] to the measure. *)
Definition kept (b : bool) (Y : gset Z) (n : Z) sc sc' : Prop :=
  rest b Y sc' /\ measure sc' <= measure sc + n /\ stays sc sc'.

Lemma kept_trans b Y n m k sc sc' sc'' : kept b Y n sc sc' -> kept b Y m sc' sc'' -> n + m <= k -> kept b Y k sc sc''.
Proof. intros (H1 & H2 & H3) (G1 & G2 & G3) Hk. split; [done|]. split; [lia|by apply (stays_trans sc sc')]. Qed.

Lemma kept_first b Y n sc sc' sc'' : kept b Y 0 sc sc' -> kept b Y n sc' sc'' -> kept b Y n sc sc''.
Proof. intros H G. apply (kept_trans b Y 0 n n sc sc'); [done|done|lia]. Qed.

Lemma kept_then b Y n sc sc' sc'' : kept b Y n sc sc' -> kept b Y 0 sc' sc'' -> kept b Y n sc sc''.
Proof. intros H G. apply (kept_trans b Y n 0 n sc sc'); [done|done|lia]. Qed.

Lemma kept_mono b Y n m sc sc' : kept b Y n sc sc' -> n <= m -> kept b Y m sc sc'.
Proof. intros (H1 & H2 & H3) Hm. split; [done|]. split; [lia|done]. Qed.

Lemma kept_refl b Y sc : rest b Y sc -> kept b Y 0 sc sc.
Proof. intros H. split; [done|]. split; [lia|by apply stays_same]. Qed.

Lemma measure_resched sc s : measure (set_sched s sc) = measure sc - zsum cost (waiting sc) + zsum cost (sd_waiting s).
Proof. unfold measure, waiting. cbn. lia. Qed.

(** A change of what the invariant does not look at. *)
Lemma rest_ext b Y sc sc' :
  sc_str sc' = sc_str sc -> sc_sched sc' = sc_sched sc -> sc_started sc' = sc_started sc -> sc_handlers sc' = sc_handlers sc ->
  sc_writer sc' = sc_writer sc -> writingFrame (sc_ws sc') = writingFrame (sc_ws sc) ->
  writingFrameAsync (sc_ws sc') = writingFrameAsync (sc_ws sc) -> inFrameScheduleLoop (sc_ws sc') = inFrameScheduleLoop (sc_ws sc) ->
  rest b Y sc -> rest b Y sc'.
Proof.
  intros E1 E2 E3 E4 E5 E6 E7 E8 (H1 & H2 & H3). unfold ServerInv.rest. rewrite E5, E6, E7, E8. split; [|done]. by apply (Inv_ext Y _ sc).
Qed.

Lemma kept_ext b Y sc sc' :
  sc_str sc' = sc_str sc -> sc_sched sc' = sc_sched sc -> sc_started sc' = sc_started sc -> sc_handlers sc' = sc_handlers sc ->
  sc_writer sc' = sc_writer sc -> writingFrame (sc_ws sc') = writingFrame (sc_ws sc) ->
  writingFrameAsync (sc_ws sc') = writingFrameAsync (sc_ws sc) -> inFrameScheduleLoop (sc_ws sc') = inFrameScheduleLoop (sc_ws sc) ->
  needToSendSettingsAck (sc_ws sc') = needToSendSettingsAck (sc_ws sc) ->
  rest b Y sc -> kept b Y 0 sc sc'.
Proof.
  intros E1 E2 E3 E4 E5 E6 E7 E8 E9 H. split; [by apply (rest_ext b Y sc)|]. rewrite (measure_ext sc sc' E1 E2 E9). split; [lia|].
  by apply stays_same.
Qed.

(** A stream's struct changes, but not its state. *)
Lemma kept_put b Y n sc id st st' :
  store (sc_str sc) !! id = Some st -> body_ok st' -> st_state st' = st_state st -> weight st' <= weight st + n -> 0 <= n ->
  rest b Y sc -> kept b Y n sc (put id st' sc).
Proof.
  intros Hst Hb Hs Hw Hn (HI & H2 & H3). split; [split; [|done]|].
  - by apply (Inv_put_same Y _ sc id st st').
  - rewrite (measure_put sc id st st' Hst). split; [case_bool_decide; lia|apply stays_put].
Qed.

Lemma kept_update b Y n sc id f :
  (forall st, store (sc_str sc) !! id = Some st -> (body_ok st -> body_ok (f st)) /\ st_state (f st) = st_state st /\ weight (f st) <= weight st + n) ->
  0 <= n -> is_Some (store (sc_str sc) !! id) -> rest b Y sc -> kept b Y n sc (update sc id f).
Proof.
  intros Hf Hn [st Hst] H. rewrite (update_put sc id f st Hst). destruct (Hf st Hst) as (H1 & H2 & H3).
  apply (kept_put b Y n sc id st); try done. apply H1. destruct H as (HI & _). by destruct (iv_streams _ _ _ HI id st Hst) as (_ & ? & _).
Qed.

(** What [kept_update] asks of a change to the other fields. *)
Lemma same_data n (st st' : serverStream B) :
  st_body st' = st_body st -> st_declBodyBytes st' = st_declBodyBytes st -> st_bodyBytes st' = st_bodyBytes st ->
  st_state st' = st_state st -> 0 <= n ->
  (body_ok st -> body_ok st') /\ st_state st' = st_state st /\ weight st' <= weight st + n.
Proof. intros E1 E2 E3 E4 Hn. unfold body_ok, weight. rewrite E1, E2, E3, E4. split_and!; [done|done|lia]. Qed.

(** *** Bodies *)
Lemma CloseWithError_err (p p' : pipe B serve_error unit) e : CloseWithError p (Some e) = Some p' -> p_err p' = Some (default e (p_err p)).
Proof.
  unfold CloseWithError, closeWithErr. simpl. destruct (p_err p) as [e'|] eqn:E; intros [= <-]; [done|].
  unfold closeDoneLocked. simpl. by destruct (p_donec p).
Qed.

Lemma BreakWithError_err (p p' : pipe B serve_error unit) e : BreakWithError p (Some e) = Some p' -> p_err p' = p_err p.
Proof.
  unfold BreakWithError, closeWithBreakErr. simpl. destruct (p_breakErr p) as [e'|] eqn:E; intros [= <-]; [done|].
  unfold closeDoneLocked. simpl. by destruct (p_donec p).
Qed.

(** A body changes, but is not closed with EOF. *)
Lemma body_change (st : serverStream B) p p' : st_body st = Some p -> (p_err p' = p_err p \/ p_err p' <> Some errEOF) ->
  (forall n, body_holds p n -> body_holds p' n) ->
  (body_ok st -> body_ok (set_body (Some p') st)) /\ st_state (set_body (Some p') st) = st_state st /\
  weight (set_body (Some p') st) <= weight st + 0.
Proof.
  intros Hp He Hb. split_and!; [|done|unfold weight; cbn; rewrite Hp; by destruct (st_state st)].
  intros (Hn & Hc & Hh). split; [done|]. split; cbn; intros q [= <-]; [|by apply Hb, Hh].
  intros Hq. destruct He as [He|He]; [|done]. apply (Hc p); congruence.
Qed.

(** ** Over a schedule *)
Section with_schedule.
Context (schedule : conn -> run conn) (b : bool) (room : Z).
Context (schedule_post : forall Y sc, rest b Y sc -> measure sc <= room -> post (schedule sc) (kept b Y 0 sc)).

Lemma schedule_after Y n sc sc1 : kept b Y n sc sc1 -> measure sc + n <= room -> post (schedule sc1) (kept b Y n sc).
Proof.
  intros Hk Hm. eapply post_mono; [apply (schedule_post Y); [apply Hk|destruct Hk as (_ & ? & _); lia]|].
  intros sc' H. eapply kept_trans; [exact Hk|exact H|lia].
Qed.

(** A stream that left is closed for [state], too. *)
Lemma state_gone Y cur sc id : Inv Y cur sc -> is_Some (store (sc_str sc) !! id) -> id ∉ live (sc_str sc) -> (state sc id).1 = stateClosed.
Proof.
  intros HI [st Hst] Hn. destruct (iv_streams _ _ _ HI id st Hst) as ((Hr & Ho & He) & _). unfold state, streams.
  rewrite bool_decide_eq_false_2 by done. cbn. pose proof (Z.mod_pos_bound id 2 ltac:(lia)).
  destruct (id mod 2 =? 1) eqn:Em.
  - specialize (Ho ltac:(lia)). by destruct (Z.leb_spec id (maxClientStreamID (sc_str sc))); [|lia].
  - specialize (He ltac:(lia)). by destruct (Z.leb_spec id (maxPushPromiseID (sc_str sc))); [|lia].
Qed.

Lemma shape_stream wr id : request_shape wr -> key wr = Some id -> isReset (wr_write wr) = false /\ StreamID wr = id.
Proof.
  intros (w & Ew & Hsh) Hk. unfold key in Hk. unfold StreamID. destruct (wr_stream wr) as [s|]; [|done]. cbn in Hk. injection Hk as <-.
  split; [|done]. rewrite Ew. destruct Hsh as (_ & Hf & _). by destruct w.
Qed.

(** The part of [writeFrame] that pushes. *)
Lemma pushed_kept Y wr sc s sc1 :
  rest b Y sc -> request_shape wr -> (forall id, key wr = Some id -> id ∈ live (sc_str sc)) ->
  ws_Push (sc_sched sc) wr = Some s -> sc_str sc1 = sc_str sc -> sc_sched sc1 = s -> sc_started sc1 = sc_started sc ->
  sc_handlers sc1 = sc_handlers sc -> sc_writer sc1 = sc_writer sc -> writingFrame (sc_ws sc1) = writingFrame (sc_ws sc) ->
  writingFrameAsync (sc_ws sc1) = writingFrameAsync (sc_ws sc) -> inFrameScheduleLoop (sc_ws sc1) = inFrameScheduleLoop (sc_ws sc) ->
  needToSendSettingsAck (sc_ws sc1) = needToSendSettingsAck (sc_ws sc) -> kept b Y (cost wr) sc sc1.
Proof.
  intros (HI & H2 & H3) Hsh Hk E E1 E2 E3 E4 E5 E6 E7 E8 E9.
  destruct (Inv_push Y _ sc s wr Hsh ltac:(intros id Hi; apply elem_of_union; left; by apply Hk) E HI) as [HI1 Hw].
  split; [|split].
  - unfold ServerInv.rest. rewrite E5, E6, E7, E8. split; [|done]. by apply (Inv_ext Y _ (set_sched s sc)).
  - apply cost_submseteq in Hw. unfold measure. unfold waiting at 1. rewrite E1, E2, E9. cbn in Hw. unfold zsum in *. lia.
  - by apply stays_same.
Qed.
Lemma state_live sc id st : id ∈ live (sc_str sc) -> store (sc_str sc) !! id = Some st -> state sc id = (st_state st, Some st).
Proof. intros Hl Hst. unfold state, streams. by rewrite bool_decide_eq_true_2, Hst by done. Qed.

(** What [writeFrame] does before it pushes; a frame of a stream that left is ignored. *)
Lemma key_ignored Y wr sc id :
  rest b Y sc -> request_shape wr -> key wr = Some id -> is_Some (store (sc_str sc) !! id) -> id ∉ live (sc_str sc) ->
  negb (StreamID wr =? 0) && bool_decide ((state sc (StreamID wr)).1 = stateClosed) && negb (isReset (wr_write wr)) = true.
Proof.
  intros (HI & _) Hsh Hk Hst Hn. destruct (shape_stream wr id Hsh Hk) as [Hr ->]. rewrite Hr.
  rewrite (state_gone Y _ sc id HI Hst Hn). destruct Hst as [st Hst].
  destruct (iv_streams _ _ _ HI id st Hst) as ((Hid & _) & _). destruct (Z.eqb_spec id 0); [lia|]. done.
Qed.

Lemma writeFrame_post Y wr sc :
  rest b Y sc -> request_shape wr -> (forall id, key wr = Some id -> is_Some (store (sc_str sc) !! id)) ->
  measure sc + cost wr <= room -> post (writeFrame schedule wr sc) (kept b Y (cost wr) sc).
Proof.
  intros HR Hsh Hk Hm. pose proof (cost_pos wr) as Hc. unfold writeFrame. cbv zeta. set (ig := negb _ && _ && _).
  assert (forall id, key wr = Some id -> ig = false -> id ∈ live (sc_str sc)) as Hlive.
  { intros id Hid Hig. destruct (decide (id ∈ live (sc_str sc))) as [|Hn]; [done|]. unfold ig in Hig.
    rewrite (key_ignored Y wr sc id HR Hsh Hid (Hk id Hid) Hn) in Hig. done. }
  apply post_bind. eapply (post_mono _ (fun '(sc1, ig1) => kept b Y 0 sc sc1 /\ live (sc_str sc1) = live (sc_str sc) /\ (ig1 = false -> ig = false))).
  - assert (post (Ret (sc, ig) : run (conn * bool)) (fun '(sc1, ig1) =>
      kept b Y 0 sc sc1 /\ live (sc_str sc1) = live (sc_str sc) /\ (ig1 = false -> ig = false))) as Hsame.
    { split; [by apply kept_refl|done]. }
    destruct (wr_write wr) as [w|]; [|exact Hsame]. destruct w; try exact Hsame.
    + post_get s Es. post_get st Est. split; [|by split]. apply kept_update; [|lia|by exists st|done]. intros st' _. by apply same_data.
    + post_get s Es. post_get st Est. destruct (st_wroteHeaders st); [|exact Hsame]. destruct (wr_done wr); [done|].
      split; [by apply kept_refl|done].
  - intros [sc1 ig1] (Hk1 & Hl1 & Hig). apply post_bind. destruct ig1.
    + apply (schedule_after Y); [|lia]. apply (kept_mono b Y 0); [done|lia].
    + assert (forall sc2, kept b Y 0 sc1 sc2 -> sc_str sc2 = sc_str sc1 -> sc_sched sc2 = sc_sched sc1 ->
        post (let! s := lift (ws_Push (sc_sched sc2) wr) in Ret (set_sched s sc2)) (fun sc3 => post (schedule sc3) (kept b Y (cost wr) sc))) as Hpush.
      { intros sc2 Hk2 E1 E2. post_get s Es. cbn. apply (schedule_after Y); [|lia]. apply (kept_first b Y _ sc sc1 _ Hk1), (kept_first b Y _ sc1 sc2 _ Hk2).
        apply (pushed_kept Y wr sc2 s); try done; [apply Hk2|].
        intros id Hid. rewrite E1, Hl1. apply Hlive; auto. }
      apply Hpush.
      * destruct (isControl wr); [|apply kept_refl, Hk1]. destruct (_ <? 0); apply kept_ext; try done; apply Hk1.
      * destruct (isControl wr); [|done]. by destruct (_ <? 0).
      * destruct (isControl wr); [|done]. by destruct (_ <? 0).
Qed.

Lemma goAway_post Y code sc : rest b Y sc -> measure sc <= room -> post (goAway schedule code sc) (kept b Y 0 sc).
Proof.
  intros HR Hm. unfold goAway. destruct (inGoAway (sc_ws sc)).
  - cbn. destruct (_ =? _); [|by apply kept_refl]. by apply kept_ext.
  - apply (schedule_after Y); [|lia]. by apply kept_ext.
Qed.

Lemma resetStream_post Y id code sc : rest b Y sc -> measure sc + 1 <= room -> post (resetStream schedule id code sc) (kept b Y 1 sc).
Proof.
  intros HR Hm. unfold resetStream. post_use (writeFrame_post Y (rst_request id code) sc HR (rst_request_shape id code)); [done|exact Hm|].
  intros sc1 Hk. cbn. change (cost (rst_request id code)) with 1 in Hk. unfold streams. case_bool_decide as Hl; [|done].
  destruct (store (sc_str sc1) !! id) as [st|] eqn:Est; [|done].
  apply (kept_then b Y _ sc sc1 _ Hk). apply kept_update; [|lia|by exists st|apply Hk]. intros st' _. by apply same_data.
Qed.

Lemma sendWindowUpdate32_post Y st n sc :
  rest b Y sc -> (forall id, st = Some id -> is_Some (store (sc_str sc) !! id)) -> measure sc + 1 <= room ->
  post (sendWindowUpdate32 schedule st n sc) (kept b Y (if n =? 0 then 0 else 1) sc).
Proof.
  intros HR Hst Hm. unfold sendWindowUpdate32. destruct (n =? 0); [by apply kept_refl|]. destruct (n <? 0); [done|]. cbv zeta.
  set (wr := mkFWR _ _ _). assert (request_shape wr /\ forall id, key wr = Some id -> st = Some id) as [Hsh Hk].
  { destruct st as [id|]; (split; [by eexists|]); [|done]. intros id' E. exact E. }
  post_use (writeFrame_post Y wr sc HR Hsh); [intros id Hid; by apply Hst, Hk|exact Hm|]. intros sc1 Hk1.
  apply post_bind, post_lift. intros [fl ok] _. destruct ok; [|done]. cbn.
  apply (kept_then b Y _ sc sc1 _ Hk1), kept_ext; try done. apply Hk1.
Qed.

Lemma i32_bounds x : - 2 ^ 31 <= i32 x < 2 ^ 31.
Proof. unfold i32, swrap. change (32 - 1) with 31. pose proof (Z.mod_pos_bound (x + 2 ^ 31) (2 ^ 32) ltac:(lia)). lia. Qed.

(** An [int32] takes at most one round: what is left is nothing. *)
Lemma updateLoop_post Y st n sc :
  rest b Y sc -> (forall id, st = Some id -> is_Some (store (sc_str sc) !! id)) -> measure sc + 1 <= room -> - 2 ^ 31 <= n < 2 ^ 31 ->
  post (updateLoop schedule 1 st n sc) (fun '(n', sc') => kept b Y (if n' =? n then 0 else 1) sc sc' /\ (n' = n \/ n' = 0)).
Proof.
  intros HR Hst Hm Hn. unfold updateLoop. destruct (n >=? maxUint31) eqn:E.
  - change maxUint31 with (2 ^ 31 - 1) in *. assert (n = 2 ^ 31 - 1) as -> by lia.
    post_use (sendWindowUpdate32_post Y st (2 ^ 31 - 1) sc HR Hst Hm). intros sc1 Hk. rewrite Z.sub_diag. change (i32 0) with 0. simpl. auto.
  - cbn. rewrite Z.eqb_refl. split; [by apply kept_refl|by left].
Qed.

Lemma sendWindowUpdate_post Y st sc :
  rest b Y sc -> (forall id, st = Some id -> is_Some (store (sc_str sc) !! id)) -> measure sc + 1 <= room ->
  post (sendWindowUpdate srv schedule st sc) (kept b Y 1 sc).
Proof.
  intros HR Hst Hm. unfold sendWindowUpdate. post_get avail Ea. cbv zeta.
  destruct (avail >? _); [apply (kept_mono b Y 0); [by apply kept_refl|lia]|].
  set (n := i32 _). post_use (updateLoop_post Y st n sc HR Hst Hm); [apply i32_bounds|]. intros [n' sc1] [Hk Hn].
  destruct (Z.eqb_spec n' n) as [->|Hne].
  - eapply post_mono; [apply (sendWindowUpdate32_post Y)|]; [apply Hk| |destruct Hk as (_ & ? & _); lia|].
    + intros id Hid. apply Hk; auto.
    + intros sc2 Hk2. apply (kept_first b Y _ sc sc1 _ Hk). apply (kept_mono _ _ _ _ _ _ Hk2). by destruct (n =? 0).
  - destruct Hn as [->| ->]; done.
Qed.

(** *** Closing a stream

    While its scheduled frames are dropped it is no longer live; [1] for returning the
    connection's window. *)
Definition body_cost (st : serverStream B) : Z := match st_body st with Some _ => 1 | None => 0 end.

Lemma closeStream_post Y id err st sc :
  store (sc_str sc) !! id = Some st -> err <> errEOF -> rest b ({[id]} ∪ Y) (removed id st sc) ->
  measure (removed id st sc) + body_cost st <= room ->
  post (closeStream srv env schedule id err sc) (kept b Y (body_cost st) (removed id st sc)).
Proof.
  intros Hst Herr HR Hm. unfold closeStream. post_get st0 E0. assert (st0 = st) as -> by congruence. clear E0.
  destruct (_ || _); [done|]. cbv zeta. rewrite (update_put sc id _ st Hst). fold (removed id st sc).
  set (sc0 := removed id st sc) in *. assert (is_Some (store (sc_str sc0) !! id)) as Hid.
  { exists (set_state stateClosed st). unfold sc0, removed. cbn. apply lookup_insert_eq. }
  assert (0 <= body_cost st) as Hc by (unfold body_cost; by destruct (st_body st)).
  apply post_bind, (post_mono _ (kept b ({[id]} ∪ Y) 0 sc0)).
  { case_bool_decide; [|by apply kept_refl]. destruct (env_keepAlivesDisabled env _); [|by apply kept_ext].
    eapply post_mono; [apply (goAway_post ({[id]} ∪ Y)); [by apply (rest_ext b _ sc0)|change (measure sc0 <= room); lia]|].
    intros sc1 Hk. apply (kept_first b _ _ sc0 (next_tick sc0)); [by apply kept_ext|done]. }
  intros sc1 Hk1. apply post_bind, (post_mono _ (kept b ({[id]} ∪ Y) (body_cost st) sc0)).
  { unfold body_cost in *. destruct (st_body st); [|exact Hk1].
    post_use (sendWindowUpdate_post ({[id]} ∪ Y) None sc1); [apply Hk1|done|destruct Hk1 as (_ & ? & _); lia|].
    intros sc2 Hk2. post_get st2 E2. post_get p2 Ep2. post_get p3 Ep3. pose proof Ep3 as Hc3. apply CloseWithError_err in Ep3.
    apply (kept_then b _ _ sc0 sc2); [by apply (kept_first b _ _ sc0 sc1)|]. apply kept_update; [|lia|by exists st2|apply Hk2].
    intros st' Hst'. assert (st' = st2) as -> by congruence. apply (body_change st2 p2); [done| |by intros n; apply holds_close with (1 := Hc3)]. rewrite Ep3.
    destruct (p_err p2) as [e|] eqn:Ee; [by left|right]. cbn. congruence. }
  intros sc2 Hk2. post_get st2 E2. destruct (st_cw st2); [done|].
  assert (kept b ({[id]} ∪ Y) (body_cost st) sc0 (update sc2 id close_cw)) as ((HI & H2 & H3) & Hm3 & Hs3).
  { apply (kept_then b _ _ sc0 sc2 _ Hk2). apply kept_update; [|lia|by exists st2|apply Hk2]. intros st' _. by apply same_data. }
  post_get s Es. cbn. destruct (Inv_sched_close Y _ _ s id Es HI) as [HI' Hw]. split; [done|]. split; [|exact Hs3].
  apply cost_submseteq in Hw. unfold measure in *. cbn in *. unfold waiting at 1. cbn. lia.
Qed.

Lemma body_cost_le (st : serverStream B) : active (st_state st) -> body_cost st <= weight st.
Proof. unfold active, body_cost, weight. intros [H1 H2]. destruct (st_state st), (st_body st); try done; lia. Qed.

Lemma stays_removed id st sc i :
  (is_Some (store (sc_str sc) !! i) -> is_Some (store (sc_str (removed id st sc)) !! i)) /\
  (i <> id \/ sc_writer sc = None -> near i sc -> near i (removed id st sc)).
Proof.
  split; [unfold removed; cbn; rewrite lookup_insert_is_Some'; auto|]. intros [Hne| Hw] [Hl|Hk].
  - left. cbn. set_solver.
  - by right.
  - right. change (sc_writer (removed id st sc)) with (sc_writer sc). by rewrite Hw.
  - by right.
Qed.

(** A stream of [sc.streams] is closed while another frame may be written. *)
Definition closed_kept (Y : gset Z) (id : Z) sc sc' : Prop :=
  rest b Y sc' /\ measure sc' <= measure sc /\
  forall i, (is_Some (store (sc_str sc) !! i) -> is_Some (store (sc_str sc') !! i)) /\ (i <> id -> near i sc -> near i sc').

Lemma close_live_post Y id err sc :
  rest b Y sc -> id ∈ live (sc_str sc) -> err <> errEOF -> measure sc <= room ->
  post (closeStream srv env schedule id err sc) (closed_kept Y id sc).
Proof.
  intros (HI & H2 & H3) Hl Herr Hm. destruct (iv_live _ _ _ HI id Hl) as [st Hst].
  destruct (iv_streams _ _ _ HI id st Hst) as (_ & _ & Hact). rewrite bool_decide_eq_true_2 in Hact by done.
  pose proof (measure_removed sc id st Hl Hst) as Hmr. pose proof (body_cost_le st Hact) as Hc.
  eapply post_mono; [apply (closeStream_post Y id err st sc Hst Herr); [|lia]|].
  - split; [|done]. by apply Inv_remove.
  - intros sc' (HR' & Hm' & Hs'). split; [done|]. split; [lia|]. intros i. destruct (Hs' i) as [G1 G2].
    destruct (stays_removed id st sc i) as [F1 F2]. auto.
Qed.

(** A stream is closed after the frame that ended it. *)
Lemma close_written_post Y wr id err sc :
  Inv Y (Some wr) sc -> sc_writer sc = None -> inFrameScheduleLoop (sc_ws sc) = b -> id ∈ live (sc_str sc) ->
  (forall i, (wr_write wr ≫= ends) = Some i \/ (wr_write wr ≫= resets) = Some i -> i = id) ->
  err <> errEOF -> measure sc <= room ->
  post (closeStream srv env schedule id err sc) (kept b Y 0 sc).
Proof.
  intros HI Hw H3 Hl Hwr Herr Hm. destruct (iv_live _ _ _ HI id Hl) as [st Hst].
  destruct (iv_streams _ _ _ HI id st Hst) as (_ & _ & Hact). rewrite bool_decide_eq_true_2 in Hact by done.
  pose proof (measure_removed sc id st Hl Hst) as Hmr. pose proof (body_cost_le st Hact) as Hc.
  assert (Hn : forall i, i = id -> i ∉ live (sc_str (removed id st sc))) by (intros i ->; cbn; set_solver).
  eapply post_mono; [apply (closeStream_post Y id err st sc Hst Herr); [|lia]|].
  - unfold ServerInv.rest. change (sc_writer (removed id st sc)) with (sc_writer sc). rewrite Hw. split; [|auto].
    apply (Inv_uncur _ _ wr); [..|by apply Inv_remove].
    + intros _ i Hi Hli. exfalso. apply (Hn i); auto.
    + intros i Hi. apply Hn. auto.
  - intros sc' (HR' & Hm' & Hs'). split; [done|]. split; [lia|]. intros i. destruct (Hs' i) as [G1 G2].
    destruct (stays_removed id st sc i) as [F1 F2]. auto.
Qed.

(** *** After a frame was written *)
Lemma ends_shape wr id : request_shape wr -> writeEndsStream (wr_write wr) = Some true -> key wr = Some id ->
  (wr_write wr ≫= ends) = Some id /\ (wr_write wr ≫= resets) = None.
Proof.
  intros (w & Ew & Hsh) He Hk. rewrite Ew in He |- *. unfold key in Hk. destruct (wr_stream wr) as [s|]; [|done].
  cbn in Hk. injection Hk as <-. destruct Hsh as (_ & _ & Hf).
  destruct w as [| | |id p es| | | | |w| | |]; try done; cbn in He |- *; injection He as Hes; cbn in Hf.
  - rewrite Hes. auto.
  - rewrite Hes. auto.
Qed.

(** What is being written is of a live stream, unless the stream is closed. *)
Lemma written_live Y wr sc id st :
  Inv Y (Some wr) sc -> key wr = Some id -> store (sc_str sc) !! id = Some st -> st_state st = stateClosed \/ id ∈ live (sc_str sc).
Proof.
  intros HI Hk Hst. destruct (iv_streams _ _ _ HI id st Hst) as (_ & _ & H). case_bool_decide; [by right|left].
  destruct H as [H|(_ & _ & H)]; [done|]. cbn in H. congruence.
Qed.

Lemma half_close_post Y wr id st sc :
  Inv Y (Some wr) sc -> sc_writer sc = None -> inFrameScheduleLoop (sc_ws sc) = b -> (wr_write wr ≫= ends) = Some id ->
  store (sc_str sc) !! id = Some st -> st_state st = stateOpen -> id ∈ live (sc_str sc) -> measure sc <= room ->
  post (resetStream schedule id ErrCodeNo (update sc id (set_state stateHalfClosedLocal))) (kept b Y 0 sc).
Proof.
  intros HI Hw H3 He Hst Hop Hl Hm. unfold resetStream, writeFrame. rewrite (update_put sc id _ st Hst).
  set (sc0 := put id _ sc). cbv zeta. rewrite andb_false_r. apply post_bind. cbn [wr_write]. change (isControl _) with true. cbn [obind]. cbv iota beta.
  match goal with |- context [if ?c then close_conn ?x else ?y] => set (sc1 := if c then close_conn x else y) end.
  assert (sc_str sc1 = sc_str sc0 /\ sc_sched sc1 = sc_sched sc0 /\ sc_started sc1 = sc_started sc0 /\
    sc_handlers sc1 = sc_handlers sc0 /\ sc_writer sc1 = None /\ inFrameScheduleLoop (sc_ws sc1) = b /\
    needToSendSettingsAck (sc_ws sc1) = needToSendSettingsAck (sc_ws sc0)) as (E1 & E2 & E3 & E4 & E5 & E6 & E7).
  { unfold sc1. by destruct (_ <? 0). }
  clearbody sc1. apply post_bind. post_get s Es. rewrite E2 in Es. destruct (Inv_half_close Y sc wr id st ErrCodeNo s HI He Hst Hop Es) as [HI' Hsub].
  fold sc0 in HI'. assert (kept b Y 0 sc (set_sched s sc1)) as Hk.
  { split; [|split].
    - unfold ServerInv.rest. cbn. rewrite E5, E6. split; [|auto]. by apply (Inv_ext Y None (set_sched s sc0)).
    - apply cost_submseteq in Hsub. change (zsum cost (rst_request id ErrCodeNo :: waiting sc)) with (1 + zsum cost (waiting sc)) in Hsub.
      pose proof (measure_put sc id st (set_state stateHalfClosedLocal st) Hst) as Hp. rewrite bool_decide_eq_true_2 in Hp by done.
      unfold weight in Hp. rewrite Hop in Hp. cbn [st_state set_state] in Hp. fold sc0 in Hp.
      rewrite (measure_ext (set_sched s sc0) (set_sched s sc1)), measure_resched by done. change (waiting sc0) with (waiting sc). lia.
    - intros i. split; [|intros _; right; cbn; by rewrite E5]. cbn. rewrite E1. unfold sc0. rewrite lookup_put. by case_decide. }
  apply post_ret. eapply post_mono; [apply (schedule_after Y 0 sc _ Hk)|]; [lia|]. intros sc2 Hk2. cbn. unfold streams. case_bool_decide; [|done].
  destruct (store (sc_str sc2) !! id) as [st2|] eqn:Est2; [|done].
  apply (kept_then b Y _ sc sc2 _ Hk2). apply kept_update; [|lia|by exists st2|apply Hk2]. intros st' _. by apply same_data.
Qed.

(** Nothing is left to do for the frame that was written. *)
Lemma written_done Y wr sc :
  Inv Y (Some wr) sc -> sc_writer sc = None -> inFrameScheduleLoop (sc_ws sc) = b ->
  (sd_control_first -> forall id, (wr_write wr ≫= ends) = Some id -> id ∈ live (sc_str sc) -> rst_coming (waiting sc) None id) ->
  (forall id, (wr_write wr ≫= resets) = Some id -> id ∉ live (sc_str sc)) -> kept b Y 0 sc sc.
Proof.
  intros HI Hw H3 He Hr. apply kept_refl. unfold ServerInv.rest. rewrite Hw. split; [|auto]. by apply (Inv_uncur Y sc wr).
Qed.

Lemma closeAfterWrite_post Y wr sc :
  Inv Y (Some wr) sc -> sc_writer sc = None -> inFrameScheduleLoop (sc_ws sc) = b -> measure sc <= room ->
  post (closeAfterWrite srv env schedule wr sc) (kept b Y 0 sc).
Proof.
  intros HI Hw H3 Hm. destruct (iv_cur _ _ _ HI wr eq_refl) as [Hsh Hkey]. unfold closeAfterWrite. post_get es Ees. destruct es.
  - post_get s Es. assert (key wr = Some (s_id s)) as Hk by (unfold key; by rewrite Es).
    destruct (ends_shape wr (s_id s) Hsh Ees Hk) as [He Hr]. post_get st Est.
    destruct (written_live Y wr sc (s_id s) st HI Hk Est) as [Hcl|Hl].
    { rewrite Hcl. apply (written_done Y wr); try done; [|rewrite Hr; done]. intros _ i [= <-]%(eq_trans (eq_sym He)) Hl.
      destruct (iv_streams _ _ _ HI _ st Est) as (_ & _ & Hact). rewrite bool_decide_eq_true_2 in Hact by done. by destruct Hact. }
    destruct (iv_streams _ _ _ HI _ st Est) as (_ & _ & Hact). rewrite bool_decide_eq_true_2 in Hact by done.
    destruct (st_state st) eqn:Estate; try (by destruct Hact).
    + by apply (half_close_post Y wr _ st).
    + apply (written_done Y wr); try done; [|rewrite Hr; done]. intros Hcf i [= <-]%(eq_trans (eq_sym He)) _.
      destruct (ei_hcl _ _ (iv_end _ _ _ HI Hcf) (s_id s) Hl ltac:(by rewrite Est; cbn; rewrite Estate)) as [H|(w & [= <-] & Hrs)]; [by left|].
      congruence.
    + apply (close_written_post Y wr); try done. intros i [Hi|Hi]; congruence.
  - assert ((wr_write wr ≫= ends) = None) as He.
    { destruct (wr_write wr) as [w|]; [|done]. destruct w; try done; cbn in Ees |- *; injection Ees as ->; done. }
    assert ((wr_write wr ≫= resets) = None -> kept b Y 0 sc sc) as Hdone.
    { intros Hr. apply (written_done Y wr); try done; rewrite ?He, ?Hr; done. }
    destruct (wr_write wr) as [w|] eqn:Ew; [|done]. destruct w; try (apply Hdone; done).
    + post_get s Es. destruct Hsh as (w & Ew' & Hsh). rewrite Es in Hsh. assert (w = handlerPanicRST StreamID) as -> by congruence.
      destruct Hsh as (_ & _ & Hid). cbn in Hid. injection Hid as ->.
      assert (key wr = Some (s_id s)) as Hk by (unfold key; by rewrite Es). destruct (Hkey _ Hk) as [st Est].
      destruct (written_live Y wr sc (s_id s) st HI Hk Est) as [Hcl|Hl].
      { unfold closeStream. post_get st' Est'. assert (st' = st) as -> by congruence. by rewrite Hcl. }
      apply (close_written_post Y wr); try done. rewrite Ew. cbn. intros i [Hi|Hi]; congruence.
    + unfold streams. case_bool_decide as Hl.
      * destruct (iv_live _ _ _ HI _ Hl) as [st Est]. rewrite Est. apply (close_written_post Y wr); try done.
        rewrite Ew. cbn. intros i [Hi|Hi]; congruence.
      * apply (written_done Y wr); try done; rewrite Ew; [done|]. cbn. by intros i [= <-].
Qed.

Lemma replyToWriter_post Y done err sc : rest b Y sc -> post (replyToWriter done err sc) (kept b Y 0 sc).
Proof.
  intros HR. unfold replyToWriter. destruct done as [ch|]; [|by apply kept_refl]. destruct (sc_chans sc !! ch); [done|].
  by apply kept_ext.
Qed.

Lemma wroteFrame_post Y wr err sc :
  Inv Y (Some wr) sc -> sc_writer sc = None -> inFrameScheduleLoop (sc_ws sc) = b -> measure sc <= room ->
  post (wroteFrame srv env schedule wr err sc) (kept b Y 0 sc).
Proof.
  intros HI Hw H3 Hm. unfold wroteFrame. destruct (writingFrame (sc_ws sc)); [|done]. cbn [negb]. cbv zeta.
  set (sc0 := on_ws _ sc). assert (measure sc0 = measure sc) as Hm0 by done.
  post_use (closeAfterWrite_post Y wr sc0); [by apply (Inv_ext Y _ sc)|done|done|lia|]. intros sc1 Hk1.
  apply post_bind, (post_mono _ (kept b Y 0 sc)).
  - assert (kept b Y 0 sc sc1) as Hk.
    { destruct Hk1 as (G1 & G2 & G3). split; [done|]. split; [lia|]. intros i. apply (G3 i). }
    eapply post_mono; [apply (replyToWriter_post Y), Hk|]. intros sc2. apply (kept_then b Y 0 sc sc1 _ Hk).
  - intros sc2 Hk2. apply (schedule_after Y 0 sc); [done|lia].
Qed.

(** *** New streams *)
Lemma new_flow_post fl addr conn n : post (new_flow fl addr conn n) (fun _ => True).
Proof. unfold new_flow. post_get fl1 E1. apply post_bind, post_lift. by intros [fl2 ok] _. Qed.

Lemma newStream_post Y cur id pusher s sc :
  Inv Y cur sc -> store (sc_str sc) !! id = None -> opened (sc_str sc) id -> active s -> s <> stateHalfClosedLocal ->
  (if isPushed id then curPushedStreams (sc_str sc) + 1 <= maxPushPromiseID (sc_str sc)
   else curClientStreams (sc_str sc) + 1 <= advMaxStreams (sc_str sc) /\ curClientStreams (sc_str sc) + 1 <= maxClientStreamID (sc_str sc)) ->
  post (newStream srv id pusher s sc) (fun sc' =>
    Inv Y cur sc' /\ measure sc' <= measure sc + (if bool_decide (s = stateOpen) then 2 else 0) /\
    sc_str sc' = insert_stream id (mkSS id None false false 0 0 s false false false None None) (sc_str sc) /\
    sc_writer sc' = sc_writer sc /\ sc_ws sc' = sc_ws sc /\ sc_started sc' = sc_started sc /\ sc_handlers sc' = sc_handlers sc).
Proof.
  intros HI Hn Ho Ha Hs Hc. unfold newStream. destruct (id =? 0); [done|].
  post_use (new_flow_post). intros fl1 _. post_use (new_flow_post). intros fl2 _. cbv zeta. set (st := mkSS id _ _ _ _ _ _ _ _ _ _ _).
  set (sc0 := set_flows fl2 sc). post_get ws Ews. cbn [post].
  destruct (Inv_insert Y cur sc0 id st) as [HI1 Hk]; try done; [by split; [right|]|by apply (Inv_ext Y cur sc)|].
  destruct (sd_open_law _ _ _ _ (iv_sched _ _ _ HI1) Hk Ews) as [Hok Hsub].
  split_and!; try done.
  - apply (Inv_shrink Y cur (set_str (insert_stream id st (sc_str sc0)) sc0)); try done. intros Hcf. by apply (sd_control_open _ id pusher).
  - assert (id ∉ live (sc_str sc0)) as Hnl by (intros Hl; destruct (iv_live _ _ _ HI id Hl); congruence).
    rewrite measure_resched, (measure_insert sc0 id st Hnl). apply cost_submseteq in Hsub. change (measure sc0) with (measure sc).
    assert (weight st = if bool_decide (s = stateOpen) then 2 else 0) as ->.
    { unfold weight. cbn. destruct Ha. destruct s; done. }
    change (waiting (set_str _ sc0)) with (waiting sc) in *. change (sd_waiting (sc_sched _)) with (waiting sc) in Hsub. lia.
Qed.

(** A frame that is yet to be written, and what it was before a stream was promised. *)
Definition promised (Y : gset Z) (wr : FrameWriteRequest) (id : Z) sc sc' : Prop :=
  Inv Y (Some wr) sc' /\ sc_writer sc' = None /\ inFrameScheduleLoop (sc_ws sc') = b /\ measure sc' <= measure sc /\
  sc_started sc' = sc_started sc /\ live (sc_str sc') = {[id]} ∪ live (sc_str sc) /\ store (sc_str sc) !! id = None /\ stays sc sc'.

(** Frames are written in the loop, where a call of [schedule] starts nothing. *)
Context (schedule_idle : forall sc, inFrameScheduleLoop (sc_ws sc) = b -> sc_writer sc = None -> post (schedule sc) (fun sc' => sc_writer sc' = None)).

Lemma post_and {A} (m : run A) (P Q : A -> Prop) : post m P -> post m Q -> post m (fun a => P a /\ Q a).
Proof. by destruct m. Qed.

Lemma u32_bounds x : 0 <= u32 x < 2 ^ 32.
Proof. apply Z.mod_pos_bound. lia. Qed.

Lemma allocatePromisedID_post Y wr w sc :
  Inv Y (Some wr) sc -> sc_writer sc = None -> inFrameScheduleLoop (sc_ws sc) = b -> measure sc <= room ->
  (wr_write wr ≫= ends) = None -> (wr_write wr ≫= resets) = None ->
  post (allocatePromisedID srv ParseRequestURI hostURL tlsState schedule w sc)
    (fun '(sc', r) => match r with inl _ => kept b Y 0 sc sc' /\ sc_writer sc' = None | inr id => promised Y wr id sc sc' end).
Proof.
  intros HI Hw H3 Hm He Hr. assert (kept b Y 0 sc sc) as Hk by (apply (written_done Y wr); rewrite ?He, ?Hr; done).
  unfold allocatePromisedID. destruct (negb _); [done|]. destruct (_ >? _); [done|].
  destruct (iv_table _ _ _ HI) as [Hc [Hp0 Hp1] Hcc Hcp].
  assert (u32 (maxPushPromiseID (sc_str sc) + 2) = maxPushPromiseID (sc_str sc) + 2) as -> by (apply u32_id; unfold is_u32; lia).
  change (Z.shiftl 1 31) with (2 ^ 31). destruct (_ >=? 2 ^ 31) eqn:Emax.
  { apply post_bind. unfold startGracefulShutdownInternal. eapply post_mono; [apply post_and|].
    - apply (goAway_post Y ErrCodeNo sc); [apply Hk|done].
    - instantiate (1 := fun sc' => sc_writer sc' = None). unfold goAway. destruct (inGoAway _); [|by apply schedule_idle].
      cbn. by destruct (_ =? _).
    - by intros sc1 Hk1. }
  cbv zeta. set (id := maxPushPromiseID (sc_str sc) + 2) in *. assert (id mod 2 = 0) as Heven.
  { unfold id. rewrite <- Zplus_mod_idemp_l, Hp1. done. }
  assert (store (sc_str sc) !! id = None) as Hnone.
  { destruct (store (sc_str sc) !! id) as [st|] eqn:E; [|done]. destruct (iv_streams _ _ _ HI id st E) as ((_ & _ & Ho) & _).
    specialize (Ho Heven). unfold id in Ho. lia. }
  set (sc0 := set_maxPushPromiseID id sc).
  assert (Inv Y (Some wr) sc0) as HI0.
  { apply Inv_table; cbn; try done; [unfold id; lia|]. destruct Hcp. split; cbn; [done|split; [unfold id in *; lia|done]|done|split; [done|unfold id; lia]]. }
  post_use (newStream_post Y (Some wr) id (pu_streamID w) stateHalfClosedRemote sc0); try done.
  { split; [unfold id in *; cbn; lia|]. split; [lia|]. cbn. lia. }
  { rewrite isPushed_even, bool_decide_eq_true_2 by done. cbn. unfold id. lia. }
  intros sc1 (HI1 & Hm1 & Et & Ew & Ews & Est & Eh). destruct (newWriterAndRequestNoBody _ _ _ _ _) as [e|req]; [done|].
  cbn [post]. assert (is_Some (store (sc_str sc1) !! id)) as Hsome by (rewrite Et; cbn; rewrite lookup_insert_eq; by eexists).
  split_and!; cbn; try (rewrite ?Ew, ?Ews, ?Et; done).
  - apply Inv_handler; [done| |lia|done]. unfold handler_ids. rewrite Eh. intros Hin.
    destruct (iv_handlers _ _ _ HI) as (_ & _ & Hh). destruct (Hh id Hin). congruence.
  - change (measure (runHandler id req ServeHTTP sc1)) with (measure sc1). 
    rewrite bool_decide_eq_false_2 in Hm1 by done. change (measure sc0) with (measure sc) in Hm1. lia.
  - intros i. split; [cbn; rewrite Et; cbn; rewrite lookup_insert_is_Some'; auto|]. intros _. right. cbn. rewrite Ew.
    change (sc_writer sc0) with (sc_writer sc). by rewrite Hw.
Qed.

(** *** Starting to write *)
Lemma promised_fresh Y wr id sc sc' : Inv Y (Some wr) sc -> promised Y wr id sc sc' -> fresh_write wr sc -> fresh_write wr sc'.
Proof.
  intros HI (_ & _ & _ & _ & Es & El & Hn & _) [Hr He]. unfold fresh_write. rewrite Es, El.
  assert (forall i, used (sc_started sc) i -> i ∉ live (sc_str sc) -> i ∉ {[id]} ∪ live (sc_str sc)) as Hu.
  { intros i Hi Hl. destruct (iv_used _ _ _ HI i Hi). assert (i <> id) by congruence. set_solver. }
  split.
  - intros i Hi. apply Hu; [|by apply Hr]. destruct Hi as (l1 & w & l2 & -> & _ & (x & Hx & Hs)). exists x. split; [|done].
    apply elem_of_app. by left.
  - intros Hcf Hk i Hi. apply Hu; [|by apply (He Hcf Hk)]. destruct Hi as (x & Hx & Hs). exists x. split; [done|].
    apply sends_on_stream. destruct x as [| | |j p []| | | | |w| | |]; try done. cbn in *. by destruct (rh_endStream w).
Qed.

Lemma written_post Y wr w sc :
  Inv Y (Some wr) sc -> sc_writer sc = None -> inFrameScheduleLoop (sc_ws sc) = b -> measure sc <= room ->
  wr_write wr = Some w -> fresh_write wr sc -> (forall id, key wr = Some id -> id ∈ live (sc_str sc)) ->
  post (let sc := log_write w (on_ws (fun w => set_flush true (set_writing true w)) sc) in
        if staysWithinBuffer w (fs_Available (sc_cx sc)) then
          let sc := on_ws (set_async false) sc in
          let! '(cx, err) := lift (fs_writeFrame w (sc_cx sc)) in
          wroteFrame srv env schedule wr err (set_cx cx sc)
        else Ret (set_writer (Some wr) (on_ws (set_async true) sc))) (kept b Y 0 sc).
Proof.
  intros HI Hw H3 Hm Ew Hf Hk. cbv zeta. set (sc0 := log_write w _).
  assert (Inv Y (Some wr) sc0) as HI0.
  { apply (Inv_log Y (on_ws (fun w => set_flush true (set_writing true w)) sc) wr); try done. by apply (Inv_ext Y _ sc). }
  destruct (staysWithinBuffer w _).
  - apply post_bind, post_lift. intros [cx err] _.
    eapply post_mono; [apply (wroteFrame_post Y); [by apply (Inv_ext Y _ sc0)|done|done|exact Hm]|].
    intros sc1 (G1 & G2 & G3). split; [done|]. split; [done|]. exact G3.
  - cbn [post]. split; [split; [by apply (Inv_ext Y _ sc0)|split; [by right|done]]|]. split; [change (measure sc <= measure sc + 0); lia|].
    intros i. split; [done|]. intros _. destruct (decide (key wr = Some i)) as [E|E]; [left; by apply Hk|right; exact E].
Qed.

Lemma startFrameWrite_post Y wr sc :
  Inv Y (Some wr) sc -> sc_writer sc = None -> inFrameScheduleLoop (sc_ws sc) = b -> measure sc <= room -> fresh_write wr sc ->
  post (startFrameWrite srv ParseRequestURI hostURL tlsState env schedule wr sc) (kept b Y 0 sc).
Proof.
  intros HI Hw H3 Hm Hf. destruct (iv_cur _ _ _ HI wr eq_refl) as [Hsh Hkey]. unfold startFrameWrite.
  destruct (writingFrame (sc_ws sc)); [done|]. apply post_bind.
  apply (post_mono _ (fun _ => forall id, key wr = Some id -> id ∈ live (sc_str sc))).
  { unfold key. destruct (wr_stream wr) as [s|] eqn:Es; [|done]. post_get st Est. destruct (mayWrite _ _) eqn:Em; [|done]. cbn.
    intros id [= <-]. destruct (written_live Y wr sc (s_id s) st HI) as [Hc|Hl]; [unfold key; by rewrite Es|done| |done].
    rewrite Hc in Em. done. }
  intros _ Hk. destruct Hsh as (w & Ew & Hsh). rewrite Ew.
  assert (forall w', w' = w -> post (let! '(sc1, w0) := Ret (sc, inr (Some w')) in
    match (w0 : serve_error + option writeFramer) with
    | inl e => replyToWriter (wr_done wr) (Some e) (on_ws (set_async false) sc1)
    | inr w =>
        let wr := mkFWR w (wr_stream wr) (wr_done wr) in
        let! w := lift w in
        let sc := log_write w (on_ws (fun w => set_flush true (set_writing true w)) sc1) in
        if staysWithinBuffer w (fs_Available (sc_cx sc)) then
          let sc := on_ws (set_async false) sc in
          let! '(cx, err) := lift (fs_writeFrame w (sc_cx sc)) in
          wroteFrame srv env schedule wr err (set_cx cx sc)
        else Ret (set_writer (Some wr) (on_ws (set_async true) sc))
    end) (kept b Y 0 sc)) as Hplain.
  { intros w' ->. cbn [obind lift]. assert (mkFWR (Some w) (wr_stream wr) (wr_done wr) = wr) as -> by (destruct wr; cbn in Ew; by rewrite Ew).
    by apply (written_post Y). }
  destruct w; try by apply Hplain.
  apply post_bind. post_use (allocatePromisedID_post Y wr w sc HI Hw H3 Hm); [by rewrite Ew|by rewrite Ew|]. clear Hplain.
  intros [sc1 [e|id]] HP; cbn [post].
  - destruct HP as [Hk1 Hw1]. assert (kept b Y 0 sc (on_ws (set_async false) sc1)) as Hk2.
    { destruct Hk1 as ((G1 & G2 & G3) & G4 & G5). split; [|done]. unfold ServerInv.rest. cbn. rewrite Hw1 in G1 |- *.
      split; [|auto]. by apply (Inv_ext Y _ sc1). }
    eapply post_mono; [apply (replyToWriter_post Y), Hk2|]. intros sc2. by apply (kept_then b Y 0 sc _ _).
  - pose proof (promised_fresh Y wr id sc sc1 HI HP Hf) as Hf1. destruct HP as (HI1 & Hw1 & H31 & Hm1 & Es1 & El1 & _ & Hs1).
    cbn [lift obind]. set (wr1 := mkFWR _ _ _). assert (key wr1 = key wr) as Hkey1 by done.
    eapply post_mono; [apply (written_post Y wr1); try done|].
    + apply (Inv_recur Y sc1 wr); try done; rewrite ?Ew; try done. eexists. split; [done|]. cbn [wr_stream]. exact Hsh.
    + lia.
    + intros i Hi. rewrite El1. apply elem_of_union. right. by apply Hk.
    + intros sc2 (G1 & G2 & G3). split; [done|]. split; [lia|]. by apply (stays_trans sc sc1).
Qed.

End with_schedule.

(** ** The write loop *)
Lemma inside_post room Y sc : rest true Y sc -> measure sc <= room -> post (scheduleInside sc) (kept true Y 0 sc).
Proof.
  intros HR _. pose proof HR as (_ & _ & H3). unfold scheduleInside. rewrite H3, orb_true_r. by apply kept_refl.
Qed.

Lemma inside_idle sc : inFrameScheduleLoop (sc_ws sc) = true -> sc_writer sc = None -> post (scheduleInside sc) (fun sc' => sc_writer sc' = None).
Proof. intros H3 Hw. unfold scheduleInside. by rewrite H3, orb_true_r. Qed.

(** A frame of the connection that does not come from the scheduler. *)
Lemma Inv_control Y sc w :
  conn_frame w = true -> ends w = None -> resets w = None -> Inv Y None sc ->
  Inv Y (Some (mkFWR (Some w) None None)) sc /\ fresh_write (mkFWR (Some w) None None) sc.
Proof.
  intros Hc He Hr HI. pose proof HI as [G1 G2 G3 G4 G5 G6 G7 G8 G9 G10 G11 G12]. split.
  - split; try done.
    + intros wr [= <-]. split; [by exists w|done].
    + intros id Hid Hl. exfalso. by specialize (G10 id Hid Hl).
    + intros Hcf. destruct (G11 Hcf) as [E1 E2 E3]. split; [|cbn|done].
      * intros id Hl Hs. destruct (E1 id Hl Hs) as [H|(wr & H & _)]; [by left|done].
      * intros id Hid Hl. destruct (E2 id Hid Hl) as [H|[H|(wr & H & _)]]; [done|right; by left|done].
  - split; [|done]. intros id Hid Hl. by specialize (G10 id Hid Hl).
Qed.

Lemma control_post room Y w sc :
  rest true Y sc -> sc_writer sc = None -> conn_frame w = true -> ends w = None -> resets w = None -> measure sc <= room ->
  post (startFrameWrite srv ParseRequestURI hostURL tlsState env scheduleInside (mkFWR (Some w) None None) sc) (kept true Y 0 sc).
Proof.
  intros (HI & _ & H3) Hw Hc He Hr Hm. rewrite Hw in HI. destruct (Inv_control Y sc w Hc He Hr HI) as [HI1 Hf].
  apply (startFrameWrite_post scheduleInside true room (inside_post room) inside_idle); done.
Qed.

Lemma Inv_pop_none Y cur sc c mfs fl s wr :
  ws_Pop c mfs (sc_flows sc) (sc_sched sc) = Some (fl, s, (wr, false)) -> Inv Y cur sc ->
  Inv Y cur (set_sched s sc) /\ sd_waiting s ⊆+ waiting sc.
Proof.
  intros E HI. destruct (sd_pop_law _ _ _ _ _ _ _ _ (iv_sched _ _ _ HI) E) as [Hok Hsub]. split; [|done].
  apply Inv_shrink; try done. intros Hcf. apply (sd_control_pop _ _ _ _ _ _ _ _ Hcf (iv_sched _ _ _ HI) E).
Qed.

(** An asynchronous write ends the loop. *)
Lemma loop_stops fuel sc : writingFrameAsync (sc_ws sc) = true ->
  scheduleLoop srv ParseRequestURI hostURL tlsState env scheduleInside fuel sc = Ret sc.
Proof. intros H. destruct fuel; simpl; by rewrite H. Qed.

Lemma async_post w sc : (w = flushFrameWriter \/ exists id code, w = writeGoAway id code) ->
  post (startFrameWrite srv ParseRequestURI hostURL tlsState env scheduleInside (mkFWR (Some w) None None) sc)
    (fun sc' => writingFrameAsync (sc_ws sc') = true).
Proof. intros [->|(id & code & ->)]; unfold startFrameWrite; destruct (writingFrame (sc_ws sc)); done. Qed.

Lemma async_kept Y w sc : rest true Y sc -> sc_writer sc = None -> (w = flushFrameWriter \/ exists id code, w = writeGoAway id code) ->
  post (startFrameWrite srv ParseRequestURI hostURL tlsState env scheduleInside (mkFWR (Some w) None None) sc)
    (fun sc' => kept true Y 0 sc sc' /\ writingFrameAsync (sc_ws sc') = true).
Proof.
  intros HR Hw Hc. apply post_and; [|by apply async_post].
  apply (control_post (measure sc)); try done; destruct Hc as [->|(id & code & ->)]; done.
Qed.

Lemma waiting_nonneg sc : 0 <= zsum cost (waiting sc).
Proof. apply zsum_nonneg. intros wr. pose proof (cost_pos wr). lia. Qed.

Lemma measure_nonneg sc : 0 <= measure sc.
Proof.
  unfold measure, live_weight. pose proof (waiting_nonneg sc).
  pose proof (zsum_nonneg (weight_of (sc_str sc)) (base.elements (live (sc_str sc))) (weight_of_nonneg (sc_str sc))).
  destruct (needToSendSettingsAck _); lia.
Qed.

(** Enough fuel for what waits: the loop ends, with nothing added. *)
Lemma scheduleLoop_post Y fuel : forall sc, rest true Y sc -> measure sc < Z.of_nat fuel ->
  post (scheduleLoop srv ParseRequestURI hostURL tlsState env scheduleInside fuel sc) (kept true Y 0 sc).
Proof.
  induction fuel as [|fuel IH]; intros sc HR Hm; [pose proof (measure_nonneg sc); lia|]. simpl.
  destruct (writingFrameAsync (sc_ws sc)) eqn:Ea; [by apply kept_refl|].
  assert (sc_writer sc = None) as Hw by (destruct HR as (_ & [H|[_ H]] & _); [done|congruence]).
  destruct (needToSendGoAway (sc_ws sc)).
  { set (sc0 := on_ws _ sc). post_use (async_kept Y (writeGoAway (maxClientStreamID (sc_str sc)) (goAwayCode (sc_ws sc))) sc0); [|done|right; eauto|].
    - by apply (rest_ext true Y sc).
    - intros sc1 [Hk Ha]. rewrite loop_stops by done. cbn [post]. apply (kept_first true Y 0 sc sc0); [by apply kept_ext|done]. }
  destruct (needToSendSettingsAck (sc_ws sc)) eqn:Eack.
  { set (sc0 := on_ws _ sc). assert (measure sc0 = measure sc - 1) as Hm0.
    { unfold measure. rewrite Eack. change (waiting sc0) with (waiting sc). change (sc_str sc0) with (sc_str sc).
      change (needToSendSettingsAck (sc_ws sc0)) with false. cbv iota. lia. }
    post_use (control_post (measure sc0) Y writeSettingsAck sc0); try done; [by apply (rest_ext true Y sc)|].
    intros sc1 (G1 & G2 & G3). eapply post_mono; [apply IH; [done|lia]|].
    intros sc2 (F1 & F2 & F3). split; [done|]. split; [lia|]. apply (stays_trans sc sc1); [exact G3|done]. }
  pose proof HR as (HI & _ & H3). rewrite Hw in HI.
  apply post_bind. apply (post_mono _ (fun '(sc1, popped) => sc_writer sc1 = None /\ sc_ws sc1 = sc_ws sc /\ stays sc sc1 /\
    match popped with
    | Some wr => Inv Y (Some wr) sc1 /\ fresh_write wr sc1 /\ measure sc1 + cost wr <= measure sc
    | None => Inv Y None sc1 /\ measure sc1 <= measure sc
    end)).
  { destruct (_ || _); [|cbn [post]; split_and!; try done; by apply stays_same].
    post_get r Er. destruct r as [[fl s] [wr ok]]. cbn [post]. set (sc1 := next_tick _). split; [done|]. split; [done|].
    split; [by apply stays_same|].
    assert (measure sc1 = measure sc - zsum cost (waiting sc) + zsum cost (sd_waiting s)) as ->.
    { rewrite <- (measure_resched sc s). by apply measure_ext. }
    destruct ok.
    - destruct (Inv_pop Y sc _ _ fl s wr Er HI) as (HI1 & Hf & _ & Hc). split; [by apply (Inv_ext Y _ (set_sched s sc))|]. split; [done|lia].
    - destruct (Inv_pop_none Y None sc _ _ fl s wr Er HI) as (HI1 & Hc). split; [by apply (Inv_ext Y _ (set_sched s sc))|].
      apply cost_submseteq in Hc. lia. }
  intros [sc1 [wr|]] (Hw1 & Ews & Hs1 & HP).
  - destruct HP as (HI1 & Hf & Hm1). set (sc2 := if isControl wr then _ else sc1).
    assert (Inv Y (Some wr) sc2 /\ sc_writer sc2 = None /\ inFrameScheduleLoop (sc_ws sc2) = true /\ fresh_write wr sc2 /\ measure sc2 = measure sc1 /\ stays sc sc2)
      as (HI2 & Hw2 & H32 & Hf2 & Hm2 & Hs2).
    { unfold sc2. destruct (isControl wr); [|by rewrite Ews]. split_and!; try done; cbn; [by apply (Inv_ext Y _ sc1)|by rewrite Ews]. }
    pose proof (cost_pos wr). post_use (startFrameWrite_post scheduleInside true (measure sc2) (inside_post _) inside_idle Y wr sc2); try done.
    intros sc3 (G1 & G2 & G3). eapply post_mono; [apply IH; [done|lia]|].
    intros sc4 (F1 & F2 & F3). split; [done|]. split; [lia|]. apply (stays_trans sc sc2), (stays_trans sc2 sc3); done.
  - destruct HP as (HI1 & Hm1). assert (rest true Y sc1) as HR1 by (unfold ServerInv.rest; rewrite Hw1, Ews; auto).
    destruct (needsFrameFlush (sc_ws sc)).
    + post_use (async_kept Y flushFrameWriter sc1); [done|done|by left|]. intros sc2 [(G1 & G2 & G3) Ha].
      rewrite loop_stops by done. cbn [post]. split; [by apply (rest_ext true Y sc2)|]. split; [change (measure sc2 <= measure sc + 0); lia|].
      apply (stays_trans sc sc1); [done|exact G3].
    + cbn [post]. split; [done|]. split; [lia|done].
Qed.

Lemma scheduleFrameWrite_post Y fuel sc : rest false Y sc -> measure sc <= Z.of_nat fuel - 1 ->
  post (scheduleFrameWrite srv ParseRequestURI hostURL tlsState env fuel sc) (kept false Y 0 sc).
Proof.
  intros HR Hm. unfold scheduleFrameWrite. destruct (_ || _); [by apply kept_refl|]. set (sc0 := on_ws (set_loop true) sc).
  assert (rest true Y sc0) as HR0 by (destruct HR as (G1 & G2 & G3); split; [by apply (Inv_ext Y _ sc)|done]).
  post_use (scheduleLoop_post Y fuel sc0 HR0); [change (measure sc < Z.of_nat fuel); lia|]. intros sc1 ((G1 & G2 & G3) & Hm1 & Hs1).
  cbn [post]. split; [split; [by apply (Inv_ext Y _ sc1)|done]|]. split; [exact Hm1|exact Hs1].
Qed.
End keep.
