(* ===== verification/ServerFrameKeep.v ===== *)
(** * Package http2: the frames of the client keep the invariant

    Each function that [processFrame] calls, with the loop that writes frames behind it:
    what holds between the rounds holds afterwards, and little is added to what waits. *)

From S2P Require Import Prelude HpackTable Hpack Flow DataBuffer Pipe Frame FrameRead HttpGuts FrameMeta WriteFrames HeaderWrite WriteSched.
From S2P Require Import ServerRequest ServerConn ServerFrames ServerSched ServerInv ServerStep ServerKeep.

Section frames.
Context {S C W B U : Type} {WS : WriteScheduler S C} {SD : ServerScheduler S C} {FS : FrameSink W} {PB : PipeBuffer B serve_error} {BB : BodyBuffer B serve_error}.
Context (srv : Server) (ParseRequestURI : bytes -> option U) (hostURL : bytes -> U) (tlsState : bool) (env : environment (C := C)).
Context (fuel : nat).
Abbreviation conn := (serverConn (S := S) (W := W) (B := B) (U := U)).
Implicit Types (sc : conn).
Abbreviation schedule := (scheduleFrameWrite srv ParseRequestURI hostURL tlsState env fuel).
Abbreviation room := (Z.of_nat fuel - 1).
Abbreviation resting := (rest (C := C) false ∅).
Abbreviation kept := (kept (C := C) false ∅).

(** The result of a function that may return an error. *)
Abbreviation with_error n sc := (fun r : conn * option process_error => kept n sc r.1).

Lemma schedule_post Y sc : rest (C := C) false Y sc -> measure sc <= room -> post (schedule sc) (ServerKeep.kept (C := C) false Y 0 sc).
Proof. apply scheduleFrameWrite_post. Qed.

Lemma kept_n n m sc sc' : kept n sc sc' -> n <= m -> kept m sc sc'.
Proof. apply kept_mono. Qed.

(** What neither the invariant nor the measure looks at. *)
Definition quiet sc sc' : Prop :=
  sc_str sc' = sc_str sc /\ sc_sched sc' = sc_sched sc /\ sc_started sc' = sc_started sc /\ sc_handlers sc' = sc_handlers sc /\
  sc_writer sc' = sc_writer sc /\ sc_ws sc' = sc_ws sc.

Lemma quiet_kept sc sc' : quiet sc sc' -> resting sc -> kept 0 sc sc'.
Proof. intros (E1 & E2 & E3 & E4 & E5 & E6). apply kept_ext; by rewrite ?E6. Qed.

Lemma quiet_trans sc sc' sc'' : quiet sc sc' -> quiet sc' sc'' -> quiet sc sc''.
Proof. intros (E1 & E2 & E3 & E4 & E5 & E6) (F1 & F2 & F3 & F4 & F5 & F6). unfold quiet. split_and!; congruence. Qed.

(** ** PING, WINDOW_UPDATE, GOAWAY, SETTINGS *)
Lemma write_control w sc : conn_frame w = true -> cost (mkFWR (Some w) None None) = 1 -> resting sc -> measure sc + 1 <= room ->
  post (writeFrame schedule (mkFWR (Some w) None None) sc) (kept 1 sc).
Proof.
  intros Hc H1 HR Hm. eapply post_mono; [apply (writeFrame_post schedule false room schedule_post ∅); [done|by exists w|done|by rewrite H1]|].
  intros sc'. by rewrite H1.
Qed.

Lemma processPing_post fh data sc : resting sc -> measure sc + 1 <= room ->
  post (processPing srv ParseRequestURI hostURL tlsState env fuel fh data sc) (with_error 1 sc).
Proof.
  intros HR Hm. assert (kept 1 sc sc) as Hk by (apply (kept_n 0); [by apply kept_refl|lia]).
  unfold processPing. destruct (Flags_Has _ _); [done|]. destruct (negb _); [done|]. destruct (_ && _); [done|].
  post_use (write_control (writePingAck data) sc); done.
Qed.

Lemma flow_kept sc fl : resting sc -> kept 0 sc (set_flows fl sc).
Proof. by apply quiet_kept. Qed.

Lemma processWindowUpdate_post fh n sc : resting sc -> measure sc <= room ->
  post (processWindowUpdate srv ParseRequestURI hostURL tlsState env fuel fh n sc) (with_error 0 sc).
Proof.
  intros HR Hm. pose proof (kept_refl false ∅ sc HR) as Hk. unfold processWindowUpdate. cbv zeta.
  assert (forall fl, post (let! sc1 := schedule (set_flows fl sc) in Ret (sc1, None)) (with_error 0 sc)) as Hs.
  { intros fl. post_use schedule_post; [apply (flow_kept sc fl HR)|done|]. intros sc1. cbn. by apply (kept_first false ∅ 0 sc _ _ (flow_kept sc fl HR)). }
  destruct (negb _).
  - destruct (state sc _) as [s [st|]]; destruct (bool_decide _); try done. apply post_bind, post_lift. intros [fl ok] _.
    destruct ok; [apply Hs|]. by apply flow_kept.
  - apply post_bind, post_lift. intros [fl ok] _. destruct ok; [apply Hs|]. by apply flow_kept.
Qed.

Lemma processGoAway_post sc : resting sc -> measure sc <= room ->
  post (processGoAway srv ParseRequestURI hostURL tlsState env fuel sc) (with_error 0 sc).
Proof.
  intros HR Hm. unfold processGoAway. post_use (goAway_post schedule false room schedule_post ∅ ErrCodeNo sc HR Hm).
  intros sc1 Hk. cbn. apply (kept_then false ∅ 0 sc sc1 _ Hk), quiet_kept; [done|apply Hk].
Qed.

Lemma growLoop_quiet ids growth : forall sc, post (growLoop ids growth sc) (fun r => quiet sc r.1).
Proof.
  induction ids as [|id ids IH]; intros sc; simpl; [done|]. apply post_bind, post_lift. intros [fl ok] _.
  destruct ok; cbn [negb]; [|done]. eapply post_mono; [apply IH|]. intros [sc1 e]. by apply quiet_trans.
Qed.

Lemma processSetting_quiet x sc : post (processSetting env x sc) (fun r => quiet sc r.1).
Proof.
  unfold processSetting. destruct (Setting_Valid x); [done|]. cbv zeta.
  destruct (_ =? _). { by post_get cx E. }
  destruct (_ =? _); [done|]. destruct (_ =? _); [done|].
  destruct (_ =? _). { unfold processSettingInitialWindowSize. eapply post_mono; [apply growLoop_quiet|]. intros [sc1 e]. by apply quiet_trans. }
  destruct (_ =? _); [done|]. by destruct (_ =? _).
Qed.

Lemma foreachSetting_quiet n p : forall i sc, post (foreachSetting env n p i sc) (fun r => quiet sc r.1).
Proof.
  induction n as [|n IH]; intros i sc; simpl; [done|]. post_get x Ex. post_use (processSetting_quiet x sc).
  intros [sc1 [e|]] Hq; [done|]. eapply post_mono; [apply IH|]. intros [sc2 e2]. by apply quiet_trans.
Qed.

Lemma processSettings_post fh p sc : resting sc -> measure sc + 1 <= room ->
  post (processSettings srv ParseRequestURI hostURL tlsState env fuel fh p sc) (with_error 1 sc).
Proof.
  intros HR Hm. assert (forall sc', quiet sc sc' -> kept 1 sc sc') as Hq by (intros sc' H; apply (kept_n 0); [by apply quiet_kept|lia]).
  unfold processSettings. destruct (Flags_Has _ _). { destruct (_ <? _); by apply Hq. }
  apply post_bind, (post_mono _ (fun _ => True)). { destruct (_ >? _); [done|]. by apply post_lift. }
  intros [] _; [by apply Hq|]. post_use (foreachSetting_quiet (Z.to_nat (NumSettings p)) p 0 sc).
  intros [sc1 [e|]] H1; [by apply Hq|]. pose proof (quiet_kept sc sc1 H1 HR) as Hk1.
  assert (kept 1 sc1 (on_ws (set_ack true) sc1)) as Hk2.
  { destruct Hk1 as ((G1 & G2 & G3) & _). split; [split; [by apply (Inv_ext ∅ _ sc1)|done]|]. split; [|by apply stays_same].
    unfold measure. cbn. change (waiting (on_ws _ sc1)) with (waiting sc1). destruct (needToSendSettingsAck _); lia. }
  post_use schedule_post; [apply Hk2|destruct Hk1 as (_ & ? & _), Hk2 as (_ & ? & _); lia|].
  intros sc2 Hk3. cbn. apply (kept_first false ∅ 1 sc sc1 _ Hk1), (kept_then false ∅ 1 sc1 _ _ Hk2 Hk3).
Qed.

(** ** RST_STREAM and PRIORITY *)
Lemma state_Some sc id s st : state sc id = (s, Some st) -> id ∈ live (sc_str sc) /\ store (sc_str sc) !! id = Some st /\ s = st_state st.
Proof.
  unfold state, streams. case_bool_decide as Hl; [|done]. destruct (store (sc_str sc) !! id) as [st'|] eqn:E; [|done].
  by intros [= <- <-].
Qed.

(** The rest of an event's work: what holds between the rounds, and the measure. *)
Definition settled (n : Z) sc sc' : Prop := resting sc' /\ measure sc' <= measure sc + n.

Lemma kept_settled n sc sc' : kept n sc sc' -> settled n sc sc'.
Proof. by intros (H1 & H2 & _). Qed.

Lemma settled_kept n m k sc sc' sc'' : settled n sc sc' -> kept m sc' sc'' -> n + m <= k -> settled k sc sc''.
Proof. intros (H1 & H2) (G1 & G2 & _) Hk. split; [done|lia]. Qed.

Lemma processResetStream_post fh code sc : resting sc -> measure sc <= room ->
  post (processResetStream srv ParseRequestURI hostURL tlsState env fuel fh code sc) (fun r => settled 0 sc r.1).
Proof.
  intros HR Hm. assert (settled 0 sc sc) as Hs by (apply kept_settled; by apply kept_refl). unfold processResetStream. cbv zeta.
  destruct (state sc (fh_StreamID fh)) as [s [st|]] eqn:Est; destruct (bool_decide _); try done.
  apply state_Some in Est as (Hl & Hst & _).
  assert (kept 0 sc (update sc (fh_StreamID fh) cancelCtx)) as Hk by (apply kept_update; [|lia|by eexists|done]; intros st' _; by apply same_data).
  post_use (close_live_post srv env schedule false room schedule_post ∅ (fh_StreamID fh) (errStream (streamError (fh_StreamID fh) code))); [apply Hk|done|done| |].
  - destruct Hk as (_ & ? & _). lia.
  - intros sc1 (G1 & G2 & _). destruct Hk as (_ & ? & _). split; [done|cbn; lia].
Qed.

Lemma adjust_kept sc id prio s : ws_AdjustStream (sc_sched sc) id prio = Some s -> resting sc -> kept 0 sc (set_sched s sc).
Proof.
  intros E (HI & H2 & H3). destruct (Inv_adjust ∅ _ sc s id prio E HI) as [HI1 Hsub]. split; [done|]. split; [|by apply stays_same].
  rewrite measure_resched. apply cost_submseteq in Hsub. lia.
Qed.

Lemma processPriority_post fh p sc : resting sc -> post (processPriority fh p sc) (with_error 0 sc).
Proof.
  intros HR. pose proof (kept_refl false ∅ sc HR) as Hk. unfold processPriority. destruct (inGoAway _); [done|].
  destruct (checkPriority _ _); [done|]. post_get s Es. by apply (adjust_kept sc _ _ s Es).
Qed.

(** ** DATA and trailers *)
Lemma on_body_post id f sc : post (on_body id f sc) (fun sc' => exists st p p',
  store (sc_str sc) !! id = Some st /\ st_body st = Some p /\ f p = Some p' /\ sc' = put id (set_body (Some p') st) sc).
Proof.
  unfold on_body. post_get st Est. post_get p Ep. post_get p' Ep'. cbn [post]. exists st, p, p'. split_and!; try done.
  by apply update_put.
Qed.

(** The stream may have been closed meanwhile, with its last frame written. *)
Lemma endStream_post id sc : resting sc -> near id sc -> post (endStream id sc) (settled 0 sc).
Proof.
  intros (HI & H2 & H3) Hnear. unfold endStream. post_get st Est.
  apply post_bind, (post_mono _ (fun sc' => exists p p', st_body st = Some p /\ sc' = put id (set_body (Some p') st) sc /\
    (p_err p' = Some errEOF -> p_err p = Some errEOF \/ st_declBodyBytes st = -1 \/ st_bodyBytes st = st_declBodyBytes st) /\
    (forall n, body_holds p n -> body_holds p' n))).
  { destruct (negb _ && negb _) eqn:E.
    - eapply post_mono; [apply on_body_post|]. intros sc1 (st1 & p & p' & E1 & Hp & Hc & ->). assert (st1 = st) as -> by congruence.
      exists p, p'. split; [done|]. split; [done|]. split; [|intros n; exact (holds_close _ _ _ _ n Hc)].
      apply CloseWithError_err in Hc. rewrite Hc. destruct (p_err p); [|done]. by left.
    - post_use on_body_post. intros sc1 (st1 & p & p1 & E1 & Hp & Hc1 & ->). assert (st1 = st) as -> by congruence.
      eapply post_mono; [apply on_body_post|]. intros sc2 (st2 & p2 & p' & E2 & Hp2 & Hc2 & ->).
      rewrite lookup_put, decide_True in E2 by done. injection E2 as <-. exists p, p'. injection Hp2 as <-.
      split; [done|]. split; [by rewrite put_again|]. split; [intros _; right; apply andb_false_iff in E; lia|].
      intros n Hn. exact (holds_close _ _ _ _ n Hc2 (holds_close _ _ _ _ n Hc1 Hn)). }
  intros sc1 (p & p' & Hp & -> & Herr & Hh). cbn [post]. set (st1 := set_body (Some p') st).
  rewrite (update_put _ id _ st1) by (rewrite lookup_put, decide_True by done; done). rewrite put_again.
  destruct (iv_streams _ _ _ HI id st Est) as (Ho & (Hb1 & Hb2 & Hb3) & Hact).
  split; [split; [|done]|].
  - change (sc_writer (put _ _ _)) with (sc_writer sc). apply (Inv_put ∅ _ sc id st); [done| | |done|done].
    + split; [done|]. split; cbn; intros q [= <-]; [|by apply Hh, Hb3]. intros Hq. split; [done|]. destruct (Herr Hq) as [H|[H|H]]; [|by left|by right]. by apply (Hb2 p).
    + case_bool_decide; [done|]. right. split; [done|]. split; [set_solver|]. by destruct Hnear.
  - rewrite (measure_put sc id st _ Est). case_bool_decide; [|lia]. destruct Hact as [A1 A2]. unfold weight. cbn.
    rewrite Hp. destruct (st_state st); try done; lia.
Qed.

Lemma take_and_return_post n sc : resting sc -> measure sc + 1 <= room ->
  post (take_and_return srv ParseRequestURI hostURL tlsState env fuel n sc) (kept 1 sc).
Proof.
  intros HR Hm. unfold take_and_return. post_get fl Efl.
  eapply post_mono; [apply (sendWindowUpdate_post srv schedule false room schedule_post ∅); [apply (flow_kept sc fl HR)|done|exact Hm]|].
  intros sc1. by apply (kept_first false ∅ 1 sc _ _ (flow_kept sc fl HR)).
Qed.

Lemma pipe_Write_err (p p' : pipe B serve_error unit) d n : pipe_Write errClosedPipeWrite p d = Some (p', (n, None)) -> p_err p' = None.
Proof.
  unfold pipe_Write. destruct (p_err p) as [e|] eqn:E; [done|]. destruct (p_breakErr p) as [e|]; [by intros [= <- _]|].
  destruct (p_b p) as [b|]; [|done]. cbn. destruct (pb_Write b d) as [[b' r]|]; [|done]. cbn. by intros [= <- _].
Qed.

Lemma pipe_Write_same (p p' : pipe B serve_error unit) d r : pipe_Write errClosedPipeWrite p d = Some (p', r) -> p_err p' = p_err p.
Proof.
  unfold pipe_Write. destruct (p_err p) as [e|] eqn:E; [by intros [= <- _]|]. destruct (p_breakErr p) as [e|]; [by intros [= <- _]|].
  destruct (p_b p) as [b|]; [|done]. cbn. destruct (pb_Write b d) as [[b' r']|]; [|done]. cbn. by intros [= <- _].
Qed.

Lemma window_post st n sc :
  resting sc -> (forall id, st = Some id -> is_Some (store (sc_str sc) !! id)) -> measure sc + 1 <= room ->
  post (sendWindowUpdate32 schedule st n sc) (kept 1 sc).
Proof.
  intros HR Hst Hm. eapply post_mono; [by apply (sendWindowUpdate32_post schedule false room schedule_post ∅)|].
  intros sc1 Hk. apply (kept_n _ _ _ _ Hk). by destruct (n =? 0).
Qed.

Lemma receiveData_post id Length data st sc :
  resting sc -> measure sc + 2 <= room -> store (sc_str sc) !! id = Some st ->
  (st_declBodyBytes st = -1 \/ st_bodyBytes st + zlen data <= st_declBodyBytes st) ->
  post (receiveData srv ParseRequestURI hostURL tlsState env fuel id Length data sc)
    (fun r => kept (if r.2 then 1 else 2) sc r.1).
Proof.
  intros HR Hm Hst Hd. unfold receiveData. post_get avail Ea.
  destruct (_ <? _); [apply (kept_n 0); [by apply kept_refl|cbn; lia]|]. post_get fl Efl. cbv zeta.
  pose proof (flow_kept sc fl HR) as Hk0. set (sc0 := set_flows fl sc) in *.
  apply post_bind, (post_mono _ (fun r : conn * option process_error => kept (if r.2 then 1 else 0) sc r.1)).
  { destruct (0 <? zlen data); [|exact Hk0]. post_get st' Est. assert (st' = st) as -> by (cbn in Est; congruence).
    post_get p Ep. post_get r Er. destruct r as [p' [wrote err]]. destruct err as [e|].
    - assert (kept 0 sc (update sc0 id (set_body (Some p')))) as Hk1.
      { apply (kept_first false ∅ 0 sc sc0 _ Hk0). apply kept_update; [|lia|by exists st|apply Hk0].
        intros st' Est'. assert (st' = st) as -> by congruence. apply (body_change st p p' Ep); [left; by apply pipe_Write_same in Er|]. intros n. exact (holds_write _ p p' _ _ _ n Er). }
      post_use window_post; [apply Hk1|done|destruct Hk1 as (_ & ? & _); lia|]. intros sc1. cbn. by apply (kept_first false ∅ 1 sc _ _ Hk1).
    - destruct (negb _); [done|]. cbn [post fst snd]. rewrite (update_put sc0 id _ st Hst).
      rewrite (update_put _ id _ (set_body (Some p') st)) by (rewrite lookup_put, decide_True by done; done). rewrite put_again.
      apply (kept_first false ∅ 0 sc sc0 _ Hk0). apply (kept_put false ∅ 0 sc0 id st); try done; [|unfold weight; cbn; rewrite Ep; by destruct (st_state st)|apply Hk0].
      destruct HR as (HI & _). destruct (iv_streams _ _ _ HI id st Hst) as (_ & (_ & _ & Hb) & _).
      split; [cbn; tauto|]. split; cbn; intros q [= <-]; [intros Hq; apply pipe_Write_err in Er; congruence|].
      exact (holds_write _ p p' _ _ _ _ Er (Hb p Ep)). }
  intros [sc1 [e|]] Hk1; cbn [fst snd] in *; [exact Hk1|].
  destruct (_ >? 0); [|apply (kept_n _ 2 _ _ Hk1); lia].
  pose proof Hk1 as (HR1 & Hm1 & Hs1). post_use (window_post None); [done|done|lia|]. intros sc2 Hk2. pose proof Hk2 as (HR2 & Hm2 & Hs2).
  post_use (window_post (Some id)); [done| |lia|].
  - intros i [= <-]. apply Hs2, Hs1. by exists st.
  - intros sc3 Hk3. cbn. apply (kept_first false ∅ 2 sc sc1 _ Hk1). by apply (kept_trans false ∅ 1 1 2 sc1 sc2).
Qed.

(** Of what a frame adds, [1] is left for the RST_STREAM that answers an error. *)
Definition growth_or_error (n : Z) sc (r : conn * option process_error) : Prop :=
  settled (if r.2 then n - 1 else n) sc r.1.

Lemma processData_post fh data sc : resting sc -> measure sc + 3 <= room ->
  post (processData srv ParseRequestURI hostURL tlsState env fuel fh data sc) (growth_or_error 2 sc).
Proof.
  intros HR Hm. assert (forall n, 0 <= n -> settled n sc sc) as Hs by (intros n Hn; split; [done|lia]).
  unfold processData. cbv zeta. destruct (_ && _); [by apply Hs|].
  destruct (state sc (fh_StreamID fh)) as [s o] eqn:Est. destruct (_ || _); [by apply Hs|].
  match goal with |- context [match o with None => ?d | Some _ => _ end] => assert (post d (growth_or_error 2 sc)) as Hdiscard end.
  { post_get avail Ea. destruct (_ <? _); [by apply Hs|]. post_use take_and_return_post; [done|lia|]. intros sc1 Hk. cbn [post].
    apply kept_settled in Hk. destruct o as [st|]; [|exact Hk]. unfold growth_or_error. cbn [fst snd].
    match goal with |- settled (if ?c then _ else _) _ _ => destruct c end; [exact Hk|]. destruct Hk as [G1 G2]. split; [done|lia]. }
  destruct o as [st|]; [|exact Hdiscard]. apply state_Some in Est as (Hl & Hst & ->).
  destruct (_ || _ || _); [exact Hdiscard|]. destruct (st_body st) as [p|] eqn:Ep; [|done]. destruct (_ && _) eqn:Edecl.
  { post_get avail Ea. destruct (_ <? _); [by apply Hs|]. post_use take_and_return_post; [done|lia|]. intros sc1 Hk. pose proof Hk as (HR1 & Hm1 & _).
    post_use on_body_post. intros sc2 (st1 & p1 & p2 & E1 & Hp1 & Hc & ->). cbn [post]. pose proof Hc as Hc'. apply CloseWithError_err in Hc.
    assert (kept 0 sc1 (put (fh_StreamID fh) (set_body (Some p2) st1) sc1)) as Hk2.
    { destruct (body_change st1 p1 p2 Hp1) as (B1 & B2 & B3); [rewrite Hc; destruct (p_err p1); [by left|by right]|intros n; exact (holds_close _ _ _ _ n Hc')|].
      apply (kept_put false ∅ 0 sc1 _ st1); try done. apply B1. destruct HR1 as (HI1 & _). by destruct (iv_streams _ _ _ HI1 _ _ E1) as (_ & ? & _). }
    apply (settled_kept 1 0 1 sc sc1); [by apply kept_settled|exact Hk2|lia]. }
  apply post_bind, (post_mono _ (fun r : conn * option process_error => kept (if r.2 then 1 else 2) sc r.1)).
  { destruct (_ >? 0); [|apply (kept_n 0); [by apply kept_refl|cbn; lia]]. apply (receiveData_post _ _ _ st); try done; [lia|].
    apply andb_false_iff in Edecl. lia. }
  intros [sc1 [e|]] Hk1; cbn [fst snd] in *; [by apply (kept_settled 1)|]. destruct (Flags_Has _ _); [|by apply (kept_settled 2)].
  pose proof Hk1 as (HR1 & Hm1 & Hs1). post_use endStream_post; [done|apply Hs1; by left|]. intros sc2 [G1 G2]. split; [done|cbn; lia].
Qed.

Lemma addTrailers_post id fields : forall sc, resting sc -> post (addTrailers id fields sc) (with_error 0 sc).
Proof.
  induction fields as [|hf fields IH]; intros sc HR; cbn [addTrailers]; [by apply kept_refl|].
  destruct (canonicalHeader _ _) as [canon key]. set (sc0 := set_canonHeader canon sc).
  assert (kept 0 sc sc0) as Hk0 by by apply quiet_kept. destruct (negb _); [exact Hk0|].
  post_get st Est. post_get h Eh. set (sc1 := update sc0 id _).
  assert (kept 0 sc sc1) as Hk1.
  { apply (kept_first false ∅ 0 sc sc0 _ Hk0). apply kept_update; [|lia|by exists st|apply Hk0]. intros st' _. by apply same_data. }
  eapply post_mono; [apply IH, Hk1|]. intros [sc2 e]. by apply (kept_first false ∅ 0 sc sc1).
Qed.

Lemma processTrailerHeaders_post id f sc : resting sc -> id ∈ live (sc_str sc) ->
  post (processTrailerHeaders id f sc) (growth_or_error 1 sc).
Proof.
  intros HR Hl. unfold processTrailerHeaders. post_get st Est.
  assert (forall n sc', 0 <= n -> kept 0 sc sc' -> settled n sc sc') as Hs by (intros n sc' Hn (H1 & H2 & _); split; [done|lia]).
  destruct (st_gotTrailerHeader st); [apply Hs; [cbn; lia|by apply kept_refl]|]. cbv zeta. set (sc0 := update sc id _).
  assert (kept 0 sc sc0) as Hk0 by (apply kept_update; [|lia|by exists st|done]; intros st' _; by apply same_data).
  destruct (negb _); [by apply Hs|]. destruct (_ <? _); [by apply Hs|].
  apply post_bind, (post_mono _ (with_error 0 sc)).
  { destruct (st_trailer st); [|exact Hk0]. eapply post_mono; [apply addTrailers_post, Hk0|]. intros [sc1 e]. by apply (kept_first false ∅ 0 sc sc0). }
  intros [sc1 [e|]] Hk1; cbn [fst] in *; [by apply Hs|].
  post_use endStream_post; [apply Hk1|apply Hk1; by left|]. intros sc2 [G1 G2]. destruct Hk1 as (_ & ? & _). split; [done|cbn; lia].
Qed.

(** ** HEADERS *)
Context (newBuffer : Z -> B) (newBuffer_empty : forall n, bb_holds (newBuffer n) 0).

Lemma ParseUint63_nonneg s n : ParseUint63 s = Some n -> 0 <= n.
Proof.
  unfold ParseUint63. case_bool_decide; [done|]. destruct (decimal 0 s) as [m|] eqn:E; [|done]. cbn. destruct (_ <? _); [|done].
  intros [= <-]. by apply (decimal_nonneg s 0).
Qed.

Lemma newWriterAndRequest_length canon id f canon' req expected :
  newWriterAndRequest ParseRequestURI hostURL tlsState canon id f = Some (canon', inr (req, expected)) ->
  -1 <= rq_ContentLength req.
Proof.
  unfold newWriterAndRequest. destruct (malformedPseudo _); [done|]. destruct (addFields _ _ _) as [c h].
  destruct (newWriterAndRequestNoBody _ _ _ _ _) as [e|r] eqn:Er; [done|]. destruct (negb _).
  - destruct (rq_Header r !! _) as [vv|]; cbn.
    + destruct (head vv) as [v|]; [|done]. cbn. intros [= <- <- <-]. cbn. destruct (ParseUint63 v) as [n|] eqn:E; cbn; [|lia].
      apply ParseUint63_nonneg in E. lia.
    + by intros [= <- <- <-].
  - intros [= <- <- <-]. assert (rq_ContentLength r = 0) as ->; [|lia]. unfold newWriterAndRequestNoBody in Er. cbv zeta in Er.
    destruct (bool_decide (rp_method _ = str "CONNECT")); [by injection Er as <-|]. destruct (ParseRequestURI _); [|done]. by injection Er as <-.
Qed.

Lemma handlers_stored sc id : resting sc -> id ∈ handler_ids sc -> is_Some (store (sc_str sc) !! id).
Proof. intros (HI & _) Hin. destruct (iv_handlers _ _ _ HI) as (_ & _ & H). by apply H. Qed.

(** A client's stream above all the others. *)
Lemma unopened sc id : resting sc -> id mod 2 = 1 -> maxClientStreamID (sc_str sc) < id ->
  store (sc_str sc) !! id = None /\ (id ∉ handler_ids sc) /\ forall i, i ∈ handler_ids sc -> i mod 2 = 1 -> i < id.
Proof.
  intros HR Hodd Hmax. assert (forall i, is_Some (store (sc_str sc) !! i) -> i mod 2 = 1 -> i < id) as Hlt.
  { intros i [st Hst] Hi. destruct HR as (HI & _). destruct (iv_streams _ _ _ HI i st Hst) as ((_ & Ho & _) & _). specialize (Ho Hi). lia. }
  split; [|split].
  - destruct (store (sc_str sc) !! id) as [st|] eqn:E; [|done]. specialize (Hlt id (mk_is_Some _ _ E) Hodd). lia.
  - intros Hin. specialize (Hlt id (handlers_stored sc id HR Hin) Hodd). lia.
  - intros i Hin Hi. by apply Hlt; [apply handlers_stored|].
Qed.

Lemma request_body_ok (st : serverStream B) body n tr :
  -1 <= n -> st_bodyBytes st = 0 -> (forall p, body = Some p -> p_err p = None /\ body_holds p 0) -> body_ok (set_request body n tr st).
Proof.
  intros Hn Hz Hp. split; cbn; [rewrite Hz; lia|]. split; intros p Hb; destruct (Hp p Hb) as [H1 H2]; [congruence|by rewrite Hz].
Qed.

Lemma openRequest_post id f sc :
  resting sc -> id mod 2 = 1 -> id < 2 ^ 31 -> 0 < id -> id <= maxClientStreamID (sc_str sc) -> store (sc_str sc) !! id = None ->
  id ∉ handler_ids sc -> (forall i, i ∈ handler_ids sc -> i mod 2 = 1 -> i < id) ->
  curClientStreams (sc_str sc) + 1 <= advMaxStreams (sc_str sc) -> curClientStreams (sc_str sc) + 1 <= maxClientStreamID (sc_str sc) ->
  post (openRequest srv ParseRequestURI hostURL tlsState newBuffer id f sc) (growth_or_error 3 sc).
Proof.
  intros (HI & H2 & H3) Hodd Hlt Hpos Hmax Hnone Hnh Hsorted Hadv Hcnt. unfold openRequest.
  post_use (newStream_post srv ∅ (sc_writer sc) id 0 (if meta_StreamEnded f then stateHalfClosedRemote else stateOpen) sc HI Hnone); try by destruct (meta_StreamEnded f).
  { split; [lia|]. split; [done|lia]. }
  { rewrite isPushed_even, bool_decide_eq_false_2 by lia. done. }
  intros sc1 (HI1 & Hm1 & Et & Ew & Ews & Est & Eh).
  assert (measure sc1 <= measure sc + 2) as Hm1' by (revert Hm1; case_bool_decide; lia). clear Hm1.
  assert (resting sc1) as HR1 by (unfold ServerInv.rest; rewrite Ew, Ews; done).
  apply post_bind, (post_mono _ (fun r => kept 0 sc1 r.1 /\ sc_str r.1 = sc_str sc1 /\ handler_ids r.1 = handler_ids sc)).
  { assert (handler_ids sc1 = handler_ids sc) as Eh' by (unfold handler_ids; by rewrite Eh). pose proof (kept_refl false ∅ sc1 HR1).
    destruct (meta_HasPriority f); [|done]. destruct (checkPriority _ _); [done|]. post_get s Es. cbn. split; [|done]. by apply (adjust_kept sc1 _ _ s Es). }
  intros [sc2 [e|]] (Hk2 & Et2 & Eh2); cbn [fst] in *; destruct Hk2 as (HR2 & Hm2 & _).
  { split; [done|cbn; lia]. }
  post_get r Er. destruct r as [canon [e|[req expected]]]; cbn [post]; set (sc3 := set_canonHeader canon sc2).
  { split; [by apply (quiet_kept sc2)|change (measure sc2 <= measure sc + 2); lia]. }
  apply newWriterAndRequest_length in Er.
  assert (kept 1 sc3 (update sc3 id (set_request ((fun n => setBuffer zeroPipe (newBuffer n)) <$> expected) (rq_ContentLength req) (rq_Trailer req)))) as Hk4.
  { assert (store (sc_str sc3) !! id = Some (mkSS id None false false 0 0 (if meta_StreamEnded f then stateHalfClosedRemote else stateOpen) false false false None None)) as El
      by (change (sc_str sc3) with (sc_str sc2); rewrite Et2, Et; apply lookup_insert_eq).
    apply kept_update; [|lia|by eexists|by apply (quiet_kept sc2)]. rewrite El. intros st [= <-]. split; [|split; [done|]].
    - intros _. apply request_body_ok; [done|done|]. intros p Hp. destruct expected as [x|]; [|done]. injection Hp as <-. split; [done|]. split; [done|]. apply newBuffer_empty.
    - unfold weight. cbn. destruct (meta_StreamEnded f), expected; cbn; lia. }
  match goal with |- growth_or_error _ _ (runHandler _ _ ?h ?x, _) => set (sc4 := x) in *; set (hd := h) end.
  destruct Hk4 as ((G1 & G2 & G3) & Hm4 & Hs4). change (measure sc3) with (measure sc2) in Hm4. assert (handler_ids sc4 = handler_ids sc) as Eh4 by done.
  split; cbn [fst snd].
  - split; [|done]. change (sc_writer (runHandler id req hd sc4)) with (sc_writer sc4). apply Inv_handler; rewrite ?Eh4; try done.
    apply Hs4. change (sc_str sc3) with (sc_str sc2). rewrite Et2, Et. cbn. rewrite lookup_insert_eq. by eexists.
  - change (measure (runHandler id req hd sc4)) with (measure sc4). lia.
Qed.

Lemma processHeaders_post f sc : resting sc -> 0 <= fh_StreamID (mh_fh f) < 2 ^ 31 ->
  post (processHeaders srv ParseRequestURI hostURL tlsState newBuffer f sc) (growth_or_error 3 sc).
Proof.
  intros HR Hid. unfold processHeaders. cbv zeta. set (id := fh_StreamID (mh_fh f)) in *.
  assert (forall n, 0 <= n -> settled n sc sc) as Hs by (intros n Hn; split; [done|lia]).
  destruct (inGoAway _); [by apply Hs|]. destruct (Z.eqb_spec (id mod 2) 1) as [Hodd|]; cbn [negb]; [|by apply Hs].
  unfold streams. case_bool_decide as Hl.
  - pose proof HR as (HI & _). destruct (iv_live _ _ _ HI id Hl) as [st Hst]. rewrite Hst.
    destruct (st_resetQueued st); [by apply Hs|]. case_bool_decide; [by apply Hs|].
    eapply post_mono; [by apply processTrailerHeaders_post|]. intros [sc1 e] [G1 G2]. split; [done|]. cbn in *. destruct e; lia.
  - destruct (Z.leb_spec id (maxClientStreamID (sc_str sc))) as [|Hmax]; [by apply Hs|]. cbv zeta. set (sc0 := set_maxClientStreamID id sc).
    destruct (unopened sc id HR Hodd Hmax) as (Hnone & Hnh & Hsorted). pose proof HR as (HI & H2 & H3).
    destruct (iv_table _ _ _ HI) as [Hc Hp [Hcc1 [Hcc2 Hcc3]] Hcp].
    assert (resting sc0) as HR0.
    { split; [|done]. apply Inv_table; cbn; try done; [lia|]. split; cbn; [lia|done| |done]. split; [done|lia]. }
    assert (u32 (curClientStreams (sc_str sc0) + 1) = curClientStreams (sc_str sc) + 1) as -> by (apply u32_id; unfold is_u32; cbn; lia).
    change (advMaxStreams (sc_str sc0)) with (advMaxStreams (sc_str sc)). destruct (_ >? _) eqn:Eadv.
    + split; [done|]. cbn. change (measure sc <= measure sc + 2). lia.
    + eapply post_mono; [apply openRequest_post; try done; cbn; lia|]. intros [sc1 e] [G1 G2]. by split.
Qed.
End frames.
