(* ===== verification/ServerRun.v ===== *)
(** * Package http2: whole runs of a server's connection

    From a new connection through any rounds of the serve loop: the invariant holds between
    the rounds, and the write loop ends. *)

From S2P Require Import Prelude HpackTable Hpack Flow DataBuffer Pipe Frame HttpGuts FrameMeta WriteFrames HeaderWrite WriteSched.
From S2P Require Import ServerRequest ServerConn ServerFrames ServerSched ServerInv ServerStep ServerKeep ServerFrameKeep.

Section run.
Context {S C W B U : Type} {WS : WriteScheduler S C} {SD : ServerScheduler S C} {FS : FrameSink W} {PB : PipeBuffer B serve_error} {BB : BodyBuffer B serve_error}.
Context (srv : Server) (ParseRequestURI : bytes -> option U) (hostURL : bytes -> U) (tlsState : bool) (env : environment (C := C)).
Context (newBuffer : Z -> B) (newBuffer_empty : forall n, bb_holds (newBuffer n) 0) (fuel : nat).
Abbreviation conn := (serverConn (S := S) (W := W) (B := B) (U := U)).
Implicit Types (sc : conn).
Abbreviation schedule := (scheduleFrameWrite srv ParseRequestURI hostURL tlsState env fuel).
Abbreviation room := (Z.of_nat fuel - 1).
Abbreviation resting := (rest (C := C) false ∅).
Abbreviation kept := (kept (C := C) false ∅).
Abbreviation settled := (settled (C := C)).
Let sched_post := schedule_post srv ParseRequestURI hostURL tlsState env fuel (W := W) (B := B).

(** ** What a round relies on

    Handlers write frames of streams that they were started for; the framer gives stream
    identifiers of 31 bits. *)
Definition shape_ok (wr : FrameWriteRequest) : bool :=
  match wr_write wr, wr_stream wr with
  | None, _ => false
  | Some w, Some s => bool_decide (s = stream_ptr (s_id s)) && stream_frame w && bool_decide (frame_id w = Some (s_id s))
  | Some w, None => conn_frame w
  end.

Definition event_ok (ev : event) sc : bool :=
  match ev with
  | FromHandler wr =>
      shape_ok wr && match key wr with Some id => bool_decide (id ∈ handler_ids sc) | None => true end
  | FrameRead (Read (inr f)) _ => (0 <=? fh_StreamID (mh_fh f)) && (fh_StreamID (mh_fh f) <? 2 ^ 31)
  | _ => true
  end.

Lemma shape_ok_spec wr : shape_ok wr = true -> request_shape wr.
Proof.
  unfold shape_ok, request_shape. destruct (wr_write wr) as [w|]; [|done]. intros H. exists w. split; [done|].
  destruct (wr_stream wr) as [s|]; [|done]. rewrite !andb_true_iff, !bool_decide_eq_true in H. tauto.
Qed.

(** What an event may add to the measure. *)
Definition growth (ev : event) : Z :=
  match ev with
  | FromHandler wr => cost wr
  | FrameRead _ _ => 3
  | BodyRead _ => 2
  | StartPush _ => 1
  | _ => 0
  end.

Lemma settled_refl n sc : resting sc -> 0 <= n -> settled n sc sc.
Proof. intros HR Hn. split; [done|lia]. Qed.

Lemma settled_trans n m k sc sc' sc'' : settled n sc sc' -> settled m sc' sc'' -> n + m <= k -> settled k sc sc''.
Proof. intros (H1 & H2) (G1 & G2) Hk. split; [done|lia]. Qed.

Lemma settled_mono n m sc sc' : settled n sc sc' -> n <= m -> settled m sc sc'.
Proof. intros (H1 & H2) Hn. split; [done|lia]. Qed.

(** ** Frames *)
Lemma or_error_mono n m sc (r : conn * option process_error) : growth_or_error n sc r -> n <= m -> growth_or_error m sc r.
Proof. intros (H1 & H2) Hn. split; [done|]. destruct r.2; lia. Qed.

Lemma kept_or_error n sc (r : conn * option process_error) : kept n sc r.1 -> n <= 2 -> growth_or_error 3 sc r.
Proof. intros (H1 & H2 & _) Hn. split; [done|]. destruct r.2; lia. Qed.

Lemma processFrame_post f sc :
  resting sc -> measure sc + 3 <= room -> (forall h, f = inr h -> 0 <= fh_StreamID (mh_fh h) < 2 ^ 31) ->
  post (processFrame srv ParseRequestURI hostURL tlsState env newBuffer fuel f sc) (growth_or_error 3 sc).
Proof.
  intros HR Hm Hid. unfold processFrame. destruct (_ && _); [by apply (settled_refl 2)|]. cbv zeta.
  set (sc0 := if sc_sawFirstSettings sc then sc else saw_settings sc). assert (resting sc0 /\ measure sc0 = measure sc) as [HR0 Hm0].
  { unfold sc0. destruct (sc_sawFirstSettings sc); [done|]. split; [by apply (rest_ext false ∅ sc)|done]. }
  assert (forall r, growth_or_error 3 sc0 r -> growth_or_error 3 sc r) as Hback.
  { unfold growth_or_error, ServerFrameKeep.settled. by rewrite Hm0. }
  eapply post_mono; [|exact Hback]. clear Hback. rewrite <- Hm0 in Hm. clearbody sc0. clear dependent sc.
  assert (forall n m, n <= 2 -> post m (fun r => kept n sc0 r.1) -> post m (growth_or_error 3 sc0)) as Hk.
  { intros n m Hn H. eapply post_mono; [exact H|]. intros r Hr. by apply (kept_or_error n). }
  assert (forall n m, n <= 2 -> post m (fun r => settled n sc0 r.1) -> post m (growth_or_error 3 sc0)) as Hs.
  { intros n m Hn H. eapply post_mono; [exact H|]. intros [sc1 e] [G1 G2]. split; [done|]. cbn in *. destruct e; lia. }
  assert (forall e, post (Ret (sc0, e)) (growth_or_error 3 sc0)) as Hret by (intros e; split; [done|destruct e; cbn; lia]).
  destruct f as [f|h]; [|apply processHeaders_post; [apply newBuffer_empty|done|by apply Hid]].
  destruct f; try apply Hret.
  all: first
    [ eapply post_mono; [apply processData_post; [done|lia]|intros r Hr; apply (or_error_mono 2); [done|lia]]
    | apply (Hk 0); [done|by apply processPriority_post]
    | apply (Hs 0); [done|apply processResetStream_post; [done|lia]]
    | apply (Hk 1); [done|apply processSettings_post; [done|lia]]
    | apply (Hk 1); [done|apply processPing_post; [done|lia]]
    | apply (Hk 0); [done|apply processGoAway_post; [done|lia]]
    | apply (Hk 0); [done|apply processWindowUpdate_post; [done|lia]] ].
Qed.

Lemma handleError_post e sc : resting sc -> measure sc + 1 <= room ->
  post (handleError srv ParseRequestURI hostURL tlsState env fuel e sc) (fun r => settled 1 sc r.1).
Proof.
  intros HR Hm. pose proof (settled_refl 1 sc HR ltac:(lia)) as Hs.
  assert (forall code, post (let! sc1 := goAway schedule code sc in Ret (sc1, true)) (fun r => settled 1 sc r.1)) as Hgo.
  { intros code. post_use (goAway_post schedule false room sched_post ∅ code sc); [done|lia|].
    intros sc1 Hk. apply (settled_mono 0); [by apply kept_settled|lia]. }
  destruct e as [e|]; [|apply Hgo]. destruct e; try exact Hs; try apply Hgo.
  cbn [handleError]. post_use (resetStream_post schedule false room sched_post ∅); [done|done|]. intros sc1 Hk. by apply kept_settled.
Qed.

Lemma processFrameFromReader_post res sc :
  resting sc -> measure sc + 3 <= room -> (forall h, res = Read (inr h) -> 0 <= fh_StreamID (mh_fh h) < 2 ^ 31) ->
  post (processFrameFromReader srv ParseRequestURI hostURL tlsState env newBuffer fuel res sc) (fun r => settled 3 sc r.1).
Proof.
  intros HR Hm Hid. pose proof (settled_refl 3 sc HR ltac:(lia)) as Hs.
  assert (forall e, post (handleError srv ParseRequestURI hostURL tlsState env fuel e sc) (fun r => settled 3 sc r.1)) as He.
  { intros e. eapply post_mono; [apply handleError_post; [done|lia]|]. intros r Hr. apply (settled_mono 1); [done|lia]. }
  unfold processFrameFromReader. destruct res as [f|e].
  - post_use processFrame_post; [done|done|intros h ->; by apply Hid|]. intros [sc1 [e|]] [HR1 Hm1]; cbn [fst snd] in *; [|by split].
    eapply post_mono; [apply handleError_post; [done|lia]|]. intros r Hr. by apply (settled_trans 2 1 3 sc sc1).
  - assert (post (let! sc1 := goAway schedule ErrCodeFrameSize sc in Ret (sc1, true)) (fun r => settled 3 sc r.1)) as Hgo.
    { post_use (goAway_post schedule false room sched_post ∅ ErrCodeFrameSize sc); [done|lia|].
      intros sc1 Hk. apply (settled_mono 0); [by apply kept_settled|lia]. }
    destruct e; first [exact Hs|exact Hgo|apply He].
Qed.

(** ** Rounds *)
Lemma receiveWritten_post sc : resting sc -> measure sc <= room ->
  post (receiveWritten srv ParseRequestURI hostURL tlsState env fuel sc) (settled 0 sc).
Proof.
  intros (HI & H2 & H3) Hm. unfold receiveWritten. post_get wr Ewr. rewrite Ewr in HI. post_get w Ew.
  apply post_bind, post_lift. intros [cx err] _.
  eapply post_mono; [apply (wroteFrame_post srv env schedule false room sched_post ∅); [by apply (Inv_ext ∅ _ sc)|done|done|exact Hm]|].
  intros sc1 Hk. by apply kept_settled in Hk.
Qed.

Lemma write_stored wr sc : resting sc -> request_shape wr -> (forall id, key wr = Some id -> is_Some (store (sc_str sc) !! id)) ->
  measure sc + cost wr <= room -> post (writeFrame schedule wr sc) (settled (cost wr) sc).
Proof.
  intros HR Hsh Hk Hm. eapply post_mono; [by apply (writeFrame_post schedule false room sched_post ∅)|]. intros sc1. apply kept_settled.
Qed.

Lemma noteBodyRead_post id sc : resting sc -> measure sc + 2 <= room ->
  post (noteBodyRead srv ParseRequestURI hostURL tlsState env fuel id sc) (settled 2 sc).
Proof.
  intros HR Hm. unfold noteBodyRead. post_use (sendWindowUpdate_post srv schedule false room sched_post ∅ None); [done|done|lia|].
  intros sc1 Hk. pose proof Hk as (HR1 & Hm1 & _). post_get st Est.
  destruct (_ && _); [|apply (settled_mono 1); [by apply kept_settled|lia]].
  eapply post_mono; [apply (sendWindowUpdate_post srv schedule false room sched_post ∅); [done| |lia]|].
  - intros i [= <-]. by exists st.
  - intros sc2 Hk2. apply (settled_kept 1 1 2 sc sc1); [by apply kept_settled|done|lia].
Qed.

Lemma startPush_post msg sc : resting sc -> measure sc + 1 <= room ->
  post (startPush srv ParseRequestURI hostURL tlsState env fuel msg sc) (settled 1 sc).
Proof.
  intros HR Hm. unfold startPush. post_get st Est.
  assert (forall done err, post (replyToWriter done err sc) (settled 1 sc)) as Hr.
  { intros done err. eapply post_mono; [by apply (replyToWriter_post false ∅)|]. intros sc1 Hk. apply (settled_mono 0); [by apply kept_settled|lia]. }
  destruct (_ && _); [apply Hr|]. destruct (negb _); [apply Hr|].
  apply write_stored; [done| | |exact Hm].
  - eexists. split; [done|]. by cbn.
  - intros id [= <-]. by exists st.
Qed.

(** A handler uses its body. *)
Lemma body_settled sc id st p p' : resting sc -> store (sc_str sc) !! id = Some st -> st_body st = Some p -> p_err p' = p_err p ->
  (forall n, body_holds p n -> body_holds p' n) -> settled 0 sc (put id (set_body (Some p') st) sc).
Proof.
  intros HR Est Ep He Hh. apply kept_settled. destruct (body_change st p p' Ep) as (B1 & B2 & B3); [by left|done|].
  apply (kept_put false ∅ 0 sc id st); try done. apply B1. destruct HR as (HI & _). by destruct (iv_streams _ _ _ HI _ _ Est) as (_ & ? & _).
Qed.

Lemma pipe_Read_same (p p' : pipe B serve_error unit) d r : pipe_Read p d = Some (p', r) -> p_err p' = p_err p.
Proof.
  unfold pipe_Read. destruct (p_breakErr p); [by intros [= <- _]|]. destruct (p_b p) as [b|].
  - destruct (_ >? 0).
    + destruct (pb_Read b d) as [[[b' d'] [n e]]|]; [|done]. cbn. by intros [= <- _].
    + destruct (p_err p) eqn:E; by intros [= <- _].
  - destruct (p_err p) eqn:E; by intros [= <- _].
Qed.

Lemma handle_post ev sc : resting sc -> event_ok ev sc = true -> measure sc + growth ev <= room ->
  post (handle srv ParseRequestURI hostURL tlsState env newBuffer fuel ev sc) (fun r => settled (growth ev) sc r.1).
Proof.
  intros HR Hok Hm. destruct ev as [wr| |res written|id| | | | |msg|id d|id|ch]; cbn [growth handle] in *.
  - apply andb_true_iff in Hok as [Hsh%shape_ok_spec Hkey]. apply post_bind. pose proof (cost_pos wr).
    assert (post (writeFrame schedule wr sc) (settled (cost wr) sc)) as Hwr.
    { apply write_stored; [done|done| |done]. intros id Hid. destruct HR as (HI & _). destruct (iv_handlers _ _ _ HI) as (_ & _ & Hh).
      apply Hh. rewrite Hid in Hkey. by apply bool_decide_eq_true in Hkey. }
    destruct (wr_write wr) as [w|]; [|exact Hwr]. destruct w; try exact Hwr.
    eapply post_mono; [apply (resetStream_post schedule false room sched_post ∅); [done|lia]|].
    intros sc1 Hk. apply (settled_mono 1); [by apply kept_settled|lia].
  - post_use receiveWritten_post; [done|lia|]. done.
  - apply post_bind, (post_mono _ (settled 0 sc)).
    { destruct (_ && _); [apply receiveWritten_post; [done|lia]|by apply (settled_refl 0)]. }
    intros sc1 [HR1 Hm1]. eapply post_mono; [apply processFrameFromReader_post; [done|lia|intros h ->; cbn in Hok; lia]|].
    intros r Hr. by apply (settled_trans 0 3 3 sc sc1).
  - post_use noteBodyRead_post; done.
  - by apply settled_refl.
  - post_use (goAway_post schedule false room sched_post ∅ ErrCodeNo sc); [done|lia|]. intros sc1 Hk. by apply kept_settled.
  - by apply settled_refl.
  - post_use (goAway_post schedule false room sched_post ∅ ErrCodeNo sc); [done|lia|]. intros sc1 Hk. by apply kept_settled.
  - post_use startPush_post; done.
  - post_get st Est. destruct (st_body st) as [p|] eqn:Ep; [|by apply settled_refl]. post_get r Er. destruct r as [p' o]. cbn [post fst].
    rewrite (update_put sc id _ st Est). apply (body_settled sc id st p); try done; [by apply pipe_Read_same in Er|]. intros n. exact (holds_read _ _ _ _ n Er).
  - post_get st Est. destruct (st_body st) as [p|] eqn:Ep; [|by apply settled_refl]. post_use (on_body_post id (fun p => BreakWithError p (Some errClosedBody)) sc).
    intros sc1 (st1 & p1 & p' & E1 & Hp1 & Hb & ->). apply (body_settled sc id st1 p1); try done; [by apply BreakWithError_err in Hb|]. intros n. exact (holds_break _ _ _ n Hb).
  - apply kept_settled. by apply quiet_kept.
Qed.

Lemma closeAllStreams_post ids : forall sc, resting sc -> measure sc <= room ->
  post (closeAllStreams srv ParseRequestURI hostURL tlsState env fuel ids sc) (settled 0 sc).
Proof.
  induction ids as [|id ids IH]; intros sc HR Hm; simpl; [by apply settled_refl|].
  apply post_bind, (post_mono _ (settled 0 sc)).
  - unfold streams. case_bool_decide as Hl; [|by apply settled_refl]. destruct (store (sc_str sc) !! id); [|by apply settled_refl].
    eapply post_mono; [by apply (close_live_post srv env schedule false room sched_post ∅)|]. intros sc1 (G1 & G2 & _). split; [done|lia].
  - intros sc1 [HR1 Hm1]. eapply post_mono; [apply IH; [done|lia]|]. intros sc2 Hs. by apply (settled_trans 0 0 0 sc sc1).
Qed.

Lemma exit_serve_post sc : resting sc -> measure sc <= room ->
  post (exit_serve srv ParseRequestURI hostURL tlsState env fuel sc) (settled 0 sc).
Proof.
  intros HR Hm. unfold exit_serve. post_use closeAllStreams_post; [done|done|]. intros sc1 [HR1 Hm1]. split; [|done].
  by apply (rest_ext false ∅ sc1).
Qed.

Lemma serve_round_post ev sc : resting sc -> event_ok ev sc = true -> measure sc + growth ev <= room ->
  post (serve_round srv ParseRequestURI hostURL tlsState env newBuffer fuel ev sc) (fun r => settled (growth ev) sc r.1).
Proof.
  intros HR Hok Hm. unfold serve_round. post_use handle_post; [done|done|done|]. intros [sc1 continue] [HR1 Hm1]; cbn [fst] in *.
  assert (post (let! sc2 := exit_serve srv ParseRequestURI hostURL tlsState env fuel sc1 in Ret (sc2, false)) (fun r => settled (growth ev) sc r.1)) as Hexit.
  { post_use exit_serve_post; [done|lia|]. intros sc2 [HR2 Hm2]. split; [done|cbn; lia]. }
  destruct (negb continue); [exact Hexit|]. destruct (_ >? _); [exact Hexit|]. cbv zeta. cbn [post fst].
  destruct (_ && _); [|by split]. split; [by apply (rest_ext false ∅ sc1)|exact Hm1].
Qed.

(** ** Runs *)
Fixpoint events_ok (evs : list event) sc : bool :=
  match evs with
  | [] => true
  | ev :: evs =>
      event_ok ev sc &&
      match serve_round srv ParseRequestURI hostURL tlsState env newBuffer fuel ev sc with
      | Ret (sc, true) => events_ok evs sc
      | _ => true
      end
  end.

Definition serve_ok (sched : S) (cx : W) (evs : list event) : bool :=
  match (let! sc := newServerConn srv sched cx in serve_start srv ParseRequestURI hostURL tlsState env fuel sc) with
  | Ret sc => events_ok evs sc
  | _ => true
  end.

(** The fuel that is enough: what the events add, and the two frames that open the
    connection. *)
Definition budget (evs : list event) : Z := zsum growth evs.

Lemma serve_loop_post evs : forall sc, resting sc -> events_ok evs sc = true -> measure sc + budget evs <= room ->
  post (serve_loop srv ParseRequestURI hostURL tlsState env newBuffer fuel evs sc) (fun r => resting r.1).
Proof.
  induction evs as [|ev evs IH]; intros sc HR Hok Hm; simpl in *; [done|]. apply andb_true_iff in Hok as [Hev Hok].
  assert (0 <= budget evs) by (apply zsum_nonneg; intros []; cbn; try lia; pose proof (cost_pos wr); lia).
  unfold budget in Hm. cbn in Hm. fold (budget evs) in Hm.
  pose proof (serve_round_post ev sc HR Hev ltac:(lia)) as HP.
  destruct (serve_round _ _ _ _ _ _ _ ev sc) as [[sc1 c]|e|]; cbn in HP |- *; [|done|done]. destruct HP as [HR1 Hm1].
  destruct c; [|done]. apply IH; [done|done|lia].
Qed.

Lemma newServerConn_post sched cx : sd_ok sched -> sd_waiting sched = [] ->
  post (newServerConn (B := B) (U := U) srv sched cx) (fun sc => resting sc /\ measure sc = 0).
Proof.
  intros Hok Hw. unfold newServerConn. apply post_bind, post_lift. intros [fl1 ok1] _. apply post_bind, post_lift. intros [fl2 ok2] _.
  cbn [post]. split; [split; [|auto]|unfold measure, waiting; cbn; by rewrite Hw].
  assert (0 < maxConcurrentStreams srv).
  { unfold maxConcurrentStreams. cbv zeta. destruct (Z.gtb_spec (srv_MaxConcurrentStreams srv) 0); [done|]. unfold defaultMaxStreams. lia. }
  split; unfold waiting, handler_ids; cbn; try done.
  - split; cbn; try done. split; [done|lia].
  - rewrite Hw. intros wr Hwr. by apply elem_of_nil in Hwr.
  - intros id (w & Hin & _). by apply elem_of_nil in Hin.
  - intros l1 w l2 id E. by destruct l1.
  - intros _. split; cbn; try done. intros l1 w l2 id E. by destruct l1.
  - split; [constructor|]. split; [constructor|]. intros id Hin. by apply elem_of_nil in Hin.
Qed.

Lemma serve_start_post sc : resting sc -> measure sc + 2 <= room ->
  post (serve_start srv ParseRequestURI hostURL tlsState env fuel sc) (settled 2 sc).
Proof.
  intros HR Hm. unfold serve_start.
  post_use (write_control (W := W) (B := B) srv ParseRequestURI hostURL tlsState env fuel); [done|done|done|lia|].
  intros sc1 Hk. pose proof Hk as (HR1 & Hm1 & _).
  eapply post_mono; [apply (sendWindowUpdate_post srv schedule false room sched_post ∅ None); [by apply (quiet_kept sc1)|done|]|].
  - change (measure sc1 + 1 <= room). lia.
  - intros sc2 (HR2 & Hm2 & _). split; [done|]. change (measure (set_unacked _ sc1)) with (measure sc1) in Hm2. lia.
Qed.

(** The invariant after any run; no run lacks fuel. *)
Lemma serve_post sched cx evs : sd_ok sched -> sd_waiting sched = [] -> serve_ok sched cx evs = true ->
  budget evs + 3 <= Z.of_nat fuel ->
  post (serve srv ParseRequestURI hostURL tlsState env newBuffer fuel sched cx evs) (fun r => resting r.1).
Proof.
  intros Hok Hw Hev Hm. assert (0 <= budget evs) by (apply zsum_nonneg; intros []; cbn; try lia; pose proof (cost_pos wr); lia).
  unfold serve, serve_ok in *. pose proof (newServerConn_post sched cx Hok Hw) as HN.
  destruct (newServerConn srv sched cx) as [sc|e|]; cbn in *; [|done|done]. destruct HN as [HR Hm0].
  pose proof (serve_start_post sc HR ltac:(lia)) as HS. destruct (serve_start _ _ _ _ _ _ sc) as [sc1|e|]; cbn in *; [|done|done].
  destruct HS as [HR1 Hm1]. apply serve_loop_post; [done|done|lia].
Qed.
End run.
