(* ===== verification/ServerCrash.v ===== *)
(** * Package http2: runs of a server that panic

    Concrete runs of the serve loop, from a new connection to a panic of the serve
    goroutine.  The writer takes all it is given and never fails; handlers send the
    requests that src/http2/server.go lets them send. *)

From S2P Require Import Prelude HpackTable Hpack Flow DataBuffer Pipe Frame FrameMeta WriteFrames HeaderWrite WriteSched PriorityTree PrioritySched.
From S2P Require Import ServerRequest ServerConn ServerFrames ServerWriter.

(** ** A connection to run *)

(** The connection keeps what is written to it. *)
Definition wire_write (k : bytes) (p : bytes) : bytes * (Z * option serve_error) := (k ++ p, (zlen p, None)).

#[export] Instance wire_sink : FrameSink (writeContext (bufferedWriter (K := bytes))) := bufferedSink wire_write (errWrite 0).

(** New chunks of zero bytes; paths parse as they are. *)
Definition new_body (n : Z) : dataBuffer * list (list bytes) := (newDataBuffer n, repeat [] 5).
Definition parse_path (s : bytes) : option bytes := Some s.

Definition random_env : environment (C := gmap Z writeQueue -> list Z) := mkEnv (fun _ => key_order) id (fun _ => false).
Definition priority_env : environment (C := (node_ptr -> node_ptr -> bool) -> list node_ptr -> list node_ptr) := mkEnv (fun _ _ l => l) id (fun _ => false).

Section run.
Context {S C : Type} `{WriteScheduler S C} (env : environment (C := C)) (srv : Server) (sched : S).

(** A connection with a new encoder. *)
Definition run_server (evs : list event) : run (serverConn (S := S) (W := writeContext (bufferedWriter (K := bytes)))
    (B := dataBuffer * list (list bytes)) (U := bytes) * bool) :=
  let! e := lift NewEncoder in
  serve srv parse_path id false env new_body 1000 sched (mkCtx false (newBufferedWriter []) e []) evs.
End run.

(** ** Events *)
Definition defaultServer : Server := mkServer 0 0 0 0 0.

Definition from_client (f : Frame + MetaHeadersFrame) : event := FrameRead (Read f) false.
Definition client_settings : event := from_client (inl (SettingsFrame (mkFH 4 0 0 0) [])).
Definition client_priority (id : Z) : event := from_client (inl (PriorityFrame (mkFH 2 0 5 id) (mkPrio 0 false 15))).
Definition client_reset (id : Z) : event := from_client (inl (RSTStreamFrame (mkFH 3 0 4 id) ErrCodeCancel)).
Definition client_data (id payload pad : Z) (es : bool) : event :=
  from_client (inl (DataFrame (mkFH 0 (if es then 1 else 0) (payload + pad) id) (repeat 0 (Z.to_nat payload)))).
Definition client_request (id : Z) (es : bool) : event :=
  from_client (inr (mkMeta (mkFH 1 (if es then 5 else 4) 10 id) zeroPriority
    [mkHF (str ":method") (str "GET") false; mkHF (str ":scheme") (str "https") false; mkHF (str ":path") (str "/") false;
     mkHF (str "host") (str "a") false] false)).

Definition handler_headers (id : Z) (es : bool) : event :=
  FromHandler (mkFWR (Some (writeResHeaders (mkRes id 200 ∅ None es [] [] []))) (Some (stream_ptr id)) (Some (Z.to_nat (2 * id)))).
Definition handler_data (id n : Z) (es : bool) : event :=
  FromHandler (mkFWR (Some (writeData id (repeat 0 (Z.to_nat n)) es)) (Some (stream_ptr id)) (Some (Z.to_nat (2 * id + 1)))).
Definition handler_panics (id : Z) : event := FromHandler (mkFWR (Some (handlerPanicRST id)) (Some (stream_ptr id)) None).

(** ** The default scheduler

    A PRIORITY frame makes an idle node for stream 1, a request opens it, and ten PRIORITY
    frames on other idle streams push the node out of the list of idle nodes, where it
    still is, and so out of the tree: closing the stream panics.  The client alone chooses these frames. *)
Definition priority_crash : list event :=
  [client_settings; client_priority 1; client_request 1 true] ++ map client_priority [3; 5; 7; 9; 11; 13; 15; 17; 19; 21] ++
  [FrameWritten; handler_headers 1 true; FrameWritten; FrameWritten].

(** With the default scheduler a client can stop the server: before the last write ends
    stream 1 is open for the connection and unknown to the scheduler, and closing it panics. *)
Definition known_streams (evs : list event) : run (bool * bool) :=
  let! r := run_server priority_env defaultServer (NewPriorityWriteScheduler None) evs in
  Ret (bool_decide (is_Some (streams r.1 1)), bool_decide (is_Some (pw_nodes (sc_sched r.1) !! 1))).

Example default_scheduler_crash :
  map known_streams [removelast priority_crash; priority_crash] = [Ret (true, false); Panic].
Proof. vm_compute. reflexivity. Qed.

(** ** Closing twice

    A handler panics while the connection is busy: its RST_STREAM is written by a goroutine,
    the client resets the stream before that ends, and then [wroteFrame] closes it again. *)
Definition started : list event := [FrameWritten; FrameWritten; client_settings; FrameWritten].

Definition panic_crash : list event :=
  started ++ map (fun id => client_request id false) [1; 3; 5] ++
  [handler_headers 3 false; FrameWritten; FrameWritten; handler_headers 5 false; handler_data 3 4075 false; handler_panics 1;
   FrameWritten; client_reset 1; FrameWritten].

(** ** Writing while closing

    [closeStream] returns the connection's window before it drops the frames of the stream
    from the scheduler, and that call writes one of them. *)
Definition window_crash : list event :=
  started ++ [client_request 1 false; handler_headers 1 false; FrameWritten; FrameWritten; handler_data 1 5000 true;
              client_data 1 524288 0 false; client_data 1 10 10 true; FrameWritten].

(** ** A stream's window above the connection's

    [sendWindowUpdate] compares the smaller of the two windows with the size of the
    stream's, and returns more than was taken. *)
Definition wideServer : Server := mkServer 0 0 0 (2 ^ 30 + 2 ^ 29) 0.
Definition wide_crash : list event := [client_settings; client_request 1 false; client_data 1 5 0 false; BodyRead 1].

(** Runs that end in a panic of the serve goroutine, with the random scheduler.
    [wroteFrame] closes a stream that is closed; [startFrameWrite] is given a frame of the
    stream that [closeStream] is at work on; the first read of a body returns more of the
    window than was taken. *)
Theorem serve_loop_crashes :
  run_server random_env defaultServer NewRandomWriteScheduler panic_crash = Panic /\
  run_server random_env defaultServer NewRandomWriteScheduler window_crash = Panic /\
  run_server random_env wideServer NewRandomWriteScheduler wide_crash = Panic.
Proof. vm_compute. auto. Qed.

(** ** A window credited twice

    [sendWindowUpdate] credits the connection's window after it has scheduled its frame,
    and that call can close another stream, which returns the same bytes again. *)
Definition credit_run : list event :=
  started ++ map (fun id => client_request id false) [1; 3] ++
  [client_data 1 262144 0 true; client_data 3 262144 0 true; handler_headers 1 false; FrameWritten; FrameWritten;
   handler_headers 3 false; FrameWritten; FrameWritten; handler_data 1 5000 true; handler_data 3 10 true; FrameWritten].

Definition conn_inflow {S C} `{WriteScheduler S C} (r : run (serverConn (S := S) (W := writeContext (bufferedWriter (K := bytes)))
    (B := dataBuffer * list (list bytes)) (U := bytes) * bool)) : option Z :=
  match r with Ret (sc, _) => f_n <$> sc_flows sc !! inflow_addr 0 | _ => None end.

(** After two responses the connection's receive window is 512 KB larger than the
    server is configured for, and the client was told so. *)
Theorem connection_credited_twice :
  conn_inflow (run_server random_env defaultServer NewRandomWriteScheduler credit_run) =
    Some (initialConnRecvWindowSize defaultServer + 524288).
Proof. vm_compute. reflexivity. Qed.
