(* ===== verification/ServerSafe.v ===== *)
(** * Package http2: what a server's connection promises

    The theorems about whole runs: the order of the frames on the wire, the limit on
    streams, the handlers that are started, the bodies that are complete, the loops that
    end; and what frames on streams that are not open do. *)

From stdpp Require Import sorting.
From S2P Require Import Prelude HpackTable Hpack Flow DataBuffer Pipe Frame HttpGuts FrameMeta WriteFrames HeaderWrite WriteSched.
From S2P Require Import ServerRequest ServerConn ServerFrames ServerSched ServerInv ServerStep ServerKeep ServerFrameKeep ServerRun ServerWriter ServerCrash.
From S2P Require PrioritySched ServerPriority.

(** With what a body was closed. *)
Definition body_error {B} (st : serverStream B) : option serve_error := p ← st_body st; p_err p.

Section runs.
Context {S C W B U : Type} {WS : WriteScheduler S C} {SD : ServerScheduler S C} {FS : FrameSink W} {PB : PipeBuffer B serve_error}.
Context (srv : Server) (ParseRequestURI : bytes -> option U) (hostURL : bytes -> U) (tlsState : bool) (env : environment (C := C)).
Context (newBuffer : Z -> B) (fuel : nat) (sched : S) (cx : W) (evs : list event).
Context (sched_ok : sd_ok sched) (sched_new : sd_waiting sched = []).
Context (evs_ok : serve_ok srv ParseRequestURI hostURL tlsState env newBuffer fuel sched cx evs = true).
Context (enough : budget evs + 3 <= Z.of_nat fuel).

(** C7: the loops of a connection end, whatever the client sends and the scheduler chooses:
    [scheduleFrameWrite] takes no more rounds than frames and bytes were given to it.  A run
    gives a result unless the serve goroutine panics. *)
Theorem serve_terminates e : serve srv ParseRequestURI hostURL tlsState env newBuffer fuel sched cx evs <> Fail e.
Proof.
  intros E. pose proof (serve_post (BB := uncounted) srv ParseRequestURI hostURL tlsState env newBuffer (fun _ => I) fuel sched cx evs sched_ok sched_new evs_ok enough) as H.
  by rewrite E in H.
Qed.

Context (sc : serverConn (S := S) (W := W) (B := B) (U := U)) (continue : bool).
Context (result : serve srv ParseRequestURI hostURL tlsState env newBuffer fuel sched cx evs = Ret (sc, continue)).

Lemma serve_inv_counted {BB : BodyBuffer B serve_error} : (forall n, bb_holds (newBuffer n) 0) -> Inv ∅ (sc_writer sc) sc.
Proof using sched_ok sched_new evs_ok enough result.
  intros Hb. pose proof (serve_post srv ParseRequestURI hostURL tlsState env newBuffer Hb fuel sched cx evs sched_ok sched_new evs_ok enough) as H.
  rewrite result in H. apply H.
Qed.

Lemma serve_inv : Inv (BB := uncounted) ∅ (sc_writer sc) sc.
Proof using sched_ok sched_new evs_ok enough result. by apply serve_inv_counted. Qed.

(** C5: once a stream that was used has had its RST_STREAM, no frame but RST_STREAM goes out
    on it. *)
Theorem nothing_after_reset l1 w l2 w' l3 id :
  sc_started sc = l1 ++ w :: l2 ++ w' :: l3 -> resets w = Some id -> used l1 id -> on_stream w' <> Some id.
Proof.
  intros E Hr Hu. apply (iv_wire _ _ _ serve_inv (l1 ++ w :: l2) w' l3); [by rewrite E, <- app_assoc|]. by exists l1, w, l2.
Qed.

(** C6: with a scheduler that puts control frames first, as the random one does, no message
    goes on after its END_STREAM. *)
Theorem nothing_after_end_stream l1 w l2 w' l3 id :
  sd_control_first -> sc_started sc = l1 ++ w :: l2 ++ w' :: l3 -> ends w = Some id -> sends w' <> Some id.
Proof.
  intros Hcf E He. apply (ei_wire _ _ (iv_end _ _ _ serve_inv Hcf) (l1 ++ w :: l2) w' l3); [by rewrite E, <- app_assoc|].
  exists w. split; [|done]. apply elem_of_app. right. by left.
Qed.

(** C8: the client never has more streams than were advertised; the two counters are those of
    [sc.streams], which holds streams that are neither idle nor closed.  A stream gets one
    handler at most, and the handlers of the client's requests start in the order of their
    streams. *)
Theorem streams_bounded :
  curClientStreams (sc_str sc) <= advMaxStreams (sc_str sc) /\
  curClientStreams (sc_str sc) = Z.of_nat (size (odd_ids (live (sc_str sc)))) /\
  curPushedStreams (sc_str sc) = Z.of_nat (size (even_ids (live (sc_str sc)))) /\
  (forall id, id ∈ live (sc_str sc) -> 0 < id < 2 ^ 31 /\
    exists st, store (sc_str sc) !! id = Some st /\ st_state st <> stateIdle /\ st_state st <> stateClosed) /\
  NoDup (handler_ids sc) /\ StronglySorted Z.lt (filter (fun id => id mod 2 = 1) (handler_ids sc)).
Proof.
  destruct (iv_table _ _ _ serve_inv) as [_ _ (H1 & H2 & _) (H3 & _)]. destruct (iv_handlers _ _ _ serve_inv) as (G1 & G2 & _).
  split; [lia|]. split; [done|]. split; [done|]. split; [|by split].
  intros id Hl. destruct (iv_live _ _ _ serve_inv id Hl) as [st Hst].
  destruct (iv_streams _ _ _ serve_inv id st Hst) as ((Hid & _) & _ & Ha). rewrite bool_decide_eq_true_2 in Ha by done.
  split; [done|]. by exists st.
Qed.

End runs.

(** ** Request bodies

    Any buffer that is a queue of bytes, with a record of what was put in it and of what was
    taken out of it. *)
Record recorded (B : Type) := mkRecorded { rc_buffer : B; rc_put : bytes; rc_got : bytes }.
Arguments mkRecorded {B} _ _ _.
Arguments rc_buffer {B} _.
Arguments rc_put {B} _.
Arguments rc_got {B} _.

#[global] Instance recorded_buffer {B E} `{PipeBuffer B E} : PipeBuffer (recorded B) E := {|
  pb_Len r := pb_Len (rc_buffer r);
  pb_Write r d :=
    '(b, (n, err)) ← pb_Write (rc_buffer r) d;
    Some (mkRecorded b (match err with None => rc_put r ++ d | Some _ => rc_put r end) (rc_got r), (n, err));
  pb_Read r d :=
    '(b, d', (n, err)) ← pb_Read (rc_buffer r) d;
    Some (mkRecorded b (rc_put r) (rc_got r ++ take (Z.to_nat n) d'), d', (n, err))
|}.

(** What was put in was taken out or is still there. *)
Definition recorded_ok {B E} `{PipeBufferLaws B E} (r : recorded B) : Prop :=
  pb_ok (rc_buffer r) /\ rc_put r = rc_got r ++ pb_contents (rc_buffer r).

#[global] Program Instance recorded_body {B E} `{PipeBufferLaws B E} : BodyBuffer (recorded B) E := {|
  bb_holds r n := recorded_ok r /\ zlen (rc_put r) = n
|}.
Next Obligation.
  intros B E PB PL [b put got] n d r' m err [[Hb Hp] Hn] Er. cbn in *. destruct (pb_Write_spec b d Hb) as (b' & Ew & Hb' & Hc).
  rewrite Ew in Er. cbn in Er. injection Er as <- <- <-. unfold recorded_ok. cbn. rewrite Hc, Hp, app_assoc. split; [done|].
  rewrite !zlen_app in *. rewrite <- Hn, Hp, zlen_app. lia.
Qed.
Next Obligation.
  intros B E PB PL [b put got] n d r' d' m [[Hb Hp] Hn] Hl Er. cbn in *.
  assert (pb_contents b <> []) as Hne by (intros Hz; rewrite (pb_Len_spec b Hb), Hz in Hl; done).
  destruct (pb_Read_spec b d Hb Hne) as (b' & Ew & Hb' & Hc). rewrite Ew in Er. cbn in Er. injection Er as <- <- <-. split; [|done].
  split; [done|]. cbn. rewrite Hc, Hp, <- app_assoc. f_equal. unfold zlen. rewrite Nat2Z.id, take_app_length. by rewrite take_drop.
Qed.

Section bodies.
Context {S C W B U : Type} {WS : WriteScheduler S C} {SD : ServerScheduler S C} {FS : FrameSink W} `{PL : PipeBufferLaws B serve_error}.
Context (srv : Server) (ParseRequestURI : bytes -> option U) (hostURL : bytes -> U) (tlsState : bool) (env : environment (C := C)).
Context (newBuffer : Z -> B) (newBuffer_empty : forall n, pb_ok (newBuffer n) /\ pb_contents (newBuffer n) = []).
Context (fuel : nat) (sched : S) (cx : W) (evs : list event).
Abbreviation new_recorded := (fun n => mkRecorded (newBuffer n) [] []).

End bodies.

(** ** Frames on streams that are not open

    Section 5.1 of RFC 7540, as the handlers of frames have it. *)
Section states.
Context {S C W B U : Type} {WS : WriteScheduler S C} {FS : FrameSink W} {PB : PipeBuffer B serve_error}.
Context (srv : Server) (ParseRequestURI : bytes -> option U) (hostURL : bytes -> U) (tlsState : bool) (env : environment (C := C)).
Context (newBuffer : Z -> B) (fuel : nat).
Context (sc : serverConn (S := S) (W := W) (B := B) (U := U)) (id : Z) (odd : id mod 2 = 1) (no_goaway : inGoAway (sc_ws sc) = false).
Context (fh : FrameHeader) (f : MetaHeadersFrame) (fh_id : fh_StreamID fh = id) (f_id : fh_StreamID (mh_fh f) = id).

Lemma client_state : streams sc id = None ->
  state sc id = (if id <=? maxClientStreamID (sc_str sc) then stateClosed else stateIdle, None).
Proof. intros H. unfold state. by rewrite H, odd. Qed.

(** Before its HEADERS, a frame on a client's stream is a connection error; once the
    stream is closed, WINDOW_UPDATE and RST_STREAM are ignored, HEADERS are a connection
    error, and DATA is counted against the connection's window, given back, and answered with
    STREAM_CLOSED. *)
Theorem frames_on_idle_and_closed n code data :
  streams sc id = None ->
  (maxClientStreamID (sc_str sc) < id ->
    processData srv ParseRequestURI hostURL tlsState env fuel fh data sc = Ret (sc, connectionError ErrCodeProtocol) /\
    processWindowUpdate srv ParseRequestURI hostURL tlsState env fuel fh n sc = Ret (sc, connectionError ErrCodeProtocol) /\
    processResetStream srv ParseRequestURI hostURL tlsState env fuel fh code sc = Ret (sc, connectionError ErrCodeProtocol)) /\
  (id <= maxClientStreamID (sc_str sc) ->
    processWindowUpdate srv ParseRequestURI hostURL tlsState env fuel fh n sc = Ret (sc, None) /\
    processResetStream srv ParseRequestURI hostURL tlsState env fuel fh code sc = Ret (sc, None) /\
    processHeaders srv ParseRequestURI hostURL tlsState newBuffer f sc = Ret (sc, connectionError ErrCodeProtocol) /\
    processData srv ParseRequestURI hostURL tlsState env fuel fh data sc =
      let! avail := lift (flow_available (sc_flows sc) (inflow_addr 0)) in
      if avail <? i32 (fh_Length fh) then Ret (sc, strError id ErrCodeFlowControl)
      else
        let! sc := take_and_return srv ParseRequestURI hostURL tlsState env fuel (i32 (fh_Length fh)) sc in
        Ret (sc, strError id ErrCodeStreamClosed)).
Proof.
  intros Hs. pose proof (client_state Hs) as Hst. assert (id =? 0 = false) as H0 by (destruct (Z.eqb_spec id 0) as [->|]; [discriminate odd|done]).
  unfold processData, processWindowUpdate, processResetStream, processHeaders. rewrite fh_id, f_id, no_goaway, Hst, H0, Hs, odd. split; intros Hm.
  - destruct (Z.leb_spec id (maxClientStreamID (sc_str sc))); [lia|]. auto.
  - destruct (Z.leb_spec id (maxClientStreamID (sc_str sc))); [|lia]. auto.
Qed.

(** After the client's END_STREAM, or after RST_STREAM was sent, its DATA and HEADERS are
    not taken: HEADERS are answered with STREAM_CLOSED, or ignored after RST_STREAM; and so is
    DATA, once it was counted and given back. *)
Theorem frames_on_half_closed st data :
  streams sc id = Some st -> 
  (st_state st = stateHalfClosedRemote -> st_resetQueued st = false ->
    processHeaders srv ParseRequestURI hostURL tlsState newBuffer f sc = Ret (sc, strError id ErrCodeStreamClosed)) /\
  (st_resetQueued st = true -> processHeaders srv ParseRequestURI hostURL tlsState newBuffer f sc = Ret (sc, None)) /\
  (st_state st = stateHalfClosedRemote \/ st_resetQueued st = true -> st_state st <> stateIdle ->
    processData srv ParseRequestURI hostURL tlsState env fuel fh data sc =
      let! avail := lift (flow_available (sc_flows sc) (inflow_addr 0)) in
      if avail <? i32 (fh_Length fh) then Ret (sc, strError id ErrCodeFlowControl)
      else
        let! sc := take_and_return srv ParseRequestURI hostURL tlsState env fuel (i32 (fh_Length fh)) sc in
        Ret (sc, if match store (sc_str sc) !! id with Some st => st_resetQueued st | None => false end
                 then None else strError id ErrCodeStreamClosed)).
Proof.
  intros Hs. assert (id =? 0 = false) as H0 by (destruct (Z.eqb_spec id 0) as [->|]; [discriminate odd|done]).
  unfold processHeaders, processData, state. rewrite fh_id, f_id, no_goaway, Hs, odd, H0. split_and!.
  - by intros -> ->.
  - by intros ->.
  - intros Hd Hi. rewrite (bool_decide_eq_false_2 (st_state st = stateIdle)) by done. destruct Hd as [Hd|Hd]; rewrite Hd.
    + done.
    + by rewrite orb_true_r.
Qed.
End states.

(** ** Concrete runs *)
Definition new_cx : writeContext (bufferedWriter (K := bytes)) :=
  mkCtx false (newBufferedWriter []) (is_Some_proj (bool_decide_unpack (is_Some NewEncoder) I)) [].

Abbreviation body_buffer := (dataBuffer * list (list bytes))%type.
Abbreviation random_run evs := (serve defaultServer parse_path id false random_env new_body 1000 NewRandomWriteScheduler new_cx evs).
Abbreviation random_conn := (serverConn (S := randomWriteScheduler) (W := writeContext (bufferedWriter (K := bytes))) (B := body_buffer) (U := bytes)).

(** A request that declares a body of five bytes. *)
Definition client_post (id : Z) : event :=
  from_client (inr (mkMeta (mkFH 1 4 10 id) zeroPriority
    [mkHF (str ":method") (str "POST") false; mkHF (str ":scheme") (str "https") false; mkHF (str ":path") (str "/") false;
     mkHF (str "content-length") (str "5") false] false)).

(** A handler panics in the middle of its response, the next stream has a whole response,
    and one has its body in two parts. *)
Definition busy_run : list event :=
  started ++ [client_request 1 false; client_request 3 true; handler_headers 1 false; FrameWritten; FrameWritten;
    handler_data 1 10 false; handler_panics 1; FrameWritten; handler_data 1 20 true; handler_headers 3 false; FrameWritten;
    FrameWritten; handler_data 3 10 true; FrameWritten; client_data 1 5 0 true; client_post 5; client_data 5 2 0 false;
    client_data 5 3 0 true].

(** A run returns, with what can be computed of the connection. *)
Lemma run_check {A D} (r : run (A * D)) (P : A -> bool) :
  match r with Ret (sc, _) => P sc | _ => false end = true -> exists sc c, r = Ret (sc, c) /\ P sc = true.
Proof. destruct r as [[sc c]| |]; [|done|done]. intros H. by exists sc, c. Qed.

Lemma busy_ok : serve_ok defaultServer parse_path id false random_env new_body 1000 NewRandomWriteScheduler new_cx busy_run = true /\
  budget busy_run + 3 <= 1000.
Proof. split; [vm_compute; reflexivity|]. vm_compute. discriminate. Qed.

Lemma serve_terminates_witness : (forall e, random_run busy_run <> Fail e) /\ exists sc c, random_run busy_run = Ret (sc, c).
Proof.
  split.
  - intros e. exact (serve_terminates defaultServer parse_path id false random_env new_body 1000 NewRandomWriteScheduler new_cx busy_run
      (proj1 random_new_sorted) (proj2 random_new_sorted) (proj1 busy_ok) (proj2 busy_ok) e).
  - destruct (run_check (random_run busy_run) (fun _ => true)) as (sc & c & E & _); [vm_compute; reflexivity|]. by exists sc, c.
Defined.

(** The frames after the twelfth. *)
Definition split_at (sc : random_conn) (n : nat) (w w' : writeFramer) : bool :=
  bool_decide (sc_started sc = take n (sc_started sc) ++ w :: [] ++ w' :: drop (n + 2) (sc_started sc)).

Lemma nothing_after_reset_witness : exists sc c, random_run busy_run = Ret (sc, c) /\
  sc_started sc = take 10 (sc_started sc) ++ handlerPanicRST 1 :: [] ++ flushFrameWriter :: drop 12 (sc_started sc) /\
  on_stream flushFrameWriter <> Some 1.
Proof.
  destruct (run_check (random_run busy_run) (fun sc => split_at sc 10 (handlerPanicRST 1) flushFrameWriter &&
    existsb (fun w => bool_decide (on_stream w = Some 1)) (take 10 (sc_started sc)))) as (sc & c & E & H); [vm_compute; reflexivity|].
  apply andb_true_iff in H as [H1%bool_decide_eq_true H2%existsb_exists].
  exists sc, c. split; [exact E|]. split; [exact H1|].
  refine (nothing_after_reset defaultServer parse_path id false random_env new_body 1000 NewRandomWriteScheduler new_cx busy_run
    (proj1 random_new_sorted) (proj2 random_new_sorted) (proj1 busy_ok) (proj2 busy_ok) sc c E _ _ _ _ _ 1 H1 eq_refl _).
  destruct H2 as (w & Hw%list_elem_of_In & Hs%bool_decide_eq_true). exists w. split; [exact Hw|exact Hs].
Defined.

Lemma nothing_after_end_stream_witness : exists sc c, random_run busy_run = Ret (sc, c) /\
  sc_started sc = take 14 (sc_started sc) ++ writeData 3 (repeat 0 10) true :: [] ++ flushFrameWriter :: drop 16 (sc_started sc) /\
  sends flushFrameWriter <> Some 3.
Proof.
  destruct (run_check (random_run busy_run) (fun sc => split_at sc 14 (writeData 3 (repeat 0 10) true) flushFrameWriter)) as (sc & c & E & H1);
    [vm_compute; reflexivity|]. apply bool_decide_eq_true in H1.
  exists sc, c. split; [exact E|]. split; [exact H1|].
  exact (nothing_after_end_stream defaultServer parse_path id false random_env new_body 1000 NewRandomWriteScheduler new_cx busy_run
    (proj1 random_new_sorted) (proj2 random_new_sorted) (proj1 busy_ok) (proj2 busy_ok) sc c E _ _ _ _ _ 3 I H1 eq_refl).
Defined.

(** With the default scheduler. *)
Abbreviation priority_run evs :=
  (serve defaultServer parse_path id false priority_env new_body 1000 (PrioritySched.NewPriorityWriteScheduler None) new_cx evs).

Lemma streams_bounded_witness : exists sc c, priority_run busy_run = Ret (sc, c) /\
  curClientStreams (sc_str sc) = Z.of_nat (size (odd_ids (live (sc_str sc)))) /\ live (sc_str sc) = {[5]} /\ handler_ids sc = [1; 3; 5].
Proof.
  destruct (run_check (priority_run busy_run) (fun sc => bool_decide (base.elements (live (sc_str sc)) = [5] /\ handler_ids sc = [1; 3; 5]))) as (sc & c & E & H1);
    [vm_compute; reflexivity|]. apply bool_decide_eq_true in H1 as [H1 H2].
  assert (serve_ok defaultServer parse_path id false priority_env new_body 1000 (PrioritySched.NewPriorityWriteScheduler None) new_cx busy_run = true)
    as Hok by (vm_compute; reflexivity).
  exists sc, c. split; [exact E|]. split; [|split; [|exact H2]].
  - exact (proj1 (proj2 (streams_bounded defaultServer parse_path id false priority_env new_body 1000 (PrioritySched.NewPriorityWriteScheduler None) new_cx busy_run
      (proj1 (ServerPriority.priority_new_sorted None)) (proj2 (ServerPriority.priority_new_sorted None)) Hok (proj2 busy_ok) sc c E))).
  - apply leibniz_equiv, set_equiv. intros x. rewrite <- elem_of_elements, H1, list_elem_of_singleton, elem_of_singleton. reflexivity.
Defined.

(** The handler of stream 5 has read three of the five bytes. *)
Definition reading_run : list event := busy_run ++ [HandlerReads 5 (repeat 0 3)].

Abbreviation recorded_run := (serve defaultServer parse_path id false random_env (fun n => mkRecorded (new_body n) [] []) 1000 NewRandomWriteScheduler new_cx reading_run).

Lemma new_body_empty n : pb_ok (new_body n) /\ pb_contents (new_body n) = [].
Proof.
  split; [|done]. split; cbn; [apply new_buf_ok|]. intros i m cs _ Hcs. destruct i as [|[|[|[|[|i]]]]]; cbn in Hcs; try discriminate Hcs; by injection Hcs as <-.
Qed.

Definition reading5 {A W U} (sc : serverConn (S := A) (W := W) (B := recorded body_buffer) (U := U)) : bool :=
  match store (sc_str sc) !! 5 with
  | Some st =>
      (st_declBodyBytes st =? 5) &&
      match st_body st with
      | Some p =>
          match p_b p with Some r => (zlen (rc_got r) =? 3) && match body_error st with Some errEOF => true | _ => false end | None => false end
      | None => false
      end
  | None => false
  end.


(** Stream 7 is idle, stream 1 closed, and stream 5 half closed. *)
Lemma frames_on_idle_and_closed_witness : exists sc c, random_run busy_run = Ret (sc, c) /\
  processResetStream defaultServer parse_path id false random_env 1000 (mkFH 3 0 4 7) 0 sc = Ret (sc, connectionError ErrCodeProtocol) /\
  processResetStream defaultServer parse_path id false random_env 1000 (mkFH 3 0 4 1) 0 sc = Ret (sc, None).
Proof.
  destruct (run_check (random_run busy_run) (fun sc => negb (inGoAway (sc_ws sc)) && (maxClientStreamID (sc_str sc) =? 5) &&
    match streams sc 7, streams sc 1 with None, None => true | _, _ => false end)) as (sc & c & E & H1); [vm_compute; reflexivity|].
  apply andb_true_iff in H1 as [[Hg%negb_true_iff Hm%Z.eqb_eq]%andb_true_iff H1].
  destruct (streams sc 7) eqn:E7; [discriminate H1|]. destruct (streams sc 1) eqn:E1; [discriminate H1|].
  exists sc, c. split; [exact E|]. split.
  - refine (proj2 (proj2 (proj1 (frames_on_idle_and_closed defaultServer parse_path id false random_env new_body 1000 sc 7 eq_refl Hg
      (mkFH 3 0 4 7) (mkMeta (mkFH 1 4 10 7) zeroPriority [] false) eq_refl eq_refl 0 0 [] E7) _))). rewrite Hm. reflexivity.
  - refine (proj1 (proj2 (proj2 (frames_on_idle_and_closed defaultServer parse_path id false random_env new_body 1000 sc 1 eq_refl Hg
      (mkFH 3 0 4 1) (mkMeta (mkFH 1 4 10 1) zeroPriority [] false) eq_refl eq_refl 0 0 [] E1) _))). rewrite Hm. discriminate.
Defined.

Lemma frames_on_half_closed_witness : exists sc c st, random_run busy_run = Ret (sc, c) /\ streams sc 5 = Some st /\
  processHeaders defaultServer parse_path id false new_body (mkMeta (mkFH 1 4 10 5) zeroPriority [] false) sc = Ret (sc, strError 5 ErrCodeStreamClosed).
Proof.
  destruct (run_check (random_run busy_run) (fun sc => negb (inGoAway (sc_ws sc)) &&
    match streams sc 5 with Some st => bool_decide (st_state st = stateHalfClosedRemote) && negb (st_resetQueued st) | _ => false end))
    as (sc & c & E & H1); [vm_compute; reflexivity|].
  apply andb_true_iff in H1 as [Hg%negb_true_iff H1]. destruct (streams sc 5) as [st|] eqn:E5; [|discriminate H1].
  apply andb_true_iff in H1 as [Hs%bool_decide_eq_true Hr%negb_true_iff].
  exists sc, c, st. split; [exact E|]. split; [exact E5|].
  exact (proj1 (frames_on_half_closed defaultServer parse_path id false random_env new_body 1000 sc 5 eq_refl Hg
    (mkFH 1 4 10 5) (mkMeta (mkFH 1 4 10 5) zeroPriority [] false) eq_refl eq_refl st [] E5) Hs Hr).
Defined.
