(* ===== verification/ServerReply.v ===== *)
(** * Package http2: what a response puts on its stream

    The theory of [responseWriter]: the requests that a handler makes of the serve loop are
    those that the loop relies on, the frames of a response follow the grammar of RFC 7540
    8.1, and their data is what the handler wrote. *)

From S2P Require Import Prelude HpackTable DataBuffer Pipe Frame HttpGuts FrameMeta WriteFrames HeaderWrite WriteSched ServerRequest ServerConn ServerFrames Bufio.
From S2P Require Import ServerResponse ServerSched ServerInv ServerKeep ServerFrameKeep ServerRun ServerCrash ServerSafe.

(** ** What the steps of a response change

    All that the header and the trailers leave alone. *)
Definition core (r : responseWriterState) :=
  (rws_stream r, rws_method r, rws_status r, rws_wroteHeader r, rws_sentHeader r, rws_handlerDone r, rws_sent r, rws_calls r).

Definition with_core (r : responseWriterState) (x : Z * bytes * Z * bool * bool * bool * list FrameWriteRequest * nat) : Prop := core r = x.

Lemma core_inv r r' : core r = core r' ->
  rws_stream r = rws_stream r' /\ rws_method r = rws_method r' /\ rws_status r = rws_status r' /\ rws_wroteHeader r = rws_wroteHeader r' /\
  rws_sentHeader r = rws_sentHeader r' /\ rws_handlerDone r = rws_handlerDone r' /\ rws_sent r = rws_sent r' /\ rws_calls r = rws_calls r'.
Proof. unfold core. intros [=]. tauto. Qed.

Lemma declareTrailer_core k r : core (declareTrailer k r) = core r.
Proof. unfold declareTrailer. destruct (negb _); [done|]. by case_bool_decide. Qed.

Lemma declareAll_core (vs : list bytes) r :
  core (fold_left (fun r v => fold_left (fun r k => declareTrailer k r) (foreachHeaderElement v) r) vs r) = core r.
Proof.
  revert r. induction vs as [|v vs IH]; intros r; [done|]. simpl. rewrite IH. generalize (foreachHeaderElement v). intros l. revert r.
  induction l as [|k l IHl]; intros r; [done|]. simpl. by rewrite IHl, declareTrailer_core.
Qed.

Lemma promoteLoop_core ks r : core (promoteLoop ks r) = core r.
Proof.
  revert r. induction ks as [|k ks IH]; intros r; [done|]. simpl. rewrite IH. destruct (default ∅ (rws_handlerHeader r) !! k); [|done].
  destruct (negb _); [done|]. apply declareTrailer_core.
Qed.

Lemma promote_core keys r : core (promoteUndeclaredTrailers keys r) = core r.
Proof.
  unfold promoteUndeclaredTrailers. cbv zeta. set (r1 := match rws_handlerHeader r with Some h => _ | None => r end).
  assert (core r1 = core r) as E by (unfold r1; destruct (rws_handlerHeader r); [apply promoteLoop_core|done]). by destruct (1 <? _).
Qed.

Section keeps.
Context (deliver reply : nat -> option serve_error) (chan : nat -> nat).
Context (now : bytes) (DetectContentType : bytes -> bytes) (keys : header -> list bytes).
Abbreviation writeChunk := (writeChunk deliver reply chan now DetectContentType keys).
Abbreviation calls := (calls deliver reply chan now DetectContentType keys).
Abbreviation call := (call deliver reply chan now DetectContentType keys).
Abbreviation rw_accept := (rw_accept deliver reply chan now DetectContentType keys).
Abbreviation rw_write := (rw_write deliver reply chan now DetectContentType keys).
Abbreviation rw_Flush := (rw_Flush deliver reply chan now DetectContentType keys).

(** ** What every call keeps

    [I r e]: of the state and the sticky error of the buffer, for handlers that only make
    headers that are [allowed]. *)
Section calls.
Context (I : responseWriterState -> option serve_error -> Prop) (allowed : header -> Prop).
Context (keeps_header : forall h r e, allowed h -> I r e -> I (set_handlerHeader (Some h) r) e).
Context (keeps_bytes : forall n r e, I r e -> I (set_wroteBytes n r) e).
Context (keeps_writeHeader : forall code r r' e, I r e -> writeHeader deliver reply chan code r = Some r' -> I r' e).
Context (keeps_chunk : forall r p e e', I r e -> I (writeChunk r p).1 e').
Abbreviation I_ w := (I (rw_rws w) (bf_err (rw_bw w))).

Definition call_allowed (c : handler_call) : Prop := match c with SetHeader h => allowed h | _ => True end.

Lemma WriteHeader_keeps code w w' : I_ w -> rw_WriteHeader deliver reply chan code w = Some w' -> I_ w'.
Proof.
  intros H. unfold rw_WriteHeader. destruct (writeHeader _ _ _ code (rw_rws w)) as [r1|] eqn:E; [|done]. intros [= <-].
  by apply (keeps_writeHeader code (rw_rws w)).
Qed.

Lemma accept_keeps st p w w' x : I_ w -> rw_accept st p w = Some (w', x) -> I_ w'.
Proof.
  intros H. unfold ServerResponse.rw_accept. destruct (negb (bodyAllowedForStatus _)); [by intros [= <- _]|].
  cbv zeta. set (r1 := set_wroteBytes _ _). assert (I r1 (bf_err (rw_bw w))) as Hr1 by by apply keeps_bytes. destruct (_ && _); [by intros [= <- _]|].
  destruct st.
  - destruct (bufio_WriteString _ _ _ _ r1 _ p) as [[[r2 b2] [n err]]|] eqn:E; [|done]. intros [= <- _].
    by apply (bufio_WriteString_keeps writeChunk ErrShortWrite handlerChunkWriteSize I keeps_chunk _ _ _ _ _ _ _ Hr1 E).
  - destruct (bufio_Write _ _ _ _ r1 _ p) as [[[r2 b2] [n err]]|] eqn:E; [|done]. intros [= <- _].
    by apply (bufio_Write_keeps writeChunk ErrShortWrite handlerChunkWriteSize I keeps_chunk _ _ _ _ _ _ _ Hr1 E).
Qed.

Lemma write_keeps st p w w' x : I_ w -> rw_write st p w = Some (w', x) -> I_ w'.
Proof.
  intros H. unfold ServerResponse.rw_write. cbv zeta. destruct (negb (rws_wroteHeader _)); [|by apply accept_keeps].
  destruct (rw_WriteHeader _ _ _ 200 w) as [w1|] eqn:E; [|done]. by apply accept_keeps, (WriteHeader_keeps 200 w).
Qed.

Lemma Flush_keeps w : I_ w -> I_ (rw_Flush w).
Proof.
  intros H. unfold ServerResponse.rw_Flush. destruct (0 <? _); [|by apply (keeps_chunk _ _ (bf_err (rw_bw w)))].
  pose proof (bufio_Flush_keeps writeChunk ErrShortWrite I keeps_chunk _ (rw_bw w) H) as HF.
  by destruct (bufio_Flush writeChunk _ _ _) as [[r b] err].
Qed.

Lemma call_keeps c w w' r : call_allowed c -> I_ w -> call c w = Some (w', r) -> I_ w'.
Proof.
  intros Ha H. destruct c; simpl.
  - intros [= <- _]. by apply keeps_header.
  - destruct (rw_WriteHeader _ _ _ code w) as [w1|] eqn:E; [|done]. intros [= <- _]. by apply (WriteHeader_keeps code w).
  - destruct (rw_write false p w) as [[w1 [n err]]|] eqn:E; [|done]. intros [= <- _]. by apply (write_keeps false p w w1 (n, err)).
  - destruct (rw_write true s w) as [[w1 [n err]]|] eqn:E; [|done]. intros [= <- _]. by apply (write_keeps true s w w1 (n, err)).
  - intros [= <- _]. by apply Flush_keeps.
  - done.
Qed.

Lemma calls_keeps cs w : Forall call_allowed cs -> I_ w -> I_ (calls cs w).1.1.
Proof.
  intros Ha. revert w. induction Ha as [|c cs Hc Ha IH]; intros w H; [done|]. simpl. destruct (call c w) as [[w1 r]|] eqn:E; [|done].
  pose proof (IH w1 (call_keeps c w w1 r Hc H E)) as H1. by destruct (calls cs w1) as [[w2 rs] pan].
Qed.
End calls.

(** ** The header *)
Lemma sendHeader_spec p r :
  exists r0 w h, core r0 = core (set_sentHeader r) /\
    rh_streamID w = rws_stream r /\ rh_httpResCode w = rws_status r /\ rh_trailers w = None /\
    rh_endStream w = ((rws_handlerDone r && negb (hasTrailers r0) && (zlen p =? 0)) || isHeadResp r) /\
    (rh_contentLength w = [] \/ Header_Get (default ∅ (rws_snapHeader r)) (str "Content-Length") <> [] \/
     rws_handlerDone r = true /\ rh_contentLength w = FormatUint (zlen p)) /\
    sendHeader deliver reply chan now DetectContentType p r =
      match sc_writeHeaders deliver reply chan w h r0 with
      | (r, Some e) => (set_dirty r, inl e)
      | (r, None) => (r, inr (rh_endStream w))
      end.
Proof.
  unfold sendHeader. cbv zeta. set (clen := Header_Get (default ∅ (rws_snapHeader (set_sentHeader r))) _).
  set (x := if negb (bool_decide (clen = [])) then _ else _).
  assert (core x.1 = core (set_sentHeader r) /\ (x.2 = [] \/ clen <> [])) as [Hx Hc].
  { unfold x. case_bool_decide; cbn [negb]; [by auto|]. destruct (ParseUint63 clen); split; auto. }
  destruct x as [r1 cl]. cbn [fst snd] in Hx, Hc.
  match goal with |- context [sc_writeHeaders _ _ _ (mkRes ?a ?b ?c ?d ?e ?f ?g ?i) ?h ?r0] =>
    exists r0, (mkRes a b c d e f g i), h; set (r2 := r0) end.
  assert (core r2 = core (set_sentHeader r)) as E2.
  { unfold r2. match goal with |- core (if ?b then _ else ?r3) = _ => assert (core r3 = core (set_sentHeader r)) as E3 by (rewrite declareAll_core; exact Hx) end.
    destruct (bool_decide (is_Some _)); [|exact E3]. cbv zeta. destruct (bool_decide (_ = str "close")); exact E3. }
  pose proof (core_inv _ _ E2) as (H1 & H2 & H3 & H4 & H5 & H6 & H7 & H8).
  pose proof (core_inv _ _ Hx) as (G1 & G2 & G3 & G4 & G5 & G6 & G7 & G8). cbn in *.
  split; [done|]. split; [done|]. split; [done|]. split; [done|]. split; [unfold isHeadResp; by rewrite H2, H6|].
  split; [|done]. destruct (_ && _) eqn:Eb.
  - right. right. split; [|done]. rewrite G6 in Eb. destruct (rws_handlerDone r); [done|]. by rewrite andb_false_r in Eb.
  - destruct Hc; [by left|]. by right; left.
Qed.

(** ** The requests of a handler are those that the serve loop relies on *)
Definition request_of (id : Z) (wr : FrameWriteRequest) : bool := shape_ok wr && bool_decide (key wr = Some id).

Definition asked (id : Z) (r : responseWriterState) : Prop := rws_stream r = id /\ Forall (fun wr => request_of id wr = true) (rws_sent r).

Lemma asked_core id r r' : core r' = core r -> asked id r -> asked id r'.
Proof. intros (H1 & _ & _ & _ & _ & _ & H7 & _)%core_inv [H H']. unfold asked. by rewrite H1, H7. Qed.

Lemma writeFrame_asked id w e r : stream_frame w = true -> frame_id w = Some id -> asked id r ->
  asked id (writeFrameFromHandler deliver (mkFWR (Some w) (Some (stream_ptr id)) e) r).1.
Proof.
  intros Hw Hid [H H']. unfold writeFrameFromHandler. destruct (deliver _); [done|]. split; [done|]. cbn. apply Forall_app. split; [done|].
  constructor; [|done]. unfold request_of, shape_ok, key. cbn. rewrite Hw, Hid. by rewrite !bool_decide_eq_true_2.
Qed.

Lemma writeHeaders_asked id w h r : rh_streamID w = id -> asked id r -> asked id (sc_writeHeaders deliver reply chan w h r).1.
Proof.
  intros Hid Ha. unfold sc_writeHeaders. cbv zeta. rewrite (proj1 Ha).
  assert (frame_id (writeResHeaders w) = Some id) as Hf by (cbn; by rewrite Hid).
  pose proof (writeFrame_asked id (writeResHeaders w) (match h with Some _ => Some (chan (rws_calls r)) | None => None end) r eq_refl Hf Ha) as H.
  destruct (writeFrameFromHandler _ _ r) as [r1 [e|]]; exact H.
Qed.

Lemma writeData_asked id p es r : asked id r -> asked id (writeDataFromHandler deliver reply chan p es r).1.
Proof.
  intros Ha. unfold writeDataFromHandler. cbv zeta. rewrite (proj1 Ha).
  pose proof (writeFrame_asked id (writeData id p es) (Some (chan (rws_calls r))) r eq_refl eq_refl Ha) as H.
  destruct (writeFrameFromHandler _ _ r) as [r1 [e|]]; exact H.
Qed.

Lemma writeHeader_asked id code r r' : asked id r -> writeHeader deliver reply chan code r = Some r' -> asked id r'.
Proof.
  intros Ha. unfold writeHeader. destruct (rws_wroteHeader r); [by intros [= <-]|]. destruct (_ || _); [done|].
  destruct (_ && _).
  - cbv zeta. match goal with |- context [sc_writeHeaders _ _ _ ?w ?h r] => pose proof (writeHeaders_asked id w h r (proj1 Ha) Ha) as H end.
    destruct (sc_writeHeaders _ _ _ _ _ r) as [r1 [e|]]; intros [= <-]; exact H.
  - intros [= <-]. destruct (rws_handlerHeader _); [|exact Ha]. case_bool_decide; exact Ha.
Qed.

Lemma sendHeader_asked id p r : asked id r -> asked id (sendHeader deliver reply chan now DetectContentType p r).1.
Proof.
  intros Ha. destruct (sendHeader_spec p r) as (r0 & w & h & Hc & Hid & _ & _ & _ & _ & ->).
  assert (asked id r0) as H0 by (apply (asked_core id _ _ Hc); exact Ha).
  pose proof (writeHeaders_asked id w h r0 (eq_trans Hid (proj1 Ha)) H0) as H.
  destruct (sc_writeHeaders _ _ _ w h r0) as [r1 [e|]]; exact H.
Qed.

Lemma writeBody_asked id p r : asked id r -> asked id (writeBody deliver reply chan p r).1.
Proof.
  intros Ha. unfold writeBody. destruct (isHeadResp r); [done|]. destruct (_ && _); [done|]. cbv zeta.
  set (x := if (_ || _ : bool) then _ else _).
  assert (asked id x.1) as Hx by (unfold x; destruct (_ || _); [by apply writeData_asked|done]).
  destruct x as [r1 [e|]]; [exact Hx|]. cbn [fst] in Hx. destruct (_ && _); [|exact Hx].
  match goal with |- context [sc_writeHeaders _ _ _ ?w ?h r1] => pose proof (writeHeaders_asked id w h r1 (proj1 Hx) Hx) as H end.
  destruct (sc_writeHeaders _ _ _ _ _ r1) as [r2 [e|]]; exact H.
Qed.

Lemma writeChunk_asked id r p : asked id r -> asked id (writeChunk r p).1.
Proof.
  intros Ha. unfold ServerResponse.writeChunk. cbv zeta.
  assert (asked id (default r (writeHeader deliver reply chan 200 r))) as H1.
  { destruct (writeHeader _ _ _ 200 r) as [r1|] eqn:E; [by apply (writeHeader_asked id 200 r)|done]. }
  set (r1 := default r _) in *. set (r2 := if rws_handlerDone r1 then _ else r1).
  assert (asked id r2) as H2 by (unfold r2; destruct (rws_handlerDone r1); [by apply (asked_core id r1 _ (promote_core _ r1))|done]).
  destruct (rws_sentHeader r2); [by apply writeBody_asked|].
  pose proof (sendHeader_asked id p r2 H2) as H3. destruct (sendHeader _ _ _ _ _ _ r2) as [r3 [e|[]]]; [done|done|by apply writeBody_asked].
Qed.

Lemma calls_asked id cs w : asked id (rw_rws w) -> asked id (rw_rws (calls cs w).1.1).
Proof.
  apply (calls_keeps (fun r _ => asked id r) (fun _ => True)); [done|done| | |].
  - intros code r r' _. apply writeHeader_asked.
  - intros r p _ _. apply writeChunk_asked.
  - apply Forall_forall. intros c _. by destruct c.
Qed.

(** ** A handler panics only by itself

    Once the header is sent, [writeChunk] keeps the contract of [io.Writer]; before, it may
    answer HEAD with no byte taken and no error. *)
Abbreviation sends_header r := (rws_sentHeader r = true).

Lemma writeHeaders_sentHeader w h r : rws_sentHeader (sc_writeHeaders deliver reply chan w h r).1 = rws_sentHeader r.
Proof. unfold sc_writeHeaders, writeFrameFromHandler. cbv zeta. by destruct (deliver _). Qed.

Lemma writeData_sentHeader p es r : rws_sentHeader (writeDataFromHandler deliver reply chan p es r).1 = rws_sentHeader r.
Proof. unfold writeDataFromHandler, writeFrameFromHandler. cbv zeta. by destruct (deliver _). Qed.

Lemma writeHeader_sentHeader code r r' : writeHeader deliver reply chan code r = Some r' -> rws_sentHeader r' = rws_sentHeader r.
Proof.
  unfold writeHeader. destruct (rws_wroteHeader r); [by intros [= <-]|]. destruct (_ || _); [done|]. destruct (_ && _).
  - cbv zeta. match goal with |- context [sc_writeHeaders _ _ _ ?w ?h r] => pose proof (writeHeaders_sentHeader w h r) as H end.
    destruct (sc_writeHeaders _ _ _ _ _ r) as [r1 [e|]]; by intros [= <-].
  - intros [= <-]. destruct (rws_handlerHeader _); [|done]. by case_bool_decide.
Qed.

Lemma writeBody_law p r : let '(r', (n, err)) := writeBody deliver reply chan p r in
  rws_sentHeader r' = rws_sentHeader r /\ (err = None -> n = zlen p).
Proof.
  unfold writeBody. destruct (isHeadResp r); [done|]. destruct ((zlen p =? 0) && _) eqn:E0; [split; [done|intros _; lia]|]. cbv zeta.
  set (x := if (_ || _ : bool) then _ else _).
  assert (rws_sentHeader x.1 = rws_sentHeader r) as Hx by (unfold x; destruct (_ || _); [apply writeData_sentHeader|done]).
  destruct x as [r1 [e|]]; [done|]. cbn [fst] in Hx. destruct (rws_handlerDone r1 && _); [|done].
  match goal with |- context [sc_writeHeaders _ _ _ ?w ?h r1] => pose proof (writeHeaders_sentHeader w h r1) as H end.
  destruct (sc_writeHeaders _ _ _ _ _ r1) as [r2 err]. cbn [fst] in H. destruct err; (split; [exact (eq_trans H Hx)|done]).
Qed.

Lemma writeChunk_law r p : let '(r', (n, err)) := writeChunk r p in
  sends_header r' /\ (sends_header r -> err = None -> n = zlen p).
Proof.
  unfold ServerResponse.writeChunk. cbv zeta. set (r1 := default r _). set (r2 := if rws_handlerDone r1 then _ else r1).
  assert (rws_sentHeader r2 = rws_sentHeader r) as E2.
  { transitivity (rws_sentHeader r1).
    - unfold r2. destruct (rws_handlerDone r1); [|done]. apply (core_inv _ _ (promote_core keys r1)).
    - unfold r1. destruct (writeHeader _ _ _ 200 r) as [r'|] eqn:E; [by apply (writeHeader_sentHeader 200)|done]. }
  destruct (rws_sentHeader r2) eqn:Es.
  - pose proof (writeBody_law p r2) as H. destruct (writeBody _ _ _ p r2) as [r3 [n err]]. destruct H as [H1 H2]. by rewrite H1.
  - destruct (sendHeader_spec p r2) as (r0 & w & h & Hc & _ & _ & _ & _ & _ & ->).
    pose proof (writeHeaders_sentHeader w h r0) as H. destruct (core_inv _ _ Hc) as (_ & _ & _ & _ & C5 & _). rewrite C5 in H. cbn in H.
    destruct (sc_writeHeaders _ _ _ w h r0) as [r3 [e|]]; [by rewrite <- E2|]. cbn [fst] in H.
    destruct (rh_endStream w); [by rewrite <- E2|].
    pose proof (writeBody_law p r3) as H3. destruct (writeBody _ _ _ p r3) as [r4 [n err]]. destruct H3 as [H1 H2]. by rewrite H1, <- E2.
Qed.

Lemma chunk_starts r p : sends_header (writeChunk r p).1.
Proof. pose proof (writeChunk_law r p) as H. destruct (writeChunk r p) as [? [? ?]]. exact (proj1 H). Qed.

Lemma chunk_late r p : sends_header r -> let '(_, (n, err)) := writeChunk r p in err = None -> n = zlen p.
Proof. intros HJ. pose proof (writeChunk_law r p) as H. destruct (writeChunk r p) as [? [? ?]]. exact (proj2 H HJ). Qed.

Definition invalid_code (c : handler_call) : bool :=
  match c with CallWriteHeader code => (code <? 100) || (code >? 999) | HandlerPanics => true | _ => false end.

Lemma accept_total st p w : zlen (bf_buf (rw_bw w)) <= handlerChunkWriteSize ->
  exists w' x, rw_accept st p w = Some (w', x) /\ zlen (bf_buf (rw_bw w')) <= handlerChunkWriteSize.
Proof.
  intros Hb. unfold ServerResponse.rw_accept. destruct (negb (bodyAllowedForStatus _)); [by eexists _, _|]. cbv zeta.
  destruct (_ && _); [by eexists _, _|]. destruct st.
  - destruct (bufio_WriteString_total writeChunk ErrShortWrite handlerChunkWriteSize
      (set_wroteBytes (swrap 64 (rws_wroteBytes (rw_rws w) + zlen p)) (rw_rws w)) (rw_bw w) p ltac:(done)) as [[[r b] [n err]] E].
    rewrite E. eexists _, _. split; [done|]. exact (bufio_WriteString_fits _ _ _ _ _ _ _ _ _ _ Hb E).
  - destruct (late_Write_total writeChunk ErrShortWrite handlerChunkWriteSize (fun r => sends_header r) chunk_starts chunk_late
      (set_wroteBytes (swrap 64 (rws_wroteBytes (rw_rws w) + zlen p)) (rw_rws w)) (rw_bw w) p Hb) as [[[r b] [n err]] E].
    rewrite E. eexists _, _. split; [done|]. exact (bufio_Write_fits _ _ _ _ _ _ _ _ _ _ Hb E).
Qed.

Lemma call_total c w : zlen (bf_buf (rw_bw w)) <= handlerChunkWriteSize -> invalid_code c = false ->
  exists w' x, call c w = Some (w', x) /\ zlen (bf_buf (rw_bw w')) <= handlerChunkWriteSize.
Proof.
  intros Hb Hc.
  assert (forall code, (code <? 100) || (code >? 999) = false -> exists w', rw_WriteHeader deliver reply chan code w = Some w' /\ rw_bw w' = rw_bw w) as Hwh.
  { intros code E. unfold rw_WriteHeader, writeHeader. destruct (rws_wroteHeader _); [by eexists|]. rewrite E. destruct (_ && _); [|by eexists].
    cbv zeta. destruct (sc_writeHeaders _ _ _ _ _ _) as [r1 e]. by eexists. }
  assert (forall st p, exists w' x, rw_write st p w = Some (w', x) /\ zlen (bf_buf (rw_bw w')) <= handlerChunkWriteSize) as Hw.
  { intros st p. unfold ServerResponse.rw_write. cbv zeta. destruct (negb _); [|by apply accept_total].
    destruct (Hwh 200 eq_refl) as (w1 & -> & E1). simpl. apply accept_total. by rewrite E1. }
  destruct c; simpl.
  - by eexists _, _.
  - destruct (Hwh code Hc) as (w1 & -> & E1). eexists _, _. split; [done|]. by rewrite E1.
  - destruct (Hw false p) as (w' & [n err] & -> & H). by eexists _, _.
  - destruct (Hw true s) as (w' & [n err] & -> & H). by eexists _, _.
  - eexists _, _. split; [done|]. unfold ServerResponse.rw_Flush. destruct (0 <? _); [|done].
    pose proof (bufio_Flush_fits writeChunk ErrShortWrite (rw_rws w) (rw_bw w)) as H.
    destruct (bufio_Flush writeChunk _ _ _) as [[r b] err]. cbn in *. lia.
  - done.
Qed.

Lemma calls_total cs : forall w w' rs, zlen (bf_buf (rw_bw w)) <= handlerChunkWriteSize -> calls cs w = (w', rs, true) ->
  exists c, c ∈ cs /\ invalid_code c = true.
Proof.
  induction cs as [|c cs IH]; intros w w' rs Hb; simpl; [done|]. destruct (invalid_code c) eqn:Ei.
  { intros _. exists c. split; [by left|done]. }
  destruct (call_total c w Hb Ei) as (w1 & x & -> & Hb1). destruct (calls cs w1) as [[w2 rs2] pan] eqn:E. intros [= _ _ ->].
  destruct (IH w1 w2 rs2 Hb1 E) as (c' & Hin & Hc'). exists c'. split; [by right|done].
Qed.
End keeps.

(** ** The frames of a response: RFC 7540, section 8.1

    Interim headers, final headers, the body, and trailers: END_STREAM is on the last frame
    and on no other. *)
Inductive phase := Interim | Body | Ended.

#[export] Instance phase_eq_dec : EqDecision phase.
Proof. solve_decision. Defined.

Definition next (id : Z) (ph : phase) (w : writeFramer) : option phase :=
  match ph, w with
  | Interim, write100ContinueHeadersFrame i => if i =? id then Some Interim else None
  | Interim, writeResHeaders h =>
      if negb (rh_streamID h =? id) || bool_decide (is_Some (rh_trailers h)) then None
      else if (100 <=? rh_httpResCode h) && (rh_httpResCode h <=? 199) then if rh_endStream h then None else Some Interim
      else if (200 <=? rh_httpResCode h) && (rh_httpResCode h <=? 999) then Some (if rh_endStream h then Ended else Body)
      else None
  | Body, writeData i _ endStream => if i =? id then Some (if endStream then Ended else Body) else None
  | Body, writeResHeaders h =>
      if (rh_streamID h =? id) && bool_decide (is_Some (rh_trailers h)) && rh_endStream h then Some Ended else None
  | _, _ => None
  end.

Fixpoint response (id : Z) (ph : phase) (ws : list writeFramer) : option phase :=
  match ws with
  | [] => Some ph
  | w :: ws => match next id ph w with Some ph => response id ph ws | None => None end
  end.

Lemma response_snoc id ph ph' ws w : response id ph ws = Some ph' -> response id ph (ws ++ [w]) = next id ph' w.
Proof.
  revert ph. induction ws as [|v ws IH]; intros ph; simpl.
  - intros [= ->]. by destruct (next id ph' w).
  - destruct (next id ph v) as [ph1|]; [apply IH|done].
Qed.

(** The frames that were requested, the data that they carry, and the lengths that the
    writer declared. *)
Definition frames (wrs : list FrameWriteRequest) : list writeFramer := omap wr_write wrs.

Definition data_of (w : writeFramer) : bytes := match w with writeData _ p _ => p | _ => [] end.

Definition body_of (ws : list writeFramer) : bytes := concat (map data_of ws).

Definition length_of (w : writeFramer) : list bytes :=
  match w with writeResHeaders h => if bool_decide (rh_contentLength h = []) then [] else [rh_contentLength h] | _ => [] end.

Definition lengths (ws : list writeFramer) : list bytes := concat (map length_of ws).

Lemma frames_snoc wrs w s e : frames (wrs ++ [mkFWR (Some w) s e]) = frames wrs ++ [w].
Proof. unfold frames. by rewrite omap_app. Qed.

Lemma body_snoc ws w : body_of (ws ++ [w]) = body_of ws ++ data_of w.
Proof. unfold body_of. rewrite map_app, concat_app. simpl. by rewrite app_nil_r. Qed.

Lemma lengths_snoc ws w : lengths (ws ++ [w]) = lengths ws ++ length_of w.
Proof. unfold lengths. rewrite map_app, concat_app. simpl. by rewrite app_nil_r. Qed.

(** What the handler was told it had written. *)
Fixpoint written (cs : list handler_call) (rs : list call_result) : bytes :=
  match cs, rs with
  | CallWrite p :: cs, Wrote n _ :: rs | CallWriteString p :: cs, Wrote n _ :: rs => take (Z.to_nat n) p ++ written cs rs
  | _ :: cs, _ :: rs => written cs rs
  | _, _ => []
  end.

(** ** A response that the serve loop takes *)
Section grammar.
Context (chan : nat -> nat) (now : bytes) (DetectContentType : bytes -> bytes) (keys : header -> list bytes) (id : Z) (m : bytes).
Abbreviation none := (fun _ : nat => @None serve_error).
Abbreviation writeChunk := (writeChunk none none chan now DetectContentType keys).
Abbreviation writeBody := (writeBody none none chan).
Abbreviation sendHeader := (sendHeader none none chan now DetectContentType).

Definition sent_frames (r : responseWriterState) : list writeFramer := frames (rws_sent r).

Definition same_but_sent (r' r : responseWriterState) : Prop :=
  rws_stream r' = rws_stream r /\ rws_method r' = rws_method r /\ rws_handlerHeader r' = rws_handlerHeader r /\
  rws_snapHeader r' = rws_snapHeader r /\ rws_trailers r' = rws_trailers r /\ rws_status r' = rws_status r /\
  rws_wroteHeader r' = rws_wroteHeader r /\ rws_sentHeader r' = rws_sentHeader r /\ rws_handlerDone r' = rws_handlerDone r.

Lemma writeHeaders_none w h r : exists r', sc_writeHeaders none none chan w h r = (r', None) /\
  sent_frames r' = sent_frames r ++ [writeResHeaders w] /\ same_but_sent r' r.
Proof. unfold sc_writeHeaders. simpl. destruct h; eexists; (split; [done|]); (split; [apply frames_snoc|by repeat split]). Qed.

Lemma writeData_none p es r : exists r', writeDataFromHandler none none chan p es r = (r', None) /\
  sent_frames r' = sent_frames r ++ [writeData (rws_stream r) p es] /\ same_but_sent r' r.
Proof. unfold writeDataFromHandler. simpl. eexists. split; [done|]. split; [apply frames_snoc|by repeat split]. Qed.

(** The state of a response, with whether its handler is done and the buffer's error. *)
Record responding (d : bool) (r : responseWriterState) (e : option serve_error) : Prop := {
  rp_stream : rws_stream r = id;
  rp_done : rws_handlerDone r = d;
  rp_status : rws_wroteHeader r = true -> 200 <= rws_status r <= 999;
  rp_wrote : rws_sentHeader r = true -> rws_wroteHeader r = true;
  rp_phase : response id Interim (sent_frames r) = Some (if rws_sentHeader r then if isHeadResp r then Ended else Body else Interim);
  rp_unsent : rws_sentHeader r = false -> e = None /\ body_of (sent_frames r) = [];
  rp_method : rws_method r = m
}.

(** No length but the writer's own. *)
Definition unsized (h : header) : Prop := Header_Get h (str "Content-Length") = [].

Record sizeless (r : responseWriterState) : Prop := {
  sz_header : rws_wroteHeader r = false -> unsized (default ∅ (rws_handlerHeader r));
  sz_snap : rws_sentHeader r = false -> unsized (default ∅ (rws_snapHeader r));
  sz_lengths : lengths (sent_frames r) = []
}.

Lemma responding_core d r r' e : core r' = core r -> responding d r e -> responding d r' e.
Proof.
  intros Hc [R1 R2 R3 R4 R5 R6 R7]. destruct (core_inv _ _ Hc) as (H1 & H2 & H3 & H4 & H5 & H6 & H7 & H8).
  constructor; unfold sent_frames, isHeadResp in *; by rewrite ?H1, ?H2, ?H3, ?H4, ?H5, ?H6, ?H7.
Qed.

Lemma writeHeader_responding d code r r' e : ((100 <=? code) && (code <=? 199) = true -> d = false) -> responding d r e ->
  writeHeader none none chan code r = Some r' -> responding d r' e /\ (sizeless r -> sizeless r').
Proof.
  intros Hd HR. unfold writeHeader. destruct (rws_wroteHeader r) eqn:Ew; [by intros [= <-]|].
  destruct (_ || _) eqn:Ec; [done|]. apply orb_false_iff in Ec as [Ec1 Ec2]. assert (rws_sentHeader r = false) as Es.
  { destruct (rws_sentHeader r) eqn:E; [|done]. apply (rp_wrote d r e HR) in E. congruence. }
  rewrite Z.geb_leb. destruct (_ && _) eqn:E1.
  - cbv zeta. match goal with |- context [sc_writeHeaders _ _ _ ?w ?h r] => destruct (writeHeaders_none w h r) as (r1 & -> & Hf & B1 & B2 & B3 & B4 & B5 & B6 & B7 & B8 & B9) end.
    intros [= <-]. specialize (Hd eq_refl). destruct HR as [R1 R2 R3 R4 R5 R6 R7]. rewrite R2, Hd in Hf. cbn [andb] in Hf. rewrite Es in R5. split.
    + constructor; rewrite ?B1, ?B2, ?B6, ?B7, ?B8, ?B9; try done.
      * rewrite Hf, (response_snoc _ _ _ _ _ R5), Es. cbn. rewrite R1, Z.eqb_refl, E1. done.
      * intros _. rewrite Hf, body_snoc, app_nil_r. by apply R6.
    + intros [S1 S2 S3]. constructor; rewrite ?B3, ?B4, ?B7, ?B8; try done. by rewrite Hf, lengths_snoc, app_nil_r.
  - intros E. injection E as <-. set (r1 := set_status code r) in *.
    assert (responding d r1 e) as H1.
    { destruct HR as [R1 R2 R3 R4 R5 R6 R7]. constructor; cbn; try done. intros _. lia. }
    destruct (rws_handlerHeader r) as [h|] eqn:Eh.
    + split; [case_bool_decide; [done|by apply (responding_core d r1)]|]. intros [S1 S2 S3]. specialize (S1 Ew). rewrite Eh in S1.
      case_bool_decide; by constructor.
    + split; [done|]. intros [S1 S2 S3]. by constructor.
Qed.

Lemma writeHeader_200 d r e : responding d r e -> exists r1, writeHeader none none chan 200 r = Some r1 /\ responding d r1 e /\
  (sizeless r -> sizeless r1) /\ rws_wroteHeader r1 = true /\ rws_method r1 = rws_method r /\ rws_sent r1 = rws_sent r.
Proof.
  intros HR. destruct (writeHeader none none chan 200 r) as [r1|] eqn:E.
  - destruct (writeHeader_responding d 200 r r1 e ltac:(done) HR E) as [H1 H2]. exists r1. split; [done|]. split; [done|]. split; [done|].
    revert E. unfold writeHeader. destruct (rws_wroteHeader r) eqn:Ew; [by intros [= <-]|]. simpl. intros [= <-].
    destruct (rws_handlerHeader r); [|done]. by case_bool_decide.
  - exfalso. revert E. unfold writeHeader. destruct (rws_wroteHeader r); [done|]. simpl. done.
Qed.

(** The data that a response sends, unless it answers HEAD. *)
Definition grows (r r' : responseWriterState) (p : bytes) : Prop :=
  isHeadResp r = false -> body_of (sent_frames r') = body_of (sent_frames r) ++ p.

Lemma response_head h ph : rh_streamID h = id -> rh_trailers h = None -> 200 <= rh_httpResCode h <= 999 ->
  response id Interim ph = Some Interim -> response id Interim (ph ++ [writeResHeaders h]) = Some (if rh_endStream h then Ended else Body).
Proof.
  intros H1 H2 H3 H. rewrite (response_snoc _ _ _ _ _ H). cbn. rewrite H1, H2, Z.eqb_refl. cbn.
  assert ((100 <=? rh_httpResCode h) && (rh_httpResCode h <=? 199) = false) as -> by lia.
  assert ((200 <=? rh_httpResCode h) && (rh_httpResCode h <=? 999) = true) as -> by lia. done.
Qed.

(** The body, with the header already sent. *)
Lemma writeBody_step d r p e e' : responding d r e -> rws_sentHeader r = true ->
  exists r' n, writeBody p r = (r', (n, None)) /\ (isHeadResp r = false -> n = zlen p) /\ grows r r' p /\
    lengths (sent_frames r') = lengths (sent_frames r) /\
    (if d then response id Interim (sent_frames r') = Some Ended
     else responding d r' e' /\ rws_sentHeader r' = true /\ (sizeless r -> sizeless r')).
Proof.
  intros HR Hs. pose proof HR as [R1 R2 R3 R4 R5 R6 R7]. rewrite Hs in R5. unfold ServerResponse.writeBody.
  destruct (isHeadResp r) eqn:EH.
  { exists r, (zlen p). split; [done|]. split; [done|]. split; [by intros ?; congruence|]. split; [done|]. destruct d; [done|].
    split; [|by auto]. constructor; try done. { by rewrite Hs, EH. } by intros ?; congruence. }
  rewrite R2. destruct ((zlen p =? 0) && negb d) eqn:E0.
  { apply andb_true_iff in E0 as [E0%Z.eqb_eq Ed]. assert (p = []) as -> by (destruct p; [done|unfold zlen in E0; simpl in E0; lia]).
    exists r, 0. split; [done|]. split; [done|]. split; [by intros _; rewrite app_nil_r|]. split; [done|]. destruct d; [done|].
    split; [|by auto]. constructor; try done. { by rewrite Hs, EH. } by intros ?; congruence. }
  cbv zeta. set (ne := hasNonemptyTrailers r). set (es := d && negb ne).
  assert (exists r1, (if (0 <? zlen p) || es then writeDataFromHandler none none chan p es r else (r, None)) = (r1, None) /\
    response id Interim (sent_frames r1) = Some (if es then Ended else Body) /\ body_of (sent_frames r1) = body_of (sent_frames r) ++ p /\
    lengths (sent_frames r1) = lengths (sent_frames r) /\ same_but_sent r1 r) as (r1 & -> & Hp & Hb & Hl & B).
  { destruct ((0 <? zlen p) || es) eqn:E1.
    - destruct (writeData_none p es r) as (r1 & -> & Hf & B). exists r1. split; [done|]. rewrite Hf.
      split; [rewrite (response_snoc _ _ _ _ _ R5); cbn; by rewrite R1, Z.eqb_refl|].
      split; [by rewrite body_snoc|]. split; [by rewrite lengths_snoc, app_nil_r|done].
    - apply orb_false_iff in E1 as [E1 ->]. assert (p = []) as -> by by destruct p.
      exists r. rewrite app_nil_r. by repeat split. }
  pose proof B as (B1 & B2 & B3 & B4 & B5 & B6 & B7 & B8 & B9). rewrite B9, R2.
  assert (d = false -> responding d r1 e' /\ rws_sentHeader r1 = true /\ (sizeless r -> sizeless r1)) as Hd.
  { intros ->. split; [|split; [by rewrite B8|]].
    - assert (isHeadResp r1 = false) as EH1 by (unfold isHeadResp in *; by rewrite B2).
      constructor; rewrite ?EH1, ?B1, ?B2, ?B6, ?B7, ?B8, ?B9, ?Hs; try done. intros _. by apply R4.
    - intros [S1 S2 S3]. constructor; rewrite ?B3, ?B4, ?B7, ?B8, ?Hl; done. }
  destruct (d && ne) eqn:Et.
  - apply andb_true_iff in Et as [-> Ene].
    match goal with |- context [sc_writeHeaders _ _ _ ?w ?h r1] => destruct (writeHeaders_none w h r1) as (r2 & -> & Hf & _) end.
    exists r2, (zlen p). split; [done|]. split; [done|]. split; [by intros _; rewrite Hf, body_snoc, app_nil_r|].
    split; [by rewrite Hf, lengths_snoc, app_nil_r|]. rewrite Hf. unfold es in Hp. rewrite Ene in Hp.
    rewrite (response_snoc _ _ _ _ _ Hp). cbn. rewrite B1, R1, Z.eqb_refl. cbn. done.
  - exists r1, (zlen p). split; [done|]. split; [done|]. split; [by intros _|]. split; [done|].
    destruct d; [|by apply Hd]. unfold es in Hp. cbn in Et. by rewrite Et in Hp.
Qed.

(** What the promotion of trailers leaves alone, once the header is taken. *)
Lemma promoteLoop_snap ks r : rws_snapHeader (promoteLoop ks r) = rws_snapHeader r.
Proof.
  revert r. induction ks as [|k ks IH]; intros r; [done|]. simpl. rewrite IH. destruct (default ∅ (rws_handlerHeader r) !! k); [|done].
  destruct (negb _); [done|]. unfold declareTrailer. destruct (negb _); [done|]. by case_bool_decide.
Qed.

Lemma promote_kept d r e : rws_wroteHeader r = true -> responding d r e ->
  responding d (promoteUndeclaredTrailers keys r) e /\ (sizeless r -> sizeless (promoteUndeclaredTrailers keys r)).
Proof.
  intros Hw HR. pose proof (promote_core keys r) as Hc. split; [by apply (responding_core d r)|]. intros [S1 S2 S3].
  destruct (core_inv _ _ Hc) as (H1 & H2 & H3 & H4 & H5 & H6 & H7 & H8).
  assert (rws_snapHeader (promoteUndeclaredTrailers keys r) = rws_snapHeader r) as Hsn.
  { unfold promoteUndeclaredTrailers. destruct (rws_handlerHeader r); destruct (1 <? _); simpl; by rewrite ?promoteLoop_snap. }
  constructor; unfold sent_frames; rewrite ?H4, ?H5, ?H7, ?Hsn, ?Hw; done.
Qed.

(** The header and then the body. *)
Lemma sendBody_step d r p e e' : responding d r e -> rws_wroteHeader r = true ->
  exists r' n, (if rws_sentHeader r then writeBody p r
     else match sendHeader p r with (r, inl e) => (r, (0, Some e)) | (r, inr true) => (r, (0, None)) | (r, inr false) => writeBody p r end) = (r', (n, None)) /\
    (isHeadResp r = false -> n = zlen p) /\ grows r r' p /\
    (if d then response id Interim (sent_frames r') = Some Ended /\
       (sizeless r -> isHeadResp r = false -> forall l, l ∈ lengths (sent_frames r') -> l = FormatUint (zlen (body_of (sent_frames r'))))
     else responding d r' e' /\ rws_sentHeader r' = true /\ (sizeless r -> sizeless r')).
Proof.
  intros HR Hw. destruct (rws_sentHeader r) eqn:Hs.
  { destruct (writeBody_step d r p e e' HR Hs) as (r' & n & -> & Hn & Hg & Hl & Hd). exists r', n. split; [done|]. split; [done|]. split; [done|].
    destruct d; [|done]. split; [done|]. intros [S1 S2 S3] _ l. rewrite Hl, S3. by intros ?%not_elem_of_nil. }
  pose proof HR as [R1 R2 R3 R4 R5 R6 R7]. rewrite Hs in R5. destruct (R6 Hs) as [-> Hb0].
  destruct (sendHeader_spec none none chan now DetectContentType p r) as (r0 & w & h & Hc & W1 & W2 & W3 & W4 & W5 & ->).
  destruct (writeHeaders_none w h r0) as (r1 & -> & Hf & B1 & B2 & B3 & B4 & B5 & B6 & B7 & B8 & B9).
  destruct (core_inv _ _ Hc) as (C1 & C2 & C3 & C4 & C5 & C6 & C7 & C8). cbn in C1, C2, C3, C4, C5, C6, C7, C8.
  assert (sent_frames r1 = sent_frames r ++ [writeResHeaders w]) as Hf1 by (rewrite Hf; unfold sent_frames; by rewrite C7).
  assert (response id Interim (sent_frames r1) = Some (if rh_endStream w then Ended else Body)) as Hp.
  { rewrite Hf1. apply response_head; [congruence|done|rewrite W2; by apply R3|done]. }
  assert (body_of (sent_frames r1) = []) as Hb1 by (by rewrite Hf1, body_snoc, app_nil_r).
  assert (isHeadResp r1 = isHeadResp r) as EH by (unfold isHeadResp; by rewrite B2, C2).
  assert (sizeless r -> lengths (sent_frames r1) = if bool_decide (rh_contentLength w = []) then [] else [rh_contentLength w]) as Hl1.
  { intros [S1 S2 S3]. by rewrite Hf1, lengths_snoc, S3. }
  assert (sizeless r -> forall l, l ∈ lengths (sent_frames r1) -> d = true /\ l = FormatUint (zlen p)) as Hl2.
  { intros HS l. rewrite (Hl1 HS). case_bool_decide; [by intros ?%not_elem_of_nil|]. intros ->%list_elem_of_singleton.
    destruct W5 as [?|[W5|[W5 ->]]]; [done| |by rewrite <- R2]. exfalso. apply W5. by apply (sz_snap r HS). }
  assert (forall e'', (rh_endStream w = if isHeadResp r then true else false) -> responding d r1 e'' /\ rws_sentHeader r1 = true) as Hr1.
  { intros e'' He. split; [|congruence]. constructor; rewrite ?EH; try congruence.
    - intros _. rewrite B6, C3. by apply R3.
    - rewrite Hp, B8, C5, He. by destruct (isHeadResp r). }
  assert (d = false -> sizeless r -> sizeless r1) as Hsz1.
  { intros -> HS. constructor; [congruence|congruence|]. destruct (lengths (sent_frames r1)) as [|l ls] eqn:El; [done|].
    exfalso. by destruct (Hl2 HS l ltac:(left)). }
  destruct (rh_endStream w) eqn:Ee; cbn [fst snd].
  - exists r1, 0. split; [done|]. symmetry in W4. apply orb_true_iff in W4.
    assert (isHeadResp r = false -> p = []) as Hp0.
    { intros E. destruct W4 as [W4|W4]; [|congruence]. apply andb_true_iff in W4 as [_ W4]. by destruct p. }
    split; [by intros E; rewrite (Hp0 E)|]. split; [intros E; by rewrite Hb1, Hb0, (Hp0 E)|]. destruct d.
    + split; [done|]. intros HS E l Hl. destruct (Hl2 HS l Hl) as [_ ->]. by rewrite Hb1, (Hp0 E).
    + assert (isHeadResp r = true) as EHr by (destruct W4 as [W4|W4]; [by rewrite R2 in W4|done]).
      rewrite EHr in Hr1. destruct (Hr1 e' eq_refl) as [? ?]. split; [done|]. split; [done|]. by apply Hsz1.
  - symmetry in W4. apply orb_false_iff in W4 as [_ W4]. rewrite W4 in Hr1. destruct (Hr1 None eq_refl) as [HR1 Hs1].
    destruct (writeBody_step d r1 p None e' HR1 Hs1) as (r' & n & -> & Hn & Hg & Hl & Hd). exists r', n. split; [done|].
    split; [by intros _; apply Hn; rewrite EH|]. unfold grows in *. rewrite EH, Hb1 in Hg. split; [by rewrite Hb0|]. destruct d.
    + split; [done|]. intros HS E l. rewrite Hl. intros Hin. destruct (Hl2 HS l Hin) as [_ ->]. by rewrite (Hg E).
    + destruct Hd as (? & ? & Hd). split; [done|]. split; [done|]. intros HS. by apply Hd, Hsz1.
Qed.

Lemma writeChunk_step d r p e e' : responding d r e ->
  exists r' n, writeChunk r p = (r', (n, None)) /\ (isHeadResp r = false -> n = zlen p) /\ grows r r' p /\
    (if d then response id Interim (sent_frames r') = Some Ended /\
       (sizeless r -> isHeadResp r = false -> forall l, l ∈ lengths (sent_frames r') -> l = FormatUint (zlen (body_of (sent_frames r'))))
     else responding d r' e' /\ rws_sentHeader r' = true /\ (sizeless r -> sizeless r')).
Proof.
  intros HR. destruct (writeHeader_200 d r e HR) as (r1 & E1 & HR1 & Hz1 & Hw1 & Hm1 & Hse1).
  unfold ServerResponse.writeChunk. rewrite E1. cbv zeta. change (default r (Some r1)) with r1. set (r2 := if rws_handlerDone r1 then _ else r1).
  assert (responding d r2 e /\ (sizeless r1 -> sizeless r2) /\ core r2 = core r1) as (HR2 & Hz2 & Hc).
  { unfold r2. destruct (rws_handlerDone r1); [|done]. pose proof (promote_kept d r1 e Hw1 HR1) as [H1 H2].
    split; [done|]. split; [done|]. apply promote_core. }
  destruct (core_inv _ _ Hc) as (_ & C2 & _ & C4 & _ & _ & C7 & _).
  destruct (sendBody_step d r2 p e e' HR2 ltac:(by rewrite C4)) as (r' & n & -> & Hn & Hg & Hd).
  assert (isHeadResp r2 = isHeadResp r) as EH by (unfold isHeadResp; by rewrite C2, Hm1).
  exists r', n. split; [done|]. rewrite EH in Hn. split; [done|].
  split. { unfold grows, sent_frames in *. rewrite EH, C7, Hse1 in Hg. done. }
  destruct d.
  - destruct Hd as [H1 H2]. split; [done|]. intros HS E. apply H2; [by auto|by rewrite EH].
  - destruct Hd as (H1 & H2 & H3). split; [done|]. split; [done|]. by auto.
Qed.

(** ** Every call

    [sized]: that no length is declared, in a theorem that assumes it. *)
Section run.
Context (fits : Prop).
Abbreviation calls := (calls none none chan now DetectContentType keys).
Abbreviation call := (call none none chan now DetectContentType keys).
Abbreviation accept := (rw_accept none none chan now DetectContentType keys).

Definition underway (r : responseWriterState) (e : option serve_error) : Prop := responding false r e /\ (fits -> sizeless r).

Definition fitting (c : handler_call) : Prop := call_allowed (fun h => fits -> unsized h) c.

Lemma underway_header h r e : (fits -> unsized h) -> underway r e -> underway (set_handlerHeader (Some h) r) e.
Proof.
  intros Hh [[R1 R2 R3 R4 R5 R6 R7] HS]. split; [by constructor|]. intros Hf. destruct (HS Hf) as [S1 S2 S3]. constructor; try done. intros _. by apply Hh.
Qed.

Lemma underway_core r r' e : core r' = core r -> rws_handlerHeader r' = rws_handlerHeader r -> rws_snapHeader r' = rws_snapHeader r ->
  underway r e -> underway r' e.
Proof.
  intros Hc E1 E2 [HR HS]. split; [by apply (responding_core false r)|]. intros Hf. destruct (HS Hf) as [S1 S2 S3].
  destruct (core_inv _ _ Hc) as (_ & _ & _ & C4 & C5 & _ & C7 & _). constructor; unfold sent_frames; by rewrite ?C4, ?C5, ?C7, ?E1, ?E2.
Qed.

Lemma underway_writeHeader code r r' e : underway r e -> writeHeader none none chan code r = Some r' -> underway r' e.
Proof. intros [HR HS] E. destruct (writeHeader_responding false code r r' e ltac:(done) HR E) as [H1 H2]. split; [done|auto]. Qed.

Lemma underway_chunk r p e e' : underway r e -> underway (writeChunk r p).1 e'.
Proof.
  intros [HR HS]. destruct (writeChunk_step false r p e e' HR) as (r' & n & -> & _ & _ & H1 & _ & H2). split; [done|auto].
Qed.

Lemma calls_underway cs w : Forall fitting cs -> underway (rw_rws w) (bf_err (rw_bw w)) ->
  underway (rw_rws (calls cs w).1.1) (bf_err (rw_bw (calls cs w).1.1)).
Proof.
  intros Hf. apply (calls_keeps none none chan now DetectContentType keys underway (fun h => fits -> unsized h)); [| | | |exact Hf].
  - intros h r e. apply underway_header.
  - intros n r e. by apply underway_core.
  - intros code r r' e. apply underway_writeHeader.
  - intros r p e e'. apply underway_chunk.
Qed.

(** What was given to a writer that answers another method than HEAD. *)
Definition at_body (acc : bytes) (r : responseWriterState) : Prop := underway r None /\ isHeadResp r = false /\ body_of (sent_frames r) = acc.
Abbreviation holds := (holds (Err := serve_error) handlerChunkWriteSize at_body).

Lemma at_body_chunk acc r p : at_body acc r -> exists r', writeChunk r p = (r', (zlen p, None)) /\ at_body (acc ++ p) r'.
Proof.
  intros ((HR & HS) & HH & Hb). destruct (writeChunk_step false r p None None HR) as (r' & n & -> & Hn & Hg & H1 & _ & H2).
  exists r'. rewrite (Hn HH). split; [done|]. split; [split; [done|auto]|]. split; [|by rewrite (Hg HH), Hb].
  unfold isHeadResp in *. by rewrite (rp_method _ _ _ H1), <- (rp_method _ _ _ HR).
Qed.

Lemma at_body_keep acc r r' : at_body acc r -> underway r' None -> rws_method r' = rws_method r -> body_of (sent_frames r') = body_of (sent_frames r) ->
  at_body acc r'.
Proof. intros (H1 & H2 & H3) HU Hm Hb. split; [done|]. unfold isHeadResp in *. by rewrite Hm, Hb. Qed.

Lemma holds_keep all r r' b : holds all r b -> (forall e, underway r e -> underway r' e) -> rws_method r' = rws_method r ->
  body_of (sent_frames r') = body_of (sent_frames r) -> holds all r' b.
Proof.
  intros (He & Hs & acc & Ha & <-) HU Hm Hb. split; [done|]. split; [done|]. exists acc. split; [|done].
  apply (at_body_keep acc r); [done| |done|done]. apply HU, Ha.
Qed.

Lemma writeHeader_body code r r' : writeHeader none none chan code r = Some r' ->
  rws_method r' = rws_method r /\ body_of (sent_frames r') = body_of (sent_frames r).
Proof.
  unfold writeHeader. destruct (rws_wroteHeader r); [by intros [= <-]|]. destruct (_ || _); [done|]. destruct (_ && _).
  - cbv zeta. match goal with |- context [sc_writeHeaders _ _ _ ?w ?h r] => destruct (writeHeaders_none w h r) as (r1 & -> & Hf & B1 & B2 & _) end.
    intros [= <-]. split; [done|]. by rewrite Hf, body_snoc, app_nil_r.
  - intros [= <-]. destruct (rws_handlerHeader _); [|done]. by case_bool_decide.
Qed.

Lemma WriteHeader_holds all code w w' : holds all (rw_rws w) (rw_bw w) -> rw_WriteHeader none none chan code w = Some w' ->
  holds all (rw_rws w') (rw_bw w').
Proof.
  unfold rw_WriteHeader. intros H. destruct (writeHeader none none chan code (rw_rws w)) as [r1|] eqn:E; [|done]. intros [= <-].
  destruct (writeHeader_body code _ _ E) as [Hm Hb]. apply (holds_keep all (rw_rws w)); [done| |done|done].
  intros e HU. by apply (underway_writeHeader code (rw_rws w)).
Qed.

(** A write is taken whole or not at all. *)
Lemma accept_holds all st p w : holds all (rw_rws w) (rw_bw w) -> exists w' n err, accept st p w = Some (w', (n, err)) /\
  holds (all ++ take (Z.to_nat n) p) (rw_rws w') (rw_bw w') /\ match err with None => n = zlen p | Some _ => n = 0 end.
Proof.
  intros H. unfold ServerResponse.rw_accept. destruct (negb (bodyAllowedForStatus _)).
  { exists w, 0, (Some ErrBodyNotAllowed). rewrite app_nil_r. done. }
  cbv zeta. set (r1 := set_wroteBytes _ _).
  assert (holds all r1 (rw_bw w)) as H1.
  { apply (holds_keep all (rw_rws w)); [done| |done|done]. intros e. by apply underway_core. }
  destruct (_ && _).
  { exists (mkRW r1 (rw_bw w)), 0, (Some errDeclaredLength). rewrite app_nil_r. done. }
  assert (take (Z.to_nat (zlen p)) p = p) as Hp by (apply take_ge; unfold zlen; lia).
  assert (exists r2 b, (if st then bufio_WriteString writeChunk ErrShortWrite handlerChunkWriteSize (Datatypes.S (length p)) r1 (rw_bw w) p
    else bufio_Write writeChunk ErrShortWrite handlerChunkWriteSize 3 r1 (rw_bw w) p) = Some (r2, b, (zlen p, None)) /\ holds (all ++ p) r2 b) as (r2 & b & -> & H2).
  { destruct st.
    - by apply (bufio_WriteString_holds writeChunk ErrShortWrite handlerChunkWriteSize at_body ltac:(done) at_body_chunk).
    - by apply (bufio_Write_holds writeChunk ErrShortWrite handlerChunkWriteSize at_body ltac:(done) at_body_chunk 1). }
  simpl. exists (mkRW r2 b), (zlen p), None. by rewrite Hp.
Qed.

Lemma write_holds all st p w w' n err : holds all (rw_rws w) (rw_bw w) ->
  rw_write none none chan now DetectContentType keys st p w = Some (w', (n, err)) ->
  holds (all ++ take (Z.to_nat n) p) (rw_rws w') (rw_bw w') /\ match err with None => n = zlen p | Some _ => n = 0 end.
Proof.
  intros H. unfold ServerResponse.rw_write. cbv zeta.
  assert (forall w1, holds all (rw_rws w1) (rw_bw w1) -> accept st p w1 = Some (w', (n, err)) ->
    holds (all ++ take (Z.to_nat n) p) (rw_rws w') (rw_bw w') /\ match err with None => n = zlen p | Some _ => n = 0 end) as Ha.
  { intros w1 H1 E. destruct (accept_holds all st p w1 H1) as (w2 & n2 & e2 & E2 & H2). rewrite E in E2. injection E2 as <- <- <-. done. }
  destruct (negb _); [|by apply Ha]. destruct (rw_WriteHeader none none chan 200 w) as [w1|] eqn:E; [|done].
  apply Ha. by apply (WriteHeader_holds all 200 w).
Qed.

Definition wrote (c : handler_call) (r : call_result) : bytes := written [c] [r].

Lemma call_holds all c w w' r : fitting c -> holds all (rw_rws w) (rw_bw w) -> call c w = Some (w', r) ->
  holds (all ++ wrote c r) (rw_rws w') (rw_bw w').
Proof.
  intros Hf H. destruct c; simpl.
  - intros [= <- <-]. rewrite app_nil_r. apply (holds_keep all (rw_rws w)); [done| |done|done]. intros e. by apply underway_header.
  - destruct (rw_WriteHeader none none chan code w) as [w1|] eqn:E; [|done]. intros [= <- <-]. rewrite app_nil_r. by apply (WriteHeader_holds all code w).
  - destruct (rw_write _ _ _ _ _ _ false p w) as [[w1 [n err]]|] eqn:E; [|done]. intros [= <- <-]. unfold wrote. simpl. rewrite app_nil_r.
    exact (proj1 (write_holds all false p w w1 n err H E)).
  - destruct (rw_write _ _ _ _ _ _ true s w) as [[w1 [n err]]|] eqn:E; [|done]. intros [= <- <-]. unfold wrote. simpl. rewrite app_nil_r.
    exact (proj1 (write_holds all true s w w1 n err H E)).
  - intros [= <- <-]. rewrite app_nil_r. unfold ServerResponse.rw_Flush. destruct (0 <? _).
    + destruct (bufio_Flush_holds writeChunk ErrShortWrite handlerChunkWriteSize at_body ltac:(done) at_body_chunk all (rw_rws w) (rw_bw w) H)
        as (r' & b' & -> & H' & _). done.
    + pose proof H as (He & Hs & acc & HA & <-). destruct (at_body_chunk acc (rw_rws w) [] HA) as (r' & -> & HA').
      rewrite app_nil_r in HA'. split; [done|]. split; [done|]. by exists acc.
  - done.
Qed.

Lemma calls_holds cs : forall all w w' rs, Forall fitting cs -> holds all (rw_rws w) (rw_bw w) -> calls cs w = (w', rs, false) ->
  holds (all ++ written cs rs) (rw_rws w') (rw_bw w').
Proof.
  induction cs as [|c cs IH]; intros all w w' rs Hf H; simpl.
  - intros [= <- <-]. by rewrite app_nil_r.
  - inversion Hf as [|? ? Hc Hcs]; subst. destruct (call c w) as [[w1 r]|] eqn:E; [|done].
    destruct (calls cs w1) as [[w2 rs2] pan] eqn:E2. intros [= <- <- ->].
    pose proof (IH _ w1 w2 rs2 Hcs (call_holds all c w w1 r Hc H E) E2) as H2.
    assert (written (c :: cs) (r :: rs2) = wrote c r ++ written cs rs2) as Ew.
    { unfold wrote. destruct c; destruct r; simpl; by rewrite ?app_nil_r. }
    rewrite <- app_assoc, <- Ew in H2. exact H2.
Qed.

(** The handler returns: the response ends. *)
Lemma done_responding r e : responding false r e -> responding true (set_handlerDone r) e.
Proof. intros [R1 R2 R3 R4 R5 R6 R7]. by constructor. Qed.

Abbreviation handlerDone := (rw_handlerDone none none chan now DetectContentType keys).

Lemma handlerDone_ends w : responding false (rw_rws w) (bf_err (rw_bw w)) -> (isHeadResp (rw_rws w) = false -> bf_err (rw_bw w) = None) ->
  response id Interim (sent_frames (rw_rws (handlerDone w))) = Some Ended.
Proof.
  intros HR%done_responding He. unfold rw_handlerDone, ServerResponse.rw_Flush. cbn [rw_rws rw_bw]. set (r := set_handlerDone _) in *.
  destruct (0 <? _) eqn:E0.
  - unfold bufio_Flush. destruct (bf_err (rw_bw w)) as [e|] eqn:Ee.
    + cbn [fst rw_rws]. rewrite (rp_phase _ _ _ HR). destruct (rws_sentHeader r) eqn:Es; [|by destruct (rp_unsent _ _ _ HR Es)].
      change (isHeadResp r) with (isHeadResp (rw_rws w)). destruct (isHeadResp (rw_rws w)); [done|by specialize (He eq_refl)].
    + destruct (zlen _ =? 0) eqn:E1; [lia|].
      destruct (writeChunk_step true r (bf_buf (rw_bw w)) None None HR) as (r' & n & -> & _ & _ & H & _).
      by destruct (if n <? _ then _ else _).
  - destruct (writeChunk_step true r [] _ None HR) as (r' & n & -> & _ & _ & H & _). exact H.
Qed.

Lemma handlerDone_body all w : holds all (rw_rws w) (rw_bw w) ->
  body_of (sent_frames (rw_rws (handlerDone w))) = all /\
  (fits -> forall l, l ∈ lengths (sent_frames (rw_rws (handlerDone w))) -> l = FormatUint (zlen all)).
Proof.
  intros (He & _ & acc & ((HR & HS) & HH & Hb) & <-). pose proof (done_responding _ _ HR) as HR1.
  unfold rw_handlerDone, ServerResponse.rw_Flush. cbn [rw_rws rw_bw]. set (r := set_handlerDone _) in *.
  assert (fits -> sizeless r) as HS1 by (intros Hf; destruct (HS Hf) as [S1 S2 S3]; by constructor).
  assert (forall p, body_of (sent_frames (writeChunk r p).1) = acc ++ p /\
    (fits -> forall l, l ∈ lengths (sent_frames (writeChunk r p).1) -> l = FormatUint (zlen (acc ++ p)))) as Hc.
  { intros p. destruct (writeChunk_step true r p None None HR1) as (r' & n & -> & _ & Hg & _ & Hl). cbn [fst].
    assert (body_of (sent_frames r') = acc ++ p) as Hp by (rewrite (Hg HH); by rewrite <- Hb). split; [done|].
    intros Hf l Hin. rewrite <- Hp. by apply Hl; [auto|..]. }
  destruct (0 <? _) eqn:E0.
  - unfold bufio_Flush. rewrite He. destruct (zlen _ =? 0) eqn:E1; [lia|]. specialize (Hc (bf_buf (rw_bw w))).
    destruct (writeChunk r _) as [r' [n err]]. by destruct (match err with Some _ => err | None => _ end).
  - assert (bf_buf (rw_bw w) = []) as -> by by destruct (bf_buf (rw_bw w)). exact (Hc []).
Qed.
End run.
End grammar.

(** ** What a handler's run guarantees *)
Section claims.
Context (chan : nat -> nat) (now : bytes) (DetectContentType : bytes -> bytes) (keys : header -> list bytes).

(** Whatever a handler calls, whether it returns or panics, and whatever the serve loop
    answers it, every frame that it asks for is one that [serve] relies on: a frame of a
    stream, for the handler's own stream. *)
Theorem handler_requests_ok {S W B U : Type} (deliver reply : nat -> option serve_error) cs id m (sc : serverConn (S := S) (W := W) (B := B) (U := U)) wr :
  wr ∈ rws_sent (rw_rws (runHandler deliver reply chan now DetectContentType keys cs (newResponseWriter id m)).1.1) ->
  id ∈ handler_ids sc -> event_ok (FromHandler wr) sc = true.
Proof.
  intros Hin Hid.
  assert (asked id (rw_rws (runHandler deliver reply chan now DetectContentType keys cs (newResponseWriter id m)).1.1)) as [_ Ha].
  { unfold runHandler. pose proof (calls_asked deliver reply chan now DetectContentType keys id cs (newResponseWriter id m) (conj eq_refl (Forall_nil_2 _))) as H.
    destruct (calls _ _ _ _ _ _ cs _) as [[w rs] panicked]. cbn [fst] in *. destruct panicked.
    - cbn. rewrite (proj1 H). by apply writeFrame_asked.
    - apply (Flush_keeps deliver reply chan now DetectContentType keys (fun r _ => asked id r)); [|exact H].
      intros r p _ _. apply writeChunk_asked. }
  rewrite Forall_forall in Ha. specialize (Ha wr Hin). unfold request_of in Ha. apply andb_true_iff in Ha as [Hs Hk%bool_decide_eq_true].
  cbn. by rewrite Hs, Hk, bool_decide_eq_true_2.
Qed.

Lemma unsized_empty : unsized ∅.
Proof. unfold unsized, Header_Get. by rewrite lookup_empty. Qed.

Lemma new_underway id m (fits : Prop) : underway id m fits (rw_rws (newResponseWriter id m)) None.
Proof. split; [by constructor|]. intros _. constructor; try done; intros _; apply unsized_empty. Qed.

(** C10: RFC 7540, 8.1: the frames of a handler that returns, with a serve loop that takes
    them, are interim headers, one final header, the body and at most one header with
    trailers, and END_STREAM is on the last of them and on no other, whatever the handler
    calls and in whatever order. *)
Theorem response_wellformed cs id m w rs :
  runHandler (fun _ => None) (fun _ => None) chan now DetectContentType keys cs (newResponseWriter id m) = (w, rs, false) ->
  response id Interim (frames (rws_sent (rw_rws w))) = Some Ended.
Proof.
  unfold runHandler. destruct (calls _ _ _ _ _ _ cs _) as [[w1 rs1] pan] eqn:E. intros [= <- <- ->].
  assert (Forall (fitting False) cs) as Hf by (apply Forall_forall; intros c _; destruct c; try done; intros []).
  pose proof (calls_underway chan now DetectContentType keys id m False cs _ Hf (new_underway id m False)) as HU.
  rewrite E in HU. cbn [fst] in HU. apply handlerDone_ends with (m := m); [apply HU|]. intros HH.
  assert (holds (Err := serve_error) handlerChunkWriteSize (at_body id m False) [] (rw_rws (newResponseWriter id m)) (rw_bw (newResponseWriter id m))) as H0.
  { split; [done|]. split; [done|]. exists []. split; [|done]. split; [apply new_underway|]. split; [|done].
    unfold isHeadResp in *. by rewrite (rp_method _ _ _ _ _ (proj1 HU)) in HH. }
  apply (calls_holds chan now DetectContentType keys id m False cs [] _ w1 rs1 Hf H0 E).
Qed.

(** C11: when a handler returns, without a panic, and the serve loop takes all that it sends
    (the stream is not reset and the connection lives), the DATA frames of its response, to
    any method but HEAD, carry exactly the bytes that the handler was told it had written.
    If moreover it never sets Content-Length itself, the length that the writer may declare
    is the number of these bytes. *)
Theorem response_body cs id m w rs : m <> str "HEAD" ->
  runHandler (fun _ => None) (fun _ => None) chan now DetectContentType keys cs (newResponseWriter id m) = (w, rs, false) ->
  body_of (frames (rws_sent (rw_rws w))) = written cs rs /\
  (Forall (call_allowed unsized) cs -> forall l, l ∈ lengths (frames (rws_sent (rw_rws w))) -> l = FormatUint (zlen (written cs rs))).
Proof.
  intros Hm. unfold runHandler. destruct (calls _ _ _ _ _ _ cs _) as [[w1 rs1] pan] eqn:E. intros [= <- <- ->].
  set (fits := Forall (call_allowed unsized) cs). assert (Forall (fitting fits) cs) as Hf.
  { apply Forall_forall. intros c Hc. destruct c; try done. intros Hfits. unfold fits in Hfits. rewrite Forall_forall in Hfits. exact (Hfits _ Hc). }
  assert (holds (Err := serve_error) handlerChunkWriteSize (at_body id m fits) [] (rw_rws (newResponseWriter id m)) (rw_bw (newResponseWriter id m))) as H0.
  { split; [done|]. split; [done|]. exists []. split; [|done]. split; [apply new_underway|]. split; [|done]. by apply bool_decide_eq_false_2. }
  pose proof (calls_holds chan now DetectContentType keys id m fits cs [] _ w1 rs1 Hf H0 E) as H1.
  exact (handlerDone_body chan now DetectContentType keys id m fits _ _ H1).
Qed.

(** A handler panics only by itself or with a status code that is not of three digits:
    the buffer's loops end, whatever the serve loop answers. *)
Theorem handler_panics_itself (deliver reply : nat -> option serve_error) cs id m w rs :
  runHandler deliver reply chan now DetectContentType keys cs (newResponseWriter id m) = (w, rs, true) ->
  exists c, c ∈ cs /\ invalid_code c = true.
Proof.
  unfold runHandler. destruct (calls _ _ _ _ _ _ cs _) as [[w1 rs1] pan] eqn:E. intros [= _ _ ->].
  exact (calls_total deliver reply chan now DetectContentType keys cs (newResponseWriter id m) w1 rs1 ltac:(done) E).
Qed.
End claims.

(** ** Runs *)
Definition header_keys (h : header) : list bytes := map fst (map_to_list h).

Abbreviation sample_run cs m :=
  (runHandler (fun _ => None) (fun _ => None) (fun n => n) (str "Thu, 01 Jan 1970 00:00:00 GMT") (fun _ => str "text/plain") header_keys cs (newResponseWriter 3 m)).

(** An interim header, a body of more than a buffer, and a trailer. *)
Definition sample_handler : list handler_call := [
  SetHeader {[str "Trailer" := [str "X-Sum"]; str "X-Color" := [str "blue"]]}; CallWriteHeader 103; CallWrite (str "hello, "); CallFlush;
  CallWriteString (repeat 120 5000); SetHeader {[str "Trailer" := [str "X-Sum"]; str "X-Sum" := [str "42"]]}; CallWriteHeader 200].

(** All of the body in the buffer. *)
Definition small_handler : list handler_call := [
  SetHeader {[str "X-Color" := [str "blue"]]}; CallWrite (str "hello, "); CallWriteString (str "world")].

Lemma response_wellformed_witness : exists w rs, sample_run sample_handler (str "GET") = (w, rs, false) /\
  length (rws_sent (rw_rws w)) = 6%nat /\ response 3 Interim (frames (rws_sent (rw_rws w))) = Some Ended.
Proof.
  assert (length (rws_sent (rw_rws (sample_run sample_handler (str "GET")).1.1)) = 6%nat) as Hl by (vm_compute; reflexivity).
  assert ((sample_run sample_handler (str "GET")).2 = false) as Hb by (vm_compute; reflexivity).
  destruct (sample_run sample_handler (str "GET")) as [[w rs] b] eqn:E. cbn [snd] in Hb. subst b. exists w, rs.
  split; [reflexivity|]. split; [exact Hl|]. exact (response_wellformed _ _ _ _ sample_handler 3 (str "GET") w rs E).
Defined.

Lemma response_body_witness : exists w rs, sample_run small_handler (str "GET") = (w, rs, false) /\
  written small_handler rs = str "hello, world" /\ body_of (frames (rws_sent (rw_rws w))) = str "hello, world" /\
  str "12" ∈ lengths (frames (rws_sent (rw_rws w))) /\ FormatUint (zlen (written small_handler rs)) = str "12".
Proof.
  assert (lengths (frames (rws_sent (rw_rws (sample_run small_handler (str "GET")).1.1))) = [str "12"]) as Hl by (vm_compute; reflexivity).
  assert (written small_handler (sample_run small_handler (str "GET")).1.2 = str "hello, world") as Hw by (vm_compute; reflexivity).
  assert ((sample_run small_handler (str "GET")).2 = false) as Hb by (vm_compute; reflexivity).
  destruct (sample_run small_handler (str "GET")) as [[w rs] b] eqn:E. cbn [fst snd] in Hb, Hl, Hw. subst b. exists w, rs.
  destruct (response_body _ _ _ _ small_handler 3 (str "GET") w rs ltac:(discriminate) E) as [H1 H2].
  assert (str "12" ∈ lengths (frames (rws_sent (rw_rws w)))) as Hin by (rewrite Hl; left).
  split; [reflexivity|]. split; [exact Hw|]. split; [rewrite <- Hw; exact H1|]. split; [exact Hin|].
  symmetry. apply H2; [|exact Hin]. repeat constructor.
Defined.

Lemma handler_panics_itself_witness : exists w rs, sample_run [CallWriteHeader 1000] (str "HEAD") = (w, rs, true) /\
  exists c, c ∈ [CallWriteHeader 1000] /\ invalid_code c = true.
Proof.
  destruct (sample_run [CallWriteHeader 1000] (str "HEAD")) as [[w rs] b] eqn:E.
  assert (b = true) as -> by (pose proof (f_equal snd E) as H; vm_compute in H; exact (eq_sym H)).
  exists w, rs. split; [reflexivity|]. exact (handler_panics_itself _ _ _ _ _ _ [CallWriteHeader 1000] 3 (str "HEAD") w rs E).
Defined.

(** The handler of stream 3, with a serve loop that is gone after its second frame. *)
Lemma handler_requests_ok_witness : exists sc c, random_run busy_run = Ret (sc, c) /\
  forall wr, wr ∈ rws_sent (rw_rws (runHandler (fun n => if (n <? 2)%nat then None else Some errClientDisconnected) (fun _ => None)
    (fun n => n) [] (fun _ => []) header_keys sample_handler (newResponseWriter 3 (str "GET"))).1.1) -> event_ok (FromHandler wr) sc = true.
Proof.
  destruct (run_check (random_run busy_run) (fun sc => bool_decide (3 ∈ handler_ids sc))) as (sc & c & E & H%bool_decide_eq_true);
    [vm_compute; reflexivity|]. exists sc, c. split; [exact E|]. intros wr Hin.
  exact (handler_requests_ok _ _ _ _ _ _ sample_handler 3 (str "GET") sc wr Hin H).
Defined.
