(* ===== verification/DnsMsg.v ===== *)
(** * Package dnsmessage: names, records and their wire format

    Models src/dns/dnsmessage/message.go up to the resource bodies: the packing and
    unpacking of integers, texts, domain names (with compression), the message and
    resource headers, questions and the body of each resource type.  A packer takes
    the message so far and returns it extended; the compression map, which the code
    mutates, is passed along also when an error is returned. *)

From S2P Require Import Prelude.

(** ** Constants and errors *)
Definition TypeA : Z := 1.
Definition TypeNS : Z := 2.
Definition TypeCNAME : Z := 5.
Definition TypeSOA : Z := 6.
Definition TypePTR : Z := 12.
Definition TypeMX : Z := 15.
Definition TypeTXT : Z := 16.
Definition TypeAAAA : Z := 28.
Definition TypeSRV : Z := 33.
Definition TypeOPT : Z := 41.
Definition TypeWKS : Z := 11.
Definition TypeHINFO : Z := 13.
Definition TypeMINFO : Z := 14.
Definition TypeAXFR : Z := 252.
Definition TypeALL : Z := 255.

Definition ClassINET : Z := 1.
Definition ClassCSNET : Z := 2.
Definition ClassCHAOS : Z := 3.
Definition ClassHESIOD : Z := 4.
Definition ClassANY : Z := 255.

Definition RCodeSuccess : Z := 0.
Definition RCodeFormatError : Z := 1.
Definition RCodeServerFailure : Z := 2.
Definition RCodeNameError : Z := 3.
Definition RCodeNotImplemented : Z := 4.
Definition RCodeRefused : Z := 5.

Inductive dns_error :=
| ErrNotStarted
| ErrSectionDone
| errBaseLen
| errCalcLen
| errReserved
| errTooManyPtr
| errInvalidPtr
| errNilResouceBody
| errResourceLen
| errSegTooLong
| errZeroSegLen
| errResTooLong
| errTooManyQuestions
| errTooManyAnswers
| errTooManyAuthorities
| errTooManyAdditionals
| errNonCanonicalName
| errStringTooLong
| errCompressedSRV
| nestedError (s : string) (err : dns_error).

#[global] Instance dns_error_eq_dec : EqDecision dns_error.
Proof. solve_decision. Defined.

Abbreviation result := (outcome dns_error).

(** [&nestedError{s, err}] *)
Definition nested {A} (s : string) (r : result A) : result A :=
  match r with Fail e => Fail (nestedError s e) | r => r end.

(** An index expression. *)
Definition index (msg : bytes) (i : Z) : result Z :=
  match zget msg i with Some b => Ret b | None => Panic end.

Definition uint16Len : Z := 2.
Definition uint32Len : Z := 4.
Definition headerLen : Z := 6 * uint16Len.
Definition nameLen : Z := 255.
Definition maxUint16 : Z := 65535.

(** ** Integers, texts and bytes *)
Definition packUint16 (msg : bytes) (field : Z) : bytes := msg ++ [u8 (Z.shiftr field 8); u8 field].

Definition unpackUint16 (msg : bytes) (off : Z) : result (Z * Z) :=
  if off + uint16Len >? zlen msg then Fail errBaseLen
  else
    let! b0 := index msg off in
    let! b1 := index msg (off + 1) in
    Ret (be16 b0 b1, off + uint16Len).

Definition skipUint16 (msg : bytes) (off : Z) : result Z :=
  if off + uint16Len >? zlen msg then Fail errBaseLen else Ret (off + uint16Len).

Definition packType : bytes -> Z -> bytes := packUint16.
Definition unpackType : bytes -> Z -> result (Z * Z) := unpackUint16.
Definition skipType : bytes -> Z -> result Z := skipUint16.
Definition packClass : bytes -> Z -> bytes := packUint16.
Definition unpackClass : bytes -> Z -> result (Z * Z) := unpackUint16.
Definition skipClass : bytes -> Z -> result Z := skipUint16.

Definition packUint32 (msg : bytes) (field : Z) : bytes :=
  msg ++ [u8 (Z.shiftr field 24); u8 (Z.shiftr field 16); u8 (Z.shiftr field 8); u8 field].

Definition unpackUint32 (msg : bytes) (off : Z) : result (Z * Z) :=
  if off + uint32Len >? zlen msg then Fail errBaseLen
  else
    let! b0 := index msg off in
    let! b1 := index msg (off + 1) in
    let! b2 := index msg (off + 2) in
    let! b3 := index msg (off + 3) in
    Ret (be32 b0 b1 b2 b3, off + uint32Len).

Definition skipUint32 (msg : bytes) (off : Z) : result Z :=
  if off + uint32Len >? zlen msg then Fail errBaseLen else Ret (off + uint32Len).

Definition packText (msg : bytes) (field : bytes) : result bytes :=
  let l := zlen field in
  if l >? 255 then Fail errStringTooLong else Ret (msg ++ [u8 l] ++ field).

Definition slice (msg : bytes) (lo hi : Z) : result bytes :=
  match zslice msg lo hi with Some s => Ret s | None => Panic end.

Definition unpackText (msg : bytes) (off : Z) : result (bytes * Z) :=
  if off >=? zlen msg then Fail errBaseLen
  else
    let beginOff := off + 1 in
    let! c := index msg off in
    let endOff := beginOff + c in
    if endOff >? zlen msg then Fail errCalcLen
    else let! s := slice msg beginOff endOff in Ret (s, endOff).

Definition packBytes (msg field : bytes) : bytes := msg ++ field.

(** [field] is overwritten; [n] is its length. *)
Definition unpackBytes (msg : bytes) (off n : Z) : result (bytes * Z) :=
  let newOff := off + n in
  if newOff >? zlen msg then Fail errBaseLen
  else let! field := slice msg off newOff in Ret (field, newOff).

(** ** Names *)
Record Name := mkName {
  n_Data : bytes;                (* [255]byte *)
  n_Length : Z                   (* uint8 *)
}.

Definition zeroName : Name := mkName (replicate 255 0) 0.

Definition NewName (name : bytes) : result Name :=
  if zlen name >? nameLen then Fail errCalcLen
  else Ret (mkName (name ++ drop (length name) (replicate 255 0)) (u8 (zlen name))).

(** The panic carries the message of the error. *)
Definition MustNewName (name : bytes) : result Name :=
  match NewName name with Ret n => Ret n | _ => Panic end.

(** [string(n.Data[:n.Length])] *)
Definition Name_String (n : Name) : bytes := take (Z.to_nat (n_Length n)) (n_Data n).

(** A map from the rest of a name's array to an offset; [None] is the nil map. *)
Abbreviation compression_map := (option (gmap bytes Z)).

(** The loop of [Name.pack]: [k] rounds are left, [begin] starts the segment. *)
Fixpoint packLoop (k : nat) (n : Name) (compressionOff : Z) (i begin : Z) (msg : bytes) (compression : compression_map)
  : compression_map * result bytes :=
  match k with
  | O => (compression, Ret (msg ++ [0]))
  | S k =>
      match zget (n_Data n) i with
      | None => (compression, Panic)
      | Some c =>
          if c =? 46 then
            if i - begin >=? Z.shiftl 1 6 then (compression, Fail errSegTooLong)
            else if i - begin =? 0 then (compression, Fail errZeroSegLen)
            else
              match zslice (n_Data n) begin i with
              | None => (compression, Panic)
              | Some seg => packLoop k n compressionOff (i + 1) (i + 1) (msg ++ [u8 (i - begin)] ++ seg) compression
              end
          else
            match compression with
            | None => packLoop k n compressionOff (i + 1) begin msg compression
            | Some m =>
                if (i =? 0) || bool_decide (zget (n_Data n) (i - 1) = Some 46) then
                  let key := drop (Z.to_nat i) (n_Data n) in
                  match m !! key with
                  | Some ptr => (compression, Ret (msg ++ [u8 (Z.lor (Z.shiftr ptr 8) 0xC0); u8 ptr]))
                  | None =>
                      let m := if zlen msg <=? 0x3FFF then <[key := zlen msg - compressionOff]> m else m in
                      packLoop k n compressionOff (i + 1) begin msg (Some m)
                  end
                else packLoop k n compressionOff (i + 1) begin msg compression
            end
      end
  end.

Definition Name_pack (n : Name) (msg : bytes) (compression : compression_map) (compressionOff : Z)
  : compression_map * result bytes :=
  if n_Length n =? 0 then (compression, Fail errNonCanonicalName)
  else
    match zget (n_Data n) (n_Length n - 1) with
    | None => (compression, Panic)
    | Some c =>
        if negb (c =? 46) then (compression, Fail errNonCanonicalName)
        else if bool_decide (zget (n_Data n) 0 = Some 46) && (n_Length n =? 1) then (compression, Ret (msg ++ [0]))
        else packLoop (Z.to_nat (n_Length n)) n compressionOff 0 0 msg compression
    end.

(** The loop of [unpackCompressed]; the name, [newOff] and the number of pointers. *)
Fixpoint unpackLoop (fuel : nat) (msg : bytes) (allowCompression : bool) (currOff newOff ptr : Z) (name : bytes)
  : option (result (bytes * Z * Z * Z)) :=
  match fuel with
  | O => None
  | S fuel =>
      if currOff >=? zlen msg then Some (Fail errBaseLen)
      else
        match zget msg currOff with
        | None => Some Panic
        | Some c =>
            let currOff := currOff + 1 in
            let prefix := Z.land c 0xC0 in
            if prefix =? 0 then
              if c =? 0 then Some (Ret (name, currOff, newOff, ptr))
              else
                let endOff := currOff + c in
                if endOff >? zlen msg then Some (Fail errCalcLen)
                else
                  match zslice msg currOff endOff with
                  | None => Some Panic
                  | Some seg => unpackLoop fuel msg allowCompression endOff newOff ptr (name ++ seg ++ [46])
                  end
            else if prefix =? 0xC0 then
              if negb allowCompression then Some (Fail errCompressedSRV)
              else if currOff >=? zlen msg then Some (Fail errInvalidPtr)
              else
                match zget msg currOff with
                | None => Some Panic
                | Some c1 =>
                    let currOff := currOff + 1 in
                    let newOff := if ptr =? 0 then currOff else newOff in
                    let ptr := ptr + 1 in
                    if ptr >? 10 then Some (Fail errTooManyPtr)
                    else unpackLoop fuel msg allowCompression (Z.lor (Z.shiftl (Z.lxor c 0xC0) 8) c1) newOff ptr name
                end
            else Some (Fail errReserved)
        end
  end.

(** Between two pointers every round moves forward in the message. *)
Definition unpackFuel (msg : bytes) : nat := (11 * (length msg + 1))%nat.

Definition unpackCompressed (n : Name) (msg : bytes) (off : Z) (allowCompression : bool) : result (Name * Z) :=
  match unpackLoop (unpackFuel msg) msg allowCompression off off 0 [] with
  | None => Panic
  | Some r =>
      let! p := r in
      let '(name, currOff, newOff, ptr) := (p : bytes * Z * Z * Z) in
      let name := match name with [] => [46] | _ => name end in
      if zlen name >? zlen (n_Data n) then Fail errCalcLen
      else Ret (mkName (name ++ drop (length name) (n_Data n)) (u8 (zlen name)),
                if ptr =? 0 then currOff else newOff)
  end.

Definition Name_unpack (n : Name) (msg : bytes) (off : Z) : result (Name * Z) := unpackCompressed n msg off true.

(** [skipName]; every round moves forward. *)
Fixpoint skipLoop (fuel : nat) (msg : bytes) (newOff : Z) : option (result Z) :=
  match fuel with
  | O => None
  | S fuel =>
      if newOff >=? zlen msg then Some (Fail errBaseLen)
      else
        match zget msg newOff with
        | None => Some Panic
        | Some c =>
            let newOff := newOff + 1 in
            let prefix := Z.land c 0xC0 in
            if prefix =? 0 then
              if c =? 0 then Some (Ret newOff)
              else
                let newOff := newOff + c in
                if newOff >? zlen msg then Some (Fail errCalcLen) else skipLoop fuel msg newOff
            else if prefix =? 0xC0 then Some (Ret (newOff + 1))
            else Some (Fail errReserved)
        end
  end.

Definition skipName (msg : bytes) (off : Z) : result Z :=
  match skipLoop (S (length msg)) msg off with None => Panic | Some r => r end.

(** ** Headers *)
Record Header := mkHeader {
  h_ID : Z;
  h_Response : bool;
  h_OpCode : Z;
  h_Authoritative : bool;
  h_Truncated : bool;
  h_RecursionDesired : bool;
  h_RecursionAvailable : bool;
  h_AuthenticData : bool;
  h_CheckingDisabled : bool;
  h_RCode : Z
}.

Definition headerBitQR : Z := Z.shiftl 1 15.
Definition headerBitAA : Z := Z.shiftl 1 10.
Definition headerBitTC : Z := Z.shiftl 1 9.
Definition headerBitRD : Z := Z.shiftl 1 8.
Definition headerBitRA : Z := Z.shiftl 1 7.
Definition headerBitAD : Z := Z.shiftl 1 5.
Definition headerBitCD : Z := Z.shiftl 1 4.

Definition orBit (b : bool) (bit bits : Z) : Z := if b then Z.lor bits bit else bits.

Definition Header_pack (m : Header) : Z * Z :=
  let bits := Z.lor (u16 (Z.shiftl (h_OpCode m) 11)) (h_RCode m) in
  let bits := orBit (h_RecursionAvailable m) headerBitRA bits in
  let bits := orBit (h_RecursionDesired m) headerBitRD bits in
  let bits := orBit (h_Truncated m) headerBitTC bits in
  let bits := orBit (h_Authoritative m) headerBitAA bits in
  let bits := orBit (h_Response m) headerBitQR bits in
  let bits := orBit (h_AuthenticData m) headerBitAD bits in
  let bits := orBit (h_CheckingDisabled m) headerBitCD bits in
  (h_ID m, bits).

Record header := mkHdr {
  hd_id : Z;
  hd_bits : Z;
  hd_questions : Z;
  hd_answers : Z;
  hd_authorities : Z;
  hd_additionals : Z
}.

Definition header_pack (h : header) (msg : bytes) : bytes :=
  let msg := packUint16 msg (hd_id h) in
  let msg := packUint16 msg (hd_bits h) in
  let msg := packUint16 msg (hd_questions h) in
  let msg := packUint16 msg (hd_answers h) in
  let msg := packUint16 msg (hd_authorities h) in
  packUint16 msg (hd_additionals h).

(** The header that a failed [unpack] leaves half-filled is never looked at. *)
Definition header_unpack (msg : bytes) (off : Z) : result (header * Z) :=
  let! p := nested "id" (unpackUint16 msg off) in let '(id, newOff) := (p : Z * Z) in
  let! p := nested "bits" (unpackUint16 msg newOff) in let '(bits, newOff) := (p : Z * Z) in
  let! p := nested "questions" (unpackUint16 msg newOff) in let '(questions, newOff) := (p : Z * Z) in
  let! p := nested "answers" (unpackUint16 msg newOff) in let '(answers, newOff) := (p : Z * Z) in
  let! p := nested "authorities" (unpackUint16 msg newOff) in let '(authorities, newOff) := (p : Z * Z) in
  let! p := nested "additionals" (unpackUint16 msg newOff) in let '(additionals, newOff) := (p : Z * Z) in
  Ret (mkHdr id bits questions answers authorities additionals, newOff).

Definition header_header (h : header) : Header :=
  let has bit := negb (Z.land (hd_bits h) bit =? 0) in
  mkHeader (hd_id h) (has headerBitQR) (Z.land (Z.shiftr (hd_bits h) 11) 0xF) (has headerBitAA) (has headerBitTC)
    (has headerBitRD) (has headerBitRA) (has headerBitAD) (has headerBitCD) (Z.land (hd_bits h) 0xF).

(** ** Resource headers *)
Record ResourceHeader := mkRH {
  rh_Name : Name;
  rh_Type : Z;
  rh_Class : Z;
  rh_TTL : Z;                    (* uint32 *)
  rh_Length : Z                  (* uint16 *)
}.

Definition set_Type (t : Z) (h : ResourceHeader) : ResourceHeader := mkRH (rh_Name h) t (rh_Class h) (rh_TTL h) (rh_Length h).
Definition set_Length (l : Z) (h : ResourceHeader) : ResourceHeader := mkRH (rh_Name h) (rh_Type h) (rh_Class h) (rh_TTL h) l.

(** The extended message and [lenOff]. *)
Definition ResourceHeader_pack (h : ResourceHeader) (oldMsg : bytes) (compression : compression_map) (compressionOff : Z)
  : compression_map * result (bytes * Z) :=
  let '(compression, r) := Name_pack (rh_Name h) oldMsg compression compressionOff in
  (compression,
   let! msg := nested "Name" r in
   let msg := packType msg (rh_Type h) in
   let msg := packClass msg (rh_Class h) in
   let msg := packUint32 msg (rh_TTL h) in
   let lenOff := zlen msg in
   Ret (packUint16 msg (rh_Length h), lenOff)).

Definition ResourceHeader_unpack (h : ResourceHeader) (msg : bytes) (off : Z) : result (ResourceHeader * Z) :=
  let! p := nested "Name" (Name_unpack (rh_Name h) msg off) in let '(name, newOff) := (p : Name * Z) in
  let! p := nested "Type" (unpackType msg newOff) in let '(type, newOff) := (p : Z * Z) in
  let! p := nested "Class" (unpackClass msg newOff) in let '(class, newOff) := (p : Z * Z) in
  let! p := nested "TTL" (unpackUint32 msg newOff) in let '(ttl, newOff) := (p : Z * Z) in
  let! p := nested "Length" (unpackUint16 msg newOff) in let '(length, newOff) := (p : Z * Z) in
  Ret (mkRH name type class ttl length, newOff).

(** [packUint16(msg[lenOff:lenOff], v)] overwrites two bytes in place. *)
Definition overwrite16 (msg : bytes) (off v : Z) : result bytes :=
  if (0 <=? off) && (off + 2 <=? zlen msg)
  then Ret (take (Z.to_nat off) msg ++ packUint16 [] v ++ drop (Z.to_nat (off + 2)) msg)
  else Panic.

Definition fixLen (h : ResourceHeader) (msg : bytes) (lenOff preLen : Z) : result (ResourceHeader * bytes) :=
  let conLen := zlen msg - preLen in
  if conLen >? maxUint16 then Fail errResTooLong
  else
    let! msg := overwrite16 msg lenOff (u16 conLen) in
    Ret (set_Length (u16 conLen) h, msg).

(** EDNS(0) *)
Definition edns0Version : Z := 0.
Definition edns0DNSSECOK : Z := 0x00008000.
Definition ednsVersionMask : Z := 0x00ff0000.
Definition edns0DNSSECOKMask : Z := 0x00ff8000.

Definition SetEDNS0 (h : ResourceHeader) (udpPayloadLen extRCode : Z) (dnssecOK : bool) : ResourceHeader :=
  let ttl := u32 (Z.shiftl (Z.shiftr (u32 extRCode) 4) 24) in
  mkRH (mkName (46 :: replicate 254 0) 1) TypeOPT (u16 udpPayloadLen)
    (if dnssecOK then Z.lor ttl edns0DNSSECOK else ttl) (rh_Length h).

Definition DNSSECAllowed (h : ResourceHeader) : bool := Z.land (rh_TTL h) edns0DNSSECOKMask =? edns0DNSSECOK.

Definition ExtendedRCode (h : ResourceHeader) (rcode : Z) : Z :=
  if Z.land (rh_TTL h) ednsVersionMask =? edns0Version
  then Z.lor (u16 (u32 (Z.shiftl (Z.shiftr (rh_TTL h) 24) 4))) rcode else rcode.

Definition skipResource (msg : bytes) (off : Z) : result Z :=
  let! newOff := nested "Name" (skipName msg off) in
  let! newOff := nested "Type" (skipType msg newOff) in
  let! newOff := nested "Class" (skipClass msg newOff) in
  let! newOff := nested "TTL" (skipUint32 msg newOff) in
  let! p := nested "Length" (unpackUint16 msg newOff) in let '(length, newOff) := (p : Z * Z) in
  let newOff := newOff + length in
  if newOff >? zlen msg then Fail errResourceLen else Ret newOff.
