(* ===== verification/DnsBody.v ===== *)
(** * Package dnsmessage: questions and resource bodies

    Models the rest of the records of src/dns/dnsmessage/message.go: [Question], the
    resource types behind [ResourceBody], [unpackResourceBody] and [Resource.pack]. *)

From S2P Require Import Prelude DnsMsg.

(** ** Questions *)
Record Question := mkQ {
  q_Name : Name;
  q_Type : Z;
  q_Class : Z
}.

Definition Question_pack (q : Question) (msg : bytes) (compression : compression_map) (compressionOff : Z)
  : compression_map * result bytes :=
  let '(compression, r) := Name_pack (q_Name q) msg compression compressionOff in
  (compression, let! msg := nested "Name" r in Ret (packClass (packType msg (q_Type q)) (q_Class q))).

(** ** Resource types *)
Record MXResource := mkMX { mx_Pref : Z; mx_MX : Name }.

Record SOAResource := mkSOA {
  soa_NS : Name;
  soa_MBox : Name;
  soa_Serial : Z;
  soa_Refresh : Z;
  soa_Retry : Z;
  soa_Expire : Z;
  soa_MinTTL : Z
}.

Record SRVResource := mkSRV { srv_Priority : Z; srv_Weight : Z; srv_Port : Z; srv_Target : Name }.

Record Option := mkOption { o_Code : Z; o_Data : bytes }.

Record UnknownResource := mkUnknown { un_Type : Z; un_Data : bytes }.

(** The types behind the interface. *)
Inductive ResourceBody :=
| AResource (A : bytes)                    (* [4]byte *)
| NSResource (NS : Name)
| CNAMEResource (CNAME : Name)
| SOA (r : SOAResource)
| PTRResource (PTR : Name)
| MX (r : MXResource)
| TXTResource (TXT : list bytes)
| AAAAResource (AAAA : bytes)              (* [16]byte *)
| SRV (r : SRVResource)
| OPTResource (Options : list Option)
| Unknown (r : UnknownResource).

Definition realType (r : ResourceBody) : Z :=
  match r with
  | AResource _ => TypeA
  | NSResource _ => TypeNS
  | CNAMEResource _ => TypeCNAME
  | SOA _ => TypeSOA
  | PTRResource _ => TypePTR
  | MX _ => TypeMX
  | TXTResource _ => TypeTXT
  | AAAAResource _ => TypeAAAA
  | SRV _ => TypeSRV
  | OPTResource _ => TypeOPT
  | Unknown r => un_Type r
  end.

(** *** Packing *)
Definition CNAMEResource_pack : Name -> bytes -> compression_map -> Z -> compression_map * result bytes := Name_pack.
Definition NSResource_pack : Name -> bytes -> compression_map -> Z -> compression_map * result bytes := Name_pack.
Definition PTRResource_pack : Name -> bytes -> compression_map -> Z -> compression_map * result bytes := Name_pack.

Definition AResource_pack (A msg : bytes) : bytes := packBytes msg A.
Definition AAAAResource_pack (AAAA msg : bytes) : bytes := packBytes msg AAAA.
Definition UnknownResource_pack (r : UnknownResource) (msg : bytes) : bytes := packBytes msg (un_Data r).

Definition MXResource_pack (r : MXResource) (msg : bytes) (compression : compression_map) (compressionOff : Z)
  : compression_map * result bytes :=
  let msg := packUint16 msg (mx_Pref r) in
  let '(compression, p) := Name_pack (mx_MX r) msg compression compressionOff in
  (compression, nested "MXResource.MX" p).

Definition SOAResource_pack (r : SOAResource) (msg : bytes) (compression : compression_map) (compressionOff : Z)
  : compression_map * result bytes :=
  let '(compression, p) := Name_pack (soa_NS r) msg compression compressionOff in
  match nested "SOAResource.NS" p with
  | Ret msg =>
      let '(compression, p) := Name_pack (soa_MBox r) msg compression compressionOff in
      (compression,
       let! msg := nested "SOAResource.MBox" p in
       let msg := packUint32 msg (soa_Serial r) in
       let msg := packUint32 msg (soa_Refresh r) in
       let msg := packUint32 msg (soa_Retry r) in
       let msg := packUint32 msg (soa_Expire r) in
       Ret (packUint32 msg (soa_MinTTL r)))
  | p => (compression, p)
  end.

Fixpoint TXTResource_pack (TXT : list bytes) (msg : bytes) : result bytes :=
  match TXT with
  | [] => Ret msg
  | s :: TXT => let! msg := packText msg s in TXTResource_pack TXT msg
  end.

(** The name is not compressed. *)
Definition SRVResource_pack (r : SRVResource) (msg : bytes) (compressionOff : Z) : result bytes :=
  let msg := packUint16 msg (srv_Priority r) in
  let msg := packUint16 msg (srv_Weight r) in
  let msg := packUint16 msg (srv_Port r) in
  nested "SRVResource.Target" (snd (Name_pack (srv_Target r) msg None compressionOff)).

Fixpoint OPTResource_pack (Options : list Option) (msg : bytes) : bytes :=
  match Options with
  | [] => msg
  | opt :: Options =>
      let msg := packUint16 msg (o_Code opt) in
      let l := u16 (zlen (o_Data opt)) in
      let msg := packUint16 msg l in
      OPTResource_pack Options (packBytes msg (o_Data opt))
  end.

(** [ResourceBody.pack] *)
Definition body_pack (r : ResourceBody) (msg : bytes) (compression : compression_map) (compressionOff : Z)
  : compression_map * result bytes :=
  match r with
  | AResource A => (compression, Ret (AResource_pack A msg))
  | NSResource n => NSResource_pack n msg compression compressionOff
  | CNAMEResource n => CNAMEResource_pack n msg compression compressionOff
  | SOA r => SOAResource_pack r msg compression compressionOff
  | PTRResource n => PTRResource_pack n msg compression compressionOff
  | MX r => MXResource_pack r msg compression compressionOff
  | TXTResource TXT => (compression, TXTResource_pack TXT msg)
  | AAAAResource AAAA => (compression, Ret (AAAAResource_pack AAAA msg))
  | SRV r => (compression, SRVResource_pack r msg compressionOff)
  | OPTResource Options => (compression, Ret (OPTResource_pack Options msg))
  | Unknown r => (compression, Ret (UnknownResource_pack r msg))
  end.

(** *** Unpacking *)
Definition unpackNameResource (msg : bytes) (off : Z) : result Name :=
  let! p := Name_unpack zeroName msg off in Ret (fst (p : Name * Z)).

Definition unpackCNAMEResource (msg : bytes) (off : Z) : result ResourceBody :=
  let! n := unpackNameResource msg off in Ret (CNAMEResource n).
Definition unpackNSResource (msg : bytes) (off : Z) : result ResourceBody :=
  let! n := unpackNameResource msg off in Ret (NSResource n).
Definition unpackPTRResource (msg : bytes) (off : Z) : result ResourceBody :=
  let! n := unpackNameResource msg off in Ret (PTRResource n).

Definition unpackMXResource (msg : bytes) (off : Z) : result ResourceBody :=
  let! p := nested "Pref" (unpackUint16 msg off) in let '(pref, off) := (p : Z * Z) in
  let! n := nested "MX" (unpackNameResource msg off) in
  Ret (MX (mkMX pref n)).

Definition unpackSOAResource (msg : bytes) (off : Z) : result ResourceBody :=
  let! p := nested "NS" (Name_unpack zeroName msg off) in let '(ns, off) := (p : Name * Z) in
  let! p := nested "MBox" (Name_unpack zeroName msg off) in let '(mbox, off) := (p : Name * Z) in
  let! p := nested "Serial" (unpackUint32 msg off) in let '(serial, off) := (p : Z * Z) in
  let! p := nested "Refresh" (unpackUint32 msg off) in let '(refresh, off) := (p : Z * Z) in
  let! p := nested "Retry" (unpackUint32 msg off) in let '(retry, off) := (p : Z * Z) in
  let! p := nested "Expire" (unpackUint32 msg off) in let '(expire, off) := (p : Z * Z) in
  let! p := nested "MinTTL" (unpackUint32 msg off) in let '(minTTL, _) := (p : Z * Z) in
  Ret (SOA (mkSOA ns mbox serial refresh retry expire minTTL)).

(** The loop of [unpackTXTResource]; [n] is a uint16, and every text has at least
    its length byte. *)
Fixpoint unpackTXTLoop (fuel : nat) (msg : bytes) (off n length : Z) (txts : list bytes) : option (result (list bytes)) :=
  if n <? length then
    match fuel with
    | O => None
    | S fuel =>
        match nested "text" (unpackText msg off) with
        | Fail e => Some (Fail e)
        | Panic => Some Panic
        | Ret (t, off) =>
            if u16 (length - n) <? u16 (u16 (zlen t) + 1) then Some (Fail errCalcLen)
            else unpackTXTLoop fuel msg off (u16 (n + u16 (u16 (zlen t) + 1))) length (txts ++ [t])
        end
    end
  else Some (Ret txts).

Definition unpackTXTResource (msg : bytes) (off length : Z) : result ResourceBody :=
  match unpackTXTLoop (Z.to_nat length) msg off 0 length [] with
  | None => Panic
  | Some r => let! txts := r in Ret (TXTResource txts)
  end.

Definition unpackSRVResource (msg : bytes) (off : Z) : result ResourceBody :=
  let! p := nested "Priority" (unpackUint16 msg off) in let '(priority, off) := (p : Z * Z) in
  let! p := nested "Weight" (unpackUint16 msg off) in let '(weight, off) := (p : Z * Z) in
  let! p := nested "Port" (unpackUint16 msg off) in let '(port, off) := (p : Z * Z) in
  let! p := nested "Target" (unpackCompressed zeroName msg off false) in let '(target, _) := (p : Name * Z) in
  Ret (SRV (mkSRV priority weight port target)).

Definition unpackAResource (msg : bytes) (off : Z) : result ResourceBody :=
  let! p := unpackBytes msg off 4 in Ret (AResource (fst (p : bytes * Z))).

Definition unpackAAAAResource (msg : bytes) (off : Z) : result ResourceBody :=
  let! p := unpackBytes msg off 16 in Ret (AAAAResource (fst (p : bytes * Z))).

(** [make([]byte, l)] filled by [copy(o.Data, msg[off:])], when enough is there. *)
Fixpoint unpackOPTLoop (fuel : nat) (msg : bytes) (off limit : Z) (opts : list Option) : option (result (list Option)) :=
  if off <? limit then
    match fuel with
    | O => None
    | S fuel =>
        match nested "Code" (unpackUint16 msg off) with
        | Fail e => Some (Fail e)
        | Panic => Some Panic
        | Ret (code, off) =>
            match nested "Data" (unpackUint16 msg off) with
            | Fail e => Some (Fail e)
            | Panic => Some Panic
            | Ret (l, off) =>
                match zslice msg off (zlen msg) with
                | None => Some Panic
                | Some rest =>
                    if negb (Z.min l (zlen rest) =? l) then Some (Fail (nestedError "Data" errCalcLen))
                    else unpackOPTLoop fuel msg (off + l) limit (opts ++ [mkOption code (take (Z.to_nat l) rest)])
                end
            end
        end
    end
  else Some (Ret opts).

Definition unpackOPTResource (msg : bytes) (off length : Z) : result ResourceBody :=
  match unpackOPTLoop (Z.to_nat length) msg off (off + length) [] with
  | None => Panic
  | Some r => let! opts := r in Ret (OPTResource opts)
  end.

Definition unpackUnknownResource (recordType : Z) (msg : bytes) (off length : Z) : result ResourceBody :=
  let! p := unpackBytes msg off length in Ret (Unknown (mkUnknown recordType (fst (p : bytes * Z)))).

Definition unpackResourceBody (msg : bytes) (off : Z) (hdr : ResourceHeader) : result (ResourceBody * Z) :=
  let t := rh_Type hdr in
  let! r :=
    if t =? TypeA then nested "A record" (unpackAResource msg off)
    else if t =? TypeNS then nested "NS record" (unpackNSResource msg off)
    else if t =? TypeCNAME then nested "CNAME record" (unpackCNAMEResource msg off)
    else if t =? TypeSOA then nested "SOA record" (unpackSOAResource msg off)
    else if t =? TypePTR then nested "PTR record" (unpackPTRResource msg off)
    else if t =? TypeMX then nested "MX record" (unpackMXResource msg off)
    else if t =? TypeTXT then nested "TXT record" (unpackTXTResource msg off (rh_Length hdr))
    else if t =? TypeAAAA then nested "AAAA record" (unpackAAAAResource msg off)
    else if t =? TypeSRV then nested "SRV record" (unpackSRVResource msg off)
    else if t =? TypeOPT then nested "OPT record" (unpackOPTResource msg off (rh_Length hdr))
    else nested "Unknown record" (unpackUnknownResource t msg off (rh_Length hdr)) in
  Ret (r, off + rh_Length hdr).

(** ** Resources *)
Record Resource := mkResource {
  r_Header : ResourceHeader;
  r_Body : option ResourceBody             (* nil *)
}.

(** [Resource.pack] fills in the type and the length of the header, which it
    updates in the resource as well. *)
Definition Resource_pack (r : Resource) (msg : bytes) (compression : compression_map) (compressionOff : Z)
  : compression_map * result (Resource * bytes) :=
  match r_Body r with
  | None => (compression, Fail errNilResouceBody)
  | Some body =>
      let h := set_Type (realType body) (r_Header r) in
      let '(compression, p) := ResourceHeader_pack h msg compression compressionOff in
      match nested "ResourceHeader" p with
      | Fail e => (compression, Fail e)
      | Panic => (compression, Panic)
      | Ret (msg, lenOff) =>
          let preLen := zlen msg in
          let '(compression, p) := body_pack body msg compression compressionOff in
          (compression,
           let! msg := nested "content" p in
           let! p := fixLen h msg lenOff preLen in let '(h, msg) := (p : ResourceHeader * bytes) in
           Ret (mkResource h (Some body), msg))
      end
  end.
