(* ===== verification/DnsParser.v ===== *)
(** * Package dnsmessage: Parser, Message and Builder

    Models the incremental [Parser], [Message.Unpack], [Message.AppendPack] and the
    incremental [Builder] of src/dns/dnsmessage/message.go.  A method returns the
    state it leaves also when it fails. *)

From S2P Require Import Prelude DnsMsg DnsBody.

(** ** Sections *)
Inductive section :=
| sectionNotStarted
| sectionHeader
| sectionQuestions
| sectionAnswers
| sectionAuthorities
| sectionAdditionals
| sectionDone.

Definition section_num (s : section) : Z :=
  match s with
  | sectionNotStarted => 0
  | sectionHeader => 1
  | sectionQuestions => 2
  | sectionAnswers => 3
  | sectionAuthorities => 4
  | sectionAdditionals => 5
  | sectionDone => 6
  end.

(** [section++] *)
Definition section_next (s : section) : section :=
  match s with
  | sectionNotStarted => sectionHeader
  | sectionHeader => sectionQuestions
  | sectionQuestions => sectionAnswers
  | sectionAnswers => sectionAuthorities
  | sectionAuthorities => sectionAdditionals
  | sectionAdditionals => sectionDone
  | sectionDone => sectionDone
  end.

Definition sectionNames (s : section) : string :=
  match s with
  | sectionHeader => "header"
  | sectionQuestions => "Question"
  | sectionAnswers => "Answer"
  | sectionAuthorities => "Authority"
  | sectionAdditionals => "Additional"
  | _ => ""
  end%string.

Definition header_count (h : header) (sec : section) : Z :=
  match sec with
  | sectionQuestions => hd_questions h
  | sectionAnswers => hd_answers h
  | sectionAuthorities => hd_authorities h
  | sectionAdditionals => hd_additionals h
  | _ => 0
  end.

(** ** Parser *)
Record Parser := mkParser {
  p_msg : bytes;
  p_header : header;
  p_section : section;
  p_off : Z;
  p_index : Z;
  p_resHeaderValid : bool;
  p_resHeader : ResourceHeader
}.

Definition zeroHeader : header := mkHdr 0 0 0 0 0 0.
Definition zeroRH : ResourceHeader := mkRH zeroName 0 0 0 0.
Definition zeroParser : Parser := mkParser [] zeroHeader sectionNotStarted 0 0 false zeroRH.

Definition set_pos (off index : Z) (p : Parser) : Parser :=
  mkParser (p_msg p) (p_header p) (p_section p) off index (p_resHeaderValid p) (p_resHeader p).
Definition set_valid (v : bool) (p : Parser) : Parser :=
  mkParser (p_msg p) (p_header p) (p_section p) (p_off p) (p_index p) v (p_resHeader p).
Definition set_section (s : section) (index : Z) (p : Parser) : Parser :=
  mkParser (p_msg p) (p_header p) s (p_off p) index (p_resHeaderValid p) (p_resHeader p).

(** The parser is reset when it was used before. *)
Definition Start (msg : bytes) : Parser * result Header :=
  match nested "unpacking header" (header_unpack msg 0) with
  | Ret (h, off) => (mkParser msg h sectionQuestions off 0 false zeroRH, Ret (header_header h))
  | Fail e => (mkParser msg zeroHeader sectionNotStarted 0 0 false zeroRH, Fail e)
  | Panic => (zeroParser, Panic)
  end.

Definition checkAdvance (p : Parser) (sec : section) : Parser * result unit :=
  if section_num (p_section p) <? section_num sec then (p, Fail ErrNotStarted)
  else if section_num (p_section p) >? section_num sec then (p, Fail ErrSectionDone)
  else
    let p := set_valid false p in
    if p_index p =? header_count (p_header p) sec
    then (set_section (section_next (p_section p)) 0 p, Fail ErrSectionDone)
    else (p, Ret tt).

Definition resourceHeader (p : Parser) (sec : section) : Parser * result ResourceHeader :=
  if p_resHeaderValid p then (p, Ret (p_resHeader p))
  else
    match checkAdvance p sec with
    | (p, Fail e) => (p, Fail e)
    | (p, Panic) => (p, Panic)
    | (p, Ret _) =>
        match ResourceHeader_unpack zeroRH (p_msg p) (p_off p) with
        | Fail e => (p, Fail e)
        | Panic => (p, Panic)
        | Ret (hdr, off) =>
            (mkParser (p_msg p) (p_header p) (p_section p) off (p_index p) true hdr, Ret hdr)
        end
    end.

Definition Parser_resource (p : Parser) (sec : section) : Parser * result Resource :=
  match resourceHeader p sec with
  | (p, Fail e) => (p, Fail e)
  | (p, Panic) => (p, Panic)
  | (p, Ret hdr) =>
      let p := set_valid false p in
      match unpackResourceBody (p_msg p) (p_off p) hdr with
      | Fail e => (p, Fail (nestedError ("unpacking " +:+ sectionNames sec) e))
      | Panic => (p, Panic)
      | Ret (body, off) => (set_pos off (p_index p + 1) p, Ret (mkResource hdr (Some body)))
      end
  end.

Definition Parser_skipResource (p : Parser) (sec : section) : Parser * result unit :=
  if p_resHeaderValid p then
    let newOff := p_off p + rh_Length (p_resHeader p) in
    if newOff >? zlen (p_msg p) then (p, Fail errResourceLen)
    else (set_valid false (set_pos newOff (p_index p + 1) p), Ret tt)
  else
    match checkAdvance p sec with
    | (p, Fail e) => (p, Fail e)
    | (p, Panic) => (p, Panic)
    | (p, Ret _) =>
        match skipResource (p_msg p) (p_off p) with
        | Fail e => (p, Fail (nestedError ("skipping: " +:+ sectionNames sec) e))
        | Panic => (p, Panic)
        | Ret off => (set_pos off (p_index p + 1) p, Ret tt)
        end
    end.

Definition unpackQuestion (msg : bytes) (off : Z) : result (Question * Z) :=
  let! x := nested "unpacking Question.Name" (Name_unpack zeroName msg off) in let '(name, off) := (x : Name * Z) in
  let! x := nested "unpacking Question.Type" (unpackType msg off) in let '(typ, off) := (x : Z * Z) in
  let! x := nested "unpacking Question.Class" (unpackClass msg off) in let '(class, off) := (x : Z * Z) in
  Ret (mkQ name typ class, off).

Definition Parser_Question (p : Parser) : Parser * result Question :=
  match checkAdvance p sectionQuestions with
  | (p, Fail e) => (p, Fail e)
  | (p, Panic) => (p, Panic)
  | (p, Ret _) =>
      match unpackQuestion (p_msg p) (p_off p) with
      | Fail e => (p, Fail e)
      | Panic => (p, Panic)
      | Ret (q, off) => (set_pos off (p_index p + 1) p, Ret q)
      end
  end.

Definition skipQuestion (msg : bytes) (off : Z) : result Z :=
  let! off := nested "skipping Question Name" (skipName msg off) in
  let! off := nested "skipping Question Type" (skipType msg off) in
  nested "skipping Question Class" (skipClass msg off).

Definition SkipQuestion (p : Parser) : Parser * result unit :=
  match checkAdvance p sectionQuestions with
  | (p, Fail e) => (p, Fail e)
  | (p, Panic) => (p, Panic)
  | (p, Ret _) =>
      match skipQuestion (p_msg p) (p_off p) with
      | Fail e => (p, Fail e)
      | Panic => (p, Panic)
      | Ret off => (set_pos off (p_index p + 1) p, Ret tt)
      end
  end.

(** The loops of [AllQuestions], [AllAnswers] and so on, and of [SkipAllQuestions]
    and so on: every round but the last advances the index towards the count. *)
Fixpoint allLoop {A} (fuel : nat) (one : Parser -> Parser * result A) (p : Parser) (acc : list A)
  : option (Parser * result (list A)) :=
  match fuel with
  | O => None
  | S fuel =>
      match one p with
      | (p, Ret a) => allLoop fuel one p (acc ++ [a])
      | (p, Fail ErrSectionDone) => Some (p, Ret acc)
      | (p, Fail e) => Some (p, Fail e)
      | (p, Panic) => Some (p, Panic)
      end
  end.

Definition allFuel (p : Parser) : nat := (Z.to_nat maxUint16 + 3)%nat.

Definition all {A} (one : Parser -> Parser * result A) (p : Parser) : Parser * result (list A) :=
  match allLoop (allFuel p) one p [] with None => (p, Panic) | Some r => r end.

Definition Answer (p : Parser) := Parser_resource p sectionAnswers.
Definition Authority (p : Parser) := Parser_resource p sectionAuthorities.
Definition Additional (p : Parser) := Parser_resource p sectionAdditionals.
Definition AnswerHeader (p : Parser) := resourceHeader p sectionAnswers.
Definition AuthorityHeader (p : Parser) := resourceHeader p sectionAuthorities.
Definition AdditionalHeader (p : Parser) := resourceHeader p sectionAdditionals.
Definition SkipAnswer (p : Parser) := Parser_skipResource p sectionAnswers.
Definition SkipAuthority (p : Parser) := Parser_skipResource p sectionAuthorities.
Definition SkipAdditional (p : Parser) := Parser_skipResource p sectionAdditionals.

Definition AllQuestions (p : Parser) := all Parser_Question p.
Definition AllAnswers (p : Parser) := all Answer p.
Definition AllAuthorities (p : Parser) := all Authority p.
Definition AllAdditionals (p : Parser) := all Additional p.

Definition SkipAllQuestions (p : Parser) := all SkipQuestion p.
Definition SkipAllAnswers (p : Parser) := all SkipAnswer p.
Definition SkipAllAuthorities (p : Parser) := all SkipAuthority p.
Definition SkipAllAdditionals (p : Parser) := all SkipAdditional p.

(** The methods named after a resource type, after one of the header methods. *)
Definition typedResource (p : Parser) (t : option Z) (unpack : bytes -> Z -> result ResourceBody) : Parser * result ResourceBody :=
  if negb (p_resHeaderValid p) || match t with Some t => negb (rh_Type (p_resHeader p) =? t) | None => false end
  then (p, Fail ErrNotStarted)
  else
    match unpack (p_msg p) (p_off p) with
    | Fail e => (p, Fail e)
    | Panic => (p, Panic)
    | Ret r => (set_valid false (set_pos (p_off p + rh_Length (p_resHeader p)) (p_index p + 1) p), Ret r)
    end.

Definition Parser_CNAMEResource (p : Parser) := typedResource p (Some TypeCNAME) unpackCNAMEResource.
Definition Parser_MXResource (p : Parser) := typedResource p (Some TypeMX) unpackMXResource.
Definition Parser_NSResource (p : Parser) := typedResource p (Some TypeNS) unpackNSResource.
Definition Parser_PTRResource (p : Parser) := typedResource p (Some TypePTR) unpackPTRResource.
Definition Parser_SOAResource (p : Parser) := typedResource p (Some TypeSOA) unpackSOAResource.
Definition Parser_TXTResource (p : Parser) :=
  typedResource p (Some TypeTXT) (fun msg off => unpackTXTResource msg off (rh_Length (p_resHeader p))).
Definition Parser_SRVResource (p : Parser) := typedResource p (Some TypeSRV) unpackSRVResource.
Definition Parser_AResource (p : Parser) := typedResource p (Some TypeA) unpackAResource.
Definition Parser_AAAAResource (p : Parser) := typedResource p (Some TypeAAAA) unpackAAAAResource.
Definition Parser_OPTResource (p : Parser) :=
  typedResource p (Some TypeOPT) (fun msg off => unpackOPTResource msg off (rh_Length (p_resHeader p))).
Definition Parser_UnknownResource (p : Parser) :=
  typedResource p None (fun msg off => unpackUnknownResource (rh_Type (p_resHeader p)) msg off (rh_Length (p_resHeader p))).

(** ** Message *)
Record Message := mkMessage {
  m_Header : Header;
  m_Questions : list Question;
  m_Answers : list Resource;
  m_Authorities : list Resource;
  m_Additionals : list Resource
}.

Definition Unpack (msg : bytes) : result Message :=
  let '(p, r) := Start msg in
  let! h := r in
  let '(p, r) := AllQuestions p in
  let! questions := r in
  let '(p, r) := AllAnswers p in
  let! answers := r in
  let '(p, r) := AllAuthorities p in
  let! authorities := r in
  let '(p, r) := AllAdditionals p in
  let! additionals := r in
  Ret (mkMessage h questions answers authorities additionals).

(** The loops of [AppendPack] over a section; a resource is updated as it is packed. *)
Fixpoint packAll {A B} (pack : A -> bytes -> compression_map -> Z -> compression_map * result (B * bytes)) (what : string)
    (l : list A) (msg : bytes) (compression : compression_map) (compressionOff : Z)
  : compression_map * result (list B * bytes) :=
  match l with
  | [] => (compression, Ret ([], msg))
  | a :: l =>
      match pack a msg compression compressionOff with
      | (compression, Ret (b, msg)) =>
          let '(compression, r) := packAll pack what l msg compression compressionOff in
          (compression, let! p := r in let '(bs, msg) := (p : list B * bytes) in Ret (b :: bs, msg))
      | (compression, Fail e) => (compression, Fail (nestedError what e))
      | (compression, Panic) => (compression, Panic)
      end
  end.

Definition Question_pack' (q : Question) (msg : bytes) (compression : compression_map) (compressionOff : Z)
  : compression_map * result (Question * bytes) :=
  let '(compression, r) := Question_pack q msg compression compressionOff in
  (compression, let! msg := r in Ret (q, msg)).

(** The message as [AppendPack] leaves it, and the extended buffer. *)
Definition AppendPack (m : Message) (b : bytes) : result (Message * bytes) :=
  if zlen (m_Questions m) >? maxUint16 then Fail errTooManyQuestions
  else if zlen (m_Answers m) >? maxUint16 then Fail errTooManyAnswers
  else if zlen (m_Authorities m) >? maxUint16 then Fail errTooManyAuthorities
  else if zlen (m_Additionals m) >? maxUint16 then Fail errTooManyAdditionals
  else
    let '(id, bits) := Header_pack (m_Header m) in
    let h := mkHdr id bits (u16 (zlen (m_Questions m))) (u16 (zlen (m_Answers m)))
               (u16 (zlen (m_Authorities m))) (u16 (zlen (m_Additionals m))) in
    let compressionOff := zlen b in
    let msg := header_pack h b in
    let '(c, r) := packAll Question_pack' "packing Question" (m_Questions m) msg (Some ∅) compressionOff in
    let! p := r in let '(qs, msg) := (p : list Question * bytes) in
    let '(c, r) := packAll Resource_pack "packing Answer" (m_Answers m) msg c compressionOff in
    let! p := r in let '(as_, msg) := (p : list Resource * bytes) in
    let '(c, r) := packAll Resource_pack "packing Authority" (m_Authorities m) msg c compressionOff in
    let! p := r in let '(ns, msg) := (p : list Resource * bytes) in
    let '(c, r) := packAll Resource_pack "packing Additional" (m_Additionals m) msg c compressionOff in
    let! p := r in let '(ar, msg) := (p : list Resource * bytes) in
    Ret (mkMessage (m_Header m) qs as_ ns ar, msg).

Definition Pack (m : Message) : result (Message * bytes) := AppendPack m [].

(** ** Builder *)
Record Builder := mkBuilder {
  b_msg : bytes;
  b_section : section;
  b_header : header;
  b_start : Z;
  b_compression : compression_map
}.

Definition NewBuilder (buf : bytes) (h : Header) : Builder :=
  let '(id, bits) := Header_pack h in
  mkBuilder (buf ++ replicate 12 0) sectionHeader (mkHdr id bits 0 0 0 0) (zlen buf) None.

Definition EnableCompression (b : Builder) : Builder :=
  mkBuilder (b_msg b) (b_section b) (b_header b) (b_start b) (Some ∅).

Definition startCheck (b : Builder) (s : section) : result unit :=
  if section_num (b_section b) <=? section_num sectionNotStarted then Fail ErrNotStarted
  else if section_num (b_section b) >? section_num s then Fail ErrSectionDone
  else Ret tt.

Definition startSection (b : Builder) (s : section) : Builder * result unit :=
  match startCheck b s with
  | Ret _ => (mkBuilder (b_msg b) s (b_header b) (b_start b) (b_compression b), Ret tt)
  | r => (b, r)
  end.

Definition StartQuestions (b : Builder) := startSection b sectionQuestions.
Definition StartAnswers (b : Builder) := startSection b sectionAnswers.
Definition StartAuthorities (b : Builder) := startSection b sectionAuthorities.
Definition StartAdditionals (b : Builder) := startSection b sectionAdditionals.

(** The header with the count of the section increased; a section without a count
    is a nil pointer. *)
Definition incrementSectionCount (h : header) (s : section) : result header :=
  match s with
  | sectionQuestions =>
      if hd_questions h =? maxUint16 then Fail errTooManyQuestions
      else Ret (mkHdr (hd_id h) (hd_bits h) (hd_questions h + 1) (hd_answers h) (hd_authorities h) (hd_additionals h))
  | sectionAnswers =>
      if hd_answers h =? maxUint16 then Fail errTooManyAnswers
      else Ret (mkHdr (hd_id h) (hd_bits h) (hd_questions h) (hd_answers h + 1) (hd_authorities h) (hd_additionals h))
  | sectionAuthorities =>
      if hd_authorities h =? maxUint16 then Fail errTooManyAuthorities
      else Ret (mkHdr (hd_id h) (hd_bits h) (hd_questions h) (hd_answers h) (hd_authorities h + 1) (hd_additionals h))
  | sectionAdditionals =>
      if hd_additionals h =? maxUint16 then Fail errTooManyAdditionals
      else Ret (mkHdr (hd_id h) (hd_bits h) (hd_questions h) (hd_answers h) (hd_authorities h) (hd_additionals h + 1))
  | _ => Panic
  end.

Definition set_compression (c : compression_map) (b : Builder) : Builder :=
  mkBuilder (b_msg b) (b_section b) (b_header b) (b_start b) c.

(** What a method does with a record that was packed: count it and keep the bytes. *)
Definition commit (b : Builder) (r : result bytes) : Builder * result unit :=
  match r with
  | Fail e => (b, Fail e)
  | Panic => (b, Panic)
  | Ret msg =>
      match incrementSectionCount (b_header b) (b_section b) with
      | Fail e => (b, Fail e)
      | Panic => (b, Panic)
      | Ret h => (mkBuilder msg (b_section b) h (b_start b) (b_compression b), Ret tt)
      end
  end.

Definition Builder_Question (b : Builder) (q : Question) : Builder * result unit :=
  if section_num (b_section b) <? section_num sectionQuestions then (b, Fail ErrNotStarted)
  else if section_num (b_section b) >? section_num sectionQuestions then (b, Fail ErrSectionDone)
  else
    let '(c, r) := Question_pack q (b_msg b) (b_compression b) (b_start b) in
    commit (set_compression c b) r.

Definition checkResourceSection (b : Builder) : result unit :=
  if section_num (b_section b) <? section_num sectionAnswers then Fail ErrNotStarted
  else if section_num (b_section b) >? section_num sectionAdditionals then Fail ErrSectionDone
  else Ret tt.

(** The methods named after a resource type; [what] names the body in errors. *)
Definition addResource (what : string) (b : Builder) (h : ResourceHeader) (body : ResourceBody) : Builder * result unit :=
  match checkResourceSection b with
  | Fail e => (b, Fail e)
  | Panic => (b, Panic)
  | Ret _ =>
      let h := set_Type (realType body) h in
      let '(c, r) := ResourceHeader_pack h (b_msg b) (b_compression b) (b_start b) in
      match nested "ResourceHeader" r with
      | Fail e => (set_compression c b, Fail e)
      | Panic => (set_compression c b, Panic)
      | Ret (msg, lenOff) =>
          let preLen := zlen msg in
          let '(c, r) := body_pack body msg c (b_start b) in
          commit (set_compression c b)
            (let! msg := nested what r in
             let! p := fixLen h msg lenOff preLen in
             Ret (snd (p : ResourceHeader * bytes)))
      end
  end.

Definition Builder_CNAMEResource (b : Builder) (h : ResourceHeader) (CNAME : Name) :=
  addResource "CNAMEResource body" b h (CNAMEResource CNAME).
Definition Builder_MXResource (b : Builder) (h : ResourceHeader) (r : MXResource) := addResource "MXResource body" b h (MX r).
Definition Builder_NSResource (b : Builder) (h : ResourceHeader) (NS : Name) := addResource "NSResource body" b h (NSResource NS).
Definition Builder_PTRResource (b : Builder) (h : ResourceHeader) (PTR : Name) :=
  addResource "PTRResource body" b h (PTRResource PTR).
Definition Builder_SOAResource (b : Builder) (h : ResourceHeader) (r : SOAResource) := addResource "SOAResource body" b h (SOA r).
Definition Builder_TXTResource (b : Builder) (h : ResourceHeader) (TXT : list bytes) :=
  addResource "TXTResource body" b h (TXTResource TXT).
Definition Builder_SRVResource (b : Builder) (h : ResourceHeader) (r : SRVResource) := addResource "SRVResource body" b h (SRV r).
Definition Builder_AResource (b : Builder) (h : ResourceHeader) (A : bytes) := addResource "AResource body" b h (AResource A).
Definition Builder_AAAAResource (b : Builder) (h : ResourceHeader) (AAAA : bytes) :=
  addResource "AAAAResource body" b h (AAAAResource AAAA).
Definition Builder_OPTResource (b : Builder) (h : ResourceHeader) (Options : list Option) :=
  addResource "OPTResource body" b h (OPTResource Options).
Definition Builder_UnknownResource (b : Builder) (h : ResourceHeader) (r : UnknownResource) :=
  addResource "UnknownResource body" b h (Unknown r).

(** The header overwrites the twelve bytes reserved by [NewBuilder]. *)
Definition Finish (b : Builder) : Builder * result bytes :=
  if section_num (b_section b) <? section_num sectionHeader then (b, Fail ErrNotStarted)
  else
    let b := mkBuilder (b_msg b) sectionDone (b_header b) (b_start b) (b_compression b) in
    let start := Z.to_nat (b_start b) in
    let msg := take start (b_msg b) ++ header_pack (b_header b) [] ++ drop (start + 12) (b_msg b) in
    (mkBuilder msg sectionDone (b_header b) (b_start b) (b_compression b), Ret msg).
