(* ===== verification/DnsName.v ===== *)
(** * Package dnsmessage: the theory of names

    Names as lists of labels, what a message says at an offset, and the invariant of the
    compression map: what [Name.pack] writes, compressed or not, [Name.unpack] reads. *)

From S2P Require Import Prelude DnsMsg.

(** ** Labels and text *)
Definition label_ok (l : bytes) : Prop := 1 <= zlen l <= 63 /\ 46 ∉ l.

Definition text (ls : list bytes) : bytes := flat_map (fun l => l ++ [46]) ls.

(** The name with the labels [ls]; the root has none. *)
Definition name_of (ls : list bytes) : Name :=
  match ls with
  | [] => mkName (46 :: replicate 254 0) 1
  | _ => mkName (text ls ++ replicate (255 - length (text ls)) 0) (zlen (text ls))
  end.

Definition labels_ok (ls : list bytes) : Prop := Forall label_ok ls /\ zlen (text ls) <= 255.

Lemma text_cons l ls : text (l :: ls) = l ++ 46 :: text ls.
Proof. unfold text. simpl. by rewrite <- app_assoc. Qed.

(** [NewName] of the text gives the name. *)
Lemma NewName_text ls : labels_ok ls -> ls <> [] -> NewName (text ls) = Ret (name_of ls).
Proof.
  intros [_ Hlen] Hne. unfold NewName, nameLen. rewrite Z.gtb_ltb. destruct (Z.ltb_spec 255 (zlen (text ls))); [lia|].
  rewrite u8_id by (unfold is_u8; pose proof (zlen_nonneg (text ls)); lia). destruct ls as [|l ls]; [done|].
  unfold name_of. by rewrite drop_replicate.
Qed.

(** The text and the padding determine the labels. *)
Lemma text_last ls : ls <> [] -> exists t, text ls = t ++ [46].
Proof.
  intros Hne. destruct (exists_last Hne) as (ls' & l & ->). exists (text ls' ++ l).
  unfold text. rewrite flat_map_app. simpl. by rewrite app_nil_r, app_assoc.
Qed.

Lemma pad_inj (t1 t2 : bytes) z1 z2 :
  t1 ++ 46 :: replicate z1 0 = t2 ++ 46 :: replicate z2 0 -> t1 = t2 /\ z1 = z2.
Proof.
  intros E. assert (z1 = z2) as Hz.
  { apply (f_equal (@reverse Z)) in E. rewrite !reverse_app, !reverse_cons, !reverse_replicate, <- !app_assoc in E.
    simpl in E. clear -E. revert z2 E. induction z1 as [|z1 IH]; intros [|z2] E; simpl in E; try done.
    f_equal. apply IH. by injection E. }
  subst. split; [|done]. by apply app_inv_tail in E.
Qed.

Lemma split_dot (l1 l2 t1 t2 : bytes) : 46 ∉ l1 -> 46 ∉ l2 -> l1 ++ 46 :: t1 = l2 ++ 46 :: t2 -> l1 = l2 /\ t1 = t2.
Proof.
  revert l2. induction l1 as [|b l1 IH]; intros [|c l2] H1 H2 E; simpl in E; simplify_eq; try done.
  - exfalso. apply H2. by left.
  - exfalso. apply H1. by left.
  - destruct (IH l2) as [-> ->]; [by intros H; apply H1; right|by intros H; apply H2; right|done|done].
Qed.

Lemma text_inj ls1 : forall ls2, Forall label_ok ls1 -> Forall label_ok ls2 -> text ls1 = text ls2 -> ls1 = ls2.
Proof.
  induction ls1 as [|l1 ls1 IH]; intros [|l2 ls2] H1 H2 E; try done.
  - rewrite text_cons in E. by destruct l2.
  - rewrite text_cons in E. by destruct l1.
  - rewrite !text_cons in E. apply Forall_cons in H1 as [[_ Hd1] H1], H2 as [[_ Hd2] H2].
    apply split_dot in E as [-> E]; [|done..]. f_equal. by apply IH.
Qed.

Lemma key_inj ls1 ls2 z1 z2 :
  Forall label_ok ls1 -> Forall label_ok ls2 -> ls1 <> [] -> ls2 <> [] ->
  text ls1 ++ replicate z1 0 = text ls2 ++ replicate z2 0 -> ls1 = ls2.
Proof.
  intros H1 H2 Hn1 Hn2 E. destruct (text_last ls1 Hn1) as [t1 E1], (text_last ls2 Hn2) as [t2 E2].
  rewrite E1, E2, <- !app_assoc in E. simpl in E. apply pad_inj in E as [-> _]. apply text_inj; [done..|congruence].
Qed.

(** ** Packing as a function of the labels

    [z] is the number of bytes of the array after the name: the keys of the
    compression map contain them. *)
Fixpoint packLabels (z : nat) (c : compression_map) (coff len : Z) (ls : list bytes) : compression_map * bytes :=
  match ls with
  | [] => (c, [0])
  | l :: ls' =>
      let lit c := let '(c', bs) := packLabels z c coff (len + 1 + zlen l) ls' in (c', zlen l :: l ++ bs) in
      match c with
      | None => lit None
      | Some m =>
          let key := text ls ++ replicate z 0 in
          match m !! key with
          | Some ptr => (c, [u8 (Z.lor (Z.shiftr ptr 8) 0xC0); u8 ptr])
          | None => lit (Some (if len <=? 0x3FFF then <[key := len - coff]> m else m))
          end
      end
  end.

Lemma zget_app_r {A} (l1 l2 : list A) i : i = zlen l1 -> zget (l1 ++ l2) i = head l2.
Proof.
  intros ->. unfold zget, zlen. destruct (Z.leb_spec 0 (Z.of_nat (length l1))); [|lia].
  rewrite Nat2Z.id, lookup_app_r by lia. rewrite Nat.sub_diag. by destruct l2.
Qed.

Lemma zget_app_l {A} (l1 l2 : list A) i : i < zlen l1 -> zget (l1 ++ l2) i = zget l1 i.
Proof. intros H. unfold zget, zlen in *. destruct (Z.leb_spec 0 i); [|done]. rewrite lookup_app_l by lia. done. Qed.

Lemma zslice_mid {A} (pre mid post : list A) lo hi :
  lo = zlen pre -> hi = zlen pre + zlen mid -> zslice (pre ++ mid ++ post) lo hi = Some mid.
Proof.
  intros -> ->. unfold zslice. rewrite !zlen_app.
  pose proof (zlen_nonneg pre). pose proof (zlen_nonneg mid). pose proof (zlen_nonneg post).
  destruct (Z.leb_spec 0 (zlen pre)), (Z.leb_spec (zlen pre) (zlen pre + zlen mid)),
    (Z.leb_spec (zlen pre + zlen mid) (zlen pre + (zlen mid + zlen post))); try lia.
  simpl. replace (zlen pre + zlen mid - zlen pre) with (zlen mid) by lia. unfold zlen.
  rewrite !Nat2Z.id, drop_app_length, take_app_length. done.
Qed.

(** The loop inside a segment, whose first bytes [l1] it has passed. *)
Lemma packLoop_segment len coff (pre rest : bytes) l2 : forall l1 k msg c,
  l1 <> [] -> 46 ∉ l1 -> 46 ∉ l2 -> zlen l1 + zlen l2 <= 63 ->
  let n := mkName (pre ++ l1 ++ l2 ++ 46 :: rest) len in
  packLoop (length l2 + S k) n coff (zlen pre + zlen l1) (zlen pre) msg c =
  packLoop k n coff (zlen pre + zlen l1 + zlen l2 + 1) (zlen pre + zlen l1 + zlen l2 + 1)
    (msg ++ (zlen l1 + zlen l2) :: l1 ++ l2) c.
Proof.
  induction l2 as [|b l2 IH]; intros l1 k msg c Hne H1 H2 Hlen n.
  - cbn [length Nat.add packLoop]. unfold n at 1. cbn [n_Data]. rewrite !app_assoc, app_nil_r.
    rewrite zget_app_r by (rewrite zlen_app; lia). cbn [head]. rewrite Z.eqb_refl.
    change (zlen []) with 0. rewrite !Z.add_0_r. replace (zlen pre + zlen l1 - zlen pre) with (zlen l1) by lia.
    change (zlen (@nil Z)) with 0 in Hlen. change (Z.shiftl 1 6) with 64. rewrite Z.geb_leb.
    destruct (Z.leb_spec 64 (zlen l1)); [lia|].
    assert (zlen l1 <> 0) by (destruct l1; [done|]; rewrite zlen_cons; pose proof (zlen_nonneg l1); lia).
    destruct (Z.eqb_spec (zlen l1) 0); [done|]. unfold n at 1. cbn [n_Data]. simpl app at 1.
    rewrite (zslice_mid pre l1 (46 :: rest)) by done. pose proof (zlen_nonneg l1).
    rewrite u8_id by (unfold is_u8; lia). by rewrite app_nil_r.
  - cbn [length Nat.add packLoop]. unfold n at 1. cbn [n_Data].
    replace (pre ++ l1 ++ (b :: l2) ++ 46 :: rest) with ((pre ++ l1) ++ b :: l2 ++ 46 :: rest) by (by rewrite <- app_assoc).
    rewrite (zget_app_r (pre ++ l1)) by (rewrite zlen_app; lia). cbn [head].
    destruct (Z.eqb_spec b 46) as [->|Hb]; [exfalso; apply H2; by left|].
    assert (zlen l1 <> 0) as Hl1 by (destruct l1; [done|]; rewrite zlen_cons; pose proof (zlen_nonneg l1); lia).
    pose proof (zlen_nonneg l1). pose proof (zlen_nonneg pre).
    assert ((zlen pre + zlen l1 =? 0) || bool_decide (zget (n_Data n) (zlen pre + zlen l1 - 1) = Some 46) = false) as Hnostart.
    { destruct (Z.eqb_spec (zlen pre + zlen l1) 0); [lia|]. cbn [orb]. apply bool_decide_eq_false_2. intros E.
      destruct (exists_last Hne) as (l1' & x & ->).
      assert (n_Data n = (pre ++ l1') ++ x :: (b :: l2) ++ 46 :: rest) as Ed by (unfold n; cbn [n_Data]; by rewrite <- !app_assoc).
      rewrite Ed, zlen_app in E. change (zlen [x]) with 1 in E.
      rewrite (zget_app_r (pre ++ l1')) in E by (rewrite zlen_app; lia). injection E as ->. apply H1, elem_of_app. right. by apply list_elem_of_singleton. }
    specialize (IH (l1 ++ [b]) k msg c).
    assert (mkName (pre ++ (l1 ++ [b]) ++ l2 ++ 46 :: rest) len = n) as En by (unfold n; by rewrite <- !app_assoc).
    rewrite zlen_cons in Hlen. rewrite zlen_cons. cbv zeta in IH. rewrite En, zlen_app in IH. change (zlen [b]) with 1 in IH.
    rewrite <- app_assoc in IH. simpl app in IH.
    replace (zlen pre + (zlen l1 + 1)) with (zlen pre + zlen l1 + 1) in IH by lia.
    replace (zlen l1 + 1 + zlen l2) with (zlen l1 + (zlen l2 + 1)) in IH by lia.
    replace (zlen pre + zlen l1 + 1 + zlen l2 + 1) with (zlen pre + zlen l1 + (zlen l2 + 1) + 1) in IH by lia.
    assert (46 ∉ l1 ++ [b]) as Hd1.
    { intros [Hin|Hin%list_elem_of_singleton]%elem_of_app; congruence. }
    assert (46 ∉ l2) as Hd2 by (intros Hin; apply H2; by right).
    destruct c as [m|]; [rewrite Hnostart|]; apply IH; try done; try lia; by destruct l1.
Qed.

Lemma packLoop_labels len coff z ls : forall pre k msg c,
  Forall label_ok ls -> (pre = [] \/ last pre = Some 46) -> k = length (text ls) ->
  let n := mkName (pre ++ text ls ++ replicate z 0) len in
  packLoop k n coff (zlen pre) (zlen pre) msg c =
  let '(c', bs) := packLabels z c coff (zlen msg) ls in (c', Ret (msg ++ bs)).
Proof.
  induction ls as [|l ls IH]; intros pre k msg c Hls Hpre Hk n; [subst; done|].
  apply Forall_cons in Hls as [[Hlen Hdot] Hls]. rewrite text_cons in Hk; unfold n; clear n; rewrite text_cons; set (n := mkName _ len).
  destruct l as [|b l]; [change (zlen []) with 0 in Hlen; lia|]. rewrite zlen_cons in Hlen. pose proof (zlen_nonneg l).
  assert ((46 ∉ l) /\ b <> 46) as [Hdl Hb].
  { split; [intros Hin; apply Hdot; by right|intros ->; apply Hdot; by left]. }
  set (rest := text ls ++ replicate z 0) in *.
  assert (pre ++ ((b :: l) ++ 46 :: text ls) ++ replicate z 0 = pre ++ [b] ++ l ++ 46 :: rest) as En
    by (unfold rest; by rewrite <- !app_assoc).
  assert (n = mkName (pre ++ [b] ++ l ++ 46 :: rest) len) as En' by (unfold n; by rewrite En).
  assert (forall c, packLoop (length l + S (length (text ls))) n coff (zlen pre + 1) (zlen pre) msg c =
    let '(c', bs) := packLabels z c coff (zlen msg + 1 + zlen (b :: l)) ls in (c', Ret (msg ++ zlen (b :: l) :: (b :: l) ++ bs))) as Hlit.
  { intros c0. rewrite En'. change 1 with (zlen [b]) at 1. rewrite (packLoop_segment len coff pre rest l [b]);
      [|done| |done|change (zlen [b]) with 1; lia].
    2: { intros Hin%list_elem_of_singleton. congruence. }
    change (zlen [b]) with 1. set (pre' := pre ++ (b :: l) ++ [46]).
    replace (zlen pre + 1 + zlen l + 1) with (zlen pre') by (unfold pre'; rewrite !zlen_app, zlen_cons; change (zlen [46]) with 1; lia).
    replace (pre ++ [b] ++ l ++ 46 :: rest) with (pre' ++ text ls ++ replicate z 0) by (unfold pre', rest; by rewrite <- !app_assoc).
    rewrite (IH pre' _ _ _ Hls); [|right; unfold pre'; by rewrite app_assoc, last_snoc|done].
    rewrite zlen_app, !zlen_cons, zlen_app. change (zlen [b]) with 1.
    replace (zlen msg + (1 + zlen l + 1)) with (zlen msg + 1 + (zlen l + 1)) by lia.
    destruct (packLabels _ _ _ _ _) as [c' bs]. rewrite <- app_assoc. simpl. do 4 f_equal. lia. }
  assert (k = S (length l + S (length (text ls)))) as -> by (subst k; rewrite length_app; simpl; lia).
  cbn [packLoop packLabels]. rewrite En' at 1. cbn [n_Data]. rewrite zget_app_r by done. cbn [head app].
  destruct (Z.eqb_spec b 46); [done|]. destruct c as [m|]; [|rewrite Hlit; by destruct (packLabels _ _ _ _ _)].
  assert ((zlen pre =? 0) || bool_decide (zget (n_Data n) (zlen pre - 1) = Some 46) = true) as ->.
  { destruct Hpre as [->|Hlast]; [done|]. apply orb_true_iff. right. apply bool_decide_eq_true_2. rewrite En'. cbn [n_Data].
    apply last_Some in Hlast as [pre' ->]. rewrite zlen_app, <- app_assoc. change (zlen [46]) with 1.
    by rewrite zget_app_r by lia. }
  assert (drop (Z.to_nat (zlen pre)) (n_Data n) = text ((b :: l) :: ls) ++ replicate z 0) as ->.
  { unfold n. cbn [n_Data]. unfold zlen. rewrite Nat2Z.id, drop_app_length, text_cons. done. }
  destruct (m !! (text ((b :: l) :: ls) ++ replicate z 0)); [done|]. rewrite Hlit. by destruct (packLabels _ _ _ _ _).
Qed.

(** What [Name.pack] does on a well-formed name. *)
Lemma Name_pack_labels ls msg c coff : labels_ok ls ->
  Name_pack (name_of ls) msg c coff =
  let '(c', bs) := packLabels (255 - length (text ls)) c coff (zlen msg) ls in (c', Ret (msg ++ bs)).
Proof.
  intros [Hls Hlen]. destruct ls as [|l ls]; [done|]. set (ls0 := l :: ls) in *.
  destruct (text_last ls0 ltac:(done)) as [t Et].
  unfold Name_pack. change (name_of ls0) with (mkName (text ls0 ++ replicate (255 - length (text ls0)) 0) (zlen (text ls0))).
  cbn [n_Length n_Data]. pose proof (zlen_nonneg t).
  assert (zlen (text ls0) = zlen t + 1) as Ezl by (rewrite Et, zlen_app; done).
  destruct (Z.eqb_spec (zlen (text ls0)) 0); [lia|].
  rewrite zget_app_l by lia. rewrite Et at 1. rewrite zget_app_r by lia. cbn [head]. cbn [Z.eqb Pos.eqb negb].
  assert (bool_decide (zget (text ls0 ++ replicate (255 - length (text ls0)) 0) 0 = Some 46) && (zlen (text ls0) =? 1) = false) as ->.
  { unfold ls0. rewrite text_cons. apply Forall_cons in Hls as [[Hl Hd] _].
    destruct l as [|b l]; [change (zlen []) with 0 in Hl; lia|].
    rewrite bool_decide_eq_false_2; [done|]. intros E. injection E as ->. apply Hd. by left. }
  apply (packLoop_labels (zlen (text ls0)) coff (255 - length (text ls0)) ls0 []); [done|by left|unfold zlen; by rewrite Nat2Z.id].
Qed.

(** ** What a message says at an offset

    [reads m off ls n e]: at [off] the message [m] holds the name with the labels [ls],
    reached over [n] pointers; its own bytes end at [e]. *)
Inductive reads (m : bytes) : Z -> list bytes -> nat -> Z -> Prop :=
| reads_end off : zget m off = Some 0 -> reads m off [] 0 (off + 1)
| reads_label off l ls n e :
    1 <= zlen l <= 63 -> zget m off = Some (zlen l) -> zslice m (off + 1) (off + 1 + zlen l) = Some l ->
    reads m (off + 1 + zlen l) ls n e -> reads m off (l :: ls) n e
| reads_ptr off ptr ls n e :
    0 <= ptr <= 0x3FFF -> zget m off = Some (u8 (Z.lor (Z.shiftr ptr 8) 0xC0)) -> zget m (off + 1) = Some (u8 ptr) ->
    reads m ptr ls n e -> reads m off ls (S n) (off + 2).

Lemma zget_app_mono {A} (l1 l2 : list A) i x : zget l1 i = Some x -> zget (l1 ++ l2) i = Some x.
Proof. intros E. rewrite zget_app_l; [done|]. apply zget_Some in E. lia. Qed.

Lemma zslice_app_mono {A} (l1 l2 : list A) lo hi s : zslice l1 lo hi = Some s -> zslice (l1 ++ l2) lo hi = Some s.
Proof.
  unfold zslice. rewrite zlen_app. pose proof (zlen_nonneg l2).
  destruct (Z.leb_spec 0 lo), (Z.leb_spec lo hi), (Z.leb_spec hi (zlen l1)), (Z.leb_spec hi (zlen l1 + zlen l2));
    simpl; try done; try lia. unfold zlen in *. intros [= <-]. f_equal.
  rewrite drop_app_le by lia. rewrite take_app_le; [done|]. rewrite length_drop. lia.
Qed.

Lemma zslice_range {A} (l : list A) lo hi s : zslice l lo hi = Some s -> 0 <= lo <= hi /\ hi <= zlen l /\ zlen s = hi - lo.
Proof.
  unfold zslice. destruct (Z.leb_spec 0 lo), (Z.leb_spec lo hi), (Z.leb_spec hi (zlen l)); try done.
  cbn [andb]. unfold zlen in *. intros [= <-]. rewrite length_take, length_drop. lia.
Qed.

Lemma reads_app m m' off ls n e : reads m off ls n e -> reads (m ++ m') off ls n e.
Proof.
  induction 1; [apply reads_end|eapply reads_label|eapply reads_ptr]; eauto using zget_app_mono, zslice_app_mono.
Qed.

Lemma reads_nonneg m off ls n e : reads m off ls n e -> 0 <= off < zlen m.
Proof. destruct 1; by eapply zget_Some. Qed.

(** The number of rounds it takes to read a name. *)
Lemma reads_rounds m off ls n e : reads m off ls n e ->
  Z.of_nat (length ls) + Z.of_nat n + 1 <= Z.of_nat n * (zlen m + 1) + (zlen m - off).
Proof.
  induction 1 as [off H|off l ls n e Hl H Hs Hr IH|off ptr ls n e Hp H H' Hr IH]; apply zget_Some in H;
    cbn [length]; lia.
Qed.

(** The two bytes of a pointer. *)
Lemma ptr_bytes ptr : 0 <= ptr <= 0x3FFF ->
  let c := u8 (Z.lor (Z.shiftr ptr 8) 0xC0) in
  Z.land c 0xC0 = 0xC0 /\ Z.lor (Z.shiftl (Z.lxor c 0xC0) 8) (u8 ptr) = ptr.
Proof.
  intros Hp c. pose proof (Z.div_mod ptr 256 ltac:(lia)). pose proof (Z.mod_pos_bound ptr 256 ltac:(lia)).
  pose proof (forallb_range (fun k => (Z.land (u8 (Z.lor k 0xC0)) 0xC0 =? 0xC0) && (Z.lxor (u8 (Z.lor k 0xC0)) 0xC0 =? k)) 64
    ltac:(vm_compute; reflexivity) (ptr / 256) ltac:(lia)) as Hb. cbv beta in Hb. apply andb_true_iff in Hb as [Hand Hxor].
  apply Z.eqb_eq in Hand, Hxor. unfold c. rewrite Z.shiftr_div_pow2 by lia. change (2 ^ 8) with 256.
  split; [done|]. rewrite Hxor. change (Z.lor (Z.shiftl (ptr / 256) 8) (u8 ptr)) with (be16 (ptr / 256) (u8 ptr)).
  rewrite be16_val by apply u8_range. unfold u8. change (2 ^ 8) with 256. lia.
Qed.

Lemma label_byte k : 0 <= k <= 63 -> Z.land k 0xC0 = 0.
Proof.
  intros Hk. apply Z.eqb_eq. apply (forallb_range (fun k => Z.land k 0xC0 =? 0) 64); [vm_compute; reflexivity|lia].
Qed.

(** [unpackLoop] on a name that is there. *)
Lemma unpackLoop_reads m off ls n e : reads m off ls n e -> forall fuel ac newOff ptr name,
  (length ls + n + 1 <= fuel)%nat -> 0 <= ptr -> ptr + Z.of_nat n <= 10 -> (ac = true \/ n = 0%nat) ->
  exists currOff' newOff', unpackLoop fuel m ac off newOff ptr name = Some (Ret (name ++ text ls, currOff', newOff', ptr + Z.of_nat n)) /\
    (0 < ptr -> newOff' = newOff) /\ (ptr = 0 -> if decide (n = 0)%nat then currOff' = e else newOff' = e).
Proof.
  induction 1 as [off H|off l ls n e Hl H Hs Hr IH|off ptr0 ls n e Hp H H' Hr IH];
    intros [|fuel] ac newOff ptr name Hfuel Hptr Hten Hac; cbn [length] in Hfuel; try lia; cbn [unpackLoop];
    pose proof (zget_Some _ _ _ H); destruct (Z.geb_spec off (zlen m)); try lia; rewrite H.
  - cbn [Z.land Z.eqb]. eexists _, newOff. rewrite app_nil_r, Z.add_0_r. split; [done|]. by rewrite decide_True by done.
  - rewrite label_byte by lia. cbn [Z.eqb]. destruct (Z.eqb_spec (zlen l) 0); [lia|].
    pose proof (zslice_range _ _ _ _ Hs). destruct (Z.gtb_spec (off + 1 + zlen l) (zlen m)); [lia|]. rewrite Hs.
    destruct (IH fuel ac newOff ptr (name ++ l ++ [46])) as (c' & n' & E & Hn1 & Hn2); [lia..|done|].
    exists c', n'. rewrite E, text_cons, <- !app_assoc. done.
  - destruct (ptr_bytes ptr0 Hp) as [Hand Hval]. rewrite Hand. cbn [Z.eqb Pos.eqb].
    destruct Hac as [->|]; [cbn [negb]|lia]. pose proof (zget_Some _ _ _ H').
    destruct (Z.geb_spec (off + 1) (zlen m)); [lia|]. rewrite H', Hval.
    destruct (Z.gtb_spec (ptr + 1) 10); [lia|].
    destruct (IH fuel true (if ptr =? 0 then off + 1 + 1 else newOff) (ptr + 1) name) as (c' & n' & E & Hn1 & Hn2); [lia..|by left|].
    exists c', n'. rewrite E. split; [do 3 f_equal; lia|]. split.
    + intros. rewrite Hn1 by lia. by destruct (Z.eqb_spec ptr 0); [lia|].
    + intros ->. rewrite Hn1 by lia. destruct (decide (S n = 0)%nat); [done|]. cbn [Z.eqb]. lia.
Qed.

(** ** The compression map

    An entry is a name that the message, taken from [compressionOff], holds; over
    fewer pointers than the name has labels. *)
Definition clookup (c : compression_map) (key : bytes) : option Z := c ≫= fun m => m !! key.

Definition entry_ok (m key : bytes) (ptr : Z) : Prop :=
  exists ls z n e, key = text ls ++ replicate z 0 /\ ls <> [] /\ Forall label_ok ls /\ 0 <= ptr <= 0x3FFF /\
    reads m ptr ls n e /\ (n < length ls)%nat.

Definition comp_upto (K : nat) (m : bytes) (c : compression_map) : Prop :=
  forall key ptr, (length key <= K)%nat -> clookup c key = Some ptr -> entry_ok m key ptr.

Definition comp_ok (m : bytes) (c : compression_map) : Prop :=
  forall key ptr, clookup c key = Some ptr -> entry_ok m key ptr.

Lemma entry_ok_app m m' key ptr : entry_ok m key ptr -> entry_ok (m ++ m') key ptr.
Proof. intros (ls & z & n & e & ?). exists ls, z, n, e. intuition auto using reads_app. Qed.

Lemma comp_ok_app m m' c : comp_ok m c -> comp_ok (m ++ m') c.
Proof. intros H key ptr Hk. by apply entry_ok_app, H. Qed.

Lemma comp_ok_empty m : comp_ok m (Some ∅).
Proof. intros key ptr H. by cbn in H. Qed.

(** What [packLabels] does from the map [c]: the bytes [bs] say the name, entries up to
    its length are right, and entries with longer keys are not touched. *)
Definition packed (z : nat) (c : compression_map) (ls : list bytes) (m : bytes) (c' : compression_map) (bs : bytes) : Prop :=
  (exists n, reads (m ++ bs) (zlen m) ls n (zlen m + zlen bs) /\ (n <= length ls)%nat /\ (c = None -> n = 0%nat)) /\
  comp_upto (length (text ls) + z) (m ++ bs) c' /\ zlen bs <= zlen (text ls) + 1 /\
  (forall key, (length (text ls) + z < length key)%nat -> clookup c' key = clookup c key).

(** The map in which the name that starts here may have been entered. *)
Definition entered (key : bytes) (m : bytes) (c c1 : compression_map) : Prop :=
  c1 = c \/ exists c0, c = Some c0 /\ c1 = Some (<[key := zlen m]> c0) /\ zlen m <= 0x3FFF.

Lemma entered_other key m c c1 key' : entered key m c c1 -> key' <> key -> clookup c1 key' = clookup c key'.
Proof. intros [->|(c0 & -> & -> & _)] Hne; [done|]. cbn. by rewrite lookup_insert_ne. Qed.

Lemma packed_literal z c c1 l ls m c' bs : label_ok l -> Forall label_ok ls ->
  comp_upto (length (text (l :: ls)) + z) m c -> entered (text (l :: ls) ++ replicate z 0) m c c1 ->
  packed z c1 ls (m ++ zlen l :: l) c' bs -> packed z c (l :: ls) m c' (zlen l :: l ++ bs).
Proof.
  intros Hlok Hls Hc He ((n & Hr & Hn & Hnil) & Hup & Hbs & Hlong). destruct (Hlok) as [Hlen _].
  set (key0 := text (l :: ls) ++ replicate z 0) in *. set (m1 := m ++ zlen l :: l) in *.
  assert (length key0 = (length (text (l :: ls)) + z)%nat) as Ek by (unfold key0; by rewrite length_app, length_replicate).
  assert (length (text (l :: ls)) = S (length l + length (text ls)))%nat as Et by (rewrite text_cons, length_app; simpl; lia).
  assert (zlen m1 = zlen m + 1 + zlen l) as Em1 by (unfold m1; rewrite zlen_app, zlen_cons; lia).
  assert (m ++ zlen l :: l ++ bs = m1 ++ bs) as Em by (unfold m1; by rewrite <- app_assoc).
  assert (reads (m1 ++ bs) (zlen m) (l :: ls) n (zlen m + zlen (zlen l :: l ++ bs))) as Hread.
  { rewrite zlen_cons, zlen_app. replace (zlen m + (zlen l + zlen bs + 1)) with (zlen m1 + zlen bs) by lia.
    apply reads_label; [done| | |by rewrite <- Em1].
    - rewrite <- Em. by rewrite zget_app_r.
    - unfold m1. replace ((m ++ zlen l :: l) ++ bs) with ((m ++ [zlen l]) ++ l ++ bs) by (by rewrite <- !app_assoc).
      apply zslice_mid; rewrite zlen_app; change (zlen [zlen l]) with 1; lia. }
  unfold packed. rewrite Em. split_and!.
  - exists n. split_and!; [done|cbn [length]; lia|]. intros ->. apply Hnil. by destruct He as [->|(? & ? & _)].
  - intros key ptr Hk Hl. destruct (decide (length key <= length (text ls) + z)%nat) as [|Hgt]; [by apply Hup|].
    rewrite Hlong in Hl by lia. destruct (decide (key = key0)) as [->|Hne].
    + destruct He as [->|(c0 & -> & -> & Hle)].
      * unfold m1. rewrite <- app_assoc. apply entry_ok_app, Hc; [lia|done].
      * cbn in Hl. rewrite lookup_insert_eq in Hl. injection Hl as <-. pose proof (zlen_nonneg m).
        exists (l :: ls), z, n, (zlen m + zlen (zlen l :: l ++ bs)). split_and!; try done; [by constructor|]. cbn [length]. lia.
    + rewrite (entered_other _ _ _ _ _ He) in Hl by done. unfold m1. rewrite <- app_assoc. apply entry_ok_app, Hc; [lia|done].
  - rewrite zlen_cons, zlen_app, text_cons, zlen_app, zlen_cons. lia.
  - intros key Hk. rewrite Hlong by lia. apply (entered_other _ _ _ _ _ He). intros ->. lia.
Qed.

Lemma packLabels_reads z coff ls : forall m c,
  Forall label_ok ls -> comp_upto (length (text ls) + z) m c -> 0 <= coff ->
  let '(c', bs) := packLabels z c coff (coff + zlen m) ls in packed z c ls m c' bs.
Proof.
  induction ls as [|l ls IH]; intros m c Hls Hc Hcoff.
  - cbn [packLabels]. split_and!; [exists 0%nat; split_and!; [|done..]|intros key ptr Hk Hl; by apply entry_ok_app, Hc|done|done].
    apply reads_end. by rewrite zget_app_r.
  - apply Forall_cons in Hls as [Hl Hls]. cbn [packLabels]. set (key0 := text (l :: ls) ++ replicate z 0).
    assert (length key0 = (length (text (l :: ls)) + z)%nat) as Ek by (unfold key0; by rewrite length_app, length_replicate).
    assert (length (text (l :: ls)) = S (length l + length (text ls)))%nat as Et by (rewrite text_cons, length_app; simpl; lia).
    assert (forall c1, entered key0 m c c1 ->
      let '(c', bs) := (let '(c', bs) := packLabels z c1 coff (coff + zlen m + 1 + zlen l) ls in (c', zlen l :: l ++ bs)) in
      packed z c (l :: ls) m c' bs) as Hlit.
    { intros c1 Hc1. assert (coff + zlen m + 1 + zlen l = coff + zlen (m ++ zlen l :: l)) as -> by (rewrite zlen_app, zlen_cons; lia).
      specialize (IH (m ++ zlen l :: l) c1 Hls). destruct (packLabels z c1 coff (coff + zlen (m ++ zlen l :: l)) ls) as [c' bs].
      apply (packed_literal z c c1); [done..|]. apply IH; [|done]. intros key ptr Hk Hp.
      rewrite (entered_other _ _ _ _ _ Hc1) in Hp by (intros ->; lia). apply entry_ok_app, Hc; [lia|done]. }
    destruct c as [c0|]; [|apply Hlit; by left]. fold key0.
    destruct (c0 !! key0) as [ptr|] eqn:El.
    + destruct (Hc key0 ptr) as (ls' & z' & n & e & E & Hne & Hls' & Hptr & Hr & Hn); [lia|done|].
      apply key_inj in E as <-; [|by constructor|done..].
      split_and!; [|intros key p Hk Hp; by apply entry_ok_app, Hc| |done].
      * exists (S n). split_and!; [|lia|done]. apply reads_ptr with ptr e; [done|by rewrite zget_app_r| |by apply reads_app].
        rewrite (cons_middle _ m), app_assoc. rewrite zget_app_r; [done|]. by rewrite zlen_app.
      * rewrite !zlen_cons. change (zlen []) with 0. rewrite text_cons, zlen_app, zlen_cons. pose proof (zlen_nonneg (text ls)).
        destruct Hl as [Hl _]. lia.
    + replace (coff + zlen m - coff) with (zlen m) by lia.
      destruct (Z.leb_spec (coff + zlen m) 0x3FFF); apply Hlit; [right|by left]. exists c0. split_and!; [done..|lia].
Qed.

(** ** Names through [pack] and [unpack] *)
Definition short (ls : list bytes) : Prop := (length ls <= 10)%nat.

Definition name_ok (n : Name) : Prop := exists ls, n = name_of ls /\ labels_ok ls /\ short ls.

(** [f] appends [bs] to any message of [len] bytes. *)
Definition writes (f : bytes -> compression_map -> Z -> compression_map * result bytes) (len : Z)
    (c : compression_map) (coff : Z) (c' : compression_map) (bs : bytes) : Prop :=
  forall b, zlen b = len -> f b c coff = (c', Ret (b ++ bs)).

Lemma writes_det f len c coff c1 bs1 c2 bs2 : 0 <= len ->
  writes f len c coff c1 bs1 -> writes f len c coff c2 bs2 -> c1 = c2 /\ bs1 = bs2.
Proof.
  intros Hlen H1 H2. assert (zlen (replicate (Z.to_nat len) 0) = len) as E by (unfold zlen; rewrite length_replicate; lia).
  specialize (H1 _ E). rewrite (H2 _ E) in H1. injection H1 as -> E'. by apply app_inv_head in E'.
Qed.

Lemma text_nonempty ls : ls <> [] -> text ls <> [].
Proof. intros Hne. destruct (text_last ls Hne) as [t ->]. by destruct t. Qed.

Lemma unpackCompressed_reads m off ls n e ac : reads m off ls n e -> labels_ok ls -> (n <= 10)%nat -> (ac = true \/ n = 0%nat) ->
  unpackCompressed zeroName m off ac = Ret (name_of ls, e).
Proof.
  intros Hr [Hls Hlen] Hn Hac. unfold unpackCompressed.
  destruct (unpackLoop_reads m off ls n e Hr (unpackFuel m) ac off 0 []) as (c' & n' & E & _ & He); [|lia|lia|done|].
  { pose proof (reads_rounds _ _ _ _ _ Hr). pose proof (reads_nonneg _ _ _ _ _ Hr). unfold unpackFuel, zlen in *. nia. }
  rewrite E. cbn [obind app]. specialize (He eq_refl). replace (zlen (n_Data zeroName)) with 255 by done.
  assert ((if 0 + Z.of_nat n =? 0 then c' else n') = e) as Ee.
  { destruct (decide (n = 0)%nat) as [->|]; [done|]. destruct (Z.eqb_spec (0 + Z.of_nat n) 0); [lia|done]. }
  destruct ls as [|l ls].
  - cbn [text flat_map]. change (zlen [46] >? 255) with false. cbv beta iota. rewrite Ee. done.
  - destruct (text (l :: ls)) as [|x t] eqn:Et; [by apply text_nonempty in Et|]. rewrite <- Et in *.
    destruct (Z.gtb_spec (zlen (text (l :: ls))) 255); [lia|]. rewrite Ee. pose proof (zlen_nonneg (text (l :: ls))).
    rewrite u8_id by (unfold is_u8; lia). cbn [n_Data zeroName]. rewrite drop_replicate. done.
Qed.

(** A name is packed and read back. *)
Lemma Name_codec n m c coff : name_ok n -> comp_ok m c -> 0 <= coff -> exists c' bs,
  writes (Name_pack n) (coff + zlen m) c coff c' bs /\ comp_ok (m ++ bs) c' /\ zlen bs <= 256 /\
  (forall post, Name_unpack zeroName (m ++ bs ++ post) (zlen m) = Ret (n, zlen m + zlen bs)) /\
  (c = None -> c' = None /\ forall post, unpackCompressed zeroName (m ++ bs ++ post) (zlen m) false = Ret (n, zlen m + zlen bs)).
Proof.
  intros (ls & -> & Hok & Hshort) Hc Hcoff. destruct (Hok) as [Hls Hlen].
  pose proof (packLabels_reads (255 - length (text ls)) coff ls m c Hls) as H.
  destruct (packLabels (255 - length (text ls)) c coff (coff + zlen m) ls) as [c' bs] eqn:E.
  destruct H as ((n & Hr & Hn & Hnil) & Hup & Hbs & Hlong); [intros key ptr _; apply Hc|done|].
  exists c', bs. unfold short in Hshort. split_and!; [| |lia| |].
  - intros b Eb. rewrite Name_pack_labels, Eb by done. by rewrite E.
  - intros key ptr Hk. destruct (decide (length key <= length (text ls) + (255 - length (text ls)))%nat) as [|Hgt]; [by apply Hup|].
    rewrite Hlong in Hk by lia. by apply entry_ok_app, Hc.
  - intros post. apply unpackCompressed_reads with n; [rewrite app_assoc; by apply reads_app|done|lia|by left].
  - intros ->. split.
    + clear -E. revert E. generalize (255 - length (text ls))%nat. intros z. generalize (coff + zlen m). revert bs.
      induction ls as [|l ls IH]; intros bs len E; cbn [packLabels] in E; [by simplify_eq|].
      destruct (packLabels z None coff _ ls) as [c1 bs1] eqn:E1. injection E as <- _. by eapply IH.
    + intros post. rewrite Hnil in Hr by done.
      apply unpackCompressed_reads with 0%nat; [rewrite app_assoc; by apply reads_app|done|lia|by right].
Qed.
