(* ===== verification/DnsSafe.v ===== *)
(** * Package dnsmessage: arbitrary bytes

    On any bytes the unpackers return, never index out of range, and what they return
    is well typed: integers in their width, names canonical. *)

From S2P Require Import Prelude DnsMsg DnsBody DnsParser DnsName.

(** [r] is not a panic, and a value it returns satisfies [P]. *)
Definition sat {A} (P : A -> Prop) (r : result A) : Prop :=
  match r with Ret a => P a | Fail _ => True | Panic => False end.

Lemma sat_bind {A B} (P : A -> Prop) (Q : B -> Prop) m k :
  sat P m -> (forall a, P a -> sat Q (k a)) -> sat Q (obind m k).
Proof. destruct m; cbn; auto. Qed.

Lemma sat_nested {A} (P : A -> Prop) s r : sat P r -> sat P (nested s r).
Proof. by destruct r. Qed.

Lemma sat_mono {A} (P Q : A -> Prop) r : (forall a, P a -> Q a) -> sat P r -> sat Q r.
Proof. destruct r; cbn; auto. Qed.

(** ** Names *)
Definition name_wf (n : Name) : Prop :=
  length (n_Data n) = 255%nat /\ bytes_ok (n_Data n) /\ 1 <= n_Length n <= 255 /\ zget (n_Data n) (n_Length n - 1) = Some 46.

(** A text of complete labels. *)
Definition dotted (name : bytes) : Prop := bytes_ok name /\ (name = [] \/ last name = Some 46).

Lemma dotted_label name l : dotted name -> bytes_ok l -> dotted (name ++ l ++ [46]).
Proof.
  intros [H _] Hl. split; [|right; by rewrite app_assoc, last_snoc].
  apply Forall_app. split; [done|]. apply Forall_app. split; [done|]. apply List.Forall_cons; [done|apply List.Forall_nil].
Qed.

Lemma bytes_ok_zslice msg lo hi s : bytes_ok msg -> zslice msg lo hi = Some s -> bytes_ok s.
Proof.
  unfold zslice. intros H. destruct ((0 <=? lo) && (lo <=? hi) && (hi <=? zlen msg)); [|done].
  intros [= <-]. by apply Forall_take, Forall_drop.
Qed.

Lemma zslice_in {A} (l : list A) lo hi : 0 <= lo <= hi -> hi <= zlen l -> exists s, zslice l lo hi = Some s.
Proof.
  intros H1 H2. unfold zslice. destruct (Z.leb_spec 0 lo), (Z.leb_spec lo hi), (Z.leb_spec hi (zlen l)); try lia.
  eexists. done.
Qed.

Lemma skipLoop_S fuel msg off c : zget msg off = Some c ->
  skipLoop (S fuel) msg off =
  if Z.land c 0xC0 =? 0 then
    if c =? 0 then Some (Ret (off + 1))
    else if off + 1 + c >? zlen msg then Some (Fail errCalcLen) else skipLoop fuel msg (off + 1 + c)
  else if Z.land c 0xC0 =? 0xC0 then Some (Ret (off + 1 + 1)) else Some (Fail errReserved).
Proof. intros H. cbn [skipLoop]. pose proof (zget_Some _ _ _ H). destruct (Z.geb_spec off (zlen msg)); [lia|]. by rewrite H. Qed.

(** The loop of [unpackCompressed] ends; a name it returns is where [skipName] says. *)
Lemma unpackLoop_total msg ac : bytes_ok msg -> forall fuel currOff newOff ptr name,
  0 <= currOff -> 0 <= ptr <= 10 -> (10 - ptr) * (zlen msg + 1) + Z.max 0 (zlen msg - currOff) + 1 <= Z.of_nat fuel ->
  dotted name -> exists r, unpackLoop fuel msg ac currOff newOff ptr name = Some r /\
    sat (fun '(name', co, no, p) => dotted name' /\ ptr <= p /\ (0 < ptr -> no = newOff) /\
      (ptr = 0 -> let off' := if p =? 0 then co else no in currOff < off' <= zlen msg /\
         forall fuel', zlen msg - currOff < Z.of_nat fuel' -> skipLoop fuel' msg currOff = Some (Ret off'))) r.
Proof.
  intros Hmsg. induction fuel as [|fuel IH]; intros currOff newOff ptr name Hc Hp Hfuel Hname.
  { pose proof (zlen_nonneg msg). nia. }
  cbn [unpackLoop]. destruct (Z.geb_spec currOff (zlen msg)); [by eexists|].
  destruct (zget_in msg currOff) as [c Ec]; [lia|]. rewrite Ec. pose proof (zget_u8 _ _ _ Hmsg Ec) as Hu. unfold is_u8 in Hu.
  destruct (Z.land c 0xC0 =? 0) eqn:E0.
  - destruct (c =? 0) eqn:Ez.
    { eexists. split; [done|]. split_and!; [done|lia|done|]. intros ->. split; [cbn; lia|].
      intros [|f'] Hf; [lia|]. by rewrite (skipLoop_S _ _ _ _ Ec), E0, Ez. }
    apply Z.eqb_neq in Ez as Hz. destruct (Z.gtb_spec (currOff + 1 + c) (zlen msg)) as [|Hle]; [by eexists|].
    destruct (zslice_in msg (currOff + 1) (currOff + 1 + c)) as [s Es]; [lia..|]. rewrite Es.
    destruct (IH (currOff + 1 + c) newOff ptr (name ++ s ++ [46])) as (r & Er & Hr); [lia..| |].
    { apply dotted_label; [done|]. by eapply bytes_ok_zslice. }
    exists r. split; [done|]. eapply sat_mono; [|exact Hr]. intros [[[name' co] no] p] (Hd & Hpp & Hno & Hskip).
    split_and!; [done..|]. intros Hp0. destruct (Hskip Hp0) as [Hoff Hs]. split; [cbv zeta in *; lia|].
    intros [|f'] Hf; [lia|]. rewrite (skipLoop_S _ _ _ _ Ec), E0, Ez.
    destruct (Z.gtb_spec (currOff + 1 + c) (zlen msg)); [lia|]. apply Hs. lia.
  - destruct (Z.land c 0xC0 =? 0xC0) eqn:E1; [|by eexists].
    destruct ac; cbn [negb]; [|by eexists]. destruct (Z.geb_spec (currOff + 1) (zlen msg)); [by eexists|].
    destruct (zget_in msg (currOff + 1)) as [c1 Ec1]; [lia|]. rewrite Ec1.
    pose proof (zget_u8 _ _ _ Hmsg Ec1) as Hu1. unfold is_u8 in Hu1.
    destruct (Z.gtb_spec (ptr + 1) 10); [by eexists|].
    assert (0 <= Z.lor (Z.shiftl (Z.lxor c 0xC0) 8) c1) as Hptr.
    { apply Z.lor_nonneg. split; [|lia]. apply Z.shiftl_nonneg, Z.lxor_nonneg. lia. }
    destruct (IH (Z.lor (Z.shiftl (Z.lxor c 0xC0) 8) c1) (if ptr =? 0 then currOff + 1 + 1 else newOff) (ptr + 1) name)
      as (r & Er & Hr); [lia..|nia|done|].
    exists r. split; [done|]. eapply sat_mono; [|exact Hr]. intros [[[name' co] no] p] (Hd & Hpp & Hno & _).
    rewrite Hno by lia. split_and!; [done|lia| |].
    + intros. by destruct (Z.eqb_spec ptr 0); [lia|].
    + intros ->. cbn [Z.eqb]. destruct (Z.eqb_spec p 0); [lia|]. split; [cbv zeta; lia|].
      intros [|f'] Hf; [lia|]. by rewrite (skipLoop_S _ _ _ _ Ec), E0, E1.
Qed.

(** Unpacking a name is safe, gives a canonical name and ends where skipping it ends. *)
Lemma unpackCompressed_sat msg off ac : bytes_ok msg -> 0 <= off ->
  sat (fun '(n, off') => name_wf n /\ off < off' <= zlen msg /\ skipName msg off = Ret off') (unpackCompressed zeroName msg off ac).
Proof.
  intros Hmsg Hoff. unfold unpackCompressed.
  destruct (unpackLoop_total msg ac Hmsg (unpackFuel msg) off off 0 []) as (r & -> & Hr);
    [done|lia|unfold unpackFuel, zlen; lia|split; [apply List.Forall_nil|by left]|].
  eapply sat_bind; [exact Hr|]. intros [[[name co] no] p] ([Hb Hd] & _ & _ & Hskip).
  destruct (Hskip eq_refl) as [Hrange Hs]. clear Hskip. cbv zeta in *.
  set (name' := match name with [] => [46] | _ => name end).
  assert (bytes_ok name' /\ last name' = Some 46 /\ 1 <= zlen name') as (Hb' & Hl & Hlen).
  { unfold name'. destruct name as [|x name]; [split_and!; [apply List.Forall_cons; [done|apply List.Forall_nil]|done|done]|].
    destruct Hd as [|Hd]; [done|]. split_and!; [done|done|]. rewrite zlen_cons. pose proof (zlen_nonneg name). lia. }
  replace (zlen (n_Data zeroName)) with 255 by done.
  destruct (Z.gtb_spec (zlen name') 255); [done|]. cbn [sat].
  assert (skipName msg off = Ret (if p =? 0 then co else no)) as Hsk.
  { unfold skipName. rewrite Hs; [done|]. unfold zlen. lia. }
  split; [|done]. rewrite u8_id by (unfold is_u8; lia). unfold name_wf. cbn [n_Data n_Length zeroName]. split_and!; try lia.
  - rewrite length_app, length_drop, length_replicate. unfold zlen in *. lia.
  - apply Forall_app. split; [done|]. apply Forall_drop, Forall_replicate. done.
  - apply last_Some in Hl as [t ->]. rewrite zlen_app, <- app_assoc. change (zlen [46]) with 1. by rewrite zget_app_r by lia.
Qed.

(** ** Integers, texts and bytes *)
Lemma index_sat msg i : bytes_ok msg -> 0 <= i < zlen msg -> sat is_u8 (index msg i).
Proof. intros H Hi. unfold index. destruct (zget_in _ _ Hi) as [x E]. rewrite E. by eapply zget_u8. Qed.

Lemma slice_sat msg lo hi : bytes_ok msg -> 0 <= lo <= hi -> hi <= zlen msg ->
  sat (fun s => bytes_ok s /\ zlen s = hi - lo) (slice msg lo hi).
Proof.
  intros H H1 H2. unfold slice. destruct (zslice_in msg lo hi) as [s E]; [done..|]. rewrite E.
  split; [by eapply bytes_ok_zslice|]. apply zslice_range in E. lia.
Qed.

Lemma unpackUint16_sat msg off : bytes_ok msg -> 0 <= off ->
  sat (fun '(v, off') => is_u16 v /\ off' = off + 2 /\ off' <= zlen msg) (unpackUint16 msg off).
Proof.
  intros H Hoff. unfold unpackUint16, uint16Len. destruct (Z.gtb_spec (off + 2) (zlen msg)); [done|].
  eapply sat_bind; [apply index_sat; [done|lia]|]. intros b0 Hb0.
  eapply sat_bind; [apply index_sat; [done|lia]|]. intros b1 Hb1. cbn. split; [by apply be16_range|lia].
Qed.

Lemma unpackUint32_sat msg off : bytes_ok msg -> 0 <= off ->
  sat (fun '(v, off') => is_u32 v /\ off' = off + 4 /\ off' <= zlen msg) (unpackUint32 msg off).
Proof.
  intros H Hoff. unfold unpackUint32, uint32Len. destruct (Z.gtb_spec (off + 4) (zlen msg)); [done|].
  do 4 (eapply sat_bind; [apply index_sat; [done|lia]|]; intros ? ?). cbn. split; [by apply be32_range|lia].
Qed.

Lemma unpackText_sat msg off : bytes_ok msg -> 0 <= off ->
  sat (fun '(t, off') => bytes_ok t /\ zlen t <= 255 /\ off' = off + 1 + zlen t /\ off' <= zlen msg) (unpackText msg off).
Proof.
  intros H Hoff. unfold unpackText. destruct (Z.geb_spec off (zlen msg)); [done|].
  eapply sat_bind; [apply index_sat; [done|lia]|]. intros c Hc. unfold is_u8 in Hc.
  destruct (Z.gtb_spec (off + 1 + c) (zlen msg)); [done|].
  eapply sat_bind; [apply slice_sat; [done|lia..]|]. intros s [Hs Hl]. cbn. split_and!; [done|lia..].
Qed.

Lemma unpackBytes_sat msg off n : bytes_ok msg -> 0 <= off -> 0 <= n ->
  sat (fun '(s, off') => bytes_ok s /\ zlen s = n /\ off' = off + n /\ off' <= zlen msg) (unpackBytes msg off n).
Proof.
  intros H Hoff Hn. unfold unpackBytes. destruct (Z.gtb_spec (off + n) (zlen msg)); [done|].
  eapply sat_bind; [apply slice_sat; [done|lia..]|]. intros s [Hs Hl]. cbn. split_and!; [done|lia..].
Qed.

Lemma Name_unpack_sat msg off : bytes_ok msg -> 0 <= off ->
  sat (fun '(n, off') => name_wf n /\ off < off' <= zlen msg) (Name_unpack zeroName msg off).
Proof. intros. eapply sat_mono; [|by apply unpackCompressed_sat]. intros [n off'] (? & ? & _). done. Qed.

Create HintDb dns.
#[local] Hint Resolve unpackUint16_sat unpackUint32_sat unpackText_sat Name_unpack_sat : dns.

(** One step of an unpacker: the value [x] and the next offset [o]. *)
Ltac unpack_pair x o :=
  eapply sat_bind; [try apply sat_nested; eauto with dns lia|]; intros [x o] (? & ? & ?); cbv beta iota.

(** ** Questions and headers *)
Definition question_wf (q : Question) : Prop := name_wf (q_Name q) /\ is_u16 (q_Type q) /\ is_u16 (q_Class q).

Definition hdr_wf (h : header) : Prop :=
  is_u16 (hd_id h) /\ is_u16 (hd_bits h) /\ is_u16 (hd_questions h) /\ is_u16 (hd_answers h) /\
  is_u16 (hd_authorities h) /\ is_u16 (hd_additionals h).

Definition rh_wf (h : ResourceHeader) : Prop :=
  name_wf (rh_Name h) /\ is_u16 (rh_Type h) /\ is_u16 (rh_Class h) /\ is_u32 (rh_TTL h) /\ is_u16 (rh_Length h).

Lemma header_unpack_sat msg : bytes_ok msg -> sat (fun '(h, off') => hdr_wf h /\ 0 <= off') (header_unpack msg 0).
Proof.
  intros H. unfold header_unpack.
  unpack_pair x1 o1. unpack_pair x2 o2.
  unpack_pair x3 o3. unpack_pair x4 o4.
  unpack_pair x5 o5. unpack_pair x6 o6.
  cbn. split; [done|lia].
Qed.

Lemma ResourceHeader_unpack_sat msg off : bytes_ok msg -> 0 <= off ->
  sat (fun '(h, off') => rh_wf h /\ off < off' <= zlen msg) (ResourceHeader_unpack zeroRH msg off).
Proof.
  intros H Hoff. unfold ResourceHeader_unpack, unpackType, unpackClass.
  unpack_pair x1 o1. unpack_pair x2 o2.
  unpack_pair x3 o3. unpack_pair x4 o4.
  unpack_pair x5 o5. cbn. split; [done|lia].
Qed.

Lemma unpackQuestion_sat msg off : bytes_ok msg -> 0 <= off ->
  sat (fun '(q, off') => question_wf q /\ 0 <= off') (unpackQuestion msg off).
Proof.
  intros H Hoff. unfold unpackQuestion, unpackType, unpackClass.
  unpack_pair x1 o1. unpack_pair x2 o2.
  unpack_pair x3 o3. cbn. split; [done|lia].
Qed.

(** ** Resource bodies *)
Definition knownTypes : list Z :=
  [TypeA; TypeNS; TypeCNAME; TypeSOA; TypePTR; TypeMX; TypeTXT; TypeAAAA; TypeSRV; TypeOPT].

Definition text_wf (t : bytes) : Prop := bytes_ok t /\ zlen t <= 255.
Definition option_wf (o : Option) : Prop := is_u16 (o_Code o) /\ bytes_ok (o_Data o) /\ is_u16 (zlen (o_Data o)).

Definition body_wf (r : ResourceBody) : Prop :=
  match r with
  | AResource a => bytes_ok a /\ zlen a = 4
  | AAAAResource a => bytes_ok a /\ zlen a = 16
  | NSResource n | CNAMEResource n | PTRResource n => name_wf n
  | SOA r => name_wf (soa_NS r) /\ name_wf (soa_MBox r) /\ is_u32 (soa_Serial r) /\ is_u32 (soa_Refresh r) /\
             is_u32 (soa_Retry r) /\ is_u32 (soa_Expire r) /\ is_u32 (soa_MinTTL r)
  | MX r => is_u16 (mx_Pref r) /\ name_wf (mx_MX r)
  | TXTResource l => Forall text_wf l
  | SRV r => is_u16 (srv_Priority r) /\ is_u16 (srv_Weight r) /\ is_u16 (srv_Port r) /\ name_wf (srv_Target r)
  | OPTResource l => Forall option_wf l
  | Unknown r => is_u16 (un_Type r) /\ (un_Type r ∉ knownTypes) /\ bytes_ok (un_Data r) /\ is_u16 (zlen (un_Data r))
  end.

(** The body a typed unpacker gives. *)
Definition body_as (t : Z) (r : ResourceBody) : Prop := body_wf r /\ realType r = t.

Lemma unpackNameResource_sat msg off : bytes_ok msg -> 0 <= off -> sat name_wf (unpackNameResource msg off).
Proof. intros. unfold unpackNameResource. unpack_pair n o. done. Qed.

#[local] Hint Resolve unpackNameResource_sat : dns.

Section Bodies.
Context (msg : bytes) (off : Z) (Hmsg : bytes_ok msg) (Hoff : 0 <= off).

Lemma unpackNSResource_sat : sat (body_as TypeNS) (unpackNSResource msg off).
Proof. eapply sat_bind; [eauto with dns|]. intros n H. done. Qed.
Lemma unpackCNAMEResource_sat : sat (body_as TypeCNAME) (unpackCNAMEResource msg off).
Proof. eapply sat_bind; [eauto with dns|]. intros n H. done. Qed.
Lemma unpackPTRResource_sat : sat (body_as TypePTR) (unpackPTRResource msg off).
Proof. eapply sat_bind; [eauto with dns|]. intros n H. done. Qed.

Lemma unpackMXResource_sat : sat (body_as TypeMX) (unpackMXResource msg off).
Proof.
  unfold unpackMXResource. unpack_pair x1 o1.
  eapply sat_bind; [apply sat_nested; eauto with dns lia|]. intros n Hn. done.
Qed.

Lemma unpackSOAResource_sat : sat (body_as TypeSOA) (unpackSOAResource msg off).
Proof.
  unfold unpackSOAResource. unpack_pair x1 o1. unpack_pair x2 o2. unpack_pair x3 o3. unpack_pair x4 o4.
  unpack_pair x5 o5. unpack_pair x6 o6. unpack_pair x7 o7. done.
Qed.

Lemma unpackSRVResource_sat : sat (body_as TypeSRV) (unpackSRVResource msg off).
Proof.
  unfold unpackSRVResource. unpack_pair x1 o1. unpack_pair x2 o2. unpack_pair x3 o3.
  eapply sat_bind; [apply sat_nested, unpackCompressed_sat; [done|lia]|]. intros [n o] (Hn & _). done.
Qed.

Lemma unpackAResource_sat : sat (body_as TypeA) (unpackAResource msg off).
Proof. eapply sat_bind; [by apply unpackBytes_sat|]. intros [s o] (? & ? & _). done. Qed.
Lemma unpackAAAAResource_sat : sat (body_as TypeAAAA) (unpackAAAAResource msg off).
Proof. eapply sat_bind; [by apply unpackBytes_sat|]. intros [s o] (? & ? & _). done. Qed.

Lemma unpackUnknownResource_sat t length : is_u16 t -> is_u16 length -> t ∉ knownTypes ->
  sat (body_as t) (unpackUnknownResource t msg off length).
Proof.
  intros Ht Hl Hk. eapply sat_bind; [apply unpackBytes_sat; [done..|unfold is_u16 in Hl; lia]|].
  intros [s o] (Hs & <- & _). done.
Qed.
End Bodies.

Lemma unpackTXTLoop_total msg length : bytes_ok msg -> is_u16 length -> forall fuel off n txts,
  0 <= off -> 0 <= n <= length -> length - n <= Z.of_nat fuel -> Forall text_wf txts ->
  exists r, unpackTXTLoop fuel msg off n length txts = Some r /\ sat (Forall text_wf) r.
Proof.
  intros Hmsg Hlen. unfold is_u16 in Hlen. induction fuel as [|fuel IH]; intros off n txts Hoff Hn Hf Ht; cbn [unpackTXTLoop];
    destruct (Z.ltb_spec n length); [lia|by eexists| |by eexists].
  pose proof (sat_nested _ "text" _ (unpackText_sat msg off Hmsg Hoff)) as Hs.
  destruct (nested "text" (unpackText msg off)) as [[t o]| |]; [|by eexists|done].
  destruct Hs as (Hb & Hl & -> & _). pose proof (zlen_nonneg t).
  rewrite (u16_id (zlen t)), (u16_id (zlen t + 1)), (u16_id (length - n)) by (unfold is_u16; lia).
  destruct (Z.ltb_spec (length - n) (zlen t + 1)); [by eexists|]. rewrite u16_id by (unfold is_u16; lia).
  apply IH; [lia..|]. apply Forall_app. split; [done|]. apply List.Forall_cons; [done|apply List.Forall_nil].
Qed.

Lemma unpackTXTResource_sat msg off length : bytes_ok msg -> 0 <= off -> is_u16 length ->
  sat (body_as TypeTXT) (unpackTXTResource msg off length).
Proof.
  intros Hmsg Hoff Hl. unfold unpackTXTResource.
  destruct (unpackTXTLoop_total msg length Hmsg Hl (Z.to_nat length) off 0 []) as (r & -> & Hr); [unfold is_u16 in Hl; lia..|done|].
  eapply sat_bind; [exact Hr|]. intros l H. done.
Qed.

Lemma unpackOPTLoop_total msg limit : bytes_ok msg -> forall fuel off opts,
  0 <= off -> limit - off <= Z.of_nat fuel -> Forall option_wf opts ->
  exists r, unpackOPTLoop fuel msg off limit opts = Some r /\ sat (Forall option_wf) r.
Proof.
  intros Hmsg. induction fuel as [|fuel IH]; intros off opts Hoff Hf Ho; cbn [unpackOPTLoop];
    destruct (Z.ltb_spec off limit); [lia|by eexists| |by eexists].
  pose proof (sat_nested _ "Code" _ (unpackUint16_sat msg off Hmsg Hoff)) as Hs.
  destruct (nested "Code" (unpackUint16 msg off)) as [[code o]| |]; [|by eexists|done]. destruct Hs as (Hc & -> & _).
  pose proof (sat_nested _ "Data" _ (unpackUint16_sat msg (off + 2) Hmsg ltac:(lia))) as Hs.
  destruct (nested "Data" (unpackUint16 msg (off + 2))) as [[l o]| |]; [|by eexists|done]. destruct Hs as (Hl & -> & Hle).
  destruct (zslice_in msg (off + 2 + 2) (zlen msg)) as [rest Er]; [lia..|]. rewrite Er.
  pose proof (bytes_ok_zslice _ _ _ _ Hmsg Er) as Hrest. unfold is_u16 in *.
  destruct (Z.eqb_spec (Z.min l (zlen rest)) l); cbn [negb]; [|by eexists].
  apply IH; [lia..|]. apply Forall_app. split; [done|]. apply List.Forall_cons; [|apply List.Forall_nil].
  unfold option_wf. cbn [o_Code o_Data]. split_and!; [done|by apply Forall_take|].
  unfold is_u16, zlen in *. rewrite length_take. lia.
Qed.

Lemma unpackOPTResource_sat msg off length : bytes_ok msg -> 0 <= off -> is_u16 length ->
  sat (body_as TypeOPT) (unpackOPTResource msg off length).
Proof.
  intros Hmsg Hoff Hl. unfold unpackOPTResource.
  destruct (unpackOPTLoop_total msg (off + length) Hmsg (Z.to_nat length) off []) as (r & -> & Hr); [done|unfold is_u16 in Hl; lia|done|].
  eapply sat_bind; [exact Hr|]. intros l H. done.
Qed.

Lemma unpackResourceBody_sat msg off hdr : bytes_ok msg -> 0 <= off -> rh_wf hdr ->
  sat (fun '(r, off') => body_as (rh_Type hdr) r /\ off' = off + rh_Length hdr) (unpackResourceBody msg off hdr).
Proof.
  intros Hmsg Hoff (_ & Ht & _ & _ & Hl). unfold unpackResourceBody.
  eapply (sat_bind (body_as (rh_Type hdr))); [|intros r Hr; done].
  repeat (match goal with |- context [?t =? ?u] => destruct (Z.eqb_spec t u) as [->|?] end);
    apply sat_nested; auto using unpackAResource_sat, unpackNSResource_sat, unpackCNAMEResource_sat, unpackSOAResource_sat,
      unpackPTRResource_sat, unpackMXResource_sat, unpackTXTResource_sat, unpackAAAAResource_sat, unpackSRVResource_sat,
      unpackOPTResource_sat.
  apply unpackUnknownResource_sat; [done..|]. unfold knownTypes. rewrite !not_elem_of_cons. split_and!; try done. apply not_elem_of_nil.
Qed.

(** ** The parser

    What holds of a parser between calls: the index never passes the section's count,
    and a resource header that was parsed belongs to a resource not yet counted. *)
Definition current_count (p : Parser) : Z := header_count (p_header p) (p_section p).

Definition pinv (p : Parser) : Prop :=
  bytes_ok (p_msg p) /\ hdr_wf (p_header p) /\ 0 <= p_off p /\ 0 <= p_index p <= current_count p /\
  (p_resHeaderValid p = true -> rh_wf (p_resHeader p) /\ p_index p < current_count p).

Lemma count_range h sec : hdr_wf h -> is_u16 (header_count h sec).
Proof. intros (? & ? & ? & ? & ? & ?). by destruct sec. Qed.

(** A method that parses one entry of the section, or fails. *)
Definition counts {A} (P : A -> Prop) (one : Parser -> Parser * result A) : Prop :=
  forall p, pinv p -> let '(p', r) := one p in
    pinv p' /\ sat P r /\ (forall a, r = Ret a -> current_count p' = current_count p /\ p_index p' = p_index p + 1).

Lemma checkAdvance_spec p sec : pinv p -> let '(p', r) := checkAdvance p sec in
  pinv p' /\ r <> Panic /\
  (r = Ret tt -> p_resHeaderValid p' = false /\ current_count p' = current_count p /\ p_index p' = p_index p /\ p_index p < current_count p).
Proof.
  intros (Hm & Hh & Ho & Hi & Hv). unfold checkAdvance.
  destruct (section_num (p_section p) <? section_num sec) eqn:E1; [done|].
  destruct (section_num (p_section p) >? section_num sec) eqn:E2; [done|]. breflect.
  assert (p_section p = sec) as Es by (destruct (p_section p), sec; cbn in *; done || lia).
  assert (current_count p = header_count (p_header p) sec) as Ec by (unfold current_count; by rewrite Es).
  cbn [set_valid p_index p_header]. destruct (Z.eqb_spec (p_index p) (header_count (p_header p) sec)).
  - split_and!; [|done..]. unfold pinv, current_count. cbn. split_and!; try done.
    by apply (count_range (p_header p) (section_next (p_section p))).
  - split_and!; [|done|intros _; split_and!; [done..|lia]]. unfold pinv, current_count in *. cbn. done.
Qed.

(** Moving on to the next entry. *)
Lemma pinv_advance p off' : pinv p -> p_resHeaderValid p = false -> p_index p < current_count p -> 0 <= off' ->
  pinv (set_pos off' (p_index p + 1) p).
Proof.
  intros (Hm & Hh & Ho & Hi & Hv) Hf Hlt Hoff. unfold pinv, current_count in *. cbn. rewrite Hf. split_and!; done || lia.
Qed.

Lemma counts_advance {A} (P : A -> Prop) sec (parse : Parser -> result (A * Z)) :
  (forall p, pinv p -> sat (fun '(a, off') => P a /\ 0 <= off') (parse p)) ->
  counts P (fun p => match checkAdvance p sec with
                     | (p, Fail e) => (p, Fail e)
                     | (p, Panic) => (p, Panic)
                     | (p, Ret _) => match parse p with
                                     | Fail e => (p, Fail e)
                                     | Panic => (p, Panic)
                                     | Ret (a, off) => (set_pos off (p_index p + 1) p, Ret a)
                                     end
                     end).
Proof.
  intros Hparse p Hp. pose proof (checkAdvance_spec p sec Hp) as H.
  destruct (checkAdvance p sec) as [p1 [[]| |]]; destruct H as (Hp1 & Hn & Hret); [|done|done].
  destruct (Hret eq_refl) as (Hv & Hc & Hi & Hlt). specialize (Hparse p1 Hp1).
  destruct (parse p1) as [[a off]| |]; [|done|done]. destruct Hparse as [Ha Hoff]. split_and!; [|done|].
  - apply pinv_advance; [done..|lia|done].
  - intros _ _. unfold current_count in *. cbn. split; [done|lia].
Qed.

Lemma Parser_Question_counts : counts question_wf Parser_Question.
Proof.
  apply (counts_advance question_wf sectionQuestions (fun p => unpackQuestion (p_msg p) (p_off p))).
  intros p (Hm & _ & Ho & _). by apply unpackQuestion_sat.
Qed.

Lemma skipName_sat msg off : bytes_ok msg -> 0 <= off -> sat (fun off' => 0 <= off') (skipName msg off).
Proof.
  intros Hmsg Hoff. unfold skipName.
  assert (forall fuel o, 0 <= o -> Z.max 0 (zlen msg - o) < Z.of_nat fuel ->
    exists r, skipLoop fuel msg o = Some r /\ sat (fun off' => 0 <= off') r) as H.
  { induction fuel as [|fuel IH]; intros o Ho Hf; [lia|]. destruct (Z.ltb_spec o (zlen msg)) as [Hlt|Hge].
    - destruct (zget_in msg o) as [c Ec]; [lia|]. rewrite (skipLoop_S _ _ _ _ Ec).
      pose proof (zget_u8 _ _ _ Hmsg Ec) as Hu. unfold is_u8 in Hu.
      destruct (_ =? 0); [|destruct (_ =? _); eexists; (split; [done|cbn; lia || done])].
      destruct (Z.eqb_spec c 0); [eexists; split; [done|cbn; lia]|].
      destruct (_ >? _); [by eexists|]. apply IH; lia.
    - cbn [skipLoop]. destruct (Z.geb_spec o (zlen msg)); [by eexists|lia]. }
  destruct (H (S (length msg)) off) as (r & -> & Hr); [done|unfold zlen; lia|done].
Qed.

Lemma counts_ext {A} (P : A -> Prop) one one' : (forall p, one p = one' p) -> counts P one' -> counts P one.
Proof. intros E H p Hp. rewrite E. by apply H. Qed.

Lemma skipUint16_sat msg off : 0 <= off -> sat (fun off' => 0 <= off') (skipUint16 msg off).
Proof. unfold skipUint16, uint16Len. intros. destruct (_ >? _); [done|]. cbn. lia. Qed.

Lemma skipUint32_sat msg off : 0 <= off -> sat (fun off' => 0 <= off') (skipUint32 msg off).
Proof. unfold skipUint32, uint32Len. intros. destruct (_ >? _); [done|]. cbn. lia. Qed.

Lemma skipQuestion_sat msg off : bytes_ok msg -> 0 <= off -> sat (fun off' => 0 <= off') (skipQuestion msg off).
Proof.
  intros Hm Ho. unfold skipQuestion, skipType, skipClass. eapply sat_bind; [by apply sat_nested, skipName_sat|]. intros o1 H1.
  eapply sat_bind; [by apply sat_nested, skipUint16_sat|]. intros o2 H2. by apply sat_nested, skipUint16_sat.
Qed.

Lemma skipResource_sat msg off : bytes_ok msg -> 0 <= off -> sat (fun off' => 0 <= off') (skipResource msg off).
Proof.
  intros Hm Ho. unfold skipResource, skipType, skipClass. eapply sat_bind; [by apply sat_nested, skipName_sat|]. intros o1 H1.
  eapply sat_bind; [by apply sat_nested, skipUint16_sat|]. intros o2 H2.
  eapply sat_bind; [by apply sat_nested, skipUint16_sat|]. intros o3 H3.
  eapply sat_bind; [by apply sat_nested, skipUint32_sat|]. intros o4 H4.
  eapply sat_bind; [by apply sat_nested, unpackUint16_sat|]. intros [l o5] (Hl & -> & _). unfold is_u16 in Hl.
  cbv beta in *. destruct (_ >? _); [done|]. cbn. lia.
Qed.

Lemma SkipQuestion_counts : counts (fun _ => True) SkipQuestion.
Proof.
  eapply counts_ext; [|apply (counts_advance (fun _ : unit => True) sectionQuestions
    (fun p => let! off := skipQuestion (p_msg p) (p_off p) in Ret (tt, off)))].
  - intros p. unfold SkipQuestion. destruct (checkAdvance p _) as [p1 [| |]]; try done. by destruct (skipQuestion _ _).
  - intros p (Hm & _ & Ho & _). eapply sat_bind; [by apply skipQuestion_sat|]. done.
Qed.

Lemma resourceHeader_spec p sec : pinv p -> let '(p', r) := resourceHeader p sec in
  pinv p' /\ sat rh_wf r /\
  (forall h, r = Ret h -> p_resHeaderValid p' = true /\ p_resHeader p' = h /\ current_count p' = current_count p /\ p_index p' = p_index p).
Proof.
  intros Hp. unfold resourceHeader. destruct (p_resHeaderValid p) eqn:Ev.
  { split_and!; [done|by apply Hp|]. by intros h [= <-]. }
  pose proof (checkAdvance_spec p sec Hp) as H. destruct (checkAdvance p sec) as [p1 [[]| |]]; destruct H as (Hp1 & Hn & Hret); [|done|done].
  destruct (Hret eq_refl) as (Hv & Hc & Hi & Hlt). destruct (Hp1) as (Hm & Hh & Ho & Hx & _).
  pose proof (ResourceHeader_unpack_sat (p_msg p1) (p_off p1) Hm Ho) as Hs.
  destruct (ResourceHeader_unpack zeroRH (p_msg p1) (p_off p1)) as [[h off]| |]; [|done|done]. destruct Hs as [Hwf Hoff].
  split_and!; [|done|by intros ? [= <-]]. unfold pinv, current_count in *. cbn. split_and!; try done; try lia. intros _. split; [done|lia].
Qed.

(** The end of a resource whose header was parsed. *)
Lemma pinv_resource p off' : pinv p -> p_resHeaderValid p = true -> 0 <= off' ->
  pinv (set_pos off' (p_index p + 1) (set_valid false p)).
Proof.
  intros Hp Hv Hoff. destruct (Hp) as (Hm & Hh & Ho & Hi & Hr). apply (pinv_advance (set_valid false p)); [|done| |done].
  - unfold pinv, current_count in *. cbn. done.
  - by apply Hr.
Qed.

Definition resource_wf (r : Resource) : Prop :=
  rh_wf (r_Header r) /\ exists b, r_Body r = Some b /\ body_as (rh_Type (r_Header r)) b.

Lemma Parser_resource_counts sec : counts resource_wf (fun p => Parser_resource p sec).
Proof.
  intros p Hp. unfold Parser_resource. pose proof (resourceHeader_spec p sec Hp) as H.
  destruct (resourceHeader p sec) as [p1 [h| |]]; destruct H as (Hp1 & Hs & Hret); [|done|done].
  destruct (Hret h eq_refl) as (Hv & Eh & Hc & Hi). destruct (Hp1) as (Hm & Hh & Ho & Hx & _). cbn [set_valid p_msg p_off].
  pose proof (unpackResourceBody_sat (p_msg p1) (p_off p1) h Hm Ho Hs) as Hb. destruct (Hs) as (_ & _ & _ & _ & Hl). unfold is_u16 in Hl.
  destruct (unpackResourceBody (p_msg p1) (p_off p1) h) as [[b off]| |]; [|split_and!; try done|done].
  destruct Hb as [Hb ->]. split_and!; [|split; [done|by exists b]|].
  - apply (pinv_resource p1); [done..|lia].
  - intros _ _. unfold current_count in *. cbn. split; [done|lia].
Qed.

Lemma skipNew_counts sec : counts (fun _ : unit => True) (fun p =>
  match checkAdvance p sec with
  | (p, Fail e) => (p, Fail e)
  | (p, Panic) => (p, Panic)
  | (p, Ret _) =>
      match skipResource (p_msg p) (p_off p) with
      | Fail e => (p, Fail (nestedError ("skipping: " +:+ sectionNames sec) e))
      | Panic => (p, Panic)
      | Ret off => (set_pos off (p_index p + 1) p, Ret tt)
      end
  end).
Proof.
  eapply counts_ext; [|apply (counts_advance (fun _ : unit => True) sec (fun p =>
    let! off := nested ("skipping: " +:+ sectionNames sec) (skipResource (p_msg p) (p_off p)) in Ret (tt, off)))].
  - intros q. cbv beta. destruct (checkAdvance q sec) as [q1 [| |]]; try done. by destruct (skipResource (p_msg q1) (p_off q1)).
  - intros q (Hm & _ & Ho & _). eapply sat_bind; [by apply sat_nested, skipResource_sat|]. done.
Qed.

Lemma Parser_skipResource_counts sec : counts (fun _ => True) (fun p => Parser_skipResource p sec).
Proof.
  intros p Hp. unfold Parser_skipResource. destruct (p_resHeaderValid p) eqn:Ev.
  - destruct (_ >? _); [done|]. destruct (Hp) as (Hm & Hh & Ho & Hx & Hr). destruct (Hr Ev) as [(_ & _ & _ & _ & Hl) _]. unfold is_u16 in Hl.
    split_and!; [|done|done]. apply (pinv_resource p (p_off p + rh_Length (p_resHeader p))); [done..|lia].
  - exact (skipNew_counts sec p Hp).
Qed.

Lemma typedResource_counts (P : ResourceBody -> Prop) (unpack : Parser -> bytes -> Z -> result ResourceBody) (t : option Z) :
  (forall p, pinv p -> p_resHeaderValid p = true -> t = Some (rh_Type (p_resHeader p)) \/ t = None ->
     sat P (unpack p (p_msg p) (p_off p))) ->
  counts P (fun p => typedResource p t (unpack p)).
Proof.
  intros Hu p Hp. unfold typedResource. destruct (p_resHeaderValid p) eqn:Ev; [|done]. cbn [negb orb].
  destruct (match t with Some t => negb (rh_Type (p_resHeader p) =? t) | None => false end) eqn:Et; [done|].
  assert (t = Some (rh_Type (p_resHeader p)) \/ t = None) as Ht.
  { destruct t; [|by right]. left. breflect. by f_equal. }
  specialize (Hu p Hp Ev Ht). destruct (unpack p (p_msg p) (p_off p)) as [r| |]; [|done|done].
  destruct (Hp) as (Hm & Hh & Ho & Hx & Hr). destruct (Hr Ev) as [(_ & _ & _ & _ & Hl) _]. unfold is_u16 in Hl.
  split_and!; [|done|done]. apply (pinv_resource p (p_off p + rh_Length (p_resHeader p))); [done..|lia].
Qed.

(** The loops over a section end. *)
Lemma allLoop_total {A} (P : A -> Prop) one : counts P one -> forall fuel p acc,
  pinv p -> current_count p - p_index p < Z.of_nat fuel -> Forall P acc ->
  exists p' r, allLoop fuel one p acc = Some (p', r) /\ pinv p' /\
    sat (fun l => Forall P l /\ zlen l <= zlen acc + current_count p - p_index p) r.
Proof.
  intros Hone. induction fuel as [|fuel IH]; intros p acc Hp Hf Hacc.
  { destruct Hp as (_ & _ & _ & Hi & _). lia. }
  cbn [allLoop]. pose proof (Hone p Hp) as H1. destruct (one p) as [p1 [a|e|]]; destruct H1 as (Hp1 & Hs & Hret); [| |done].
  - destruct (Hret a eq_refl) as [Hc Hi]. destruct (IH p1 (acc ++ [a])) as (p' & r & E & Hp' & Hr); [done|lia| |].
    { apply Forall_app. split; [done|]. apply List.Forall_cons; [done|apply List.Forall_nil]. }
    exists p', r. split_and!; [done..|]. eapply sat_mono; [|exact Hr]. intros l [Hl Hlen]. split; [done|].
    rewrite zlen_app in Hlen. change (zlen [a]) with 1 in Hlen. lia.
  - destruct (Hp) as (_ & _ & _ & Hi & _). destruct e; eexists _, _; (split; [done|]); split; try done. split; [done|lia].
Qed.

(** A method that leaves the parser in order and returns, never panicking. *)
Definition method_ok {A} (P : A -> Prop) (one : Parser -> Parser * result A) : Prop :=
  forall p, pinv p -> let '(p', r) := one p in pinv p' /\ sat P r.

Lemma counts_method {A} (P : A -> Prop) one : counts P one -> method_ok P one.
Proof. intros H p Hp. specialize (H p Hp). destruct (one p) as [p' r]. by destruct H as (? & ? & _). Qed.

Definition section_of {A} (P : A -> Prop) (l : list A) : Prop := Forall P l /\ is_u16 (zlen l).

Lemma all_method {A} (P : A -> Prop) one : counts P one -> method_ok (section_of P) (all one).
Proof.
  intros H p Hp. unfold all. destruct (allLoop_total P one H (allFuel p) p []) as (p' & r & -> & Hp' & Hr); [done| |done|].
  all: destruct Hp as (_ & Hh & _ & Hi & _); pose proof (count_range (p_header p) (p_section p) Hh) as Hc;
    unfold current_count in *; unfold is_u16 in Hc.
  - unfold allFuel, maxUint16. lia.
  - split; [done|]. eapply sat_mono; [|exact Hr]. intros l [Hl Hlen]. split; [done|]. unfold is_u16.
    change (zlen []) with 0 in Hlen. pose proof (zlen_nonneg l). lia.
Qed.

(** [UnknownResource] takes whatever type the header has. *)
Definition untyped_wf (b : ResourceBody) : Prop :=
  match b with Unknown r => bytes_ok (un_Data r) | _ => False end.

(** Every method of the parser; what they return. *)
Inductive parsed :=
| PDone
| PQuestion (q : Question)
| PHeader (h : ResourceHeader)
| PBody (b : ResourceBody)
| PUnknown (b : ResourceBody)
| PResource (r : Resource)
| PQuestions (l : list Question)
| PResources (l : list Resource).

Definition parsed_wf (x : parsed) : Prop :=
  match x with
  | PDone => True
  | PQuestion q => question_wf q
  | PHeader h => rh_wf h
  | PBody b => body_wf b
  | PUnknown b => untyped_wf b
  | PResource r => resource_wf r
  | PQuestions l => section_of question_wf l
  | PResources l => section_of resource_wf l
  end.

Definition giving {A} (f : A -> parsed) (one : Parser -> Parser * result A) (p : Parser) : Parser * result parsed :=
  let '(p, r) := one p in (p, let! a := r in Ret (f a)).

Definition done_ {A} (_ : A) : parsed := PDone.

Definition parser_methods : list (Parser -> Parser * result parsed) :=
  [giving PQuestion Parser_Question; giving PQuestions AllQuestions; giving done_ SkipQuestion; giving done_ SkipAllQuestions;
   giving PHeader AnswerHeader; giving PResource Answer; giving PResources AllAnswers; giving done_ SkipAnswer; giving done_ SkipAllAnswers;
   giving PHeader AuthorityHeader; giving PResource Authority; giving PResources AllAuthorities; giving done_ SkipAuthority; giving done_ SkipAllAuthorities;
   giving PHeader AdditionalHeader; giving PResource Additional; giving PResources AllAdditionals; giving done_ SkipAdditional; giving done_ SkipAllAdditionals;
   giving PBody Parser_CNAMEResource; giving PBody Parser_MXResource; giving PBody Parser_NSResource; giving PBody Parser_PTRResource;
   giving PBody Parser_SOAResource; giving PBody Parser_TXTResource; giving PBody Parser_SRVResource; giving PBody Parser_AResource;
   giving PBody Parser_AAAAResource; giving PBody Parser_OPTResource; giving PUnknown Parser_UnknownResource].

(** What a sequence of calls on one parser returns. *)
Fixpoint run (ms : list (Parser -> Parser * result parsed)) (p : Parser) : list (result parsed) :=
  match ms with
  | [] => []
  | m :: ms => let '(p, r) := m p in r :: run ms p
  end.

Lemma giving_ok {A} (f : A -> parsed) (P : A -> Prop) one :
  method_ok P one -> (forall a, P a -> parsed_wf (f a)) -> method_ok parsed_wf (giving f one).
Proof.
  intros H Hf p Hp. unfold giving. specialize (H p Hp). destruct (one p) as [p' r]. destruct H as [Hp' Hr].
  split; [done|]. eapply sat_bind; [exact Hr|]. intros a Ha. by apply Hf.
Qed.

Lemma giving_counts {A} (f : A -> parsed) (P : A -> Prop) one :
  counts P one -> (forall a, P a -> parsed_wf (f a)) -> method_ok parsed_wf (giving f one).
Proof. intros H. by apply (giving_ok f P), counts_method. Qed.

Lemma giving_all {A} (f : list A -> parsed) (P : A -> Prop) one :
  counts P one -> (forall l, section_of P l -> parsed_wf (f l)) -> method_ok parsed_wf (giving f (all one)).
Proof. intros H. by apply (giving_ok f (section_of P)), all_method. Qed.

Lemma resourceHeader_method sec : method_ok rh_wf (fun p => resourceHeader p sec).
Proof.
  intros p Hp. pose proof (resourceHeader_spec p sec Hp) as H. destruct (resourceHeader p sec) as [p' r]. by destruct H as (? & ? & _).
Qed.

Lemma typed_method (unpack : Parser -> bytes -> Z -> result ResourceBody) t :
  (forall p, bytes_ok (p_msg p) -> 0 <= p_off p -> is_u16 (rh_Length (p_resHeader p)) -> sat (body_as t) (unpack p (p_msg p) (p_off p))) ->
  method_ok body_wf (fun p => typedResource p (Some t) (unpack p)).
Proof.
  intros H. apply counts_method, typedResource_counts. intros p (Hm & _ & Ho & _ & Hr) Hv _.
  destruct (Hr Hv) as [(_ & _ & _ & _ & Hl) _]. eapply sat_mono; [|by apply H]. by intros r [].
Qed.


Lemma Unknown_method : method_ok untyped_wf Parser_UnknownResource.
Proof.
  apply counts_method, (typedResource_counts untyped_wf (fun p msg off =>
    unpackUnknownResource (rh_Type (p_resHeader p)) msg off (rh_Length (p_resHeader p))) None).
  intros p (Hm & _ & Ho & _ & Hr) Hv _. destruct (Hr Hv) as [(_ & _ & _ & _ & Hl) _]. unfold is_u16 in Hl.
  eapply sat_bind; [apply unpackBytes_sat; [done..|lia]|]. intros [s o] (Hs & _). done.
Qed.

Lemma parser_methods_ok : Forall (method_ok parsed_wf) parser_methods.
Proof.
  pose proof Parser_Question_counts as HQ. pose proof SkipQuestion_counts as HS.
  pose proof Parser_resource_counts as HR. pose proof Parser_skipResource_counts as HK. pose proof resourceHeader_method as HH.
  pose proof (fun f t Hf => giving_ok PBody body_wf _ (typed_method f t Hf) (fun a Ha => Ha)) as HB.
  repeat apply List.Forall_cons; [..|apply List.Forall_nil].
  1: by apply (giving_counts _ question_wf).
  1: by apply (giving_all _ question_wf).
  1: by apply (giving_counts _ (fun _ => True)).
  1: by apply (giving_all _ (fun _ => True)).
  1, 6, 11: apply (giving_ok _ rh_wf); [apply HH|done].
  1, 5, 9: apply (giving_counts _ resource_wf); [apply HR|done].
  1, 4, 7: apply (giving_all _ resource_wf); [apply HR|done].
  1, 3, 5: apply (giving_counts _ (fun _ => True)); [apply HK|done].
  1, 2, 3: apply (giving_all _ (fun _ => True)); [apply HK|done].
  11: apply (giving_ok _ untyped_wf); [apply Unknown_method|done].
  - apply (HB (fun _ => unpackCNAMEResource) TypeCNAME). intros. by apply unpackCNAMEResource_sat.
  - apply (HB (fun _ => unpackMXResource) TypeMX). intros. by apply unpackMXResource_sat.
  - apply (HB (fun _ => unpackNSResource) TypeNS). intros. by apply unpackNSResource_sat.
  - apply (HB (fun _ => unpackPTRResource) TypePTR). intros. by apply unpackPTRResource_sat.
  - apply (HB (fun _ => unpackSOAResource) TypeSOA). intros. by apply unpackSOAResource_sat.
  - apply (HB (fun p msg off => unpackTXTResource msg off (rh_Length (p_resHeader p))) TypeTXT). intros. by apply unpackTXTResource_sat.
  - apply (HB (fun _ => unpackSRVResource) TypeSRV). intros. by apply unpackSRVResource_sat.
  - apply (HB (fun _ => unpackAResource) TypeA). intros. by apply unpackAResource_sat.
  - apply (HB (fun _ => unpackAAAAResource) TypeAAAA). intros. by apply unpackAAAAResource_sat.
  - apply (HB (fun p msg off => unpackOPTResource msg off (rh_Length (p_resHeader p))) TypeOPT). intros. by apply unpackOPTResource_sat.
Qed.

Lemma Start_ok msg : bytes_ok msg -> let '(p, r) := Start msg in pinv p /\ sat (fun _ => True) r.
Proof.
  intros Hm. unfold Start. pose proof (sat_nested _ "unpacking header" _ (header_unpack_sat msg Hm)) as H.
  destruct (nested "unpacking header" (header_unpack msg 0)) as [[h off]| |]; [| |done].
  - destruct H as [Hh Ho]. split; [|done]. unfold pinv, current_count. cbn. split_and!; try done.
    by apply (count_range h sectionQuestions).
  - split; [|done]. unfold pinv, current_count, hdr_wf, is_u16. cbn. split_and!; done || lia.
Qed.

Lemma run_ok ms : Forall (fun m => m ∈ parser_methods) ms -> forall p, pinv p -> Forall (sat parsed_wf) (run ms p).
Proof.
  induction 1 as [|m ms Hm _ IH]; intros p Hp; cbn [run]; [apply List.Forall_nil|].
  pose proof parser_methods_ok as Hall. rewrite Forall_forall in Hall. specialize (Hall m Hm p Hp).
  destruct (m p) as [p' r]. destruct Hall as [Hp' Hr]. apply List.Forall_cons; [done|by apply IH].
Qed.

(** C24: Whatever bytes a parser is started on and whatever sequence of its methods is
    called, no call panics or fails to end, and every value returned is well typed:
    integers within their width, names canonical and of at most 255 bytes, the body
    of a resource of the type its header has. *)
Theorem parser_safe msg ms : bytes_ok msg -> Forall (fun m => m ∈ parser_methods) ms ->
  let '(p, r) := Start msg in r <> Panic /\ Forall (sat parsed_wf) (run ms p).
Proof.
  intros Hm Hms. pose proof (Start_ok msg Hm) as H. destruct (Start msg) as [p r]. destruct H as [Hp Hr].
  split; [by intros ->|]. by apply run_ok.
Qed.

(** A query for "a." followed by junk: the question is parsed, the answer is not. *)
Definition junk : bytes := [0; 1; 0; 0; 0; 1; 0; 1; 0; 0; 0; 0; 1; 97; 0; 0; 1; 0; 1; 0xC0; 12; 0; 1].

Lemma junk_ok : bytes_ok junk.
Proof. unfold bytes_ok, is_u8. rewrite Forall_forall. intros x Hx. repeat (apply elem_of_cons in Hx as [->|Hx]; [lia|]). by apply not_elem_of_nil in Hx. Qed.

Lemma parser_safe_witness :
  let ms := [giving PQuestions AllQuestions; giving PResource Answer; giving done_ SkipAnswer] in
  (let '(p, r) := Start junk in r <> Panic /\ Forall (sat parsed_wf) (run ms p)) /\
  run ms (fst (Start junk)) =
    [Ret (PQuestions [mkQ (name_of [[97]]) TypeA ClassINET]); Fail (nestedError "Class" errBaseLen);
     Fail (nestedError "skipping: Answer" (nestedError "Class" errBaseLen))].
Proof.
  intros ms. split; [|vm_compute; reflexivity]. apply (parser_safe junk ms); [apply junk_ok|].
  apply List.Forall_cons; [by apply list_elem_of_lookup_2 with 1%nat|].
  apply List.Forall_cons; [by apply list_elem_of_lookup_2 with 5%nat|].
  apply List.Forall_cons; [by apply list_elem_of_lookup_2 with 7%nat|]. apply List.Forall_nil.
Defined.

(** *** Skipping and parsing *)
Lemma skipUint16_unpack msg off v off' : unpackUint16 msg off = Ret (v, off') -> skipUint16 msg off = Ret off'.
Proof.
  unfold unpackUint16, skipUint16. destruct (_ >? _); [done|]. destruct (index msg off); [cbn|done..].
  destruct (index msg (off + 1)); [cbn|done..]. by intros [= _ <-].
Qed.

Lemma skipUint32_unpack msg off v off' : unpackUint32 msg off = Ret (v, off') -> skipUint32 msg off = Ret off'.
Proof.
  unfold unpackUint32, skipUint32. destruct (_ >? _); [done|]. destruct (index msg off); [cbn|done..].
  destruct (index msg (off + 1)); [cbn|done..]. destruct (index msg (off + 2)); [cbn|done..].
  destruct (index msg (off + 3)); [cbn|done..]. by intros [= _ <-].
Qed.

Lemma skipName_unpack msg off n off' : bytes_ok msg -> 0 <= off -> Name_unpack zeroName msg off = Ret (n, off') -> skipName msg off = Ret off'.
Proof. intros Hm Ho E. pose proof (unpackCompressed_sat msg off true Hm Ho) as H. unfold Name_unpack in E. rewrite E in H. by destruct H as (_ & _ & ?). Qed.

Lemma nested_Ret {A} s (r : result A) a : nested s r = Ret a -> r = Ret a.
Proof. by destruct r. Qed.

(** A step of an unpacker that returned. *)
Ltac unpacked x o E :=
  match goal with
  | H : obind (nested _ ?m) _ = Ret _ |- _ =>
      apply obind_Ret in H as ([x o] & E & H); apply nested_Ret in E; cbv beta iota in H
  end.

Lemma skipQuestion_agrees msg off q off' : bytes_ok msg -> 0 <= off ->
  unpackQuestion msg off = Ret (q, off') -> skipQuestion msg off = Ret off'.
Proof.
  intros Hm Ho H. unfold unpackQuestion, unpackType, unpackClass in H. unpacked n o1 E1. unpacked t o2 E2. unpacked c o3 E3.
  injection H as _ <-. unfold skipQuestion, skipType, skipClass.
  rewrite (skipName_unpack _ _ _ _ Hm Ho E1). cbn [nested obind]. rewrite (skipUint16_unpack _ _ _ _ E2). cbn [nested obind].
  by rewrite (skipUint16_unpack _ _ _ _ E3).
Qed.

Lemma skipResource_agrees msg off h off' : bytes_ok msg -> 0 <= off ->
  ResourceHeader_unpack zeroRH msg off = Ret (h, off') ->
  skipResource msg off = if off' + rh_Length h >? zlen msg then Fail errResourceLen else Ret (off' + rh_Length h).
Proof.
  intros Hm Ho H. unfold ResourceHeader_unpack, unpackType, unpackClass in H. unpacked n o1 E1. unpacked t o2 E2. unpacked c o3 E3.
  unpacked l o4 E4. unpacked k o5 E5. injection H as <- <-. unfold skipResource, skipType, skipClass.
  rewrite (skipName_unpack _ _ _ _ Hm Ho E1). cbn [nested obind]. rewrite (skipUint16_unpack _ _ _ _ E2). cbn [nested obind].
  rewrite (skipUint16_unpack _ _ _ _ E3). cbn [nested obind]. rewrite (skipUint32_unpack _ _ _ _ E4). cbn [nested obind].
  by rewrite E5.
Qed.

(** The parser up to the header it last parsed. *)
Definition same_position (p q : Parser) : Prop :=
  p_msg p = p_msg q /\ p_header p = p_header q /\ p_section p = p_section q /\ p_off p = p_off q /\
  p_index p = p_index q /\ p_resHeaderValid p = p_resHeaderValid q.

(** Skipping agrees with parsing.  Where the parser returns a question, skipping it
    leaves the parser in the same state; where it returns a resource of any section,
    also one whose header was already parsed, skipping it leaves the parser at the same
    place, except that [Skip] alone checks that the resource's length stays within the
    message. *)
Theorem skip_agrees p : pinv p ->
  (forall p' q, Parser_Question p = (p', Ret q) -> SkipQuestion p = (p', Ret tt)) /\
  (forall sec p' r, Parser_resource p sec = (p', Ret r) ->
     let '(q, s) := Parser_skipResource p sec in
     if p_off p' <=? zlen (p_msg p') then s = Ret tt /\ same_position q p'
     else s = Fail errResourceLen \/ s = Fail (nestedError ("skipping: " +:+ sectionNames sec) errResourceLen)).
Proof.
  intros Hp. split.
  - intros p' q H. unfold Parser_Question in H. unfold SkipQuestion. pose proof (checkAdvance_spec p sectionQuestions Hp) as Hc.
    destruct (checkAdvance p sectionQuestions) as [p1 [[]| |]]; [|done..]. destruct Hc as ((Hm & _ & Ho & _) & _).
    destruct (unpackQuestion (p_msg p1) (p_off p1)) as [[q' off]| |] eqn:E; [|done..]. injection H as <- _.
    by rewrite (skipQuestion_agrees _ _ _ _ Hm Ho E).
  - intros sec p' r H. unfold Parser_resource, resourceHeader in H. unfold Parser_skipResource.
    destruct (p_resHeaderValid p) eqn:Ev.
    + cbn [set_valid p_msg p_off] in H. destruct (unpackResourceBody (p_msg p) (p_off p) (p_resHeader p)) as [[b off]| |] eqn:Eb; [|done..].
      apply obind_Ret in Eb as (b' & _ & [= _ <-]). injection H as <- _. cbn [set_pos set_valid p_off p_msg].
      rewrite Z.gtb_ltb. destruct (Z.ltb_spec (zlen (p_msg p)) (p_off p + rh_Length (p_resHeader p))),
        (Z.leb_spec (p_off p + rh_Length (p_resHeader p)) (zlen (p_msg p))); try lia; [by left|done].
    + pose proof (checkAdvance_spec p sec Hp) as Hc. destruct (checkAdvance p sec) as [p1 [[]| |]]; [|done..].
      destruct Hc as ((Hm & _ & Ho & _) & _ & Hret). destruct (Hret eq_refl) as (Hv & _).
      destruct (ResourceHeader_unpack zeroRH (p_msg p1) (p_off p1)) as [[h off]| |] eqn:Eh; [|done..]. cbn [set_valid p_msg p_off] in H.
      destruct (unpackResourceBody (p_msg p1) off h) as [[b off']| |] eqn:Eb; [|done..].
      apply obind_Ret in Eb as (b' & _ & [= _ <-]). injection H as <- _. cbn [set_pos set_valid p_off p_msg].
      rewrite (skipResource_agrees _ _ _ _ Hm Ho Eh), Z.gtb_ltb.
      destruct (Z.ltb_spec (zlen (p_msg p1)) (off + rh_Length h)), (Z.leb_spec (off + rh_Length h) (zlen (p_msg p1))); try lia; [by right|].
      split; [done|]. unfold same_position. cbn. split_and!; done.
Qed.

Lemma skip_agrees_witness :
  let p := fst (Start junk) in
  Parser_Question p = (fst (Parser_Question p), Ret (mkQ (name_of [[97]]) TypeA ClassINET)) /\
  SkipQuestion p = (fst (Parser_Question p), Ret tt).
Proof.
  intros p. assert (Parser_Question p = (fst (Parser_Question p), Ret (mkQ (name_of [[97]]) TypeA ClassINET))) as E
    by (vm_compute; reflexivity). split; [done|].
  refine (proj1 (skip_agrees p _) _ _ E). pose proof (Start_ok junk junk_ok) as H. unfold p. destruct (Start junk). apply H.
Defined.

(** ** Whole messages *)
Definition header_wf (h : Header) : Prop :=
  is_u16 (h_ID h) /\ 0 <= h_OpCode h <= 15 /\ 0 <= h_RCode h <= 15.

Definition message_wf (m : Message) : Prop :=
  header_wf (m_Header m) /\ section_of question_wf (m_Questions m) /\ section_of resource_wf (m_Answers m) /\
  section_of resource_wf (m_Authorities m) /\ section_of resource_wf (m_Additionals m).

Lemma header_header_wf h : hdr_wf h -> header_wf (header_header h).
Proof.
  intros (Hid & _). split; [done|]. cbn. split; (split; [apply Z.land_nonneg; right; lia|apply land_bound; lia]).
Qed.

Lemma Start_header msg p h : bytes_ok msg -> Start msg = (p, Ret h) -> header_wf h.
Proof.
  intros Hm. unfold Start. pose proof (sat_nested _ "unpacking header" _ (header_unpack_sat msg Hm)) as H.
  destruct (nested "unpacking header" (header_unpack msg 0)) as [[h' off]| |]; [|done..]. intros [= _ <-]. apply header_header_wf, H.
Qed.

(** A step of [Unpack]. *)
Lemma sat_method {A B} (P : A -> Prop) (Q : B -> Prop) one p (k : Parser -> A -> result B) :
  method_ok P one -> pinv p -> (forall p' a, pinv p' -> P a -> sat Q (k p' a)) ->
  sat Q (let '(p', r) := one p in let! a := r in k p' a).
Proof.
  intros H Hp Hk. specialize (H p Hp). destruct (one p) as [p' r]. destruct H as [Hp' Hr]. eapply sat_bind; [exact Hr|]. auto.
Qed.

(** C25: [Unpack] of arbitrary bytes returns a message or an error and never panics; the
    message is well typed: header fields in range, at most 65535 entries in a section,
    integers within their width, canonical names, texts of at most 255 bytes, every
    body of the type in its header. *)
Theorem Unpack_typed msg : bytes_ok msg -> sat message_wf (Unpack msg).
Proof.
  intros Hm. unfold Unpack. pose proof (Start_ok msg Hm) as H. pose proof (Start_header msg) as Hh.
  destruct (Start msg) as [p [h| |]]; destruct H as [Hp Hs]; [|done|done]. specialize (Hh p h Hm eq_refl). cbn [obind].
  pose proof Parser_resource_counts as HR.
  apply (sat_method (section_of question_wf) message_wf AllQuestions p); [exact (all_method _ _ Parser_Question_counts)|done|].
  intros p1 qs Hp1 Hq. apply (sat_method (section_of resource_wf) message_wf AllAnswers p1); [exact (all_method _ _ (HR sectionAnswers))|done|].
  intros p2 an Hp2 Ha. apply (sat_method (section_of resource_wf) message_wf AllAuthorities p2); [exact (all_method _ _ (HR sectionAuthorities))|done|].
  intros p3 au Hp3 Hu. apply (sat_method (section_of resource_wf) message_wf AllAdditionals p3); [exact (all_method _ _ (HR sectionAdditionals))|done|].
  intros p4 ad Hp4 Hd. done.
Qed.

(** The query without its answer. *)
Lemma Unpack_typed_witness :
  let q := take 18 (<[7%nat := 0]> junk) ++ [1] in
  sat message_wf (Unpack q) /\
  Unpack q = Ret (mkMessage (mkHeader 1 false 0 false false false false false false 0) [mkQ (name_of [[97]]) TypeA ClassINET] [] [] []).
Proof.
  intros q. split; [|vm_compute; reflexivity]. apply Unpack_typed. unfold q. apply Forall_app. split.
  - apply Forall_take, Forall_insert; [apply junk_ok|done].
  - apply List.Forall_cons; [done|apply List.Forall_nil].
Defined.
