(* ===== verification/DnsTrip.v ===== *)
(** * Package dnsmessage: packing and unpacking a message

    What [AppendPack] and the [Builder] write is read back by [Unpack]: first the
    integers, texts, names and bodies, then resources and sections, then messages. *)

From S2P Require Import Prelude DnsMsg DnsBody DnsParser DnsName DnsSafe.

(** ** Bytes at an offset *)
Definition holds (msg : bytes) (off : Z) (bs : bytes) : Prop := zslice msg off (off + zlen bs) = Some bs.

Lemma holds_mid pre bs post off : off = zlen pre -> holds (pre ++ bs ++ post) off bs.
Proof. intros ->. by apply zslice_mid. Qed.

Lemma holds_bound msg off bs : holds msg off bs -> 0 <= off /\ off + zlen bs <= zlen msg.
Proof. intros H. apply zslice_range in H. lia. Qed.

Lemma holds_app msg off a b : holds msg off (a ++ b) -> holds msg off a /\ holds msg (off + zlen a) b.
Proof.
  intros H. pose proof (holds_bound _ _ _ H) as Hb. rewrite zlen_app in Hb. unfold holds in H.
  assert (exists pre post, msg = pre ++ (a ++ b) ++ post /\ off = zlen pre) as (pre & post & -> & ->).
  { exists (take (Z.to_nat off) msg), (drop (Z.to_nat (off + zlen (a ++ b))) msg). split.
    - revert H. unfold zslice. rewrite zlen_app in *.
      destruct ((0 <=? off) && (off <=? off + (zlen a + zlen b)) && (off + (zlen a + zlen b) <=? zlen msg)); [|done].
      intros [= H]. rewrite <- H at 1. rewrite <- (take_drop (Z.to_nat off) msg) at 1. f_equal.
      pose proof (zlen_nonneg a). pose proof (zlen_nonneg b).
      rewrite <- (take_drop (Z.to_nat (off + (zlen a + zlen b) - off)) (drop (Z.to_nat off) msg)) at 1. f_equal.
      rewrite drop_drop. f_equal. lia.
    - unfold zlen. rewrite length_take. unfold zlen in Hb. lia. }
  split.
  - rewrite <- app_assoc. by apply holds_mid.
  - rewrite <- app_assoc, app_assoc. apply holds_mid. by rewrite zlen_app.
Qed.

Lemma holds_cons msg off x l : holds msg off (x :: l) -> zget msg off = Some x /\ holds msg (off + 1) l.
Proof.
  intros H. apply (holds_app _ _ [x] l) in H as [H Hl]. split; [|done]. revert H. unfold holds, zslice, zget. change (zlen [x]) with 1.
  destruct (Z.leb_spec 0 off), (Z.leb_spec off (off + 1)), (Z.leb_spec (off + 1) (zlen msg)); try done.
  cbn [andb]. replace (off + 1 - off) with 1 by lia. change (Z.to_nat 1) with 1%nat. intros [= E].
  rewrite <- (Nat.add_0_r (Z.to_nat off)), <- lookup_drop. destruct (drop (Z.to_nat off) msg); [done|]. by injection E as ->.
Qed.

(** ** Integers *)
Definition be2 (v : Z) : bytes := [u8 (Z.shiftr v 8); u8 v].
Definition be4 (v : Z) : bytes := [u8 (Z.shiftr v 24); u8 (Z.shiftr v 16); u8 (Z.shiftr v 8); u8 v].

Lemma be16_be2 v : is_u16 v -> be16 (u8 (Z.shiftr v 8)) (u8 v) = v.
Proof.
  intros Hv. unfold is_u16 in Hv. rewrite be16_val by apply u8_range. rewrite Z.shiftr_div_pow2 by lia. unfold u8. change (2 ^ 8) with 256.
  pose proof (Z.div_mod v 256 ltac:(lia)). pose proof (Z.mod_pos_bound v 256 ltac:(lia)). change (2 ^ 16) with 65536 in Hv.
  rewrite (Z.mod_small (v / 256)) by lia. lia.
Qed.

Lemma be32_be4 v : is_u32 v -> be32 (u8 (Z.shiftr v 24)) (u8 (Z.shiftr v 16)) (u8 (Z.shiftr v 8)) (u8 v) = v.
Proof.
  intros Hv. unfold is_u32 in Hv. rewrite be32_val by apply u8_range. rewrite !Z.shiftr_div_pow2 by lia. unfold u8.
  change (2 ^ 32) with (256 * 16777216) in Hv. change (2 ^ 24) with (256 * 256 * 256). change (2 ^ 16) with (256 * 256). change (2 ^ 8) with 256.
  rewrite <- !Z.div_div by lia.
  pose proof (Z.div_mod v 256 ltac:(lia)). pose proof (Z.mod_pos_bound v 256 ltac:(lia)). set (a := v / 256) in *.
  pose proof (Z.div_mod a 256 ltac:(lia)). pose proof (Z.mod_pos_bound a 256 ltac:(lia)). set (b := a / 256) in *.
  pose proof (Z.div_mod b 256 ltac:(lia)). pose proof (Z.mod_pos_bound b 256 ltac:(lia)). set (c := b / 256) in *.
  rewrite (Z.mod_small c) by lia. lia.
Qed.

Lemma index_Ret msg i x : zget msg i = Some x -> index msg i = Ret x.
Proof. unfold index. by intros ->. Qed.

Lemma unpackUint16_holds msg off v : is_u16 v -> holds msg off (be2 v) -> unpackUint16 msg off = Ret (v, off + 2).
Proof.
  intros Hv H. pose proof (holds_bound _ _ _ H) as Hb. change (zlen (be2 v)) with 2 in Hb.
  apply holds_cons in H as [H0 H]. apply holds_cons in H as [H1 _].
  unfold unpackUint16, uint16Len. destruct (Z.gtb_spec (off + 2) (zlen msg)); [lia|].
  rewrite (index_Ret _ _ _ H0), (index_Ret _ _ _ H1). cbn [obind]. by rewrite be16_be2.
Qed.

Lemma unpackUint32_holds msg off v : is_u32 v -> holds msg off (be4 v) -> unpackUint32 msg off = Ret (v, off + 4).
Proof.
  intros Hv H. pose proof (holds_bound _ _ _ H) as Hb. change (zlen (be4 v)) with 4 in Hb.
  apply holds_cons in H as [H0 H]. apply holds_cons in H as [H1 H]. apply holds_cons in H as [H2 H]. apply holds_cons in H as [H3 _].
  replace (off + 1 + 1 + 1) with (off + 3) in H3 by lia. replace (off + 1 + 1) with (off + 2) in H2 by lia.
  unfold unpackUint32, uint32Len. destruct (Z.gtb_spec (off + 4) (zlen msg)); [lia|].
  rewrite (index_Ret _ _ _ H0), (index_Ret _ _ _ H1), (index_Ret _ _ _ H2), (index_Ret _ _ _ H3). cbn [obind]. by rewrite be32_be4.
Qed.

Lemma unpackBytes_holds msg off bs : holds msg off bs -> unpackBytes msg off (zlen bs) = Ret (bs, off + zlen bs).
Proof.
  intros H. pose proof (holds_bound _ _ _ H) as Hb. unfold unpackBytes. destruct (Z.gtb_spec (off + zlen bs) (zlen msg)); [lia|].
  unfold slice. by rewrite H.
Qed.

Lemma unpackText_holds msg off t : zlen t <= 255 -> holds msg off (u8 (zlen t) :: t) -> unpackText msg off = Ret (t, off + 1 + zlen t).
Proof.
  intros Ht H. pose proof (holds_bound _ _ _ H) as Hb. rewrite zlen_cons in Hb. pose proof (zlen_nonneg t).
  apply holds_cons in H as [Hl H]. rewrite u8_id in Hl by (unfold is_u8; lia).
  unfold unpackText. destruct (Z.geb_spec off (zlen msg)); [lia|]. rewrite (index_Ret _ _ _ Hl). cbn [obind].
  destruct (Z.gtb_spec (off + 1 + zlen t) (zlen msg)); [lia|]. unfold slice. by rewrite H.
Qed.

(** ** Texts and options *)
Definition text_bytes (t : bytes) : bytes := u8 (zlen t) :: t.
Definition texts_bytes (l : list bytes) : bytes := flat_map text_bytes l.
Definition option_bytes (o : Option) : bytes := be2 (o_Code o) ++ be2 (zlen (o_Data o)) ++ o_Data o.
Definition options_bytes (l : list Option) : bytes := flat_map option_bytes l.

Lemma TXTResource_pack_bytes l : Forall (fun t => zlen t <= 255) l -> forall b, TXTResource_pack l b = Ret (b ++ texts_bytes l).
Proof.
  induction 1 as [|t l Ht _ IH]; intros b; cbn [TXTResource_pack texts_bytes flat_map]; [by rewrite app_nil_r|].
  unfold packText. destruct (Z.gtb_spec (zlen t) 255); [lia|]. cbn [obind]. rewrite IH. unfold texts_bytes, text_bytes. by rewrite <- !app_assoc.
Qed.

Lemma unpackTXTLoop_holds msg length l : length <= maxUint16 -> Forall (fun t => zlen t <= 255) l -> forall fuel off n txts,
  0 <= n -> holds msg off (texts_bytes l) -> length = n + zlen (texts_bytes l) -> length - n <= Z.of_nat fuel ->
  unpackTXTLoop fuel msg off n length txts = Some (Ret (txts ++ l)).
Proof.
  intros Hmax. unfold maxUint16 in Hmax. induction 1 as [|t l Ht _ IH]; intros fuel off n txts Hn H Hl Hf.
  - change (zlen (texts_bytes [])) with 0 in Hl. rewrite app_nil_r. destruct fuel; cbn [unpackTXTLoop];
      (destruct (Z.ltb_spec n length); [lia|done]).
  - change (texts_bytes (t :: l)) with (text_bytes t ++ texts_bytes l) in *. apply holds_app in H as [H Hrest].
    unfold text_bytes in *. rewrite zlen_app, zlen_cons in *. pose proof (zlen_nonneg t). pose proof (zlen_nonneg (texts_bytes l)).
    destruct fuel as [|fuel]; cbn [unpackTXTLoop]; (destruct (Z.ltb_spec n length); [|lia]); [lia|].
    rewrite (unpackText_holds _ _ _ Ht H). cbn [nested].
    rewrite (u16_id (zlen t)), (u16_id (zlen t + 1)), (u16_id (length - n)) by (unfold is_u16; lia).
    destruct (Z.ltb_spec (length - n) (zlen t + 1)); [lia|]. rewrite u16_id by (unfold is_u16; lia).
    rewrite IH; [by rewrite <- app_assoc|lia| |lia|lia]. by replace (off + 1 + zlen t) with (off + (zlen t + 1)) by lia.
Qed.

Lemma OPTResource_pack_bytes l : Forall (fun o => is_u16 (zlen (o_Data o))) l -> forall b,
  OPTResource_pack l b = b ++ options_bytes l.
Proof.
  induction 1 as [|o l Ho _ IH]; intros b; cbn [OPTResource_pack options_bytes flat_map]; [by rewrite app_nil_r|].
  rewrite u16_id by done. rewrite IH. unfold packUint16, packBytes, options_bytes, option_bytes. by rewrite <- !app_assoc.
Qed.

Lemma holds_take msg off bs : holds msg off bs -> exists rest, zslice msg off (zlen msg) = Some rest /\ take (length bs) rest = bs /\ zlen bs <= zlen rest.
Proof.
  intros H. pose proof (holds_bound _ _ _ H). pose proof (zlen_nonneg bs).
  unfold holds in H. unfold zslice in *.
  destruct (Z.leb_spec 0 off), (Z.leb_spec off (zlen msg)), (Z.leb_spec (zlen msg) (zlen msg)), (Z.leb_spec off (off + zlen bs)),
    (Z.leb_spec (off + zlen bs) (zlen msg)); try lia. cbn [andb] in *. injection H as H.
  assert (take (Z.to_nat (zlen msg - off)) (drop (Z.to_nat off) msg) = drop (Z.to_nat off) msg) as E.
  { apply take_ge. rewrite length_drop. unfold zlen. lia. }
  eexists. split; [done|]. rewrite E. replace (length bs) with (Z.to_nat (off + zlen bs - off)) by (unfold zlen; lia).
  split; [done|]. unfold zlen in *. rewrite length_drop. lia.
Qed.

Definition option_pk (o : Option) : Prop := is_u16 (o_Code o) /\ is_u16 (zlen (o_Data o)).

Lemma unpackOPTLoop_holds msg limit l : Forall option_pk l -> forall fuel off opts,
  holds msg off (options_bytes l) -> limit = off + zlen (options_bytes l) -> limit - off <= Z.of_nat fuel ->
  unpackOPTLoop fuel msg off limit opts = Some (Ret (opts ++ l)).
Proof.
  induction 1 as [|o l [Hc Hd] _ IH]; intros fuel off opts H Hl Hf.
  - change (zlen (options_bytes [])) with 0 in Hl. rewrite app_nil_r. destruct fuel; cbn [unpackOPTLoop];
      (destruct (Z.ltb_spec off limit); [lia|done]).
  - change (options_bytes (o :: l)) with (option_bytes o ++ options_bytes l) in *. apply holds_app in H as [H Hrest].
    unfold option_bytes in H, Hrest, Hl. apply holds_app in H as [H1 H]. apply holds_app in H as [H2 H3].
    rewrite !zlen_app in *. change (zlen (be2 _)) with 2 in *. change (zlen (be2 (zlen (o_Data o)))) with 2 in *.
    pose proof (zlen_nonneg (o_Data o)). pose proof (zlen_nonneg (options_bytes l)).
    destruct fuel as [|fuel]; cbn [unpackOPTLoop]; (destruct (Z.ltb_spec off limit); [|lia]); [lia|].
    rewrite (unpackUint16_holds _ _ _ Hc H1). cbn [nested]. rewrite (unpackUint16_holds _ _ _ Hd H2). cbn [nested].
    destruct (holds_take _ _ _ H3) as (rest & -> & Et & Hle). rewrite Z.min_l, Z.eqb_refl by done. cbn [negb].
    unfold zlen at 2. rewrite Nat2Z.id, Et, IH; [|by replace (off + 2 + 2 + zlen (o_Data o)) with (off + (2 + (2 + zlen (o_Data o)))) by lia|lia|lia].
    rewrite <- app_assoc. by destruct o.
Qed.

(** ** Bodies

    What a body needs to be packed: names with well-formed labels, at most ten of them,
    integers in their width, and a length that fits the header. *)
Definition known (t : Z) : bool :=
  (t =? TypeA) || (t =? TypeNS) || (t =? TypeCNAME) || (t =? TypeSOA) || (t =? TypePTR) || (t =? TypeMX) || (t =? TypeTXT) ||
  (t =? TypeAAAA) || (t =? TypeSRV) || (t =? TypeOPT).

Definition body_pk (r : ResourceBody) : Prop :=
  match r with
  | AResource a => zlen a = 4
  | AAAAResource a => zlen a = 16
  | NSResource n | CNAMEResource n | PTRResource n => name_ok n
  | SOA r => name_ok (soa_NS r) /\ name_ok (soa_MBox r) /\ is_u32 (soa_Serial r) /\ is_u32 (soa_Refresh r) /\
             is_u32 (soa_Retry r) /\ is_u32 (soa_Expire r) /\ is_u32 (soa_MinTTL r)
  | MX r => is_u16 (mx_Pref r) /\ name_ok (mx_MX r)
  | TXTResource l => Forall (fun t => zlen t <= 255) l /\ zlen (texts_bytes l) <= maxUint16
  | SRV r => is_u16 (srv_Priority r) /\ is_u16 (srv_Weight r) /\ is_u16 (srv_Port r) /\ name_ok (srv_Target r)
  | OPTResource l => Forall option_pk l /\ zlen (options_bytes l) <= maxUint16
  | Unknown r => is_u16 (un_Type r) /\ known (un_Type r) = false /\ zlen (un_Data r) <= maxUint16
  end.

(** The unpacker of a body's type, as the last step of [unpackResourceBody]. *)
Definition unpackBody (r : ResourceBody) (msg : bytes) (off length : Z) : result ResourceBody :=
  match r with
  | AResource _ => unpackAResource msg off
  | NSResource _ => unpackNSResource msg off
  | CNAMEResource _ => unpackCNAMEResource msg off
  | SOA _ => unpackSOAResource msg off
  | PTRResource _ => unpackPTRResource msg off
  | MX _ => unpackMXResource msg off
  | TXTResource _ => unpackTXTResource msg off length
  | AAAAResource _ => unpackAAAAResource msg off
  | SRV _ => unpackSRVResource msg off
  | OPTResource _ => unpackOPTResource msg off length
  | Unknown r => unpackUnknownResource (un_Type r) msg off length
  end.

Lemma unpackResourceBody_type r msg off h : body_pk r -> rh_Type h = realType r ->
  unpackBody r msg off (rh_Length h) = Ret r -> unpackResourceBody msg off h = Ret (r, off + rh_Length h).
Proof.
  intros Hpk Ht E. unfold unpackResourceBody. rewrite Ht.
  destruct r; cbn [realType unpackBody] in *; try (unfold TypeA, TypeNS, TypeCNAME, TypeSOA, TypePTR, TypeMX, TypeTXT, TypeAAAA, TypeSRV, TypeOPT;
    cbn [Z.eqb Pos.eqb]; by rewrite E).
  destruct Hpk as (_ & Hk & _). unfold known in Hk. repeat (apply orb_false_iff in Hk as [Hk ?]).
  repeat (match goal with H : (_ =? _) = false |- _ => rewrite H end). by rewrite E.
Qed.

(** What the codec of a body is. *)
Definition body_codec (r : ResourceBody) (m : bytes) (c : compression_map) (coff : Z) : Prop := exists c' bs,
  writes (body_pack r) (coff + zlen m) c coff c' bs /\ comp_ok (m ++ bs) c' /\ zlen bs <= maxUint16 /\
  forall post, unpackBody r (m ++ bs ++ post) (zlen m) (zlen bs) = Ret r.

Lemma body_codec_bytes r m c coff bs : (forall b c coff, body_pack r b c coff = (c, Ret (b ++ bs))) ->
  comp_ok m c -> zlen bs <= maxUint16 -> (forall post, unpackBody r (m ++ bs ++ post) (zlen m) (zlen bs) = Ret r) -> body_codec r m c coff.
Proof. intros Hw Hc Hl Hu. exists c, bs. split_and!; [by intros b _|by apply comp_ok_app|done|done]. Qed.

Lemma holds_at m bs post : holds (m ++ bs ++ post) (zlen m) bs.
Proof. by apply holds_mid. Qed.

Lemma A_codec a m c coff : comp_ok m c -> zlen a = 4 -> body_codec (AResource a) m c coff.
Proof.
  intros Hc Ha. apply (body_codec_bytes _ _ _ _ a); [done|done|unfold maxUint16; lia|]. intros post. cbn [unpackBody].
  unfold unpackAResource. rewrite <- Ha, unpackBytes_holds by apply holds_at. done.
Qed.

Lemma AAAA_codec a m c coff : comp_ok m c -> zlen a = 16 -> body_codec (AAAAResource a) m c coff.
Proof.
  intros Hc Ha. apply (body_codec_bytes _ _ _ _ a); [done|done|unfold maxUint16; lia|]. intros post. cbn [unpackBody].
  unfold unpackAAAAResource. rewrite <- Ha, unpackBytes_holds by apply holds_at. done.
Qed.

Lemma Unknown_codec r m c coff : comp_ok m c -> zlen (un_Data r) <= maxUint16 -> body_codec (Unknown r) m c coff.
Proof.
  intros Hc Hl. apply (body_codec_bytes _ _ _ _ (un_Data r)); [done..|]. intros post. cbn [unpackBody].
  unfold unpackUnknownResource. rewrite unpackBytes_holds by apply holds_at. by destruct r.
Qed.

Lemma TXT_codec l m c coff : comp_ok m c -> body_pk (TXTResource l) -> body_codec (TXTResource l) m c coff.
Proof.
  intros Hc [Hl Hs]. apply (body_codec_bytes _ _ _ _ (texts_bytes l)); [|done..|].
  { intros. cbn [body_pack]. by rewrite TXTResource_pack_bytes. }
  intros post. cbn [unpackBody]. unfold unpackTXTResource.
  rewrite (unpackTXTLoop_holds _ _ l Hs Hl); [done|done|apply holds_at|lia|lia].
Qed.

Lemma OPT_codec l m c coff : comp_ok m c -> body_pk (OPTResource l) -> body_codec (OPTResource l) m c coff.
Proof.
  intros Hc [Hl Hs]. apply (body_codec_bytes _ _ _ _ (options_bytes l)); [|done..|].
  { intros. cbn [body_pack]. rewrite OPTResource_pack_bytes; [done|]. eapply Forall_impl; [exact Hl|]. by intros o []. }
  intros post. cbn [unpackBody]. unfold unpackOPTResource.
  rewrite (unpackOPTLoop_holds _ _ l Hl); [done|apply holds_at|lia|lia].
Qed.

Lemma name_codec (f : Name -> ResourceBody) n m c coff : name_ok n -> comp_ok m c -> 0 <= coff ->
  body_pack (f n) = Name_pack n ->
  (forall msg off length n', unpackNameResource msg off = Ret n' -> unpackBody (f n) msg off length = Ret (f n')) ->
  body_codec (f n) m c coff.
Proof.
  intros Hn Hc Hcoff Hp Hu. destruct (Name_codec n m c coff Hn Hc Hcoff) as (c' & bs & Hw & Hc' & Hl & Hun & _).
  exists c', bs. rewrite Hp. split_and!; [done|done|unfold maxUint16; lia|]. intros post. apply Hu.
  unfold unpackNameResource. by rewrite Hun.
Qed.

Lemma writes_after f len p c coff c' bs b : writes f (len + zlen p) c coff c' bs -> zlen b = len ->
  f (b ++ p) c coff = (c', Ret (b ++ p ++ bs)).
Proof. intros H Hb. rewrite (H (b ++ p)) by (rewrite zlen_app; lia). by rewrite <- app_assoc. Qed.

Lemma MX_codec r m c coff : body_pk (MX r) -> comp_ok m c -> 0 <= coff -> body_codec (MX r) m c coff.
Proof.
  intros [Hp Hn] Hc Hcoff. set (p := be2 (mx_Pref r)).
  destruct (Name_codec (mx_MX r) (m ++ p) c coff Hn (comp_ok_app _ _ _ Hc) Hcoff) as (c' & bs & Hw & Hc' & Hl & Hun & _).
  rewrite zlen_app, Z.add_assoc in Hw. exists c', (p ++ bs). split_and!.
  - intros b Hb. cbn [body_pack]. unfold MXResource_pack. change (packUint16 b (mx_Pref r)) with (b ++ p). by rewrite (writes_after _ _ _ _ _ _ _ _ Hw Hb).
  - by rewrite app_assoc.
  - rewrite zlen_app. change (zlen p) with 2. unfold maxUint16. lia.
  - intros post. cbn [unpackBody]. unfold unpackMXResource. pose proof (holds_at m p (bs ++ post)) as H.
    rewrite <- app_assoc, (unpackUint16_holds _ _ _ Hp H). cbn [nested obind]. unfold unpackNameResource.
    specialize (Hun post). rewrite <- app_assoc, zlen_app in Hun. change (zlen p) with 2 in Hun. rewrite Hun. by destruct r.
Qed.

Lemma SRV_codec r m c coff : body_pk (SRV r) -> comp_ok m c -> 0 <= coff -> body_codec (SRV r) m c coff.
Proof.
  intros (H1 & H2 & H3 & Hn) Hc Hcoff. set (p := be2 (srv_Priority r) ++ be2 (srv_Weight r) ++ be2 (srv_Port r)).
  destruct (Name_codec (srv_Target r) (m ++ p) None coff Hn) as (c' & bs & Hw & _ & Hl & _ & Hun); [done|done|].
  destruct (Hun eq_refl) as [-> Hu]. clear Hun. rewrite zlen_app, Z.add_assoc in Hw. exists c, (p ++ bs). split_and!.
  - intros b Hb. cbn [body_pack]. unfold SRVResource_pack, packUint16. rewrite <- !app_assoc.
    change (_ ++ _ ++ _ ++ _) with (b ++ p). by rewrite (writes_after _ _ _ _ _ _ _ _ Hw Hb).
  - by apply comp_ok_app.
  - rewrite zlen_app. change (zlen p) with 6. unfold maxUint16. lia.
  - intros post. cbn [unpackBody]. unfold unpackSRVResource. pose proof (holds_at m p (bs ++ post)) as H. rewrite <- app_assoc.
    apply holds_app in H as [Ha H]. apply holds_app in H as [Hb H]. change (zlen (be2 _)) with 2 in *.
    rewrite (unpackUint16_holds _ _ _ H1 Ha). cbn [nested obind].
    rewrite (unpackUint16_holds _ _ _ H2 Hb). cbn [nested obind].
    rewrite (unpackUint16_holds _ _ _ H3 H). cbn [nested obind].
    specialize (Hu post). rewrite <- app_assoc, zlen_app in Hu. change (zlen p) with 6 in Hu.
    replace (zlen m + 2 + 2 + 2) with (zlen m + 6) by lia. rewrite Hu. by destruct r.
Qed.

Lemma SOA_codec r m c coff : body_pk (SOA r) -> comp_ok m c -> 0 <= coff -> body_codec (SOA r) m c coff.
Proof.
  intros (Hn & Hm & H1 & H2 & H3 & H4 & H5) Hc Hcoff.
  destruct (Name_codec (soa_NS r) m c coff Hn Hc Hcoff) as (c1 & b1 & Hw1 & Hc1 & Hl1 & Hu1 & _).
  destruct (Name_codec (soa_MBox r) (m ++ b1) c1 coff Hm Hc1 Hcoff) as (c2 & b2 & Hw2 & Hc2 & Hl2 & Hu2 & _).
  rewrite zlen_app, Z.add_assoc in Hw2.
  set (p := be4 (soa_Serial r) ++ be4 (soa_Refresh r) ++ be4 (soa_Retry r) ++ be4 (soa_Expire r) ++ be4 (soa_MinTTL r)).
  exists c2, (b1 ++ b2 ++ p). split_and!.
  - intros b Hb. cbn [body_pack]. unfold SOAResource_pack. rewrite (Hw1 b Hb). cbn [nested].
    rewrite (writes_after _ _ _ _ _ _ _ _ Hw2 Hb). cbn [nested obind]. unfold packUint32. by rewrite <- !app_assoc.
  - rewrite (app_assoc b1 b2), app_assoc, (app_assoc m b1). by apply comp_ok_app.
  - rewrite !zlen_app. change (zlen p) with 20. unfold maxUint16. lia.
  - intros post. cbn [unpackBody]. unfold unpackSOAResource. rewrite <- !app_assoc.
    specialize (Hu1 (b2 ++ p ++ post)). rewrite Hu1. cbn [nested obind].
    specialize (Hu2 (p ++ post)). rewrite <- app_assoc, zlen_app in Hu2. rewrite Hu2. cbn [nested obind].
    assert (holds (m ++ b1 ++ b2 ++ p ++ post) (zlen m + zlen b1 + zlen b2) p) as H.
    { rewrite (app_assoc b1 b2), app_assoc. apply holds_mid. rewrite !zlen_app. lia. }
    apply holds_app in H as [Ha H]. apply holds_app in H as [Hb H]. apply holds_app in H as [Hd H]. apply holds_app in H as [He H].
    change (zlen (be4 _)) with 4 in *.
    rewrite (unpackUint32_holds _ _ _ H1 Ha). cbn [nested obind]. rewrite (unpackUint32_holds _ _ _ H2 Hb). cbn [nested obind].
    rewrite (unpackUint32_holds _ _ _ H3 Hd). cbn [nested obind]. rewrite (unpackUint32_holds _ _ _ H4 He). cbn [nested obind].
    rewrite (unpackUint32_holds _ _ _ H5 H). cbn [nested obind]. by destruct r.
Qed.

Lemma body_codec_ok r m c coff : body_pk r -> comp_ok m c -> 0 <= coff -> body_codec r m c coff.
Proof.
  intros Hr Hc Hcoff. destruct r.
  - by apply A_codec.
  - apply name_codec; [done..|]. intros msg off l n' E. cbn [unpackBody]. unfold unpackNSResource. by rewrite E.
  - apply name_codec; [done..|]. intros msg off l n' E. cbn [unpackBody]. unfold unpackCNAMEResource. by rewrite E.
  - by apply SOA_codec.
  - apply name_codec; [done..|]. intros msg off l n' E. cbn [unpackBody]. unfold unpackPTRResource. by rewrite E.
  - by apply MX_codec.
  - by apply TXT_codec.
  - by apply AAAA_codec.
  - by apply SRV_codec.
  - by apply OPT_codec.
  - apply Unknown_codec; [done|]. by destruct Hr as (_ & _ & ?).
Qed.

(** ** Questions and resources

    An entry is packed to [bs], which reads back as the entry packing leaves. *)
Definition entry_codec {A} (pack : A -> bytes -> compression_map -> Z -> compression_map * result (A * bytes))
    (unpack : bytes -> Z -> result (A * Z)) (same : A -> A -> Prop) (a : A) (m : bytes) (c : compression_map) (coff : Z) : Prop :=
  exists a' c' bs, (forall b, zlen b = coff + zlen m -> pack a b c coff = (c', Ret (a', b ++ bs))) /\
    comp_ok (m ++ bs) c' /\ same a a' /\ forall post, unpack (m ++ bs ++ post) (zlen m) = Ret (a', zlen m + zlen bs).

Definition question_pk (q : Question) : Prop := name_ok (q_Name q) /\ is_u16 (q_Type q) /\ is_u16 (q_Class q).

Lemma Question_codec q m c coff : question_pk q -> comp_ok m c -> 0 <= coff ->
  entry_codec Question_pack' unpackQuestion eq q m c coff.
Proof.
  intros (Hn & Ht & Hcl) Hc Hcoff. destruct (Name_codec (q_Name q) m c coff Hn Hc Hcoff) as (c' & bs & Hw & Hc' & _ & Hu & _).
  set (p := be2 (q_Type q) ++ be2 (q_Class q)). exists q, c', (bs ++ p). split_and!.
  - intros b Hb. unfold Question_pack', Question_pack. rewrite (Hw b Hb). cbn [nested obind].
    unfold packClass, packType, packUint16. by rewrite <- !app_assoc.
  - rewrite app_assoc. by apply comp_ok_app.
  - done.
  - intros post. unfold unpackQuestion. rewrite <- app_assoc, Hu. cbn [nested obind].
    assert (holds (m ++ bs ++ p ++ post) (zlen m + zlen bs) p) as H by (rewrite app_assoc; apply holds_mid; by rewrite zlen_app).
    apply holds_app in H as [Ha H]. change (zlen (be2 _)) with 2 in *. unfold unpackType, unpackClass.
    rewrite (unpackUint16_holds _ _ _ Ht Ha). cbn [nested obind]. rewrite (unpackUint16_holds _ _ _ Hcl H). cbn [nested obind].
    destruct q as [n t cl]. cbn [q_Name q_Type q_Class]. do 2 f_equal. rewrite zlen_app. change (zlen p) with 4. lia.
Qed.

Definition resource_pk (r : Resource) : Prop :=
  name_ok (rh_Name (r_Header r)) /\ is_u16 (rh_Class (r_Header r)) /\ is_u32 (rh_TTL (r_Header r)) /\
  exists b, r_Body r = Some b /\ body_pk b.

Lemma realType_u16 b : body_pk b -> is_u16 (realType b).
Proof. intros H. destruct b; try (by split). by destruct H as [? _]. Qed.

(** Packing changes nothing of a resource but the type and length in its header. *)
Definition same_resource (r r' : Resource) : Prop :=
  exists b l, r_Body r = Some b /\ r' = mkResource (set_Length l (set_Type (realType b) (r_Header r))) (Some b).

(** [Parser.resource] on a message. *)
Definition unpackResource (msg : bytes) (off : Z) : result (Resource * Z) :=
  let! x := ResourceHeader_unpack zeroRH msg off in let '(h, off) := (x : ResourceHeader * Z) in
  let! y := unpackResourceBody msg off h in let '(b, off) := (y : ResourceBody * Z) in
  Ret (mkResource h (Some b), off).

Lemma ResourceHeader_unpack_holds msg off n t cl ttl l e : Name_unpack zeroName msg off = Ret (n, e) ->
  is_u16 t -> is_u16 cl -> is_u32 ttl -> is_u16 l -> holds msg e (be2 t ++ be2 cl ++ be4 ttl ++ be2 l) ->
  ResourceHeader_unpack zeroRH msg off = Ret (mkRH n t cl ttl l, e + 10).
Proof.
  intros En Ht Hcl Httl Hl H. unfold ResourceHeader_unpack, unpackType, unpackClass. cbn [rh_Name zeroRH]. rewrite En. cbn [nested obind].
  apply holds_app in H as [H1 H]. apply holds_app in H as [H2 H]. apply holds_app in H as [H3 H].
  change (zlen (be2 _)) with 2 in *. change (zlen (be4 _)) with 4 in *.
  rewrite (unpackUint16_holds _ _ _ Ht H1). cbn [nested obind]. rewrite (unpackUint16_holds _ _ _ Hcl H2). cbn [nested obind].
  rewrite (unpackUint32_holds _ _ _ Httl H3). cbn [nested obind]. rewrite (unpackUint16_holds _ _ _ Hl H). cbn [nested obind].
  do 2 f_equal. lia.
Qed.

Lemma overwrite16_at pre l l' post : overwrite16 (pre ++ be2 l ++ post) (zlen pre) l' = Ret (pre ++ be2 l' ++ post).
Proof.
  unfold overwrite16. rewrite !zlen_app. change (zlen (be2 l)) with 2. pose proof (zlen_nonneg pre). pose proof (zlen_nonneg post).
  destruct (Z.leb_spec 0 (zlen pre)), (Z.leb_spec (zlen pre + 2) (zlen pre + (2 + zlen post))); try lia. cbn [andb].
  unfold zlen at 1. rewrite Nat2Z.id, take_app_length. do 3 f_equal.
  rewrite app_assoc. replace (Z.to_nat (zlen pre + 2)) with (length (pre ++ be2 l)) by (rewrite length_app; unfold zlen; simpl; lia).
  by rewrite drop_app_length.
Qed.

(** The bytes of a resource between its name and its length. *)
Definition rh_middle (body : ResourceBody) (h : ResourceHeader) : bytes :=
  be2 (realType body) ++ be2 (rh_Class h) ++ be4 (rh_TTL h).

Lemma rh_middle_packs x body h : packUint32 (packClass (packType x (realType body)) (rh_Class h)) (rh_TTL h) = x ++ rh_middle body h.
Proof. unfold packClass, packType, packUint16, packUint32, rh_middle. by rewrite <- !app_assoc. Qed.

(** What [Resource.pack] appends, the length already right. *)
Lemma Resource_pack_writes r body len c coff c1 nb c2 bs : r_Body r = Some body ->
  writes (Name_pack (rh_Name (r_Header r))) len c coff c1 nb ->
  writes (body_pack body) (len + zlen nb + 10) c1 coff c2 bs -> zlen bs <= maxUint16 ->
  forall b, zlen b = len -> Resource_pack r b c coff =
    (c2, Ret (mkResource (set_Length (zlen bs) (set_Type (realType body) (r_Header r))) (Some body),
              b ++ nb ++ rh_middle body (r_Header r) ++ be2 (zlen bs) ++ bs)).
Proof.
  intros Eb Hw Hw2 Hl b Hb. set (h := r_Header r) in *. unfold maxUint16 in Hl. pose proof (zlen_nonneg bs).
  unfold Resource_pack. rewrite Eb. fold h. unfold ResourceHeader_pack. cbn [rh_Name set_Type]. rewrite (Hw b Hb). cbn [nested obind].
  cbn [rh_Type rh_Class rh_TTL rh_Length set_Type]. rewrite rh_middle_packs, <- app_assoc. set (q := rh_middle body h).
  change (packUint16 (b ++ nb ++ q) (rh_Length h)) with ((b ++ nb ++ q) ++ be2 (rh_Length h)).
  assert (zlen ((b ++ nb ++ q) ++ be2 (rh_Length h)) = len + zlen nb + 10) as El.
  { rewrite !zlen_app, Hb. change (zlen q) with 8. change (zlen (be2 _)) with 2. lia. }
  rewrite (Hw2 _ El). cbn [nested obind]. unfold fixLen. rewrite El, (zlen_app _ bs), El.
  replace (len + zlen nb + 10 + zlen bs - (len + zlen nb + 10)) with (zlen bs) by lia.
  unfold maxUint16. destruct (Z.gtb_spec (zlen bs) 65535); [lia|]. rewrite (u16_id (zlen bs)) by (unfold is_u16; lia).
  rewrite <- (app_assoc _ (be2 _)), overwrite16_at. cbn [obind]. by rewrite <- !app_assoc.
Qed.

Lemma Resource_codec r m c coff : resource_pk r -> comp_ok m c -> 0 <= coff ->
  entry_codec Resource_pack unpackResource same_resource r m c coff.
Proof.
  intros (Hn & Hcl & Httl & body & Eb & Hbody) Hc Hcoff. set (h := r_Header r) in *.
  destruct (Name_codec (rh_Name h) m c coff Hn Hc Hcoff) as (c1 & nb & Hw & Hc1 & _ & Hu & _).
  set (q := rh_middle body h). set (mL := fun l => m ++ nb ++ q ++ be2 l).
  assert (forall l, comp_ok (mL l) c1) as HcL by (intros l; unfold mL; rewrite app_assoc; by apply comp_ok_app).
  assert (forall l, zlen (mL l) = zlen m + zlen nb + 10) as HlL.
  { intros l. unfold mL. rewrite !zlen_app. change (zlen q) with 8. change (zlen (be2 l)) with 2. lia. }
  destruct (body_codec_ok body (mL 0) c1 coff Hbody (HcL 0) Hcoff) as (c2 & bs & Hw0 & _ & Hl0 & _).
  pose proof (zlen_nonneg bs) as Hl0'. assert (is_u16 (zlen bs)) as Hlu by (unfold is_u16; unfold maxUint16 in Hl0; lia).
  destruct (body_codec_ok body (mL (zlen bs)) c1 coff Hbody (HcL _) Hcoff) as (c2' & bs' & Hw1 & Hc2 & _ & Hun).
  rewrite HlL in Hw0, Hw1. pose proof (zlen_nonneg m). pose proof (zlen_nonneg nb).
  assert (0 <= coff + (zlen m + zlen nb + 10)) as Hpos by lia.
  destruct (writes_det _ _ _ _ _ _ _ _ Hpos Hw1 Hw0) as [-> ->]. clear Hw1.
  replace (coff + (zlen m + zlen nb + 10)) with (coff + zlen m + zlen nb + 10) in Hw0 by lia.
  eexists _, c2, (nb ++ q ++ be2 (zlen bs) ++ bs). split_and!.
  - exact (Resource_pack_writes r body _ c coff c1 nb c2 bs Eb Hw Hw0 Hl0).
  - replace (m ++ nb ++ q ++ be2 (zlen bs) ++ bs) with (mL (zlen bs) ++ bs) by (unfold mL; by rewrite <- !app_assoc). done.
  - by exists body, (zlen bs).
  - intros post. unfold unpackResource.
    replace (m ++ (nb ++ q ++ be2 (zlen bs) ++ bs) ++ post) with (m ++ nb ++ (q ++ be2 (zlen bs)) ++ bs ++ post) by (by rewrite <- !app_assoc).
    rewrite (ResourceHeader_unpack_holds _ _ (rh_Name h) (realType body) (rh_Class h) (rh_TTL h) (zlen bs) (zlen m + zlen nb));
      [|apply Hu|by apply realType_u16|done..|].
    2: { replace (be2 (realType body) ++ be2 (rh_Class h) ++ be4 (rh_TTL h) ++ be2 (zlen bs)) with (q ++ be2 (zlen bs))
           by (unfold q, rh_middle; by rewrite <- !app_assoc).
         rewrite app_assoc. apply holds_mid. by rewrite zlen_app. }
    cbn [obind]. specialize (Hun post). unfold mL in Hun. rewrite <- !app_assoc in Hun. rewrite <- app_assoc.
    rewrite (unpackResourceBody_type body _ _ (mkRH (rh_Name h) (realType body) (rh_Class h) (rh_TTL h) (zlen bs))); [|done..|].
    + cbn [obind rh_Length]. do 2 f_equal. rewrite !zlen_app. change (zlen q) with 8. change (zlen (be2 (zlen bs))) with 2. lia.
    + cbn [rh_Length]. rewrite <- (HlL (zlen bs)). unfold mL. exact Hun.
Qed.

(** ** Sections *)
Fixpoint unpackN {A} (unpack : bytes -> Z -> result (A * Z)) (n : nat) (msg : bytes) (off : Z) : result (list A * Z) :=
  match n with
  | O => Ret ([], off)
  | S n =>
      let! x := unpack msg off in let '(a, off) := (x : A * Z) in
      let! y := unpackN unpack n msg off in let '(l, off) := (y : list A * Z) in
      Ret (a :: l, off)
  end.

Lemma packAll_codec {A} (pack : A -> bytes -> compression_map -> Z -> compression_map * result (A * bytes)) unpack same (ok : A -> Prop) what coff l :
  0 <= coff -> (forall a m c, ok a -> comp_ok m c -> entry_codec pack unpack same a m c coff) -> Forall ok l ->
  forall m c, comp_ok m c -> exists l' c' bs,
    (forall b, zlen b = coff + zlen m -> packAll pack what l b c coff = (c', Ret (l', b ++ bs))) /\
    comp_ok (m ++ bs) c' /\ Forall2 same l l' /\
    forall post, unpackN unpack (length l) (m ++ bs ++ post) (zlen m) = Ret (l', zlen m + zlen bs).
Proof.
  intros Hcoff Hone. induction 1 as [|a l Ha _ IH]; intros m c Hc.
  - exists [], c, []. split_and!; [intros b _; cbn; by rewrite app_nil_r|by rewrite app_nil_r|constructor|].
    intros post. cbn. by rewrite Z.add_0_r.
  - destruct (Hone a m c Ha Hc) as (a' & c1 & b1 & Hp1 & Hc1 & Hs1 & Hu1).
    destruct (IH (m ++ b1) c1 Hc1) as (l' & c2 & b2 & Hp2 & Hc2 & Hs2 & Hu2).
    exists (a' :: l'), c2, (b1 ++ b2). split_and!.
    + intros b Hb. cbn [packAll]. rewrite (Hp1 b Hb), Hp2 by (rewrite !zlen_app; lia). cbn [obind]. by rewrite app_assoc.
    + by rewrite app_assoc.
    + by constructor.
    + intros post. cbn [length unpackN]. specialize (Hu1 (b2 ++ post)). rewrite <- app_assoc, Hu1. cbn [obind].
      specialize (Hu2 post). rewrite <- app_assoc, zlen_app in Hu2. rewrite Hu2. cbn [obind]. rewrite zlen_app. do 2 f_equal. lia.
Qed.

(** The parser between entries: before entry [i] of a section, at offset [off]. *)
Definition at_pos (p : Parser) (msg : bytes) (h : header) (sec : section) (off i : Z) : Prop :=
  p_msg p = msg /\ p_header p = h /\ p_section p = sec /\ p_off p = off /\ p_index p = i /\ p_resHeaderValid p = false.

Definition parses {A} (one : Parser -> Parser * result A) (unpack : bytes -> Z -> result (A * Z)) (sec : section) : Prop :=
  forall p msg h off i, at_pos p msg h sec off i ->
  (i = header_count h sec -> exists p', one p = (p', Fail ErrSectionDone) /\ at_pos p' msg h (section_next sec) off 0) /\
  (forall a off', i <> header_count h sec -> unpack msg off = Ret (a, off') ->
     exists p', one p = (p', Ret a) /\ at_pos p' msg h sec off' (i + 1)).

Lemma checkAdvance_at p msg h sec off i : at_pos p msg h sec off i ->
  exists p', (i = header_count h sec -> checkAdvance p sec = (p', Fail ErrSectionDone) /\ at_pos p' msg h (section_next sec) off 0) /\
  (i <> header_count h sec -> checkAdvance p sec = (p', Ret tt) /\ at_pos p' msg h sec off i).
Proof.
  intros (Em & Eh & Es & Eo & Ei & Ev). unfold checkAdvance. rewrite Es, Z.ltb_irrefl. destruct (Z.gtb_spec (section_num sec) (section_num sec)); [lia|].
  cbn [set_valid p_index p_header]. rewrite Ei, Eh. destruct (Z.eqb_spec i (header_count h sec)) as [->|].
  - eexists. split; [intros _; split; [done|]|done]. unfold at_pos. cbn. by rewrite Es.
  - eexists. split; [done|]. intros _. split; [done|]. done.
Qed.

Lemma Parser_Question_parses : parses Parser_Question unpackQuestion sectionQuestions.
Proof.
  intros p msg h off i H. destruct (checkAdvance_at _ _ _ _ _ _ H) as (p1 & Hend & Hone). unfold Parser_Question. split.
  - intros Hi. destruct (Hend Hi) as [-> ?]. by exists p1.
  - intros q off' Hi E. destruct (Hone Hi) as [-> (Em & Eh & Es & Eo & Ei & Ev)]. rewrite Em, Eo, E. eexists. split; [done|].
    unfold at_pos. cbn. by rewrite Em, Eh, Es, Ei, Ev.
Qed.

Lemma Parser_resource_parses sec : parses (fun p => Parser_resource p sec) unpackResource sec.
Proof.
  intros p msg h off i H. destruct (checkAdvance_at _ _ _ _ _ _ H) as (p1 & Hend & Hone). unfold Parser_resource, resourceHeader.
  destruct H as (_ & _ & _ & _ & _ & ->). split.
  - intros Hi. destruct (Hend Hi) as [-> ?]. by exists p1.
  - intros r off' Hi E. destruct (Hone Hi) as [-> (Em & Eh & Es & Eo & Ei & Ev)]. unfold unpackResource in E.
    apply obind_Ret in E as ([rh off1] & E1 & E). apply obind_Ret in E as ([b off2] & E2 & [= <- <-]).
    rewrite Em, Eo, E1. cbn [set_valid p_msg p_off]. rewrite E2. eexists. split; [done|].
    unfold at_pos. cbn. by rewrite Eh, Es, Ei.
Qed.

Lemma all_parses {A} (one : Parser -> Parser * result A) unpack sec l msg h off off' p : parses one unpack sec ->
  at_pos p msg h sec off 0 -> header_count h sec = zlen l -> zlen l <= maxUint16 -> unpackN unpack (length l) msg off = Ret (l, off') ->
  exists p', all one p = (p', Ret l) /\ at_pos p' msg h (section_next sec) off' 0.
Proof.
  intros Hone Hp Hcount Hmax. unfold all.
  assert (forall k fuel i p off acc l2, length l2 = k -> at_pos p msg h sec off i -> header_count h sec = i + zlen l2 ->
    unpackN unpack k msg off = Ret (l2, off') -> zlen l2 < Z.of_nat fuel ->
    exists p', allLoop fuel one p acc = Some (p', Ret (acc ++ l2)) /\ at_pos p' msg h (section_next sec) off' 0) as Hloop.
  { clear p off Hp. induction k as [|k IH]; intros fuel i p off acc l2 Hk Hp Hi Hu Hf; (destruct fuel as [|fuel]; [pose proof (zlen_nonneg l2); lia|]);
      destruct l2 as [|a l2]; try done; cbn [allLoop]; destruct (Hone p msg h off i Hp) as [Hend Hnext].
    - change (zlen []) with 0 in Hi. destruct Hend as (p' & -> & Hp'); [lia|]. injection Hu as <-. exists p'. by rewrite app_nil_r.
    - rewrite zlen_cons in Hi, Hf. pose proof (zlen_nonneg l2). cbn [unpackN] in Hu.
      apply obind_Ret in Hu as ([a1 off1] & E1 & Hu). apply obind_Ret in Hu as ([l1 off2] & E2 & [= -> -> ->]).
      destruct (Hnext a off1) as (p' & -> & Hp'); [lia|done|].
      destruct (IH fuel (i + 1) p' off1 (acc ++ [a]) l2) as (p2 & E & Hp2); [by injection Hk|done|lia|done|lia|].
      exists p2. by rewrite E, <- app_assoc. }
  intros Hu. destruct (Hloop (length l) (allFuel p) 0 p off [] l) as (p' & -> & Hp'); [done..|unfold allFuel; unfold maxUint16 in *; lia|].
  by exists p'.
Qed.

(** ** The message header *)
Definition hdr_bytes (h : header) : bytes :=
  be2 (hd_id h) ++ be2 (hd_bits h) ++ be2 (hd_questions h) ++ be2 (hd_answers h) ++ be2 (hd_authorities h) ++ be2 (hd_additionals h).

Lemma header_pack_bytes h b : header_pack h b = b ++ hdr_bytes h.
Proof. unfold header_pack, packUint16, hdr_bytes. by rewrite <- !app_assoc. Qed.

Lemma header_unpack_bytes h post : hdr_wf h -> header_unpack (hdr_bytes h ++ post) 0 = Ret (h, 12).
Proof.
  intros (H1 & H2 & H3 & H4 & H5 & H6). assert (holds (hdr_bytes h ++ post) 0 (hdr_bytes h)) as H by by apply (holds_mid []).
  unfold hdr_bytes at 2 in H. apply holds_app in H as [A1 H]. apply holds_app in H as [A2 H]. apply holds_app in H as [A3 H].
  apply holds_app in H as [A4 H]. apply holds_app in H as [A5 A6]. change (zlen (be2 _)) with 2 in *. unfold header_unpack.
  rewrite (unpackUint16_holds _ _ _ H1 A1). cbn [nested obind]. rewrite (unpackUint16_holds _ _ _ H2 A2). cbn [nested obind].
  rewrite (unpackUint16_holds _ _ _ H3 A3). cbn [nested obind]. rewrite (unpackUint16_holds _ _ _ H4 A4). cbn [nested obind].
  rewrite (unpackUint16_holds _ _ _ H5 A5). cbn [nested obind]. rewrite (unpackUint16_holds _ _ _ H6 A6). by destruct h.
Qed.

(** The two bytes of flags hold every field of the header. *)
Definition flags_ok (op rc : Z) (b1 b2 b3 b4 b5 b6 b7 : bool) : bool :=
  let bits := snd (Header_pack (mkHeader 0 b1 op b2 b3 b4 b5 b6 b7 rc)) in
  let h := header_header (mkHdr 0 bits 0 0 0 0) in
  (0 <=? bits) && (bits <? 65536) && (h_OpCode h =? op) && (h_RCode h =? rc) && Bool.eqb (h_Response h) b1 &&
  Bool.eqb (h_Authoritative h) b2 && Bool.eqb (h_Truncated h) b3 && Bool.eqb (h_RecursionDesired h) b4 &&
  Bool.eqb (h_RecursionAvailable h) b5 && Bool.eqb (h_AuthenticData h) b6 && Bool.eqb (h_CheckingDisabled h) b7.

Definition both (f : bool -> bool) : bool := f true && f false.

Lemma both_spec f : both f = true -> forall b, f b = true.
Proof. intros [H1 H2]%andb_true_iff []; done. Qed.

Lemma flags_all op rc b1 b2 b3 b4 b5 b6 b7 : 0 <= op < 16 -> 0 <= rc < 16 -> flags_ok op rc b1 b2 b3 b4 b5 b6 b7 = true.
Proof.
  intros Hop Hrc.
  pose proof (forallb_range (fun op => forallb (fun rc => both (fun b1 => both (fun b2 => both (fun b3 => both (fun b4 =>
    both (fun b5 => both (fun b6 => both (fun b7 => flags_ok op rc b1 b2 b3 b4 b5 b6 b7)))))))) (seqZ 0 16)) 16
    ltac:(vm_compute; reflexivity) op Hop) as H. cbv beta in H.
  pose proof (forallb_range _ 16 H rc Hrc) as H'. cbv beta in H'. clear H.
  pose proof (both_spec _ H' b1) as H1. cbv beta in H1. pose proof (both_spec _ H1 b2) as H2. cbv beta in H2.
  pose proof (both_spec _ H2 b3) as H3. cbv beta in H3. pose proof (both_spec _ H3 b4) as H4. cbv beta in H4.
  pose proof (both_spec _ H4 b5) as H5. cbv beta in H5. pose proof (both_spec _ H5 b6) as H6. cbv beta in H6.
  exact (both_spec _ H6 b7).
Qed.

Lemma Header_pack_bits h q a n r : header_wf h -> let '(id, bits) := Header_pack h in
  id = h_ID h /\ is_u16 bits /\ header_header (mkHdr id bits q a n r) = h.
Proof.
  intros (_ & Hop & Hrc). destruct h as [id b1 op b2 b3 b4 b5 b6 b7 rc]. cbn [h_OpCode h_RCode] in *.
  pose proof (flags_all op rc b1 b2 b3 b4 b5 b6 b7 ltac:(lia) ltac:(lia)) as H. unfold flags_ok in H.
  change (Header_pack (mkHeader id b1 op b2 b3 b4 b5 b6 b7 rc))
    with (id, snd (Header_pack (mkHeader 0 b1 op b2 b3 b4 b5 b6 b7 rc))).
  set (bits := snd (Header_pack (mkHeader 0 b1 op b2 b3 b4 b5 b6 b7 rc))) in *. clearbody bits.
  repeat (apply andb_true_iff in H as [H ?]). breflect. split_and!; [done|unfold is_u16; lia|].
  repeat (match goal with H : Bool.eqb _ _ = true |- _ => apply eqb_prop in H end).
  unfold header_header in *. cbn [hd_id hd_bits h_OpCode h_RCode h_Response h_Authoritative h_Truncated h_RecursionDesired
    h_RecursionAvailable h_AuthenticData h_CheckingDisabled] in *. by subst.
Qed.

(** ** Messages *)
Definition message_pk (m : Message) : Prop :=
  header_wf (m_Header m) /\
  (Forall question_pk (m_Questions m) /\ zlen (m_Questions m) <= maxUint16) /\
  (Forall resource_pk (m_Answers m) /\ zlen (m_Answers m) <= maxUint16) /\
  (Forall resource_pk (m_Authorities m) /\ zlen (m_Authorities m) <= maxUint16) /\
  (Forall resource_pk (m_Additionals m) /\ zlen (m_Additionals m) <= maxUint16).

Definition same_message (m m' : Message) : Prop :=
  m_Header m' = m_Header m /\ m_Questions m' = m_Questions m /\ Forall2 same_resource (m_Answers m) (m_Answers m') /\
  Forall2 same_resource (m_Authorities m) (m_Authorities m') /\ Forall2 same_resource (m_Additionals m) (m_Additionals m').

(** The header [AppendPack] writes. *)
Definition message_hdr (m : Message) : header :=
  let '(id, bits) := Header_pack (m_Header m) in
  mkHdr id bits (zlen (m_Questions m)) (zlen (m_Answers m)) (zlen (m_Authorities m)) (zlen (m_Additionals m)).

Lemma message_hdr_wf m : message_pk m -> hdr_wf (message_hdr m) /\ header_header (message_hdr m) = m_Header m.
Proof.
  intros (Hh & [_ H1] & [_ H2] & [_ H3] & [_ H4]). unfold maxUint16, message_hdr in *.
  pose proof (Header_pack_bits (m_Header m) (zlen (m_Questions m)) (zlen (m_Answers m)) (zlen (m_Authorities m)) (zlen (m_Additionals m)) Hh) as H.
  destruct (Header_pack (m_Header m)) as [id bits]. destruct H as (-> & Hb & E). split; [|done]. destruct Hh as (Hid & _).
  pose proof (zlen_nonneg (m_Questions m)). pose proof (zlen_nonneg (m_Answers m)). pose proof (zlen_nonneg (m_Authorities m)).
  pose proof (zlen_nonneg (m_Additionals m)). unfold hdr_wf. cbn. unfold is_u16 in *. split_and!; lia.
Qed.

Lemma AppendPack_counts m b : message_pk m ->
  AppendPack m b =
    let msg := b ++ hdr_bytes (message_hdr m) in
    let '(c, r) := packAll Question_pack' "packing Question" (m_Questions m) msg (Some ∅) (zlen b) in
    let! p := r in let '(qs, msg) := (p : list Question * bytes) in
    let '(c, r) := packAll Resource_pack "packing Answer" (m_Answers m) msg c (zlen b) in
    let! p := r in let '(as_, msg) := (p : list Resource * bytes) in
    let '(c, r) := packAll Resource_pack "packing Authority" (m_Authorities m) msg c (zlen b) in
    let! p := r in let '(ns, msg) := (p : list Resource * bytes) in
    let '(c, r) := packAll Resource_pack "packing Additional" (m_Additionals m) msg c (zlen b) in
    let! p := r in let '(ar, msg) := (p : list Resource * bytes) in
    Ret (mkMessage (m_Header m) qs as_ ns ar, msg).
Proof.
  intros (_ & [_ H1] & [_ H2] & [_ H3] & [_ H4]). unfold AppendPack, message_hdr. rewrite !Z.gtb_ltb.
  pose proof (zlen_nonneg (m_Questions m)). pose proof (zlen_nonneg (m_Answers m)). pose proof (zlen_nonneg (m_Authorities m)).
  pose proof (zlen_nonneg (m_Additionals m)). unfold maxUint16 in *.
  destruct (Z.ltb_spec 65535 (zlen (m_Questions m))), (Z.ltb_spec 65535 (zlen (m_Answers m))),
    (Z.ltb_spec 65535 (zlen (m_Authorities m))), (Z.ltb_spec 65535 (zlen (m_Additionals m))); try lia.
  destruct (Header_pack (m_Header m)) as [id bits]. rewrite !u16_id by (unfold is_u16; lia). by rewrite header_pack_bytes.
Qed.

(** Packing a section: [bs] is appended to any message of [len] bytes. *)
Definition packs {A} (pack : A -> bytes -> compression_map -> Z -> compression_map * result (A * bytes)) (what : string)
    (l l' : list A) (len : Z) (c : compression_map) (coff : Z) (c' : compression_map) (bs : bytes) : Prop :=
  forall b, zlen b = len -> packAll pack what l b c coff = (c', Ret (l', b ++ bs)).

(** The four sections of a message, packed in turn after a header, and read back. *)
Definition sections_codec (m : Message) (coff : Z) (m' : Message) (b1 b2 b3 b4 : bytes) : Prop :=
  exists c1 c2 c3 c4,
    packs Question_pack' "packing Question" (m_Questions m) (m_Questions m') (coff + 12) (Some ∅) coff c1 b1 /\
    packs Resource_pack "packing Answer" (m_Answers m) (m_Answers m') (coff + 12 + zlen b1) c1 coff c2 b2 /\
    packs Resource_pack "packing Authority" (m_Authorities m) (m_Authorities m') (coff + 12 + zlen b1 + zlen b2) c2 coff c3 b3 /\
    packs Resource_pack "packing Additional" (m_Additionals m) (m_Additionals m') (coff + 12 + zlen b1 + zlen b2 + zlen b3) c3 coff c4 b4.

Lemma message_sections m coff : message_pk m -> 0 <= coff -> exists m' b1 b2 b3 b4,
  sections_codec m coff m' b1 b2 b3 b4 /\ same_message m m' /\
  forall post, let msg := hdr_bytes (message_hdr m) ++ b1 ++ b2 ++ b3 ++ b4 ++ post in
    unpackN unpackQuestion (length (m_Questions m')) msg 12 = Ret (m_Questions m', 12 + zlen b1) /\
    unpackN unpackResource (length (m_Answers m')) msg (12 + zlen b1) = Ret (m_Answers m', 12 + zlen b1 + zlen b2) /\
    unpackN unpackResource (length (m_Authorities m')) msg (12 + zlen b1 + zlen b2) =
      Ret (m_Authorities m', 12 + zlen b1 + zlen b2 + zlen b3) /\
    unpackN unpackResource (length (m_Additionals m')) msg (12 + zlen b1 + zlen b2 + zlen b3) =
      Ret (m_Additionals m', 12 + zlen b1 + zlen b2 + zlen b3 + zlen b4).
Proof.
  intros (_ & [HQ _] & [HA _] & [HN _] & [HR _]) Hb. set (m0 := hdr_bytes (message_hdr m)).
  pose proof (fun q m c Hq Hc => Question_codec q m c coff Hq Hc Hb) as Hqc.
  pose proof (fun r m c Hr Hc => Resource_codec r m c coff Hr Hc Hb) as Hrc.
  destruct (packAll_codec _ _ _ _ "packing Question" _ _ Hb Hqc HQ m0 (Some ∅) (comp_ok_empty _)) as (qs & c1 & b1 & P1 & C1 & S1 & U1).
  destruct (packAll_codec _ _ _ _ "packing Answer" _ _ Hb Hrc HA (m0 ++ b1) c1 C1) as (an & c2 & b2 & P2 & C2 & S2 & U2).
  destruct (packAll_codec _ _ _ _ "packing Authority" _ _ Hb Hrc HN ((m0 ++ b1) ++ b2) c2 C2) as (au & c3 & b3 & P3 & C3 & S3 & U3).
  destruct (packAll_codec _ _ _ _ "packing Additional" _ _ Hb Hrc HR (((m0 ++ b1) ++ b2) ++ b3) c3 C3) as (ad & c4 & b4 & P4 & C4 & S4 & U4).
  assert (qs = m_Questions m) as -> by (symmetry; by apply list_eq_Forall2).
  exists (mkMessage (m_Header m) (m_Questions m) an au ad), b1, b2, b3, b4. rewrite !zlen_app, !Z.add_assoc in *.
  change (zlen m0) with 12 in *. split_and!; [exists c1, c2, c3, c4; split_and!; done|done|].
  intros post. specialize (U1 (b2 ++ b3 ++ b4 ++ post)). specialize (U2 (b3 ++ b4 ++ post)). specialize (U3 (b4 ++ post)). specialize (U4 post).
  rewrite <- !app_assoc in U2. rewrite <- !app_assoc in U3. rewrite <- !app_assoc in U4.
  rewrite (Forall2_length _ _ _ S2) in U2. rewrite (Forall2_length _ _ _ S3) in U3. by rewrite (Forall2_length _ _ _ S4) in U4.
Qed.

Lemma zlen_same l l' : Forall2 same_resource l l' -> zlen l' = zlen l.
Proof. intros F. unfold zlen. by rewrite (Forall2_length _ _ _ F). Qed.

Lemma Unpack_sections m m' b1 b2 b3 b4 msg : message_pk m -> same_message m m' ->
  (exists post, msg = hdr_bytes (message_hdr m) ++ b1 ++ b2 ++ b3 ++ b4 ++ post) ->
  unpackN unpackQuestion (length (m_Questions m')) msg 12 = Ret (m_Questions m', 12 + zlen b1) ->
  unpackN unpackResource (length (m_Answers m')) msg (12 + zlen b1) = Ret (m_Answers m', 12 + zlen b1 + zlen b2) ->
  unpackN unpackResource (length (m_Authorities m')) msg (12 + zlen b1 + zlen b2) =
    Ret (m_Authorities m', 12 + zlen b1 + zlen b2 + zlen b3) ->
  unpackN unpackResource (length (m_Additionals m')) msg (12 + zlen b1 + zlen b2 + zlen b3) =
    Ret (m_Additionals m', 12 + zlen b1 + zlen b2 + zlen b3 + zlen b4) ->
  Unpack msg = Ret m'.
Proof.
  intros Hm (S0 & S1 & S2 & S3 & S4) (post & Emsg) U1 U2 U3 U4. pose proof (message_hdr_wf m Hm) as [Hwf Hhdr].
  destruct (Hm) as (_ & [_ Q] & [_ A] & [_ N] & [_ R]). set (h := message_hdr m) in *.
  apply zlen_same in S2 as L2, S3 as L3, S4 as L4. rewrite <- L2 in A. rewrite <- L3 in N. rewrite <- L4 in R. rewrite <- S1 in Q.
  unfold Unpack, Start. rewrite Emsg at 1. rewrite header_unpack_bytes by done. cbn [nested obind].
  set (p0 := mkParser msg h sectionQuestions 12 0 false zeroRH). rewrite Hhdr.
  assert (at_pos p0 msg h sectionQuestions 12 0) as Hp0 by (split_and!; done).
  assert (header_count h sectionQuestions = zlen (m_Questions m') /\ header_count h sectionAnswers = zlen (m_Answers m') /\
    header_count h sectionAuthorities = zlen (m_Authorities m') /\ header_count h sectionAdditionals = zlen (m_Additionals m')) as (N1 & N2 & N3 & N4).
  { rewrite L2, L3, L4, S1. unfold h, message_hdr. by destruct (Header_pack (m_Header m)). }
  destruct (all_parses _ _ _ _ _ _ _ _ p0 Parser_Question_parses Hp0 N1 Q U1) as (p1 & E1 & Hp1).
  unfold AllQuestions. rewrite E1. cbn [obind].
  destruct (all_parses _ _ _ _ _ _ _ _ p1 (Parser_resource_parses sectionAnswers) Hp1 N2 A U2) as (p2 & E2 & Hp2).
  unfold AllAnswers, Answer. rewrite E2. cbn [obind].
  destruct (all_parses _ _ _ _ _ _ _ _ p2 (Parser_resource_parses sectionAuthorities) Hp2 N3 N U3) as (p3 & E3 & Hp3).
  unfold AllAuthorities, Authority. rewrite E3. cbn [obind].
  destruct (all_parses _ _ _ _ _ _ _ _ p3 (Parser_resource_parses sectionAdditionals) Hp3 N4 R U4) as (p4 & E4 & Hp4).
  unfold AllAdditionals, Additional. rewrite E4. cbn [obind]. rewrite <- S0. by destruct m'.
Qed.

Lemma message_packed m b : message_pk m -> exists m' b1 b2 b3 b4,
  sections_codec m (zlen b) m' b1 b2 b3 b4 /\
  AppendPack m b = Ret (m', b ++ hdr_bytes (message_hdr m) ++ b1 ++ b2 ++ b3 ++ b4) /\ same_message m m' /\
  forall post, Unpack ((hdr_bytes (message_hdr m) ++ b1 ++ b2 ++ b3 ++ b4) ++ post) = Ret m'.
Proof.
  intros Hm. destruct (message_sections m (zlen b) Hm (zlen_nonneg b)) as (m' & b1 & b2 & b3 & b4 & Hs & Hsame & Hu).
  exists m', b1, b2, b3, b4. split_and!; [done| |done|].
  - destruct Hs as (c1 & c2 & c3 & c4 & P1 & P2 & P3 & P4). unfold packs in *. destruct Hsame as (E & _).
    rewrite AppendPack_counts by done. cbv zeta. set (m0 := hdr_bytes (message_hdr m)).
    assert (zlen (b ++ m0) = zlen b + 12) as E0 by (rewrite zlen_app; done).
    rewrite P1 by done. cbn [obind]. rewrite P2 by (rewrite zlen_app; lia). cbn [obind].
    rewrite P3 by (rewrite !zlen_app in *; lia). cbn [obind]. rewrite P4 by (rewrite !zlen_app in *; lia). cbn [obind].
    rewrite <- !app_assoc, <- E. by destruct m'.
  - intros post. destruct (Hu post) as (U1 & U2 & U3 & U4). rewrite <- !app_assoc.
    apply (Unpack_sections m m' b1 b2 b3 b4); eauto.
Qed.
