(* ===== verification/DnsMessage.v ===== *)
(** * Package dnsmessage: messages

    The properties of whole messages: what [Pack] writes [Unpack] reads, the [Builder]
    writes the same bytes as [Pack], and where writing and reading part ways. *)

From S2P Require Import Prelude DnsMsg DnsBody DnsParser DnsName DnsSafe DnsTrip.

(** ** The Builder *)
Definition Builder_add (B : Builder) (h : ResourceHeader) (body : ResourceBody) : Builder * result unit :=
  match body with
  | AResource a => Builder_AResource B h a
  | NSResource n => Builder_NSResource B h n
  | CNAMEResource n => Builder_CNAMEResource B h n
  | SOA r => Builder_SOAResource B h r
  | PTRResource n => Builder_PTRResource B h n
  | MX r => Builder_MXResource B h r
  | TXTResource l => Builder_TXTResource B h l
  | AAAAResource a => Builder_AAAAResource B h a
  | SRV r => Builder_SRVResource B h r
  | OPTResource l => Builder_OPTResource B h l
  | Unknown r => Builder_UnknownResource B h r
  end.

Definition Builder_resource (B : Builder) (r : Resource) : Builder * result unit :=
  match r_Body r with Some body => Builder_add B (r_Header r) body | None => (B, Fail errNilResouceBody) end.

(** Calls in turn, until one fails. *)
Fixpoint add_all {A} (add : Builder -> A -> Builder * result unit) (l : list A) (B : Builder) : Builder * result unit :=
  match l with
  | [] => (B, Ret tt)
  | a :: l => match add B a with (B, Ret _) => add_all add l B | (B, r) => (B, r) end
  end.

Definition and_then {A} (x : Builder * result unit) (k : Builder -> Builder * result A) : Builder * result A :=
  match x with (B, Ret _) => k B | (B, Fail e) => (B, Fail e) | (B, Panic) => (B, Panic) end.

(** A message written with the [Builder]. *)
Definition build (m : Message) (buf : bytes) : Builder * result bytes :=
  let B := EnableCompression (NewBuilder buf (m_Header m)) in
  and_then (StartQuestions B) (fun B =>
  and_then (add_all Builder_Question (m_Questions m) B) (fun B =>
  and_then (StartAnswers B) (fun B =>
  and_then (add_all Builder_resource (m_Answers m) B) (fun B =>
  and_then (StartAuthorities B) (fun B =>
  and_then (add_all Builder_resource (m_Authorities m) B) (fun B =>
  and_then (StartAdditionals B) (fun B =>
  and_then (add_all Builder_resource (m_Additionals m) B) Finish))))))).

(** The header with [n] more entries in a section. *)
Definition count_more (n : Z) (sec : section) (h : header) : header :=
  match sec with
  | sectionQuestions => mkHdr (hd_id h) (hd_bits h) (hd_questions h + n) (hd_answers h) (hd_authorities h) (hd_additionals h)
  | sectionAnswers => mkHdr (hd_id h) (hd_bits h) (hd_questions h) (hd_answers h + n) (hd_authorities h) (hd_additionals h)
  | sectionAuthorities => mkHdr (hd_id h) (hd_bits h) (hd_questions h) (hd_answers h) (hd_authorities h + n) (hd_additionals h)
  | sectionAdditionals => mkHdr (hd_id h) (hd_bits h) (hd_questions h) (hd_answers h) (hd_authorities h) (hd_additionals h + n)
  | _ => h
  end.

Definition counted (sec : section) : Prop :=
  sec = sectionQuestions \/ sec = sectionAnswers \/ sec = sectionAuthorities \/ sec = sectionAdditionals.

Lemma incrementSectionCount_more h sec : counted sec -> header_count h sec < maxUint16 ->
  incrementSectionCount h sec = Ret (count_more 1 sec h).
Proof.
  intros [-> | [-> | [-> | ->]]]; cbn; unfold maxUint16; intros H;
    match goal with |- context [?x =? _] => destruct (Z.eqb_spec x 65535) end; done || lia.
Qed.

(** A method of the builder does to its message what packing the entry does. *)
Definition adds {A} (pack : A -> bytes -> compression_map -> Z -> compression_map * result (A * bytes))
    (add : Builder -> A -> Builder * result unit) (a : A) (secs : section -> Prop) : Prop :=
  forall B c a' msg, secs (b_section B) -> counted (b_section B) -> header_count (b_header B) (b_section B) < maxUint16 ->
  pack a (b_msg B) (b_compression B) (b_start B) = (c, Ret (a', msg)) ->
  add B a = (mkBuilder msg (b_section B) (count_more 1 (b_section B) (b_header B)) (b_start B) c, Ret tt).

Lemma Builder_Question_adds q : adds Question_pack' Builder_Question q (eq sectionQuestions).
Proof.
  intros B c a' msg Hs Hc Hn E. unfold Builder_Question. rewrite <- Hs in *. cbn [section_num]. rewrite Z.ltb_irrefl. cbn [Z.gtb Z.compare Pos.compare Pos.compare_cont].
  unfold Question_pack' in E. destruct (Question_pack q (b_msg B) (b_compression B) (b_start B)) as [c1 [m1| |]]; try done.
  cbn [obind] in E. injection E as <- _ <-. unfold commit. cbn [set_compression b_section b_header b_start b_compression b_msg].
  rewrite <- Hs. by rewrite incrementSectionCount_more.
Qed.

Lemma Builder_resource_adds r : adds Resource_pack Builder_resource r (fun s => s <> sectionQuestions).
Proof.
  intros B c a' msg Hs Hc Hn E. unfold Builder_resource. unfold Resource_pack in E. destruct (r_Body r) as [body|]; [|done].
  assert (exists what, Builder_add B (r_Header r) body = addResource what B (r_Header r) body) as [what ->].
  { destruct body; cbn [Builder_add]; unfold Builder_AResource, Builder_NSResource, Builder_CNAMEResource, Builder_SOAResource,
      Builder_PTRResource, Builder_MXResource, Builder_TXTResource, Builder_AAAAResource, Builder_SRVResource, Builder_OPTResource,
      Builder_UnknownResource; eexists; reflexivity. }
  assert (checkResourceSection B = Ret tt) as Hchk.
  { unfold checkResourceSection. by destruct Hc as [? | [-> | [-> | ->]]]. }
  unfold addResource. rewrite Hchk.
  destruct (ResourceHeader_pack (set_Type (realType body) (r_Header r)) (b_msg B) (b_compression B) (b_start B)) as [c1 [[m1 lo]| |]];
    cbn [nested] in *; [|done..].
  destruct (body_pack body m1 c1 (b_start B)) as [c2 r2]. injection E as <- E. apply obind_Ret in E as (m2 & E2 & E).
  apply nested_Ret in E2 as ->. cbn [nested obind].
  destruct (fixLen (set_Type (realType body) (r_Header r)) m2 lo (zlen m1)) as [[h3 m3]| |]; cbn [obind] in E; [|done..].
  injection E as _ <-. cbn [obind commit snd set_compression b_section b_header b_start b_compression b_msg]. by rewrite incrementSectionCount_more.
Qed.

Lemma add_all_adds {A} pack (add : Builder -> A -> Builder * result unit) what l secs : (forall a, adds pack add a secs) ->
  forall B c l' msg, secs (b_section B) -> counted (b_section B) ->
  header_count (b_header B) (b_section B) + zlen l <= maxUint16 ->
  packAll pack what l (b_msg B) (b_compression B) (b_start B) = (c, Ret (l', msg)) ->
  add_all add l B = (mkBuilder msg (b_section B) (count_more (zlen l) (b_section B) (b_header B)) (b_start B) c, Ret tt).
Proof.
  intros Hadd. induction l as [|a l IH]; intros B c l' msg Hs Hc Hn E; cbn [add_all].
  - injection E as <- _ <-. change (zlen []) with 0. destruct B as [m s h st c]. cbn. do 2 f_equal. destruct h, s; cbn; by rewrite ?Z.add_0_r.
  - rewrite zlen_cons in Hn. pose proof (zlen_nonneg l). cbn [packAll] in E.
    destruct (pack a (b_msg B) (b_compression B) (b_start B)) as [c1 [[a1 m1]| |]] eqn:E1; [|done..].
    rewrite (Hadd a B c1 a1 m1 Hs Hc); [|lia|done]. set (B1 := mkBuilder m1 _ _ _ c1).
    destruct (packAll pack what l m1 c1 (b_start B)) as [c2 [[l2 m2]| |]] eqn:E2; cbn [obind] in E; [|done..]. injection E as <- _ <-.
    assert (header_count (b_header B1) (b_section B1) + zlen l <= maxUint16) as Hn1.
    { unfold B1. cbn [b_header b_section]. destruct Hc as [E0 | [E0 | [E0 | E0]]]; rewrite E0 in *; cbn in *; lia. }
    rewrite (IH B1 c2 l2 m2 Hs Hc Hn1 E2). unfold B1. cbn [b_msg b_section b_header b_start b_compression]. do 2 f_equal.
    rewrite zlen_cons. destruct Hc as [-> | [-> | [-> | ->]]]; cbn; f_equal; lia.
Qed.

(** The header the [Builder] starts with. *)
Definition start_hdr (m : Message) : header := let '(id, bits) := Header_pack (m_Header m) in mkHdr id bits 0 0 0 0.

(** Computes a step of the builder whose sections are known. *)
Ltac bstep := cbn [startSection startCheck b_section section_num Z.leb Z.ltb Z.gtb Z.compare Pos.compare Pos.compare_cont b_msg b_header
  b_start b_compression and_then count_more hd_id hd_bits hd_questions hd_answers hd_authorities hd_additionals snd].

Lemma build_sections m buf m' b1 b2 b3 b4 : message_pk m -> sections_codec m (zlen buf) m' b1 b2 b3 b4 ->
  snd (build m buf) = Ret (buf ++ hdr_bytes (message_hdr m) ++ b1 ++ b2 ++ b3 ++ b4).
Proof.
  intros (_ & [_ Q] & [_ A] & [_ N] & [_ R]) (c1 & c2 & c3 & c4 & P1 & P2 & P3 & P4).
  set (z := replicate 12 0). set (B0 := mkBuilder (buf ++ z) sectionHeader (start_hdr m) (zlen buf) (Some ∅)).
  assert (EnableCompression (NewBuilder buf (m_Header m)) = B0) as E0 by (unfold NewBuilder, B0, start_hdr; by destruct (Header_pack _)).
  assert (zlen (buf ++ z) = zlen buf + 12) as Ez by (by rewrite zlen_app).
  unfold build. rewrite E0. unfold B0, StartQuestions. bstep.
  assert (start_hdr m = mkHdr (hd_id (start_hdr m)) (hd_bits (start_hdr m)) 0 0 0 0) as Eh by (unfold start_hdr; by destruct (Header_pack _)).
  rewrite (add_all_adds _ _ "packing Question" (m_Questions m) _ Builder_Question_adds _ c1 (m_Questions m') ((buf ++ z) ++ b1));
    [|done|by left|rewrite Eh; cbn; lia|by apply P1].
  bstep. rewrite Eh. bstep.
  unfold StartAnswers. bstep.
  rewrite (add_all_adds _ _ "packing Answer" (m_Answers m) _ Builder_resource_adds _ c2 (m_Answers m') (((buf ++ z) ++ b1) ++ b2));
    [|done|right; by left|cbn; lia|apply P2; rewrite !zlen_app in *; lia].
  bstep.
  unfold StartAuthorities. bstep.
  rewrite (add_all_adds _ _ "packing Authority" (m_Authorities m) _ Builder_resource_adds _ c3 (m_Authorities m') ((((buf ++ z) ++ b1) ++ b2) ++ b3));
    [|done|right; right; by left|cbn; lia|apply P3; rewrite !zlen_app in *; lia].
  bstep.
  unfold StartAdditionals. bstep.
  rewrite (add_all_adds _ _ "packing Additional" (m_Additionals m) _ Builder_resource_adds _ c4 (m_Additionals m') (((((buf ++ z) ++ b1) ++ b2) ++ b3) ++ b4));
    [|done|right; right; by right|cbn; lia|apply P4; rewrite !zlen_app in *; lia].
  bstep.
  unfold Finish. bstep. f_equal.
  rewrite <- !app_assoc. unfold zlen at 1 2. rewrite Nat2Z.id, take_app_length. f_equal.
  rewrite header_pack_bytes. cbn [app]. f_equal.
  rewrite app_assoc. replace (Z.to_nat (zlen buf) + 12)%nat with (length (buf ++ z)) by (rewrite length_app; unfold zlen; simpl; lia).
  by rewrite drop_app_length.
Qed.

(** C21: A message whose names have at most ten labels and whose bodies fit their length
    field is always packed, after any buffer, with its names compressed; packing fills in
    the type and length of each resource header and changes nothing else, and [Unpack]
    of the bytes, whatever follows them, gives exactly that message back. *)
Theorem message_roundtrip m b : message_pk m ->
  exists m' out, AppendPack m b = Ret (m', b ++ out) /\ same_message m m' /\ forall post, Unpack (out ++ post) = Ret m'.
Proof.
  intros Hm. destruct (message_packed m b Hm) as (m' & b1 & b2 & b3 & b4 & _ & E & Hs & Hu).
  exists m', (hdr_bytes (message_hdr m) ++ b1 ++ b2 ++ b3 ++ b4). done.
Qed.

(** C28: for a message with names of at most ten labels and bodies that fit their length
    field: writing it with the [Builder], compression enabled, method by method in the
    order of the sections, gives the same bytes as [AppendPack] of the message. *)
Theorem Builder_packs m buf : message_pk m ->
  exists m' out, AppendPack m buf = Ret (m', out) /\ snd (build m buf) = Ret out.
Proof.
  intros Hm. destruct (message_packed m buf Hm) as (m' & b1 & b2 & b3 & b4 & Hsec & E & _).
  eexists m', _. split; [exact E|]. by apply build_sections with m'.
Qed.

(** A question about "a.b." and its answers; "c.b." shares the end of the name. *)
Definition ab : Name := name_of [[97]; [98]].
Definition cb : Name := name_of [[99]; [98]].
Definition answer_hdr (n : Name) : ResourceHeader := mkRH n 0 ClassINET 60 0.
Definition reply : Message :=
  mkMessage (mkHeader 7 true 0 true false true true false false RCodeSuccess) [mkQ ab TypeA ClassINET]
    [mkResource (answer_hdr ab) (Some (AResource [127; 0; 0; 1]));
     mkResource (answer_hdr ab) (Some (MX (mkMX 10 cb)));
     mkResource (answer_hdr cb) (Some (TXTResource [[104; 105]; []]))] []
    [mkResource (answer_hdr (name_of [])) (Some (OPTResource [mkOption 10 [1; 2]]))].

Definition reply_bytes : bytes :=
  [0; 7; 133; 128; 0; 1; 0; 3; 0; 0; 0; 1] ++ [1; 97; 1; 98; 0; 0; 1; 0; 1] ++
  [0xC0; 12; 0; 1; 0; 1; 0; 0; 0; 60; 0; 4; 127; 0; 0; 1] ++
  [0xC0; 12; 0; 15; 0; 1; 0; 0; 0; 60; 0; 6; 0; 10; 1; 99; 0xC0; 14] ++
  [0xC0; 51; 0; 16; 0; 1; 0; 0; 0; 60; 0; 4; 2; 104; 105; 0] ++
  [0; 0; 41; 0; 1; 0; 0; 0; 60; 0; 6; 0; 10; 0; 2; 1; 2].

Lemma letters_labels ls : Forall (fun l => exists c, l = [c] /\ c <> 46) ls -> zlen ls <= 127 -> labels_ok ls.
Proof.
  intros H Hn. split.
  - eapply Forall_impl; [exact H|]. intros l (c & -> & Hc). split; [done|]. by intros E%list_elem_of_singleton.
  - assert (zlen (text ls) = 2 * zlen ls) as ->; [|lia]. clear Hn. induction H as [|l ls (c & -> & _) _ IH]; [done|].
    rewrite text_cons. cbn [app]. rewrite !zlen_cons, IH. lia.
Qed.

Lemma letters_ok ls : Forall (fun l => exists c, l = [c] /\ c <> 46) ls -> (length ls <= 10)%nat -> name_ok (name_of ls).
Proof. intros H Hn. exists ls. split_and!; [done| |done]. apply letters_labels; [done|]. unfold zlen. lia. Qed.

Lemma reply_pk : message_pk reply.
Proof.
  assert (name_ok ab /\ name_ok cb /\ name_ok (name_of [])) as (Hab & Hcb & Hroot).
  { split_and!; apply letters_ok; try (simpl; lia); repeat (apply List.Forall_cons; [by eexists|]); apply List.Forall_nil. }
  assert (forall n, name_ok n -> forall b, body_pk b -> resource_pk (mkResource (answer_hdr n) (Some b))) as Hr.
  { intros n Hn b Hb. split_and!; [done|done..|by exists b]. }
  split; [done|]. split_and!; try done.
  - by apply List.Forall_cons; [|apply List.Forall_nil].
  - repeat apply List.Forall_cons; [apply Hr; done..| |apply List.Forall_nil]. apply Hr; [done|].
    split; [|done]. repeat (apply List.Forall_cons; [done|]). apply List.Forall_nil.
  - apply List.Forall_cons; [|apply List.Forall_nil]. apply Hr; [done|]. split; [|done]. by apply List.Forall_cons; [|apply List.Forall_nil].
Qed.

Lemma message_roundtrip_witness :
  (exists m' out, AppendPack reply [9] = Ret (m', [9] ++ out) /\ same_message reply m' /\ forall post, Unpack (out ++ post) = Ret m') /\
  (exists m', AppendPack reply [9] = Ret (m', [9] ++ reply_bytes) /\ m_Answers m' <> m_Answers reply).
Proof.
  split; [apply (message_roundtrip reply [9]); apply reply_pk|]. eexists. split; [vm_compute; reflexivity|]. discriminate.
Defined.

Lemma Builder_packs_witness :
  (exists m' out, AppendPack reply [9] = Ret (m', out) /\ snd (build reply [9]) = Ret out) /\ snd (build reply [9]) = Ret ([9] ++ reply_bytes).
Proof. split; [apply (Builder_packs reply [9]); apply reply_pk|vm_compute; reflexivity]. Defined.

(** ** EDNS(0): the fields packed into the TTL *)
Lemma EDNS0_fields h udp ext ok : 0 <= ext < 4096 ->
  let h' := SetEDNS0 h udp ext ok in
  DNSSECAllowed h' = ok /\ ExtendedRCode h' (Z.land ext 15) = ext /\ rh_Class h' = u16 udp /\ rh_Type h' = TypeOPT.
Proof.
  intros He h'. pose proof (forallb_range (fun ext => both (fun ok =>
    let h := SetEDNS0 zeroRH 0 ext ok in Bool.eqb (DNSSECAllowed h) ok && (ExtendedRCode h (Z.land ext 15) =? ext))) 4096
    ltac:(vm_compute; reflexivity) ext He) as H. cbv beta in H. pose proof (both_spec _ H ok) as [H1 H2]%andb_true_iff.
  apply eqb_prop in H1. apply Z.eqb_eq in H2. split_and!; [exact H1|exact H2|done..].
Qed.

(** ** Where packing and unpacking part ways *)

(** Names of eleven labels, each sharing one more label with the one before. *)
Definition chain_labels (k : nat) : list bytes := map (fun i => [97 + Z.of_nat (Nat.min (10 - i) k)]) (seq 0 11).
Definition chain : Message :=
  mkMessage (mkHeader 1 false 0 false false false false false false RCodeSuccess)
    (map (fun k => mkQ (name_of (chain_labels k)) TypeA ClassINET) (seq 0 12)) [] [] [].

(** Ten labels is the limit: twelve questions with well-formed names of eleven labels
    are packed into a message that [Unpack] rejects, because the compressed name of the
    last one is reached over eleven pointers; without compression the names read back. *)
Theorem pack_unreadable :
  Forall (fun k => labels_ok (chain_labels k) /\ length (chain_labels k) = 11%nat) (seq 0 12) /\
  exists out, Pack chain = Ret (chain, out) /\
    Unpack out = Fail (nestedError "unpacking Question.Name" errTooManyPtr) /\
    exists out', Unpack (hdr_bytes (message_hdr chain) ++ out') = Ret chain.
Proof.
  split.
  - apply Forall_forall. intros k _. unfold chain_labels. split; [|by rewrite length_map, length_seq]. apply letters_labels; [|done].
    apply Forall_forall. intros l Hl. apply list_elem_of_fmap in Hl as (i & -> & _). eexists. split; [done|]. lia.
  - eexists. split; [vm_compute; reflexivity|]. split; [vm_compute; reflexivity|].
    exists (flat_map (fun q => match Question_pack q [] None 0 with (_, Ret b) => b | _ => [] end) (m_Questions chain)).
    vm_compute. reflexivity.
Qed.

(** A builder with compression in the answer section, and a text that is too long. *)
Definition B0 : Builder := fst (StartAnswers (EnableCompression (NewBuilder [] (mkHeader 1 true 0 false false false false false false 0)))).
Definition refused : Builder * result unit := Builder_TXTResource B0 (answer_hdr ab) [replicate 256 120].
Definition localhost (B : Builder) : Builder * result unit := Builder_AResource B (answer_hdr ab) [127; 0; 0; 1].

(** A resource that the [Builder] refuses leaves its names in the compression map
    although its bytes are dropped: after a refused [TXTResource] the next record with
    the same name is accepted, its name packed as a pointer to itself, and [Finish]
    returns a message that [Unpack] rejects; without the refused call it is read. *)
Theorem failed_record_corrupts :
  snd refused = Fail (nestedError "TXTResource body" errStringTooLong) /\ b_msg (fst refused) = b_msg B0 /\
  snd (localhost (fst refused)) = Ret tt /\ b_msg (fst (localhost (fst refused))) = b_msg B0 ++ [0xC0; 12; 0; 1; 0; 1; 0; 0; 0; 60; 0; 4; 127; 0; 0; 1] /\
  (exists out, snd (Finish (fst (localhost (fst refused)))) = Ret out /\ Unpack out = Fail (nestedError "Name" errTooManyPtr)) /\
  (exists out m, snd (Finish (fst (localhost B0))) = Ret out /\ Unpack out = Ret m).
Proof.
  split; [vm_compute; reflexivity|]. split; [vm_compute; reflexivity|]. split; [vm_compute; reflexivity|].
  split; [vm_compute; reflexivity|]. split.
  - eexists. split; [vm_compute; reflexivity|]. vm_compute. reflexivity.
  - eexists _, _. split; [vm_compute; reflexivity|]. vm_compute. reflexivity.
Qed.

(** Suffixes are shared only between names of the same length: the key of the map is the
    rest of the array, padding included, so "b." after "a.b." is written out again. *)
Lemma suffix_not_shared :
  let q n := mkQ n TypeA ClassINET in
  match Pack (mkMessage (mkHeader 1 false 0 false false false false false false 0) [q ab; q (name_of [[98]])] [] [] []) with
  | Ret (_, out) => drop 12 out = [1; 97; 1; 98; 0; 0; 1; 0; 1] ++ [1; 98; 0; 0; 1; 0; 1]
  | _ => False
  end.
Proof. vm_compute. reflexivity. Qed.

(** A label with a dot in it is accepted, and is two labels when it is packed again. *)
Lemma dot_in_label :
  unpackCompressed zeroName [3; 97; 46; 98; 0] 0 true = Ret (ab, 5) /\ snd (Name_pack ab [] None 0) = Ret [1; 97; 1; 98; 0].
Proof. split; vm_compute; reflexivity. Qed.
