(* ===== verification/WebdavPath.v ===== *)
(** * Package webdav: resource names

    Models [slashClean] (src/webdav/file.go) and [walkToRoot] (src/webdav/lock.go), with
    the functions of package strings and the rooted case of [path.Clean] that they use.
    The theory gives names as lists of elements. *)

From S2P Require Import Prelude.

(** ** Package strings *)
(** -1 if the byte is not there. *)
Fixpoint IndexByte (s : bytes) (c : Z) : Z :=
  match s with
  | [] => -1
  | b :: s => if b =? c then 0 else let i := IndexByte s c in if i <? 0 then -1 else i + 1
  end.

Fixpoint LastIndexByte (s : bytes) (c : Z) : Z :=
  match s with
  | [] => -1
  | b :: s => let i := LastIndexByte s c in if 0 <=? i then i + 1 else if b =? c then 0 else -1
  end.

(** ** Paths *)
Definition slash : Z := 47.

(** The elements between the slashes. *)
Fixpoint splitSlash (s : bytes) : list bytes :=
  match s with
  | [] => [[]]
  | b :: s =>
      if b =? slash then [] :: splitSlash s
      else match splitSlash s with e :: es => (b :: e) :: es | [] => [[b]] end
  end.

(** Empty elements and "." go, ".." takes the element before it along. *)
Definition cleanStep (stack : list bytes) (e : bytes) : list bytes :=
  if bool_decide (e = [] \/ e = [46]) then stack
  else if bool_decide (e = [46; 46]) then tail stack
  else e :: stack.

(** The absolute name with the elements [es]. *)
Definition abs_name (es : list bytes) : bytes :=
  match es with [] => [slash] | _ => flat_map (fun e => slash :: e) es end.

Definition clean_elements (p : bytes) : list bytes := rev (fold_left cleanStep (splitSlash p) []).

(** [path.Clean] of a path that starts with a slash. *)
Definition path_Clean (p : bytes) : bytes := abs_name (clean_elements p).

Definition slashClean (name : bytes) : bytes :=
  let name := match name with
              | b :: _ => if negb (b =? slash) then slash :: name else name
              | [] => slash :: name
              end in
  path_Clean name.

(** [walkToRoot] with the state [s] that the callback [f] closes over; [None] is a
    panic.  Every round shortens the name. *)
Fixpoint walkLoop {S} (fuel : nat) (name : bytes) (first : bool) (f : bytes -> bool -> S -> option (S * bool)) (s : S)
  : option (S * bool) :=
  match fuel with
  | O => None
  | S fuel =>
      '(s, ok) ← f name first s;
      if negb ok then Some (s, false)
      else if bool_decide (name = [slash]) then Some (s, true)
      else
        name ← zslice name 0 (LastIndexByte name slash);
        let name := match name with [] => [slash] | _ => name end in
        walkLoop fuel name false f s
  end.

Definition walkToRoot {S} (name : bytes) (f : bytes -> bool -> S -> option (S * bool)) (s : S) : option (S * bool) :=
  walkLoop (length name) name true f s.

(** ** Clean names *)
Definition elem_ok (e : bytes) : Prop := e <> [] /\ slash ∉ e.
Definition elems_ok (es : list bytes) : Prop := Forall elem_ok es.

Lemma abs_name_snoc es e : abs_name (es ++ [e]) = flat_map (fun e => slash :: e) es ++ slash :: e.
Proof. unfold abs_name. destruct (es ++ [e]) eqn:E; [by destruct es|]. rewrite <- E, flat_map_app. cbn. by rewrite app_nil_r. Qed.

Lemma abs_name_flat es : es <> [] -> abs_name es = flat_map (fun e => slash :: e) es.
Proof. by destruct es. Qed.

Lemma splitSlash_elem e s : slash ∉ e -> splitSlash (e ++ slash :: s) = e :: splitSlash s.
Proof.
  induction e as [|b e IH]; intros He; cbn.
  - done.
  - apply not_elem_of_cons in He as [Hb He]. destruct (Z.eqb_spec b slash); [done|]. by rewrite IH.
Qed.

Lemma splitSlash_last e : slash ∉ e -> splitSlash e = [e].
Proof.
  induction e as [|b e IH]; intros He; [done|]. apply not_elem_of_cons in He as [Hb He]. cbn.
  destruct (Z.eqb_spec b slash); [done|]. by rewrite IH.
Qed.

Lemma splitSlash_flat es : elems_ok es -> es <> [] -> splitSlash (flat_map (fun e => slash :: e) es) = [] :: es.
Proof.
  intros H Hne. destruct es as [|e es]; [done|]. clear Hne. cbn [flat_map app]. cbn. f_equal. revert e H.
  induction es as [|e' es IH]; intros e H; apply Forall_cons in H as [[_ He] H]; cbn [flat_map].
  - rewrite app_nil_r. by apply splitSlash_last.
  - cbn [app]. rewrite splitSlash_elem by done. f_equal. by apply IH.
Qed.

Lemma abs_name_inj es1 es2 : elems_ok es1 -> elems_ok es2 -> abs_name es1 = abs_name es2 -> es1 = es2.
Proof.
  intros H1 H2 E. destruct es1 as [|e1 es1], es2 as [|e2 es2]; try done.
  - apply Forall_cons in H2 as [[He _] _]. cbn in E. by destruct e2.
  - apply Forall_cons in H1 as [[He _] _]. cbn in E. by destruct e1.
  - apply (f_equal splitSlash) in E. rewrite !abs_name_flat, !splitSlash_flat in E by done. by injection E as -> ->.
Qed.

(** What [path.Clean] leaves: no empty, "." or ".." elements. *)
Definition clean_elem (e : bytes) : Prop := elem_ok e /\ e <> [46] /\ e <> [46; 46].

Lemma splitSlash_no_slash s : Forall (fun e => slash ∉ e) (splitSlash s).
Proof.
  induction s as [|b s IH]; cbn; [apply List.Forall_cons; [apply not_elem_of_nil|apply List.Forall_nil]|].
  destruct (Z.eqb_spec b slash); [by apply List.Forall_cons; [apply not_elem_of_nil|]|].
  destruct (splitSlash s) as [|e es]; [apply List.Forall_cons; [|apply List.Forall_nil]|].
  - by intros E%list_elem_of_singleton.
  - apply Forall_cons in IH as [He IH]. apply List.Forall_cons; [|done]. by apply not_elem_of_cons.
Qed.

Lemma clean_elements_ok p : Forall clean_elem (clean_elements p).
Proof.
  unfold clean_elements. apply Forall_rev. pose proof (splitSlash_no_slash p) as Hs.
  assert (Forall clean_elem []) as H0 by apply List.Forall_nil. revert H0. generalize (@nil bytes) at 1 2 as stack.
  induction Hs as [|e es He _ IH]; intros stack Hst; [done|]. apply IH. unfold cleanStep.
  case_bool_decide as E1; [done|]. case_bool_decide as E2; [by apply Forall_tail|].
  apply List.Forall_cons; [|done]. unfold clean_elem, elem_ok. split_and!; [|done| |done]; intros ->; apply E1; auto.
Qed.

Lemma clean_elements_fold es stack : Forall clean_elem es -> fold_left cleanStep es stack = rev es ++ stack.
Proof.
  intros H. revert stack. induction H as [|e es [[He Hs] [H1 H2]] _ IH]; intros stack; [done|].
  cbn [fold_left rev]. rewrite IH, <- app_assoc. cbn [app]. unfold cleanStep.
  rewrite bool_decide_eq_false_2 by (by intros [->| ->]). by rewrite bool_decide_eq_false_2.
Qed.

Lemma clean_elem_ok es : Forall clean_elem es -> elems_ok es.
Proof. intros H. eapply Forall_impl; [exact H|]. by intros e []. Qed.

(** The elements of the name that [slashClean] gives. *)
Definition name_elements (name : bytes) : list bytes :=
  clean_elements (match name with
                  | b :: _ => if negb (b =? slash) then slash :: name else name
                  | [] => slash :: name
                  end).

Lemma slashClean_elements name : slashClean name = abs_name (name_elements name).
Proof. done. Qed.

Lemma name_elements_ok name : Forall clean_elem (name_elements name).
Proof. apply clean_elements_ok. Qed.

Lemma name_elements_abs es : Forall clean_elem es -> name_elements (abs_name es) = es.
Proof.
  intros H. unfold name_elements. destruct es as [|e es]; [done|].
  change (abs_name (e :: es)) with (slash :: e ++ flat_map (fun e => slash :: e) es).
  cbv beta iota. rewrite Z.eqb_refl. cbn [negb]. unfold clean_elements.
  change (slash :: e ++ flat_map (fun e => slash :: e) es) with (flat_map (fun e => slash :: e) (e :: es)).
  rewrite splitSlash_flat; [|by apply clean_elem_ok|done]. change (fold_left cleanStep ([] :: e :: es) []) with (fold_left cleanStep (e :: es) []).
  rewrite clean_elements_fold, app_nil_r by done. by rewrite rev_involutive.
Qed.

(** ** Ancestors *)
Lemma LastIndexByte_snoc s e c : c ∉ e -> LastIndexByte (s ++ c :: e) c = zlen s.
Proof.
  intros He. assert (LastIndexByte e c = -1) as H0.
  { induction e as [|b e IH]; [done|]. apply not_elem_of_cons in He as [Hb He]. cbn. rewrite IH by done. cbn.
    by destruct (Z.eqb_spec b c). }
  induction s as [|b s IH]; cbn [LastIndexByte app].
  - rewrite H0. cbn. by rewrite Z.eqb_refl.
  - rewrite IH, zlen_cons. pose proof (zlen_nonneg s). by destruct (Z.leb_spec 0 (zlen s)); [|lia].
Qed.

(** [e] covers [es] as an ancestor. *)
Definition above (a es : list bytes) : Prop := exists r, r <> [] /\ es = a ++ r.

Lemma flat_prefix_elems a es r : elems_ok a -> elems_ok es -> es <> [] ->
  flat_map (fun e => slash :: e) es = flat_map (fun e => slash :: e) a ++ slash :: r -> above a es.
Proof.
  revert es. induction a as [|x a IH]; intros es Ha Hes Hne E.
  - by exists es.
  - apply Forall_cons in Ha as [[Hx Hxs] Ha]. destruct es as [|y es]; [done|]. apply Forall_cons in Hes as [[Hy Hys] Hes].
    cbn [flat_map app] in E. injection E as E. rewrite <- app_assoc in E.
    assert (forall t, (exists t', flat_map (fun e => slash :: e) t = slash :: t') \/ t = []) as Hflat.
    { intros [|z t]; [by right|left; by eexists]. }
    assert (exists l', flat_map (fun e => slash :: e) a ++ slash :: r = slash :: l') as [l' El].
    { destruct (Hflat a) as [[t' ->]| ->]; by eexists. }
    rewrite El in E. assert (y = x /\ flat_map (fun e => slash :: e) es = slash :: l') as [-> E'].
    { destruct (Hflat es) as [[t' Et]| ->].
      - rewrite Et in E. clear -E Hxs Hys Et. rewrite Et. revert y Hys E. induction x as [|b x IHx]; intros [|c y] Hys E; cbn in E.
        + by injection E as ->.
        + injection E as E1 _. exfalso. apply Hys. rewrite E1. by left.
        + injection E as E1 _. exfalso. apply Hxs. rewrite <- E1. by left.
        + apply not_elem_of_cons in Hxs as [_ Hxs], Hys as [_ Hys]. injection E as -> E. destruct (IHx Hxs y Hys E) as [-> ?]. done.
      - cbn in E. rewrite app_nil_r in E. exfalso. apply Hys. rewrite E. apply elem_of_app. right. by left. }
    rewrite <- El in E'. destruct es as [|y' es]; [by destruct a|].
    destruct (IH (y' :: es)) as (rest & Hr & Eq); [done..|]. exists rest. split; [done|]. by rewrite Eq.
Qed.

(** The test of [lookup]: the name lies below the root. *)
Lemma below_spec a es : elems_ok a -> elems_ok es -> a <> [] -> HasPrefix (abs_name es) (abs_name a ++ [slash]) = true <-> above a es.
Proof.
  intros Ha Hes Hne. rewrite HasPrefix_spec. split.
  - intros [r E]. rewrite (abs_name_flat a), <- app_assoc in E by done. destruct es as [|e es].
    + destruct a as [|x a]; [done|]. apply Forall_cons in Ha as [[Hx _] _]. cbn in E. destruct x; [done|]. by injection E.
    + rewrite abs_name_flat in E by done. by apply flat_prefix_elems in E.
  - intros (r & Hr & ->). destruct r as [|e r]; [done|]. rewrite (abs_name_flat a), abs_name_flat by (done || by destruct a).
    rewrite flat_map_app. cbn [flat_map app]. exists (e ++ flat_map (fun e => slash :: e) r). by rewrite <- app_assoc.
Qed.

(** ** The walk to the root

    [ups es]: the name itself and its ancestors, as lists of elements, the root last. *)
Definition ups (es : list bytes) : list (list bytes) := map (fun k => take k es) (rev (seq 0 (S (length es)))).

Lemma ups_nil : ups [] = [[]].
Proof. done. Qed.

Lemma ups_snoc es e : ups (es ++ [e]) = (es ++ [e]) :: ups es.
Proof.
  unfold ups. rewrite length_app. cbn [length]. rewrite Nat.add_1_r, (seq_S (S (length es))), rev_app_distr. cbn [rev app map].
  f_equal; [apply take_ge; rewrite length_app; cbn; lia|]. apply map_ext_in. intros k Hk. apply in_rev, in_seq in Hk.
  rewrite take_app_le by lia. done.
Qed.

Lemma ups_elem x es : x ∈ ups es <-> exists r, es = x ++ r.
Proof.
  revert x. induction es as [|e es IH] using rev_ind; intros x.
  - rewrite ups_nil, list_elem_of_singleton. split; [intros ->; by exists []|]. intros [r E]. by destruct x.
  - rewrite ups_snoc, elem_of_cons, IH. split.
    + intros [->|[r ->]]; [exists []; by rewrite app_nil_r|]. exists (r ++ [e]). by rewrite <- app_assoc.
    + intros [r E]. destruct r as [|y r _] using rev_ind; [left; by rewrite app_nil_r in E|].
      right. rewrite app_assoc in E. apply app_inj_tail in E as [-> ->]. by exists r.
Qed.

(** Self or ancestor. *)
Lemma ups_above x es : x ∈ ups es <-> x = es \/ above x es.
Proof.
  rewrite ups_elem. split.
  - intros [[|e r] ->]; [left; by rewrite app_nil_r|right; by exists (e :: r)].
  - intros [->|(r & _ & ->)]; [exists []; by rewrite app_nil_r|by exists r].
Qed.

Lemma ups_nodup es : NoDup (ups es).
Proof.
  induction es as [|e es IH] using rev_ind; [apply NoDup_singleton|]. rewrite ups_snoc. apply NoDup_cons. split; [|done].
  rewrite ups_elem. intros [r E]. apply (f_equal length) in E. rewrite !length_app in E. cbn in E. lia.
Qed.

Lemma elems_ok_ups x es : elems_ok es -> x ∈ ups es -> elems_ok x.
Proof. intros H [r ->]%ups_elem. by apply Forall_app in H as [? _]. Qed.

Fixpoint walkList {S} (f : bytes -> bool -> S -> option (S * bool)) (l : list (list bytes)) (first : bool) (s : S) : option (S * bool) :=
  match l with
  | [] => Some (s, true)
  | es :: l =>
      '(s, ok) ← f (abs_name es) first s;
      if negb ok then Some (s, false) else walkList f l false s
  end.

Lemma abs_name_length es : elems_ok es -> (length es < length (abs_name es))%nat.
Proof.
  intros H. destruct es as [|e es]; [cbn; lia|]. rewrite abs_name_flat by done.
  assert (forall l, elems_ok l -> (2 * length l <= length (flat_map (fun e => slash :: e) l))%nat) as Hl.
  { intros l Hl. induction Hl as [|x l [Hx _] _ IH]; [done|]. cbn. rewrite length_app. destruct x; [done|]. cbn. lia. }
  specialize (Hl _ H). cbn [length] in *. lia.
Qed.

Lemma walkToRoot_ups {S} es (f : bytes -> bool -> S -> option (S * bool)) s : elems_ok es ->
  walkToRoot (abs_name es) f s = walkList f (ups es) true s.
Proof.
  intros H. unfold walkToRoot. pose proof (abs_name_length es H) as Hlen.
  revert Hlen. generalize (length (abs_name es)) as fuel. generalize true as first. revert s.
  induction es as [|e es IH] using rev_ind; intros s first [|fuel] Hf; try lia; cbn [walkLoop].
  - rewrite ups_nil. cbn [walkList]. destruct (f (abs_name []) first s) as [[s' []]|]; [|done..]. done.
  - apply Forall_app in H as [H [[He Hs] _]%Forall_cons]. rewrite ups_snoc. cbn [walkList].
    destruct (f (abs_name (es ++ [e])) first s) as [[s' ok]|]; [cbn|done]. destruct ok; [cbn|done].
    rewrite bool_decide_eq_false_2.
    2: { intros E. change [slash] with (abs_name []) in E. apply abs_name_inj in E; [by destruct es|by apply Forall_app; split; [|by apply List.Forall_cons]|by apply List.Forall_nil]. }
    rewrite abs_name_snoc, LastIndexByte_snoc by done.
    assert (zslice (flat_map (fun e => slash :: e) es ++ slash :: e) 0 (zlen (flat_map (fun e => slash :: e) es)) = Some (flat_map (fun e => slash :: e) es)) as ->.
    { set (l := flat_map _ es). unfold zslice. rewrite zlen_app, zlen_cons. pose proof (zlen_nonneg l). pose proof (zlen_nonneg e).
      destruct (Z.leb_spec 0 (zlen l)), (Z.leb_spec (zlen l) (zlen l + (zlen e + 1))); try lia. cbn [andb Z.leb Z.compare].
      rewrite Z.sub_0_r. change (Z.to_nat 0) with 0%nat. rewrite drop_0. unfold zlen. by rewrite Nat2Z.id, take_app_length. }
    cbn. assert (match flat_map (fun e => slash :: e) es with [] => [slash] | _ => flat_map (fun e => slash :: e) es end = abs_name es) as ->
      by (by destruct es).
    apply IH; [done|]. rewrite length_app in Hf. cbn in Hf. lia.
Qed.
