(* ===== verification/WebdavLock.v ===== *)
(** * Package webdav: the in-memory lock system

    Models src/webdav/lock.go with the parts of container/heap it uses.  Nodes live in a
    store, so that the two maps, the heap and the release functions share them as the
    pointers do; [None] is a panic.  A [time.Time] is an instant in nanoseconds. *)

From S2P Require Import Prelude WebdavPath.

(** ** Data *)
Inductive lock_error := ErrConfirmationFailed | ErrForbidden | ErrLocked | ErrNoSuchLock.

#[global] Instance lock_error_eq_dec : EqDecision lock_error.
Proof. solve_decision. Defined.

Record Condition := mkCondition { c_Not : bool; c_Token : bytes; c_ETag : bytes }.

Record LockDetails := mkDetails {
  ld_Root : bytes;
  ld_Duration : Z;               (* int64, negative is infinite *)
  ld_OwnerXML : bytes;
  ld_ZeroDepth : bool
}.

#[global] Instance LockDetails_eq_dec : EqDecision LockDetails.
Proof. solve_decision. Defined.

Definition zeroDetails : LockDetails := mkDetails [] 0 [] false.

Definition set_Root (r : bytes) (d : LockDetails) : LockDetails := mkDetails r (ld_Duration d) (ld_OwnerXML d) (ld_ZeroDepth d).
Definition set_Duration (x : Z) (d : LockDetails) : LockDetails := mkDetails (ld_Root d) x (ld_OwnerXML d) (ld_ZeroDepth d).

Record memLSNode := mkLSNode {
  n_details : LockDetails;
  n_token : bytes;
  n_refCount : Z;
  n_expiry : Z;
  n_byExpiryIndex : Z;
  n_held : bool
}.

Definition set_details (x : LockDetails) (n : memLSNode) := mkLSNode x (n_token n) (n_refCount n) (n_expiry n) (n_byExpiryIndex n) (n_held n).
Definition set_token (x : bytes) (n : memLSNode) := mkLSNode (n_details n) x (n_refCount n) (n_expiry n) (n_byExpiryIndex n) (n_held n).
Definition set_refCount (x : Z) (n : memLSNode) := mkLSNode (n_details n) (n_token n) x (n_expiry n) (n_byExpiryIndex n) (n_held n).
Definition set_expiry (x : Z) (n : memLSNode) := mkLSNode (n_details n) (n_token n) (n_refCount n) x (n_byExpiryIndex n) (n_held n).
Definition set_index (x : Z) (n : memLSNode) := mkLSNode (n_details n) (n_token n) (n_refCount n) (n_expiry n) x (n_held n).
Definition set_held (x : bool) (n : memLSNode) := mkLSNode (n_details n) (n_token n) (n_refCount n) (n_expiry n) (n_byExpiryIndex n) x.

Record memLS := mkMemLS {
  m_byName : gmap bytes nat;
  m_byToken : gmap bytes nat;
  m_gen : Z;                     (* uint64 *)
  m_byExpiry : list nat;
  m_nodes : gmap nat memLSNode   (* the nodes that the pointers reach *)
}.

Definition set_byName (x : gmap bytes nat) (m : memLS) := mkMemLS x (m_byToken m) (m_gen m) (m_byExpiry m) (m_nodes m).
Definition set_byToken (x : gmap bytes nat) (m : memLS) := mkMemLS (m_byName m) x (m_gen m) (m_byExpiry m) (m_nodes m).
Definition set_gen (x : Z) (m : memLS) := mkMemLS (m_byName m) (m_byToken m) x (m_byExpiry m) (m_nodes m).
Definition set_byExpiry (x : list nat) (m : memLS) := mkMemLS (m_byName m) (m_byToken m) (m_gen m) x (m_nodes m).

(** [n.field = ...] through a pointer. *)
Definition with_node (id : nat) (f : memLSNode -> memLSNode) (m : memLS) : option memLS :=
  n ← m_nodes m !! id;
  Some (mkMemLS (m_byName m) (m_byToken m) (m_gen m) (m_byExpiry m) (<[id := f n]> (m_nodes m))).

(** [unix] is [time.Now().Unix()]. *)
Definition NewMemLS (unix : Z) : memLS := mkMemLS ∅ ∅ (u64 unix) [] ∅.

Definition nextToken (m : memLS) : memLS * bytes :=
  let m := set_gen (u64 (m_gen m + 1)) m in (m, FormatUint (m_gen m)).

(** ** The heap of the nodes that expire *)
Definition Less (m : memLS) (i j : nat) : option bool :=
  x ← m_byExpiry m !! i; y ← m_byExpiry m !! j;
  ni ← m_nodes m !! x; nj ← m_nodes m !! y;
  Some (n_expiry ni <? n_expiry nj).

Definition Swap (m : memLS) (i j : nat) : option memLS :=
  x ← m_byExpiry m !! i; y ← m_byExpiry m !! j;
  m ← with_node y (set_index (Z.of_nat i)) (set_byExpiry (<[j := x]> (<[i := y]> (m_byExpiry m))) m);
  with_node x (set_index (Z.of_nat j)) m.

Definition byExpiry_Push (m : memLS) (id : nat) : option memLS :=
  m ← with_node id (set_index (zlen (m_byExpiry m))) m;
  Some (set_byExpiry (m_byExpiry m ++ [id]) m).

Definition byExpiry_Pop (m : memLS) : option (memLS * nat) :=
  let i := (length (m_byExpiry m) - 1)%nat in
  id ← m_byExpiry m !! i;
  m ← with_node id (set_index (-1)) m;
  Some (set_byExpiry (take i (m_byExpiry m)) m, id).

(** [up] and [down] of container/heap: the index at least halves or doubles. *)
Fixpoint up (fuel : nat) (m : memLS) (j : nat) : option memLS :=
  match fuel with
  | O => None
  | S fuel =>
      let i := ((j - 1) / 2)%nat in
      if (i =? j)%nat then Some m
      else
        less ← Less m j i;
        if negb less then Some m
        else m ← Swap m i j; up fuel m i
  end.

Fixpoint downLoop (fuel : nat) (m : memLS) (i n : nat) : option (memLS * nat) :=
  match fuel with
  | O => None
  | S fuel =>
      let j1 := (2 * i + 1)%nat in
      if (n <=? j1)%nat then Some (m, i)
      else
        let j2 := (j1 + 1)%nat in
        right ← (if (j2 <? n)%nat then Less m j2 j1 else Some false);
        let j := if right : bool then j2 else j1 in
        less ← Less m j i;
        if negb less then Some (m, i)
        else m ← Swap m i j; downLoop fuel m j n
  end.

Definition down (m : memLS) (i0 n : nat) : option (memLS * bool) :=
  '(m, i) ← downLoop (S n) m i0 n;
  Some (m, (i0 <? i)%nat).

Definition heap_Push (m : memLS) (id : nat) : option memLS :=
  m ← byExpiry_Push m id;
  up (S (length (m_byExpiry m))) m (length (m_byExpiry m) - 1).

Definition heap_Remove (m : memLS) (i : nat) : option (memLS * nat) :=
  let n := (length (m_byExpiry m) - 1)%nat in
  m ← (if (n =? i)%nat then Some m
       else
         m ← Swap m i n;
         '(m, moved) ← down m i n;
         if moved : bool then Some m else up (S n) m i);
  byExpiry_Pop m.

(** ** Nodes by name *)
Definition canCreate (m : memLS) (name : bytes) (zeroDepth : bool) : option bool :=
  '(_, ok) ← walkToRoot name
    (fun name0 first (_ : unit) =>
       match m_byName m !! name0 with
       | None => Some (tt, true)
       | Some id =>
           n ← m_nodes m !! id;
           Some (tt,
             if first : bool then
               if negb (bool_decide (n_token n = [])) then false
               else if negb zeroDepth then false
               else true
             else if negb (bool_decide (n_token n = [])) && negb (ld_ZeroDepth (n_details n)) then false
             else true)
       end) tt;
  Some ok.

(** The node is a new object when the map has none. *)
Definition create (m : memLS) (name : bytes) : option (memLS * option nat) :=
  '(s, _) ← walkToRoot name
    (fun name0 first s =>
       let '(m, ret) := (s : memLS * option nat) in
       let '(m, id) :=
         match m_byName m !! name0 with
         | Some id => (m, id)
         | None =>
             let id := fresh (dom (m_nodes m)) in
             let n := mkLSNode (set_Root name0 zeroDetails) [] 0 0 (-1) false in
             (mkMemLS (<[name0 := id]> (m_byName m)) (m_byToken m) (m_gen m) (m_byExpiry m) (<[id := n]> (m_nodes m)), id)
         end in
       m ← with_node id (fun n => set_refCount (n_refCount n + 1) n) m;
       Some ((m, if first : bool then Some id else ret), true)) (m, None);
  Some s.

Definition remove (m : memLS) (id : nat) : option memLS :=
  n ← m_nodes m !! id;
  let m := set_byToken (delete (n_token n) (m_byToken m)) m in
  m ← with_node id (set_token []) m;
  '(m, _) ← walkToRoot (ld_Root (n_details n))
    (fun name0 _ m =>
       x ← m_byName m !! name0;
       m ← with_node x (fun n => set_refCount (n_refCount n - 1) n) m;
       nx ← m_nodes m !! x;
       Some (if n_refCount nx =? 0 then set_byName (delete name0 (m_byName m)) m else m, true)) m;
  n ← m_nodes m !! id;
  if 0 <=? n_byExpiryIndex n
  then '(m, _) ← heap_Remove m (Z.to_nat (n_byExpiryIndex n)); Some m
  else Some m.

Fixpoint collectLoop (fuel : nat) (m : memLS) (now : Z) : option memLS :=
  match m_byExpiry m with
  | [] => Some m
  | id :: _ =>
      n ← m_nodes m !! id;
      if now <? n_expiry n then Some m
      else
        match fuel with
        | O => None
        | S fuel => m ← remove m id; collectLoop fuel m now
        end
  end.

(** Every round removes a node from the heap. *)
Definition collectExpiredNodes (m : memLS) (now : Z) : option memLS := collectLoop (length (m_byExpiry m)) m now.

(** ** The operations of [LockSystem] *)
Fixpoint lookup_ (m : memLS) (name : bytes) (conditions : list Condition) : option (option nat) :=
  match conditions with
  | [] => Some None
  | c :: conditions =>
      match m_byToken m !! c_Token c with
      | None => lookup_ m name conditions
      | Some id =>
          n ← m_nodes m !! id;
          if n_held n then lookup_ m name conditions
          else if bool_decide (name = ld_Root (n_details n)) then Some (Some id)
          else if ld_ZeroDepth (n_details n) then lookup_ m name conditions
          else if bool_decide (ld_Root (n_details n) = [slash]) || HasPrefix name (ld_Root (n_details n) ++ [slash]) then Some (Some id)
          else lookup_ m name conditions
      end
  end.

Definition hold (m : memLS) (id : nat) : option memLS :=
  n ← m_nodes m !! id;
  if n_held n then None
  else
    m ← with_node id (set_held true) m;
    if (0 <=? ld_Duration (n_details n)) && (0 <=? n_byExpiryIndex n)
    then '(m, _) ← heap_Remove m (Z.to_nat (n_byExpiryIndex n)); Some m
    else Some m.

Definition unhold (m : memLS) (id : nat) : option memLS :=
  n ← m_nodes m !! id;
  if negb (n_held n) then None
  else
    m ← with_node id (set_held false) m;
    if 0 <=? ld_Duration (n_details n) then heap_Push m id else Some m.

(** The nodes that the release function closes over. *)
Abbreviation release := (option nat * option nat)%type.

Definition on_node (f : memLS -> nat -> option memLS) (m : memLS) (n : option nat) : option memLS :=
  match n with Some id => f m id | None => Some m end.

Definition lookup_name (m : memLS) (name : bytes) (conditions : list Condition) : option (lock_error + option nat) :=
  if bool_decide (name = []) then Some (inr None)
  else
    n ← lookup_ m (slashClean name) conditions;
    Some (match n with None => inl ErrConfirmationFailed | Some id => inr (Some id) end).

Definition Confirm (m : memLS) (now : Z) (name0 name1 : bytes) (conditions : list Condition) : option (memLS * (lock_error + release)) :=
  m ← collectExpiredNodes m now;
  r0 ← lookup_name m name0 conditions;
  match r0 with
  | inl e => Some (m, inl e)
  | inr n0 =>
      r1 ← lookup_name m name1 conditions;
      match r1 with
      | inl e => Some (m, inl e)
      | inr n1 =>
          let n1 := if bool_decide (n1 = n0) then None else n1 in
          m ← on_node hold m n0;
          m ← on_node hold m n1;
          Some (m, inr (n0, n1))
      end
  end.

(** The release function. *)
Definition release_ (m : memLS) (r : release) : option memLS :=
  m ← on_node unhold m (snd r);
  on_node unhold m (fst r).

Definition Create (m : memLS) (now : Z) (details : LockDetails) : option (memLS * (lock_error + bytes)) :=
  m ← collectExpiredNodes m now;
  let details := set_Root (slashClean (ld_Root details)) details in
  ok ← canCreate m (ld_Root details) (ld_ZeroDepth details);
  if negb ok then Some (m, inl ErrLocked)
  else
    '(m, n) ← create m (ld_Root details);
    id ← n;
    let '(m, token) := nextToken m in
    m ← with_node id (set_token token) m;
    let m := set_byToken (<[token := id]> (m_byToken m)) m in
    m ← with_node id (set_details details) m;
    if 0 <=? ld_Duration details then
      m ← with_node id (set_expiry (now + ld_Duration details)) m;
      m ← heap_Push m id;
      Some (m, inr token)
    else Some (m, inr token).

Definition Refresh (m : memLS) (now : Z) (token : bytes) (duration : Z) : option (memLS * (lock_error + LockDetails)) :=
  m ← collectExpiredNodes m now;
  match m_byToken m !! token with
  | None => Some (m, inl ErrNoSuchLock)
  | Some id =>
      n ← m_nodes m !! id;
      if n_held n then Some (m, inl ErrLocked)
      else
        m ← (if 0 <=? n_byExpiryIndex n
             then '(m, _) ← heap_Remove m (Z.to_nat (n_byExpiryIndex n)); Some m
             else Some m);
        m ← with_node id (fun n => set_details (set_Duration duration (n_details n)) n) m;
        m ← (if 0 <=? duration then
               m ← with_node id (set_expiry (now + duration)) m; heap_Push m id
             else Some m);
        n ← m_nodes m !! id;
        Some (m, inr (n_details n))
  end.

Definition Unlock (m : memLS) (now : Z) (token : bytes) : option (memLS * option lock_error) :=
  m ← collectExpiredNodes m now;
  match m_byToken m !! token with
  | None => Some (m, Some ErrNoSuchLock)
  | Some id =>
      n ← m_nodes m !! id;
      if n_held n then Some (m, Some ErrLocked)
      else m ← remove m id; Some (m, None)
  end.
