(* ===== verification/WebdavHeap.v ===== *)
(** * Package webdav: the expiry heap

    The heap of container/heap over the nodes: [up], [down], [heap_Push] and
    [heap_Remove] keep the nodes' indices right and the earliest expiry first. *)

From S2P Require Import Prelude WebdavPath WebdavLock.

(** ** Heap order on the keys by position *)
Definition par (i : nat) : nat := ((i - 1) / 2)%nat.

Lemma par_lt i : (0 < i)%nat -> (par i < i)%nat.
Proof. intros H. unfold par. pose proof (Nat.div_mod_eq (i - 1) 2). lia. Qed.

Lemma par_child i x : (0 < x)%nat -> par x = i <-> (x = 2 * i + 1 \/ x = 2 * i + 2)%nat.
Proof.
  intros Hx. unfold par. pose proof (Nat.div_mod_eq (x - 1) 2). pose proof (Nat.mod_upper_bound (x - 1) 2 ltac:(lia)). lia.
Qed.

Definition ordered (k : nat -> Z) (n : nat) : Prop := forall i, (0 < i < n)%nat -> k (par i) <= k i.

(** Ordered but at [j], which may be less than its parent. *)
Definition ordered_up (k : nat -> Z) (n j : nat) : Prop :=
  (forall i, (0 < i < n)%nat -> i <> j -> k (par i) <= k i) /\
  (forall i, (0 < i < n)%nat -> par i = j -> (0 < j)%nat -> k (par j) <= k i).

(** Ordered but at [i], which may be anything between its parent and children. *)
Definition ordered_around (k : nat -> Z) (n i : nat) : Prop :=
  (forall x, (0 < x < n)%nat -> x <> i -> par x <> i -> k (par x) <= k x) /\
  (forall x, (0 < x < n)%nat -> par x = i -> (0 < i)%nat -> k (par i) <= k x).

Definition swapped (k : nat -> Z) (i j : nat) : nat -> Z :=
  fun x => if (x =? i)%nat then k j else if (x =? j)%nat then k i else k x.

Ltac swap_cases :=
  unfold swapped in *;
  repeat match goal with |- context [(?x =? ?y)%nat] => destruct (Nat.eqb_spec x y); subst end.

Lemma up_stop k n j : ordered_up k n j -> (j = 0%nat \/ k (par j) <= k j) -> ordered k n.
Proof. intros [H _] Hj i Hi. destruct (decide (i = j)) as [->|]; [|by apply H]. destruct Hj as [->|]; [lia|done]. Qed.

Lemma up_step k n j : (0 < j < n)%nat -> ordered_up k n j -> k j < k (par j) -> ordered_up (swapped k (par j) j) n (par j).
Proof.
  intros Hj [H1 H2] Hlt. pose proof (par_lt j ltac:(lia)) as Hp. split.
  - intros i Hi Hne. pose proof (par_lt i ltac:(lia)) as Hpi. destruct (decide (i = j)) as [->|Hij].
    + swap_cases; try lia.
    + pose proof (H1 i Hi Hij). destruct (decide (par i = j)) as [Hpj|Hpj].
      * pose proof (H2 i Hi Hpj ltac:(lia)). swap_cases; lia.
      * swap_cases; try lia. rewrite e in *. lia.
  - intros i Hi Hpi Hpos. pose proof (par_lt i ltac:(lia)). pose proof (par_lt (par j) ltac:(lia)).
    pose proof (H1 (par j) ltac:(lia) ltac:(lia)). destruct (decide (i = j)) as [->|Hij].
    + swap_cases; lia.
    + pose proof (H1 i Hi Hij) as Hi1. rewrite Hpi in Hi1. swap_cases; lia.
Qed.

Lemma down_stop k n i : ordered_around k n i -> (forall x, (0 < x < n)%nat -> par x = i -> k i <= k x) -> ordered_up k n i.
Proof.
  intros [H1 H2] Hc. split; [|done]. intros x Hx Hne. destruct (decide (par x = i)) as [E|E]; [rewrite E; by apply Hc|by apply H1].
Qed.

Lemma down_step k n i j : (0 < j < n)%nat -> par j = i -> ordered_around k n i -> k j < k i ->
  (forall x, (0 < x < n)%nat -> par x = i -> k j <= k x) ->
  ordered_around (swapped k i j) n j /\ swapped k i j (par j) <= swapped k i j j.
Proof.
  intros Hj Hp [H1 H2] Hlt Hmin. pose proof (par_lt j ltac:(lia)) as Hpj. split; [split|].
  - intros x Hx Hxj Hpx. pose proof (par_lt x ltac:(lia)). destruct (decide (x = i)) as [->|Hxi].
    + pose proof (H2 j Hj Hp ltac:(lia)). swap_cases; try lia.
    + destruct (decide (par x = i)) as [E|E].
      * pose proof (Hmin x Hx E). swap_cases; try lia.
      * pose proof (H1 x Hx Hxi E). swap_cases; try lia.
  - intros x Hx Hpx Hpos. pose proof (par_lt x ltac:(lia)).
    assert (x <> i) as Hxi by lia. assert (par x <> i) as Hpi by lia. pose proof (H1 x Hx Hxi Hpi) as Hle. rewrite Hpx in Hle.
    swap_cases; try lia.
  - swap_cases; lia.
Qed.

Lemma ordered_root k n i : ordered k n -> (i < n)%nat -> k 0%nat <= k i.
Proof.
  intros H. induction i as [i IH] using lt_wf_ind. intros Hi. destruct (decide (i = 0%nat)) as [->|Hne]; [lia|].
  pose proof (par_lt i ltac:(lia)). pose proof (H i ltac:(lia)). pose proof (IH (par i) ltac:(lia) ltac:(lia)). lia.
Qed.

(** Putting any element in place of the one at [i]. *)
Lemma ordered_replaced k k' n i : ordered k n -> (forall x, (x < n)%nat -> x <> i -> k' x = k x) -> ordered_around k' n i.
Proof.
  intros H E. split.
  - intros x Hx Hxi Hp. pose proof (par_lt x ltac:(lia)). rewrite !E by lia. by apply H.
  - intros x Hx Hp Hi. pose proof (par_lt x ltac:(lia)). pose proof (par_lt i ltac:(lia)). rewrite !E by lia.
    pose proof (H x ltac:(lia)). pose proof (H i ltac:(lia)) as Hi2. rewrite Hp in *. lia.
Qed.

(** ** The heap in the lock system *)
Definition idx_ok (m : memLS) : Prop := forall i id, m_byExpiry m !! i = Some id ->
  exists n, m_nodes m !! id = Some n /\ n_byExpiryIndex n = Z.of_nat i.

(** [m'] is [m] up to the order of the heap and the indices of the nodes in [l]. *)
Definition reindexed (l : list nat) (m m' : memLS) : Prop :=
  m_byName m' = m_byName m /\ m_byToken m' = m_byToken m /\ m_gen m' = m_gen m /\
  forall id, match m_nodes m !! id with
             | None => m_nodes m' !! id = None
             | Some n => exists x, m_nodes m' !! id = Some (set_index x n) /\ (id ∉ l -> x = n_byExpiryIndex n)
             end.

Lemma set_index_id n : set_index (n_byExpiryIndex n) n = n.
Proof. by destruct n. Qed.

Lemma reindexed_refl l m : reindexed l m m.
Proof.
  split_and!; try done. intros id. destruct (m_nodes m !! id) as [n|]; [|done]. exists (n_byExpiryIndex n). by rewrite set_index_id.
Qed.

Lemma reindexed_trans l m1 m2 m3 : reindexed l m1 m2 -> reindexed l m2 m3 -> reindexed l m1 m3.
Proof.
  intros (A1 & B1 & C1 & H1) (A2 & B2 & C2 & H2). split_and!; try congruence. intros id. specialize (H1 id). specialize (H2 id).
  destruct (m_nodes m1 !! id) as [n|].
  - destruct H1 as (x & E1 & Hx). rewrite E1 in H2. destruct H2 as (y & E2 & Hy). exists y. split; [exact E2|]. intros Hid.
    rewrite Hy by done. cbn. by apply Hx.
  - by rewrite H1 in H2.
Qed.

Lemma reindexed_with_node id x l m : id ∈ l -> is_Some (m_nodes m !! id) -> exists m', with_node id (set_index x) m = Some m' /\
  reindexed l m m' /\ m_byExpiry m' = m_byExpiry m /\
  forall id', m_nodes m' !! id' = if decide (id' = id) then set_index x <$> m_nodes m !! id else m_nodes m !! id'.
Proof.
  intros Hid [n E]. unfold with_node. rewrite E. cbn. eexists. split; [done|].
  assert (forall id', <[id:=set_index x n]> (m_nodes m) !! id' = if decide (id' = id) then set_index x <$> Some n else m_nodes m !! id') as Hl.
  { intros id'. destruct (decide (id' = id)) as [->|]; [by rewrite lookup_insert_eq|by rewrite lookup_insert_ne]. }
  split_and!; [|done|exact Hl]. split_and!; try done. intros id'. cbn. rewrite Hl. destruct (decide (id' = id)) as [->|Hne].
  - rewrite E. exists x. by split.
  - destruct (m_nodes m !! id') as [n'|]; [|done]. exists (n_byExpiryIndex n'). by rewrite set_index_id.
Qed.

Definition expiry_of (m : memLS) (id : nat) : Z := match m_nodes m !! id with Some n => n_expiry n | None => 0 end.
Definition key (m : memLS) (i : nat) : Z := match m_byExpiry m !! i with Some id => expiry_of m id | None => 0 end.

Lemma expiry_reindexed l m m' id : reindexed l m m' -> expiry_of m' id = expiry_of m id.
Proof.
  intros (_ & _ & _ & H). specialize (H id). unfold expiry_of. destruct (m_nodes m !! id) as [n|]; [|by rewrite H].
  by destruct H as (x & -> & _).
Qed.

Definition heap_ok (m : memLS) : Prop := idx_ok m /\ ordered (key m) (length (m_byExpiry m)).

Lemma idx_ok_nodup m : idx_ok m -> NoDup (m_byExpiry m).
Proof.
  intros H. apply NoDup_alt. intros i j id Hi Hj. destruct (H i id Hi) as (n & En & Ei), (H j id Hj) as (n' & En' & Ej).
  rewrite En in En'. injection En' as <-. lia.
Qed.

Lemma Less_ok m i j : idx_ok m -> (i < length (m_byExpiry m))%nat -> (j < length (m_byExpiry m))%nat ->
  Less m i j = Some (key m i <? key m j).
Proof.
  intros H Hi Hj. apply lookup_lt_is_Some in Hi as [x Ex], Hj as [y Ey].
  destruct (H i x Ex) as (nx & Enx & _), (H j y Ey) as (ny & Eny & _). unfold Less, key, expiry_of. rewrite Ex, Ey. cbn. by rewrite Enx, Eny.
Qed.

Lemma Swap_ok m i j : idx_ok m -> (i < length (m_byExpiry m))%nat -> (j < length (m_byExpiry m))%nat ->
  exists m', Swap m i j = Some m' /\ idx_ok m' /\ reindexed (m_byExpiry m) m m' /\ m_byExpiry m' ≡ₚ m_byExpiry m /\
    (forall x, key m' x = swapped (key m) i j x) /\ (forall x, x <> i -> x <> j -> m_byExpiry m' !! x = m_byExpiry m !! x) /\
    m_byExpiry m' !! j = m_byExpiry m !! i.
Proof.
  intros H Hi Hj. apply lookup_lt_is_Some in Hi as Ei, Hj as Ej. destruct Ei as [x Ex], Ej as [y Ey].
  destruct (H i x Ex) as (nx & Enx & Ix), (H j y Ey) as (ny & Eny & Iy).
  unfold Swap. rewrite Ex, Ey. cbn [mbind option_bind].
  set (b := <[j:=x]> (<[i:=y]> (m_byExpiry m))). set (m0 := set_byExpiry b m).
  destruct (reindexed_with_node y (Z.of_nat i) (m_byExpiry m) m0) as (m1 & E1 & R1 & B1 & L1);
    [by eapply list_elem_of_lookup_2|by eexists|]. rewrite E1. cbn [mbind option_bind].
  destruct (reindexed_with_node x (Z.of_nat j) (m_byExpiry m) m1) as (m2 & E2 & R2 & B2 & L2);
    [by eapply list_elem_of_lookup_2| |].
  { rewrite L1. destruct (decide (x = y)) as [->|]; [cbn; rewrite Eny; by eexists|by eexists]. }
  exists m2. rewrite E2. split; [done|]. rewrite B1 in B2. cbn in B2.
  assert (length b = length (m_byExpiry m)) as Hlb by (unfold b; by rewrite !length_insert).
  assert (forall k, b !! k = if decide (k = j) then Some x else if decide (k = i) then Some y else m_byExpiry m !! k) as Hb.
  { intros k. unfold b. destruct (decide (k = j)) as [->|Hkj]; [by rewrite list_lookup_insert_eq by (by rewrite length_insert)|].
    rewrite list_lookup_insert_ne by done. destruct (decide (k = i)) as [->|Hki]; [by rewrite list_lookup_insert_eq|].
    by rewrite list_lookup_insert_ne. }
  assert (forall id n, m_nodes m !! id = Some n -> exists z, m_nodes m2 !! id = Some (set_index z n)) as Hn.
  { intros id n En. pose proof (reindexed_trans _ _ _ _ R1 R2) as (_ & _ & _ & R). specialize (R id). cbn in R. rewrite En in R.
    destruct R as (z & Ez & _). by exists z. }
  split_and!.
  - intros k id Hk. rewrite B2, Hb in Hk. rewrite L2. destruct (decide (id = x)) as [->|Hnx].
    + rewrite L1. assert (is_Some (if decide (x = y) then set_index (Z.of_nat i) <$> m_nodes m0 !! y else m_nodes m0 !! x)) as [z Ez].
      { destruct (decide (x = y)) as [->|]; [cbn; rewrite Eny; by eexists|by eexists]. }
      rewrite Ez. cbn. eexists. split; [done|]. cbn. f_equal.
      destruct (decide (k = j)) as [->|Hkj]; [done|]. destruct (decide (k = i)) as [->|Hki].
      * injection Hk as ->. destruct (H i x Ex) as (n1 & En1 & I1), (H j x Ey) as (n2 & En2 & I2). rewrite En1 in En2. injection En2 as <-. lia.
      * destruct (H k x Hk) as (n1 & En1 & I1). rewrite Enx in En1. injection En1 as <-. lia.
    + rewrite L1. destruct (decide (id = y)) as [->|Hny].
      * cbn. rewrite Eny. cbn. eexists. split; [done|]. cbn. f_equal.
        destruct (decide (k = j)) as [->|Hkj]; [by injection Hk as ->|]. destruct (decide (k = i)) as [->|Hki]; [done|].
        destruct (H k y Hk) as (n1 & En1 & I1). rewrite Eny in En1. injection En1 as <-. lia.
      * destruct (decide (k = j)); [by injection Hk as ->|]. destruct (decide (k = i)); [by injection Hk as ->|]. by apply H.
  - exact (reindexed_trans _ _ _ _ R1 R2).
  - rewrite B2. by apply Permutation_insert_swap.
  - intros k. unfold swapped, key. rewrite B2, Hb, Ex, Ey.
    pose proof (fun id => expiry_reindexed _ _ _ id (reindexed_trans _ _ _ _ R1 R2)) as Hx.
    destruct (Nat.eqb_spec k i) as [->|Hki]; [|destruct (Nat.eqb_spec k j) as [->|Hkj]].
    + destruct (decide (i = j)) as [->|]; [|].
      * rewrite Ex in Ey. injection Ey as ->. rewrite ?decide_True by done. apply Hx.
      * rewrite ?(decide_False) by done. rewrite ?decide_True by done. apply Hx.
    + rewrite decide_True by done. by rewrite Hx.
    + rewrite !decide_False by done. destruct (m_byExpiry m !! k); [by rewrite Hx|done].
  - intros k Hki Hkj. rewrite B2, Hb. by rewrite !decide_False.
  - rewrite B2, Hb. by rewrite decide_True.
Qed.

(** What [up] and [down] do below position [n]. *)
Definition sifted (n : nat) (m m' : memLS) : Prop :=
  idx_ok m' /\ reindexed (m_byExpiry m) m m' /\ m_byExpiry m' ≡ₚ m_byExpiry m /\
  (forall x, (n <= x)%nat -> m_byExpiry m' !! x = m_byExpiry m !! x).

Lemma sifted_refl n m : idx_ok m -> sifted n m m.
Proof. intros H. split_and!; [done|apply reindexed_refl|done|done]. Qed.

Lemma reindexed_perm l l' m m' : l ≡ₚ l' -> reindexed l m m' -> reindexed l' m m'.
Proof.
  intros Hp (A & B & C & H). split_and!; try done. intros id. specialize (H id). destruct (m_nodes m !! id) as [n|]; [|done].
  destruct H as (x & E & Hx). exists x. split; [done|]. intros Hid. apply Hx. by rewrite Hp.
Qed.

Lemma sifted_trans n m1 m2 m3 : sifted n m1 m2 -> sifted n m2 m3 -> sifted n m1 m3.
Proof.
  intros (I1 & R1 & P1 & L1) (I2 & R2 & P2 & L2). split_and!; [done| |by rewrite P2|intros x Hx; by rewrite L2, L1].
  apply (reindexed_trans _ _ m2); [done|]. by apply (reindexed_perm (m_byExpiry m2)).
Qed.

Lemma sifted_length n m m' : sifted n m m' -> length (m_byExpiry m') = length (m_byExpiry m).
Proof. intros (_ & _ & P & _). by rewrite P. Qed.

Lemma Swap_sifted n m i j : idx_ok m -> (i < n)%nat -> (j < n)%nat -> (n <= length (m_byExpiry m))%nat ->
  exists m', Swap m i j = Some m' /\ sifted n m m' /\ forall x, key m' x = swapped (key m) i j x.
Proof.
  intros H Hi Hj Hn. destruct (Swap_ok m i j H ltac:(lia) ltac:(lia)) as (m' & E & I & R & P & K & L & _).
  exists m'. split; [done|]. split; [|done]. unfold sifted. split_and!; [done..|]. intros x Hx. apply L; lia.
Qed.

Lemma ordered_ext k k' n : (forall x, k' x = k x) -> ordered k n -> ordered k' n.
Proof. intros E H i Hi. rewrite !E. by apply H. Qed.
Lemma ordered_up_ext k k' n j : (forall x, k' x = k x) -> ordered_up k n j -> ordered_up k' n j.
Proof. intros E [H1 H2]. split; intros; rewrite !E; auto. Qed.
Lemma ordered_around_ext k k' n j : (forall x, k' x = k x) -> ordered_around k n j -> ordered_around k' n j.
Proof. intros E [H1 H2]. split; intros; rewrite !E; auto. Qed.

Lemma up_ok n : forall fuel m j, idx_ok m -> (j < n)%nat -> (n <= length (m_byExpiry m))%nat -> (j < fuel)%nat ->
  ordered_up (key m) n j -> exists m', up fuel m j = Some m' /\ sifted n m m' /\ ordered (key m') n.
Proof.
  induction fuel as [|fuel IH]; intros m j Hm Hj Hn Hf Ho; [lia|]. cbn [up]. fold (par j).
  destruct (Nat.eqb_spec (par j) j) as [E|Hne].
  - exists m. split_and!; [done|by apply sifted_refl|]. apply (up_stop _ _ j Ho). left.
    destruct (decide (j = 0%nat)); [done|]. pose proof (par_lt j ltac:(lia)). lia.
  - assert (0 < j)%nat as Hpos by (destruct j; [done|lia]). pose proof (par_lt j Hpos) as Hp.
    rewrite Less_ok by (done || lia). cbn [mbind option_bind]. destruct (Z.ltb_spec (key m j) (key m (par j))) as [Hlt|Hle]; cbn [negb].
    + destruct (Swap_sifted n m (par j) j) as (m1 & -> & S1 & K1); [done|lia..|]. cbn [mbind option_bind].
      pose proof (sifted_length _ _ _ S1) as Hl1. destruct (IH m1 (par j)) as (m2 & -> & S2 & O2); [apply S1|lia|lia|lia| |].
      * eapply ordered_up_ext; [exact K1|]. apply up_step; [lia|done|done].
      * exists m2. split_and!; [done|by apply sifted_trans with m1|done].
    + exists m. split_and!; [done|by apply sifted_refl|]. apply (up_stop _ _ j Ho). by right.
Qed.

Lemma children (k : nat -> Z) (n i j : nat) : (2 * i + 1 < n)%nat ->
  j = (if (2 * i + 2 <? n)%nat && (k (2 * i + 2)%nat <? k (2 * i + 1)%nat) then (2 * i + 2)%nat else (2 * i + 1)%nat) ->
  (0 < j < n)%nat /\ par j = i /\ forall x, (0 < x < n)%nat -> par x = i -> k j <= k x.
Proof.
  intros Hn ->. split; [|split].
  - destruct (Nat.ltb_spec (2 * i + 2) n), (_ <? _); cbn [andb]; lia.
  - destruct (_ && _); apply par_child; lia.
  - intros x Hx Hp. apply par_child in Hp as [-> | ->]; [| |lia];
      destruct (Nat.ltb_spec (2 * i + 2) n), (Z.ltb_spec (k (2 * i + 2)%nat) (k (2 * i + 1)%nat)); cbn [andb]; lia.
Qed.

Lemma downLoop_ok n : forall fuel m i, idx_ok m -> (i < n)%nat -> (n <= length (m_byExpiry m))%nat -> (n - i < fuel)%nat ->
  ordered_around (key m) n i -> exists m' i', downLoop fuel m i n = Some (m', i') /\ sifted n m m' /\ (i <= i')%nat /\
    (i' = i -> m' = m /\ ordered_up (key m) n i) /\
    ((i < i')%nat \/ i = 0%nat \/ key m (par i) <= key m i -> ordered (key m') n).
Proof.
  induction fuel as [|fuel IH]; intros m i Hm Hi Hn Hf Ho; [lia|]. cbn [downLoop].
  assert (ordered_up (key m) n i -> exists m' i', Some (m, i) = Some (m', i') /\ sifted n m m' /\ (i <= i')%nat /\
    (i' = i -> m' = m /\ ordered_up (key m) n i) /\ ((i < i')%nat \/ i = 0%nat \/ key m (par i) <= key m i -> ordered (key m') n)) as Hstop.
  { intros Hup. exists m, i. split_and!; [done|by apply sifted_refl|lia|done|]. intros H. apply (up_stop _ _ i Hup). destruct H; [lia|done]. }
  destruct (Nat.leb_spec n (2 * i + 1)) as [Hge|Hlt].
  - apply Hstop, down_stop; [done|]. intros x Hx Hp%par_child; lia.
  - assert (((if (2 * i + 1 + 1 <? n)%nat then Less m (2 * i + 1 + 1) (2 * i + 1) else Some false) =
      Some ((2 * i + 2 <? n)%nat && (key m (2 * i + 2)%nat <? key m (2 * i + 1)%nat)))) as ->.
    { replace (2 * i + 1 + 1)%nat with (2 * i + 2)%nat by lia. destruct (Nat.ltb_spec (2 * i + 2) n); [|done]. by rewrite Less_ok by (done || lia). }
    cbn [mbind option_bind]. replace (2 * i + 1 + 1)%nat with (2 * i + 2)%nat by lia.
    set (j := if (2 * i + 2 <? n)%nat && (key m (2 * i + 2)%nat <? key m (2 * i + 1)%nat) then (2 * i + 2)%nat else (2 * i + 1)%nat).
    destruct (children (key m) n i j Hlt eq_refl) as (Hj & Hpj & Hmin). clearbody j. pose proof (par_lt j ltac:(lia)) as Hij.
    rewrite Less_ok by (done || lia). cbn [mbind option_bind]. destruct (Z.ltb_spec (key m j) (key m i)) as [Hless|Hle]; cbn [negb].
    + destruct (Swap_sifted n m i j) as (m1 & -> & S1 & K1); [done|lia..|]. cbn [mbind option_bind].
      pose proof (sifted_length _ _ _ S1) as Hl1. destruct (down_step _ _ _ _ Hj Hpj Ho Hless Hmin) as [Ho1 Hk1].
      destruct (IH m1 j) as (m2 & i2 & -> & S2 & Hle2 & _ & O2); [apply S1|lia|lia|lia|by eapply ordered_around_ext|].
      exists m2, i2. split_and!; [done|by apply sifted_trans with m1|lia|lia|]. intros _. apply O2. right. right. by rewrite !K1.
    + apply Hstop, down_stop; [done|]. intros x Hx Hp. specialize (Hmin x Hx Hp). lia.
Qed.

Lemma key_reindexed l m m' i : reindexed l m m' -> m_byExpiry m' !! i = m_byExpiry m !! i -> key m' i = key m i.
Proof. intros R E. unfold key. rewrite E. destruct (m_byExpiry m !! i); [|done]. by apply (expiry_reindexed l). Qed.

Lemma down_ok m i n : idx_ok m -> (i < n)%nat -> (n <= length (m_byExpiry m))%nat -> ordered_around (key m) n i ->
  exists m' moved, down m i n = Some (m', moved) /\ sifted n m m' /\
    (if moved : bool then ordered (key m') n else m' = m /\ ordered_up (key m) n i).
Proof.
  intros Hm Hi Hn Ho. unfold down. destruct (downLoop_ok n (S n) m i) as (m' & i' & -> & S' & Hle & Hsame & Hord); [done|lia|lia|lia|done|].
  cbn [mbind option_bind]. exists m', (i <? i')%nat. split; [done|]. split; [done|]. destruct (Nat.ltb_spec i i'); [auto|]. apply Hsame. lia.
Qed.

Lemma byExpiry_Pop_ok m id l : idx_ok m -> m_byExpiry m = l ++ [id] -> exists m', byExpiry_Pop m = Some (m', id) /\ idx_ok m' /\
  m_byExpiry m' = l /\ reindexed [id] m m' /\ (forall n, m_nodes m' !! id = Some n -> n_byExpiryIndex n = -1).
Proof.
  intros H E. unfold byExpiry_Pop. pose proof (idx_ok_nodup m H) as Hnd. rewrite E in *.
  rewrite length_app. cbn [length]. replace (length l + 1 - 1)%nat with (length l) by lia.
  rewrite lookup_app_r, Nat.sub_diag by lia. cbn [lookup list_lookup mbind option_bind].
  destruct (H (length l) id) as (n & En & _); [by rewrite E, lookup_app_r, Nat.sub_diag by lia|].
  destruct (reindexed_with_node id (-1) [id] m) as (m1 & -> & R1 & B1 & L1); [by left|by eexists|]. cbn [mbind option_bind].
  eexists. split; [done|]. cbn. rewrite B1, E, take_app_length. split_and!; [|done|exact R1|].
  - intros i id' Hi. cbn in Hi |- *. assert (id' <> id) as Hne.
    { intros ->. apply NoDup_app in Hnd as (_ & Hnd & _). apply (Hnd id); [by eapply list_elem_of_lookup_2|by left]. }
    rewrite L1, decide_False by done. apply H. rewrite E, lookup_app_l; [done|]. by apply lookup_lt_Some in Hi.
  - intros n'. rewrite L1, decide_True by done. rewrite En. cbn. by intros [= <-].
Qed.

Theorem heap_Push_ok m id : heap_ok m -> is_Some (m_nodes m !! id) -> id ∉ m_byExpiry m ->
  exists m', heap_Push m id = Some m' /\ heap_ok m' /\ m_byExpiry m' ≡ₚ id :: m_byExpiry m /\ reindexed (id :: m_byExpiry m) m m'.
Proof.
  intros [Hi Ho] Hn Hid. unfold heap_Push, byExpiry_Push. set (n := length (m_byExpiry m)).
  destruct (reindexed_with_node id (zlen (m_byExpiry m)) (id :: m_byExpiry m) m) as (m1 & -> & R1 & B1 & L1); [by left|done|].
  cbn [mbind option_bind]. set (m2 := set_byExpiry (m_byExpiry m1 ++ [id]) m1).
  assert (m_byExpiry m2 = m_byExpiry m ++ [id]) as B2 by (cbn; by rewrite B1).
  assert (reindexed (id :: m_byExpiry m) m m2) as R2 by exact R1.
  rewrite B2, length_app. cbn [length]. fold n. replace (n + 1 - 1)%nat with n by lia.
  destruct (up_ok (n + 1) (S (n + 1)) m2 n) as (m3 & -> & (I3 & R3 & P3 & L3) & O3).
  - intros i id' E. rewrite B2 in E. change (m_nodes m2) with (m_nodes m1). rewrite L1. apply lookup_app_Some in E as [E|[Hge E]].
    + rewrite decide_False; [by apply Hi|]. intros ->. apply Hid. by eapply list_elem_of_lookup_2.
    + apply list_lookup_singleton_Some in E as [Hz <-]. rewrite decide_True by done. destruct Hn as [nd ->]. cbn. eexists. split; [done|].
      cbn. unfold zlen. fold n in Hge, Hz |- *. lia.
  - lia.
  - rewrite B2, length_app. cbn. lia.
  - lia.
  - split; intros i Hlt; [|intros Hp; pose proof (par_lt i); lia]. intros Hne. pose proof (par_lt i ltac:(lia)).
    rewrite !(key_reindexed _ m m2 _ R2) by (rewrite B2; apply lookup_app_l; fold n; lia). apply Ho. fold n. lia.
  - exists m3. assert (m_byExpiry m3 ≡ₚ id :: m_byExpiry m) as P by (rewrite P3, B2; symmetry; apply Permutation_cons_append).
    split_and!; [done|split; [done|]|done|].
    + assert (length (m_byExpiry m3) = n + 1)%nat as ->; [rewrite P; cbn; fold n; lia|done].
    + apply (reindexed_trans _ _ m2); [done|]. apply (reindexed_perm (m_byExpiry m2)); [|done]. rewrite B2. symmetry. apply Permutation_cons_append.
Qed.

Lemma sifted_pop m m' n id : sifted n m m' -> length (m_byExpiry m) = S n -> m_byExpiry m !! n = Some id -> ordered (key m') n ->
  exists m'', byExpiry_Pop m' = Some (m'', id) /\ heap_ok m'' /\ m_byExpiry m ≡ₚ id :: m_byExpiry m'' /\
    reindexed (m_byExpiry m) m m'' /\ (forall nd, m_nodes m'' !! id = Some nd -> n_byExpiryIndex nd = -1).
Proof.
  intros (I & R & P & L) Hlen Hid O. assert (length (m_byExpiry m') = S n) as Hlen' by (by rewrite P).
  assert (m_byExpiry m' !! n = Some id) as Hid' by (rewrite L; [done|lia]).
  assert (m_byExpiry m' = take n (m_byExpiry m') ++ [id]) as E.
  { rewrite <- (take_drop n (m_byExpiry m')) at 1. f_equal. rewrite (drop_S _ _ _ Hid'). f_equal. apply drop_ge. lia. }
  destruct (byExpiry_Pop_ok m' id _ I E) as (m2 & -> & I2 & B2 & R2 & X2). exists m2. split; [done|].
  assert (m_byExpiry m ≡ₚ id :: m_byExpiry m2) as P2 by (rewrite <- P, B2, E at 1; symmetry; apply Permutation_cons_append).
  split_and!; [split; [done|]|done| |done].
  - assert (length (m_byExpiry m2) = n) as -> by (rewrite B2, length_take; lia). intros i Hi. pose proof (par_lt i ltac:(lia)).
    rewrite !(key_reindexed _ m' m2 _ R2); [by apply O| |]; rewrite B2, E, take_app_length', lookup_app_l; rewrite ?length_take; try done; try lia.
  - apply (reindexed_trans _ _ m'); [done|]. destruct R2 as (A & B & C & R2). split_and!; [done..|]. intros x. specialize (R2 x).
    destruct (m_nodes m' !! x); [|done]. destruct R2 as (z & Ez & Hz). exists z. split; [done|]. intros Hx. apply Hz. intros ->%list_elem_of_singleton.
    apply Hx. rewrite P2. by left.
Qed.

Theorem heap_Remove_ok m i id : heap_ok m -> m_byExpiry m !! i = Some id ->
  exists m', heap_Remove m i = Some (m', id) /\ heap_ok m' /\ m_byExpiry m ≡ₚ id :: m_byExpiry m' /\
    reindexed (m_byExpiry m) m m' /\ (forall n, m_nodes m' !! id = Some n -> n_byExpiryIndex n = -1).
Proof.
  intros [Hi Ho] Hid. pose proof (lookup_lt_Some _ _ _ Hid) as Hlt. unfold heap_Remove.
  set (n := (length (m_byExpiry m) - 1)%nat). assert (length (m_byExpiry m) = S n) as Hlen by (unfold n; lia).
  destruct (Nat.eqb_spec n i) as [->|Hne]; cbn [mbind option_bind].
  - apply (sifted_pop m m i id); [by apply sifted_refl|done|done|]. intros x Hx. apply Ho. lia.
  - destruct (Swap_ok m i n) as (m1 & -> & I1 & R1 & P1 & K1 & L1 & X1); [done|lia..|]. cbn [mbind option_bind].
    assert (length (m_byExpiry m1) = S n) as Hlen1 by (by rewrite P1).
    assert (exists m2, (('(m, moved) ← down m1 i n; if moved : bool then Some m else up (S n) m i) = Some m2) /\ sifted n m1 m2 /\ ordered (key m2) n)
      as (m2 & E2 & S2 & O2).
    { destruct (down_ok m1 i n) as (m2 & moved & -> & S2 & H2); [done|lia|lia| |].
      - apply (ordered_replaced (key m)); [intros x Hx; apply Ho; lia|]. intros x Hx Hxi. rewrite K1. unfold swapped.
        destruct (Nat.eqb_spec x i), (Nat.eqb_spec x n); lia || done.
      - cbn [mbind option_bind]. destruct moved; [by exists m2|]. destruct H2 as [-> H2]. apply up_ok; [done|lia|lia|lia|done]. }
    change (option_bind memLS memLS ?f) with (mbind (M := option) f). cbn [mbind option_bind] in E2. rewrite E2. cbn [mbind option_bind].
    destruct (sifted_pop m1 m2 n id) as (m3 & E3 & H3 & P3 & R3 & X3); [done|done|by rewrite X1|done|]. exists m3.
    split; [done|]. split; [done|]. split; [by rewrite <- P1|]. split; [|done].
    apply (reindexed_trans _ _ m1); [done|]. by apply (reindexed_perm (m_byExpiry m1)).
Qed.
