(* ===== verification/WebdavTable.v ===== *)
(** * Package webdav: what a lock system promises

    The abstract specification of [LockSystem] (src/webdav/lock.go): a table from
    tokens to locks.  A lock covers its root and, unless its depth is zero, everything
    below; it ends when its time is over, but not while it is held.  No two locks of a
    table cover the same name. *)

From S2P Require Import Prelude WebdavPath WebdavLock.

(** ** Locks *)
Record alock := mkLock {
  a_details : LockDetails;
  a_deadline : option Z;         (* [None]: the lock does not expire *)
  a_held : bool
}.

#[global] Instance alock_eq_dec : EqDecision alock.
Proof. solve_decision. Defined.

Abbreviation table := (gmap bytes alock).

Definition a_root (l : alock) : list bytes := name_elements (ld_Root (a_details l)).
Definition a_zero (l : alock) : bool := ld_ZeroDepth (a_details l).

Definition covers (l : alock) (es : list bytes) : bool :=
  bool_decide (a_root l = es) || (negb (a_zero l) && bool_decide (a_root l ∈ ups es)).

(** The lock [l] stands in the way of a new one. *)
Definition conflict (root : list bytes) (zero : bool) (l : alock) : Prop :=
  a_root l = root \/ (a_zero l = false /\ a_root l ∈ ups root) \/ (zero = false /\ root ∈ ups (a_root l)).

#[global] Instance conflict_dec root zero l : Decision (conflict root zero l) := _.

Definition active (now : Z) (l : alock) : bool :=
  a_held l || match a_deadline l with None => true | Some d => now <? d end.

(** ** Operations *)
Definition t_expire (now : Z) (T : table) : table := filter (fun kv => active now kv.2 = true) T.

Definition deadline (now duration : Z) : option Z := if 0 <=? duration then Some (now + duration) else None.

Definition t_create (T : table) (gen now : Z) (d : LockDetails) : table * Z * (lock_error + bytes) :=
  let T := t_expire now T in
  let d := set_Root (slashClean (ld_Root d)) d in
  if bool_decide (map_Exists (fun _ l => conflict (name_elements (ld_Root d)) (ld_ZeroDepth d) l) T) then (T, gen, inl ErrLocked)
  else
    let gen := u64 (gen + 1) in
    (<[FormatUint gen := mkLock d (deadline now (ld_Duration d)) false]> T, gen, inr (FormatUint gen)).

Definition t_refresh (T : table) (now : Z) (token : bytes) (duration : Z) : table * (lock_error + LockDetails) :=
  let T := t_expire now T in
  match T !! token with
  | None => (T, inl ErrNoSuchLock)
  | Some l =>
      if a_held l then (T, inl ErrLocked)
      else
        let d := set_Duration duration (a_details l) in
        (<[token := mkLock d (deadline now duration) false]> T, inr d)
  end.

Definition t_unlock (T : table) (now : Z) (token : bytes) : table * option lock_error :=
  let T := t_expire now T in
  match T !! token with
  | None => (T, Some ErrNoSuchLock)
  | Some l => if a_held l then (T, Some ErrLocked) else (delete token T, None)
  end.

(** The first condition that names a lock free to be held that covers the name. *)
Fixpoint t_lookup (T : table) (es : list bytes) (conditions : list Condition) : option bytes :=
  match conditions with
  | [] => None
  | c :: conditions =>
      match T !! c_Token c with
      | Some l => if negb (a_held l) && covers l es then Some (c_Token c) else t_lookup T es conditions
      | None => t_lookup T es conditions
      end
  end.

Definition t_lookup_name (T : table) (name : bytes) (conditions : list Condition) : lock_error + option bytes :=
  if bool_decide (name = []) then inr None
  else match t_lookup T (name_elements name) conditions with
       | None => inl ErrConfirmationFailed
       | Some t => inr (Some t)
       end.

Definition a_set_held (h : bool) (l : alock) : alock := mkLock (a_details l) (a_deadline l) h.

Definition t_set_held (h : bool) (T : table) (t : option bytes) : table :=
  match t with Some t => alter (a_set_held h) t T | None => T end.

(** The tokens that a call of the release function gives back. *)
Abbreviation ticket := (option bytes * option bytes)%type.

Definition t_confirm (T : table) (now : Z) (name0 name1 : bytes) (conditions : list Condition) : table * (lock_error + ticket) :=
  let T := t_expire now T in
  match t_lookup_name T name0 conditions with
  | inl e => (T, inl e)
  | inr t0 =>
      match t_lookup_name T name1 conditions with
      | inl e => (T, inl e)
      | inr t1 =>
          let t1 := if bool_decide (t1 = t0) then None else t1 in
          (t_set_held true (t_set_held true T t0) t1, inr (t0, t1))
      end
  end.

Definition t_release (T : table) (k : ticket) : table := t_set_held false (t_set_held false T (snd k)) (fst k).

(** ** Exclusion *)
Definition exclusive (T : table) : Prop := forall t1 t2 l1 l2,
  T !! t1 = Some l1 -> T !! t2 = Some l2 -> t1 <> t2 -> ~ conflict (a_root l1) (a_zero l1) l2.

Lemma covers_spec l es : covers l es = true <-> a_root l = es \/ (a_zero l = false /\ a_root l ∈ ups es).
Proof. unfold covers. rewrite orb_true_iff, andb_true_iff, negb_true_iff, !bool_decide_eq_true. done. Qed.

Lemma ups_refl es : es ∈ ups es.
Proof. apply ups_elem. exists []. by rewrite app_nil_r. Qed.

Lemma covers_ups l es : covers l es = true -> a_root l ∈ ups es.
Proof. intros [<-|[_ H]]%covers_spec; [apply ups_refl|done]. Qed.

(** Two ancestors of a name: one is an ancestor of the other. *)
Lemma ups_chain x y es : x ∈ ups es -> y ∈ ups es -> x ∈ ups y \/ y ∈ ups x.
Proof.
  rewrite !ups_elem. intros [r1 ->] [r2 E]. revert y E. induction x as [|a x IH]; intros y E; [left; by exists y|].
  destruct y as [|b y]; [right; by eexists|]. injection E as <- E. destruct (IH y E) as [[r ->]|[r ->]]; [left|right]; by exists r.
Qed.

Lemma ups_antisym x y : x ∈ ups y -> y ∈ ups x -> x = y.
Proof.
  rewrite !ups_elem. intros [r1 ->] [r2 E]. rewrite <- app_assoc in E. destruct (r1 ++ r2) eqn:E12.
  - apply app_eq_nil in E12 as [-> _]. by rewrite app_nil_r.
  - apply (f_equal length) in E. rewrite length_app in E. cbn in E. lia.
Qed.

Lemma conflict_sym l1 l2 : conflict (a_root l1) (a_zero l1) l2 -> conflict (a_root l2) (a_zero l2) l1.
Proof. unfold conflict. intros [|[|]]; auto. Qed.

(** A conflict is a name that both cover. *)
Lemma conflict_covers l1 l2 : conflict (a_root l1) (a_zero l1) l2 <-> exists es, covers l1 es = true /\ covers l2 es = true.
Proof.
  split.
  - intros [E|[[Hz H]|[Hz H]]].
    + exists (a_root l1). split; apply covers_spec; by left.
    + exists (a_root l1). split; apply covers_spec; [by left|by right].
    + exists (a_root l2). split; apply covers_spec; [by right|by left].
  - intros (es & H1 & H2). destruct (ups_chain _ _ _ (covers_ups _ _ H1) (covers_ups _ _ H2)) as [H|H].
    + apply covers_spec in H1 as [E1|[Hz _]]; [|right; right; by split]. left. subst es.
      apply ups_antisym; [by apply covers_ups|done].
    + apply covers_spec in H2 as [E2|[Hz _]]; [|right; left; by split]. left. subst es.
      apply ups_antisym; [done|by apply covers_ups].
Qed.

Lemma exclusive_covers T t1 t2 l1 l2 es : exclusive T -> T !! t1 = Some l1 -> T !! t2 = Some l2 ->
  covers l1 es = true -> covers l2 es = true -> t1 = t2.
Proof.
  intros H E1 E2 H1 H2. destruct (decide (t1 = t2)) as [|Hne]; [done|]. exfalso. apply (H t1 t2 l1 l2 E1 E2 Hne).
  apply conflict_covers. by exists es.
Qed.

(** A table that only lost locks, or whose locks changed in time and use only. *)
Lemma exclusive_sub T T' : exclusive T ->
  (forall t l', T' !! t = Some l' -> exists l, T !! t = Some l /\ a_root l' = a_root l /\ a_zero l' = a_zero l) -> exclusive T'.
Proof.
  intros H Hsub t1 t2 l1 l2 E1 E2 Hne. destruct (Hsub _ _ E1) as (k1 & F1 & R1 & Z1), (Hsub _ _ E2) as (k2 & F2 & R2 & Z2).
  pose proof (H t1 t2 k1 k2 F1 F2 Hne). unfold conflict in *. by rewrite R1, Z1, R2, Z2.
Qed.

Lemma t_expire_lookup now T t l : t_expire now T !! t = Some l <-> T !! t = Some l /\ active now l = true.
Proof. unfold t_expire. by rewrite map_lookup_filter_Some. Qed.

Lemma t_expire_exclusive now T : exclusive T -> exclusive (t_expire now T).
Proof. intros H. apply (exclusive_sub T); [done|]. intros t l [E _]%t_expire_lookup. by exists l. Qed.

Lemma t_set_held_sub h T k t l' : t_set_held h T k !! t = Some l' -> exists l, T !! t = Some l /\ a_details l' = a_details l /\ a_deadline l' = a_deadline l.
Proof.
  destruct k as [k|]; [|by exists l']. cbn. destruct (decide (k = t)) as [->|Hne].
  - rewrite lookup_alter. rewrite decide_True by done. intros (l & E & ->)%fmap_Some. by exists l.
  - rewrite lookup_alter_ne by done. by exists l'.
Qed.

Lemma t_set_held_exclusive h T k : exclusive T -> exclusive (t_set_held h T k).
Proof.
  intros H. apply (exclusive_sub T); [done|]. intros t l' (l & E & D & _)%t_set_held_sub. exists l. unfold a_root, a_zero. by rewrite D.
Qed.

Lemma name_elements_idem name : name_elements (slashClean name) = name_elements name.
Proof. rewrite slashClean_elements. apply name_elements_abs, name_elements_ok. Qed.

Lemma t_create_exclusive T gen now d : exclusive T -> exclusive (t_create T gen now d).1.1.
Proof.
  intros H. apply (t_expire_exclusive now) in H. unfold t_create. case_bool_decide as Hc; [done|]. cbn.
  intros t1 t2 l1 l2 E1 E2 Hne. rewrite lookup_insert in E1, E2. destruct (decide (_ = t1)) as [<-|H1], (decide (_ = t2)) as [<-|H2].
  - done.
  - injection E1 as <-. intros Hx. apply Hc. by exists t2, l2.
  - injection E2 as <-. intros Hx%conflict_sym. apply Hc. by exists t1, l1.
  - by apply (H t1 t2).
Qed.

Lemma t_refresh_exclusive T now t x : exclusive T -> exclusive (t_refresh T now t x).1.
Proof.
  intros H. apply (t_expire_exclusive now) in H. unfold t_refresh. destruct (t_expire now T !! t) as [l|] eqn:E; [|done].
  destruct (a_held l); [done|]. cbn. apply (exclusive_sub (t_expire now T)); [done|]. intros t' l'. rewrite lookup_insert.
  destruct (decide (t = t')) as [<-|]; [|intros E'; by exists l']. intros [= <-]. by exists l.
Qed.

Lemma t_unlock_exclusive T now t : exclusive T -> exclusive (t_unlock T now t).1.
Proof.
  intros H. apply (t_expire_exclusive now) in H. unfold t_unlock. destruct (t_expire now T !! t) as [l|] eqn:E; [|done].
  destruct (a_held l); [done|]. cbn. apply (exclusive_sub (t_expire now T)); [done|]. intros t' l' [_ E']%lookup_delete_Some. by exists l'.
Qed.

Lemma t_confirm_exclusive T now n0 n1 cs : exclusive T -> exclusive (t_confirm T now n0 n1 cs).1.
Proof.
  intros H. apply (t_expire_exclusive now) in H. unfold t_confirm.
  destruct (t_lookup_name (t_expire now T) n0 cs), (t_lookup_name (t_expire now T) n1 cs); cbn; try done. by repeat apply t_set_held_exclusive.
Qed.
