(* ===== verification/WebdavLockOk.v ===== *)
(** * Package webdav: the invariant of the lock system

    [ls_ok]: the nodes by token and by name fit together, each name that a lock needs
    has a node that counts the locks at or below it, and the heap has the locks that are
    waiting to expire.  [table_of] is the table that a state stands for. *)

From S2P Require Import Prelude WebdavPath WebdavLock WebdavHeap WebdavTable.

(** ** Abstraction *)
Definition alock_of (n : memLSNode) : alock :=
  mkLock (n_details n) (if 0 <=? ld_Duration (n_details n) then Some (n_expiry n) else None) (n_held n).

Definition table_of (m : memLS) : table := omap (fun id => alock_of <$> m_nodes m !! id) (m_byToken m).

Lemma table_of_Some m t l : table_of m !! t = Some l <->
  exists id n, m_byToken m !! t = Some id /\ m_nodes m !! id = Some n /\ l = alock_of n.
Proof.
  unfold table_of. rewrite lookup_omap. destruct (m_byToken m !! t) as [id|]; cbn.
  - destruct (m_nodes m !! id) as [n|] eqn:E; cbn; split.
    + intros [= <-]. by exists id, n.
    + intros (? & ? & [= <-] & En & ->). congruence.
    + done.
    + intros (? & ? & [= <-] & En & ->). congruence.
  - split; [done|]. by intros (? & ? & ? & _).
Qed.

(** ** Counting the locks at or below a name *)
Definition refs (T : table) (es : list bytes) : Z := Z.of_nat (size (filter (fun kv => es ∈ ups (a_root kv.2)) T)).

Definition one (P : Prop) `{Decision P} : Z := if decide P then 1 else 0.

Lemma refs_insert T t l es : T !! t = None -> refs (<[t := l]> T) es = refs T es + one (es ∈ ups (a_root l)).
Proof.
  intros H. unfold refs, one. destruct (decide _) as [Hin|Hin].
  - rewrite map_filter_insert_True by done. rewrite map_size_insert_None; [lia|]. rewrite map_lookup_filter, H. done.
  - rewrite map_filter_insert_False by done. rewrite map_filter_delete, delete_id; [lia|]. by rewrite map_lookup_filter, H.
Qed.

Lemma refs_delete T t l es : T !! t = Some l -> refs (delete t T) es = refs T es - one (es ∈ ups (a_root l)).
Proof.
  intros H. rewrite <- (insert_delete_id T t l H) at 2. rewrite refs_insert by apply lookup_delete_eq. lia.
Qed.

Lemma refs_same T t l l' es : T !! t = Some l -> a_root l' = a_root l -> refs (<[t := l']> T) es = refs T es.
Proof.
  intros H E. rewrite <- insert_delete_eq, refs_insert by apply lookup_delete_eq. rewrite (refs_delete T t l) by done. rewrite E. lia.
Qed.

Lemma refs_pos T es : 0 < refs T es <-> exists t l, T !! t = Some l /\ es ∈ ups (a_root l).
Proof.
  unfold refs. split.
  - intros H. destruct (map_choose (filter (fun kv => es ∈ ups (a_root kv.2)) T)) as (t & l & E).
    + intros E. rewrite E, map_size_empty in H. lia.
    + apply map_lookup_filter_Some in E as [E Hin]. by exists t, l.
  - intros (t & l & E & Hin). assert (size (filter (fun kv => es ∈ ups (a_root kv.2)) T) <> 0%nat); [|lia].
    intros Hs. apply map_size_empty_inv in Hs. assert (filter (fun kv => es ∈ ups (a_root kv.2)) T !! t = Some l) as E'.
    { by apply map_lookup_filter_Some. }
    by rewrite Hs in E'.
Qed.

Lemma refs_nonneg T es : 0 <= refs T es.
Proof. unfold refs. lia. Qed.

(** ** The invariant *)
Definition tokens_ok (m : memLS) : Prop := forall t id, m_byToken m !! t = Some id ->
  exists n, m_nodes m !! id = Some n /\ n_token n = t /\ t <> [] /\
    ld_Root (n_details n) = abs_name (name_elements (ld_Root (n_details n))) /\ m_byName m !! ld_Root (n_details n) = Some id.

Definition named (m : memLS) (name : bytes) (id : nat) (n : memLSNode) : Prop :=
  ld_Root (n_details n) = name /\ 0 < n_refCount n /\
  (if decide (n_token n = []) then n_held n = false else m_byToken m !! n_token n = Some id).

Definition names_ok (m : memLS) : Prop := forall name id, m_byName m !! name = Some id ->
  exists n, m_nodes m !! id = Some n /\ named m name id n.

Definition rc (m : memLS) (name : bytes) : Z :=
  match m_byName m !! name with
  | Some id => match m_nodes m !! id with Some n => n_refCount n | None => 0 end
  | None => 0
  end.

Definition counts_ok (m : memLS) : Prop := forall es, elems_ok es -> rc m (abs_name es) = refs (table_of m) es.

Definition store_ok (m : memLS) : Prop := tokens_ok m /\ names_ok m /\ counts_ok m.

(** The heap has the nodes of [W]. *)
Definition queue_ok (W : nat -> Prop) (m : memLS) : Prop :=
  heap_ok m /\ (forall id, id ∈ m_byExpiry m <-> W id) /\
  (forall id n, m_nodes m !! id = Some n -> id ∉ m_byExpiry m -> n_byExpiryIndex n = -1).

Definition waiting (m : memLS) (id : nat) : Prop := exists t n,
  m_byToken m !! t = Some id /\ m_nodes m !! id = Some n /\ n_held n = false /\ 0 <= ld_Duration (n_details n).

Definition ls_ok (m : memLS) : Prop := store_ok m /\ queue_ok (waiting m) m.

(** ** What the heap operations leave alone *)
Lemma reindexed_node l m m' id n : reindexed l m m' -> m_nodes m !! id = Some n -> exists x, m_nodes m' !! id = Some (set_index x n).
Proof. intros (_ & _ & _ & H) E. specialize (H id). rewrite E in H. destruct H as (x & Ex & _). by exists x. Qed.

Lemma reindexed_inv l m m' id n' : reindexed l m m' -> m_nodes m' !! id = Some n' -> exists n x, m_nodes m !! id = Some n /\ n' = set_index x n.
Proof.
  intros (_ & _ & _ & H) E. specialize (H id). destruct (m_nodes m !! id) as [n|] eqn:En.
  - destruct H as (x & Ex & _). exists n, x. split; [done|]. congruence.
  - congruence.
Qed.

Lemma reindexed_table l m m' : reindexed l m m' -> table_of m' = table_of m.
Proof.
  intros R. apply map_eq. intros t. unfold table_of. rewrite !lookup_omap. destruct R as (_ & -> & _ & H).
  destruct (m_byToken m !! t) as [id|]; [cbn|done]. specialize (H id). destruct (m_nodes m !! id) as [n|]; [|by rewrite H].
  destruct H as (x & -> & _). done.
Qed.

Lemma reindexed_store l m m' : reindexed l m m' -> store_ok m -> store_ok m'.
Proof.
  intros R (Ht & Hn & Hc). pose proof R as (Bn & Bt & _ & _). split; [|split].
  - intros t id E. rewrite Bt in E. destruct (Ht t id E) as (n & En & ? & ? & ? & ?). destruct (reindexed_node _ _ _ _ _ R En) as [x Ex].
    exists (set_index x n). by rewrite Bn.
  - intros name id E. rewrite Bn in E. destruct (Hn name id E) as (n & En & H). destruct (reindexed_node _ _ _ _ _ R En) as [x Ex].
    exists (set_index x n). split; [done|]. unfold named in *. by rewrite Bt.
  - intros es Hes. rewrite (reindexed_table _ _ _ R), <- Hc by done. unfold rc. rewrite Bn. destruct (m_byName m !! abs_name es) as [id|] eqn:E; [|done].
    destruct (Hn _ _ E) as (n & En & _). destruct (reindexed_node _ _ _ _ _ R En) as [x Ex]. by rewrite En, Ex.
Qed.

Lemma reindexed_waiting l m m' id : reindexed l m m' -> waiting m' id <-> waiting m id.
Proof.
  intros R. pose proof R as (_ & Bt & _ & _). split.
  - intros (t & n' & E & En' & H). destruct (reindexed_inv _ _ _ _ _ R En') as (n & x & En & ->). exists t, n. by rewrite <- Bt.
  - intros (t & n & E & En & H). destruct (reindexed_node _ _ _ _ _ R En) as (x & Ex). exists t, (set_index x n). by rewrite Bt.
Qed.

(** ** The heap as a set *)
Lemma queue_ext W W' m : (forall id, W' id <-> W id) -> queue_ok W m -> queue_ok W' m.
Proof. intros E (H & Hw & Hx). split; [done|]. split; [|done]. intros id. by rewrite E. Qed.

Lemma queue_index W m id n : queue_ok W m -> m_nodes m !! id = Some n -> (0 <=? n_byExpiryIndex n) = true <-> W id.
Proof.
  intros ([Hi _] & Hw & Hx) En. rewrite <- Hw. split.
  - intros H. destruct (decide (id ∈ m_byExpiry m)) as [|Hnot]; [done|]. by rewrite (Hx id n En Hnot) in H.
  - intros [i E]%list_elem_of_lookup. destruct (Hi i id E) as (n' & En' & Ei). rewrite En in En'. injection En' as <-. lia.
Qed.

Lemma queue_index_false W m id n : queue_ok W m -> m_nodes m !! id = Some n -> ~ W id -> (0 <=? n_byExpiryIndex n) = false.
Proof. intros H En Hw. apply not_true_iff_false. by rewrite (queue_index W). Qed.

Lemma queue_push W m id : queue_ok W m -> is_Some (m_nodes m !! id) -> ~ W id ->
  exists m', heap_Push m id = Some m' /\ queue_ok (fun x => x = id \/ W x) m' /\ reindexed (id :: m_byExpiry m) m m'.
Proof.
  intros (H & Hw & Hx) Hn Hid. destruct (heap_Push_ok m id H Hn) as (m' & -> & H' & P & R); [by rewrite Hw|].
  exists m'. split; [done|]. split; [|done]. split; [done|]. split.
  - intros x. by rewrite P, elem_of_cons, Hw.
  - intros x n' En' Hnot. rewrite P in Hnot. destruct (reindexed_inv _ _ _ _ _ R En') as (n & y & En & ->).
    destruct R as (_ & _ & _ & R). specialize (R x). rewrite En in R. destruct R as (z & Ez & Hz). rewrite En' in Ez. injection Ez as Ez.
    cbn. rewrite Ez, Hz by done. apply (Hx x); [done|]. apply not_elem_of_cons in Hnot. tauto.
Qed.

Lemma queue_remove W m id n : queue_ok W m -> m_nodes m !! id = Some n -> W id ->
  exists m', heap_Remove m (Z.to_nat (n_byExpiryIndex n)) = Some (m', id) /\ queue_ok (fun x => x <> id /\ W x) m' /\ reindexed (m_byExpiry m) m m'.
Proof.
  intros (H & Hw & Hx) En Hid. pose proof Hid as Hid'. apply Hw in Hid' as [i Ei]%list_elem_of_lookup.
  destruct (proj1 H i id Ei) as (n' & En' & Hi). rewrite En in En'. injection En' as <-. rewrite Hi, Nat2Z.id.
  destruct (heap_Remove_ok m i id H Ei) as (m' & -> & H' & P & R & X). exists m'. split; [done|]. split; [|done].
  pose proof (idx_ok_nodup m (proj1 H)) as Hnd. rewrite P in Hnd. apply NoDup_cons in Hnd as [Hnid _].
  split; [done|]. split.
  - intros x. rewrite <- Hw, P, elem_of_cons. split; [|tauto]. intros Hin. split; [|by right]. by intros ->.
  - intros x n' En' Hnot. destruct (decide (x = id)) as [->|Hne]; [by apply X|].
    destruct (reindexed_inv _ _ _ _ _ R En') as (nx & y & Enx & ->). destruct R as (_ & _ & _ & R). specialize (R x). rewrite Enx in R.
    destruct R as (z & Ez & Hz). rewrite En' in Ez. injection Ez as Ez. rewrite P in Hz.
    assert (x ∉ id :: m_byExpiry m') as Hni by (by apply not_elem_of_cons). cbn. rewrite Ez, Hz by done. apply (Hx x); [done|]. by rewrite P.
Qed.

(** Changes that the heap does not see. *)
Lemma queue_same W m m' : queue_ok W m -> m_byExpiry m' = m_byExpiry m ->
  (forall id, W id -> expiry_of m' id = expiry_of m id) ->
  (forall id n', m_nodes m' !! id = Some n' -> n_byExpiryIndex n' = match m_nodes m !! id with Some n => n_byExpiryIndex n | None => -1 end) ->
  (forall id, is_Some (m_nodes m !! id) -> is_Some (m_nodes m' !! id)) -> queue_ok W m'.
Proof.
  intros ([Hi Ho] & Hw & Hx) B He Hidx Hdom. split; [split|split].
  - intros i id E. rewrite B in E. destruct (Hi i id E) as (n & En & Ei). destruct (Hdom id ltac:(by exists n)) as [n' En'].
    exists n'. split; [done|]. by rewrite (Hidx id n' En'), En.
  - rewrite B. assert (forall i, key m' i = key m i) as Hk; [|intros i Hin; rewrite !Hk; by apply Ho].
    intros i. unfold key. rewrite B. destruct (m_byExpiry m !! i) as [id|] eqn:E; [|done]. apply He, Hw. by eapply list_elem_of_lookup_2.
  - intros id. by rewrite B, Hw.
  - intros id n' En' Hnot. rewrite B in Hnot. rewrite (Hidx id n' En'). destruct (m_nodes m !! id) as [n|] eqn:En; [|done]. by apply (Hx id n).
Qed.

(** ** Changing a locked node *)
Definition keeps (f : memLSNode -> memLSNode) (n : memLSNode) : Prop :=
  n_token (f n) = n_token n /\ n_refCount (f n) = n_refCount n /\ ld_Root (n_details (f n)) = ld_Root (n_details n).

Definition put_node (id : nat) (n : memLSNode) (m : memLS) : memLS :=
  mkMemLS (m_byName m) (m_byToken m) (m_gen m) (m_byExpiry m) (<[id := n]> (m_nodes m)).

Lemma with_node_put id f m n : m_nodes m !! id = Some n -> with_node id f m = Some (put_node id (f n) m).
Proof. intros E. unfold with_node. by rewrite E. Qed.

Lemma put_node_lookup id n m x : m_nodes (put_node id n m) !! x = if decide (x = id) then Some n else m_nodes m !! x.
Proof. cbn. rewrite lookup_insert. destruct (decide (id = x)), (decide (x = id)); congruence. Qed.

Lemma token_node m t id : tokens_ok m -> m_byToken m !! t = Some id ->
  exists n, m_nodes m !! id = Some n /\ n_token n = t /\ t <> [] /\ table_of m !! t = Some (alock_of n).
Proof.
  intros H E. destruct (H t id E) as (n & En & Et & Hne & _). exists n. split_and!; try done. apply table_of_Some. by exists id, n.
Qed.

Lemma table_token m t l : table_of m !! t = Some l -> exists id, m_byToken m !! t = Some id.
Proof. intros (id & _ & E & _)%table_of_Some. by exists id. Qed.

Lemma token_inj m t1 t2 id : tokens_ok m -> m_byToken m !! t1 = Some id -> m_byToken m !! t2 = Some id -> t1 = t2.
Proof.
  intros H E1 E2. destruct (H _ _ E1) as (n1 & F1 & <- & _), (H _ _ E2) as (n2 & F2 & <- & _). congruence.
Qed.

Lemma put_table m t id n : tokens_ok m -> m_byToken m !! t = Some id -> table_of (put_node id n m) = <[t := alock_of n]> (table_of m).
Proof.
  intros H E. apply map_eq. intros t'. unfold table_of. rewrite lookup_insert, !lookup_omap. cbn [m_byToken put_node].
  destruct (decide (t = t')) as [<-|Hne].
  - rewrite E. cbn [mbind option_bind]. rewrite put_node_lookup, decide_True by done. done.
  - destruct (m_byToken m !! t') as [id'|] eqn:E'; [|done]. cbn [mbind option_bind]. rewrite put_node_lookup, decide_False; [done|].
    intros ->. apply Hne. by apply (token_inj m t t' id).
Qed.

Lemma put_store m t id n n' : store_ok m -> m_byToken m !! t = Some id -> m_nodes m !! id = Some n -> keeps (fun _ => n') n ->
  store_ok (put_node id n' m).
Proof.
  intros (Ht & Hn & Hc) E En (K1 & K2 & K3). cbn in K1, K2, K3. split; [|split].
  - intros t' id' E'. cbn in E'. destruct (Ht t' id' E') as (x & Ex & A & B & C & D). rewrite put_node_lookup.
    destruct (decide (id' = id)) as [->|]; [|by exists x]. rewrite En in Ex. injection Ex as <-. exists n'. by rewrite K1, K3.
  - intros name id' E'. cbn in E'. destruct (Hn name id' E') as (x & Ex & A & B & C). rewrite put_node_lookup.
    destruct (decide (id' = id)) as [->|]; [|by exists x]. rewrite En in Ex. injection Ex as <-. exists n'. unfold named. rewrite K1, K2, K3.
    destruct (Ht t id E) as (x & Ex & Et & Hne & _). rewrite En in Ex. injection Ex as <-. subst t.
    split_and!; [done..|]. rewrite decide_False in C |- * by done. done.
  - intros es Hes. rewrite (put_table m t) by done. rewrite (refs_same _ t (alock_of n)); [|apply table_of_Some; by exists id, n|].
    + rewrite <- Hc by done. unfold rc. cbn [m_byName put_node]. destruct (m_byName m !! abs_name es) as [id'|]; [|done].
      rewrite put_node_lookup. destruct (decide (id' = id)) as [->|]; [|done]. by rewrite En.
    + unfold a_root. cbn. by rewrite K3.
Qed.

(** ** The walks of [create] and [remove]

    [m'] is [m] with the reference counts of the names [x] changed by [g x]. *)
Definition bumped (m : memLS) (g : bytes -> Z) (m' : memLS) : Prop :=
  m_byToken m' = m_byToken m /\ m_gen m' = m_gen m /\ m_byExpiry m' = m_byExpiry m /\ names_ok m' /\
  (forall x, rc m' x = rc m x + g x) /\
  (forall id n, m_nodes m !! id = Some n -> exists c, m_nodes m' !! id = Some (set_refCount c n)) /\
  (forall id n', m_nodes m' !! id = Some n' -> m_nodes m !! id = None -> n_byExpiryIndex n' = -1).

Definition at_name (name : bytes) (d : Z) (x : bytes) : Z := if decide (x = name) then d else 0.
Definition at_names (l : list (list bytes)) (d : Z) (x : bytes) : Z := if decide (x ∈ map abs_name l) then d else 0.

Lemma at_names_cons es l d x : elems_ok es -> Forall elems_ok l -> NoDup (es :: l) ->
  at_names (es :: l) d x = at_name (abs_name es) d x + at_names l d x.
Proof.
  intros He Hl Hnd. apply NoDup_cons in Hnd as [Hnd _]. unfold at_names, at_name. cbn [map].
  assert (abs_name es ∉ map abs_name l) as Hni.
  { intros (y & E & Hy)%list_elem_of_fmap. apply Hnd. rewrite Forall_forall in Hl.
    by rewrite (abs_name_inj es y He (Hl y Hy) E). }
  destruct (decide (x = abs_name es)) as [->|Hne].
  - rewrite decide_True by (by left). rewrite decide_False by done. lia.
  - destruct (decide (x ∈ map abs_name l)); [rewrite decide_True by (by right); lia|]. rewrite decide_False; [lia|]. by intros [|]%elem_of_cons.
Qed.

Lemma bumped_trans m1 m2 m3 g1 g2 g : bumped m1 g1 m2 -> bumped m2 g2 m3 -> (forall x, g x = g1 x + g2 x) -> bumped m1 g m3.
Proof.
  intros (A1 & B1 & C1 & D1 & E1 & F1 & G1) (A2 & B2 & C2 & D2 & E2 & F2 & G2) Hg. unfold bumped. split_and!; try congruence.
  - done.
  - intros x. rewrite E2, E1, Hg. lia.
  - intros id n En. destruct (F1 _ _ En) as [c Ec]. destruct (F2 _ _ Ec) as [c' Ec']. by exists c'.
  - intros id n' En' En. destruct (m_nodes m2 !! id) as [n2|] eqn:E; [|by apply (G2 id)]. destruct (F2 _ _ E) as [c Ec].
    rewrite En' in Ec. injection Ec as ->. cbn. by apply (G1 id).
Qed.

Lemma bumped_refl m : names_ok m -> bumped m (fun _ => 0) m.
Proof.
  intros H. unfold bumped. split_and!; try done.
  - intros x. lia.
  - intros id n E. exists (n_refCount n). rewrite E. by destruct n.
  - congruence.
Qed.

Lemma name_inj m x y id : names_ok m -> m_byName m !! x = Some id -> m_byName m !! y = Some id -> x = y.
Proof. intros H E1 E2. destruct (H _ _ E1) as (n & En & <- & _), (H _ _ E2) as (n' & En' & <- & _). congruence. Qed.

Lemma rc_put m name id n c x : names_ok m -> m_byName m !! name = Some id -> m_nodes m !! id = Some n ->
  rc (put_node id (set_refCount c n) m) x = rc m x + at_name name (c - n_refCount n) x.
Proof.
  intros Hn E En. unfold rc, at_name. cbn [m_byName put_node]. destruct (m_byName m !! x) as [id'|] eqn:E'.
  - rewrite put_node_lookup. destruct (decide (id' = id)) as [->|].
    + rewrite En, decide_True by (by apply (name_inj m x name id)). cbn. lia.
    + rewrite decide_False by congruence. lia.
  - rewrite decide_False by congruence. done.
Qed.

Lemma put_refCount_nodes m id n c x nx : m_nodes m !! id = Some n -> m_nodes m !! x = Some nx ->
  exists c', m_nodes (put_node id (set_refCount c n) m) !! x = Some (set_refCount c' nx).
Proof.
  intros En Ex. rewrite put_node_lookup. destruct (decide (x = id)) as [->|].
  - exists c. rewrite En in Ex. by injection Ex as <-.
  - exists (n_refCount nx). rewrite Ex. by destruct nx.
Qed.

Lemma put_node_new m id n n' x nx : m_nodes m !! id = Some n -> m_nodes (put_node id n' m) !! x = Some nx -> m_nodes m !! x = None -> n_byExpiryIndex nx = -1.
Proof. intros En. rewrite put_node_lookup. destruct (decide (x = id)); congruence. Qed.

Lemma bump_node m name id n c : names_ok m -> m_byName m !! name = Some id -> m_nodes m !! id = Some n -> 0 < c ->
  bumped m (at_name name (c - n_refCount n)) (put_node id (set_refCount c n) m).
Proof.
  intros Hn E En Hc. unfold bumped. split_and!; try done.
  - intros x id' E'. cbn in E'. destruct (Hn x id' E') as (nx & Ex & A & B & C). rewrite put_node_lookup.
    destruct (decide (id' = id)) as [->|]; [|by exists nx]. exists (set_refCount c n). rewrite En in Ex. injection Ex as <-. by unfold named.
  - intros x. by apply rc_put.
  - intros x nx Ex. by apply put_refCount_nodes.
  - intros x n' Ex Enone. by apply (put_node_new m id n _ x n' En Ex).
Qed.

Lemma walkList_ext {S} (f g : bytes -> bool -> S -> option (S * bool)) l first s :
  (forall name first s, f name first s = g name first s) -> walkList f l first s = walkList g l first s.
Proof.
  intros E. revert first s. induction l as [|es l IH]; intros first s; [done|]. cbn [walkList]. rewrite E.
  destruct (g _ _ _) as [[s' []]|]; [cbn; apply IH|done..].
Qed.

(** The step of [create]. *)
Definition getNode (m : memLS) (name0 : bytes) : memLS * nat :=
  match m_byName m !! name0 with
  | Some id => (m, id)
  | None =>
      let id := fresh (dom (m_nodes m)) in
      let n := mkLSNode (set_Root name0 zeroDetails) [] 0 0 (-1) false in
      (mkMemLS (<[name0 := id]> (m_byName m)) (m_byToken m) (m_gen m) (m_byExpiry m) (<[id := n]> (m_nodes m)), id)
  end.

Lemma new_node_bumped m name : names_ok m -> m_byName m !! name = None ->
  let id := fresh (dom (m_nodes m)) in
  let n := mkLSNode (set_Root name zeroDetails) [] 1 0 (-1) false in
  let m' := mkMemLS (<[name := id]> (m_byName m)) (m_byToken m) (m_gen m) (m_byExpiry m) (<[id := n]> (m_nodes m)) in
  bumped m (at_name name 1) m'.
Proof.
  intros Hn E id n m'. assert (m_nodes m !! id = None) as Hid by (apply not_elem_of_dom; unfold id; apply is_fresh).
  assert (forall x, m_nodes m' !! x = if decide (x = id) then Some n else m_nodes m !! x) as Hl by apply (put_node_lookup id n m).
  unfold bumped. split_and!; try done.
  - intros x id' Ex. cbn in Ex. rewrite Hl. rewrite lookup_insert in Ex. destruct (decide (name = x)) as [<-|Hne].
    + injection Ex as <-. rewrite decide_True by done. exists n. by unfold named.
    + destruct (Hn x id' Ex) as (nx & Enx & A & B & C). rewrite decide_False by congruence. by exists nx.
  - intros x. unfold rc at 1, at_name. cbn [m_byName m']. rewrite lookup_insert. destruct (decide (name = x)) as [<-|Hne].
    + rewrite Hl, !decide_True by done. cbn. unfold rc. by rewrite E.
    + rewrite (decide_False (P := x = name)) by done. unfold rc. destruct (m_byName m !! x) as [id'|] eqn:Ex; [|done].
      rewrite Hl. destruct (Hn x id' Ex) as (nx & Enx & _). rewrite decide_False by congruence. lia.
  - intros x nx Ex. rewrite Hl, decide_False by congruence. exists (n_refCount nx). rewrite Ex. by destruct nx.
  - intros x n' Ex Enone. rewrite Hl in Ex. destruct (decide (x = id)); [by injection Ex as <-|congruence].
Qed.

Lemma create_step m name : names_ok m ->
  exists m' id, with_node (getNode m name).2 (fun n => set_refCount (n_refCount n + 1) n) (getNode m name).1 = Some m' /\
    (getNode m name).2 = id /\ bumped m (at_name name 1) m' /\ m_byName m' !! name = Some id /\ m_byName m ⊆ m_byName m'.
Proof.
  intros Hn. unfold getNode. destruct (m_byName m !! name) as [id|] eqn:E; cbn [fst snd].
  - destruct (Hn _ _ E) as (n & En & _ & Hc & _). rewrite (with_node_put _ _ _ n) by done.
    eexists _, _. split; [done|]. split_and!; [done| |done|done]. replace 1 with (n_refCount n + 1 - n_refCount n) at 1 by lia.
    apply bump_node; [done..|lia].
  - set (id := fresh (dom (m_nodes m))). unfold with_node. cbn [m_nodes]. rewrite lookup_insert_eq. cbn [mbind option_bind].
    eexists _, _. split; [done|]. cbn [m_byName m_byToken m_gen m_byExpiry m_nodes]. rewrite insert_insert_eq.
    split_and!; [done|by apply new_node_bumped|apply lookup_insert_eq|by apply insert_subseteq].
Qed.

Definition createStep (name0 : bytes) (first : bool) (s : memLS * option nat) : option (memLS * option nat * bool) :=
  m ← with_node (getNode s.1 name0).2 (fun n => set_refCount (n_refCount n + 1) n) (getNode s.1 name0).1;
  Some ((m, if first then Some (getNode s.1 name0).2 else s.2), true).

Lemma create_walk l : forall first m ret, Forall elems_ok l -> NoDup l -> names_ok m ->
  exists m' ret', walkList createStep l first (m, ret) = Some ((m', ret'), true) /\ bumped m (at_names l 1) m' /\ m_byName m ⊆ m_byName m' /\
    (forall es, es ∈ l -> is_Some (m_byName m' !! abs_name es)) /\
    match l with es :: _ => if first : bool then exists id, ret' = Some id /\ m_byName m' !! abs_name es = Some id else ret' = ret | [] => ret' = ret end.
Proof.
  induction l as [|es l IH]; intros first m ret Hl Hnd Hn.
  - exists m, ret. split; [done|]. split_and!; [by apply bumped_refl|done|by intros es H%elem_of_nil|done].
  - apply Forall_cons in Hl as [He Hl]. pose proof Hnd as [Hni Hnd']%NoDup_cons. cbn [walkList].
    destruct (create_step m (abs_name es) Hn) as (m1 & id & Ew & Eid & B1 & E1 & S1).
    assert (createStep (abs_name es) first (m, ret) = Some ((m1, if first then Some id else ret), true)) as ->
      by (unfold createStep; cbn [fst snd]; by rewrite Ew, Eid).
    cbn [mbind option_bind negb].
    destruct (IH false m1 (if first then Some id else ret)) as (m2 & ret' & -> & B2 & S2 & N2 & Hret); [done|done|apply B1|].
    exists m2, ret'. split; [done|]. split_and!.
    + eapply bumped_trans; [exact B1|exact B2|]. intros x. by apply at_names_cons.
    + by transitivity (m_byName m1).
    + intros x [->|Hx]%elem_of_cons; [|by apply N2]. exists id. by eapply lookup_weaken.
    + assert (ret' = if first then Some id else ret) as -> by (by destruct l). destruct first; [|done].
      exists id. split; [done|]. by eapply lookup_weaken.
Qed.

Lemma create_ok m root : elems_ok root -> names_ok m ->
  exists m' id, create m (abs_name root) = Some (m', Some id) /\ bumped m (at_names (ups root) 1) m' /\ m_byName m ⊆ m_byName m' /\
    m_byName m' !! abs_name root = Some id.
Proof.
  intros Hr Hn. unfold create. rewrite walkToRoot_ups by done.
  rewrite (walkList_ext _ createStep).
  2: { intros name first [m0 ret]. unfold createStep, getNode. cbn [fst snd]. by destruct (m_byName m0 !! name). }
  destruct (create_walk (ups root) true m None) as (m' & ret & -> & B & S & _ & Hret); [|apply ups_nodup|done|].
  - apply Forall_forall. intros x Hx. by apply (elems_ok_ups x root).
  - assert (exists l, ups root = root :: l) as [l El].
    { destruct root as [|e r _] using rev_ind; [by eexists|]. rewrite ups_snoc. by eexists. }
    rewrite El in Hret. destruct Hret as (id & -> & Hid). exists m', id. by split_and!.
Qed.

(** The step of [remove]. *)
Definition removeStep (name0 : bytes) (first : bool) (m : memLS) : option (memLS * bool) :=
  x ← m_byName m !! name0;
  m ← with_node x (fun n => set_refCount (n_refCount n - 1) n) m;
  nx ← m_nodes m !! x;
  Some (if n_refCount nx =? 0 then set_byName (delete name0 (m_byName m)) m else m, true).

Lemma remove_step m name first : names_ok m -> is_Some (m_byName m !! name) ->
  exists m', removeStep name first m = Some (m', true) /\ bumped m (at_name name (-1)) m' /\ m_byName m' ⊆ m_byName m /\
    (forall x, x <> name -> m_byName m' !! x = m_byName m !! x).
Proof.
  intros Hn [id E]. destruct (Hn _ _ E) as (n & En & _ & Hc & _). unfold removeStep. rewrite E. cbn [mbind option_bind].
  rewrite (with_node_put _ _ _ n) by done. cbn [mbind option_bind]. rewrite put_node_lookup, decide_True by done. cbn [mbind option_bind n_refCount set_refCount].
  destruct (Z.eqb_spec (n_refCount n - 1) 0) as [H0|H0]; eexists; (split; [done|]).
  - assert (forall x, x <> name -> delete name (m_byName m) !! x = m_byName m !! x) as Hd by (intros x Hx; by rewrite lookup_delete_ne).
    split; [|split; [apply delete_subseteq|done]]. unfold bumped. split_and!; try done.
    + intros x id' E'. cbn in E'. apply lookup_delete_Some in E' as [Hx E']. destruct (Hn x id' E') as (nx & Ex & A & B & C). cbn [m_nodes set_byName].
      rewrite put_node_lookup, decide_False; [by exists nx|]. intros ->. apply Hx. by apply (name_inj m name x id).
    + intros x. destruct (decide (x = name)) as [->|Hx].
      * unfold rc at 1. cbn. rewrite lookup_delete_eq. unfold rc, at_name. rewrite E, En, decide_True by done. lia.
      * pose proof (rc_put m name id n (n_refCount n - 1) x Hn E En) as Hr. unfold at_name in *. rewrite decide_False in Hr |- * by done.
        rewrite <- Hr. unfold rc. cbn. by rewrite lookup_delete_ne.
    + intros x nx Ex. by apply put_refCount_nodes.
    + intros x n' Ex Enone. by apply (put_node_new m id n _ x n' En Ex).
  - split; [|done]. replace (-1) with (n_refCount n - 1 - n_refCount n) by lia. apply bump_node; [done..|lia].
Qed.

Lemma remove_walk l : forall first m, Forall elems_ok l -> NoDup l -> names_ok m -> (forall es, es ∈ l -> is_Some (m_byName m !! abs_name es)) ->
  exists m', walkList removeStep l first m = Some (m', true) /\ bumped m (at_names l (-1)) m' /\ m_byName m' ⊆ m_byName m.
Proof.
  induction l as [|es l IH]; intros first m Hl Hnd Hn Hs.
  - exists m. split; [done|]. split; [|done]. by apply bumped_refl.
  - apply Forall_cons in Hl as [He Hl]. pose proof Hnd as [Hni Hnd']%NoDup_cons. cbn [walkList].
    destruct (remove_step m (abs_name es) first Hn) as (m1 & -> & B1 & S1 & N1); [apply Hs; by left|]. cbn [mbind option_bind negb].
    destruct (IH false m1) as (m2 & -> & B2 & S2); [done|done|apply B1| |].
    + intros x Hx. rewrite N1; [apply Hs; by right|]. intros E. rewrite Forall_forall in Hl. by rewrite (abs_name_inj x es (Hl x Hx) He E) in Hx.
    + exists m2. split; [done|]. split; [|by transitivity (m_byName m1)]. eapply bumped_trans; [exact B1|exact B2|]. intros x. by apply at_names_cons.
Qed.

Lemma at_names_ups root d es : elems_ok root -> elems_ok es -> at_names (ups root) d (abs_name es) = d * one (es ∈ ups root).
Proof.
  intros Hr He. unfold at_names, one. destruct (decide (es ∈ ups root)) as [H|H].
  - rewrite decide_True; [lia|]. apply list_elem_of_fmap. by exists es.
  - rewrite decide_False; [lia|]. intros (y & E & Hy)%list_elem_of_fmap. apply H.
    by rewrite (abs_name_inj es y He (elems_ok_ups y root Hr Hy) E).
Qed.

Lemma bumped_table m g m' : tokens_ok m -> bumped m g m' -> table_of m' = table_of m.
Proof.
  intros Ht (Bt & _ & _ & _ & _ & H & _). apply map_eq. intros t. unfold table_of. rewrite !lookup_omap, Bt.
  destruct (m_byToken m !! t) as [id|] eqn:E; [|done]. cbn [mbind option_bind]. destruct (Ht t id E) as (n & En & _).
  destruct (H _ _ En) as [c ->]. by rewrite En.
Qed.

Lemma bumped_queue W m g m' : (forall id, W id -> is_Some (m_nodes m !! id)) -> bumped m g m' -> queue_ok W m -> queue_ok W m'.
Proof.
  intros HW (_ & _ & Be & _ & _ & H & Hnew) Hq. apply (queue_same W m); [done|done|..].
  - intros id [n En]%HW. unfold expiry_of. destruct (H _ _ En) as [c ->]. by rewrite En.
  - intros id n' En'. destruct (m_nodes m !! id) as [n|] eqn:En; [|by apply (Hnew id)]. destruct (H _ _ En) as [c Ec].
    rewrite En' in Ec. by injection Ec as ->.
  - intros id [n En]. destruct (H _ _ En) as [c Ec]. by eexists.
Qed.

(** What the invariant says of the node of a token. *)
Lemma token_root m t id n : tokens_ok m -> m_byToken m !! t = Some id -> m_nodes m !! id = Some n ->
  let root := name_elements (ld_Root (n_details n)) in elems_ok root /\ ld_Root (n_details n) = abs_name root /\ a_root (alock_of n) = root /\
  n_token n = t /\ t <> [] /\ m_byName m !! abs_name root = Some id.
Proof.
  intros Ht E En root. destruct (Ht t id E) as (n' & En' & A & B & C & D). rewrite En in En'. injection En' as <-.
  split; [apply clean_elem_ok, name_elements_ok|]. split_and!; try done. unfold root. by rewrite <- C.
Qed.

Lemma rc_named m name : 0 < rc m name -> exists id, m_byName m !! name = Some id.
Proof. unfold rc. destruct (m_byName m !! name) as [id|]; [by exists id|lia]. Qed.

Lemma refs_named m T es : counts_ok m -> elems_ok es -> table_of m = T -> 0 < refs T es -> exists id, m_byName m !! abs_name es = Some id.
Proof. intros Hc Hes <- H. apply rc_named. by rewrite Hc. Qed.

Lemma waiting_table m id : tokens_ok m ->
  waiting m id <-> exists t l, m_byToken m !! t = Some id /\ table_of m !! t = Some l /\ a_held l = false /\ is_Some (a_deadline l).
Proof.
  intros Ht. split.
  - intros (t & n & E & En & Hh & Hd). exists t, (alock_of n). split; [done|]. split; [apply table_of_Some; by exists id, n|]. split; [done|].
    cbn. destruct (Z.leb_spec 0 (ld_Duration (n_details n))); [by eexists|lia].
  - intros (t & l & E & (id' & n & E' & En & ->)%table_of_Some & Hh & [d Hd]). rewrite E in E'. injection E' as <-.
    exists t, n. split_and!; try done. cbn in Hd. destruct (Z.leb_spec 0 (ld_Duration (n_details n))); [done|discriminate].
Qed.
