(* ===== verification/WebdavLockOps.v ===== *)
(** * Package webdav: the operations keep the invariant

    Each operation of the lock system on a state that satisfies [ls_ok]: it does not
    panic, keeps [ls_ok], and does to [table_of] what the specification says. *)

From S2P Require Import Prelude WebdavPath WebdavLock WebdavHeap WebdavTable WebdavLockOk.

(** ** remove *)
Definition cleared (t : bytes) (id : nat) (n : memLSNode) (m : memLS) : memLS :=
  put_node id (set_token [] n) (set_byToken (delete t (m_byToken m)) m).

Lemma cleared_ok m t id n : store_ok m -> m_byToken m !! t = Some id -> m_nodes m !! id = Some n -> n_held n = false ->
  let m' := cleared t id n m in
  tokens_ok m' /\ names_ok m' /\ (forall x, rc m' x = rc m x) /\ table_of m' = delete t (table_of m).
Proof.
  intros (Ht & Hn & Hc) E En Hh m'. assert (forall x, m_nodes m' !! x = if decide (x = id) then Some (set_token [] n) else m_nodes m !! x) as Hl
    by apply (put_node_lookup id (set_token [] n) (set_byToken (delete t (m_byToken m)) m)).
  split; [|split; [|split]].
  - intros t' id' E'. cbn in E'. apply lookup_delete_Some in E' as [Hne E']. destruct (Ht _ _ E') as (n' & En' & H). rewrite Hl, decide_False.
    + by exists n'.
    + intros ->. apply Hne. by apply (token_inj m t t' id).
  - intros name id' E'. cbn in E'. destruct (Hn _ _ E') as (n' & En' & A & B & C). rewrite Hl. destruct (decide (id' = id)) as [->|Hne].
    + rewrite En in En'. injection En' as <-. exists (set_token [] n). by unfold named.
    + exists n'. split; [done|]. split_and!; [done..|]. destruct (decide (n_token n' = [])); [done|]. cbn. apply lookup_delete_Some. split; [|done].
      intros Et. rewrite <- Et in C. congruence.
  - intros x. unfold rc. cbn [m' cleared m_byName put_node set_byToken]. destruct (m_byName m !! x) as [id'|]; [|done].
    change (m_nodes (cleared t id n m) !! id') with (m_nodes m' !! id'). rewrite Hl. destruct (decide (id' = id)) as [->|]; [|done]. by rewrite En.
  - apply map_eq. intros t'. unfold table_of. rewrite lookup_omap. cbn [m' cleared m_byToken put_node set_byToken].
    rewrite !lookup_delete. destruct (decide (t = t')) as [|Hne]; [done|]. rewrite lookup_omap. destruct (m_byToken m !! t') as [id'|] eqn:E'; [|done].
    cbn [mbind option_bind]. change (m_nodes (cleared t id n m) !! id') with (m_nodes m' !! id'). rewrite Hl, decide_False; [done|]. intros ->.
    apply Hne. by apply (token_inj m t t' id).
Qed.

(** After the walk, the maps fit the smaller table. *)
Lemma walked_ok m m' root T : tokens_ok m -> elems_ok root -> bumped m (at_names (ups root) (-1)) m' -> m_byName m' ⊆ m_byName m ->
  table_of m = T -> (forall es, elems_ok es -> rc m (abs_name es) = refs T es + one (es ∈ ups root)) -> store_ok m' /\ table_of m' = T.
Proof.
  intros Ht Hr B Hsub HT Hrc. pose proof (bumped_table _ _ _ Ht B) as HT'. pose proof B as (Bt & _ & _ & Hn & Hg & Hnodes & _).
  assert (counts_ok m') as Hc.
  { intros es Hes. rewrite Hg, Hrc, at_names_ups, HT', HT by done. lia. }
  split; [|by rewrite HT']. split; [|done]. intros t id E. rewrite Bt in E. destruct (Ht t id E) as (n & En & A & C & D & F).
  destruct (Hnodes _ _ En) as [c Ec]. exists (set_refCount c n). split; [done|]. split_and!; [done..|]. cbn.
  destruct (token_root m t id n Ht E En) as (Hes & Eroot & Ha & _). rewrite Eroot in F |- *.
  destruct (refs_named m' T (name_elements (ld_Root (n_details n))) Hc Hes ltac:(congruence)) as [id' E'].
  - apply refs_pos. exists t, (alock_of n). split; [rewrite <- HT; apply table_of_Some; by exists id, n|]. rewrite Ha. apply ups_refl.
  - rewrite E'. f_equal. pose proof (lookup_weaken _ _ _ _ E' Hsub). congruence.
Qed.

Theorem remove_ok m W t id n : store_ok m -> queue_ok W m -> (forall x, W x -> is_Some (m_nodes m !! x)) ->
  m_byToken m !! t = Some id -> m_nodes m !! id = Some n -> n_held n = false ->
  exists m', remove m id = Some m' /\ store_ok m' /\ queue_ok (fun x => x <> id /\ W x) m' /\
    table_of m' = delete t (table_of m) /\ m_byToken m' = delete t (m_byToken m) /\ m_gen m' = m_gen m.
Proof.
  intros Hs Hq HW E En Hh. pose proof Hs as (Ht & Hn & Hc). destruct (token_root m t id n Ht E En) as (Hes & Eroot & Ha & Etok & _).
  set (root := name_elements (ld_Root (n_details n))) in *. unfold remove. rewrite En. cbn [mbind option_bind]. rewrite Etok.
  rewrite (with_node_put _ _ _ n) by done. cbn [mbind option_bind]. fold (cleared t id n m). set (m2 := cleared t id n m).
  destruct (cleared_ok m t id n Hs E En Hh) as (Ht2 & Hn2 & Hc2 & HT2). fold m2 in Ht2, Hn2, Hc2, HT2.
  assert (forall x, m_nodes m2 !! x = if decide (x = id) then Some (set_token [] n) else m_nodes m !! x) as Hl
    by apply (put_node_lookup id (set_token [] n) (set_byToken (delete t (m_byToken m)) m)).
  assert (table_of m !! t = Some (alock_of n)) as Hlock by (apply table_of_Some; by exists id, n).
  rewrite Eroot, walkToRoot_ups by done. rewrite (walkList_ext _ removeStep) by done.
  destruct (remove_walk (ups root) true m2) as (m3 & -> & B3 & S3); [|apply ups_nodup|done| |].
  { apply Forall_forall. intros x Hx. by apply (elems_ok_ups x root). }
  { intros es Hx. assert (elems_ok es) by (by apply (elems_ok_ups es root)). apply rc_named. rewrite Hc2, Hc by done. apply refs_pos.
    exists t, (alock_of n). by rewrite Ha. }
  cbn [mbind option_bind]. destruct (walked_ok m2 m3 root (delete t (table_of m)) Ht2 Hes B3 S3 HT2) as [Hs3 HT3].
  { intros es Hx. rewrite Hc2, Hc, (refs_delete _ _ (alock_of n)), Ha by done. lia. }
  assert (queue_ok W m3) as Hq3.
  { apply (bumped_queue W m2 (at_names (ups root) (-1))); [|done|].
    - intros x Hx. rewrite Hl. destruct (decide (x = id)); [by eexists|by apply HW].
    - apply (queue_same W m); [done|done|..].
      + intros x _. unfold expiry_of. rewrite Hl. destruct (decide (x = id)) as [->|]; [|done]. by rewrite En.
      + intros x n' Ex. rewrite Hl in Ex. destruct (decide (x = id)) as [->|]; [rewrite En; by injection Ex as <-|by rewrite Ex].
      + intros x Hx. rewrite Hl. destruct (decide (x = id)); [by eexists|done]. }
  pose proof B3 as (Bt & Bg & _ & _ & _ & Hnodes & _). destruct (Hnodes id (set_token [] n)) as [c En3]; [by rewrite Hl, decide_True|].
  rewrite En3. cbn [mbind option_bind]. pose proof (queue_index W m3 id _ Hq3 En3) as Hidx. destruct (0 <=? _).
  - destruct (queue_remove W m3 id _ Hq3 En3 (proj1 Hidx eq_refl)) as (m4 & -> & Hq4 & R4). cbn [mbind option_bind]. exists m4. split; [done|].
    split_and!; [by eapply reindexed_store|done|by rewrite (reindexed_table _ _ _ R4)| |]; destruct R4 as (_ & Rt & Rg & _).
    + by rewrite Rt, Bt.
    + by rewrite Rg, Bg.
  - exists m3. split; [done|]. split_and!; [done| |done|done|done]. apply (queue_ext W); [|done]. intros x. split; [tauto|].
    intros Hx. split; [|done]. intros ->. by apply Hidx in Hx.
Qed.

(** ** collectExpiredNodes *)
Lemma waiting_node m id : waiting m id -> is_Some (m_nodes m !! id).
Proof. intros (t & n & _ & En & _). by exists n. Qed.

Lemma waiting_deleted m m' t id : tokens_ok m -> tokens_ok m' -> m_byToken m !! t = Some id ->
  m_byToken m' = delete t (m_byToken m) -> table_of m' = delete t (table_of m) -> forall x, waiting m' x <-> x <> id /\ waiting m x.
Proof.
  intros Ht Ht' E Bt HT x. rewrite !waiting_table, Bt, HT by done. split.
  - intros (t' & l & [Hne E']%lookup_delete_Some & [_ El]%lookup_delete_Some & H). split; [|by exists t', l].
    intros ->. apply Hne. by apply (token_inj m t t' id).
  - intros [Hx (t' & l & E' & El & H)]. exists t', l. assert (t <> t') by congruence. by rewrite !lookup_delete_ne.
Qed.

Lemma remove_ls_ok m t id n : ls_ok m -> m_byToken m !! t = Some id -> m_nodes m !! id = Some n -> n_held n = false ->
  exists m', remove m id = Some m' /\ ls_ok m' /\ table_of m' = delete t (table_of m) /\
    m_byToken m' = delete t (m_byToken m) /\ m_gen m' = m_gen m /\ (forall x, x ∈ m_byExpiry m' <-> x <> id /\ x ∈ m_byExpiry m).
Proof.
  intros [Hs Hq] E En Hh. destruct (remove_ok m (waiting m) t id n Hs Hq (waiting_node m) E En Hh) as (m' & -> & Hs' & Hq' & HT & Bt & Bg).
  exists m'. split; [done|]. split_and!; try done.
  - split; [done|]. eapply queue_ext; [|exact Hq']. apply (waiting_deleted m m' t); [apply Hs|apply Hs'|done..].
  - intros x. destruct Hq' as (_ & -> & _), Hq as (_ & Hw & _). by rewrite Hw.
Qed.

Lemma t_expire_id now T : (forall t l, T !! t = Some l -> active now l = true) -> t_expire now T = T.
Proof. intros H. apply map_filter_id. intros t l. apply H. Qed.

Lemma t_expire_delete now T t l : T !! t = Some l -> active now l = false -> t_expire now (delete t T) = t_expire now T.
Proof.
  intros E H. apply map_eq. intros t'. apply option_eq. intros l'. rewrite !t_expire_lookup, lookup_delete_Some. split; [tauto|].
  intros [E' H']. split; [|done]. split; [|done]. intros <-. congruence.
Qed.

Lemma waiting_expiry m id n now : waiting m id -> m_nodes m !! id = Some n -> active now (alock_of n) = (now <? n_expiry n).
Proof.
  intros (t & n' & _ & En' & Hh & Hd) En. rewrite En in En'. injection En' as <-. unfold active, alock_of. cbn. rewrite Hh.
  destruct (Z.leb_spec 0 (ld_Duration (n_details n))); [done|lia].
Qed.

(** The head of the heap is the first to expire. *)
Lemma head_active m id l n now : ls_ok m -> m_byExpiry m = id :: l -> m_nodes m !! id = Some n -> now < n_expiry n ->
  forall t k, table_of m !! t = Some k -> active now k = true.
Proof.
  intros [(Ht & _ & _) (Hh & Hw & _)] E En Hlt t k (x & nx & Et & Ex & ->)%table_of_Some.
  destruct (active now (alock_of nx)) eqn:Ha; [done|]. exfalso.
  assert (waiting m x) as Hwx.
  { unfold active, alock_of in Ha. cbn in Ha. apply orb_false_iff in Ha as [Hheld Ha]. exists t, nx. split_and!; try done.
    destruct (Z.leb_spec 0 (ld_Duration (n_details nx))); [done|discriminate]. }
  rewrite (waiting_expiry m x) in Ha by done. apply Z.ltb_ge in Ha. apply Hw in Hwx as [i Ei]%list_elem_of_lookup.
  pose proof (ordered_root _ _ i (proj2 Hh) (lookup_lt_Some _ _ _ Ei)) as Hroot. unfold key, expiry_of in Hroot. rewrite Ei, Ex, E in Hroot.
  cbn [lookup list_lookup] in Hroot. rewrite En in Hroot. lia.
Qed.

Lemma collectLoop_ok now fuel : forall m, ls_ok m -> (length (m_byExpiry m) <= fuel)%nat ->
  exists m', collectLoop fuel m now = Some m' /\ ls_ok m' /\ table_of m' = t_expire now (table_of m) /\
    m_byToken m' ⊆ m_byToken m /\ m_gen m' = m_gen m.
Proof.
  induction fuel as [|fuel IH]; intros m H Hf.
  - destruct (m_byExpiry m) as [|id l] eqn:E; [|cbn in Hf; lia]. exists m. cbn [collectLoop]. rewrite E. split; [done|]. split_and!; try done.
    symmetry. apply t_expire_id. intros t k (x & nx & Et & Ex & ->)%table_of_Some. unfold active, alock_of. cbn.
    destruct (n_held nx) eqn:Hh; [done|]. destruct (Z.leb_spec 0 (ld_Duration (n_details nx))); [|done]. exfalso.
    assert (x ∈ m_byExpiry m) as Hx; [|rewrite E in Hx; by apply elem_of_nil in Hx]. apply H. by exists t, nx.
  - cbn [collectLoop]. destruct (m_byExpiry m) as [|id l] eqn:E.
    + destruct (IH m H) as (m' & E' & H'); [rewrite E; cbn; lia|]. exists m'. split; [|done]. destruct fuel; cbn in E'; by rewrite E in E'.
    + assert (waiting m id) as (t & n & Et & En & Hh & Hd) by (apply H; rewrite E; by left). rewrite En. cbn [mbind option_bind].
      destruct (Z.ltb_spec now (n_expiry n)) as [Hlt|Hge].
      * exists m. split; [done|]. split_and!; try done. symmetry. apply t_expire_id. by apply (head_active m id l n now).
      * destruct (remove_ls_ok m t id n H Et En Hh) as (m1 & -> & H1 & HT1 & Bt1 & Bg1 & Be1). cbn [mbind option_bind].
        destruct (IH m1 H1) as (m2 & -> & H2 & HT2 & Bt2 & Bg2).
        { pose proof (idx_ok_nodup m1 (proj1 (proj1 (proj2 H1)))) as Hnd. assert (NoDup (id :: m_byExpiry m1)) as Hnd1.
          { apply NoDup_cons. split; [|done]. rewrite Be1. tauto. }
          apply NoDup_submseteq with (k := m_byExpiry m) in Hnd1; [apply submseteq_length in Hnd1; rewrite E in Hnd1; cbn in Hnd1, Hf; lia|].
          intros x [->|Hx]%elem_of_cons; [rewrite E; by left|]. by apply Be1. }
        exists m2. split; [done|]. split_and!; [done| |transitivity (m_byToken m1); [done|rewrite Bt1; apply delete_subseteq]|congruence].
        rewrite HT2, HT1. apply (t_expire_delete _ _ _ (alock_of n)); [apply table_of_Some; by exists id, n|].
        rewrite (waiting_expiry m id) by (done || by exists t, n). by apply Z.ltb_ge.
Qed.

Lemma collect_ok m now : ls_ok m -> exists m', collectExpiredNodes m now = Some m' /\ ls_ok m' /\
  table_of m' = t_expire now (table_of m) /\ m_byToken m' ⊆ m_byToken m /\ m_gen m' = m_gen m.
Proof. intros H. by apply collectLoop_ok. Qed.

(** ** lookup *)
Lemma covers_test (l : alock) es : ld_Root (a_details l) = abs_name (a_root l) -> elems_ok (a_root l) -> elems_ok es ->
  covers l es =
  (if bool_decide (abs_name es = ld_Root (a_details l)) then true
   else if ld_ZeroDepth (a_details l) then false
   else bool_decide (ld_Root (a_details l) = [slash]) || HasPrefix (abs_name es) (ld_Root (a_details l) ++ [slash])).
Proof.
  intros Er Hr Hes. rewrite Er. apply eq_iff_eq_true. rewrite covers_spec. case_bool_decide as E1.
  - apply abs_name_inj in E1 as ->; [|done|done]. split; [done|]. by left.
  - assert (a_root l <> es) as Hne by congruence. fold (a_zero l). destruct (a_zero l); [split; [intros [|[]]; congruence|discriminate]|].
    rewrite orb_true_iff, bool_decide_eq_true. destruct (decide (a_root l = [])) as [E|E].
    + rewrite E in *. split; [by left|]. intros _. right. split; [done|]. apply ups_elem. by exists es.
    + rewrite below_spec by done. rewrite ups_above. split; [intros [|[_ [|]]]; [congruence..|by right]|].
      intros [E'|H]; [|right; split; [done|by right]]. change [slash] with (abs_name []) in E'. exfalso. apply E.
      apply abs_name_inj in E'; [done|done|apply List.Forall_nil].
Qed.

Lemma lookup_ok m es cs : tokens_ok m -> elems_ok es ->
  lookup_ m (abs_name es) cs = Some (t ← t_lookup (table_of m) es cs; m_byToken m !! t).
Proof.
  intros Ht Hes. induction cs as [|c cs IH]; [done|]. cbn [lookup_ t_lookup]. destruct (m_byToken m !! c_Token c) as [id|] eqn:E.
  - destruct (Ht _ _ E) as (n & En & _). rewrite En. cbn [mbind option_bind].
    assert (table_of m !! c_Token c = Some (alock_of n)) as -> by (apply table_of_Some; by exists id, n).
    destruct (token_root m _ id n Ht E En) as (Hr & Er & Ha & _). change (a_held (alock_of n)) with (n_held n).
    destruct (n_held n); [done|]. cbn [negb andb]. rewrite covers_test; [|by rewrite Ha|by rewrite Ha|done].
    change (a_details (alock_of n)) with (n_details n). case_bool_decide; [cbn; by rewrite E|]. destruct (ld_ZeroDepth _); [done|].
    destruct (_ || _); [cbn; by rewrite E|done].
  - assert (table_of m !! c_Token c = None) as ->; [|done]. unfold table_of. by rewrite lookup_omap, E.
Qed.

Lemma t_lookup_some T es cs t : t_lookup T es cs = Some t -> exists l, T !! t = Some l /\ a_held l = false /\ covers l es = true.
Proof.
  induction cs as [|c cs IH]; [done|]. cbn. destruct (T !! c_Token c) as [l|] eqn:E; [|done]. destruct (negb (a_held l) && covers l es) eqn:H; [|done].
  intros [= <-]. apply andb_true_iff in H as [?%negb_true_iff ?]. by exists l.
Qed.

(** ** Nodes that change in place *)
Lemma queue_put W m id n n' : queue_ok W m -> m_nodes m !! id = Some n -> n_byExpiryIndex n' = n_byExpiryIndex n ->
  (W id -> n_expiry n' = n_expiry n) -> queue_ok W (put_node id n' m).
Proof.
  intros H En Hi He. apply (queue_same W m); [done|done|..].
  - intros x Hx. unfold expiry_of. rewrite put_node_lookup. destruct (decide (x = id)) as [->|]; [|done]. rewrite En. by apply He.
  - intros x nx Ex. rewrite put_node_lookup in Ex. destruct (decide (x = id)) as [->|]; [rewrite En; congruence|by rewrite Ex].
  - intros x Hx. rewrite put_node_lookup. destruct (decide (x = id)); [by eexists|done].
Qed.

Definition due (l : alock) : Prop := a_held l = false /\ is_Some (a_deadline l).

Lemma waiting_changed m m' t id l' : tokens_ok m -> tokens_ok m' -> m_byToken m' = m_byToken m -> m_byToken m !! t = Some id ->
  table_of m' = <[t := l']> (table_of m) -> forall x, waiting m' x <-> (x = id /\ due l') \/ (x <> id /\ waiting m x).
Proof.
  intros Ht Ht' Bt E HT x. rewrite !waiting_table, Bt, HT by done. unfold due. split.
  - intros (t' & l & E' & El & H). rewrite lookup_insert in El. destruct (decide (t = t')) as [<-|Hne].
    + injection El as <-. left. split; [congruence|done].
    + right. split; [|by exists t', l]. intros ->. apply Hne. by apply (token_inj m t t' id).
  - intros [[-> H]|[Hx (t' & l & E' & El & H)]].
    + exists t, l'. by rewrite lookup_insert_eq.
    + exists t', l. rewrite lookup_insert_ne by congruence. done.
Qed.

Lemma waiting_due m t id n : tokens_ok m -> m_byToken m !! t = Some id -> m_nodes m !! id = Some n -> waiting m id <-> due (alock_of n).
Proof.
  intros Ht E En. rewrite waiting_table by done. split.
  - intros (t' & l & E' & El & H). assert (t' = t) as -> by (by apply (token_inj m t' t id)).
    apply table_of_Some in El as (id' & n' & Ei & En' & ->).
    rewrite E' in Ei. injection Ei as <-. rewrite En in En'. by injection En' as <-.
  - intros H. exists t, (alock_of n). split; [done|]. split; [|done]. apply table_of_Some. by exists id, n.
Qed.

Lemma due_alock n : due (alock_of n) <-> n_held n = false /\ 0 <= ld_Duration (n_details n).
Proof.
  unfold due, alock_of. cbn. destruct (Z.leb_spec 0 (ld_Duration (n_details n))) as [Hd|Hd].
  - split; intros [H1 _]; (split; [done|]); [done|by eexists].
  - split; intros [H1 H2]; [by destruct H2|lia].
Qed.

Lemma alter_insert (T : table) t l f : T !! t = Some l -> alter f t T = <[t := f l]> T.
Proof.
  intros E. apply map_eq. intros t'. rewrite lookup_insert. destruct (decide (t = t')) as [<-|Hne].
  - by rewrite lookup_alter_eq, E.
  - by rewrite lookup_alter_ne.
Qed.

(** The state after a node's heap position has been brought in line with what it waits for. *)
Lemma settled m m' l W : store_ok m -> reindexed l m m' -> queue_ok W m' -> (forall x, waiting m x <-> W x) -> ls_ok m' /\ table_of m' = table_of m.
Proof.
  intros Hs R Hq HW. split; [|by eapply reindexed_table]. split; [by eapply reindexed_store|]. eapply queue_ext; [|exact Hq]. intros x. cbn beta.
  rewrite <- HW. by eapply reindexed_waiting.
Qed.

Lemma hold_ok m t id n : ls_ok m -> m_byToken m !! t = Some id -> m_nodes m !! id = Some n -> n_held n = false ->
  exists m', hold m id = Some m' /\ ls_ok m' /\ table_of m' = alter (a_set_held true) t (table_of m) /\
    m_byToken m' = m_byToken m /\ m_gen m' = m_gen m.
Proof.
  intros [Hs Hq] E En Hh. pose proof Hs as (Ht & _ & _). unfold hold. rewrite En. cbn [mbind option_bind]. rewrite Hh.
  rewrite (with_node_put _ _ _ n) by done. cbn [mbind option_bind]. set (m1 := put_node id (set_held true n) m).
  assert (store_ok m1) as Hs1 by (by apply (put_store m t id n)).
  assert (table_of m1 = <[t := a_set_held true (alock_of n)]> (table_of m)) as HT1 by (by apply (put_table m t id (set_held true n))).
  assert (table_of m !! t = Some (alock_of n)) as El by (apply table_of_Some; by exists id, n).
  rewrite (alter_insert _ _ _ _ El), <- HT1.
  assert (queue_ok (waiting m) m1) as Hq1 by (by apply (queue_put (waiting m) m id n)).
  assert (forall x, waiting m1 x <-> x <> id /\ waiting m x) as HW.
  { intros x. rewrite (waiting_changed m m1 t id _ Ht (proj1 Hs1) eq_refl E HT1). unfold due. cbn. split; [|tauto]. intros [[_ []]|]; done. }
  assert (m_nodes m1 !! id = Some (set_held true n)) as En1 by (unfold m1; by rewrite put_node_lookup, decide_True).
  pose proof (queue_index _ _ _ _ Hq1 En1) as Hidx. pose proof (waiting_due m t id n Ht E En) as Hdue. rewrite due_alock in Hdue.
  destruct ((0 <=? ld_Duration (n_details n)) && (0 <=? n_byExpiryIndex n)) eqn:Hc.
  - apply andb_true_iff in Hc as [Hd Hi]. destruct (queue_remove _ _ _ _ Hq1 En1 (proj1 Hidx Hi)) as (m2 & E2 & Hq2 & R2). cbn [n_byExpiryIndex set_held] in E2. rewrite E2.
    cbn [mbind option_bind]. exists m2. split; [done|]. destruct (settled m1 m2 _ _ Hs1 R2 Hq2 HW) as [H HT]. destruct R2 as (_ & Bt & Bg & _). by split_and!.
  - exists m1. split; [done|]. split_and!; try done. split; [done|]. apply (queue_ext (waiting m)); [|done]. intros x. rewrite HW. split; [tauto|].
    intros Hx. split; [|done]. intros ->. apply Hidx in Hx as Hi. apply Hdue in Hx as [_ Hx]. cbn in Hi. rewrite Hi, andb_true_r in Hc. lia.
Qed.

Lemma unhold_ok m t id n : ls_ok m -> m_byToken m !! t = Some id -> m_nodes m !! id = Some n -> n_held n = true ->
  exists m', unhold m id = Some m' /\ ls_ok m' /\ table_of m' = alter (a_set_held false) t (table_of m) /\
    m_byToken m' = m_byToken m /\ m_gen m' = m_gen m.
Proof.
  intros [Hs Hq] E En Hh. pose proof Hs as (Ht & _ & _). unfold unhold. rewrite En. cbn [mbind option_bind]. rewrite Hh. cbn [negb].
  rewrite (with_node_put _ _ _ n) by done. cbn [mbind option_bind]. set (m1 := put_node id (set_held false n) m).
  assert (store_ok m1) as Hs1 by (by apply (put_store m t id n)).
  assert (table_of m1 = <[t := a_set_held false (alock_of n)]> (table_of m)) as HT1 by (by apply (put_table m t id (set_held false n))).
  assert (table_of m !! t = Some (alock_of n)) as El by (apply table_of_Some; by exists id, n).
  rewrite (alter_insert _ _ _ _ El), <- HT1.
  assert (~ waiting m id) as Hnw by (rewrite (waiting_due m t id n Ht E En), due_alock; by intros [? _]; congruence).
  assert (queue_ok (waiting m) m1) as Hq1 by (by apply (queue_put (waiting m) m id n)).
  assert (forall x, waiting m1 x <-> (x = id /\ 0 <= ld_Duration (n_details n)) \/ waiting m x) as HW.
  { intros x. rewrite (waiting_changed m m1 t id _ Ht (proj1 Hs1) eq_refl E HT1). change (a_set_held false (alock_of n)) with (alock_of (set_held false n)).
    rewrite due_alock. cbn. split; [tauto|]. intros [[-> H]|H]; [by left|]. right. split; [|done]. by intros ->. }
  assert (m_nodes m1 !! id = Some (set_held false n)) as En1 by (unfold m1; by rewrite put_node_lookup, decide_True).
  destruct (Z.leb_spec 0 (ld_Duration (n_details n))) as [Hd|Hd].
  - destruct (queue_push _ _ id Hq1 ltac:(by eexists) Hnw) as (m2 & -> & Hq2 & R2). exists m2. split; [done|].
    destruct (settled m1 m2 _ _ Hs1 R2 Hq2) as [H HT]; [intros x; rewrite HW; tauto|]. destruct R2 as (_ & Bt & Bg & _). by split_and!.
  - exists m1. split; [done|]. split_and!; try done. split; [done|]. apply (queue_ext (waiting m)); [|done]. intros x. rewrite HW. split; [|by right].
    intros [[_ ?]|]; [lia|done].
Qed.

(** ** canCreate *)
Definition checkStep (m : memLS) (zeroDepth : bool) (name0 : bytes) (first : bool) (_ : unit) : option (unit * bool) :=
  match m_byName m !! name0 with
  | None => Some (tt, true)
  | Some id =>
      n ← m_nodes m !! id;
      Some (tt,
        if first then
          if negb (bool_decide (n_token n = [])) then false
          else if negb zeroDepth then false
          else true
        else if negb (bool_decide (n_token n = [])) && negb (ld_ZeroDepth (n_details n)) then false
        else true)
  end.

Lemma named_lock m x id : store_ok m -> elems_ok x -> m_byName m !! abs_name x = Some id ->
  exists n, m_nodes m !! id = Some n /\
    (n_token n <> [] -> table_of m !! n_token n = Some (alock_of n) /\ a_root (alock_of n) = x) /\
    (forall t l, table_of m !! t = Some l -> a_root l = x -> t = n_token n /\ l = alock_of n) /\
    (exists t l, table_of m !! t = Some l /\ x ∈ ups (a_root l)).
Proof.
  intros (Ht & Hn & Hc) Hx E. destruct (Hn _ _ E) as (n & En & Er & Hpos & Htok). exists n. split; [done|]. split_and!.
  - intros Hne. rewrite decide_False in Htok by done. destruct (token_root m _ id n Ht Htok En) as (Hr & Er' & Ha & _).
    split; [apply table_of_Some; by exists id, n|]. rewrite Ha. apply abs_name_inj; [done|done|congruence].
  - intros t l El Hroot. apply table_of_Some in El as (id' & n' & Et & En' & ->).
    destruct (token_root m t id' n' Ht Et En') as (Hr & Er' & Ha & Htn & _ & Ebn). rewrite <- Ha, Hroot in Ebn. rewrite E in Ebn. injection Ebn as <-.
    rewrite En in En'. injection En' as <-. done.
  - apply refs_pos. rewrite <- Hc by done. unfold rc. by rewrite E, En.
Qed.

Lemma unnamed m x t l : store_ok m -> elems_ok x -> m_byName m !! abs_name x = None -> table_of m !! t = Some l -> x ∉ ups (a_root l).
Proof.
  intros (Ht & Hn & Hc) Hx E El Hin. assert (0 < refs (table_of m) x) as H by (apply refs_pos; by exists t, l).
  rewrite <- Hc in H by done. unfold rc in H. rewrite E in H. lia.
Qed.

Lemma negb_exists (T : table) (P : bytes -> alock -> Prop) `{!forall t l, Decision (P t l)} b :
  (b = false <-> exists t l, T !! t = Some l /\ P t l) -> b = negb (bool_decide (map_Exists P T)).
Proof.
  intros Hb. case_bool_decide as Hx; cbn.
  - by apply Hb.
  - destruct b; [done|]. exfalso. by apply Hx, Hb.
Qed.

Lemma check_first m zero x : store_ok m -> elems_ok x ->
  checkStep m zero (abs_name x) true tt =
  Some (tt, negb (bool_decide (map_Exists (fun _ k => a_root k = x \/ (zero = false /\ x ∈ ups (a_root k))) (table_of m)))).
Proof.
  intros Hs Hx. unfold checkStep. destruct (m_byName m !! abs_name x) as [id|] eqn:E.
  - destruct (named_lock m x id Hs Hx E) as (n & -> & H1 & H2 & H3). cbn [mbind option_bind]. do 2 f_equal. apply negb_exists.
    case_bool_decide as Etok; cbn [negb].
    + destruct zero; cbn [negb]; (split; [|done || idtac]).
      * done.
      * intros (t & l & El & [Hr|[? _]]); [|done]. destruct (H2 t l El Hr) as [-> _].
        apply table_of_Some in El as (i & n' & Ei & _ & _). destruct Hs as (Ht & _). destruct (Ht _ _ Ei) as (? & _ & _ & ? & _). done.
      * intros _. destruct H3 as (t & l & El & Hin). exists t, l. split; [done|]. by right.
    + split; [|done]. intros _. destruct (H1 Etok) as [El Hr]. exists (n_token n), (alock_of n). split; [done|by left].
  - do 2 f_equal. apply negb_exists. split; [done|]. intros (t & l & El & H). exfalso.
    apply (unnamed m x t l Hs Hx E El). destruct H as [<-|[_ H]]; [apply ups_refl|done].
Qed.

Lemma check_next m zero x : store_ok m -> elems_ok x ->
  checkStep m zero (abs_name x) false tt =
  Some (tt, negb (bool_decide (map_Exists (fun _ k => a_zero k = false /\ a_root k = x) (table_of m)))).
Proof.
  intros Hs Hx. unfold checkStep. destruct (m_byName m !! abs_name x) as [id|] eqn:E.
  - destruct (named_lock m x id Hs Hx E) as (n & -> & H1 & H2 & _). cbn [mbind option_bind]. do 2 f_equal. apply negb_exists.
    change (ld_ZeroDepth (n_details n)) with (a_zero (alock_of n)). split.
    + case_bool_decide as Etok; [done|]. destruct (a_zero (alock_of n)) eqn:Ez; [done|]. intros _. destruct (H1 Etok) as [El Hr].
      exists (n_token n), (alock_of n). by split_and!.
    + intros (t & l & El & Hz & Hr). destruct (H2 t l El Hr) as [-> ->]. rewrite Hz. cbn [negb]. rewrite andb_true_r.
      apply table_of_Some in El as (i & n' & Ei & _ & _). destruct Hs as (Ht & _). destruct (Ht _ _ Ei) as (? & _ & _ & Hne & _).
      by rewrite bool_decide_eq_false_2.
  - do 2 f_equal. apply negb_exists. split; [done|]. intros (t & l & El & _ & <-). exfalso. apply (unnamed m (a_root l) t l Hs Hx E El), ups_refl.
Qed.

Lemma check_rest m zero l : store_ok m -> Forall elems_ok l ->
  walkList (checkStep m zero) l false tt =
  Some (tt, negb (bool_decide (map_Exists (fun _ k => a_zero k = false /\ a_root k ∈ l) (table_of m)))).
Proof.
  intros Hs Hl. induction Hl as [|x l Hx _ IH]; cbn [walkList].
  - do 2 f_equal. apply negb_exists. split; [done|]. intros (t & k & _ & _ & H). by apply elem_of_nil in H.
  - rewrite check_next by done. cbn [mbind option_bind]. match goal with |- context [bool_decide ?P] => destruct (bool_decide_reflect P) as [E|E] end; cbn [negb].
    + do 2 f_equal. apply negb_exists. split; [|done]. intros _. destruct E as (t & k & Ek & Hz & <-). exists t, k. split_and!; [done..|]. by left.
    + rewrite IH. do 3 f_equal. apply bool_decide_ext. split; intros (t & k & Ek & Hz & Hin); exists t, k; (split; [done|]); (split; [done|]).
      * by right.
      * apply elem_of_cons in Hin as [Hr|]; [|done]. exfalso. apply E. by exists t, k.
Qed.

Lemma ups_cons root : exists l, ups root = root :: l.
Proof. destruct root as [|e r _] using rev_ind; [by eexists|]. rewrite ups_snoc. by eexists. Qed.

Lemma canCreate_ok m root zero : store_ok m -> elems_ok root ->
  canCreate m (abs_name root) zero = Some (negb (bool_decide (map_Exists (fun _ l => conflict root zero l) (table_of m)))).
Proof.
  intros Hs Hr. unfold canCreate. rewrite walkToRoot_ups by done. rewrite (walkList_ext _ (checkStep m zero)) by (by intros ? ? []).
  destruct (ups_cons root) as [l El]. rewrite El. cbn [walkList]. rewrite check_first by done. cbn [mbind option_bind].
  assert (Forall elems_ok l) as Hl.
  { assert (Forall elems_ok (ups root)) as H by (apply Forall_forall; intros x; by apply elems_ok_ups). rewrite El in H. by apply Forall_cons in H as [_ H]. }
  assert (forall k, conflict root zero k <-> (a_root k = root \/ zero = false /\ root ∈ ups (a_root k)) \/ (a_zero k = false /\ a_root k ∈ l)) as Hk.
  { intros k. unfold conflict. rewrite El, elem_of_cons. tauto. }
  case_bool_decide as E; cbn [negb].
  - cbn [mbind option_bind]. f_equal. apply negb_exists. split; [|done]. intros _. destruct E as (t & k & Ek & H). exists t, k.
    split; [done|]. apply Hk. by left.
  - rewrite check_rest by done. cbn [mbind option_bind]. do 2 f_equal. apply bool_decide_ext.
    split; intros (t & k & Ek & H); exists t, k; (split; [done|]); [apply Hk; by right|]. apply Hk in H as [H|H]; [|done].
    exfalso. apply E. by exists t, k.
Qed.
