(* ===== verification/WebdavLockSpec.v ===== *)
(** * Package webdav: the lock system implements the table

    Each method of [memLS] does to [table_of] what the specification of WebdavTable says
    and returns the same result; runs of calls from [NewMemLS] refine runs on tables. *)

From S2P Require Import Prelude WebdavPath WebdavLock WebdavHeap WebdavTable WebdavLockOk WebdavLockOps.

(** Tokens keep their nodes. *)
Definition stable (m m' : memLS) : Prop := forall t id id', m_byToken m !! t = Some id -> m_byToken m' !! t = Some id' -> id' = id.

Lemma stable_sub m m' : m_byToken m' ⊆ m_byToken m -> stable m m'.
Proof. intros H t id id' E E'. pose proof (lookup_weaken _ _ _ _ E' H). congruence. Qed.

Lemma put_put id n n' m : put_node id n (put_node id n' m) = put_node id n m.
Proof. unfold put_node. cbn. by rewrite insert_insert_eq. Qed.

Lemma token_table m t : tokens_ok m -> is_Some (table_of m !! t) <-> is_Some (m_byToken m !! t).
Proof.
  intros Ht. split.
  - intros [l El]. destruct (table_token m t l El) as [id E]. by exists id.
  - intros [id E]. destruct (token_node m t id Ht E) as (n & _ & _ & _ & El). by eexists.
Qed.

(** ** Create *)
Lemma created_store m2 m1 root token id n n' : store_ok m1 -> bumped m1 (at_names (ups root) 1) m2 -> m_byName m1 ⊆ m_byName m2 ->
  elems_ok root -> m_byName m2 !! abs_name root = Some id -> m_nodes m2 !! id = Some n -> n_token n = [] ->
  m_byToken m1 !! token = None -> token <> [] -> n_token n' = token -> n_refCount n' = n_refCount n ->
  ld_Root (n_details n') = abs_name root -> name_elements (abs_name root) = root ->
  let m' := put_node id n' (set_byToken (<[token := id]> (m_byToken m2)) m2) in
  store_ok m' /\ table_of m' = <[token := alock_of n']> (table_of m1).
Proof.
  intros Hs1 B S2 Hr Ebn En Etok Efresh Hne Etok' Erc Eroot Hclean m'. pose proof Hs1 as (Ht1 & Hn1 & Hc1).
  pose proof B as (Bt & _ & _ & Hn2 & Hrc & Hnodes & _). pose proof (bumped_table _ _ _ Ht1 B) as HT2.
  assert (forall x, m_nodes m' !! x = if decide (x = id) then Some n' else m_nodes m2 !! x) as Hl
    by apply (put_node_lookup id n' (set_byToken (<[token := id]> (m_byToken m2)) m2)).
  assert (forall t id', m_byToken m1 !! t = Some id' -> id' <> id) as Hother.
  { intros t id' E ->. destruct (Ht1 _ _ E) as (n1 & En1 & Et & Htne & _). destruct (Hnodes _ _ En1) as [c Ec]. rewrite En in Ec.
    injection Ec as ->. cbn in Etok. congruence. }
  assert (table_of m' = <[token := alock_of n']> (table_of m1)) as HT.
  { apply map_eq. intros t. rewrite lookup_insert. unfold table_of at 1. rewrite lookup_omap. cbn [m' m_byToken put_node set_byToken].
    rewrite lookup_insert. destruct (decide (token = t)) as [<-|Hnt].
    - cbn [mbind option_bind]. fold m'. by rewrite Hl, decide_True.
    - rewrite <- HT2. unfold table_of. rewrite lookup_omap. destruct (m_byToken m2 !! t) as [id'|] eqn:E; [|done]. cbn [mbind option_bind]. fold m'.
      rewrite Bt in E. rewrite Hl, decide_False; [done|]. by apply (Hother t). }
  split; [|done]. split; [|split].
  - intros t id' E. cbn in E. rewrite lookup_insert in E. rewrite Hl. destruct (decide (token = t)) as [<-|Hnt].
    + injection E as <-. rewrite decide_True by done. exists n'. rewrite Eroot, Hclean. by split_and!.
    + rewrite Bt in E. rewrite decide_False by (by apply (Hother t)). destruct (Ht1 _ _ E) as (n1 & En1 & A & C & D & F).
      destruct (Hnodes _ _ En1) as [c Ec]. exists (set_refCount c n1). split_and!; [done..|]. by eapply lookup_weaken.
  - intros name id' E. cbn in E. destruct (Hn2 _ _ E) as (nx & Ex & A & C & D). rewrite Hl. destruct (decide (id' = id)) as [->|Hid].
    + rewrite En in Ex. injection Ex as <-. exists n'. split; [done|]. unfold named. rewrite Erc. split_and!; [|done|].
      * rewrite Eroot. by apply (name_inj m2 _ _ id).
      * rewrite decide_False by congruence. cbn. rewrite Etok'. apply lookup_insert_eq.
    + exists nx. split; [done|]. split_and!; [done..|]. destruct (decide (n_token nx = [])); [done|]. cbn. rewrite lookup_insert_ne; [done|].
      intros Et. rewrite <- Et, Bt in D. congruence.
  - intros es Hes. assert (rc m' (abs_name es) = rc m2 (abs_name es)) as ->.
    { unfold rc. cbn [m' m_byName put_node set_byToken]. destruct (m_byName m2 !! abs_name es) as [id'|]; [|done]. fold m'. rewrite Hl.
      destruct (decide (id' = id)) as [->|]; [by rewrite En|done]. }
    rewrite Hrc, Hc1, at_names_ups, HT, refs_insert by (done || (unfold table_of; by rewrite lookup_omap, Efresh)).
    replace (a_root (alock_of n')) with root by (unfold a_root, alock_of; cbn; by rewrite Eroot). lia.
Qed.

Lemma created_waiting m1 m' token id n' : tokens_ok m1 -> tokens_ok m' -> m_byToken m' = <[token := id]> (m_byToken m1) ->
  m_byToken m1 !! token = None -> table_of m' = <[token := alock_of n']> (table_of m1) ->
  forall x, waiting m' x <-> (x = id /\ due (alock_of n')) \/ waiting m1 x.
Proof.
  intros Ht Ht' Bt Efresh HT x. rewrite !waiting_table, Bt, HT by done. unfold due. split.
  - intros (t & l & E & El & H). rewrite lookup_insert in E. rewrite lookup_insert in El. destruct (decide (token = t)) as [<-|Hne].
    + left. injection E as <-. by injection El as <-.
    + right. by exists t, l.
  - intros [[-> H]|(t & l & E & El & H)].
    + exists token, (alock_of n'). by rewrite !lookup_insert_eq.
    + exists t, l. assert (token <> t) by congruence. by rewrite !lookup_insert_ne.
Qed.

(** What an operation owes its callers. *)
Definition meets (m m' : memLS) : Prop := ls_ok m' /\ stable m m'.

Lemma free_root m1 m2 root id n : store_ok m1 -> bumped m1 (at_names (ups root) 1) m2 -> elems_ok root ->
  m_byName m2 !! abs_name root = Some id -> m_nodes m2 !! id = Some n ->
  (forall t l, table_of m1 !! t = Some l -> a_root l <> root) -> n_token n = [] /\ n_held n = false.
Proof.
  intros Hs1 B Hr Ebn En Hfree. pose proof B as (Bt & _ & _ & Hn2 & _ & Hnodes & _).
  destruct (Hn2 _ _ Ebn) as (nx & Ex & A & C & D). rewrite En in Ex. injection Ex as <-. destruct (decide (n_token n = [])) as [|Hne]; [done|].
  exfalso. rewrite Bt in D. destruct Hs1 as (Ht1 & _ & _). destruct (Ht1 _ _ D) as (n1 & En1 & _). destruct (Hnodes _ _ En1) as [c Ec].
  rewrite En in Ec. injection Ec as ->. destruct (token_root m1 _ id n1 Ht1 D En1) as (Hr1 & Er1 & Ha & _).
  apply (Hfree (n_token n1) (alock_of n1)); [apply table_of_Some; by exists id, n1|]. rewrite Ha. apply abs_name_inj; [done|done|].
  cbn in A. congruence.
Qed.

Theorem Create_ok m now d : ls_ok m -> m_byToken m !! FormatUint (u64 (m_gen m + 1)) = None ->
  exists m' r, Create m now d = Some (m', r) /\ meets m m' /\
    t_create (table_of m) (m_gen m) now d = (table_of m', m_gen m', r).
Proof.
  intros H Hfresh. unfold Create. destruct (collect_ok m now H) as (m1 & -> & [Hs1 Hq1] & HT1 & Bt1 & Bg1). cbn [mbind option_bind].
  set (root := name_elements (ld_Root d)). assert (elems_ok root) as Hr by apply clean_elem_ok, name_elements_ok.
  assert (name_elements (abs_name root) = root) as Hclean by apply name_elements_abs, name_elements_ok.
  assert (slashClean (ld_Root d) = abs_name root) as Eroot by apply slashClean_elements.
  set (d' := set_Root (slashClean (ld_Root d)) d). assert (ld_Root d' = abs_name root) as Ed by done.
  rewrite Ed, canCreate_ok by done. change (ld_ZeroDepth d') with (ld_ZeroDepth d). cbn [mbind option_bind]. unfold t_create. rewrite <- HT1. cbv zeta. fold d'.
  rewrite Ed, Hclean, <- Bg1. change (ld_ZeroDepth d') with (ld_ZeroDepth d). case_bool_decide as Hconf; cbn [negb].
  { eexists m1, _. split; [done|]. split; [|done]. split; [by split|by apply stable_sub]. }
  destruct (create_ok m1 root Hr) as (m2 & id & -> & B & S2 & Ebn); [apply Hs1|]. cbn [mbind option_bind]. unfold nextToken.
  pose proof B as (Bt & Bg & _ & Hn2 & _). cbn [set_gen m_gen]. rewrite Bg. set (gen := u64 (m_gen m1 + 1)). set (token := FormatUint gen).
  assert (m_byToken m1 !! token = None) as Hfresh1.
  { unfold token, gen. rewrite Bg1. destruct (m_byToken m1 !! _) as [x|] eqn:E; [|done]. pose proof (lookup_weaken _ _ _ _ E Bt1). congruence. }
  destruct (Hn2 _ _ Ebn) as (n & En & _). destruct (free_root m1 m2 root id n Hs1 B Hr Ebn En) as [Etok Eheld].
  { intros t l El Hroot. apply Hconf. exists t, l. split; [done|by left]. }
  rewrite (with_node_put _ _ _ n) by done. cbn [mbind option_bind].
  rewrite (with_node_put _ _ _ (set_token token n)) by (cbn; by rewrite lookup_insert_eq). cbn [mbind option_bind].
  set (n1 := set_details d' (set_token token n)).
  change (put_node id n1 _) with (put_node id n1 (put_node id (set_token token n) (set_byToken (<[token := id]> (m_byToken m2)) (set_gen gen m2)))).
  rewrite put_put. set (m2' := set_byToken (<[token := id]> (m_byToken m2)) (set_gen gen m2)).
  set (n' := if 0 <=? ld_Duration d then set_expiry (now + ld_Duration d) n1 else n1). set (m3 := put_node id n' m2').
  assert (n_token n' = token /\ n_refCount n' = n_refCount n /\ n_details n' = d' /\ n_held n' = false /\ n_byExpiryIndex n' = n_byExpiryIndex n)
    as (N1 & N2 & N3 & N4 & N5) by (unfold n'; by destruct (0 <=? ld_Duration d)).
  assert (alock_of n' = mkLock d' (deadline now (ld_Duration d)) false) as Ealock.
  { unfold alock_of, deadline. rewrite N3, N4. f_equal. change (ld_Duration d') with (ld_Duration d). unfold n'. by destruct (0 <=? ld_Duration d). }
  destruct (created_store m2 m1 root token id n n') as [Hs3 HT3]; [done..|apply FormatUint_nonempty|done|done|by rewrite N3|done|].
  change (store_ok m3) in Hs3. change (table_of m3 = <[token := alock_of n']> (table_of m1)) in HT3.
  assert (~ waiting m1 id) as Hnw.
  { intros (t & nx & Et & Enx & _). destruct (proj1 Hs1 _ _ Et) as (ny & Eny & Ety & Hty & _). pose proof B as (_ & _ & _ & _ & _ & Hnodes & _).
    destruct (Hnodes _ _ Eny) as [c Ec]. rewrite En in Ec. injection Ec as ->. cbn in Etok. congruence. }
  assert (queue_ok (waiting m1) m3) as Hq3.
  { apply (queue_put (waiting m1) m2' id n n'); [|done|done|done].
    apply (bumped_queue (waiting m1) m1 (at_names (ups root) 1) m2 (waiting_node m1) B Hq1). }
  assert (m_byToken m3 = <[token := id]> (m_byToken m1)) as Bt3 by (cbn; by rewrite Bt).
  pose proof (created_waiting m1 m3 token id n' (proj1 Hs1) (proj1 Hs3) Bt3 Hfresh1 HT3) as HW.
  rewrite Ealock in HT3, HW. unfold due, deadline in HW. cbn in HW.
  change (ld_Duration d') with (ld_Duration d). rewrite <- HT3.
  assert (forall m', m_byToken m' = m_byToken m3 -> stable m m') as Hstable.
  { intros m' Em' t x x' Ex Ex'. rewrite Em', Bt3, lookup_insert in Ex'. destruct (decide (token = t)) as [<-|]; [|pose proof (lookup_weaken _ _ _ _ Ex' Bt1); congruence].
    unfold token, gen in Ex. rewrite Bg1 in Ex. congruence. }
  destruct (Z.leb_spec 0 (ld_Duration d)) as [Hd|Hd].
  - rewrite (with_node_put _ _ _ n1) by (cbn; by rewrite lookup_insert_eq). cbn [mbind option_bind]. rewrite put_put. fold n'. fold m3.
    destruct (queue_push _ m3 id Hq3) as (m4 & -> & Hq4 & R4); [cbn; rewrite lookup_insert_eq; by eexists|done|]. cbn [mbind option_bind].
    destruct (settled m3 m4 _ _ Hs3 R4 Hq4) as [H4 HT4].
    { intros x. rewrite HW. split; [intros [[-> _]|]; auto|]. intros [->|]; [left|by right]. split_and!; [done..|by eexists]. }
    eexists m4, _. split; [done|]. rewrite HT4. destruct R4 as (_ & Rt & Rg & _). split; [split; [done|by apply Hstable]|]. by rewrite Rg.
  - eexists m3, _. split; [done|]. split; [|done]. split; [|by apply Hstable]. split; [done|]. apply (queue_ext (waiting m1)); [|done].
    intros x. rewrite HW. split; [intros [(_ & _ & H')|]|]; [by destruct H'|done|by right].
Qed.

(** ** Unlock and Refresh *)
Lemma token_lookup m t : tokens_ok m -> match m_byToken m !! t with
  | None => table_of m !! t = None
  | Some id => exists n, m_nodes m !! id = Some n /\ table_of m !! t = Some (alock_of n)
  end.
Proof.
  intros Ht. destruct (m_byToken m !! t) as [id|] eqn:E.
  - destruct (token_node m t id Ht E) as (n & En & _ & _ & El). by exists n.
  - unfold table_of. by rewrite lookup_omap, E.
Qed.

Theorem Unlock_ok m now t : ls_ok m -> exists m' r, Unlock m now t = Some (m', r) /\ meets m m' /\ m_gen m' = m_gen m /\
  t_unlock (table_of m) now t = (table_of m', r).
Proof.
  intros H. unfold Unlock, t_unlock. destruct (collect_ok m now H) as (m1 & -> & H1 & <- & Bt1 & Bg1). cbn [mbind option_bind].
  assert (meets m m1) as Hm1 by (split; [done|by apply stable_sub]). pose proof (token_lookup m1 t (proj1 (proj1 H1))) as Hl.
  destruct (m_byToken m1 !! t) as [id|] eqn:E; [|rewrite Hl; by eexists m1, _].
  destruct Hl as (n & En & ->). rewrite En. cbn [mbind option_bind]. change (a_held (alock_of n)) with (n_held n).
  destruct (n_held n) eqn:Hh; [by eexists m1, _|].
  destruct (remove_ls_ok m1 t id n H1 E En Hh) as (m2 & -> & H2 & <- & Bt2 & Bg2 & _). cbn [mbind option_bind].
  eexists m2, _. split; [done|]. split_and!; [|congruence|done]. split; [done|]. apply stable_sub. rewrite Bt2.
  transitivity (m_byToken m1); [apply delete_subseteq|done].
Qed.

(** A lock that no longer waits, and then gets its new time. *)
Lemma dequeue_ok m id n : ls_ok m -> m_nodes m !! id = Some n ->
  exists m' n', (if 0 <=? n_byExpiryIndex n then '(m, _) ← heap_Remove m (Z.to_nat (n_byExpiryIndex n)); Some m else Some m) = Some m' /\
    store_ok m' /\ queue_ok (fun x => x <> id /\ waiting m x) m' /\ table_of m' = table_of m /\ m_byToken m' = m_byToken m /\ m_gen m' = m_gen m /\
    m_nodes m' !! id = Some n' /\ n' = set_index (n_byExpiryIndex n') n.
Proof.
  intros [Hs Hq] En. pose proof (queue_index _ _ _ _ Hq En) as Hidx. destruct (0 <=? n_byExpiryIndex n).
  - destruct (queue_remove _ _ _ _ Hq En (proj1 Hidx eq_refl)) as (m' & -> & Hq' & R). cbn [mbind option_bind].
    destruct (reindexed_node _ _ _ _ _ R En) as [x Ex]. exists m', (set_index x n). pose proof R as (_ & Bt & Bg & _).
    split_and!; try done; [by eapply reindexed_store|by eapply reindexed_table].
  - exists m, n. split_and!; try done; [|by rewrite set_index_id]. eapply queue_ext; [|exact Hq]. intros x. split; [tauto|]. intros Hx. split; [|done].
    intros ->. by apply Hidx in Hx.
Qed.

Theorem Refresh_ok m now t x : ls_ok m -> exists m' r, Refresh m now t x = Some (m', r) /\ meets m m' /\ m_gen m' = m_gen m /\
  t_refresh (table_of m) now t x = (table_of m', r).
Proof.
  intros H. unfold Refresh, t_refresh. destruct (collect_ok m now H) as (m1 & -> & H1 & <- & Bt1 & Bg1). cbn [mbind option_bind].
  assert (meets m m1) as Hm1 by (split; [done|by apply stable_sub]). pose proof (token_lookup m1 t (proj1 (proj1 H1))) as Hl.
  destruct (m_byToken m1 !! t) as [id|] eqn:E; [|rewrite Hl; by eexists m1, _].
  destruct Hl as (n & En & El). rewrite El, En. cbn [mbind option_bind]. change (a_held (alock_of n)) with (n_held n).
  destruct (n_held n) eqn:Hh; [by eexists m1, _|].
  destruct (dequeue_ok m1 id n H1 En) as (m2 & n2 & -> & Hs2 & Hq2 & HT2 & Bt2 & Bg2 & En2 & En2'). cbn [mbind option_bind].
  rewrite (with_node_put _ _ _ n2) by done. cbn [mbind option_bind]. set (d := set_Duration x (n_details n)).
  set (n3 := set_details (set_Duration x (n_details n2)) n2).
  set (n' := if 0 <=? x then set_expiry (now + x) n3 else n3). set (m3 := put_node id n' m2).
  assert (n_details n2 = n_details n /\ n_held n2 = false /\ n_token n2 = n_token n /\ n_refCount n2 = n_refCount n) as (F1 & F2 & F3 & F4)
    by (rewrite En2'; cbn; by split_and!).
  assert (n_details n' = d /\ n_held n' = false /\ n_token n' = n_token n2 /\ n_refCount n' = n_refCount n2 /\ n_byExpiryIndex n' = n_byExpiryIndex n2)
    as (G1 & G2 & G3 & G4 & G5).
  { unfold d. rewrite <- F1. unfold n'. by destruct (0 <=? x). }
  assert (alock_of n' = mkLock d (deadline now x) false) as Ealock.
  { unfold alock_of, deadline. rewrite G1, G2. f_equal. change (ld_Duration d) with x. unfold n'. by destruct (0 <=? x). }
  assert (m_byToken m2 !! t = Some id) as E2 by congruence.
  assert (store_ok m3) as Hs3.
  { apply (put_store m2 t id n2 n' Hs2 E2 En2). unfold keeps. rewrite G1. split_and!; [done|done|]. unfold d. rewrite <- F1. done. }
  assert (table_of m3 = <[t := mkLock d (deadline now x) false]> (table_of m1)) as HT3.
  { rewrite <- Ealock, <- HT2. by apply (put_table m2 t id n' (proj1 Hs2)). }
  change (a_details (alock_of n)) with (n_details n). fold d. rewrite <- HT3.
  assert (queue_ok (fun y => y <> id /\ waiting m1 y) m3) as Hq3 by (apply (queue_put _ m2 id n2); [done|done|done|by intros []]).
  assert (forall y, waiting m3 y <-> (y = id /\ 0 <= x) \/ (y <> id /\ waiting m1 y)) as HW.
  { intros y. assert (m_byToken m3 = m_byToken m1) as Bt3 by done. rewrite (waiting_changed m1 m3 t id _ (proj1 (proj1 H1)) (proj1 Hs3) Bt3 E HT3).
    rewrite <- Ealock, due_alock, G1, G2. cbn. tauto. }
  assert (m_nodes m3 !! id = Some n') as En3 by (unfold m3; by rewrite put_node_lookup, decide_True).
  assert (forall m', m_byToken m' = m_byToken m3 -> stable m m') as Hstable by (intros m' Em'; apply stable_sub; rewrite Em'; cbn; by rewrite Bt2).
  destruct (Z.leb_spec 0 x) as [Hx|Hx].
  - rewrite (with_node_put _ _ _ n3) by (cbn; by rewrite lookup_insert_eq). cbn [mbind option_bind]. rewrite put_put. fold n'. fold m3.
    destruct (queue_push _ m3 id Hq3) as (m4 & -> & Hq4 & R4); [by eexists|tauto|]. cbn [mbind option_bind].
    destruct (settled m3 m4 _ _ Hs3 R4 Hq4) as [H4 HT4]; [intros y; rewrite HW; tauto|].
    destruct (reindexed_node _ _ _ id n' R4) as [i ->]; [done|]. cbn [mbind option_bind].
    eexists m4, _. split; [done|]. rewrite HT4. destruct R4 as (_ & Rt & Rg & _).
    split_and!; [split; [done|by apply Hstable]|rewrite Rg; cbn; congruence|]. cbn [set_index n_details]. by rewrite G1.
  - fold n'. fold m3. cbn [mbind option_bind]. rewrite En3. cbn [mbind option_bind]. rewrite G1.
    eexists m3, _. split; [done|]. split_and!; [|cbn; congruence|done]. split; [|by apply Hstable]. split; [done|]. eapply queue_ext; [|exact Hq3].
    intros y. cbn beta. rewrite HW. split; [intros [[_ ?]|]; [lia|done]|by right].
Qed.

(** ** Confirm and its release function *)
Definition pin (m : memLS) (n : option nat) (t : option bytes) : Prop :=
  match n, t with
  | None, None => True
  | Some id, Some t => m_byToken m !! t = Some id
  | _, _ => False
  end.

Definition holding (h : bool) (T : table) (t : option bytes) : Prop := forall k, t = Some k -> exists l, T !! k = Some l /\ a_held l = h.

Lemma lookup_name_ok m name cs : tokens_ok m -> exists r, lookup_name m name cs = Some r /\
  match r, t_lookup_name (table_of m) name cs with
  | inl e, inl e' => e = e'
  | inr n, inr t => pin m n t /\ holding false (table_of m) t
  | _, _ => False
  end.
Proof.
  intros Ht. unfold lookup_name, t_lookup_name. case_bool_decide; [by eexists|]. rewrite slashClean_elements, lookup_ok.
  2: done. 2: apply clean_elem_ok, name_elements_ok. cbn [mbind option_bind].
  destruct (t_lookup (table_of m) (name_elements name) cs) as [t|] eqn:El; cbn [mbind option_bind]; [|by eexists].
  apply t_lookup_some in El as (l & El & Hl & _). destruct (table_token m t l El) as [id Eid]. rewrite Eid. eexists. split; [done|].
  split; [done|]. intros k [= <-]. by exists l.
Qed.

Lemma on_hold_ok m n t : ls_ok m -> pin m n t -> holding false (table_of m) t ->
  exists m', on_node hold m n = Some m' /\ ls_ok m' /\ table_of m' = t_set_held true (table_of m) t /\ m_byToken m' = m_byToken m /\ m_gen m' = m_gen m.
Proof.
  intros H Hp Hf. destruct n as [id|], t as [t|]; try done; [|by exists m]. destruct (Hf t eq_refl) as (l & El & Hl).
  apply table_of_Some in El as (id' & n & E & En & ->). cbn in Hp. rewrite Hp in E. injection E as <-. by apply (hold_ok m t id n).
Qed.

Lemma on_unhold_ok m n t : ls_ok m -> pin m n t -> holding true (table_of m) t ->
  exists m', on_node unhold m n = Some m' /\ ls_ok m' /\ table_of m' = t_set_held false (table_of m) t /\ m_byToken m' = m_byToken m /\ m_gen m' = m_gen m.
Proof.
  intros H Hp Hf. destruct n as [id|], t as [t|]; try done; [|by exists m]. destruct (Hf t eq_refl) as (l & El & Hl).
  apply table_of_Some in El as (id' & n & E & En & ->). cbn in Hp. rewrite Hp in E. injection E as <-. by apply (unhold_ok m t id n).
Qed.

Lemma pin_token m m' n t : m_byToken m' = m_byToken m -> pin m n t -> pin m' n t.
Proof. intros E. destruct n, t; cbn; by rewrite ?E. Qed.

Lemma pin_inj m n0 n1 t0 t1 : tokens_ok m -> pin m n0 t0 -> pin m n1 t1 -> n1 = n0 <-> t1 = t0.
Proof.
  intros Ht. destruct n0, t0, n1, t1; cbn; try done. intros E0 E1. split; [|congruence]. intros [= <-]. f_equal. by eapply token_inj.
Qed.

Lemma holding_set h h' T t k : holding h T t -> (k = None \/ t <> k) -> holding h (t_set_held h' T k) t.
Proof.
  intros H Hne x ->. destruct (H x eq_refl) as (l & E & Hl). exists l. split; [|done]. destruct k as [k|]; [|done]. cbn.
  rewrite lookup_alter_ne; [done|]. destruct Hne as [?|?]; congruence.
Qed.

Definition ticket_pin (m : memLS) (r : release) (k : ticket) : Prop := pin m (fst r) (fst k) /\ pin m (snd r) (snd k).

(** Both locks are free or held, and not the same. *)
Definition ticket_holding (h : bool) (T : table) (k : ticket) : Prop :=
  holding h T (fst k) /\ holding h T (snd k) /\ (snd k = None \/ fst k <> snd k).

Theorem Confirm_ok m now name0 name1 cs : ls_ok m -> exists m' r, Confirm m now name0 name1 cs = Some (m', r) /\ meets m m' /\ m_gen m' = m_gen m /\
  exists r', t_confirm (table_of m) now name0 name1 cs = (table_of m', r') /\
    match r, r' with
    | inl e, inl e' => e = e'
    | inr n, inr k => ticket_pin m' n k /\ ticket_holding false (t_expire now (table_of m)) k
    | _, _ => False
    end.
Proof.
  intros H. unfold Confirm, t_confirm. destruct (collect_ok m now H) as (m1 & -> & H1 & <- & Bt1 & Bg1). cbn [mbind option_bind].
  assert (meets m m1) as Hm1 by (split; [done|by apply stable_sub]). pose proof (proj1 (proj1 H1)) as Ht.
  destruct (lookup_name_ok m1 name0 cs Ht) as (r0 & -> & Hr0). cbn [mbind option_bind].
  destruct r0 as [e|n0], (t_lookup_name (table_of m1) name0 cs) as [e'|t0]; try done.
  { eexists m1, _. split; [done|]. split_and!; [done..|]. eexists. by split. }
  destruct (lookup_name_ok m1 name1 cs Ht) as (r1 & -> & Hr1). cbn [mbind option_bind].
  destruct r1 as [e|n1], (t_lookup_name (table_of m1) name1 cs) as [e'|t1]; try done.
  { eexists m1, _. split; [done|]. split_and!; [done..|]. eexists. by split. }
  destruct Hr0 as [P0 F0], Hr1 as [P1 F1]. pose proof (pin_inj m1 n0 n1 t0 t1 Ht P0 P1) as Hinj.
  set (n1' := if bool_decide (n1 = n0) then None else n1). set (t1' := if bool_decide (t1 = t0) then None else t1).
  assert (pin m1 n1' t1' /\ holding false (table_of m1) t1' /\ (t1' = None \/ t0 <> t1')) as (P1' & F1' & Hne).
  { unfold n1', t1'. rewrite (bool_decide_ext _ _ Hinj). case_bool_decide; [split; [done|]; split; [done|by left]|]. split_and!; [done..|]. by right. }
  destruct (on_hold_ok m1 n0 t0 H1 P0 F0) as (m2 & -> & H2 & HT2 & Bt2 & Bg2). cbn [mbind option_bind].
  destruct (on_hold_ok m2 n1' t1' H2) as (m3 & -> & H3 & HT3 & Bt3 & Bg3).
  { by apply (pin_token m1). }
  { rewrite HT2. apply holding_set; [done|]. destruct Hne as [->|Hne]; [|by right; apply not_eq_sym]. destruct t0; [by right|by left]. }
  cbn [mbind option_bind]. eexists m3, _. split; [done|]. split_and!; [|congruence|].
  - split; [done|]. apply stable_sub. rewrite Bt3, Bt2. done.
  - eexists. split; [by rewrite HT3, HT2|]. split; [|by split_and!]. split; (apply (pin_token m1); [congruence|done]).
Qed.

Theorem release_ok m r k : ls_ok m -> ticket_pin m r k -> ticket_holding true (table_of m) k ->
  exists m', release_ m r = Some m' /\ meets m m' /\ m_gen m' = m_gen m /\ table_of m' = t_release (table_of m) k.
Proof.
  intros H [P0 P1] (F0 & F1 & Hne). unfold release_, t_release.
  destruct (on_unhold_ok m (snd r) (snd k) H P1 F1) as (m1 & -> & H1 & HT1 & Bt1 & Bg1). cbn [mbind option_bind].
  destruct (on_unhold_ok m1 (fst r) (fst k) H1) as (m2 & -> & H2 & HT2 & Bt2 & Bg2).
  { by apply (pin_token m). }
  { rewrite HT1. apply holding_set; [done|]. destruct Hne; [by left|by right]. }
  exists m2. split; [done|]. split_and!; [split; [done|apply stable_sub; by rewrite Bt2, Bt1]|congruence|by rewrite HT2, HT1].
Qed.

Lemma NewMemLS_ok unix : ls_ok (NewMemLS unix) /\ table_of (NewMemLS unix) = ∅.
Proof.
  assert (table_of (NewMemLS unix) = ∅) as HT by (apply map_eq; intros t; unfold table_of; by rewrite lookup_omap, lookup_empty).
  split; [|done]. split; [split; [|split]|split; [split|split]].
  - intros t id E. cbn in E; by rewrite lookup_empty in E.
  - intros t id E. cbn in E; by rewrite lookup_empty in E.
  - intros es _. rewrite HT. unfold rc, refs. cbn. by rewrite lookup_empty, map_filter_empty, map_size_empty.
  - intros i id E. cbn in E; by rewrite lookup_nil in E.
  - intros i Hi. cbn in Hi. lia.
  - intros id. split; [by intros ?%elem_of_nil|]. intros (t & n & E & _). cbn in E; by rewrite lookup_empty in E.
  - intros id n E. cbn in E; by rewrite lookup_empty in E.
Qed.
