(* ===== verification/WebdavLockRun.v ===== *)
(** * Package webdav: runs of the lock system

    Any sequence of calls to a [memLS], with release functions called at most once,
    behaves as the sequence of calls to the table: same results, no panic, and after
    every call no two locks cover the same name.  Exactly the locks of the outstanding
    release functions are held. *)

From S2P Require Import Prelude WebdavPath WebdavLock WebdavHeap WebdavTable WebdavLockOk WebdavLockOps WebdavLockSpec.

(** ** Calls *)
Inductive call :=
| CCreate (now : Z) (d : LockDetails)
| CRefresh (now : Z) (token : bytes) (duration : Z)
| CUnlock (now : Z) (token : bytes)
| CConfirm (now : Z) (name0 name1 : bytes) (conditions : list Condition)
| CRelease (k : nat).            (* the k-th release function not called yet *)

Inductive reply :=
| RCreate (r : lock_error + bytes)
| RRefresh (r : lock_error + LockDetails)
| RUnlock (r : option lock_error)
| RConfirm (r : option lock_error)
| RRelease.

Definition lstate : Type := memLS * list release.
Definition tstate : Type := table * Z * list ticket.

Definition step (s : lstate) (c : call) : option (lstate * reply) :=
  let '(m, rs) := s in
  match c with
  | CCreate now d => '(m, r) ← Create m now d; Some ((m, rs), RCreate r)
  | CRefresh now t x => '(m, r) ← Refresh m now t x; Some ((m, rs), RRefresh r)
  | CUnlock now t => '(m, r) ← Unlock m now t; Some ((m, rs), RUnlock r)
  | CConfirm now n0 n1 cs =>
      '(m, r) ← Confirm m now n0 n1 cs;
      match r with
      | inl e => Some ((m, rs), RConfirm (Some e))
      | inr x => Some ((m, rs ++ [x]), RConfirm None)
      end
  | CRelease k =>
      match rs !! k with
      | None => Some ((m, rs), RRelease)
      | Some x => m ← release_ m x; Some ((m, delete k rs), RRelease)
      end
  end.

Definition tstep (s : tstate) (c : call) : tstate * reply :=
  let '(T, gen, ks) := s in
  match c with
  | CCreate now d => let '(T, gen, r) := t_create T gen now d in ((T, gen, ks), RCreate r)
  | CRefresh now t x => let '(T, r) := t_refresh T now t x in ((T, gen, ks), RRefresh r)
  | CUnlock now t => let '(T, r) := t_unlock T now t in ((T, gen, ks), RUnlock r)
  | CConfirm now n0 n1 cs =>
      let '(T, r) := t_confirm T now n0 n1 cs in
      match r with
      | inl e => ((T, gen, ks), RConfirm (Some e))
      | inr x => ((T, gen, ks ++ [x]), RConfirm None)
      end
  | CRelease k =>
      match ks !! k with
      | None => ((T, gen, ks), RRelease)
      | Some x => ((t_release T x, gen, delete k ks), RRelease)
      end
  end.

Fixpoint runs (s : lstate) (cs : list call) : option (lstate * list reply) :=
  match cs with
  | [] => Some (s, [])
  | c :: cs => '(s, r) ← step s c; '(s, rs) ← runs s cs; Some (s, r :: rs)
  end.

Fixpoint truns (s : tstate) (cs : list call) : tstate * list reply :=
  match cs with
  | [] => (s, [])
  | c :: cs => let '(s, r) := tstep s c in let '(s, rs) := truns s cs in (s, r :: rs)
  end.

(** ** The invariant of the table and the outstanding tickets *)
Definition opt_list {A} (o : option A) : list A := match o with Some x => [x] | None => [] end.
Definition ticket_tokens (k : ticket) : list bytes := opt_list (fst k) ++ opt_list (snd k).
Definition held_tokens (ks : list ticket) : list bytes := concat (map ticket_tokens ks).
Definition is_held (T : table) (t : bytes) : Prop := exists l, T !! t = Some l /\ a_held l = true.

(** At most [n] tokens were given out, counting up from [g0]. *)
Definition tokens_from (g0 n gen : Z) (T : table) : Prop := exists k, 0 <= k <= n /\ gen = u64 (g0 + k) /\
  forall t, is_Some (T !! t) -> exists i, 1 <= i <= k /\ t = FormatUint (u64 (g0 + i)).

Definition tok (g0 n : Z) (s : tstate) : Prop :=
  let '(T, gen, ks) := s in
  exclusive T /\ NoDup (held_tokens ks) /\ (forall t, t ∈ held_tokens ks <-> is_held T t) /\ tokens_from g0 n gen T.

Lemma tokens_from_fresh g0 n gen T : tokens_from g0 n gen T -> n + 1 < 2 ^ 64 -> T !! FormatUint (u64 (gen + 1)) = None.
Proof.
  intros (k & Hk & -> & H) Hn. destruct (T !! _) as [l|] eqn:E; [|done]. exfalso. destruct (H _ ltac:(by eexists)) as (i & Hi & Et).
  apply FormatUint_inj in Et; [|unfold is_u64, u64; apply Z.mod_pos_bound; lia..]. unfold u64 in Et. rewrite Zplus_mod_idemp_l in Et.
  assert ((g0 + k + 1 - (g0 + i)) mod 2 ^ 64 = 0) as E0 by (rewrite Zminus_mod, Et, Z.sub_diag; done).
  rewrite Z.mod_small in E0 by lia. lia.
Qed.

Lemma tokens_from_sub g0 n gen T T' : tokens_from g0 n gen T -> (forall t, is_Some (T' !! t) -> is_Some (T !! t)) -> tokens_from g0 (n + 1) gen T'.
Proof. intros (k & Hk & Eg & H) Hs. exists k. split; [lia|]. split; [done|]. intros t Ht. by apply H, Hs. Qed.

(** Calls other than [Confirm] and releases leave the held locks alone. *)
Definition same_held (T T' : table) : Prop := forall t l, a_held l = true -> T' !! t = Some l <-> T !! t = Some l.

Lemma is_held_same T T' t : same_held T T' -> is_held T' t <-> is_held T t.
Proof. intros H. split; intros (l & E & Hl); exists l; (split; [|done]); by apply (H t l Hl). Qed.

Lemma expire_held now T : same_held T (t_expire now T).
Proof. intros t l Hl. rewrite t_expire_lookup. split; [tauto|]. intros E. split; [done|]. unfold active. by rewrite Hl. Qed.

Lemma same_held_trans T1 T2 T3 : same_held T1 T2 -> same_held T2 T3 -> same_held T1 T3.
Proof. intros H1 H2 t l Hl. by rewrite (H2 t l Hl), (H1 t l Hl). Qed.

Lemma insert_held T t l : a_held l = false -> ~ is_held T t -> same_held T (<[t := l]> T).
Proof.
  intros Hl Hn t' l' Hl'. rewrite lookup_insert. destruct (decide (t = t')) as [<-|]; [|done]. split; [congruence|].
  intros E. exfalso. apply Hn. by exists l'.
Qed.

Lemma delete_held T t : ~ is_held T t -> same_held T (delete t T).
Proof.
  intros Hn t' l' Hl'. rewrite lookup_delete_Some. split; [tauto|]. intros E. split; [|done]. intros <-. apply Hn. by exists l'.
Qed.

Lemma create_held T gen now d : T !! FormatUint (u64 (gen + 1)) = None -> same_held T (t_create T gen now d).1.1.
Proof.
  intros Hf. unfold t_create. case_bool_decide; [apply expire_held|]. apply same_held_trans with (t_expire now T); [apply expire_held|].
  apply insert_held; [done|]. intros (l & [E _]%t_expire_lookup & _). congruence.
Qed.

Lemma refresh_held T now t x : same_held T (t_refresh T now t x).1.
Proof.
  unfold t_refresh. destruct (t_expire now T !! t) as [l|] eqn:E; [|apply expire_held]. destruct (a_held l) eqn:Hl; [apply expire_held|].
  apply same_held_trans with (t_expire now T); [apply expire_held|]. apply insert_held; [done|]. intros (l' & E' & Hl'). congruence.
Qed.

Lemma unlock_held T now t : same_held T (t_unlock T now t).1.
Proof.
  unfold t_unlock. destruct (t_expire now T !! t) as [l|] eqn:E; [|apply expire_held]. destruct (a_held l) eqn:Hl; [apply expire_held|].
  apply same_held_trans with (t_expire now T); [apply expire_held|]. apply delete_held. intros (l' & E' & Hl'). congruence.
Qed.

(** What [Confirm] and a release do to the held locks. *)
Lemma is_held_set_true T k t : holding false T k -> is_held (t_set_held true T k) t <-> is_held T t \/ t ∈ opt_list k.
Proof.
  intros H. destruct k as [k|]; cbn [t_set_held opt_list]; [|rewrite elem_of_nil; tauto]. rewrite list_elem_of_singleton.
  destruct (H k eq_refl) as (l & E & Hl). rewrite (alter_insert _ _ l) by done. unfold is_held. rewrite lookup_insert.
  destruct (decide (k = t)) as [<-|Hne]; [split; [by right|]; intros _; by eexists|]. split; [by left|]. by intros [|]; [|subst].
Qed.

Lemma is_held_set_false T k t : holding true T k -> is_held (t_set_held false T k) t <-> is_held T t /\ t ∉ opt_list k.
Proof.
  intros H. destruct k as [k|]; cbn [t_set_held opt_list]; [|rewrite elem_of_nil; tauto]. rewrite list_elem_of_singleton.
  destruct (H k eq_refl) as (l & E & Hl). rewrite (alter_insert _ _ l) by done. unfold is_held. rewrite lookup_insert.
  destruct (decide (k = t)) as [<-|Hne]; [|by firstorder]. split; [|tauto]. by intros (l' & [= <-] & ?).
Qed.

Lemma set_held_dom h T k t : is_Some (t_set_held h T k !! t) -> is_Some (T !! t).
Proof. intros [l E]. apply t_set_held_sub in E as (l' & E & _). by eexists. Qed.

(** ** The table's steps keep the invariant *)
Lemma tok_same g0 n T gen ks T' gen' : tok g0 n (T, gen, ks) -> exclusive T' -> same_held T T' -> tokens_from g0 (n + 1) gen' T' ->
  tok g0 (n + 1) (T', gen', ks).
Proof. intros (_ & Hnd & Hh & _) He Hs Hf. split_and!; try done. intros t. by rewrite (is_held_same T T'). Qed.

Lemma create_tokens g0 n gen T now d : 0 <= n -> tokens_from g0 n gen T -> tokens_from g0 (n + 1) (t_create T gen now d).1.2 (t_create T gen now d).1.1.
Proof.
  intros Hn H. unfold t_create. case_bool_decide; cbn [fst snd].
  { apply (tokens_from_sub g0 n gen T); [done|]. intros t [l [E _]%t_expire_lookup]. by eexists. }
  destruct H as (k & Hk & Eg & H). exists (k + 1). split; [lia|]. assert (u64 (gen + 1) = u64 (g0 + (k + 1))) as Eg'.
  { rewrite Eg. unfold u64. rewrite Zplus_mod_idemp_l. f_equal. lia. }
  split; [done|]. intros t. rewrite lookup_insert. destruct (decide (_ = t)) as [<-|Hne].
  - intros _. exists (k + 1). split; [lia|]. by rewrite Eg'.
  - intros [l [E _]%t_expire_lookup]. destruct (H t ltac:(by eexists)) as (i & Hi & ->). exists i. split; [lia|done].
Qed.

Lemma refresh_dom T now t x t' : is_Some ((t_refresh T now t x).1 !! t') -> is_Some (T !! t').
Proof.
  unfold t_refresh. destruct (t_expire now T !! t) as [l|] eqn:E; [destruct (a_held l)|]; cbn [fst];
    try (intros [l' [E' _]%t_expire_lookup]; by eexists).
  rewrite lookup_insert. apply t_expire_lookup in E as [E _]. destruct (decide (t = t')) as [<-|]; [intros _; by eexists|].
  intros [l' [E' _]%t_expire_lookup]. by eexists.
Qed.

Lemma unlock_dom T now t t' : is_Some ((t_unlock T now t).1 !! t') -> is_Some (T !! t').
Proof.
  unfold t_unlock. destruct (t_expire now T !! t) as [l|] eqn:E; [destruct (a_held l)|]; cbn [fst];
    try (intros [l' [E' _]%t_expire_lookup]; by eexists).
  intros [l' [_ [E' _]%t_expire_lookup]%lookup_delete_Some]. by eexists.
Qed.

Lemma held_tokens_app ks k : held_tokens (ks ++ [k]) = held_tokens ks ++ ticket_tokens k.
Proof. unfold held_tokens. rewrite map_app, concat_app. cbn. by rewrite app_nil_r. Qed.

Lemma held_tokens_delete ks i k : ks !! i = Some k -> held_tokens ks ≡ₚ ticket_tokens k ++ held_tokens (delete i ks).
Proof.
  intros E. revert i E. induction ks as [|x ks IH]; intros [|i] E; [done..|by injection E as ->|]. cbn in E. change (held_tokens (x :: ks)) with (ticket_tokens x ++ held_tokens ks).
  change (held_tokens (delete (S i) (x :: ks))) with (ticket_tokens x ++ held_tokens (delete i ks)). rewrite (IH i E). rewrite !app_assoc.
  by rewrite (Permutation_app_comm (ticket_tokens x)).
Qed.

Lemma ticket_tokens_elem k t : t ∈ ticket_tokens k <-> t ∈ opt_list (fst k) \/ t ∈ opt_list (snd k).
Proof. apply elem_of_app. Qed.

Lemma opt_list_elem {A} (o : option A) x : x ∈ opt_list o <-> o = Some x.
Proof. destruct o; cbn; [rewrite list_elem_of_singleton; split; congruence|]. split; [by intros ?%elem_of_nil|done]. Qed.

Lemma ticket_tokens_nodup k : snd k = None \/ fst k <> snd k -> NoDup (ticket_tokens k).
Proof.
  destruct k as [[x|] [y|]]; cbn; intros H; try apply NoDup_singleton; [|apply NoDup_nil_2].
  apply NoDup_cons. split; [|apply NoDup_singleton]. intros ->%list_elem_of_singleton. by destruct H.
Qed.

Lemma ticket_holds h T k t : ticket_holding h T k -> t ∈ ticket_tokens k -> exists l, T !! t = Some l /\ a_held l = h.
Proof. intros (H0 & H1 & _) [H|H]%ticket_tokens_elem; apply opt_list_elem in H; [by apply H0|by apply H1]. Qed.

Lemma holding_second h h' T k : ticket_holding h T k -> holding h (t_set_held h' T (fst k)) (snd k).
Proof. intros (H0 & H1 & Hne). apply holding_set; [done|]. destruct Hne as [->|]; [|by right; apply not_eq_sym]. destruct (fst k); [by right|by left]. Qed.

Lemma confirm_tok g0 n T gen ks now n0 n1 cs : tok g0 n (T, gen, ks) ->
  match t_confirm T now n0 n1 cs with
  | (T', inl e) => tok g0 (n + 1) (T', gen, ks)
  | (T', inr k) => ticket_holding false (t_expire now T) k -> tok g0 (n + 1) (T', gen, ks ++ [k])
  end.
Proof.
  intros (He & Hnd & Hh & Hf). pose proof (t_confirm_exclusive T now n0 n1 cs He) as He'. unfold t_confirm in *.
  assert (forall T', exclusive T' -> same_held T T' -> (forall t, is_Some (T' !! t) -> is_Some (T !! t)) -> tok g0 (n + 1) (T', gen, ks)) as Hsame.
  { intros T' HeT HsT HdT. apply (tok_same g0 n T gen); [by split_and!|done|done|by apply (tokens_from_sub g0 n gen T)]. }
  assert (forall t, is_Some (t_expire now T !! t) -> is_Some (T !! t)) as Hdom by (intros t [l [E _]%t_expire_lookup]; by eexists).
  destruct (t_lookup_name (t_expire now T) n0 cs); [apply Hsame; [done|apply expire_held|done]|].
  destruct (t_lookup_name (t_expire now T) n1 cs) as [|t1]; [apply Hsame; [done|apply expire_held|done]|].
  set (k := (o, if bool_decide (t1 = o) then None else t1)). intros Hk. cbn [fst] in He'.
  change (tok g0 (n + 1) (t_set_held true (t_set_held true (t_expire now T) (fst k)) (snd k), gen, ks ++ [k])).
  assert (forall t, is_held (t_expire now T) t <-> is_held T t) as Hexp by (intros t; apply is_held_same, expire_held).
  split; [done|]. rewrite held_tokens_app. split; [|split].
  - apply NoDup_app. split; [done|]. split; [|apply ticket_tokens_nodup, Hk]. intros t Ht Htk. apply Hh, Hexp in Ht as (l & El & Hl).
    destruct (ticket_holds _ _ _ _ Hk Htk) as (l' & El' & Hl'). congruence.
  - intros t. rewrite is_held_set_true by (by apply holding_second). rewrite is_held_set_true by apply Hk. rewrite elem_of_app, ticket_tokens_elem, Hexp, Hh. tauto.
  - apply (tokens_from_sub g0 n gen T); [done|]. intros t Ht. by apply Hdom, (set_held_dom true _ (fst k)), (set_held_dom true _ (snd k)).
Qed.

Lemma outstanding_holding g0 n T gen ks i k : tok g0 n (T, gen, ks) -> ks !! i = Some k -> ticket_holding true T k.
Proof.
  intros (_ & Hnd & Hh & _) E. pose proof (held_tokens_delete ks i k E) as P. rewrite P in Hnd. apply NoDup_app in Hnd as (Hnd & _ & _).
  assert (forall t, t ∈ ticket_tokens k -> is_held T t) as Hin by (intros t Ht; apply Hh; rewrite P; apply elem_of_app; by left).
  split_and!.
  - intros t Et. apply Hin, ticket_tokens_elem. left. by apply opt_list_elem.
  - intros t Et. apply Hin, ticket_tokens_elem. right. by apply opt_list_elem.
  - destruct k as [[x|] [y|]]; cbn; [|by left|by right|by left]. right. intros [= ->]. apply NoDup_cons in Hnd as [Hnd _]. apply Hnd. by left.
Qed.

Lemma release_tok g0 n T gen ks i k : tok g0 n (T, gen, ks) -> ks !! i = Some k -> tok g0 (n + 1) (t_release T k, gen, delete i ks).
Proof.
  intros H E. pose proof (outstanding_holding _ _ _ _ _ _ _ H E) as Hk. destruct H as (He & Hnd & Hh & Hf). pose proof (held_tokens_delete ks i k E) as P.
  rewrite P in Hnd. apply NoDup_app in Hnd as (_ & Hdisj & Hnd). unfold t_release.
  assert (holding true (t_set_held false T (snd k)) (fst k)) as H0.
  { destruct Hk as (K0 & K1 & Hne). apply holding_set; [done|]. destruct Hne; [by left|by right]. }
  split; [by repeat apply t_set_held_exclusive|]. split; [done|]. split.
  - intros t. rewrite is_held_set_false by done. rewrite is_held_set_false by apply Hk. rewrite <- Hh, P, elem_of_app, ticket_tokens_elem.
    specialize (Hdisj t). rewrite ticket_tokens_elem in Hdisj. tauto.
  - apply (tokens_from_sub g0 n gen T); [done|]. intros t Ht. by apply (set_held_dom false _ (snd k)), (set_held_dom false _ (fst k)).
Qed.

(** ** Simulation *)
Definition sim (s : lstate) (t : tstate) : Prop :=
  let '(m, rs) := s in
  let '(T, gen, ks) := t in
  ls_ok m /\ table_of m = T /\ m_gen m = gen /\ Forall2 (ticket_pin m) rs ks.

Lemma pins_stable m m' rs ks : meets m m' -> (forall t, t ∈ held_tokens ks -> is_Some (table_of m' !! t)) ->
  Forall2 (ticket_pin m) rs ks -> Forall2 (ticket_pin m') rs ks.
Proof.
  intros [[[Ht _] _] Hst] Hin H. induction H as [|r k rs ks [P0 P1] _ IH]; [done|].
  assert (forall n t, pin m n t -> (forall x, t = Some x -> x ∈ ticket_tokens k) -> pin m' n t) as Hpin.
  { intros [id|] [t|]; cbn; try done. intros E Hx. assert (is_Some (m_byToken m' !! t)) as [id' E'].
    { apply (token_table m' t Ht), Hin. apply elem_of_app. left. by apply Hx. }
    rewrite E'. f_equal. by apply (Hst t). }
  apply List.Forall2_cons; [|apply IH; intros t Hx; apply Hin; apply elem_of_app; by right].
  split; (apply Hpin; [done|]); intros x Ex; apply ticket_tokens_elem; [left|right]; by apply opt_list_elem.
Qed.

Lemma sim_same m m' rs T T' gen ks : sim (m, rs) (T, gen, ks) -> meets m m' -> same_held T T' -> table_of m' = T' ->
  (forall t, t ∈ held_tokens ks -> is_held T t) -> sim (m', rs) (T', m_gen m', ks).
Proof.
  intros (H & HT & Hg & Hp) Hm Hs <- Hh. split; [apply Hm|]. split_and!; [done..|]. apply (pins_stable m); [done| |done].
  intros t Ht. destruct (Hh t Ht) as (l & E & Hl). exists l. by apply (Hs t l Hl).
Qed.

Lemma Forall2_delete {A B} (P : A -> B -> Prop) l k i : Forall2 P l k -> Forall2 P (delete i l) (delete i k).
Proof.
  intros H. revert i. induction H as [|x y l k Hxy H IH]; intros [|i]; cbn; [apply List.Forall2_nil|apply List.Forall2_nil|done|].
  apply List.Forall2_cons; [done|]. apply IH.
Qed.

Lemma step_sim g0 n s t c : sim s t -> tok g0 n t -> 0 <= n -> n + 1 < 2 ^ 64 ->
  exists s', step s c = Some (s', (tstep t c).2) /\ sim s' (tstep t c).1 /\ tok g0 (n + 1) (tstep t c).1.
Proof.
  destruct s as [m rs], t as [[T gen] ks]. intros Hsim Htok Hn Hn1. pose proof Hsim as (H & HT & Hg & Hp). pose proof Htok as (He & Hnd & Hh & Hf).
  assert (forall t, t ∈ held_tokens ks -> is_held T t) as Hh1 by (intros t; apply Hh).
  destruct c as [now d|now tk x|now tk|now n0 n1 cs|i]; cbn [step tstep].
  - pose proof (tokens_from_fresh g0 n gen T Hf Hn1) as Hfresh.
    destruct (Create_ok m now d H) as (m' & r & -> & Hm & E).
    { rewrite <- Hg, <- HT in Hfresh. pose proof (token_lookup m (FormatUint (u64 (m_gen m + 1))) (proj1 (proj1 H))) as Hl.
      destruct (m_byToken m !! _); [|done]. destruct Hl as (nd & _ & El). congruence. }
    pose proof (create_held T gen now d Hfresh) as Hs. pose proof (t_create_exclusive T gen now d He) as Hex.
    pose proof (create_tokens g0 n gen T now d Hn Hf) as Hft. rewrite HT, Hg in E. rewrite E in *. cbn [mbind option_bind fst snd] in *.
    eexists. split; [done|]. split; [by apply (sim_same m m' rs T _ gen)|by apply (tok_same g0 n T gen)].
  - destruct (Refresh_ok m now tk x H) as (m' & r & -> & Hm & Eg & E). pose proof (refresh_held T now tk x) as Hs.
    pose proof (t_refresh_exclusive T now tk x He) as Hex. pose proof (refresh_dom T now tk x) as Hd. rewrite HT in E. rewrite E in *. cbn [mbind option_bind fst snd] in *.
    eexists. split; [done|]. rewrite <- Hg, <- Eg. split; [by apply (sim_same m m' rs T _ gen)|].
    apply (tok_same g0 n T gen); [done..|]. rewrite Eg, Hg. by apply (tokens_from_sub g0 n gen T).
  - destruct (Unlock_ok m now tk H) as (m' & r & -> & Hm & Eg & E). pose proof (unlock_held T now tk) as Hs.
    pose proof (t_unlock_exclusive T now tk He) as Hex. pose proof (unlock_dom T now tk) as Hd. rewrite HT in E. rewrite E in *. cbn [mbind option_bind fst snd] in *.
    eexists. split; [done|]. rewrite <- Hg, <- Eg. split; [by apply (sim_same m m' rs T _ gen)|].
    apply (tok_same g0 n T gen); [done..|]. rewrite Eg, Hg. by apply (tokens_from_sub g0 n gen T).
  - destruct (Confirm_ok m now n0 n1 cs H) as (m' & r & -> & Hm & Eg & r' & E & Hr). pose proof (confirm_tok g0 n T gen ks now n0 n1 cs Htok) as Hc.
    rewrite HT in E. rewrite E in *. cbn [mbind option_bind].
    assert (forall ks', tok g0 (n + 1) (table_of m', gen, ks') -> (forall t, t ∈ held_tokens ks -> t ∈ held_tokens ks') -> Forall2 (ticket_pin m') rs ks) as Hpins.
    { intros ks' (_ & _ & Hh' & _) Hsub. apply (pins_stable m); [done| |done]. intros t Ht. apply Hsub, Hh' in Ht as (l & El & _). by eexists. }
    destruct r as [e|rl], r' as [e'|k]; try done.
    + subst e'. eexists. split; [done|]. cbn [fst snd]. split; [|done]. split; [apply Hm|]. split_and!; [done|congruence|]. by apply (Hpins ks).
    + destruct Hr as [Hpk Hfree]. rewrite HT in Hfree. specialize (Hc Hfree). eexists. split; [done|]. cbn [fst snd]. split; [|done].
      split; [apply Hm|]. split_and!; [done|congruence|]. apply Forall2_app; [|by apply List.Forall2_cons; [|apply List.Forall2_nil]].
      apply (Hpins _ Hc). intros t Ht. rewrite held_tokens_app. apply elem_of_app. by left.
  - pose proof (Forall2_length _ _ _ Hp) as Hlen. destruct (ks !! i) as [k|] eqn:Ek.
    + destruct (lookup_lt_is_Some_2 rs i) as [rl Er]; [rewrite Hlen; by eapply lookup_lt_Some|]. rewrite Er.
      pose proof (Forall2_lookup_lr _ _ _ _ _ _ Hp Er Ek) as Hpk. pose proof (outstanding_holding _ _ _ _ _ _ _ Htok Ek) as Hk.
      destruct (release_ok m rl k H Hpk) as (m' & -> & Hm & Eg & E); [by rewrite HT|]. rewrite HT in E. cbn [mbind option_bind]. eexists. split; [done|]. cbn [fst snd].
      pose proof (release_tok _ _ _ _ _ _ _ Htok Ek) as Ht'. split; [|done]. split; [apply Hm|]. split_and!; [done|congruence|].
      apply (pins_stable m); [done| |by apply Forall2_delete]. intros t Ht. destruct Ht' as (_ & _ & Hh' & _). rewrite E. apply Hh' in Ht as (l & El & _). by eexists.
    + assert (rs !! i = None) as -> by (apply lookup_ge_None_2; rewrite Hlen; by apply lookup_ge_None_1). eexists. split; [done|]. cbn [fst snd]. split; [done|].
      apply (tok_same g0 n T gen); [done..|by apply (tokens_from_sub g0 n gen T)].
Qed.

Lemma runs_sim g0 cs : forall n s t, sim s t -> tok g0 n t -> 0 <= n -> n + zlen cs < 2 ^ 64 ->
  exists s', runs s cs = Some (s', (truns t cs).2) /\ sim s' (truns t cs).1 /\ tok g0 (n + zlen cs) (truns t cs).1.
Proof.
  induction cs as [|c cs IH]; intros n s t Hs Ht Hn Hlen.
  - exists s. change (zlen []) with 0. by rewrite Z.add_0_r.
  - rewrite zlen_cons in *. pose proof (zlen_nonneg cs). destruct (step_sim g0 n s t c Hs Ht Hn ltac:(lia)) as (s1 & E1 & Hs1 & Ht1).
    cbn [runs truns]. rewrite E1. cbn [mbind option_bind]. destruct (tstep t c) as [t1 r1]. cbn [fst snd] in *.
    destruct (IH (n + 1) s1 t1 Hs1 Ht1 ltac:(lia) ltac:(lia)) as (s2 & E2 & Hs2 & Ht2). rewrite E2. cbn [mbind option_bind].
    destruct (truns t1 cs) as [t2 r2]. cbn [fst snd] in *. exists s2. split; [done|]. split; [done|].
    replace (n + (zlen cs + 1)) with (n + 1 + zlen cs) by lia. done.
Qed.

Definition tinit (unix : Z) : tstate := (∅, u64 unix, []).

Lemma init_sim unix : sim (NewMemLS unix, []) (tinit unix).
Proof. destruct (NewMemLS_ok unix) as [H HT]. split; [done|]. split_and!; [done..|]. apply List.Forall2_nil. Qed.

Lemma init_tok unix : tok (u64 unix) 0 (tinit unix).
Proof.
  split; [intros t1 t2 l1 l2 E; by rewrite lookup_empty in E|]. split; [apply NoDup_nil_2|]. split.
  - intros t. split; [by intros ?%elem_of_nil|]. intros (l & E & _). by rewrite lookup_empty in E.
  - exists 0. split; [lia|]. split; [unfold u64; by rewrite Z.add_0_r, Zmod_mod|]. intros t [l E]. by rewrite lookup_empty in E.
Qed.

(** C29: every sequence of [Create], [Refresh], [Unlock], [Confirm] and release calls on a
    new lock system returns (no panic, no endless loop) exactly what the same calls on an
    abstract table of locks return, and leaves a state that stands for that table. *)
Theorem lock_system_refines (unix : Z) (cs : list call) (Hlen : zlen cs < 2 ^ 64) :
  exists m rs, runs (NewMemLS unix, []) cs = Some ((m, rs), (truns (tinit unix) cs).2) /\
    table_of m = (truns (tinit unix) cs).1.1.1 /\ length rs = length (truns (tinit unix) cs).1.2.
Proof.
  destruct (runs_sim (u64 unix) cs 0 _ _ (init_sim unix) (init_tok unix) ltac:(lia) ltac:(lia)) as ([m rs] & E & Hs & _).
  exists m, rs. split; [done|]. destruct (truns (tinit unix) cs) as [[[T gen] ks] r]. destruct Hs as (_ & HT & _ & Hp). split; [done|].
  by eapply Forall2_length.
Qed.

(** C30: after any sequence of calls, no two locks cover the same name, and the locks that
    are held are exactly those of the release functions that were not called yet, each
    held by one of them. *)
Theorem locks_exclusive (unix : Z) (cs : list call) (m : memLS) (rs : list release) (r : list reply)
  (Hlen : zlen cs < 2 ^ 64) (Hrun : runs (NewMemLS unix, []) cs = Some ((m, rs), r)) :
  (forall t1 t2 l1 l2 es, table_of m !! t1 = Some l1 -> table_of m !! t2 = Some l2 -> covers l1 es = true -> covers l2 es = true -> t1 = t2) /\
  exists ks, Forall2 (ticket_pin m) rs ks /\ NoDup (held_tokens ks) /\ forall t, t ∈ held_tokens ks <-> is_held (table_of m) t.
Proof.
  destruct (runs_sim (u64 unix) cs 0 _ _ (init_sim unix) (init_tok unix) ltac:(lia) ltac:(lia)) as (s & E & Hs & Ht).
  rewrite E in Hrun. injection Hrun as -> _. destruct (truns (tinit unix) cs).1 as [[T gen] ks]. destruct Hs as (_ & <- & _ & Hp). destruct Ht as (He & Hnd & Hh & _).
  split; [|by exists ks]. intros t1 t2 l1 l2 es. by apply exclusive_covers.
Qed.

Lemma truns_tok unix cs : zlen cs < 2 ^ 64 -> tok (u64 unix) (zlen cs) (truns (tinit unix) cs).1.
Proof. intros H. by destruct (runs_sim (u64 unix) cs 0 _ _ (init_sim unix) (init_tok unix) ltac:(lia) ltac:(lia)) as (s & _ & _ & Ht). Qed.

(** A node is in the name map as long as some lock is at or below its name. *)
Lemma named_iff m es : ls_ok m -> elems_ok es -> is_Some (m_byName m !! abs_name es) <-> exists t l, table_of m !! t = Some l /\ es ∈ ups (a_root l).
Proof.
  intros [Hs _] Hes. split.
  - intros [id E]. by destruct (named_lock m es id Hs Hes E) as (n & _ & _ & _ & H).
  - intros (t & l & El & Hin). destruct (m_byName m !! abs_name es) as [id|] eqn:E; [by eexists|]. exfalso. by apply (unnamed m es t l Hs Hes E El).
Qed.

(** C33: nothing leaks: once every release function was called and the time of every lock
    is over, [Create] succeeds on any name, and the lock it makes is then the only one:
    the tokens, the names with their ancestors and the heap have nothing else. *)
Theorem expired_locks_free (unix now : Z) (cs : list call) (m : memLS) (r : list reply) (d : LockDetails)
  (Hlen : zlen cs + 1 < 2 ^ 64) (Hrun : runs (NewMemLS unix, []) cs = Some ((m, []), r))
  (Hover : forall t l, table_of m !! t = Some l -> exists x, a_deadline l = Some x /\ x <= now) :
  exists m' token, Create m now d = Some (m', inr token) /\
    table_of m' = {[ token := mkLock (set_Root (slashClean (ld_Root d)) d) (deadline now (ld_Duration d)) false ]} /\
    (forall es, elems_ok es -> is_Some (m_byName m' !! abs_name es) <-> es ∈ ups (name_elements (ld_Root d))) /\
    length (m_byExpiry m') = if 0 <=? ld_Duration d then 1%nat else 0%nat.
Proof.
  destruct (runs_sim (u64 unix) cs 0 _ _ (init_sim unix) (init_tok unix) ltac:(lia) ltac:(lia)) as (s & E & Hs & Ht).
  rewrite E in Hrun. injection Hrun as -> _. destruct (truns (tinit unix) cs).1 as [[T gen] ks].
  pose proof Hs as (Hm & HT & Hg & Hp). apply Forall2_nil_inv_l in Hp as ->. pose proof Ht as (He & _ & Hh & Hf).
  destruct (step_sim (u64 unix) _ _ _ (CCreate now d) Hs Ht ltac:(pose proof (zlen_nonneg cs); lia) ltac:(lia)) as (s' & Ec & Hs' & _).
  assert (t_expire now T = ∅) as Hexp.
  { apply map_empty. intros t. destruct (t_expire now T !! t) as [l|] eqn:El; [|done]. exfalso. apply t_expire_lookup in El as [El Ha].
    unfold active in Ha. apply orb_true_iff in Ha as [Ha|Ha].
    - assert (t ∈ held_tokens []) as Hin by (apply Hh; by exists l). by apply elem_of_nil in Hin.
    - rewrite <- HT in El. destruct (Hover t l El) as (x & Ex & Hx). rewrite Ex in Ha. lia. }
  cbn [step tstep] in Ec, Hs'. unfold t_create in Ec, Hs'. rewrite Hexp in Ec, Hs'. cbv zeta in Ec, Hs'.
  rewrite bool_decide_eq_false_2 in Ec, Hs' by (intros (t & l & El & _); by rewrite lookup_empty in El).
  destruct (Create m now d) as [[m' rep]|]; [|done]. cbn [mbind option_bind fst snd] in Ec, Hs'. injection Ec as <- ->. destruct Hs' as (Hm' & HT' & _ & _).
  set (root := name_elements (ld_Root d)). set (token := FormatUint (u64 (gen + 1))) in *. set (lk := mkLock _ _ _) in HT'.
  exists m', token. rewrite insert_empty in HT'. rewrite HT'. split; [done|]. split; [done|].
  assert (a_root lk = root) as Hroot by apply name_elements_idem. split.
  - intros es Hes. rewrite named_iff, HT' by done. split.
    + intros (t & l & [_ <-]%lookup_singleton_Some & Hin). by rewrite <- Hroot.
    + intros Hin. exists token, lk. rewrite lookup_singleton_eq, Hroot. done.
  - destruct Hm' as [(Ht' & _) ([Hi _] & Hw & _)]. pose proof (idx_ok_nodup m' Hi) as Hnd.
    assert (forall x, x ∈ m_byExpiry m' <-> m_byToken m' !! token = Some x /\ 0 <= ld_Duration d) as Hx.
    { intros x. rewrite Hw, waiting_table, HT' by done. split.
      - intros (t & l & Et & [<- <-]%lookup_singleton_Some & _ & [y Ey]). split; [done|]. cbn in Ey. unfold deadline in Ey. destruct (Z.leb_spec 0 (ld_Duration d)); [done|discriminate].
      - intros [Et Hd]. exists token, lk. rewrite lookup_singleton_eq. split_and!; [done..|]. cbn. unfold deadline. destruct (Z.leb_spec 0 (ld_Duration d)); [by eexists|lia]. }
    assert (is_Some (m_byToken m' !! token)) as [id Eid] by (apply (token_table m' token Ht'); rewrite HT', lookup_singleton_eq; by eexists).
    destruct (Z.leb_spec 0 (ld_Duration d)) as [Hd|Hd].
    + rewrite (Permutation_length (l := m_byExpiry m') (l' := [id])); [done|]. apply NoDup_Permutation; [done|apply NoDup_singleton|].
      intros x. rewrite Hx, list_elem_of_singleton, Eid. split; [intros [[= ->] _]; done|intros ->; done].
    + destruct (m_byExpiry m') as [|x l]; [done|]. destruct (proj1 (Hx x) ltac:(by left)) as [_ ?]. lia.
Qed.

(** ** Examples *)

Definition sample_calls : list call :=
  [CCreate 0 (mkDetails (str "/a") (-1) [] false);
   CCreate 1 (mkDetails (str "/b/../a/c") 5 [] true);
   CCreate 2 (mkDetails (str "/b") 5 [] true);
   CConfirm 3 (str "/a/c") (str "/b") [mkCondition false (str "2") []; mkCondition false (str "1") []];
   CUnlock 9 (str "2");
   CConfirm 9 (str "/a") [] [mkCondition false (str "1") []];
   CRelease 0;
   CRefresh 9 (str "2") 7;
   CCreate 9 (mkDetails (str "/") 0 [] true)].

Lemma lock_system_refines_witness : zlen sample_calls < 2 ^ 64 /\ exists m rs,
  runs (NewMemLS 0, []) sample_calls = Some ((m, rs),
    [RCreate (inr (str "1")); RCreate (inl ErrLocked); RCreate (inr (str "2")); RConfirm None; RUnlock (Some ErrLocked);
     RConfirm (Some ErrConfirmationFailed); RRelease; RRefresh (inl ErrNoSuchLock); RCreate (inr (str "3"))]) /\
  table_of m = (truns (tinit 0) sample_calls).1.1.1.
Proof.
  assert (zlen sample_calls < 2 ^ 64) as H by reflexivity. split; [exact H|].
  destruct (lock_system_refines 0 sample_calls H) as (m & rs & E & HT & _). exists m, rs. split; [|exact HT].
  by rewrite E.
Defined.

Lemma locks_exclusive_witness : exists m rs r, runs (NewMemLS 0, []) (take 4 sample_calls) = Some ((m, rs), r) /\ length rs = 1%nat /\
  (forall t1 t2 l1 l2 es, table_of m !! t1 = Some l1 -> table_of m !! t2 = Some l2 -> covers l1 es = true -> covers l2 es = true -> t1 = t2) /\
  exists ks, Forall2 (ticket_pin m) rs ks /\ NoDup (held_tokens ks) /\ forall t, t ∈ held_tokens ks <-> is_held (table_of m) t.
Proof.
  assert (exists m rs r, runs (NewMemLS 0, []) (take 4 sample_calls) = Some ((m, rs), r) /\ length rs = 1%nat) as (m & rs & r & E & Hl).
  { do 3 eexists. split; [vm_compute; reflexivity|]. reflexivity. }
  exists m, rs, r. split; [exact E|]. split; [exact Hl|]. apply (locks_exclusive 0 (take 4 sample_calls) m rs r); [reflexivity|exact E].
Defined.

Lemma expired_locks_free_witness : exists m r,
  let cs := [CCreate 0 (mkDetails (str "/a") 5 [] false)] in
  let d := mkDetails (str "/a/b") (-1) [] true in
  runs (NewMemLS 0, []) cs = Some ((m, []), r) /\
  exists m' token, Create m 5 d = Some (m', inr token) /\
    table_of m' = {[ token := mkLock d None false ]} /\
    (forall es, elems_ok es -> is_Some (m_byName m' !! abs_name es) <-> es ∈ ups [str "a"; str "b"]) /\
    length (m_byExpiry m') = 0%nat.
Proof.
  set (cs := [CCreate 0 (mkDetails (str "/a") 5 [] false)]). set (d := mkDetails (str "/a/b") (-1) [] true).
  assert (exists m r, runs (NewMemLS 0, []) cs = Some ((m, []), r) /\ table_of m = {[ str "1" := mkLock (mkDetails (str "/a") 5 [] false) (Some 5) false ]})
    as (m & r & E & HT).
  { do 2 eexists. split; [vm_compute; reflexivity|]. refine (bool_decide_unpack _ _). vm_compute. exact I. }
  exists m, r. split; [exact E|]. apply (expired_locks_free 0 5 cs m r d); [reflexivity|exact E|].
  intros t l. rewrite HT. intros [_ <-]%lookup_singleton_Some. exists 5. split; [reflexivity|apply Z.le_refl].
Defined.
