(* ===== verification/WebdavIf.v ===== *)
(** * Package webdav: the If header

    Models src/webdav/if.go and [parseTimeout] of src/webdav/lock.go, and shows which texts
    [parseIfHeader] accepts: a dialect that has the headers of RFC 4918 in it. *)

From S2P Require Import Prelude WebdavPath WebdavLock.

(** ** strings.TrimSpace

    The white space of Unicode, as encoded in UTF-8.  No encoding is a proper suffix or
    prefix of another, so that runes need not be decoded. *)
Definition spaces : list bytes :=
  map (fun b => [b]) [9; 10; 11; 12; 13; 32] ++ [[194; 133]; [194; 160]; [225; 154; 128]] ++
  map (fun b => [226; 128; b]) [128; 129; 130; 131; 132; 133; 134; 135; 136; 137; 138; 168; 169; 175] ++
  [[226; 129; 159]; [227; 128; 128]].

Definition stripOne (seps : list bytes) (s : bytes) : option bytes :=
  w ← head (filter (fun w => HasPrefix s w = true) seps); Some (drop (length w) s).

Fixpoint stripLoop (fuel : nat) (seps : list bytes) (s : bytes) : bytes :=
  match fuel, stripOne seps s with
  | S fuel, Some s => stripLoop fuel seps s
  | _, _ => s
  end.

Definition TrimSpace (s : bytes) : bytes :=
  let s := stripLoop (length s) spaces s in
  rev (stripLoop (length s) (map (@rev Z) spaces) (rev s)).

(** ** Tokens *)
Definition errTokenType : Z := -1.
Definition eofTokenType : Z := -2.
Definition strTokenType : Z := -3.
Definition notTokenType : Z := -4.
Definition angleTokenType : Z := -5.
Definition squareTokenType : Z := -6.

Definition isBlank (b : Z) : bool := (b =? 9) || (b =? 32).
(** tab, space, ( ) < > [ ] *)
Definition isDelim (b : Z) : bool := bool_decide (b ∈ [9; 32; 40; 41; 60; 62; 91; 93]).

Fixpoint skipBlanks (s : bytes) : bytes :=
  match s with
  | b :: s' => if isBlank b then skipBlanks s' else s
  | [] => []
  end.

Fixpoint wordLen (s : bytes) : nat :=
  match s with
  | b :: s => if isDelim b then O else S (wordLen s)
  | [] => O
  end.

(** [None] is a slice out of range. *)
Definition lex (s : bytes) : option (Z * bytes * bytes) :=
  let s := skipBlanks s in
  match s with
  | [] => Some (eofTokenType, [], [])
  | b :: s' =>
      let i := wordLen s in
      if negb (i =? 0)%nat then
        let tokenStr := take i s in
        let remaining := drop i s in
        if bool_decide (tokenStr = str "Not") then Some (notTokenType, [], remaining)
        else Some (strTokenType, tokenStr, remaining)
      else
        let bracket j tokenType :=
          if j <? 0 then Some (errTokenType, [], [])
          else
            t ← zslice s 1 j;
            r ← zslice s (j + 1) (zlen s);
            Some (tokenType, t, r) in
        if b =? 60 then bracket (IndexByte s 62) angleTokenType
        else if b =? 91 then bracket (IndexByte s 93) squareTokenType
        else Some (b, [], s')
  end.

(** ** The parser

    Outer [None]: out of fuel or a panic; inner [None]: not ok. *)
Record ifList := mkIfList { resourceTag : bytes; conditions : list Condition }.
Abbreviation ifHeader := (list ifList).

Definition parseCondition (s : bytes) : option (option (Condition * bytes)) :=
  '(tokenType, tokenStr, s) ← lex s;
  '(not, (tokenType, tokenStr, s)) ←
    (if tokenType =? notTokenType then x ← lex s; Some (true, x) else Some (false, (tokenType, tokenStr, s)));
  if (tokenType =? strTokenType) || (tokenType =? angleTokenType) then Some (Some (mkCondition not tokenStr [], s))
  else if tokenType =? squareTokenType then Some (Some (mkCondition not [] tokenStr, s))
  else Some None.

Fixpoint parseListLoop (fuel : nat) (s : bytes) (conds : list Condition) : option (option (list Condition * bytes)) :=
  match fuel with
  | O => None
  | S fuel =>
      '(tokenType, _, remaining) ← lex s;
      if tokenType =? 41 then
        Some (match conds with [] => None | _ => Some (conds, remaining) end)
      else
        r ← parseCondition s;
        match r with
        | None => Some None
        | Some (c, remaining) => parseListLoop fuel remaining (conds ++ [c])
        end
  end.

Definition parseList (s : bytes) : option (option (list Condition * bytes)) :=
  '(tokenType, _, s) ← lex s;
  if negb (tokenType =? 40) then Some None
  else parseListLoop (S (length s)) s [].

Fixpoint parseNoTagLoop (fuel : nat) (s : bytes) (lists : ifHeader) : option (option ifHeader) :=
  match fuel with
  | O => None
  | S fuel =>
      r ← parseList s;
      match r with
      | None => Some None
      | Some (l, remaining) =>
          let lists := lists ++ [mkIfList [] l] in
          if bool_decide (remaining = []) then Some (Some lists) else parseNoTagLoop fuel remaining lists
      end
  end.

Definition parseNoTagLists (s : bytes) : option (option ifHeader) := parseNoTagLoop (S (length s)) s [].

Fixpoint parseTaggedLoop (fuel : nat) (s : bytes) (tag : bytes) (n : Z) (first : bool) (lists : ifHeader) : option (option ifHeader) :=
  match fuel with
  | O => None
  | S fuel =>
      '(tokenType, tokenStr, remaining) ← lex s;
      if tokenType =? angleTokenType then
        if negb first && (n =? 0) then Some None
        else parseTaggedLoop fuel remaining tokenStr 0 false lists
      else if tokenType =? 40 then
        let n := n + 1 in
        r ← parseList s;
        match r with
        | None => Some None
        | Some (l, remaining) =>
            let lists := lists ++ [mkIfList tag l] in
            if bool_decide (remaining = []) then Some (Some lists) else parseTaggedLoop fuel remaining tag n false lists
        end
      else Some None
  end.

Definition parseTaggedLists (s : bytes) : option (option ifHeader) := parseTaggedLoop (S (length s)) s [] 0 true [].

Definition parseIfHeader (httpHeader : bytes) : option (option ifHeader) :=
  let s := TrimSpace httpHeader in
  '(tokenType, _, _) ← lex s;
  if tokenType =? 40 then parseNoTagLists s
  else if tokenType =? angleTokenType then parseTaggedLists s
  else Some None.

(** ** Timeouts *)
Definition second : Z := 1000000000.
Definition infiniteTimeout : Z := -1.

(** [strconv.ParseInt] base 10, 64 bits, of a text that starts with a digit; [None] is
    an error. *)
Definition ParseInt (s : bytes) : option Z :=
  n ← decimal 0 s; if n <? 2 ^ 63 then Some n else None.

(** [None] is [errInvalidTimeout]. *)
Definition parseTimeout (s : bytes) : option Z :=
  if bool_decide (s = []) then Some infiniteTimeout
  else
    let i := IndexByte s 44 in
    let s := if 0 <=? i then take (Z.to_nat i) s else s in
    let s := TrimSpace s in
    if bool_decide (s = str "Infinite") then Some infiniteTimeout
    else
      let pre := str "Second-" in
      if negb (HasPrefix s pre) then None
      else
        let s := drop (length pre) s in
        match s with
        | [] => None
        | b :: _ =>
            if (b <? 48) || (57 <? b) then None
            else
              match ParseInt s with
              | None => None
              | Some n => if 2 ^ 32 - 1 <? n then None else Some (n * second)
              end
        end.

Example if_tagged : parseIfHeader (str "  <http://h/a> (Not <t1>	[W]) (t2)<b>([e]) ") =
  Some (Some [mkIfList (str "http://h/a") [mkCondition true (str "t1") []; mkCondition false [] (str "W")];
              mkIfList (str "http://h/a") [mkCondition false (str "t2") []]; mkIfList (str "b") [mkCondition false [] (str "e")]]).
Proof. vm_compute. reflexivity. Qed.
Example timeouts : map parseTimeout [str "Infinite, Second-41"; str " Second-4100000000"; str "Second-5000000000"; str "Second-+1"] =
  [Some (-1); Some 4100000000000000000; None; None].
Proof. vm_compute. reflexivity. Qed.

(** ** What the lexer reads *)
Inductive token := TRune (b : Z) | TNot | TWord (w : bytes) | TAngle (w : bytes) | TSquare (w : bytes).

Definition token_type (t : token) : Z :=
  match t with TRune b => b | TNot => notTokenType | TWord _ => strTokenType | TAngle _ => angleTokenType | TSquare _ => squareTokenType end.
Definition token_str (t : token) : bytes := match t with TWord w | TAngle w | TSquare w => w | _ => [] end.
Definition spelling (t : token) : bytes :=
  match t with TRune b => [b] | TNot => str "Not" | TWord w => w | TAngle w => 60 :: w ++ [62] | TSquare w => 91 :: w ++ [93] end.

Definition ends (rest : bytes) : Prop := match rest with [] => True | b :: _ => isDelim b = true end.

(** The text [rest] can follow the token. *)
Definition token_ok (t : token) (rest : bytes) : Prop :=
  match t with
  | TRune b => b ∈ [40; 41; 62; 93]
  | TNot => ends rest
  | TWord w => w <> [] /\ Forall (fun b => isDelim b = false) w /\ w <> str "Not" /\ ends rest
  | TAngle w => 62 ∉ w
  | TSquare w => 93 ∉ w
  end.

(** [s] is [t], perhaps after blanks, and [rest]. *)
Definition lexes (s : bytes) (t : token) (rest : bytes) : Prop :=
  exists blanks, Forall (fun b => isBlank b = true) blanks /\ s = blanks ++ spelling t ++ rest /\ token_ok t rest.

Lemma skipBlanks_app bl s : Forall (fun b => isBlank b = true) bl -> match s with b :: _ => isBlank b = false | [] => True end ->
  skipBlanks (bl ++ s) = s.
Proof.
  intros H Hs. induction H as [|b bl Hb _ IH]; cbn [app skipBlanks]; [|by rewrite Hb]. destruct s as [|b s]; [done|]. cbn. by rewrite Hs.
Qed.

Lemma skipBlanks_split s : exists bl, Forall (fun b => isBlank b = true) bl /\ s = bl ++ skipBlanks s /\
  match skipBlanks s with b :: _ => isBlank b = false | [] => True end.
Proof.
  induction s as [|b s IH]; [by exists []|]. cbn. destruct (isBlank b) eqn:E; [|by exists []].
  destruct IH as (bl & H1 & H2 & H3). exists (b :: bl). split; [by apply List.Forall_cons|]. split; [cbn; by f_equal|done].
Qed.

Lemma wordLen_app w rest : Forall (fun b => isDelim b = false) w -> ends rest -> wordLen (w ++ rest) = length w.
Proof.
  intros H Hr. induction H as [|b w Hb _ IH]; cbn; [|by rewrite Hb, IH]. destruct rest as [|b rest]; [done|]. cbn in *. by rewrite Hr.
Qed.

Lemma wordLen_split s : Forall (fun b => isDelim b = false) (take (wordLen s) s) /\ ends (drop (wordLen s) s).
Proof.
  induction s as [|b s [H1 H2]]; [split; [apply List.Forall_nil|done]|]. cbn. destruct (isDelim b) eqn:E; cbn; [split; [apply List.Forall_nil|done]|].
  split; [by apply List.Forall_cons|done].
Qed.

Lemma IndexByte_app w c rest : c ∉ w -> IndexByte (w ++ c :: rest) c = zlen w.
Proof.
  induction w as [|b w IH]; intros H; cbn; [by rewrite Z.eqb_refl|]. apply not_elem_of_cons in H as [Hb H].
  destruct (Z.eqb_spec b c); [done|]. rewrite IH, zlen_cons by done. pose proof (zlen_nonneg w). destruct (Z.ltb_spec (zlen w) 0); lia.
Qed.

Lemma IndexByte_none s c : IndexByte s c < 0 -> c ∉ s.
Proof.
  induction s as [|b s IH]; cbn; [intros _; apply not_elem_of_nil|]. destruct (Z.eqb_spec b c); [lia|].
  destruct (Z.ltb_spec (IndexByte s c) 0); [intros _; apply not_elem_of_cons; split; [done|by apply IH]|lia].
Qed.

Lemma IndexByte_split s c : 0 <= IndexByte s c -> exists w rest, s = w ++ c :: rest /\ (c ∉ w) /\ IndexByte s c = zlen w.
Proof.
  induction s as [|b s IH]; cbn; [lia|]. destruct (Z.eqb_spec b c) as [->|Hne].
  - intros _. exists [], s. split; [done|]. split; [apply not_elem_of_nil|done].
  - destruct (Z.ltb_spec (IndexByte s c) 0) as [|Hge]; [lia|]. intros _. destruct (IH Hge) as (w & rest & -> & Hw & E). exists (b :: w), rest.
    split; [done|]. split; [by apply not_elem_of_cons|]. rewrite zlen_cons. lia.
Qed.

Lemma bracket_slices (a c : Z) (w rest : bytes) : zslice (a :: w ++ c :: rest) 1 (zlen w + 1) = Some w /\
  zslice (a :: w ++ c :: rest) (zlen w + 1 + 1) (zlen (a :: w ++ c :: rest)) = Some rest.
Proof.
  pose proof (zlen_nonneg w). pose proof (zlen_nonneg rest). unfold zslice. rewrite zlen_cons, zlen_app, zlen_cons. split.
  - destruct (Z.leb_spec 0 1), (Z.leb_spec 1 (zlen w + 1)), (Z.leb_spec (zlen w + 1) (zlen w + (zlen rest + 1) + 1)); try lia. cbn [andb].
    f_equal. unfold zlen. replace (Z.to_nat (Z.of_nat (length w) + 1 - 1)) with (length w) by lia. change (Z.to_nat 1) with 1%nat. cbn [drop].
    apply take_app_length.
  - destruct (Z.leb_spec 0 (zlen w + 1 + 1)), (Z.leb_spec (zlen w + 1 + 1) (zlen w + (zlen rest + 1) + 1)),
      (Z.leb_spec (zlen w + (zlen rest + 1) + 1) (zlen w + (zlen rest + 1) + 1)); try lia. cbn [andb].
    f_equal. unfold zlen. replace (Z.to_nat (Z.of_nat (length w) + 1 + 1)) with (S (length w + 1)) by lia. cbn [drop].
    rewrite drop_app_add. cbn [drop]. rewrite drop_0. apply take_ge. lia.
Qed.

Lemma delim_not_blank b : isDelim b = false -> isBlank b = false.
Proof.
  unfold isDelim, isBlank. rewrite bool_decide_eq_false, orb_false_iff, !Z.eqb_neq. intros H. split; intros ->; apply H; [left|right; left].
Qed.

Lemma lex_skip bl s : Forall (fun b => isBlank b = true) bl -> match s with b :: _ => isBlank b = false | [] => True end -> lex (bl ++ s) = lex s.
Proof.
  intros H Hs. unfold lex. rewrite skipBlanks_app by done. pose proof (skipBlanks_app [] s (List.Forall_nil _) Hs) as E. cbn [app] in E. by rewrite E.
Qed.

Lemma lex_word w rest : w <> [] -> Forall (fun b => isDelim b = false) w -> ends rest ->
  lex (w ++ rest) = Some (if bool_decide (w = str "Not") then (notTokenType, [], rest) else (strTokenType, w, rest)).
Proof.
  intros Hne Hw Hr. destruct w as [|b w]; [done|]. pose proof (wordLen_app (b :: w) rest Hw Hr) as Hl. unfold lex.
  apply Forall_cons in Hw as [Hb Hw]. assert (skipBlanks ((b :: w) ++ rest) = (b :: w) ++ rest) as -> by (cbn; by rewrite (delim_not_blank b Hb)).
  cbn [app] in *. rewrite Hl. cbn [length Nat.eqb negb]. change (b :: w ++ rest) with ((b :: w) ++ rest).
  change (S (length w)) with (length (b :: w)). rewrite take_app_length, drop_app_length. by case_bool_decide.
Qed.

Lemma lex_bracket (a c : Z) ty w rest : (a = 60 /\ c = 62 /\ ty = angleTokenType) \/ (a = 91 /\ c = 93 /\ ty = squareTokenType) -> c ∉ w ->
  lex (a :: w ++ c :: rest) = Some (ty, w, rest).
Proof.
  intros H Hw. pose proof (bracket_slices a c w rest) as [S1 S2]. assert (IndexByte (a :: w ++ c :: rest) c = zlen w + 1) as Hi.
  { cbn. rewrite IndexByte_app by done. pose proof (zlen_nonneg w). destruct (Z.eqb_spec a c); [lia|]. destruct (Z.ltb_spec (zlen w) 0); lia. }
  pose proof (zlen_nonneg w). unfold lex. assert (isBlank a = false /\ isDelim a = true) as [Ha Hd] by (destruct H as [(-> & _)|(-> & _)]; done).
  cbn [skipBlanks]. rewrite Ha. cbn [wordLen]. rewrite Hd. cbn [Nat.eqb negb].
  destruct H as [(-> & -> & ->)|(-> & -> & ->)]; cbn [Z.eqb Pos.eqb]; rewrite Hi; (destruct (Z.ltb_spec (zlen w + 1) 0); [lia|]);
    rewrite S1; cbn [mbind option_bind]; rewrite S2; done.
Qed.

Lemma lex_complete s t rest : lexes s t rest -> lex s = Some (token_type t, token_str t, rest).
Proof.
  intros (bl & Hbl & -> & Hok). rewrite lex_skip.
  - destruct t as [b| |w|w|w]; cbn [spelling token_type token_str token_ok] in *.
    + repeat (apply elem_of_cons in Hok as [->|Hok]; [done|]). by apply elem_of_nil in Hok.
    + rewrite lex_word; [done|done| |done]. by repeat (apply List.Forall_cons; [done|]).
    + destruct Hok as (Hne & Hw & Hnot & Hr). rewrite lex_word by done. by rewrite bool_decide_eq_false_2.
    + cbn [app]. rewrite <- app_assoc. cbn [app]. apply lex_bracket; [by left|done].
    + cbn [app]. rewrite <- app_assoc. cbn [app]. apply lex_bracket; [by right|done].
  - done.
  - destruct t as [b| |w|w|w]; cbn [spelling token_ok app] in *; [|done| |done|done].
    + repeat (apply elem_of_cons in Hok as [->|Hok]; [done|]). by apply elem_of_nil in Hok.
    + destruct Hok as (Hne & Hw & _). destruct w as [|b w]; [done|]. apply Forall_cons in Hw as [Hb _]. cbn. by apply delim_not_blank.
Qed.

(** [lex] returns a token that is there, the end, or an error. *)
Lemma lex_sound s : lex s = Some (eofTokenType, [], []) \/ lex s = Some (errTokenType, [], []) \/ exists t rest, lexes s t rest.
Proof.
  destruct (skipBlanks_split s) as (bl & Hbl & Es & Hnb). rewrite Es. rewrite lex_skip by done. revert Hnb. generalize (skipBlanks s) as s'. clear Es s.
  intros s Hnb. destruct s as [|b s]; [by left|].
  destruct (wordLen (b :: s)) as [|k] eqn:Ek.
  - assert (isDelim b = true) as Hd by (cbn in Ek; by destruct (isDelim b)).
    destruct (decide (b = 60)) as [->|H60]; [|destruct (decide (b = 91)) as [->|H91]].
    + destruct (Z.ltb_spec (IndexByte (60 :: s) 62) 0) as [Hlt|Hge].
      * right. left. unfold lex. cbn [skipBlanks isBlank Z.eqb Pos.eqb orb]. rewrite Ek. cbn [Nat.eqb negb]. cbn [Z.eqb Pos.eqb].
        by destruct (Z.ltb_spec (IndexByte (60 :: s) 62) 0); [|lia].
      * apply IndexByte_split in Hge as (w & rest & E & Hw & _). destruct w as [|x w]; [done|]. injection E as <- ->.
        right. right. exists (TAngle w), rest, bl. split; [done|]. apply not_elem_of_cons in Hw as [_ Hw]. cbn. by rewrite <- app_assoc.
    + destruct (Z.ltb_spec (IndexByte (91 :: s) 93) 0) as [Hlt|Hge].
      * right. left. unfold lex. cbn [skipBlanks isBlank Z.eqb Pos.eqb orb]. rewrite Ek. cbn [Nat.eqb negb]. cbn [Z.eqb Pos.eqb].
        by destruct (Z.ltb_spec (IndexByte (91 :: s) 93) 0); [|lia].
      * apply IndexByte_split in Hge as (w & rest & E & Hw & _). destruct w as [|x w]; [done|]. injection E as <- ->.
        right. right. exists (TSquare w), rest, bl. split; [done|]. apply not_elem_of_cons in Hw as [_ Hw]. cbn. by rewrite <- app_assoc.
    + right. right. exists (TRune b), s, bl. split; [done|]. split; [done|]. cbn. unfold isDelim in Hd. apply bool_decide_eq_true in Hd.
      unfold isBlank in Hnb. apply orb_false_iff in Hnb as [?%Z.eqb_neq ?%Z.eqb_neq]. 
      repeat (apply elem_of_cons in Hd as [E|Hd]; [subst b; try done; rewrite !elem_of_cons; tauto|]). by apply elem_of_nil in Hd.
  - right. right. destruct (wordLen_split (b :: s)) as [Hw Hr]. rewrite Ek in Hw, Hr. set (w := take (S k) (b :: s)) in *. set (rest := drop (S k) (b :: s)) in *.
    assert (b :: s = w ++ rest) as E by (symmetry; apply take_drop). destruct (decide (w = str "Not")) as [En|Hnot].
    + exists TNot, rest, bl. split; [done|]. split; [by rewrite E, En|done].
    + exists (TWord w), rest, bl. split; [done|]. split; [by rewrite E|]. cbn. split_and!; done.
Qed.

Lemma lexes_shorter s t rest : lexes s t rest -> (length rest < length s)%nat.
Proof.
  intros (bl & _ & -> & Hok). rewrite !length_app. assert (0 < length (spelling t))%nat; [|lia].
  destruct t as [b| |w|w|w]; cbn in *; try lia. destruct Hok as (Hne & _). destruct w; [done|cbn; lia].
Qed.

Lemma lex_type_neg s : lex s = Some (eofTokenType, [], []) \/ lex s = Some (errTokenType, [], []) ->
  forall t rest, ~ lexes s t rest.
Proof.
  intros H t rest Hl. pose proof (lex_complete _ _ _ Hl) as E. destruct H as [H|H]; rewrite H in E; injection E as E _ _;
  destruct t; cbn in E; try discriminate; destruct Hl as (_ & _ & _ & Hok); cbn in Hok; subst; repeat (apply elem_of_cons in Hok as [?|Hok]; [done|]); by apply elem_of_nil in Hok.
Qed.

(** ** The dialect

    The productions of RFC 4918, section 10.4.2, over the tokens of [lex]: a state token may
    also be a bare word, what is between angle or square brackets is any text without the
    closing bracket, and the operator is the word [Not] in this case only. *)
Definition operand (neg : bool) (t : token) : option Condition :=
  match t with
  | TWord w | TAngle w => Some (mkCondition neg w [])
  | TSquare w => Some (mkCondition neg [] w)
  | _ => None
  end.

Inductive gcond : bytes -> Condition -> bytes -> Prop :=
| gcond_plain s t c rest : lexes s t rest -> operand false t = Some c -> gcond s c rest
| gcond_not s s1 t c rest : lexes s TNot s1 -> lexes s1 t rest -> operand true t = Some c -> gcond s c rest.

Inductive gconds : bytes -> list Condition -> bytes -> Prop :=
| gconds_close s rest : lexes s (TRune 41) rest -> gconds s [] rest
| gconds_cons s c s1 cs rest : gcond s c s1 -> gconds s1 cs rest -> gconds s (c :: cs) rest.

Definition glist (s : bytes) (cs : list Condition) (rest : bytes) : Prop :=
  exists s1, lexes s (TRune 40) s1 /\ gconds s1 cs rest /\ cs <> [].

Inductive gnotag : bytes -> ifHeader -> Prop :=
| gnotag_last s cs : glist s cs [] -> gnotag s [mkIfList [] cs]
| gnotag_more s cs rest h : glist s cs rest -> gnotag rest h -> gnotag s (mkIfList [] cs :: h).

(** After the resource tag [tag]. *)
Inductive gblock : bytes -> bytes -> ifHeader -> Prop :=
| gblock_last tag s cs : glist s cs [] -> gblock tag s [mkIfList tag cs]
| gblock_list tag s cs rest h : glist s cs rest -> gblock tag rest h -> gblock tag s (mkIfList tag cs :: h)
| gblock_tag tag s cs rest tag' rest' h : glist s cs rest -> lexes rest (TAngle tag') rest' -> gblock tag' rest' h ->
    gblock tag s (mkIfList tag cs :: h).

Definition gheader (s : bytes) (h : ifHeader) : Prop :=
  gnotag s h \/ exists tag s1, lexes s (TAngle tag) s1 /\ gblock tag s1 h.

(** ** The parser decides the dialect *)
Lemma token_types t : token_type t <> -1 /\ token_type t <> -2 \/ exists b, t = TRune b.
Proof. destruct t; [right; by eexists|left; done..]. Qed.

Lemma operand_types neg t c : operand neg t = Some c ->
  (token_type t =? 40) = false /\ (token_type t =? 41) = false /\ (token_type t =? notTokenType) = false /\
  ((token_type t =? strTokenType) || (token_type t =? angleTokenType) = true /\ c = mkCondition neg (token_str t) [] \/
   (token_type t =? strTokenType) || (token_type t =? angleTokenType) = false /\ (token_type t =? squareTokenType) = true /\ c = mkCondition neg [] (token_str t)).
Proof. destruct t; cbn; intros [= <-]; repeat (split; [done|]); auto. Qed.

Lemma operand_none neg s t rest : lexes s t rest -> operand neg t = None ->
  t = TNot \/ ((token_type t =? notTokenType) || (token_type t =? strTokenType) || (token_type t =? angleTokenType) || (token_type t =? squareTokenType) = false).
Proof.
  intros (_ & _ & _ & Hok) H. destruct t as [b| |w|w|w]; try done; [|by left]. right. cbn in Hok.
  repeat (apply elem_of_cons in Hok as [->|Hok]; [done|]). by apply elem_of_nil in Hok.
Qed.

Lemma gcond_complete s c rest : gcond s c rest -> parseCondition s = Some (Some (c, rest)).
Proof.
  unfold parseCondition. intros [? t ? ? Hl Ho|? s1 t ? ? Hn Hl Ho].
  - rewrite (lex_complete _ _ _ Hl). cbn [mbind option_bind]. apply operand_types in Ho as (_ & _ & -> & H). cbn [mbind option_bind].
    destruct H as [[-> ->]|(-> & -> & ->)]; done.
  - rewrite (lex_complete _ _ _ Hn). cbn [mbind option_bind token_type]. rewrite Z.eqb_refl. rewrite (lex_complete _ _ _ Hl). cbn [mbind option_bind].
    apply operand_types in Ho as (_ & _ & _ & H). destruct H as [[-> ->]|(-> & -> & ->)]; done.
Qed.

Lemma cond_none (s : bytes) (neg : bool) : (lex s = Some (eofTokenType, [], []) \/ lex s = Some (errTokenType, [], []) \/
  exists t rest, lexes s t rest /\ operand neg t = None) ->
  exists ty w rest, lex s = Some (ty, w, rest) /\ (ty =? strTokenType) || (ty =? angleTokenType) = false /\ (ty =? squareTokenType) = false /\
    (ty = notTokenType \/ (ty =? notTokenType) = false).
Proof.
  intros [->|[->|(t & rest & Hl & Ho)]]; [do 3 eexists; split; [done|]; auto..|]. exists (token_type t), (token_str t), rest.
  split; [by apply lex_complete|]. destruct (operand_none _ _ _ _ Hl Ho) as [->|H]; [auto|].
  apply orb_false_iff in H as [H ->]. apply orb_false_iff in H as [H ->]. apply orb_false_iff in H as [-> ->]. auto.
Qed.

Lemma gcond_total s : parseCondition s = Some None \/ exists c rest, gcond s c rest /\ (length rest < length s)%nat.
Proof.
  destruct (lex_sound s) as [H|[H|(t & rest & Hl)]]; [left; unfold parseCondition; by rewrite H..|].
  pose proof (lexes_shorter _ _ _ Hl) as Hlen. destruct (operand false t) as [c|] eqn:Ho.
  { right. exists c, rest. split; [by apply gcond_plain with t|done]. }
  destruct (operand_none _ _ _ _ Hl Ho) as [->|H].
  - destruct (lex_sound rest) as [H|[H|(t2 & rest2 & Hl2)]].
    1, 2: left; unfold parseCondition; rewrite (lex_complete _ _ _ Hl); cbn [mbind option_bind token_type]; rewrite Z.eqb_refl, H; done.
    pose proof (lexes_shorter _ _ _ Hl2) as Hlen2. destruct (operand true t2) as [c|] eqn:Ho2.
    + right. exists c, rest2. split; [by apply gcond_not with rest t2|lia].
    + left. destruct (cond_none rest true) as (ty & w & r & E & E1 & E2 & _); [right; right; by exists t2, rest2|].
      unfold parseCondition. rewrite (lex_complete _ _ _ Hl). cbn [mbind option_bind token_type]. rewrite Z.eqb_refl, E. cbn [mbind option_bind]. by rewrite E1, E2.
  - left. unfold parseCondition. rewrite (lex_complete _ _ _ Hl). cbn [mbind option_bind]. apply orb_false_iff in H as [H E3].
    apply orb_false_iff in H as [H E2]. apply orb_false_iff in H as [E0 E1]. rewrite E0. cbn [mbind option_bind]. by rewrite E1, E2, E3.
Qed.

Lemma gcond_shorter s c rest : gcond s c rest -> (length rest < length s)%nat.
Proof. intros [? ? ? ? Hl _|? ? ? ? ? Hn Hl _]; apply lexes_shorter in Hl; [done|apply lexes_shorter in Hn; lia]. Qed.

Lemma gconds_shorter s cs rest : gconds s cs rest -> (length rest < length s)%nat.
Proof. induction 1 as [s rest Hl|s c s1 cs rest Hc _ IH]; [by apply lexes_shorter in Hl|]. apply gcond_shorter in Hc. lia. Qed.

Lemma gcond_not_close s c s1 : gcond s c s1 -> exists ty w rest, lex s = Some (ty, w, rest) /\ (ty =? 41) = false.
Proof.
  intros [? t ? ? Hl Ho|? ? t ? ? Hn _ _]; do 3 eexists; (split; [by apply lex_complete|]); [|done]. by apply operand_types in Ho as (_ & -> & _).
Qed.

Lemma gconds_complete s cs rest : gconds s cs rest -> forall fuel acc, (length s < fuel)%nat -> acc ++ cs <> [] ->
  parseListLoop fuel s acc = Some (Some (acc ++ cs, rest)).
Proof.
  induction 1 as [s rest Hl|s c s1 cs rest Hc Hcs IH]; intros [|fuel] acc Hf Hne; try lia; cbn [parseListLoop].
  - rewrite (lex_complete _ _ _ Hl). cbn [mbind option_bind token_type Z.eqb Pos.eqb]. rewrite app_nil_r in *. by destruct acc.
  - destruct (gcond_not_close _ _ _ Hc) as (ty & w & r & -> & Hty). cbn [mbind option_bind]. rewrite Hty, (gcond_complete _ _ _ Hc). cbn [mbind option_bind].
    apply gcond_shorter in Hc. rewrite IH; [by rewrite <- app_assoc|lia|by destruct acc].
Qed.

Lemma gconds_total fuel : forall s acc, (length s < fuel)%nat ->
  parseListLoop fuel s acc = Some None \/ exists cs rest, gconds s cs rest /\ acc ++ cs <> [].
Proof.
  induction fuel as [|fuel IH]; intros s acc Hf; [lia|]. cbn [parseListLoop].
  assert ((exists t rest, lexes s t rest /\ t = TRune 41) \/ exists ty w rest, lex s = Some (ty, w, rest) /\ (ty =? 41) = false) as [(t & rest & Hl & ->)|(ty & w & rest & -> & Hty)].
  { destruct (lex_sound s) as [->|[->|(t & rest & Hl)]]; [right; by do 3 eexists..|]. destruct (Z.eqb_spec (token_type t) 41) as [E|E].
    - left. exists t, rest. split; [done|]. destruct t; cbn in E; try discriminate. by subst.
    - right. do 3 eexists. split; [by apply lex_complete|]. by apply Z.eqb_neq. }
  - destruct acc as [|a acc]; [left; by rewrite (lex_complete _ _ _ Hl)|]. right. exists [], rest. split; [by apply gconds_close|done].
  - cbn [mbind option_bind]. rewrite Hty. destruct (gcond_total s) as [->|(c & s1 & Hc & Hlen)]; [by left|].
    rewrite (gcond_complete _ _ _ Hc). cbn [mbind option_bind]. destruct (IH s1 (acc ++ [c]) ltac:(lia)) as [->|(cs & r & Hcs & Hne)]; [by left|].
    right. exists (c :: cs), r. split; [by apply gconds_cons with s1|by destruct acc].
Qed.

Lemma glist_complete s cs rest : glist s cs rest -> parseList s = Some (Some (cs, rest)) /\ (length rest < length s)%nat.
Proof.
  intros (s1 & Hl & Hcs & Hne). unfold parseList. rewrite (lex_complete _ _ _ Hl). cbn [mbind option_bind token_type Z.eqb Pos.eqb negb]. split.
  - rewrite (gconds_complete _ _ _ Hcs); [done|lia|done].
  - apply lexes_shorter in Hl. apply gconds_shorter in Hcs. lia.
Qed.

Lemma glist_total s : parseList s = Some None \/ exists cs rest, glist s cs rest.
Proof.
  unfold parseList. destruct (lex_sound s) as [->|[->|(t & s1 & Hl)]]; [by left..|]. rewrite (lex_complete _ _ _ Hl). cbn [mbind option_bind].
  destruct (Z.eqb_spec (token_type t) 40) as [E|E]; cbn [negb]; [|by left]. destruct t; cbn in E; try discriminate. subst b.
  destruct (gconds_total (S (length s1)) s1 [] ltac:(lia)) as [->|(cs & rest & Hcs & Hne)]; [by left|]. right. exists cs, rest, s1. by split_and!.
Qed.

Lemma glist_open s cs rest : glist s cs rest -> exists s1, lex s = Some (40, [], s1).
Proof. intros (s1 & Hl & _). exists s1. exact (lex_complete _ _ _ Hl). Qed.

Lemma glist_nonempty cs rest : ~ glist [] cs rest.
Proof. intros H. apply glist_complete in H as [_ H]. cbn in H. lia. Qed.

Lemma gnotag_nonempty h : ~ gnotag [] h.
Proof. intros H. inversion H; subst; by eapply glist_nonempty. Qed.

Lemma gnotag_complete s h : gnotag s h -> forall fuel acc, (length s < fuel)%nat -> parseNoTagLoop fuel s acc = Some (Some (acc ++ h)).
Proof.
  induction 1 as [s cs Hl|s cs rest h Hl Hh IH]; intros [|fuel] acc Hf; try lia; cbn [parseNoTagLoop]; destruct (glist_complete _ _ _ Hl) as [-> Hlen]; cbn [mbind option_bind].
  - done.
  - rewrite bool_decide_eq_false_2 by (intros ->; by apply gnotag_nonempty in Hh).
    rewrite IH by lia. by rewrite <- app_assoc.
Qed.

Lemma gnotag_total fuel : forall s acc, (length s < fuel)%nat -> parseNoTagLoop fuel s acc = Some None \/ exists h, gnotag s h.
Proof.
  induction fuel as [|fuel IH]; intros s acc Hf; [lia|]. cbn [parseNoTagLoop]. destruct (glist_total s) as [->|(cs & rest & Hl)]; [by left|].
  destruct (glist_complete _ _ _ Hl) as [-> Hlen]. cbn [mbind option_bind]. case_bool_decide as E.
  - right. exists [mkIfList [] cs]. apply gnotag_last. by rewrite <- E.
  - destruct (IH rest (acc ++ [mkIfList [] cs]) ltac:(lia)) as [->|[h Hh]]; [by left|]. right. exists (mkIfList [] cs :: h). by apply gnotag_more with rest.
Qed.

Lemma gblock_nonempty tag h : ~ gblock tag [] h.
Proof. intros H. inversion H; subst; by eapply glist_nonempty. Qed.

Lemma gblock_complete tag s h : gblock tag s h -> forall fuel n first acc, (length s < fuel)%nat -> 0 <= n ->
  parseTaggedLoop fuel s tag n first acc = Some (Some (acc ++ h)).
Proof.
  induction 1 as [tag s cs Hl|tag s cs rest h Hl Hh IH|tag s cs rest tag' rest' h Hl Ht Hh IH]; intros [|fuel] n first acc Hf Hn; try lia; cbn [parseTaggedLoop];
    destruct (glist_open _ _ _ Hl) as [s1 ->]; cbn [mbind option_bind Z.eqb Pos.eqb angleTokenType]; destruct (glist_complete _ _ _ Hl) as [-> Hlen]; cbn [mbind option_bind].
  - done.
  - rewrite bool_decide_eq_false_2 by (intros ->; by apply gblock_nonempty in Hh). rewrite IH by lia. by rewrite <- app_assoc.
  - pose proof (lexes_shorter _ _ _ Ht) as Hlt. rewrite bool_decide_eq_false_2 by (intros ->; cbn in Hlt; lia).
    destruct fuel as [|fuel]; [lia|]. cbn [parseTaggedLoop]. rewrite (lex_complete _ _ _ Ht). cbn [mbind option_bind token_type token_str]. rewrite Z.eqb_refl.
    cbn [negb andb]. destruct (Z.eqb_spec (n + 1) 0); [lia|]. rewrite IH by lia. by rewrite <- app_assoc.
Qed.

Lemma angle_token s t rest : lexes s t rest -> token_type t = angleTokenType -> t = TAngle (token_str t).
Proof.
  intros (_ & _ & _ & Hok) E. destruct t as [b| | | |]; try discriminate; [|done]. cbn in E, Hok. subst b.
  repeat (apply elem_of_cons in Hok as [?|Hok]; [done|]). by apply elem_of_nil in Hok.
Qed.

Lemma gblock_total fuel : forall s tag n acc, (length s < fuel)%nat -> 0 <= n ->
  parseTaggedLoop fuel s tag n false acc = Some None \/ (exists h, gblock tag s h) \/
  (n <> 0 /\ exists tag' rest' h, lexes s (TAngle tag') rest' /\ gblock tag' rest' h).
Proof.
  induction fuel as [|fuel IH]; intros s tag n acc Hf Hn; [lia|]. cbn [parseTaggedLoop].
  destruct (lex_sound s) as [->|[->|(t & rest & Hl)]]; [by left..|]. pose proof (lexes_shorter _ _ _ Hl) as Hlen. rewrite (lex_complete _ _ _ Hl). cbn [mbind option_bind negb andb].
  destruct (Z.eqb_spec (token_type t) angleTokenType) as [E|E].
  - pose proof (angle_token _ _ _ Hl E) as Et.
    rewrite Et in Hl. destruct (Z.eqb_spec n 0); [by left|]. destruct (IH rest (token_str t) 0 acc ltac:(lia) ltac:(lia)) as [->|[[h Hh]|[? _]]]; [by left| |done].
    right. right. split; [done|]. by exists (token_str t), rest, h.
  - destruct (Z.eqb_spec (token_type t) 40) as [E'|E']; [|by left]. destruct (glist_total s) as [->|(cs & rest' & Hg)]; [by left|].
    destruct (glist_complete _ _ _ Hg) as [-> Hlen']. cbn [mbind option_bind]. case_bool_decide as Er.
    + right. left. eexists. apply gblock_last. by rewrite <- Er.
    + destruct (IH rest' tag (n + 1) (acc ++ [mkIfList tag cs]) ltac:(lia) ltac:(lia)) as [->|[[h Hh]|(_ & tag2 & rest2 & h & Hl2 & Hh)]]; [by left|..].
      * right. left. eexists. by apply (gblock_list tag s cs rest').
      * right. left. eexists. by apply (gblock_tag tag s cs rest' tag2 rest2).
Qed.

Lemma angle_first s tag s1 fuel : lexes s (TAngle tag) s1 -> parseTaggedLoop (S fuel) s [] 0 true [] = parseTaggedLoop fuel s1 tag 0 false [].
Proof. intros Hl. cbn [parseTaggedLoop]. rewrite (lex_complete _ _ _ Hl). cbn [mbind option_bind token_type token_str]. by rewrite Z.eqb_refl. Qed.

Lemma gheader_complete s h : gheader (TrimSpace s) h -> parseIfHeader s = Some (Some h).
Proof.
  unfold parseIfHeader. generalize (TrimSpace s) as r. intros r [Hn|(tag & s1 & Hl & Hb)].
  - assert (exists s1, lex r = Some (40, [], s1)) as [s1 ->] by (destruct Hn as [? ? Hg|? ? ? ? Hg _]; by apply glist_open in Hg).
    cbn [mbind option_bind Z.eqb Pos.eqb]. unfold parseNoTagLists. by rewrite (gnotag_complete _ _ Hn) by lia.
  - rewrite (lex_complete _ _ _ Hl). cbn [mbind option_bind token_type Z.eqb]. rewrite Z.eqb_refl. unfold parseTaggedLists.
    rewrite (angle_first _ _ _ _ Hl). apply lexes_shorter in Hl. by rewrite (gblock_complete _ _ _ Hb) by lia.
Qed.

Lemma gheader_total s : parseIfHeader s = Some None \/ exists h, gheader (TrimSpace s) h.
Proof.
  unfold parseIfHeader. generalize (TrimSpace s) as r. intros r. destruct (lex_sound r) as [->|[->|(t & rest & Hl)]]; [by left..|].
  rewrite (lex_complete _ _ _ Hl). cbn [mbind option_bind]. destruct (Z.eqb_spec (token_type t) 40) as [E|E].
  - destruct (gnotag_total (S (length r)) r [] ltac:(lia)) as [H|[h Hh]]; [by left|]. right. exists h. by left.
  - destruct (Z.eqb_spec (token_type t) angleTokenType) as [E'|E']; [|by left].
    pose proof (angle_token _ _ _ Hl E') as Et.
    rewrite Et in Hl. unfold parseTaggedLists. rewrite (angle_first _ _ _ _ Hl). pose proof (lexes_shorter _ _ _ Hl).
    destruct (gblock_total (length r) rest (token_str t) 0 [] ltac:(lia) ltac:(lia)) as [H'|[[h Hh]|[? _]]]; [by left| |done].
    right. exists h. right. by exists (token_str t), rest.
Qed.

(** ** The headers of RFC 4918

    The syntax of section 10.4.2: State-tokens are absolute URIs, entity tags are quoted
    strings that may be weak. *)
Inductive state := CodedURL (uri : bytes) | EntityTag (weak : bool) (opaque : bytes).
Record rfc_condition := mkRfcCondition { rfc_Not : bool; rfc_state : state }.
Abbreviation rfc_list := (list rfc_condition).
Inductive rfc_header :=
| NoTagLists (ls : list rfc_list)
| TaggedLists (blocks : list (bytes * list rfc_list)).

Definition etag_text (weak : bool) (opaque : bytes) : bytes := (if weak then str "W/" else []) ++ [34] ++ opaque ++ [34].

(** No URI has an angle bracket.  An opaque tag has no quotation mark; one with a closing
    square bracket is not read. *)
Definition state_wf (st : state) : Prop :=
  match st with
  | CodedURL u => u <> [] /\ (60 ∉ u) /\ 62 ∉ u
  | EntityTag _ o => (34 ∉ o) /\ 93 ∉ o
  end.

Definition list_wf (l : rfc_list) : Prop := l <> [] /\ Forall (fun c => state_wf (rfc_state c)) l.

Definition rfc_wf (h : rfc_header) : Prop :=
  match h with
  | NoTagLists ls => ls <> [] /\ Forall list_wf ls
  | TaggedLists bs => bs <> [] /\ Forall (fun b => (62 ∉ b.1) /\ b.2 <> [] /\ Forall list_wf b.2) bs
  end.

(** How a header is written. *)
Definition state_token (st : state) : token :=
  match st with CodedURL u => TAngle u | EntityTag w o => TSquare (etag_text w o) end.
Definition condition_tokens (c : rfc_condition) : list token := (if rfc_Not c then [TNot] else []) ++ [state_token (rfc_state c)].
Definition list_tokens (l : rfc_list) : list token := TRune 40 :: concat (map condition_tokens l) ++ [TRune 41].
Definition rfc_tokens (h : rfc_header) : list token :=
  match h with
  | NoTagLists ls => concat (map list_tokens ls)
  | TaggedLists bs => concat (map (fun b => TAngle b.1 :: concat (map list_tokens b.2)) bs)
  end.

(** The tokens, each after any blanks. *)
Inductive written : list token -> bytes -> Prop :=
| written_nil : written [] []
| written_cons blanks t ts s : Forall (fun b => isBlank b = true) blanks -> written ts s -> written (t :: ts) (blanks ++ spelling t ++ s).

(** What it says. *)
Definition condition_meaning (c : rfc_condition) : Condition :=
  match rfc_state c with
  | CodedURL u => mkCondition (rfc_Not c) u []
  | EntityTag w o => mkCondition (rfc_Not c) [] (etag_text w o)
  end.
Definition list_meaning (tag : bytes) (l : rfc_list) : ifList := mkIfList tag (map condition_meaning l).
Definition rfc_meaning (h : rfc_header) : ifHeader :=
  match h with
  | NoTagLists ls => map (list_meaning []) ls
  | TaggedLists bs => concat (map (fun b => map (list_meaning b.1) b.2) bs)
  end.

Lemma written_cons_inv t ts s : written (t :: ts) s -> exists bl s', Forall (fun b => isBlank b = true) bl /\ s = bl ++ spelling t ++ s' /\ written ts s'.
Proof. inversion 1; subst. by exists blanks, s0. Qed.

Lemma lexes_written t ts s : written (t :: ts) s -> (forall r, written ts r -> token_ok t r) -> exists rest, lexes s t rest /\ written ts rest.
Proof. intros (bl & s' & Hb & -> & H)%written_cons_inv Hok. exists s'. split; [|done]. exists bl. split; [done|]. split; [done|]. by apply Hok. Qed.

Lemma etag_no_bracket w o : 93 ∉ o -> 93 ∉ etag_text w o.
Proof. intros H. unfold etag_text. rewrite !not_elem_of_app. split; [by destruct w; apply (bool_decide_unpack _)|]. split; [by apply (bool_decide_unpack _)|split; [done|by apply (bool_decide_unpack _)]]. Qed.

Lemma state_token_ok st r : state_wf st -> token_ok (state_token st) r.
Proof. destruct st as [u|w o]; cbn; [tauto|]. intros [_ H]. by apply etag_no_bracket. Qed.

(** Blanks and brackets end a word. *)
Lemma ends_written st ts r : written (state_token st :: ts) r -> ends r.
Proof.
  intros (bl & s' & Hb & -> & _)%written_cons_inv. destruct bl as [|b bl]; [by destruct st|]. apply Forall_cons in Hb as [Hb _]. cbn.
  unfold isDelim, isBlank in *. apply orb_true_iff in Hb as [->%Z.eqb_eq| ->%Z.eqb_eq]; done.
Qed.

Lemma condition_read c ts s : state_wf (rfc_state c) -> written (condition_tokens c ++ ts) s -> exists rest, gcond s (condition_meaning c) rest /\ written ts rest.
Proof.
  destruct c as [neg st]. unfold condition_tokens, condition_meaning. cbn [rfc_Not rfc_state]. intros Hw H.
  assert (forall neg, operand neg (state_token st) = Some (match st with CodedURL u => mkCondition neg u [] | EntityTag w o => mkCondition neg [] (etag_text w o) end)) as Ho
    by (by destruct st).
  destruct neg; cbn [app] in H.
  - apply lexes_written in H as (s1 & H1 & H); [|intros r; apply ends_written]. apply lexes_written in H as (s2 & H2 & H); [|intros r _; by apply state_token_ok].
    exists s2. split; [|done]. by eapply gcond_not.
  - apply lexes_written in H as (s2 & H2 & H); [|intros r _; by apply state_token_ok]. exists s2. split; [|done]. by eapply gcond_plain.
Qed.

Lemma conditions_read ts l : forall s, Forall (fun c => state_wf (rfc_state c)) l -> written (concat (map condition_tokens l) ++ TRune 41 :: ts) s ->
  exists rest, gconds s (map condition_meaning l) rest /\ written ts rest.
Proof.
  induction l as [|c l IH]; intros s Hw H; cbn [map concat app] in *.
  - apply lexes_written in H as (s1 & H1 & H); [|intros r _; cbn; set_solver]. exists s1. split; [by constructor|done].
  - apply Forall_cons in Hw as [Hc Hw]. rewrite <- app_assoc in H. apply condition_read in H as (s1 & H1 & H); [|done].
    destruct (IH s1 Hw H) as (s2 & H2 & H3). exists s2. split; [by econstructor|done].
Qed.

Lemma list_read ts l s : list_wf l -> written (list_tokens l ++ ts) s -> exists rest, glist s (map condition_meaning l) rest /\ written ts rest.
Proof.
  intros [Hne Hw] H. unfold list_tokens in H. cbn [app] in H. rewrite <- app_assoc in H. cbn [app] in H.
  apply lexes_written in H as (s1 & H1 & H); [|intros r _; cbn; set_solver]. apply conditions_read in H as (s2 & H2 & H); [|done].
  exists s2. split; [|done]. exists s1. split; [done|]. split; [done|]. by destruct l.
Qed.

Lemma notag_read ls : forall s, ls <> [] -> Forall list_wf ls -> written (concat (map list_tokens ls)) s -> gnotag s (map (list_meaning []) ls).
Proof.
  induction ls as [|l ls IH]; intros s Hne Hw H; [done|]. apply Forall_cons in Hw as [Hl Hw]. cbn [map concat] in *.
  apply list_read in H as (rest & Hg & H); [|done]. destruct ls as [|l' ls].
  - inversion H; subst. by apply gnotag_last.
  - apply gnotag_more with rest; [done|]. by apply IH.
Qed.

Lemma tagged_read bs : forall tag ls s, ls <> [] -> Forall list_wf ls -> Forall (fun b => (62 ∉ b.1) /\ b.2 <> [] /\ Forall list_wf b.2) bs ->
  written (concat (map list_tokens ls) ++ concat (map (fun b => TAngle b.1 :: concat (map list_tokens b.2)) bs)) s ->
  gblock tag s (map (list_meaning tag) ls ++ concat (map (fun b => map (list_meaning b.1) b.2) bs)).
Proof.
  induction bs as [|[tag' ls'] bs IHb].
  - intros tag ls. rewrite app_nil_r. cbn [map concat]. rewrite app_nil_r. induction ls as [|l ls IH]; intros s Hne Hw _ H; [done|].
    apply Forall_cons in Hw as [Hl Hw]. cbn [map concat] in *. apply list_read in H as (rest & Hg & H); [|done]. destruct ls as [|l' ls].
    + inversion H; subst. by apply gblock_last.
    + apply gblock_list with rest; [done|]. by apply IH.
  - intros tag ls. induction ls as [|l ls IH]; intros s Hne Hw Hb H; [done|]. apply Forall_cons in Hw as [Hl Hw].
    cbn [map concat] in H. rewrite <- app_assoc in H. apply list_read in H as (rest & Hg & H); [|done]. destruct ls as [|l' ls].
    + cbn [map concat app fst snd] in *. apply Forall_cons in Hb as [(Ht & Hn & Hw') Hb]. cbn [fst snd] in *.
      apply lexes_written in H as (s1 & H1 & H); [|intros r _; exact Ht]. eapply gblock_tag; [done|done|]. by apply IHb.
    + cbn [map app]. apply gblock_list with rest; [done|]. by apply IH.
Qed.

Lemma rfc_read h s : rfc_wf h -> written (rfc_tokens h) s -> gheader s (rfc_meaning h).
Proof.
  destruct h as [ls|bs]; cbn; intros [Hne Hw] H; [left; by apply notag_read|]. destruct bs as [|[tag ls] bs]; [done|]. right.
  apply Forall_cons in Hw as [(Ht & Hn & Hl) Hw]. cbn [map concat app fst snd] in *.
  apply lexes_written in H as (s1 & H1 & H); [|intros r _; exact Ht]. exists tag, s1. split; [done|]. by apply tagged_read.
Qed.

(** C32: [parseIfHeader] returns on every text.  It accepts exactly the texts of the dialect
    [gheader], with its lists, tags and conditions; and among them every header of RFC 4918,
    section 10.4.2, whose entity tags have no closing square bracket, however blanks are
    placed, with the meaning that it has there. *)
Theorem parseIfHeader_grammar (s : bytes) :
  (exists r, parseIfHeader s = Some r) /\ (forall h, parseIfHeader s = Some (Some h) <-> gheader (TrimSpace s) h) /\
  (forall h, rfc_wf h -> written (rfc_tokens h) (TrimSpace s) -> parseIfHeader s = Some (Some (rfc_meaning h))).
Proof.
  assert (forall h, parseIfHeader s = Some (Some h) <-> gheader (TrimSpace s) h) as H.
  { intros h. split; [|apply gheader_complete]. intros E. destruct (gheader_total s) as [E'|[h' Hh]]; [congruence|].
    rewrite (gheader_complete s h' Hh) in E. by injection E as <-. }
  split; [|split; [done|]]; [destruct (gheader_total s) as [E|[h Hh]]; [by eexists|]; eexists; by apply gheader_complete|].
  intros h Hw Ht. by apply H, rfc_read.
Qed.

(** A header of section 10.4.6, and texts of the dialect that are not of the RFC; the RFC's
    operator is not case sensitive, and its entity tags may have a closing bracket. *)
Definition rfc_sample : rfc_header :=
  NoTagLists [[mkRfcCondition false (CodedURL (str "urn:uuid:181d4fae")); mkRfcCondition true (EntityTag true (str "a tag"))]; [mkRfcCondition false (EntityTag false (str "b"))]].

Definition quoted (s : bytes) : bytes := map (fun b => if b =? 39 then 34 else b) s.

Lemma parseIfHeader_grammar_witness :
  parseIfHeader (quoted (str " (<urn:uuid:181d4fae> Not  [W/'a tag'])( ['b'] ) ")) = Some (Some (rfc_meaning rfc_sample)).
Proof.
  apply (parseIfHeader_grammar (quoted (str " (<urn:uuid:181d4fae> Not  [W/'a tag'])( ['b'] ) "))).
  - split; [discriminate|]. by repeat (apply List.Forall_cons || apply List.Forall_nil || split || apply (bool_decide_unpack _)).
  - change (written (rfc_tokens rfc_sample) (quoted (str "(<urn:uuid:181d4fae> Not  [W/'a tag'])( ['b'] )"))).
    refine (written_cons [] _ _ _ _ (written_cons [] _ _ _ _ (written_cons [32] _ _ _ _ (written_cons [32; 32] _ _ _ _ (written_cons [] _ _ _ _
      (written_cons [] _ _ _ _ (written_cons [32] _ _ _ _ (written_cons [32] _ _ _ _ written_nil)))))))); by repeat constructor.
Defined.

Example dialect_texts : map parseIfHeader [str "(a)"; str "(not <u>)"; quoted (str "(['a]b'])")] =
  [Some (Some [mkIfList [] [mkCondition false (str "a") []]]);
   Some (Some [mkIfList [] [mkCondition false (str "not") []; mkCondition false (str "u") []]]); Some None].
Proof. vm_compute. reflexivity. Qed.

(** What a header says: every list has a condition, and no condition has both a token
    and an entity tag. *)
Definition cond_wf (c : Condition) : Prop := c_Token c = [] \/ c_ETag c = [].

Lemma gconds_wf s cs rest : gconds s cs rest -> Forall cond_wf cs.
Proof.
  induction 1 as [|s c s1 cs rest Hc _ IH]; [apply List.Forall_nil|]. apply List.Forall_cons; [|done].
  destruct Hc as [? t ? ? _ Ho|? ? t ? ? _ _ Ho]; destruct t; cbn in Ho; try discriminate; injection Ho as <-; unfold cond_wf; cbn; auto.
Qed.

Lemma parseTimeout_bounds s n : parseTimeout s = Some n -> n = infiniteTimeout \/ 0 <= n <= (2 ^ 32 - 1) * second.
Proof.
  unfold parseTimeout. case_bool_decide; [intros [= <-]; by left|]. case_bool_decide; [intros [= <-]; by left|].
  destruct (negb _); [done|]. destruct (drop _ _) as [|b t] eqn:E; [done|]. destruct (_ || _); [done|].
  unfold ParseInt. destruct (decimal 0 (b :: t)) as [m|] eqn:Em; [|done]. cbn [mbind option_bind]. pose proof (decimal_nonneg _ 0 _ (Z.le_refl 0) Em).
  destruct (m <? 2 ^ 63); [|done]. destruct (Z.ltb_spec (2 ^ 32 - 1) m) as [|Hm]; [done|]. intros [= <-]. right. unfold second. lia.
Qed.
