(* ===== verification/WebdavHandler.v ===== *)
(** * Package webdav: locks in the handler

    Models [stripPrefix], [lock], [confirmLocks], [handleUnlock] and [parseDepth] of
    src/webdav/webdav.go over the interface [LockSystem], with the laws its documentation
    promises; [memLS] implements it.  [url.Parse] is any function. *)

From S2P Require Import Prelude WebdavPath WebdavLock WebdavTable WebdavLockOk WebdavLockOps WebdavLockSpec WebdavLockRun WebdavIf.

(** ** The interface *)
Inductive ls_error := Known (e : lock_error) | OtherError.

#[global] Instance ls_error_eq_dec : EqDecision ls_error.
Proof. solve_decision. Defined.

Class LockSystem (S R : Type) := {
  ls_Confirm : S -> Z -> bytes -> bytes -> list Condition -> option (S * (ls_error + R));
  ls_Create : S -> Z -> LockDetails -> option (S * (ls_error + bytes));
  ls_Refresh : S -> Z -> bytes -> Z -> option (S * (ls_error + LockDetails));
  ls_Unlock : S -> Z -> bytes -> option (S * option ls_error);
  ls_release : S -> R -> option S
}.

(** [ls_wf n s]: a sound state that can give out [n] more tokens.  [ls_other]: the system
    has errors besides those that the documentation names; they leave what is held as it
    was, and the handler answers them with 500. *)
Class LockSystemLaws (S R : Type) `{LockSystem S R} := {
  ls_table : S -> table;
  ls_wf : nat -> S -> Prop;
  ls_ticket : S -> R -> ticket -> Prop;
  ls_other : Prop;
  ls_Confirm_law n s now n0 n1 cs : ls_wf n s -> exists s' r, ls_Confirm s now n0 n1 cs = Some (s', r) /\ ls_wf n s' /\
    let '(T, c) := t_confirm (ls_table s) now n0 n1 cs in
    match r with
    | inl (Known ErrConfirmationFailed) => c = inl ErrConfirmationFailed /\ ls_table s' = T
    | inl _ => ls_other /\ same_held (ls_table s) (ls_table s')
    | inr x => ls_table s' = T /\ exists k, c = inr k /\ ls_ticket s' x k
    end;
  ls_exclusive n s : ls_wf n s -> exclusive (ls_table s);
  ls_wf_mono n s : ls_wf (Datatypes.S n) s -> ls_wf n s
}.

(** A system whose [Create] and [Unlock] fail for no reason of their own. *)
Class TokenLaws (S R : Type) `{LockSystemLaws S R} := {
  ls_Create_law n s now d : ls_wf (Datatypes.S n) s -> exists s' r, ls_Create s now d = Some (s', r) /\ ls_wf n s' /\
    let T := t_expire now (ls_table s) in
    let d' := set_Root (slashClean (ld_Root d)) d in
    let blocked := map_Exists (fun _ l => conflict (name_elements (ld_Root d)) (ld_ZeroDepth d) l) T in
    match r with
    | inl e => e = Known ErrLocked /\ blocked /\ ls_table s' = T
    | inr t => t <> [] /\ ls_table s !! t = None /\ ~ blocked /\ ls_table s' = <[t := mkLock d' (deadline now (ld_Duration d)) false]> T
    end;
  ls_Unlock_law n s now t : ls_wf n s -> exists s' r, ls_Unlock s now t = Some (s', r) /\ ls_wf n s' /\
    ls_table s' = (t_unlock (ls_table s) now t).1 /\ r = Known <$> (t_unlock (ls_table s) now t).2
}.

(** ** The in-memory lock system *)
Definition known {A} (r : lock_error + A) : ls_error + A := match r with inl e => inl (Known e) | inr x => inr x end.

#[export] Instance memLS_LockSystem : LockSystem memLS release := {
  ls_Confirm m now n0 n1 cs := '(m, r) ← Confirm m now n0 n1 cs; Some (m, known r);
  ls_Create m now d := '(m, r) ← Create m now d; Some (m, known r);
  ls_Refresh m now t x := '(m, r) ← Refresh m now t x; Some (m, known r);
  ls_Unlock m now t := '(m, r) ← Unlock m now t; Some (m, fmap (M := option) Known r);
  ls_release := release_
}.

Definition mem_wf (n : nat) (m : memLS) : Prop :=
  ls_ok m /\ exclusive (table_of m) /\ exists g0 k, 0 <= k /\ k + Z.of_nat n < 2 ^ 64 /\ tokens_from g0 k (m_gen m) (table_of m).

Lemma mem_fresh n m : mem_wf (S n) m -> m_byToken m !! FormatUint (u64 (m_gen m + 1)) = None.
Proof.
  intros (H & _ & g0 & k & Hk & Hlt & Hf). pose proof (tokens_from_fresh _ _ _ _ Hf ltac:(lia)) as Hn.
  pose proof (token_lookup m (FormatUint (u64 (m_gen m + 1))) (proj1 (proj1 H))) as Hl. destruct (m_byToken m !! _); [|done].
  destruct Hl as (nd & _ & El). congruence.
Qed.

(** An operation that gives out no token. *)
Lemma mem_wf_same n m m' : mem_wf n m -> ls_ok m' -> exclusive (table_of m') -> m_gen m' = m_gen m ->
  (forall t, is_Some (table_of m' !! t) -> is_Some (table_of m !! t)) -> mem_wf n m'.
Proof.
  intros (_ & _ & g0 & k & Hk & Hlt & k' & Hk' & Eg & Hf) H He Eg' Hd. split; [done|]. split; [done|]. exists g0, k. split; [done|]. split; [done|].
  exists k'. split; [done|]. split; [congruence|]. intros t Ht. by apply Hf, Hd.
Qed.

Lemma confirm_dom T now n0 n1 cs t : is_Some ((t_confirm T now n0 n1 cs).1 !! t) -> is_Some (T !! t).
Proof.
  assert (forall t, is_Some (t_expire now T !! t) -> is_Some (T !! t)) as Hdom by (intros x [l [E _]%t_expire_lookup]; by eexists).
  unfold t_confirm. destruct (t_lookup_name (t_expire now T) n0 cs); [apply Hdom|]. destruct (t_lookup_name (t_expire now T) n1 cs); [apply Hdom|].
  cbn. intros H. by apply Hdom, (set_held_dom true _ o), (set_held_dom true _ (if bool_decide (o0 = o) then None else o0)).
Qed.

Lemma t_confirm_error T now n0 n1 cs T' e : t_confirm T now n0 n1 cs = (T', inl e) -> e = ErrConfirmationFailed /\ T' = t_expire now T.
Proof.
  unfold t_confirm, t_lookup_name. repeat (case_bool_decide; [try done|]); repeat (destruct (t_lookup _ _ _)); try done; by intros [= <- <-].
Qed.

#[export] Instance memLS_laws : LockSystemLaws memLS release.
Proof.
  refine {| ls_table := table_of; ls_wf := mem_wf; ls_ticket := ticket_pin; ls_other := False |}.
  - intros n m now n0 n1 cs Hwf. destruct (Confirm_ok m now n0 n1 cs (proj1 Hwf)) as (m' & r & E & [H' _] & Eg & r' & Et & Hr). cbn. rewrite E. cbn [mbind option_bind].
    exists m', (known r). split; [done|]. rewrite Et. split.
    + apply (mem_wf_same n m m' Hwf H'); [|done|].
      * pose proof (t_confirm_exclusive _ now n0 n1 cs (proj1 (proj2 Hwf))) as He. by rewrite Et in He.
      * intros x Hx. apply (confirm_dom _ now n0 n1 cs). by rewrite Et.
    + destruct r, r'; cbn; try done; [subst|split; [done|]; eexists; split; [done|apply Hr]]. apply t_confirm_error in Et as [-> _]. done.
  - intros n m Hwf. apply Hwf.
  - intros n m (H & He & g0 & k & Hk & Hlt & Hf). split; [done|]. split; [done|]. exists g0, k. split; [done|]. split; [lia|done].
Defined.

#[export] Instance memLS_tokens : TokenLaws memLS release.
Proof.
  split.
  - intros n m now d Hwf. pose proof Hwf as (H & He & g0 & k & Hk & Hlt & Hf). destruct (Create_ok m now d H (mem_fresh n m Hwf)) as (m' & r & E & [H' _] & Et).
    cbn. rewrite E. cbn [mbind option_bind]. exists m', (known r). split; [done|].
    pose proof (t_create_exclusive _ (m_gen m) now d He) as He'. pose proof (create_tokens _ _ _ _ now d Hk Hf) as Hf'. rewrite Et in He', Hf'. cbn [fst snd] in He', Hf'.
    split; [split; [done|]; split; [done|]; exists g0, (k + 1); split; [lia|]; split; [lia|done]|].
    unfold t_create in Et. cbn [ld_Root set_Root ld_ZeroDepth ld_Duration] in Et. rewrite name_elements_idem in Et. cbv zeta in *. case_bool_decide as Hb.
    + injection Et as <- _ <-. by split_and!.
    + injection Et as <- _ <-. cbn [known]. split; [apply FormatUint_nonempty|]. split; [|by split].
      pose proof (tokens_from_fresh _ _ _ _ Hf ltac:(lia)). done.
  - intros n m now t Hwf. destruct (Unlock_ok m now t (proj1 Hwf)) as (m' & r & E & [H' _] & Eg & Et). cbn. rewrite E. cbn [mbind option_bind].
    exists m', (Known <$> r). split; [done|]. rewrite Et. split; [|done]. apply (mem_wf_same n m m' Hwf H'); [|done|].
    + pose proof (t_unlock_exclusive _ now t (proj1 (proj2 Hwf))) as He. by rewrite Et in He.
    + intros x Hx. apply (unlock_dom _ now t). by rewrite Et.
Qed.

(** ** The handler *)
Inductive h_error := LockError (e : ls_error) | errPrefixMismatch | errInvalidIfHeader | errInvalidLockToken.

Definition StatusOK : Z := 200.
Definition StatusNoContent : Z := 204.
Definition StatusBadRequest : Z := 400.
Definition StatusForbidden : Z := 403.
Definition StatusNotFound : Z := 404.
Definition StatusConflict : Z := 409.
Definition StatusPreconditionFailed : Z := 412.
Definition StatusLocked : Z := 423.
Definition StatusInternalServerError : Z := 500.

Definition infiniteDepth : Z := -1.
Definition invalidDepth : Z := -2.

Definition parseDepth (s : bytes) : Z :=
  if bool_decide (s = str "0") then 0
  else if bool_decide (s = str "1") then 1
  else if bool_decide (s = str "infinity") then infiniteDepth
  else invalidDepth.

(** What the handler reads of a request. *)
Record request := mkRequest { rq_Host : bytes; rq_If : bytes; rq_LockToken : bytes }.

Section handler.
Context {LS R : Type} `{LockSystem LS R}.
(** The host and the path of a URL; [None] is an error. *)
Variable url_Parse : bytes -> option (bytes * bytes).
(** The readings of the clock during a request. *)
Variable clock : nat -> Z.
Variable Prefix : bytes.

Definition stripPrefix (p : bytes) : bytes * Z * option h_error :=
  if bool_decide (Prefix = []) then (p, StatusOK, None)
  else
    let r := if HasPrefix p Prefix then drop (length Prefix) p else p in
    if (length r <? length p)%nat then (r, StatusOK, None)
    else (p, StatusNotFound, Some errPrefixMismatch).

Definition lock (s : LS) (now : Z) (root : bytes) : option (LS * (Z * ls_error + bytes)) :=
  '(s, r) ← ls_Create s now (mkDetails root infiniteTimeout [] true);
  Some (s, match r with
           | inl (Known ErrLocked) => inl (StatusLocked, Known ErrLocked)
           | inl e => inl (StatusInternalServerError, e)
           | inr token => inr token
           end).

Definition Unlock_if (s : LS) (now : Z) (token : bytes) : option LS :=
  if bool_decide (token = []) then Some s else '(s, _) ← ls_Unlock s now token; Some s.

(** The release function: what it closes over. *)
Inductive releaser := Temporary (now : Z) (srcToken dstToken : bytes) | Confirmed (r : R).

Definition call_release (s : LS) (r : releaser) : option LS :=
  match r with
  | Temporary now srcToken dstToken => s ← Unlock_if s now dstToken; Unlock_if s now srcToken
  | Confirmed r => ls_release s r
  end.

Definition lock_if (s : LS) (now : Z) (name : bytes) : option (LS * (Z * ls_error + bytes)) :=
  if bool_decide (name = []) then Some (s, inr []) else lock s now name.

Fixpoint confirmLists (i : nat) (s : LS) (r : request) (src dst : bytes) (lists : ifHeader) : option (LS * (Z * h_error + releaser)) :=
  match lists with
  | [] => Some (s, inl (StatusPreconditionFailed, LockError (Known ErrLocked)))
  | l :: lists =>
      let confirm lsrc :=
        '(s, c) ← ls_Confirm s (clock i) lsrc dst (conditions l);
        match c with
        | inl (Known ErrConfirmationFailed) => confirmLists (S i) s r src dst lists
        | inl e => Some (s, inl (StatusInternalServerError, LockError e))
        | inr release => Some (s, inr (Confirmed release))
        end in
      if bool_decide (resourceTag l = []) then confirm src
      else
        match url_Parse (resourceTag l) with
        | None => confirmLists i s r src dst lists
        | Some (host, path) =>
            if negb (bool_decide (host = rq_Host r)) then confirmLists i s r src dst lists
            else
              match stripPrefix path with
              | (_, status, Some e) => Some (s, inl (status, e))
              | (lsrc, _, None) => confirm lsrc
              end
        end
  end.

Definition confirmLocks (s : LS) (r : request) (src dst : bytes) : option (LS * (Z * h_error + releaser)) :=
  let hdr := rq_If r in
  if bool_decide (hdr = []) then
    let now := clock O in
    '(s, srcToken) ← lock_if s now src;
    match srcToken with
    | inl (status, e) => Some (s, inl (status, LockError e))
    | inr srcToken =>
        '(s, dstToken) ← lock_if s now dst;
        match dstToken with
        | inl (status, e) => s ← Unlock_if s now srcToken; Some (s, inl (status, LockError e))
        | inr dstToken => Some (s, inr (Temporary now srcToken dstToken))
        end
    end
  else
    ih ← parseIfHeader hdr;
    match ih with
    | None => Some (s, inl (StatusBadRequest, errInvalidIfHeader))
    | Some lists => confirmLists O s r src dst lists
    end.

Definition handleUnlock (s : LS) (r : request) : option (LS * (Z * option h_error)) :=
  let t := rq_LockToken r in
  if (zlen t <? 2) || negb (bool_decide (head t = Some 60)) || negb (bool_decide (last t = Some 62))
  then Some (s, (StatusBadRequest, Some errInvalidLockToken))
  else
    t ← zslice t 1 (zlen t - 1);
    '(s, err) ← ls_Unlock s (clock O) t;
    Some (s, match err with
             | None => (StatusNoContent, None)
             | Some e =>
                 (match e with
                  | Known ErrForbidden => StatusForbidden
                  | Known ErrLocked => StatusLocked
                  | Known ErrNoSuchLock => StatusConflict
                  | _ => StatusInternalServerError
                  end, Some (LockError e))
             end).
End handler.
Arguments releaser R : clear implicits.

(** ** Locks without an If header *)
Lemma t_expire_idem now T : t_expire now (t_expire now T) = t_expire now T.
Proof. apply t_expire_id. intros t l [_ H]%t_expire_lookup. done. Qed.

(** A lock of some client covers the name. *)
Definition busy (T : table) (name : bytes) : Prop := name <> [] /\ exists t l, T !! t = Some l /\ covers l (name_elements name) = true.

Lemma conflict_covers_zero root l : conflict root true l <-> covers l root = true.
Proof. rewrite covers_spec. unfold conflict. split; [intros [|[|[]]]; by auto|intros [|]; auto]. Qed.

Definition temp (name : bytes) : alock := mkLock (mkDetails (slashClean name) infiniteTimeout [] true) None false.

Lemma expire_temp now T t name : t_expire now (<[t := temp name]> (t_expire now T)) = <[t := temp name]> (t_expire now T).
Proof.
  apply t_expire_id. intros t' l'. rewrite lookup_insert. destruct (decide (t = t')); [by intros [= <-]|]. by intros [_ ?]%t_expire_lookup.
Qed.

Lemma covers_temp name es : covers (temp name) es = bool_decide (name_elements name = es).
Proof.
  unfold covers. change (a_root (temp name)) with (name_elements (slashClean name)). rewrite name_elements_idem. apply orb_false_r.
Qed.

Section token_facts.
Context {LS R : Type} {system : LockSystem LS R} {laws : LockSystemLaws LS R} {tokens : TokenLaws LS R}.
Variable url_Parse : bytes -> option (bytes * bytes).
Variable clock : nat -> Z.
Variable Prefix : bytes.

Lemma lock_if_ok n s now name : ls_wf (Datatypes.S n) s -> exists s' r, lock_if s now name = Some (s', r) /\ ls_wf n s' /\
  match r with
  | inl e => e = (StatusLocked, Known ErrLocked) /\ busy (t_expire now (ls_table s)) name /\ ls_table s' = t_expire now (ls_table s)
  | inr t =>
      (name = [] -> t = [] /\ s' = s) /\ ~ busy (t_expire now (ls_table s)) name /\
      (name <> [] -> t <> [] /\ ls_table s !! t = None /\ ls_table s' = <[t := temp name]> (t_expire now (ls_table s)))
  end.
Proof.
  intros Hwf. unfold lock_if. case_bool_decide as Hn; [eexists s, _; split; [done|]; split; [by apply ls_wf_mono|]; split_and!; [done|by intros [? _]|done]|].
  unfold lock. destruct (ls_Create_law n s now (mkDetails name infiniteTimeout [] true) Hwf) as (s' & r & -> & Hwf' & Hr). cbn [mbind option_bind].
  eexists s', _. split; [done|]. split; [done|]. cbv zeta in Hr. cbn [ld_Root set_Root ld_ZeroDepth ld_Duration] in Hr.
  assert (map_Exists (fun _ l => conflict (name_elements name) true l) (t_expire now (ls_table s)) <-> busy (t_expire now (ls_table s)) name) as Hb.
  { unfold busy. split; [intros (t & l & E & Hc%conflict_covers_zero); split; [done|]; by exists t, l|]. intros (_ & t & l & E & Hc). exists t, l.
    split; [done|]. by apply conflict_covers_zero. }
  destruct r as [e|t].
  - destruct Hr as (-> & Hblock & HT). split; [done|]. split; [by apply Hb|done].
  - destruct Hr as (Hne & Hfresh & Hblock & HT). split; [done|]. split; [by rewrite <- Hb|done].
Qed.

Lemma Unlock_if_temp n s now t name T : ls_wf n s -> t <> [] -> T !! t = None -> ls_table s = <[t := temp name]> (t_expire now T) ->
  exists s', Unlock_if s now t = Some s' /\ ls_wf n s' /\ ls_table s' = t_expire now T.
Proof.
  intros Hwf Hne Hf HT. unfold Unlock_if. rewrite bool_decide_eq_false_2 by done. destruct (ls_Unlock_law n s now t Hwf) as (s' & r & -> & Hwf' & Ht & _).
  cbn [mbind option_bind]. exists s'. split; [done|]. split; [done|]. rewrite Ht, HT. unfold t_unlock. rewrite expire_temp, lookup_insert_eq. cbn.
  rewrite delete_insert_id; [done|]. destruct (t_expire now T !! t) as [l|] eqn:E; [|done]. apply t_expire_lookup in E as [E _]. congruence.
Qed.

(** Without an If header, [confirmLocks] fails (423) exactly when another lock
    covers the source or the destination, or the two are the same resource; the table
    then only lost expired locks.  Otherwise both are covered by temporary locks until
    the release function is called, which leaves the table as if nothing had happened. *)
Theorem confirmLocks_unconditional (n : nat) (s : LS) (r : request) (src dst : bytes) (Hwf : ls_wf (Datatypes.S (Datatypes.S n)) s) (Hif : rq_If r = []) :
  let T := t_expire (clock O) (ls_table s) in
  exists s' res, confirmLocks url_Parse clock Prefix s r src dst = Some (s', res) /\ ls_wf n s' /\
  match res with
  | inl e => e = (StatusLocked, LockError (Known ErrLocked)) /\ ls_table s' = T /\
      (busy T src \/ busy T dst \/ (src <> [] /\ dst <> [] /\ name_elements src = name_elements dst))
  | inr rel => ~ busy T src /\ ~ busy T dst /\ (src <> [] -> dst <> [] -> name_elements src <> name_elements dst) /\
      (forall name, name = src \/ name = dst -> name <> [] -> busy (ls_table s') name) /\
      exists s'', call_release s' rel = Some s'' /\ ls_wf n s'' /\ (src <> [] \/ dst <> [] -> ls_table s'' = T)
  end.
Proof.
  intros T. unfold confirmLocks. rewrite bool_decide_eq_true_2 by done. cbv zeta.
  destruct (lock_if_ok (Datatypes.S n) s (clock O) src Hwf) as (s1 & r1 & -> & Hwf1 & H1). cbn [mbind option_bind]. fold T in H1.
  destruct r1 as [e|t1].
  { destruct H1 as (-> & Hbusy & HT). eexists s1, _. split; [done|]. split; [by apply ls_wf_mono|]. split_and!; [done|done|by left]. }
  destruct H1 as (H1e & H1b & H1n). destruct (lock_if_ok n s1 (clock O) dst Hwf1) as (s2 & r2 & -> & Hwf2 & H2). cbn [mbind option_bind].
  destruct (decide (src = [])) as [Es|Hs].
  - destruct (H1e Es) as [-> ->]. fold T in H2. destruct r2 as [e|t2].
    + destruct H2 as (-> & Hbusy & HT). eexists s2, _. split; [done|]. split; [done|]. split_and!; [done|done|by right; left].
    + destruct H2 as (H2e & H2b & H2n). eexists s2, _. split; [done|]. split; [done|]. split; [done|]. split; [done|]. split; [done|].
      destruct (decide (dst = [])) as [Ed|Hd].
      * destruct (H2e Ed) as [-> ->]. split; [intros name [->| ->]; done|]. exists s. split; [done|]. split; [done|]. by intros [|].
      * destruct (H2n Hd) as (Ht2 & Hf2 & HT2). split.
        { intros name [->| ->]; [done|]. intros _. split; [done|]. exists t2, (temp dst). rewrite HT2. split; [apply lookup_insert_eq|].
          rewrite covers_temp. by apply bool_decide_eq_true. }
        destruct (Unlock_if_temp n s2 (clock O) t2 dst (ls_table s) Hwf2 Ht2 Hf2 HT2) as (s3 & E3 & Hwf3 & HT3).
        exists s3. cbn [call_release]. rewrite E3. by split_and!.
  - destruct (H1n Hs) as (Ht1 & Hf1 & HT1). pose proof (expire_temp (clock O) (ls_table s) t1 src) as Hexp1. fold T in Hexp1. rewrite <- HT1 in Hexp1. rewrite Hexp1 in H2.
    assert (forall name, busy (ls_table s1) name <-> busy T name \/ (name <> [] /\ name_elements src = name_elements name)) as Hbusy1.
    { intros name. unfold busy. rewrite HT1. split.
      - intros (Hne & t & l & E & Hc). rewrite lookup_insert in E. destruct (decide (t1 = t)) as [<-|].
        + injection E as <-. rewrite covers_temp in Hc. right. split; [done|]. by apply bool_decide_eq_true in Hc.
        + left. split; [done|]. by exists t, l.
      - intros [(Hne & t & l & E & Hc)|[Hne Ee]]; (split; [done|]).
        + exists t, l. split; [|done]. rewrite lookup_insert_ne; [done|]. intros <-. apply t_expire_lookup in E as [E _]. congruence.
        + exists t1, (temp src). split; [apply lookup_insert_eq|]. rewrite covers_temp. by apply bool_decide_eq_true. }
    destruct r2 as [e|t2].
    + destruct H2 as (-> & Hbusy & HT2).
      destruct (Unlock_if_temp n s2 (clock O) t1 src (ls_table s) Hwf2 Ht1 Hf1) as (s3 & -> & Hwf3 & HT3); [by rewrite HT2|].
      cbn [mbind option_bind]. eexists s3, _. split; [done|]. split; [done|]. split; [done|]. split; [done|]. right.
      apply Hbusy1 in Hbusy as Hb. destruct Hb as [Hb|[Hne Ee]]; [by left|by right].
    + destruct H2 as (H2e & H2b & H2n). eexists s2, _. split; [done|]. split; [done|]. split; [done|]. rewrite Hbusy1 in H2b.
      split; [tauto|]. split; [intros _ Hd Ee; apply H2b; by right|]. destruct (decide (dst = [])) as [Ed|Hd].
      * destruct (H2e Ed) as [-> ->]. split.
        { intros name [->| ->]; [|done]. intros _. apply Hbusy1. by right. }
        destruct (Unlock_if_temp n s1 (clock O) t1 src (ls_table s) Hwf2 Ht1 Hf1 HT1) as (s3 & E3 & Hwf3 & HT3). exists s3.
        cbn [call_release]. change (Unlock_if s1 (clock O) []) with (Some s1). cbn [mbind option_bind]. by rewrite E3.
      * destruct (H2n Hd) as (Ht2 & Hf2 & HT2). assert (t1 <> t2) as Hne by (intros ->; rewrite HT1, lookup_insert_eq in Hf2; done).
        split.
        { intros name Hname Hnn. split; [done|]. rewrite HT2. destruct Hname as [->| ->].
          - exists t1, (temp src). rewrite lookup_insert_ne, HT1, lookup_insert_eq by done. split; [done|]. rewrite covers_temp. by apply bool_decide_eq_true.
          - exists t2, (temp dst). rewrite lookup_insert_eq. split; [done|]. rewrite covers_temp. by apply bool_decide_eq_true. }
        destruct (Unlock_if_temp n s2 (clock O) t2 dst (ls_table s1) Hwf2 Ht2 Hf2) as (s3 & E3 & Hwf3 & HT3); [by rewrite Hexp1|].
        rewrite Hexp1 in HT3. destruct (Unlock_if_temp n s3 (clock O) t1 src (ls_table s) Hwf3 Ht1 Hf1) as (s4 & E4 & Hwf4 & HT4); [by rewrite HT3|].
        exists s4. cbn [call_release]. rewrite E3. cbn [mbind option_bind]. rewrite E4. by split_and!.
Qed.

End token_facts.

(** ** Locks with an If header *)
Section handler_facts.
Context {LS R : Type} {system : LockSystem LS R} {laws : LockSystemLaws LS R}.
Variable url_Parse : bytes -> option (bytes * bytes).
Variable clock : nat -> Z.
Variable Prefix : bytes.

(** The name that a list of the header is about. *)
Definition list_name (r : request) (src : bytes) (l : ifList) (name : bytes) : Prop :=
  (resourceTag l = [] /\ name = src) \/
  (resourceTag l <> [] /\ exists path st, url_Parse (resourceTag l) = Some (rq_Host r, path) /\ stripPrefix Prefix path = (name, st, None)).

(** Held, named by a condition and covering the name. *)
Definition claimed (T : table) (cs : list Condition) (name : bytes) : Prop :=
  name = [] \/ exists c k, c ∈ cs /\ T !! c_Token c = Some k /\ a_held k = true /\ covers k (name_elements name) = true.

Lemma t_lookup_claim T es cs t : t_lookup T es cs = Some t ->
  exists c l, c ∈ cs /\ c_Token c = t /\ T !! t = Some l /\ a_held l = false /\ covers l es = true.
Proof.
  induction cs as [|c cs IH]; [done|]. cbn. intros E. destruct (T !! c_Token c) as [l|] eqn:El; [destruct (negb (a_held l) && covers l es) eqn:Hc|].
  - injection E as <-. apply andb_true_iff in Hc as [Hh%negb_true_iff Hc]. exists c, l. split_and!; [by left|done..].
  - destruct (IH E) as (c' & l' & Hin & H'). exists c', l'. split; [by right|done].
  - destruct (IH E) as (c' & l' & Hin & H'). exists c', l'. split; [by right|done].
Qed.

Lemma set_held_claim T k t l : T !! t = Some l -> k = Some t \/ a_held l = true ->
  exists l', t_set_held true T k !! t = Some l' /\ a_held l' = true /\ a_details l' = a_details l.
Proof.
  intros E H'. destruct k as [k|]; cbn; [|exists l; destruct H' as [|]; done]. destruct (decide (k = t)) as [->|Hne].
  - rewrite lookup_alter_eq, E. by eexists.
  - rewrite lookup_alter_ne by done. exists l. destruct H' as [[= ->]|]; done.
Qed.

Lemma t_confirm_claims T now n0 n1 cs T' k : t_confirm T now n0 n1 cs = (T', inr k) -> claimed T' cs n0 /\ claimed T' cs n1.
Proof.
  unfold t_confirm, t_lookup_name. set (Te := t_expire now T).
  assert (forall l l' es, a_details l' = a_details l -> covers l' es = covers l es) as Hcov by (intros l l' es E; unfold covers, a_root, a_zero; by rewrite E).
  assert (forall t0 t1 es t, t_lookup Te es cs = Some t -> Some t = t0 \/ Some t = t1 ->
    exists c k, c ∈ cs /\ t_set_held true (t_set_held true Te t0) t1 !! c_Token c = Some k /\ a_held k = true /\ covers k es = true) as Hclaim.
  { intros t0 t1 es t El Ht. apply t_lookup_claim in El as (c & l & Hin & <- & El & Hh & Hc). exists c. destruct Ht as [<-|<-].
    - destruct (set_held_claim Te (Some (c_Token c)) _ _ El) as (l1 & E1 & H1 & D1); [by left|].
      destruct (set_held_claim _ t1 _ _ E1) as (l2 & E2 & H2 & D2); [by right|]. exists l2. split_and!; [done..|]. by rewrite (Hcov l) by congruence.
    - assert (exists l1, t_set_held true Te t0 !! c_Token c = Some l1 /\ a_details l1 = a_details l) as (l1 & E1 & D1).
      { destruct t0 as [t0|]; cbn; [|by exists l]. destruct (decide (t0 = c_Token c)) as [->|]; [rewrite lookup_alter_eq, El; by eexists|].
        rewrite lookup_alter_ne by done. by exists l. }
      destruct (set_held_claim _ (Some (c_Token c)) _ _ E1) as (l2 & E2 & H2 & D2); [by left|]. exists l2. split_and!; [done..|]. by rewrite (Hcov l) by congruence. }
  destruct (decide (n0 = [])) as [E0|E0], (decide (n1 = [])) as [E1|E1].
  - intros _. split; by left.
  - rewrite bool_decide_eq_true_2, bool_decide_eq_false_2 by done. destruct (t_lookup Te (name_elements n1) cs) as [t1|] eqn:El1; [|done].
    cbn [bool_decide]. rewrite bool_decide_eq_false_2 by done. intros [= <- _]. split; [by left|]. right. apply (Hclaim None (Some t1) _ t1 El1). by right.
  - rewrite bool_decide_eq_false_2, bool_decide_eq_true_2 by done. destruct (t_lookup Te (name_elements n0) cs) as [t0|] eqn:El0; [|done].
    rewrite bool_decide_eq_false_2 by done. intros [= <- _]. split; [|by left]. right. apply (Hclaim (Some t0) None _ t0 El0). by left.
  - rewrite !bool_decide_eq_false_2 by done. destruct (t_lookup Te (name_elements n0) cs) as [t0|] eqn:El0; [|done].
    destruct (t_lookup Te (name_elements n1) cs) as [t1|] eqn:El1; [|done]. case_bool_decide as Eq; intros [= <- _]; split; right.
    + apply (Hclaim (Some t0) None _ t0 El0). by left.
    + apply (Hclaim (Some t0) None _ t1 El1). by left.
    + apply (Hclaim (Some t0) (Some t1) _ t0 El0). by left.
    + apply (Hclaim (Some t0) (Some t1) _ t1 El1). by right.
Qed.

(** A list whose confirmation fails with another error. *)
Definition other_error (e : Z * h_error) : Prop :=
  ls_other /\ exists e', e = (StatusInternalServerError, LockError e') /\ e' <> Known ErrConfirmationFailed.

Lemma confirmLists_ok n r src dst lists : forall i s, ls_wf n s ->
  exists s' res, confirmLists url_Parse clock Prefix i s r src dst lists = Some (s', res) /\ ls_wf n s' /\
  match res with
  | inl e => same_held (ls_table s) (ls_table s') /\ (e = (StatusPreconditionFailed, LockError (Known ErrLocked)) \/ e = (StatusNotFound, errPrefixMismatch) \/ other_error e)
  | inr rel => exists l name x k, l ∈ lists /\ list_name r src l name /\ rel = Confirmed x /\ ls_ticket s' x k /\
      claimed (ls_table s') (conditions l) name /\ claimed (ls_table s') (conditions l) dst
  end.
Proof.
  induction lists as [|l lists IH]; intros i s Hwf; cbn [confirmLists].
  { eexists s, _. split; [done|]. split; [done|]. split; [done|by left]. }
  assert (forall name, list_name r src l name -> exists s' res,
    ('(s, c) ← ls_Confirm s (clock i) name dst (conditions l);
     match c with
     | inl (Known ErrConfirmationFailed) => confirmLists url_Parse clock Prefix (Datatypes.S i) s r src dst lists
     | inl e => Some (s, inl (StatusInternalServerError, LockError e))
     | inr release => Some (s, inr (Confirmed release))
     end) = Some (s', res) /\ ls_wf n s' /\
    match res with
    | inl e => same_held (ls_table s) (ls_table s') /\ (e = (StatusPreconditionFailed, LockError (Known ErrLocked)) \/ e = (StatusNotFound, errPrefixMismatch) \/ other_error e)
    | inr rel => exists l' name x k, l' ∈ l :: lists /\ list_name r src l' name /\ rel = Confirmed x /\ ls_ticket s' x k /\
        claimed (ls_table s') (conditions l') name /\ claimed (ls_table s') (conditions l') dst
    end) as Hconfirm.
  { intros name Hname. destruct (ls_Confirm_law n s (clock i) name dst (conditions l) Hwf) as (s1 & c & -> & Hwf1 & Hc). cbn [mbind option_bind].
    destruct (t_confirm (ls_table s) (clock i) name dst (conditions l)) as [T' o] eqn:E. destruct c as [e'|x]; [destruct (decide (e' = Known ErrConfirmationFailed)) as [->|Hne]|].
    - destruct Hc as [-> HT]. apply t_confirm_error in E as [_ ->]. destruct (IH (Datatypes.S i) s1 Hwf1) as (s' & res & -> & Hwf' & Hres).
      exists s', res. split; [done|]. split; [done|]. destruct res as [e|rel].
      + destruct Hres as [Hs He]. split; [|done]. apply same_held_trans with (ls_table s1); [rewrite HT; apply expire_held|done].
      + destruct Hres as (l' & nm & x & k & Hin & Hrest). exists l', nm, x, k. split; [by right|done].
    - assert (ls_other /\ same_held (ls_table s) (ls_table s1)) as [Hoth Hs] by (by destruct e' as [[]|]).
      exists s1, (inl (StatusInternalServerError, LockError e')). split; [by destruct e' as [[]|]|]. split; [done|]. split; [done|]. right. right. split; [done|]. by exists e'.
    - destruct Hc as (HT & k & -> & Hk). apply t_confirm_claims in E as [C0 C1]. rewrite <- HT in C0, C1. eexists s1, _. split; [done|]. split; [done|]. exists l, name, x, k.
      split; [by left|]. by split_and!. }
  assert (exists s' res, confirmLists url_Parse clock Prefix i s r src dst lists = Some (s', res) /\ ls_wf n s' /\
    match res with
    | inl e => same_held (ls_table s) (ls_table s') /\ (e = (StatusPreconditionFailed, LockError (Known ErrLocked)) \/ e = (StatusNotFound, errPrefixMismatch) \/ other_error e)
    | inr rel => exists l' name x k, l' ∈ l :: lists /\ list_name r src l' name /\ rel = Confirmed x /\ ls_ticket s' x k /\
        claimed (ls_table s') (conditions l') name /\ claimed (ls_table s') (conditions l') dst
    end) as Hskip.
  { destruct (IH i s Hwf) as (s' & res & E & Hwf' & Hres). exists s', res. split; [done|]. split; [done|]. destruct res as [e|rel]; [done|].
    destruct Hres as (l' & nm & x & k & Hin & Hrest). exists l', nm, x, k. split; [by right|done]. }
  case_bool_decide as Etag; [by apply Hconfirm; left|]. destruct (url_Parse (resourceTag l)) as [[host path]|] eqn:Eurl; [|done].
  case_bool_decide as Ehost; cbn [negb]; [|done]. subst host. destruct (stripPrefix Prefix path) as [[name st] [e|]] eqn:Ep; cbn [fst snd].
  - eexists s, _. split; [done|]. split; [done|]. split; [done|]. right. left. unfold stripPrefix in Ep.
    destruct (bool_decide (Prefix = [])); [discriminate|]. destruct (_ <? _)%nat; [discriminate|]. by injection Ep as _ <- <-.
  - apply Hconfirm. right. split; [done|]. by exists path, st.
Qed.

(** C31: with an If header, [confirmLocks] returns; it fails with 400 exactly when the
    header is malformed, otherwise with 412 (no list holds) or 404, or with 500 for another
    error of a lock system that has some (the one in memory has none), holding nothing; or
    it succeeds with a list of the header: the list's resource and the destination are
    each covered by a lock that is now held and whose token the list names. *)
Theorem confirmLocks_conditional (n : nat) (s : LS) (r : request) (src dst : bytes) (Hwf : ls_wf n s) (Hif : rq_If r <> []) :
  exists s' res, confirmLocks url_Parse clock Prefix s r src dst = Some (s', res) /\ ls_wf n s' /\
  match res with
  | inl (status, e) =>
      same_held (ls_table s) (ls_table s') /\
      ((status = StatusBadRequest /\ e = errInvalidIfHeader /\ parseIfHeader (rq_If r) = Some None) \/
       parseIfHeader (rq_If r) <> Some None /\
       ((status = StatusPreconditionFailed /\ e = LockError (Known ErrLocked)) \/ (status = StatusNotFound /\ e = errPrefixMismatch) \/
        (ls_other /\ status = StatusInternalServerError /\ exists e', e = LockError e' /\ e' <> Known ErrConfirmationFailed)))
  | inr rel => exists lists l name x k, parseIfHeader (rq_If r) = Some (Some lists) /\ l ∈ lists /\ list_name r src l name /\
      rel = Confirmed x /\ ls_ticket s' x k /\ claimed (ls_table s') (conditions l) name /\ claimed (ls_table s') (conditions l) dst
  end.
Proof.
  unfold confirmLocks. rewrite bool_decide_eq_false_2 by done.
  assert (exists p, parseIfHeader (rq_If r) = Some p) as [p Ep].
  { destruct (gheader_total (rq_If r)) as [->|[h Hh]]; [by eexists|]. eexists. by apply gheader_complete. }
  rewrite Ep. cbn [mbind option_bind]. destruct p as [lists|].
  - destruct (confirmLists_ok n r src dst lists O s Hwf) as (s' & res & -> & Hwf' & Hres). exists s', res. split; [done|]. split; [done|].
    destruct res as [[st e]|rel].
    + destruct Hres as [Hs He]. split; [done|]. right. split; [done|]. destruct He as [[= -> ->]|[[= -> ->]|(Ho & e' & [= -> ->] & Hne)]]; [by left|by right; left|right; right]. split; [done|]. split; [done|]. by exists e'.
    + destruct Hres as (l & name & x & k & H'). by exists lists, l, name, x, k.
  - eexists s, _. split; [done|]. split; [done|]. split; [done|]. left. by split_and!.
Qed.

(** A header whose lists all have resource tags takes the place of the source: the
    outcome does not depend on the source at all, whoever has locked it. *)
Theorem tagged_header_ignores_source (s : LS) (r : request) (src src' dst : bytes) (lists : ifHeader)
  (Hparse : parseIfHeader (rq_If r) = Some (Some lists)) (Htag : Forall (fun l => resourceTag l <> []) lists) (Hif : rq_If r <> []) :
  confirmLocks url_Parse clock Prefix s r src dst = confirmLocks url_Parse clock Prefix s r src' dst.
Proof.
  unfold confirmLocks. rewrite bool_decide_eq_false_2, Hparse by done. cbn [mbind option_bind]. clear Hparse. generalize O as i.
  revert s. induction Htag as [|l lists Hl _ IH]; intros s i; [done|]. cbn [confirmLists]. rewrite bool_decide_eq_false_2 by done.
  destruct (url_Parse (resourceTag l)) as [[host path]|]; [|apply IH]. case_bool_decide; cbn [negb]; [|apply IH].
  destruct (stripPrefix Prefix path) as [[name st] [e|]]; [done|]. destruct (ls_Confirm s (clock i) name dst (conditions l)) as [[s1 c]|]; [|done].
  cbn [mbind option_bind]. destruct c as [[[]|]|x]; done.
Qed.
End handler_facts.

(** ** Examples *)
Definition sample_url (u : bytes) : option (bytes * bytes) :=
  if HasPrefix u (str "http://h") then Some (str "h", drop 8 u) else None.

(** Locks 1 of one client on /a/b and 2 of another on /c. *)
Definition sample_locks : list call :=
  [CCreate 0 (mkDetails (str "/a/b") (-1) [] false); CCreate 0 (mkDetails (str "/c") 60 [] true)].

Definition sample_state : memLS := match runs (NewMemLS 0, []) sample_locks with Some ((m, _), _) => m | None => NewMemLS 0 end.

Lemma sample_wf n : Z.of_nat n < 2 ^ 63 -> mem_wf n sample_state.
Proof.
  intros Hn. destruct (runs_sim (u64 0) sample_locks 0 _ _ (init_sim 0) (init_tok 0) ltac:(lia) ltac:(vm_compute; done)) as ([m rs] & E & Hs & Ht).
  assert (sample_state = m) as -> by (unfold sample_state; by rewrite E). destruct (truns (tinit 0) sample_locks).1 as [[T gen] ks].
  destruct Hs as (Hm & <- & <- & _). destruct Ht as (He & _ & _ & Hf). split; [done|]. split; [done|]. exists (u64 0), (0 + zlen sample_locks).
  split; [done|]. split; [|done]. change (0 + zlen sample_locks) with 2. lia.
Qed.

(** DELETE of /a, below which another client has a lock: nothing stands in the way. *)
Lemma confirmLocks_unconditional_witness :
  let r := mkRequest (str "h") [] [] in
  mem_wf 5 sample_state /\ (exists s' rel, confirmLocks sample_url (fun _ => 1) [] sample_state r (str "/a") [] = Some (s', inr rel)) /\
  exists s' res, confirmLocks sample_url (fun _ => 1) [] sample_state r (str "/a") [] = Some (s', res) /\ mem_wf 3 s' /\
    (forall rel, res = inr rel -> exists s'', call_release s' rel = Some s'' /\ table_of s'' = t_expire 1 (table_of sample_state)).
Proof.
  intros r. split; [by apply sample_wf|]. split; [do 2 eexists; vm_compute; reflexivity|].
  pose proof (confirmLocks_unconditional (LS := memLS) (R := release) sample_url (fun _ => 1) [] 3 sample_state r (str "/a") []) as Hc.
  destruct (Hc (sample_wf 5 eq_refl) eq_refl) as (s' & res & E & Hwf & Hres).
  exists s', res. split; [exact E|]. split; [exact Hwf|]. intros rel ->. destruct Hres as (_ & _ & _ & _ & s'' & Er & _ & HT).
  exists s''. split; [exact Er|]. apply HT. by left.
Defined.

Lemma confirmLocks_conditional_witness :
  let r := mkRequest (str "h") (str "(<9>) (<1>)") [] in
  mem_wf 5 sample_state /\ rq_If r <> [] /\
  exists s' res, confirmLocks sample_url (fun _ => 1) [] sample_state r (str "/a/b/c") [] = Some (s', res) /\ mem_wf 5 s' /\ exists x, res = inr (Confirmed x).
Proof.
  intros r. assert (rq_If r <> []) as Hif by discriminate. split; [by apply sample_wf|]. split; [exact Hif|].
  assert (exists s' x, confirmLocks sample_url (fun _ => 1) [] sample_state r (str "/a/b/c") [] = Some (s', inr (Confirmed x))) as (s1 & x & E1)
    by (do 2 eexists; vm_compute; reflexivity).
  pose proof (confirmLocks_conditional (LS := memLS) (R := release) sample_url (fun _ => 1) [] 5 sample_state r (str "/a/b/c") []) as Hc.
  destruct (Hc (sample_wf 5 eq_refl) Hif) as (s' & res & E & Hwf & _).
  exists s', res. split; [exact E|]. split; [exact Hwf|]. rewrite E in E1. injection E1 as _ ->. by exists x.
Defined.

(** The client of lock 2 passes for /a/b, which lock 1 covers. *)
Lemma tagged_header_ignores_source_witness :
  let r := mkRequest (str "h") (str "<http://h/c> (<2>)") [] in
  (exists t l, table_of sample_state !! t = Some l /\ covers l (name_elements (str "/a/b")) = true /\ a_held l = false) /\
  confirmLocks sample_url (fun _ => 1) [] sample_state r (str "/a/b") [] = confirmLocks sample_url (fun _ => 1) [] sample_state r (str "/c") [] /\
  exists s' x, confirmLocks sample_url (fun _ => 1) [] sample_state r (str "/c") [] = Some (s', inr (Confirmed x)).
Proof.
  intros r. split; [exists (str "1"); eexists; split; [vm_compute; reflexivity|split; vm_compute; reflexivity]|]. split.
  - apply (tagged_header_ignores_source sample_url (fun _ => 1) [] sample_state r (str "/a/b") (str "/c") [] [mkIfList (str "http://h/c") [mkCondition false (str "2") []]]).
    + vm_compute. reflexivity.
    + apply List.Forall_cons; [discriminate|apply List.Forall_nil].
    + discriminate.
  - do 2 eexists. vm_compute. reflexivity.
Defined.
