(* ===== verification/Websocket.v ===== *)
(** * Package websocket: frames and connections

    Models src/websocket/hybi.go (reading and writing of frames, the frame handler) and
    [Conn] and [Codec] of src/websocket/websocket.go.  What is written goes through
    [bufio.Writer] of Bufio.v over any connection; what is read comes from a source of
    bytes that returns as many at a time as it likes ([chunk]).  [rand.Reader] is the
    parameter [randomKey]. *)

From S2P Require Import Prelude Bufio.

Definition ContinuationFrame : Z := 0.
Definition TextFrame : Z := 1.
Definition BinaryFrame : Z := 2.
Definition CloseFrame : Z := 8.
Definition PingFrame : Z := 9.
Definition PongFrame : Z := 10.
Definition UnknownFrame : Z := 255.
Definition DefaultMaxPayloadBytes : Z := Z.shiftl 32 20.
Definition closeStatusNormal : Z := 1000.
Definition closeStatusProtocolError : Z := 1002.
Definition maxControlFramePayloadLength : Z := 125.

(** The error of the connection below is [errWs n]. *)
Inductive ws_error := wsEOF | ErrFrameTooLarge | ErrBadMaskingKey | ErrNotSupported | errShortWrite | errWs (n : Z).

#[export] Instance ws_error_eq_dec : EqDecision ws_error.
Proof. solve_decision. Defined.

(** ** Frames *)
Record hybiFrameHeader := mkHeader {
  hh_Fin : bool;
  hh_Rsv : list bool;                     (* three *)
  hh_OpCode : Z;                          (* byte *)
  hh_Length : Z;                          (* int64 *)
  hh_MaskingKey : option bytes;           (* nil, or four bytes *)
  hh_data : bytes
}.

(** With the limit [N] of its [io.LimitedReader]. *)
Record hybiFrameReader := mkReader {
  fr_header : hybiFrameHeader;
  fr_N : Z;
  fr_pos : Z;                             (* int64 *)
  fr_length : Z
}.

Definition HeaderReader (f : hybiFrameReader) : option bytes :=
  match hh_data (fr_header f) with [] => None | d => Some d end.

(** The bytes of [msg], of which the first is at [pos] of the payload. *)
Fixpoint mask (key : bytes) (pos : Z) (msg : bytes) : bytes :=
  match msg with
  | [] => []
  | b :: msg => Z.lxor b (nth (Z.to_nat (pos mod 4)) key 0) :: mask key (pos + 1) msg
  end.

Definition unmasked (key : option bytes) (pos : Z) (msg : bytes) : bytes :=
  match key with Some key => mask key pos msg | None => msg end.

(** ** The source of a connection *)
Record source := mkSource {
  src_in : bytes;
  src_reads : nat
}.

Section ws.
Context {K : Type} (connWrite : K -> bytes -> K * (Z * option ws_error)) (chunk : nat -> nat) (randomKey : nat -> ws_error + bytes).

(** [bufio.Reader.Read] into [n] bytes. *)
Definition src_Read (n : Z) (s : source) : source * (bytes * option ws_error) :=
  if n =? 0 then (s, ([], None))
  else
    match src_in s with
    | [] => (s, ([], Some wsEOF))
    | _ =>
        let k := Nat.min (Z.to_nat n) (S (chunk (src_reads s))) in
        (mkSource (drop k (src_in s)) (S (src_reads s)), (take k (src_in s), None))
    end.

(** [k] calls of [ReadByte]; one that fails has read all. *)
Definition readBytes (k : nat) (s : source) : source * option bytes :=
  if (length (src_in s) <? k)%nat then (mkSource [] (src_reads s), None)
  else (mkSource (drop k (src_in s)) (src_reads s), Some (take k (src_in s))).

Definition hybi_Read (n : Z) (f : hybiFrameReader) (s : source) : hybiFrameReader * source * (bytes * option ws_error) :=
  if fr_N f <=? 0 then (f, s, ([], Some wsEOF))
  else
    let '(s, (d, err)) := src_Read (Z.min n (fr_N f)) s in
    let pos := match hh_MaskingKey (fr_header f) with Some _ => fr_pos f + zlen d | None => fr_pos f end in
    (mkReader (fr_header f) (fr_N f - zlen d) pos (fr_length f), s, (unmasked (hh_MaskingKey (fr_header f)) (fr_pos f) d, err)).

(** ** Reading a header *)
Definition lengthOf (mask8 : bool) (l : bytes) : bytes * Z :=
  let l := match l with b :: l' => (if mask8 then Z.land b 127 else b) :: l' | [] => [] end in
  (l, fold_left (fun len b => swrap 64 (len * 256 + b)) l 0).

Definition NewFrameReader (s : source) : source * option hybiFrameReader :=
  match readBytes 1 s with
  | (s, Some [b0]) =>
      let fin := negb (Z.land (Z.shiftr b0 7) 1 =? 0) in
      let rsv := map (fun i => negb (Z.land (Z.shiftr b0 (6 - i)) 1 =? 0)) [0; 1; 2] in
      let op := Z.land b0 15 in
      match readBytes 1 s with
      | (s, Some [b1]) =>
          let masked := negb (Z.land b1 128 =? 0) in
          let b := Z.land b1 127 in
          let lengthFields := if b <=? 125 then 0%nat else if b =? 126 then 2%nat else 8%nat in
          match readBytes lengthFields s with
          | (s, Some l) =>
              let '(l, len) := lengthOf (Nat.eqb lengthFields 8) l in
              let len := if b <=? 125 then b else len in
              match readBytes (if masked then 4%nat else 0%nat) s with
              | (s, Some key) =>
                  let header := [b0; b1] ++ l ++ key in
                  (s, Some (mkReader (mkHeader fin rsv op len (if masked then Some key else None) header) len 0
                              (swrap 64 (zlen header + len))))
              | (s, None) => (s, None)
              end
          | (s, None) => (s, None)
          end
      | (s, _) => (s, None)
      end
  | (s, _) => (s, None)
  end.

(** ** Readers to their end

    [ioutil.ReadAll], [io.Copy(ioutil.Discard, .)] and [io.ReadFull]: the only error of a
    frame is [io.EOF], and a [Read] that returns none has taken a byte. *)
Fixpoint readAll (fuel : nat) (f : hybiFrameReader) (s : source) (acc : bytes) : option (hybiFrameReader * source * bytes) :=
  let '(f, s, (d, err)) := hybi_Read 512 f s in
  match err with
  | Some _ => Some (f, s, acc ++ d)
  | None => match fuel with O => None | S fuel => readAll fuel f s (acc ++ d) end
  end.

Definition discard (fuel : nat) (f : hybiFrameReader) (s : source) : option (hybiFrameReader * source) :=
  '(f, s, _) ← readAll fuel f s []; Some (f, s).

Fixpoint readFull (fuel : nat) (n : Z) (f : hybiFrameReader) (s : source) (acc : bytes) : option (hybiFrameReader * source * bytes) :=
  if n <=? zlen acc then Some (f, s, acc)
  else
    let '(f, s, (d, err)) := hybi_Read (n - zlen acc) f s in
    match err with
    | Some _ => Some (f, s, acc ++ d)
    | None => match fuel with O => None | S fuel => readFull fuel n f s (acc ++ d) end
    end.

(** ** Writing a frame *)
Definition lengthBytes (lengthFields : nat) (length : Z) : bytes :=
  map (fun i => Z.land (Z.shiftr length (Z.of_nat ((lengthFields - i - 1) * 8))) 255) (seq 0 lengthFields).

(** The two first bytes and the length. *)
Definition writeHeaderBytes (h : hybiFrameHeader) (length : Z) : bytes :=
  let b := if hh_Fin h then 128 else 0 in
  let b := fold_left (fun b i => if nth (Z.to_nat i) (hh_Rsv h) false then Z.lor b (Z.shiftl 1 (6 - i)) else b) [0; 1; 2] b in
  let b0 := Z.lor b (hh_OpCode h) in
  let b := match hh_MaskingKey h with Some _ => 128 | None => 0 end in
  let '(b1, lengthFields) :=
    if length <=? 125 then (Z.lor b length, 0%nat)
    else if length <? 65536 then (Z.lor b 126, 2%nat)
    else (Z.lor b 127, 8%nat) in
  [b0; b1] ++ lengthBytes lengthFields length.

(** ** Connections *)
Record Conn := mkConn {
  c_server : bool;                        (* [request] is not nil *)
  c_src : source;                         (* [buf.Reader] *)
  c_k : K;                                (* the connection below, for writing *)
  c_bw : bufioWriter ws_error;            (* [buf.Writer] *)
  c_keys : nat;                           (* masking keys made *)
  c_frame : option hybiFrameReader;       (* [frameReader] *)
  c_handlerType : Z;                      (* [payloadType] of the frame handler *)
  c_PayloadType : Z;
  c_defaultCloseStatus : Z;
  c_MaxPayloadBytes : Z
}.

Definition set_frame (f : option hybiFrameReader) (c : Conn) : Conn :=
  mkConn (c_server c) (c_src c) (c_k c) (c_bw c) (c_keys c) f (c_handlerType c) (c_PayloadType c) (c_defaultCloseStatus c) (c_MaxPayloadBytes c).
Definition set_src (s : source) (c : Conn) : Conn :=
  mkConn (c_server c) s (c_k c) (c_bw c) (c_keys c) (c_frame c) (c_handlerType c) (c_PayloadType c) (c_defaultCloseStatus c) (c_MaxPayloadBytes c).
Definition set_out (k : K) (b : bufioWriter ws_error) (c : Conn) : Conn :=
  mkConn (c_server c) (c_src c) k b (c_keys c) (c_frame c) (c_handlerType c) (c_PayloadType c) (c_defaultCloseStatus c) (c_MaxPayloadBytes c).
Definition next_key (c : Conn) : Conn :=
  mkConn (c_server c) (c_src c) (c_k c) (c_bw c) (S (c_keys c)) (c_frame c) (c_handlerType c) (c_PayloadType c) (c_defaultCloseStatus c) (c_MaxPayloadBytes c).
Definition set_handlerType (t : Z) (c : Conn) : Conn :=
  mkConn (c_server c) (c_src c) (c_k c) (c_bw c) (c_keys c) (c_frame c) t (c_PayloadType c) (c_defaultCloseStatus c) (c_MaxPayloadBytes c).

Definition newHybiConn (server : bool) (s : source) (k : K) : Conn :=
  mkConn server s k (mkBufio [] None) 0%nat None 0 TextFrame closeStatusNormal 0.

Definition bufioSize : Z := 4096.
Abbreviation Write := (bufio_Write connWrite errShortWrite bufioSize 2).
Abbreviation Flush := (bufio_Flush connWrite errShortWrite).

(** A server's frames are not masked. *)
Definition NewFrameWriter (payloadType : Z) (c : Conn) : Conn * (ws_error + hybiFrameHeader) :=
  if c_server c then (c, inr (mkHeader true [false; false; false] payloadType 0 None []))
  else
    match randomKey (c_keys c) with
    | inl e => (next_key c, inl e)
    | inr key => (next_key c, inr (mkHeader true [false; false; false] payloadType 0 (Some key) []))
    end.

(** The errors of [bufio.Writer.Write] are dropped: they stay in the writer and [Flush]
    reports them. *)
Definition writeAll (header data : bytes) (c : Conn) : option (Conn * (Z * option ws_error)) :=
  '(k, b, _) ← Write (c_k c) (c_bw c) header;
  '(k, b, _) ← Write k b data;
  let '(k, b, err) := Flush k b in Some (set_out k b c, (zlen data, err)).

Definition hybi_Write (h : hybiFrameHeader) (msg : bytes) (c : Conn) : option (Conn * (Z * option ws_error)) :=
  let header := writeHeaderBytes h (zlen msg) in
  match hh_MaskingKey h with
  | Some key => if negb (zlen key =? 4) then Some (c, (0, Some ErrBadMaskingKey)) else writeAll (header ++ key) (mask key 0 msg) c
  | None => writeAll header msg c
  end.

(** A frame of one [payloadType]: [Conn.Write], [WritePong], [WriteClose] and [Send]. *)
Definition writeFrame (payloadType : Z) (msg : bytes) (c : Conn) : option (Conn * (Z * option ws_error)) :=
  match NewFrameWriter payloadType c with
  | (c, inl e) => Some (c, (0, Some e))
  | (c, inr h) => hybi_Write h msg c
  end.

Definition ws_Write (msg : bytes) (c : Conn) : option (Conn * (Z * option ws_error)) := writeFrame (c_PayloadType c) msg c.
Definition WritePong (msg : bytes) (c : Conn) : option (Conn * (Z * option ws_error)) := writeFrame PongFrame msg c.
Definition WriteClose (status : Z) (c : Conn) : option (Conn * option ws_error) :=
  '(c, (_, err)) ← writeFrame CloseFrame (lengthBytes 2 (u16 status)) c; Some (c, err).

(** ** The frame handler *)

(** What [HandleFrame] does with a frame that is masked as it must be; [inr None] says that
    the frame was dealt with. *)
Definition handlePayload (f : hybiFrameReader) (c : Conn) : option (Conn * (ws_error + option hybiFrameReader)) :=
  let op := hh_OpCode (fr_header f) in
  if op =? ContinuationFrame then
    let h := fr_header f in
    Some (c, inr (Some (mkReader (mkHeader (hh_Fin h) (hh_Rsv h) (c_handlerType c) (hh_Length h) (hh_MaskingKey h) [])
                                 (fr_N f) (fr_pos f) (fr_length f))))
  else if (op =? TextFrame) || (op =? BinaryFrame) then Some (set_handlerType op c, inr (Some f))
  else if op =? CloseFrame then Some (c, inl wsEOF)
  else if (op =? PingFrame) || (op =? PongFrame) then
    '(f, s, b) ← readFull (S (length (src_in (c_src c)))) maxControlFramePayloadLength f (c_src c) [];
    '(f, s) ← discard (S (length (src_in s))) f s;
    let c := set_src s c in
    if op =? PingFrame then
      '(c, (_, err)) ← WritePong b c;
      Some (c, match err with Some e => inl e | None => inr None end)
    else Some (c, inr None)
  else Some (c, inr (Some f)).

(** The bytes of the header are read and dropped first. *)
Definition HandleFrame (f : hybiFrameReader) (c : Conn) : option (Conn * (ws_error + option hybiFrameReader)) :=
  let masked := match hh_MaskingKey (fr_header f) with Some _ => true | None => false end in
  if negb (Bool.eqb masked (c_server c)) then
    '(c, _) ← WriteClose closeStatusProtocolError c; Some (c, inl wsEOF)
  else
    let h := fr_header f in
    handlePayload (mkReader (mkHeader (hh_Fin h) (hh_Rsv h) (hh_OpCode h) (hh_Length h) (hh_MaskingKey h) []) (fr_N f) (fr_pos f) (fr_length f)) c.

(** A new frame, until one is left to its reader.  A round reads at least two bytes. *)
Fixpoint nextFrame (fuel : nat) (c : Conn) : option (Conn * (ws_error + hybiFrameReader)) :=
  match NewFrameReader (c_src c) with
  | (s, None) => Some (set_src s c, inl wsEOF)
  | (s, Some f) =>
      '(c, r) ← HandleFrame f (set_src s c);
      match r with
      | inl e => Some (c, inl e)
      | inr (Some f) => Some (c, inr f)
      | inr None => match fuel with O => None | S fuel => nextFrame fuel c end
      end
  end.

(** ** Reading from a connection *)

(** A failed [HandleFrame] has assigned nil to [frameReader]. *)
Fixpoint ws_ReadLoop (fuel : nat) (n : Z) (c : Conn) : option (Conn * (bytes * option ws_error)) :=
  let open :=
    match c_frame c with
    | Some f => Some (c, inr f)
    | None => nextFrame (S (length (src_in (c_src c)))) c
    end in
  '(c, r) ← open;
  match r with
  | inl e => Some (set_frame None c, ([], Some e))
  | inr f =>
      let '(f, s, (d, err)) := hybi_Read n f (c_src c) in
      let c := set_src s c in
      match err with
      | Some wsEOF => match fuel with O => None | S fuel => ws_ReadLoop fuel n (set_frame None c) end
      | _ => Some (set_frame (Some f) c, (d, err))
      end
  end.

Definition ws_Read (n : Z) (c : Conn) : option (Conn * (bytes * option ws_error)) := ws_ReadLoop (S (length (src_in (c_src c)))) n c.

(** ** [Codec] with [Message] *)
Inductive value := VString (s : bytes) | VBytes (b : bytes) | VOther.

Definition marshal (v : value) : ws_error + bytes * Z :=
  match v with
  | VString s => inr (s, TextFrame)
  | VBytes b => inr (b, BinaryFrame)
  | VOther => inl ErrNotSupported
  end.

(** By the type of the pointer that is given. *)
Definition unmarshal (msg : bytes) (v : value) : ws_error + value :=
  match v with
  | VString _ => inr (VString msg)
  | VBytes _ => inr (VBytes msg)
  | VOther => inl ErrNotSupported
  end.

Definition Send (v : value) (c : Conn) : option (Conn * option ws_error) :=
  match marshal v with
  | inl e => Some (c, Some e)
  | inr (data, payloadType) => '(c, (_, err)) ← writeFrame payloadType data c; Some (c, err)
  end.

(** [inr]: the payload and its type, which [Unmarshal] is given. *)
Definition receive (c : Conn) : option (Conn * (ws_error + bytes * Z)) :=
  let drained :=
    match c_frame c with
    | Some f => '(_, s) ← discard (S (length (src_in (c_src c)))) f (c_src c); Some (set_frame None (set_src s c))
    | None => Some c
    end in
  c ← drained;
  '(c, r) ← nextFrame (S (length (src_in (c_src c)))) c;
  match r with
  | inl e => Some (c, inl e)
  | inr f =>
      let max := if c_MaxPayloadBytes c =? 0 then DefaultMaxPayloadBytes else c_MaxPayloadBytes c in
      if hh_Length (fr_header f) >? max then Some (set_frame (Some f) c, inl ErrFrameTooLarge)
      else
        '(f, s, data) ← readAll (S (length (src_in (c_src c)))) f (c_src c) [];
        Some (set_src s c, inr (data, hh_OpCode (fr_header f)))
  end.

Definition Receive (v : value) (c : Conn) : option (Conn * (ws_error + value)) :=
  '(c, r) ← receive c;
  Some (c, match r with inl e => inl e | inr (data, _) => unmarshal data v end).
End ws.
