(* ===== verification/WebsocketFrame.v ===== *)
(** * Package websocket: frames on the wire

    What [hybiFrameWriter.Write] writes is what [NewFrameReader] and the frame's [Read]
    read, however the bytes arrive. *)

From S2P Require Import Prelude Bufio Websocket.

(** ** Masking *)
Lemma mask_length key pos msg : length (mask key pos msg) = length msg.
Proof. revert pos. induction msg as [|b msg IH]; intros pos; [done|]. simpl. by rewrite IH. Qed.

Lemma mask_app key pos m1 m2 : mask key pos (m1 ++ m2) = mask key pos m1 ++ mask key (pos + zlen m1) m2.
Proof.
  revert pos. induction m1 as [|b m1 IH]; intros pos; simpl.
  - f_equal. change (zlen []) with 0. lia.
  - f_equal. rewrite IH, zlen_cons. do 2 f_equal. lia.
Qed.

Lemma mask_involutive key pos msg : mask key pos (mask key pos msg) = msg.
Proof. revert pos. induction msg as [|b msg IH]; intros pos; [done|]. simpl. by rewrite IH, Z.lxor_assoc, Z.lxor_nilpotent, Z.lxor_0_r. Qed.

Lemma mask_zlen key pos msg : zlen (mask key pos msg) = zlen msg.
Proof. unfold zlen. by rewrite mask_length. Qed.

Lemma unmasked_app key pos m1 m2 : unmasked key pos (m1 ++ m2) = unmasked key pos m1 ++ unmasked key (pos + zlen m1) m2.
Proof. destruct key; [apply mask_app|done]. Qed.

Lemma unmasked_zlen key pos msg : zlen (unmasked key pos msg) = zlen msg.
Proof. destruct key; [apply mask_zlen|done]. Qed.

Lemma unmasked_involutive key pos msg : unmasked key pos (unmasked key pos msg) = msg.
Proof. destruct key; [apply mask_involutive|done]. Qed.

(** ** Lengths *)
Lemma lengthBytes_S n x : 0 <= x -> lengthBytes (S n) x = lengthBytes n (x / 256) ++ [x mod 256].
Proof.
  intros Hx. unfold lengthBytes. rewrite seq_S, map_app. f_equal.
  - apply map_ext_in. intros i Hi%in_seq. f_equal. change 256 with (2 ^ 8). rewrite <- Z.shiftr_div_pow2, Z.shiftr_shiftr by lia. f_equal. lia.
  - simpl. replace (Z.of_nat ((S n - n - 1) * 8)) with 0 by lia. rewrite Z.shiftr_0_r. change 255 with (Z.ones 8). by rewrite Z.land_ones.
Qed.

Lemma lengthBytes_length n x : length (lengthBytes n x) = n.
Proof. unfold lengthBytes. by rewrite map_length, length_seq. Qed.

Lemma lengthBytes_value n x : 0 <= x < 256 ^ Z.of_nat n -> x < 2 ^ 63 -> fold_left (fun len b => swrap 64 (len * 256 + b)) (lengthBytes n x) 0 = x.
Proof.
  revert x. induction n as [|n IH]; intros x Hx H63; [simpl in *; lia|].
  rewrite lengthBytes_S, fold_left_app by lia. simpl fold_left. rewrite IH.
  - assert (x / 256 * 256 + x mod 256 = x) as -> by (pose proof (Z.div_mod x 256); lia). apply swrap_id; [lia|]. change (64 - 1) with 63. lia.
  - rewrite Nat2Z.inj_succ, Z.pow_succ_r in Hx by lia. split; [apply Z.div_pos; lia|apply Z.div_lt_upper_bound; lia].
  - apply Z.div_lt_upper_bound; lia.
Qed.

(** The first of eight bytes has its highest bit clear. *)
Lemma lengthBytes_top x : 0 <= x < 2 ^ 63 -> exists b l, lengthBytes 8 x = b :: l /\ Z.land b 127 = b.
Proof.
  intros Hx. exists (Z.land (Z.shiftr x 56) 255). eexists. split; [reflexivity|].
  rewrite <- Z.land_assoc. change (Z.land 255 127) with (Z.ones 7). change 255 with (Z.ones 8). rewrite !Z.land_ones, Z.shiftr_div_pow2 by lia.
  assert (0 <= x / 2 ^ 56 < 2 ^ 7) by (split; [apply Z.div_pos; lia|apply Z.div_lt_upper_bound; lia]).
  rewrite !Z.mod_small; lia.
Qed.

(** ** Headers *)
Definition key_ok (key : option bytes) : Prop := match key with Some key => length key = 4%nat | None => True end.

Definition outgoing (op : Z) (key : option bytes) : hybiFrameHeader := mkHeader true [false; false; false] op 0 key [].

Definition frame_bytes (op : Z) (key : option bytes) (msg : bytes) : bytes :=
  writeHeaderBytes (outgoing op key) (zlen msg) ++ default [] key ++ unmasked key 0 msg.

Lemma readBytes_app k a b n : length a = k -> readBytes k (mkSource (a ++ b) n) = (mkSource b n, Some a).
Proof.
  intros <-. unfold readBytes. cbn [src_in src_reads]. destruct (Nat.ltb_spec (length (a ++ b)) (length a)) as [H|_]; [rewrite length_app in H; lia|].
  by rewrite take_app_length, drop_app_length.
Qed.

Lemma readByte_cons b l n : readBytes 1 (mkSource (b :: l) n) = (mkSource l n, Some [b]).
Proof. exact (readBytes_app 1 [b] l n eq_refl). Qed.

(** The fields of a frame as it was written. *)
Definition incoming (op : Z) (key : option bytes) (msg : bytes) : hybiFrameReader :=
  let header := writeHeaderBytes (outgoing op key) (zlen msg) ++ default [] key in
  mkReader (mkHeader true [false; false; false] op (zlen msg) key header) (zlen msg) 0 (swrap 64 (zlen header + zlen msg)).

Lemma first_byte op : 0 <= op < 16 ->
  negb (Z.land (Z.shiftr (Z.lor 128 op) 7) 1 =? 0) = true /\
  map (fun i => negb (Z.land (Z.shiftr (Z.lor 128 op) (6 - i)) 1 =? 0)) [0; 1; 2] = [false; false; false] /\ Z.land (Z.lor 128 op) 15 = op.
Proof.
  intros H. pose (P := fun op : Z => negb (Z.land (Z.shiftr (Z.lor 128 op) 7) 1 =? 0) &&
    bool_decide (map (fun i => negb (Z.land (Z.shiftr (Z.lor 128 op) (6 - i)) 1 =? 0)) [0; 1; 2] = [false; false; false]) &&
    (Z.land (Z.lor 128 op) 15 =? op)).
  pose proof (forallb_range P 16 ltac:(vm_compute; reflexivity) op H) as E. unfold P in E. rewrite !andb_true_iff, bool_decide_eq_true, Z.eqb_eq in E. tauto.
Qed.

Lemma second_byte (m : bool) n : 0 <= n < 128 ->
  negb (Z.land (Z.lor (if m then 128 else 0) n) 128 =? 0) = m /\ Z.land (Z.lor (if m then 128 else 0) n) 127 = n.
Proof.
  intros H. pose proof (forallb_range (fun n => Bool.eqb (negb (Z.land (Z.lor (if m then 128 else 0) n) 128 =? 0)) m &&
    (Z.land (Z.lor (if m then 128 else 0) n) 127 =? n)) 128 ltac:(destruct m; vm_compute; reflexivity) n H) as E.
  cbn beta in E. by rewrite andb_true_iff, eqb_true_iff, Z.eqb_eq in E.
Qed.

(** The length that the reader computes. *)
Lemma lengthOf_bytes n x : n = 2%nat /\ 0 <= x < 65536 \/ n = 8%nat /\ 0 <= x < 2 ^ 63 ->
  lengthOf (Nat.eqb n 8) (lengthBytes n x) = (lengthBytes n x, x).
Proof.
  intros [[-> H]|[-> H]]; unfold lengthOf.
  - change (Nat.eqb 2 8) with false. cbv iota.
    assert (match lengthBytes 2 x with b :: l' => b :: l' | [] => [] end = lengthBytes 2 x) as -> by by destruct (lengthBytes 2 x).
    by rewrite lengthBytes_value by lia.
  - change (Nat.eqb 8 8) with true. destruct (lengthBytes_top x H) as (b & l & E & Hb). rewrite E. cbv iota. rewrite Hb, <- E.
    by rewrite lengthBytes_value by lia.
Qed.

Lemma NewFrameReader_frame op key msg rest n : 0 <= op < 16 -> key_ok key -> zlen msg < 2 ^ 63 ->
  NewFrameReader (mkSource (frame_bytes op key msg ++ rest) n) = (mkSource (unmasked key 0 msg ++ rest) n, Some (incoming op key msg)).
Proof.
  intros Hop Hk Hlen. pose proof (zlen_nonneg msg) as H0. destruct (first_byte op Hop) as (F1 & F2 & F3).
  set (m := match key with Some _ => true | None => false end).
  assert (exists n7 lf, writeHeaderBytes (outgoing op key) (zlen msg) = [Z.lor 128 op; Z.lor (if m then 128 else 0) n7] ++ lengthBytes lf (zlen msg) /\ 0 <= n7 < 128 /\
    (n7 <= 125 /\ lf = 0%nat /\ zlen msg = n7 \/ n7 = 126 /\ lf = 2%nat /\ zlen msg < 65536 \/ n7 = 127 /\ lf = 8%nat)) as (n7 & lf & E & H7 & Hcase).
  { unfold writeHeaderBytes. cbn -[Z.lor lengthBytes]. destruct (Z.leb_spec (zlen msg) 125).
    - exists (zlen msg), 0%nat. split; [by destruct key|]. lia.
    - destruct (Z.ltb_spec (zlen msg) 65536).
      + exists 126, 2%nat. split; [by destruct key|]. lia.
      + exists 127, 8%nat. split; [by destruct key|]. lia. }
  unfold frame_bytes, incoming. rewrite E. unfold NewFrameReader. rewrite <- !app_assoc. cbn [app].
  rewrite !readByte_cons.
  destruct (second_byte m n7 H7) as [S1 S2]. cbv zeta. rewrite S1, S2, F1, F2, F3.
  assert ((if n7 <=? 125 then 0%nat else if n7 =? 126 then 2%nat else 8%nat) = lf) as ->.
  { destruct Hcase as [(? & -> & ?)|[(-> & -> & ?)|(-> & ->)]]; [|done..]. by rewrite (proj2 (Z.leb_le _ _)). }
  rewrite readBytes_app by apply lengthBytes_length.
  assert (exists len, lengthOf (Nat.eqb lf 8) (lengthBytes lf (zlen msg)) = (lengthBytes lf (zlen msg), len) /\ (if n7 <=? 125 then n7 else len) = zlen msg)
    as (len & -> & ->).
  { destruct Hcase as [(? & -> & ?)|[(-> & -> & ?)|(-> & ->)]].
    - exists 0. split; [done|]. by rewrite (proj2 (Z.leb_le _ _)).
    - exists (zlen msg). split; [apply lengthOf_bytes; by left|done].
    - exists (zlen msg). split; [apply lengthOf_bytes; by right|done]. }
  rewrite readBytes_app by (unfold m; by destruct key).
  destruct key; done.
Qed.

(** ** Reading a payload, however it arrives *)
Section read.
Context (chunk : nat -> nat).

(** [f] reads from [s] what is left of a payload. *)
Definition payload_left (f : hybiFrameReader) (s : source) : bytes :=
  unmasked (hh_MaskingKey (fr_header f)) (fr_pos f) (take (Z.to_nat (fr_N f)) (src_in s)).

Lemma hybi_Read_end n f s : fr_N f <= 0 \/ (src_in s = [] /\ n <> 0) -> hybi_Read chunk n f s = (f, s, ([], Some wsEOF)) \/
  (exists f' s', hybi_Read chunk n f s = (f', s', ([], Some wsEOF)) /\ fr_header f' = fr_header f /\ fr_N f' = fr_N f /\ src_in s' = src_in s).
Proof.
  intros H. unfold hybi_Read. destruct (Z.leb_spec (fr_N f) 0); [by left|]. destruct H as [H|[H Hn]]; [lia|]. right.
  unfold src_Read. rewrite H. destruct (Z.eqb_spec (Z.min n (fr_N f)) 0); [lia|].
  assert (unmasked (hh_MaskingKey (fr_header f)) (fr_pos f) [] = []) as -> by by destruct (hh_MaskingKey _).
  eexists _, _. split; [done|]. change (zlen []) with 0. cbn. split; [done|]. split; [lia|]. done.
Qed.

Lemma hybi_Read_some n f s : 0 < n -> 0 < fr_N f -> src_in s <> [] ->
  exists d f' s', hybi_Read chunk n f s = (f', s', (d, None)) /\ d <> [] /\ zlen d <= n /\ zlen d <= fr_N f /\
    payload_left f s = d ++ payload_left f' s' /\ fr_header f' = fr_header f /\ fr_N f' = fr_N f - zlen d /\
    src_in s = take (length d) (src_in s) ++ src_in s' /\ (length d <= length (src_in s))%nat.
Proof.
  intros Hn HN Hs. unfold hybi_Read, src_Read. rewrite (proj2 (Z.leb_gt _ _)) by done.
  destruct (Z.eqb_spec (Z.min n (fr_N f)) 0); [lia|]. destruct (src_in s) as [|x l] eqn:E; [done|]. rewrite <- E in *. clear Hs.
  set (k := Nat.min (Z.to_nat (Z.min n (fr_N f))) (S (chunk (src_reads s)))). set (w := take k (src_in s)).
  assert (length w = Nat.min k (length (src_in s))) as Hw by (unfold w; by rewrite length_take).
  assert (0 < length (src_in s))%nat as Hl by (rewrite E; simpl; lia).
  assert (0 < k)%nat as Hk by lia.
  set (key := hh_MaskingKey (fr_header f)). exists (unmasked key (fr_pos f) w). eexists _, _. split; [done|].
  pose proof (unmasked_zlen key (fr_pos f) w) as Hz. assert (length (unmasked key (fr_pos f) w) = length w) as Hz' by (unfold zlen in Hz; lia).
  split; [intros H; rewrite H in Hz'; simpl in Hz'; lia|]. split; [unfold zlen; lia|]. split; [unfold zlen; lia|].
  split.
  { unfold payload_left. cbn [fr_header fr_N fr_pos src_in]. fold key.
    assert (take (Z.to_nat (fr_N f)) (src_in s) = w ++ take (Z.to_nat (fr_N f - zlen w)) (drop k (src_in s))) as ->.
    { unfold w. rewrite take_drop_commute. rewrite <- (take_drop k (take _ _)) at 1. f_equal; [rewrite take_take; f_equal; lia|].
      fold w. unfold zlen. destruct (decide (k <= length (src_in s))%nat).
      - do 2 f_equal. lia.
      - rewrite !drop_ge; [done|rewrite length_take; lia|rewrite length_take; lia]. }
    rewrite unmasked_app. f_equal. unfold key. by destruct (hh_MaskingKey (fr_header f)). }
  split; [done|]. split; [cbn; by rewrite Hz|]. cbn [src_in]. rewrite Hz'. split; [|lia].
  rewrite Hw. destruct (decide (k <= length (src_in s))%nat).
  - replace (Nat.min k (length (src_in s))) with k by lia. by rewrite take_drop.
  - rewrite (drop_ge _ k) by lia. rewrite app_nil_r, take_ge; [done|lia].
Qed.

(** What is left of the source once a payload is read. *)
Definition after (f : hybiFrameReader) (s : source) : bytes := drop (Z.to_nat (fr_N f)) (src_in s).

Lemma after_some f s (d : bytes) f' s' : fr_N f' = fr_N f - zlen d -> zlen d <= fr_N f -> src_in s = take (length d) (src_in s) ++ src_in s' ->
  (length d <= length (src_in s))%nat -> after f' s' = after f s.
Proof.
  intros HN Hd Hs Hl. unfold after. rewrite HN, Hs. rewrite drop_app_ge; rewrite length_take; [|unfold zlen in *; lia].
  f_equal. unfold zlen in *. lia.
Qed.

Lemma payload_end f s : fr_N f <= 0 \/ src_in s = [] -> payload_left f s = [] /\ after f s = src_in s.
Proof.
  unfold payload_left, after. intros [H|H].
  - replace (Z.to_nat (fr_N f)) with 0%nat by lia. rewrite take_0, drop_0. by destruct (hh_MaskingKey _).
  - rewrite H, take_nil, drop_nil. by destruct (hh_MaskingKey _).
Qed.

Lemma readAll_spec fuel : forall f s acc, (length (src_in s) <= fuel)%nat ->
  exists f' s', readAll chunk fuel f s acc = Some (f', s', acc ++ payload_left f s) /\ fr_header f' = fr_header f /\ src_in s' = after f s.
Proof.
  induction fuel as [|fuel IH]; intros f s acc Hl.
  all: destruct (decide (fr_N f <= 0 \/ src_in s = [])) as [He|He].
  1,3: destruct (payload_end f s He) as [-> ->];
    destruct (hybi_Read_end 512 f s) as [E|(f' & s' & E & H1 & _ & H2)]; [by destruct He; [left|right]|..]; cbn [readAll]; rewrite E; eauto.
  - destruct (src_in s); [|simpl in Hl; lia]. exfalso. apply He. by right.
  - assert (0 < fr_N f) as HN0 by (destruct (Z.lt_ge_cases 0 (fr_N f)); [done|exfalso; apply He; by left]).
    assert (src_in s <> []) as Hs0 by (intros ?; apply He; by right).
    destruct (hybi_Read_some 512 f s) as (d & f' & s' & E & Hd & _ & HdN & Hp & Hh & HN & Hs & Hdl); [lia|lia|done|].
    cbn [readAll]. rewrite E. destruct (IH f' s' (acc ++ d)) as (f2 & s2 & -> & H1 & H2).
    { rewrite Hs in Hl. rewrite length_app, length_take in Hl. destruct d; [done|]. cbn [length] in *. lia. }
    exists f2, s2. rewrite Hp, app_assoc. split; [done|]. rewrite H1, H2. split; [done|]. by apply (after_some _ _ d).
Qed.

Lemma readFull_spec fuel n : forall f s acc, (length (src_in s) <= fuel)%nat ->
  exists f' s' d, readFull chunk fuel n f s acc = Some (f', s', acc ++ d) /\ d = take (Z.to_nat (n - zlen acc)) (payload_left f s) /\
    fr_header f' = fr_header f /\ after f' s' = after f s /\ (length (src_in s') <= length (src_in s))%nat.
Proof.
  induction fuel as [|fuel IH]; intros f s acc Hl; cbn [readFull]; destruct (Z.leb_spec n (zlen acc)) as [Hn|Hn].
  1,3: exists f, s, []; rewrite app_nil_r; replace (Z.to_nat (n - zlen acc)) with 0%nat by lia; by rewrite take_0.
  all: destruct (decide (fr_N f <= 0 \/ src_in s = [])) as [He|He].
  1,3: destruct (payload_end f s He) as [-> Ha];
    destruct (hybi_Read_end (n - zlen acc) f s) as [E|(f' & s' & E & H1 & H0 & H2)]; [destruct He; [by left|right; split; [done|lia]]|..]; rewrite E, take_nil.
  1,3: by exists f, s, [].
  1,2: exists f', s', []; split; [done|]; split; [done|]; split; [done|]; unfold after; by rewrite H0, H2.
  - destruct (src_in s); [|simpl in Hl; lia]. exfalso. apply He. by right.
  - assert (0 < fr_N f) as HN0 by (destruct (Z.lt_ge_cases 0 (fr_N f)); [done|exfalso; apply He; by left]).
    assert (src_in s <> []) as Hs0 by (intros ?; apply He; by right).
    destruct (hybi_Read_some (n - zlen acc) f s) as (d & f' & s' & E & Hd & Hdn & HdN & Hp & Hh & HN & Hs & Hdl); [lia|lia|done|].
    rewrite E. destruct (IH f' s' (acc ++ d)) as (f2 & s2 & d2 & -> & Hd2 & H1 & H2 & H3).
    { rewrite Hs in Hl. rewrite length_app, length_take in Hl. destruct d; [done|]. cbn [length] in *. lia. }
    exists f2, s2, (d ++ d2). rewrite app_assoc. split; [done|]. split.
    { rewrite Hp, take_app, Hd2. rewrite (take_ge d) by (unfold zlen in *; lia). do 2 f_equal. rewrite zlen_app. unfold zlen. lia. }
    rewrite H1, H2. split; [done|]. split; [by apply (after_some _ _ d)|]. rewrite Hs, length_app. lia.
Qed.

Lemma discard_spec fuel f s : (length (src_in s) <= fuel)%nat ->
  exists f' s', discard chunk fuel f s = Some (f', s') /\ src_in s' = after f s.
Proof. intros H. unfold discard. destruct (readAll_spec fuel f s [] H) as (f' & s' & -> & _ & Hs). by exists f', s'. Qed.
End read.
