(* ===== verification/WebsocketConn.v ===== *)
(** * Package websocket: messages over a connection

    Two ends of a connection, a client and a server: what one sends with [Send], [Write] or
    as a control frame, the other receives, whichever way the bytes are cut. *)

From S2P Require Import Prelude Bufio Websocket WebsocketFrame.

(** A connection that takes everything. *)
Definition wireWrite (k p : bytes) : bytes * (Z * option ws_error) := (k ++ p, (zlen p, None)).

Section conn.
Context (chunk : nat -> nat) (keys : nat -> bytes) (keys_ok : forall n, length (keys n) = 4%nat).
Abbreviation randomKey := (fun n => inr (keys n)).
Abbreviation Conn := (Conn (K := bytes)).
Abbreviation writeFrame := (writeFrame wireWrite randomKey).
Abbreviation nextFrame := (nextFrame wireWrite chunk randomKey).
Abbreviation receive := (receive wireWrite chunk randomKey).
Abbreviation Send := (Send wireWrite randomKey).

(** ** Writing *)
Definition wrote (out : bytes) (c : Conn) : Prop := c_k c = out /\ c_bw c = mkBufio [] None.

Definition key_at (server : bool) (n : nat) : option bytes := if server then None else Some (keys n).

Lemma key_at_ok server n : key_ok (key_at server n).
Proof using keys_ok. destruct server; [done|apply keys_ok]. Qed.

(** All that writing leaves alone. *)
Definition same_reader (c' c : Conn) : Prop :=
  c_server c' = c_server c /\ c_src c' = c_src c /\ c_frame c' = c_frame c /\ c_handlerType c' = c_handlerType c /\
  c_PayloadType c' = c_PayloadType c /\ c_MaxPayloadBytes c' = c_MaxPayloadBytes c.

Lemma writeAll_wire header data (c : Conn) out : wrote out c ->
  exists k b, writeAll wireWrite header data c = Some (set_out k b c, (zlen data, None)) /\ wrote (out ++ header ++ data) (set_out k b c).
Proof.
  intros [Hk Hb]. set (P := fun acc k : bytes => k = acc). unfold writeAll.
  assert (forall acc k p, P acc k -> exists k', wireWrite k p = (k', (zlen p, None)) /\ P (acc ++ p) k') as HP.
  { intros acc k p ->. by eexists. }
  assert (holds bufioSize P out (c_k c) (c_bw c)) as H0.
  { rewrite Hb. split; [done|]. split; [done|]. exists out. by rewrite app_nil_r. }
  destruct (bufio_Write_holds wireWrite errShortWrite bufioSize P ltac:(done) HP 0 _ _ _ header H0) as (k1 & b1 & -> & H1). simpl.
  destruct (bufio_Write_holds wireWrite errShortWrite bufioSize P ltac:(done) HP 0 _ _ _ data H1) as (k2 & b2 & -> & H2). simpl.
  destruct (bufio_Flush_holds wireWrite errShortWrite bufioSize P ltac:(done) HP _ _ _ H2) as (k3 & b3 & -> & (He & _ & acc & Hacc & Ha) & Hb3).
  exists k3, b3. split; [done|]. rewrite Hb3, app_nil_r in Ha. unfold P in Hacc. split; [cbn; by rewrite Hacc, Ha, app_assoc|].
  destruct b3; cbn in *; by subst.
Qed.

(** A frame goes out as it is, with the next key if it needs one. *)
Lemma writeFrame_wire op msg (c : Conn) out : wrote out c ->
  exists c', writeFrame op msg c = Some (c', (zlen msg, None)) /\ same_reader c' c /\
    wrote (out ++ frame_bytes op (key_at (c_server c) (c_keys c)) msg) c' /\ c_keys c' = if c_server c then c_keys c else S (c_keys c).
Proof using keys_ok.
  intros Hw. unfold Websocket.writeFrame, NewFrameWriter, hybi_Write, frame_bytes, key_at. destruct (c_server c) eqn:Es.
  - cbn [hh_MaskingKey]. destruct (writeAll_wire (writeHeaderBytes (outgoing op None) (zlen msg)) msg c out Hw) as (k & b & E & Hw').
    unfold outgoing in *. rewrite E. exists (set_out k b c). by repeat split; try apply Hw'.
  - cbn [hh_MaskingKey]. assert (zlen (keys (c_keys c)) = 4) as -> by (unfold zlen; by rewrite keys_ok). cbn [Z.eqb negb Pos.eqb].
    destruct (writeAll_wire (writeHeaderBytes (outgoing op (Some (keys (c_keys c)))) (zlen msg) ++ keys (c_keys c)) (mask (keys (c_keys c)) 0 msg) (next_key c) out Hw)
      as (k & b & E & Hw').
    unfold outgoing in *. rewrite E, mask_zlen. exists (set_out k b (next_key c)). rewrite <- app_assoc in Hw'. split; [done|]. by repeat split; try apply Hw'.
Qed.

(** ** Frames on the wire, with the keys from the [i]-th on *)
Fixpoint wire (server : bool) (i : nat) (l : list (Z * bytes)) : bytes :=
  match l with
  | [] => []
  | (op, msg) :: l => frame_bytes op (key_at server i) msg ++ wire server (if server then i else S i) l
  end.

Lemma wire_app server i l1 l2 : wire server i (l1 ++ l2) = wire server i l1 ++ wire server (if server then i else i + length l1)%nat l2.
Proof.
  revert i. induction l1 as [|[op msg] l1 IH]; intros i; simpl; [by destruct server; rewrite ?Nat.add_0_r|].
  rewrite IH, app_assoc. do 2 f_equal. destruct server; [done|]. lia.
Qed.

(** An end that wrote the frames [l]. *)
Definition sent (l : list (Z * bytes)) (c : Conn) : Prop :=
  wrote (wire (c_server c) 0 l) c /\ c_keys c = if c_server c then 0%nat else length l.

Lemma writeFrame_sent op msg l (c : Conn) : sent l c ->
  exists c', writeFrame op msg c = Some (c', (zlen msg, None)) /\ same_reader c' c /\ sent (l ++ [(op, msg)]) c'.
Proof using keys_ok.
  intros [Hw Hk]. destruct (writeFrame_wire op msg c _ Hw) as (c' & E & Hs & Hw' & Hk'). exists c'. split; [done|]. split; [done|].
  pose proof Hs as (Es & _). unfold sent. rewrite Es, wire_app. split.
  - simpl. rewrite app_nil_r. rewrite Hk in Hw'. destruct (c_server c); done.
  - rewrite Hk', Hk, length_app. destruct (c_server c); [done|]. simpl. lia.
Qed.

(** ** Reading the next frame *)
Definition frame_ok (f : Z * bytes) : Prop := (f.1 = TextFrame \/ f.1 = BinaryFrame \/ f.1 = PingFrame \/ f.1 = PongFrame) /\ zlen f.2 < 2 ^ 63.

Definition is_data (f : Z * bytes) : bool := (f.1 =? TextFrame) || (f.1 =? BinaryFrame).

Definition replies (l : list (Z * bytes)) : list (Z * bytes) :=
  omap (fun f => if f.1 =? PingFrame then Some (PongFrame, take 125 f.2) else None) l.

(** The frames before the first with data, and from it on. *)
Fixpoint controls (l : list (Z * bytes)) : list (Z * bytes) :=
  match l with [] => [] | f :: l => if is_data f then [] else f :: controls l end.

Fixpoint from_data (l : list (Z * bytes)) : list (Z * bytes) :=
  match l with [] => [] | f :: l' => if is_data f then l else from_data l' end.

Lemma frame_bytes_length op key msg : (2 + length (unmasked key 0 msg) <= length (frame_bytes op key msg))%nat.
Proof.
  unfold frame_bytes. assert (2 <= length (writeHeaderBytes (outgoing op key) (zlen msg)))%nat.
  { unfold writeHeaderBytes. destruct (_ <=? _); [|destruct (_ <? _)]; simpl; lia. }
  rewrite !length_app. lia.
Qed.

Definition headless (f : hybiFrameReader) : hybiFrameReader :=
  let h := fr_header f in mkReader (mkHeader (hh_Fin h) (hh_Rsv h) (hh_OpCode h) (hh_Length h) (hh_MaskingKey h) []) (fr_N f) (fr_pos f) (fr_length f).

Lemma payload_incoming op key msg rest n : payload_left (headless (incoming op key msg)) (mkSource (unmasked key 0 msg ++ rest) n) = msg /\
  after (headless (incoming op key msg)) (mkSource (unmasked key 0 msg ++ rest) n) = rest.
Proof.
  unfold payload_left, after. cbn. assert (Z.to_nat (zlen msg) = length (unmasked key 0 msg)) as -> by (pose proof (unmasked_zlen key 0 msg); unfold zlen in *; lia).
  by rewrite take_app_length, drop_app_length, unmasked_involutive.
Qed.

(** The frame handler on a frame from the other end. *)
Lemma HandleFrame_data op i msg (c : Conn) : op = TextFrame \/ op = BinaryFrame ->
  HandleFrame wireWrite chunk randomKey (incoming op (key_at (negb (c_server c)) i) msg) c =
    Some (set_handlerType op c, inr (Some (headless (incoming op (key_at (negb (c_server c)) i) msg)))).
Proof. intros [-> | ->]; unfold HandleFrame; by destruct (c_server c). Qed.

Lemma HandleFrame_control op i msg rest n l (c : Conn) : op = PingFrame \/ op = PongFrame -> sent l c ->
  src_in (c_src c) = unmasked (key_at (negb (c_server c)) i) 0 msg ++ rest -> src_reads (c_src c) = n ->
  exists c', HandleFrame wireWrite chunk randomKey (incoming op (key_at (negb (c_server c)) i) msg) c = Some (c', inr None) /\
    sent (l ++ replies [(op, msg)]) c' /\ src_in (c_src c') = rest /\
    c_server c' = c_server c /\ c_frame c' = c_frame c /\ c_MaxPayloadBytes c' = c_MaxPayloadBytes c.
Proof using keys_ok.
  intros Hop Hs Hin Hn. set (key := key_at (negb (c_server c)) i) in *. set (f := headless (incoming op key msg)).
  assert (c_src c = mkSource (unmasked key 0 msg ++ rest) n) as Hsrc by (destruct (c_src c); cbn in *; by subst).
  destruct (payload_incoming op key msg rest n) as [Hp Ha]. fold f in Hp, Ha. rewrite <- Hsrc in Hp, Ha.
  assert (HandleFrame wireWrite chunk randomKey (incoming op key msg) c = handlePayload wireWrite chunk randomKey f c) as ->.
  { unfold HandleFrame, key, key_at. by destruct (c_server c). }
  unfold handlePayload. change (hh_OpCode (fr_header f)) with op.
  destruct (readFull_spec chunk (S (length (src_in (c_src c)))) maxControlFramePayloadLength f (c_src c) []) as (f1 & s1 & d & E & Hd & Hh1 & Ha1 & Hl1); [lia|].
  rewrite Hp in Hd. change (Z.to_nat (maxControlFramePayloadLength - zlen [])) with 125%nat in Hd.
  destruct (discard_spec chunk (S (length (src_in s1))) f1 s1) as (f2 & s2 & E2 & Hs2); [lia|]. rewrite Ha1, Ha in Hs2.
  assert (sent l (set_src s2 c)) as Hs' by done.
  destruct Hop as [-> | ->]; cbn [Z.eqb ContinuationFrame TextFrame BinaryFrame CloseFrame PingFrame PongFrame orb Pos.eqb]; rewrite E; simpl; rewrite E2; simpl.
  - unfold WritePong. destruct (writeFrame_sent PongFrame d l (set_src s2 c) Hs') as (c' & E3 & (R1 & R2 & R3 & R4 & R5 & R6) & Hs3).
    rewrite E3. simpl. exists c'. rewrite R1, R2, R3, R6, <- Hd. done.
  - exists (set_src s2 c). rewrite app_nil_r. done.
Qed.

(** An end that sent [l] and is about to receive the frames [r]. *)
Definition facing (l r : list (Z * bytes)) (i : nat) (c : Conn) : Prop :=
  sent l c /\ src_in (c_src c) = wire (negb (c_server c)) i r.

Definition next_i (server : bool) (i : nat) : nat := if server then i else S i.

(** Control frames are answered, the next frame with data is returned. *)
Lemma nextFrame_wire max r : forall fuel l i c, Forall frame_ok r -> facing l r i c -> c_MaxPayloadBytes c = max -> c_frame c = None ->
  (length (src_in (c_src c)) <= fuel)%nat ->
  exists c' res, nextFrame fuel c = Some (c', res) /\ c_server c' = c_server c /\ c_MaxPayloadBytes c' = max /\ c_frame c' = None /\
    sent (l ++ replies (controls r)) c' /\
    match from_data r with
    | [] => res = inl wsEOF /\ src_in (c_src c') = []
    | (op, msg) :: r' => exists f i', res = inr f /\ hh_OpCode (fr_header f) = op /\ hh_Length (fr_header f) = zlen msg /\
        payload_left f (c_src c') = msg /\ after f (c_src c') = wire (negb (c_server c)) i' r'
    end.
Proof using keys_ok.
  induction r as [|[op msg] r IH]; intros fuel l i c Hok [Hs Hin] Hm Hf Hl.
  { cbn [wire] in Hin. exists (set_src (mkSource [] (src_reads (c_src c))) c), (inl wsEOF).
    split; [destruct fuel; cbn [Websocket.nextFrame]; unfold NewFrameReader, readBytes; by rewrite Hin|].
    split; [done|]. split; [done|]. split; [done|]. cbn [controls replies omap list_omap from_data]. by rewrite app_nil_r. }
  inversion Hok as [|? ? [Hop Hlen] Hok']; subst. cbn [wire] in Hin. set (key := key_at (negb (c_server c)) i) in *.
  assert (c_src c = mkSource (frame_bytes op key msg ++ wire (negb (c_server c)) (next_i (negb (c_server c)) i) r) (src_reads (c_src c))) as Hsrc
    by (destruct (c_src c); cbn in *; by subst).
  set (rest := wire (negb (c_server c)) (next_i (negb (c_server c)) i) r) in *.
  set (s1 := mkSource (unmasked key 0 msg ++ rest) (src_reads (c_src c))).
  assert (NewFrameReader (c_src c) = (s1, Some (incoming op key msg))) as EN.
  { rewrite Hsrc. apply NewFrameReader_frame; [|apply key_at_ok|done]. cbn in Hop. destruct Hop as [-> |[-> |[-> | ->]]]; done. }
  assert (length (src_in s1) + 2 <= length (src_in (c_src c)))%nat as Hl1.
  { rewrite Hin. cbn [src_in s1]. pose proof (frame_bytes_length op key msg). rewrite !length_app. fold (next_i (negb (c_server c)) i). fold rest. lia. }
  destruct (is_data (op, msg)) eqn:Ed.
  - cbn [controls from_data]. rewrite Ed.
    assert (op = TextFrame \/ op = BinaryFrame) as Hop2 by (unfold is_data in Ed; cbn in Ed; apply orb_true_iff in Ed; rewrite !Z.eqb_eq in Ed; done).
    exists (set_handlerType op (set_src s1 c)), (inr (headless (incoming op key msg))).
    pose proof (HandleFrame_data op i msg (set_src s1 c) Hop2) as EH. change (c_server (set_src s1 c)) with (c_server c) in EH. fold key in EH.
    split; [destruct fuel; cbn [Websocket.nextFrame]; rewrite EN; by rewrite EH|].
    split; [done|]. split; [done|]. split; [done|]. cbn [replies omap list_omap]. rewrite app_nil_r. split; [done|].
    destruct (payload_incoming op key msg rest (src_reads (c_src c))) as [Hp Ha].
    eexists _, _. split; [done|]. split; [done|]. split; [done|]. split; [exact Hp|exact Ha].
  - cbn [controls from_data]. rewrite Ed. cbn [fst snd] in *.
    assert (op = PingFrame \/ op = PongFrame) as Hop2.
    { unfold is_data in Ed. cbn in Ed. apply orb_false_iff in Ed as [E1%Z.eqb_neq E2%Z.eqb_neq]. tauto. }
    destruct (HandleFrame_control op i msg rest (src_reads (c_src c)) l (set_src s1 c) Hop2 Hs eq_refl eq_refl) as (c1 & E1 & Hs1 & Hin1 & R1 & R2 & R3).
    change (c_server (set_src s1 c)) with (c_server c) in *.
    destruct fuel as [|fuel]; [lia|].
    assert (facing (l ++ replies [(op, msg)]) r (next_i (negb (c_server c)) i) c1) as HF by (split; [done|]; by rewrite R1, Hin1).
    destruct (IH fuel _ _ c1 Hok' HF R3 ltac:(by rewrite R2)) as (c' & res & E & Q1 & Q2 & Q3 & Q4 & Q5).
    { rewrite Hin1. unfold s1 in Hl1. cbn in Hl1. rewrite length_app in Hl1. lia. }
    exists c', res. split; [cbn [Websocket.nextFrame]; rewrite EN; fold key in E1; by rewrite E1|]. split; [congruence|]. split; [done|]. split; [done|].
    split; [|by rewrite R1 in Q5]. assert (replies ((op, msg) :: controls r) = replies [(op, msg)] ++ replies (controls r)) as ->; [|by rewrite app_assoc].
    unfold replies. cbn. by destruct (op =? PingFrame).
Qed.

(** ** Receiving *)
Definition limit (max : Z) : Z := if max =? 0 then DefaultMaxPayloadBytes else max.

(** What is left of a frame that was too large is still to be read. *)
Definition ready (l r : list (Z * bytes)) (c : Conn) : Prop :=
  sent l c /\ exists i, match c_frame c with None => src_in (c_src c) | Some f => after f (c_src c) end = wire (negb (c_server c)) i r.

Definition result (max : Z) (f : Z * bytes) : ws_error + bytes * Z := if zlen f.2 >? limit max then inl ErrFrameTooLarge else inr (f.2, f.1).

Lemma receive_wire max l r c : Forall frame_ok r -> ready l r c -> c_MaxPayloadBytes c = max ->
  exists c' res, receive c = Some (c', res) /\ c_server c' = c_server c /\ c_MaxPayloadBytes c' = max /\
    match from_data r with
    | [] => res = inl wsEOF /\ sent (l ++ replies (controls r)) c'
    | f :: r' => res = result max f /\ ready (l ++ replies (controls r)) r' c'
    end.
Proof using keys_ok.
  intros Hok [Hs [i Hi]] Hm. unfold Websocket.receive. cbv zeta.
  assert (exists c1, match c_frame c with
      | Some f => '(_, s) ← discard chunk (S (length (src_in (c_src c)))) f (c_src c); Some (set_frame None (set_src s c))
      | None => Some c end = Some c1 /\ facing l r i c1 /\ c_server c1 = c_server c /\ c_MaxPayloadBytes c1 = max /\ c_frame c1 = None) as (c1 & -> & HF & E1 & E2 & E3).
  { destruct (c_frame c) as [f|] eqn:Ef; [|by exists c].
    destruct (discard_spec chunk (S (length (src_in (c_src c)))) f (c_src c)) as (f' & s' & -> & Hs'); [lia|].
    exists (set_frame None (set_src s' c)). split; [done|]. split; [|done]. split; [done|]. cbn. by rewrite Hs'. }
  cbn [mbind option_bind]. destruct (nextFrame_wire max r (S (length (src_in (c_src c1)))) l i c1 Hok HF E2 E3) as (c2 & res & -> & Q1 & Q2 & Q3 & Q4 & Q5); [lia|].
  cbn [mbind option_bind]. destruct (from_data r) as [|[op msg] r'].
  { destruct Q5 as [-> _]. exists c2, (inl wsEOF). split; [done|]. split; [congruence|]. done. }
  destruct Q5 as (f & i' & -> & F1 & F2 & F3 & F4). rewrite Q2. fold (limit max). rewrite F2. unfold result. cbn [fst snd].
  destruct (zlen msg >? limit max).
  - exists (set_frame (Some f) c2), (inl ErrFrameTooLarge). split; [done|]. cbn. split; [congruence|]. split; [done|]. split; [done|].
    split; [exact Q4|]. exists i'. cbn. by rewrite Q1.
  - destruct (readAll_spec chunk (S (length (src_in (c_src c2)))) f (c_src c2) []) as (f' & s' & -> & Hh & Hs'); [lia|].
    cbn [mbind option_bind]. rewrite Hh, F1, F3. exists (set_src s' c2), (inr (msg, op)). split; [done|]. cbn. split; [congruence|]. split; [done|]. split; [done|].
    split; [exact Q4|]. exists i'. cbn. by rewrite Q3, Hs', Q1.
Qed.

Definition messages (l : list (Z * bytes)) : list (Z * bytes) := List.filter is_data l.

Fixpoint receives (n : nat) (c : Conn) : option (Conn * list (ws_error + bytes * Z)) :=
  match n with
  | O => Some (c, [])
  | S n => '(c, r) ← receive c; '(c, rs) ← receives n c; Some (c, r :: rs)
  end.

Lemma from_data_split r : replies r = replies (controls r) ++ replies (from_data r) /\ messages r = messages (from_data r) /\
  (forall f r', from_data r = f :: r' -> is_data f = true) /\ (Forall frame_ok r -> Forall frame_ok (from_data r)).
Proof.
  induction r as [|f r (IH1 & IH2 & IH3 & IH4)]; [done|]. simpl controls. simpl from_data. destruct (is_data f) eqn:E.
  - split; [done|]. split; [done|]. split; [|done]. intros f' r' [= <- <-]. done.
  - split; [unfold replies in *; cbn; rewrite IH1; by destruct (f.1 =? PingFrame)|].
    split; [unfold messages in *; simpl; by rewrite E|]. split; [done|]. intros H. apply IH4. by inversion H.
Qed.

Lemma data_no_reply f r : is_data f = true -> replies (f :: r) = replies r.
Proof.
  unfold is_data, replies. intros H. cbn. destruct (Z.eqb_spec (f.1) PingFrame) as [E|_]; [|done]. by rewrite E in H.
Qed.

Lemma receives_wire max : forall n r l c, length (messages r) = n -> Forall frame_ok r -> ready l r c -> c_MaxPayloadBytes c = max ->
  exists c', receives (S n) c = Some (c', map (result max) (messages r) ++ [inl wsEOF]) /\ sent (l ++ replies r) c' /\ c_server c' = c_server c.
Proof using keys_ok.
  induction n as [|n IH]; intros r l c Hn Hok HR Hm; destruct (from_data_split r) as (D1 & D2 & D3 & D4); rewrite D2 in Hn |- *; rewrite D1;
    destruct (receive_wire max l r c Hok HR Hm) as (c1 & res & E & Q1 & Q2 & Q3); destruct (from_data r) as [|f r'] eqn:Ef.
  - destruct Q3 as [-> Hs]. exists c1. cbn [receives]. rewrite E. cbn [mbind option_bind]. split; [done|]. by rewrite app_nil_r.
  - unfold messages in Hn. simpl in Hn. by rewrite (D3 f r' eq_refl) in Hn.
  - done.
  - destruct Q3 as [-> HR']. pose proof (D3 f r' eq_refl) as Hf. assert (messages (f :: r') = f :: messages r') as Em by (unfold messages; simpl; by rewrite Hf).
    rewrite Em in Hn |- *. destruct (IH r' _ c1 ltac:(simpl in Hn; lia) ltac:(by specialize (D4 Hok); inversion D4) HR' Q2) as (c' & E2 & Hs & Es).
    exists c'. change (receives (S (S n)) c) with ('(c, r) ← receive c; '(c, rs) ← receives (S n) c; Some (c, r :: rs)).
    rewrite E. cbn [mbind option_bind]. rewrite E2. cbn [mbind option_bind]. split; [done|]. rewrite data_no_reply, app_assoc by done. split; [done|congruence].
Qed.
End conn.

(** ** Any input, any connection below *)
Section any.
Context {K : Type} (connWrite : K -> bytes -> K * (Z * option ws_error)) (chunk : nat -> nat) (randomKey : nat -> ws_error + bytes).
Context (law : writer_law connWrite).
Abbreviation Conn := (Conn (K := K)).

Definition bounded (c : Conn) : Prop := zlen (bf_buf (c_bw c)) <= bufioSize.

(** Bytes that are still to be read. *)
Definition left_in (c : Conn) : nat := length (src_in (c_src c)).

(** What writing leaves alone. *)
Definition write_only (c' c : Conn) : Prop := c_src c' = c_src c /\ c_frame c' = c_frame c /\ c_MaxPayloadBytes c' = c_MaxPayloadBytes c /\ bounded c'.

Lemma writeAll_total header data c : bounded c -> exists c' r, writeAll connWrite header data c = Some (c', r) /\ write_only c' c.
Proof using law.
  intros Hb. unfold writeAll.
  destruct (bufio_Write_total connWrite errShortWrite bufioSize (c_k c) (c_bw c) header law Hb) as [[[k1 b1] r1] E1]. rewrite E1. simpl.
  pose proof (bufio_Write_fits connWrite errShortWrite bufioSize _ _ _ _ _ _ _ Hb E1) as H1.
  destruct (bufio_Write_total connWrite errShortWrite bufioSize k1 b1 data law H1) as [[[k2 b2] r2] E2]. rewrite E2. simpl.
  pose proof (bufio_Write_fits connWrite errShortWrite bufioSize _ _ _ _ _ _ _ H1 E2) as H2.
  pose proof (bufio_Flush_fits connWrite errShortWrite k2 b2) as H3.
  destruct (bufio_Flush connWrite errShortWrite k2 b2) as [[k3 b3] err]. cbn in H3. eexists _, _. split; [done|].
  repeat split; try done. unfold bounded in *. cbn. lia.
Qed.

Lemma writeFrame_total op msg c : bounded c -> exists c' r, writeFrame connWrite randomKey op msg c = Some (c', r) /\ write_only c' c.
Proof using law.
  intros Hb. unfold writeFrame, NewFrameWriter, hybi_Write. destruct (c_server c).
  - cbn [hh_MaskingKey]. by apply writeAll_total.
  - destruct (randomKey (c_keys c)) as [e|key]; [by eexists _, _|]. cbn [hh_MaskingKey]. destruct (negb _); [by eexists _, _|].
    by apply (writeAll_total _ _ (next_key c)).
Qed.

Lemma readBytes_shrinks k s s' r : readBytes k s = (s', r) -> (length (src_in s') + match r with Some l => length l | None => 0 end <= length (src_in s))%nat /\
  match r with Some l => length l = k | None => True end.
Proof.
  unfold readBytes. destruct (Nat.ltb_spec (length (src_in s)) k); intros [= <- <-]; cbn [src_in]; [simpl; lia|].
  rewrite length_drop, length_take. lia.
Qed.

Lemma NewFrameReader_shrinks s s' f : NewFrameReader s = (s', f) -> (length (src_in s') <= length (src_in s))%nat /\
  (is_Some f -> (length (src_in s') < length (src_in s))%nat).
Proof.
  unfold NewFrameReader. destruct (readBytes 1 s) as [s1 r1] eqn:E1. apply readBytes_shrinks in E1 as [H1 L1].
  destruct r1 as [[|b0 [|]]|]; try (intros [= <- <-]; split; [lia|by intros []]). simpl in H1.
  destruct (readBytes 1 s1) as [s2 r2] eqn:E2. apply readBytes_shrinks in E2 as [H2 L2].
  destruct r2 as [[|b1 [|]]|]; try (intros [= <- <-]; split; [lia|by intros []]).
  destruct (readBytes _ s2) as [s3 r3] eqn:E3 in |- *. apply readBytes_shrinks in E3 as [H3 _].
  destruct r3 as [l|]; [|intros [= <- <-]; split; [lia|by intros []]]. destruct (lengthOf _ l) as [l' len].
  destruct (readBytes _ s3) as [s4 r4] eqn:E4. apply readBytes_shrinks in E4 as [H4 _].
  destruct r4; intros [= <- <-]; (split; [lia|intros []; try done; lia]).
Qed.

Lemma HandleFrame_total f c : bounded c -> exists c' r, HandleFrame connWrite chunk randomKey f c = Some (c', r) /\
  (left_in c' <= left_in c)%nat /\ c_MaxPayloadBytes c' = c_MaxPayloadBytes c /\ bounded c'.
Proof using law.
  intros Hb. unfold HandleFrame. destruct (negb _).
  { unfold WriteClose. destruct (writeFrame_total CloseFrame (lengthBytes 2 (u16 closeStatusProtocolError)) c Hb) as (c' & [n e] & -> & (W1 & W2 & W3 & W4)).
    simpl. exists c', (inl wsEOF). unfold left_in. by rewrite W1. }
  cbv zeta. fold (headless f). generalize (headless f). clear f. intros f. unfold handlePayload.
  destruct (_ =? ContinuationFrame); [by eexists _, _|]. destruct (_ || _); [by eexists _, _|]. destruct (_ =? CloseFrame); [by eexists _, _|].
  destruct (_ || _); [|by eexists _, _].
  destruct (readFull_spec chunk (S (length (src_in (c_src c)))) maxControlFramePayloadLength f (c_src c) []) as (f1 & s1 & d & -> & _ & _ & Ha & Hl); [lia|].
  simpl. destruct (discard_spec chunk (S (length (src_in s1))) f1 s1) as (f2 & s2 & -> & Hs2); [lia|]. simpl.
  assert (length (src_in s2) <= length (src_in (c_src c)))%nat as Hl2 by (rewrite Hs2; unfold after; rewrite length_drop; lia).
  destruct (_ =? PingFrame).
  - unfold WritePong. destruct (writeFrame_total PongFrame d (set_src s2 c) Hb) as (c' & [n e] & -> & (W1 & W2 & W3 & W4)).
    simpl. eexists _, _. split; [done|]. unfold left_in. by rewrite W1, W3.
  - eexists _, _. split; [done|]. done.
Qed.

Lemma nextFrame_total fuel : forall c, bounded c -> (left_in c <= fuel)%nat -> exists c' r, nextFrame connWrite chunk randomKey fuel c = Some (c', r) /\
  (left_in c' <= left_in c)%nat /\ c_MaxPayloadBytes c' = c_MaxPayloadBytes c /\ bounded c'.
Proof using law.
  induction fuel as [|fuel IH]; intros c Hb Hl; cbn [nextFrame]; destruct (NewFrameReader (c_src c)) as [s [f|]] eqn:E;
    apply NewFrameReader_shrinks in E as [H1 H2]; unfold left_in in *; try (by eexists _, _).
  1: specialize (H2 ltac:(done)); lia.
  specialize (H2 ltac:(done)). destruct (HandleFrame_total f (set_src s c) Hb) as (c1 & r & -> & Hl1 & Hm & Hb1). unfold left_in in *. cbn in Hl1.
  cbn [mbind option_bind]. destruct r as [e|[f1|]].
  1,2: eexists _, _; split; [done|]; split; [lia|done].
  destruct (IH c1 Hb1 ltac:(lia)) as (c' & r & -> & Hl' & Hm' & Hb'). exists c', r. split; [done|]. split; [lia|]. split; [by rewrite Hm', Hm|done].
Qed.

(** A frame that is returned has its length still to read, and is masked as the end of the
    connection demands. *)
Definition fresh (c : Conn) (f : hybiFrameReader) : Prop :=
  fr_N f = hh_Length (fr_header f) /\ (is_Some (hh_MaskingKey (fr_header f)) <-> c_server c = true).

Lemma writeFrame_server op msg c c' r : writeFrame connWrite randomKey op msg c = Some (c', r) -> c_server c' = c_server c.
Proof.
  assert (forall h d (c : Conn), writeAll connWrite h d c = Some (c', r) -> c_server c' = c_server c) as Hw.
  { intros h d c1. unfold writeAll. destruct (bufio_Write _ _ _ _ _ _ h) as [[[k b] x]|]; [|done]. simpl.
    destruct (bufio_Write _ _ _ _ _ _ d) as [[[k' b'] x']|]; [|done]. simpl. destruct (bufio_Flush _ _ _ _) as [[k2 b2] e]. by intros [= <- _]. }
  unfold writeFrame, NewFrameWriter, hybi_Write. destruct (c_server c) eqn:E; [intros H; apply Hw in H; by rewrite H|].
  destruct (randomKey _) as [e|key]; [by intros [= <- _]|]. cbn [hh_MaskingKey]. destruct (negb _); [by intros [= <- _]|].
  intros H. apply Hw in H. by rewrite H.
Qed.

Lemma HandleFrame_server f c c' r : HandleFrame connWrite chunk randomKey f c = Some (c', r) -> c_server c' = c_server c /\
  forall f', r = inr (Some f') -> fr_N f = hh_Length (fr_header f) -> fresh c f'.
Proof.
  unfold HandleFrame. destruct (negb _) eqn:Em.
  { unfold WriteClose. destruct (writeFrame _ _ _ _ c) as [[c1 [n e]]|] eqn:E; [|done]. apply writeFrame_server in E. simpl. by intros [= <- <-]. }
  apply negb_false_iff, eqb_prop in Em. assert (is_Some (hh_MaskingKey (fr_header f)) <-> c_server c = true) as Hk.
  { rewrite <- Em. destruct (hh_MaskingKey (fr_header f)); [by split; eauto|split; [by intros []|done]]. }
  cbv zeta. unfold handlePayload. cbn [fr_header hh_OpCode]. destruct (_ =? ContinuationFrame).
  { intros [= <- <-]. split; [done|]. intros f' [= <-] HN. by split. }
  destruct (_ || _). { intros [= <- <-]. split; [done|]. intros f' [= <-] HN. by split. }
  destruct (_ =? CloseFrame); [by intros [= <- <-]|]. destruct (_ || _).
  2: { intros [= <- <-]. split; [done|]. intros f' [= <-] HN. by split. }
  destruct (readFull _ _ _ _ _ _) as [[[f1 s1] b]|]; [|done]. cbn [mbind option_bind]. destruct (discard _ _ _ _) as [[f2 s2]|]; [|done]. cbn [mbind option_bind].
  destruct (_ =? PingFrame); [|by intros [= <- <-]]. unfold WritePong. destruct (writeFrame _ _ _ _ _) as [[c1 [n e]]|] eqn:E; [|done].
  apply writeFrame_server in E. cbn [mbind option_bind]. intros [= <- <-]. split; [done|]. by destruct e.
Qed.

Lemma NewFrameReader_fresh s s' f : NewFrameReader s = (s', Some f) -> fr_N f = hh_Length (fr_header f).
Proof.
  unfold NewFrameReader. destruct (readBytes 1 s) as [s1 [[|b0 [|]]|]]; try done. destruct (readBytes 1 s1) as [s2 [[|b1 [|]]|]]; try done.
  destruct (readBytes _ s2) as [s3 [l|]]; [|done]. destruct (lengthOf _ l) as [l' len]. destruct (readBytes _ s3) as [s4 [key|]]; [|done].
  by intros [= _ <-].
Qed.

Lemma nextFrame_fresh fuel : forall c c' f, nextFrame connWrite chunk randomKey fuel c = Some (c', inr f) -> fresh c f.
Proof.
  induction fuel as [|fuel IH]; intros c c' f; cbn [nextFrame]; destruct (NewFrameReader (c_src c)) as [s [f0|]] eqn:E; try done;
    apply NewFrameReader_fresh in E; destruct (HandleFrame _ _ _ f0 (set_src s c)) as [[c1 r]|] eqn:EH; try done; cbn [mbind option_bind];
    destruct (HandleFrame_server _ _ _ _ EH) as [Hs Hf]; destruct r as [e|[f1|]]; try done.
  1,2: intros [= _ <-]; exact (Hf f1 eq_refl E).
  intros H. apply IH in H. destruct H as [H1 H2]. split; [done|]. by rewrite Hs in H2.
Qed.

Lemma nextFrame_shrinks fuel : forall c c' f, bounded c -> nextFrame connWrite chunk randomKey fuel c = Some (c', inr f) -> (left_in c' < left_in c)%nat.
Proof using law.
  induction fuel as [|fuel IH]; intros c c' f Hb; cbn [nextFrame]; destruct (NewFrameReader (c_src c)) as [s [f0|]] eqn:E; try done;
    apply NewFrameReader_shrinks in E as [_ E]; specialize (E ltac:(done)); destruct (HandleFrame_total f0 (set_src s c) Hb) as (c1 & r & -> & Hl & _ & Hb1);
    unfold left_in in *; cbn in Hl; cbn [mbind option_bind]; destruct r as [e|[f1|]]; try done.
  1,2: intros [= <- _]; lia.
  intros H. specialize (IH c1 c' f Hb1 H). lia.
Qed.
End any.
