(* ===== verification/WebsocketSpec.v ===== *)
(** * Package websocket: what two ends of a connection promise

    The theorems about [Send], [Receive], [Read] and [Write] of a client and a server. *)

From S2P Require Import Prelude Bufio Websocket WebsocketFrame WebsocketConn.

(** What an end sends: values through [Message], and control frames. *)
Inductive item := Text (s : bytes) | Binary (b : bytes) | Ping (b : bytes) | Pong (b : bytes).

Definition frame_of (it : item) : Z * bytes :=
  match it with
  | Text s => (TextFrame, s)
  | Binary b => (BinaryFrame, b)
  | Ping b => (PingFrame, b)
  | Pong b => (PongFrame, b)
  end.

(** A connection with a limit for [Receive]. *)
Definition with_max {K} (max : Z) (c : Conn (K := K)) : Conn :=
  mkConn (c_server c) (c_src c) (c_k c) (c_bw c) (c_keys c) (c_frame c) (c_handlerType c) (c_PayloadType c) (c_defaultCloseStatus c) max.

Section spec.
Context (chunk : nat -> nat) (keys : nat -> bytes).
Abbreviation randomKey := (fun n => inr (keys n)).
Abbreviation receives := (receives chunk keys).

Definition send_item (it : item) (c : Conn) : option (Conn * option ws_error) :=
  match it with
  | Text s => Send wireWrite randomKey (VString s) c
  | Binary b => Send wireWrite randomKey (VBytes b) c
  | Ping b => '(c, (_, err)) ← writeFrame wireWrite randomKey PingFrame b c; Some (c, err)
  | Pong b => '(c, (_, err)) ← WritePong wireWrite randomKey b c; Some (c, err)
  end.

Fixpoint send_items (its : list item) (c : Conn) : option (Conn * list (option ws_error)) :=
  match its with
  | [] => Some (c, [])
  | it :: its => '(c, e) ← send_item it c; '(c, es) ← send_items its c; Some (c, e :: es)
  end.

Lemma send_item_sent (keys_ok : forall n, length (keys n) = 4%nat) it l (c : Conn) : sent keys l c ->
  exists c', send_item it c = Some (c', None) /\ sent keys (l ++ [frame_of it]) c' /\ c_server c' = c_server c.
Proof.
  intros Hs. assert (exists c', ('(c, (_, err)) ← writeFrame wireWrite randomKey (frame_of it).1 (frame_of it).2 c; Some (c, err)) = Some (c', None) /\
    sent keys (l ++ [frame_of it]) c' /\ c_server c' = c_server c) as H.
  { destruct (frame_of it) as [op msg]. destruct (writeFrame_sent keys keys_ok op msg l c Hs) as (c' & E & (R & _) & Hs'). cbn [fst snd]. rewrite E. by exists c'. }
  by destruct it.
Qed.

Lemma send_items_sent (keys_ok : forall n, length (keys n) = 4%nat) its : forall l (c : Conn), sent keys l c ->
  exists c', send_items its c = Some (c', map (fun _ => None) its) /\ sent keys (l ++ map frame_of its) c' /\ c_server c' = c_server c.
Proof.
  induction its as [|it its IH]; intros l c Hs; [exists c; by rewrite app_nil_r|].
  destruct (send_item_sent keys_ok it l c Hs) as (c1 & E1 & Hs1 & R1). destruct (IH _ c1 Hs1) as (c2 & E2 & Hs2 & R2). exists c2.
  cbn [send_items]. rewrite E1. cbn [mbind option_bind]. rewrite E2. cbn [mbind option_bind map]. split; [done|]. split; [by rewrite <- app_assoc in Hs2|congruence].
Qed.

Lemma new_sent server s : sent keys [] (newHybiConn server s []).
Proof. split; [done|]. by destruct server. Qed.

(** C12: whatever messages, pings and pongs a client or a server sends (no close frames),
    with any masking keys, and however the bytes are cut on the way, [Receive] at the other end returns the messages in their order,
    each with its type, or [ErrFrameTooLarge] for one that is longer than the limit, and
    [io.EOF] at last; pings and pongs in between do not show, and each ping is answered by
    a pong with (the first 125 bytes of) its data. *)
Theorem messages_received server max its :
  (forall n, length (keys n) = 4%nat) -> Forall (fun it => zlen (frame_of it).2 < 2 ^ 63) its ->
  exists a b, send_items its (newHybiConn server (mkSource [] 0) []) = Some (a, map (fun _ => None) its) /\
    receives (S (length (messages (map frame_of its)))) (with_max max (newHybiConn (negb server) (mkSource (c_k a) 0) [])) =
      Some (b, map (result max) (messages (map frame_of its)) ++ [inl wsEOF]) /\
    c_k b = wire keys (negb server) 0 (replies (map frame_of its)).
Proof.
  intros keys_ok Hlen. destruct (send_items_sent keys_ok its [] _ (new_sent server (mkSource [] 0))) as (a & E & [Hw _] & R).
  assert (Forall frame_ok (map frame_of its)) as Hok.
  { apply Forall_map. eapply Forall_impl; [exact Hlen|]. intros it H. split; [destruct it; cbn; auto|done]. }
  set (b0 := with_max max (newHybiConn (negb server) (mkSource (c_k a) 0) ([] : bytes))).
  assert (ready keys [] (map frame_of its) b0) as HR.
  { split; [by split; [done|destruct server]|]. exists 0%nat. cbn. rewrite R in Hw. rewrite negb_involutive. apply Hw. }
  destruct (receives_wire chunk keys keys_ok max _ _ [] b0 eq_refl Hok HR eq_refl) as (b & E2 & [Hb _] & Rb).
  exists a, b. split; [done|]. split; [done|]. rewrite Rb in Hb. apply Hb.
Qed.

(** ** [Conn.Read] *)
Definition payloads (l : list (Z * bytes)) : bytes := concat (map snd (messages l)).

(** An end that has yet to read the bytes [w]. *)
Definition readable (r : list (Z * bytes)) (w : bytes) (c : Conn (K := bytes)) : Prop :=
  (exists l, sent keys l c) /\ Forall frame_ok r /\ exists i,
    match c_frame c with
    | None => src_in (c_src c) = wire keys (negb (c_server c)) i r /\ w = payloads r
    | Some f => after f (c_src c) = wire keys (negb (c_server c)) i r /\ w = payload_left f (c_src c) ++ payloads r
    end.

Lemma payloads_data f r : is_data f = true -> payloads (f :: r) = f.2 ++ payloads r.
Proof. intros H. unfold payloads, messages. simpl. by rewrite H. Qed.

Definition to_read (c : Conn (K := bytes)) : nat := (length (src_in (c_src c)) + match c_frame c with Some _ => 1 | None => 0 end)%nat.

Lemma wireWrite_law : writer_law wireWrite.
Proof. intros k p. unfold wireWrite. pose proof (zlen_nonneg p). lia. Qed.

Abbreviation ReadLoop := (ws_ReadLoop wireWrite chunk randomKey).

(** An open frame gives bytes or ends. *)
Lemma read_open n f (c : Conn (K := bytes)) : 0 < n ->
  (exists f' s', hybi_Read chunk n f (c_src c) = (f', s', ([], Some wsEOF)) /\ src_in s' = src_in (c_src c) /\ payload_left f (c_src c) = [] /\
     after f (c_src c) = src_in (c_src c)) \/
  exists d f' s', hybi_Read chunk n f (c_src c) = (f', s', (d, None)) /\ d <> [] /\ zlen d <= n /\
    payload_left f (c_src c) = d ++ payload_left f' s' /\ after f' s' = after f (c_src c).
Proof.
  intros Hn. destruct (decide (fr_N f <= 0 \/ src_in (c_src c) = [])) as [He|He].
  - left. destruct (payload_end f (c_src c) He) as [Hp Ha].
    destruct (hybi_Read_end chunk n f (c_src c)) as [E|(f' & s' & E & _ & _ & Hs)]; [destruct He; [by left|right; split; [done|lia]]|..].
    + by exists f, (c_src c).
    + by exists f', s'.
  - right. assert (0 < fr_N f) as HN0 by (destruct (Z.lt_ge_cases 0 (fr_N f)); [done|exfalso; apply He; by left]).
    assert (src_in (c_src c) <> []) as Hs0 by (intros ?; apply He; by right).
    destruct (hybi_Read_some chunk n f (c_src c)) as (d & f' & s' & E & Hd & Hdn & HdN & Hp & _ & HN & Hs & Hl); [done..|].
    exists d, f', s'. repeat (split; [done|]). by apply (after_some _ _ d).
Qed.

Lemma ReadLoop_step (keys_ok : forall n, length (keys n) = 4%nat) n : 0 < n -> forall fuel r w c, readable r w c -> (to_read c <= fuel)%nat ->
  exists c' d err, ReadLoop fuel n c = Some (c', (d, err)) /\ zlen d <= n /\
    (err = None /\ d <> [] /\ (exists r' w', w = d ++ w' /\ readable r' w' c') \/ err = Some wsEOF /\ d = [] /\ w = []).
Proof.
  intros Hn fuel. induction fuel as [fuel IH] using lt_wf_ind. intros r w c HR Hf.
  assert (forall f c1 r1 w1, readable r1 w1 (set_frame (Some f) c1) -> (length (src_in (c_src c1)) < fuel)%nat ->
    exists c' d err, (let '(f, s, (d, err)) := hybi_Read chunk n f (c_src c1) in
      let c := set_src s c1 in
      match err with
      | Some wsEOF => match fuel with O => None | S fuel => ReadLoop fuel n (set_frame None c) end
      | _ => Some (set_frame (Some f) c, (d, err))
      end) = Some (c', (d, err)) /\ zlen d <= n /\
      (err = None /\ d <> [] /\ (exists r' w', w1 = d ++ w' /\ readable r' w' c') \/ err = Some wsEOF /\ d = [] /\ w1 = [])) as Hopen.
  { intros f c1 r1 w1 ((l & Hs) & Hok & i & Hi) Hlt. cbn in Hi. destruct Hi as [Hi Hw].
    destruct (read_open n f c1 Hn) as [(f' & s' & E & Hs' & Hp & Ha)|(d & f' & s' & E & Hd & Hdn & Hp & Ha)]; rewrite E; cbv zeta.
    - destruct fuel as [|fuel]; [lia|]. rewrite Hw, Hp. apply (IH fuel ltac:(lia) r1).
      + split; [by exists l|]. split; [done|]. exists i. cbn. rewrite Hs', <- Ha. done.
      + unfold to_read. cbn. rewrite Hs'. lia.
    - eexists _, d, None. split; [done|]. split; [done|]. left. split; [done|]. split; [done|]. exists r1, (payload_left f' s' ++ payloads r1).
      rewrite Hw, Hp, app_assoc. split; [done|]. split; [by exists l|]. split; [done|]. exists i. cbn. by rewrite Ha. }
  assert (ReadLoop fuel n c = ('(c, r) ← match c_frame c with
      | Some f => Some (c, inr f)
      | None => nextFrame wireWrite chunk randomKey (S (length (src_in (c_src c)))) c
      end;
    match r with
    | inl e => Some (set_frame None c, ([], Some e))
    | inr f =>
      let '(f, s, (d, err)) := hybi_Read chunk n f (c_src c) in
      let c := set_src s c in
      match err with
      | Some wsEOF => match fuel with O => None | S fuel => ReadLoop fuel n (set_frame None c) end
      | _ => Some (set_frame (Some f) c, (d, err))
      end
    end)) as -> by by destruct fuel.
  destruct (c_frame c) as [f|] eqn:Ef.
  - cbn [mbind option_bind]. apply (Hopen f c r w); [|unfold to_read in Hf; rewrite Ef in Hf; lia].
    destruct HR as (Hs & Hok & i & Hi). rewrite Ef in Hi. split; [done|]. split; [done|]. by exists i.
  - destruct HR as ((l & Hs) & Hok & i & Hi). rewrite Ef in Hi. destruct Hi as [Hi ->].
    destruct (nextFrame_wire chunk keys keys_ok (c_MaxPayloadBytes c) r (S (length (src_in (c_src c)))) l i c Hok) as (c1 & res & E & Q1 & Q2 & Q3 & Q4 & Q5);
      [by split|done|done|lia|].
    rewrite E. cbn [mbind option_bind]. destruct (from_data_split r) as (_ & D2 & D3 & D4). unfold payloads. rewrite D2.
    destruct (from_data r) as [|[op msg] r'].
    + destruct Q5 as [-> _]. eexists _, [], (Some wsEOF). split; [done|]. split; [change (zlen []) with 0; lia|]. by right.
    + destruct Q5 as (f & i' & -> & _ & _ & Hp & Ha). fold (payloads ((op, msg) :: r')). rewrite (payloads_data (op, msg) r' (D3 _ _ eq_refl)). cbn [snd].
      apply (Hopen f c1 r' (msg ++ payloads r')).
      * split; [by exists (l ++ replies (controls r))|]. split; [specialize (D4 Hok); by inversion D4|]. exists i'. cbn. rewrite Q1, Hp. done.
      * assert (bounded c) as Hb by (destruct Hs as [[_ Hb] _]; unfold bounded; by rewrite Hb).
        pose proof (nextFrame_shrinks wireWrite chunk randomKey wireWrite_law _ _ _ _ Hb E) as Hlt. unfold left_in, to_read in *. rewrite Ef in Hf. lia.
Qed.

(** Reads into buffers of the given sizes, until one fails. *)
Fixpoint reads (ns : list Z) (c : Conn (K := bytes)) : option (Conn * bytes * bool) :=
  match ns with
  | [] => Some (c, [], false)
  | n :: ns =>
      '(c, (d, err)) ← ws_Read wireWrite chunk randomKey n c;
      match err with
      | Some _ => Some (c, d, true)
      | None => '(c, d', ended) ← reads ns c; Some (c, d ++ d', ended)
      end
  end.

Lemma reads_readable (keys_ok : forall n, length (keys n) = 4%nat) ns : Forall (fun n => 0 < n) ns -> forall r w c, readable r w c ->
  exists c' d ended w', reads ns c = Some (c', d, ended) /\ w = d ++ w' /\ (if ended : bool then w' = [] else (length ns <= length d)%nat).
Proof.
  induction 1 as [|n ns Hn _ IH]; intros r w c HR; [by exists c, [], false, w|].
  destruct (ReadLoop_step keys_ok n Hn (S (length (src_in (c_src c)))) r w c HR) as (c1 & d & err & E & _ & [(-> & Hd & r' & w' & -> & HR')|(-> & -> & ->)]).
  { unfold to_read. destruct (c_frame c); lia. }
  - destruct (IH r' w' c1 HR') as (c2 & d2 & ended & w2 & E2 & -> & H2). exists c2, (d ++ d2), ended, w2. cbn [reads]. unfold ws_Read. rewrite E.
    cbn [mbind option_bind]. rewrite E2. cbn [mbind option_bind]. split; [done|]. split; [by rewrite app_assoc|].
    destruct ended; [done|]. rewrite length_app. destruct d; [done|]. cbn [length]. lia.
  - exists c1, [], true, []. cbn [reads]. unfold ws_Read. by rewrite E.
Qed.

(** C13: [Conn.Read] gives the payloads of the frames with data, one after the other, into
    buffers of any sizes and however the bytes are cut on the way: every read returns at
    least a byte, until [io.EOF] when all were read. *)
Theorem stream_received server its ns :
  (forall n, length (keys n) = 4%nat) -> Forall (fun it => zlen (frame_of it).2 < 2 ^ 63) its -> Forall (fun n => 0 < n) ns ->
  exists a b d ended rest, send_items its (newHybiConn server (mkSource [] 0) []) = Some (a, map (fun _ => None) its) /\
    reads ns (newHybiConn (negb server) (mkSource (c_k a) 0) []) = Some (b, d, ended) /\
    d ++ rest = payloads (map frame_of its) /\ (if ended : bool then rest = [] else (length ns <= length d)%nat).
Proof.
  intros keys_ok Hlen Hns. destruct (send_items_sent keys_ok its [] _ (new_sent server (mkSource [] 0))) as (a & E & [[Hw _] _] & R).
  assert (readable (map frame_of its) (payloads (map frame_of its)) (newHybiConn (negb server) (mkSource (c_k a) 0) [])) as HR.
  { split; [exists []; apply new_sent|]. split.
    - apply Forall_map. eapply Forall_impl; [exact Hlen|]. intros it H. split; [destruct it; cbn; auto|done].
    - exists 0%nat. cbn. rewrite R in Hw. by rewrite negb_involutive. }
  destruct (reads_readable keys_ok ns Hns _ _ _ HR) as (b & d & ended & rest & E2 & Hd & He). exists a, b, d, ended, rest. done.
Qed.
End spec.

(** C14: on any input, also of an attacker, and over any connection, [Receive] returns: it
    answers a bounded number of frames; what it returns is no longer than the limit. *)
Theorem receive_bounded {K} (connWrite : K -> bytes -> K * (Z * option ws_error)) chunk randomKey (c : Conn (K := K)) :
  writer_law connWrite -> zlen (bf_buf (c_bw c)) <= bufioSize -> 0 <= c_MaxPayloadBytes c ->
  exists c' r, receive connWrite chunk randomKey c = Some (c', r) /\ zlen (bf_buf (c_bw c')) <= bufioSize /\
    forall data payloadType, r = inr (data, payloadType) -> zlen data <= limit (c_MaxPayloadBytes c).
Proof.
  intros law Hb Hmax. unfold receive. cbv zeta.
  assert (exists c1, match c_frame c with
      | Some f => '(_, s) ← discard chunk (S (length (src_in (c_src c)))) f (c_src c); Some (set_frame None (set_src s c))
      | None => Some c end = Some c1 /\ bounded c1 /\ c_MaxPayloadBytes c1 = c_MaxPayloadBytes c) as (c1 & -> & Hb1 & Hm1).
  { destruct (c_frame c) as [f|]; [|by exists c].
    destruct (discard_spec chunk (S (length (src_in (c_src c)))) f (c_src c)) as (f' & s' & -> & _); [lia|]. by eexists. }
  cbn [mbind option_bind].
  destruct (nextFrame_total connWrite chunk randomKey law (S (length (src_in (c_src c1)))) c1 Hb1) as (c2 & r & E & Hl & Hm2 & Hb2); [unfold left_in; lia|].
  rewrite E. cbn [mbind option_bind]. destruct r as [e|f]; [by eexists _, _|].
  apply nextFrame_fresh in E as [HN _]. rewrite Hm2, Hm1. fold (limit (c_MaxPayloadBytes c)).
  destruct (hh_Length (fr_header f) >? limit (c_MaxPayloadBytes c)) eqn:El; [by eexists _, _|].
  destruct (readAll_spec chunk (S (length (src_in (c_src c2)))) f (c_src c2) []) as (f' & s' & -> & Hh & _); [lia|].
  cbn [mbind option_bind]. eexists _, _. split; [done|]. split; [done|]. intros data op [= <- _]. cbn.
  unfold payload_left. rewrite unmasked_zlen. unfold zlen. rewrite length_take.
  assert (0 <= limit (c_MaxPayloadBytes c)) by (unfold limit; destruct (_ =? 0); [done|lia]). lia.
Qed.

(** ** Examples *)
Definition sample_key (n : nat) : bytes := [Z.of_nat n; 200; 7; 255].

Definition sample_items : list item := [
  Text (str "hello"); Ping (str "are you there"); Binary (repeat 7 200); Pong []; Text []; Binary (repeat 9 70000); Text (str "bye")].

(** The client sends; a message of 70000 bytes is too large. *)
Lemma messages_received_witness :
  exists a b, send_items sample_key sample_items (newHybiConn false (mkSource [] 0) []) = Some (a, map (fun _ => None) sample_items) /\
    receives (fun n => Nat.modulo n 3) sample_key 6 (with_max 60000 (newHybiConn true (mkSource (c_k a) 0) [])) =
      Some (b, [inr (str "hello", 1); inr (repeat 7 200, 2); inr ([], 1); inl ErrFrameTooLarge; inr (str "bye", 1); inl wsEOF]) /\
    c_k b = [138; 13] ++ str "are you there".
Proof.
  exact (messages_received (fun n => Nat.modulo n 3) sample_key false 60000 sample_items (fun _ => eq_refl)
    (bool_decide_unpack _ (I : bool_decide (Forall (fun it => zlen (frame_of it).2 < 2 ^ 63) sample_items)))).
Defined.

Lemma stream_received_witness :
  exists a b d ended rest, send_items sample_key sample_items (newHybiConn true (mkSource [] 0) []) = Some (a, map (fun _ => None) sample_items) /\
    reads (fun n => n) sample_key [3; 100; 1; 1000] (newHybiConn false (mkSource (c_k a) 0) []) = Some (b, d, ended) /\
    d ++ rest = payloads (map frame_of sample_items) /\ (if ended : bool then rest = [] else (4 <= length d)%nat).
Proof.
  refine (stream_received (fun n => n) sample_key true sample_items [3; 100; 1; 1000] (fun _ => eq_refl)
    (bool_decide_unpack _ (I : bool_decide (Forall (fun it => zlen (frame_of it).2 < 2 ^ 63) sample_items))) _).
  repeat constructor.
Defined.

(** Truncated headers, a frame without a mask, a ping of 130 bytes. *)
Lemma receive_bounded_witness :
  exists c' r, receive wireWrite (fun n => n) (fun _ => inl wsEOF) (newHybiConn true (mkSource ([137; 254; 0; 130; 1; 2; 3; 4] ++ repeat 5 130 ++ [129; 3; 1]) 0) []) = Some (c', r) /\
    zlen (bf_buf (c_bw c')) <= bufioSize /\ forall data payloadType, r = inr (data, payloadType) -> zlen data <= limit 0.
Proof. apply receive_bounded; [exact wireWrite_law|discriminate|discriminate]. Defined.

(** A frame that ends early with the connection is returned as if it were whole: two bytes
    of a message of ten. *)
Lemma truncated_message :
  exists c, receive wireWrite (fun n => n) (fun _ => inl wsEOF) (newHybiConn false (mkSource ([129; 10] ++ str "to") 0) []) = Some (c, inr (str "to", TextFrame)).
Proof. eexists. vm_compute. reflexivity. Qed.
