(* ===== verification/WebdavFile.v ===== *)
(** * Package webdav: the file system in memory

    Models [memFS], [memFSNode] and [memFile] of src/webdav/file.go, with [moveFiles] and
    [copyFiles].  Nodes live in a store: directories, and files that are open, point into
    it, so that a file that was removed or renamed can still be read.  The order in which
    Go ranges over the children of a directory is the parameter [order]. *)

From S2P Require Import Prelude WebdavPath.

(** ** Package os *)
Definition ModeDir : Z := 2 ^ 31.
Definition ModePerm : Z := 511.
Definition IsDir (mode : Z) : bool := negb (Z.land mode ModeDir =? 0).
Definition Perm (mode : Z) : Z := Z.land mode ModePerm.

(** The flags of Linux. *)
Definition O_RDONLY : Z := 0.
Definition O_WRONLY : Z := 1.
Definition O_RDWR : Z := 2.
Definition O_CREATE : Z := 64.
Definition O_EXCL : Z := 128.
Definition O_TRUNC : Z := 512.
Definition O_APPEND : Z := 1024.
Definition O_SYNC : Z := 1052672.

Inductive fs_error :=
| ErrInvalid | ErrPermission | ErrExist | ErrNotExist
| errNotADirectory | errDirectoryNotEmpty | errRecursionTooDeep | errEOF
| PathError (op path : bytes) (err : fs_error).

#[export] Instance fs_error_eq_dec : EqDecision fs_error.
Proof. solve_decision. Defined.

(** [os.IsNotExist] looks into one [PathError]. *)
Definition IsNotExist (e : fs_error) : bool :=
  match e with ErrNotExist | PathError _ _ ErrNotExist => true | _ => false end.

(** ** Package path *)
Definition cleanRelStep (stack : list bytes) (e : bytes) : list bytes :=
  if bool_decide (e = [] \/ e = [46]) then stack
  else if bool_decide (e = [46; 46]) then
    match stack with
    | [] => [e]
    | top :: rest => if bool_decide (top = [46; 46]) then e :: stack else rest
    end
  else e :: stack.

Fixpoint joinSlash (es : list bytes) : bytes :=
  match es with [] => [] | [e] => e | e :: es => e ++ slash :: joinSlash es end.

(** [path.Clean] of any path. *)
Definition Clean (p : bytes) : bytes :=
  match p with
  | b :: _ =>
      if b =? slash then path_Clean p
      else let es := rev (fold_left cleanRelStep (splitSlash p) []) in match es with [] => [46] | _ => joinSlash es end
  | [] => [46]
  end.

(** [path.Join] of two. *)
Definition path_Join (a b : bytes) : bytes :=
  match a, b with
  | [], [] => []
  | [], _ => Clean b
  | _, [] => Clean a
  | _, _ => Clean (a ++ slash :: b)
  end.

Fixpoint dropSlashes (s : bytes) : bytes := match s with b :: s' => if b =? slash then dropSlashes s' else s | [] => [] end.

Definition path_Base (p : bytes) : bytes :=
  match p with
  | [] => [46]
  | _ =>
      let p := rev (dropSlashes (rev p)) in
      let p := drop (Z.to_nat (LastIndexByte p slash + 1)) p in
      match p with [] => [slash] | _ => p end
  end.

(** ** Nodes *)
Record Property := mkProperty {
  pr_XMLName : bytes * bytes;
  pr_Lang : bytes;
  pr_InnerXML : bytes
}.

(** What the mutex of a node guards. *)
Record attr := mkAttr {
  a_data : bytes;
  a_mode : Z;                                    (* os.FileMode *)
  a_modTime : Z;
  a_deadProps : gmap (bytes * bytes) Property    (* nil is the empty map *)
}.

Record memFSNode := mkNode {
  n_children : option (gmap bytes nat);
  n_attr : attr
}.

(** The root is node 0. *)
Record memFS := mkFS {
  fs_nodes : gmap nat memFSNode;
  fs_next : nat
}.

Record memFileInfo := mkInfo {
  fi_name : bytes;
  fi_size : Z;
  fi_mode : Z;
  fi_modTime : Z
}.

Record memFile := mkFile {
  f_n : nat;
  f_nameSnapshot : bytes;
  f_childrenSnapshot : list memFileInfo;
  f_pos : Z                                      (* int *)
}.

Definition root : nat := 0.

Definition NewMemFS (now : Z) : memFS :=
  mkFS {[root := mkNode (Some ∅) (mkAttr [] (Z.lor 432 ModeDir) now ∅)]} 1.

Definition stat (name : bytes) (a : attr) : memFileInfo := mkInfo name (zlen (a_data a)) (a_mode a) (a_modTime a).

Definition set_children (cs : gmap bytes nat) (n : memFSNode) : memFSNode := mkNode (Some cs) (n_attr n).
Definition set_data (d : bytes) (a : attr) : attr := mkAttr d (a_mode a) (a_modTime a) (a_deadProps a).
Definition set_modTime (t : Z) (a : attr) : attr := mkAttr (a_data a) (a_mode a) t (a_deadProps a).
Definition set_deadProps (p : gmap (bytes * bytes) Property) (a : attr) : attr := mkAttr (a_data a) (a_mode a) (a_modTime a) p.

(** A call: [None] is a panic. *)
Abbreviation call A := (option (memFS * (fs_error + A))).

Definition ok {A} (fs : memFS) (x : A) : call A := Some (fs, inr x).
Definition fail {A} (fs : memFS) (e : fs_error) : call A := Some (fs, inl e).

(** ** Walking *)

(** [f] closes over the state [S].  Every round drops a byte of the name. *)
Fixpoint walkDir {S} (fuel : nat) (fs : memFS) (op original : bytes) (dir : nat) (fullname : bytes)
    (f : nat -> bytes -> bool -> S -> S + fs_error) (s : S) : option (S + fs_error) :=
  match fuel with
  | O => None
  | Datatypes.S fuel =>
      let i := IndexByte fullname slash in
      let final := i <? 0 in
      let frag := if final then fullname else take (Z.to_nat i) fullname in
      let remaining := if final then [] else drop (Z.to_nat (i + 1)) fullname in
      if bool_decide (frag = []) && negb (Nat.eqb dir root) then None
      else
        match f dir frag final s with
        | inr e => Some (inr (PathError op original e))
        | inl s =>
            if final then Some (inl s)
            else
              n ← fs_nodes fs !! dir;
              match default ∅ (n_children n) !! frag with
              | None => Some (inr (PathError op original ErrNotExist))
              | Some child =>
                  c ← fs_nodes fs !! child;
                  if negb (IsDir (a_mode (n_attr c))) then Some (inr (PathError op original ErrInvalid))
                  else walkDir fuel fs op original child remaining f s
              end
        end
  end.

Definition walk {S} (fs : memFS) (op fullname : bytes) (f : nat -> bytes -> bool -> S -> S + fs_error) (s : S) : option (S + fs_error) :=
  let original := fullname in
  let fullname := slashClean fullname in
  let fullname := match fullname with b :: rest => if b =? slash then rest else fullname | [] => [] end in
  walkDir (Datatypes.S (length fullname)) fs op original root fullname f s.

(** [None] inside: the root itself. *)
Definition find (fs : memFS) (op fullname : bytes) : option (option (nat * bytes) + fs_error) :=
  walk fs op fullname
    (fun parent0 frag0 final s =>
       inl (if negb final then s else if negb (bool_decide (frag0 = [])) then Some (parent0, frag0) else s)) None.

(** ** The operations of the file system *)
Section memFS.
Context (zos : bool) (order : gmap bytes nat -> list bytes).

(** The children of a directory, and the assignments to the map; nil has none, and to
    assign to it is a panic. *)
Definition children (fs : memFS) (dir : nat) : gmap bytes nat := default ∅ (fs_nodes fs !! dir ≫= n_children).

Definition put_child (fs : memFS) (dir : nat) (frag : bytes) (child : nat) : option memFS :=
  n ← fs_nodes fs !! dir; cs ← n_children n;
  Some (mkFS (<[dir := set_children (<[frag := child]> cs) n]> (fs_nodes fs)) (fs_next fs)).

Definition delete_child (fs : memFS) (dir : nat) (frag : bytes) : option memFS :=
  n ← fs_nodes fs !! dir;
  Some (match n_children n with
        | Some cs => mkFS (<[dir := set_children (delete frag cs) n]> (fs_nodes fs)) (fs_next fs)
        | None => fs
        end).

Definition new_node (fs : memFS) (n : memFSNode) : memFS * nat := (mkFS (<[fs_next fs := n]> (fs_nodes fs)) (S (fs_next fs)), fs_next fs).

Definition set_attr (fs : memFS) (i : nat) (a : attr) : memFS :=
  mkFS (alter (fun n => mkNode (n_children n) a) i (fs_nodes fs)) (fs_next fs).

Definition Mkdir (name : bytes) (perm now : Z) (fs : memFS) : call unit :=
  r ← find fs (str "mkdir") name;
  match r with
  | inr e => fail fs e
  | inl None => fail fs ErrInvalid
  | inl (Some (dir, frag)) =>
      if bool_decide (is_Some (children fs dir !! frag)) then fail fs ErrExist
      else
        let '(fs, n) := new_node fs (mkNode (Some ∅) (mkAttr [] (Z.lor (Perm perm) ModeDir) now ∅)) in
        fs ← put_child fs dir frag n; ok fs tt
  end.

(** The [memFile] for the node [n]. *)
Definition open_node (fs : memFS) (n : nat) (frag : bytes) : call memFile :=
  node ← fs_nodes fs !! n;
  let cs := default ∅ (n_children node) in
  infos ← mapM (fun cName => c ← cs !! cName; c ← fs_nodes fs !! c; Some (stat cName (n_attr c))) (order cs);
  ok fs (mkFile n frag infos 0).

Definition OpenFile (name : bytes) (flag perm : Z) (fs : memFS) : call memFile :=
  r ← find fs (str "open") name;
  match r with
  | inr e => fail fs e
  | inl None =>
      if negb (Z.land flag (if zos then O_WRONLY else Z.lor O_WRONLY O_RDWR) =? 0) then fail fs ErrPermission
      else open_node fs root [slash]
  | inl (Some (dir, frag)) =>
      let n := children fs dir !! frag in
      if negb (Z.land flag (Z.lor O_SYNC O_APPEND) =? 0) then fail fs ErrInvalid
      else if negb (Z.land flag O_CREATE =? 0) && negb (Z.land flag O_EXCL =? 0) && bool_decide (is_Some n) then fail fs ErrExist
      else
        let created :=
          match n with
          | Some n => Some (fs, Some n)
          | None =>
              if negb (Z.land flag O_CREATE =? 0) then
                let '(fs, n) := new_node fs (mkNode None (mkAttr [] (Perm perm) 0 ∅)) in
                fs ← put_child fs dir frag n; Some (fs, Some n)
              else Some (fs, None)
          end in
        '(fs, n) ← created;
        match n with
        | None => fail fs ErrNotExist
        | Some n =>
            node ← fs_nodes fs !! n;
            let fs := if negb (Z.land flag (Z.lor O_WRONLY O_RDWR) =? 0) && negb (Z.land flag O_TRUNC =? 0)
                      then set_attr fs n (set_data [] (n_attr node)) else fs in
            open_node fs n frag
        end
  end.

Definition RemoveAll (name : bytes) (fs : memFS) : call unit :=
  r ← find fs (str "remove") name;
  match r with
  | inr e => fail fs e
  | inl None => fail fs ErrInvalid
  | inl (Some (dir, frag)) => fs ← delete_child fs dir frag; ok fs tt
  end.

Definition Rename (oldName newName : bytes) (fs : memFS) : call unit :=
  let oldName := slashClean oldName in
  let newName := slashClean newName in
  if bool_decide (oldName = newName) then ok fs tt
  else if HasPrefix newName (oldName ++ [slash]) then fail fs ErrInvalid
  else
    r ← find fs (str "rename") oldName;
    match r with
    | inr e => fail fs e
    | inl None => fail fs ErrInvalid
    | inl (Some (oDir, oFrag)) =>
        r ← find fs (str "rename") newName;
        match r with
        | inr e => fail fs e
        | inl None => fail fs ErrInvalid
        | inl (Some (nDir, nFrag)) =>
            match children fs oDir !! oFrag with
            | None => fail fs ErrNotExist
            | Some oNode =>
                o ← fs_nodes fs !! oNode;
                let over :=
                  match n_children o, children fs nDir !! nFrag with
                  | Some _, Some nNode =>
                      n ← fs_nodes fs !! nNode;
                      Some (match n_children n with
                            | None => Some errNotADirectory
                            | Some cs => if bool_decide (cs = ∅) then None else Some errDirectoryNotEmpty
                            end)
                  | _, _ => Some None
                  end in
                over ← over;
                match over with
                | Some e => fail fs e
                | None => fs ← delete_child fs oDir oFrag; fs ← put_child fs nDir nFrag oNode; ok fs tt
                end
            end
        end
    end.

Definition Stat (name : bytes) (fs : memFS) : call memFileInfo :=
  r ← find fs (str "stat") name;
  match r with
  | inr e => fail fs e
  | inl None => n ← fs_nodes fs !! root; ok fs (stat [slash] (n_attr n))
  | inl (Some (dir, frag)) =>
      match children fs dir !! frag with
      | Some n => n ← fs_nodes fs !! n; ok fs (stat (path_Base name) (n_attr n))
      | None => fail fs ErrNotExist
      end
  end.
End memFS.

(** ** Open files

    Each is given the attributes of the node and returns those that it leaves. *)
Definition f_Read (n : Z) (f : memFile) (a : attr) : memFile * (bytes * option fs_error) :=
  if IsDir (a_mode a) then (f, ([], Some ErrInvalid))
  else if f_pos f >=? zlen (a_data a) then (f, ([], Some errEOF))
  else
    let d := zsub (a_data a) (f_pos f) n in
    (mkFile (f_n f) (f_nameSnapshot f) (f_childrenSnapshot f) (f_pos f + zlen d), (d, None)).

(** [None]: the sum wrapped and the slice expression panics. *)
Definition f_Readdir (count : Z) (f : memFile) (a : attr) : option (memFile * (list memFileInfo * option fs_error)) :=
  if negb (IsDir (a_mode a)) then Some (f, ([], Some ErrInvalid))
  else
    let old := f_pos f in
    let len := zlen (f_childrenSnapshot f) in
    if old >=? len then Some (f, ([], if count >? 0 then Some errEOF else None))
    else
      let '(old, pos) := if count >? 0 then let p := swrap 64 (old + count) in (old, if p >? len then len else p) else (0, len) in
      infos ← zslice (f_childrenSnapshot f) old pos;
      Some (mkFile (f_n f) (f_nameSnapshot f) (f_childrenSnapshot f) pos, (infos, None)).

(** [whence] is 0, 1 or 2. *)
Definition f_Seek (offset whence : Z) (f : memFile) (a : attr) : memFile * (Z * option fs_error) :=
  let npos :=
    if whence =? 0 then offset
    else if whence =? 1 then swrap 64 (f_pos f + offset)
    else if whence =? 2 then swrap 64 (zlen (a_data a) + offset)
    else -1 in
  if npos <? 0 then (f, (0, Some ErrInvalid))
  else (mkFile (f_n f) (f_nameSnapshot f) (f_childrenSnapshot f) npos, (npos, None)).

Definition f_Stat (f : memFile) (a : attr) : memFileInfo := stat (f_nameSnapshot f) a.

(** Both ways to make a hole, in the slice's capacity or in a new slice, fill it with
    zeros. *)
Definition f_Write (p : bytes) (now : Z) (f : memFile) (a : attr) : memFile * attr * (Z * option fs_error) :=
  let lenp := zlen p in
  if IsDir (a_mode a) then (f, a, (0, Some ErrInvalid))
  else
    let data := a_data a in
    let '(pos, data, p) :=
      if f_pos f <? zlen data then
        let n := Z.min (zlen p) (zlen data - f_pos f) in
        (f_pos f + n, take (Z.to_nat (f_pos f)) data ++ take (Z.to_nat n) p ++ drop (Z.to_nat (f_pos f + n)) data, drop (Z.to_nat n) p)
      else if f_pos f >? zlen data then (f_pos f, data ++ repeat 0 (Z.to_nat (f_pos f - zlen data)), p)
      else (f_pos f, data, p) in
    let '(pos, data) := if 0 <? zlen p then (zlen (data ++ p), data ++ p) else (pos, data) in
    (mkFile (f_n f) (f_nameSnapshot f) (f_childrenSnapshot f) pos, set_modTime now (set_data data a), (lenp, None)).

(** ** Dead properties *)
Record Proppatch := mkPatch {
  pp_Remove : bool;
  pp_Props : list Property
}.

(** The names of the one [Propstat] that is returned, with status 200. *)
Definition f_Patch (patches : list Proppatch) (a : attr) : attr * list (bytes * bytes) :=
  fold_left (fun '(a, names) patch =>
    fold_left (fun '(a, names) p =>
      (set_deadProps (if pp_Remove patch then delete (pr_XMLName p) (a_deadProps a) else <[pr_XMLName p := p]> (a_deadProps a)) a,
       names ++ [pr_XMLName p])) (pp_Props patch) (a, names)) patches (a, []).

Definition f_DeadProps (a : attr) : gmap (bytes * bytes) Property := a_deadProps a.

(** ** The interface

    What the handler asks of a file system.  [fsys_attr] and [fsys_set_attr] are the node
    of an open file. *)
Class FileSystem (X : Type) := mkFileSystem {
  fsys_Mkdir : bytes -> Z -> Z -> X -> option (X * (fs_error + unit));
  fsys_OpenFile : bytes -> Z -> Z -> X -> option (X * (fs_error + memFile));
  fsys_RemoveAll : bytes -> X -> option (X * (fs_error + unit));
  fsys_Rename : bytes -> bytes -> X -> option (X * (fs_error + unit));
  fsys_Stat : bytes -> X -> option (X * (fs_error + memFileInfo));
  fsys_attr : X -> nat -> option attr;
  fsys_set_attr : nat -> attr -> X -> X
}.

Definition memFileSystem (zos : bool) (order : gmap bytes nat -> list bytes) : FileSystem memFS :=
  mkFileSystem memFS Mkdir (OpenFile zos order) RemoveAll Rename Stat (fun fs i => n_attr <$> fs_nodes fs !! i) (fun i a fs => set_attr fs i a).

(** ** Moving and copying *)
Definition infiniteDepth : Z := -1.

Section copy.
Context {X : Type} `{FileSystem X} (now : Z).

Definition moveFiles (src dst : bytes) (overwrite : bool) (fs : X) : option (X * (Z * option fs_error)) :=
  '(fs, r) ← fsys_Stat dst fs;
  let rename (created : bool) (fs : X) :=
    '(fs, r) ← fsys_Rename src dst fs;
    match r with
    | inl e => Some (fs, (403, Some e))
    | inr _ => Some (fs, (if created then 201 else 204, None))
    end in
  match r with
  | inl e => if negb (IsNotExist e) then Some (fs, (403, Some e)) else rename true fs
  | inr _ =>
      if overwrite then
        '(fs, r) ← fsys_RemoveAll dst fs;
        match r with
        | inl e => Some (fs, (403, Some e))
        | inr _ => rename false fs
        end
      else Some (fs, (412, Some ErrExist))
  end.

(** [io.Copy] between open files, with a buffer of 32 KiB. *)
Definition copyBufSize : Z := 32 * 1024.

Fixpoint io_Copy (fuel : nat) (src dst : memFile) (fs : X) : option (X * option fs_error) :=
  s ← fsys_attr fs (f_n src);
  let '(src, (d, err)) := f_Read copyBufSize src s in
  let written :=
    if 0 <? zlen d then
      t ← fsys_attr fs (f_n dst);
      let '(dst', a, (_, err)) := f_Write d now dst t in
      Some (fsys_set_attr (f_n dst) a fs, dst', err)
    else Some (fs, dst, None) in
  '(fs, dst, werr) ← written;
  match werr, err with
  | Some e, _ => Some (fs, Some e)
  | None, Some errEOF => Some (fs, None)
  | None, Some e => Some (fs, Some e)
  | None, None => match fuel with O => None | S fuel => io_Copy fuel src dst fs end
  end.

Definition copyProps (dst src : memFile) (fs : X) : option X :=
  s ← fsys_attr fs (f_n src); d ← fsys_attr fs (f_n dst);
  Some (fsys_set_attr (f_n dst) (f_Patch [mkPatch false (map snd (map_to_list (f_DeadProps s)))] d).1 fs).

Fixpoint copyChildren (copy : bytes -> bytes -> X -> option (X * (Z * option fs_error))) (src dst : bytes)
    (done : X -> option (X * (Z * option fs_error))) (children : list memFileInfo) (fs : X) : option (X * (Z * option fs_error)) :=
  match children with
  | [] => done fs
  | c :: children =>
      '(fs, (cStatus, cErr)) ← copy (path_Join src (fi_name c)) (path_Join dst (fi_name c)) fs;
      match cErr with
      | Some e => Some (fs, (cStatus, Some e))
      | None => copyChildren copy src dst done children fs
      end
  end.

(** Whether the destination is new; what is there goes. *)
Definition copyTarget (dst : bytes) (overwrite : bool) (fs : X) : option (X * (Z * option fs_error + bool)) :=
  '(fs, r) ← fsys_Stat dst fs;
  match r with
  | inl e => if IsNotExist e then Some (fs, inr true) else Some (fs, inl (403, Some e))
  | inr _ =>
      if negb overwrite then Some (fs, inl (412, Some ErrExist))
      else
        '(fs, r) ← fsys_RemoveAll dst fs;
        match r with
        | inl e => if IsNotExist e then Some (fs, inr false) else Some (fs, inl (403, Some e))
        | inr _ => Some (fs, inr false)
        end
  end.

(** [recursion] counts to 1000; [fuel] is what is left of it. *)
Fixpoint copyFiles (fuel : nat) (src dst : bytes) (overwrite : bool) (depth : Z) (fs : X) : option (X * (Z * option fs_error)) :=
  match fuel with
  | O => Some (fs, (500, Some errRecursionTooDeep))
  | S fuel =>
      '(fs, r) ← fsys_OpenFile src O_RDONLY 0 fs;
      match r with
      | inl e => Some (fs, (if IsNotExist e then 404 else 500, Some e))
      | inr srcFile =>
          n ← fsys_attr fs (f_n srcFile);
          let srcStat := f_Stat srcFile n in
          let srcPerm := Z.land (fi_mode srcStat) ModePerm in
          '(fs, r) ← copyTarget dst overwrite fs;
          match (r : Z * option fs_error + bool) with
          | inl failed => Some (fs, failed)
          | inr created =>
              let done (fs : X) : option (X * (Z * option fs_error)) := Some (fs, (if created then 201 else 204, None)) in
              if IsDir (fi_mode srcStat) then
                '(fs, r) ← fsys_Mkdir dst srcPerm now fs;
                match r with
                | inl e => Some (fs, (403, Some e))
                | inr _ =>
                    if depth =? infiniteDepth then
                      n ← fsys_attr fs (f_n srcFile);
                      '(_, (infos, err)) ← f_Readdir (-1) srcFile n;
                      match err with
                      | Some e => Some (fs, (403, Some e))
                      | None =>
                          copyChildren (fun s d fs => copyFiles fuel s d overwrite depth fs) src dst done infos fs
                      end
                    else done fs
                end
              else
                '(fs, r) ← fsys_OpenFile dst (Z.lor O_RDWR (Z.lor O_CREATE O_TRUNC)) srcPerm fs;
                match r with
                | inl e => Some (fs, (if IsNotExist e then 409 else 403, Some e))
                | inr dstFile =>
                    n ← fsys_attr fs (f_n srcFile);
                    '(fs, copyErr) ← io_Copy (S (length (a_data n))) srcFile dstFile fs;
                    fs ← copyProps dstFile srcFile fs;
                    match copyErr with
                    | Some e => Some (fs, (500, Some e))
                    | None => done fs
                    end
                end
          end
      end
  end.
End copy.
