(* ===== verification/WebdavTree.v ===== *)
(** * Package webdav: the tree of a file system in memory

    The theory of [memFS]: names as lists of elements, the invariant of the tree, and what
    the assignments to the maps of children do to the names that are there. *)

From S2P Require Import Prelude WebdavPath WebdavFile.

(** ** What a name stands for *)
Fixpoint resolve_from (fs : memFS) (i : nat) (es : list bytes) : option nat :=
  match es with
  | [] => Some i
  | e :: es => match children fs i !! e with Some j => resolve_from fs j es | None => None end
  end.

Abbreviation resolve fs es := (resolve_from fs root es).

Lemma resolve_app fs i a b : resolve_from fs i (a ++ b) = match resolve_from fs i a with Some j => resolve_from fs j b | None => None end.
Proof. revert i. induction a as [|e a IH]; intros i; [done|]. simpl. destruct (children fs i !! e); [apply IH|done]. Qed.

Lemma resolve_snoc fs i a e : resolve_from fs i (a ++ [e]) = match resolve_from fs i a with Some j => children fs j !! e | None => None end.
Proof. rewrite resolve_app. destruct (resolve_from fs i a) as [j|]; [|done]. simpl. by destruct (children fs j !! e). Qed.

(** ** The invariant *)
Record fs_ok (fs : memFS) : Prop := {
  ok_root : is_Some (fs_nodes fs !! root ≫= n_children);
  ok_dir i n : fs_nodes fs !! i = Some n -> is_Some (n_children n) <-> IsDir (a_mode (n_attr n)) = true;
  ok_child i e j : children fs i !! e = Some j -> is_Some (fs_nodes fs !! j);
  ok_next i : is_Some (fs_nodes fs !! i) -> (i < fs_next fs)%nat;
  ok_unique p q i : resolve fs p = Some i -> resolve fs q = Some i -> p = q
}.

Lemma resolve_node fs p i : fs_ok fs -> resolve fs p = Some i -> is_Some (fs_nodes fs !! i).
Proof.
  intros H. destruct p as [|e p] using rev_ind.
  - intros [= <-]. destruct (ok_root fs H) as [cs E]. destruct (fs_nodes fs !! root); [eauto|done].
  - rewrite resolve_snoc. destruct (resolve fs p) as [j|]; [|done]. apply (ok_child fs H).
Qed.

Lemma children_dir fs i e j : children fs i !! e = Some j -> exists n cs, fs_nodes fs !! i = Some n /\ n_children n = Some cs /\ cs !! e = Some j.
Proof.
  unfold children. destruct (fs_nodes fs !! i) as [n|] eqn:E; simpl; [|by rewrite lookup_empty].
  destruct (n_children n) as [cs|] eqn:Ec; simpl; [|by rewrite lookup_empty]. intros H. by exists n, cs.
Qed.

(** ** Stripping a prefix *)
Fixpoint strip (p q : list bytes) : option (list bytes) :=
  match p, q with
  | [], _ => Some q
  | x :: p, y :: q => if bool_decide (x = y) then strip p q else None
  | _ :: _, [] => None
  end.

Lemma strip_spec p q r : strip p q = Some r <-> q = p ++ r.
Proof.
  revert q. induction p as [|x p IH]; intros q; simpl; [split; [by intros [= ->]|by intros ->]|].
  destruct q as [|y q]; [split; done|]. case_bool_decide as E.
  - subst y. rewrite IH. split; [by intros ->|by intros [= ->]].
  - split; [done|]. intros [= -> _]. done.
Qed.

Lemma strip_app p r : strip p (p ++ r) = Some r.
Proof. by apply strip_spec. Qed.

Lemma strip_None p q : strip p q = None <-> forall r, q <> p ++ r.
Proof.
  split; [intros H r ->; by rewrite strip_app in H|]. intros H. destruct (strip p q) as [r|] eqn:E; [|done].
  apply strip_spec in E. by destruct (H r).
Qed.

(** ** Replacing the children of one directory *)
Definition same_children_but (d : nat) (fs' fs : memFS) : Prop := forall i, i <> d -> children fs' i = children fs i.

(** A name is removed. *)
Lemma resolve_delete fs fs' d pd e : (forall p q i, resolve fs p = Some i -> resolve fs q = Some i -> p = q) -> resolve fs pd = Some d ->
  same_children_but d fs' fs -> children fs' d = delete e (children fs d) ->
  forall p, resolve fs' p = match strip (pd ++ [e]) p with Some _ => None | None => resolve fs p end.
Proof.
  intros Hu Hd Hs Hc.
  assert (forall p q i, resolve fs q = Some i -> strip (pd ++ [e]) q = None ->
    resolve_from fs' i p = match strip (pd ++ [e]) (q ++ p) with Some _ => None | None => resolve_from fs i p end) as Hgen.
  { induction p as [|x p IH]; intros q i Hq Hn; [by rewrite app_nil_r, Hn|]. simpl. rewrite (cons_middle x q p), app_assoc.
    destruct (decide (i = d)) as [->|Hi].
    - rewrite (Hu _ _ _ Hq Hd) in *. rewrite Hc. destruct (decide (x = e)) as [->|Hx].
      + rewrite lookup_delete_eq, strip_app. done.
      + rewrite lookup_delete_ne by done. assert (strip (pd ++ [e]) (pd ++ [x]) = None) as Hn'.
        { apply strip_None. intros r Er. rewrite <- app_assoc in Er. apply app_inv_head in Er. injection Er as ? _. done. }
        destruct (children fs d !! x) as [j|] eqn:Ej; [apply IH; [by rewrite resolve_snoc, Hd|done]|].
        by destruct (strip (pd ++ [e]) ((pd ++ [x]) ++ p)).
    - rewrite Hs by done. destruct (children fs i !! x) as [j|] eqn:Ej; [|by destruct (strip (pd ++ [e]) ((q ++ [x]) ++ p))].
      apply IH; [by rewrite resolve_snoc, Hq|]. apply strip_None. intros r Er.
      destruct r as [|y r] using rev_ind.
      + rewrite app_nil_r in Er. apply app_inj_tail in Er as [-> _]. congruence.
      + rewrite app_assoc in Er. apply app_inj_tail in Er as [-> _]. by rewrite strip_app in Hn. }
  intros p. apply (Hgen p [] root eq_refl). destruct pd; done.
Qed.

(** From [j] the directory [d] cannot be reached. *)
Lemma resolve_away fs fs' d j : same_children_but d fs' fs -> (forall r, resolve_from fs j r <> Some d) ->
  forall p, resolve_from fs' j p = resolve_from fs j p.
Proof.
  intros Hs. intros Hj p. revert j Hj. induction p as [|x p IH]; intros j Hj; [done|]. simpl.
  rewrite Hs by (intros ->; by apply (Hj [])). destruct (children fs j !! x) as [k|] eqn:E; [|done]. apply IH.
  intros r Hr. apply (Hj (x :: r)). simpl. by rewrite E.
Qed.

(** A name is given to a node. *)
Lemma resolve_insert fs fs' d pd e j : (forall p q i, resolve fs p = Some i -> resolve fs q = Some i -> p = q) -> resolve fs pd = Some d ->
  same_children_but d fs' fs -> children fs' d = <[e := j]> (children fs d) -> (forall r, resolve_from fs j r <> Some d) ->
  forall p, resolve fs' p = match strip (pd ++ [e]) p with Some r => resolve_from fs j r | None => resolve fs p end.
Proof.
  intros Hu Hd Hs Hc Hj.
  assert (forall p q i, resolve fs q = Some i -> strip (pd ++ [e]) q = None ->
    resolve_from fs' i p = match strip (pd ++ [e]) (q ++ p) with Some r => resolve_from fs j r | None => resolve_from fs i p end) as Hgen.
  { induction p as [|x p IH]; intros q i Hq Hn; [by rewrite app_nil_r, Hn|]. simpl. rewrite (cons_middle x q p), app_assoc.
    destruct (decide (i = d)) as [->|Hi].
    - rewrite (Hu _ _ _ Hq Hd) in *. rewrite Hc. destruct (decide (x = e)) as [->|Hx].
      + rewrite lookup_insert_eq, strip_app. by apply (resolve_away fs fs' d).
      + rewrite lookup_insert_ne by done. assert (strip (pd ++ [e]) (pd ++ [x]) = None) as Hn'.
        { apply strip_None. intros r Er. rewrite <- app_assoc in Er. apply app_inv_head in Er. injection Er as ? _. done. }
        destruct (children fs d !! x) as [k|] eqn:Ej; [apply IH; [by rewrite resolve_snoc, Hd|done]|].
        destruct (strip (pd ++ [e]) ((pd ++ [x]) ++ p)) as [r|] eqn:Er; [|done]. exfalso. apply strip_spec in Er.
        rewrite <- !app_assoc in Er. apply app_inv_head in Er. injection Er as ? _. done.
    - rewrite Hs by done. assert (strip (pd ++ [e]) (q ++ [x]) = None) as Hn'.
      { apply strip_None. intros r' Er'. destruct r' as [|y r'] using rev_ind.
        - rewrite app_nil_r in Er'. apply app_inj_tail in Er' as [-> _]. congruence.
        - rewrite app_assoc in Er'. apply app_inj_tail in Er' as [-> _]. by rewrite strip_app in Hn. }
      destruct (children fs i !! x) as [k|] eqn:Ej; [by apply IH; [rewrite resolve_snoc, Hq|]|].
      destruct (strip (pd ++ [e]) ((q ++ [x]) ++ p)) as [r|] eqn:Er; [|done]. exfalso. apply strip_spec in Er.
      apply app_eq_inv in Er as [[t [E1 E2]]|[t [E1 E2]]]; [by rewrite E1, strip_app in Hn'|].
      destruct t as [|y t] using rev_ind.
      + rewrite app_nil_r in E1. apply app_inj_tail in E1 as [-> ->]. congruence.
      + rewrite app_assoc in E1. apply app_inj_tail in E1 as [-> _]. rewrite resolve_app, resolve_snoc, Hq, Ej in Hd. done. }
  intros p. apply (Hgen p [] root eq_refl). by destruct pd.
Qed.

(** ** Finding *)
Fixpoint descend (fs : memFS) (i : nat) (es : list bytes) : nat + fs_error :=
  match es with
  | [] => inl i
  | e :: es =>
      match children fs i !! e with
      | None => inr ErrNotExist
      | Some j =>
          if IsDir (default 0 ((fun n => a_mode (n_attr n)) <$> (fs_nodes fs !! j))) then descend fs j es else inr ErrInvalid
      end
  end.

Lemma abs_name_join es : es <> [] -> abs_name es = slash :: joinSlash es.
Proof.
  intros H. rewrite abs_name_flat by done. induction es as [|e es IH]; [done|]. destruct es as [|e' es]; [simpl; by rewrite app_nil_r|].
  change (flat_map (fun e => slash :: e) (e :: e' :: es)) with (slash :: e ++ flat_map (fun e => slash :: e) (e' :: es)). by rewrite IH.
Qed.

Lemma IndexByte_absent e c : c ∉ e -> IndexByte e c = -1.
Proof.
  induction e as [|b e IH]; [done|]. intros [H1 H2]%not_elem_of_cons. simpl. destruct (Z.eqb_spec b c); [congruence|]. by rewrite IH.
Qed.

Lemma IndexByte_first e c s : c ∉ e -> IndexByte (e ++ c :: s) c = zlen e.
Proof.
  induction e as [|b e IH]; [intros _; simpl; by rewrite Z.eqb_refl|]. intros [H1 H2]%not_elem_of_cons. simpl.
  destruct (Z.eqb_spec b c); [congruence|]. rewrite IH, zlen_cons by done. pose proof (zlen_nonneg e). by rewrite (proj2 (Z.ltb_ge _ _)).
Qed.

Lemma walkDir_find fs op original f : fs_ok fs -> forall es frag dir fuel,
  elems_ok (es ++ [frag]) -> (length (joinSlash (es ++ [frag])) < fuel)%nat -> is_Some (fs_nodes fs !! dir) ->
  f = (fun parent0 frag0 final (s : option (nat * bytes)) => inl (if negb final then s else if negb (bool_decide (frag0 = [])) then Some (parent0, frag0) else s)) ->
  walkDir fuel fs op original dir (joinSlash (es ++ [frag])) f None =
    Some (match descend fs dir es with inl d => inl (Some (d, frag)) | inr e => inr (PathError op original e) end).
Proof.
  intros Hok es frag dir fuel Hes Hf Hd ->. revert dir fuel Hes Hf Hd. induction es as [|e es IH]; intros dir fuel Hes Hf Hd; (destruct fuel as [|fuel]; [lia|]); cbn [walkDir].
  - apply Forall_cons in Hes as [[Hne Hns] _]. cbn [app joinSlash] in *. rewrite IndexByte_absent by done. cbn [Z.ltb Z.compare].
    rewrite bool_decide_eq_false_2 by done. done.
  - apply Forall_cons in Hes as [[Hne Hns] Hes]. cbn [app] in *.
    assert (joinSlash (e :: es ++ [frag]) = e ++ slash :: joinSlash (es ++ [frag])) as Ej by (destruct es; done).
    rewrite Ej in *. rewrite IndexByte_first by done. pose proof (zlen_nonneg e). rewrite (proj2 (Z.ltb_ge _ _)) by done.
    assert (take (Z.to_nat (zlen e)) (e ++ slash :: joinSlash (es ++ [frag])) = e) as -> by (unfold zlen; by rewrite Nat2Z.id, take_app_length).
    assert (drop (Z.to_nat (zlen e + 1)) (e ++ slash :: joinSlash (es ++ [frag])) = joinSlash (es ++ [frag])) as ->.
    { replace (Z.to_nat (zlen e + 1)) with (length (e ++ [slash])) by (rewrite length_app; unfold zlen; simpl; lia).
      change (e ++ slash :: joinSlash (es ++ [frag])) with (e ++ [slash] ++ joinSlash (es ++ [frag])). rewrite (app_assoc e [slash]). by rewrite drop_app_length. }
    rewrite bool_decide_eq_false_2 by done. cbn [andb negb]. destruct Hd as [n En]. rewrite En. cbn [mbind option_bind descend].
    assert (children fs dir = default ∅ (n_children n)) as Ec by (unfold children; by rewrite En). rewrite Ec.
    destruct (default ∅ (n_children n) !! e) as [j|] eqn:El; [|done].
    destruct (ok_child fs Hok dir e j) as [c Hc]; [by rewrite Ec|]. rewrite Hc. cbn [mbind option_bind fmap option_fmap option_map default].
    cbn [default from_option id]. destruct (IsDir (a_mode (n_attr c))); [|done]. cbn [negb]. apply IH; [done| |by exists c].
    rewrite length_app in Hf. simpl in Hf. lia.
Qed.

Lemma find_spec fs op name : fs_ok fs ->
  find fs op name = Some (match rev (name_elements name) with
                          | [] => inl None
                          | frag :: rest => match descend fs root (rev rest) with inl d => inl (Some (d, frag)) | inr e => inr (PathError op name e) end
                          end).
Proof.
  intros Hok. unfold find, walk. rewrite slashClean_elements. pose proof (name_elements_ok name) as He. apply clean_elem_ok in He.
  destruct (rev (name_elements name)) as [|frag rest] eqn:Er.
  - assert (name_elements name = []) as -> by (by rewrite <- (rev_involutive (name_elements name)), Er). done.
  - assert (name_elements name = rev rest ++ [frag]) as E by (by rewrite <- (rev_involutive (name_elements name)), Er). rewrite E in *.
    rewrite abs_name_join by (by destruct (rev rest)). rewrite Z.eqb_refl. apply walkDir_find; [done|done|lia| |done].
    destruct (ok_root fs Hok) as [cs E0]. destruct (fs_nodes fs !! root); [eauto|done].
Qed.
