(* ===== verification/WebdavFlat.v ===== *)
(** * Package webdav: what a file system promises

    An abstract file system: a finite map from names, as lists of elements, to the
    identities of files and directories, and their attributes.  A file that is open keeps
    its identity when its name goes. *)

From S2P Require Import Prelude WebdavPath WebdavFile WebdavTree.

(** ** Maps with other keys *)
Definition rekey {K1 K2 V} `{Countable K1} `{Countable K2} (f : K1 -> option K2) (m : gmap K1 V) : gmap K2 V :=
  list_to_map (omap (fun '(k, v) => (fun k' => (k', v)) <$> f k) (map_to_list m)).

Lemma lookup_rekey {K1 K2 V} `{Countable K1} `{Countable K2} (f : K1 -> option K2) (m : gmap K1 V) k' v :
  (forall k1 k2 k', is_Some (m !! k1) -> is_Some (m !! k2) -> f k1 = Some k' -> f k2 = Some k' -> k1 = k2) ->
  rekey f m !! k' = Some v <-> exists k, m !! k = Some v /\ f k = Some k'.
Proof.
  intros Hinj. unfold rekey. set (l := omap _ (map_to_list m)).
  assert (forall k' v, (k', v) ∈ l <-> exists k, m !! k = Some v /\ f k = Some k') as Hl.
  { intros k1' v1. unfold l. rewrite list_elem_of_omap. split.
    - intros ((k, v2) & Hin & E). apply elem_of_map_to_list in Hin. destruct (f k) eqn:Ef; [|done]. injection E as <- <-. eauto.
    - intros (k & Hm & Hf). exists (k, v1). rewrite elem_of_map_to_list, Hf. done. }
  rewrite <- (Hl k' v). symmetry. apply elem_of_list_to_map.
  assert (NoDup (map_to_list m).*1) as Hnd by apply NoDup_fst_map_to_list.
  assert (forall k v, (k, v) ∈ map_to_list m -> is_Some (m !! k)) as Hsub by (intros k v1 Hin; apply elem_of_map_to_list in Hin; eauto).
  unfold l. clear Hl l. induction (map_to_list m) as [|(k, v1) r IH]; [constructor|].
  cbn [omap list_omap]. apply NoDup_cons in Hnd as [Hk Hnd]. specialize (IH Hnd (fun k v Hin => Hsub k v (list_elem_of_further _ _ _ Hin))).
  destruct (f k) as [k1|] eqn:Ef; [|exact IH]. cbn. apply NoDup_cons. split; [|exact IH].
  intros Hin. apply list_elem_of_fmap in Hin as ((k2, v2) & E & Hin). cbn in E. subst k2. apply list_elem_of_omap in Hin as ((k3, v3) & Hin & E).
  destruct (f k3) as [k4|] eqn:Ef3; [|done]. injection E as -> ->. apply Hk. apply list_elem_of_fmap. exists (k3, v2). split; [|done]. cbn.
  apply (Hinj k k3 k1); [apply (Hsub k v1); left|apply (Hsub k3 v2); by right|done..].
Qed.

(** ** State *)
Record flat := mkFlat {
  fl_names : gmap (list bytes) nat;
  fl_attrs : gmap nat attr;
  fl_next : nat
}.

Definition is_dir (s : flat) (i : nat) : bool := IsDir (default 0 (a_mode <$> fl_attrs s !! i)).

Definition flat_new (now : Z) : flat := mkFlat {[[] := root]} {[root := mkAttr [] (Z.lor 432 ModeDir) now ∅]} 1.

(** What the directory with the name [p] has. *)
Definition flat_children (s : flat) (p : list bytes) : gmap bytes nat :=
  rekey (fun q => match strip p q with Some [e] => Some e | _ => None end) (fl_names s).

(** The error of the first name from [p] on towards [p ++ es] that is not a directory. *)
Fixpoint blocked (s : flat) (p es : list bytes) : option fs_error :=
  match es with
  | [] => None
  | e :: es =>
      match fl_names s !! (p ++ [e]) with
      | None => Some ErrNotExist
      | Some j => if is_dir s j then blocked s (p ++ [e]) es else Some ErrInvalid
      end
  end.

(** The elements of a name other than the root, if its parent is a directory. *)
Definition flat_find (s : flat) (op name : bytes) : option (list bytes) + fs_error :=
  let es := name_elements name in
  match es with
  | [] => inl None
  | _ => match blocked s [] (removelast es) with None => inl (Some es) | Some e => inr (PathError op name e) end
  end.

Abbreviation reply A := (flat * (fs_error + A))%type.

Definition bind_name (p : list bytes) (a : attr) (s : flat) : flat :=
  mkFlat (<[p := fl_next s]> (fl_names s)) (<[fl_next s := a]> (fl_attrs s)) (S (fl_next s)).

Definition flat_set_attr (i : nat) (a : attr) (s : flat) : flat := mkFlat (fl_names s) (alter (fun _ => a) i (fl_attrs s)) (fl_next s).

(** ** Operations *)
Section flat.
Context (zos : bool) (order : gmap bytes nat -> list bytes).

Definition flat_Mkdir (name : bytes) (perm now : Z) (s : flat) : reply unit :=
  match flat_find s (str "mkdir") name with
  | inr e => (s, inl e)
  | inl None => (s, inl ErrInvalid)
  | inl (Some p) =>
      if bool_decide (is_Some (fl_names s !! p)) then (s, inl ErrExist)
      else (bind_name p (mkAttr [] (Z.lor (Perm perm) ModeDir) now ∅) s, inr tt)
  end.

(** All names from [p] on go. *)
Definition remove_names (p : list bytes) (s : flat) : flat :=
  mkFlat (rekey (fun q => match strip p q with Some _ => None | None => Some q end) (fl_names s)) (fl_attrs s) (fl_next s).

Definition flat_RemoveAll (name : bytes) (s : flat) : reply unit :=
  match flat_find s (str "remove") name with
  | inr e => (s, inl e)
  | inl None => (s, inl ErrInvalid)
  | inl (Some p) => (remove_names p s, inr tt)
  end.

(** Names from [o] on go to [n], where they replace what is there. *)
Definition move_name (o n q : list bytes) : option (list bytes) :=
  match strip o q with
  | Some r => Some (n ++ r)
  | None => match strip n q with Some _ => None | None => Some q end
  end.

Definition move_names (o n : list bytes) (s : flat) : flat := mkFlat (rekey (move_name o n) (fl_names s)) (fl_attrs s) (fl_next s).

Definition flat_Rename (oldName newName : bytes) (s : flat) : reply unit :=
  let o := name_elements oldName in
  let n := name_elements newName in
  if bool_decide (o = n) then (s, inr tt)
  else if bool_decide (is_Some (strip o n)) then (s, inl ErrInvalid)
  else
    match flat_find s (str "rename") (slashClean oldName), flat_find s (str "rename") (slashClean newName) with
    | inr e, _ => (s, inl e)
    | _, inr e => (s, inl e)
    | _, inl None => (s, inl ErrInvalid)
    | _, _ =>
        match fl_names s !! o with
        | None => (s, inl ErrNotExist)
        | Some i =>
            let over :=
              match fl_names s !! n with
              | Some j =>
                  if is_dir s i then
                    if negb (is_dir s j) then Some errNotADirectory
                    else if bool_decide (flat_children s n = ∅) then None else Some errDirectoryNotEmpty
                  else None
              | None => None
              end in
            match over with
            | Some e => (s, inl e)
            | None => (move_names o n s, inr tt)
            end
        end
    end.

Definition flat_Stat (name : bytes) (s : flat) : option (reply memFileInfo) :=
  match flat_find s (str "stat") name with
  | inr e => Some (s, inl e)
  | inl None => a ← fl_attrs s !! root; Some (s, inr (stat [slash] a))
  | inl (Some p) =>
      match fl_names s !! p with
      | Some i => a ← fl_attrs s !! i; Some (s, inr (stat (path_Base name) a))
      | None => Some (s, inl ErrNotExist)
      end
  end.

(** The file with the identity [i], with what is below the name [p]. *)
Definition flat_open (s : flat) (p : list bytes) (i : nat) (frag : bytes) : option (reply memFile) :=
  let cs := flat_children s p in
  infos ← mapM (fun cName => c ← cs !! cName; a ← fl_attrs s !! c; Some (stat cName a)) (order cs);
  Some (s, inr (mkFile i frag infos 0)).

Definition flat_OpenFile (name : bytes) (flag perm : Z) (s : flat) : option (reply memFile) :=
  let write := negb (Z.land flag (Z.lor O_WRONLY O_RDWR) =? 0) in
  match flat_find s (str "open") name with
  | inr e => Some (s, inl e)
  | inl None =>
      if negb (Z.land flag (if zos then O_WRONLY else Z.lor O_WRONLY O_RDWR) =? 0) then Some (s, inl ErrPermission)
      else flat_open s [] root [slash]
  | inl (Some p) =>
      let i := fl_names s !! p in
      let create := negb (Z.land flag O_CREATE =? 0) in
      if negb (Z.land flag (Z.lor O_SYNC O_APPEND) =? 0) then Some (s, inl ErrInvalid)
      else if create && negb (Z.land flag O_EXCL =? 0) && bool_decide (is_Some i) then Some (s, inl ErrExist)
      else
        let opened :=
          match i with
          | Some i => Some (s, i)
          | None => if create then Some (bind_name p (mkAttr [] (Perm perm) 0 ∅) s, fl_next s) else None
          end in
        match opened with
        | None => Some (s, inl ErrNotExist)
        | Some (s, i) =>
            a ← fl_attrs s !! i;
            flat_open (if write && negb (Z.land flag O_TRUNC =? 0) then flat_set_attr i (set_data [] a) s else s) p i (List.last p [])
        end
  end.
End flat.

Definition flatFileSystem (zos : bool) (order : gmap bytes nat -> list bytes) : FileSystem flat :=
  mkFileSystem flat (fun name perm now s => Some (flat_Mkdir name perm now s)) (flat_OpenFile zos order) (fun name s => Some (flat_RemoveAll name s))
    (fun o n s => Some (flat_Rename o n s)) flat_Stat (fun s i => fl_attrs s !! i) flat_set_attr.
