(* ===== verification/WebdavFileSpec.v ===== *)
(** * Package webdav: the file system in memory refines the abstract one

    Every call on a [memFS] and on its open files returns what the same call on a finite
    map of names returns, and keeps the tree. *)

From S2P Require Import Prelude WebdavPath WebdavFile WebdavTree WebdavFlat.

(** ** The abstraction *)
Record refines (fs : memFS) (s : flat) : Prop := {
  rf_names p : fl_names s !! p = resolve fs p;
  rf_attrs i : fl_attrs s !! i = n_attr <$> fs_nodes fs !! i;
  rf_next : fl_next s = fs_next fs
}.

Section refine.
Context (fs : memFS) (s : flat) (Hok : fs_ok fs) (HR : refines fs s).

Lemma flat_children_spec p d : resolve fs p = Some d -> flat_children s p = children fs d.
Proof using HR.
  intros Hp. apply map_eq. intros e. apply option_eq. intros j. unfold flat_children. rewrite lookup_rekey.
  - split.
    + intros (q & Hq & E). destruct (strip p q) as [[|x [|]]|] eqn:Es; try done. injection E as ->. apply strip_spec in Es as ->.
      rewrite (rf_names _ _ HR), resolve_snoc, Hp in Hq. done.
    + intros Hj. exists (p ++ [e]). rewrite (rf_names _ _ HR), resolve_snoc, Hp, strip_app. done.
  - intros q1 q2 k _ _ H1 H2. destruct (strip p q1) as [[|x [|]]|] eqn:E1; try done. destruct (strip p q2) as [[|y [|]]|] eqn:E2; try done.
    apply strip_spec in E1 as ->, E2 as ->. congruence.
Qed.

Lemma is_dir_spec i n : fs_nodes fs !! i = Some n -> is_dir s i = IsDir (a_mode (n_attr n)).
Proof using HR. intros E. unfold is_dir. by rewrite (rf_attrs _ _ HR), E. Qed.

Lemma is_dir_children i n : fs_nodes fs !! i = Some n -> is_dir s i = match n_children n with Some _ => true | None => false end.
Proof using HR Hok.
  intros E. rewrite (is_dir_spec i n E). pose proof (ok_dir fs Hok i n E) as H. destruct (n_children n).
  - apply H. by eexists.
  - destruct (IsDir (a_mode (n_attr n))); [|done]. by destruct (proj2 H eq_refl).
Qed.

(** A directory with the name [p]. *)
Definition dir_at (p : list bytes) (d : nat) : Prop := resolve fs p = Some d /\ exists n cs, fs_nodes fs !! d = Some n /\ n_children n = Some cs.

Lemma root_dir : dir_at [] root.
Proof using Hok. split; [done|]. destruct (ok_root fs Hok) as [cs E]. destruct (fs_nodes fs !! root) as [n|]; [|done]. by exists n, cs. Qed.

Lemma descend_spec es : forall p d, dir_at p d ->
  match blocked s p es with
  | Some e => descend fs d es = inr e
  | None => exists d', descend fs d es = inl d' /\ dir_at (p ++ es) d'
  end.
Proof using HR Hok.
  induction es as [|e es IH]; intros p d Hd; simpl; [exists d; by rewrite app_nil_r|].
  pose proof Hd as [Hp _]. rewrite (rf_names _ _ HR), resolve_snoc, Hp. destruct (children fs d !! e) as [j|] eqn:Ej; [|done].
  destruct (ok_child fs Hok d e j Ej) as [n En]. rewrite En. cbn [fmap option_fmap option_map]. rewrite (is_dir_spec j n En).
  cbn [default from_option id]. destruct (IsDir (a_mode (n_attr n))) eqn:Em; [|done].
  rewrite (cons_middle e p es), app_assoc. apply IH. split; [by rewrite resolve_snoc, Hp|].
  destruct (proj2 (ok_dir fs Hok j n En) Em) as [cs Ec]. by exists n, cs.
Qed.

Lemma find_refines op name :
  match flat_find s op name with
  | inr e => find fs op name = Some (inr e)
  | inl None => find fs op name = Some (inl None)
  | inl (Some p) => exists pd frag d, p = pd ++ [frag] /\ name_elements name = p /\ dir_at pd d /\ find fs op name = Some (inl (Some (d, frag)))
  end.
Proof using HR Hok.
  rewrite (find_spec fs op name Hok). unfold flat_find. destruct (name_elements name) as [|frag es] eqn:E using rev_ind; [done|].
  rewrite rev_app_distr. cbn [rev app]. rewrite rev_involutive, removelast_last.
  pose proof (descend_spec es [] root root_dir) as H.
  assert (match es ++ [frag] with [] => inl None | _ :: _ => match blocked s [] es with Some e => inr (PathError op name e) | None => inl (Some (es ++ [frag])) end end =
    (match blocked s [] es with Some e => inr (PathError op name e) | None => inl (Some (es ++ [frag])) end : option (list bytes) + fs_error)) as -> by by destruct es.
  destruct (blocked s [] es); [by rewrite H|]. destruct H as (d & -> & Hd). exists es, frag, d. done.
Qed.
End refine.

(** ** Names that come and go *)
Lemma refines_unique fs s : refines fs s -> (forall p q i, fl_names s !! p = Some i -> fl_names s !! q = Some i -> p = q) ->
  forall p q i, resolve fs p = Some i -> resolve fs q = Some i -> p = q.
Proof. intros HR H p q i. rewrite <- !(rf_names _ _ HR). apply H. Qed.

Lemma names_unique fs s : fs_ok fs -> refines fs s -> forall p q i, fl_names s !! p = Some i -> fl_names s !! q = Some i -> p = q.
Proof. intros Hok HR p q i. rewrite !(rf_names _ _ HR). apply (ok_unique fs Hok). Qed.

Lemma refines_old fs s p i : fs_ok fs -> refines fs s -> fl_names s !! p = Some i -> (i < fs_next fs)%nat.
Proof. intros Hok HR. rewrite (rf_names _ _ HR). intros H. apply (ok_next fs Hok), (resolve_node fs p i Hok H). Qed.

Lemma fresh_node fs : fs_ok fs -> fs_nodes fs !! fs_next fs = None.
Proof. intros Hok. destruct (fs_nodes fs !! fs_next fs) eqn:E; [|done]. pose proof (ok_next fs Hok (fs_next fs)) as H. rewrite E in H. specialize (H ltac:(done)). lia. Qed.

(** A new file or directory. *)
Lemma bind_refines fs s pd frag d n : fs_ok fs -> refines fs s -> dir_at fs pd d -> resolve fs (pd ++ [frag]) = None ->
  default ∅ (n_children n) = ∅ -> (is_Some (n_children n) <-> IsDir (a_mode (n_attr n)) = true) ->
  exists fs', put_child (new_node fs n).1 d frag (fs_next fs) = Some fs' /\ fs_ok fs' /\ refines fs' (bind_name (pd ++ [frag]) (n_attr n) s).
Proof.
  intros Hok HR (Hd & nd & cs & End & Ecs) Hnone Hempty Hmode. set (k := fs_next fs). pose proof (fresh_node fs Hok) as Hfresh. fold k in Hfresh.
  assert (d <> k) as Hdk by (intros ->; congruence).
  unfold put_child, new_node. cbn [fst fs_nodes fs_next]. fold k. rewrite lookup_insert_ne, End by done. cbn [mbind option_bind]. rewrite Ecs. cbn [mbind option_bind].
  eexists. split; [done|]. set (fs' := mkFS _ _).
  assert (children fs k = ∅) as Hck by (unfold children; by rewrite Hfresh).
  assert (same_children_but d fs' fs) as Hs.
  { intros i Hi. unfold children, fs'. cbn. rewrite lookup_insert_ne by done. destruct (decide (i = k)) as [->|Hik].
    - rewrite lookup_insert_eq, Hfresh. cbn. exact Hempty.
    - by rewrite lookup_insert_ne. }
  assert (children fs' d = <[frag := k]> (children fs d)) as Hc.
  { unfold children, fs'. cbn. rewrite lookup_insert_eq, End. cbn. by rewrite Ecs. }
  assert (forall r, resolve_from fs k r = match r with [] => Some k | _ => None end) as Hk.
  { intros [|x r]; [done|]. simpl. by rewrite Hck, lookup_empty. }
  assert (forall q, resolve fs' q = fl_names (bind_name (pd ++ [frag]) (n_attr n) s) !! q) as Hres.
  { intros q. rewrite (resolve_insert fs fs' d pd frag k (ok_unique fs Hok) Hd Hs Hc); [|intros [|x r]; rewrite Hk; congruence].
    cbn. rewrite (rf_next _ _ HR). fold k. destruct (strip (pd ++ [frag]) q) as [r|] eqn:Es.
    - apply strip_spec in Es as ->. rewrite Hk. destruct r as [|x r]; [by rewrite app_nil_r, lookup_insert_eq|].
      rewrite lookup_insert_ne by (intros E; rewrite <- (app_nil_r (pd ++ [frag])) in E at 1; by apply app_inv_head in E).
      by rewrite (rf_names _ _ HR), resolve_app, Hnone.
    - rewrite lookup_insert_ne by (intros <-; rewrite <- (app_nil_r (pd ++ [frag])) in Es at 2; by rewrite strip_app in Es). by rewrite (rf_names _ _ HR). }
  assert (refines fs' (bind_name (pd ++ [frag]) (n_attr n) s)) as HR'.
  { constructor; [done| |cbn; by rewrite (rf_next _ _ HR)]. intros i. cbn. rewrite (rf_next _ _ HR). fold k. destruct (decide (i = k)) as [->|Hik].
    - rewrite lookup_insert_eq, lookup_insert_ne, lookup_insert_eq by done. done.
    - rewrite lookup_insert_ne by done. destruct (decide (i = d)) as [->|Hid].
      + rewrite lookup_insert_eq, (rf_attrs _ _ HR), End. done.
      + rewrite !lookup_insert_ne by done. apply (rf_attrs _ _ HR). }
  split; [|done]. constructor.
  - cbn. destruct (decide (root = d)) as [<-|Hr]; [by rewrite lookup_insert_eq; eexists|]. rewrite lookup_insert_ne by done.
    destruct (ok_root fs Hok) as [cs0 E0]. rewrite lookup_insert_ne; [by exists cs0|]. intros E. fold k in E. rewrite <- E, Hfresh in E0. done.
  - intros i m. cbn. destruct (decide (i = d)) as [->|Hid].
    + rewrite lookup_insert_eq. intros [= <-]. cbn. rewrite <- (ok_dir fs Hok d nd End), Ecs. split; by eexists.
    + rewrite lookup_insert_ne by done. destruct (decide (i = k)) as [->|Hik]; [rewrite lookup_insert_eq; by intros [= <-]|].
      rewrite lookup_insert_ne by done. apply (ok_dir fs Hok).
  - intros i e j Hj. assert (is_Some (fs_nodes fs !! j) \/ j = k) as Hjk.
    { destruct (decide (i = d)) as [->|Hid].
      - rewrite Hc in Hj. destruct (decide (e = frag)) as [->|He]; [rewrite lookup_insert_eq in Hj; injection Hj as <-; by right|].
        rewrite lookup_insert_ne in Hj by done. left. by apply (ok_child fs Hok d e).
      - rewrite (Hs i Hid) in Hj. left. by apply (ok_child fs Hok i e). }
    cbn. destruct (decide (j = d)) as [->|]; [rewrite lookup_insert_eq; by eexists|]. rewrite lookup_insert_ne by done.
    destruct (decide (j = k)) as [->|]; [rewrite lookup_insert_eq; by eexists|]. rewrite lookup_insert_ne by done. by destruct Hjk.
  - intros i. cbn. destruct (decide (i = d)) as [->|]; [intros _; pose proof (ok_next fs Hok d ltac:(by rewrite End)); lia|].
    rewrite lookup_insert_ne by done. destruct (decide (i = k)) as [->|]; [intros _; unfold k; lia|]. rewrite lookup_insert_ne by done.
    intros H. pose proof (ok_next fs Hok i H). lia.
  - apply (refines_unique _ _ HR'). cbn. rewrite (rf_next _ _ HR). fold k. intros p q i.
    destruct (decide (p = pd ++ [frag])) as [->|Hp]; destruct (decide (q = pd ++ [frag])) as [->|Hq]; [done| | |].
    + rewrite lookup_insert_eq, lookup_insert_ne by done. intros [= <-] H. pose proof (refines_old fs s q k Hok HR H). unfold k in *. lia.
    + rewrite lookup_insert_ne, lookup_insert_eq by done. intros H [= <-]. pose proof (refines_old fs s p k Hok HR H). unfold k in *. lia.
    + rewrite !lookup_insert_ne by done. by apply (names_unique fs s Hok HR).
Qed.

(** The children of one directory are replaced by some of the nodes that there are. *)
Lemma children_ok fs fs' s' d nd cs cs' : fs_ok fs -> fs_nodes fs !! d = Some nd -> n_children nd = Some cs ->
  fs' = mkFS (<[d := set_children cs' nd]> (fs_nodes fs)) (fs_next fs) ->
  (forall e j, cs' !! e = Some j -> is_Some (fs_nodes fs !! j)) ->
  refines fs' s' -> (forall p q i, fl_names s' !! p = Some i -> fl_names s' !! q = Some i -> p = q) -> fs_ok fs'.
Proof.
  intros Hok End Ecs -> Hcs HR' Hu. constructor.
  - cbn. destruct (decide (root = d)) as [<-|Hr]; [by rewrite lookup_insert_eq; eexists|]. rewrite lookup_insert_ne by done. apply (ok_root fs Hok).
  - intros i m. cbn. destruct (decide (i = d)) as [->|Hid].
    + rewrite lookup_insert_eq. intros [= <-]. cbn. rewrite <- (ok_dir fs Hok d nd End), Ecs. split; by eexists.
    + rewrite lookup_insert_ne by done. apply (ok_dir fs Hok).
  - intros i e j Hj. assert (is_Some (fs_nodes fs !! j)) as Hjn.
    { unfold children in Hj. cbn in Hj. destruct (decide (i = d)) as [->|Hid].
      - rewrite lookup_insert_eq in Hj. cbn in Hj. by apply (Hcs e).
      - rewrite lookup_insert_ne in Hj by done. by apply (ok_child fs Hok i e). }
    cbn. destruct (decide (j = d)) as [->|]; [rewrite lookup_insert_eq; by eexists|]. by rewrite lookup_insert_ne.
  - intros i. cbn. destruct (decide (i = d)) as [->|]; [intros _; apply (ok_next fs Hok d); by rewrite End|].
    rewrite lookup_insert_ne by done. apply (ok_next fs Hok).
  - by apply (refines_unique _ s').
Qed.

Lemma attrs_same fs d nd cs' i : fs_nodes fs !! d = Some nd -> n_attr <$> <[d := set_children cs' nd]> (fs_nodes fs) !! i = n_attr <$> fs_nodes fs !! i.
Proof. intros E. destruct (decide (i = d)) as [->|]; [by rewrite lookup_insert_eq, E|by rewrite lookup_insert_ne]. Qed.

Lemma remove_names_lookup p s q : fl_names (remove_names p s) !! q = match strip p q with Some _ => None | None => fl_names s !! q end.
Proof.
  cbn. apply option_eq. intros i. rewrite lookup_rekey.
  - split.
    + intros (k & Hk & E). destruct (strip p k) eqn:Es; [done|]. injection E as ->. by rewrite Es.
    + intros H. exists q. destruct (strip p q); [done|]. done.
  - intros k1 k2 k' _ _ H1 H2. destruct (strip p k1); [done|]. destruct (strip p k2); [done|]. congruence.
Qed.

(** A name and all below it. *)
Lemma delete_refines fs s pd frag d : fs_ok fs -> refines fs s -> dir_at fs pd d ->
  exists fs', delete_child fs d frag = Some fs' /\ fs_ok fs' /\ refines fs' (remove_names (pd ++ [frag]) s) /\
    same_children_but d fs' fs /\ children fs' d = delete frag (children fs d) /\ fs_nodes fs' !! d <> None /\
    (forall i n, fs_nodes fs !! i = Some n -> i <> d -> fs_nodes fs' !! i = Some n).
Proof.
  intros Hok HR (Hd & nd & cs & End & Ecs). unfold delete_child. rewrite End. cbn [mbind option_bind]. rewrite Ecs. eexists. split; [done|].
  set (fs' := mkFS _ _).
  assert (same_children_but d fs' fs) as Hs by (intros i Hi; unfold children, fs'; cbn; by rewrite lookup_insert_ne).
  assert (children fs' d = delete frag (children fs d)) as Hc by (unfold children, fs'; cbn; rewrite lookup_insert_eq, End; cbn; by rewrite Ecs).
  assert (refines fs' (remove_names (pd ++ [frag]) s)) as HR'.
  { constructor; [|intros i; cbn; by rewrite (attrs_same fs d nd _ i End), (rf_attrs _ _ HR)|apply (rf_next _ _ HR)].
    intros q. rewrite remove_names_lookup, (resolve_delete fs fs' d pd frag (ok_unique fs Hok) Hd Hs Hc).
    destruct (strip (pd ++ [frag]) q); [done|]. apply (rf_names _ _ HR). }
  split; [|split; [done|split; [done|split; [done|split]]]].
  - apply (children_ok fs fs' (remove_names (pd ++ [frag]) s) d nd cs (delete frag cs) Hok End Ecs eq_refl); [|done|].
    + intros e j Hj. apply lookup_delete_Some in Hj as [_ Hj]. apply (ok_child fs Hok d e). unfold children. rewrite End. cbn. by rewrite Ecs.
    + intros p q i. rewrite !remove_names_lookup. destruct (strip _ p); [done|]. destruct (strip _ q); [done|]. by apply (names_unique fs s Hok HR).
  - cbn. by rewrite lookup_insert_eq.
  - intros i n Hi Hid. cbn. by rewrite lookup_insert_ne.
Qed.

Lemma move_names_lookup o n s q : strip o n = None -> fl_names (move_names o n s) !! q =
  match strip n q with Some r => fl_names s !! (o ++ r) | None => match strip o q with Some _ => None | None => fl_names s !! q end end.
Proof.
  intros Hon. cbn. apply option_eq. intros i. rewrite lookup_rekey.
  - split.
    + intros (k & Hk & E). unfold move_name in E. destruct (strip o k) as [r|] eqn:Eo.
      * injection E as <-. apply strip_spec in Eo as ->. by rewrite strip_app.
      * destruct (strip n k) eqn:En; [done|]. injection E as ->. by rewrite En, Eo.
    + intros H. unfold move_name. destruct (strip n q) as [r|] eqn:En.
      * exists (o ++ r). rewrite strip_app. apply strip_spec in En as ->. done.
      * destruct (strip o q) eqn:Eo; [done|]. exists q. by rewrite Eo, En.
  - intros k1 k2 k' _ _. unfold move_name. destruct (strip o k1) as [r1|] eqn:E1; destruct (strip o k2) as [r2|] eqn:E2.
    + apply strip_spec in E1 as ->, E2 as ->. intros [= <-] [= E]. apply app_inv_head in E. congruence.
    + intros [= <-]. destruct (strip n k2) eqn:E3; [done|]. intros [= ->]. by rewrite strip_app in E3.
    + destruct (strip n k1) eqn:E3; [done|]. intros [= ->] [= <-]. by rewrite strip_app in E3.
    + destruct (strip n k1); [done|]. destruct (strip n k2); [done|]. congruence.
Qed.

(** A node moves to another name. *)
Lemma rename_refines fs s po oe od pn nf nd i : fs_ok fs -> refines fs s -> dir_at fs po od -> dir_at fs pn nd ->
  strip (po ++ [oe]) (pn ++ [nf]) = None -> resolve fs (po ++ [oe]) = Some i ->
  exists fs', (fs ← delete_child fs od oe; put_child fs nd nf i) = Some fs' /\ fs_ok fs' /\ refines fs' (move_names (po ++ [oe]) (pn ++ [nf]) s).
Proof.
  intros Hok HR Hod Hnd Hon Hi. pose proof Hod as [Ho _]. pose proof Hnd as (Hn & nn & ncs & Enn & Encs).
  destruct (delete_refines fs s po oe od Hok HR Hod) as (fs1 & -> & Hok1 & HR1 & Hs1 & Hc1 & Hd1 & Hnodes1). cbn [mbind option_bind].
  assert (strip (po ++ [oe]) pn = None) as Hopn.
  { apply strip_None. intros r ->. rewrite <- app_assoc in Hon. by rewrite strip_app in Hon. }
  assert (resolve fs1 pn = Some nd) as Hn1 by (by rewrite <- (rf_names _ _ HR1), remove_names_lookup, Hopn, (rf_names _ _ HR)).
  assert (exists nn1 ncs1, fs_nodes fs1 !! nd = Some nn1 /\ n_children nn1 = Some ncs1) as (nn1 & ncs1 & Enn1 & Encs1).
  { destruct (fs_nodes fs1 !! nd) as [nn1|] eqn:E1; [|by destruct (resolve_node fs1 pn nd Hok1 Hn1) as [? ?]; congruence].
    exists nn1. assert (IsDir (a_mode (n_attr nn1)) = true) as Hm.
    { assert (n_attr nn1 = n_attr nn) as ->.
      { pose proof (rf_attrs _ _ HR1 nd) as A1. cbn in A1. rewrite (rf_attrs _ _ HR), E1, Enn in A1. cbn in A1. by injection A1. }
      apply (ok_dir fs Hok nd nn Enn). by rewrite Encs. }
    destruct (proj2 (ok_dir fs1 Hok1 nd nn1 E1) Hm) as [ncs1 E2]. by exists ncs1. }
  unfold put_child. rewrite Enn1. cbn [mbind option_bind]. rewrite Encs1. cbn [mbind option_bind]. eexists. split; [done|]. set (fs' := mkFS _ _).
  assert (same_children_but nd fs' fs1) as Hs by (intros k Hk; unfold children, fs'; cbn; by rewrite lookup_insert_ne).
  assert (children fs' nd = <[nf := i]> (children fs1 nd)) as Hc by (unfold children, fs'; cbn; rewrite lookup_insert_eq, Enn1; cbn; by rewrite Encs1).
  assert (forall r, resolve_from fs1 i r = resolve_from fs i r) as Haway.
  { apply (resolve_away fs fs1 od i Hs1). intros r Hr. assert (resolve fs ((po ++ [oe]) ++ r) = Some od) as E by (by rewrite resolve_app, Hi).
    pose proof (ok_unique fs Hok _ _ _ E Ho) as E'. rewrite <- app_assoc in E'. rewrite <- (app_nil_r po) in E' at 2. by apply app_inv_head in E'. }
  assert (forall r, resolve_from fs1 i r <> Some nd) as Hno.
  { intros r. rewrite Haway. intros Hr. assert (resolve fs ((po ++ [oe]) ++ r) = Some nd) as E by (by rewrite resolve_app, Hi).
    rewrite <- (ok_unique fs Hok _ _ _ E Hn) in Hopn. by rewrite strip_app in Hopn. }
  assert (refines fs' (move_names (po ++ [oe]) (pn ++ [nf]) s)) as HR'.
  { constructor; [|intros k; cbn; rewrite (attrs_same fs1 nd nn1 _ k Enn1), <- (rf_attrs _ _ HR1); done|cbn; by rewrite <- (rf_next _ _ HR1)].
    intros q. rewrite move_names_lookup by done. rewrite (resolve_insert fs1 fs' nd pn nf i (ok_unique fs1 Hok1) Hn1 Hs Hc Hno).
    destruct (strip (pn ++ [nf]) q) as [r|].
    - by rewrite (rf_names _ _ HR), resolve_app, Hi, Haway.
    - rewrite <- (rf_names _ _ HR1), remove_names_lookup. done. }
  split; [|done].
  apply (children_ok fs1 fs' (move_names (po ++ [oe]) (pn ++ [nf]) s) nd nn1 ncs1 (<[nf := i]> ncs1) Hok1 Enn1 Encs1 eq_refl); [|done|].
  - intros e j Hj. destruct (decide (e = nf)) as [->|He].
    + rewrite lookup_insert_eq in Hj. injection Hj as <-. destruct (resolve_node fs _ i Hok Hi) as [ni Ei].
      destruct (decide (i = od)) as [->|Hiod]; [|rewrite (Hnodes1 i ni Ei Hiod); by eexists]. by destruct (fs_nodes fs1 !! od); [eexists|].
    + rewrite lookup_insert_ne in Hj by done. apply (ok_child fs1 Hok1 nd e). unfold children. rewrite Enn1. cbn. by rewrite Encs1.
  - intros p q k. rewrite !move_names_lookup by done. pose proof (names_unique fs s Hok HR) as Hu.
    destruct (strip (pn ++ [nf]) p) as [r1|] eqn:E1; destruct (strip (pn ++ [nf]) q) as [r2|] eqn:E2.
    + intros H1 H2. pose proof (Hu _ _ _ H1 H2) as E. apply app_inv_head in E as ->. apply strip_spec in E1 as ->, E2 as ->. done.
    + destruct (strip (po ++ [oe]) q) eqn:E3; [done|]. intros H1 H2. rewrite <- (Hu _ _ _ H1 H2) in E3. by rewrite strip_app in E3.
    + destruct (strip (po ++ [oe]) p) eqn:E3; [done|]. intros H1 H2. rewrite (Hu _ _ _ H1 H2) in E3. by rewrite strip_app in E3.
    + destruct (strip (po ++ [oe]) p); [done|]. destruct (strip (po ++ [oe]) q); [done|]. apply Hu.
Qed.

(** The attributes of a node, with the same mode. *)
Lemma set_attr_refines fs s i a n : fs_ok fs -> refines fs s -> fs_nodes fs !! i = Some n -> a_mode a = a_mode (n_attr n) ->
  fs_ok (set_attr fs i a) /\ refines (set_attr fs i a) (flat_set_attr i a s).
Proof.
  intros Hok HR Ei Hm. set (fs' := set_attr fs i a).
  assert (forall k, children fs' k = children fs k) as Hc.
  { intros k. unfold children, fs', set_attr. cbn. destruct (decide (k = i)) as [->|]; [by rewrite lookup_alter_eq, Ei|by rewrite lookup_alter_ne]. }
  assert (forall p k, resolve_from fs' k p = resolve_from fs k p) as Hres.
  { induction p as [|e p IH]; intros k; [done|]. simpl. rewrite Hc. by destruct (children fs k !! e). }
  assert (forall k, is_Some (fs_nodes fs' !! k) <-> is_Some (fs_nodes fs !! k)) as Hdom.
  { intros k. unfold fs', set_attr. cbn. destruct (decide (k = i)) as [->|]; [|by rewrite lookup_alter_ne]. rewrite lookup_alter_eq, Ei. split; by eexists. }
  split; constructor.
  - unfold fs', set_attr. cbn. destruct (decide (root = i)) as [<-|]; [|rewrite lookup_alter_ne by done; apply (ok_root fs Hok)].
    rewrite lookup_alter_eq. destruct (ok_root fs Hok) as [cs E0]. exists cs. by destruct (fs_nodes fs !! root).
  - intros k m. unfold fs', set_attr. cbn. destruct (decide (k = i)) as [->|].
    + rewrite lookup_alter_eq, Ei. intros [= <-]. cbn. rewrite Hm. by apply (ok_dir fs Hok i).
    + rewrite lookup_alter_ne by done. apply (ok_dir fs Hok).
  - intros k e j. rewrite Hc, Hdom. apply (ok_child fs Hok).
  - intros k. rewrite Hdom. apply (ok_next fs Hok).
  - intros p q k. rewrite !Hres. apply (ok_unique fs Hok).
  - intros p. rewrite Hres. apply (rf_names _ _ HR).
  - intros k. unfold fs', set_attr. cbn. destruct (decide (k = i)) as [->|].
    + by rewrite !lookup_alter_eq, (rf_attrs _ _ HR), Ei.
    + rewrite !lookup_alter_ne by done. apply (rf_attrs _ _ HR).
  - apply (rf_next _ _ HR).
Qed.
