(* ===== verification/WebdavFileOps.v ===== *)
(** * Package webdav: the operations of the file system in memory

    Each method of [memFS] returns what the abstract file system returns, and keeps the tree. *)

From S2P Require Import Prelude WebdavPath WebdavFile WebdavTree WebdavFlat WebdavFileSpec.

(** A call returns what the abstract one returns, and keeps the tree. *)
Definition same {A} (c : option (memFS * (fs_error + A))) (r : flat * (fs_error + A)) : Prop :=
  exists fs', c = Some (fs', r.2) /\ fs_ok fs' /\ refines fs' r.1.

Lemma same_state {A} fs s (x : fs_error + A) : fs_ok fs -> refines fs s -> same (Some (fs, x)) (s, x).
Proof. intros Hok HR. by exists fs. Qed.

Lemma IsDir_file perm : IsDir (Perm perm) = false.
Proof.
  unfold IsDir, Perm, ModePerm, ModeDir. rewrite <- Z.land_assoc. change (Z.land 511 (2 ^ 31)) with 0. by rewrite Z.land_0_r.
Qed.

Lemma IsDir_dir perm : IsDir (Z.lor (Perm perm) ModeDir) = true.
Proof.
  unfold IsDir. assert (Z.testbit (Z.land (Z.lor (Perm perm) ModeDir) ModeDir) 31 = true) as H.
  { rewrite Z.land_spec, Z.lor_spec. change (Z.testbit ModeDir 31) with true. by rewrite orb_true_r. }
  destruct (Z.eqb_spec (Z.land (Z.lor (Perm perm) ModeDir) ModeDir) 0) as [E|]; [|done]. by rewrite E in H.
Qed.

Section ops.
Context (zos : bool) (order : gmap bytes nat -> list bytes).
Context (order_ok : forall cs e, e ∈ order cs -> is_Some (cs !! e)).

Lemma children_put fs d e j fs' : put_child fs d e j = Some fs' -> fs_next fs' = fs_next fs.
Proof. unfold put_child. destruct (fs_nodes fs !! d) as [n|]; [|done]. simpl. destruct (n_children n); [|done]. simpl. by intros [= <-]. Qed.

Lemma Mkdir_same name perm now fs s : fs_ok fs -> refines fs s -> same (Mkdir name perm now fs) (flat_Mkdir name perm now s).
Proof.
  intros Hok HR. unfold Mkdir, flat_Mkdir. pose proof (find_refines fs s Hok HR (str "mkdir") name) as H.
  destruct (flat_find s (str "mkdir") name) as [[p|]|e]; [|rewrite H; by apply same_state..].
  destruct H as (pd & frag & d & -> & _ & Hd & ->). cbn [mbind option_bind]. pose proof Hd as [Hp _].
  rewrite (rf_names _ _ HR), resolve_snoc, Hp. case_bool_decide as Ex; [by apply same_state|].
  destruct (bind_refines fs s pd frag d (mkNode (Some ∅) (mkAttr [] (Z.lor (Perm perm) ModeDir) now ∅)) Hok HR Hd) as (fs' & E & Hok' & HR'); [|done| |].
  - rewrite resolve_snoc, Hp. destruct (children fs d !! frag); [|done]. by destruct Ex.
  - cbn. rewrite IsDir_dir. by split; [|eexists].
  - unfold new_node in *. cbn [fst] in E. rewrite E. cbn [mbind option_bind]. by exists fs'.
Qed.

Lemma RemoveAll_same name fs s : fs_ok fs -> refines fs s -> same (RemoveAll name fs) (flat_RemoveAll name s).
Proof.
  intros Hok HR. unfold RemoveAll, flat_RemoveAll. pose proof (find_refines fs s Hok HR (str "remove") name) as H.
  destruct (flat_find s (str "remove") name) as [[p|]|e]; [|rewrite H; by apply same_state..].
  destruct H as (pd & frag & d & -> & _ & Hd & ->). cbn [mbind option_bind].
  destruct (delete_refines fs s pd frag d Hok HR Hd) as (fs' & -> & Hok' & HR' & _). cbn [mbind option_bind]. by exists fs'.
Qed.

Lemma Stat_same name fs s : fs_ok fs -> refines fs s -> exists r, flat_Stat name s = Some r /\ same (Stat name fs) r.
Proof.
  intros Hok HR. unfold Stat, flat_Stat. pose proof (find_refines fs s Hok HR (str "stat") name) as H.
  destruct (flat_find s (str "stat") name) as [[p|]|e].
  - destruct H as (pd & frag & d & -> & _ & [Hp _] & ->). cbn [mbind option_bind]. rewrite (rf_names _ _ HR), resolve_snoc, Hp.
    destruct (children fs d !! frag) as [i|] eqn:Ei; [|eexists; split; [done|by apply same_state]].
    destruct (ok_child fs Hok d frag i Ei) as [n En]. rewrite (rf_attrs _ _ HR), En. eexists. split; [done|]. by apply same_state.
  - rewrite H. cbn [mbind option_bind]. destruct (root_dir fs Hok) as (_ & n & cs & En & _). rewrite (rf_attrs _ _ HR), En.
    eexists. split; [done|]. by apply same_state.
  - rewrite H. eexists. split; [done|]. by apply same_state.
Qed.

Lemma open_same fs s p i frag : fs_ok fs -> refines fs s -> resolve fs p = Some i ->
  exists r, flat_open order s p i frag = Some r /\ same (open_node order fs i frag) r.
Proof using order_ok.
  intros Hok HR Hp. destruct (resolve_node fs p i Hok Hp) as [n En]. unfold open_node, flat_open. rewrite En. cbn [mbind option_bind].
  rewrite (flat_children_spec fs s HR p i Hp). assert (children fs i = default ∅ (n_children n)) as Ec by (unfold children; by rewrite En). rewrite <- Ec.
  assert (forall l, (forall e, e ∈ l -> is_Some (children fs i !! e)) -> exists infos,
    mapM (fun cName => c ← children fs i !! cName; c ← fs_nodes fs !! c; Some (stat cName (n_attr c))) l = Some infos /\
    mapM (fun cName => c ← children fs i !! cName; a ← fl_attrs s !! c; Some (stat cName a)) l = Some infos) as Hm.
  { induction l as [|e l IH]; intros Hl; [by eexists|]. destruct (Hl e ltac:(left)) as [j Ej]. destruct (ok_child fs Hok i e j Ej) as [c Ecj].
    destruct IH as (infos & E1 & E2); [intros; apply Hl; by right|]. exists (stat e (n_attr c) :: infos).
    cbn [mapM]. rewrite Ej. cbn [mbind option_bind]. rewrite (rf_attrs _ _ HR), Ecj. cbn [mbind option_bind fmap option_fmap option_map]. by rewrite E1, E2. }
  destruct (Hm (order (children fs i)) (order_ok _)) as (infos & -> & ->). cbn [mbind option_bind]. eexists. split; [done|]. by apply same_state.
Qed.

Lemma last_snoc (p : list bytes) x : List.last (p ++ [x]) [] = x.
Proof. apply List.last_last. Qed.

Lemma OpenFile_same name flag perm fs s : fs_ok fs -> refines fs s ->
  exists r, flat_OpenFile zos order name flag perm s = Some r /\ same (OpenFile zos order name flag perm fs) r.
Proof using order_ok.
  intros Hok HR. unfold OpenFile, flat_OpenFile. cbv zeta. pose proof (find_refines fs s Hok HR (str "open") name) as H.
  destruct (flat_find s (str "open") name) as [[p|]|e].
  2: { rewrite H. cbn [mbind option_bind]. destruct (negb _); [eexists; split; [done|by apply same_state]|]. by apply open_same. }
  2: { rewrite H. eexists. split; [done|]. by apply same_state. }
  destruct H as (pd & frag & d & -> & _ & Hd & ->). cbn [mbind option_bind]. pose proof Hd as [Hp _].
  assert (fl_names s !! (pd ++ [frag]) = children fs d !! frag) as En by (by rewrite (rf_names _ _ HR), resolve_snoc, Hp). rewrite En.
  destruct (negb (Z.land flag (Z.lor O_SYNC O_APPEND) =? 0)); [eexists; split; [done|by apply same_state]|].
  set (create := negb (Z.land flag O_CREATE =? 0)). destruct (create && _ && _) eqn:Ex; [eexists; split; [done|by apply same_state]|]. rewrite last_snoc.
  assert (forall fs s i, fs_ok fs -> refines fs s -> resolve fs (pd ++ [frag]) = Some i -> exists r,
    (a ← fl_attrs s !! i; flat_open order (if negb (Z.land flag (Z.lor O_WRONLY O_RDWR) =? 0) && negb (Z.land flag O_TRUNC =? 0)
       then flat_set_attr i (set_data [] a) s else s) (pd ++ [frag]) i frag) = Some r /\
    same (node ← fs_nodes fs !! i; open_node order (if negb (Z.land flag (Z.lor O_WRONLY O_RDWR) =? 0) && negb (Z.land flag O_TRUNC =? 0)
       then set_attr fs i (set_data [] (n_attr node)) else fs) i frag) r) as Hopen.
  { clear fs s Hok HR Hd Hp En Ex. intros fs s i Hok HR Hi. destruct (resolve_node fs _ i Hok Hi) as [n Ei]. rewrite (rf_attrs _ _ HR), Ei.
    cbn [mbind option_bind fmap option_fmap option_map]. destruct (_ && _); [|by apply open_same].
    destruct (set_attr_refines fs s i (set_data [] (n_attr n)) n Hok HR Ei eq_refl) as [Hok' HR']. apply open_same; [done|done|].
    rewrite <- (rf_names _ _ HR'). cbn. by rewrite (rf_names _ _ HR). }
  destruct (children fs d !! frag) as [i|] eqn:Ei.
  { cbn [mbind option_bind]. apply Hopen; [done|done|]. by rewrite resolve_snoc, Hp. }
  destruct create eqn:Ec.
  2: { cbn [mbind option_bind]. eexists. split; [done|]. by apply same_state. }
  destruct (bind_refines fs s pd frag d (mkNode None (mkAttr [] (Perm perm) 0 ∅)) Hok HR Hd) as (fs' & E & Hok' & HR'); [by rewrite resolve_snoc, Hp|done| |].
  { cbn. rewrite IsDir_file. split; [by intros []|done]. }
  unfold new_node in *. cbn [fst snd] in *. rewrite E. cbn [mbind option_bind]. rewrite <- (rf_next _ _ HR). apply Hopen; [done|done|].
  rewrite <- (rf_names _ _ HR'). cbn. by rewrite lookup_insert_eq.
Qed.

Lemma flat_find_abs s op es : Forall clean_elem es -> es <> [] ->
  flat_find s op (abs_name es) = match blocked s [] (removelast es) with None => inl (Some es) | Some e => inr (PathError op (abs_name es) e) end.
Proof. intros Hc Hne. unfold flat_find. rewrite name_elements_abs by done. by destruct es. Qed.

Lemma Rename_same oldName newName fs s : fs_ok fs -> refines fs s -> same (Rename oldName newName fs) (flat_Rename oldName newName s).
Proof.
  intros Hok HR. unfold Rename, flat_Rename. cbv zeta. set (o := name_elements oldName). set (n := name_elements newName).
  pose proof (name_elements_ok oldName) as Ho. pose proof (name_elements_ok newName) as Hn. fold o in Ho. fold n in Hn.
  pose proof (clean_elem_ok _ Ho) as Ho'. pose proof (clean_elem_ok _ Hn) as Hn'.
  rewrite !slashClean_elements. fold o n.
  assert (bool_decide (abs_name o = abs_name n) = bool_decide (o = n)) as ->.
  { apply bool_decide_ext. split; [by apply abs_name_inj|by intros ->]. }
  case_bool_decide as Eon; [by apply same_state|].
  pose proof (find_refines fs s Hok HR (str "rename") (abs_name o)) as Fo. pose proof (find_refines fs s Hok HR (str "rename") (abs_name n)) as Fn.
  rewrite name_elements_abs in Fo, Fn by done.
  assert (o <> [] -> HasPrefix (abs_name n) (abs_name o ++ [slash]) = true <-> is_Some (strip o n)) as Hpre.
  { intros Hne. rewrite below_spec by done. split.
    - intros (r & _ & E). rewrite E, strip_app. by eexists.
    - intros [r Er]. apply strip_spec in Er. exists r. split; [|done]. intros ->. apply Eon. by rewrite Er, app_nil_r. }
  destruct (decide (o = [])) as [E|Hone].
  { rewrite E in *. rewrite bool_decide_eq_true_2 by (by eexists).
    change (flat_find s (str "rename") (abs_name [])) with (inl None : option (list bytes) + fs_error) in Fo. rewrite Fo.
    destruct (HasPrefix _ _); by apply same_state. }
  case_bool_decide as Es; [rewrite (proj2 (Hpre Hone) Es); by apply same_state|].
  destruct (HasPrefix _ _) eqn:Eb; [by destruct Es; apply Hpre|].
  assert (flat_find s (str "rename") (abs_name o) <> inl None) as Hno by (rewrite flat_find_abs by done; by destruct (blocked _ _ _)).
  destruct (flat_find s (str "rename") (abs_name o)) as [[p|]|e]; [|done|rewrite Fo; by apply same_state].
  destruct Fo as (po & oe & od & -> & Eo & Hod & ->). cbn [mbind option_bind].
  destruct (flat_find s (str "rename") (abs_name n)) as [[q|]|e]; [|rewrite Fn; by apply same_state..].
  destruct Fn as (pn & nf & nd & -> & En & Hnd & ->). cbn [mbind option_bind].
  pose proof Hod as [Hop _]. pose proof Hnd as [Hnp _].
  rewrite Eo, En, !(rf_names _ _ HR), !resolve_snoc, Hop, Hnp. destruct (children fs od !! oe) as [i|] eqn:Ei; [|by apply same_state].
  destruct (ok_child fs Hok od oe i Ei) as [io Eio]. rewrite Eio. cbn [mbind option_bind]. rewrite (is_dir_children fs s Hok HR i io Eio).
  assert (strip (po ++ [oe]) (pn ++ [nf]) = None) as Hstrip.
  { apply eq_None_not_Some. rewrite <- Eo, <- En. exact Es. }
  assert (resolve fs (po ++ [oe]) = Some i) as Hi by (by rewrite resolve_snoc, Hop).
  assert (same (fs ← delete_child fs od oe; fs ← put_child fs nd nf i; ok fs tt) (move_names (po ++ [oe]) (pn ++ [nf]) s, inr tt)) as Hmove.
  { destruct (rename_refines fs s po oe od pn nf nd i Hok HR Hod Hnd Hstrip Hi) as (fs' & E & Hok' & HR').
    destruct (delete_child fs od oe) as [fs1|]; [|done]. cbn [mbind option_bind] in *. rewrite E. cbn [mbind option_bind]. by exists fs'. }
  destruct (n_children io) as [ics|]; [|cbn [mbind option_bind]; by destruct (children fs nd !! nf)].
  destruct (children fs nd !! nf) as [j|] eqn:Ej; [|exact Hmove]. destruct (ok_child fs Hok nd nf j Ej) as [jn Ejn].
  rewrite Ejn. cbn [mbind option_bind]. rewrite (is_dir_children fs s Hok HR j jn Ejn).
  destruct (n_children jn) as [jcs|] eqn:Ejc; [|by apply same_state]. cbn [negb].
  assert (flat_children s (pn ++ [nf]) = jcs) as ->.
  { rewrite (flat_children_spec fs s HR _ j) by (by rewrite resolve_snoc, Hnp). unfold children. rewrite Ejn. cbn. by rewrite Ejc. }
  case_bool_decide; [exact Hmove|by apply same_state].
Qed.
End ops.
