(* ===== verification/WebdavFileRun.v ===== *)
(** * Package webdav: runs of a file system in memory

    Programs over the interface [FileSystem] cannot tell the file system in memory from the
    abstract one: runs of calls, with files that stay open while names come and go, and
    [moveFiles] and [copyFiles]. *)

From S2P Require Import Prelude WebdavPath WebdavFile WebdavTree WebdavFlat WebdavFileSpec WebdavFileOps.

(** ** Runs

    A program keeps the files it has opened, and calls the file system and the files in
    any order. *)
Inductive fs_call :=
| CMkdir (name : bytes) (perm now : Z)
| COpenFile (name : bytes) (flag perm : Z)
| CRemoveAll (name : bytes)
| CRename (oldName newName : bytes)
| CStat (name : bytes)
| CRead (h : nat) (n : Z)
| CWrite (h : nat) (p : bytes) (now : Z)
| CSeek (h : nat) (offset whence : Z)
| CReaddir (h : nat) (count : Z)
| CFileStat (h : nat)
| CPatch (h : nat) (patches : list Proppatch)
| CDeadProps (h : nat).

Inductive fs_result :=
| RDone (e : option fs_error)
| RInfo (i : memFileInfo)
| RRead (p : bytes) (e : option fs_error)
| RCount (n : Z) (e : option fs_error)
| RInfos (l : list memFileInfo) (e : option fs_error)
| RNames (l : list (bytes * bytes))
| RProps (m : gmap (bytes * bytes) Property)
| RNoFile.

(** A call of an open file. *)
Definition file_call (c : fs_call) (f : memFile) (a : attr) : option (memFile * attr * fs_result) :=
  match c with
  | CRead _ n => let '(f, (p, e)) := f_Read n f a in Some (f, a, RRead p e)
  | CWrite _ p now => let '(f, a, (n, e)) := f_Write p now f a in Some (f, a, RCount n e)
  | CSeek _ offset whence => let '(f, (n, e)) := f_Seek offset whence f a in Some (f, a, RCount n e)
  | CReaddir _ count => '(f, (l, e)) ← f_Readdir count f a; Some (f, a, RInfos l e)
  | CFileStat _ => Some (f, a, RInfo (f_Stat f a))
  | CPatch _ patches => let '(a, names) := f_Patch patches a in Some (f, a, RNames names)
  | CDeadProps _ => Some (f, a, RProps (f_DeadProps a))
  | _ => Some (f, a, RNoFile)
  end.

Section run.
Context {X : Type} `{FileSystem X}.

Definition tell {A} (files : list memFile) (g : A -> list memFile * fs_result) (r : option (X * (fs_error + A))) : option (X * list memFile * fs_result) :=
  '(x, r) ← r;
  match r with
  | inl e => Some (x, files, RDone (Some e))
  | inr a => let '(files, r) := g a in Some (x, files, r)
  end.

Definition fs_step (c : fs_call) (x : X) (files : list memFile) : option (X * list memFile * fs_result) :=
  match c with
  | CMkdir name perm now => tell files (fun _ => (files, RDone None)) (fsys_Mkdir name perm now x)
  | COpenFile name flag perm => tell files (fun f => (files ++ [f], RDone None)) (fsys_OpenFile name flag perm x)
  | CRemoveAll name => tell files (fun _ => (files, RDone None)) (fsys_RemoveAll name x)
  | CRename oldName newName => tell files (fun _ => (files, RDone None)) (fsys_Rename oldName newName x)
  | CStat name => tell files (fun i => (files, RInfo i)) (fsys_Stat name x)
  | CRead h _ | CWrite h _ _ | CSeek h _ _ | CReaddir h _ | CFileStat h | CPatch h _ | CDeadProps h =>
      match files !! h with
      | None => Some (x, files, RNoFile)
      | Some f =>
          a ← fsys_attr x (f_n f); '(f', a, r) ← file_call c f a;
          Some (fsys_set_attr (f_n f) a x, <[h := f']> files, r)
      end
  end.

Fixpoint fs_run (cs : list fs_call) (x : X) (files : list memFile) : option (X * list memFile * list fs_result) :=
  match cs with
  | [] => Some (x, files, [])
  | c :: cs => '(x, files, r) ← fs_step c x files; '(x, files, rs) ← fs_run cs x files; Some (x, files, r :: rs)
  end.
End run.

(** ** Simulation *)

(** Both calls panic, or both return the same in states that are related. *)
Definition osim {X Y A} (R : X -> Y -> Prop) (c : option (X * A)) (d : option (Y * A)) : Prop :=
  match c, d with
  | Some (x, a), Some (y, b) => R x y /\ a = b
  | None, None => True
  | _, _ => False
  end.

Lemma osim_bind {X Y A B} (R : X -> Y -> Prop) (c : option (X * A)) d (k : X * A -> option (X * B)) l :
  osim R c d -> (forall x y a, R x y -> osim R (k (x, a)) (l (y, a))) -> osim R (c ≫= k) (d ≫= l).
Proof. destruct c as [[x a]|], d as [[y b]|]; try done. intros [HR <-] H. by apply H. Qed.

Record simulation {X Y} (R : X -> Y -> Prop) (FX : FileSystem X) (FY : FileSystem Y) : Prop := {
  sim_Mkdir name perm now x y : R x y -> osim R (fsys_Mkdir name perm now x) (fsys_Mkdir name perm now y);
  sim_OpenFile name flag perm x y : R x y -> osim R (fsys_OpenFile name flag perm x) (fsys_OpenFile name flag perm y);
  sim_RemoveAll name x y : R x y -> osim R (fsys_RemoveAll name x) (fsys_RemoveAll name y);
  sim_Rename o n x y : R x y -> osim R (fsys_Rename o n x) (fsys_Rename o n y);
  sim_Stat name x y : R x y -> osim R (fsys_Stat name x) (fsys_Stat name y);
  sim_attr x y i : R x y -> fsys_attr x i = fsys_attr y i;
  sim_set_attr x y i a b : R x y -> fsys_attr x i = Some a -> a_mode b = a_mode a -> R (fsys_set_attr i b x) (fsys_set_attr i b y)
}.

(** The state of a file system in memory, and the abstract state. *)
Definition mem_flat (fs : memFS) (s : flat) : Prop := fs_ok fs /\ refines fs s.

Lemma same_osim {A} c (r : flat * (fs_error + A)) : same c r -> osim mem_flat c (Some r).
Proof. intros (fs & -> & Hok & HR). by destruct r. Qed.

Lemma mem_simulation zos order : (forall cs e, e ∈ order cs -> is_Some (cs !! e)) ->
  simulation mem_flat (memFileSystem zos order) (flatFileSystem zos order).
Proof.
  intros Ho. constructor; cbn -[Mkdir OpenFile RemoveAll Rename Stat flat_OpenFile flat_Stat].
  - intros * [Hok HR]. by apply same_osim, Mkdir_same.
  - intros * [Hok HR]. destruct (OpenFile_same zos order Ho name flag perm x y Hok HR) as (r & -> & H). by apply same_osim.
  - intros * [Hok HR]. by apply same_osim, RemoveAll_same.
  - intros * [Hok HR]. by apply same_osim, Rename_same.
  - intros * [Hok HR]. destruct (Stat_same name x y Hok HR) as (r & -> & H). by apply same_osim.
  - intros * [Hok HR]. symmetry. apply (rf_attrs _ _ HR).
  - intros * [Hok HR] Ha Hm. destruct (fs_nodes x !! i) as [n|] eqn:E; [|done]. injection Ha as <-. by apply (set_attr_refines x y i b n).
Qed.

Lemma Write_mode p now f a : a_mode (f_Write p now f a).1.2 = a_mode a.
Proof. unfold f_Write. by repeat case_match; simplify_eq/=. Qed.

Lemma Patch_mode patches a : a_mode (f_Patch patches a).1 = a_mode a.
Proof.
  unfold f_Patch. assert (forall l names, a_mode (fold_left (fun '(a, names) patch =>
    fold_left (fun '(a, names) p =>
      (set_deadProps (if pp_Remove patch then delete (pr_XMLName p) (a_deadProps a) else <[pr_XMLName p := p]> (a_deadProps a)) a,
       names ++ [pr_XMLName p])) (pp_Props patch) (a, names)) l (a, names)).1 = a_mode a) as H; [|apply H].
  intros l. revert a. induction l as [|patch l IH]; intros a names; [done|]. cbn [fold_left].
  destruct (fold_left _ (pp_Props patch) (a, names)) as [a' names'] eqn:E. rewrite IH.
  revert a names E. induction (pp_Props patch) as [|p ps IHp]; intros a names; cbn [fold_left]; [by intros [= <- _]|].
  intros E. by rewrite (IHp _ _ E).
Qed.

Lemma file_call_mode c f a f' a' r : file_call c f a = Some (f', a', r) -> a_mode a' = a_mode a.
Proof.
  destruct c; simpl; try (by intros [= _ <- _]).
  - destruct (f_Read n f a) as [? [? ?]]. by intros [= _ <- _].
  - pose proof (Write_mode p now f a) as H. destruct (f_Write p now f a) as [[? ?] [? ?]]. by intros [= _ <- _].
  - destruct (f_Seek offset whence f a) as [? [? ?]]. by intros [= _ <- _].
  - destruct (f_Readdir count f a) as [[? [? ?]]|]; [|done]. by intros [= _ <- _].
  - pose proof (Patch_mode patches a) as H. destruct (f_Patch patches a). by intros [= _ <- _].
Qed.

Section simulation.
Context {X Y : Type} (R : X -> Y -> Prop) (FX : FileSystem X) (FY : FileSystem Y) (HS : simulation R FX FY).

Lemma tell_sim {A} files (g : A -> list memFile * fs_result) c d : osim R c d -> 
  match tell files g c, tell files g d with
  | Some (x, fl, r), Some (y, fl', r') => R x y /\ fl = fl' /\ r = r'
  | None, None => True
  | _, _ => False
  end.
Proof using Type. unfold tell. destruct c as [[x [e|a]]|], d as [[y b]|]; try done; intros [HR <-]; simpl; [done|]. by destruct (g a). Qed.

Lemma fs_step_sim c x y files : R x y ->
  match fs_step c x files, fs_step c y files with
  | Some (x, fl, r), Some (y, fl', r') => R x y /\ fl = fl' /\ r = r'
  | None, None => True
  | _, _ => False
  end.
Proof using HS.
  intros HR. assert (forall h f, match a ← fsys_attr x (f_n f); '(f', a, r) ← file_call c f a; Some (fsys_set_attr (f_n f) a x, <[h:=f']> files, r),
    a ← fsys_attr y (f_n f); '(f', a, r) ← file_call c f a; Some (fsys_set_attr (f_n f) a y, <[h:=f']> files, r) with
    | Some (x, fl, r), Some (y, fl', r') => R x y /\ fl = fl' /\ r = r' | None, None => True | _, _ => False end) as Hf.
  { intros h f. rewrite (sim_attr _ _ _ HS _ _ _ HR). destruct (fsys_attr y (f_n f)) as [a|] eqn:Ea; [|done]. cbn [mbind option_bind].
    destruct (file_call c f a) as [[[f' a'] r]|] eqn:Ec; [|done]. cbn [mbind option_bind]. split; [|done].
    apply (sim_set_attr _ _ _ HS _ _ _ a); [done|by rewrite (sim_attr _ _ _ HS _ _ _ HR)|by apply (file_call_mode c f a f' a' r)]. }
  destruct c; cbn [fs_step]; first [by apply tell_sim, (sim_Mkdir _ _ _ HS)|by apply tell_sim, (sim_OpenFile _ _ _ HS)|by apply tell_sim, (sim_RemoveAll _ _ _ HS)
    |by apply tell_sim, (sim_Rename _ _ _ HS)|by apply tell_sim, (sim_Stat _ _ _ HS)|destruct (files !! h) as [f|]; [apply Hf|done]].
Qed.

Lemma run_sim cs : forall x y files, R x y ->
  match fs_run cs x files, fs_run cs y files with
  | Some (x, fl, rs), Some (y, fl', rs') => R x y /\ fl = fl' /\ rs = rs'
  | None, None => True
  | _, _ => False
  end.
Proof using HS.
  induction cs as [|c cs IH]; intros x y files HR; [done|]. cbn [fs_run]. pose proof (fs_step_sim c x y files HR) as H.
  destruct (fs_step c x files) as [[[x' fl] r]|], (fs_step c y files) as [[[y' fl'] r']|]; try done. destruct H as (HR' & <- & <-). cbn [mbind option_bind].
  specialize (IH x' y' fl HR'). destruct (fs_run cs x' fl) as [[[x2 fl2] rs]|], (fs_run cs y' fl) as [[[y2 fl2'] rs']|]; try done.
  by destruct IH as (HR2 & <- & <-).
Qed.

Lemma moveFiles_sim src dst overwrite x y : R x y -> osim R (moveFiles src dst overwrite x) (moveFiles src dst overwrite y).
Proof using HS.
  intros HR. unfold moveFiles. apply osim_bind; [by apply (sim_Stat _ _ _ HS)|]. clear x y HR. intros x y r HR.
  assert (forall x y (created : bool), R x y -> osim R ('(fs, r) ← fsys_Rename src dst x; match r with inl e => Some (fs, (403, Some e)) | inr _ => Some (fs, (if created then 201 else 204, None)) end)
    ('(fs, r) ← fsys_Rename src dst y; match r with inl e => Some (fs, (403, Some e)) | inr _ => Some (fs, (if created then 201 else 204, None)) end)) as Hrename.
  { clear -HS. intros x y created HR. apply osim_bind; [by apply (sim_Rename _ _ _ HS)|]. by intros ? ? [?|?]. }
  destruct r as [e|i]; [destruct (negb (IsNotExist e)); [done|by apply (Hrename x y true)]|]. destruct overwrite; [|done].
  apply osim_bind; [by apply (sim_RemoveAll _ _ _ HS)|]. intros x' y' [e|[]] HR'; [done|by apply (Hrename x' y' false)].
Qed.

Lemma io_Copy_sim now fuel : forall src dst x y, R x y -> osim R (io_Copy now fuel src dst x) (io_Copy now fuel src dst y).
Proof using HS.
  induction fuel as [|fuel IH]; intros src dst x y HR; cbn [io_Copy]; rewrite (sim_attr _ _ _ HS _ _ (f_n src) HR);
    (destruct (fsys_attr y (f_n src)) as [s|] eqn:Es; [|exact I]); cbn [mbind option_bind]; destruct (f_Read copyBufSize src s) as [src' [d err]].
  all: rewrite (sim_attr _ _ _ HS _ _ (f_n dst) HR); destruct (0 <? zlen d).
  all: try (destruct (fsys_attr y (f_n dst)) as [t|] eqn:Et; [|exact I]; cbn [mbind option_bind];
    pose proof (Write_mode d now dst t) as Hm; destruct (f_Write d now dst t) as [[dst' a] [? werr]];
    assert (R (fsys_set_attr (f_n dst) a x) (fsys_set_attr (f_n dst) a y))
      by (apply (sim_set_attr _ _ _ HS _ _ _ t); [done|by rewrite (sim_attr _ _ _ HS _ _ _ HR)|done])).
  all: cbn [mbind option_bind]; repeat case_match; simplify_eq/=; first [done|exact I|by auto].
Qed.

Lemma copyProps_sim dst src x y : R x y -> 
  match copyProps dst src x, copyProps dst src y with Some x, Some y => R x y | None, None => True | _, _ => False end.
Proof using HS.
  intros HR. unfold copyProps. rewrite !(sim_attr _ _ _ HS _ _ _ HR). destruct (fsys_attr y (f_n src)) as [s|]; [|done]. cbn [mbind option_bind].
  destruct (fsys_attr y (f_n dst)) as [d|] eqn:Ed; [|done]. cbn [mbind option_bind].
  apply (sim_set_attr _ _ _ HS _ _ _ d); [done|by rewrite (sim_attr _ _ _ HS _ _ _ HR)|apply Patch_mode].
Qed.

Lemma copyChildren_sim copyX copyY src dst (created : bool) infos :
  (forall s d x y, R x y -> osim R (copyX s d x) (copyY s d y)) ->
  forall x y, R x y -> osim R (copyChildren copyX src dst (fun fs => Some (fs, (if created then 201 else 204, None))) infos x)
    (copyChildren copyY src dst (fun fs => Some (fs, (if created then 201 else 204, None))) infos y).
Proof using Type.
  intros Hc. induction infos as [|c infos IH]; intros x y HR; [done|]. cbn [copyChildren]. apply osim_bind; [by apply Hc|].
  intros x' y' [st [e|]] HR'; [done|]. by apply IH.
Qed.

Lemma copyTarget_sim dst overwrite x y : R x y -> osim R (copyTarget dst overwrite x) (copyTarget dst overwrite y).
Proof using HS.
  intros HR. unfold copyTarget. apply osim_bind; [by apply (sim_Stat _ _ _ HS)|]. clear x y HR. intros x y [e|i] HR; [by destruct (IsNotExist e)|].
  destruct overwrite; [|done]. apply osim_bind; [by apply (sim_RemoveAll _ _ _ HS)|]. intros x' y' [e|[]] HR'; [by destruct (IsNotExist e)|done].
Qed.

Lemma copyFiles_sim now fuel : forall src dst overwrite depth x y, R x y ->
  osim R (copyFiles now fuel src dst overwrite depth x) (copyFiles now fuel src dst overwrite depth y).
Proof using HS.
  induction fuel as [|fuel IH]; intros src dst overwrite depth x y HR; [done|]. cbn [copyFiles].
  apply osim_bind; [by apply (sim_OpenFile _ _ _ HS)|]. clear x y HR. intros x y [e|srcFile] HR; [done|].
  rewrite (sim_attr _ _ _ HS _ _ (f_n srcFile) HR). destruct (fsys_attr y (f_n srcFile)) as [n|]; [|exact I]. cbn [mbind option_bind].
  apply osim_bind; [by apply copyTarget_sim|]. clear x y HR. intros x y [failed|created] HR; [done|]. destruct (IsDir _).
  - apply osim_bind; [by apply (sim_Mkdir _ _ _ HS)|]. clear x y HR. intros x y [e|[]] HR; [done|]. destruct (depth =? infiniteDepth); [|done].
    rewrite (sim_attr _ _ _ HS _ _ (f_n srcFile) HR). destruct (fsys_attr y (f_n srcFile)) as [n'|]; [|exact I]. cbn [mbind option_bind].
    destruct (f_Readdir _ _ _) as [[f' [infos [e|]]]|]; [done| |exact I]. apply copyChildren_sim; [|done]. intros s d x' y' HR'. by apply IH.
  - apply osim_bind; [by apply (sim_OpenFile _ _ _ HS)|]. clear x y HR. intros x y [e|dstFile] HR; [done|].
    rewrite (sim_attr _ _ _ HS _ _ (f_n srcFile) HR). destruct (fsys_attr y (f_n srcFile)) as [n'|]; [|exact I]. cbn [mbind option_bind].
    apply osim_bind; [by apply io_Copy_sim|]. clear x y HR. intros x y copyErr HR. pose proof (copyProps_sim dstFile srcFile x y HR) as HP.
    destruct (copyProps dstFile srcFile x) as [x'|], (copyProps dstFile srcFile y) as [y'|]; try done. cbn [mbind option_bind]. by destruct copyErr.
Qed.
End simulation.

(** ** No panic *)

(** [Readdir] with a count adds to the position and may wrap. *)
Definition ok_call (c : fs_call) : Prop := match c with CReaddir _ count => count <= 0 | _ => True end.

Definition files_known (s : flat) (files : list memFile) : Prop := Forall (fun f => is_Some (fl_attrs s !! f_n f)) files.

Lemma files_known_mono s s' files : (forall i, is_Some (fl_attrs s !! i) -> is_Some (fl_attrs s' !! i)) -> files_known s files -> files_known s' files.
Proof. intros H Hf. apply (Forall_impl _ _ _ Hf). intros f. apply H. Qed.

Lemma set_attr_known i a s k : is_Some (fl_attrs s !! k) -> is_Some (fl_attrs (flat_set_attr i a s) !! k).
Proof. cbn. intros H. destruct (decide (k = i)) as [->|]; [rewrite lookup_alter_eq; by apply fmap_is_Some|by rewrite lookup_alter_ne]. Qed.

Lemma bind_name_known p a s k : is_Some (fl_attrs s !! k) -> is_Some (fl_attrs (bind_name p a s) !! k).
Proof. cbn. intros H. destruct (decide (fl_next s = k)) as [->|]; [rewrite lookup_insert_eq; by eexists|by rewrite lookup_insert_ne]. Qed.

Lemma Mkdir_known name perm now s k : is_Some (fl_attrs s !! k) -> is_Some (fl_attrs (flat_Mkdir name perm now s).1 !! k).
Proof. unfold flat_Mkdir. repeat case_match; try done. apply bind_name_known. Qed.

Lemma open_known order s p i frag s' f : flat_open order s p i frag = Some (s', inr f) -> s' = s /\ f_n f = i.
Proof. unfold flat_open. destruct (mapM _ _); [|done]. cbn. by intros [= <- <-]. Qed.

Lemma open_inr order s p i frag s' e : flat_open order s p i frag <> Some (s', inl e).
Proof. unfold flat_open. by destruct (mapM _ _). Qed.

Lemma OpenFile_known zos order name flag perm s s' r : is_Some (fl_attrs s !! root) -> flat_OpenFile zos order name flag perm s = Some (s', r) ->
  (forall k, is_Some (fl_attrs s !! k) -> is_Some (fl_attrs s' !! k)) /\ match r with inr f => is_Some (fl_attrs s' !! f_n f) | inl _ => True end.
Proof.
  intros Hroot. unfold flat_OpenFile. cbv zeta. destruct (flat_find s (str "open") name) as [[p|]|e]; [| |by intros [= <- <-]].
  - destruct (negb _); [by intros [= <- <-]|]. destruct (_ && _ && _); [by intros [= <- <-]|].
    set (opened := match fl_names s !! p with Some i => Some (s, i) | None => _ end).
    assert (forall s1 i, opened = Some (s1, i) -> forall k, is_Some (fl_attrs s !! k) -> is_Some (fl_attrs s1 !! k)) as Hop.
    { unfold opened. intros s1 i. destruct (fl_names s !! p); [by intros [= <- <-]|]. destruct (negb _); [|done]. intros [= <- <-] k. apply bind_name_known. }
    destruct opened as [[s1 i]|]; [|by intros [= <- <-]]. specialize (Hop s1 i eq_refl).
    destruct (fl_attrs s1 !! i) as [a|] eqn:Ea; [|done]. cbn [mbind option_bind]. intros E.
    destruct r as [e|f]; [by apply open_inr in E|]. apply open_known in E as [-> ->].
    assert (forall k, is_Some (fl_attrs s1 !! k) -> is_Some (fl_attrs (if negb (Z.land flag (Z.lor O_WRONLY O_RDWR) =? 0) && negb (Z.land flag O_TRUNC =? 0)
      then flat_set_attr i (set_data [] a) s1 else s1) !! k)) as Hs by (intros k; destruct (_ && _); [apply set_attr_known|done]).
    split; [|apply Hs; rewrite Ea; by eexists]. intros k Hk. by apply Hs, Hop.
  - destruct (negb _); [by intros [= <- <-]|]. destruct r as [e|f]; [intros E; by apply open_inr in E|]. intros E. apply open_known in E as [-> ->]. done.
Qed.

Lemma file_call_node c f a f' a' r : file_call c f a = Some (f', a', r) -> f_n f' = f_n f.
Proof.
  destruct c; simpl; try (by intros [= <- _ _]).
  - unfold f_Read. repeat case_match; intros [= <- _ _]; by simplify_eq/=.
  - unfold f_Write. repeat case_match; intros [= <- _ _]; by simplify_eq/=.
  - unfold f_Seek. repeat case_match; intros [= <- _ _]; by simplify_eq/=.
  - destruct (f_Readdir count f a) as [[f1 [l e]]|] eqn:E; [|done]. cbn. intros [= <- _ _]. revert E. unfold f_Readdir.
    repeat case_match; simplify_eq/=; try (by intros [= <- _ _]); destruct (zslice _ _ _); try done; by intros [= <- _ _].
  - by destruct (f_Patch patches a); intros [= <- _ _].
Qed.

Lemma file_call_total c f a : ok_call c -> is_Some (file_call c f a).
Proof.
  destruct c; simpl; try (intros _; by repeat case_match; eexists). intros Hc. unfold f_Readdir.
  destruct (negb _); [by eexists|]. destruct (_ >=? _); [by eexists|]. assert (count >? 0 = false) as -> by lia. cbv iota beta.
  unfold zslice. pose proof (zlen_nonneg (f_childrenSnapshot f)) as Hl. rewrite (proj2 (Z.leb_le _ _) Hl), !Z.leb_refl. by eexists.
Qed.

Section total.
Context (zos : bool) (order : gmap bytes nat -> list bytes) (order_ok : forall cs e, e ∈ order cs -> is_Some (cs !! e)).

Lemma step_total c fs s files : mem_flat fs s -> files_known s files -> ok_call c ->
  exists s' files' r, @fs_step flat (flatFileSystem zos order) c s files = Some (s', files', r) /\ files_known s' files'.
Proof using order_ok.
  intros [Hok HR] Hf Hc.
  assert (forall s', (forall k, is_Some (fl_attrs s !! k) -> is_Some (fl_attrs s' !! k)) -> files_known s' files) as Hmono by (intros s' H; by apply (files_known_mono s)).
  assert (forall h, exists s' files' r, match files !! h with
      | None => Some (s, files, RNoFile)
      | Some f => a ← fl_attrs s !! f_n f; '(f', a, r) ← file_call c f a; Some (flat_set_attr (f_n f) a s, <[h:=f']> files, r)
      end = Some (s', files', r) /\ files_known s' files') as Hfile.
  { intros h. destruct (files !! h) as [f|] eqn:Ef; [|by exists s, files, RNoFile].
    pose proof (Forall_lookup_1 _ _ _ _ Hf Ef) as [a Ha]. cbn in Ha. rewrite Ha. cbn [mbind option_bind].
    destruct (file_call_total c f a Hc) as [[[f' a'] r] E]. rewrite E. cbn [mbind option_bind]. do 3 eexists. split; [done|].
    apply Forall_insert; [apply Hmono; intros k; apply set_attr_known|]. rewrite (file_call_node c f a f' a' r E). apply set_attr_known. rewrite Ha. by eexists. }
  destruct c; cbn [fs_step flatFileSystem fsys_Mkdir fsys_OpenFile fsys_RemoveAll fsys_Rename fsys_Stat fsys_attr fsys_set_attr]; try apply Hfile.
  - unfold tell. pose proof (Mkdir_known name perm now s) as Hk. destruct (flat_Mkdir name perm now s) as [s' [e|u]]; cbn [mbind option_bind];
      do 3 eexists; (split; [done|]); by apply Hmono.
  - destruct (OpenFile_same zos order order_ok name flag perm fs s Hok HR) as ([s' r] & E & _). unfold tell. rewrite E. cbn [mbind option_bind].
    apply OpenFile_known in E as [Hk Hn]; [|rewrite (rf_attrs _ _ HR); apply fmap_is_Some; destruct (root_dir fs Hok) as (_ & n & _ & -> & _); by eexists].
    destruct r as [e|f]; do 3 eexists; (split; [done|]); [by apply Hmono|]. apply Forall_app. split; [by apply Hmono|]. by apply Forall_singleton.
  - unfold tell, flat_RemoveAll. destruct (flat_find s (str "remove") name) as [[p|]|e]; do 3 eexists; (split; [done|]); by apply Hmono.
  - unfold tell. assert (fl_attrs (flat_Rename oldName newName s).1 = fl_attrs s) as Ha by (unfold flat_Rename; by repeat case_match).
    destruct (flat_Rename oldName newName s) as [s' [e|u]]; cbn [mbind option_bind]; do 3 eexists; (split; [done|]); apply Hmono; intros k; cbn in Ha; by rewrite Ha.
  - destruct (Stat_same name fs s Hok HR) as ([s' r] & E & _). unfold tell. rewrite E. cbn [mbind option_bind].
    assert (s' = s) as -> by (revert E; unfold flat_Stat; destruct (flat_find s (str "stat") name) as [[p|]|]; [destruct (fl_names s !! p)|..]; try destruct (fl_attrs s !! _); try done; by intros [= <- _]).
    destruct r; do 3 eexists; (split; [done|]); by apply Hmono.
Qed.

Lemma run_total cs : forall fs s files, mem_flat fs s -> files_known s files -> Forall ok_call cs ->
  exists r, @fs_run flat (flatFileSystem zos order) cs s files = Some r.
Proof using order_ok.
  induction cs as [|c cs IH]; intros fs s files HR Hf Hc; [by eexists|]. apply Forall_cons in Hc as [Hc Hcs].
  destruct (step_total c fs s files HR Hf Hc) as (s' & files' & r & E & Hf'). cbn [fs_run]. rewrite E. cbn [mbind option_bind].
  pose proof (fs_step_sim mem_flat _ _ (mem_simulation zos order order_ok) c fs s files HR) as Hs. rewrite E in Hs.
  destruct (fs_step c fs files) as [[[fs' fl'] r']|]; [|done]. destruct Hs as (HR' & -> & ->).
  destruct (IH fs' s' files' HR' Hf' Hcs) as [[[s2 f2] rs] ->]. by eexists.
Qed.
End total.
