(* ===== verification/WebdavFiles.v ===== *)
(** * Package webdav: what the file system in memory promises

    Runs of calls, written bytes, and what MOVE and COPY leave. *)

From S2P Require Import Prelude WebdavPath WebdavFile WebdavTree WebdavFlat WebdavFileSpec WebdavFileOps WebdavFileRun.

Lemma new_mem_flat now : mem_flat (NewMemFS now) (flat_new now).
Proof.
  assert (forall i, children (NewMemFS now) i = ∅) as Hc.
  { intros i. unfold children, NewMemFS. cbn [fs_nodes]. destruct (decide (i = root)) as [->|]; [by rewrite lookup_singleton_eq|by rewrite lookup_singleton_ne]. }
  assert (forall p i, resolve (NewMemFS now) p = Some i <-> p = [] /\ i = root) as Hr.
  { intros [|e p] i; [split; [by intros [= <-]|by intros [_ ->]]|]. unfold resolve. simpl. rewrite Hc, lookup_empty. split; [done|by intros [? _]]. }
  split; constructor.
  - cbn [NewMemFS fs_nodes]. rewrite lookup_singleton_eq. by eexists.
  - intros i n. cbn [NewMemFS fs_nodes]. rewrite lookup_singleton_Some. intros [<- <-]. split; [done|by eexists].
  - intros i e j. by rewrite Hc, lookup_empty.
  - intros i. cbn [NewMemFS fs_nodes fs_next]. rewrite lookup_singleton_is_Some. intros <-. unfold root. lia.
  - intros p q i. rewrite !Hr. by intros [-> _] [-> _].
  - intros p. cbn [flat_new fl_names]. apply option_eq. intros i. rewrite lookup_singleton_Some, Hr. naive_solver.
  - intros i. cbn [flat_new fl_attrs NewMemFS fs_nodes]. destruct (decide (i = root)) as [->|]; [by rewrite !lookup_singleton_eq|by rewrite !lookup_singleton_ne].
  - done.
Qed.

(** The order of Go's range over a map is not known; any that lists children will do. *)
Definition keys (cs : gmap bytes nat) : list bytes := fst <$> map_to_list cs.

Lemma keys_ok cs e : e ∈ keys cs -> is_Some (cs !! e).
Proof. unfold keys. intros H. apply list_elem_of_fmap in H as ([k v] & -> & H). apply elem_of_map_to_list in H. by eexists. Qed.


Definition demo_calls : list fs_call :=
  [CMkdir (str "/a") 511 7; COpenFile (str "/a/f") (Z.lor O_RDWR O_CREATE) 420; CSeek 0 2 0; CWrite 0 (str "xy") 9; CMkdir (str "/a") 511 8;
   CRename (str "/a") (str "/b"); CStat (str "/b/f"); CSeek 0 0 0; CRemoveAll (str "/b"); CRead 0 10; CStat (str "/b/f"); CMkdir (str "/b/c") 511 9].


(** ** Bytes *)
Lemma lookup_repeat {A} (x : A) n i : (i < n)%nat -> repeat x n !! i = Some x.
Proof. revert i. induction n as [|n IH]; intros [|i] H; [lia..|done|]. apply IH. lia. Qed.

(** Both branches of [Write] at once: the part that overwrites and the part that appends. *)
Lemma Write_data p now f a : IsDir (a_mode a) = false -> 0 <= f_pos f ->
  f_Write p now f a = (mkFile (f_n f) (f_nameSnapshot f) (f_childrenSnapshot f) (f_pos f + zlen p),
    set_modTime now (set_data (take (Z.to_nat (f_pos f)) (a_data a ++ repeat 0 (Z.to_nat (f_pos f - zlen (a_data a)))) ++ p ++
      drop (Z.to_nat (f_pos f + zlen p)) (a_data a)) a), (zlen p, None)).
Proof.
  intros Hd Hp. unfold f_Write. rewrite Hd. set (data := a_data a). set (pos := f_pos f) in *.
  assert (0 <= zlen p) as Hlp by apply zlen_nonneg. assert (zlen data = Z.of_nat (length data)) as Hld by done.
  assert (forall (d q : bytes) (z : Z), z = zlen d -> (if 0 <? zlen q then (zlen (d ++ q), d ++ q) else (z, d)) = (z + zlen q, d ++ q)) as Happend.
  { intros d q z ->. destruct q as [|x q]; [cbn; by rewrite app_nil_r, Z.add_0_r|]. rewrite zlen_app, zlen_cons. pose proof (zlen_nonneg q). rewrite (proj2 (Z.ltb_lt 0 (zlen q + 1))) by lia. done. }
  destruct (Z.ltb_spec pos (zlen data)) as [Hlt|Hge].
  - assert (Z.to_nat (pos - zlen data) = 0%nat) as -> by lia. cbn [repeat]. rewrite app_nil_r. destruct (Z.le_gt_cases (zlen p) (zlen data - pos)) as [Hfit|Hover].
    + rewrite Z.min_l by done. assert (Z.to_nat (zlen p) = length p) as -> by (unfold zlen; lia). rewrite drop_all, (take_ge p) by lia. done.
    + rewrite Z.min_r by lia. assert (pos + (zlen data - pos) = zlen data) as -> by lia.
      assert (Z.to_nat (zlen data) = length data) as -> by (unfold zlen; lia). rewrite drop_all, app_nil_r.
      rewrite Happend by (unfold zlen; rewrite length_app, !length_take; unfold zlen in *; lia). rewrite <- app_assoc, take_drop.
      rewrite (drop_ge data) by (unfold zlen in *; lia). rewrite app_nil_r. do 3 f_equal. unfold zlen in *. rewrite length_drop. lia.
  - rewrite (drop_ge data) by (unfold zlen in *; lia). rewrite app_nil_r. destruct (Z.gtb_spec pos (zlen data)) as [Hgt|Hle].
    + rewrite Happend by (unfold zlen in *; rewrite length_app, repeat_length; lia). rewrite take_ge by (rewrite length_app, repeat_length; unfold zlen in *; lia). done.
    + assert (pos = zlen data) as -> by lia. rewrite Z.sub_diag, app_nil_r. rewrite Happend by done. rewrite take_ge by (unfold zlen; lia). done.
Qed.

(** The bytes of a file and what is read of it. *)
Definition byte_at (a : attr) (k : Z) : option Z := zget (a_data a) k.

(** [Write] at a position of a file, before its end, across it or past it, writes all of its bytes and moves the position by as many.  Every byte of the file afterwards is the one written there, or a zero where the write made a hole, or the one that was there; and [Read] at the position of the write, in this or another open file of the node, gives the bytes written. *)
Theorem Write_bytes p now f a : IsDir (a_mode a) = false -> 0 <= f_pos f ->
  let '(f', a', r) := f_Write p now f a in
  r = (zlen p, None) /\ f_pos f' = f_pos f + zlen p /\
  (forall k, byte_at a' k =
     if (f_pos f <=? k) && (k <? f_pos f + zlen p) then zget p (k - f_pos f)
     else if (zlen (a_data a) <=? k) && (k <? f_pos f) then Some 0
     else byte_at a k) /\
  (forall g, f_pos g = f_pos f -> p <> [] -> (f_Read (zlen p) g a').2 = (p, None)).
Proof.
  intros Hd Hp. rewrite Write_data by done. split; [done|]. split; [done|]. set (pos := f_pos f) in *. set (data := a_data a).
  set (pre := take (Z.to_nat pos) (data ++ repeat 0 (Z.to_nat (pos - zlen data)))).
  assert (zlen pre = pos) as Hpre by (unfold pre, zlen; rewrite length_take, length_app, repeat_length; unfold zlen; lia).
  split.
  - intros k. unfold byte_at, set_modTime, set_data, zget. cbn [a_data]. fold data. destruct (Z.leb_spec 0 k) as [Hk|Hk].
    2: { destruct (Z.leb_spec pos k); [lia|]. cbn [andb]. pose proof (zlen_nonneg data). by destruct (Z.leb_spec (zlen data) k); [lia|]. }
    destruct (Z.leb_spec pos k) as [H1|H1]; cbn [andb].
    + rewrite lookup_app_r by (unfold zlen in *; lia). assert (Z.to_nat k - length pre = Z.to_nat (k - pos))%nat as -> by (unfold zlen in *; lia).
      rewrite (proj2 (Z.ltb_ge k pos)), andb_false_r, (proj2 (Z.leb_le 0 (k - pos))) by lia.
      destruct (Z.ltb_spec k (pos + zlen p)) as [H2|H2]; [by rewrite lookup_app_l by (unfold zlen in *; lia)|].
      rewrite lookup_app_r by (unfold zlen in *; lia). rewrite lookup_drop. f_equal. unfold zlen in *. lia.
    + rewrite lookup_app_l by (unfold zlen in *; lia). unfold pre. rewrite lookup_take_lt by lia.
      destruct (Z.leb_spec (zlen data) k) as [H2|H2].
      * rewrite (proj2 (Z.ltb_lt k pos)) by lia. cbn [andb]. rewrite lookup_app_r by (unfold zlen in *; lia). apply lookup_repeat. unfold zlen in *. lia.
      * cbn [andb]. by rewrite lookup_app_l by (unfold zlen in *; lia).
  - intros g Hg Hne. unfold f_Read, set_modTime, set_data. cbn [a_mode a_data]. rewrite Hd, Hg, Z.geb_leb. rewrite (proj2 (Z.leb_gt _ _)).
    2: { rewrite !zlen_app. destruct p; [done|]. rewrite zlen_cons. pose proof (zlen_nonneg p). pose proof (zlen_nonneg (drop (Z.to_nat (pos + (zlen p + 1))) data)). lia. }
    cbn. f_equal. unfold zsub. rewrite drop_app_length' by (unfold zlen in *; lia). apply take_app_length'. unfold zlen. lia.
Qed.

Lemma Write_bytes_witness :
  (forall now, (f_Write (str "xy") now (mkFile 1 [] [] 5) (mkAttr (str "abc") 420 0 ∅)).1.2 = mkAttr (str "abc" ++ [0; 0] ++ str "xy") 420 now ∅) /\
  let '(f', a', r) := f_Write (str "xy") 3 (mkFile 1 [] [] 2) (mkAttr (str "abc") 420 0 ∅) in
  r = (zlen (str "xy"), None) /\ f_pos f' = 2 + zlen (str "xy") /\
  (forall k, byte_at a' k =
     if (2 <=? k) && (k <? 2 + zlen (str "xy")) then zget (str "xy") (k - 2)
     else if (3 <=? k) && (k <? 2) then Some 0
     else byte_at (mkAttr (str "abc") 420 0 ∅) k) /\
  (forall g, f_pos g = 2 -> str "xy" <> [] -> (f_Read (zlen (str "xy")) g a').2 = (str "xy", None)).
Proof. split; [reflexivity|]. exact (Write_bytes (str "xy") 3 (mkFile 1 [] [] 2) (mkAttr (str "abc") 420 0 ∅) eq_refl ltac:(done)). Defined.

(** [Readdir] with the largest count, after one of two entries was read. *)
Example Readdir_overflow : forall i j, f_Readdir (2 ^ 63 - 1) (mkFile 1 (str "d") [i; j] 1) (mkAttr [] ModeDir 0 ∅) = None.
Proof. reflexivity. Qed.

(** ** Names and directories *)
Section names.
Context (fs : memFS) (s : flat) (HM : mem_flat fs s).

Lemma blocked_snoc p es e : blocked s p (es ++ [e]) = match blocked s p es with Some e => Some e | None => blocked s (p ++ es) [e] end.
Proof using Type.
  revert p. induction es as [|x es IH]; intros p; [by rewrite app_nil_r|]. cbn [app blocked]. destruct (fl_names s !! (p ++ [x])) as [j|]; [|done].
  destruct (is_dir s j); [|done]. rewrite IH, <- app_assoc. done.
Qed.

Lemma blocked_None es : blocked s [] es = None <-> exists d, fl_names s !! es = Some d /\ is_dir s d = true.
Proof using HM.
  destruct HM as [Hok HR]. split.
  - intros E. pose proof (descend_spec fs s Hok HR es [] root (root_dir fs Hok)) as H. rewrite E in H. destruct H as (d & _ & Hd & n & cs & En & Ecs).
    exists d. cbn in Hd. rewrite (rf_names _ _ HR). split; [done|]. by rewrite (is_dir_children fs s Hok HR d n En), Ecs.
  - induction es as [|e es IH] using rev_ind; [done|]. intros (d & Hd & Hdir). rewrite blocked_snoc. cbn [app blocked]. rewrite Hd, Hdir.
    rewrite (rf_names _ _ HR), resolve_snoc in Hd. destruct (resolve fs es) as [j|] eqn:Ej; [|done].
    apply children_dir in Hd as (n & cs & En & Ecs & _). rewrite IH; [done|]. exists j. rewrite (rf_names _ _ HR). split; [done|].
    by rewrite (is_dir_children fs s Hok HR j n En), Ecs.
Qed.

Lemma parent_dir es i : es <> [] -> fl_names s !! es = Some i -> blocked s [] (removelast es) = None.
Proof using HM.
  intros Hne Hi. apply blocked_None. destruct HM as [Hok HR]. destruct es as [|e es _] using rev_ind; [done|]. rewrite removelast_last.
  rewrite (rf_names _ _ HR), resolve_snoc in Hi. destruct (resolve fs es) as [j|] eqn:Ej; [|done]. exists j. rewrite (rf_names _ _ HR). split; [done|].
  apply children_dir in Hi as (n & cs & En & Ecs & _). by rewrite (is_dir_children fs s Hok HR j n En), Ecs.
Qed.

Lemma name_attrs p i : fl_names s !! p = Some i -> is_Some (fl_attrs s !! i).
Proof using HM. destruct HM as [Hok HR]. rewrite (rf_names _ _ HR), (rf_attrs _ _ HR). intros H. apply fmap_is_Some, (resolve_node fs p i Hok H). Qed.
End names.

Lemma flat_find_found s op name : name_elements name <> [] -> blocked s [] (removelast (name_elements name)) = None -> flat_find s op name = inl (Some (name_elements name)).
Proof. unfold flat_find. intros Hne Hb. destruct (name_elements name) as [|e es]; [done|]. by rewrite Hb. Qed.

Lemma name_elements_slashClean name : name_elements (slashClean name) = name_elements name.
Proof. rewrite slashClean_elements. apply name_elements_abs, name_elements_ok. Qed.

Lemma remove_names_mem fs s n : mem_flat fs s -> n <> [] -> Forall clean_elem n -> blocked s [] (removelast n) = None -> exists fs', mem_flat fs' (remove_names n s).
Proof.
  intros [Hok HR] Hne Hn Hb. pose proof (RemoveAll_same (abs_name n) fs s Hok HR) as (fs' & _ & Hok' & HR'). unfold flat_RemoveAll in HR'.
  rewrite flat_find_abs, Hb in HR' by done. by exists fs'.
Qed.

Lemma strip_refl p : strip p p = Some [].
Proof. apply strip_spec. by rewrite app_nil_r. Qed.

Lemma strip_removelast n : n <> [] -> strip n (removelast n) = None.
Proof.
  intros Hne. apply strip_None. intros r E. apply (f_equal length) in E. rewrite length_app in E.
  destruct n as [|e n _] using rev_ind; [done|]. rewrite removelast_last, length_app in E. cbn [length] in E. lia.
Qed.

(** Neither name is above the other. *)
Definition apart (o n : list bytes) : Prop := strip o n = None /\ strip n o = None.

Lemma apart_below o n r : apart o n -> strip n (o ++ r) = None.
Proof.
  intros [H1 H2]. apply strip_None. intros q E. revert n q H1 H2 E. induction o as [|x o IH]; intros n q H1 H2 E; [done|].
  destruct n as [|y n]; [done|]. cbn in *. injection E as -> E. rewrite bool_decide_eq_true_2 in H1, H2 by done. by apply (IH n q).
Qed.

Lemma move_after_remove o n s : apart o n -> move_names o n (remove_names n s) = move_names o n s.
Proof.
  intros Ha. unfold move_names. f_equal. apply map_eq. intros q. pose proof Ha as [Ho Hn].
  change (fl_names (move_names o n (remove_names n s)) !! q = fl_names (move_names o n s) !! q).
  rewrite !move_names_lookup by done. destruct (strip n q) as [r|] eqn:E; rewrite remove_names_lookup; [by rewrite (apart_below o n r Ha)|by rewrite E].
Qed.

(** ** MOVE *)
Section move.
Context (zos : bool) (order : gmap bytes nat -> list bytes) (order_ok : forall cs e, e ∈ order cs -> is_Some (cs !! e)).

Lemma flat_Rename_moves src dst fs s i : mem_flat fs s -> apart (name_elements src) (name_elements dst) ->
  fl_names s !! name_elements src = Some i -> blocked s [] (removelast (name_elements dst)) = None -> fl_names s !! name_elements dst = None ->
  flat_Rename src dst s = (move_names (name_elements src) (name_elements dst) s, inr tt).
Proof using Type.
  intros HM [H1 H2] Hi Hb Hn. assert (name_elements src <> []) as Ho by (intros E; by rewrite E in H1). assert (name_elements dst <> []) as Hd by (intros E; by rewrite E in H2).
  unfold flat_Rename. cbv zeta. rewrite bool_decide_eq_false_2 by (intros E; by rewrite E, strip_refl in H1).
  rewrite bool_decide_eq_false_2 by (rewrite H1; by intros [? ?]).
  rewrite !flat_find_found; rewrite ?name_elements_slashClean; try done; [|by apply (parent_dir fs s HM _ i)]. by rewrite Hi, Hn.
Qed.

Lemma flat_Stat_name name s : name_elements name <> [] -> blocked s [] (removelast (name_elements name)) = None ->
  flat_Stat name s = match fl_names s !! name_elements name with
    | Some i => a ← fl_attrs s !! i; Some (s, inr (stat (path_Base name) a)) | None => Some (s, inl ErrNotExist) end.
Proof using Type. intros Hne Hb. unfold flat_Stat. by rewrite flat_find_found. Qed.

Lemma flat_moveFiles src dst overwrite fs s i : mem_flat fs s -> apart (name_elements src) (name_elements dst) ->
  fl_names s !! name_elements src = Some i -> blocked s [] (removelast (name_elements dst)) = None ->
  (overwrite = true \/ fl_names s !! name_elements dst = None) ->
  @moveFiles flat (flatFileSystem zos order) src dst overwrite s =
    Some (move_names (name_elements src) (name_elements dst) s, (if fl_names s !! name_elements dst then 204 else 201, None)).
Proof using Type.
  intros HM Ha Hi Hb Hov. pose proof Ha as [H1 H2]. assert (name_elements dst <> []) as Hd by (intros E; by rewrite E in H2).
  unfold moveFiles. cbn [flatFileSystem fsys_Stat fsys_RemoveAll fsys_Rename]. rewrite flat_Stat_name by done.
  destruct (fl_names s !! name_elements dst) as [j|] eqn:Ej.
  2: { cbn [mbind option_bind IsNotExist negb]. by rewrite (flat_Rename_moves src dst fs s i). }
  destruct (name_attrs fs s HM _ j Ej) as [a ->]. cbn [mbind option_bind]. destruct Hov as [->|]; [|done]. unfold flat_RemoveAll.
  rewrite flat_find_found by done. cbn [mbind option_bind].
  destruct (remove_names_mem fs s (name_elements dst) HM Hd (name_elements_ok dst) Hb) as [fs1 HM1].
  rewrite (flat_Rename_moves src dst fs1 _ i HM1 Ha); [by rewrite move_after_remove|by rewrite remove_names_lookup, H2| |].
  - apply (blocked_None fs1 _ HM1). apply (blocked_None fs s HM) in Hb as (d & Hd1 & Hd2). exists d. split; [|done]. rewrite remove_names_lookup.
    by rewrite strip_removelast.
  - rewrite remove_names_lookup. by rewrite strip_refl.
Qed.
Lemma flat_moveFiles_gone src dst fs s : mem_flat fs s -> name_elements src <> name_elements dst -> strip (name_elements src) (name_elements dst) = None ->
  name_elements dst <> [] -> is_Some (fl_names s !! name_elements dst) ->
  (fl_names s !! name_elements src = None \/ is_Some (strip (name_elements dst) (name_elements src))) ->
  exists e, @moveFiles flat (flatFileSystem zos order) src dst true s = Some (remove_names (name_elements dst) s, (403, Some e)).
Proof using Type.
  intros HM Hne H1 Hd [j Hj] Hsrc. pose proof (parent_dir fs s HM _ j Hd Hj) as Hb.
  unfold moveFiles. cbn [flatFileSystem fsys_Stat fsys_RemoveAll fsys_Rename]. rewrite flat_Stat_name, Hj by done.
  destruct (name_attrs fs s HM _ j Hj) as [a ->]. cbn [mbind option_bind]. unfold flat_RemoveAll. rewrite flat_find_found by done. cbn [mbind option_bind].
  set (s1 := remove_names _ s). assert (fl_names s1 !! name_elements src = None) as Hn.
  { unfold s1. rewrite remove_names_lookup. destruct Hsrc as [->|[r ->]]; [by destruct (strip (name_elements dst) (name_elements src))|done]. }
  assert (exists e, flat_Rename src dst s1 = (s1, inl e)) as [e ->]; [|by exists e].
  unfold flat_Rename. cbv zeta. rewrite bool_decide_eq_false_2 by done. rewrite bool_decide_eq_false_2 by (rewrite H1; by intros [? ?]). rewrite Hn.
  destruct (flat_find s1 (str "rename") (slashClean src)) as [[p|]|e]; destruct (flat_find s1 (str "rename") (slashClean dst)) as [[q|]|e']; by eexists.
Qed.
End move.

(** MOVE of a file or directory, between names neither of which is below the other, to a name whose parent is a directory, and that is free or may be overwritten: the source and all below it take the destination's place, whose old content goes; every other name stands for what it stood for, no attribute changes, and the status is 201 if the name was free and 204 otherwise. *)
Theorem moveFiles_moves zos order src dst overwrite fs s : (forall cs e, e ∈ order cs -> is_Some (cs !! e)) -> fs_ok fs -> refines fs s ->
  let o := name_elements src in let n := name_elements dst in
  apart o n -> is_Some (resolve fs o) -> (exists d, resolve fs (removelast n) = Some d /\ is_Some (fs_nodes fs !! d ≫= n_children)) ->
  (overwrite = true \/ resolve fs n = None) ->
  exists fs', @moveFiles memFS (memFileSystem zos order) src dst overwrite fs = Some (fs', (if resolve fs n then 204 else 201, None)) /\ fs_ok fs' /\
    (forall q, resolve fs' q = match strip n q with Some r => resolve fs (o ++ r) | None => match strip o q with Some _ => None | None => resolve fs q end end) /\
    (forall i, n_attr <$> fs_nodes fs' !! i = n_attr <$> fs_nodes fs !! i).
Proof.
  intros Ho Hok HR o n Ha [i Hi] (d & Hd & Hdir) Hov. assert (mem_flat fs s) as HM by done.
  rewrite <- (rf_names _ _ HR) in Hi, Hd, Hov. assert (blocked s [] (removelast n) = None) as Hb.
  { apply (blocked_None fs s HM). exists d. split; [done|]. destruct (fs_nodes fs !! d) as [m|] eqn:Em; [|by destruct Hdir].
    rewrite (is_dir_children fs s Hok HR d m Em). cbn in Hdir. by destruct Hdir as [? ->]. }
  pose proof (moveFiles_sim mem_flat _ _ (mem_simulation zos order Ho) src dst overwrite fs s HM) as Hs.
  rewrite (flat_moveFiles zos order src dst overwrite fs s i HM Ha Hi Hb Hov) in Hs. rewrite <- (rf_names _ _ HR).
  destruct (moveFiles src dst overwrite fs) as [[fs' r]|]; [|done]. destruct Hs as [[Hok' HR'] ->]. exists fs'. split; [done|]. split; [done|]. split.
  - intros q. rewrite <- (rf_names _ _ HR'), move_names_lookup by apply Ha. fold o n. destruct (strip n q); [by rewrite (rf_names _ _ HR)|].
    destruct (strip o q); [done|]. apply (rf_names _ _ HR).
  - intros k. by rewrite <- (rf_attrs _ _ HR'), <- (rf_attrs _ _ HR).
Qed.

(** A reachable state, for the examples. *)
Definition state_after (cs : list fs_call) : memFS * flat :=
  match @fs_run memFS (memFileSystem false keys) cs (NewMemFS 0) [], @fs_run flat (flatFileSystem false keys) cs (flat_new 0) [] with
  | Some (fs, _, _), Some (s, _, _) => (fs, s)
  | _, _ => (NewMemFS 0, flat_new 0)
  end.

Lemma state_after_ok cs : fs_ok (state_after cs).1 /\ refines (state_after cs).1 (state_after cs).2.
Proof.
  unfold state_after. pose proof (run_sim mem_flat _ _ (mem_simulation false keys keys_ok) cs _ _ [] (new_mem_flat 0)) as H.
  destruct (fs_run cs (NewMemFS 0) []) as [[[fs files] rs]|], (fs_run cs (flat_new 0) []) as [[[s files'] rs']|]; try done;
    [by destruct H as [? _]|apply new_mem_flat].
Qed.

Definition demo_tree : list fs_call :=
  [CMkdir (str "/a") 511 1; CMkdir (str "/a/b") 511 2; COpenFile (str "/a/b/f") (Z.lor O_RDWR O_CREATE) 420; CMkdir (str "/c") 511 3].

Lemma moveFiles_moves_witness :
  let fs := (state_after demo_tree).1 in
  exists fs', @moveFiles memFS (memFileSystem false keys) (str "/a/b") (str "/c") true fs = Some (fs', (204, None)) /\ fs_ok fs' /\
    (forall q, resolve fs' q = match strip [str "c"] q with Some r => resolve fs ([str "a"; str "b"] ++ r)
      | None => match strip [str "a"; str "b"] q with Some _ => None | None => resolve fs q end end) /\
    (forall i, n_attr <$> fs_nodes fs' !! i = n_attr <$> fs_nodes fs !! i).
Proof.
  intros fs. destruct (state_after_ok demo_tree) as [Hok HR].
  apply (moveFiles_moves false keys (str "/a/b") (str "/c") true fs (state_after demo_tree).2 keys_ok Hok HR).
  - split; vm_compute; reflexivity.
  - vm_compute. by eexists.
  - exists 0%nat. split; [vm_compute; reflexivity|]. vm_compute. by eexists.
  - by left.
Defined.

(** C16: MOVE with Overwrite onto a name that is there, when the source is not there or is below that name, answers 403, and has deleted the destination with all below it, the source included: DELETE comes first, and nothing undoes it. *)
Theorem moveFiles_deletes zos order src dst fs s : (forall cs e, e ∈ order cs -> is_Some (cs !! e)) -> fs_ok fs -> refines fs s ->
  let o := name_elements src in let n := name_elements dst in
  o <> n -> strip o n = None -> n <> [] -> is_Some (resolve fs n) -> (resolve fs o = None \/ is_Some (strip n o)) ->
  exists fs' e, @moveFiles memFS (memFileSystem zos order) src dst true fs = Some (fs', (403, Some e)) /\ fs_ok fs' /\
    (forall q, resolve fs' q = match strip n q with Some _ => None | None => resolve fs q end) /\ resolve fs' o = None.
Proof.
  intros Ho Hok HR o n Hne H1 Hd Hn Hsrc. assert (mem_flat fs s) as HM by done. rewrite <- (rf_names _ _ HR) in Hn.
  assert (fl_names s !! o = None \/ is_Some (strip n o)) as Hsrc' by (by rewrite (rf_names _ _ HR)).
  destruct (flat_moveFiles_gone zos order src dst fs s HM Hne H1 Hd Hn Hsrc') as [e E].
  pose proof (moveFiles_sim mem_flat _ _ (mem_simulation zos order Ho) src dst true fs s HM) as Hs. rewrite E in Hs.
  destruct (moveFiles src dst true fs) as [[fs' r]|]; [|done]. destruct Hs as [[Hok' HR'] ->]. exists fs', e. split; [done|]. split; [done|].
  assert (forall q, resolve fs' q = match strip n q with Some _ => None | None => resolve fs q end) as Hq.
  { intros q. rewrite <- (rf_names _ _ HR'), remove_names_lookup. fold n. destruct (strip n q); [done|]. apply (rf_names _ _ HR). }
  split; [exact Hq|]. rewrite Hq. destruct Hsrc as [->|[r ->]]; [by destruct (strip n o)|done].
Qed.

Lemma moveFiles_deletes_witness :
  let fs := (state_after demo_tree).1 in
  is_Some (resolve fs [str "a"; str "b"; str "f"]) /\
  exists fs' e, @moveFiles memFS (memFileSystem false keys) (str "/a/b/f") (str "/a") true fs = Some (fs', (403, Some e)) /\ fs_ok fs' /\
    (forall q, resolve fs' q = match strip [str "a"] q with Some _ => None | None => resolve fs q end) /\ resolve fs' [str "a"; str "b"; str "f"] = None.
Proof.
  intros fs. split; [vm_compute; by eexists|]. destruct (state_after_ok demo_tree) as [Hok HR].
  apply (moveFiles_deletes false keys (str "/a/b/f") (str "/a") fs (state_after demo_tree).2 keys_ok Hok HR).
  - vm_compute. done.
  - vm_compute. reflexivity.
  - vm_compute. done.
  - vm_compute. by eexists.
  - right. vm_compute. by eexists.
Defined.
