(* ===== verification/WebdavCopy.v ===== *)
(** * Package webdav: COPY of a file

    What [io.Copy], [copyProps] and [copyFiles] leave of a file that is copied. *)

From S2P Require Import Prelude WebdavPath WebdavFile WebdavTree WebdavFlat WebdavFileSpec WebdavFileOps WebdavFileRun WebdavFiles.

Lemma set_attr_same i a s : fl_attrs s !! i = Some a -> flat_set_attr i a s = s.
Proof. intros H. destruct s as [names attrs next]. unfold flat_set_attr. cbn in *. f_equal. apply map_eq. intros k.
  destruct (decide (k = i)) as [->|]; [by rewrite lookup_alter_eq, H|by rewrite lookup_alter_ne]. Qed.

Lemma set_attr_twice i a b s : flat_set_attr i b (flat_set_attr i a s) = flat_set_attr i b s.
Proof. unfold flat_set_attr. cbn. f_equal. apply map_eq. intros k.
  destruct (decide (k = i)) as [->|]; [by rewrite !lookup_alter_eq; destruct (fl_attrs s !! i)|by rewrite !lookup_alter_ne]. Qed.

Lemma set_attr_lookup i a b s : fl_attrs s !! i = Some b -> fl_attrs (flat_set_attr i a s) !! i = Some a.
Proof. intros H. cbn. by rewrite lookup_alter_eq, H. Qed.

Section copy.
Context (zos : bool) (order : gmap bytes nat -> list bytes) (order_ok : forall cs e, e ∈ order cs -> is_Some (cs !! e)).
#[local] Instance flat_fs : FileSystem flat := flatFileSystem zos order.

Lemma copyBufSize_pos : 0 < copyBufSize.
Proof using Type. done. Qed.

Lemma Read_end n f a : IsDir (a_mode a) = false -> zlen (a_data a) <= f_pos f -> f_Read n f a = (f, ([], Some errEOF)).
Proof using Type. intros Hd H. unfold f_Read. by rewrite Hd, Z.geb_leb, (proj2 (Z.leb_le _ _) H). Qed.

(** What is read is what the rest of the file starts with. *)
Lemma Read_more n f a : IsDir (a_mode a) = false -> 0 <= f_pos f < zlen (a_data a) -> 0 < n -> exists d,
  f_Read n f a = (mkFile (f_n f) (f_nameSnapshot f) (f_childrenSnapshot f) (f_pos f + zlen d), (d, None)) /\ 0 < zlen d /\
  drop (Z.to_nat (f_pos f)) (a_data a) = d ++ drop (Z.to_nat (f_pos f + zlen d)) (a_data a) /\ f_pos f + zlen d <= zlen (a_data a).
Proof using Type.
  intros Hd Hp Hn. unfold f_Read. rewrite Hd, Z.geb_leb, (proj2 (Z.leb_gt _ _)) by lia. set (pos := f_pos f) in *. set (data := a_data a) in *.
  set (d := zsub data pos n). assert (zlen d = Z.min n (zlen data - pos)) as Hl by (unfold d, zsub, zlen in *; rewrite length_take, length_drop; lia).
  exists d. split; [done|]. split; [lia|]. split; [|lia]. rewrite Hl. unfold d, zsub. rewrite <- (take_drop (Z.to_nat n) (drop (Z.to_nat pos) data)) at 1. f_equal.
  rewrite drop_drop. destruct (Z.le_gt_cases n (zlen data - pos)) as [H1|H1]; [f_equal; lia|]. rewrite !drop_ge; [done|unfold zlen in *; lia..].
Qed.

Lemma Write_end p now f a : IsDir (a_mode a) = false -> f_pos f = zlen (a_data a) ->
  f_Write p now f a = (mkFile (f_n f) (f_nameSnapshot f) (f_childrenSnapshot f) (f_pos f + zlen p), set_modTime now (set_data (a_data a ++ p) a), (zlen p, None)).
Proof using Type.
  intros Hd Hp. pose proof (zlen_nonneg (a_data a)). rewrite Write_data by (done || lia). rewrite Hp, Z.sub_diag. cbn [Z.to_nat repeat].
  rewrite app_nil_r, (take_ge (a_data a)) by (unfold zlen; lia). pose proof (zlen_nonneg p). rewrite (drop_ge (a_data a)) by (unfold zlen in *; lia). by rewrite app_nil_r.
Qed.

(** Reads until the end, each written at the end of the copy. *)
Lemma flat_io_Copy now fuel : forall src dst s a t, fl_attrs s !! f_n src = Some a -> fl_attrs s !! f_n dst = Some t -> f_n src <> f_n dst ->
  IsDir (a_mode a) = false -> IsDir (a_mode t) = false -> 0 <= f_pos src -> f_pos dst = zlen (a_data t) -> zlen (a_data a) - f_pos src <= Z.of_nat fuel ->
  exists t', io_Copy now fuel src dst s = Some (flat_set_attr (f_n dst) t' s, None) /\ a_data t' = a_data t ++ drop (Z.to_nat (f_pos src)) (a_data a) /\
    a_mode t' = a_mode t /\ a_deadProps t' = a_deadProps t.
Proof using Type.
  induction fuel as [|fuel IH]; intros src dst s a t Ha Ht Hne Hda Hdt Hsrc Hdst Hfuel; cbn [io_Copy fsys_attr flat_fs flatFileSystem]; rewrite Ha; cbn [mbind option_bind].
  - rewrite Read_end by (done || lia). exists t. rewrite set_attr_same, drop_ge by (done || (unfold zlen in *; lia)). by rewrite app_nil_r.
  - destruct (Z.le_gt_cases (zlen (a_data a)) (f_pos src)) as [Hend|Hmore].
    { rewrite Read_end by done. exists t. rewrite set_attr_same, drop_ge by (done || (unfold zlen in *; lia)). by rewrite app_nil_r. }
    destruct (Read_more copyBufSize src a Hda ltac:(lia) copyBufSize_pos) as (d & -> & Hd & Hrest & Hle).
    rewrite (proj2 (Z.ltb_lt 0 _) Hd), Ht. cbn [mbind option_bind]. rewrite Write_end by done. cbn [mbind option_bind fsys_set_attr flat_fs flatFileSystem].
    set (t1 := set_modTime now _). edestruct (IH (mkFile (f_n src) (f_nameSnapshot src) (f_childrenSnapshot src) (f_pos src + zlen d))
      (mkFile (f_n dst) (f_nameSnapshot dst) (f_childrenSnapshot dst) (f_pos dst + zlen d)) (flat_set_attr (f_n dst) t1 s) a t1) as (t' & E & D & M & P);
      [cbn; by rewrite lookup_alter_ne|by apply (set_attr_lookup _ _ t)|done|done|done|cbn; lia| |cbn; lia|].
    { unfold t1. cbn. by rewrite zlen_app, Hdst. }
    rewrite E. cbn [f_n]. rewrite set_attr_twice. exists t'. split; [done|]. split; [|done]. rewrite D, Hrest. unfold t1. cbn. by rewrite <- app_assoc.
Qed.

(** ** Properties *)
Definition named (m : gmap (bytes * bytes) Property) : Prop := forall k p, m !! k = Some p -> pr_XMLName p = k.

Lemma Patch_insert ps a : (f_Patch [mkPatch false ps] a).1 = set_deadProps (fold_left (fun m p => <[pr_XMLName p := p]> m) ps (a_deadProps a)) a.
Proof using Type.
  unfold f_Patch. cbn [fold_left pp_Remove pp_Props]. assert (forall names, (fold_left (fun '(a, names) p => (set_deadProps (<[pr_XMLName p := p]> (a_deadProps a)) a,
    names ++ [pr_XMLName p])) ps (a, names)).1 = set_deadProps (fold_left (fun m p => <[pr_XMLName p := p]> m) ps (a_deadProps a)) a) as H; [|apply H].
  revert a. induction ps as [|p ps IH]; intros a names; [by destruct a|]. cbn [fold_left]. by rewrite IH.
Qed.

Lemma insert_named (l : list ((bytes * bytes) * Property)) : (forall k p, (k, p) ∈ l -> pr_XMLName p = k) -> NoDup l.*1 ->
  forall m : gmap (bytes * bytes) Property, fold_left (fun m p => <[pr_XMLName p := p]> m) l.*2 m = list_to_map l ∪ m.
Proof using Type.
  induction l as [|[k p] l IH]; intros Hl Hnd m; [cbn; by rewrite (left_id_L ∅ (∪))|]. cbn in Hnd. apply NoDup_cons in Hnd as [Hk Hnd].
  rewrite fmap_cons. cbn [fold_left list_to_map foldr snd]. rewrite (Hl k p) by (left). rewrite IH; [|intros; apply Hl; by right|done]. cbn.
  rewrite <- insert_union_l, insert_union_r; [done|]. by apply not_elem_of_list_to_map_1.
Qed.

Lemma copy_named (m : gmap (bytes * bytes) Property) : named m -> fold_left (fun m p => <[pr_XMLName p := p]> m) (map snd (map_to_list m)) ∅ = m.
Proof using Type.
  intros Hm. change (map snd (map_to_list m)) with ((map_to_list m).*2). rewrite insert_named; [|intros k p Hin; apply Hm; by apply elem_of_map_to_list|apply NoDup_fst_map_to_list].
  by rewrite (right_id_L ∅ (∪)), list_to_map_to_list.
Qed.

(** ** A file *)
Lemma file_no_children fs s p i a : mem_flat fs s -> fl_names s !! p = Some i -> fl_attrs s !! i = Some a -> IsDir (a_mode a) = false -> flat_children s p = ∅.
Proof using Type.
  intros [Hok HR] Hp Ha Hd. rewrite (flat_children_spec fs s HR p i) by (by rewrite <- (rf_names _ _ HR)). rewrite (rf_attrs _ _ HR) in Ha.
  unfold children. destruct (fs_nodes fs !! i) as [n|] eqn:En; [|done]. injection Ha as <-. cbn. pose proof (ok_dir fs Hok i n En) as H.
  destruct (n_children n); [|done]. rewrite (proj1 H) in Hd; [done|by eexists].
Qed.

Lemma flat_open_file fs s p i a frag : mem_flat fs s -> fl_names s !! p = Some i -> fl_attrs s !! i = Some a -> IsDir (a_mode a) = false ->
  flat_open order s p i frag = Some (s, inr (mkFile i frag [] 0)).
Proof using order_ok.
  intros HM Hp Ha Hd. unfold flat_open. rewrite (file_no_children fs s p i a) by done. destruct (order ∅) as [|e l] eqn:E; [done|].
  destruct (order_ok ∅ e) as [x Hx]; [rewrite E; left|]. by rewrite lookup_empty in Hx.
Qed.

Lemma bind_file fs s n a : mem_flat fs s -> n <> [] -> blocked s [] (removelast n) = None -> fl_names s !! n = None -> IsDir (a_mode a) = false ->
  exists fs', mem_flat fs' (bind_name n a s).
Proof using Type.
  intros HM Hne Hb Hn Hd. apply (blocked_None fs s HM) in Hb as (d & Hd1 & Hd2). destruct HM as [Hok HR].
  destruct n as [|e n _] using rev_ind; [done|]. rewrite removelast_last in Hd1. rewrite (rf_names _ _ HR) in Hd1, Hn.
  destruct (resolve_node fs n d Hok Hd1) as [nd En]. rewrite (is_dir_children fs s Hok HR d nd En) in Hd2. destruct (n_children nd) as [cs|] eqn:Ecs; [|done].
  destruct (bind_refines fs s n e d (mkNode None a) Hok HR) as (fs' & _ & Hok' & HR'); [split; [done|]; by exists nd, cs|done|done|cbn; rewrite Hd; split; [by intros []|done]|].
  by exists fs'.
Qed.

Lemma flat_OpenFile_read fs s name i a : mem_flat fs s -> name_elements name <> [] -> fl_names s !! name_elements name = Some i -> fl_attrs s !! i = Some a ->
  IsDir (a_mode a) = false -> flat_OpenFile zos order name O_RDONLY 0 s = Some (s, inr (mkFile i (List.last (name_elements name) []) [] 0)).
Proof using order_ok.
  intros HM Hne Hi Ha Hd. unfold flat_OpenFile. cbv zeta. rewrite flat_find_found by (done || by apply (parent_dir fs s HM _ i)). rewrite Hi.
  cbn [negb andb Z.land O_RDONLY Z.eqb]. rewrite Ha. cbn [mbind option_bind]. by apply (flat_open_file fs s _ i a).
Qed.

(** With O_RDWR, O_CREATE and O_TRUNC at a free name. *)
Lemma flat_OpenFile_create fs s name perm : mem_flat fs s -> name_elements name <> [] -> blocked s [] (removelast (name_elements name)) = None ->
  fl_names s !! name_elements name = None ->
  flat_OpenFile zos order name (Z.lor O_RDWR (Z.lor O_CREATE O_TRUNC)) perm s =
    Some (bind_name (name_elements name) (mkAttr [] (Perm perm) 0 ∅) s, inr (mkFile (fl_next s) (List.last (name_elements name) []) [] 0)).
Proof using order_ok.
  intros HM Hne Hb Hn. destruct (bind_file fs s _ (mkAttr [] (Perm perm) 0 ∅) HM Hne Hb Hn (IsDir_file perm)) as [fs' HM'].
  unfold flat_OpenFile. cbv zeta. rewrite flat_find_found by done. rewrite Hn. set (s' := bind_name _ _ s) in *.
  assert (fl_attrs s' !! fl_next s = Some (mkAttr [] (Perm perm) 0 ∅)) as Ha by (cbn; by rewrite lookup_insert_eq).
  change (Z.land (Z.lor O_RDWR (Z.lor O_CREATE O_TRUNC)) (Z.lor O_SYNC O_APPEND) =? 0) with true.
  change (Z.land (Z.lor O_RDWR (Z.lor O_CREATE O_TRUNC)) O_CREATE =? 0) with false. change (Z.land (Z.lor O_RDWR (Z.lor O_CREATE O_TRUNC)) O_EXCL =? 0) with true.
  cbn [negb andb]. rewrite Ha. cbn [mbind option_bind].
  change (Z.land (Z.lor O_RDWR (Z.lor O_CREATE O_TRUNC)) (Z.lor O_WRONLY O_RDWR) =? 0) with false. change (Z.land (Z.lor O_RDWR (Z.lor O_CREATE O_TRUNC)) O_TRUNC =? 0) with false.
  cbn [negb andb]. rewrite set_attr_same by exact Ha. apply (flat_open_file fs' s' _ _ (mkAttr [] (Perm perm) 0 ∅)); [done| |done|apply IsDir_file].
  cbn. by rewrite lookup_insert_eq.
Qed.

(** The names without the destination. *)
Definition cleared (n : list bytes) (s : flat) : flat := if fl_names s !! n then remove_names n s else s.

Lemma cleared_names n s q : fl_names (cleared n s) !! q = match fl_names s !! n, strip n q with Some _, Some _ => None | _, _ => fl_names s !! q end.
Proof using Type. unfold cleared. destruct (fl_names s !! n); [|done]. apply remove_names_lookup. Qed.

Lemma cleared_attrs n s : fl_attrs (cleared n s) = fl_attrs s.
Proof using Type. unfold cleared. by destruct (fl_names s !! n). Qed.

Lemma cleared_next n s : fl_next (cleared n s) = fl_next s.
Proof using Type. unfold cleared. by destruct (fl_names s !! n). Qed.

Lemma cleared_mem fs s n : mem_flat fs s -> n <> [] -> Forall clean_elem n -> blocked s [] (removelast n) = None ->
  exists fs1, mem_flat fs1 (cleared n s) /\ blocked (cleared n s) [] (removelast n) = None /\ fl_names (cleared n s) !! n = None.
Proof using Type.
  intros HM Hne Hc Hb. assert (exists fs1, mem_flat fs1 (cleared n s)) as [fs1 HM1].
  { unfold cleared. destruct (fl_names s !! n); [by apply (remove_names_mem fs)|by exists fs]. }
  exists fs1. split; [done|]. split; [|rewrite cleared_names, strip_refl; by destruct (fl_names s !! n)].
  apply (blocked_None fs1 _ HM1). apply (blocked_None fs s HM) in Hb as (d & Hd1 & Hd2). exists d. unfold is_dir in *. rewrite cleared_attrs. split; [|done].
  rewrite cleared_names. destruct (fl_names s !! n); [|done]. by rewrite strip_removelast.
Qed.

Lemma flat_copyTarget fs s dst overwrite : mem_flat fs s -> name_elements dst <> [] -> blocked s [] (removelast (name_elements dst)) = None ->
  (overwrite = true \/ fl_names s !! name_elements dst = None) ->
  copyTarget dst overwrite s = Some (cleared (name_elements dst) s, inr (negb (bool_decide (is_Some (fl_names s !! name_elements dst))))).
Proof using Type.
  intros HM Hne Hb Hov. unfold copyTarget, cleared. cbn [fsys_Stat fsys_RemoveAll flat_fs flatFileSystem]. rewrite flat_Stat_name by done.
  destruct (fl_names s !! name_elements dst) as [j|] eqn:Ej; [|done]. destruct (name_attrs fs s HM _ j Ej) as [b ->]. cbn [mbind option_bind].
  destruct Hov as [->|]; [|done]. unfold flat_RemoveAll. by rewrite flat_find_found.
Qed.

Lemma flat_copyFiles_file now fuel src dst overwrite depth fs s i a : mem_flat fs s -> apart (name_elements src) (name_elements dst) ->
  fl_names s !! name_elements src = Some i -> fl_attrs s !! i = Some a -> IsDir (a_mode a) = false ->
  blocked s [] (removelast (name_elements dst)) = None -> (overwrite = true \/ fl_names s !! name_elements dst = None) ->
  exists t, copyFiles now (S fuel) src dst overwrite depth s =
    Some (flat_set_attr (fl_next s) t (bind_name (name_elements dst) (mkAttr [] (Perm (a_mode a)) 0 ∅) (cleared (name_elements dst) s)),
          (if fl_names s !! name_elements dst then 204 else 201, None)) /\
    a_data t = a_data a /\ a_mode t = Perm (a_mode a) /\ (named (a_deadProps a) -> a_deadProps t = a_deadProps a).
Proof using order_ok.
  intros HM Ha Hi Hat Hd Hb Hov. pose proof Ha as [H1 H2]. set (n := name_elements dst) in *.
  assert (name_elements src <> []) as Hso by (intros E; by rewrite E in H1). assert (n <> []) as Hne by (intros E; by rewrite E in H2).
  destruct (cleared_mem fs s n HM Hne (name_elements_ok dst) Hb) as (fs1 & HM1 & Hb1 & Hn1). set (s1 := cleared n s) in *.
  cbn [copyFiles fsys_OpenFile fsys_attr flat_fs flatFileSystem]. rewrite (flat_OpenFile_read fs s src i a) by done. cbn [mbind option_bind f_n].
  rewrite Hat. cbn [mbind option_bind]. rewrite (flat_copyTarget fs) by done. fold n. fold s1. cbn [mbind option_bind].
  assert (fl_attrs s1 !! i = Some a) as Hat1 by (unfold s1; by rewrite cleared_attrs).
  assert (fl_next s1 = fl_next s) as Hnext by apply cleared_next.
  assert (i <> fl_next s) as Hfresh.
  { rewrite <- Hnext. destruct HM1 as [Hok1 HR1]. rewrite (rf_attrs _ _ HR1) in Hat1. rewrite (rf_next _ _ HR1). pose proof (ok_next fs1 Hok1 i) as Hlt.
    destruct (fs_nodes fs1 !! i); [|done]. specialize (Hlt ltac:(done)). lia. }
  set (t0 := mkAttr [] (Perm (a_mode a)) 0 ∅). set (s2 := bind_name n t0 s1). set (j := fl_next s) in *.
  assert (fl_attrs s2 !! j = Some t0) as Hat2 by (cbn; by rewrite Hnext, lookup_insert_eq).
  assert (fl_attrs s2 !! i = Some a) as Hai2 by (cbn; by rewrite Hnext, lookup_insert_ne).
  destruct (flat_io_Copy now (S (length (a_data a))) (mkFile i (List.last (name_elements src) []) [] 0) (mkFile j (List.last n []) [] 0) s2 a t0) as (t' & EC & D & M & P);
    [done|done|done|done|apply IsDir_file|cbn; lia|done|cbn; unfold zlen; lia|]. cbn [f_n f_pos] in *.
  set (t := (f_Patch [mkPatch false (map snd (map_to_list (f_DeadProps a)))] t').1).
  assert (a_data t = a_data a /\ a_mode t = Perm (a_mode a) /\ (named (a_deadProps a) -> a_deadProps t = a_deadProps a)) as Ht.
  { unfold t. rewrite Patch_insert. unfold set_deadProps. cbn. rewrite D, M, P. split; [done|]. split; [done|]. apply copy_named. }
  unfold f_Stat. cbn [stat fi_mode f_nameSnapshot]. rewrite Hd. rewrite (flat_OpenFile_create fs1 s1 dst) by done. cbn [mbind option_bind]. fold n.
  change (Perm (Z.land (a_mode a) ModePerm)) with (Perm (Perm (a_mode a))). assert (Perm (Perm (a_mode a)) = Perm (a_mode a)) as -> by (unfold Perm; by rewrite <- Z.land_assoc, Z.land_diag).
  fold t0 s2. rewrite Hai2, Hnext. cbn [mbind option_bind]. rewrite EC. cbn [mbind option_bind]. unfold copyProps. cbn [f_n fsys_attr fsys_set_attr flat_fs flatFileSystem].
  assert (fl_attrs (flat_set_attr j t' s2) !! i = Some a) as -> by (cbn -[s2]; by rewrite lookup_alter_ne).
  rewrite (set_attr_lookup j t' t0 s2 Hat2). cbn [mbind option_bind]. fold t. rewrite set_attr_twice. exists t. split; [|done]. do 2 f_equal.
  destruct (fl_names s !! n); [by rewrite bool_decide_eq_true_2 by (by eexists)|by rewrite bool_decide_eq_false_2 by (by intros [? ?])].
Qed.
End copy.

(** C17: COPY of a file, with the destination neither above nor below it, in a directory that
    exists, and free or to be overwritten.  Afterwards the destination stands for a new node
    with the bytes, the permissions and the dead properties of the source, and no name is below
    it: what an overwritten directory held is gone.  Every other name stands for what it stood
    for, no other node changes, and the status is 201 if the destination was free and 204
    otherwise. *)
Theorem copyFiles_copies zos order now fuel src dst overwrite depth fs s i node :
  (forall cs e, e ∈ order cs -> is_Some (cs !! e)) -> fs_ok fs -> refines fs s ->
  let o := name_elements src in let n := name_elements dst in
  apart o n -> resolve fs o = Some i -> fs_nodes fs !! i = Some node -> n_children node = None ->
  (exists d, resolve fs (removelast n) = Some d /\ is_Some (fs_nodes fs !! d ≫= n_children)) -> (overwrite = true \/ resolve fs n = None) ->
  exists fs' j c, @copyFiles memFS (memFileSystem zos order) now (S fuel) src dst overwrite depth fs = Some (fs', (if resolve fs n then 204 else 201, None)) /\ fs_ok fs' /\
    resolve fs' n = Some j /\ fs_nodes fs !! j = None /\ n_attr <$> fs_nodes fs' !! j = Some c /\
    a_data c = a_data (n_attr node) /\ a_mode c = Perm (a_mode (n_attr node)) /\
    (named (a_deadProps (n_attr node)) -> a_deadProps c = a_deadProps (n_attr node)) /\
    (forall r, r <> [] -> resolve fs' (n ++ r) = None) /\
    (forall q, strip n q = None -> resolve fs' q = resolve fs q) /\ (forall k, k <> j -> n_attr <$> fs_nodes fs' !! k = n_attr <$> fs_nodes fs !! k).
Proof.
  intros Ho Hok HR o n Ha Hi En Hfile (d & Hd & Hdir) Hov. assert (mem_flat fs s) as HM by done.
  assert (IsDir (a_mode (n_attr node)) = false) as Hnd.
  { pose proof (ok_dir fs Hok i node En) as H. rewrite Hfile in H. destruct (IsDir _); [|done]. by destruct (proj2 H eq_refl). }
  assert (fl_attrs s !! i = Some (n_attr node)) as Hat by (by rewrite (rf_attrs _ _ HR), En).
  rewrite <- (rf_names _ _ HR) in Hi, Hd, Hov. assert (blocked s [] (removelast n) = None) as Hb.
  { apply (blocked_None fs s HM). exists d. split; [done|]. destruct (fs_nodes fs !! d) as [m|] eqn:Em; [|by destruct Hdir].
    rewrite (is_dir_children fs s Hok HR d m Em). cbn in Hdir. by destruct Hdir as [? ->]. }
  destruct (flat_copyFiles_file zos order Ho now fuel src dst overwrite depth fs s i (n_attr node) HM Ha Hi Hat Hnd Hb Hov) as (t & E & D & M & P).
  pose proof (copyFiles_sim mem_flat _ _ (mem_simulation zos order Ho) now (S fuel) src dst overwrite depth fs s HM) as Hs. unfold flat_fs in E. rewrite E in Hs.
  rewrite <- (rf_names _ _ HR). destruct (copyFiles now (S fuel) src dst overwrite depth fs) as [[fs' r]|]; [|done]. destruct Hs as [[Hok' HR'] ->].
  exists fs', (fl_next s), t. split; [done|]. split; [done|]. fold n in HR'. rewrite <- (rf_names _ _ HR'), <- (rf_attrs _ _ HR').
  cbn [fl_names fl_attrs flat_set_attr bind_name]. rewrite cleared_next, lookup_insert_eq, lookup_alter_eq, lookup_insert_eq. split; [done|].
  split; [rewrite (rf_next _ _ HR); by apply fresh_node|]. do 4 (split; [done|]). split; [|split].
  - intros r Hr. rewrite <- (rf_names _ _ HR'). cbn [fl_names flat_set_attr bind_name].
    rewrite lookup_insert_ne by (intros H; apply Hr; rewrite <- (app_nil_r n) in H at 1; by apply app_inv_head in H).
    rewrite cleared_names, strip_app. destruct (fl_names s !! n) eqn:Eq; [done|]. rewrite (rf_names _ _ HR) in Eq |- *.
    by rewrite (resolve_app fs root n r), Eq.
  - intros q Hq. rewrite <- (rf_names _ _ HR'). cbn [fl_names flat_set_attr bind_name]. rewrite lookup_insert_ne by (intros <-; by rewrite strip_refl in Hq).
    rewrite cleared_names, Hq, <- (rf_names _ _ HR). by destruct (fl_names s !! n).
  - intros k Hk. rewrite <- (rf_attrs _ _ HR'), <- (rf_attrs _ _ HR). cbn [fl_attrs flat_set_attr bind_name].
    rewrite cleared_next, lookup_alter_ne, lookup_insert_ne, cleared_attrs by done. done.
Qed.

Definition demo_copy : list fs_call :=
  [COpenFile (str "/f") (Z.lor O_RDWR O_CREATE) 420; CWrite 0 (str "bytes") 5; CMkdir (str "/d") 511 6; COpenFile (str "/d/g") (Z.lor O_RDWR O_CREATE) 420; CWrite 1 (str "old") 7].

Lemma copyFiles_copies_witness :
  let fs := (state_after demo_copy).1 in
  exists fs' j c, @copyFiles memFS (memFileSystem false keys) 9 1000 (str "/f") (str "/d/g") true 0 fs = Some (fs', (204, None)) /\ fs_ok fs' /\
    resolve fs' [str "d"; str "g"] = Some j /\ fs_nodes fs !! j = None /\ n_attr <$> fs_nodes fs' !! j = Some c /\
    a_data c = str "bytes" /\ a_mode c = 420 /\
    (named ∅ -> a_deadProps c = ∅) /\
    (forall r, r <> [] -> resolve fs' ([str "d"; str "g"] ++ r) = None) /\
    (forall q, strip [str "d"; str "g"] q = None -> resolve fs' q = resolve fs q) /\ (forall k, k <> j -> n_attr <$> fs_nodes fs' !! k = n_attr <$> fs_nodes fs !! k).
Proof.
  intros fs. destruct (state_after_ok demo_copy) as [Hok HR].
  apply (copyFiles_copies false keys 9 999 (str "/f") (str "/d/g") true 0 fs (state_after demo_copy).2 1 (mkNode None (mkAttr (str "bytes") 420 5 ∅)) keys_ok Hok HR).
  - split; vm_compute; reflexivity.
  - vm_compute. reflexivity.
  - vm_compute. reflexivity.
  - reflexivity.
  - exists 2%nat. split; [vm_compute; reflexivity|]. vm_compute. by eexists.
  - by left.
Defined.
