(* ===== verification/Utf8.v ===== *)
(** * Strings as code points

    [utf8.DecodeRune], the range clause over a string and the conversion of code points to
    a string, as the language and package unicode/utf8 define them. *)

From S2P Require Import Prelude.

Definition RuneError : Z := 65533.
Definition MaxRune : Z := 1114111.

(** The code points that UTF-8 encodes: no surrogates. *)
Definition scalar (r : Z) : Prop := 0 <= r <= MaxRune /\ ~ (55296 <= r <= 57343).

#[export] Instance scalar_dec r : Decision (scalar r).
Proof. unfold scalar. apply _. Defined.

(** A continuation byte with the six bits [x]. *)
Definition cont (x : Z) : Z := 128 + x mod 64.

Definition AppendRune (r : Z) : bytes :=
  if negb (bool_decide (scalar r)) then [239; 191; 189]
  else if r <? 128 then [r]
  else if r <? 2048 then [192 + r / 64; cont r]
  else if r <? 65536 then [224 + r / 4096; cont (r / 64); cont r]
  else [240 + r / 262144; cont (r / 4096); cont (r / 64); cont r].

(** [string(rs)] *)
Definition utf8 (rs : list Z) : bytes := concat (map AppendRune rs).

Definition within (lo hi b : Z) : bool := (lo <=? b) && (b <=? hi).

(** The first code point and the bytes it takes. *)
Definition DecodeRune (s : bytes) : Z * nat :=
  let bad := (RuneError, 1%nat) in
  match s with
  | [] => (RuneError, 0%nat)
  | b0 :: s =>
      if b0 <? 128 then (b0, 1%nat)
      else if within 194 223 b0 then
        match s with
        | b1 :: _ => if within 128 191 b1 then ((b0 - 192) * 64 + (b1 - 128), 2%nat) else bad
        | _ => bad
        end
      else if within 224 239 b0 then
        match s with
        | b1 :: b2 :: _ =>
            if within (if b0 =? 224 then 160 else 128) (if b0 =? 237 then 159 else 191) b1 && within 128 191 b2
            then ((b0 - 224) * 4096 + (b1 - 128) * 64 + (b2 - 128), 3%nat) else bad
        | _ => bad
        end
      else if within 240 244 b0 then
        match s with
        | b1 :: b2 :: b3 :: _ =>
            if within (if b0 =? 240 then 144 else 128) (if b0 =? 244 then 143 else 191) b1 && within 128 191 b2 && within 128 191 b3
            then ((b0 - 240) * 262144 + (b1 - 128) * 4096 + (b2 - 128) * 64 + (b3 - 128), 4%nat) else bad
        | _ => bad
        end
      else bad
  end.

(** [for _, r := range s]: every round takes a byte at least. *)
Fixpoint range_loop (fuel : nat) (s : bytes) : list Z :=
  match fuel, s with
  | S fuel, _ :: _ => let '(r, n) := DecodeRune s in r :: range_loop fuel (drop n s)
  | _, _ => []
  end.

Definition runes (s : bytes) : list Z := range_loop (length s) s.

(** ** Round trip *)
Lemma within_true lo hi b : lo <= b <= hi -> within lo hi b = true.
Proof. unfold within. intros. rewrite (proj2 (Z.leb_le _ _)), (proj2 (Z.leb_le _ _)) by lia. done. Qed.

Lemma within_false lo hi b : b < lo \/ hi < b -> within lo hi b = false.
Proof. unfold within. intros. destruct (Z.leb_spec lo b), (Z.leb_spec b hi); try done; lia. Qed.

Lemma DecodeRune_Append r s : scalar r -> DecodeRune (AppendRune r ++ s) = (r, length (AppendRune r)).
Proof.
  intros Hr. unfold AppendRune. rewrite bool_decide_eq_true_2 by done. cbn [negb]. destruct Hr as [[H0 Hmax] Hsur]. unfold MaxRune, cont in *.
  destruct (Z.ltb_spec r 128) as [H1|H1]; [cbn; by rewrite (proj2 (Z.ltb_lt r 128)) by lia|].
  destruct (Z.ltb_spec r 2048) as [H2|H2].
  { cbn [app DecodeRune length]. rewrite (proj2 (Z.ltb_ge _ _)), (within_true 194 223), (within_true 128 191) by (Z.div_mod_to_equations; lia).
    f_equal. Z.div_mod_to_equations; lia. }
  destruct (Z.ltb_spec r 65536) as [H3|H3].
  { cbn [app DecodeRune length]. rewrite (proj2 (Z.ltb_ge _ _)), (within_false 194 223), (within_true 224 239) by (Z.div_mod_to_equations; lia).
    rewrite (within_true _ _ (128 + (r / 64) mod 64)), (within_true 128 191) by (repeat case_match; Z.div_mod_to_equations; lia).
    cbn [andb]. f_equal. Z.div_mod_to_equations; lia. }
  cbn [app DecodeRune length]. rewrite (proj2 (Z.ltb_ge _ _)), (within_false 194 223), (within_false 224 239), (within_true 240 244) by (Z.div_mod_to_equations; lia).
  rewrite (within_true _ _ (128 + (r / 4096) mod 64)), !(within_true 128 191) by (repeat case_match; Z.div_mod_to_equations; lia).
  cbn [andb]. f_equal. Z.div_mod_to_equations; lia.
Qed.

Lemma AppendRune_pos r : (0 < length (AppendRune r))%nat.
Proof. unfold AppendRune. repeat case_match; simpl; lia. Qed.

Lemma range_loop_utf8 rs fuel : Forall scalar rs -> (length (utf8 rs) <= fuel)%nat -> range_loop fuel (utf8 rs) = rs.
Proof.
  revert fuel. induction rs as [|r rs IH]; intros fuel Hrs Hf; [by destruct fuel|]. apply Forall_cons in Hrs as [Hr Hrs].
  cbn [utf8 map concat] in *. change (concat (map AppendRune rs)) with (utf8 rs) in *. rewrite length_app in Hf. pose proof (AppendRune_pos r) as Hp.
  destruct fuel as [|fuel]; [lia|]. cbn [range_loop]. rewrite DecodeRune_Append by done. destruct (AppendRune r ++ utf8 rs) as [|b t] eqn:E.
  { apply (f_equal length) in E. rewrite length_app in E. cbn [length] in E. lia. }
  rewrite <- E, drop_app_length. f_equal. apply IH; [done|lia].
Qed.

(** Code points written as a string are read back. *)
Lemma runes_utf8 rs : Forall scalar rs -> runes (utf8 rs) = rs.
Proof. intros H. unfold runes. by apply range_loop_utf8. Qed.

(** Bytes below 128 are code points. *)
Definition ascii (b : Z) : Prop := 0 <= b < 128.

Lemma utf8_ascii rs : Forall ascii rs -> utf8 rs = rs.
Proof.
  induction 1 as [|r rs Hr Hrs IH]; [done|]. cbn [utf8 map concat]. change (concat (map AppendRune rs)) with (utf8 rs). rewrite IH.
  unfold AppendRune. unfold ascii in Hr. rewrite bool_decide_eq_true_2 by (unfold scalar, MaxRune; lia). cbn [negb]. by rewrite (proj2 (Z.ltb_lt r 128)) by lia.
Qed.

Lemma runes_ascii rs : Forall ascii rs -> runes rs = rs.
Proof.
  intros H. rewrite <- (utf8_ascii rs H) at 1. apply runes_utf8. apply (Forall_impl _ _ _ H). intros r. unfold ascii, scalar, MaxRune. lia.
Qed.
