(* ===== verification/Punycode.v ===== *)
(** * Package idna: Punycode

    Models src/idna/punycode.go: the encoding of labels by RFC 3492.  Integers are int32;
    sums and products that are not wrapped stay in range. *)

From S2P Require Import Prelude WebdavPath Utf8.

Definition base : Z := 36.
Definition damp : Z := 700.
Definition initialBias : Z := 72.
Definition initialN : Z := 128.
Definition skew : Z := 38.
Definition tmax : Z := 26.
Definition tmin : Z := 1.

Definition hyphen : Z := 45.

(** The error is [punyError]; [None] outside is a panic. *)
Inductive puny A := Puny (x : A) | PunyError.
Arguments Puny {A}.
Arguments PunyError {A}.

(** [a + b * c]; the bool is the overflow. *)
Definition madd (a b c : Z) : Z * bool :=
  let p := swrap 64 (b * c) in
  if p >? 2 ^ 31 - 1 - a then (0, true) else (swrap 32 (a + swrap 32 p), false).

Definition decodeDigit (x : Z) : option Z :=
  if (48 <=? x) && (x <=? 57) then Some (x - (48 - 26))
  else if (65 <=? x) && (x <=? 90) then Some (x - 65)
  else if (97 <=? x) && (x <=? 122) then Some (x - 97)
  else None.

(** [None] is the panic. *)
Definition encodeDigit (digit : Z) : option Z :=
  if (0 <=? digit) && (digit <? 26) then Some (digit + 97)
  else if (26 <=? digit) && (digit <? 36) then Some (digit + (48 - 26))
  else None.

(** A delta is divided by 35 five times at most. *)
Fixpoint adaptLoop (fuel : nat) (delta k : Z) : Z * Z :=
  match fuel with
  | O => (delta, k)
  | S fuel => if delta >? Z.quot ((base - tmin) * tmax) 2 then adaptLoop fuel (Z.quot delta (base - tmin)) (k + base) else (delta, k)
  end.

Definition adapt (delta numPoints : Z) (firstTime : bool) : Z :=
  let delta := if firstTime then Z.quot delta damp else Z.quot delta 2 in
  let delta := delta + Z.quot delta numPoints in
  let '(delta, k) := adaptLoop 6 delta 0 in
  k + Z.quot ((base - tmin + 1) * delta) (delta + skew).

Definition threshold (k bias : Z) : Z :=
  if k <=? bias then tmin else if k >=? bias + tmax then tmax else k - bias.

(** ** Decoding *)

(** The inner loop: the bytes that are left stand for [pos]. *)
Fixpoint decodeInt (digits : bytes) (i w k bias : Z) : puny (Z * bytes) :=
  match digits with
  | [] => PunyError
  | x :: digits =>
      match decodeDigit x with
      | None => PunyError
      | Some digit =>
          let '(i, overflow) := madd i digit w in
          if overflow then PunyError
          else
            let t := threshold k bias in
            if digit <? t then Puny (i, digits)
            else
              let '(w, overflow) := madd 0 w (base - t) in
              if overflow then PunyError else decodeInt digits i w (k + base) bias
      end
  end.

Definition insert_at (output : list Z) (i n : Z) : option (list Z) :=
  if (0 <=? i) && (i <=? zlen output) then Some (take (Z.to_nat i) output ++ n :: drop (Z.to_nat i) output) else None.

(** The outer loop; every round takes a byte. *)
Fixpoint decodeLoop (fuel : nat) (digits : bytes) (output : list Z) (i n bias : Z) : option (puny (list Z)) :=
  match digits with
  | [] => Some (Puny output)
  | _ =>
      match fuel with
      | O => None
      | S fuel =>
          let oldI := i in
          match decodeInt digits i 1 base bias with
          | PunyError => Some PunyError
          | Puny (i, digits) =>
              if zlen output >=? 1024 then Some PunyError
              else
                let x := zlen output + 1 in
                let bias := adapt (i - oldI) x (oldI =? 0) in
                let n := swrap 32 (n + Z.quot i x) in
                let i := Z.rem i x in
                if (n <? 0) || (n >? MaxRune) then Some PunyError
                else output ← insert_at output i n; decodeLoop fuel digits output (i + 1) n bias
          end
      end
  end.

Definition decode (encoded : bytes) : option (puny bytes) :=
  match encoded with
  | [] => Some (Puny [])
  | _ =>
      let pos := 1 + LastIndexByte encoded hyphen in
      if pos =? 1 then Some PunyError
      else if pos =? zlen encoded then (s ← zslice encoded 0 (zlen encoded - 1); Some (Puny s))
      else
        prefix ← (if negb (pos =? 0) then zslice encoded 0 (pos - 1) else Some []);
        digits ← zslice encoded pos (zlen encoded);
        r ← decodeLoop (length digits) digits (runes prefix) 0 initialN initialBias;
        Some (match r with Puny output => Puny (utf8 output) | PunyError => PunyError end)
  end.

(** ** Encoding *)
Record encoder := mkEnc {
  en_output : bytes;
  en_delta : Z;
  en_bias : Z;
  en_h : Z;
  en_remaining : Z
}.

(** The digits of [q], the innermost loop: [q] gets ten times smaller at least. *)
Fixpoint encodeInt (fuel : nat) (q k bias : Z) : option bytes :=
  let t := threshold k bias in
  if q <? t then d ← encodeDigit q; Some [d]
  else
    match fuel with
    | O => None
    | S fuel =>
        d ← encodeDigit (t + Z.rem (q - t) (base - t));
        rest ← encodeInt fuel (Z.quot (q - t) (base - t)) (k + base) bias;
        Some (d :: rest)
    end.

(** The loop over the code points for one [n]. *)
Fixpoint encodeRunes (rs : list Z) (n b : Z) (e : encoder) : option (puny encoder) :=
  match rs with
  | [] => Some (Puny e)
  | r :: rs =>
      if r <? n then
        let delta := swrap 32 (en_delta e + 1) in
        if delta <? 0 then Some PunyError
        else encodeRunes rs n b (mkEnc (en_output e) delta (en_bias e) (en_h e) (en_remaining e))
      else if r >? n then encodeRunes rs n b e
      else
        digits ← encodeInt 10 (en_delta e) base (en_bias e);
        encodeRunes rs n b (mkEnc (en_output e ++ digits) 0 (adapt (en_delta e) (en_h e + 1) (en_h e =? b)) (en_h e + 1) (en_remaining e - 1))
  end.

Definition minRune (n : Z) (rs : list Z) : Z := fold_left (fun m r => if (m >? r) && (r >=? n) then r else m) rs (2 ^ 31 - 1).

(** Every round handles a code point. *)
Fixpoint encodeLoop (fuel : nat) (rs : list Z) (n b : Z) (e : encoder) : option (puny bytes) :=
  if en_remaining e =? 0 then Some (Puny (en_output e))
  else
    match fuel with
    | O => None
    | S fuel =>
        let m := minRune n rs in
        let '(delta, overflow) := madd (en_delta e) (swrap 32 (m - n)) (en_h e + 1) in
        if overflow then Some PunyError
        else
          r ← encodeRunes rs m b (mkEnc (en_output e) delta (en_bias e) (en_h e) (en_remaining e));
          match r with
          | PunyError => Some PunyError
          | Puny e => encodeLoop fuel rs (swrap 32 (m + 1)) b (mkEnc (en_output e) (swrap 32 (en_delta e + 1)) (en_bias e) (en_h e) (en_remaining e))
          end
    end.

Definition encode (prefix s : bytes) : option (puny bytes) :=
  let rs := runes s in
  let basic := filter (fun r => r < 128) rs in
  let b := zlen basic in
  let output := prefix ++ basic ++ (if b >? 0 then [hyphen] else []) in
  encodeLoop (length rs) rs initialN b (mkEnc output 0 initialBias b (zlen rs - b)).

Example encode_buecher : encode (str "xn--") (utf8 [98; 252; 99; 104; 101; 114]) = Some (Puny (str "xn--bcher-kva")).
Proof. reflexivity. Qed.

Example decode_buecher : decode (str "bcher-kva") = Some (Puny (utf8 [98; 252; 99; 104; 101; 114])).
Proof. reflexivity. Qed.
