(* ===== verification/PunycodeTrip.v ===== *)
(** * Package idna: Punycode round trip

    [decode] follows [encode]: both count through the pairs of a code point and a position,
    and the deltas are the distances between the insertions. *)

From S2P Require Import Prelude WebdavPath Utf8 Punycode.

(** ** Integers *)

(** The largest sums stay below this. *)
Definition limit : Z := 35 ^ 6.

Lemma threshold_range k bias : 1 <= threshold k bias <= 26.
Proof. unfold threshold, tmin, tmax. repeat case_match; lia. Qed.

Lemma digit_roundtrip d : 0 <= d < 36 -> exists x, encodeDigit d = Some x /\ decodeDigit x = Some d /\ x <> hyphen /\ ascii x.
Proof.
  intros H. unfold encodeDigit. destruct (Z.ltb_spec d 26) as [H1|H1].
  - rewrite (proj2 (Z.leb_le 0 d)) by lia. exists (d + 97). split; [done|]. unfold decodeDigit, hyphen, ascii.
    rewrite (proj2 (Z.leb_gt (d + 97) 57)), (proj2 (Z.leb_gt (d + 97) 90)), (proj2 (Z.leb_le 97 _)), (proj2 (Z.leb_le _ 122)), !andb_false_r by lia. cbn [andb].
    split; [f_equal; lia|lia].
  - rewrite andb_false_r, (proj2 (Z.leb_le 26 d)), (proj2 (Z.ltb_lt d 36)) by lia. cbn [andb]. exists (d + (48 - 26)). split; [done|]. unfold decodeDigit, hyphen, ascii.
    rewrite (proj2 (Z.leb_le 48 _)), (proj2 (Z.leb_le _ 57)) by lia. cbn [andb]. split; [f_equal; lia|lia].
Qed.

Lemma madd_ok a b c : 0 <= a -> 0 <= b -> 0 <= c -> a + b * c < 2 ^ 31 -> madd a b c = (a + b * c, false).
Proof.
  intros Ha Hb Hc H. unfold madd. assert (0 <= b * c) by nia. rewrite (swrap_id 64) by lia. rewrite Z.gtb_ltb, (proj2 (Z.ltb_ge _ _)) by lia.
  by rewrite (swrap_id 32 (b * c)), (swrap_id 32) by lia.
Qed.

Lemma encodeInt_total fuel : forall q k bias, 0 <= q < 10 ^ Z.of_nat fuel -> is_Some (encodeInt fuel q k bias).
Proof.
  induction fuel as [|fuel IH]; intros q k bias Hq; cbn [encodeInt]; pose proof (threshold_range k bias) as Ht; set (t := threshold k bias) in *.
  - change (10 ^ Z.of_nat 0) with 1 in Hq. rewrite (proj2 (Z.ltb_lt _ _)) by lia. destruct (digit_roundtrip q) as (x & -> & _); [lia|]. by eexists.
  - destruct (Z.ltb_spec q t) as [H|H].
    { destruct (digit_roundtrip q) as (x & -> & _); [lia|]. by eexists. }
    unfold base. rewrite Z.rem_mod_nonneg, Z.quot_div_nonneg by lia. pose proof (Z.mod_pos_bound (q - t) (36 - t) ltac:(lia)).
    destruct (digit_roundtrip (t + (q - t) mod (36 - t))) as (x & -> & _); [lia|]. cbn [mbind option_bind].
    destruct (IH ((q - t) / (36 - t)) (k + 36) bias) as [ds ->]; [|by eexists].
    split; [apply Z.div_pos; lia|]. rewrite Nat2Z.inj_succ, Z.pow_succ_r in Hq by lia. apply Z.div_lt_upper_bound; [lia|]. nia.
Qed.

(** What the weight is in the inner loop: a power of 35 until the threshold is [tmax]. *)
Definition weight_ok (k w bias : Z) : Prop := 1 <= w /\ exists j, 0 <= j /\ k = 36 * (j + 1) /\ (threshold k bias < 26 -> w = 35 ^ j).

Lemma weight_next k w bias : weight_ok k w bias -> weight_ok (k + 36) (w * (36 - threshold k bias)) bias.
Proof.
  intros (Hw & j & Hj & Hk & H). pose proof (threshold_range k bias) as Ht. split; [nia|]. exists (j + 1). split; [lia|]. split; [lia|]. intros H1.
  assert (threshold k bias = 1) as E.
  { revert H1. unfold threshold, tmin, tmax. rewrite !Z.geb_leb. destruct (Z.leb_spec (k + 36) bias), (Z.leb_spec k bias); try lia.
    destruct (Z.leb_spec (bias + 26) (k + 36)); lia. }
  rewrite E, H by lia. rewrite Z.pow_add_r by lia. lia.
Qed.

(** No weight overflows before the number does. *)
Lemma weight_bound k w bias q : weight_ok k w bias -> threshold k bias <= q -> q * w < limit -> w * (36 - threshold k bias) < 2 ^ 31.
Proof.
  intros (Hw & j & Hj & Hk & H) Hq Hl. pose proof (threshold_range k bias) as Ht. unfold limit in Hl.
  destruct (decide (threshold k bias = 26)) as [E|E]; [rewrite E in *; nia|]. rewrite H in * by lia.
  destruct (Z.le_gt_cases j 5) as [Hj5|Hj5].
  - assert (35 ^ j <= 35 ^ 5) by (apply Z.pow_le_mono_r; lia). nia.
  - assert (35 ^ 6 <= 35 ^ j) by (apply Z.pow_le_mono_r; lia). nia.
Qed.

Lemma decodeInt_encodeInt fuel : forall q k bias ds i w rest, encodeInt fuel q k bias = Some ds -> 0 <= q -> 0 <= i -> weight_ok k w bias -> i + q * w < limit ->
  decodeInt (ds ++ rest) i w k bias = Puny (i + q * w, rest) /\ hyphen ∉ ds /\ Forall ascii ds /\ ds <> [].
Proof.
  assert (forall q k bias ds i w rest, q < threshold k bias -> (d ← encodeDigit q; Some [d]) = Some ds -> 0 <= q -> 0 <= i -> weight_ok k w bias -> i + q * w < limit ->
    decodeInt (ds ++ rest) i w k bias = Puny (i + q * w, rest) /\ hyphen ∉ ds /\ Forall ascii ds /\ ds <> []) as Hlast.
  { intros q k bias ds i w rest H E Hq Hi Hw Hl. pose proof (threshold_range k bias) as Ht. destruct (digit_roundtrip q) as (x & Ex & Dx & Hx & Ax); [lia|].
    rewrite Ex in E. injection E as <-. cbn [app decodeInt]. rewrite Dx. destruct Hw as [Hw _]. rewrite madd_ok by (unfold limit in *; lia).
    rewrite (proj2 (Z.ltb_lt _ _)) by lia. split; [done|]. split; [|split; [by apply Forall_singleton|done]]. rewrite list_elem_of_singleton. congruence. }
  induction fuel as [|fuel IH]; intros q k bias ds i w rest E Hq Hi Hw Hl; cbn [encodeInt] in E; (destruct (Z.ltb_spec q (threshold k bias)) as [H|H]; [by apply Hlast|]); [done|].
  pose proof (threshold_range k bias) as Ht. set (t := threshold k bias) in *. unfold base in E. rewrite Z.rem_mod_nonneg, Z.quot_div_nonneg in E by lia.
  pose proof (Z.mod_pos_bound (q - t) (36 - t) ltac:(lia)) as Hm. pose proof (Z.div_mod (q - t) (36 - t) ltac:(lia)) as Hdm.
  set (d := t + (q - t) mod (36 - t)) in *. assert (d = t + (q - t) mod (36 - t)) as Ed by done. set (q' := (q - t) / (36 - t)) in *. assert (0 <= q') by (apply Z.div_pos; lia). assert (q = d + (36 - t) * q') as Eq by lia.
  destruct (digit_roundtrip d) as (x & Ex & Dx & Hx & Ax); [lia|]. rewrite Ex in E. cbn [mbind option_bind] in E.
  destruct (encodeInt fuel q' (k + 36) bias) as [ds'|] eqn:E'; [|done]. injection E as <-. pose proof Hw as [Hw1 _].
  destruct (IH q' (k + 36) bias ds' (i + d * w) (w * (36 - t)) rest E') as (D & Hh & Ha & _); [done|nia|by apply weight_next|nia|].
  assert (d * w <= q * w) by (apply Z.mul_le_mono_nonneg_r; nia).
  cbn [app decodeInt]. rewrite Dx. rewrite madd_ok by (unfold limit in *; lia). fold t. rewrite (proj2 (Z.ltb_ge _ _)) by lia.
  pose proof (weight_bound k w bias q Hw H ltac:(lia)) as Hwb. fold t in Hwb. unfold base. rewrite madd_ok by lia. rewrite Z.add_0_l, D.
  split; [do 2 f_equal; nia|]. split; [|split; [by constructor|done]]. apply not_elem_of_cons. split; [congruence|done].
Qed.

(** ** Decoding without fuel *)
Definition decodes (digits : bytes) (output : list Z) (i n bias : Z) (rs : list Z) : Prop :=
  forall fuel, (length digits <= fuel)%nat -> decodeLoop fuel digits output i n bias = Some (Puny rs).

(** One insertion. *)
Lemma decodes_step ds rest output i n bias delta A B m rs :
  encodeInt 10 delta base bias = Some ds -> 0 <= delta -> 0 <= i -> i + delta < limit -> output = A ++ B -> zlen output < 1024 ->
  i + delta = (m - n) * (zlen output + 1) + zlen A -> 0 <= n <= m -> m <= MaxRune ->
  decodes rest (A ++ m :: B) (zlen A + 1) m (adapt delta (zlen output + 1) (i =? 0)) rs -> decodes (ds ++ rest) output i n bias rs.
Proof.
  intros E Hd Hi Hl Ho Hlen Hsum Hn Hm H fuel Hf.
  destruct (decodeInt_encodeInt 10 delta base bias ds i 1 rest E Hd Hi) as (D & _ & _ & Hne); [split; [lia|]; exists 0; by rewrite Z.pow_0_r|lia|].
  destruct ds as [|x ds]; [done|]. destruct fuel as [|fuel]; [cbn in Hf; lia|]. cbn [decodeLoop app] in *. rewrite D, Z.mul_1_r.
  rewrite Z.geb_leb, (proj2 (Z.leb_gt _ _)) by lia. pose proof (zlen_nonneg A) as HA. assert (zlen A <= zlen output) as HAo by (rewrite Ho, zlen_app; pose proof (zlen_nonneg B); lia).
  rewrite Z.rem_mod_nonneg, Z.quot_div_nonneg by lia. rewrite Hsum.
  assert (((m - n) * (zlen output + 1) + zlen A) / (zlen output + 1) = m - n) as -> by (rewrite Z.div_add_l by lia; rewrite Z.div_small; lia).
  assert (((m - n) * (zlen output + 1) + zlen A) mod (zlen output + 1) = zlen A) as -> by (rewrite Z.add_comm, Z.mod_add by lia; apply Z.mod_small; lia).
  unfold MaxRune in *. assert (n + (m - n) = m) as -> by lia. rewrite swrap_id by lia. rewrite (proj2 (Z.ltb_ge m 0)), Z.gtb_ltb, (proj2 (Z.ltb_ge 1114111 m)) by lia. cbn [orb].
  unfold insert_at. rewrite (proj2 (Z.leb_le 0 (zlen A))), (proj2 (Z.leb_le _ (zlen output))) by lia. cbn [andb mbind option_bind].
  rewrite Ho. assert (Z.to_nat (zlen A) = length A) as -> by (unfold zlen; lia). rewrite take_app_length, drop_app_length. rewrite <- Ho.
  assert ((m - n) * (zlen output + 1) + zlen A - i = delta) as -> by lia. apply H. cbn [length] in Hf. rewrite length_app in Hf. lia.
Qed.

(** ** The encoder's state

    [output] is what the decoder has when it has read what was written so far, [i] and [n]
    its counters, and [pos] the place in [output] where the encoder stands. *)
Record follows (m b : Z) (output : list Z) (pos i n : Z) (e : encoder) : Prop := {
  fo_h : en_h e = zlen output;
  fo_delta : en_delta e = (m - n) * (zlen output + 1) + pos - i;
  fo_nonneg : 0 <= en_delta e;
  fo_i : 0 <= i <= zlen output;
  fo_n : 128 <= n <= m;
  fo_pos : 0 <= pos <= zlen output;
  fo_b : b <= en_h e;
  fo_first : (en_h e =? b) = (i =? 0)
}.

Definition written (D : bytes) : Prop := hyphen ∉ D /\ Forall ascii D.

Lemma written_app D E : written D -> written E -> written (D ++ E).
Proof. intros [H1 H2] [H3 H4]. split; [by apply not_elem_of_app|by apply Forall_app]. Qed.

Abbreviation upto m rs := (filter (fun r : Z => r <= m) rs).
Abbreviation below m rs := (filter (fun r : Z => r < m) rs).
Abbreviation from n rs := (filter (fun r : Z => n <= r) rs).

Lemma encodeRunes_follows b m : forall rs2 rs1 i n e, zlen (rs1 ++ rs2) <= 1024 -> 128 <= m <= MaxRune ->
  follows m b (upto m rs1 ++ below m rs2) (zlen (upto m rs1)) i n e ->
  exists e' D i' n', encodeRunes rs2 m b e = Some (Puny e') /\ en_output e' = en_output e ++ D /\ written D /\
    follows m b (upto m (rs1 ++ rs2)) (zlen (upto m (rs1 ++ rs2))) i' n' e' /\
    en_remaining e' = en_remaining e - (zlen (upto m rs2) - zlen (below m rs2)) /\
    (forall rest rs, decodes rest (upto m (rs1 ++ rs2)) i' n' (en_bias e') rs -> decodes (D ++ rest) (upto m rs1 ++ below m rs2) i n (en_bias e) rs).
Proof.
  induction rs2 as [|r rs2 IH]; intros rs1 i n e Hlen Hm HF.
  { exists e, [], i, n. cbn [encodeRunes]. change (below m []) with ([] : list Z) in *. change (upto m []) with ([] : list Z). rewrite !app_nil_r in *. split; [done|]. split; [done|].
    split; [split; [apply not_elem_of_nil|done]|]. split; [done|]. split; [cbn; lia|done]. }
  rewrite (cons_middle r rs1 rs2), app_assoc in Hlen |- *. cbn [encodeRunes]. set (rs1' := rs1 ++ [r]) in *.
  pose proof (fo_delta _ _ _ _ _ _ _ HF) as Hdelta. pose proof (fo_i _ _ _ _ _ _ _ HF) as Hi. pose proof (fo_n _ _ _ _ _ _ _ HF) as Hn.
  pose proof (fo_pos _ _ _ _ _ _ _ HF) as Hpos. pose proof (fo_nonneg _ _ _ _ _ _ _ HF) as Hnn. pose proof (fo_h _ _ _ _ _ _ _ HF) as Hh. pose proof (fo_first _ _ _ _ _ _ _ HF) as Hfirst. pose proof (fo_b _ _ _ _ _ _ _ HF) as Hb.
  set (output := upto m rs1 ++ below m (r :: rs2)) in *. set (pos := zlen (upto m rs1)) in *.
  assert (zlen output <= 1024) as Hout.
  { unfold output. rewrite zlen_app in *. pose proof (length_filter (fun r : Z => r <= m) rs1). pose proof (length_filter (fun r : Z => r < m) (r :: rs2)). unfold rs1', zlen in *. rewrite length_app in Hlen. cbn [length] in *. lia. }
  assert (en_delta e < limit) as Hlim by (unfold limit, MaxRune in *; nia).
  destruct (Z.ltb_spec r m) as [H1|H1]; [|destruct (Z.gtb_spec r m) as [H2|H2]].
  - assert (upto m rs1' = upto m rs1 ++ [r]) as Eu by (unfold rs1'; rewrite filter_app, filter_cons_True by lia; done).
    assert (below m (r :: rs2) = r :: below m rs2) as Eb by (by rewrite filter_cons_True by lia).
    assert (output = upto m rs1' ++ below m rs2) as Eo by (unfold output; by rewrite Eu, Eb, <- app_assoc).
    unfold limit in Hlim. rewrite swrap_id by lia. rewrite (proj2 (Z.ltb_ge _ 0)) by lia.
    assert (zlen (upto m rs1') = pos + 1) as Ep by (by rewrite Eu, zlen_app).
    destruct (IH rs1' i n (mkEnc (en_output e) (en_delta e + 1) (en_bias e) (en_h e) (en_remaining e))) as (e' & D & i' & n' & ER & EO & HW & HF' & Hrem & Hdec); [exact Hlen|exact Hm| |].
    { rewrite <- Eo, Ep. constructor; cbn; try done; try lia. split; [lia|]. rewrite Eo, zlen_app, Ep. pose proof (zlen_nonneg (below m rs2)). lia. }
    exists e', D, i', n'. rewrite ER. split; [done|]. split; [done|]. split; [done|]. split; [done|]. split.
    + rewrite Hrem, Eb. rewrite filter_cons_True by lia. rewrite !zlen_cons. cbn. lia.
    + rewrite Eo. exact Hdec.
  - assert (upto m rs1' = upto m rs1) as Eu by (unfold rs1'; rewrite filter_app, filter_cons_False by lia; by rewrite app_nil_r).
    assert (below m (r :: rs2) = below m rs2) as Eb by (by rewrite filter_cons_False by lia).
    assert (output = upto m rs1' ++ below m rs2) as Eo by (unfold output; by rewrite Eu, Eb).
    destruct (IH rs1' i n e) as (e' & D & i' & n' & ER & EO & HW & HF' & Hrem & Hdec); [exact Hlen|exact Hm|by rewrite <- Eo, Eu|].
    exists e', D, i', n'. split; [done|]. split; [done|]. split; [done|]. split; [done|]. split.
    + rewrite Hrem, Eb. by rewrite filter_cons_False by lia.
    + rewrite Eo. exact Hdec.
  - assert (r = m) as -> by lia.
    assert (upto m rs1' = upto m rs1 ++ [m]) as Eu by (unfold rs1'; rewrite filter_app, filter_cons_True by lia; done).
    assert (below m (m :: rs2) = below m rs2) as Eb by (by rewrite filter_cons_False by lia).
    destruct (encodeInt_total 10 (en_delta e) base (en_bias e)) as [ds Eds]; [unfold limit in Hlim; lia|]. rewrite Eds. cbn [mbind option_bind].
    assert (zlen (upto m rs1') = pos + 1) as Ep by (by rewrite Eu, zlen_app).
    assert (upto m rs1' ++ below m rs2 = upto m rs1 ++ m :: below m rs2) as Eo' by (by rewrite Eu, <- app_assoc).
    assert (zlen (upto m rs1' ++ below m rs2) = zlen output + 1) as Elen.
    { rewrite Eo'. unfold output. rewrite Eb, !zlen_app, zlen_cons. lia. }
    assert (zlen output < 1024) as Hlt.
    { pose proof (length_filter (fun r : Z => r <= m) rs1'). pose proof (length_filter (fun r : Z => r < m) rs2). rewrite zlen_app in Hlen, Elen. unfold zlen in *. lia. }
    destruct (decodeInt_encodeInt 10 (en_delta e) base (en_bias e) ds 0 1 [] Eds) as (_ & Hhy & Hasc & _); [done|done|split; [lia|]; exists 0; by rewrite Z.pow_0_r|lia|].
    set (e1 := mkEnc (en_output e ++ ds) 0 (adapt (en_delta e) (en_h e + 1) (en_h e =? b)) (en_h e + 1) (en_remaining e - 1)).
    destruct (IH rs1' (pos + 1) m e1) as (e' & D & i' & n' & ER & EO & HW & HF' & Hrem & Hdec); [exact Hlen|exact Hm| |].
    { constructor; cbn; rewrite ?Elen, ?Ep; try lia. }
    exists e', (ds ++ D), i', n'. split; [exact ER|]. split; [rewrite EO; unfold e1; cbn; by rewrite <- app_assoc|]. split; [by apply written_app|]. split; [done|]. split.
    + rewrite Hrem, Eb. rewrite filter_cons_True by lia. rewrite zlen_cons. cbn. lia.
    + intros rest rs Hr. rewrite <- app_assoc. apply (decodes_step ds (D ++ rest) output i n (en_bias e) (en_delta e) (upto m rs1) (below m rs2) m rs Eds); try done; try lia.
      * unfold limit in *. unfold MaxRune in *. nia.
      * unfold output. by rewrite Eb.
      * rewrite <- Eo'. fold pos. specialize (Hdec rest rs Hr). unfold e1 in Hdec. cbn in Hdec. by rewrite Hfirst, Hh in Hdec.
Qed.

(** ** The next code point *)
Lemma minRune_fold n rs : forall acc, let m := fold_left (fun m r => if (m >? r) && (r >=? n) then r else m) rs acc in
  m <= acc /\ (m = acc \/ m ∈ rs /\ n <= m) /\ Forall (fun r => n <= r -> m <= r) rs.
Proof.
  induction rs as [|r rs IH]; intros acc; cbn [fold_left]; [split; [lia|]; split; [by left|done]|].
  destruct (IH (if (acc >? r) && (r >=? n) then r else acc)) as (H1 & H2 & H3). rewrite Z.gtb_ltb, Z.geb_leb in *.
  set (m := fold_left _ rs _) in *. destruct (Z.ltb_spec r acc); destruct (Z.leb_spec n r); cbn [andb] in *.
  all: split; [lia|]; split; [|constructor; [lia|done]].
  all: destruct H2 as [H2|[H2 H4]]; [try (by left)|right; split; [by right|done]]. right. rewrite H2. split; [left|lia].
Qed.

Lemma minRune_spec n rs r : r ∈ rs -> n <= r -> r <= MaxRune -> let m := minRune n rs in m ∈ rs /\ n <= m <= MaxRune /\ Forall (fun r => ~ (n <= r < m)) rs.
Proof.
  intros Hr Hn Hmax. unfold minRune. destruct (minRune_fold n rs (2 ^ 31 - 1)) as (H1 & H2 & H3). set (m := fold_left _ rs _) in *. cbv zeta.
  pose proof (proj1 (Forall_forall _ _) H3 r Hr Hn) as Hm. cbn in Hm. unfold MaxRune in *. destruct H2 as [H2|[H2 H4]]; [lia|]. split; [done|]. split; [lia|].
  apply (Forall_impl _ _ _ H3). intros x Hx. lia.
Qed.

Lemma below_gap n m (rs : list Z) : n <= m -> Forall (fun r => ~ (n <= r < m)) rs -> below m rs = below n rs.
Proof.
  intros Hm. induction 1 as [|r rs Hr Hrs IH]; [done|]. destruct (decide (r < n)).
  - by rewrite !filter_cons_True, IH by lia.
  - by rewrite !filter_cons_False, IH by lia.
Qed.

Lemma below_upto m (rs : list Z) : below (m + 1) rs = upto m rs.
Proof. apply list_filter_iff. intros x. lia. Qed.

Lemma below_from n (rs : list Z) : zlen (below n rs) + zlen (from n rs) = zlen rs.
Proof.
  induction rs as [|r rs IH]; [done|]. rewrite zlen_cons. destruct (decide (r < n)).
  - rewrite filter_cons_True, (filter_cons_False (fun r : Z => n <= r)), zlen_cons by lia. lia.
  - rewrite filter_cons_False, (filter_cons_True (fun r : Z => n <= r)), zlen_cons by lia. lia.
Qed.

Lemma below_all n (rs : list Z) : zlen (from n rs) = 0 -> below n rs = rs.
Proof.
  induction rs as [|r rs IH]; [done|]. destruct (decide (r < n)).
  - rewrite (filter_cons_False (fun r : Z => n <= r)), filter_cons_True by lia. intros H. by rewrite IH.
  - rewrite (filter_cons_True (fun r : Z => n <= r)), zlen_cons by lia. pose proof (zlen_nonneg (from n rs)). lia.
Qed.

Lemma below_lt_upto m (rs : list Z) : m ∈ rs -> zlen (below m rs) < zlen (upto m rs).
Proof.
  intros Hm. apply list_elem_of_split in Hm as (l1 & l2 & ->). rewrite !filter_app, !zlen_app. rewrite filter_cons_False, (filter_cons_True (fun r : Z => r <= m)), zlen_cons by lia.
  assert (forall l, zlen (below m l) <= zlen (upto m l)) as H.
  { induction l as [|r l IH]; [done|]. destruct (decide (r < m)); [rewrite !filter_cons_True, !zlen_cons by lia; lia|].
    rewrite filter_cons_False by lia. destruct (decide (r <= m)); [rewrite filter_cons_True, zlen_cons by lia; lia|by rewrite filter_cons_False by lia]. }
  pose proof (H l1). pose proof (H l2). lia.
Qed.

(** ** The whole string *)
Lemma encodeLoop_decodes b rs : Forall (fun r => 0 <= r <= MaxRune) rs -> zlen rs <= 1024 -> forall fuel n i nd e, 128 <= n ->
  follows n b (below n rs) 0 i nd e -> en_remaining e = zlen (from n rs) -> zlen (from n rs) <= Z.of_nat fuel ->
  exists D, encodeLoop fuel rs n b e = Some (Puny (en_output e ++ D)) /\ written D /\ decodes D (below n rs) i nd (en_bias e) rs.
Proof.
  intros Hrs Hlen. induction fuel as [|fuel IH]; intros n i nd e Hn HF Hrem Hfuel; cbn [encodeLoop]; rewrite Hrem; pose proof (zlen_nonneg (from n rs)) as H0.
  - rewrite (proj2 (Z.eqb_eq _ 0)) by lia. exists []. rewrite app_nil_r. split; [done|]. split; [split; [apply not_elem_of_nil|done]|].
    rewrite below_all by lia. by intros [|].
  - destruct (Z.eqb_spec (zlen (from n rs)) 0) as [E|E].
    { exists []. rewrite app_nil_r. split; [done|]. split; [split; [apply not_elem_of_nil|done]|]. rewrite below_all by done. by intros [|]. }
    assert (exists r, r ∈ rs /\ n <= r) as (r & Hr & Hrn).
    { destruct (from n rs) as [|r l] eqn:Ef; [done|]. exists r. assert (r ∈ from n rs) as H by (rewrite Ef; left). apply list_elem_of_filter in H. tauto. }
    pose proof (proj1 (Forall_forall _ _) Hrs r Hr) as Hrmax. cbn in Hrmax.
    destruct (minRune_spec n rs r Hr Hrn) as (Hm & Hnm & Hgap); [lia|]. set (m := minRune n rs) in *.
    pose proof (below_gap n m rs ltac:(lia) Hgap) as Eb. destruct HF as [fh fd fnn fi fn fp fb ff]. unfold MaxRune in *.
    assert (zlen (below n rs) <= 1024) as Hout by (pose proof (below_from n rs); lia). set (L := zlen (below n rs)) in *.
    rewrite swrap_id by lia. rewrite fh. assert ((m - nd) * (L + 1) <= 1114111 * 1025) as Hprod by (apply Z.mul_le_mono_nonneg; lia).
    assert (0 <= (m - n) * (L + 1)) as Hprod0 by (apply Z.mul_nonneg_nonneg; lia). rewrite madd_ok by (try lia; nia).
    set (e1 := mkEnc (en_output e) (en_delta e + (m - n) * (L + 1)) (en_bias e) L (zlen (from n rs))).
    destruct (encodeRunes_follows b m rs [] i nd e1) as (e' & D1 & i' & n' & ER & EO & HW & HF' & Hrem' & Hdec); [done|unfold MaxRune; lia| |].
    { change (upto m []) with ([] : list Z). cbn [app]. rewrite Eb. constructor; cbn; try done; try lia; change (zlen ([] : list Z)) with 0; change (zlen (below n rs)) with L; rewrite ?fd; lia. }
    change (upto m []) with ([] : list Z) in *. cbn [app] in Hdec, HF', Hrem'. rewrite ER. cbn [mbind option_bind].
    destruct HF' as [fh' fd' fnn' fi' fn' fp' fb' ff']. pose proof (below_from (m + 1) rs) as Hc1. pose proof (below_from n rs) as Hc2. rewrite below_upto in Hc1.
    pose proof (below_lt_upto m rs Hm) as Hlt. pose proof (zlen_nonneg (from (m + 1) rs)). rewrite Eb in Hlt, Hrem'. set (U := zlen (upto m rs)) in *.
    assert (en_delta e' <= 1114111 * 1026) as Hd'.
    { rewrite fd'. assert ((m - n') * (U + 1) <= 1114111 * 1025) by (apply Z.mul_le_mono_nonneg; lia). lia. }
    rewrite (swrap_id 32 (m + 1)), (swrap_id 32 (en_delta e' + 1)) by lia.
    destruct (IH (m + 1) i' n' (mkEnc (en_output e') (en_delta e' + 1) (en_bias e') (en_h e') (en_remaining e'))) as (D2 & EL & HW2 & Hdec2); [lia| | |lia|].
    { rewrite below_upto. fold U. constructor; cbn; try done; try lia. }
    { cbn. rewrite Hrem'. unfold e1. cbn. lia. }
    exists (D1 ++ D2). rewrite EL, EO. unfold e1. cbn [en_output]. rewrite <- app_assoc. split; [done|]. split; [by apply written_app|].
    rewrite below_upto in Hdec2. specialize (Hdec D2 rs Hdec2). rewrite Eb in Hdec. exact Hdec.
Qed.

(** ** Labels *)
Lemma encode_decodes prefix rs : Forall scalar rs -> zlen rs <= 1024 ->
  exists D, encode prefix (utf8 rs) = Some (Puny (prefix ++ below 128 rs ++ (if zlen (below 128 rs) >? 0 then [hyphen] else []) ++ D)) /\
    written D /\ decodes D (below 128 rs) 0 initialN initialBias rs.
Proof.
  intros Hrs Hlen. unfold encode. rewrite runes_utf8 by done. set (L := zlen (below 128 rs)). set (e := mkEnc _ 0 initialBias L (zlen rs - L)).
  assert (Forall (fun r => 0 <= r <= MaxRune) rs) as Hr by (apply (Forall_impl _ _ _ Hrs); intros r [H _]; done).
  destruct (encodeLoop_decodes L rs Hr Hlen (length rs) initialN 0 initialN e) as (D & E & HW & HD); [done| | | |].
  - constructor; cbn; try done; try lia. all: split; [lia|apply zlen_nonneg].
  - cbn. unfold L. pose proof (below_from 128 rs). unfold initialN. lia.
  - pose proof (below_from 128 rs). pose proof (zlen_nonneg (below 128 rs)). unfold initialN, zlen in *. lia.
  - exists D. rewrite E. cbn [en_output e]. rewrite <- !app_assoc. done.
Qed.

Lemma below_ascii rs : Forall scalar rs -> Forall ascii (below 128 rs).
Proof.
  intros H. apply Forall_forall. intros x Hx. apply list_elem_of_filter in Hx as [H1 H2]. pose proof (proj1 (Forall_forall _ _) H x H2) as [[H0 _] _].
  unfold ascii. lia.
Qed.

Lemma LastIndexByte_absent s c : c ∉ s -> LastIndexByte s c = -1.
Proof.
  induction s as [|b s IH]; [done|]. intros [H1 H2]%not_elem_of_cons. cbn [LastIndexByte]. rewrite IH by done. cbn.
  destruct (Z.eqb_spec b c); [congruence|done].
Qed.

(** C18: Any string of at most 1024 code points, whichever they are, is encoded, without overflow: to the prefix and ASCII bytes, from which [decode] gives the string back. *)
Theorem punycode_roundtrip prefix rs : Forall scalar rs -> zlen rs <= 1024 ->
  exists e, encode prefix (utf8 rs) = Some (Puny (prefix ++ e)) /\ Forall ascii e /\ decode e = Some (Puny (utf8 rs)).
Proof.
  intros Hrs Hlen. destruct (encode_decodes prefix rs Hrs Hlen) as (D & E & [Hhy Hasc] & HD). exists (below 128 rs ++ (if zlen (below 128 rs) >? 0 then [hyphen] else []) ++ D).
  split; [done|]. pose proof (below_ascii rs Hrs) as Hb. rewrite Z.gtb_ltb. destruct (Z.ltb_spec 0 (zlen (below 128 rs))) as [Hpos|Hzero].
  - split; [apply Forall_app; split; [done|]; apply Forall_app; split; [by apply Forall_singleton|done]|]. cbn [app]. set (s := below 128 rs) in *.
    unfold decode. destruct (s ++ hyphen :: D) as [|x t] eqn:Es; [by destruct s|]. rewrite <- Es. rewrite LastIndexByte_snoc by done.
    rewrite (proj2 (Z.eqb_neq _ 1)) by lia. assert (zlen (s ++ hyphen :: D) = 1 + zlen s + zlen D) as El by (rewrite zlen_app, zlen_cons; lia). rewrite El.
    pose proof (zlen_nonneg D). destruct (Z.eqb_spec (1 + zlen s) (1 + zlen s + zlen D)) as [Ed|Ed].
    + assert (D = []) as -> by (destruct D; [done|]; rewrite zlen_cons in *; pose proof (zlen_nonneg D); lia).
      specialize (HD 0%nat ltac:(done)). cbn in HD. injection HD as HD. unfold zslice. rewrite El.
      rewrite !(proj2 (Z.leb_le _ _)) by (unfold zlen in *; cbn [length] in *; lia). cbn [andb mbind option_bind].
      rewrite drop_0, take_app_length' by (unfold zlen in *; cbn [length] in *; lia). rewrite <- HD, utf8_ascii by done. done.
    + rewrite (proj2 (Z.eqb_neq _ 0)) by lia. cbn [negb]. unfold zslice. rewrite !El. rewrite !(proj2 (Z.leb_le _ _)) by lia. cbn [andb mbind option_bind].
      rewrite drop_0, take_app_length' by (unfold zlen in *; lia). rewrite runes_ascii by done.
      rewrite (cons_middle hyphen s D), app_assoc, drop_app_length' by (rewrite length_app; unfold zlen in *; cbn [length]; lia).
      rewrite take_ge by (unfold zlen in *; lia). rewrite HD by done. done.
  - assert (below 128 rs = []) as Eb by (destruct (below 128 rs) as [|x l]; [done|]; rewrite zlen_cons in Hzero; pose proof (zlen_nonneg l); lia).
    rewrite Eb in *. cbn [app]. split; [done|]. unfold decode. destruct D as [|x D].
    { specialize (HD 0%nat ltac:(done)). cbn in HD. injection HD as <-. done. }
    rewrite LastIndexByte_absent by done. set (t := x :: D) in *. assert (0 < zlen t) by (unfold t; rewrite zlen_cons; pose proof (zlen_nonneg D); lia).
    change (1 + -1) with 0. rewrite (proj2 (Z.eqb_neq 0 (zlen t))) by lia. cbn [Z.eqb negb]. cbn [mbind option_bind]. unfold zslice.
    rewrite !(proj2 (Z.leb_le _ _)) by lia. cbn [andb mbind option_bind]. rewrite drop_0, take_ge by (unfold zlen; lia). rewrite HD by done. done.
Qed.

Lemma punycode_roundtrip_witness :
  encode (str "xn--") (utf8 [21517; 12540; 65; 45; 128515; 21517]) = Some (Puny (str "xn--" ++ str "A--5n4a147mda10135d")) /\
  exists e, encode (str "xn--") (utf8 [21517; 12540; 65; 45; 128515; 21517]) = Some (Puny (str "xn--" ++ e)) /\ Forall ascii e /\
    decode e = Some (Puny (utf8 [21517; 12540; 65; 45; 128515; 21517])).
Proof.
  split; [vm_compute; reflexivity|]. apply (punycode_roundtrip (str "xn--") [21517; 12540; 65; 45; 128515; 21517]); [|by vm_compute].
  repeat (apply Forall_cons; split; [refine (bool_decide_unpack _ _); vm_compute; exact I|]). apply Forall_nil_2.
Defined.

(** ** Arbitrary bytes *)
Lemma madd_range a b c x : 0 <= a < 2 ^ 31 -> 0 <= b < 36 -> 0 <= c < 2 ^ 31 -> madd a b c = (x, false) -> 0 <= x < 2 ^ 31.
Proof.
  intros Ha Hb Hc. unfold madd. assert (0 <= b * c < 36 * 2 ^ 31) by nia. rewrite (swrap_id 64) by lia. rewrite Z.gtb_ltb. destruct (Z.ltb_spec (2 ^ 31 - 1 - a) (b * c)); [done|].
  rewrite (swrap_id 32 (b * c)), (swrap_id 32) by lia. intros [= <-]. lia.
Qed.

Lemma decodeDigit_range x d : decodeDigit x = Some d -> 0 <= d < 36.
Proof.
  unfold decodeDigit. destruct ((48 <=? x) && (x <=? 57)) eqn:E1; [intros [= <-]; lia|]. destruct ((65 <=? x) && (x <=? 90)) eqn:E2; [intros [= <-]; lia|].
  destruct ((97 <=? x) && (x <=? 122)) eqn:E3; [intros [= <-]; lia|done].
Qed.

Lemma decodeInt_shorter digits : forall i w k bias i' rest, 0 <= i < 2 ^ 31 -> 0 <= w < 2 ^ 31 -> decodeInt digits i w k bias = Puny (i', rest) ->
  0 <= i' < 2 ^ 31 /\ (length rest < length digits)%nat.
Proof.
  induction digits as [|x digits IH]; intros i w k bias i' rest Hi Hw; [done|]. cbn [decodeInt]. destruct (decodeDigit x) as [d|] eqn:Ed; [|done].
  apply decodeDigit_range in Ed. destruct (madd i d w) as [i1 []] eqn:Em; [done|]. apply madd_range in Em; [|lia..].
  destruct (d <? threshold k bias); [intros [= <- <-]; cbn [length]; lia|].
  destruct (madd 0 w (base - threshold k bias)) as [w1 []] eqn:Ew; [done|]. pose proof (threshold_range k bias). unfold madd in Ew. unfold base in *.
  rewrite (Z.mul_comm w) in Ew. apply madd_range in Ew; [|lia..].
  intros H1. apply IH in H1 as [H1 H2]; [cbn [length]; lia|done..].
Qed.

Lemma decodeLoop_total fuel : forall digits output i n bias, 0 <= i < 2 ^ 31 -> (length digits <= fuel)%nat -> is_Some (decodeLoop fuel digits output i n bias).
Proof.
  induction fuel as [|fuel IH]; intros [|x digits] output i n bias Hi Hf; try (by eexists); [cbn in Hf; lia|]. cbn [decodeLoop].
  destruct (decodeInt (x :: digits) i 1 base bias) as [[i' rest]|] eqn:E; [|by eexists]. apply decodeInt_shorter in E as [Hi' Hr]; [|lia..].
  destruct (Z.geb_spec (zlen output) 1024) as [|Hlen]; [by eexists|]. pose proof (zlen_nonneg output) as Ho. destruct (_ || _); [by eexists|].
  rewrite Z.rem_mod_nonneg by lia. pose proof (Z.mod_pos_bound i' (zlen output + 1) ltac:(lia)).
  unfold insert_at. rewrite (proj2 (Z.leb_le 0 _)), (proj2 (Z.leb_le _ (zlen output))) by lia. cbn [andb mbind option_bind]. apply IH; [lia|cbn [length] in *; lia].
Qed.

Lemma LastIndexByte_range s c : -1 <= LastIndexByte s c < zlen s.
Proof.
  induction s as [|b s IH]; [done|]. cbn [LastIndexByte]. rewrite zlen_cons. pose proof (zlen_nonneg s). destruct (Z.leb_spec 0 (LastIndexByte s c)); [lia|]. destruct (b =? c); lia.
Qed.

(** [decode] returns on every text: no index is out of range, and its loops end. *)
Lemma decode_total encoded : is_Some (decode encoded).
Proof.
  unfold decode. destruct encoded as [|x s]; [by eexists|]. set (e := x :: s). pose proof (LastIndexByte_range e hyphen) as Hr.
  assert (1 <= zlen e) as He by (unfold e; rewrite zlen_cons; pose proof (zlen_nonneg s); lia).
  destruct (Z.eqb_spec (1 + LastIndexByte e hyphen) 1); [by eexists|]. unfold zslice.
  destruct (Z.eqb_spec (1 + LastIndexByte e hyphen) (zlen e)).
  { rewrite (proj2 (Z.leb_le 0 0)), (proj2 (Z.leb_le 0 (zlen e - 1))), (proj2 (Z.leb_le (zlen e - 1) _)) by lia. cbn [andb mbind option_bind]. by eexists. }
  assert (forall p, is_Some (digits ← (if (0 <=? 1 + LastIndexByte e hyphen) && (1 + LastIndexByte e hyphen <=? zlen e) && (zlen e <=? zlen e)
    then Some (take (Z.to_nat (zlen e - (1 + LastIndexByte e hyphen))) (drop (Z.to_nat (1 + LastIndexByte e hyphen)) e)) else None);
    r ← decodeLoop (length digits) digits (runes p) 0 initialN initialBias; Some (match r with Puny output => Puny (utf8 output) | PunyError => PunyError end))) as H.
  { intros p. rewrite !(proj2 (Z.leb_le _ _)) by lia. cbn [andb mbind option_bind]. match goal with |- context [decodeLoop ?f ?d ?o ?i ?n ?b] => destruct (decodeLoop_total f d o i n b) as [r ->] end; [lia|done|by eexists]. }
  destruct (negb _) eqn:En; [|apply H]. apply negb_true_iff, Z.eqb_neq in En. rewrite (proj2 (Z.leb_le 0 0)), (proj2 (Z.leb_le 0 (1 + _ - 1))), (proj2 (Z.leb_le (1 + _ - 1) _)) by lia. cbn [andb mbind option_bind]. apply H.
Qed.
