(* ===== verification/HtmlEntity.v ===== *)
(** * Package html: the named character references

    The maps [entity] and [entity2] of src/html/entity.go, by initial letters. *)

From S2P Require Import Prelude.

(** All entities without a semicolon are at most this long. *)
Definition longestEntityWithoutSemicolon : nat := 6.

Definition entities_A_E : list (bytes * Z) :=
  [(str "AElig;", 0xC6); (str "AMP;", 0x26); (str "Aacute;", 0xC1); (str "Abreve;", 0x102);
   (str "Acirc;", 0xC2); (str "Acy;", 0x410); (str "Afr;", 0x1D504); (str "Agrave;", 0xC0);
   (str "Alpha;", 0x391); (str "Amacr;", 0x100); (str "And;", 0x2A53); (str "Aogon;", 0x104);
   (str "Aopf;", 0x1D538); (str "ApplyFunction;", 0x2061); (str "Aring;", 0xC5); (str "Ascr;", 0x1D49C);
   (str "Assign;", 0x2254); (str "Atilde;", 0xC3); (str "Auml;", 0xC4); (str "Backslash;", 0x2216);
   (str "Barv;", 0x2AE7); (str "Barwed;", 0x2306); (str "Bcy;", 0x411); (str "Because;", 0x2235);
   (str "Bernoullis;", 0x212C); (str "Beta;", 0x392); (str "Bfr;", 0x1D505); (str "Bopf;", 0x1D539);
   (str "Breve;", 0x2D8); (str "Bscr;", 0x212C); (str "Bumpeq;", 0x224E); (str "CHcy;", 0x427);
   (str "COPY;", 0xA9); (str "Cacute;", 0x106); (str "Cap;", 0x22D2); (str "CapitalDifferentialD;", 0x2145);
   (str "Cayleys;", 0x212D); (str "Ccaron;", 0x10C); (str "Ccedil;", 0xC7); (str "Ccirc;", 0x108);
   (str "Cconint;", 0x2230); (str "Cdot;", 0x10A); (str "Cedilla;", 0xB8); (str "CenterDot;", 0xB7);
   (str "Cfr;", 0x212D); (str "Chi;", 0x3A7); (str "CircleDot;", 0x2299); (str "CircleMinus;", 0x2296);
   (str "CirclePlus;", 0x2295); (str "CircleTimes;", 0x2297); (str "ClockwiseContourIntegral;", 0x2232);
   (str "CloseCurlyDoubleQuote;", 0x201D); (str "CloseCurlyQuote;", 0x2019); (str "Colon;", 0x2237);
   (str "Colone;", 0x2A74); (str "Congruent;", 0x2261); (str "Conint;", 0x222F);
   (str "ContourIntegral;", 0x222E); (str "Copf;", 0x2102); (str "Coproduct;", 0x2210);
   (str "CounterClockwiseContourIntegral;", 0x2233); (str "Cross;", 0x2A2F); (str "Cscr;", 0x1D49E);
   (str "Cup;", 0x22D3); (str "CupCap;", 0x224D); (str "DD;", 0x2145); (str "DDotrahd;", 0x2911);
   (str "DJcy;", 0x402); (str "DScy;", 0x405); (str "DZcy;", 0x40F); (str "Dagger;", 0x2021);
   (str "Darr;", 0x21A1); (str "Dashv;", 0x2AE4); (str "Dcaron;", 0x10E); (str "Dcy;", 0x414);
   (str "Del;", 0x2207); (str "Delta;", 0x394); (str "Dfr;", 0x1D507); (str "DiacriticalAcute;", 0xB4);
   (str "DiacriticalDot;", 0x2D9); (str "DiacriticalDoubleAcute;", 0x2DD); (str "DiacriticalGrave;", 0x60);
   (str "DiacriticalTilde;", 0x2DC); (str "Diamond;", 0x22C4); (str "DifferentialD;", 0x2146);
   (str "Dopf;", 0x1D53B); (str "Dot;", 0xA8); (str "DotDot;", 0x20DC); (str "DotEqual;", 0x2250);
   (str "DoubleContourIntegral;", 0x222F); (str "DoubleDot;", 0xA8); (str "DoubleDownArrow;", 0x21D3);
   (str "DoubleLeftArrow;", 0x21D0); (str "DoubleLeftRightArrow;", 0x21D4); (str "DoubleLeftTee;", 0x2AE4);
   (str "DoubleLongLeftArrow;", 0x27F8); (str "DoubleLongLeftRightArrow;", 0x27FA);
   (str "DoubleLongRightArrow;", 0x27F9); (str "DoubleRightArrow;", 0x21D2); (str "DoubleRightTee;", 0x22A8);
   (str "DoubleUpArrow;", 0x21D1); (str "DoubleUpDownArrow;", 0x21D5); (str "DoubleVerticalBar;", 0x2225);
   (str "DownArrow;", 0x2193); (str "DownArrowBar;", 0x2913); (str "DownArrowUpArrow;", 0x21F5);
   (str "DownBreve;", 0x311); (str "DownLeftRightVector;", 0x2950); (str "DownLeftTeeVector;", 0x295E);
   (str "DownLeftVector;", 0x21BD); (str "DownLeftVectorBar;", 0x2956); (str "DownRightTeeVector;", 0x295F);
   (str "DownRightVector;", 0x21C1); (str "DownRightVectorBar;", 0x2957); (str "DownTee;", 0x22A4);
   (str "DownTeeArrow;", 0x21A7); (str "Downarrow;", 0x21D3); (str "Dscr;", 0x1D49F); (str "Dstrok;", 0x110);
   (str "ENG;", 0x14A); (str "ETH;", 0xD0); (str "Eacute;", 0xC9); (str "Ecaron;", 0x11A); (str "Ecirc;", 0xCA);
   (str "Ecy;", 0x42D); (str "Edot;", 0x116); (str "Efr;", 0x1D508); (str "Egrave;", 0xC8);
   (str "Element;", 0x2208); (str "Emacr;", 0x112); (str "EmptySmallSquare;", 0x25FB);
   (str "EmptyVerySmallSquare;", 0x25AB); (str "Eogon;", 0x118); (str "Eopf;", 0x1D53C);
   (str "Epsilon;", 0x395); (str "Equal;", 0x2A75); (str "EqualTilde;", 0x2242); (str "Equilibrium;", 0x21CC);
   (str "Escr;", 0x2130); (str "Esim;", 0x2A73); (str "Eta;", 0x397); (str "Euml;", 0xCB);
   (str "Exists;", 0x2203); (str "ExponentialE;", 0x2147)].

Definition entities_F_M : list (bytes * Z) :=
  [(str "Fcy;", 0x424); (str "Ffr;", 0x1D509); (str "FilledSmallSquare;", 0x25FC);
   (str "FilledVerySmallSquare;", 0x25AA); (str "Fopf;", 0x1D53D); (str "ForAll;", 0x2200);
   (str "Fouriertrf;", 0x2131); (str "Fscr;", 0x2131); (str "GJcy;", 0x403); (str "GT;", 0x3E);
   (str "Gamma;", 0x393); (str "Gammad;", 0x3DC); (str "Gbreve;", 0x11E); (str "Gcedil;", 0x122);
   (str "Gcirc;", 0x11C); (str "Gcy;", 0x413); (str "Gdot;", 0x120); (str "Gfr;", 0x1D50A); (str "Gg;", 0x22D9);
   (str "Gopf;", 0x1D53E); (str "GreaterEqual;", 0x2265); (str "GreaterEqualLess;", 0x22DB);
   (str "GreaterFullEqual;", 0x2267); (str "GreaterGreater;", 0x2AA2); (str "GreaterLess;", 0x2277);
   (str "GreaterSlantEqual;", 0x2A7E); (str "GreaterTilde;", 0x2273); (str "Gscr;", 0x1D4A2);
   (str "Gt;", 0x226B); (str "HARDcy;", 0x42A); (str "Hacek;", 0x2C7); (str "Hat;", 0x5E);
   (str "Hcirc;", 0x124); (str "Hfr;", 0x210C); (str "HilbertSpace;", 0x210B); (str "Hopf;", 0x210D);
   (str "HorizontalLine;", 0x2500); (str "Hscr;", 0x210B); (str "Hstrok;", 0x126);
   (str "HumpDownHump;", 0x224E); (str "HumpEqual;", 0x224F); (str "IEcy;", 0x415); (str "IJlig;", 0x132);
   (str "IOcy;", 0x401); (str "Iacute;", 0xCD); (str "Icirc;", 0xCE); (str "Icy;", 0x418); (str "Idot;", 0x130);
   (str "Ifr;", 0x2111); (str "Igrave;", 0xCC); (str "Im;", 0x2111); (str "Imacr;", 0x12A);
   (str "ImaginaryI;", 0x2148); (str "Implies;", 0x21D2); (str "Int;", 0x222C); (str "Integral;", 0x222B);
   (str "Intersection;", 0x22C2); (str "InvisibleComma;", 0x2063); (str "InvisibleTimes;", 0x2062);
   (str "Iogon;", 0x12E); (str "Iopf;", 0x1D540); (str "Iota;", 0x399); (str "Iscr;", 0x2110);
   (str "Itilde;", 0x128); (str "Iukcy;", 0x406); (str "Iuml;", 0xCF); (str "Jcirc;", 0x134);
   (str "Jcy;", 0x419); (str "Jfr;", 0x1D50D); (str "Jopf;", 0x1D541); (str "Jscr;", 0x1D4A5);
   (str "Jsercy;", 0x408); (str "Jukcy;", 0x404); (str "KHcy;", 0x425); (str "KJcy;", 0x40C);
   (str "Kappa;", 0x39A); (str "Kcedil;", 0x136); (str "Kcy;", 0x41A); (str "Kfr;", 0x1D50E);
   (str "Kopf;", 0x1D542); (str "Kscr;", 0x1D4A6); (str "LJcy;", 0x409); (str "LT;", 0x3C);
   (str "Lacute;", 0x139); (str "Lambda;", 0x39B); (str "Lang;", 0x27EA); (str "Laplacetrf;", 0x2112);
   (str "Larr;", 0x219E); (str "Lcaron;", 0x13D); (str "Lcedil;", 0x13B); (str "Lcy;", 0x41B);
   (str "LeftAngleBracket;", 0x27E8); (str "LeftArrow;", 0x2190); (str "LeftArrowBar;", 0x21E4);
   (str "LeftArrowRightArrow;", 0x21C6); (str "LeftCeiling;", 0x2308); (str "LeftDoubleBracket;", 0x27E6);
   (str "LeftDownTeeVector;", 0x2961); (str "LeftDownVector;", 0x21C3); (str "LeftDownVectorBar;", 0x2959);
   (str "LeftFloor;", 0x230A); (str "LeftRightArrow;", 0x2194); (str "LeftRightVector;", 0x294E);
   (str "LeftTee;", 0x22A3); (str "LeftTeeArrow;", 0x21A4); (str "LeftTeeVector;", 0x295A);
   (str "LeftTriangle;", 0x22B2); (str "LeftTriangleBar;", 0x29CF); (str "LeftTriangleEqual;", 0x22B4);
   (str "LeftUpDownVector;", 0x2951); (str "LeftUpTeeVector;", 0x2960); (str "LeftUpVector;", 0x21BF);
   (str "LeftUpVectorBar;", 0x2958); (str "LeftVector;", 0x21BC); (str "LeftVectorBar;", 0x2952);
   (str "Leftarrow;", 0x21D0); (str "Leftrightarrow;", 0x21D4); (str "LessEqualGreater;", 0x22DA);
   (str "LessFullEqual;", 0x2266); (str "LessGreater;", 0x2276); (str "LessLess;", 0x2AA1);
   (str "LessSlantEqual;", 0x2A7D); (str "LessTilde;", 0x2272); (str "Lfr;", 0x1D50F); (str "Ll;", 0x22D8);
   (str "Lleftarrow;", 0x21DA); (str "Lmidot;", 0x13F); (str "LongLeftArrow;", 0x27F5);
   (str "LongLeftRightArrow;", 0x27F7); (str "LongRightArrow;", 0x27F6); (str "Longleftarrow;", 0x27F8);
   (str "Longleftrightarrow;", 0x27FA); (str "Longrightarrow;", 0x27F9); (str "Lopf;", 0x1D543);
   (str "LowerLeftArrow;", 0x2199); (str "LowerRightArrow;", 0x2198); (str "Lscr;", 0x2112);
   (str "Lsh;", 0x21B0); (str "Lstrok;", 0x141); (str "Lt;", 0x226A); (str "Map;", 0x2905); (str "Mcy;", 0x41C);
   (str "MediumSpace;", 0x205F); (str "Mellintrf;", 0x2133); (str "Mfr;", 0x1D510); (str "MinusPlus;", 0x2213);
   (str "Mopf;", 0x1D544); (str "Mscr;", 0x2133); (str "Mu;", 0x39C)].

Definition entities_N_R : list (bytes * Z) :=
  [(str "NJcy;", 0x40A); (str "Nacute;", 0x143); (str "Ncaron;", 0x147); (str "Ncedil;", 0x145);
   (str "Ncy;", 0x41D); (str "NegativeMediumSpace;", 0x200B); (str "NegativeThickSpace;", 0x200B);
   (str "NegativeThinSpace;", 0x200B); (str "NegativeVeryThinSpace;", 0x200B);
   (str "NestedGreaterGreater;", 0x226B); (str "NestedLessLess;", 0x226A); (str "NewLine;", 0xA);
   (str "Nfr;", 0x1D511); (str "NoBreak;", 0x2060); (str "NonBreakingSpace;", 0xA0); (str "Nopf;", 0x2115);
   (str "Not;", 0x2AEC); (str "NotCongruent;", 0x2262); (str "NotCupCap;", 0x226D);
   (str "NotDoubleVerticalBar;", 0x2226); (str "NotElement;", 0x2209); (str "NotEqual;", 0x2260);
   (str "NotExists;", 0x2204); (str "NotGreater;", 0x226F); (str "NotGreaterEqual;", 0x2271);
   (str "NotGreaterLess;", 0x2279); (str "NotGreaterTilde;", 0x2275); (str "NotLeftTriangle;", 0x22EA);
   (str "NotLeftTriangleEqual;", 0x22EC); (str "NotLess;", 0x226E); (str "NotLessEqual;", 0x2270);
   (str "NotLessGreater;", 0x2278); (str "NotLessTilde;", 0x2274); (str "NotPrecedes;", 0x2280);
   (str "NotPrecedesSlantEqual;", 0x22E0); (str "NotReverseElement;", 0x220C);
   (str "NotRightTriangle;", 0x22EB); (str "NotRightTriangleEqual;", 0x22ED);
   (str "NotSquareSubsetEqual;", 0x22E2); (str "NotSquareSupersetEqual;", 0x22E3);
   (str "NotSubsetEqual;", 0x2288); (str "NotSucceeds;", 0x2281); (str "NotSucceedsSlantEqual;", 0x22E1);
   (str "NotSupersetEqual;", 0x2289); (str "NotTilde;", 0x2241); (str "NotTildeEqual;", 0x2244);
   (str "NotTildeFullEqual;", 0x2247); (str "NotTildeTilde;", 0x2249); (str "NotVerticalBar;", 0x2224);
   (str "Nscr;", 0x1D4A9); (str "Ntilde;", 0xD1); (str "Nu;", 0x39D); (str "OElig;", 0x152);
   (str "Oacute;", 0xD3); (str "Ocirc;", 0xD4); (str "Ocy;", 0x41E); (str "Odblac;", 0x150);
   (str "Ofr;", 0x1D512); (str "Ograve;", 0xD2); (str "Omacr;", 0x14C); (str "Omega;", 0x3A9);
   (str "Omicron;", 0x39F); (str "Oopf;", 0x1D546); (str "OpenCurlyDoubleQuote;", 0x201C);
   (str "OpenCurlyQuote;", 0x2018); (str "Or;", 0x2A54); (str "Oscr;", 0x1D4AA); (str "Oslash;", 0xD8);
   (str "Otilde;", 0xD5); (str "Otimes;", 0x2A37); (str "Ouml;", 0xD6); (str "OverBar;", 0x203E);
   (str "OverBrace;", 0x23DE); (str "OverBracket;", 0x23B4); (str "OverParenthesis;", 0x23DC);
   (str "PartialD;", 0x2202); (str "Pcy;", 0x41F); (str "Pfr;", 0x1D513); (str "Phi;", 0x3A6);
   (str "Pi;", 0x3A0); (str "PlusMinus;", 0xB1); (str "Poincareplane;", 0x210C); (str "Popf;", 0x2119);
   (str "Pr;", 0x2ABB); (str "Precedes;", 0x227A); (str "PrecedesEqual;", 0x2AAF);
   (str "PrecedesSlantEqual;", 0x227C); (str "PrecedesTilde;", 0x227E); (str "Prime;", 0x2033);
   (str "Product;", 0x220F); (str "Proportion;", 0x2237); (str "Proportional;", 0x221D); (str "Pscr;", 0x1D4AB);
   (str "Psi;", 0x3A8); (str "QUOT;", 0x22); (str "Qfr;", 0x1D514); (str "Qopf;", 0x211A);
   (str "Qscr;", 0x1D4AC); (str "RBarr;", 0x2910); (str "REG;", 0xAE); (str "Racute;", 0x154);
   (str "Rang;", 0x27EB); (str "Rarr;", 0x21A0); (str "Rarrtl;", 0x2916); (str "Rcaron;", 0x158);
   (str "Rcedil;", 0x156); (str "Rcy;", 0x420); (str "Re;", 0x211C); (str "ReverseElement;", 0x220B);
   (str "ReverseEquilibrium;", 0x21CB); (str "ReverseUpEquilibrium;", 0x296F); (str "Rfr;", 0x211C);
   (str "Rho;", 0x3A1); (str "RightAngleBracket;", 0x27E9); (str "RightArrow;", 0x2192);
   (str "RightArrowBar;", 0x21E5); (str "RightArrowLeftArrow;", 0x21C4); (str "RightCeiling;", 0x2309);
   (str "RightDoubleBracket;", 0x27E7); (str "RightDownTeeVector;", 0x295D); (str "RightDownVector;", 0x21C2);
   (str "RightDownVectorBar;", 0x2955); (str "RightFloor;", 0x230B); (str "RightTee;", 0x22A2);
   (str "RightTeeArrow;", 0x21A6); (str "RightTeeVector;", 0x295B); (str "RightTriangle;", 0x22B3);
   (str "RightTriangleBar;", 0x29D0); (str "RightTriangleEqual;", 0x22B5); (str "RightUpDownVector;", 0x294F);
   (str "RightUpTeeVector;", 0x295C); (str "RightUpVector;", 0x21BE); (str "RightUpVectorBar;", 0x2954);
   (str "RightVector;", 0x21C0); (str "RightVectorBar;", 0x2953); (str "Rightarrow;", 0x21D2);
   (str "Ropf;", 0x211D); (str "RoundImplies;", 0x2970); (str "Rrightarrow;", 0x21DB); (str "Rscr;", 0x211B);
   (str "Rsh;", 0x21B1); (str "RuleDelayed;", 0x29F4)].

Definition entities_S_Z : list (bytes * Z) :=
  [(str "SHCHcy;", 0x429); (str "SHcy;", 0x428); (str "SOFTcy;", 0x42C); (str "Sacute;", 0x15A);
   (str "Sc;", 0x2ABC); (str "Scaron;", 0x160); (str "Scedil;", 0x15E); (str "Scirc;", 0x15C);
   (str "Scy;", 0x421); (str "Sfr;", 0x1D516); (str "ShortDownArrow;", 0x2193); (str "ShortLeftArrow;", 0x2190);
   (str "ShortRightArrow;", 0x2192); (str "ShortUpArrow;", 0x2191); (str "Sigma;", 0x3A3);
   (str "SmallCircle;", 0x2218); (str "Sopf;", 0x1D54A); (str "Sqrt;", 0x221A); (str "Square;", 0x25A1);
   (str "SquareIntersection;", 0x2293); (str "SquareSubset;", 0x228F); (str "SquareSubsetEqual;", 0x2291);
   (str "SquareSuperset;", 0x2290); (str "SquareSupersetEqual;", 0x2292); (str "SquareUnion;", 0x2294);
   (str "Sscr;", 0x1D4AE); (str "Star;", 0x22C6); (str "Sub;", 0x22D0); (str "Subset;", 0x22D0);
   (str "SubsetEqual;", 0x2286); (str "Succeeds;", 0x227B); (str "SucceedsEqual;", 0x2AB0);
   (str "SucceedsSlantEqual;", 0x227D); (str "SucceedsTilde;", 0x227F); (str "SuchThat;", 0x220B);
   (str "Sum;", 0x2211); (str "Sup;", 0x22D1); (str "Superset;", 0x2283); (str "SupersetEqual;", 0x2287);
   (str "Supset;", 0x22D1); (str "THORN;", 0xDE); (str "TRADE;", 0x2122); (str "TSHcy;", 0x40B);
   (str "TScy;", 0x426); (str "Tab;", 0x9); (str "Tau;", 0x3A4); (str "Tcaron;", 0x164); (str "Tcedil;", 0x162);
   (str "Tcy;", 0x422); (str "Tfr;", 0x1D517); (str "Therefore;", 0x2234); (str "Theta;", 0x398);
   (str "ThinSpace;", 0x2009); (str "Tilde;", 0x223C); (str "TildeEqual;", 0x2243);
   (str "TildeFullEqual;", 0x2245); (str "TildeTilde;", 0x2248); (str "Topf;", 0x1D54B);
   (str "TripleDot;", 0x20DB); (str "Tscr;", 0x1D4AF); (str "Tstrok;", 0x166); (str "Uacute;", 0xDA);
   (str "Uarr;", 0x219F); (str "Uarrocir;", 0x2949); (str "Ubrcy;", 0x40E); (str "Ubreve;", 0x16C);
   (str "Ucirc;", 0xDB); (str "Ucy;", 0x423); (str "Udblac;", 0x170); (str "Ufr;", 0x1D518);
   (str "Ugrave;", 0xD9); (str "Umacr;", 0x16A); (str "UnderBar;", 0x5F); (str "UnderBrace;", 0x23DF);
   (str "UnderBracket;", 0x23B5); (str "UnderParenthesis;", 0x23DD); (str "Union;", 0x22C3);
   (str "UnionPlus;", 0x228E); (str "Uogon;", 0x172); (str "Uopf;", 0x1D54C); (str "UpArrow;", 0x2191);
   (str "UpArrowBar;", 0x2912); (str "UpArrowDownArrow;", 0x21C5); (str "UpDownArrow;", 0x2195);
   (str "UpEquilibrium;", 0x296E); (str "UpTee;", 0x22A5); (str "UpTeeArrow;", 0x21A5);
   (str "Uparrow;", 0x21D1); (str "Updownarrow;", 0x21D5); (str "UpperLeftArrow;", 0x2196);
   (str "UpperRightArrow;", 0x2197); (str "Upsi;", 0x3D2); (str "Upsilon;", 0x3A5); (str "Uring;", 0x16E);
   (str "Uscr;", 0x1D4B0); (str "Utilde;", 0x168); (str "Uuml;", 0xDC); (str "VDash;", 0x22AB);
   (str "Vbar;", 0x2AEB); (str "Vcy;", 0x412); (str "Vdash;", 0x22A9); (str "Vdashl;", 0x2AE6);
   (str "Vee;", 0x22C1); (str "Verbar;", 0x2016); (str "Vert;", 0x2016); (str "VerticalBar;", 0x2223);
   (str "VerticalLine;", 0x7C); (str "VerticalSeparator;", 0x2758); (str "VerticalTilde;", 0x2240);
   (str "VeryThinSpace;", 0x200A); (str "Vfr;", 0x1D519); (str "Vopf;", 0x1D54D); (str "Vscr;", 0x1D4B1);
   (str "Vvdash;", 0x22AA); (str "Wcirc;", 0x174); (str "Wedge;", 0x22C0); (str "Wfr;", 0x1D51A);
   (str "Wopf;", 0x1D54E); (str "Wscr;", 0x1D4B2); (str "Xfr;", 0x1D51B); (str "Xi;", 0x39E);
   (str "Xopf;", 0x1D54F); (str "Xscr;", 0x1D4B3); (str "YAcy;", 0x42F); (str "YIcy;", 0x407);
   (str "YUcy;", 0x42E); (str "Yacute;", 0xDD); (str "Ycirc;", 0x176); (str "Ycy;", 0x42B);
   (str "Yfr;", 0x1D51C); (str "Yopf;", 0x1D550); (str "Yscr;", 0x1D4B4); (str "Yuml;", 0x178);
   (str "ZHcy;", 0x416); (str "Zacute;", 0x179); (str "Zcaron;", 0x17D); (str "Zcy;", 0x417);
   (str "Zdot;", 0x17B); (str "ZeroWidthSpace;", 0x200B); (str "Zeta;", 0x396); (str "Zfr;", 0x2128);
   (str "Zopf;", 0x2124); (str "Zscr;", 0x1D4B5)].

Definition entities_a : list (bytes * Z) :=
  [(str "aacute;", 0xE1); (str "abreve;", 0x103); (str "ac;", 0x223E); (str "acd;", 0x223F);
   (str "acirc;", 0xE2); (str "acute;", 0xB4); (str "acy;", 0x430); (str "aelig;", 0xE6); (str "af;", 0x2061);
   (str "afr;", 0x1D51E); (str "agrave;", 0xE0); (str "alefsym;", 0x2135); (str "aleph;", 0x2135);
   (str "alpha;", 0x3B1); (str "amacr;", 0x101); (str "amalg;", 0x2A3F); (str "amp;", 0x26);
   (str "and;", 0x2227); (str "andand;", 0x2A55); (str "andd;", 0x2A5C); (str "andslope;", 0x2A58);
   (str "andv;", 0x2A5A); (str "ang;", 0x2220); (str "ange;", 0x29A4); (str "angle;", 0x2220);
   (str "angmsd;", 0x2221); (str "angmsdaa;", 0x29A8); (str "angmsdab;", 0x29A9); (str "angmsdac;", 0x29AA);
   (str "angmsdad;", 0x29AB); (str "angmsdae;", 0x29AC); (str "angmsdaf;", 0x29AD); (str "angmsdag;", 0x29AE);
   (str "angmsdah;", 0x29AF); (str "angrt;", 0x221F); (str "angrtvb;", 0x22BE); (str "angrtvbd;", 0x299D);
   (str "angsph;", 0x2222); (str "angst;", 0xC5); (str "angzarr;", 0x237C); (str "aogon;", 0x105);
   (str "aopf;", 0x1D552); (str "ap;", 0x2248); (str "apE;", 0x2A70); (str "apacir;", 0x2A6F);
   (str "ape;", 0x224A); (str "apid;", 0x224B); (str "apos;", 0x27); (str "approx;", 0x2248);
   (str "approxeq;", 0x224A); (str "aring;", 0xE5); (str "ascr;", 0x1D4B6); (str "ast;", 0x2A);
   (str "asymp;", 0x2248); (str "asympeq;", 0x224D); (str "atilde;", 0xE3); (str "auml;", 0xE4);
   (str "awconint;", 0x2233); (str "awint;", 0x2A11)].

Definition entities_b : list (bytes * Z) :=
  [(str "bNot;", 0x2AED); (str "backcong;", 0x224C); (str "backepsilon;", 0x3F6); (str "backprime;", 0x2035);
   (str "backsim;", 0x223D); (str "backsimeq;", 0x22CD); (str "barvee;", 0x22BD); (str "barwed;", 0x2305);
   (str "barwedge;", 0x2305); (str "bbrk;", 0x23B5); (str "bbrktbrk;", 0x23B6); (str "bcong;", 0x224C);
   (str "bcy;", 0x431); (str "bdquo;", 0x201E); (str "becaus;", 0x2235); (str "because;", 0x2235);
   (str "bemptyv;", 0x29B0); (str "bepsi;", 0x3F6); (str "bernou;", 0x212C); (str "beta;", 0x3B2);
   (str "beth;", 0x2136); (str "between;", 0x226C); (str "bfr;", 0x1D51F); (str "bigcap;", 0x22C2);
   (str "bigcirc;", 0x25EF); (str "bigcup;", 0x22C3); (str "bigodot;", 0x2A00); (str "bigoplus;", 0x2A01);
   (str "bigotimes;", 0x2A02); (str "bigsqcup;", 0x2A06); (str "bigstar;", 0x2605);
   (str "bigtriangledown;", 0x25BD); (str "bigtriangleup;", 0x25B3); (str "biguplus;", 0x2A04);
   (str "bigvee;", 0x22C1); (str "bigwedge;", 0x22C0); (str "bkarow;", 0x290D); (str "blacklozenge;", 0x29EB);
   (str "blacksquare;", 0x25AA); (str "blacktriangle;", 0x25B4); (str "blacktriangledown;", 0x25BE);
   (str "blacktriangleleft;", 0x25C2); (str "blacktriangleright;", 0x25B8); (str "blank;", 0x2423);
   (str "blk12;", 0x2592); (str "blk14;", 0x2591); (str "blk34;", 0x2593); (str "block;", 0x2588);
   (str "bnot;", 0x2310); (str "bopf;", 0x1D553); (str "bot;", 0x22A5); (str "bottom;", 0x22A5);
   (str "bowtie;", 0x22C8); (str "boxDL;", 0x2557); (str "boxDR;", 0x2554); (str "boxDl;", 0x2556);
   (str "boxDr;", 0x2553); (str "boxH;", 0x2550); (str "boxHD;", 0x2566); (str "boxHU;", 0x2569);
   (str "boxHd;", 0x2564); (str "boxHu;", 0x2567); (str "boxUL;", 0x255D); (str "boxUR;", 0x255A);
   (str "boxUl;", 0x255C); (str "boxUr;", 0x2559); (str "boxV;", 0x2551); (str "boxVH;", 0x256C);
   (str "boxVL;", 0x2563); (str "boxVR;", 0x2560); (str "boxVh;", 0x256B); (str "boxVl;", 0x2562);
   (str "boxVr;", 0x255F); (str "boxbox;", 0x29C9); (str "boxdL;", 0x2555); (str "boxdR;", 0x2552);
   (str "boxdl;", 0x2510); (str "boxdr;", 0x250C); (str "boxh;", 0x2500); (str "boxhD;", 0x2565);
   (str "boxhU;", 0x2568); (str "boxhd;", 0x252C); (str "boxhu;", 0x2534); (str "boxminus;", 0x229F);
   (str "boxplus;", 0x229E); (str "boxtimes;", 0x22A0); (str "boxuL;", 0x255B); (str "boxuR;", 0x2558);
   (str "boxul;", 0x2518); (str "boxur;", 0x2514); (str "boxv;", 0x2502); (str "boxvH;", 0x256A);
   (str "boxvL;", 0x2561); (str "boxvR;", 0x255E); (str "boxvh;", 0x253C); (str "boxvl;", 0x2524);
   (str "boxvr;", 0x251C); (str "bprime;", 0x2035); (str "breve;", 0x2D8); (str "brvbar;", 0xA6);
   (str "bscr;", 0x1D4B7); (str "bsemi;", 0x204F); (str "bsim;", 0x223D); (str "bsime;", 0x22CD);
   (str "bsol;", 0x5C); (str "bsolb;", 0x29C5); (str "bsolhsub;", 0x27C8); (str "bull;", 0x2022);
   (str "bullet;", 0x2022); (str "bump;", 0x224E); (str "bumpE;", 0x2AAE); (str "bumpe;", 0x224F);
   (str "bumpeq;", 0x224F)].

Definition entities_c : list (bytes * Z) :=
  [(str "cacute;", 0x107); (str "cap;", 0x2229); (str "capand;", 0x2A44); (str "capbrcup;", 0x2A49);
   (str "capcap;", 0x2A4B); (str "capcup;", 0x2A47); (str "capdot;", 0x2A40); (str "caret;", 0x2041);
   (str "caron;", 0x2C7); (str "ccaps;", 0x2A4D); (str "ccaron;", 0x10D); (str "ccedil;", 0xE7);
   (str "ccirc;", 0x109); (str "ccups;", 0x2A4C); (str "ccupssm;", 0x2A50); (str "cdot;", 0x10B);
   (str "cedil;", 0xB8); (str "cemptyv;", 0x29B2); (str "cent;", 0xA2); (str "centerdot;", 0xB7);
   (str "cfr;", 0x1D520); (str "chcy;", 0x447); (str "check;", 0x2713); (str "checkmark;", 0x2713);
   (str "chi;", 0x3C7); (str "cir;", 0x25CB); (str "cirE;", 0x29C3); (str "circ;", 0x2C6);
   (str "circeq;", 0x2257); (str "circlearrowleft;", 0x21BA); (str "circlearrowright;", 0x21BB);
   (str "circledR;", 0xAE); (str "circledS;", 0x24C8); (str "circledast;", 0x229B);
   (str "circledcirc;", 0x229A); (str "circleddash;", 0x229D); (str "cire;", 0x2257); (str "cirfnint;", 0x2A10);
   (str "cirmid;", 0x2AEF); (str "cirscir;", 0x29C2); (str "clubs;", 0x2663); (str "clubsuit;", 0x2663);
   (str "colon;", 0x3A); (str "colone;", 0x2254); (str "coloneq;", 0x2254); (str "comma;", 0x2C);
   (str "commat;", 0x40); (str "comp;", 0x2201); (str "compfn;", 0x2218); (str "complement;", 0x2201);
   (str "complexes;", 0x2102); (str "cong;", 0x2245); (str "congdot;", 0x2A6D); (str "conint;", 0x222E);
   (str "copf;", 0x1D554); (str "coprod;", 0x2210); (str "copy;", 0xA9); (str "copysr;", 0x2117);
   (str "crarr;", 0x21B5); (str "cross;", 0x2717); (str "cscr;", 0x1D4B8); (str "csub;", 0x2ACF);
   (str "csube;", 0x2AD1); (str "csup;", 0x2AD0); (str "csupe;", 0x2AD2); (str "ctdot;", 0x22EF);
   (str "cudarrl;", 0x2938); (str "cudarrr;", 0x2935); (str "cuepr;", 0x22DE); (str "cuesc;", 0x22DF);
   (str "cularr;", 0x21B6); (str "cularrp;", 0x293D); (str "cup;", 0x222A); (str "cupbrcap;", 0x2A48);
   (str "cupcap;", 0x2A46); (str "cupcup;", 0x2A4A); (str "cupdot;", 0x228D); (str "cupor;", 0x2A45);
   (str "curarr;", 0x21B7); (str "curarrm;", 0x293C); (str "curlyeqprec;", 0x22DE);
   (str "curlyeqsucc;", 0x22DF); (str "curlyvee;", 0x22CE); (str "curlywedge;", 0x22CF); (str "curren;", 0xA4);
   (str "curvearrowleft;", 0x21B6); (str "curvearrowright;", 0x21B7); (str "cuvee;", 0x22CE);
   (str "cuwed;", 0x22CF); (str "cwconint;", 0x2232); (str "cwint;", 0x2231); (str "cylcty;", 0x232D)].

Definition entities_d_e : list (bytes * Z) :=
  [(str "dArr;", 0x21D3); (str "dHar;", 0x2965); (str "dagger;", 0x2020); (str "daleth;", 0x2138);
   (str "darr;", 0x2193); (str "dash;", 0x2010); (str "dashv;", 0x22A3); (str "dbkarow;", 0x290F);
   (str "dblac;", 0x2DD); (str "dcaron;", 0x10F); (str "dcy;", 0x434); (str "dd;", 0x2146);
   (str "ddagger;", 0x2021); (str "ddarr;", 0x21CA); (str "ddotseq;", 0x2A77); (str "deg;", 0xB0);
   (str "delta;", 0x3B4); (str "demptyv;", 0x29B1); (str "dfisht;", 0x297F); (str "dfr;", 0x1D521);
   (str "dharl;", 0x21C3); (str "dharr;", 0x21C2); (str "diam;", 0x22C4); (str "diamond;", 0x22C4);
   (str "diamondsuit;", 0x2666); (str "diams;", 0x2666); (str "die;", 0xA8); (str "digamma;", 0x3DD);
   (str "disin;", 0x22F2); (str "div;", 0xF7); (str "divide;", 0xF7); (str "divideontimes;", 0x22C7);
   (str "divonx;", 0x22C7); (str "djcy;", 0x452); (str "dlcorn;", 0x231E); (str "dlcrop;", 0x230D);
   (str "dollar;", 0x24); (str "dopf;", 0x1D555); (str "dot;", 0x2D9); (str "doteq;", 0x2250);
   (str "doteqdot;", 0x2251); (str "dotminus;", 0x2238); (str "dotplus;", 0x2214); (str "dotsquare;", 0x22A1);
   (str "doublebarwedge;", 0x2306); (str "downarrow;", 0x2193); (str "downdownarrows;", 0x21CA);
   (str "downharpoonleft;", 0x21C3); (str "downharpoonright;", 0x21C2); (str "drbkarow;", 0x2910);
   (str "drcorn;", 0x231F); (str "drcrop;", 0x230C); (str "dscr;", 0x1D4B9); (str "dscy;", 0x455);
   (str "dsol;", 0x29F6); (str "dstrok;", 0x111); (str "dtdot;", 0x22F1); (str "dtri;", 0x25BF);
   (str "dtrif;", 0x25BE); (str "duarr;", 0x21F5); (str "duhar;", 0x296F); (str "dwangle;", 0x29A6);
   (str "dzcy;", 0x45F); (str "dzigrarr;", 0x27FF); (str "eDDot;", 0x2A77); (str "eDot;", 0x2251);
   (str "eacute;", 0xE9); (str "easter;", 0x2A6E); (str "ecaron;", 0x11B); (str "ecir;", 0x2256);
   (str "ecirc;", 0xEA); (str "ecolon;", 0x2255); (str "ecy;", 0x44D); (str "edot;", 0x117);
   (str "ee;", 0x2147); (str "efDot;", 0x2252); (str "efr;", 0x1D522); (str "eg;", 0x2A9A);
   (str "egrave;", 0xE8); (str "egs;", 0x2A96); (str "egsdot;", 0x2A98); (str "el;", 0x2A99);
   (str "elinters;", 0x23E7); (str "ell;", 0x2113); (str "els;", 0x2A95); (str "elsdot;", 0x2A97);
   (str "emacr;", 0x113); (str "empty;", 0x2205); (str "emptyset;", 0x2205); (str "emptyv;", 0x2205);
   (str "emsp;", 0x2003); (str "emsp13;", 0x2004); (str "emsp14;", 0x2005); (str "eng;", 0x14B);
   (str "ensp;", 0x2002); (str "eogon;", 0x119); (str "eopf;", 0x1D556); (str "epar;", 0x22D5);
   (str "eparsl;", 0x29E3); (str "eplus;", 0x2A71); (str "epsi;", 0x3B5); (str "epsilon;", 0x3B5);
   (str "epsiv;", 0x3F5); (str "eqcirc;", 0x2256); (str "eqcolon;", 0x2255); (str "eqsim;", 0x2242);
   (str "eqslantgtr;", 0x2A96); (str "eqslantless;", 0x2A95); (str "equals;", 0x3D); (str "equest;", 0x225F);
   (str "equiv;", 0x2261); (str "equivDD;", 0x2A78); (str "eqvparsl;", 0x29E5); (str "erDot;", 0x2253);
   (str "erarr;", 0x2971); (str "escr;", 0x212F); (str "esdot;", 0x2250); (str "esim;", 0x2242);
   (str "eta;", 0x3B7); (str "eth;", 0xF0); (str "euml;", 0xEB); (str "euro;", 0x20AC); (str "excl;", 0x21);
   (str "exist;", 0x2203); (str "expectation;", 0x2130); (str "exponentiale;", 0x2147)].

Definition entities_f_h : list (bytes * Z) :=
  [(str "fallingdotseq;", 0x2252); (str "fcy;", 0x444); (str "female;", 0x2640); (str "ffilig;", 0xFB03);
   (str "fflig;", 0xFB00); (str "ffllig;", 0xFB04); (str "ffr;", 0x1D523); (str "filig;", 0xFB01);
   (str "flat;", 0x266D); (str "fllig;", 0xFB02); (str "fltns;", 0x25B1); (str "fnof;", 0x192);
   (str "fopf;", 0x1D557); (str "forall;", 0x2200); (str "fork;", 0x22D4); (str "forkv;", 0x2AD9);
   (str "fpartint;", 0x2A0D); (str "frac12;", 0xBD); (str "frac13;", 0x2153); (str "frac14;", 0xBC);
   (str "frac15;", 0x2155); (str "frac16;", 0x2159); (str "frac18;", 0x215B); (str "frac23;", 0x2154);
   (str "frac25;", 0x2156); (str "frac34;", 0xBE); (str "frac35;", 0x2157); (str "frac38;", 0x215C);
   (str "frac45;", 0x2158); (str "frac56;", 0x215A); (str "frac58;", 0x215D); (str "frac78;", 0x215E);
   (str "frasl;", 0x2044); (str "frown;", 0x2322); (str "fscr;", 0x1D4BB); (str "gE;", 0x2267);
   (str "gEl;", 0x2A8C); (str "gacute;", 0x1F5); (str "gamma;", 0x3B3); (str "gammad;", 0x3DD);
   (str "gap;", 0x2A86); (str "gbreve;", 0x11F); (str "gcirc;", 0x11D); (str "gcy;", 0x433);
   (str "gdot;", 0x121); (str "ge;", 0x2265); (str "gel;", 0x22DB); (str "geq;", 0x2265); (str "geqq;", 0x2267);
   (str "geqslant;", 0x2A7E); (str "ges;", 0x2A7E); (str "gescc;", 0x2AA9); (str "gesdot;", 0x2A80);
   (str "gesdoto;", 0x2A82); (str "gesdotol;", 0x2A84); (str "gesles;", 0x2A94); (str "gfr;", 0x1D524);
   (str "gg;", 0x226B); (str "ggg;", 0x22D9); (str "gimel;", 0x2137); (str "gjcy;", 0x453); (str "gl;", 0x2277);
   (str "glE;", 0x2A92); (str "gla;", 0x2AA5); (str "glj;", 0x2AA4); (str "gnE;", 0x2269);
   (str "gnap;", 0x2A8A); (str "gnapprox;", 0x2A8A); (str "gne;", 0x2A88); (str "gneq;", 0x2A88);
   (str "gneqq;", 0x2269); (str "gnsim;", 0x22E7); (str "gopf;", 0x1D558); (str "grave;", 0x60);
   (str "gscr;", 0x210A); (str "gsim;", 0x2273); (str "gsime;", 0x2A8E); (str "gsiml;", 0x2A90);
   (str "gt;", 0x3E); (str "gtcc;", 0x2AA7); (str "gtcir;", 0x2A7A); (str "gtdot;", 0x22D7);
   (str "gtlPar;", 0x2995); (str "gtquest;", 0x2A7C); (str "gtrapprox;", 0x2A86); (str "gtrarr;", 0x2978);
   (str "gtrdot;", 0x22D7); (str "gtreqless;", 0x22DB); (str "gtreqqless;", 0x2A8C); (str "gtrless;", 0x2277);
   (str "gtrsim;", 0x2273); (str "hArr;", 0x21D4); (str "hairsp;", 0x200A); (str "half;", 0xBD);
   (str "hamilt;", 0x210B); (str "hardcy;", 0x44A); (str "harr;", 0x2194); (str "harrcir;", 0x2948);
   (str "harrw;", 0x21AD); (str "hbar;", 0x210F); (str "hcirc;", 0x125); (str "hearts;", 0x2665);
   (str "heartsuit;", 0x2665); (str "hellip;", 0x2026); (str "hercon;", 0x22B9); (str "hfr;", 0x1D525);
   (str "hksearow;", 0x2925); (str "hkswarow;", 0x2926); (str "hoarr;", 0x21FF); (str "homtht;", 0x223B);
   (str "hookleftarrow;", 0x21A9); (str "hookrightarrow;", 0x21AA); (str "hopf;", 0x1D559);
   (str "horbar;", 0x2015); (str "hscr;", 0x1D4BD); (str "hslash;", 0x210F); (str "hstrok;", 0x127);
   (str "hybull;", 0x2043); (str "hyphen;", 0x2010)].

Definition entities_i_k : list (bytes * Z) :=
  [(str "iacute;", 0xED); (str "ic;", 0x2063); (str "icirc;", 0xEE); (str "icy;", 0x438); (str "iecy;", 0x435);
   (str "iexcl;", 0xA1); (str "iff;", 0x21D4); (str "ifr;", 0x1D526); (str "igrave;", 0xEC);
   (str "ii;", 0x2148); (str "iiiint;", 0x2A0C); (str "iiint;", 0x222D); (str "iinfin;", 0x29DC);
   (str "iiota;", 0x2129); (str "ijlig;", 0x133); (str "imacr;", 0x12B); (str "image;", 0x2111);
   (str "imagline;", 0x2110); (str "imagpart;", 0x2111); (str "imath;", 0x131); (str "imof;", 0x22B7);
   (str "imped;", 0x1B5); (str "in;", 0x2208); (str "incare;", 0x2105); (str "infin;", 0x221E);
   (str "infintie;", 0x29DD); (str "inodot;", 0x131); (str "int;", 0x222B); (str "intcal;", 0x22BA);
   (str "integers;", 0x2124); (str "intercal;", 0x22BA); (str "intlarhk;", 0x2A17); (str "intprod;", 0x2A3C);
   (str "iocy;", 0x451); (str "iogon;", 0x12F); (str "iopf;", 0x1D55A); (str "iota;", 0x3B9);
   (str "iprod;", 0x2A3C); (str "iquest;", 0xBF); (str "iscr;", 0x1D4BE); (str "isin;", 0x2208);
   (str "isinE;", 0x22F9); (str "isindot;", 0x22F5); (str "isins;", 0x22F4); (str "isinsv;", 0x22F3);
   (str "isinv;", 0x2208); (str "it;", 0x2062); (str "itilde;", 0x129); (str "iukcy;", 0x456);
   (str "iuml;", 0xEF); (str "jcirc;", 0x135); (str "jcy;", 0x439); (str "jfr;", 0x1D527);
   (str "jmath;", 0x237); (str "jopf;", 0x1D55B); (str "jscr;", 0x1D4BF); (str "jsercy;", 0x458);
   (str "jukcy;", 0x454); (str "kappa;", 0x3BA); (str "kappav;", 0x3F0); (str "kcedil;", 0x137);
   (str "kcy;", 0x43A); (str "kfr;", 0x1D528); (str "kgreen;", 0x138); (str "khcy;", 0x445);
   (str "kjcy;", 0x45C); (str "kopf;", 0x1D55C); (str "kscr;", 0x1D4C0)].

Definition entities_l : list (bytes * Z) :=
  [(str "lAarr;", 0x21DA); (str "lArr;", 0x21D0); (str "lAtail;", 0x291B); (str "lBarr;", 0x290E);
   (str "lE;", 0x2266); (str "lEg;", 0x2A8B); (str "lHar;", 0x2962); (str "lacute;", 0x13A);
   (str "laemptyv;", 0x29B4); (str "lagran;", 0x2112); (str "lambda;", 0x3BB); (str "lang;", 0x27E8);
   (str "langd;", 0x2991); (str "langle;", 0x27E8); (str "lap;", 0x2A85); (str "laquo;", 0xAB);
   (str "larr;", 0x2190); (str "larrb;", 0x21E4); (str "larrbfs;", 0x291F); (str "larrfs;", 0x291D);
   (str "larrhk;", 0x21A9); (str "larrlp;", 0x21AB); (str "larrpl;", 0x2939); (str "larrsim;", 0x2973);
   (str "larrtl;", 0x21A2); (str "lat;", 0x2AAB); (str "latail;", 0x2919); (str "late;", 0x2AAD);
   (str "lbarr;", 0x290C); (str "lbbrk;", 0x2772); (str "lbrace;", 0x7B); (str "lbrack;", 0x5B);
   (str "lbrke;", 0x298B); (str "lbrksld;", 0x298F); (str "lbrkslu;", 0x298D); (str "lcaron;", 0x13E);
   (str "lcedil;", 0x13C); (str "lceil;", 0x2308); (str "lcub;", 0x7B); (str "lcy;", 0x43B);
   (str "ldca;", 0x2936); (str "ldquo;", 0x201C); (str "ldquor;", 0x201E); (str "ldrdhar;", 0x2967);
   (str "ldrushar;", 0x294B); (str "ldsh;", 0x21B2); (str "le;", 0x2264); (str "leftarrow;", 0x2190);
   (str "leftarrowtail;", 0x21A2); (str "leftharpoondown;", 0x21BD); (str "leftharpoonup;", 0x21BC);
   (str "leftleftarrows;", 0x21C7); (str "leftrightarrow;", 0x2194); (str "leftrightarrows;", 0x21C6);
   (str "leftrightharpoons;", 0x21CB); (str "leftrightsquigarrow;", 0x21AD); (str "leftthreetimes;", 0x22CB);
   (str "leg;", 0x22DA); (str "leq;", 0x2264); (str "leqq;", 0x2266); (str "leqslant;", 0x2A7D);
   (str "les;", 0x2A7D); (str "lescc;", 0x2AA8); (str "lesdot;", 0x2A7F); (str "lesdoto;", 0x2A81);
   (str "lesdotor;", 0x2A83); (str "lesges;", 0x2A93); (str "lessapprox;", 0x2A85); (str "lessdot;", 0x22D6);
   (str "lesseqgtr;", 0x22DA); (str "lesseqqgtr;", 0x2A8B); (str "lessgtr;", 0x2276); (str "lesssim;", 0x2272);
   (str "lfisht;", 0x297C); (str "lfloor;", 0x230A); (str "lfr;", 0x1D529); (str "lg;", 0x2276);
   (str "lgE;", 0x2A91); (str "lhard;", 0x21BD); (str "lharu;", 0x21BC); (str "lharul;", 0x296A);
   (str "lhblk;", 0x2584); (str "ljcy;", 0x459); (str "ll;", 0x226A); (str "llarr;", 0x21C7);
   (str "llcorner;", 0x231E); (str "llhard;", 0x296B); (str "lltri;", 0x25FA); (str "lmidot;", 0x140);
   (str "lmoust;", 0x23B0); (str "lmoustache;", 0x23B0); (str "lnE;", 0x2268); (str "lnap;", 0x2A89);
   (str "lnapprox;", 0x2A89); (str "lne;", 0x2A87); (str "lneq;", 0x2A87); (str "lneqq;", 0x2268);
   (str "lnsim;", 0x22E6); (str "loang;", 0x27EC); (str "loarr;", 0x21FD); (str "lobrk;", 0x27E6);
   (str "longleftarrow;", 0x27F5); (str "longleftrightarrow;", 0x27F7); (str "longmapsto;", 0x27FC);
   (str "longrightarrow;", 0x27F6); (str "looparrowleft;", 0x21AB); (str "looparrowright;", 0x21AC);
   (str "lopar;", 0x2985); (str "lopf;", 0x1D55D); (str "loplus;", 0x2A2D); (str "lotimes;", 0x2A34);
   (str "lowast;", 0x2217); (str "lowbar;", 0x5F); (str "loz;", 0x25CA); (str "lozenge;", 0x25CA);
   (str "lozf;", 0x29EB); (str "lpar;", 0x28); (str "lparlt;", 0x2993); (str "lrarr;", 0x21C6);
   (str "lrcorner;", 0x231F); (str "lrhar;", 0x21CB); (str "lrhard;", 0x296D); (str "lrm;", 0x200E);
   (str "lrtri;", 0x22BF); (str "lsaquo;", 0x2039); (str "lscr;", 0x1D4C1); (str "lsh;", 0x21B0);
   (str "lsim;", 0x2272); (str "lsime;", 0x2A8D); (str "lsimg;", 0x2A8F); (str "lsqb;", 0x5B);
   (str "lsquo;", 0x2018); (str "lsquor;", 0x201A); (str "lstrok;", 0x142); (str "lt;", 0x3C);
   (str "ltcc;", 0x2AA6); (str "ltcir;", 0x2A79); (str "ltdot;", 0x22D6); (str "lthree;", 0x22CB);
   (str "ltimes;", 0x22C9); (str "ltlarr;", 0x2976); (str "ltquest;", 0x2A7B); (str "ltrPar;", 0x2996);
   (str "ltri;", 0x25C3); (str "ltrie;", 0x22B4); (str "ltrif;", 0x25C2); (str "lurdshar;", 0x294A);
   (str "luruhar;", 0x2966)].

Definition entities_m : list (bytes * Z) :=
  [(str "mDDot;", 0x223A); (str "macr;", 0xAF); (str "male;", 0x2642); (str "malt;", 0x2720);
   (str "maltese;", 0x2720); (str "map;", 0x21A6); (str "mapsto;", 0x21A6); (str "mapstodown;", 0x21A7);
   (str "mapstoleft;", 0x21A4); (str "mapstoup;", 0x21A5); (str "marker;", 0x25AE); (str "mcomma;", 0x2A29);
   (str "mcy;", 0x43C); (str "mdash;", 0x2014); (str "measuredangle;", 0x2221); (str "mfr;", 0x1D52A);
   (str "mho;", 0x2127); (str "micro;", 0xB5); (str "mid;", 0x2223); (str "midast;", 0x2A);
   (str "midcir;", 0x2AF0); (str "middot;", 0xB7); (str "minus;", 0x2212); (str "minusb;", 0x229F);
   (str "minusd;", 0x2238); (str "minusdu;", 0x2A2A); (str "mlcp;", 0x2ADB); (str "mldr;", 0x2026);
   (str "mnplus;", 0x2213); (str "models;", 0x22A7); (str "mopf;", 0x1D55E); (str "mp;", 0x2213);
   (str "mscr;", 0x1D4C2); (str "mstpos;", 0x223E); (str "mu;", 0x3BC); (str "multimap;", 0x22B8);
   (str "mumap;", 0x22B8)].

Definition entities_n : list (bytes * Z) :=
  [(str "nLeftarrow;", 0x21CD); (str "nLeftrightarrow;", 0x21CE); (str "nRightarrow;", 0x21CF);
   (str "nVDash;", 0x22AF); (str "nVdash;", 0x22AE); (str "nabla;", 0x2207); (str "nacute;", 0x144);
   (str "nap;", 0x2249); (str "napos;", 0x149); (str "napprox;", 0x2249); (str "natur;", 0x266E);
   (str "natural;", 0x266E); (str "naturals;", 0x2115); (str "nbsp;", 0xA0); (str "ncap;", 0x2A43);
   (str "ncaron;", 0x148); (str "ncedil;", 0x146); (str "ncong;", 0x2247); (str "ncup;", 0x2A42);
   (str "ncy;", 0x43D); (str "ndash;", 0x2013); (str "ne;", 0x2260); (str "neArr;", 0x21D7);
   (str "nearhk;", 0x2924); (str "nearr;", 0x2197); (str "nearrow;", 0x2197); (str "nequiv;", 0x2262);
   (str "nesear;", 0x2928); (str "nexist;", 0x2204); (str "nexists;", 0x2204); (str "nfr;", 0x1D52B);
   (str "nge;", 0x2271); (str "ngeq;", 0x2271); (str "ngsim;", 0x2275); (str "ngt;", 0x226F);
   (str "ngtr;", 0x226F); (str "nhArr;", 0x21CE); (str "nharr;", 0x21AE); (str "nhpar;", 0x2AF2);
   (str "ni;", 0x220B); (str "nis;", 0x22FC); (str "nisd;", 0x22FA); (str "niv;", 0x220B); (str "njcy;", 0x45A);
   (str "nlArr;", 0x21CD); (str "nlarr;", 0x219A); (str "nldr;", 0x2025); (str "nle;", 0x2270);
   (str "nleftarrow;", 0x219A); (str "nleftrightarrow;", 0x21AE); (str "nleq;", 0x2270); (str "nless;", 0x226E);
   (str "nlsim;", 0x2274); (str "nlt;", 0x226E); (str "nltri;", 0x22EA); (str "nltrie;", 0x22EC);
   (str "nmid;", 0x2224); (str "nopf;", 0x1D55F); (str "not;", 0xAC); (str "notin;", 0x2209);
   (str "notinva;", 0x2209); (str "notinvb;", 0x22F7); (str "notinvc;", 0x22F6); (str "notni;", 0x220C);
   (str "notniva;", 0x220C); (str "notnivb;", 0x22FE); (str "notnivc;", 0x22FD); (str "npar;", 0x2226);
   (str "nparallel;", 0x2226); (str "npolint;", 0x2A14); (str "npr;", 0x2280); (str "nprcue;", 0x22E0);
   (str "nprec;", 0x2280); (str "nrArr;", 0x21CF); (str "nrarr;", 0x219B); (str "nrightarrow;", 0x219B);
   (str "nrtri;", 0x22EB); (str "nrtrie;", 0x22ED); (str "nsc;", 0x2281); (str "nsccue;", 0x22E1);
   (str "nscr;", 0x1D4C3); (str "nshortmid;", 0x2224); (str "nshortparallel;", 0x2226); (str "nsim;", 0x2241);
   (str "nsime;", 0x2244); (str "nsimeq;", 0x2244); (str "nsmid;", 0x2224); (str "nspar;", 0x2226);
   (str "nsqsube;", 0x22E2); (str "nsqsupe;", 0x22E3); (str "nsub;", 0x2284); (str "nsube;", 0x2288);
   (str "nsubseteq;", 0x2288); (str "nsucc;", 0x2281); (str "nsup;", 0x2285); (str "nsupe;", 0x2289);
   (str "nsupseteq;", 0x2289); (str "ntgl;", 0x2279); (str "ntilde;", 0xF1); (str "ntlg;", 0x2278);
   (str "ntriangleleft;", 0x22EA); (str "ntrianglelefteq;", 0x22EC); (str "ntriangleright;", 0x22EB);
   (str "ntrianglerighteq;", 0x22ED); (str "nu;", 0x3BD); (str "num;", 0x23); (str "numero;", 0x2116);
   (str "numsp;", 0x2007); (str "nvDash;", 0x22AD); (str "nvHarr;", 0x2904); (str "nvdash;", 0x22AC);
   (str "nvinfin;", 0x29DE); (str "nvlArr;", 0x2902); (str "nvrArr;", 0x2903); (str "nwArr;", 0x21D6);
   (str "nwarhk;", 0x2923); (str "nwarr;", 0x2196); (str "nwarrow;", 0x2196); (str "nwnear;", 0x2927)].

Definition entities_o_q : list (bytes * Z) :=
  [(str "oS;", 0x24C8); (str "oacute;", 0xF3); (str "oast;", 0x229B); (str "ocir;", 0x229A);
   (str "ocirc;", 0xF4); (str "ocy;", 0x43E); (str "odash;", 0x229D); (str "odblac;", 0x151);
   (str "odiv;", 0x2A38); (str "odot;", 0x2299); (str "odsold;", 0x29BC); (str "oelig;", 0x153);
   (str "ofcir;", 0x29BF); (str "ofr;", 0x1D52C); (str "ogon;", 0x2DB); (str "ograve;", 0xF2);
   (str "ogt;", 0x29C1); (str "ohbar;", 0x29B5); (str "ohm;", 0x3A9); (str "oint;", 0x222E);
   (str "olarr;", 0x21BA); (str "olcir;", 0x29BE); (str "olcross;", 0x29BB); (str "oline;", 0x203E);
   (str "olt;", 0x29C0); (str "omacr;", 0x14D); (str "omega;", 0x3C9); (str "omicron;", 0x3BF);
   (str "omid;", 0x29B6); (str "ominus;", 0x2296); (str "oopf;", 0x1D560); (str "opar;", 0x29B7);
   (str "operp;", 0x29B9); (str "oplus;", 0x2295); (str "or;", 0x2228); (str "orarr;", 0x21BB);
   (str "ord;", 0x2A5D); (str "order;", 0x2134); (str "orderof;", 0x2134); (str "ordf;", 0xAA);
   (str "ordm;", 0xBA); (str "origof;", 0x22B6); (str "oror;", 0x2A56); (str "orslope;", 0x2A57);
   (str "orv;", 0x2A5B); (str "oscr;", 0x2134); (str "oslash;", 0xF8); (str "osol;", 0x2298);
   (str "otilde;", 0xF5); (str "otimes;", 0x2297); (str "otimesas;", 0x2A36); (str "ouml;", 0xF6);
   (str "ovbar;", 0x233D); (str "par;", 0x2225); (str "para;", 0xB6); (str "parallel;", 0x2225);
   (str "parsim;", 0x2AF3); (str "parsl;", 0x2AFD); (str "part;", 0x2202); (str "pcy;", 0x43F);
   (str "percnt;", 0x25); (str "period;", 0x2E); (str "permil;", 0x2030); (str "perp;", 0x22A5);
   (str "pertenk;", 0x2031); (str "pfr;", 0x1D52D); (str "phi;", 0x3C6); (str "phiv;", 0x3D5);
   (str "phmmat;", 0x2133); (str "phone;", 0x260E); (str "pi;", 0x3C0); (str "pitchfork;", 0x22D4);
   (str "piv;", 0x3D6); (str "planck;", 0x210F); (str "planckh;", 0x210E); (str "plankv;", 0x210F);
   (str "plus;", 0x2B); (str "plusacir;", 0x2A23); (str "plusb;", 0x229E); (str "pluscir;", 0x2A22);
   (str "plusdo;", 0x2214); (str "plusdu;", 0x2A25); (str "pluse;", 0x2A72); (str "plusmn;", 0xB1);
   (str "plussim;", 0x2A26); (str "plustwo;", 0x2A27); (str "pm;", 0xB1); (str "pointint;", 0x2A15);
   (str "popf;", 0x1D561); (str "pound;", 0xA3); (str "pr;", 0x227A); (str "prE;", 0x2AB3);
   (str "prap;", 0x2AB7); (str "prcue;", 0x227C); (str "pre;", 0x2AAF); (str "prec;", 0x227A);
   (str "precapprox;", 0x2AB7); (str "preccurlyeq;", 0x227C); (str "preceq;", 0x2AAF);
   (str "precnapprox;", 0x2AB9); (str "precneqq;", 0x2AB5); (str "precnsim;", 0x22E8); (str "precsim;", 0x227E);
   (str "prime;", 0x2032); (str "primes;", 0x2119); (str "prnE;", 0x2AB5); (str "prnap;", 0x2AB9);
   (str "prnsim;", 0x22E8); (str "prod;", 0x220F); (str "profalar;", 0x232E); (str "profline;", 0x2312);
   (str "profsurf;", 0x2313); (str "prop;", 0x221D); (str "propto;", 0x221D); (str "prsim;", 0x227E);
   (str "prurel;", 0x22B0); (str "pscr;", 0x1D4C5); (str "psi;", 0x3C8); (str "puncsp;", 0x2008);
   (str "qfr;", 0x1D52E); (str "qint;", 0x2A0C); (str "qopf;", 0x1D562); (str "qprime;", 0x2057);
   (str "qscr;", 0x1D4C6); (str "quaternions;", 0x210D); (str "quatint;", 0x2A16); (str "quest;", 0x3F);
   (str "questeq;", 0x225F); (str "quot;", 0x22)].

Definition entities_r : list (bytes * Z) :=
  [(str "rAarr;", 0x21DB); (str "rArr;", 0x21D2); (str "rAtail;", 0x291C); (str "rBarr;", 0x290F);
   (str "rHar;", 0x2964); (str "racute;", 0x155); (str "radic;", 0x221A); (str "raemptyv;", 0x29B3);
   (str "rang;", 0x27E9); (str "rangd;", 0x2992); (str "range;", 0x29A5); (str "rangle;", 0x27E9);
   (str "raquo;", 0xBB); (str "rarr;", 0x2192); (str "rarrap;", 0x2975); (str "rarrb;", 0x21E5);
   (str "rarrbfs;", 0x2920); (str "rarrc;", 0x2933); (str "rarrfs;", 0x291E); (str "rarrhk;", 0x21AA);
   (str "rarrlp;", 0x21AC); (str "rarrpl;", 0x2945); (str "rarrsim;", 0x2974); (str "rarrtl;", 0x21A3);
   (str "rarrw;", 0x219D); (str "ratail;", 0x291A); (str "ratio;", 0x2236); (str "rationals;", 0x211A);
   (str "rbarr;", 0x290D); (str "rbbrk;", 0x2773); (str "rbrace;", 0x7D); (str "rbrack;", 0x5D);
   (str "rbrke;", 0x298C); (str "rbrksld;", 0x298E); (str "rbrkslu;", 0x2990); (str "rcaron;", 0x159);
   (str "rcedil;", 0x157); (str "rceil;", 0x2309); (str "rcub;", 0x7D); (str "rcy;", 0x440);
   (str "rdca;", 0x2937); (str "rdldhar;", 0x2969); (str "rdquo;", 0x201D); (str "rdquor;", 0x201D);
   (str "rdsh;", 0x21B3); (str "real;", 0x211C); (str "realine;", 0x211B); (str "realpart;", 0x211C);
   (str "reals;", 0x211D); (str "rect;", 0x25AD); (str "reg;", 0xAE); (str "rfisht;", 0x297D);
   (str "rfloor;", 0x230B); (str "rfr;", 0x1D52F); (str "rhard;", 0x21C1); (str "rharu;", 0x21C0);
   (str "rharul;", 0x296C); (str "rho;", 0x3C1); (str "rhov;", 0x3F1); (str "rightarrow;", 0x2192);
   (str "rightarrowtail;", 0x21A3); (str "rightharpoondown;", 0x21C1); (str "rightharpoonup;", 0x21C0);
   (str "rightleftarrows;", 0x21C4); (str "rightleftharpoons;", 0x21CC); (str "rightrightarrows;", 0x21C9);
   (str "rightsquigarrow;", 0x219D); (str "rightthreetimes;", 0x22CC); (str "ring;", 0x2DA);
   (str "risingdotseq;", 0x2253); (str "rlarr;", 0x21C4); (str "rlhar;", 0x21CC); (str "rlm;", 0x200F);
   (str "rmoust;", 0x23B1); (str "rmoustache;", 0x23B1); (str "rnmid;", 0x2AEE); (str "roang;", 0x27ED);
   (str "roarr;", 0x21FE); (str "robrk;", 0x27E7); (str "ropar;", 0x2986); (str "ropf;", 0x1D563);
   (str "roplus;", 0x2A2E); (str "rotimes;", 0x2A35); (str "rpar;", 0x29); (str "rpargt;", 0x2994);
   (str "rppolint;", 0x2A12); (str "rrarr;", 0x21C9); (str "rsaquo;", 0x203A); (str "rscr;", 0x1D4C7);
   (str "rsh;", 0x21B1); (str "rsqb;", 0x5D); (str "rsquo;", 0x2019); (str "rsquor;", 0x2019);
   (str "rthree;", 0x22CC); (str "rtimes;", 0x22CA); (str "rtri;", 0x25B9); (str "rtrie;", 0x22B5);
   (str "rtrif;", 0x25B8); (str "rtriltri;", 0x29CE); (str "ruluhar;", 0x2968); (str "rx;", 0x211E)].

Definition entities_s : list (bytes * Z) :=
  [(str "sacute;", 0x15B); (str "sbquo;", 0x201A); (str "sc;", 0x227B); (str "scE;", 0x2AB4);
   (str "scap;", 0x2AB8); (str "scaron;", 0x161); (str "sccue;", 0x227D); (str "sce;", 0x2AB0);
   (str "scedil;", 0x15F); (str "scirc;", 0x15D); (str "scnE;", 0x2AB6); (str "scnap;", 0x2ABA);
   (str "scnsim;", 0x22E9); (str "scpolint;", 0x2A13); (str "scsim;", 0x227F); (str "scy;", 0x441);
   (str "sdot;", 0x22C5); (str "sdotb;", 0x22A1); (str "sdote;", 0x2A66); (str "seArr;", 0x21D8);
   (str "searhk;", 0x2925); (str "searr;", 0x2198); (str "searrow;", 0x2198); (str "sect;", 0xA7);
   (str "semi;", 0x3B); (str "seswar;", 0x2929); (str "setminus;", 0x2216); (str "setmn;", 0x2216);
   (str "sext;", 0x2736); (str "sfr;", 0x1D530); (str "sfrown;", 0x2322); (str "sharp;", 0x266F);
   (str "shchcy;", 0x449); (str "shcy;", 0x448); (str "shortmid;", 0x2223); (str "shortparallel;", 0x2225);
   (str "shy;", 0xAD); (str "sigma;", 0x3C3); (str "sigmaf;", 0x3C2); (str "sigmav;", 0x3C2);
   (str "sim;", 0x223C); (str "simdot;", 0x2A6A); (str "sime;", 0x2243); (str "simeq;", 0x2243);
   (str "simg;", 0x2A9E); (str "simgE;", 0x2AA0); (str "siml;", 0x2A9D); (str "simlE;", 0x2A9F);
   (str "simne;", 0x2246); (str "simplus;", 0x2A24); (str "simrarr;", 0x2972); (str "slarr;", 0x2190);
   (str "smallsetminus;", 0x2216); (str "smashp;", 0x2A33); (str "smeparsl;", 0x29E4); (str "smid;", 0x2223);
   (str "smile;", 0x2323); (str "smt;", 0x2AAA); (str "smte;", 0x2AAC); (str "softcy;", 0x44C);
   (str "sol;", 0x2F); (str "solb;", 0x29C4); (str "solbar;", 0x233F); (str "sopf;", 0x1D564);
   (str "spades;", 0x2660); (str "spadesuit;", 0x2660); (str "spar;", 0x2225); (str "sqcap;", 0x2293);
   (str "sqcup;", 0x2294); (str "sqsub;", 0x228F); (str "sqsube;", 0x2291); (str "sqsubset;", 0x228F);
   (str "sqsubseteq;", 0x2291); (str "sqsup;", 0x2290); (str "sqsupe;", 0x2292); (str "sqsupset;", 0x2290);
   (str "sqsupseteq;", 0x2292); (str "squ;", 0x25A1); (str "square;", 0x25A1); (str "squarf;", 0x25AA);
   (str "squf;", 0x25AA); (str "srarr;", 0x2192); (str "sscr;", 0x1D4C8); (str "ssetmn;", 0x2216);
   (str "ssmile;", 0x2323); (str "sstarf;", 0x22C6); (str "star;", 0x2606); (str "starf;", 0x2605);
   (str "straightepsilon;", 0x3F5); (str "straightphi;", 0x3D5); (str "strns;", 0xAF); (str "sub;", 0x2282);
   (str "subE;", 0x2AC5); (str "subdot;", 0x2ABD); (str "sube;", 0x2286); (str "subedot;", 0x2AC3);
   (str "submult;", 0x2AC1); (str "subnE;", 0x2ACB); (str "subne;", 0x228A); (str "subplus;", 0x2ABF);
   (str "subrarr;", 0x2979); (str "subset;", 0x2282); (str "subseteq;", 0x2286); (str "subseteqq;", 0x2AC5);
   (str "subsetneq;", 0x228A); (str "subsetneqq;", 0x2ACB); (str "subsim;", 0x2AC7); (str "subsub;", 0x2AD5);
   (str "subsup;", 0x2AD3); (str "succ;", 0x227B); (str "succapprox;", 0x2AB8); (str "succcurlyeq;", 0x227D);
   (str "succeq;", 0x2AB0); (str "succnapprox;", 0x2ABA); (str "succneqq;", 0x2AB6); (str "succnsim;", 0x22E9);
   (str "succsim;", 0x227F); (str "sum;", 0x2211); (str "sung;", 0x266A); (str "sup;", 0x2283);
   (str "sup1;", 0xB9); (str "sup2;", 0xB2); (str "sup3;", 0xB3); (str "supE;", 0x2AC6);
   (str "supdot;", 0x2ABE); (str "supdsub;", 0x2AD8); (str "supe;", 0x2287); (str "supedot;", 0x2AC4);
   (str "suphsol;", 0x27C9); (str "suphsub;", 0x2AD7); (str "suplarr;", 0x297B); (str "supmult;", 0x2AC2);
   (str "supnE;", 0x2ACC); (str "supne;", 0x228B); (str "supplus;", 0x2AC0); (str "supset;", 0x2283);
   (str "supseteq;", 0x2287); (str "supseteqq;", 0x2AC6); (str "supsetneq;", 0x228B);
   (str "supsetneqq;", 0x2ACC); (str "supsim;", 0x2AC8); (str "supsub;", 0x2AD4); (str "supsup;", 0x2AD6);
   (str "swArr;", 0x21D9); (str "swarhk;", 0x2926); (str "swarr;", 0x2199); (str "swarrow;", 0x2199);
   (str "swnwar;", 0x292A); (str "szlig;", 0xDF)].

Definition entities_t_w : list (bytes * Z) :=
  [(str "target;", 0x2316); (str "tau;", 0x3C4); (str "tbrk;", 0x23B4); (str "tcaron;", 0x165);
   (str "tcedil;", 0x163); (str "tcy;", 0x442); (str "tdot;", 0x20DB); (str "telrec;", 0x2315);
   (str "tfr;", 0x1D531); (str "there4;", 0x2234); (str "therefore;", 0x2234); (str "theta;", 0x3B8);
   (str "thetasym;", 0x3D1); (str "thetav;", 0x3D1); (str "thickapprox;", 0x2248); (str "thicksim;", 0x223C);
   (str "thinsp;", 0x2009); (str "thkap;", 0x2248); (str "thksim;", 0x223C); (str "thorn;", 0xFE);
   (str "tilde;", 0x2DC); (str "times;", 0xD7); (str "timesb;", 0x22A0); (str "timesbar;", 0x2A31);
   (str "timesd;", 0x2A30); (str "tint;", 0x222D); (str "toea;", 0x2928); (str "top;", 0x22A4);
   (str "topbot;", 0x2336); (str "topcir;", 0x2AF1); (str "topf;", 0x1D565); (str "topfork;", 0x2ADA);
   (str "tosa;", 0x2929); (str "tprime;", 0x2034); (str "trade;", 0x2122); (str "triangle;", 0x25B5);
   (str "triangledown;", 0x25BF); (str "triangleleft;", 0x25C3); (str "trianglelefteq;", 0x22B4);
   (str "triangleq;", 0x225C); (str "triangleright;", 0x25B9); (str "trianglerighteq;", 0x22B5);
   (str "tridot;", 0x25EC); (str "trie;", 0x225C); (str "triminus;", 0x2A3A); (str "triplus;", 0x2A39);
   (str "trisb;", 0x29CD); (str "tritime;", 0x2A3B); (str "trpezium;", 0x23E2); (str "tscr;", 0x1D4C9);
   (str "tscy;", 0x446); (str "tshcy;", 0x45B); (str "tstrok;", 0x167); (str "twixt;", 0x226C);
   (str "twoheadleftarrow;", 0x219E); (str "twoheadrightarrow;", 0x21A0); (str "uArr;", 0x21D1);
   (str "uHar;", 0x2963); (str "uacute;", 0xFA); (str "uarr;", 0x2191); (str "ubrcy;", 0x45E);
   (str "ubreve;", 0x16D); (str "ucirc;", 0xFB); (str "ucy;", 0x443); (str "udarr;", 0x21C5);
   (str "udblac;", 0x171); (str "udhar;", 0x296E); (str "ufisht;", 0x297E); (str "ufr;", 0x1D532);
   (str "ugrave;", 0xF9); (str "uharl;", 0x21BF); (str "uharr;", 0x21BE); (str "uhblk;", 0x2580);
   (str "ulcorn;", 0x231C); (str "ulcorner;", 0x231C); (str "ulcrop;", 0x230F); (str "ultri;", 0x25F8);
   (str "umacr;", 0x16B); (str "uml;", 0xA8); (str "uogon;", 0x173); (str "uopf;", 0x1D566);
   (str "uparrow;", 0x2191); (str "updownarrow;", 0x2195); (str "upharpoonleft;", 0x21BF);
   (str "upharpoonright;", 0x21BE); (str "uplus;", 0x228E); (str "upsi;", 0x3C5); (str "upsih;", 0x3D2);
   (str "upsilon;", 0x3C5); (str "upuparrows;", 0x21C8); (str "urcorn;", 0x231D); (str "urcorner;", 0x231D);
   (str "urcrop;", 0x230E); (str "uring;", 0x16F); (str "urtri;", 0x25F9); (str "uscr;", 0x1D4CA);
   (str "utdot;", 0x22F0); (str "utilde;", 0x169); (str "utri;", 0x25B5); (str "utrif;", 0x25B4);
   (str "uuarr;", 0x21C8); (str "uuml;", 0xFC); (str "uwangle;", 0x29A7); (str "vArr;", 0x21D5);
   (str "vBar;", 0x2AE8); (str "vBarv;", 0x2AE9); (str "vDash;", 0x22A8); (str "vangrt;", 0x299C);
   (str "varepsilon;", 0x3F5); (str "varkappa;", 0x3F0); (str "varnothing;", 0x2205); (str "varphi;", 0x3D5);
   (str "varpi;", 0x3D6); (str "varpropto;", 0x221D); (str "varr;", 0x2195); (str "varrho;", 0x3F1);
   (str "varsigma;", 0x3C2); (str "vartheta;", 0x3D1); (str "vartriangleleft;", 0x22B2);
   (str "vartriangleright;", 0x22B3); (str "vcy;", 0x432); (str "vdash;", 0x22A2); (str "vee;", 0x2228);
   (str "veebar;", 0x22BB); (str "veeeq;", 0x225A); (str "vellip;", 0x22EE); (str "verbar;", 0x7C);
   (str "vert;", 0x7C); (str "vfr;", 0x1D533); (str "vltri;", 0x22B2); (str "vopf;", 0x1D567);
   (str "vprop;", 0x221D); (str "vrtri;", 0x22B3); (str "vscr;", 0x1D4CB); (str "vzigzag;", 0x299A);
   (str "wcirc;", 0x175); (str "wedbar;", 0x2A5F); (str "wedge;", 0x2227); (str "wedgeq;", 0x2259);
   (str "weierp;", 0x2118); (str "wfr;", 0x1D534); (str "wopf;", 0x1D568); (str "wp;", 0x2118);
   (str "wr;", 0x2240); (str "wreath;", 0x2240); (str "wscr;", 0x1D4CC)].

Definition entities_x_z : list (bytes * Z) :=
  [(str "xcap;", 0x22C2); (str "xcirc;", 0x25EF); (str "xcup;", 0x22C3); (str "xdtri;", 0x25BD);
   (str "xfr;", 0x1D535); (str "xhArr;", 0x27FA); (str "xharr;", 0x27F7); (str "xi;", 0x3BE);
   (str "xlArr;", 0x27F8); (str "xlarr;", 0x27F5); (str "xmap;", 0x27FC); (str "xnis;", 0x22FB);
   (str "xodot;", 0x2A00); (str "xopf;", 0x1D569); (str "xoplus;", 0x2A01); (str "xotime;", 0x2A02);
   (str "xrArr;", 0x27F9); (str "xrarr;", 0x27F6); (str "xscr;", 0x1D4CD); (str "xsqcup;", 0x2A06);
   (str "xuplus;", 0x2A04); (str "xutri;", 0x25B3); (str "xvee;", 0x22C1); (str "xwedge;", 0x22C0);
   (str "yacute;", 0xFD); (str "yacy;", 0x44F); (str "ycirc;", 0x177); (str "ycy;", 0x44B); (str "yen;", 0xA5);
   (str "yfr;", 0x1D536); (str "yicy;", 0x457); (str "yopf;", 0x1D56A); (str "yscr;", 0x1D4CE);
   (str "yucy;", 0x44E); (str "yuml;", 0xFF); (str "zacute;", 0x17A); (str "zcaron;", 0x17E);
   (str "zcy;", 0x437); (str "zdot;", 0x17C); (str "zeetrf;", 0x2128); (str "zeta;", 0x3B6);
   (str "zfr;", 0x1D537); (str "zhcy;", 0x436); (str "zigrarr;", 0x21DD); (str "zopf;", 0x1D56B);
   (str "zscr;", 0x1D4CF); (str "zwj;", 0x200D); (str "zwnj;", 0x200C)].

Definition legacy_entities : list (bytes * Z) :=
  [(str "AElig", 0xC6); (str "AMP", 0x26); (str "Aacute", 0xC1); (str "Acirc", 0xC2); (str "Agrave", 0xC0);
   (str "Aring", 0xC5); (str "Atilde", 0xC3); (str "Auml", 0xC4); (str "COPY", 0xA9); (str "Ccedil", 0xC7);
   (str "ETH", 0xD0); (str "Eacute", 0xC9); (str "Ecirc", 0xCA); (str "Egrave", 0xC8); (str "Euml", 0xCB);
   (str "GT", 0x3E); (str "Iacute", 0xCD); (str "Icirc", 0xCE); (str "Igrave", 0xCC); (str "Iuml", 0xCF);
   (str "LT", 0x3C); (str "Ntilde", 0xD1); (str "Oacute", 0xD3); (str "Ocirc", 0xD4); (str "Ograve", 0xD2);
   (str "Oslash", 0xD8); (str "Otilde", 0xD5); (str "Ouml", 0xD6); (str "QUOT", 0x22); (str "REG", 0xAE);
   (str "THORN", 0xDE); (str "Uacute", 0xDA); (str "Ucirc", 0xDB); (str "Ugrave", 0xD9); (str "Uuml", 0xDC);
   (str "Yacute", 0xDD); (str "aacute", 0xE1); (str "acirc", 0xE2); (str "acute", 0xB4); (str "aelig", 0xE6);
   (str "agrave", 0xE0); (str "amp", 0x26); (str "aring", 0xE5); (str "atilde", 0xE3); (str "auml", 0xE4);
   (str "brvbar", 0xA6); (str "ccedil", 0xE7); (str "cedil", 0xB8); (str "cent", 0xA2); (str "copy", 0xA9);
   (str "curren", 0xA4); (str "deg", 0xB0); (str "divide", 0xF7); (str "eacute", 0xE9); (str "ecirc", 0xEA);
   (str "egrave", 0xE8); (str "eth", 0xF0); (str "euml", 0xEB); (str "frac12", 0xBD); (str "frac14", 0xBC);
   (str "frac34", 0xBE); (str "gt", 0x3E); (str "iacute", 0xED); (str "icirc", 0xEE); (str "iexcl", 0xA1);
   (str "igrave", 0xEC); (str "iquest", 0xBF); (str "iuml", 0xEF); (str "laquo", 0xAB); (str "lt", 0x3C);
   (str "macr", 0xAF); (str "micro", 0xB5); (str "middot", 0xB7); (str "nbsp", 0xA0); (str "not", 0xAC);
   (str "ntilde", 0xF1); (str "oacute", 0xF3); (str "ocirc", 0xF4); (str "ograve", 0xF2); (str "ordf", 0xAA);
   (str "ordm", 0xBA); (str "oslash", 0xF8); (str "otilde", 0xF5); (str "ouml", 0xF6); (str "para", 0xB6);
   (str "plusmn", 0xB1); (str "pound", 0xA3); (str "quot", 0x22); (str "raquo", 0xBB); (str "reg", 0xAE);
   (str "sect", 0xA7); (str "shy", 0xAD); (str "sup1", 0xB9); (str "sup2", 0xB2); (str "sup3", 0xB3);
   (str "szlig", 0xDF); (str "thorn", 0xFE); (str "times", 0xD7); (str "uacute", 0xFA); (str "ucirc", 0xFB);
   (str "ugrave", 0xF9); (str "uml", 0xA8); (str "uuml", 0xFC); (str "yacute", 0xFD); (str "yen", 0xA5);
   (str "yuml", 0xFF)].

(** The map [entity]. *)
Definition entity : list (bytes * Z) :=
  concat [entities_A_E; entities_F_M; entities_N_R; entities_S_Z; entities_a; entities_b; entities_c; entities_d_e; entities_f_h; entities_i_k; entities_l; entities_m; entities_n; entities_o_q; entities_r; entities_s; entities_t_w; entities_x_z; legacy_entities].

(** References that stand for two code points. *)
Definition entity2 : list (bytes * (Z * Z)) :=
  [(str "NotEqualTilde;", (0x2242, 0x338)); (str "NotGreaterFullEqual;", (0x2267, 0x338));
   (str "NotGreaterGreater;", (0x226B, 0x338)); (str "NotGreaterSlantEqual;", (0x2A7E, 0x338));
   (str "NotHumpDownHump;", (0x224E, 0x338)); (str "NotHumpEqual;", (0x224F, 0x338));
   (str "NotLeftTriangleBar;", (0x29CF, 0x338)); (str "NotLessLess;", (0x226A, 0x338));
   (str "NotLessSlantEqual;", (0x2A7D, 0x338)); (str "NotNestedGreaterGreater;", (0x2AA2, 0x338));
   (str "NotNestedLessLess;", (0x2AA1, 0x338)); (str "NotPrecedesEqual;", (0x2AAF, 0x338));
   (str "NotRightTriangleBar;", (0x29D0, 0x338)); (str "NotSquareSubset;", (0x228F, 0x338));
   (str "NotSquareSuperset;", (0x2290, 0x338)); (str "NotSubset;", (0x2282, 0x20D2));
   (str "NotSucceedsEqual;", (0x2AB0, 0x338)); (str "NotSucceedsTilde;", (0x227F, 0x338));
   (str "NotSuperset;", (0x2283, 0x20D2)); (str "ThickSpace;", (0x205F, 0x200A)); (str "acE;", (0x223E, 0x333));
   (str "bne;", (0x3D, 0x20E5)); (str "bnequiv;", (0x2261, 0x20E5)); (str "caps;", (0x2229, 0xFE00));
   (str "cups;", (0x222A, 0xFE00)); (str "fjlig;", (0x66, 0x6A)); (str "gesl;", (0x22DB, 0xFE00));
   (str "gvertneqq;", (0x2269, 0xFE00)); (str "gvnE;", (0x2269, 0xFE00)); (str "lates;", (0x2AAD, 0xFE00));
   (str "lesg;", (0x22DA, 0xFE00)); (str "lvertneqq;", (0x2268, 0xFE00)); (str "lvnE;", (0x2268, 0xFE00));
   (str "nGg;", (0x22D9, 0x338)); (str "nGtv;", (0x226B, 0x338)); (str "nLl;", (0x22D8, 0x338));
   (str "nLtv;", (0x226A, 0x338)); (str "nang;", (0x2220, 0x20D2)); (str "napE;", (0x2A70, 0x338));
   (str "napid;", (0x224B, 0x338)); (str "nbump;", (0x224E, 0x338)); (str "nbumpe;", (0x224F, 0x338));
   (str "ncongdot;", (0x2A6D, 0x338)); (str "nedot;", (0x2250, 0x338)); (str "nesim;", (0x2242, 0x338));
   (str "ngE;", (0x2267, 0x338)); (str "ngeqq;", (0x2267, 0x338)); (str "ngeqslant;", (0x2A7E, 0x338));
   (str "nges;", (0x2A7E, 0x338)); (str "nlE;", (0x2266, 0x338)); (str "nleqq;", (0x2266, 0x338));
   (str "nleqslant;", (0x2A7D, 0x338)); (str "nles;", (0x2A7D, 0x338)); (str "notinE;", (0x22F9, 0x338));
   (str "notindot;", (0x22F5, 0x338)); (str "nparsl;", (0x2AFD, 0x20E5)); (str "npart;", (0x2202, 0x338));
   (str "npre;", (0x2AAF, 0x338)); (str "npreceq;", (0x2AAF, 0x338)); (str "nrarrc;", (0x2933, 0x338));
   (str "nrarrw;", (0x219D, 0x338)); (str "nsce;", (0x2AB0, 0x338)); (str "nsubE;", (0x2AC5, 0x338));
   (str "nsubset;", (0x2282, 0x20D2)); (str "nsubseteqq;", (0x2AC5, 0x338)); (str "nsucceq;", (0x2AB0, 0x338));
   (str "nsupE;", (0x2AC6, 0x338)); (str "nsupset;", (0x2283, 0x20D2)); (str "nsupseteqq;", (0x2AC6, 0x338));
   (str "nvap;", (0x224D, 0x20D2)); (str "nvge;", (0x2265, 0x20D2)); (str "nvgt;", (0x3E, 0x20D2));
   (str "nvle;", (0x2264, 0x20D2)); (str "nvlt;", (0x3C, 0x20D2)); (str "nvltrie;", (0x22B4, 0x20D2));
   (str "nvrtrie;", (0x22B5, 0x20D2)); (str "nvsim;", (0x223C, 0x20D2)); (str "race;", (0x223D, 0x331));
   (str "smtes;", (0x2AAC, 0xFE00)); (str "sqcaps;", (0x2293, 0xFE00)); (str "sqcups;", (0x2294, 0xFE00));
   (str "varsubsetneq;", (0x228A, 0xFE00)); (str "varsubsetneqq;", (0x2ACB, 0xFE00));
   (str "varsupsetneq;", (0x228B, 0xFE00)); (str "varsupsetneqq;", (0x2ACC, 0xFE00));
   (str "vnsub;", (0x2282, 0x20D2)); (str "vnsup;", (0x2283, 0x20D2)); (str "vsubnE;", (0x2ACB, 0xFE00));
   (str "vsubne;", (0x228A, 0xFE00)); (str "vsupnE;", (0x2ACC, 0xFE00)); (str "vsupne;", (0x228B, 0xFE00))].
