(* ===== verification/HtmlEscape.v ===== *)
(** * Package html: escaping

    Models src/html/escape.go.  [unescape] works in place, as the code does; the reference
    definition [unescaped] builds a new text. *)

From S2P Require Import Prelude Utf8 HtmlEntity.

Definition amp : Z := 38.
Definition semicolon : Z := 59.

Definition entityMap : gmap bytes Z := list_to_map entity.
Definition entity2Map : gmap bytes (Z * Z) := list_to_map entity2.

Definition replacementTable : list Z :=
  [0x20AC; 0x81; 0x201A; 0x192; 0x201E; 0x2026; 0x2020; 0x2021; 0x2C6; 0x2030; 0x160; 0x2039; 0x152; 0x8D; 0x17D; 0x8F;
   0x90; 0x2018; 0x2019; 0x201C; 0x201D; 0x2022; 0x2013; 0x2014; 0x2DC; 0x2122; 0x161; 0x203A; 0x153; 0x9D; 0x17E; 0x178].

(** ** Character references *)

(** A rune is an int32 and wraps. *)
Definition digit (hex : bool) (c x : Z) : option Z :=
  if hex then
    if (48 <=? c) && (c <=? 57) then Some (swrap 32 (16 * x + c - 48))
    else if (97 <=? c) && (c <=? 102) then Some (swrap 32 (16 * x + c - 97 + 10))
    else if (65 <=? c) && (c <=? 70) then Some (swrap 32 (16 * x + c - 65 + 10))
    else None
  else if (48 <=? c) && (c <=? 57) then Some (swrap 32 (10 * x + c - 48))
  else None.

(** The digits from the index [i] on, and a semicolon. *)
Fixpoint digits (hex : bool) (s : bytes) (i : nat) (x : Z) : nat * Z :=
  match s with
  | [] => (i, x)
  | c :: s =>
      match digit hex c x with
      | Some x => digits hex s (S i) x
      | None => (if c =? semicolon then S i else i, x)
      end
  end.

Definition isAlnum (c : Z) : bool := (97 <=? c) && (c <=? 122) || (65 <=? c) && (c <=? 90) || (48 <=? c) && (c <=? 57).

(** The end of the name that starts at the index [i]. *)
Fixpoint nameEnd (s : bytes) (i : nat) : nat :=
  match s with
  | [] => i
  | c :: s => if isAlnum c then nameEnd s (S i) else if c =? semicolon then S i else i
  end.

(** The longest prefix of [name], of [j] bytes or fewer, that is an entity. *)
Fixpoint legacy (name : bytes) (j : nat) : option (Z * nat) :=
  match j with
  | O | 1%nat => None
  | S j' => match entityMap !! take j name with Some x => Some (x, j) | None => legacy name j' end
  end.

(** What [unescapeEntity] finds at the start of [s]: code points to write, or none to
    copy, and the number of bytes that they stand for. *)
Definition reference (s : bytes) (attribute : bool) : option (list Z * nat) :=
  if (length s <=? 1)%nat then Some ([], 1%nat)
  else
    c ← s !! 1%nat;
    if c =? 35 then
      if (length s <=? 3)%nat then Some ([], 1%nat)
      else
        c ← s !! 2%nat;
        let hex := (c =? 120) || (c =? 88) in
        let i := if hex then 3%nat else 2%nat in
        let '(i, x) := digits hex (drop i s) i 0 in
        if (i <=? 3)%nat then Some ([], 1%nat)
        else
          x ← (if (128 <=? x) && (x <=? 159) then replacementTable !! Z.to_nat (x - 128)
               else if (x =? 0) || (55296 <=? x) && (x <=? 57343) || (x >? 1114111) then Some RuneError
               else Some x);
          Some ([x], i)
    else
      let i := nameEnd (drop 1 s) 1 in
      let entityName := take (i - 1) (drop 1 s) in
      match entityName with
      | [] => Some ([], i)
      | _ =>
          if attribute && negb (List.last entityName 0 =? semicolon) && (i <? length s)%nat && bool_decide (s !! i = Some 61) then Some ([], i)
          else
            match entityMap !! entityName, entity2Map !! entityName with
            | Some x, _ => Some ([x], i)
            | None, Some (x, y) => Some ([x; y], i)
            | None, None =>
                match (if attribute then None else legacy entityName (Nat.min (length entityName - 1) longestEntityWithoutSemicolon)) with
                | Some (x, j) => Some ([x], (j + 1)%nat)
                | None => Some ([], i)
                end
            end
      end.

(** ** In place *)

(** [copy(b[dst:], xs)], and [utf8.EncodeRune], which panics when there is no room. *)
Definition overwrite (b : bytes) (dst : nat) (xs : bytes) : option bytes :=
  if (dst + length xs <=? length b)%nat then Some (take dst b ++ xs ++ drop (dst + length xs) b) else None.

Definition write_runes (b : bytes) (dst : nat) (xs : list Z) : option (bytes * nat) :=
  fold_left (fun st x => '(b, dst) ← st; b ← overwrite b dst (AppendRune x); Some (b, (dst + length (AppendRune x))%nat)) xs (Some (b, dst)).

Definition unescapeEntity (b : bytes) (dst src : nat) (attribute : bool) : option (bytes * nat * nat) :=
  '(xs, n) ← reference (drop src b) attribute;
  match xs with
  | [] => b ← overwrite b dst (take n (drop src b)); Some (b, (dst + n)%nat, (src + n)%nat)
  | _ => '(b, dst) ← write_runes b dst xs; Some (b, dst, (src + n)%nat)
  end.

(** Every round takes a byte of the source. *)
Fixpoint unescapeLoop (fuel : nat) (b : bytes) (dst src : nat) (attribute : bool) : option bytes :=
  match b !! src with
  | None => Some (take dst b)
  | Some c =>
      match fuel with
      | O => None
      | S fuel =>
          if c =? amp then '(b, dst, src) ← unescapeEntity b dst src attribute; unescapeLoop fuel b dst src attribute
          else b ← overwrite b dst [c]; unescapeLoop fuel b (S dst) (S src) attribute
      end
  end.

(** [i] is the index of the first byte of [rest]. *)
Fixpoint unescapeFrom (b rest : bytes) (i : nat) (attribute : bool) : option bytes :=
  match rest with
  | [] => Some b
  | c :: rest =>
      if c =? amp then '(b', dst, src) ← unescapeEntity b i i attribute; unescapeLoop (length b) b' dst src attribute
      else unescapeFrom b rest (S i) attribute
  end.

Definition unescape (b : bytes) (attribute : bool) : option bytes := unescapeFrom b b 0 attribute.

Definition UnescapeString (s : bytes) : option bytes :=
  if bool_decide (amp ∈ runes s) then unescape s false else Some s.

(** ** Escaping *)
Definition escapedChars : bytes := [38; 39; 60; 62; 34; 13].

(** [None] is the panic. *)
Definition escapeChar (c : Z) : option bytes :=
  if c =? 38 then Some (str "&amp;")
  else if c =? 39 then Some (str "&#39;")
  else if c =? 60 then Some (str "&lt;")
  else if c =? 62 then Some (str "&gt;")
  else if c =? 34 then Some (str "&#34;")
  else if c =? 13 then Some (str "&#13;")
  else None.

(** [strings.IndexAny] for ASCII characters. *)
Fixpoint IndexAny (s chars : bytes) : option nat :=
  match s with
  | [] => None
  | c :: s => if bool_decide (c ∈ chars) then Some 0%nat else S <$> IndexAny s chars
  end.

(** What is written to a writer that takes everything, as [bytes.Buffer] does; every
    round drops a byte. *)
Fixpoint escape (fuel : nat) (s : bytes) : option bytes :=
  match IndexAny s escapedChars with
  | None => Some s
  | Some i =>
      match fuel with
      | O => None
      | S fuel => c ← s !! i; esc ← escapeChar c; rest ← escape fuel (drop (S i) s); Some (take i s ++ esc ++ rest)
      end
  end.

Definition EscapeString (s : bytes) : option bytes :=
  match IndexAny s escapedChars with None => Some s | Some _ => escape (length s) s end.

(** The text of the comment; without the number sign [xE1] is no reference. *)
Example unescape_doc : UnescapeString (str "&aacute;&#225;&#xE1;&xE1;&copyx") = Some (utf8 [225; 225; 225] ++ str "&xE1;" ++ utf8 [169; 120]).
Proof. vm_compute. reflexivity. Qed.

(** No digit: the standard keeps the text.  One digit and no semicolon: the standard reads a tab. *)
Example unescape_no_digit : UnescapeString (str "&#x;") = Some (utf8 [RuneError]) /\ UnescapeString (str "&#9x") = Some (str "&#9x").
Proof. split; vm_compute; reflexivity. Qed.

(** A number beyond 32 bits wraps to a letter. *)
Example unescape_wraps : UnescapeString (str "&#4294967361;") = Some (str "A").
Proof. vm_compute. reflexivity. Qed.
