(* ===== verification/HtmlTrip.v ===== *)
(** * Package html: escaping in place and back

    [unescape] overwrites its input and yet gives what a fresh text would be, since no
    reference is shorter than the characters it stands for. *)

From S2P Require Import Prelude Utf8 HtmlEntity HtmlEscape.

(** ** The table *)
Definition fits (name : bytes) (xs : list Z) : bool := (length (utf8 xs) <=? S (length name))%nat.

Lemma entity_fits : forallb (fun '(name, x) => fits name [x] && negb (x =? 0)) entity = true.
Proof. vm_compute. reflexivity. Qed.

Lemma entity2_fits : forallb (fun '(name, (x, y)) => fits name [x; y] && negb (x =? 0)) entity2 = true.
Proof. vm_compute. reflexivity. Qed.

(** No reference of [entity] is shorter than its character. *)
Lemma entityMap_fits name x : entityMap !! name = Some x -> (length (utf8 [x]) <= S (length name))%nat.
Proof.
  intros H. apply elem_of_list_to_map_2 in H. pose proof (proj1 (forallb_forall _ _) entity_fits (name, x)) as Hf. cbn beta iota in Hf.
  specialize (Hf ltac:(by apply list_elem_of_In)). apply andb_true_iff in Hf as [Hf _]. by apply Nat.leb_le in Hf.
Qed.

Lemma entity2Map_fits name x y : entity2Map !! name = Some (x, y) -> (length (utf8 [x; y]) <= S (length name))%nat.
Proof.
  intros H. apply elem_of_list_to_map_2 in H. pose proof (proj1 (forallb_forall _ _) entity2_fits (name, (x, y))) as Hf. cbn beta iota in Hf.
  specialize (Hf ltac:(by apply list_elem_of_In)). apply andb_true_iff in Hf as [Hf _]. by apply Nat.leb_le in Hf.
Qed.

(** ** References *)
Lemma AppendRune_le4 r : (length (AppendRune r) <= 4)%nat.
Proof. unfold AppendRune. repeat case_match; simpl; lia. Qed.

Lemma utf8_one x : utf8 [x] = AppendRune x.
Proof. unfold utf8. cbn [map concat]. apply app_nil_r. Qed.

Lemma digits_bounds hex s : forall i x, (i <= (digits hex s i x).1 <= i + length s)%nat.
Proof.
  induction s as [|c s IH]; intros i x; cbn [digits]; [cbn; lia|]. destruct (digit hex c x) as [y|]; [specialize (IH (S i) y); cbn [length]; lia|].
  destruct (c =? semicolon); cbn [fst length]; lia.
Qed.

Lemma nameEnd_bounds s : forall i, (i <= nameEnd s i <= i + length s)%nat.
Proof.
  induction s as [|c s IH]; intros i; cbn [nameEnd]; [cbn; lia|]. specialize (IH (S i)). destruct (isAlnum c); [cbn [length]; lia|].
  destruct (c =? semicolon); cbn [length]; lia.
Qed.

Lemma legacy_spec name j x k : legacy name j = Some (x, k) -> (1 < k <= j)%nat /\ entityMap !! take k name = Some x.
Proof.
  induction j as [|[|j] IH]; [done..|]. cbn [legacy]. destruct (entityMap !! take (S (S j)) name) as [y|] eqn:E; [intros [= <- <-]; split; [lia|done]|].
  intros H. apply IH in H as [H1 H2]. split; [lia|done].
Qed.

(** Every text has a reference or bytes to copy, and the characters fit into its place. *)
Lemma reference_fits c s attribute : exists xs n, reference (c :: s) attribute = Some (xs, n) /\ (1 <= n <= S (length s))%nat /\ (length (utf8 xs) <= n)%nat.
Proof.
  assert (forall n, (1 <= n <= S (length s))%nat -> exists xs m, Some (([] : list Z), n) = Some (xs, m) /\ (1 <= m <= S (length s))%nat /\ (length (utf8 xs) <= m)%nat) as Hcopy
    by (intros n Hn; exists [], n; cbn; repeat split; lia).
  unfold reference. change (length (c :: s)) with (S (length s)). destruct (Nat.leb_spec (S (length s)) 1); [apply Hcopy; lia|].
  destruct s as [|c1 s]; [cbn in *; lia|]. cbn [lookup list_lookup mbind option_bind]. destruct (c1 =? 35).
  - destruct (Nat.leb_spec (S (length (c1 :: s))) 3) as [|H3]; [apply Hcopy; lia|]. destruct s as [|c2 s]; [cbn in *; lia|]. cbn [lookup list_lookup mbind option_bind].
    set (hex := (c2 =? 120) || (c2 =? 88)). set (i0 := if hex then 3%nat else 2%nat). assert (i0 = 2 \/ i0 = 3)%nat as Hi0 by (unfold i0; destruct hex; lia).
    pose proof (digits_bounds hex (drop i0 (c :: c1 :: c2 :: s)) i0 0) as Hd. rewrite length_drop in Hd. cbn [length] in *.
    destruct (digits hex _ i0 0) as [i x]. cbn [fst] in Hd. destruct (Nat.leb_spec i 3); [apply Hcopy; lia|].
    assert (exists y, (if (128 <=? x) && (x <=? 159) then replacementTable !! Z.to_nat (x - 128)
      else if (x =? 0) || (55296 <=? x) && (x <=? 57343) || (x >? 1114111) then Some RuneError else Some x) = Some y) as [y ->].
    { destruct ((128 <=? x) && (x <=? 159)) eqn:E; [|case_match; by eexists]. apply lookup_lt_is_Some_2. apply andb_true_iff in E as [E1 E2].
      apply Z.leb_le in E1, E2. change (length replacementTable) with 32%nat. lia. }
    cbn [mbind option_bind]. exists [y], i. split; [done|]. split; [lia|]. rewrite utf8_one. pose proof (AppendRune_le4 y). lia.
  - set (s1 := c1 :: s) in *. change (drop 1 (c :: s1)) with s1. set (i := nameEnd s1 1). pose proof (nameEnd_bounds s1 1) as Hi. fold i in Hi.
    set (name := take (i - 1) s1). assert (length name = i - 1)%nat as Hname by (unfold name; rewrite length_take; lia).
    destruct name as [|b name'] eqn:En; [apply Hcopy; lia|]. rewrite <- En in *. clear b name' En. set (skip := attribute && _ && _ && _). destruct skip; [apply Hcopy; lia|].
    destruct (entityMap !! name) as [x|] eqn:E1.
    { exists [x], i. apply entityMap_fits in E1. split; [done|]. split; lia. }
    destruct (entity2Map !! name) as [[x y]|] eqn:E2.
    { exists [x; y], i. apply entity2Map_fits in E2. split; [done|]. split; lia. }
    destruct (if attribute then None else legacy name (Nat.min (length name - 1) longestEntityWithoutSemicolon)) as [[x j]|] eqn:El; [|apply Hcopy; lia].
    destruct attribute; [done|]. apply legacy_spec in El as [Hj E3]. apply entityMap_fits in E3. rewrite length_take in E3.
    exists [x], (j + 1)%nat. split; [done|]. lia.
Qed.

(** ** In place *)

(** The reference definition: every character reference by what it stands for. *)
Fixpoint unescaped (fuel : nat) (s : bytes) (attribute : bool) : bytes :=
  match fuel, s with
  | S fuel, c :: s' =>
      if c =? amp then
        match reference s attribute with
        | Some (xs, n) => match xs with [] => take n s | _ => utf8 xs end ++ unescaped fuel (drop n s) attribute
        | None => []
        end
      else c :: unescaped fuel s' attribute
  | _, _ => []
  end.

Lemma overwrite_at out old rest xs : length xs = length old -> overwrite (out ++ old ++ rest) (length out) xs = Some (out ++ xs ++ rest).
Proof.
  intros H. unfold overwrite. rewrite !length_app, H. rewrite (proj2 (Nat.leb_le _ _)) by lia. rewrite take_app_length. do 3 f_equal.
  rewrite app_assoc. apply drop_app_length'. rewrite length_app. lia.
Qed.

Lemma overwrite_app out room xs : (length xs <= length room)%nat -> overwrite (out ++ room) (length out) xs = Some ((out ++ xs) ++ drop (length xs) room).
Proof.
  intros H. rewrite <- (take_drop (length xs) room) at 1. rewrite overwrite_at by (rewrite length_take; lia). by rewrite app_assoc.
Qed.

Lemma write_runes_app xs : forall out room, (length (utf8 xs) <= length room)%nat ->
  write_runes (out ++ room) (length out) xs = Some ((out ++ utf8 xs) ++ drop (length (utf8 xs)) room, length (out ++ utf8 xs)).
Proof.
  unfold write_runes. induction xs as [|x xs IH]; intros out room H; cbn [fold_left]; [cbn; by rewrite !app_nil_r, drop_0|].
  cbn [utf8 map concat] in *. change (concat (map AppendRune xs)) with (utf8 xs) in *. rewrite length_app in H. cbn [mbind option_bind].
  rewrite overwrite_app by lia. cbn [mbind option_bind]. rewrite <- length_app, IH by (rewrite length_drop; lia). by rewrite drop_drop, <- length_app, <- !app_assoc.
Qed.

(** What was read so far is [out], as long as it got, then bytes that were read already,
    then the rest. *)
Lemma unescapeLoop_spec attribute fuel : forall out gap rest, (length rest <= fuel)%nat ->
  unescapeLoop fuel (out ++ gap ++ rest) (length out) (length (out ++ gap)) attribute = Some (out ++ unescaped fuel rest attribute).
Proof.
  induction fuel as [|fuel IH]; intros out gap rest Hf; cbn [unescapeLoop unescaped]; rewrite app_assoc.
  { destruct rest; [|cbn in Hf; lia]. rewrite lookup_app_r, Nat.sub_diag by lia. cbn [lookup list_lookup]. by rewrite !app_nil_r, take_app_length. }
  rewrite lookup_app_r, Nat.sub_diag by lia. destruct rest as [|c rest].
  { cbn [lookup list_lookup]. by rewrite !app_nil_r, take_app_length. }
  cbn [lookup list_lookup]. destruct (c =? amp).
  - unfold unescapeEntity. rewrite drop_app_length. destruct (reference_fits c rest attribute) as (xs & n & E & Hn & Hl). rewrite E. cbn [mbind option_bind].
    assert (forall new, (length new <= n)%nat ->
      unescapeLoop fuel ((out ++ new) ++ drop (length new) (gap ++ c :: rest)) (length (out ++ new)) (length (out ++ gap) + n) attribute =
      Some (out ++ new ++ unescaped fuel (drop n (c :: rest)) attribute)) as Hnext.
    { intros new Hnew. rewrite <- (take_drop (length gap + n - length new) (drop (length new) (gap ++ c :: rest))).
      rewrite drop_drop. assert (length new + (length gap + n - length new) = length gap + n)%nat as -> by lia.
      assert (drop (length gap + n) (gap ++ c :: rest) = drop n (c :: rest)) as -> by (rewrite <- drop_drop, drop_app_length; done).
      set (gap' := take _ _). assert (length gap' = length gap + n - length new)%nat as Hg by (unfold gap'; rewrite length_take, length_drop, length_app; cbn [length]; lia).
      assert (length (out ++ gap) + n = length ((out ++ new) ++ gap'))%nat as -> by (rewrite !length_app, Hg; lia).
      rewrite IH by (rewrite length_drop; cbn [length] in *; lia). by rewrite <- app_assoc. }
    rewrite <- app_assoc. destruct xs as [|x xs].
    + rewrite overwrite_app by (rewrite length_app, length_take; lia). cbn [mbind option_bind].
      assert (length (take n (c :: rest)) = n) as Ht by (rewrite length_take; cbn [length]; lia).
      specialize (Hnext (take n (c :: rest)) ltac:(lia)). rewrite (length_app out (take n (c :: rest))), !Ht in Hnext. rewrite Ht. exact Hnext.
    + rewrite write_runes_app by (rewrite length_app; cbn [length]; lia). cbn [mbind option_bind]. by apply Hnext.
  - rewrite <- app_assoc, overwrite_app by (rewrite length_app; cbn [length]; lia). cbn [mbind option_bind length].
    destruct gap as [|g gap].
    + cbn [app drop]. rewrite drop_0, !app_nil_r. specialize (IH (out ++ [c]) [] rest ltac:(cbn [length] in Hf; lia)). rewrite app_nil_r, length_app in IH. cbn [length app] in IH.
      rewrite Nat.add_1_r in IH. rewrite IH. by rewrite <- app_assoc.
    + cbn [app drop]. rewrite drop_0. specialize (IH (out ++ [c]) (gap ++ [c]) rest ltac:(cbn [length] in Hf; lia)). rewrite <- (app_assoc gap), !length_app in IH. cbn [length app] in IH.
      rewrite length_app. cbn [length]. replace (length out + 1)%nat with (S (length out)) in IH by lia.
      replace (S (length out) + (length gap + 1))%nat with (S (length out + S (length gap))) in IH by lia. rewrite IH. by rewrite <- app_assoc.
Qed.

Lemma unescaped_plain s fuel attribute pre : (length (pre ++ s) <= fuel)%nat -> amp ∉ pre ->
  exists fuel', (length s <= fuel')%nat /\ unescaped fuel (pre ++ s) attribute = pre ++ unescaped fuel' s attribute.
Proof.
  revert fuel. induction pre as [|c pre IH]; intros fuel Hf Hp; [by exists fuel|]. apply not_elem_of_cons in Hp as [H1 H2].
  destruct fuel as [|fuel]; [cbn in Hf; lia|]. destruct (IH fuel) as (fuel' & H3 & H4); [cbn in Hf; lia|done|].
  exists fuel'. split; [done|]. cbn [app unescaped]. destruct (Z.eqb_spec c amp); [congruence|]. by rewrite H4.
Qed.

Lemma unescaped_fuel attribute : forall f1 f2 s, (length s <= f1)%nat -> (length s <= f2)%nat -> unescaped f1 s attribute = unescaped f2 s attribute.
Proof.
  induction f1 as [|f1 IH]; intros f2 s H1 H2; [destruct s; [by destruct f2|cbn in H1; lia]|]. destruct f2 as [|f2]; [destruct s; [done|cbn in H2; lia]|].
  destruct s as [|c s]; [done|]. cbn [unescaped length] in *. destruct (c =? amp); [|f_equal; apply IH; lia].
  destruct (reference_fits c s attribute) as (xs & n & -> & Hn & _). f_equal. apply IH; rewrite length_drop; cbn [length]; lia.
Qed.

Lemma unescapeFrom_spec attribute rest : forall pre, amp ∉ pre ->
  unescapeFrom (pre ++ rest) rest (length pre) attribute = Some (unescaped (length (pre ++ rest)) (pre ++ rest) attribute).
Proof.
  induction rest as [|c rest IH]; intros pre Hp; cbn [unescapeFrom].
  - destruct (unescaped_plain [] (length (pre ++ [])) attribute pre) as (fuel & _ & E); [lia|done|]. rewrite E. by destruct fuel.
  - destruct (Z.eqb_spec c amp) as [->|Hc].
    + destruct (unescaped_plain (amp :: rest) (length (pre ++ amp :: rest)) attribute pre) as (fuel & Hf & E); [lia|done|]. rewrite E.
      pose proof (unescapeLoop_spec attribute (S (length (pre ++ amp :: rest))) pre [] (amp :: rest)) as H. rewrite app_nil_r in H. cbn [app] in H.
      specialize (H ltac:(rewrite length_app; lia)). cbn [unescapeLoop] in H. rewrite lookup_app_r, Nat.sub_diag in H by lia. cbn [lookup list_lookup] in H.
      change (amp =? amp) with true in H. rewrite H. f_equal. f_equal. apply unescaped_fuel; [rewrite length_app; lia|done].
    + specialize (IH (pre ++ [c])). rewrite <- app_assoc, length_app, Nat.add_1_r in IH. apply IH. apply not_elem_of_app. split; [done|]. by apply not_elem_of_cons; split; [congruence|apply not_elem_of_nil].
Qed.

(** C19: [unescape], which overwrites the bytes that it is still reading with the characters of the references it has read, never runs out of room or into bytes that are not read yet: it gives the text in which each character reference, as found in the original text, is replaced by what it stands for. *)
Theorem unescape_in_place b attribute : unescape b attribute = Some (unescaped (length b) b attribute).
Proof. unfold unescape. apply (unescapeFrom_spec attribute b []), not_elem_of_nil. Qed.

(** ** Back *)

(** An ASCII byte of a string is one of its code points. *)
Lemma DecodeRune_high b s : 128 <= b -> Forall (fun x => 128 <= x) (take (DecodeRune (b :: s)).2 (b :: s)).
Proof.
  intros Hb. unfold DecodeRune. rewrite (proj2 (Z.ltb_ge b 128)) by done. unfold within.
  repeat case_match; cbn [snd take firstn]; repeat apply Forall_cons_2; try apply Forall_nil_2; try lia.
Qed.

Lemma DecodeRune_low b s : b < 128 -> DecodeRune (b :: s) = (b, 1%nat).
Proof. intros H. unfold DecodeRune. by rewrite (proj2 (Z.ltb_lt b 128)). Qed.

Lemma DecodeRune_size b s : (1 <= (DecodeRune (b :: s)).2)%nat.
Proof. unfold DecodeRune. repeat case_match; simpl; lia. Qed.

Lemma runes_byte c s : c < 128 -> c ∈ s -> c ∈ runes s.
Proof.
  intros Hc. unfold runes. assert (forall fuel s, (length s <= fuel)%nat -> c ∈ s -> c ∈ range_loop fuel s) as H; [|by apply H].
  induction fuel as [|fuel IH]; intros t Hf Hin; (destruct t as [|b t]; [by apply not_elem_of_nil in Hin|]); [cbn in Hf; lia|]. cbn [range_loop].
  destruct (Z.lt_ge_cases b 128) as [Hb|Hb].
  - rewrite DecodeRune_low by done. cbn [drop]. rewrite drop_0. apply elem_of_cons in Hin as [->|Hin]; [left|]. right. apply IH; [cbn in Hf; lia|done].
  - pose proof (DecodeRune_high b t Hb) as Hh. pose proof (DecodeRune_size b t) as Hs. destruct (DecodeRune (b :: t)) as [r n]. cbn [snd] in *. right.
    apply IH; [rewrite length_drop; cbn [length] in *; lia|]. rewrite <- (take_drop n (b :: t)) in Hin. apply elem_of_app in Hin as [Hin|Hin]; [|done].
    pose proof (proj1 (Forall_forall _ _) Hh c Hin) as H. cbn in H. lia.
Qed.

Definition escaped (c : Z) : bytes := default [c] (escapeChar c).

Lemma escapeChar_special c : c ∈ escapedChars -> is_Some (escapeChar c).
Proof. unfold escapedChars. rewrite !elem_of_cons. intros H. destruct H as [->|[->|[->|[->|[->|[->|H]]]]]]; try (by eexists). by apply not_elem_of_nil in H. Qed.

Lemma escaped_plain c : c ∉ escapedChars -> escaped c = [c].
Proof.
  unfold escapedChars. rewrite !not_elem_of_cons. intros (H1 & H2 & H3 & H4 & H5 & H6 & _). unfold escaped, escapeChar.
  by rewrite !(proj2 (Z.eqb_neq _ _)) by done.
Qed.

Lemma IndexAny_None s chars : IndexAny s chars = None -> Forall (fun c => c ∉ chars) s.
Proof.
  induction s as [|c s IH]; cbn [IndexAny]; [done|]. case_bool_decide as H; [done|]. destruct (IndexAny s chars); [done|]. intros _. constructor; [done|by apply IH].
Qed.

Lemma IndexAny_Some s chars i : IndexAny s chars = Some i -> exists c, s = take i s ++ c :: drop (S i) s /\ s !! i = Some c /\ c ∈ chars /\ Forall (fun c => c ∉ chars) (take i s).
Proof.
  revert i. induction s as [|c s IH]; intros i; cbn [IndexAny]; [done|]. case_bool_decide as H.
  - intros [= <-]. exists c. cbn [take drop app lookup list_lookup]. rewrite ?drop_0. split; [done|]. split; [done|]. by split.
  - destruct (IndexAny s chars) as [j|] eqn:E; [|done]. intros [= <-]. destruct (IH j eq_refl) as (d & E1 & E2 & E3 & E4). exists d. cbn [take drop app lookup list_lookup]. rewrite <- E1.
    split; [done|]. split; [done|]. split; [done|]. by constructor.
Qed.

Lemma escaped_plains s : Forall (fun c => c ∉ escapedChars) s -> concat (map escaped s) = s.
Proof. induction 1 as [|c s Hc Hs IH]; [done|]. cbn [map concat]. by rewrite escaped_plain, IH. Qed.

Lemma escape_spec fuel : forall s, (length s <= fuel)%nat -> escape fuel s = Some (concat (map escaped s)).
Proof.
  induction fuel as [|fuel IH]; intros s Hf; cbn [escape]; (destruct (IndexAny s escapedChars) as [i|] eqn:E; [|by rewrite escaped_plains by (by apply IndexAny_None)]);
    apply IndexAny_Some in E as (c & E1 & E2 & E3 & E4).
  - apply (f_equal length) in E1. rewrite length_app in E1. cbn [length] in E1. lia.
  - rewrite E2. cbn [mbind option_bind]. destruct (escapeChar_special c E3) as [esc Ee]. rewrite Ee. cbn [mbind option_bind].
    rewrite IH by (apply (f_equal length) in E1; rewrite length_app in E1; cbn [length] in E1; lia). cbn [mbind option_bind].
    f_equal. transitivity (concat (map escaped (take i s ++ c :: drop (S i) s))); [|by rewrite <- E1].
    rewrite map_app, concat_app, (escaped_plains (take i s)) by done. cbn [map concat]. unfold escaped at 2. by rewrite Ee.
Qed.

Lemma EscapeString_spec s : EscapeString s = Some (concat (map escaped s)).
Proof.
  unfold EscapeString. destruct (IndexAny s escapedChars) eqn:E; [by apply escape_spec|]. by rewrite escaped_plains by (by apply IndexAny_None).
Qed.

Example escaped_apostrophe : escaped 39 = str "&#39;".
Proof. reflexivity. Qed.

(** The references that are written. *)
Lemma reference_escaped c t attribute : c ∈ escapedChars -> escaped c = amp :: tail (escaped c) /\ reference (escaped c ++ t) attribute = Some ([c], length (escaped c)) /\ utf8 [c] = [c].
Proof.
  unfold escapedChars. rewrite !elem_of_cons. intros H. destruct H as [->|[->|[->|[->|[->|[->|H]]]]]]; [split; [reflexivity|]; split; [destruct attribute; vm_compute; reflexivity|reflexivity]..|].
  by apply not_elem_of_nil in H.
Qed.

Lemma unescaped_escaped attribute s : forall fuel, (length (concat (map escaped s)) <= fuel)%nat -> unescaped fuel (concat (map escaped s)) attribute = s.
Proof.
  induction s as [|c s IH]; intros fuel Hf; [by destruct fuel|]. cbn [map concat] in *. rewrite length_app in Hf. destruct (decide (c ∈ escapedChars)) as [Hc|Hc].
  - destruct (reference_escaped c (concat (map escaped s)) attribute Hc) as (E1 & E2 & E3). set (t := concat (map escaped s)) in *.
    rewrite E1 in Hf |- *. cbn [app]. destruct fuel as [|fuel]; [cbn in Hf; lia|]. cbn [unescaped]. change (amp =? amp) with true. cbv iota.
    change (amp :: tail (escaped c) ++ t) with ((amp :: tail (escaped c)) ++ t). rewrite <- E1, E2, E3, drop_app_length. cbn [app]. f_equal. apply IH. cbn [length] in Hf. lia.
  - rewrite escaped_plain in * by done. cbn [app length] in *. destruct fuel as [|fuel]; [lia|]. cbn [unescaped]. destruct (Z.eqb_spec c amp) as [->|_].
    + destruct Hc. left.
    + f_equal. apply IH. lia.
Qed.

(** C20: For every text, [UnescapeString] of what [EscapeString] returns is the text, as its comment says, and so is what [unescape] makes of it in an attribute's value; and what [EscapeString] returns has no angle bracket, quotation mark or carriage return. *)
Theorem escape_roundtrip s : exists e, EscapeString s = Some e /\ UnescapeString e = Some s /\ (forall attribute, unescape e attribute = Some s) /\
  Forall (fun c => c ∉ [39; 60; 62; 34; 13]) e.
Proof.
  exists (concat (map escaped s)). split; [apply EscapeString_spec|].
  assert (forall attribute, unescape (concat (map escaped s)) attribute = Some s) as Hu by (intros attribute; unfold unescape; etransitivity; [apply (unescapeFrom_spec attribute _ []), not_elem_of_nil|]; f_equal; by apply unescaped_escaped).
  split; [|split; [exact Hu|]].
  - unfold UnescapeString. case_bool_decide as Ha; [apply Hu|]. f_equal. apply escaped_plains. apply Forall_forall. intros c Hc He.
    apply Ha, runes_byte; [done|]. destruct (reference_escaped c [] false He) as (E & _ & _).
    apply list_elem_of_In. apply in_concat. exists (escaped c). split; [apply in_map; by apply list_elem_of_In|]. rewrite E. by left.
  - apply Forall_concat, Forall_fmap, Forall_forall. intros c _. cbn. unfold escaped. destruct (decide (c ∈ escapedChars)) as [Hc|Hc].
    + unfold escapedChars in Hc. rewrite !elem_of_cons in Hc. destruct Hc as [->|[->|[->|[->|[->|[->|Hc]]]]]]; try (refine (bool_decide_unpack _ _); vm_compute; exact I).
      by apply not_elem_of_nil in Hc.
    + pose proof (escaped_plain c Hc) as E. unfold escaped in E. rewrite E. apply Forall_singleton. unfold escapedChars in Hc. by apply not_elem_of_cons in Hc as [_ Hc].
Qed.
